(* ===== verification/_CoqProject ===== *)
-Q . S2P
Prelude.v
Effects.v
Encoding.v
Sha256.v
Json.v
Paths.v
Host.v
HostFs.v
HostWatch.v
Stages.v
Command.v
Step.v
PackageConfig.v
Flags.v
History.v
HostInterrupts.v
Agent.v
StorePaths.v
AgentRuns.v
Completion.v
Graph.v
Float64.v
DeploymentPolicy.v
Api.v
NodeState.v
Skyhook.v
Interrupts.v
Conditions.v
Text.v
Node.v
Migration.v
Ownership.v
SkyhookV1.v
Conversion.v
Mirror.v
Certificates.v
Compartment.v
ClusterState.v
Partition.v
Webhook.v
WebhookV1.v
Events.v
Logs.v
Introspect.v
Drain.v
Options.v
Report.v
Merge.v
Jobs.v
JobBuilder.v
Handshake.v
Server.v
RuntimeRequired.v
Executor.v
Save.v
Sweep.v
Uninstall.v
Frame.v
ConfigMaps.v
Finalizer.v
Cluster.v
Reboots.v
Legacy.v
Outline.v
Rollout.v
Drains.v
Reconcile.v
Cli.v
CliEdit.v
CliWrites.v
CliReset.v
