(* ===== verification/Prelude.v ===== *)
(** * NodeWright: verification library

    NodeWright installs and maintains packages on the nodes of a Kubernetes
    cluster.  The operator ([operator/]) reads [NodeWright] resources and, for
    every node they select and every stage of every package, starts a Job on that
    node.  The Job's container is the node agent ([agent/go/]): it runs the steps
    of one stage on the host and leaves completion flags there.  The operator
    keeps how far a node has got in an annotation of the node, and the Job
    controllers write the outcome of a Job into it.  This library models both
    programs, translated by hand from the Go source, and proves what makes them
    correct.

    ** The operator

    The data and the decisions:
    - [Api], [NodeState]: [api/nodewright/v1alpha1/nodewright_types.go], the
      resource, its packages and images, the package state of a node.
    - [Graph]: [internal/graph/dependency_graph.go].
    - [DeploymentPolicy], [Float64]: [deployment_policy_types.go], strategies,
      budgets and batches, with the binary64 arithmetic they use.
    - [Compartment], [ClusterState], [Partition], [Introspect], [Report]:
      [internal/wrapper/compartment.go] and
      [internal/controller/cluster_state_v2.go], the resources of the cluster in
      their order, with their nodes in compartments; which node may start.
    - [Skyhook], [Conditions], [Node], [Migration]: [internal/wrapper/] and
      [internal/version/], the wrappers that own a resource's status and a
      node's metadata.
    - [Webhook]: [nodewright_webhook.go], what is admitted.
    - [Drain], [Options], [JobBuilder], [Interrupts]: [internal/drain/],
      [job_builder.go] and parts of [skyhook_controller.go].

    The reconcilers:
    - [Effects], [Server]: the state and error monad of a pass, and the calls it
      makes; a server is a function of the calls made so far, so every
      interleaving with other clients is one of its answers.
    - [Executor], [Sweep], [Uninstall], [ConfigMaps], [Finalizer], [Reboots],
      [RuntimeRequired], [Save], [Rollout], [Drains], [Legacy]: the steps of a pass of
      [skyhook_controller.go], and [migration_hold.go].
    - [Reconcile], with [Cluster] (the memory of a pass), [Frame] and [Outline]
      (what the steps keep): the pass itself, the steps in the source's order.
    - [Jobs]: [job_controller.go], [pod_controller.go] and [annotations.go].
    - [Logs]: the tail of a log, of [internal/dal/dal.go].
    - [Merge]: the annotation with three writers, [saveNodeChanges] on one side
      and [patchNodeState] on the other, under an optimistic lock.
    - [Certificates]: [webhook_controller.go] with [cert_utils.go] and
      [cert_watcher.go].
    - [SkyhookV1], [Conversion], [Mirror], [Ownership]: the frozen group
      [skyhook.nvidia.com], its conversion to the new group, the controllers
      that copy it, and owner references.
    - [WebhookV1]: admission in the old group, and of policies in both groups.
    - [Events]: [event_handler.go], which events wake the main pass.

    ** The node agent

    - [Host]: the machine: a disk with links, processes, a clock.  Any call may
      fail at any time; a killed agent is one whose later calls all fail.
    - [HostFs], [HostWatch]: [internal/hostfs], reads, atomic writes and copies
      below the host's root; what each leaves alone.
    - [Stages], [Command], [Step], [PackageConfig], [Flags], [History],
      [HostInterrupts], [Agent]: [internal/stage] with [internal/execution],
      [internal/command], [internal/step], [internal/config] with
      [internal/schema] and [internal/version], [internal/flags],
      [internal/history], [internal/interrupts], [internal/agent].
    - [StorePaths], [AgentRuns], [Completion]: theorems about the agent as a
      whole: where its files are, what it runs and how often, what it skips.

    [Handshake] joins the two: the command line, the environment and the
    encoded interrupt that the operator puts into a pod are what the agent
    reads there.

    ** The command line plugin

    - [Cli]: [internal/cli]: the calls of a command, what the cluster answers,
      the matching of nodes, the operator's version and namespace, questions.
    - [CliEdit]: the commands of [cmd/cli/app] that write, and the documents
      they send.  [CliWrites], [CliReset]: theorems about all commands, and
      about what a reset amounts to.

    Shared by all: this file (integers, maps, sorting, errors), [Encoding]
    (base64, [Atoi], runes), [Json], [Paths] ([path/filepath]), [Sha256],
    [Text].

    ** What the theorems show

    - A pass of the operator ([Reconcile]): what it may start and when, and that
      it comes back; [Rollout], [Introspect], [ClusterState]: resources in their
      order, nodes within their budgets, and no deadlock of the sequence.
    - One node: no work before the drain, and Jobs start alone ([Executor]); the
      pass that cordons a node removes no pod of it when one package interrupts
      there, and does when two do ([Drains]); a package never gets stuck in its
      life cycle ([NodeState]); the next packages are those whose dependencies are complete
      ([Node], [Graph]); one interrupt is enough for all ([Interrupts]).
    - The node state: a completion is recorded once ([Jobs]), a save overwrites
      no other writer's entry, and any interleaving is a sequence of whole
      writes ([Merge]).
    - Leaving: a finalizer is removed last ([Finalizer]), a reboot is acted on
      before it is forgotten ([Reboots]).
    - Budgets and batches: bounds for every strategy with overflow, exact
      counting of failures ([DeploymentPolicy], [Compartment]).
    - Admission: exactly what is accepted, that it can be worked on
      ([Webhook]), and that both groups admit alike ([WebhookV1]); the conversion
      and the mirror lose nothing and write only what they own ([Conversion],
      [Mirror]); the nodes of a pass wake it ([Events]); a certificate is trusted
      where it is served ([Certificates]); a Job matches what built it ([JobBuilder]), and
      the sweep decides once per Job ([Sweep]).
    - The agent: a stage runs its own steps in order and each at most once, a
      stage that succeeded runs nothing when it is run again, interrupts resume
      where they stopped and reboot at most once ([AgentRuns], [Completion]); a
      file is written whole or not at all, wherever the agent is killed
      ([HostFs]); which edits of a step count as a change ([Step], [Completion]);
      configurations are valid when loaded and survive dumping
      ([PackageConfig]).
    - The plugin: a command writes what it names, never in a dry run nor before
      it is confirmed ([CliWrites]); resetting a node does what the operator's
      own reset does, resetting the batches of a policy does not ([CliReset]).

    ** How the code is modelled

    - An [int] is a [Z] that wraps at 64 bits where it is computed with.  Times
      are nanoseconds; in the operator one reading of the clock, [now], stands
      for those of a pass.
    - An error is a value: its format and arguments, wrapped or joined, so that
      [errors.Is] can be asked.  Following a nil pointer is a panic, an outcome
      of its own.
    - A loop over a map has the order of the class [MapRange], about which only
      that it lists the map is known.
    - Nil and empty maps or slices are one value, except where the source tells
      them apart, where there is an [option].
    - An object shared through pointers is modelled once, with its aliases as
      names (the resource of a cluster's nodes, the interrupts of a spec in
      [Interrupts]).  Left out: that two copies of a node share an annotation
      map, and the backing arrays of slices.  A step of the main pass that fails
      leaves the memory as before it: its callers return, and nothing of it is
      saved.
    - Libraries are parameters, with their documented laws as fields: label
      selectors, [semver], quantities and validators of Kubernetes, JSON text,
      RFC 3339 and [time] texts, merge patches, X.509, JSON Schema, the table of
      printable characters.  Where a theorem assumes such a law its witness
      gives a function that has it.  Small vendored functions (taints, owner
      references, [retry.RetryOnConflict]) are translated instead.

    ** Bounds and fuel

    Most recursion is structural.  The walk that follows links on a disk gives up
    after 40 links and the copy of a tree below a path of [PATH_MAX] = 4096
    components, as Linux does.  [CreateLogFile] tries one name after the other; one
    more try than there are files on the disk is enough, since the names
    differ.  The walk over a dependency graph ([Graph]) takes as many steps as
    there are vertices; [retry.RetryOnConflict] makes five attempts.  SHA-256 and
    the globs of [path.Match] ([Skyhook]) take the length of their text.

    ** What is not modelled

    - Generated code (deep copies, mocks), metrics, logs and recorded events:
      nothing reads them back.
    - The managers ([cmd/manager], the agent's [main]): flags and wiring.  The
      predicates of the other reconcilers, whose theorems hold for every request.
    - The methods of the old group's types that nothing calls: copies of those of
      the new group on node states and batches.
    - The rest of the data access layer, and the client: their answers are those
      of [Server].
    - The commands of the plugin that only print, and its tables.
    - Hard links, file owners, power failures and the working directory on the
      host; what a command does to the disk, which is arbitrary; contexts that
      are nil. *)

From Stdlib Require Export Ascii ZArith Lia.
From stdpp Require Export base gmap strings list sorting option.
From stdpp Require Import pretty.
From stdpp Require Export list.

#[global] Set Default Proof Using "Type".

(* ------------------------------------------------------------------ *)
(** ** Machine integers: Go's [int] and [int64] are 64-bit two's complement *)

Declare Scope go_scope.
Delimit Scope go_scope with go.

Definition two64 : Z := 18446744073709551616.
Definition two63 : Z := 9223372036854775808.

Definition wrap64 (z : Z) : Z := (z + two63) mod two64 - two63.

Definition int_add (x y : Z) : Z := wrap64 (x + y).
Definition int_sub (x y : Z) : Z := wrap64 (x - y).
Definition int_mul (x y : Z) : Z := wrap64 (x * y).
(** Go's [/] truncates toward zero; the caller guards the zero divisor. *)
Definition int_quot (x y : Z) : Z := wrap64 (Z.quot x y).

Notation "x +! y" := (int_add x y) (at level 50, left associativity) : go_scope.
Notation "x -! y" := (int_sub x y) (at level 50, left associativity) : go_scope.
Notation "x *! y" := (int_mul x y) (at level 40, left associativity) : go_scope.
Notation "x /! y" := (int_quot x y) (at level 40, left associativity) : go_scope.

Definition int64 (z : Z) : Prop := (- two63 <= z < two63)%Z.
#[export] Instance int64_dec z : Decision (int64 z).
Proof. unfold int64. apply _. Defined.

(** Go's [len] of a slice or map. *)
Definition zlen {A} (l : list A) : Z := Z.of_nat (length l).

Lemma wrap64_range z : int64 (wrap64 z).
Proof.
  unfold int64, wrap64.
  pose proof (Z.mod_pos_bound (z + two63) two64 ltac:(done)).
  unfold two63, two64 in *. lia.
Qed.

Lemma wrap64_id z : int64 z -> wrap64 z = z.
Proof.
  unfold int64, wrap64. intros H.
  rewrite Z.mod_small; unfold two63, two64 in *; lia.
Qed.

Lemma int_add_id x y : int64 (x + y) -> int_add x y = (x + y)%Z.
Proof. apply wrap64_id. Qed.
Lemma int_sub_id x y : int64 (x - y) -> int_sub x y = (x - y)%Z.
Proof. apply wrap64_id. Qed.
Lemma int_mul_id x y : int64 (x * y) -> int_mul x y = (x * y)%Z.
Proof. apply wrap64_id. Qed.

Lemma int_quot_id x y : (0 <= x)%Z -> int64 x -> (0 < y)%Z -> int_quot x y = (x / y)%Z.
Proof.
  intros Hx Hr Hy. unfold int_quot. rewrite Z.quot_div_nonneg by lia.
  apply wrap64_id. unfold int64 in *.
  pose proof (Z.div_pos x y Hx Hy).
  assert (x / y <= x)%Z by (apply Z.div_le_upper_bound; nia).
  lia.
Qed.

(* ------------------------------------------------------------------ *)
(** ** Errors and panics

    An error is the format string of the source's [fmt.Errorf] / [errors.New]
    with its string arguments and the error it wraps with [%w]; [errors.Join]
    keeps both. *)

Inductive error : Type :=
| Errorf (fmt : string) (args : list string)
| Wrapf (fmt : string) (args : list string) (wrapped : error)
| Joined (e e' : error).

#[export] Instance error_eq_dec : EqDecision error.
Proof. intros e. induction e; intros []; try (right; discriminate); solve_decision. Defined.

(** [errors.Is] *)
Fixpoint errors_Is (e target : error) : bool :=
  bool_decide (e = target) ||
  match e with Wrapf _ _ e => errors_Is e target | Joined e e' => errors_Is e target || errors_Is e' target | Errorf _ _ => false end.

Inductive res (A : Type) : Type :=
| Ok (a : A)
| Err (e : error)
| Panic.
Arguments Ok {A} a.
Arguments Err {A} e.
Arguments Panic {A}.

Definition errorf (fmt : string) (args : list string) : error := Errorf fmt args.
Definition wrapf (fmt : string) (args : list string) (e : error) : error := Wrapf fmt args e.

Definition rbind {A B} (m : res A) (f : A -> res B) : res B :=
  match m with Ok a => f a | Err e => Err e | Panic => Panic end.

(** [if err != nil { return fmt.Errorf(fmt, args..., err) }] *)
Definition rwrap {A} (fmt : string) (args : list string) (m : res A) : res A :=
  match m with Ok a => Ok a | Err e => Err (wrapf fmt args e) | Panic => Panic end.

Notation "'let!' x ':=' m 'in' k" := (rbind m (fun x => k))
  (at level 10, x binder, m at level 100, k at level 200) : go_scope.
Notation "'let!' ' p ':=' m 'in' k" := (rbind m (fun x => match x with p => k end))
  (at level 10, p pattern, m at level 100, k at level 200) : go_scope.

Definition is_ok {A} (m : res A) : bool := match m with Ok _ => true | _ => false end.
Definition is_err {A} (m : res A) : bool := match m with Err _ => true | _ => false end.

(** Dereferencing a pointer: a nil dereference panics. *)
Definition deref {A} (p : option A) : res A :=
  match p with Some a => Ok a | None => Panic end.

(** A [for] loop over a slice whose body can fail. *)
Fixpoint rfold {S A} (f : S -> A -> res S) (s : S) (l : list A) : res S :=
  match l with
  | [] => Ok s
  | a :: l => rbind (f s a) (fun s' => rfold f s' l)
  end.

Fixpoint rforall {A} (f : A -> res unit) (l : list A) : res unit :=
  match l with
  | [] => Ok tt
  | a :: l => rbind (f a) (fun _ => rforall f l)
  end.

Lemma rbind_ok {A B} (m : res A) (f : A -> res B) b :
  rbind m f = Ok b <-> exists a, m = Ok a /\ f a = Ok b.
Proof. destruct m; simpl; naive_solver. Qed.

Lemma rbind_unit_ok {B} (m : res unit) (f : unit -> res B) b :
  rbind m f = Ok b <-> m = Ok tt /\ f tt = Ok b.
Proof. rewrite rbind_ok. split; [intros ([] & ? & ?); done|intros [? ?]; by exists tt]. Qed.

Lemma rwrap_ok {A} fmt args (m : res A) a : rwrap fmt args m = Ok a <-> m = Ok a.
Proof. destruct m; simpl; naive_solver. Qed.

Lemma rforall_ok {A} (f : A -> res unit) l :
  rforall f l = Ok tt <-> Forall (fun a => f a = Ok tt) l.
Proof.
  induction l as [|a l IH]; simpl.
  - split; [constructor|done].
  - rewrite rbind_ok, Forall_cons. setoid_rewrite IH.
    split; [intros ([] & ? & ?); done | intros [? ?]; exists tt; done].
Qed.

(* ------------------------------------------------------------------ *)
(** ** Strings: Go compares strings bytewise *)

Definition str_leb (a b : string) : bool := String.leb a b.
Definition str_ltb (a b : string) : bool := String.ltb a b.

Definition str_le (a b : string) : Prop := str_leb a b = true.
#[export] Instance str_le_dec a b : Decision (str_le a b).
Proof. unfold str_le. apply _. Defined.

Lemma ascii_compare_trans c a b d :
  Ascii.compare a b = c -> Ascii.compare b d = c -> Ascii.compare a d = c.
Proof.
  unfold Ascii.compare. intros H1 H2.
  destruct c.
  - rewrite N.compare_eq_iff in *. congruence.
  - rewrite N.compare_lt_iff in *. by etrans.
  - rewrite N.compare_gt_iff in *. by etrans.
Qed.

Lemma ascii_compare_eq a b : Ascii.compare a b = Eq <-> a = b.
Proof.
  unfold Ascii.compare. rewrite N.compare_eq_iff. split; [|congruence].
  intros H. rewrite <- (Ascii.ascii_N_embedding a), <- (Ascii.ascii_N_embedding b). congruence.
Qed.

Lemma string_compare_refl s : String.compare s s = Eq.
Proof.
  induction s as [|a s IH]; [done|]; simpl.
  rewrite (proj2 (ascii_compare_eq a a) eq_refl). done.
Qed.

Lemma string_compare_lt_trans a b d :
  String.compare a b = Lt -> String.compare b d = Lt -> String.compare a d = Lt.
Proof.
  revert b d; induction a as [|x a IH]; intros [|y b] [|z d]; simpl; try done.
  destruct (Ascii.compare x y) eqn:Hxy; try done;
    destruct (Ascii.compare y z) eqn:Hyz; try done; intros H1 H2.
  - rewrite (ascii_compare_trans _ _ _ _ Hxy Hyz). eauto.
  - apply ascii_compare_eq in Hxy as ->. by rewrite Hyz.
  - apply ascii_compare_eq in Hyz as ->. by rewrite Hxy.
  - by rewrite (ascii_compare_trans _ _ _ _ Hxy Hyz).
Qed.

#[export] Instance str_le_total : Total str_le.
Proof.
  intros a b. unfold str_le, str_leb, String.leb.
  rewrite (String.compare_antisym b a). destruct (String.compare a b); simpl; auto.
Qed.

#[export] Instance str_le_trans : Transitive str_le.
Proof.
  intros a b c. unfold str_le, str_leb, String.leb.
  destruct (String.compare a b) eqn:Hab; try done;
    destruct (String.compare b c) eqn:Hbc; try done; intros _ _.
  - apply String.compare_eq_iff in Hab as ->. by rewrite Hbc.
  - apply String.compare_eq_iff in Hab as ->. by rewrite Hbc.
  - apply String.compare_eq_iff in Hbc as ->. by rewrite Hab.
  - by rewrite (string_compare_lt_trans _ _ _ Hab Hbc).
Qed.

#[export] Instance str_le_antisymm : AntiSymm eq str_le.
Proof.
  intros a b. unfold str_le, str_leb, String.leb.
  rewrite (String.compare_antisym b a). destruct (String.compare a b) eqn:H; simpl; try done.
  intros _ _. by apply String.compare_eq_iff.
Qed.

#[export] Instance str_le_refl : Reflexive str_le.
Proof. intros a. unfold str_le, str_leb, String.leb. by rewrite string_compare_refl. Qed.

Lemma str_ltb_spec a b : str_ltb a b = true <-> str_le a b /\ a <> b.
Proof.
  unfold str_ltb, str_le, str_leb, String.ltb, String.leb.
  destruct (String.compare a b) eqn:H; split; try naive_solver.
  - apply String.compare_eq_iff in H. naive_solver.
  - intros _. split; [done|]. intros ->. rewrite string_compare_refl in H. done.
Qed.

Lemma str_ltb_irrefl a : str_ltb a a = false.
Proof. unfold str_ltb, String.ltb. by rewrite string_compare_refl. Qed.

Lemma str_leb_ltb a b : str_leb a b = negb (str_ltb b a).
Proof.
  unfold str_ltb, str_leb, String.ltb, String.leb. rewrite (String.compare_antisym a b).
  destruct (String.compare b a); done.
Qed.

(** [sort.Strings] *)
Definition sort_strings (l : list string) : list string := merge_sort str_le l.

Lemma sort_strings_Permutation l : sort_strings l ≡ₚ l.
Proof. apply merge_sort_Permutation. Qed.

Lemma sort_strings_Sorted l : StronglySorted str_le (sort_strings l).
Proof. apply StronglySorted_merge_sort; apply _. Qed.

Lemma elem_of_sort_strings x l : x ∈ sort_strings l <-> x ∈ l.
Proof. by rewrite sort_strings_Permutation. Qed.

(** Sorting forgets the order in which the elements were collected. *)
#[export] Instance sort_strings_proper : Proper ((≡ₚ) ==> eq) sort_strings.
Proof.
  intros l1 l2 H. apply (StronglySorted_unique str_le); auto using sort_strings_Sorted.
  by rewrite !sort_strings_Permutation.
Qed.

Lemma append_cons x s t : String x s +:+ t = String x (s +:+ t).
Proof. done. Qed.

Lemma append_nil_l t : "" +:+ t = t.
Proof. done. Qed.

Lemma append_nil_r s : s +:+ "" = s.
Proof. induction s as [|x s IH]; [done|]. by rewrite append_cons, IH. Qed.

Lemma append_assoc a b c : (a +:+ b) +:+ c = a +:+ (b +:+ c).
Proof. induction a as [|x a IH]; [done|]. by rewrite !append_cons, IH. Qed.

Lemma append_inj_l a b c : a +:+ b = a +:+ c -> b = c.
Proof. induction a as [|x a IH]; [done|]. rewrite !append_cons. intros [= H]. auto. Qed.

Lemma length_append s t : String.length (s +:+ t) = (String.length s + String.length t)%nat.
Proof. induction s as [|x s IH]; [done|]. rewrite append_cons. simpl. by rewrite IH. Qed.

(** [strings.Join] *)
Fixpoint join (sep : string) (l : list string) : string :=
  match l with
  | [] => ""
  | [s] => s
  | s :: l => s +:+ sep +:+ join sep l
  end.

(** [strings.HasPrefix] and [strings.HasSuffix] *)
Definition has_prefix (s p : string) : bool := String.prefix p s.

Fixpoint has_suffix (s p : string) : bool :=
  bool_decide (s = p) ||
  match s with EmptyString => false | String _ s' => has_suffix s' p end.

Lemma has_prefix_spec s p : has_prefix s p = true <-> exists b, s = p +:+ b.
Proof.
  unfold has_prefix. revert s; induction p as [|x p IH]; intros s.
  - split; [|by destruct s]. intros _. by exists s.
  - destruct s as [|y s]; simpl.
    + split; [done|]. by intros [b H].
    + case_match; [subst|split; [done|intros [b Hb]; rewrite append_cons in Hb; congruence]].
      rewrite IH. split; intros [b Hb]; exists b; [by rewrite Hb|].
      rewrite append_cons in Hb. by injection Hb.
Qed.

Lemma has_suffix_spec s p : has_suffix s p = true <-> exists a, s = a +:+ p.
Proof.
  induction s as [|x s IH]; simpl; rewrite orb_true_iff, bool_decide_eq_true.
  - split; [intros [->|]; [by exists ""|done]|]. intros [[|y a] H]; [by left|done].
  - rewrite IH. split.
    + intros [->|[a ->]]; [by exists ""|by exists (String x a)].
    + intros [[|y a] H]; [by left|]. rewrite append_cons in H. injection H as -> ->. eauto.
Qed.

#[global] Arguments has_prefix : simpl never.
#[global] Arguments has_suffix : simpl never.

Lemma has_prefix_app p b : has_prefix (p +:+ b) p = true.
Proof. apply has_prefix_spec. eauto. Qed.

Lemma has_suffix_app a p : has_suffix (a +:+ p) p = true.
Proof. apply has_suffix_spec. eauto. Qed.

Definition show_int (z : Z) : string := pretty z.

(* ------------------------------------------------------------------ *)
(** ** Ranging over a map

    Go leaves the order of [for k, v := range m] unspecified.  Every
    definition that ranges over a map is parameterised by a [MapRange], which
    lists the entries of a map in some order; the theorems hold for all of
    them.  [sorted_range] is one, used to evaluate the model. *)

Class MapRange := {
  range : forall {V : Type}, gmap string V -> list (string * V);
  range_Permutation : forall {V : Type} (m : gmap string V), range m ≡ₚ map_to_list m
}.

#[export] Instance canonical_range : MapRange | 100 := {
  range V m := map_to_list m;
  range_Permutation V m := reflexivity _
}.

Section MapRange.
Context `{MR : MapRange}.

Lemma elem_of_range {V} (m : gmap string V) k v : (k, v) ∈ range m <-> m !! k = Some v.
Proof. by rewrite range_Permutation, elem_of_map_to_list. Qed.

Lemma NoDup_range {V} (m : gmap string V) : NoDup (range m).*1.
Proof. rewrite range_Permutation. apply NoDup_fst_map_to_list. Qed.

Lemma length_range {V} (m : gmap string V) : length (range m) = size m.
Proof. rewrite range_Permutation. apply length_map_to_list. Qed.

Lemma elem_of_range_fst {V} (m : gmap string V) k :
  k ∈ (range m).*1 <-> is_Some (m !! k).
Proof.
  rewrite list_elem_of_fmap. split.
  - intros ([k' v] & -> & H%elem_of_range). by exists v.
  - intros [v H]. exists (k, v). by rewrite elem_of_range.
Qed.
End MapRange.


(* ------------------------------------------------------------------ *)
(** ** Generic list lemmas *)

(** [for ... { if p(x) { return true } }; return false] *)
Definition any {A} (p : A -> bool) (l : list A) : bool := existsb p l.
Definition all {A} (p : A -> bool) (l : list A) : bool := forallb p l.

Lemma any_true {A} (p : A -> bool) l : any p l = true <-> exists x, x ∈ l /\ p x = true.
Proof.
  unfold any. rewrite existsb_exists. by setoid_rewrite list_elem_of_In.
Qed.

Lemma any_false {A} (p : A -> bool) l : any p l = false <-> forall x, x ∈ l -> p x = false.
Proof.
  rewrite <- not_true_iff_false, any_true. split.
  - intros H x Hx. apply not_true_iff_false. naive_solver.
  - intros H (x & Hx & Hp). rewrite H in Hp; done.
Qed.

Lemma any_app {A} (p : A -> bool) l l' : any p (l ++ l') = any p l || any p l'.
Proof. induction l as [|x l IH]; simpl; [done|]. by rewrite IH, orb_assoc. Qed.

Lemma any_ext {A} (p q : A -> bool) l : (forall x, x ∈ l -> p x = q x) -> any p l = any q l.
Proof.
  induction l as [|x l IH]; simpl; intros H; [done|]. rewrite H by by left. f_equal. apply IH. intros; apply H. by right.
Qed.

Lemma all_true {A} (p : A -> bool) l : all p l = true <-> forall x, x ∈ l -> p x = true.
Proof.
  unfold all. rewrite forallb_forall. by setoid_rewrite list_elem_of_In.
Qed.

Lemma all_false {A} (p : A -> bool) l : all p l = false <-> exists x, x ∈ l /\ p x = false.
Proof.
  induction l as [|a l IH]; simpl.
  - split; [done|]. intros (x & Hx & _). by apply elem_of_nil in Hx.
  - rewrite andb_false_iff, IH. setoid_rewrite elem_of_cons. naive_solver.
Qed.

Lemma bool_decide_elem_of_pair `{EqDecision A} (x a b : A) :
  bool_decide (x ∈ [a; b]) = bool_decide (x = a) || bool_decide (x = b).
Proof.
  rewrite <- bool_decide_or. apply bool_decide_ext. rewrite !elem_of_cons, elem_of_nil. tauto.
Qed.

Definition count {A} (p : A -> bool) (l : list A) : Z := zlen (List.filter p l).

Lemma elem_of_filterb {A} (p : A -> bool) l x : x ∈ List.filter p l <-> x ∈ l /\ p x = true.
Proof. by rewrite !list_elem_of_In, filter_In. Qed.

Lemma count_nonneg {A} (p : A -> bool) l : (0 <= count p l)%Z.
Proof. unfold count, zlen. lia. Qed.

Lemma NoDup_map_inj {A B} (f : A -> B) l x y : NoDup (map f l) -> x ∈ l -> y ∈ l -> f x = f y -> x = y.
Proof.
  intros Hnd [i Hi]%list_elem_of_lookup [j Hj]%list_elem_of_lookup Hf. assert (i = j) as ->; [|congruence].
  eapply (NoDup_lookup (map f l)); [done|apply list_lookup_fmap_Some; by exists x|].
  apply list_lookup_fmap_Some. by exists y.
Qed.

Lemma NoDup_map_filter {A B} (f : A -> B) (p : A -> bool) l : NoDup (map f l) -> NoDup (map f (List.filter p l)).
Proof.
  induction l as [|x l IH]; simpl; [done|]. intros [Hx Hl]%NoDup_cons. destruct (p x); [|auto]. simpl.
  apply NoDup_cons. split; [|auto]. intros (y & Hy & [Hin _]%elem_of_filterb)%list_elem_of_fmap.
  apply Hx, list_elem_of_fmap. eauto.
Qed.

(** The first and the last element are apart from the ones between. *)
Lemma NoDup_ends {A B} (f : A -> B) a mid b : NoDup (map f (a :: mid ++ [b])) -> a ∉ mid /\ b ∉ mid /\ f a <> f b.
Proof.
  simpl. rewrite map_app. intros [Ha Hr]%NoDup_cons. apply NoDup_app in Hr as (_ & Hb & _).
  rewrite elem_of_app in Ha. simpl in Ha. split_and!.
  - intros H. apply Ha. left. apply list_elem_of_fmap. eauto.
  - intros H. apply (Hb (f b)); [apply list_elem_of_fmap; eauto|by left].
  - intros H. apply Ha. right. rewrite H. by left.
Qed.

Lemma length_filterb_le {A} (p : A -> bool) l : (length (List.filter p l) <= length l)%nat.
Proof. apply filter_length_le. Qed.

Lemma count_le {A} (p : A -> bool) l : (count p l <= zlen l)%Z.
Proof. unfold count, zlen. pose proof (length_filterb_le p l). lia. Qed.

Lemma count_full {A} (p : A -> bool) l : count p l = zlen l <-> forall x, x ∈ l -> p x = true.
Proof.
  unfold count, zlen. induction l as [|a l IH]; simpl.
  - split; [intros _ x Hx; by apply elem_of_nil in Hx|done].
  - setoid_rewrite elem_of_cons. pose proof (length_filterb_le p l).
    destruct (p a) eqn:Ha; simpl.
    + rewrite <- all_true in IH. split.
      * intros Hl x [-> | Hx]; [done|]. assert (length (List.filter p l) = length l) as E by lia.
        rewrite all_true in IH. apply IH; [lia|done].
      * intros Hx. rewrite all_true in IH.
        assert (Z.of_nat (length (List.filter p l)) = Z.of_nat (length l)); [|lia].
        apply IH. auto.
    + split; [lia|]. intros Hx. rewrite Hx in Ha; [done|auto].
Qed.

Lemma count_zero {A} (p : A -> bool) l : count p l = 0%Z <-> forall x, x ∈ l -> p x = false.
Proof.
  unfold count, zlen. induction l as [|a l IH]; simpl.
  - split; [intros _ x Hx; by apply elem_of_nil in Hx|done].
  - setoid_rewrite elem_of_cons. destruct (p a) eqn:Ha; simpl.
    + split; [lia|]. intros Hx. rewrite Hx in Ha; [done|auto].
    + rewrite IH. naive_solver.
Qed.

(** Of the elements that fail [c], all satisfy [q] exactly when as many do. *)
Lemma count_rest {A} (c q : A -> bool) l :
  count (fun x => negb (c x) && q x) l = (zlen l - count c l)%Z <-> forall x, x ∈ l -> c x = false -> q x = true.
Proof.
  unfold count, zlen. induction l as [|a l IH]; simpl.
  { split; [intros _ x Hx; by apply elem_of_nil in Hx|done]. }
  setoid_rewrite elem_of_cons.
  assert (length (List.filter c l) + length (List.filter (fun x => negb (c x) && q x) l) <= length l)%nat as Hle.
  { clear. induction l as [|a l IH]; simpl; [lia|]. destruct (c a), (q a); simpl; lia. }
  destruct (c a) eqn:Ha; simpl; [|destruct (q a) eqn:Hq; simpl].
  - split; [intros H x [->|Hx]; [congruence|apply IH; [lia|done]]|].
    intros H. assert (Z.of_nat (length (List.filter (fun x => negb (c x) && q x) l)) =
      Z.of_nat (length l) - Z.of_nat (length (List.filter c l)))%Z by (apply IH; auto). lia.
  - split; [intros H x [->|Hx]; [done|apply IH; [lia|done]]|].
    intros H. assert (Z.of_nat (length (List.filter (fun x => negb (c x) && q x) l)) =
      Z.of_nat (length l) - Z.of_nat (length (List.filter c l)))%Z by (apply IH; auto). lia.
  - split; [lia|]. intros H. rewrite (H a) in Hq; auto; done.
Qed.

Lemma count_pos {A} (p : A -> bool) l : (0 < count p l)%Z <-> exists x, x ∈ l /\ p x = true.
Proof.
  unfold count, zlen. induction l as [|a l IH]; simpl.
  { split; [lia|]. intros (x & Hx & _). by apply elem_of_nil in Hx. }
  setoid_rewrite elem_of_cons. destruct (p a) eqn:Ha; simpl.
  - split; [intros _; exists a; auto|lia].
  - rewrite IH. naive_solver congruence.
Qed.

Lemma find_split {A} (p : A -> bool) l x :
  List.find p l = Some x -> exists l1 l2, l = l1 ++ x :: l2 /\ (forall y, y ∈ l1 -> p y = false) /\ p x = true.
Proof.
  induction l as [|a l IH]; simpl; [done|]. destruct (p a) eqn:Ha.
  - intros [= ->]. exists [], l. split_and!; [done| |done]. intros y Hy. by apply elem_of_nil in Hy.
  - intros (l1 & l2 & -> & H & Hx)%IH. exists (a :: l1), l2. split_and!; [done| |done].
    intros y [->|Hy]%elem_of_cons; auto.
Qed.

Lemma find_none_iff {A} (p : A -> bool) l : List.find p l = None <-> forall x, x ∈ l -> p x = false.
Proof.
  split; [intros H x Hx; apply (find_none _ _ H); by apply list_elem_of_In|].
  intros H. destruct (List.find p l) eqn:E; [|done]. apply find_some in E as [Hin Hp].
  rewrite H in Hp; [done|by apply list_elem_of_In].
Qed.

(** Inductive closure of a step relation. *)
Inductive star {S : Type} (R : S -> S -> Prop) : S -> S -> Prop :=
| star_nil s : star R s s
| star_cons s t u : R s t -> star R t u -> star R s u.

Lemma star_invariant {S} (R : S -> S -> Prop) (P : S -> Prop) :
  (forall s t, P s -> R s t -> P t) -> forall s t, star R s t -> P s -> P t.
Proof. intros HR s t Hs. induction Hs; eauto. Qed.

(* ------------------------------------------------------------------ *)
(** ** Automation *)

Create HintDb nodewright.
#[export] Hint Resolve sort_strings_Sorted sort_strings_Permutation : nodewright.
#[export] Hint Resolve count_nonneg count_le : nodewright.
#[export] Hint Rewrite @elem_of_range elem_of_sort_strings @elem_of_filterb : nodewright.

(** Split the boolean tests of a hypothesis or goal into propositions. *)
Ltac bool_simpl :=
  repeat match goal with
  | H : (_ && _)%bool = true |- _ => apply andb_true_iff in H as [? ?]
  | H : (_ || _)%bool = false |- _ => apply orb_false_iff in H as [? ?]
  | H : negb _ = true |- _ => apply negb_true_iff in H
  | H : negb _ = false |- _ => apply negb_false_iff in H
  | H : bool_decide _ = true |- _ => apply bool_decide_eq_true_1 in H
  | H : bool_decide _ = false |- _ => apply bool_decide_eq_false_1 in H
  | H : (_ <? _)%Z = true |- _ => apply Z.ltb_lt in H
  | H : (_ <? _)%Z = false |- _ => apply Z.ltb_ge in H
  | H : (_ <=? _)%Z = true |- _ => apply Z.leb_le in H
  | H : (_ <=? _)%Z = false |- _ => apply Z.leb_gt in H
  | H : (_ =? _)%Z = true |- _ => apply Z.eqb_eq in H
  | H : (_ =? _)%Z = false |- _ => apply Z.eqb_neq in H
  end.

(** Case analysis on the first boolean or option scrutinised in the goal. *)
Ltac case_if :=
  match goal with
  | |- context [if ?b then _ else _] =>
      let E := fresh "E" in destruct b eqn:E
  end.

Ltac case_match_in H :=
  match type of H with
  | context [match ?x with _ => _ end] =>
      let E := fresh "E" in destruct x eqn:E
  end.
