(* ===== verification/Effects.v ===== *)
(** * Programs that call the API server

    The reconciler threads three things through its calls: the objects it holds
    in memory, the calls it has made to the API server, and an error.  [M] is
    that state and error monad.  What the server answers may depend on every
    call made before, so a theorem that quantifies over the server covers every
    interleaving with the other clients.

    [steps R m] says that [m] moves the pass along the preorder [R]; its rules
    are hints of the database [steps]. *)

From S2P Require Import Prelude.

Section Effects.
Context {E S : Type}.

(** The calls so far, oldest first, and the objects in memory. *)
Record pass := Pass { trace : list E; mem : S }.

Definition M (A : Type) : Type := pass -> pass * res A.

Definition ret {A} (a : A) : M A := fun s => (s, Ok a).
Definition raise {A} (e : error) : M A := fun s => (s, Err e).
Definition lift {A} (r : res A) : M A := fun s => (s, r).

Definition bind {A B} (m : M A) (k : A -> M B) : M B := fun s =>
  match m s with
  | (s, Ok a) => k a s
  | (s, Err e) => (s, Err e)
  | (s, Panic) => (s, Panic)
  end.

(** [if err != nil { return fmt.Errorf(fmt, args..., err) }] *)
Definition wrap {A} (fmt : string) (args : list string) (m : M A) : M A := fun s =>
  ((m s).1, rwrap fmt args (m s).2).

Definition gets {A} (f : S -> A) : M A := fun s => (s, Ok (f (mem s))).
Definition modify (f : S -> S) : M unit := fun s => ({| trace := trace s; mem := f (mem s) |}, Ok tt).

(** One call; the server sees the calls before it. *)
Definition call {A} (e : E) (answer : list E -> res A) : M A := fun s =>
  ({| trace := trace s ++ [e]; mem := mem s |}, answer (trace s)).

(** The error of [m] as a value, for the loops that collect errors. *)
Definition try {A} (m : M A) : M (option error) := fun s =>
  match m s with
  | (s, Ok _) => (s, Ok None)
  | (s, Err e) => (s, Ok (Some e))
  | (s, Panic) => (s, Panic)
  end.

Fixpoint loop {A B} (f : B -> A -> M B) (acc : B) (l : list A) : M B :=
  match l with
  | [] => ret acc
  | a :: l => bind (f acc a) (fun acc => loop f acc l)
  end.

(** [utilerrors.NewAggregate]: nil for no error. *)
Definition aggregate (errs : list error) : res unit :=
  match errs with [] => Ok tt | e :: errs => Err (fold_left (fun acc e => Wrapf "%s, %w" [] e) errs e) end.

(** What the program did: the calls it added. *)
Definition calls {A} (m : M A) (s : pass) : list E := drop (length (trace s)) (trace (m s).1).

(* ------------------------------------------------------------------ *)
(** ** Preorders on passes *)

Section Steps.
Context (R : pass -> pass -> Prop) `{!PreOrder R}.

#[local] Set Default Proof Using "Type*".

Definition steps {A} (m : M A) : Prop := forall s, R s (m s).1.

Lemma steps_ret {A} (a : A) : steps (ret a).
Proof. intros s. reflexivity. Qed.

Lemma steps_raise {A} e : steps (@raise A e).
Proof. intros s. reflexivity. Qed.

Lemma steps_lift {A} (r : res A) : steps (lift r).
Proof. intros s. reflexivity. Qed.

Lemma steps_gets {A} (f : S -> A) : steps (gets f).
Proof. intros s. reflexivity. Qed.

Lemma steps_bind {A B} (m : M A) (k : A -> M B) : steps m -> (forall a, steps (k a)) -> steps (bind m k).
Proof.
  intros Hm Hk s. unfold bind. pose proof (Hm s) as H. destruct (m s) as [s' [a|e|]]; simpl in *; [|done..].
  etrans; [exact H|apply Hk].
Qed.

Lemma steps_wrap {A} fmt args (m : M A) : steps m -> steps (wrap fmt args m).
Proof. intros Hm s. exact (Hm s). Qed.

Lemma steps_try {A} (m : M A) : steps m -> steps (try m).
Proof. intros Hm s. unfold try. pose proof (Hm s). by destruct (m s) as [s' [a|e|]]. Qed.

Lemma steps_if {A} (b : bool) (m m' : M A) : steps m -> steps m' -> steps (if b then m else m').
Proof. by destruct b. Qed.

Lemma steps_loop {A B} (f : B -> A -> M B) acc l : (forall acc a, a ∈ l -> steps (f acc a)) -> steps (loop f acc l).
Proof.
  revert acc; induction l as [|a l IH]; intros acc Hf; simpl; [apply steps_ret|].
  apply steps_bind; [apply Hf; by left|]. intros acc'. apply IH. intros acc'' a' Ha. apply Hf. by right.
Qed.

End Steps.

(** Every call added satisfies [P]. *)
Definition emits (P : E -> Prop) (s s' : pass) : Prop := exists t, trace s' = trace s ++ t /\ Forall P t.

#[export] Instance emits_preorder P : PreOrder (emits P).
Proof.
  split.
  - intros s. exists []. by rewrite app_nil_r.
  - intros s s' s'' (t & H & Ht) (t' & H' & Ht'). exists (t ++ t'). rewrite H', H, app_assoc.
    split; [done|]. by apply Forall_app.
Qed.

Lemma emits_call {A} (P : E -> Prop) e (answer : list E -> res A) : P e -> steps (emits P) (call e answer).
Proof. intros H s. exists [e]. split; [done|]. by constructor. Qed.

Lemma emits_modify (P : E -> Prop) f : steps (emits P) (modify f).
Proof. intros s. exists []. simpl. by rewrite app_nil_r. Qed.

Lemma emits_weaken {A} (P Q : E -> Prop) (m : M A) : (forall e, P e -> Q e) -> steps (emits P) m -> steps (emits Q) m.
Proof. intros H Hm s. destruct (Hm s) as (t & Ht & HP). exists t. split; [done|]. by eapply Forall_impl. Qed.

(** The objects in memory move along [I]. *)
Definition updates (I : S -> S -> Prop) (s s' : pass) : Prop := I (mem s) (mem s').

#[export] Instance updates_preorder I : PreOrder I -> PreOrder (updates I).
Proof.
  intros HI. split; [intros s; unfold updates; reflexivity|]. intros s s' s'' H H'. unfold updates in *. by etrans.
Qed.

Lemma updates_call {A} (I : S -> S -> Prop) `{!PreOrder I} e (answer : list E -> res A) : steps (updates I) (call e answer).
Proof. intros s. unfold updates. simpl. reflexivity. Qed.

Lemma updates_modify (I : S -> S -> Prop) f : (forall x, I x (f x)) -> steps (updates I) (modify f).
Proof. intros H s. apply H. Qed.

(** From memory that satisfies [I], the pass keeps [I] and makes only calls that
    satisfy [Q]. *)
Definition keeps (I : S -> Prop) (Q : E -> Prop) (s s' : pass) : Prop :=
  I (mem s) -> I (mem s') /\ exists t, trace s' = trace s ++ t /\ Forall Q t.

#[export] Instance keeps_preorder I Q : PreOrder (keeps I Q).
Proof.
  split.
  - intros s H. split; [done|]. exists []. by rewrite app_nil_r.
  - intros s s' s'' H H' Hs. destruct (H Hs) as (Hs' & t & Ht & Hq). destruct (H' Hs') as (Hs'' & t' & Ht' & Hq').
    split; [done|]. exists (t ++ t'). rewrite Ht', Ht, app_assoc. split; [done|]. by apply Forall_app.
Qed.

Lemma keeps_call {A} (I : S -> Prop) (Q : E -> Prop) e (answer : list E -> res A) : Q e -> steps (keeps I Q) (call e answer).
Proof. intros H s Hs. split; [exact Hs|]. exists [e]. split; [done|]. by constructor. Qed.

Lemma keeps_modify (I : S -> Prop) (Q : E -> Prop) f : (forall x, I x -> I (f x)) -> steps (keeps I Q) (modify f).
Proof. intros H s Hs. split; [by apply H|]. exists []. simpl. by rewrite app_nil_r. Qed.

(** What is read from the memory satisfies what the memory does. *)
Lemma keeps_reads {A B} (I : S -> Prop) (Q : E -> Prop) (f : S -> A) (k : A -> M B) :
  (forall x, I x -> steps (keeps I Q) (k (f x))) -> steps (keeps I Q) (bind (gets f) k).
Proof. intros H s Hs. exact (H (mem s) Hs s Hs). Qed.

Lemma keeps_weaken {A} (I : S -> Prop) (Q Q' : E -> Prop) (m : M A) : (forall e, Q e -> Q' e) ->
  steps (keeps I Q) m -> steps (keeps I Q') m.
Proof.
  intros H Hm s Hs. destruct (Hm s Hs) as (H1 & t & Ht & HQ). split; [done|]. exists t. split; [done|].
  by eapply Forall_impl.
Qed.

(** The memory moves along [I], and every call made satisfies [Q]. *)
Definition within (I : S -> S -> Prop) (Q : E -> Prop) (s s' : pass) : Prop := I (mem s) (mem s') /\ emits Q s s'.

#[export] Instance within_preorder I Q : PreOrder I -> PreOrder (within I Q).
Proof.
  intros HI. split; [intros s; by split|]. intros s s' s'' [H1 H2] [H3 H4]. split; [by etrans|]. by etrans.
Qed.

Lemma within_call {A} (I : S -> S -> Prop) `{!PreOrder I} (Q : E -> Prop) e (answer : list E -> res A) :
  Q e -> steps (within I Q) (call e answer).
Proof. intros H s. split; [simpl; reflexivity|]. by apply emits_call. Qed.

Lemma within_modify (I : S -> S -> Prop) (Q : E -> Prop) f : (forall x, I x (f x)) -> steps (within I Q) (modify f).
Proof. intros H s. split; [apply H|apply emits_modify]. Qed.

Lemma within_weaken {A} (I : S -> S -> Prop) (Q Q' : E -> Prop) (m : M A) : (forall e, Q e -> Q' e) ->
  steps (within I Q) m -> steps (within I Q') m.
Proof. intros H Hm s. destruct (Hm s) as [H1 (t & Ht & Hq)]. split; [done|]. exists t. split; [done|]. by eapply Forall_impl. Qed.

Lemma keeps_emits {A} (I : S -> Prop) (Q : E -> Prop) (m : M A) s : steps (keeps I Q) m -> I (mem s) -> emits Q s (m s).1.
Proof. intros H Hs. by destruct (H s Hs) as [_ ?]. Qed.

(* ------------------------------------------------------------------ *)
(** ** Running a program *)

(** What holds of the accumulator after every round. *)
Lemma loop_inv {A B} (I : B -> Prop) (f : B -> A -> M B) l : forall acc s s' acc',
  (forall acc a s s' acc', I acc -> f acc a s = (s', Ok acc') -> I acc') -> I acc ->
  loop f acc l s = (s', Ok acc') -> I acc'.
Proof.
  induction l as [|a l IH]; intros acc s s' acc' Hf Hi; cbn [loop]; [by intros [= _ <-]|].
  unfold bind. destruct (f acc a s) as [s1 [acc1|e|]] eqn:Ef; [|done..]. intros H. eapply IH; [exact Hf| |exact H]. by eapply Hf.
Qed.

Lemma bind_ok {A B} (m : M A) (k : A -> M B) s s' b :
  bind m k s = (s', Ok b) -> exists s1 a, m s = (s1, Ok a) /\ k a s1 = (s', Ok b).
Proof. unfold bind. destruct (m s) as [s1 [a|e|]]; [|done..]. eauto. Qed.

Lemma bind_run {A B} (m : M A) (k : A -> M B) s s1 a : m s = (s1, Ok a) -> bind m k s = k a s1.
Proof. intros H. unfold bind. by rewrite H. Qed.

Lemma wrap_ok {A} fmt args (m : M A) s s' a : wrap fmt args m s = (s', Ok a) <-> m s = (s', Ok a).
Proof.
  unfold wrap. destruct (m s) as [s1 r]; simpl. split; intros [= <- H]; [|by rewrite H].
  apply rwrap_ok in H. by rewrite H.
Qed.

Lemma call_ok {A} e (answer : list E -> res A) s s' a :
  call e answer s = (s', Ok a) -> answer (trace s) = Ok a /\ s' = {| trace := trace s ++ [e]; mem := mem s |}.
Proof. intros [= <- H]. done. Qed.

End Effects.

Arguments pass E S : clear implicits.
Arguments M E S A : clear implicits.

Create HintDb steps.
#[export] Hint Resolve steps_ret steps_raise steps_lift steps_gets steps_wrap steps_try steps_if
  emits_modify updates_call : steps.
#[export] Hint Extern 1 (steps _ (bind _ _)) => apply steps_bind; [apply _| |intros] : steps.
#[export] Hint Extern 1 (steps _ (loop _ _ _)) => apply steps_loop; [apply _|intros] : steps.
#[export] Hint Extern 2 (steps (emits _) (call _ _)) => apply emits_call : steps.
#[export] Hint Extern 3 (steps _ (match ?x with _ => _ end)) => destruct x : steps.
#[export] Hint Extern 1 (PreOrder _) => apply _ : steps.
#[export] Hint Extern 0 (steps (keeps _ _) (bind (gets _) _)) => apply keeps_reads; intros : steps.
#[export] Hint Extern 2 (steps (within _ _) (call _ _)) => apply within_call; [apply _|] : steps.
#[export] Hint Extern 2 (steps (within _ _) (modify _)) => apply within_modify; intros : steps.
#[export] Hint Extern 2 (steps (keeps _ _) (call _ _)) => apply keeps_call : steps.
#[export] Hint Extern 2 (steps (keeps _ _) (modify _)) => apply keeps_modify; intros : steps.

Notation "'let*' x ':=' m 'in' k" := (bind m (fun x => k))
  (at level 10, x binder, m at level 100, k at level 200) : go_scope.
Notation "'let*' ' p ':=' m 'in' k" := (bind m (fun x => match x with p => k end))
  (at level 10, p pattern, m at level 100, k at level 200) : go_scope.
