(* ===== verification/Encoding.v ===== *)
(** * Encodings of the standard library

    [encoding/base64], [strconv.Atoi] and the runes of a string, as the node
    agent uses them, each with its round trip.  The end of the file gives a text
    to every value of a countable type: it is how the witnesses build encoders
    that satisfy the laws the encoders of the standard library are assumed to
    have. *)

From S2P Require Import Prelude.
From stdpp Require Import countable pretty.

#[local] Open Scope Z_scope.

(* ------------------------------------------------------------------ *)
(** ** Bytes *)

Definition byte (a : ascii) : Z := Z.of_N (N_of_ascii a).
Definition of_byte (z : Z) : ascii := ascii_of_N (Z.to_N z).

Lemma byte_range a : 0 <= byte a < 256.
Proof. unfold byte. pose proof (N_ascii_bounded a). lia. Qed.

Lemma of_byte_byte a : of_byte (byte a) = a.
Proof. unfold of_byte, byte. rewrite N2Z.id. apply ascii_N_embedding. Qed.

(* ------------------------------------------------------------------ *)
(** ** Base 64 with padding *)

Definition b64_alphabet : string := "ABCDEFGHIJKLMNOPQRSTUVWXYZabcdefghijklmnopqrstuvwxyz0123456789+/".

Definition b64_char (v : Z) : ascii := default "A"%char (String.get (Z.to_nat v) b64_alphabet).

Fixpoint index_of (a : ascii) (s : string) : option Z :=
  match s with
  | EmptyString => None
  | String b s => if bool_decide (b = a) then Some 0 else option_map (Z.add 1) (index_of a s)
  end.

Definition b64_value (a : ascii) : option Z := index_of a b64_alphabet.

(** [base64.StdEncoding.EncodeToString] *)
Fixpoint b64_encode (s : string) : string :=
  match s with
  | EmptyString => ""
  | String x EmptyString =>
      String (b64_char (byte x / 4)) (String (b64_char (byte x mod 4 * 16)) "==")
  | String x (String y EmptyString) =>
      String (b64_char (byte x / 4)) (String (b64_char (byte x mod 4 * 16 + byte y / 16))
        (String (b64_char (byte y mod 16 * 4)) "="))
  | String x (String y (String z s)) =>
      String (b64_char (byte x / 4)) (String (b64_char (byte x mod 4 * 16 + byte y / 16))
        (String (b64_char (byte y mod 16 * 4 + byte z / 64)) (String (b64_char (byte z mod 64)) (b64_encode s))))
  end.

Definition CorruptInput : error := errorf "illegal base64 data at input byte" [].

Definition value_of (a : ascii) : res Z := match b64_value a with Some v => Ok v | None => Err CorruptInput end.

Definition padding : ascii := "="%char.

Definition b64_first (v w : Z) : ascii := of_byte (v * 4 + w / 16).
Definition b64_second (v w : Z) : ascii := of_byte (v mod 16 * 16 + w / 4).
Definition b64_third (v w : Z) : ascii := of_byte (v mod 4 * 64 + w).

Fixpoint b64_quads (s : string) : res string :=
  match s with
  | EmptyString => Ok ""
  | String a (String b (String c (String d s))) =>
      rbind (value_of a) (fun v1 => rbind (value_of b) (fun v2 =>
        if bool_decide (c = padding) then
          if bool_decide (d = padding) && bool_decide (s = "") then Ok (String (b64_first v1 v2) "") else Err CorruptInput
        else
          rbind (value_of c) (fun v3 =>
            if bool_decide (d = padding) then
              if bool_decide (s = "") then Ok (String (b64_first v1 v2) (String (b64_second v2 v3) "")) else Err CorruptInput
            else
              rbind (value_of d) (fun v4 => rbind (b64_quads s) (fun t =>
                Ok (String (b64_first v1 v2) (String (b64_second v2 v3) (String (b64_third v3 v4) t))))))))
  | _ => Err CorruptInput
  end.

Fixpoint drop_lines (s : string) : string :=
  match s with
  | EmptyString => ""
  | String a s => if bool_decide (a ∈ ["010"%char; "013"%char]) then drop_lines s else String a (drop_lines s)
  end.

(** [base64.StdEncoding.DecodeString]: line breaks are skipped. *)
Definition b64_decode (s : string) : res string := b64_quads (drop_lines s).

Example b64_examples :
  (map b64_encode [""; "f"; "fo"; "foo"; "foob"; "fooba"; "foobar"], b64_decode "Zm9v
YmE=", is_err (b64_decode "Zg="), is_err (b64_decode "Zg==Zg==")) =
  ([""; "Zg=="; "Zm8="; "Zm9v"; "Zm9vYg=="; "Zm9vYmE="; "Zm9vYmFy"], Ok "fooba", true, true).
Proof. vm_compute. reflexivity. Qed.

Lemma b64_chars : forallb (fun v => bool_decide (b64_value (b64_char v) = Some v) && bool_decide (b64_char v <> padding) &&
  bool_decide (b64_char v ∉ ["010"%char; "013"%char])) (Z.of_nat <$> seq 0 64) = true.
Proof. vm_compute. reflexivity. Qed.

Lemma b64_char_spec v : 0 <= v < 64 ->
  b64_value (b64_char v) = Some v /\ b64_char v <> padding /\ b64_char v ∉ ["010"%char; "013"%char].
Proof.
  intros Hv. pose proof b64_chars as H. rewrite forallb_forall in H.
  assert (In v (Z.of_nat <$> seq 0 64)) as Hin.
  { apply list_elem_of_In, list_elem_of_fmap. exists (Z.to_nat v). split; [lia|]. apply elem_of_seq. lia. }
  apply H in Hin. rewrite !andb_true_iff, !bool_decide_eq_true in Hin. tauto.
Qed.

Lemma value_of_char v : 0 <= v < 64 -> value_of (b64_char v) = Ok v.
Proof. intros Hv. unfold value_of. by rewrite (proj1 (b64_char_spec v Hv)). Qed.

Lemma not_padding v : 0 <= v < 64 -> bool_decide (b64_char v = padding) = false.
Proof. intros Hv. apply bool_decide_eq_false_2. by apply b64_char_spec. Qed.

Lemma drop_lines_char v s : 0 <= v < 64 -> drop_lines (String (b64_char v) s) = String (b64_char v) (drop_lines s).
Proof. intros Hv. cbn [drop_lines]. rewrite bool_decide_eq_false_2; [done|]. by apply b64_char_spec. Qed.

Ltac bytes_lia :=
  repeat match goal with
  | a : ascii |- _ => lazymatch goal with _ : 0 <= byte a < 256 |- _ => fail | _ => pose proof (byte_range a) end
  end;
  Z.div_mod_to_equations; lia.

Lemma b64_first_byte x r : 0 <= r < 16 -> b64_first (byte x / 4) (byte x mod 4 * 16 + r) = x.
Proof. intros Hr. unfold b64_first. rewrite <- (of_byte_byte x) at 3. f_equal. bytes_lia. Qed.

Lemma b64_second_byte q y r : 0 <= r < 4 -> b64_second (q * 16 + byte y / 16) (byte y mod 16 * 4 + r) = y.
Proof.
  intros Hr. unfold b64_second. rewrite <- (of_byte_byte y) at 3. f_equal. bytes_lia.
Qed.

Lemma b64_third_byte q z : b64_third (q * 4 + byte z / 64) (byte z mod 64) = z.
Proof. unfold b64_third. rewrite <- (of_byte_byte z) at 3. f_equal. bytes_lia. Qed.

Lemma string_by_three (P : string -> Prop) : P "" -> (forall x, P (String x "")) -> (forall x y, P (String x (String y ""))) ->
  (forall x y z s, P s -> P (String x (String y (String z s)))) -> forall s, P s.
Proof.
  intros H0 H1 H2 H3. assert (forall n s, (String.length s <= n)%nat -> P s) as H.
  { induction n as [|n IH]; intros [|x [|y [|z s]]] Hn; simpl in Hn; try done; try lia; auto.
    apply H3, IH. lia. }
  intros s. by apply (H (String.length s)).
Qed.

Lemma b64_round_trip s : b64_decode (b64_encode s) = Ok s.
Proof.
  unfold b64_decode. induction s as [|x|x y|x y z s IH] using string_by_three; [done|..]; cbn [b64_encode].
  - rewrite !drop_lines_char by bytes_lia. cbn [b64_quads drop_lines].
    rewrite !value_of_char by bytes_lia. cbn. rewrite <- (Z.add_0_r (byte x mod 4 * 16)).
    by rewrite b64_first_byte by lia.
  - rewrite !drop_lines_char by bytes_lia. cbn [b64_quads drop_lines].
    rewrite !value_of_char by bytes_lia. cbn [rbind]. rewrite not_padding by bytes_lia. cbn.
    rewrite b64_first_byte by bytes_lia. rewrite <- (Z.add_0_r (byte y mod 16 * 4)).
    by rewrite b64_second_byte by lia.
  - rewrite !drop_lines_char by bytes_lia. cbn [b64_quads].
    rewrite !value_of_char by bytes_lia. cbn [rbind]. rewrite !not_padding by bytes_lia.
    rewrite IH. cbn [rbind]. rewrite b64_first_byte by bytes_lia. rewrite b64_second_byte by bytes_lia. by rewrite b64_third_byte.
Qed.

(* ------------------------------------------------------------------ *)
(** ** Decimal numbers *)

Definition digit_value (a : ascii) : option Z :=
  let v := byte a - 48 in if bool_decide (0 <= v < 10) then Some v else None.

Fixpoint decimal (acc : Z) (s : string) : option Z :=
  match s with
  | EmptyString => Some acc
  | String a s => match digit_value a with Some v => decimal (acc * 10 + v) s | None => None end
  end.

Definition ErrSyntax : error := errorf "invalid syntax" [].
Definition ErrRange : error := errorf "value out of range" [].

Definition in_range (z : Z) : res Z := if bool_decide (int64 z) then Ok z else Err ErrRange.

Definition unsigned (s : string) : option Z := if bool_decide (s = "") then None else decimal 0 s.

(** [strconv.Atoi] *)
Definition Atoi (s : string) : res Z :=
  let '(sign, digits) :=
    match s with
    | String a rest => if bool_decide (a = "-"%char) then (-1, rest) else if bool_decide (a = "+"%char) then (1, rest) else (1, s)
    | EmptyString => (1, s)
    end in
  match unsigned digits with Some v => in_range (sign * v) | None => Err ErrSyntax end.

Example Atoi_examples :
  (Atoi "42", Atoi "-7", Atoi "+7", Atoi "007", is_err (Atoi ""), is_err (Atoi "-"), is_err (Atoi "1a"),
   Atoi "9223372036854775807", is_err (Atoi "9223372036854775808"), Atoi "-9223372036854775808") =
  (Ok 42, Ok (-7), Ok 7, Ok 7, true, true, true, Ok 9223372036854775807, true, Ok (-9223372036854775808)).
Proof. vm_compute. reflexivity. Qed.

Lemma digit_value_pretty n : (n < 10)%N -> digit_value (pretty_N_char n) = Some (Z.of_N n).
Proof.
  intros Hn. assert (Forall (fun n => digit_value (pretty_N_char n) = Some (Z.of_N n)) (N.of_nat <$> seq 0 10)) as H.
  { repeat constructor. }
  rewrite Forall_forall in H. apply H, list_elem_of_fmap. exists (N.to_nat n). split; [lia|]. apply elem_of_seq. lia.
Qed.

Lemma decimal_pretty n : forall s, decimal 0 (pretty_N_go n s) = decimal (Z.of_N n) s.
Proof.
  induction (N.lt_wf_0 n) as [n _ IH]. intros s. destruct (decide (n = 0)%N) as [->|Hn].
  - by rewrite pretty_N_go_0.
  - rewrite pretty_N_go_step by lia. rewrite IH by (apply N.div_lt; lia). cbn [decimal].
    rewrite digit_value_pretty by (apply N.mod_lt; lia). f_equal. rewrite N2Z.inj_div, N2Z.inj_mod. bytes_lia.
Qed.

Lemma pretty_N_eq (n : N) : pretty n = if decide (n = 0)%N then "0" else pretty_N_go n "".
Proof. reflexivity. Qed.

Lemma pretty_N_nonempty (n : N) : pretty n <> "".
Proof.
  rewrite pretty_N_eq. case_decide as Hn; [done|]. intros H. pose proof (decimal_pretty n "") as Hd.
  rewrite H in Hd. injection Hd as Hd. lia.
Qed.

Lemma unsigned_pretty (n : N) : unsigned (pretty n) = Some (Z.of_N n).
Proof.
  unfold unsigned. rewrite bool_decide_eq_false_2 by apply pretty_N_nonempty.
  rewrite pretty_N_eq. case_decide as Hn; [by subst|]. by rewrite decimal_pretty.
Qed.

Lemma pretty_N_head (n : N) a s : pretty n = String a s -> a <> "-"%char /\ a <> "+"%char.
Proof.
  intros H. pose proof (unsigned_pretty n) as Hu. rewrite H in Hu. unfold unsigned in Hu.
  rewrite bool_decide_eq_false_2 in Hu by done. cbn [decimal] in Hu. split; intros ->; by vm_compute in Hu.
Qed.

Lemma Atoi_show z : int64 z -> Atoi (show_int z) = Ok z.
Proof.
  intros Hz. assert (forall n : N, Atoi (pretty n) = in_range (Z.of_N n)) as Hn.
  { intros n. unfold Atoi. pose proof (unsigned_pretty n) as Hu. destruct (pretty n) as [|a s] eqn:E; [by destruct (pretty_N_nonempty n)|].
    destruct (pretty_N_head _ _ _ E) as [H1 H2]. rewrite !bool_decide_eq_false_2 by done. rewrite Hu. f_equal. lia. }
  assert (forall z, int64 z -> in_range z = Ok z) as Hr by (intros z' H; unfold in_range; by rewrite bool_decide_eq_true_2).
  unfold show_int. destruct z as [|p|p]; [done|..].
  - change (pretty (Zpos p)) with (pretty (Npos p)). by rewrite Hn, Hr.
  - change (pretty (Zneg p)) with ("-" +:+ pretty (Npos p)). unfold Atoi.
    change ("-" +:+ ?s) with (String "-" s). cbn iota. rewrite bool_decide_eq_true_2 by done. rewrite unsigned_pretty. by rewrite Hr.
Qed.

(* ------------------------------------------------------------------ *)
(** ** Runes *)

Definition RuneError : Z := 65533.

Definition between (lo hi : Z) (a : ascii) : bool := bool_decide (lo <= byte a <= hi).
Definition tail_bits (a : ascii) : Z := byte a mod 64.

(** The range of the second byte of a rune of three, and of four bytes. *)
Definition second3 (a : ascii) : Z * Z :=
  if bool_decide (byte a = 224) then (160, 191) else if bool_decide (byte a = 237) then (128, 159) else (128, 191).
Definition second4 (a : ascii) : Z * Z :=
  if bool_decide (byte a = 240) then (144, 191) else if bool_decide (byte a = 244) then (128, 143) else (128, 191).

(** [for _, r := range s]: each rune, and whether its bytes are valid; a byte
    that starts no rune counts as [RuneError]. *)
Fixpoint decoded (s : string) : list (Z * bool) :=
  match s with
  | EmptyString => []
  | String a s =>
      if bool_decide (byte a < 128) then (byte a, true) :: decoded s
      else match s with
      | String b s2 =>
          if between 194 223 a && between 128 191 b then (byte a mod 32 * 64 + tail_bits b, true) :: decoded s2
          else match s2 with
          | String c s3 =>
              if between 224 239 a && between (second3 a).1 (second3 a).2 b && between 128 191 c
              then (byte a mod 16 * 4096 + tail_bits b * 64 + tail_bits c, true) :: decoded s3
              else match s3 with
              | String d s4 =>
                  if between 240 244 a && between (second4 a).1 (second4 a).2 b && between 128 191 c && between 128 191 d
                  then (byte a mod 8 * 262144 + tail_bits b * 4096 + tail_bits c * 64 + tail_bits d, true) :: decoded s4
                  else (RuneError, false) :: decoded s
              | EmptyString => (RuneError, false) :: decoded s
              end
          | EmptyString => (RuneError, false) :: decoded s
          end
      | EmptyString => (RuneError, false) :: decoded s
      end
  end.

Definition runes (s : string) : list Z := (decoded s).*1.

(** [utf8.ValidString] *)
Definition valid_utf8 (s : string) : bool := forallb snd (decoded s).

(** [WriteRune] *)
Definition encode_rune (r : Z) : string :=
  let cont k := String (of_byte (128 + Z.shiftr r k mod 64)) in
  if bool_decide (r < 128) then String (of_byte r) ""
  else if bool_decide (r < 2048) then String (of_byte (192 + Z.shiftr r 6)) (cont 0 "")
  else if bool_decide (r < 65536) then String (of_byte (224 + Z.shiftr r 12)) (cont 6 (cont 0 ""))
  else String (of_byte (240 + Z.shiftr r 18)) (cont 12 (cont 6 (cont 0 ""))).

Example runes_examples :
  (runes "aé€", valid_utf8 "aé€", String.concat "" (map encode_rune (runes "aé€𝄞")), valid_utf8 (String "128" "a"),
   runes (String "237" (String "160" (String "128" "a")))) =
  ([97; 233; 8364], true, "aé€𝄞", false, [65533; 65533; 65533; 97]).
Proof. vm_compute. reflexivity. Qed.

(* ------------------------------------------------------------------ *)
(** ** A text for every value of a countable type *)

Fixpoint digits (p : positive) : string :=
  match p with
  | xH => ""
  | xO p => String "0" (digits p)
  | xI p => String "1" (digits p)
  end.

Fixpoint undigits (s : string) : option positive :=
  match s with
  | EmptyString => Some xH
  | String c s =>
      match undigits s with
      | Some p => if bool_decide (c = "0"%char) then Some (xO p)
                  else if bool_decide (c = "1"%char) then Some (xI p) else None
      | None => None
      end
  end.

Definition to_text {A} `{Countable A} (a : A) : string := digits (encode a).
Definition of_text {A} `{Countable A} (s : string) : option A := undigits s ≫= decode.

Lemma undigits_digits p : undigits (digits p) = Some p.
Proof. induction p as [p IH|p IH|]; simpl; [by rewrite IH..|done]. Qed.

Lemma of_to_text {A} `{Countable A} (a : A) : of_text (to_text a) = Some a.
Proof. unfold of_text, to_text. rewrite undigits_digits. simpl. apply decode_encode. Qed.
