(* ===== verification/Sha256.v ===== *)
(** * SHA-256 and hexadecimal text

    [sha256.Sum256], [hex.EncodeToString], [strings.ToLower] and
    [strings.ReplaceAll] of one character, as the source uses them to name its
    objects.  The digest is that of FIPS 180-4 and is evaluated in the examples.
    Letters outside ASCII are left alone by [to_lower]: the names the operator
    builds come from Kubernetes names, versions and stages, which are ASCII. *)

From S2P Require Import Prelude.

#[local] Open Scope Z_scope.

(* ------------------------------------------------------------------ *)
(** ** 32-bit words *)

Definition word_mask : Z := 4294967295.
Definition w_add (x y : Z) : Z := Z.land (x + y) word_mask.
Definition w_not (x : Z) : Z := Z.lxor x word_mask.
Definition rotr (n x : Z) : Z := Z.lor (Z.shiftr x n) (Z.land (Z.shiftl x (32 - n)) word_mask).

Definition round_constants : list Z :=
  [1116352408; 1899447441; 3049323471; 3921009573; 961987163; 1508970993; 2453635748; 2870763221;
   3624381080; 310598401; 607225278; 1426881987; 1925078388; 2162078206; 2614888103; 3248222580;
   3835390401; 4022224774; 264347078; 604807628; 770255983; 1249150122; 1555081692; 1996064986;
   2554220882; 2821834349; 2952996808; 3210313671; 3336571891; 3584528711; 113926993; 338241895;
   666307205; 773529912; 1294757372; 1396182291; 1695183700; 1986661051; 2177026350; 2456956037;
   2730485921; 2820302411; 3259730800; 3345764771; 3516065817; 3600352804; 4094571909; 275423344;
   430227734; 506948616; 659060556; 883997877; 958139571; 1322822218; 1537002063; 1747873779;
   1955562222; 2024104815; 2227730452; 2361852424; 2428436474; 2756734187; 3204031479; 3329325298].

Record hash := { h0 : Z; h1 : Z; h2 : Z; h3 : Z; h4 : Z; h5 : Z; h6 : Z; h7 : Z }.

Definition initial_hash : hash :=
  {| h0 := 1779033703; h1 := 3144134277; h2 := 1013904242; h3 := 2773480762;
     h4 := 1359893119; h5 := 2600822924; h6 := 528734635; h7 := 1541459225 |}.

Definition small_sigma0 (x : Z) : Z := Z.lxor (Z.lxor (rotr 7 x) (rotr 18 x)) (Z.shiftr x 3).
Definition small_sigma1 (x : Z) : Z := Z.lxor (Z.lxor (rotr 17 x) (rotr 19 x)) (Z.shiftr x 10).
Definition big_sigma0 (x : Z) : Z := Z.lxor (Z.lxor (rotr 2 x) (rotr 13 x)) (rotr 22 x).
Definition big_sigma1 (x : Z) : Z := Z.lxor (Z.lxor (rotr 6 x) (rotr 11 x)) (rotr 25 x).
Definition choice (x y z : Z) : Z := Z.lxor (Z.land x y) (Z.land (w_not x) z).
Definition majority (x y z : Z) : Z := Z.lxor (Z.lxor (Z.land x y) (Z.land x z)) (Z.land y z).

(** [w] holds the words so far, latest first. *)
Fixpoint schedule (n : nat) (w : list Z) : list Z :=
  match n with
  | O => w
  | S n =>
      let word i := nth i w 0 in
      schedule n (w_add (w_add (small_sigma1 (word 1%nat)) (word 6%nat))
                    (w_add (small_sigma0 (word 14%nat)) (word 15%nat)) :: w)
  end.

Definition sha_round (s : hash) (kw : Z * Z) : hash :=
  let t1 := w_add (w_add (h7 s) (big_sigma1 (h4 s))) (w_add (choice (h4 s) (h5 s) (h6 s)) (w_add kw.1 kw.2)) in
  let t2 := w_add (big_sigma0 (h0 s)) (majority (h0 s) (h1 s) (h2 s)) in
  {| h0 := w_add t1 t2; h1 := h0 s; h2 := h1 s; h3 := h2 s;
     h4 := w_add (h3 s) t1; h5 := h4 s; h6 := h5 s; h7 := h6 s |}.

Definition compress (s : hash) (block : list Z) : hash :=
  let w := rev (schedule 48 (rev block)) in
  let r := fold_left sha_round (zip round_constants w) s in
  {| h0 := w_add (h0 s) (h0 r); h1 := w_add (h1 s) (h1 r); h2 := w_add (h2 s) (h2 r); h3 := w_add (h3 s) (h3 r);
     h4 := w_add (h4 s) (h4 r); h5 := w_add (h5 s) (h5 r); h6 := w_add (h6 s) (h6 r); h7 := w_add (h7 s) (h7 r) |}.

(* ------------------------------------------------------------------ *)
(** ** Bytes *)

Fixpoint bytes (s : string) : list Z :=
  match s with EmptyString => [] | String c s => Z.of_N (N_of_ascii c) :: bytes s end.

(** The big-endian bytes of a number. *)
Fixpoint big_endian (n : nat) (z : Z) : list Z :=
  match n with O => [] | S n => big_endian n (Z.shiftr z 8) ++ [Z.land z 255] end.

Definition padded (message : list Z) : list Z :=
  let length := zlen message in
  message ++ [128] ++ replicate (Z.to_nat ((55 - length) mod 64)) 0 ++ big_endian 8 (8 * length).

Fixpoint words (l : list Z) : list Z :=
  match l with
  | a :: b :: c :: d :: l => Z.lor (Z.lor (Z.shiftl a 24) (Z.shiftl b 16)) (Z.lor (Z.shiftl c 8) d) :: words l
  | _ => []
  end.

(** One block of sixteen words at a time; the words bound the number of blocks. *)
Fixpoint blocks (fuel : nat) (s : hash) (l : list Z) : hash :=
  match fuel, l with
  | S fuel, _ :: _ => blocks fuel (compress s (take 16 l)) (drop 16 l)
  | _, _ => s
  end.

Definition digest (s : hash) : list Z :=
  concat (map (big_endian 4) [h0 s; h1 s; h2 s; h3 s; h4 s; h5 s; h6 s; h7 s]).

Definition Sum256 (message : string) : list Z :=
  let w := words (padded (bytes message)) in
  digest (blocks (length w) initial_hash w).

(* ------------------------------------------------------------------ *)
(** ** Text *)

Definition hex_digits : list ascii :=
  ["0"; "1"; "2"; "3"; "4"; "5"; "6"; "7"; "8"; "9"; "a"; "b"; "c"; "d"; "e"; "f"]%char.

Definition hex_digit (z : Z) : ascii := nth (Z.to_nat (Z.land z 15)) hex_digits "0"%char.

Fixpoint EncodeToString (l : list Z) : string :=
  match l with
  | [] => ""
  | b :: l => String (hex_digit (Z.shiftr b 4)) (String (hex_digit b) (EncodeToString l))
  end.

Definition lower_char (c : ascii) : ascii :=
  let n := N_of_ascii c in
  if (65 <=? n)%N && (n <=? 90)%N then ascii_of_N (n + 32) else c.

Fixpoint string_map (f : ascii -> ascii) (s : string) : string :=
  match s with EmptyString => EmptyString | String c s => String (f c) (string_map f s) end.

Definition to_lower : string -> string := string_map lower_char.

Definition replace_char (a b : ascii) : string -> string := string_map (fun c => if bool_decide (c = a) then b else c).

(** [s[:n]] *)
Definition str_take (n : nat) (s : string) : string := String.substring 0 n s.

Example Sum256_abc :
  EncodeToString (Sum256 "abc") = "ba7816bf8f01cfea414140de5dae2223b00361a396177a9cb410ff61f20015ad".
Proof. by vm_compute. Qed.

Example Sum256_two_blocks :
  EncodeToString (Sum256 "abcdbcdecdefdefgefghfghighijhijkijkljklmklmnlmnomnopnopq") =
  "248d6a61d20638b8e5c026930c3e6039a33ce45964ff2167f6ecedd419db06c1".
Proof. by vm_compute. Qed.

(* ------------------------------------------------------------------ *)
(** ** Lemmas *)

Lemma length_string_map f s : String.length (string_map f s) = String.length s.
Proof. induction s as [|c s IH]; simpl; [done|]. by rewrite IH. Qed.

Lemma length_str_take n s : String.length (str_take n s) = Nat.min n (String.length s).
Proof.
  unfold str_take. revert s; induction n as [|n IH]; intros [|c s]; simpl; [done..|]. by rewrite IH.
Qed.

Lemma str_take_append n s t : str_take n (s +:+ t) = str_take n s +:+ str_take (n - String.length s) t.
Proof.
  unfold str_take. revert n; induction s as [|c s IH]; intros n.
  - simpl. rewrite Nat.sub_0_r. by destruct n.
  - rewrite append_cons. destruct n as [|n]; simpl; [by destruct t|]. by rewrite IH.
Qed.

Lemma length_EncodeToString l : String.length (EncodeToString l) = (2 * length l)%nat.
Proof. induction l as [|b l IH]; simpl; [done|]. rewrite IH. lia. Qed.

Lemma length_big_endian n z : length (big_endian n z) = n.
Proof. revert z; induction n as [|n IH]; intros z; simpl; [done|]. rewrite length_app, IH. simpl. lia. Qed.

Lemma length_Sum256 message : length (Sum256 message) = 32%nat.
Proof. unfold Sum256, digest. cbn [map concat]. rewrite !length_app, !length_big_endian. done. Qed.

(** No upper-case letter. *)
Definition lower_case (s : string) : Prop := to_lower s = s.

Lemma lower_char_idemp c : lower_char (lower_char c) = lower_char c.
Proof. destruct c as [[] [] [] [] [] [] [] []]; reflexivity. Qed.

Lemma to_lower_lower s : lower_case (to_lower s).
Proof.
  unfold lower_case, to_lower. induction s as [|c s IH]; simpl; [done|]. by rewrite lower_char_idemp, IH.
Qed.

Lemma string_map_append f s t : string_map f (s +:+ t) = string_map f s +:+ string_map f t.
Proof. induction s as [|c s IH]; [done|]. rewrite !append_cons. simpl. by rewrite IH. Qed.
