(* ===== verification/Json.v ===== *)
(** * JSON documents

    [encoding/json] as the node agent uses it.  A document is a value of [json];
    how its text is read and printed is a parameter, [JSON], whose laws are that
    printing, plain or indented, loses nothing of a document whose strings are valid UTF-8.  How a
    document fills a Go struct is modelled: members in the order of the
    document, names compared without regard to case, a repeated member set
    again, null leaving a value alone.  Not modelled: the few letters outside
    ASCII that fold to an ASCII one. *)

From S2P Require Import Prelude Sha256 Encoding.
From stdpp Require Import countable.

#[local] Open Scope Z_scope.
#[local] Open Scope go_scope.

Inductive json :=
| JNull
| JBool (b : bool)
| JNumber (literal : string)
| JString (s : string)
| JArray (l : list json)
| JObject (members : list (string * json)).

Section Induction.
Context (P : json -> Prop).
Context (HN : P JNull) (HB : forall b, P (JBool b)) (HL : forall s, P (JNumber s)) (HS : forall s, P (JString s)).
Context (HA : forall l, Forall P l -> P (JArray l)) (HO : forall m, Forall (fun kv => P kv.2) m -> P (JObject m)).

Fixpoint json_ind' (j : json) : P j :=
  match j with
  | JNull => HN
  | JBool b => HB b
  | JNumber s => HL s
  | JString s => HS s
  | JArray l => HA l ((fix go l : Forall P l := match l with [] => Forall_nil_2 _ | j :: l => Forall_cons_2 _ _ _ (json_ind' j) (go l) end) l)
  | JObject m => HO m ((fix go m : Forall (fun kv => P kv.2) m :=
      match m with [] => Forall_nil_2 _ | kv :: m => Forall_cons_2 _ _ _ (json_ind' kv.2) (go m) end) m)
  end.

End Induction.

(* ------------------------------------------------------------------ *)
(** ** Documents are countable *)

Fixpoint to_tree (j : json) : gen_tree string :=
  match j with
  | JNull => GenNode 0 []
  | JBool b => GenNode (if b then 1 else 2) []
  | JNumber s => GenNode 3 [GenLeaf s]
  | JString s => GenNode 4 [GenLeaf s]
  | JArray l => GenNode 5 (map to_tree l)
  | JObject m => GenNode 6 (map (fun kv => GenNode 7 [GenLeaf kv.1; to_tree kv.2]) m)
  end.

Fixpoint of_tree (t : gen_tree string) : json :=
  match t with
  | GenNode 1 _ => JBool true
  | GenNode 2 _ => JBool false
  | GenNode 3 [GenLeaf s] => JNumber s
  | GenNode 4 [GenLeaf s] => JString s
  | GenNode 5 l => JArray (map of_tree l)
  | GenNode 6 m => JObject (map (fun t => match t with GenNode _ [GenLeaf k; t] => (k, of_tree t) | _ => ("", JNull) end) m)
  | _ => JNull
  end.

Lemma of_to_tree j : of_tree (to_tree j) = j.
Proof.
  induction j as [|[]| | |l IH|m IH] using json_ind'; try done; cbn [to_tree of_tree]; f_equal; rewrite map_map;
    induction IH as [|x l H _ IHl]; [done| |done|]; cbn [map].
  - by rewrite H, IHl.
  - rewrite H, IHl. by destruct x.
Qed.

#[export] Instance to_tree_inj : Inj (=) (=) to_tree.
Proof. intros x y H. rewrite <- (of_to_tree x), H. apply of_to_tree. Qed.

#[export] Instance json_eq_dec : EqDecision json.
Proof. apply (inj_eq_dec to_tree). Defined.

#[export] Instance json_countable : Countable json.
Proof. apply (inj_countable' to_tree of_tree). apply of_to_tree. Defined.

(* ------------------------------------------------------------------ *)
(** ** Text *)

(** The integers are the only numbers the agent prints. *)
Definition integer_literal (s : string) : bool := match Atoi s with Ok z => bool_decide (show_int z = s) | _ => false end.

Fixpoint json_valid (j : json) : bool :=
  match j with
  | JNull | JBool _ => true
  | JNumber s => integer_literal s
  | JString s => valid_utf8 s
  | JArray l => forallb json_valid l
  | JObject m => forallb (fun kv => valid_utf8 kv.1 && json_valid kv.2) m
  end.

Class JSON := {
  json_parse : string -> res json;
  json_print : json -> string;
  json_indent : json -> string;
  json_round_trip : forall j, json_valid j = true -> json_parse (json_print j) = Ok j;
  json_indent_round_trip : forall j, json_valid j = true -> json_parse (json_indent j +:+ String "010" "") = Ok j
}.

Lemma json_print_inj `{JSON} j k : json_valid j = true -> json_valid k = true -> json_print j = json_print k -> j = k.
Proof. intros Hj Hk E. apply json_round_trip in Hj, Hk. rewrite E in Hj. congruence. Qed.

Lemma integer_literal_show z : int64 z -> integer_literal (show_int z) = true.
Proof. intros Hz. unfold integer_literal. rewrite Atoi_show by done. by apply bool_decide_eq_true_2. Qed.

(* ------------------------------------------------------------------ *)
(** ** Filling Go values *)

Definition UnmarshalTypeError (value : string) : error := errorf "json: cannot unmarshal %s" [value].

Definition kind_of (j : json) : string :=
  match j with
  | JNull => "null" | JBool _ => "bool" | JNumber _ => "number" | JString _ => "string" | JArray _ => "array" | JObject _ => "object"
  end.

Definition mismatch {A} (j : json) : res A := Err (UnmarshalTypeError (kind_of j)).

(** Each decoder is given the value before. *)
Definition d_string (old : string) (j : json) : res string :=
  match j with JString s => Ok s | JNull => Ok old | _ => mismatch j end.

Definition d_bool (old : bool) (j : json) : res bool :=
  match j with JBool b => Ok b | JNull => Ok old | _ => mismatch j end.

Definition d_int (old : Z) (j : json) : res Z :=
  match j with
  | JNumber s => match Atoi s with Ok z => Ok z | _ => mismatch j end
  | JNull => Ok old
  | _ => mismatch j
  end.

Definition d_pointer {A} (dec : A -> json -> res A) (zero : A) (old : option A) (j : json) : res (option A) :=
  match j with JNull => Ok None | _ => rbind (dec (default zero old) j) (fun a => Ok (Some a)) end.

(** Every element, or the first error. *)
Fixpoint each {A B} (f : A -> res B) (l : list A) : res (list B) :=
  match l with
  | [] => Ok []
  | a :: l => rbind (f a) (fun b => rbind (each f l) (fun l => Ok (b :: l)))
  end.

(** An element of a slice is filled from the zero value. *)
Definition d_slice {A} (dec : A -> json -> res A) (zero : A) (old : list A) (j : json) : res (list A) :=
  match j with
  | JArray l => each (dec zero) l
  | JNull => Ok []
  | _ => mismatch j
  end.

(** [map[string]A] *)
Definition d_map {A} (dec : A -> json -> res A) (zero : A) (old : gmap string A) (j : json) : res (gmap string A) :=
  match j with
  | JObject m => rfold (fun acc kv => rbind (dec zero kv.2) (fun a => Ok (<[kv.1 := a]> acc))) old m
  | JNull => Ok ∅
  | _ => mismatch j
  end.

Definition same_key (k name : string) : bool := String.eqb (to_lower k) (to_lower name).

Definition members_of (o : list (string * json)) (name : string) : list json :=
  map snd (List.filter (fun kv => same_key kv.1 name) o).

(** A field of a struct. *)
Definition field {A} (dec : A -> json -> res A) (zero : A) (name : string) (o : list (string * json)) : res A :=
  rfold dec zero (members_of o name).

(** The members a document gives a struct. *)
Definition struct_of (j : json) : res (list (string * json)) :=
  match j with JObject m => Ok m | JNull => Ok [] | _ => mismatch j end.

(** What prints as a map of strings: the members in the order of their keys. *)
Definition e_map {A} (enc : A -> json) (m : gmap string A) : json :=
  JObject (map (fun k => (k, default JNull (enc <$> m !! k))) (sort_strings (map_to_list m).*1)).

(* ------------------------------------------------------------------ *)
(** ** What is printed is read back *)

Lemma each_map {A B} (f : A -> res B) (g : B -> A) l : (forall b, b ∈ l -> f (g b) = Ok b) -> each f (map g l) = Ok l.
Proof.
  induction l as [|b l IH]; intros H; [done|]. cbn [map each]. rewrite H by (by left). cbn [rbind].
  rewrite IH; [done|]. intros b' Hb'. apply H. by right.
Qed.

Lemma each_ok_length {A B} (f : A -> res B) l l' : each f l = Ok l' -> length l' = length l.
Proof.
  revert l'; induction l as [|a l IH]; intros l'; cbn [each]; [by intros [= <-]|].
  rewrite rbind_ok. intros (b & _ & H). rewrite rbind_ok in H. destruct H as (l1 & Hl & [= <-]). simpl. f_equal. by apply IH.
Qed.

Lemma d_int_show old z : int64 z -> d_int old (JNumber (show_int z)) = Ok z.
Proof. intros Hz. unfold d_int. by rewrite Atoi_show. Qed.

Lemma d_strings l : d_slice d_string "" [] (JArray (map JString l)) = Ok l.
Proof. by apply each_map. Qed.

Lemma d_ints l : Forall int64 l -> d_slice d_int 0 [] (JArray (map (fun z => JNumber (show_int z)) l)) = Ok l.
Proof.
  intros Hl. cbn [d_slice]. apply (each_map (d_int 0) (fun z => JNumber (show_int z))). intros z Hz.
  apply d_int_show. apply list_elem_of_In in Hz. by eapply Forall_forall in Hl; [|exact Hz].
Qed.

Lemma rfold_insert {A : Type} (dec : A -> json -> res A) zero (enc : A -> json) (m : gmap string A) (keys : list string) : forall acc : gmap string A,
  (forall k a, m !! k = Some a -> dec zero (enc a) = Ok a) -> (forall k, k ∈ keys -> is_Some (m !! k)) ->
  rfold (fun (acc : gmap string A) kv => rbind (dec zero kv.2) (fun a => Ok (<[kv.1 := a]> acc))) acc
    (map (fun k => (k, default JNull (enc <$> (m !! k : option A)))) keys) =
  Ok (foldl (fun (acc : gmap string A) k => match m !! k with Some a => <[k := a]> acc | None => acc end) acc keys).
Proof.
  induction keys as [|k keys IH]; intros acc Hd Hk; [done|]. cbn [map rfold fst snd].
  destruct (Hk k ltac:(by left)) as [a Ha]. rewrite Ha. change (default JNull (enc <$> Some a)) with (enc a). rewrite (Hd k a Ha). cbn [rbind foldl].
  rewrite Ha. apply IH; [done|]. intros k' Hk'. apply Hk. by right.
Qed.

Lemma foldl_insert_lookup {A : Type} (m : gmap string A) (keys : list string) : forall (acc : gmap string A) k,
  foldl (fun (acc : gmap string A) k => match m !! k with Some a => <[k := a]> acc | None => acc end) acc keys !! k =
  if bool_decide (k ∈ keys) then match m !! k with Some a => Some a | None => acc !! k end else acc !! k.
Proof.
  induction keys as [|x keys IH]; intros acc k; [done|]. cbn [foldl]. rewrite IH.
  destruct (decide (k = x)) as [->|Hne].
  - rewrite (bool_decide_eq_true_2 (x ∈ x :: keys)) by by left. destruct (m !! x) as [a|] eqn:E; case_bool_decide; try rewrite E; try done; by rewrite lookup_insert_eq.
  - rewrite (bool_decide_ext (k ∈ x :: keys) (k ∈ keys)) by (rewrite elem_of_cons; tauto).
    destruct (m !! x); [rewrite lookup_insert_ne by done|]; done.
Qed.

Lemma d_map_e_map {A : Type} (dec : A -> json -> res A) zero (enc : A -> json) (m : gmap string A) :
  (forall k a, m !! k = Some a -> dec zero (enc a) = Ok a) -> d_map dec zero ∅ (e_map enc m) = Ok m.
Proof.
  intros Hd. unfold d_map, e_map. rewrite (rfold_insert dec zero enc m); [|done|].
  - f_equal. apply map_eq. intros k. rewrite foldl_insert_lookup. rewrite lookup_empty. case_bool_decide as Hk; [by destruct (m !! k)|].
    destruct (m !! k) as [a|] eqn:E; [|done]. destruct Hk. unfold sort_strings. rewrite merge_sort_Permutation.
    apply list_elem_of_fmap. exists (k, a). split; [done|]. by apply elem_of_map_to_list.
  - intros k. unfold sort_strings. rewrite merge_sort_Permutation. rewrite list_elem_of_fmap. intros ([k' a] & -> & H).
    apply elem_of_map_to_list in H. by exists a.
Qed.

Lemma e_map_valid {A : Type} (enc : A -> json) (m : gmap string A) :
  (forall k a, m !! k = Some a -> valid_utf8 k = true /\ json_valid (enc a) = true) -> json_valid (e_map enc m) = true.
Proof.
  intros H. unfold e_map. cbn [json_valid]. rewrite forallb_forall. intros kv. rewrite in_map_iff. intros (k & <- & Hk).
  apply list_elem_of_In in Hk. unfold sort_strings in Hk. rewrite merge_sort_Permutation in Hk. apply list_elem_of_fmap in Hk as ([k' a] & -> & Hka).
  apply elem_of_map_to_list in Hka. cbn [fst snd]. rewrite Hka. cbn. rewrite andb_true_iff. by apply (H k' a).
Qed.

Example struct_examples :
  let o := [("Path", JString "a"); ("returncodes", JArray [JNumber "0"; JNumber "3"]); ("path", JString "b"); ("PATH", JNull)] in
  (field d_string "" "path" o, field (d_slice d_int 0) [] "returncodes" o, field (d_pointer d_bool false) None "on_host" o,
   is_err (field d_bool false "path" o)) =
  (Ok "b", Ok [0; 3], Ok None, true).
Proof. vm_compute. reflexivity. Qed.

(** An encoder that satisfies the laws, for the witnesses. *)
Lemma drop_lines_digits p : drop_lines (digits p) = digits p /\ drop_lines (digits p +:+ String "010" "") = digits p.
Proof. induction p as [p [H1 H2]|p [H1 H2]|]; simpl; [by rewrite H1, H2..|done]. Qed.

Program Definition sample_JSON : JSON := {|
  json_parse s := match of_text (drop_lines s) with Some j => Ok j | None => Err (errorf "invalid character" []) end;
  json_print j := to_text j;
  json_indent j := to_text j
|}.
Next Obligation. intros j _. simpl. unfold to_text. rewrite (proj1 (drop_lines_digits _)). fold (to_text j). by rewrite of_to_text. Qed.
Next Obligation. intros j _. simpl. unfold to_text. rewrite (proj2 (drop_lines_digits _)). fold (to_text j). by rewrite of_to_text. Qed.
