(* ===== verification/Paths.v ===== *)
(** * Paths

    [path/filepath] as the agent uses it on Linux: [Clean], [Join], [IsAbs],
    [IsLocal], [Rel], [Dir], [Base], [Split] and [SplitList].  A clean path is its
    components: [parts] of an absolute path, [local_parts] of a local one; the
    lemmas say what the functions do to them.  [Rel] is modelled for an absolute
    base, the only kind the source gives it. *)

From S2P Require Import Prelude.

#[local] Open Scope go_scope.

(* ------------------------------------------------------------------ *)
(** ** Strings *)

(** [strings.Split(s, string(c))] *)
Fixpoint split_char (c : ascii) (s : string) : list string :=
  match s with
  | EmptyString => [EmptyString]
  | String a s =>
      if bool_decide (a = c) then EmptyString :: split_char c s
      else match split_char c s with w :: ws => String a w :: ws | [] => [String a EmptyString] end
  end.

(** [strings.ContainsRune(s, c)] for an ASCII character. *)
Fixpoint contains_char (c : ascii) (s : string) : bool :=
  match s with EmptyString => false | String a s => bool_decide (a = c) || contains_char c s end.

(** [strings.CutPrefix] *)
Fixpoint cut_prefix (s p : string) : option string :=
  match p, s with
  | EmptyString, _ => Some s
  | String a p, String b s => if bool_decide (a = b) then cut_prefix s p else None
  | String _ _, EmptyString => None
  end.

(** [strings.TrimPrefix] *)
Definition trim_prefix (s p : string) : string := match cut_prefix s p with Some s' => s' | None => s end.

Fixpoint str_rev_onto (s acc : string) : string :=
  match s with EmptyString => acc | String a s => str_rev_onto s (String a acc) end.

Definition str_rev (s : string) : string := str_rev_onto s EmptyString.

(** [strings.TrimSuffix] *)
Definition trim_suffix (s p : string) : string := str_rev (trim_prefix (str_rev s) (str_rev p)).

(** [strings.TrimLeft(s, string(c))] *)
Fixpoint trim_left (c : ascii) (s : string) : string :=
  match s with String a s' => if bool_decide (a = c) then trim_left c s' else s | EmptyString => s end.

(** [strings.TrimSpace] on ASCII text. *)
Definition is_space (a : ascii) : bool :=
  bool_decide (a ∈ [" "%char; "009"%char; "010"%char; "011"%char; "012"%char; "013"%char]).

Fixpoint trim_space_left (s : string) : string :=
  match s with String a s' => if is_space a then trim_space_left s' else s | EmptyString => s end.

Definition TrimSpace (s : string) : string := str_rev (trim_space_left (str_rev (trim_space_left s))).

(** The text before the last occurrence of a character, and the text after it. *)
Fixpoint cut_at_last (c : ascii) (s : string) : option (string * string) :=
  match s with
  | EmptyString => None
  | String a s' =>
      match cut_at_last c s' with
      | Some (before, after) => Some (String a before, after)
      | None => if bool_decide (a = c) then Some (EmptyString, s') else None
      end
  end.

(** The text before the first occurrence, and the text after it. *)
Fixpoint cut_at_first (c : ascii) (s : string) : option (string * string) :=
  match s with
  | EmptyString => None
  | String a s' =>
      if bool_decide (a = c) then Some (EmptyString, s')
      else match cut_at_first c s' with Some (before, after) => Some (String a before, after) | None => None end
  end.

(* ------------------------------------------------------------------ *)
(** ** Paths *)

Definition slash : ascii := "/"%char.

Definition IsAbs (p : string) : bool := has_prefix p "/".

(** One component on the way: what is kept so far, last first. *)
Definition clean_step (rooted : bool) (kept : list string) (c : string) : list string :=
  if bool_decide (c = "" \/ c = ".") then kept
  else if bool_decide (c = "..") then
    match kept with
    | k :: kept' => if bool_decide (k = "..") then c :: kept else kept'
    | [] => if rooted then [] else [c]
    end
  else c :: kept.

Definition clean_parts (p : string) : list string :=
  rev (foldl (clean_step (IsAbs p)) [] (split_char slash p)).

Definition Clean (p : string) : string :=
  let s := join "/" (clean_parts p) in
  if IsAbs p then "/" +:+ s else if bool_decide (s = "") then "." else s.

Fixpoint drop_empty (elements : list string) : list string :=
  match elements with e :: elements' => if bool_decide (e = "") then drop_empty elements' else elements | [] => [] end.

Definition Join (elements : list string) : string :=
  match drop_empty elements with
  | [] => ""
  | elements => Clean (join "/" elements)
  end.

Definition IsLocal (p : string) : bool :=
  if IsAbs p || bool_decide (p = "") then false
  else
    let p := if bool_decide ("." ∈ split_char slash p) || bool_decide (".." ∈ split_char slash p) then Clean p else p in
    negb (bool_decide (p = "..") || has_prefix p "../").

Definition Dir (p : string) : string :=
  match cut_at_last slash p with Some (before, _) => Clean (before +:+ "/") | None => "." end.

(** [path.Split] *)
Definition Split (p : string) : string * string :=
  match cut_at_last slash p with Some (before, after) => (before +:+ "/", after) | None => ("", p) end.

Definition Base (p : string) : string :=
  if bool_decide (p = "") then "."
  else
    let p := str_rev (trim_left slash (str_rev p)) in
    let base := match cut_at_last slash p with Some (_, after) => after | None => p end in
    if bool_decide (base = "") then "/" else base.

(** The words of a clean path, as [Rel] goes through them. *)
Definition words (p : string) : list string :=
  if bool_decide (p = "/") then [""] else split_char slash p.

Fixpoint strip_common (base target : list string) : list string * list string :=
  match base, target with
  | b :: base', t :: target' => if bool_decide (b = t) then strip_common base' target' else (base, target)
  | _, _ => (base, target)
  end.

Definition Rel (base target : string) : res string :=
  let base := Clean base in
  let target := Clean target in
  if bool_decide (target = base) then Ok "."
  else if negb (IsAbs target) then Err (errorf "Rel: can't make %s relative to %s" [target; base])
  else let '(up, down) := strip_common (words base) (words target) in
    Ok (join "/" (map (fun _ => "..") up ++ down)).

(** [filepath.SplitList] *)
Definition SplitList (p : string) : list string := if bool_decide (p = "") then [] else split_char ":"%char p.

Example Clean_examples :
  map Clean [""; "/"; "a//b/../c/."; "/../a"; "../../a/.."; "/a/b/../.."; "./"] = ["."; "/"; "a/c"; "/a"; "../.."; "/"; "."].
Proof. reflexivity. Qed.

Example Join_examples :
  (Join [""; "a"; "b/.."; "c"], Join ["/root"; "etc/x"], Join ["/root"; "/etc"], Join [""; ""]) =
  ("a/c", "/root/etc/x", "/root/etc", "").
Proof. reflexivity. Qed.

Example IsLocal_examples :
  map IsLocal [""; "."; ".."; "../a"; "a/../.."; "a/.."; "/a"; "a/b"; "..."; "a/../../b"] =
  [false; true; false; false; false; true; false; true; true; false].
Proof. reflexivity. Qed.

Example Dir_Base_examples :
  (map Dir [""; "/"; "a"; "/a"; "a/b/"; "/a//b"], map Base [""; "/"; "a/"; "/a/b"; "//"; "a//"]) =
  (["."; "/"; "."; "/"; "a/b"; "/a"], ["."; "/"; "a"; "b"; "/"; "a"]).
Proof. reflexivity. Qed.

Example Rel_examples :
  (Rel "/a/b" "/a/b/c/d", Rel "/a/b" "/a/c", Rel "/" "/x", Rel "/a" "/a/", Rel "/a/b" "/", is_err (Rel "/a" "b")) =
  (Ok "c/d", Ok "../c", Ok "x", Ok ".", Ok "../..", true).
Proof. reflexivity. Qed.

(* ------------------------------------------------------------------ *)
(** ** Splitting and joining *)

Lemma contains_char_app c a b : contains_char c (a +:+ b) = contains_char c a || contains_char c b.
Proof. induction a as [|x a IH]; [done|]. rewrite append_cons. simpl. by rewrite IH, orb_assoc. Qed.

Lemma split_char_none c s : contains_char c s = false -> split_char c s = [s].
Proof.
  induction s as [|a s IH]; simpl; [done|]. rewrite orb_false_iff, bool_decide_eq_false. intros [Ha Hs].
  rewrite bool_decide_eq_false_2 by done. by rewrite IH.
Qed.

Lemma split_char_cons c s t : contains_char c s = false -> split_char c (s +:+ String c t) = s :: split_char c t.
Proof.
  induction s as [|a s IH]; intros Hs; [by simpl; rewrite bool_decide_eq_true_2|].
  rewrite append_cons. simpl in *. apply orb_false_iff in Hs as [Ha Hs]. rewrite Ha, IH by done. done.
Qed.

Lemma split_char_nonempty c s : split_char c s <> [].
Proof. destruct s; simpl; [done|]. case_bool_decide; [done|]. by destruct (split_char c s). Qed.

Lemma split_char_app c a b : split_char c (a +:+ String c b) = split_char c a ++ split_char c b.
Proof.
  induction a as [|z a IH].
  - simpl. by rewrite bool_decide_eq_true_2.
  - rewrite append_cons. simpl. rewrite IH. case_bool_decide; [done|].
    pose proof (split_char_nonempty c a). by destruct (split_char c a).
Qed.

Lemma split_char_free c s : Forall (fun w => contains_char c w = false) (split_char c s).
Proof.
  induction s as [|a s IH]; simpl; [by constructor|]. case_bool_decide as Ha; [by constructor|].
  destruct (split_char c s) as [|w ws]; [by constructor; simpl; [rewrite bool_decide_eq_false_2|]|].
  inversion_clear IH. constructor; [|done]. simpl. by rewrite bool_decide_eq_false_2.
Qed.

Lemma join_cons s l : l <> [] -> join "/" (s :: l) = s +:+ "/" +:+ join "/" l.
Proof. by destruct l. Qed.

Lemma split_join l : l <> [] -> Forall (fun w => contains_char slash w = false) l -> split_char slash (join "/" l) = l.
Proof.
  induction l as [|w l IH]; [done|]. intros _ [Hw Hl]%Forall_cons. destruct l as [|w' l]; [by apply split_char_none|].
  rewrite join_cons by done. rewrite append_cons, append_nil_l. change (String "/" ?t) with (String slash t).
  rewrite split_char_cons by done. f_equal. by apply IH.
Qed.

Lemma join_split s : join "/" (split_char slash s) = s.
Proof.
  induction s as [|a s IH]; [done|]. simpl. case_bool_decide as Ha.
  - subst. rewrite join_cons by apply split_char_nonempty. by rewrite IH.
  - pose proof (split_char_nonempty slash s) as Hne. destruct (split_char slash s) as [|w [|w' ws]]; [done| |].
    + simpl in *. by rewrite <- IH.
    + rewrite join_cons in IH |- * by done. rewrite append_cons. by rewrite <- IH.
Qed.

(* ------------------------------------------------------------------ *)
(** ** Clean paths *)

(** What a component of a clean path is, unless it leads up. *)
Definition plain (c : string) : Prop := c <> "" /\ c <> "." /\ c <> ".." /\ contains_char slash c = false.

#[export] Instance plain_dec c : Decision (plain c).
Proof. unfold plain. apply _. Defined.

Lemma plain_dot : ~ plain ".".
Proof. by intros (_ & H & _). Qed.

Lemma plain_up : ~ plain "..".
Proof. by intros (_ & _ & H & _). Qed.

Lemma plain_free l : Forall plain l -> Forall (fun w => contains_char slash w = false) l.
Proof. intros H. eapply Forall_impl; [exact H|]. by intros c (_ & _ & _ & Hc). Qed.

Lemma clean_step_plain rooted kept c : plain c -> clean_step rooted kept c = c :: kept.
Proof. intros (H1 & H2 & H3 & _). unfold clean_step. rewrite !bool_decide_eq_false_2; [done|done|tauto]. Qed.

Lemma clean_step_skip rooted kept c : c = "" \/ c = "." -> clean_step rooted kept c = kept.
Proof. intros H. unfold clean_step. by rewrite bool_decide_eq_true_2. Qed.

Lemma clean_step_up rooted k kept : plain k -> clean_step rooted (k :: kept) ".." = kept.
Proof. intros (_ & _ & H & _). unfold clean_step. by rewrite (bool_decide_eq_false_2 (k = "..")). Qed.

(** What a word between slashes can be. *)
Lemma word_cases c : contains_char slash c = false -> (c = "" \/ c = ".") \/ c = ".." \/ plain c.
Proof.
  intros H. destruct (decide (c = "" \/ c = ".")); [by left|right].
  destruct (decide (c = "..")); [by left|right]. unfold plain. tauto.
Qed.

Lemma clean_fold_plain rooted kept l : Forall plain l -> foldl (clean_step rooted) kept l = rev l ++ kept.
Proof.
  revert kept; induction l as [|c l IH]; intros kept H; [done|]. apply Forall_cons in H as [Hc Hl]. simpl.
  rewrite clean_step_plain, IH by done. by rewrite <- app_assoc.
Qed.

Lemma clean_fold_rooted kept l : Forall plain kept -> Forall (fun w => contains_char slash w = false) l ->
  Forall plain (foldl (clean_step true) kept l).
Proof.
  revert kept; induction l as [|c l IH]; intros kept Hk; [done|]. intros [Hc Hl]%Forall_cons. simpl. apply IH; [|done].
  destruct (word_cases c Hc) as [H|[->|H]]; [by rewrite clean_step_skip| |rewrite clean_step_plain by done; by constructor].
  destruct kept as [|k kept]; [constructor|]. apply Forall_cons in Hk as [Hk Hk']. by rewrite clean_step_up.
Qed.

(** Nothing leads up from the root. *)
Lemma clean_parts_abs p : IsAbs p = true -> Forall plain (clean_parts p).
Proof.
  intros H. unfold clean_parts. rewrite H. apply Forall_rev, clean_fold_rooted; [constructor|apply split_char_free].
Qed.

Lemma IsAbs_cons a s : IsAbs (String a s) = bool_decide (a = slash).
Proof.
  apply eq_true_iff_eq. rewrite bool_decide_eq_true. unfold IsAbs. rewrite has_prefix_spec. split.
  - intros [b Hb]. rewrite append_cons in Hb. by injection Hb.
  - intros ->. by exists s.
Qed.

Lemma IsAbs_slash s : IsAbs ("/" +:+ s) = true.
Proof. apply has_prefix_app. Qed.

Lemma Clean_abs p : IsAbs p = true -> Clean p = "/" +:+ join "/" (clean_parts p).
Proof. intros H. unfold Clean. by rewrite H. Qed.

Lemma clean_parts_root l : Forall plain l -> clean_parts ("/" +:+ join "/" l) = l.
Proof.
  intros H. unfold clean_parts. rewrite IsAbs_slash. rewrite append_cons, append_nil_l.
  destruct l as [|c l]; [done|].
  change (String "/" ?t) with ("" +:+ String slash t). rewrite split_char_cons by done.
  rewrite split_join; [|done|by apply plain_free].
  change (foldl (clean_step true) [] ("" :: c :: l)) with (foldl (clean_step true) [] (c :: l)). rewrite clean_fold_plain by done. by rewrite app_nil_r, rev_involutive.
Qed.

(** An absolute path and its clean form have the same components. *)
Lemma clean_parts_Clean p : IsAbs p = true -> clean_parts (Clean p) = clean_parts p.
Proof. intros H. rewrite Clean_abs by done. by apply clean_parts_root, clean_parts_abs. Qed.

Lemma IsAbs_Clean p : IsAbs p = true -> IsAbs (Clean p) = true.
Proof. intros H. rewrite Clean_abs by done. apply IsAbs_slash. Qed.

Lemma Clean_idemp p : IsAbs p = true -> Clean (Clean p) = Clean p.
Proof. intros H. rewrite (Clean_abs (Clean p)) by by apply IsAbs_Clean. by rewrite clean_parts_Clean, <- Clean_abs. Qed.

Lemma Clean_inj p q : IsAbs p = true -> IsAbs q = true -> Clean p = Clean q <-> clean_parts p = clean_parts q.
Proof.
  intros Hp Hq. split; [|by rewrite !Clean_abs by done; intros ->].
  intros H. by rewrite <- (clean_parts_Clean p), <- (clean_parts_Clean q), H by done.
Qed.

(* ------------------------------------------------------------------ *)
(** ** Local paths *)

Lemma up_stays rooted l : forall kept, ".." ∈ kept -> ".." ∈ foldl (clean_step rooted) kept l.
Proof.
  induction l as [|c l IH]; intros kept H; [done|]. apply IH. unfold clean_step. case_bool_decide; [done|].
  case_bool_decide; [|by right]. destruct kept as [|k kept]; [by apply elem_of_nil in H|].
  case_bool_decide; [by right|]. apply elem_of_cons in H as [H|H]; [congruence|done].
Qed.

(** Components that never lead up are the same below any directory. *)
Lemma clean_fold_local l : forall kept below, Forall plain kept -> Forall (fun w => contains_char slash w = false) l ->
  ".." ∉ foldl (clean_step false) kept l ->
  Forall plain (foldl (clean_step false) kept l) /\
  foldl (clean_step true) (kept ++ below) l = foldl (clean_step false) kept l ++ below.
Proof.
  induction l as [|c l IH]; intros kept below Hk; [done|]. intros [Hc Hl]%Forall_cons H. cbn [foldl] in *.
  destruct (word_cases c Hc) as [Hs|[->|Hs]].
  - rewrite (clean_step_skip false), (clean_step_skip true) in * by done. by apply IH.
  - destruct kept as [|k kept]; [exfalso; apply H, up_stays; by left|].
    apply Forall_cons in Hk as [Hk Hk']. rewrite <- app_comm_cons. rewrite !clean_step_up in * by done. by apply IH.
  - rewrite (clean_step_plain false), (clean_step_plain true) in * by done. rewrite app_comm_cons. apply IH; [by constructor|done..].
Qed.

(** A clean relative path leads up first, and then down. *)
Lemma clean_fold_shape l : forall kept n, Forall plain kept -> Forall (fun w => contains_char slash w = false) l ->
  exists kept' m, foldl (clean_step false) (kept ++ repeat ".." n) l = kept' ++ repeat ".." m /\ Forall plain kept'.
Proof.
  induction l as [|c l IH]; intros kept n Hk; [by exists kept, n|]. intros [Hc Hl]%Forall_cons. cbn [foldl].
  destruct (word_cases c Hc) as [Hs|[->|Hs]].
  - rewrite clean_step_skip by done. by apply IH.
  - destruct kept as [|k kept].
    + destruct n as [|n]; [apply (IH [] 1%nat)|apply (IH [] (S (S n)))]; done.
    + apply Forall_cons in Hk as [Hk Hk']. rewrite <- app_comm_cons, clean_step_up by done. by apply IH.
  - rewrite clean_step_plain, app_comm_cons by done. apply IH; [by constructor|done].
Qed.

Lemma clean_parts_rel p : IsAbs p = false -> exists n l, clean_parts p = repeat ".." n ++ l /\ Forall plain l.
Proof.
  intros H. unfold clean_parts. rewrite H.
  destruct (clean_fold_shape (split_char slash p) [] 0 (Forall_nil_2 _) (split_char_free _ _)) as (kept & m & Hf & Hk).
  simpl in Hf. rewrite Hf, rev_app_distr. exists m, (rev kept). split; [|by apply Forall_rev]. f_equal.
  clear. induction m as [|m IH]; [done|]. simpl. rewrite IH. clear. induction m as [|m IH]; [done|]. simpl. by f_equal.
Qed.

Lemma join_up n l : (0 < n)%nat -> join "/" (repeat ".." n ++ l) = ".." \/ has_prefix (join "/" (repeat ".." n ++ l)) "../" = true.
Proof.
  destruct n as [|n]; [lia|]. intros _. simpl repeat. rewrite <- app_comm_cons.
  destruct (repeat ".." n ++ l) as [|c l'] eqn:E; [by left|right]. rewrite join_cons by done.
  apply has_prefix_spec. by exists (join "/" (c :: l')).
Qed.

Lemma local_rel p : IsLocal p = true -> IsAbs p = false /\ p <> "".
Proof. unfold IsLocal. destruct (IsAbs p); [done|]. case_bool_decide; [done|]. done. Qed.

Lemma clean_fold_dotless kept l : "." ∉ l -> ".." ∉ l ->
  foldl (clean_step false) kept l = rev (List.filter (fun c => negb (bool_decide (c = ""))) l) ++ kept.
Proof.
  revert kept; induction l as [|c l IH]; intros kept H1 H2; [done|].
  apply not_elem_of_cons in H1 as [H1 H1']. apply not_elem_of_cons in H2 as [H2 H2']. simpl. unfold clean_step at 2.
  rewrite (bool_decide_eq_false_2 (c = "..")) by congruence. destruct (decide (c = "")) as [->|Hc].
  - rewrite (bool_decide_eq_true_2 ("" = "" \/ "" = ".")) by auto. by rewrite IH.
  - rewrite (bool_decide_eq_false_2 (c = "")), (bool_decide_eq_false_2 (c = "" \/ c = ".")) by naive_solver.
    rewrite IH by done. simpl. by rewrite <- app_assoc.
Qed.

(** What [IsLocal] promises: the path leads down only. *)
Lemma local_parts p : IsLocal p = true -> Forall plain (clean_parts p).
Proof.
  intros H. destruct (local_rel _ H) as [Ha Hne]. destruct (clean_parts_rel p Ha) as (n & l & Hp & Hl).
  rewrite Hp. destruct n as [|n]; [done|]. exfalso. revert H. unfold IsLocal. rewrite Ha, bool_decide_eq_false_2 by done. simpl.
  destruct (bool_decide ("." ∈ _) || _) eqn:Hd; simpl.
  - unfold Clean. rewrite Ha, Hp. pose proof (join_up (S n) l) as Hup. set (s := join "/" _) in *.
    destruct Hup as [Hup|Hup]; [lia|by rewrite Hup|]. destruct (decide (s = "")) as [He|He]; [by rewrite He in Hup|].
    rewrite (bool_decide_eq_false_2 (s = "")) by done. by rewrite Hup, orb_true_r.
  - apply orb_false_iff in Hd as [H1%bool_decide_eq_false H2%bool_decide_eq_false].
    unfold clean_parts in Hp. rewrite Ha, clean_fold_dotless in Hp by done. rewrite app_nil_r, rev_involutive in Hp.
    assert (".." ∈ List.filter (fun c => negb (bool_decide (c = ""))) (split_char slash p)) as Hin by (rewrite Hp; by left).
    apply list_elem_of_In, filter_In in Hin as [Hin _]. by apply list_elem_of_In in Hin.
Qed.

Lemma local_join l : l <> [] -> Forall plain l -> IsLocal (join "/" l) = true.
Proof.
  intros Hne H. assert (split_char slash (join "/" l) = l) as Hs by (apply split_join; [done|by apply plain_free]).
  assert (forall c, c ∈ l -> plain c) as Hin by by apply Forall_forall.
  assert (IsAbs (join "/" l) = false) as Ha.
  { apply not_true_iff_false. intros [b Hb]%has_prefix_spec. rewrite Hb in Hs.
    change ("/" +:+ b) with ("" +:+ String slash b) in Hs. rewrite split_char_cons in Hs by done. subst l.
    apply Forall_cons in H as [(H & _) _]. done. }
  assert (join "/" l <> "") as He.
  { intros He. rewrite He in Hs. simpl in Hs. subst l. apply Forall_cons in H as [(H & _) _]. done. }
  unfold IsLocal. rewrite Ha, bool_decide_eq_false_2 by done. simpl. rewrite Hs.
  rewrite (bool_decide_eq_false_2 ("." ∈ l)) by (intros Hc%Hin; by apply plain_dot).
  rewrite (bool_decide_eq_false_2 (".." ∈ l)) by (intros Hc%Hin; by apply plain_up). simpl.
  apply negb_true_iff, orb_false_iff. split.
  - apply bool_decide_eq_false. intros Hd. rewrite Hd in Hs. simpl in Hs. subst l.
    apply Forall_cons in H as [(_ & _ & H & _) _]. done.
  - apply not_true_iff_false. intros [b Hb]%has_prefix_spec. rewrite Hb in Hs.
    change ("../" +:+ b) with (".." +:+ String slash b) in Hs. rewrite split_char_cons in Hs by done. subst l.
    apply Forall_cons in H as [(_ & _ & H & _) _]. done.
Qed.

Lemma clean_parts_join l : l <> [] -> Forall plain l -> clean_parts (join "/" l) = l.
Proof.
  intros Hne H. destruct (local_rel _ (local_join l Hne H)) as [Ha _]. unfold clean_parts. rewrite Ha.
  rewrite split_join; [|done|by apply plain_free]. rewrite clean_fold_plain by done. by rewrite app_nil_r, rev_involutive.
Qed.

(** Joining a local path goes down from the directory. *)
Lemma clean_parts_below a b : IsAbs a = true -> IsLocal b = true ->
  clean_parts (a +:+ "/" +:+ b) = clean_parts a ++ clean_parts b.
Proof.
  intros Ha Hb. destruct (local_rel _ Hb) as [Hrel _]. pose proof (local_parts _ Hb) as Hp.
  assert (IsAbs (a +:+ "/" +:+ b) = true) as Hab.
  { apply has_prefix_spec in Ha as [a' ->]. rewrite append_assoc. apply has_prefix_app. }
  unfold clean_parts in *. rewrite Ha, Hab, Hrel in *.
  change ("/" +:+ b) with (String slash b). rewrite split_char_app. rewrite foldl_app.
  set (ka := foldl (clean_step true) [] (split_char slash a)) in *.
  destruct (clean_fold_local (split_char slash b) [] ka) as [_ Hf]; [constructor|apply split_char_free| |].
  - intros Hup. rewrite Forall_forall in Hp. destruct (Hp "..") as (_ & _ & ? & _); [|done].
    apply list_elem_of_In. rewrite <- in_rev. by apply list_elem_of_In.
  - simpl in Hf. rewrite Hf. by rewrite rev_app_distr.
Qed.

Lemma IsAbs_app a b : IsAbs a = true -> IsAbs (a +:+ b) = true.
Proof. intros [a' ->]%has_prefix_spec. rewrite append_assoc. apply has_prefix_app. Qed.

Lemma IsAbs_nonempty a : IsAbs a = true -> a <> "".
Proof. by intros [a' ->]%has_prefix_spec. Qed.

Lemma Join_two a b : a <> "" -> Join [a; b] = Clean (a +:+ "/" +:+ b).
Proof. intros H. unfold Join, drop_empty. by rewrite bool_decide_eq_false_2. Qed.

(** Every further element of a [Join] goes down, when it is local. *)
Lemma Join_abs a l : IsAbs a = true -> Forall (fun b => IsLocal b = true) l ->
  IsAbs (Join (a :: l)) = true /\ clean_parts (Join (a :: l)) = clean_parts a ++ concat (map clean_parts l).
Proof.
  intros Ha. unfold Join. cbn [drop_empty]. rewrite bool_decide_eq_false_2 by by apply IsAbs_nonempty.
  assert (Forall (fun b => IsLocal b = true) l -> IsAbs (join "/" (a :: l)) = true /\
    clean_parts (join "/" (a :: l)) = clean_parts a ++ concat (map clean_parts l)) as H; cycle 1.
  { intros [H1 H2]%H. split; [by apply IsAbs_Clean|]. by rewrite clean_parts_Clean. }
  revert a Ha. induction l as [|b l IH]; intros a Ha.
  - intros _. simpl. by rewrite app_nil_r.
  - intros [Hb Hl]%Forall_cons. simpl (concat _). rewrite join_cons by done.
    destruct l as [|b' l]; [simpl join; simpl concat; rewrite app_nil_r; split; [by apply IsAbs_app|by apply clean_parts_below]|].
    rewrite join_cons by done. replace (a +:+ "/" +:+ b +:+ "/" +:+ join "/" (b' :: l)) with (join "/" ((a +:+ "/" +:+ b) :: b' :: l)) by
      (rewrite join_cons by done; by rewrite !append_assoc).
    destruct (IH (a +:+ "/" +:+ b)) as [H1 H2]; [by apply IsAbs_app|done|]. split; [done|].
    rewrite H2, clean_parts_below by done. by rewrite app_assoc.
Qed.

(* ------------------------------------------------------------------ *)
(** ** Relative paths and directories *)

(** A clean local path with these components. *)
Definition local_path (l : list string) : string := match l with [] => "." | _ => join "/" l end.

Lemma local_path_local l : Forall plain l -> IsLocal (local_path l) = true.
Proof. destruct l; [done|]. by apply local_join. Qed.

Lemma words_abs p : IsAbs p = true -> words (Clean p) = "" :: clean_parts p.
Proof.
  intros H. pose proof (clean_parts_abs _ H) as Hp. rewrite Clean_abs by done. unfold words.
  destruct (clean_parts p) as [|c l] eqn:E; [done|]. rewrite bool_decide_eq_false_2.
  - change ("/" +:+ ?s) with ("" +:+ String slash s). rewrite split_char_cons by done.
    rewrite split_join; [done|done|]. by apply plain_free.
  - intros Hj. rewrite append_cons, append_nil_l in Hj. injection Hj as Hj.
    destruct (local_rel _ (local_join (c :: l) ltac:(done) Hp)) as [_ Hne]. by apply Hne.
Qed.

Lemma strip_common_spec base : forall target, exists common up down,
  strip_common base target = (up, down) /\ base = common ++ up /\ target = common ++ down.
Proof.
  induction base as [|b base IH]; intros target; [by exists [], [], target|].
  destruct target as [|t target]; [by exists [], (b :: base), []|]. simpl. case_bool_decide as H.
  - subst t. destruct (IH target) as (common & up & down & -> & -> & ->). by exists (b :: common), up, down.
  - by exists [], (b :: base), (t :: target).
Qed.

Lemma strip_common_prefix base rest : strip_common base (base ++ rest) = ([], rest).
Proof. induction base as [|b base IH]; [by destruct rest|]. simpl. by rewrite bool_decide_eq_true_2. Qed.

Lemma map_const_repeat {A B} (b : B) (l : list A) : map (fun _ => b) l = repeat b (length l).
Proof. induction l; [done|]. simpl. by f_equal. Qed.

Lemma Rel_below base target rest : IsAbs base = true -> IsAbs target = true ->
  clean_parts target = clean_parts base ++ rest -> Rel base target = Ok (local_path rest).
Proof.
  intros Hb Ht H. unfold Rel. destruct rest as [|c rest].
  - rewrite app_nil_r in H. apply Clean_inj in H; [|done..]. by rewrite bool_decide_eq_true_2.
  - rewrite bool_decide_eq_false_2.
    + rewrite IsAbs_Clean by done. simpl. rewrite !words_abs, H by done. rewrite app_comm_cons.
      by rewrite strip_common_prefix.
    + intros Hc. apply Clean_inj in Hc; [|done..]. rewrite H in Hc.
      apply (f_equal length) in Hc. rewrite length_app in Hc. simpl in Hc. lia.
Qed.

(** A local answer of [Rel] means that the target is below the base. *)
Lemma Rel_local base target r : IsAbs base = true -> Rel base target = Ok r -> IsLocal r = true ->
  IsAbs target = true /\ exists rest, clean_parts target = clean_parts base ++ rest /\ Forall plain rest /\ r = local_path rest.
Proof.
  intros Hb. unfold Rel. assert (forall p, IsAbs (Clean p) = true -> IsAbs p = true) as Habs.
  { intros p. unfold Clean. destruct (IsAbs p) eqn:Ha; [done|]. case_bool_decide as He; [done|]. intros Hj.
    destruct (clean_parts_rel p Ha) as (n & l & Hp & Hl). rewrite Hp in *. exfalso. revert Hj.
    destruct n as [|n].
    - simpl. destruct l as [|c l]; [done|]. apply not_true_iff_false, local_rel, local_join; [done|]. exact Hl.
    - simpl. by destruct (repeat ".." n ++ l). }
  case_bool_decide as Hc.
  - intros [= <-] _. assert (IsAbs target = true) as Ht by (apply Habs; rewrite Hc; by apply IsAbs_Clean).
    split; [done|]. exists []. split_and!; [|done|done]. rewrite app_nil_r. by apply Clean_inj.
  - destruct (IsAbs (Clean target)) eqn:Hct; simpl; [|done]. apply Habs in Hct. rewrite !words_abs by done. simpl.
    destruct (strip_common_spec (clean_parts base) (clean_parts target)) as (common & up & down & -> & Hbase & Htarget).
    intros [= <-] Hl. split; [done|]. rewrite map_const_repeat in *.
    assert (Forall plain down) as Hd.
    { pose proof (clean_parts_abs _ Hct) as Hp. rewrite Htarget in Hp. by apply Forall_app in Hp as [_ ?]. }
    destruct up as [|u up].
    + exists down. simpl in *. rewrite app_nil_r in Hbase. rewrite Hbase. split_and!; [done|done|].
      destruct down; [|done]. simpl in Hl. by vm_compute in Hl.
    + exfalso. pose proof (join_up (length (u :: up)) down ltac:(simpl; lia)) as Hup.
      apply local_parts in Hl. set (s := join "/" _) in *.
      assert (".." ∈ clean_parts s) as Hin; [|rewrite Forall_forall in Hl; by apply plain_up, Hl].
      destruct Hup as [->|[b ->]%has_prefix_spec]; [by left|]. unfold clean_parts.
      change ("../" +:+ b) with (".." +:+ String slash b). rewrite split_char_cons by done.
      change (IsAbs (".." +:+ String slash b)) with false. cbn [foldl]. apply list_elem_of_In. rewrite <- in_rev.
      apply list_elem_of_In, up_stays. by left.
Qed.

Lemma cut_at_last_none c s : contains_char c s = false -> cut_at_last c s = None.
Proof.
  induction s as [|a s IH]; simpl; [done|]. intros [Ha Hs]%orb_false_iff. rewrite IH by done. by rewrite Ha.
Qed.

Lemma cut_at_last_app c s t : contains_char c t = false -> cut_at_last c (s +:+ String c t) = Some (s, t).
Proof.
  intros Ht. induction s as [|a s IH].
  - simpl. rewrite cut_at_last_none by done. by rewrite bool_decide_eq_true_2.
  - rewrite append_cons. simpl. by rewrite IH.
Qed.

Lemma join_snoc l c : l <> [] -> join "/" (l ++ [c]) = join "/" l +:+ String slash c.
Proof.
  induction l as [|w l IH]; [done|]. intros _. destruct l as [|w' l]; [done|].
  rewrite <- app_comm_cons, !join_cons by done. rewrite IH by done. by rewrite !append_assoc.
Qed.

Lemma Dir_local l c : Forall plain (l ++ [c]) -> Dir (join "/" (l ++ [c])) = local_path l.
Proof.
  intros [Hl Hc]%Forall_app. apply Forall_cons in Hc as [(_ & _ & _ & Hc) _]. unfold Dir.
  destruct l as [|w l]; [simpl; by rewrite cut_at_last_none|].
  rewrite join_snoc, cut_at_last_app by done. unfold Clean.
  destruct (local_rel _ (local_join (w :: l) ltac:(done) Hl)) as [Ha Hne].
  assert (IsAbs (join "/" (w :: l) +:+ "/") = false) as Ha'.
  { destruct (join "/" (w :: l)); [done|]. by rewrite append_cons, IsAbs_cons in *. }
  assert (clean_parts (join "/" (w :: l) +:+ "/") = w :: l) as Hp.
  { unfold clean_parts. rewrite Ha'. change "/" with (String slash "") at 2. rewrite split_char_app.
    rewrite split_join; [|done|by apply plain_free]. rewrite foldl_app. simpl split_char.
    rewrite (clean_fold_plain false [] (w :: l)) by done. rewrite app_nil_r. cbn [foldl]. rewrite clean_step_skip by auto. by rewrite rev_involutive. }
  rewrite Ha', Hp. by rewrite bool_decide_eq_false_2.
Qed.

Lemma Dir_local_path l c : Forall plain (l ++ [c]) -> Dir (local_path (l ++ [c])) = local_path l.
Proof. intros H. rewrite <- (Dir_local l c H). by destruct l. Qed.

Lemma Clean_local l : Forall plain l -> Clean (local_path l) = local_path l.
Proof.
  intros Hl. destruct l as [|c l]; [done|]. unfold local_path, Clean.
  destruct (local_rel _ (local_join (c :: l) ltac:(done) Hl)) as [-> Hne].
  by rewrite clean_parts_join, bool_decide_eq_false_2.
Qed.

Lemma Join_local l c : Forall plain l -> plain c -> Join [local_path l; c] = local_path (l ++ [c]).
Proof.
  intros Hl Hc. destruct l as [|w l].
  - rewrite Join_two by done. simpl. unfold Clean. change (IsAbs ("." +:+ "/" +:+ c)) with false.
    assert (clean_parts ("." +:+ "/" +:+ c) = [c]) as ->.
    { unfold clean_parts. change (IsAbs ("." +:+ "/" +:+ c)) with false. change ("." +:+ "/" +:+ c) with ("." +:+ String slash c).
      rewrite split_char_cons by done. destruct Hc as (? & ? & ? & Hs). rewrite split_char_none by done. cbn [foldl].
      rewrite (clean_step_skip false [] ".") by auto. by rewrite clean_step_plain. }
    cbn [join app local_path]. by rewrite bool_decide_eq_false_2 by apply Hc.
  - assert (Forall plain ((w :: l) ++ [c])) as Hlc by (apply Forall_app; split; [done|by constructor]).
    rewrite Join_two by (apply local_rel, local_join; done).
    assert (local_path (w :: l) +:+ "/" +:+ c = local_path ((w :: l) ++ [c])) as ->; [|by apply Clean_local].
    unfold local_path at 1. change (local_path ((w :: l) ++ [c])) with (join "/" ((w :: l) ++ [c])). by rewrite join_snoc.
Qed.
