(* ===== verification/Host.v ===== *)
(** * The machine the agent runs on

    The files, the processes and the clock that the agent
    ([agent/go/internal]) meets, as far as it uses them: the functions of [os],
    [os.Root] and [path/filepath] it calls.  A disk maps the components of an
    absolute path to what is there.  An [os.Root] is the directory it was opened
    on; a path below it is followed link by link and may not leave it.

    Any call may fail ([w_fault]), at any time, and then does nothing, except
    that a write may leave a part of its text ([w_torn]).  An agent that is
    killed is one whose every later call fails, so that what holds of the disk
    after every run holds wherever the run is cut off.  A command
    ([w_exec]) may do anything to the disk.  Hard links, owners and what a
    power failure loses are not modelled, nor the working directory: a
    relative path given to [os] is taken from the root. *)

From S2P Require Import Prelude Effects Paths.

#[local] Open Scope Z_scope.
#[local] Open Scope go_scope.

(* ------------------------------------------------------------------ *)
(** ** The disk *)

Inductive node :=
| File (data : string) (mode : Z)
| Directory (mode : Z)
| Link (target : string)
| Special (mode : Z).

#[export] Instance node_eq_dec : EqDecision node.
Proof. solve_decision. Defined.

Notation disk := (@gmap (list string) (@list_eq_dec string String.eq_dec) (@list_countable string String.eq_dec String.countable) node).

(** [fs.FileInfo]: which file, and what it is. *)
Record FileInfo := { fi_file : list string; fi_node : node }.

Definition IsRegular (i : FileInfo) : bool := match fi_node i with File _ _ => true | _ => false end.
Definition IsDir (i : FileInfo) : bool := match fi_node i with Directory _ => true | _ => false end.
Definition IsSymlink (i : FileInfo) : bool := match fi_node i with Link _ => true | _ => false end.
Definition Perm (i : FileInfo) : Z :=
  match fi_node i with File _ m | Directory m | Special m => Z.land m 511 | Link _ => 511 end.

(** [os.SameFile] *)
Definition SameFile (i j : FileInfo) : bool := bool_decide (fi_file i = fi_file j).

Definition ErrNotExist : error := errorf "file does not exist" [].
Definition ErrExist : error := errorf "file already exists" [].
Definition ErrPermission : error := errorf "permission denied" [].
Definition ENOTDIR : error := errorf "not a directory" [].
Definition EISDIR : error := errorf "is a directory" [].
Definition ENOTEMPTY : error := errorf "directory not empty" [].
Definition ENAMETOOLONG : error := errorf "file name too long" [].
Definition ELOOP : error := errorf "too many levels of symbolic links" [].
Definition errPathEscapes : error := errorf "path escapes from parent" [].

(** [errors.Join] of errors that may be nil. *)
Fixpoint errors_Join (es : list (option error)) : option error :=
  match es with
  | [] => None
  | None :: es => errors_Join es
  | Some e :: es => Some (match errors_Join es with Some e' => Joined e e' | None => e end)
  end.

Definition max_links : nat := 40.

(** Follows a path from the directory [cur].  Inside a root, [Some base], the
    path may not leave it.  The last component is followed only on demand, and
    need not exist. *)
Fixpoint resolve (links : nat) (d : disk) (base : option (list string)) (follow : bool)
    : list string -> list string -> res (list string) :=
  fix go cur todo :=
  match todo with
  | [] => Ok cur
  | c :: rest =>
      if bool_decide (c = "" \/ c = ".") then go cur rest
      else if bool_decide (c = "..") then
        if bool_decide (base = Some cur) then Err errPathEscapes else go (removelast cur) rest
      else
        let p := cur ++ [c] in
        match d !! p with
        | Some (Link target) =>
            if bool_decide (rest = []) && negb follow then Ok p
            else match links with
            | O => Err ELOOP
            | S links =>
                if IsAbs target then
                  match base with
                  | Some _ => Err errPathEscapes
                  | None => resolve links d base follow [] (split_char slash target ++ rest)
                  end
                else resolve links d base follow cur (split_char slash target ++ rest)
            end
        | Some (Directory _) => go p rest
        | Some _ => if bool_decide (rest = []) then Ok p else Err ENOTDIR
        | None => if bool_decide (rest = []) then Ok p else Err ErrNotExist
        end
  end.

(** A path below an open root. *)
Definition rooted (d : disk) (root : list string) (follow : bool) (p : string) : res (list string) :=
  if bool_decide (p = "") then Err (errorf "empty path" []) else resolve max_links d (Some root) follow root (split_char slash p).

(** A path of the machine. *)
Definition located (d : disk) (follow : bool) (p : string) : res (list string) :=
  resolve max_links d None follow [] (split_char slash p).

Definition set_mode (mode : Z) (n : node) : node :=
  match n with File data _ => File data mode | Directory _ => Directory mode | Special _ => Special mode | Link t => Link t end.

(** The entries of a directory: names with what is there. *)
Definition entries (d : disk) (dir : list string) : list (string * node) :=
  omap (fun '(p, n) =>
    match last p with
    | Some name => if bool_decide (p = dir ++ [name]) then Some (name, n) else None
    | None => None
    end) (map_to_list d).

(* ------------------------------------------------------------------ *)
(** ** Calls *)

Inductive syscall :=
| OpenRoot (path : string) | CloseRoot
| RootLstat (path : string) | RootStat (path : string) | RootMkdir (path : string) | RootMkdirAll (path : string)
| RootChmod (path : string) | RootOpen (path : string) | RootCreate (path : string) | RootTruncate (path : string)
| RootReadFile (path : string) | RootRemove (path : string) | RootRename (from to : string)
| FileWrite | FileCopy | FileSync | FileClose | FileChmod | FileStat | DirRead
| OsStat (path : string) | OsLstat (path : string) | OsOpen (path : string) | OsReadFile (path : string)
| OsReadDir (path : string) | EvalLinks (path : string) | WriteOut (text : string).

(** Where the output of a command goes; [None] is a nil writer. *)
Inductive sink := Stdout | Stderr | LogFile (file : list string).
Notation writer := (option (list sink)).

(** A process that is started. *)
Record process := Process {
  pr_chroot : string; pr_executable : string; pr_args : list string; pr_dir : string;
  pr_env : list (string * string); pr_stdout : writer; pr_stderr : writer
}.

(** What [exec.Cmd.Run] leaves: whether the process was started, its exit code
    and signal once it has ended, and the error with whether it is an
    [exec.ExitError]. *)
Record outcome := { oc_started : bool; oc_state : option (Z * option Z); oc_err : option (bool * error) }.

Inductive event :=
| Sys (c : syscall)
| Ran (p : process) (o : outcome)
| Asked
| Clock
| Random.

Class World := {
  w_fault : list event -> option error;
  (** that a file is missing, or there already, is never a fault *)
  w_fault_real : forall t e, w_fault t = Some e -> errors_Is e ErrNotExist = false /\ errors_Is e ErrExist = false;
  w_torn : list event -> string;
  w_cancelled : list event -> option error;
  w_exec : list event -> process -> disk -> disk * outcome;
  (** without an error the command exited with 0, with an [ExitError] it has ended *)
  w_exec_ended : forall t p d, match oc_err (w_exec t p d).2 with
    | None => oc_state (w_exec t p d).2 = Some (0, None)
    | Some (exited, _) => exited = true -> is_Some (oc_state (w_exec t p d).2)
    end;
  w_now : list event -> Z;
  w_random : list event -> string;
  w_env : gmap string string;
  w_umask : Z;
  w_random_text : forall t, contains_char slash (w_random t) = false;
  w_listing : disk -> list string -> list (string * node);
  w_listing_Permutation : forall d dir, w_listing d dir ≡ₚ entries d dir
}.

Notation Go := (M event disk).

Section Calls.
Context `{W : World}.

(** A call that a fault leaves with [torn] of the disk. *)
Definition torn_call {A : Type} (c : syscall) (torn : string -> disk -> disk) (f : disk -> disk * res A) : Go A := fun s =>
  match w_fault (trace s) with
  | Some e => ({| trace := trace s ++ [Sys c]; mem := torn (w_torn (trace s)) (mem s) |}, Err e)
  | None => ({| trace := trace s ++ [Sys c]; mem := (f (mem s)).1 |}, (f (mem s)).2)
  end.

Definition sys {A : Type} (c : syscall) (f : disk -> disk * res A) : Go A := torn_call c (fun _ d => d) f.

(** A call that only reads. *)
Definition query {A : Type} (c : syscall) (f : disk -> res A) : Go A := sys c (fun d => (d, f d)).

(** A call on the path that [f] gives. *)
Definition on_path {A : Type} (d : disk) (p : res (list string)) (f : list string -> disk * res A) : disk * res A :=
  match p with Ok p => f p | Err e => (d, Err e) | Panic => (d, Panic) end.

Definition stat_at (d : disk) (p : res (list string)) : res FileInfo :=
  rbind p (fun p => match d !! p with Some n => Ok {| fi_file := p; fi_node := n |} | None => Err ErrNotExist end).

Definition masked (mode : Z) : Z := Z.land mode (Z.lnot w_umask).

(** [os.OpenRoot] *)
Definition open_root (path : string) : Go (list string) := query (OpenRoot path) (fun d =>
  rbind (stat_at d (located d true path)) (fun i => if IsDir i then Ok (fi_file i) else Err ENOTDIR)).

Definition close_root : Go unit := query CloseRoot (fun _ => Ok tt).

Definition root_lstat (r : list string) (p : string) : Go FileInfo := query (RootLstat p) (fun d => stat_at d (rooted d r false p)).
Definition root_stat (r : list string) (p : string) : Go FileInfo := query (RootStat p) (fun d => stat_at d (rooted d r true p)).

Definition root_mkdir (r : list string) (p : string) (mode : Z) : Go unit := sys (RootMkdir p) (fun d =>
  on_path d (rooted d r false p) (fun q =>
    match d !! q with Some _ => (d, Err ErrExist) | None => (<[q := Directory (masked mode)]> d, Ok tt) end)).

(** Makes the directory and its parents below the root, following links. *)
Fixpoint mkdir_all (r : list string) (mode : Z) (d : disk) (made : string) (todo : list string) : disk * res unit :=
  match todo with
  | [] => (d, Ok tt)
  | c :: todo =>
      let p := if bool_decide (made = "") then c else made +:+ "/" +:+ c in
      on_path d (rooted d r true p) (fun q =>
        match d !! q with
        | Some (Directory _) => mkdir_all r mode d p todo
        | Some _ => (d, Err ENOTDIR)
        | None => mkdir_all r mode (<[q := Directory (masked mode)]> d) p todo
        end)
  end.

Definition root_mkdirall (r : list string) (p : string) (mode : Z) : Go unit :=
  sys (RootMkdirAll p) (fun d => mkdir_all r mode d "" (split_char slash p)).

Definition chmod_at (d : disk) (mode : Z) (q : list string) : disk * res unit :=
  match d !! q with Some n => (<[q := set_mode mode n]> d, Ok tt) | None => (d, Err ErrNotExist) end.

Definition root_chmod (r : list string) (p : string) (mode : Z) : Go unit :=
  sys (RootChmod p) (fun d => on_path d (rooted d r true p) (chmod_at d mode)).

(** Opening for reading. *)
Definition root_open (r : list string) (p : string) : Go (list string) :=
  query (RootOpen p) (fun d => rbind (stat_at d (rooted d r true p)) (fun i => Ok (fi_file i))).

(** [OpenFile] with [O_WRONLY|O_CREATE|O_EXCL] *)
Definition root_create (r : list string) (p : string) (mode : Z) : Go (list string) := sys (RootCreate p) (fun d =>
  on_path d (rooted d r false p) (fun q =>
    match d !! q with Some _ => (d, Err ErrExist) | None => (<[q := File "" (masked mode)]> d, Ok q) end)).

(** [OpenFile] with [O_WRONLY|O_CREATE|O_TRUNC] *)
Definition root_truncate (r : list string) (p : string) (mode : Z) : Go (list string) := sys (RootTruncate p) (fun d =>
  on_path d (rooted d r true p) (fun q =>
    match d !! q with
    | Some (File _ m) => (<[q := File "" m]> d, Ok q)
    | Some (Special _) => (d, Ok q)
    | Some _ => (d, Err EISDIR)
    | None => (<[q := File "" (masked mode)]> d, Ok q)
    end)).

Definition contents (i : FileInfo) : res string :=
  match fi_node i with File data _ => Ok data | Directory _ => Err EISDIR | _ => Ok "" end.

Definition root_readfile (r : list string) (p : string) : Go string :=
  query (RootReadFile p) (fun d => rbind (stat_at d (rooted d r true p)) contents).

Definition root_remove (r : list string) (p : string) : Go unit := sys (RootRemove p) (fun d =>
  on_path d (rooted d r false p) (fun q =>
    match d !! q with
    | None => (d, Err ErrNotExist)
    | Some (Directory _) => if bool_decide (entries d q = []) then (delete q d, Ok tt) else (d, Err ENOTEMPTY)
    | Some _ => (delete q d, Ok tt)
    end)).

(** Renaming of anything but a directory. *)
Definition root_rename (r : list string) (from to : string) : Go unit := sys (RootRename from to) (fun d =>
  on_path d (rooted d r false from) (fun p => on_path d (rooted d r false to) (fun q =>
    match d !! p, d !! q with
    | None, _ => (d, Err ErrNotExist)
    | Some (Directory _), _ | _, Some (Directory _) => (d, Err EISDIR)
    | Some n, _ => (<[q := n]> (delete p d), Ok tt)
    end))).

Definition append_data (text : string) (q : list string) (d : disk) : disk :=
  match d !! q with Some (File data mode) => <[q := File (data +:+ text) mode]> d | _ => d end.

(** [file.Write], and [io.Copy] from an open file. *)
Definition file_write (f : list string) (text : string) : Go unit :=
  torn_call FileWrite (fun torn => append_data torn f) (fun d => (append_data text f d, Ok tt)).

Definition file_copy (dst src : list string) : Go unit :=
  torn_call FileCopy (fun torn => append_data torn dst) (fun d =>
    match rbind (stat_at d (Ok src)) contents with
    | Ok data => (append_data data dst d, Ok tt)
    | Err e => (d, Err e)
    | Panic => (d, Panic)
    end).

Definition file_sync (f : list string) : Go unit := query FileSync (fun _ => Ok tt).
Definition file_close (f : list string) : Go unit := query FileClose (fun _ => Ok tt).
Definition file_chmod (f : list string) (mode : Z) : Go unit := sys FileChmod (fun d => chmod_at d mode f).
Definition file_stat (f : list string) : Go FileInfo := query FileStat (fun d => stat_at d (Ok f)).
Definition dir_read (f : list string) : Go (list (string * node)) := query DirRead (fun d => Ok (w_listing d f)).

Definition os_stat (p : string) : Go FileInfo := query (OsStat p) (fun d => stat_at d (located d true p)).
Definition os_lstat (p : string) : Go FileInfo := query (OsLstat p) (fun d => stat_at d (located d false p)).
Definition os_open (p : string) : Go (list string) :=
  query (OsOpen p) (fun d => rbind (stat_at d (located d true p)) (fun i => Ok (fi_file i))).
Definition os_readfile (p : string) : Go string := query (OsReadFile p) (fun d => rbind (stat_at d (located d true p)) contents).

(** [os.ReadDir]: the names, sorted. *)
Definition os_readdir (p : string) : Go (list string) := query (OsReadDir p) (fun d =>
  rbind (stat_at d (located d true p)) (fun i =>
    if IsDir i then Ok (sort_strings (entries d (fi_file i)).*1) else Err ENOTDIR)).

Definition absolute (l : list string) : string := "/" +:+ join "/" l.

(** [filepath.EvalSymlinks] *)
Definition eval_links (p : string) : Go string :=
  query (EvalLinks p) (fun d => rbind (stat_at d (located d true p)) (fun i => Ok (absolute (fi_file i)))).

(** A line on the agent's own output. *)
Definition write_out (text : string) : Go unit := query (WriteOut text) (fun _ => Ok tt).

Definition exec (p : process) : Go outcome := fun s =>
  let (d, o) := w_exec (trace s) p (mem s) in ({| trace := trace s ++ [Ran p o]; mem := d |}, Ok o).

(** [ctx.Err()] *)
Definition ctx_err : Go (option error) := fun s =>
  ({| trace := trace s ++ [Asked]; mem := mem s |}, Ok (w_cancelled (trace s))).

Definition time_now : Go Z := fun s => ({| trace := trace s ++ [Clock]; mem := mem s |}, Ok (w_now (trace s))).
Definition rand_text : Go string := fun s => ({| trace := trace s ++ [Random]; mem := mem s |}, Ok (w_random (trace s))).

Definition LookupEnv (name : string) : option string := w_env !! name.
Definition Getenv (name : string) : string := default "" (LookupEnv name).

(* ------------------------------------------------------------------ *)
(** ** Errors as values, deferred calls *)

(** What [m] returned, for the code that looks at the error. *)
Definition attempt {A : Type} (m : Go A) : Go (res A) := fun s =>
  match m s with (s, Panic) => (s, Panic) | (s, r) => (s, Ok r) end.

(** [if err := ...; err != nil { return err }] where [err] may be nil. *)
Definition when_err {A : Type} (e : option error) (f : error -> error) (k : Go A) : Go A :=
  match e with Some e => raise (f e) | None => k end.

(** A deferred call that sets the error unless there is one; what [m] returned
    is then given up. *)
Definition deferred_undo {A : Type} (m : Go A) (close : Go unit) (undo : A -> Go unit) : Go A := fun s =>
  match m s with
  | (s, Ok a) =>
      match close s with
      | (s, Ok _) => (s, Ok a)
      | (s, Err e) =>
          match undo a s with (s, Ok _) => (s, Err e) | (s, Err e') => (s, Err (Joined e e')) | (s, Panic) => (s, Panic) end
      | (s, Panic) => (s, Panic)
      end
  | (s, Err e) => match close s with (s, Panic) => (s, Panic) | (s, _) => (s, Err e) end
  | (s, Panic) => (s, Panic)
  end.

Definition deferred {A : Type} (m : Go A) (close : Go unit) : Go A := deferred_undo m close (fun _ => ret tt).

(** Clean-up that runs only after an error; its own error is joined. *)
Definition on_error {A : Type} (m : Go A) (cleanup : Go (option error)) : Go A := fun s =>
  match m s with
  | (s, Err e) =>
      match cleanup s with
      | (s, Ok (Some e')) => (s, Err (Joined e e'))
      | (s, Panic) => (s, Panic)
      | (s, _) => (s, Err e)
      end
  | r => r
  end.

(* ------------------------------------------------------------------ *)
(** ** Before and after a program

    [hoare P m Q X]: from a disk that satisfies [P], [m] runs no command and
    does not panic; it leaves a disk with [Q] and its result, or with [X] and its
    error. *)

Definition quiet (e : event) : Prop := match e with Ran _ _ => False | _ => True end.

Definition hoare {A : Type} (P : disk -> Prop) (m : Go A) (Q : A -> disk -> Prop) (X : error -> disk -> Prop) : Prop :=
  forall s, P (mem s) -> emits quiet s (m s).1 /\
    match (m s).2 with Ok a => Q a (mem (m s).1) | Err e => X e (mem (m s).1) | Panic => False end.

Lemma hoare_ret {A : Type} (P : disk -> Prop) (a : A) (Q : A -> disk -> Prop) (X : error -> disk -> Prop) : (forall d, P d -> Q a d) -> hoare P (ret a) Q X.
Proof. intros HQ s Hs. split; [reflexivity|]. by apply HQ. Qed.

Lemma hoare_raise {A : Type} (P : disk -> Prop) e (Q : A -> disk -> Prop) (X : error -> disk -> Prop) : (forall d, P d -> X e d) -> hoare P (raise e) Q X.
Proof. intros HX s Hs. split; [reflexivity|]. by apply HX. Qed.

Lemma hoare_lift {A : Type} (P : disk -> Prop) (r : res A) (Q : A -> disk -> Prop) (X : error -> disk -> Prop) :
  (forall d, P d -> match r with Ok a => Q a d | Err e => X e d | Panic => False end) -> hoare P (lift r) Q X.
Proof. intros Hr s Hs. split; [reflexivity|]. simpl. by apply Hr. Qed.

Lemma hoare_bind {A B : Type} (P : disk -> Prop) (m : Go A) (k : A -> Go B) (R : A -> disk -> Prop) (Q : B -> disk -> Prop) (X : error -> disk -> Prop) :
  hoare P m R X -> (forall a, hoare (R a) (k a) Q X) -> hoare P (bind m k) Q X.
Proof.
  intros Hm Hk s Hs. destruct (Hm s Hs) as [He Hr]. unfold bind. destruct (m s) as [s' [a|e|]]; simpl in *; [|done..].
  destruct (Hk a s' Hr) as [He' Hr']. split; [by etrans|done].
Qed.

Lemma hoare_conseq {A : Type} (P P' : disk -> Prop) (m : Go A) (Q Q' : A -> disk -> Prop) (X X' : error -> disk -> Prop) :
  hoare P m Q X -> (forall d, P' d -> P d) -> (forall a d, Q a d -> Q' a d) -> (forall e d, X e d -> X' e d) -> hoare P' m Q' X'.
Proof.
  intros Hm HP HQ HX s Hs. destruct (Hm s (HP _ Hs)) as [He Hr]. split; [done|]. destruct ((m s).2); auto.
Qed.

Lemma hoare_post {A : Type} (P : disk -> Prop) (m : Go A) (Q Q' : A -> disk -> Prop) (X X' : error -> disk -> Prop) :
  hoare P m Q X -> (forall a d, Q a d -> Q' a d) -> (forall e d, X e d -> X' e d) -> hoare P m Q' X'.
Proof. intros Hm HQ HX. by eapply hoare_conseq. Qed.

Lemma hoare_error {A : Type} (P : disk -> Prop) (m : Go A) (Q : A -> disk -> Prop) (X X' : error -> disk -> Prop) :
  hoare P m Q X -> (forall e d, X e d -> X' e d) -> hoare P m Q X'.
Proof. intros Hm HX. by eapply hoare_post. Qed.

Lemma hoare_wrap {A : Type} (P : disk -> Prop) fmt args (m : Go A) (Q : A -> disk -> Prop) (X X' : error -> disk -> Prop) :
  hoare P m Q X' -> (forall e d, X' e d -> X (wrapf fmt args e) d) -> hoare P (wrap fmt args m) Q X.
Proof.
  intros Hm HX s Hs. destruct (Hm s Hs) as [He Hr]. unfold wrap. simpl. split; [done|].
  destruct ((m s).2); simpl; auto.
Qed.

Lemma hoare_attempt {A : Type} (P : disk -> Prop) (m : Go A) (Q : A -> disk -> Prop) (X : error -> disk -> Prop) (Y : error -> disk -> Prop) :
  hoare P m Q X -> hoare P (attempt m) (fun r d => match r with Ok a => Q a d | Err e => X e d | Panic => False end) Y.
Proof.
  intros Hm s Hs. destruct (Hm s Hs) as [He Hr]. unfold attempt. destruct (m s) as [s' [a|e|]]; simpl in *; done.
Qed.

Lemma hoare_try {A : Type} (P : disk -> Prop) (m : Go A) (Q : A -> disk -> Prop) (X : error -> disk -> Prop) (R : disk -> Prop) (Y : error -> disk -> Prop) :
  hoare P m Q X -> (forall a d, Q a d -> R d) -> (forall e d, X e d -> R d) -> hoare P (try m) (fun _ => R) Y.
Proof.
  intros Hm HQ HX s Hs. destruct (Hm s Hs) as [He Hr]. unfold try. destruct (m s) as [s' [a|e|]]; simpl in *; eauto.
Qed.

Lemma hoare_query {A : Type} (P : disk -> Prop) c (f : disk -> res A) (Q : A -> disk -> Prop) (X : error -> disk -> Prop) :
  (forall d, P d -> match f d with Ok a => Q a d | Err e => X e d | Panic => False end) ->
  (forall d e, P d -> errors_Is e ErrNotExist = false -> X e d) -> hoare P (query c f) Q X.
Proof.
  intros Hf HX s Hs. unfold query, sys, torn_call. destruct (w_fault (trace s)) as [e|] eqn:Ef; simpl.
  - split; [exists [Sys c]; split; [done|by repeat constructor]|]. apply HX; [done|]. by eapply w_fault_real.
  - split; [exists [Sys c]; split; [done|by repeat constructor]|]. by apply Hf.
Qed.

Lemma hoare_sys {A : Type} (P : disk -> Prop) c (f : disk -> disk * res A) (Q : A -> disk -> Prop) (X : error -> disk -> Prop) :
  (forall d, P d -> match (f d).2 with Ok a => Q a (f d).1 | Err e => X e (f d).1 | Panic => False end) ->
  (forall d e, P d -> errors_Is e ErrNotExist = false -> X e d) -> hoare P (sys c f) Q X.
Proof.
  intros Hf HX s Hs. unfold sys, torn_call. destruct (w_fault (trace s)) as [e|] eqn:Ef; simpl.
  - split; [exists [Sys c]; split; [done|by repeat constructor]|]. apply HX; [done|]. by eapply w_fault_real.
  - split; [exists [Sys c]; split; [done|by repeat constructor]|]. by apply Hf.
Qed.

Lemma hoare_torn {A : Type} (P : disk -> Prop) c torn (f : disk -> disk * res A) (Q : A -> disk -> Prop) (X : error -> disk -> Prop) :
  (forall d, P d -> match (f d).2 with Ok a => Q a (f d).1 | Err e => X e (f d).1 | Panic => False end) ->
  (forall d e part, P d -> X e (torn part d)) -> hoare P (torn_call c torn f) Q X.
Proof.
  intros Hf HX s Hs. unfold torn_call. destruct (w_fault (trace s)) as [e|] eqn:Ef; simpl.
  - split; [exists [Sys c]; split; [done|by repeat constructor]|]. by apply HX.
  - split; [exists [Sys c]; split; [done|by repeat constructor]|]. by apply Hf.
Qed.

Lemma hoare_rand (P : disk -> Prop) (Q : string -> disk -> Prop) (X : error -> disk -> Prop) : (forall a d, P d -> Q a d) -> hoare P rand_text Q X.
Proof. intros HQ s Hs. split; [exists [Random]; split; [done|by repeat constructor]|]. by apply HQ. Qed.

Lemma hoare_now (P : disk -> Prop) (Q : Z -> disk -> Prop) (X : error -> disk -> Prop) : (forall a d, P d -> Q a d) -> hoare P time_now Q X.
Proof. intros HQ s Hs. split; [exists [Clock]; split; [done|by repeat constructor]|]. by apply HQ. Qed.

Lemma hoare_ctx (P : disk -> Prop) (Q : option error -> disk -> Prop) (X : error -> disk -> Prop) : (forall a d, P d -> Q a d) -> hoare P ctx_err Q X.
Proof. intros HQ s Hs. split; [exists [Asked]; split; [done|by repeat constructor]|]. by apply HQ. Qed.

Lemma hoare_deferred_undo {A : Type} (P : disk -> Prop) (m : Go A) (close : Go unit) (undo : A -> Go unit) (Q : A -> disk -> Prop) (X : error -> disk -> Prop) :
  hoare P m Q X ->
  (forall a, hoare (Q a) close (fun _ => Q a) (fun e d => hoare (fun d' => d' = d) (undo a) (fun _ => X e) (fun e' => X (Joined e e')))) ->
  (forall e, hoare (X e) close (fun _ => X e) (fun _ => X e)) ->
  hoare P (deferred_undo m close undo) Q X.
Proof.
  intros Hm Hok Herr s Hs. destruct (Hm s Hs) as [He Hr]. unfold deferred_undo. destruct (m s) as [s1 [a|e|]]; simpl in *; [| |done].
  - destruct (Hok a s1 Hr) as [He' Hr']. destruct (close s1) as [s2 [u|e|]]; simpl in *; [split; [by etrans|done]| |done].
    destruct (Hr' s2 eq_refl) as [He'' Hr'']. destruct (undo a s2) as [s3 [u|e'|]]; simpl in *; [| |done];
      (split; [etrans; [done|by etrans]|done]).
  - destruct (Herr e s1 Hr) as [He' Hr']. destruct (close s1) as [s2 [u|e'|]]; simpl in *; [| |done]; (split; [by etrans|done]).
Qed.

Lemma hoare_deferred {A : Type} (P : disk -> Prop) (m : Go A) (close : Go unit) (Q : A -> disk -> Prop) (X : error -> disk -> Prop) :
  hoare P m Q X -> (forall a, hoare (Q a) close (fun _ => Q a) X) -> (forall e, hoare (X e) close (fun _ => X e) (fun _ => X e)) ->
  hoare P (deferred m close) Q X.
Proof.
  intros Hm Hok Herr. apply hoare_deferred_undo; [done| |done]. intros a. eapply hoare_conseq; [apply Hok|done..|].
  intros e d Hd. simpl. apply hoare_ret. by intros d' ->.
Qed.

Lemma hoare_on_error {A : Type} (P : disk -> Prop) (m : Go A) (cleanup : Go (option error)) (Q : A -> disk -> Prop) (X Y : error -> disk -> Prop) :
  hoare P m Q Y ->
  (forall e, hoare (Y e) cleanup (fun oe => match oe with Some e' => X (Joined e e') | None => X e end) (fun _ => X e)) ->
  hoare P (on_error m cleanup) Q X.
Proof.
  intros Hm Hc s Hs. destruct (Hm s Hs) as [He Hr]. unfold on_error. destruct (m s) as [s1 [a|e|]]; simpl in *; [done| |done].
  destruct (Hc e s1 Hr) as [He' Hr']. destruct (cleanup s1) as [s2 [[e'|]|e'|]]; simpl in *; [| | |done]; (split; [by etrans|done]).
Qed.

Lemma hoare_if {A : Type} (b : bool) P (m m' : Go A) (Q : A -> disk -> Prop) (X : error -> disk -> Prop) :
  (b = true -> hoare P m Q X) -> (b = false -> hoare P m' Q X) -> hoare P (if b then m else m') Q X.
Proof. destruct b; auto. Qed.

Lemma hoare_each {A : Type} (P : disk -> Prop) (m : Go A) (Q : A -> disk -> Prop) (X : error -> disk -> Prop) :
  (forall d0, P d0 -> hoare (fun d => d = d0) m Q X) -> hoare P m Q X.
Proof. intros Hm s Hs. by apply (Hm (mem s) Hs). Qed.

(** What is known of a disk regardless of it. *)
Lemma hoare_known {A : Type} (P : disk -> Prop) (known : Prop) (m : Go A) (Q : A -> disk -> Prop) (X : error -> disk -> Prop) :
  (known -> hoare P m Q X) -> hoare (fun d => P d /\ known) m Q X.
Proof. intros Hm s [Hs Hk]. by apply Hm. Qed.

Lemma hoare_false {A : Type} (P : disk -> Prop) (m : Go A) (Q : A -> disk -> Prop) (X : error -> disk -> Prop) :
  (forall d, ~ P d) -> hoare P m Q X.
Proof. intros HP s Hs. by destruct (HP _ Hs). Qed.

(** Nothing of the disk is needed to know that no command is run. *)
Lemma hoare_quiet {A : Type} (P : disk -> Prop) (m : Go A) (Q : A -> disk -> Prop) (X : error -> disk -> Prop) s : hoare P m Q X -> P (mem s) -> emits quiet s (m s).1.
Proof. intros Hm Hs. by destruct (Hm s Hs). Qed.

Lemma hoare_loop {A B : Type} (I : list A -> B -> disk -> Prop) (f : B -> A -> Go B) (X : error -> disk -> Prop) l :
  (forall before a after acc, l = before ++ a :: after -> hoare (I before acc) (f acc a) (I (before ++ [a])) X) ->
  forall acc, hoare (I [] acc) (loop f acc l) (I l) X.
Proof.
  assert (forall rest before, (forall before' a after acc, before ++ rest = before' ++ a :: after -> hoare (I before' acc) (f acc a) (I (before' ++ [a])) X) ->
    forall acc, hoare (I before acc) (loop f acc rest) (I (before ++ rest)) X) as H.
  { induction rest as [|a rest IH]; intros before Hf acc; cbn [loop].
    - apply hoare_ret. intros d. by rewrite app_nil_r.
    - eapply hoare_bind; [by apply (Hf before a rest)|]. intros acc'. change (a :: rest) with ([a] ++ rest). rewrite app_assoc.
      apply IH. intros before' a' after acc'' E. apply (Hf before' a' after). by rewrite <- E, <- app_assoc. }
  intros Hf acc. by apply (H l []).
Qed.

(** Programs that run no command, whatever the disk. *)
Lemma quiet_torn {A : Type} c torn (f : disk -> disk * res A) : steps (emits quiet) (torn_call c torn f).
Proof. intros s. unfold torn_call. exists [Sys c]. split; [by case_match|by repeat constructor]. Qed.

Lemma quiet_sys {A : Type} c (f : disk -> disk * res A) : steps (emits quiet) (sys c f).
Proof. apply quiet_torn. Qed.

Lemma quiet_query {A : Type} c (f : disk -> res A) : steps (emits quiet) (query c f).
Proof. apply quiet_torn. Qed.

Lemma quiet_rand : steps (emits quiet) rand_text.
Proof. intros s. exists [Random]. split; [done|by repeat constructor]. Qed.

Lemma quiet_now : steps (emits quiet) time_now.
Proof. intros s. exists [Clock]. split; [done|by repeat constructor]. Qed.

Lemma quiet_ctx : steps (emits quiet) ctx_err.
Proof. intros s. exists [Asked]. split; [done|by repeat constructor]. Qed.

(* ------------------------------------------------------------------ *)
(** ** The commands a program runs *)

Definition commands (t : list event) : list (process * outcome) :=
  omap (fun e => match e with Ran p o => Some (p, o) | _ => None end) t.

Definition runs (l : list (process * outcome)) (s s' : pass event disk) : Prop := exists t, trace s' = trace s ++ t /\ commands t = l.

Lemma quiet_commands t : Forall quiet t -> commands t = [].
Proof. induction 1 as [|e t He _ IH]; [done|]. by destruct e. Qed.

Lemma emits_quiet_runs s s' : emits quiet s s' -> runs [] s s'.
Proof. intros (t & Ht & Hq). exists t. split; [done|by apply quiet_commands]. Qed.

Lemma runs_nil_quiet s s' : runs [] s s' -> emits quiet s s'.
Proof.
  intros (t & Ht & Hq). exists t. split; [done|]. clear Ht. induction t as [|e t IH]; [constructor|].
  destruct e; try done; (constructor; [done|by apply IH]).
Qed.

Lemma runs_app l l' s s' s'' : runs l s s' -> runs l' s' s'' -> runs (l ++ l') s s''.
Proof.
  intros (t & Ht & <-) (t' & Ht' & <-). exists (t ++ t'). rewrite Ht', Ht, app_assoc. split; [done|].
  unfold commands. by rewrite omap_app.
Qed.

(** [m] runs the commands [l] and returns [r], as [Q] says. *)
Definition traced {A : Type} (m : Go A) (Q : list (process * outcome) -> res A -> Prop) : Prop :=
  forall s, exists l, runs l s (m s).1 /\ Q l (m s).2.

Lemma traced_conseq {A : Type} (m : Go A) (Q Q' : list (process * outcome) -> res A -> Prop) :
  traced m Q -> (forall l r, Q l r -> Q' l r) -> traced m Q'.
Proof. intros Hm HQ s. destruct (Hm s) as (l & Hl & H). exists l. auto. Qed.

Lemma traced_quiet {A : Type} (m : Go A) (Q : list (process * outcome) -> res A -> Prop) :
  steps (emits quiet) m -> (forall r, Q [] r) -> traced m Q.
Proof. intros Hm HQ s. exists []. split; [by apply emits_quiet_runs|apply HQ]. Qed.

Lemma traced_ret {A : Type} (a : A) (Q : list (process * outcome) -> res A -> Prop) : Q [] (Ok a) -> traced (ret a) Q.
Proof. intros HQ s. exists []. split; [exists []; by rewrite app_nil_r|done]. Qed.

Lemma traced_raise {A : Type} e (Q : list (process * outcome) -> res A -> Prop) : Q [] (Err e) -> traced (raise e) Q.
Proof. intros HQ s. exists []. split; [exists []; by rewrite app_nil_r|done]. Qed.

Lemma traced_bind {A B : Type} (m : Go A) (k : A -> Go B) Q (R : list (process * outcome) -> res B -> Prop) :
  traced m Q -> (forall l a, Q l (Ok a) -> traced (k a) (fun l' => R (l ++ l'))) ->
  (forall l e, Q l (Err e) -> R l (Err e)) -> (forall l, Q l Panic -> R l Panic) -> traced (bind m k) R.
Proof.
  intros Hm Hk He Hp s. destruct (Hm s) as (l & Hl & H). unfold bind. destruct (m s) as [s1 [a|e|]]; simpl in *.
  - destruct (Hk l a H s1) as (l' & Hl' & H'). exists (l ++ l'). split; [by eapply runs_app|done].
  - exists l. auto.
  - exists l. auto.
Qed.

Lemma traced_bind_quiet {A B : Type} (m : Go A) (k : A -> Go B) (R : list (process * outcome) -> res B -> Prop) :
  steps (emits quiet) m -> (forall a, traced (k a) R) -> (forall e, R [] (Err e)) -> R [] Panic -> traced (bind m k) R.
Proof.
  intros Hm Hk He Hp. apply (traced_bind m k (fun l _ => l = [])); [by apply traced_quiet|..].
  - intros l a ->. apply Hk.
  - by intros l e ->.
  - by intros l ->.
Qed.

(** [ctx.Err] does not fail, and neither do the errors made values. *)
Lemma traced_ctx {B : Type} (k : option error -> Go B) (R : list (process * outcome) -> res B -> Prop) :
  (forall a, traced (k a) R) -> traced (bind ctx_err k) R.
Proof.
  intros Hk s. destruct (Hk (w_cancelled (trace s)) {| trace := trace s ++ [Asked]; mem := mem s |}) as (l & Hl & H).
  exists l. split; [|done]. eapply (runs_app []); [|exact Hl]. by exists [Asked].
Qed.

Lemma traced_try {A B : Type} (m : Go A) (k : option error -> Go B) (R : list (process * outcome) -> res B -> Prop) :
  steps (emits quiet) m -> (forall a, traced (k a) R) -> R [] Panic -> traced (bind (try m) k) R.
Proof.
  intros Hm Hk Hp s. unfold bind, try. pose proof (emits_quiet_runs _ _ (Hm s)) as Hr. destruct (m s) as [s1 [a|e|]]; simpl in *; [..|by exists []].
  - destruct (Hk None s1) as (l & Hl & H). exists l. split; [by eapply (runs_app [])|done].
  - destruct (Hk (Some e) s1) as (l & Hl & H). exists l. split; [by eapply (runs_app [])|done].
Qed.

Lemma traced_try_safe {A B : Type} (m : Go A) (k : option error -> Go B) (R : list (process * outcome) -> res B -> Prop) :
  steps (emits quiet) m -> (forall s, (m s).2 <> Panic) -> (forall a, traced (k a) R) -> traced (bind (try m) k) R.
Proof.
  intros Hm Hs Hk s. unfold bind, try. pose proof (emits_quiet_runs _ _ (Hm s)) as Hr. specialize (Hs s).
  destruct (m s) as [s1 [a|e|]]; simpl in *; [| |done].
  - destruct (Hk None s1) as (l & Hl & H). exists l. split; [by eapply (runs_app [])|done].
  - destruct (Hk (Some e) s1) as (l & Hl & H). exists l. split; [by eapply (runs_app [])|done].
Qed.

Lemma traced_panic {A : Type} (Q : list (process * outcome) -> res A -> Prop) : Q [] Panic -> traced (lift Panic) Q.
Proof. intros HQ s. exists []. split; [exists []; by rewrite app_nil_r|done]. Qed.

Lemma query_safe {A : Type} c (f : disk -> res A) : (forall d, f d <> Panic) -> forall s, (query c f s).2 <> Panic.
Proof. intros Hf s. unfold query, sys, torn_call. destruct (w_fault (trace s)); [done|apply Hf]. Qed.

Lemma wrap_safe {A : Type} fmt args (m : Go A) : (forall s, (m s).2 <> Panic) -> forall s, (wrap fmt args m s).2 <> Panic.
Proof. intros Hm s. unfold wrap. simpl. specialize (Hm s). by destruct ((m s).2). Qed.

Lemma traced_attempt {A B : Type} (m : Go A) (k : res A -> Go B) (R : list (process * outcome) -> res B -> Prop) :
  steps (emits quiet) m -> (forall a, traced (k a) R) -> R [] Panic -> traced (bind (attempt m) k) R.
Proof.
  intros Hm Hk Hp s. unfold bind, attempt. pose proof (emits_quiet_runs _ _ (Hm s)) as Hr. destruct (m s) as [s1 r]; simpl in *.
  destruct r as [a|e|]; simpl; [..|by exists []].
  - destruct (Hk (Ok a) s1) as (l & Hl & H). exists l. split; [by eapply (runs_app [])|done].
  - destruct (Hk (Err e) s1) as (l & Hl & H). exists l. split; [by eapply (runs_app [])|done].
Qed.

Lemma traced_attempting {A B : Type} (m : Go A) (k : res A -> Go B) Q (R : list (process * outcome) -> res B -> Prop) :
  traced m Q -> (forall l r, Q l r -> traced (k r) (fun l' => R (l ++ l'))) -> (forall l, Q l Panic -> R l Panic) ->
  traced (bind (attempt m) k) R.
Proof.
  intros Hm Hk Hp s. destruct (Hm s) as (l & Hl & H). unfold bind, attempt. destruct (m s) as [s1 r]; simpl in *.
  destruct r as [a|e|]; simpl; [..|by exists l; auto].
  - destruct (Hk l _ H s1) as (l' & Hl' & H'). exists (l ++ l'). split; [by eapply runs_app|done].
  - destruct (Hk l _ H s1) as (l' & Hl' & H'). exists (l ++ l'). split; [by eapply runs_app|done].
Qed.

Lemma traced_then_quiet {A B : Type} (m : Go A) (k : A -> Go B) Q (R : list (process * outcome) -> res B -> Prop) :
  traced m Q -> (forall a, steps (emits quiet) (k a)) -> (forall l a r, Q l (Ok a) -> R l r) ->
  (forall l e, Q l (Err e) -> R l (Err e)) -> (forall l, Q l Panic -> R l Panic) -> traced (bind m k) R.
Proof.
  intros Hm Hk Ha He Hp. eapply traced_bind; [done| |done|done]. intros l a HQ. apply traced_quiet; [done|]. intros r.
  rewrite app_nil_r. by eapply Ha.
Qed.

(** The same from the disks that [I] admits. *)
Definition traced_in {A : Type} (I : disk -> Prop) (m : Go A) (Q : list (process * outcome) -> res A -> Prop) : Prop :=
  forall s, I (mem s) -> exists l, runs l s (m s).1 /\ Q l (m s).2.

Lemma traced_anywhere {A : Type} (I : disk -> Prop) (m : Go A) (Q : list (process * outcome) -> res A -> Prop) : traced m Q -> traced_in I m Q.
Proof. intros Hm s _. apply Hm. Qed.

(** What a first part learns of the disk is known to what follows it. *)
Lemma traced_after {A B : Type} (I : disk -> Prop) (m : Go A) (k : A -> Go B) (K : A -> disk -> Prop) (X : error -> disk -> Prop)
    (R : list (process * outcome) -> res B -> Prop) :
  hoare I m K X -> (forall a, traced_in (K a) (k a) R) -> (forall e, R [] (Err e)) -> traced_in I (bind m k) R.
Proof.
  intros Hm Hk He s Hs. destruct (Hm s Hs) as [Hq Hr]. unfold bind.
  destruct (m s) as [s1 [a|e|]]; simpl in *; [|by exists []; split; [apply emits_quiet_runs|]|done].
  destruct (Hk a s1 Hr) as (l & Hl & H). exists l. split; [|done]. eapply (runs_app []); [by apply emits_quiet_runs|done].
Qed.

Lemma traced_known {A : Type} (I : disk -> Prop) (known : Prop) (m : Go A) (Q : list (process * outcome) -> res A -> Prop) :
  (known -> traced_in I m Q) -> traced_in (fun d => I d /\ known) m Q.
Proof. intros Hm s [Hs Hk]. by apply Hm. Qed.

Lemma traced_fact {A : Type} (known : Prop) (m : Go A) (Q : list (process * outcome) -> res A -> Prop) :
  (known -> traced m Q) -> traced_in (fun _ => known) m Q.
Proof. intros Hm s Hk. by apply Hm. Qed.

Lemma traced_wrap {A : Type} fmt args (m : Go A) (Q : list (process * outcome) -> res A -> Prop) :
  traced m (fun l r => Q l (rwrap fmt args r)) -> traced (wrap fmt args m) Q.
Proof. intros Hm s. destruct (Hm s) as (l & Hl & H). by exists l. Qed.

(** What a process leaves when it has ended. *)
Definition ended (o : outcome) : Prop :=
  match oc_err o with None => oc_state o = Some (0, None) | Some (exited, _) => exited = true -> is_Some (oc_state o) end.

Lemma traced_exec p : traced (exec p) (fun l r => exists o, l = [(p, o)] /\ r = Ok o /\ ended o).
Proof.
  intros s. unfold exec. pose proof (w_exec_ended (trace s) p (mem s)) as He. destruct (w_exec (trace s) p (mem s)) as [d o]. simpl in *.
  exists [(p, o)]. split; [by exists [Ran p o]|]. by exists o.
Qed.

Section Combinators.
Context (R : pass event disk -> pass event disk -> Prop) `{!PreOrder R}.

#[local] Set Default Proof Using "Type*".

Lemma steps_attempt {A : Type} (m : Go A) : steps R m -> steps R (attempt m).
Proof. intros Hm s. unfold attempt. pose proof (Hm s). by destruct (m s) as [s' [a|e|]]. Qed.

Lemma steps_deferred_undo {A : Type} (m : Go A) close undo : steps R m -> steps R close -> (forall a, steps R (undo a)) -> steps R (deferred_undo m close undo).
Proof.
  intros Hm Hc Hu s. unfold deferred_undo. pose proof (Hm s) as H. destruct (m s) as [s1 [a|e|]]; simpl in *; [| |done];
    pose proof (Hc s1) as H1; destruct (close s1) as [s2 [u|e'|]]; simpl in *; try (by etrans).
  pose proof (Hu a s2) as H2. destruct (undo a s2) as [s3 [u|e''|]]; simpl in *; (etrans; [exact H|by etrans]).
Qed.

Lemma steps_deferred {A : Type} (m : Go A) close : steps R m -> steps R close -> steps R (deferred m close).
Proof. intros Hm Hc. apply steps_deferred_undo; [done|done|]. intros a. by apply steps_ret. Qed.

Lemma steps_on_error {A : Type} (m : Go A) cleanup : steps R m -> steps R cleanup -> steps R (on_error m cleanup).
Proof.
  intros Hm Hc s. unfold on_error. pose proof (Hm s) as H. destruct (m s) as [s1 [a|e|]]; simpl in *; [done| |done].
  pose proof (Hc s1) as H1. destruct (cleanup s1) as [s2 [[e'|]|e'|]]; simpl in *; by etrans.
Qed.

Lemma steps_when_err {A : Type} e f (k : Go A) : steps R k -> steps R (when_err e f k).
Proof. intros Hk. destruct e; [by apply steps_raise|done]. Qed.

End Combinators.

(* ------------------------------------------------------------------ *)
(** ** Paths without links *)

Definition directory_at (d : disk) (p : list string) : Prop := exists mode, d !! p = Some (Directory mode).

(** Every directory between [cur] and the end of [l] is there, and is no link. *)
Definition clear (d : disk) (cur l : list string) : Prop :=
  forall l1 l2, l = l1 ++ l2 -> l1 <> [] -> l2 <> [] -> directory_at d (cur ++ l1).

Lemma clear_cons (d : disk) cur c l : clear d cur (c :: l) -> l <> [] -> directory_at d (cur ++ [c]) /\ clear d (cur ++ [c]) l.
Proof.
  intros Hc Hl. split; [by apply (Hc [c] l)|]. intros l1 l2 -> H1 H2. rewrite <- app_assoc. by apply (Hc (c :: l1) l2).
Qed.

(** The directories down to the end of [l] are there. *)
Definition chain (d : disk) (cur l : list string) : Prop := forall l1 l2, l = l1 ++ l2 -> l1 <> [] -> directory_at d (cur ++ l1).

Lemma chain_clear (d : disk) cur l c : chain d cur l -> clear d cur (l ++ [c]).
Proof.
  intros H l1 l2 Hl H1 H2. destruct (exists_last H2) as (l3 & x & ->). rewrite app_assoc in Hl. apply app_inj_tail in Hl as [Hl _].
  by apply (H l1 l3).
Qed.

Lemma clear_chain (d : disk) cur l c : clear d cur (l ++ [c]) -> chain d cur l.
Proof. intros H l1 l2 -> H1. apply (H l1 (l2 ++ [c])); [by rewrite app_assoc|done|by destruct l2]. Qed.

Lemma chain_nil (d : disk) cur : chain d cur [].
Proof. intros l1 l2 Hl H1. by destruct l1. Qed.

Lemma chain_snoc (d : disk) cur l c : chain d cur l -> directory_at d (cur ++ l ++ [c]) -> chain d cur (l ++ [c]).
Proof.
  intros H Hd l1 l2 Hl H1. destruct l2 as [|x l2]; [rewrite app_nil_r in Hl; by subst|].
  apply (chain_clear d cur l c H l1 (x :: l2)); done.
Qed.

Lemma chain_dirs (d : disk) cur l : chain d cur l -> l <> [] -> directory_at d (cur ++ l).
Proof. intros H Hl. by apply (H l []); [rewrite app_nil_r|]. Qed.

Lemma chain_clear_self (d : disk) cur l : chain d cur l -> clear d cur l.
Proof. intros H l1 l2 Hl H1 _. by apply (H l1 l2). Qed.

Lemma resolve_plain links (d : disk) base follow l : forall cur, Forall plain l -> clear d cur l ->
  (follow = true -> forall target, d !! (cur ++ l) <> Some (Link target)) -> resolve links d base follow cur l = Ok (cur ++ l).
Proof.
  induction l as [|c l IH]; intros cur Hp Hc Hf.
  - rewrite app_nil_r. by destruct links.
  - apply Forall_cons in Hp as [(H1 & H2 & H3 & _) Hp].
    assert (resolve links d base follow cur (c :: l) =
      match d !! (cur ++ [c]) with
      | Some (Link target) =>
          if bool_decide (l = []) && negb follow then Ok (cur ++ [c])
          else match links with
          | O => Err ELOOP
          | S links =>
              if IsAbs target then
                match base with Some _ => Err errPathEscapes | None => resolve links d base follow [] (split_char slash target ++ l) end
              else resolve links d base follow cur (split_char slash target ++ l)
          end
      | Some (Directory _) => resolve links d base follow (cur ++ [c]) l
      | Some _ => if bool_decide (l = []) then Ok (cur ++ [c]) else Err ENOTDIR
      | None => if bool_decide (l = []) then Ok (cur ++ [c]) else Err ErrNotExist
      end) as ->.
    { destruct links; simpl; rewrite (bool_decide_eq_false_2 (c = "" \/ c = ".")), (bool_decide_eq_false_2 (c = "..")) by tauto; done. }
    destruct (decide (l = [])) as [->|Hl].
    + rewrite (bool_decide_eq_true_2 ([] = [])) by done. simpl.
      destruct (d !! (cur ++ [c])) as [[| |target|]|] eqn:E; try done; [by destruct links|].
      destruct follow; [|done]. by destruct (Hf eq_refl target).
    + destruct (clear_cons _ _ _ _ Hc Hl) as [[mode ->] Hc']. rewrite IH; [by rewrite <- app_assoc|done..|].
      rewrite <- app_assoc. exact Hf.
Qed.

Lemma split_local_path l : Forall plain l -> l <> [] -> split_char slash (local_path l) = l.
Proof. intros Hp Hl. destruct l; [done|]. apply split_join; [done|by apply plain_free]. Qed.

Lemma rooted_plain (d : disk) r follow l : Forall plain l -> clear d r l ->
  (follow = true -> forall target, d !! (r ++ l) <> Some (Link target)) -> rooted d r follow (local_path l) = Ok (r ++ l).
Proof.
  intros Hp Hc Hf. unfold rooted. destruct l as [|c l]; [rewrite app_nil_r; reflexivity|].
  assert (split_char slash (local_path (c :: l)) = c :: l) as Hsplit by by apply split_local_path.
  rewrite bool_decide_eq_false_2.
  - rewrite Hsplit. by apply resolve_plain.
  - intros E. rewrite E in Hsplit. injection Hsplit as <- <-. apply Forall_inv in Hp. by destruct Hp.
Qed.

End Calls.

(** ** Walking through a program

    [walk leaf] applies the rule of each construct; [leaf] proves what is left, and
    a definition it does not prove is unfolded. *)

Create HintDb quiet.

Ltac head_of t := lazymatch t with ?f _ => head_of f | _ => t end.

Ltac walk leaf :=
  intros;
  lazymatch goal with
  | |- steps _ (ret _) => apply steps_ret; exact _
  | |- steps _ (raise _) => apply steps_raise; exact _
  | |- steps _ (lift _) => apply steps_lift; exact _
  | |- steps _ (gets _) => apply steps_gets; exact _
  | |- steps _ (bind _ _) => apply steps_bind; [exact _|walk leaf|walk leaf]
  | |- steps _ (wrap _ _ _) => apply steps_wrap; [exact _|walk leaf]
  | |- steps _ (try _) => apply steps_try; [exact _|walk leaf]
  | |- steps _ (attempt _) => apply steps_attempt; [exact _|walk leaf]
  | |- steps _ (deferred_undo _ _ _) => apply steps_deferred_undo; [exact _|walk leaf|walk leaf|walk leaf]
  | |- steps _ (deferred _ _) => apply steps_deferred; [exact _|walk leaf|walk leaf]
  | |- steps _ (on_error _ _) => apply steps_on_error; [exact _|walk leaf|walk leaf]
  | |- steps _ (when_err _ _ _) => apply steps_when_err; [exact _|walk leaf]
  | |- steps _ (loop _ _ _) => apply steps_loop; [exact _|walk leaf]
  | |- steps _ (let x := _ in _) => cbv zeta; walk leaf
  | |- steps _ (match ?x with _ => _ end) => destruct x; walk leaf
  | |- steps _ (sys _ _) => first [apply quiet_sys|leaf; walk leaf]
  | |- steps _ (query _ _) => first [apply quiet_query|leaf; walk leaf]
  | |- steps _ (torn_call _ _ _) => first [apply quiet_torn|leaf; walk leaf]
  | |- steps _ rand_text => first [apply quiet_rand|leaf; walk leaf]
  | |- steps _ time_now => first [apply quiet_now|leaf; walk leaf]
  | |- steps _ ctx_err => first [apply quiet_ctx|leaf; walk leaf]
  | |- steps _ ?m => first [leaf; walk leaf|let h := head_of m in unfold h; walk leaf]
  | |- _ => try (by eauto)
  end.

Ltac quiet_leaf :=
  first [assumption|eassumption|solve [auto 2 with quiet nocore]|lazymatch goal with H : context [steps (emits quiet) _] |- _ => apply H end].

