(* ===== verification/HostFs.v ===== *)
(** * Files below the host root

    Models [agent/go/internal/hostfs]: the reads and writes the agent makes below
    the root of the host that is mounted into its container.  [hostfs.go]
    refuses every symbolic link on its way; the copies of [copy.go] that unpack a
    package follow links, inside the root.

    The walk of [CopyTree] ([filepath.WalkDir]) visits a directory before its
    entries, in lexical order, and stops at the first error. *)

From S2P Require Import Prelude Effects Paths Host.

#[local] Open Scope Z_scope.
#[local] Open Scope go_scope.

Definition directoryMode : Z := 493.

Definition ValidatePathComponent (name value : string) : res unit :=
  if bool_decide (value = "") || bool_decide (value = ".") || negb (IsLocal value) || negb (bool_decide (Base value = value))
  then Err (errorf "%s %q must be a single path component" [name; value])
  else Ok tt.

Definition HostPathToMounted (rootMount hostPath : string) : res string :=
  if negb (IsAbs rootMount) then Err (errorf "root mount %q is not absolute" [rootMount])
  else if negb (IsAbs hostPath) then Err (errorf "host path %q is not absolute" [hostPath])
  else
    let rootMount := Clean rootMount in
    let relative := trim_prefix (Clean hostPath) "/" in
    if bool_decide (relative = "") || bool_decide (relative = ".") then Ok rootMount
    else if negb (IsLocal relative) then Err (errorf "host path %q escapes the mounted host root" [hostPath])
    else Ok (Join [rootMount; relative]).

Section HostFs.
Context `{W : World}.

Definition closeRoot (rootMount : string) : Go unit := wrap "closing mounted host root %q: %w" [rootMount] close_root.

(** [openRoot] with the deferred [closeRoot] of every caller. *)
Definition openRoot_undo {A : Type} (undo : A -> Go unit) (rootMount path : string) (k : list string -> string -> Go A) : Go A :=
  if negb (IsAbs rootMount) then raise (errorf "root mount %q is not absolute" [rootMount])
  else
    let* relative := lift (rwrap "resolving host path %q: %w" [path] (Rel (Clean rootMount) (Clean path))) in
    if negb (IsLocal relative) then raise (errorf "host path %q must be contained within %q" [path; rootMount])
    else
      let* root := wrap "opening mounted host root %q: %w" [rootMount] (open_root rootMount) in
      deferred_undo (k root relative) (closeRoot rootMount) undo.

Definition openRoot {A : Type} : string -> string -> (list string -> string -> Go A) -> Go A := openRoot_undo (fun _ => ret tt).

Definition pathComponents (path : string) : list string :=
  let clean := Clean path in
  if bool_decide (clean = ".") then [] else split_char slash clean.

(** [filepath.Join(current, component)] with [current] empty at first. *)
Fixpoint ensure_each (root : list string) (mode : Z) (current : string) (components : list string) : Go unit :=
  match components with
  | [] => ret tt
  | component :: components =>
      let current := Join [current; component] in
      let* found := attempt (root_lstat root current) in
      let* found :=
        match found with
        | Err e =>
            if errors_Is e ErrNotExist then
              let* made := attempt (root_mkdir root current mode) in
              let* _ :=
                match made with
                | Err e => if errors_Is e ErrExist then ret tt else raise (wrapf "creating directory %q: %w" [current] e)
                | _ => wrap "setting permissions on directory %q: %w" [current] (root_chmod root current mode)
                end in
              attempt (root_lstat root current)
            else ret (Err e)
        | found => ret found
        end in
      let* info := wrap "inspecting directory %q: %w" [current] (lift found) in
      if IsSymlink info then raise (errorf "path component %q is a symbolic link" [current])
      else if negb (IsDir info) then raise (errorf "path component %q is not a directory" [current])
      else ensure_each root mode current components
  end.

Definition ensureDirectories (root : list string) (directory : string) (mode : Z) : Go unit :=
  ensure_each root mode "" (pathComponents directory).

(** The file at the end of the components, unless one of them is missing. *)
Fixpoint inspect_each (root : list string) (current : string) (components : list string) : Go (option FileInfo) :=
  match components with
  | [] => ret None
  | component :: components =>
      let current := Join [current; component] in
      let* found := attempt (root_lstat root current) in
      match found with
      | Ok info =>
          if IsSymlink info then raise (errorf "path component %q is a symbolic link" [current])
          else match components with
          | [] => ret (Some info)
          | _ =>
              if negb (IsDir info) then raise (errorf "path component %q is not a directory" [current])
              else inspect_each root current components
          end
      | Err e =>
          if errors_Is e ErrNotExist then ret None else raise (wrapf "inspecting path component %q: %w" [current] e)
      | Panic => lift Panic
      end
  end.

Definition inspect (root : list string) (path : string) : Go (option FileInfo) := inspect_each root "" (pathComponents path).

Definition syncRootedDirectory (root : list string) (directory : string) : Go unit :=
  let* file := root_open root directory in
  deferred (file_sync file) (file_close file).

(** A file that is not closed yet is closed by the deferred function; what a
    second [Close] returns is dropped. *)
Definition writeRootedFile (root : list string) (path : string) (mode : Z) (replace : bool) (write : list string -> Go unit) : Go unit :=
  let* writePath :=
    if replace then let* text := rand_text in ret (Join [Dir path; ".hostfs-" +:+ text +:+ ".tmp"]) else ret path in
  let* file := wrap "creating %q without following symlinks: %w" [path] (root_create root writePath mode) in
  let remove :=
    let* removed := attempt (root_remove root writePath) in
    match removed with
    | Err e => ret (if errors_Is e ErrNotExist then None else Some (wrapf "removing incomplete file %q: %w" [writePath] e))
    | _ => ret None
    end in
  on_error
    (let* _ := on_error
       (let* _ := write file in
        let* _ := wrap "setting permissions on %q: %w" [path] (root_chmod root writePath mode) in
        wrap "syncing %q: %w" [path] (file_sync file))
       (let* _ := attempt (file_close file) in ret None) in
     let* _ := wrap "closing %q: %w" [path] (file_close file) in
     let* _ := if replace then wrap "atomically replacing %q: %w" [path] (root_rename root writePath path) else ret tt in
     wrap "syncing parent directory for %q: %w" [path] (syncRootedDirectory root (Dir path)))
    remove.

Definition writeFile (root : list string) (path data : string) (mode : Z) (replace : bool) : Go unit :=
  writeRootedFile root path mode replace (fun file => wrap "writing %q: %w" [path] (file_write file data)).

Definition RegularFileExists (rootMount path : string) : Go bool :=
  openRoot rootMount path (fun root relative =>
    let* found := wrap "inspecting file %q: %w" [path] (inspect root relative) in
    match found with
    | Some info => if negb (IsRegular info) then raise (errorf "path %q is not a regular file" [path]) else ret true
    | None => ret false
    end).

Definition ReadFile (rootMount path : string) : Go string :=
  openRoot rootMount path (fun root relative =>
    let* found := wrap "validating file %q: %w" [path] (inspect root relative) in
    match found with
    | None => raise (wrapf "reading file %q: %w" [path] ErrNotExist)
    | Some info =>
        if negb (IsRegular info) then raise (errorf "path %q is not a regular file" [path])
        else wrap "reading file %q: %w" [path] (root_readfile root relative)
    end).

Definition ReadDir (rootMount path : string) : Go (list (string * node)) :=
  openRoot rootMount path (fun root relative =>
    let* found := wrap "validating directory %q: %w" [path] (inspect root relative) in
    match found with
    | None => raise (wrapf "reading directory %q: %w" [path] ErrNotExist)
    | Some info =>
        if negb (IsDir info) then raise (errorf "path %q is not a directory" [path])
        else
          let* directory := wrap "opening directory %q: %w" [path] (root_open root relative) in
          deferred (wrap "reading directory %q: %w" [path] (dir_read directory))
            (wrap "closing directory %q: %w" [path] (file_close directory))
    end).

Definition exists_error (path : string) (info : FileInfo) : error :=
  if negb (IsRegular info) then errorf "path %q is not a regular file" [path]
  else wrapf "file %q already exists: %w" [path] ErrExist.

Definition CreateFile (rootMount path data : string) (mode : Z) : Go unit :=
  openRoot rootMount path (fun root relative =>
    let* _ := wrap "preparing parent directory for %q: %w" [path] (ensureDirectories root (Dir relative) directoryMode) in
    let* found := wrap "validating file target %q: %w" [path] (inspect root relative) in
    match found with
    | Some info => raise (exists_error path info)
    | None => wrap "creating file %q: %w" [path] (writeFile root relative data mode false)
    end).

(** The file is closed again when the root can not be closed. *)
Definition CreateFileWriter (rootMount path : string) (mode : Z) : Go (list string) :=
  openRoot_undo file_close rootMount path (fun root relative =>
    let* _ := wrap "preparing parent directory for %q: %w" [path] (ensureDirectories root (Dir relative) directoryMode) in
    let* found := wrap "validating file target %q: %w" [path] (inspect root relative) in
    match found with
    | Some info => raise (exists_error path info)
    | None =>
        let* file := wrap "creating file %q without following symlinks: %w" [path] (root_create root relative mode) in
        let* changed := attempt (root_chmod root relative mode) in
        match changed with
        | Err e =>
            let* closed := try (file_close file) in
            let* removed := try (root_remove root relative) in
            when_err (errors_Join [Some (wrapf "setting permissions on %q: %w" [path] e); closed; removed]) (fun e => e) (ret file)
        | _ => ret file
        end
    end).

Definition WriteFile (rootMount path data : string) (mode : Z) : Go unit :=
  openRoot rootMount path (fun root relative =>
    let* _ := wrap "preparing parent directory for %q: %w" [path] (ensureDirectories root (Dir relative) directoryMode) in
    let* found := wrap "validating file target %q: %w" [path] (inspect root relative) in
    if match found with Some info => negb (IsRegular info) | None => false end
    then raise (errorf "path %q is not a regular file" [path])
    else wrap "writing file %q: %w" [path] (writeFile root relative data mode true)).

Definition RenameFile (rootMount oldPath newPath : string) : Go unit :=
  openRoot rootMount oldPath (fun root oldRelative =>
    let* newRelative := lift (rwrap "resolving host path %q: %w" [newPath] (Rel (Clean rootMount) (Clean newPath))) in
    if negb (IsLocal newRelative) then raise (errorf "host path %q must be contained within %q" [newPath; rootMount])
    else
      let* found := wrap "validating rename source %q: %w" [oldPath] (inspect root oldRelative) in
      match found with
      | None => raise (wrapf "renaming file %q: %w" [oldPath] ErrNotExist)
      | Some oldInfo =>
          if negb (IsRegular oldInfo) then raise (errorf "path %q is not a regular file" [oldPath])
          else
            let* found := wrap "validating rename destination %q: %w" [newPath] (inspect root newRelative) in
            if match found with Some newInfo => negb (IsRegular newInfo) | None => false end
            then raise (errorf "path %q is not a regular file" [newPath])
            else
              let* _ := wrap "preparing parent directory for %q: %w" [newPath] (ensureDirectories root (Dir newRelative) directoryMode) in
              let* _ := wrap "renaming file %q to %q: %w" [oldPath; newPath] (root_rename root oldRelative newRelative) in
              let newDirectory := Dir newRelative in
              let* _ := wrap "syncing rename destination directory %q: %w" [Dir newPath] (syncRootedDirectory root newDirectory) in
              let oldDirectory := Dir oldRelative in
              if negb (bool_decide (oldDirectory = newDirectory))
              then wrap "syncing rename source directory %q: %w" [Dir oldPath] (syncRootedDirectory root oldDirectory)
              else ret tt
      end).

Definition RemoveFile (rootMount path : string) : Go unit :=
  openRoot rootMount path (fun root relative =>
    let* found := wrap "inspecting file %q: %w" [path] (inspect root relative) in
    match found with
    | None => ret tt
    | Some info =>
        if negb (IsRegular info) then raise (errorf "path %q is not a regular file" [path])
        else
          let* removed := attempt (root_remove root relative) in
          match removed with
          | Err e => if errors_Is e ErrNotExist then ret tt else raise (wrapf "removing file %q: %w" [path] e)
          | _ => ret tt
          end
    end).

(* ------------------------------------------------------------------ *)
(** ** Copies *)

Definition makeDirectory (rootMount path : string) (mode : Z) : Go unit :=
  openRoot rootMount path (fun root relative =>
    if bool_decide (relative = ".") then ret tt
    else
      let* _ := wrap "preparing parent directory for %q: %w" [path] (ensureDirectories root (Dir relative) directoryMode) in
      let* _ := wrap "creating directory %q: %w" [path] (ensureDirectories root relative mode) in
      wrap "setting permissions on directory %q: %w" [path] (root_chmod root relative mode)).

Definition copyRegularFile (rootMount source destination : string) (mode : Z) : Go unit :=
  openRoot rootMount destination (fun root relative =>
    let* sourceFile := wrap "opening copy source %q: %w" [source] (os_open source) in
    deferred
      (let* _ := wrap "creating copy destination directory %q: %w" [Dir destination] (ensureDirectories root (Dir relative) directoryMode) in
       let* found := wrap "validating copy destination %q: %w" [destination] (inspect root relative) in
       let* same :=
         match found with
         | Some info =>
             if negb (IsRegular info) then raise (errorf "copy destination %q is not a regular file" [destination])
             else
               let* sourceInfo := wrap "stating open copy source %q: %w" [source] (file_stat sourceFile) in
               ret (SameFile sourceInfo info)
         | None => ret false
         end in
       if same then ret tt
       else
         wrap "writing copy destination %q: %w" [destination]
           (writeRootedFile root relative mode true (fun destinationFile =>
              wrap "copying %q to %q: %w" [source; destination] (file_copy destinationFile sourceFile))))
      (wrap "closing copy source %q: %w" [source] (file_close sourceFile))).

(** The longest path Linux takes; no tree is deeper. *)
Definition PATH_MAX : nat := Z.to_nat 4096.

Fixpoint copy_tree (fuel : nat) (rootMount source destination : string) (top : bool) (path : string) : Go unit :=
  match fuel with
  | O => raise ENAMETOOLONG
  | S fuel =>
      let* relative := lift (rwrap "resolving copy source %q: %w" [path] (Rel source path)) in
      if negb (bool_decide (relative = ".")) && negb (IsLocal relative) then raise (errorf "copy source path %q escapes %q" [path; source])
      else
        let target := if bool_decide (relative = ".") then destination else Join [destination; relative] in
        let* info := wrap (if top then "walking copy source %q: %w" else "stating copy source %q: %w") [path] (os_lstat path) in
        if IsSymlink info then raise (errorf "copy source %q is a symbolic link" [path])
        else if IsDir info then
          let* _ := wrap "creating copy destination directory %q: %w" [target] (makeDirectory rootMount target (Perm info)) in
          let* names := wrap "walking copy source %q: %w" [path] (os_readdir path) in
          loop (fun _ name => copy_tree fuel rootMount source destination false (Join [path; name])) tt names
        else if negb (IsRegular info) then raise (errorf "copy source %q is not a regular file" [path])
        else copyRegularFile rootMount path target (Perm info)
  end.

Definition CopyTree (rootMount source destination : string) : Go unit :=
  copy_tree PATH_MAX rootMount source destination true source.

Definition CopyTreeIfExists (rootMount source destination : string) : Go unit :=
  let* found := attempt (os_lstat source) in
  match found with
  | Err e => if errors_Is e ErrNotExist then ret tt else raise (wrapf "stating copy source %q: %w" [source] e)
  | Ok info =>
      if IsSymlink info then raise (errorf "copy source %q is a symbolic link" [source])
      else if negb (IsDir info) then raise (errorf "copy source %q is not a directory" [source])
      else CopyTree rootMount source destination
  | Panic => lift Panic
  end.

Definition CopyFile (rootMount source destination : string) : Go unit :=
  let* info := wrap "stating copy source %q: %w" [source] (os_stat source) in
  if negb (IsRegular info) then raise (errorf "copy source %q is not a regular file" [source])
  else copyRegularFile rootMount source destination (Perm info).

Definition makeDirectoryFollowingSymlinks (rootMount path : string) (mode : Z) : Go unit :=
  openRoot rootMount path (fun root relative =>
    if bool_decide (relative = ".") then ret tt
    else
      let* _ := wrap "preparing parent directory for %q: %w" [path] (root_mkdirall root (Dir relative) directoryMode) in
      let* found := attempt (root_stat root relative) in
      let* found :=
        match found with
        | Err e =>
            if errors_Is e ErrNotExist then
              let* _ := wrap "creating directory %q: %w" [path] (root_mkdir root relative mode) in
              attempt (root_stat root relative)
            else ret (Err e)
        | found => ret found
        end in
      let* info := wrap "inspecting directory %q: %w" [path] (lift found) in
      if negb (IsDir info) then raise (errorf "copy destination %q is not a directory" [path])
      else wrap "setting permissions on directory %q: %w" [path] (root_chmod root relative mode)).

Definition copyRegularFileFollowingSymlinks (rootMount source destination : string) (mode : Z) : Go unit :=
  openRoot rootMount destination (fun root relative =>
    let* sourceFile := wrap "opening copy source %q: %w" [source] (os_open source) in
    deferred
      (let* _ := wrap "creating copy destination directory %q: %w" [Dir destination] (root_mkdirall root (Dir relative) directoryMode) in
       let* found := attempt (root_stat root relative) in
       let* same :=
         match found with
         | Err e => if errors_Is e ErrNotExist then ret false else raise (wrapf "validating copy destination %q: %w" [destination] e)
         | Ok info =>
             if negb (IsRegular info) then raise (errorf "copy destination %q is not a regular file" [destination])
             else
               let* sourceInfo := wrap "stating open copy source %q: %w" [source] (file_stat sourceFile) in
               ret (SameFile sourceInfo info)
         | Panic => lift Panic
         end in
       if same then ret tt
       else
         let* destinationFile := wrap "opening copy destination %q: %w" [destination] (root_truncate root relative mode) in
         let* _ := on_error
           (let* _ := wrap "copying %q to %q: %w" [source; destination] (file_copy destinationFile sourceFile) in
            let* _ := wrap "setting permissions on %q: %w" [destination] (root_chmod root relative mode) in
            wrap "syncing %q: %w" [destination] (file_sync destinationFile))
           (let* _ := attempt (file_close destinationFile) in ret None) in
         let* _ := wrap "closing copy destination %q: %w" [destination] (file_close destinationFile) in
         wrap "syncing parent directory for %q: %w" [destination] (syncRootedDirectory root (Dir relative)))
      (wrap "closing copy source %q: %w" [source] (file_close sourceFile))).

(** The directories on the way down are told apart by their resolved paths. *)
Fixpoint copyTreeEntryFollowingSymlinks (fuel : nat) (rootMount source destination : string) (ancestors : list string) : Go unit :=
  match fuel with
  | O => raise ENAMETOOLONG
  | S fuel =>
      let* resolved := wrap "resolving copy source %q: %w" [source] (eval_links source) in
      let* info := wrap "stating copy source %q: %w" [source] (os_stat resolved) in
      if IsDir info then
        if bool_decide (resolved ∈ ancestors) then raise (errorf "copy source %q contains a symbolic-link cycle" [source])
        else
          let* _ := wrap "creating copy destination directory %q: %w" [destination] (makeDirectoryFollowingSymlinks rootMount destination (Perm info)) in
          let* names := wrap "reading copy source directory %q: %w" [source] (os_readdir resolved) in
          loop (fun _ name => copyTreeEntryFollowingSymlinks fuel rootMount (Join [resolved; name]) (Join [destination; name]) (resolved :: ancestors)) tt names
      else if negb (IsRegular info) then raise (errorf "copy source %q is not a regular file" [source])
      else copyRegularFileFollowingSymlinks rootMount resolved destination (Perm info)
  end.

Definition CopyTreeFollowingSymlinks (rootMount source destination : string) : Go unit :=
  let* info := wrap "stating copy source %q: %w" [source] (os_stat source) in
  if negb (IsDir info) then raise (errorf "copy source %q is not a directory" [source])
  else copyTreeEntryFollowingSymlinks PATH_MAX rootMount source destination [].

Definition CopyTreeIfExistsFollowingSymlinks (rootMount source destination : string) : Go unit :=
  let* found := attempt (os_stat source) in
  match found with
  | Err e => if errors_Is e ErrNotExist then ret tt else raise (wrapf "stating copy source %q: %w" [source] e)
  | Ok info =>
      if negb (IsDir info) then raise (errorf "copy source %q is not a directory" [source])
      else CopyTreeFollowingSymlinks rootMount source destination
  | Panic => lift Panic
  end.

Definition CopyFileFollowingSymlinks (rootMount source destination : string) : Go unit :=
  let* info := wrap "stating copy source %q: %w" [source] (os_stat source) in
  if negb (IsRegular info) then raise (errorf "copy source %q is not a regular file" [source])
  else copyRegularFileFollowingSymlinks rootMount source destination (Perm info).

(* ------------------------------------------------------------------ *)
(** ** Walking down without links *)

(** The path so far, as the loops keep it. *)
Definition path_to (l : list string) : string := join "/" l.

Lemma path_to_local l : l <> [] -> path_to l = local_path l.
Proof. by destruct l. Qed.

Lemma Join_path_to l c : Forall plain (l ++ [c]) -> Join [path_to l; c] = local_path (l ++ [c]).
Proof.
  intros Hp. pose proof Hp as [Hl Hc]%Forall_app. apply Forall_cons in Hc as [Hc _]. destruct l as [|w l].
  - unfold Join. cbn [path_to join drop_empty]. rewrite bool_decide_eq_true_2 by done.
    rewrite bool_decide_eq_false_2 by apply Hc. by apply (Clean_local [c]).
  - rewrite path_to_local by done. by apply Join_local.
Qed.

Lemma pathComponents_local l : Forall plain l -> pathComponents (local_path l) = l.
Proof.
  intros Hp. unfold pathComponents. rewrite Clean_local by done. destruct l as [|c l]; [done|].
  rewrite bool_decide_eq_false_2; [by apply split_local_path|].
  intros Hd. assert (split_char slash (local_path (c :: l)) = ["."]) as Hs by by rewrite Hd.
  rewrite split_local_path in Hs by done. injection Hs as -> ->. apply Forall_cons in Hp as [Hp _]. by apply plain_dot.
Qed.

Lemma root_lstat_spec r l d0 : Forall plain l -> clear d0 r l ->
  hoare (fun d => d = d0) (root_lstat r (local_path l))
    (fun i d => d = d0 /\ exists n, d0 !! (r ++ l) = Some n /\ i = {| fi_file := r ++ l; fi_node := n |})
    (fun e d => d = d0 /\ (errors_Is e ErrNotExist = true -> d0 !! (r ++ l) = None)).
Proof.
  intros Hp Hc. apply hoare_query.
  - intros d ->. rewrite rooted_plain by done. simpl. destruct (d0 !! (r ++ l)) as [n|] eqn:E; [|done]. split; [done|]. by exists n.
  - intros d e -> He. split; [done|]. by rewrite He.
Qed.

(** What [inspect] finds: a file that no link leads to. *)
Definition found_at (d : disk) (r l : list string) (oi : option FileInfo) : Prop :=
  match oi with
  | Some i => exists n, d !! (r ++ l) = Some n /\ i = {| fi_file := r ++ l; fi_node := n |} /\ (forall target, n <> Link target) /\ clear d r l
  | None => ~ (clear d r l /\ is_Some (d !! (r ++ l)))
  end.

Lemma inspect_each_spec r d0 l : forall l0, Forall plain (l0 ++ l) -> l <> [] -> chain d0 r l0 ->
  hoare (fun d => d = d0) (inspect_each r (path_to l0) l) (fun oi d => d = d0 /\ found_at d0 r (l0 ++ l) oi) (fun _ d => d = d0).
Proof.
  induction l as [|c l IH]; [done|]. intros l0 Hp _ Hc. cbn [inspect_each].
  rewrite cons_middle, app_assoc in Hp. pose proof Hp as [Hp0 _]%Forall_app.
  rewrite Join_path_to by done. eapply hoare_bind; [apply hoare_attempt, root_lstat_spec; [done|by apply chain_clear]|].
  intros [i|e|]; simpl; [| |by apply hoare_lift].
  - apply hoare_known. intros (n & Hn & ->).
    apply hoare_if; intros Hl; [by apply hoare_raise|].
    assert (forall target, n <> Link target) as Hnl by (intros target ->; done).
    destruct l as [|c' l].
    + apply hoare_ret. intros d ->. split; [done|]. exists n. split_and!; [done|done|done|by apply chain_clear].
    + apply hoare_if; intros Hd; [by apply hoare_raise|].
      assert (directory_at d0 (r ++ l0 ++ [c])) as Hdir.
      { apply negb_false_iff in Hd. destruct n; try done. by eexists. }
      rewrite <- path_to_local by by destruct l0.
      replace (l0 ++ c :: c' :: l) with ((l0 ++ [c]) ++ c' :: l) by by rewrite <- app_assoc. apply IH; [done|done|by apply chain_snoc].
  - apply hoare_known. intros He. apply hoare_if; intros Hi; [|by apply hoare_raise].
    apply hoare_ret. intros d ->. split; [done|]. intros [Hcl Hex]. apply He in Hi. destruct l as [|c' l].
    + rewrite Hi in Hex. by destruct Hex.
    + rewrite cons_middle, app_assoc in Hcl. destruct (Hcl (l0 ++ [c]) (c' :: l)) as [m Hm]; [done|by destruct l0|done|congruence].
Qed.

Lemma inspect_spec r d0 l : Forall plain l -> l <> [] ->
  hoare (fun d => d = d0) (inspect r (local_path l)) (fun oi d => d = d0 /\ found_at d0 r l oi) (fun _ d => d = d0).
Proof.
  intros Hp Hl. unfold inspect. rewrite pathComponents_local by done. apply (inspect_each_spec r d0 l []); [done|done|apply chain_nil].
Qed.

(* ------------------------------------------------------------------ *)
(** ** Making directories *)

Lemma root_mkdir_spec r l mode d0 : Forall plain l -> clear d0 r l ->
  hoare (fun d => d = d0) (root_mkdir r (local_path l) mode)
    (fun _ d => d = <[r ++ l := Directory (masked mode)]> d0 /\ d0 !! (r ++ l) = None) (fun _ d => d = d0).
Proof.
  intros Hp Hc. apply hoare_sys; [|by intros d e ->].
  intros d ->. rewrite rooted_plain by done. simpl. by destruct (d0 !! (r ++ l)).
Qed.

Lemma root_chmod_spec r l mode d0 n : Forall plain l -> clear d0 r l -> d0 !! (r ++ l) = Some n -> (forall target, n <> Link target) ->
  hoare (fun d => d = d0) (root_chmod r (local_path l) mode) (fun _ d => d = <[r ++ l := set_mode mode n]> d0) (fun _ d => d = d0).
Proof.
  intros Hp Hc Hn Hl. apply hoare_sys; [|by intros d e ->].
  intros d ->. rewrite rooted_plain; [|done|done|]; [|intros _ target; rewrite Hn; congruence].
  simpl. unfold chmod_at. by rewrite Hn.
Qed.

(** Only directories on the way were added. *)
Definition grown (d0 d : disk) (r full : list string) : Prop := forall p,
  d !! p = d0 !! p \/ (d0 !! p = None /\ directory_at d p /\ exists l1 l2, full = l1 ++ l2 /\ l1 <> [] /\ p = r ++ l1).

Lemma grown_refl d r full : grown d d r full.
Proof. by left. Qed.

Lemma grown_insert d0 d r full l1 l2 mode : grown d0 d r full -> full = l1 ++ l2 -> l1 <> [] ->
  d !! (r ++ l1) = None \/ directory_at d (r ++ l1) /\ d0 !! (r ++ l1) = None -> grown d0 (<[r ++ l1 := Directory mode]> d) r full.
Proof.
  intros Hg -> Hl Hd p. destruct (decide (p = r ++ l1)) as [->|Hne].
  - right. split_and!; [|eexists; by rewrite lookup_insert_eq|by exists l1, l2].
    destruct Hd as [Hd|[_ ?]]; [|done]. destruct (Hg (r ++ l1)) as [H|[? _]]; [congruence|done].
  - destruct (Hg p) as [H|(H1 & [m H2] & H3)]; [left; by rewrite lookup_insert_ne|right].
    split_and!; [done|eexists; by rewrite lookup_insert_ne|done].
Qed.

Lemma chain_insert d cur l q n : chain d cur l -> (forall l1 l2, l = l1 ++ l2 -> l1 <> [] -> q <> cur ++ l1) -> chain (<[q := n]> d) cur l.
Proof.
  intros H Hq l1 l2 Hl H1. destruct (H l1 l2 Hl H1) as [m Hm]. exists m. rewrite lookup_insert_ne; [done|]. by eapply Hq.
Qed.

Lemma below_differs (cur l l1 l2 : list string) c : l = l1 ++ l2 -> cur ++ l ++ [c] <> cur ++ l1.
Proof.
  intros -> H%(f_equal length). rewrite !length_app in H. simpl in H. lia.
Qed.

Lemma chain_insert_below d cur l c n : chain d cur l -> chain (<[cur ++ l ++ [c] := n]> d) cur l.
Proof. intros H. apply chain_insert; [done|]. intros l1 l2 Hl _. by eapply below_differs. Qed.

Lemma ensure_each_spec r mode full d0 : Forall plain full -> forall l l0, full = l0 ++ l ->
  hoare (fun d => grown d0 d r full /\ chain d r l0) (ensure_each r mode (path_to l0) l)
    (fun _ d => grown d0 d r full /\ chain d r full) (fun _ d => grown d0 d r full).
Proof.
  intros Hfull l. induction l as [|c l IH]; intros l0 Hl; cbn [ensure_each].
  { apply hoare_ret. subst full. by rewrite app_nil_r in *. }
  assert (full = (l0 ++ [c]) ++ l) as Hl' by by rewrite <- app_assoc.
  assert (Forall plain (l0 ++ [c])) as Hp by (rewrite Hl' in Hfull; by apply Forall_app in Hfull as [? _]).
  assert (l0 ++ [c] <> []) as Hne by by destruct l0.
  rewrite Join_path_to by done. apply hoare_each. intros d1 [Hg Hc]. pose proof (chain_clear _ _ _ c Hc) as Hcl.
  eapply hoare_bind; [by apply hoare_attempt, root_lstat_spec|]. intros found.
  eapply (hoare_bind _ _ _ (fun found d => grown d0 d r full /\ chain d r l0 /\
    match found with Ok i => exists n, d !! (r ++ l0 ++ [c]) = Some n /\ i = {| fi_file := r ++ l0 ++ [c]; fi_node := n |} | Err _ => True | Panic => False end)).
  - destruct found as [i|e|]; simpl; [| |by apply hoare_false; intros ? []].
    + apply hoare_ret. intros d [-> Hi]. done.
    + apply hoare_if; intros Hi; [|by apply hoare_ret; intros d [-> _]].
      apply hoare_known. intros He. apply He in Hi.
      eapply hoare_bind; [by apply hoare_attempt, root_mkdir_spec|]. intros made.
      eapply (hoare_bind _ _ _ (fun _ d => grown d0 d r full /\ chain d r l0)).
      * destruct made as [[]|e'|]; simpl; [| |by apply hoare_false; intros ? []].
        -- apply hoare_known. intros _. eapply (hoare_wrap _ _ _ _ _ _ (fun _ d => grown d0 d r full)).
           ++ eapply hoare_conseq; [eapply (root_chmod_spec r (l0 ++ [c]) mode (<[r ++ l0 ++ [c] := Directory (masked mode)]> d1) (Directory (masked mode))); [done| | |done]|done|..].
              ** by apply chain_clear, chain_insert_below.
              ** by rewrite lookup_insert_eq.
              ** intros a d ->. simpl. split; [|by apply chain_insert_below, chain_insert_below].
                 rewrite insert_insert_eq. eapply grown_insert; [done..|by left].
              ** intros e' d ->. eapply (grown_insert _ _ _ _ (l0 ++ [c])); [done..|by left].
           ++ done.
        -- apply hoare_if; intros Hx; [by apply hoare_ret; intros d ->|by apply hoare_raise; intros d ->].
      * intros _. apply hoare_each. intros d2 [Hg2 Hc2].
        eapply hoare_conseq; [eapply (hoare_attempt _ _ _ _ (fun _ d => grown d0 d r full)), (root_lstat_spec r _ d2); [done|by apply chain_clear]|done| |done].
        intros [i|e'|] d; simpl; [by intros [-> Hi']|by intros [-> _]|done].
  - intros found'. destruct found' as [i|e|]; simpl.
    + eapply hoare_bind; [eapply hoare_wrap; [apply (hoare_lift _ _ (fun i' d => (grown d0 d r full /\ chain d r l0 /\
        exists n, d !! (r ++ l0 ++ [c]) = Some n /\ i = {| fi_file := r ++ l0 ++ [c]; fi_node := n |}) /\ i' = i) (fun _ _ => False)); done|done]|].
      intros i'. apply hoare_known. intros ->. apply hoare_if; intros H1; [apply hoare_raise; by intros d (? & _)|].
      apply hoare_if; intros H2; [apply hoare_raise; by intros d (? & _)|].
      rewrite <- path_to_local by by destruct l0.
      eapply hoare_conseq; [by apply (IH (l0 ++ [c]))| |done|done].
      intros d (Hg2 & Hc2 & n & Hn & ->). split; [done|]. apply chain_snoc; [done|].
      apply negb_false_iff in H2. destruct n; try done. by eexists.
    + eapply hoare_bind; [eapply hoare_wrap; [apply (hoare_lift _ _ (fun _ _ => False) (fun _ d => grown d0 d r full)); by intros d (? & _)|done]|].
      intros i. apply hoare_false. by intros ? [].
    + apply hoare_false. by intros d (_ & _ & ?).
Qed.

Lemma ensureDirectories_spec r mode l d0 : Forall plain l ->
  hoare (fun d => d = d0) (ensureDirectories r (local_path l) mode)
    (fun _ d => grown d0 d r l /\ chain d r l) (fun _ d => grown d0 d r l).
Proof.
  intros Hp. unfold ensureDirectories. rewrite pathComponents_local by done.
  eapply hoare_conseq; [by apply (ensure_each_spec r mode l d0 Hp l [])| |done|done].
  intros d ->. split; [apply grown_refl|apply chain_nil].
Qed.

(* ------------------------------------------------------------------ *)
(** ** Writing a file in one step *)

Lemma root_create_spec r l mode d0 : Forall plain l -> clear d0 r l ->
  hoare (fun d => d = d0) (root_create r (local_path l) mode)
    (fun q d => (d = <[r ++ l := File "" (masked mode)]> d0 /\ d0 !! (r ++ l) = None) /\ q = r ++ l) (fun _ d => d = d0).
Proof.
  intros Hp Hc. apply hoare_sys; [|by intros d e ->].
  intros d ->. rewrite rooted_plain by done. simpl. by destruct (d0 !! (r ++ l)).
Qed.

Lemma root_remove_spec r l d0 : Forall plain l -> clear d0 r l -> ~ directory_at d0 (r ++ l) ->
  hoare (fun d => d = d0) (root_remove r (local_path l)) (fun _ d => d = delete (r ++ l) d0)
    (fun e d => d = d0 /\ (errors_Is e ErrNotExist = true -> d0 !! (r ++ l) = None)).
Proof.
  intros Hp Hc Hd. apply hoare_sys; [|intros d e -> He; split; [done|by rewrite He]].
  intros d ->. rewrite rooted_plain by done. simpl. destruct (d0 !! (r ++ l)) as [[| | |]|] eqn:E; try done. destruct Hd. by eexists.
Qed.

Lemma root_rename_spec r l l' d0 n : Forall plain l -> Forall plain l' -> clear d0 r l -> clear d0 r l' ->
  d0 !! (r ++ l) = Some n -> ~ directory_at d0 (r ++ l) -> ~ directory_at d0 (r ++ l') ->
  hoare (fun d => d = d0) (root_rename r (local_path l) (local_path l')) (fun _ d => d = <[r ++ l' := n]> (delete (r ++ l) d0)) (fun _ d => d = d0).
Proof.
  intros Hp Hp' Hc Hc' Hn Hd Hd'. apply hoare_sys; [|by intros d e ->].
  intros d ->. rewrite rooted_plain by done. simpl. rewrite rooted_plain by done. simpl. rewrite Hn.
  destruct n; try (destruct Hd; by eexists); destruct (d0 !! (r ++ l')) as [[| | |]|] eqn:E; try done; destruct Hd'; by eexists.
Qed.

Lemma hoare_idle {A : Type} c (f : disk -> res A) d0 : (forall d, f d <> Panic) ->
  hoare (fun d => d = d0) (query c f) (fun _ d => d = d0) (fun _ d => d = d0).
Proof. intros Hf. apply hoare_query; [|by intros d e ->]. intros d ->. specialize (Hf d0). by destruct (f d0). Qed.

Lemma stat_at_total (d : disk) p : p <> Panic -> stat_at d p <> Panic.
Proof. intros Hp. destruct p; simpl; [by destruct (d !! a)|done|done]. Qed.

Lemma resolve_total links (d : disk) base follow : forall cur todo, resolve links d base follow cur todo <> Panic.
Proof.
  induction links as [|links IH]; intros cur todo; revert cur; induction todo as [|c todo IHt]; intros cur; cbn [resolve]; try done;
    (case_bool_decide; [apply IHt|]); (case_bool_decide; [case_bool_decide; [done|apply IHt]|]); case_match; try (by case_bool_decide).
  - case_match; try (by case_bool_decide); [apply IHt|by case_match].
  - case_match; try (by case_bool_decide); [apply IHt|]. case_match; [done|]. case_match; [by destruct base|apply IH].
Qed.

Lemma rooted_total (d : disk) r follow p : rooted d r follow p <> Panic.
Proof. unfold rooted. case_bool_decide; [done|apply resolve_total]. Qed.

Lemma located_total (d : disk) follow p : located d follow p <> Panic.
Proof. unfold located. apply resolve_total. Qed.

Lemma syncRootedDirectory_spec r dir d0 : hoare (fun d => d = d0) (syncRootedDirectory r dir) (fun _ d => d = d0) (fun _ d => d = d0).
Proof.
  unfold syncRootedDirectory. eapply hoare_bind.
  - apply hoare_idle. intros d. pose proof (stat_at_total d _ (rooted_total d r true dir)). by destruct (stat_at d _).
  - intros file. apply hoare_deferred; intros; by apply hoare_idle.
Qed.

(** The names of the files that are still being written. *)
Definition temp_name (text : string) : string := ".hostfs-" +:+ text +:+ ".tmp".

Lemma temp_name_plain text : contains_char slash text = false -> plain (temp_name text).
Proof.
  intros Ht. unfold plain, temp_name. split_and!; try done. by rewrite !contains_char_app, Ht.
Qed.

Lemma rand_text_spec d0 : hoare (fun d => d = d0) rand_text (fun text d => d = d0 /\ contains_char slash text = false) (fun _ d => d = d0).
Proof. intros s Hs. split; [exists [Random]; split; [done|by repeat constructor]|]. split; [exact Hs|apply w_random_text]. Qed.

(** A write that was cut off: the file is as it was or complete, and what was
    begun may be left beside it. *)
Definition cut_off (r dl : list string) (name data : string) (mode : Z) (d1 d : disk) : Prop :=
  d = d1 \/ d = <[r ++ dl ++ [name] := File data mode]> d1 \/
  exists text part m, d1 !! (r ++ dl ++ [temp_name text]) = None /\ d = <[r ++ dl ++ [temp_name text] := File part m]> d1.

(** What [write] does to the open file [q]. *)
Definition fills (write : list string -> Go unit) (data : string) (d1 : disk) : Prop := forall q m, d1 !! q = None ->
  hoare (fun d => d = <[q := File "" m]> d1) (write q) (fun _ d => d = <[q := File data m]> d1)
    (fun _ d => exists part, d = <[q := File part m]> d1).

Lemma writeRootedFile_spec r dl name mode write data d1 : Forall plain (dl ++ [name]) -> (forall text, name <> temp_name text) ->
  chain d1 r dl -> ~ directory_at d1 (r ++ dl ++ [name]) -> fills write data d1 ->
  hoare (fun d => d = d1) (writeRootedFile r (local_path (dl ++ [name])) mode true write)
    (fun _ d => d = <[r ++ dl ++ [name] := File data mode]> d1) (fun _ d => cut_off r dl name data mode d1 d).
Proof.
  intros Hp Hname Hc Hd Hw. pose proof Hp as [Hdl _]%Forall_app. unfold writeRootedFile.
  pose proof (Dir_local_path dl name Hp) as Hdir.
  eapply (hoare_bind _ _ _ (fun wp d => (d = d1 /\ exists text, wp = local_path (dl ++ [temp_name text]) /\ plain (temp_name text)))).
  { eapply hoare_bind; [eapply hoare_post; [apply rand_text_spec|done|by left]|]. intros text. apply hoare_known. intros Ht.
    apply hoare_ret. intros d ->. split; [done|]. exists text. split; [|by apply temp_name_plain].
    rewrite Hdir. apply Join_local; [done|by apply temp_name_plain]. }
  intros wp. apply hoare_known. intros (text & -> & Htp). set (tmp := temp_name text) in *.
  assert (Forall plain (dl ++ [tmp])) as Hpt by (apply Forall_app; split; [done|by constructor]).
  assert (r ++ dl ++ [tmp] <> r ++ dl ++ [name]) as Hne.
  { intros H%app_inv_head%app_inv_head. injection H as H. by destruct (Hname text). }
  eapply hoare_bind; [eapply (hoare_wrap _ _ _ _ _ _ (fun _ d => d = d1)); [apply root_create_spec; [done|by apply chain_clear]|by left]|].
  intros file. apply hoare_known. intros ->. apply hoare_known. intros Hnew.
  set (at_tmp := fun d : disk => exists part m, d = <[r ++ dl ++ [tmp] := File part m]> d1).
  set (done_ := fun d : disk => d = <[r ++ dl ++ [name] := File data mode]> d1).
  assert (forall n, clear (<[r ++ dl ++ [tmp] := n]> d1) r (dl ++ [tmp])) as Hct.
  { intros n. by apply chain_clear, chain_insert_below. }
  eapply (hoare_on_error _ _ _ _ _ (fun _ d => at_tmp d \/ done_ d)).
  - eapply (hoare_bind _ _ _ (fun _ d => d = <[r ++ dl ++ [tmp] := File data mode]> d1)).
    + eapply (hoare_on_error _ _ _ _ _ (fun _ => at_tmp)).
      * eapply (hoare_bind _ _ _ (fun _ d => d = <[r ++ dl ++ [tmp] := File data (masked mode)]> d1)).
        { eapply hoare_post; [by apply Hw|done|]. intros e d [part ->]. by exists part, (masked mode). }
        intros _. eapply (hoare_bind _ _ _ (fun _ d => d = <[r ++ dl ++ [tmp] := File data mode]> d1));
          [eapply (hoare_wrap _ _ _ _ _ _ (fun _ => at_tmp)); [eapply hoare_post; [eapply (root_chmod_spec r (dl ++ [tmp]) mode _ (File data (masked mode))); [done| | |done]| |]|done]|intros _].
        -- apply Hct.
        -- by rewrite lookup_insert_eq.
        -- intros _ d ->. by rewrite insert_insert_eq.
        -- intros e d ->. by exists data, (masked mode).
        -- eapply (hoare_wrap _ _ _ _ _ _ (fun _ => at_tmp)); [|done].
           eapply hoare_post; [by apply hoare_idle|done|]. intros e d ->. by exists data, mode.
      * intros e. eapply (hoare_bind _ _ _ (fun _ => at_tmp)); [|intros _; apply hoare_ret; by left].
        eapply hoare_post; [eapply (hoare_attempt _ _ (fun _ => at_tmp) (fun _ => at_tmp) (fun _ _ => False))| |done].
        -- apply hoare_each. intros d0 (part & m & ->). eapply hoare_post; [by apply hoare_idle|..]; intros ? d ->; by exists part, m.
        -- by intros [| |].
    + intros _. eapply (hoare_bind _ _ _ (fun _ d => d = <[r ++ dl ++ [tmp] := File data mode]> d1)).
      { eapply (hoare_wrap _ _ _ _ _ _ (fun _ => at_tmp)); [|by left]. eapply hoare_post; [by apply hoare_idle|done|]. intros e d ->. by exists data, mode. }
      intros _. eapply (hoare_bind _ _ _ (fun _ => done_)).
      { eapply (hoare_wrap _ _ _ _ _ _ (fun _ => at_tmp)); [|by left].
        eapply hoare_post; [eapply (root_rename_spec r (dl ++ [tmp]) (dl ++ [name]) _ (File data mode))| |]; [done|done|apply Hct|..].
        - by apply chain_clear, chain_insert_below.
        - by rewrite lookup_insert_eq.
        - intros [m Hm]. by rewrite lookup_insert_eq in Hm.
        - intros [m Hm]. rewrite lookup_insert_ne in Hm by done. apply Hd. by exists m.
        - intros _ d ->. unfold done_. by rewrite delete_insert_id.
        - intros e d ->. by exists data, mode. }
      intros _. eapply (hoare_wrap _ _ _ _ _ _ (fun _ => done_)); [|by right]. apply hoare_each. intros d0 ->.
      eapply hoare_post; [apply syncRootedDirectory_spec|..]; by intros.
  - intros e. apply hoare_each. intros d0 [(part & m & ->) | ->].
    + eapply hoare_bind; [apply hoare_attempt, (root_remove_spec r (dl ++ [tmp])); [done|apply Hct|]|].
      { intros [m' Hm]. by rewrite lookup_insert_eq in Hm. }
      intros removed. apply hoare_each. intros d Hr.
      assert (cut_off r dl name data mode d1 d) as Hco.
      { destruct removed as [u|e'|]; simpl in Hr; [| |done]; [subst d; left; by rewrite delete_insert_id|]. destruct Hr as [-> _].
        right; right. by exists text, part, m. }
      destruct removed as [u|e'|]; simpl; [| |by destruct Hr]; apply hoare_ret; intros d' ->; [done|]. by case_match.
    + eapply hoare_bind; [apply hoare_attempt, (root_remove_spec r (dl ++ [tmp])); [done| |]|].
      { by apply chain_clear, chain_insert_below. }
      { intros [m Hm]. rewrite lookup_insert_ne in Hm by done. congruence. }
      intros removed. apply hoare_each. intros d Hr.
      assert (cut_off r dl name data mode d1 d) as Hco.
      { right; left. destruct removed as [u|e'|]; simpl in Hr; [| |done]; [subst d|by destruct Hr].
        apply delete_id. by rewrite lookup_insert_ne. }
      destruct removed as [u|e'|]; simpl; [| |by destruct Hr]; apply hoare_ret; intros d' ->; [done|]. by case_match.
Qed.

(* ------------------------------------------------------------------ *)
(** ** What the functions do

    A path below the root is its components: [r] are those of the root, [l] those
    that follow. *)

(** [path] leads from [rootMount], which is [r], down [l]. *)
Definition leads (d : disk) (rootMount path : string) (r l : list string) : Prop :=
  IsAbs rootMount = true /\ IsAbs path = true /\ clean_parts path = clean_parts rootMount ++ l /\
  Forall plain l /\ located d true rootMount = Ok r.

Lemma leads_inj (d : disk) rootMount path r l r' l' : leads d rootMount path r l -> leads d rootMount path r' l' -> r = r' /\ l = l'.
Proof.
  intros (_ & _ & H1 & _ & H2) (_ & _ & H3 & _ & H4). rewrite H2 in H4. injection H4 as ->. split; [done|].
  rewrite H1 in H3. by apply app_inv_head in H3.
Qed.

Lemma openRoot_undo_spec {A : Type} undo rootMount path (k : list string -> string -> Go A) d0 (Q : A -> disk -> Prop) (X : disk -> Prop) :
  X d0 -> (forall a d, Q a d -> X d) -> (forall a, hoare (Q a) (undo a) (fun _ => X) (fun _ => X)) ->
  (forall r l, leads d0 rootMount path r l -> hoare (fun d => d = d0) (k r (local_path l)) Q (fun _ => X)) ->
  hoare (fun d => d = d0) (openRoot_undo undo rootMount path k) Q (fun _ => X).
Proof.
  intros Hx HQ Hu Hk. unfold openRoot_undo. apply hoare_if; intros Ha; [by apply hoare_raise; intros d ->|]. apply negb_false_iff in Ha.
  eapply (hoare_bind _ _ _ (fun relative d => d = d0 /\ Rel (Clean rootMount) (Clean path) = Ok relative)).
  { apply hoare_lift. intros d ->. destruct (Rel _ _) eqn:E; simpl; [done|done|].
    revert E. unfold Rel. case_bool_decide; [done|]. case_match; [done|]. by case_match. }
  intros relative. apply hoare_known. intros Hr. apply hoare_if; intros Hl; [by apply hoare_raise; intros d ->|]. apply negb_false_iff in Hl.
  apply Rel_local in Hr; [|by apply IsAbs_Clean|done]. destruct Hr as (Hpa & rest & Hrest & Hplain & ->).
  assert (IsAbs path = true) as Hpath.
  { revert Hpa. unfold Clean. destruct (IsAbs path) eqn:E; [done|]. case_bool_decide as He; [done|]. intros Hj.
    destruct (clean_parts_rel path E) as (n & l & Hcp & Hl'). rewrite Hcp in *. exfalso. revert Hj. destruct n as [|n].
    - simpl in *. destruct l as [|c l]; [done|]. apply not_true_iff_false, local_rel, local_join; done.
    - simpl. by destruct (repeat ".." n ++ l). }
  rewrite !clean_parts_Clean in Hrest by done.
  eapply (hoare_bind _ _ _ (fun r d => d = d0 /\ located d0 true rootMount = Ok r)).
  { eapply (hoare_wrap _ _ _ _ _ _ (fun _ => X)); [|done]. apply hoare_query; [|by intros d e ->]. intros d ->.
    pose proof (located_total d0 true rootMount). destruct (located d0 true rootMount) as [p|e|] eqn:E; simpl; [|done|done].
    destruct (d0 !! p); simpl; [|done]. by destruct (IsDir _). }
  intros r. apply hoare_known. intros Hroot. apply hoare_deferred_undo.
  - by apply Hk.
  - intros a. eapply (hoare_wrap _ _ _ _ _ _ (fun _ => Q a)); [by apply hoare_query|].
    intros e d Hd. eapply hoare_conseq; [apply Hu| |done|done]. by intros d' ->.
  - intros e. eapply (hoare_wrap _ _ _ _ _ _ (fun _ => X)); [by apply hoare_query|done].
Qed.

Lemma openRoot_spec {A : Type} rootMount path (k : list string -> string -> Go A) d0 (Q : A -> disk -> Prop) (X : disk -> Prop) :
  X d0 -> (forall a d, Q a d -> X d) ->
  (forall r l, leads d0 rootMount path r l -> hoare (fun d => d = d0) (k r (local_path l)) Q (fun _ => X)) ->
  hoare (fun d => d = d0) (openRoot rootMount path k) Q (fun _ => X).
Proof. intros Hx HQ. apply openRoot_undo_spec; [done|done|]. intros a. apply hoare_ret. intros d. apply HQ. Qed.

(** A file that no link leads to. *)
Definition regular_at (d : disk) (r l : list string) (data : string) : Prop := clear d r l /\ exists mode, d !! (r ++ l) = Some (File data mode).

Definition present_at (d : disk) (r l : list string) : Prop := clear d r l /\ is_Some (d !! (r ++ l)).

Lemma found_regular (d : disk) r l i : found_at d r l (Some i) -> IsRegular i = true -> exists data, regular_at d r l data.
Proof. intros (n & Hn & -> & _ & Hc) Hr. destruct n as [data mode| | |]; try done. exists data. split; [done|]. by exists mode. Qed.

(** Whether a file is where the path leads, and what it holds. *)
Definition seen (d : disk) (rootMount path : string) (b : bool) : Prop :=
  exists r l, leads d rootMount path r l /\ if b then exists data, regular_at d r l data else ~ present_at d r l.

Definition contains (d : disk) (rootMount path data : string) : Prop := exists r l, leads d rootMount path r l /\ regular_at d r l data.

Lemma seen_contains (d : disk) rootMount path b data : contains d rootMount path data -> seen d rootMount path b -> b = true.
Proof.
  intros (r & l & Hl & Hc & m & Hd) (r' & l' & Hl' & Hb). destruct (leads_inj _ _ _ _ _ _ _ Hl Hl') as [<- <-]. destruct b; [done|].
  destruct Hb. split; [done|by eexists].
Qed.

Lemma contains_inj (d : disk) rootMount path data data' : contains d rootMount path data -> contains d rootMount path data' -> data = data'.
Proof.
  intros (r & l & Hl & _ & m & Hd) (r' & l' & Hl' & _ & m' & Hd'). destruct (leads_inj _ _ _ _ _ _ _ Hl Hl') as [<- <-]. congruence.
Qed.

Lemma RegularFileExists_spec rootMount path d0 : clean_parts path <> clean_parts rootMount ->
  hoare (fun d => d = d0) (RegularFileExists rootMount path)
    (fun b d => d = d0 /\ seen d0 rootMount path b)
    (fun _ d => d = d0).
Proof.
  intros Hne. apply openRoot_spec; [done|by intros b d [-> _]|]. intros r l Hl. pose proof Hl as (_ & _ & Hc & Hp & _).
  assert (l <> []) as Hnil by (intros ->; rewrite app_nil_r in Hc; done).
  eapply (hoare_bind _ _ _ (fun oi d => d = d0 /\ found_at d0 r l oi)); [eapply hoare_wrap; [by apply inspect_spec|done]|].
  intros [i|]; apply hoare_known; intros Hf.
  - apply hoare_if; intros Hr; [by apply hoare_raise|]. apply negb_false_iff in Hr. apply hoare_ret. intros d ->. split; [done|].
    exists r, l. split; [done|]. by eapply found_regular.
  - apply hoare_ret. intros d ->. split; [done|]. by exists r, l.
Qed.

Lemma ReadFile_spec rootMount path d0 : clean_parts path <> clean_parts rootMount ->
  hoare (fun d => d = d0) (ReadFile rootMount path)
    (fun data d => d = d0 /\ contains d0 rootMount path data) (fun _ d => d = d0).
Proof.
  intros Hne. apply openRoot_spec; [done|by intros b d [-> _]|]. intros r l Hl. pose proof Hl as (_ & _ & Hc & Hp & _).
  assert (l <> []) as Hnil by (intros ->; rewrite app_nil_r in Hc; done).
  eapply (hoare_bind _ _ _ (fun oi d => d = d0 /\ found_at d0 r l oi)); [eapply hoare_wrap; [by apply inspect_spec|done]|].
  intros [i|]; apply hoare_known; intros Hf; [|by apply hoare_raise].
  apply hoare_if; intros Hr; [by apply hoare_raise|]. apply negb_false_iff in Hr.
  destruct (found_regular _ _ _ _ Hf Hr) as (data & Hcl & mode & Hd).
  eapply (hoare_wrap _ _ _ _ _ _ (fun _ d => d = d0)); [|done]. apply hoare_query; [|by intros d e ->]. intros d ->.
  rewrite rooted_plain; [|done|done|intros _ target; by rewrite Hd]. simpl. rewrite Hd. simpl. split; [done|]. exists r, l. split; [done|].
  split; [done|]. by exists mode.
Qed.

(** What a removal leaves. *)
Definition removed_at (d0 d : disk) (r l : list string) : Prop :=
  d = d0 \/ (d = delete (r ++ l) d0 /\ exists data, regular_at d0 r l data).

Lemma RemoveFile_spec rootMount path d0 : clean_parts path <> clean_parts rootMount ->
  hoare (fun d => d = d0) (RemoveFile rootMount path)
    (fun _ d => exists r l, leads d0 rootMount path r l /\ removed_at d0 d r l /\ ~ present_at d r l)
    (fun _ d => d = d0 \/ exists r l, leads d0 rootMount path r l /\ removed_at d0 d r l).
Proof.
  intros Hne. apply openRoot_spec; [by left|intros u d (r & l & ? & ? & _); right; by exists r, l|].
  intros r l Hl. pose proof Hl as (_ & _ & Hc & Hp & _).
  assert (l <> []) as Hnil by (intros ->; rewrite app_nil_r in Hc; done).
  eapply (hoare_bind _ _ _ (fun oi d => d = d0 /\ found_at d0 r l oi)); [eapply hoare_wrap; [by apply inspect_spec|by left]|].
  intros [i|]; apply hoare_known; intros Hf.
  - apply hoare_if; intros Hr; [apply hoare_raise; by left|]. apply negb_false_iff in Hr.
    destruct (found_regular _ _ _ _ Hf Hr) as (data & Hcl & mode & Hd).
    eapply hoare_bind; [apply hoare_attempt, root_remove_spec; [done|done|]|].
    { intros [m Hm]. congruence. }
    intros [u|e|]; simpl; [| |by apply hoare_lift].
    + apply hoare_ret. intros d ->. exists r, l. split; [done|]. split; [right; split; [done|]; exists data; split; [done|]; by exists mode|].
      intros [_ [n Hn]]. by rewrite lookup_delete_eq in Hn.
    + apply hoare_known. intros He. apply hoare_if; intros Hi; [apply He in Hi; congruence|]. apply hoare_raise. by left.
  - apply hoare_ret. intros d ->. exists r, l. split; [done|]. split; [by left|done].
Qed.

(** Off the paths [ps] nothing changed but that directories were made. *)
Definition touches (ps : list string -> Prop) (d0 d : disk) : Prop := forall p, ps p \/ d !! p = d0 !! p \/ (d0 !! p = None /\ directory_at d p).

#[export] Instance touches_preorder ps : PreOrder (touches ps).
Proof.
  split.
  - intros d p. right; by left.
  - intros d d' d'' H H' p. destruct (H p) as [?|[Hp|[Hp Hdir]]]; [by left| |]; (destruct (H' p) as [?|[Hp'|[Hp' Hdir']]]; [by left| |]).
    + right; left. congruence.
    + right; right. split; [congruence|done].
    + right; right. split; [done|]. destruct Hdir as [m Hm]. exists m. congruence.
    + right; right. by split.
Qed.

Lemma touches_weaken (ps qs : list string -> Prop) d0 d : (forall p, ps p -> qs p) -> touches ps d0 d -> touches qs d0 d.
Proof. intros H Ht p. destruct (Ht p) as [?|?]; [left; auto|by right]. Qed.

(** What was there off the paths is still there. *)
Lemma touches_keeps ps (d0 d : disk) p n : touches ps d0 d -> ~ ps p -> d0 !! p = Some n -> d !! p = Some n.
Proof. intros H Hp Hn. destruct (H p) as [?|[?|[? _]]]; [done|congruence|congruence]. Qed.

Lemma grown_touches d0 d r full ps : grown d0 d r full -> touches ps d0 d.
Proof. intros H p. right. destruct (H p) as [?|(? & ? & _)]; [by left|by right]. Qed.

Lemma touches_insert ps (d0 d : disk) p n : ps p -> touches ps d0 d -> touches ps d0 (<[p := n]> d).
Proof.
  intros Hp H q. destruct (decide (q = p)) as [->|Hq]; [by left|]. destruct (H q) as [?|[?|[? [m ?]]]]; [by left| |].
  - right; left. by rewrite lookup_insert_ne.
  - right; right. split; [done|]. exists m. by rewrite lookup_insert_ne.
Qed.

Lemma touches_delete ps (d0 d : disk) p : ps p -> touches ps d0 d -> touches ps d0 (delete p d).
Proof.
  intros Hp H q. destruct (decide (q = p)) as [->|Hq]; [by left|]. destruct (H q) as [?|[?|[? [m ?]]]]; [by left| |].
  - right; left. by rewrite lookup_delete_ne.
  - right; right. split; [done|]. exists m. by rewrite lookup_delete_ne.
Qed.

(** A file and the temporary files beside it. *)
Definition file_and_temps (r dl : list string) (name : string) (p : list string) : Prop :=
  p = r ++ dl ++ [name] \/ exists text, p = r ++ dl ++ [temp_name text].

Lemma cut_off_touches r dl name data mode d1 d : cut_off r dl name data mode d1 d -> touches (file_and_temps r dl name) d1 d.
Proof.
  intros [->|[->|(text & part & m & _ & ->)]]; [reflexivity|apply touches_insert; [by left|reflexivity]|].
  apply touches_insert; [right; by exists text|reflexivity].
Qed.

Lemma file_write_fills path data d1 : fills (fun file => wrap "writing %q: %w" [path] (file_write file data)) data d1.
Proof.
  intros q m Hq. eapply (hoare_wrap _ _ _ _ _ _ (fun _ d => exists part, d = <[q := File part m]> d1)); [|done].
  apply hoare_torn; intros d; [intros ->|intros e part ->]; simpl; unfold append_data; rewrite lookup_insert_eq, insert_insert_eq; [done|by exists part].
Qed.

(** The directories on the way to a file do not hold it. *)
Lemma grown_target d0 d r dl name : grown d0 d r dl -> d !! (r ++ dl ++ [name]) = d0 !! (r ++ dl ++ [name]).
Proof.
  intros Hg. destruct (Hg (r ++ dl ++ [name])) as [H|(_ & _ & l1 & l2 & Hl & _ & H)]; [done|]. by destruct (below_differs _ _ _ _ _ Hl H).
Qed.

Lemma WriteFile_spec rootMount path data mode dl name d0 : clean_parts path = clean_parts rootMount ++ dl ++ [name] ->
  (forall text, name <> temp_name text) ->
  hoare (fun d => d = d0) (WriteFile rootMount path data mode)
    (fun _ d => exists r, leads d0 rootMount path r (dl ++ [name]) /\ touches (fun p => p = r ++ dl ++ [name]) d0 d /\
      clear d r (dl ++ [name]) /\ d !! (r ++ dl ++ [name]) = Some (File data mode) /\ ~ directory_at d0 (r ++ dl ++ [name]))
    (fun _ d => d = d0 \/ exists r, leads d0 rootMount path r (dl ++ [name]) /\ touches (file_and_temps r dl name) d0 d /\
      (d !! (r ++ dl ++ [name]) = d0 !! (r ++ dl ++ [name]) \/ d !! (r ++ dl ++ [name]) = Some (File data mode))).
Proof.
  intros Hparts Hname. apply openRoot_spec; [by left|intros u d (r & ? & Ht & ? & ? & _); right; exists r; split_and!; [done|eapply touches_weaken; [|exact Ht]; by left|by right]|].
  intros r l Hl. pose proof Hl as (_ & _ & Hc & Hp & _). rewrite Hparts in Hc. apply app_inv_head in Hc as <-.
  pose proof Hp as [Hdl Hn]%Forall_app.
  rewrite Dir_local_path by done.
  set (X := fun d : disk => d = d0 \/ exists r, leads d0 rootMount path r (dl ++ [name]) /\ touches (file_and_temps r dl name) d0 d /\
      (d !! (r ++ dl ++ [name]) = d0 !! (r ++ dl ++ [name]) \/ d !! (r ++ dl ++ [name]) = Some (File data mode))).
  assert (forall d, grown d0 d r dl -> X d) as Hgx.
  { intros d Hg. right. exists r. split_and!; [done|by eapply grown_touches|]. left. by eapply grown_target. }
  eapply (hoare_bind _ _ _ (fun _ d => grown d0 d r dl /\ chain d r dl)).
  { eapply (hoare_wrap _ _ _ _ _ _ (fun _ => X)); [|done]. eapply hoare_post; [by apply ensureDirectories_spec|done|]. intros e d. apply Hgx. }
  intros _. apply hoare_each. intros d1 [Hg Hch]. pose proof (chain_clear _ _ _ name Hch) as Hcl.
  eapply (hoare_bind _ _ _ (fun oi d => d = d1 /\ found_at d1 r (dl ++ [name]) oi)).
  { eapply (hoare_wrap _ _ _ _ _ _ (fun _ d => d = d1)); [apply inspect_spec; [done|by destruct dl]|]. intros e d ->. by apply Hgx. }
  intros oi. apply hoare_known. intros Hf. apply hoare_if; intros Hb; [apply hoare_raise; intros d ->; by apply Hgx|].
  eapply (hoare_wrap _ _ _ _ _ _ (fun _ => X)); [|done]. 
  assert (~ directory_at d1 (r ++ dl ++ [name])) as Hnd.
  { intros [m Hm]. destruct oi as [i|]; [|by destruct Hf; split; [|eexists]]. destruct Hf as (n & Hn' & -> & _).
    rewrite Hm in Hn'. injection Hn' as <-. done. }
  eapply hoare_post; [by apply (writeRootedFile_spec r dl name mode _ data); [..|apply file_write_fills]| |].
  - intros _ d ->. exists r. split_and!; [done| |by apply chain_clear, chain_insert_below|by rewrite lookup_insert_eq|].
    + apply touches_insert; [done|]. by eapply grown_touches.
    + intros [m Hm]. apply Hnd. exists m. by rewrite (grown_target _ _ _ _ _ Hg).
  - intros e d Hco. right. exists r. split_and!; [done|etrans; [exact (grown_touches _ _ _ _ _ Hg)|exact (cut_off_touches _ _ _ _ _ _ _ Hco)]|].
    destruct Hco as [->|[->|(text & part & m & Hnew & ->)]]; [left; exact (grown_target _ _ _ _ _ Hg)|right; apply lookup_insert_eq|].
    left. rewrite lookup_insert_ne; [exact (grown_target _ _ _ _ _ Hg)|]. intros He%app_inv_head%app_inv_head. injection He as He. by destruct (Hname text).
Qed.

(** A new file that was cut off may be left unfinished. *)
Definition begun (r l : list string) (d1 d : disk) : Prop := d = d1 \/ (d1 !! (r ++ l) = None /\ exists part m, d = <[r ++ l := File part m]> d1).

Lemma createRootedFile_spec r dl name mode write data d1 : Forall plain (dl ++ [name]) -> chain d1 r dl -> fills write data d1 ->
  hoare (fun d => d = d1) (writeRootedFile r (local_path (dl ++ [name])) mode false write)
    (fun _ d => d = <[r ++ dl ++ [name] := File data mode]> d1 /\ d1 !! (r ++ dl ++ [name]) = None) (fun _ => begun r (dl ++ [name]) d1).
Proof.
  intros Hp Hc Hw. unfold writeRootedFile.
  eapply (hoare_bind _ _ _ (fun wp d => d = d1 /\ wp = local_path (dl ++ [name]))); [by apply hoare_ret|]. intros wp. apply hoare_known. intros ->.
  eapply hoare_bind; [eapply (hoare_wrap _ _ _ _ _ _ (fun _ d => d = d1)); [apply root_create_spec; [done|by apply chain_clear]|by left]|].
  intros file. apply hoare_known. intros ->. apply hoare_known. intros Hnew.
  set (q := r ++ dl ++ [name]) in *. set (made := fun d : disk => exists part m, d = <[q := File part m]> d1).
  assert (forall n, clear (<[q := n]> d1) r (dl ++ [name])) as Hct by (intros n; by apply chain_clear, chain_insert_below).
  eapply (hoare_on_error _ _ _ (fun _ d => d = <[q := File data mode]> d1 /\ d1 !! q = None) _ (fun _ => made)).
  - eapply (hoare_bind _ _ _ (fun _ d => d = <[q := File data mode]> d1)).
    + eapply (hoare_on_error _ _ _ _ _ (fun _ => made)).
      * eapply (hoare_bind _ _ _ (fun _ d => d = <[q := File data (masked mode)]> d1)).
        { eapply hoare_post; [by apply Hw|done|]. intros e d [part ->]. by exists part, (masked mode). }
        intros _. eapply (hoare_bind _ _ _ (fun _ d => d = <[q := File data mode]> d1));
          [eapply (hoare_wrap _ _ _ _ _ _ (fun _ => made)); [eapply hoare_post; [eapply (root_chmod_spec r (dl ++ [name]) mode _ (File data (masked mode))); [done| | |done]| |]|done]|intros _].
        -- apply Hct.
        -- apply lookup_insert_eq.
        -- intros _ d ->. apply insert_insert_eq.
        -- intros e d ->. by exists data, (masked mode).
        -- eapply (hoare_wrap _ _ _ _ _ _ (fun _ => made)); [|done].
           eapply hoare_post; [by apply hoare_idle|done|]. intros e d ->. by exists data, mode.
      * intros e. eapply (hoare_bind _ _ _ (fun _ => made)); [|intros _; by apply hoare_ret].
        eapply hoare_post; [eapply (hoare_attempt _ _ (fun _ => made) (fun _ => made) (fun _ _ => False))| |done].
        -- apply hoare_each. intros d0 (part & m & ->). eapply hoare_post; [by apply hoare_idle|..]; intros ? d ->; by exists part, m.
        -- by intros [| |].
    + intros _. assert (forall d, d = <[q := File data mode]> d1 -> made d) as Hm by (intros d ->; by exists data, mode).
      eapply (hoare_bind _ _ _ (fun _ d => d = <[q := File data mode]> d1)).
      { eapply (hoare_wrap _ _ _ _ _ _ (fun _ => made)); [|done]. eapply hoare_post; [by apply hoare_idle|done|]. intros e. exact Hm. }
      intros _. eapply (hoare_bind _ _ _ (fun _ d => d = <[q := File data mode]> d1)); [by apply hoare_ret|]. intros _.
      eapply (hoare_wrap _ _ _ _ _ _ (fun _ => made)); [|done]. eapply hoare_post; [apply syncRootedDirectory_spec|by intros _ d ->|]. intros e. exact Hm.
  - intros e. apply hoare_each. intros d0 (part & m & ->).
    eapply hoare_bind; [apply hoare_attempt, (root_remove_spec r (dl ++ [name])); [done|apply Hct|]|].
    { intros [m' Hm]. subst q. by rewrite lookup_insert_eq in Hm. }
    intros removed. apply hoare_each. intros d Hr. assert (begun r (dl ++ [name]) d1 d) as Hco.
    { destruct removed as [u|e'|]; simpl in Hr; [| |done]; [subst d; left; by apply delete_insert_id|]. destruct Hr as [-> _].
      right. split; [done|]. by exists part, m. }
    destruct removed as [u|e'|]; simpl; [| |by destruct Hr]; apply hoare_ret; intros d' ->; [done|]. by case_match.
Qed.

Lemma begun_touches r l d1 d : begun r l d1 d -> touches (fun p => p = r ++ l) d1 d.
Proof. intros [->|(_ & part & m & ->)]; [reflexivity|by apply touches_insert; [|reflexivity]]. Qed.

(** What creating a file needs and leaves, up to the point where it is opened. *)
Lemma prepare_create_spec {A : Type} rootMount path dl name r d0 (k : Go A) (Q : A -> disk -> Prop) (X : disk -> Prop) :
  leads d0 rootMount path r (dl ++ [name]) ->
  (forall d, grown d0 d r dl -> X d) ->
  (forall d1, grown d0 d1 r dl -> chain d1 r dl -> ~ present_at d1 r (dl ++ [name]) -> hoare (fun d => d = d1) k Q (fun _ => X)) ->
  hoare (fun d => d = d0)
    (let* _ := wrap "preparing parent directory for %q: %w" [path] (ensureDirectories r (Dir (local_path (dl ++ [name]))) directoryMode) in
     let* found := wrap "validating file target %q: %w" [path] (inspect r (local_path (dl ++ [name]))) in
     match found with Some info => raise (exists_error path info) | None => k end) Q (fun _ => X).
Proof.
  intros (_ & _ & _ & Hp & _) Hgx Hk. pose proof Hp as [Hdl Hn]%Forall_app. rewrite Dir_local_path by done.
  eapply (hoare_bind _ _ _ (fun _ d => grown d0 d r dl /\ chain d r dl)).
  { eapply (hoare_wrap _ _ _ _ _ _ (fun _ => X)); [|done]. eapply hoare_post; [by apply ensureDirectories_spec|done|]. intros e d. apply Hgx. }
  intros _. apply hoare_each. intros d1 [Hg Hch]. pose proof (chain_clear _ _ _ name Hch) as Hcl.
  eapply (hoare_bind _ _ _ (fun oi d => d = d1 /\ found_at d1 r (dl ++ [name]) oi)).
  { eapply (hoare_wrap _ _ _ _ _ _ (fun _ d => d = d1)); [apply inspect_spec; [done|by destruct dl]|]. intros e d ->. by apply Hgx. }
  intros [i|]; apply hoare_known; intros Hf; [apply hoare_raise; intros d ->; by apply Hgx|by apply Hk].
Qed.

Lemma grown_absent d0 d r dl name : grown d0 d r dl -> chain d r dl -> ~ present_at d r (dl ++ [name]) -> d0 !! (r ++ dl ++ [name]) = None.
Proof.
  intros Hg Hc Hp. rewrite <- (grown_target _ _ _ _ _ Hg). destruct (d !! (r ++ dl ++ [name])) eqn:E; [|done].
  destruct Hp. split; [by apply chain_clear|]. by eexists.
Qed.

Lemma CreateFile_spec rootMount path data mode dl name d0 : clean_parts path = clean_parts rootMount ++ dl ++ [name] ->
  hoare (fun d => d = d0) (CreateFile rootMount path data mode)
    (fun _ d => exists r, leads d0 rootMount path r (dl ++ [name]) /\ touches (fun p => p = r ++ dl ++ [name]) d0 d /\
      d0 !! (r ++ dl ++ [name]) = None /\ clear d r (dl ++ [name]) /\ d !! (r ++ dl ++ [name]) = Some (File data mode))
    (fun _ d => d = d0 \/ exists r, leads d0 rootMount path r (dl ++ [name]) /\ touches (fun p => p = r ++ dl ++ [name]) d0 d /\
      (d !! (r ++ dl ++ [name]) = d0 !! (r ++ dl ++ [name]) \/ d0 !! (r ++ dl ++ [name]) = None)).
Proof.
  intros Hparts. apply openRoot_spec; [by left|intros u d (r & ? & ? & ? & ? & ?); right; exists r; auto|].
  intros r l Hl. pose proof Hl as (_ & _ & Hc & Hp & _). rewrite Hparts in Hc. apply app_inv_head in Hc as <-.
  eapply hoare_error; [eapply (prepare_create_spec _ _ _ _ _ _ _ _ (fun d => touches (fun p => p = r ++ dl ++ [name]) d0 d /\
    (d !! (r ++ dl ++ [name]) = d0 !! (r ++ dl ++ [name]) \/ d0 !! (r ++ dl ++ [name]) = None)) Hl)|].
  - intros d Hg. split; [by eapply grown_touches|left; by apply (grown_target _ _ _ _ _ Hg)].
  - intros d1 Hg Hch Hnp. pose proof (grown_absent _ _ _ _ _ Hg Hch Hnp) as Habs.
    eapply (hoare_wrap _ _ _ _ _ _ (fun _ d => touches (fun p => p = r ++ dl ++ [name]) d0 d /\
      (d !! (r ++ dl ++ [name]) = d0 !! (r ++ dl ++ [name]) \/ d0 !! (r ++ dl ++ [name]) = None))); [|done].
    eapply hoare_post; [apply (createRootedFile_spec r dl name mode _ data d1 Hp Hch), file_write_fills| |].
    + intros _ d [-> _]. exists r. split_and!; [done| |done|by apply chain_clear, chain_insert_below|apply lookup_insert_eq].
      apply touches_insert; [done|]. by eapply grown_touches.
    + intros e d Hb. split; [|by right]. etrans; [eapply grown_touches, Hg|by apply begun_touches].
  - intros e d Hd. right. by exists r.
Qed.

Lemma CreateFileWriter_spec rootMount path mode dl name d0 : clean_parts path = clean_parts rootMount ++ dl ++ [name] ->
  hoare (fun d => d = d0) (CreateFileWriter rootMount path mode)
    (fun f d => exists r, leads d0 rootMount path r (dl ++ [name]) /\ touches (fun p => p = r ++ dl ++ [name] /\ d0 !! p = None) d0 d /\
      d0 !! (r ++ dl ++ [name]) = None /\ f = r ++ dl ++ [name])
    (fun _ d => d = d0 \/ exists r, leads d0 rootMount path r (dl ++ [name]) /\ touches (fun p => p = r ++ dl ++ [name] /\ d0 !! p = None) d0 d).
Proof.
  intros Hparts. apply openRoot_undo_spec; [by left|intros u d (r & ? & ? & ? & ?); right; exists r; auto| |].
  { intros f. apply hoare_each. intros d (r & ? & ? & ? & ->).
    eapply hoare_post; [by apply hoare_idle|..]; intros ? d' ->; right; by exists r. }
  intros r l Hl. pose proof Hl as (_ & _ & Hc & Hp & _). rewrite Hparts in Hc. apply app_inv_head in Hc as <-.
  eapply hoare_error; [eapply (prepare_create_spec _ _ _ _ _ _ _ _ (fun d => touches (fun p => p = r ++ dl ++ [name] /\ d0 !! p = None) d0 d) Hl)|].
  - intros d Hg. by eapply grown_touches.
  - intros d1 Hg Hch Hnp. pose proof (grown_absent _ _ _ _ _ Hg Hch Hnp) as Habs.
    set (X := fun d => touches (fun p => p = r ++ dl ++ [name] /\ d0 !! p = None) d0 d).
    assert (forall n, X (<[r ++ dl ++ [name] := n]> d1)) as Hx by (intros n; apply touches_insert; [done|by eapply grown_touches]).
    assert (X (delete (r ++ dl ++ [name]) d1)) as Hx' by (apply touches_delete; [done|by eapply grown_touches]).
    eapply (hoare_bind _ _ _ (fun f d => (d = <[r ++ dl ++ [name] := File "" (masked mode)]> d1) /\ f = r ++ dl ++ [name])).
    { eapply (hoare_wrap _ _ _ _ _ _ (fun _ => X)); [|done].
      eapply hoare_post; [apply root_create_spec; [done|by apply chain_clear]|by intros f d [[? _] ?]|]. intros e d ->. by eapply grown_touches. }
    intros f. apply hoare_known. intros ->.
    eapply hoare_bind; [eapply hoare_attempt, (root_chmod_spec r (dl ++ [name]) mode _ (File "" (masked mode))); [done| | |done]|].
    { by apply chain_clear, chain_insert_below. } { apply lookup_insert_eq. }
    intros [u|e|]; simpl; [| |by apply hoare_false; intros ? []].
    + apply hoare_ret. intros d ->. exists r. split_and!; [done| |done|done]. rewrite insert_insert_eq. apply Hx.
    + eapply (hoare_bind _ _ _ (fun _ d => d = <[r ++ dl ++ [name] := File "" (masked mode)]> d1)).
      { eapply hoare_try; [by apply hoare_idle|done|done]. }
      intros closed. eapply (hoare_bind _ _ _ (fun _ => X)).
      { eapply hoare_try; [apply (root_remove_spec r (dl ++ [name])); [done|by apply chain_clear, chain_insert_below|]|..].
        - intros [m Hm]. by rewrite lookup_insert_eq in Hm.
        - intros _ d ->. by rewrite delete_insert_eq.
        - intros e' d [-> _]. apply Hx. }
      intros removed. unfold when_err. destruct closed, removed; simpl; by apply hoare_raise.
  - intros e d Hd. right. by exists r.
Qed.

Lemma syncs_spec r dir (X : disk -> Prop) fmt args d0 : X d0 ->
  hoare (fun d => d = d0) (wrap fmt args (syncRootedDirectory r dir)) (fun _ d => d = d0) (fun _ => X).
Proof.
  intros Hx. eapply (hoare_wrap _ _ _ _ _ _ (fun _ => X)); [|done]. eapply hoare_error; [apply syncRootedDirectory_spec|]. by intros e d ->.
Qed.

(** The two paths are told apart by their names here. *)
Lemma RenameFile_spec rootMount oldPath newPath dl old new d0 :
  clean_parts oldPath = clean_parts rootMount ++ dl ++ [old] -> clean_parts newPath = clean_parts rootMount ++ dl ++ [new] ->
  IsAbs newPath = true -> old <> new ->
  hoare (fun d => d = d0) (RenameFile rootMount oldPath newPath)
    (fun _ d => exists r data mode, leads d0 rootMount oldPath r (dl ++ [old]) /\ d0 !! (r ++ dl ++ [old]) = Some (File data mode) /\
      clear d0 r (dl ++ [old]) /\ d = <[r ++ dl ++ [new] := File data mode]> (delete (r ++ dl ++ [old]) d0))
    (fun _ d => d = d0 \/ exists r data mode, leads d0 rootMount oldPath r (dl ++ [old]) /\ d0 !! (r ++ dl ++ [old]) = Some (File data mode) /\
      clear d0 r (dl ++ [old]) /\ d = <[r ++ dl ++ [new] := File data mode]> (delete (r ++ dl ++ [old]) d0)).
Proof.
  intros Hold Hnew Habs Hne. apply openRoot_spec; [by left|by right|].
  intros r l Hl. pose proof Hl as (Hr & _ & Hc & Hp & _). rewrite Hold in Hc. apply app_inv_head in Hc as <-.
  pose proof Hp as [Hdl Ho]%Forall_app.
  assert (Forall plain (dl ++ [new])) as Hpn.
  { pose proof (clean_parts_abs _ Habs) as Hf. rewrite Hnew in Hf. by apply Forall_app in Hf as [_ ?]. }
  set (Y := fun d : disk => exists r data mode, leads d0 rootMount oldPath r (dl ++ [old]) /\ d0 !! (r ++ dl ++ [old]) = Some (File data mode) /\
      clear d0 r (dl ++ [old]) /\ d = <[r ++ dl ++ [new] := File data mode]> (delete (r ++ dl ++ [old]) d0)).
  eapply (hoare_bind _ _ _ (fun rel d => d = d0 /\ rel = local_path (dl ++ [new]))).
  { apply hoare_lift. intros d ->. rewrite (Rel_below _ _ (dl ++ [new])); [done|by apply IsAbs_Clean|by apply IsAbs_Clean|].
    by rewrite !clean_parts_Clean. }
  intros rel. apply hoare_known. intros ->. rewrite local_path_local by done. simpl negb.
  eapply (hoare_bind _ _ _ (fun oi d => d = d0 /\ found_at d0 r (dl ++ [old]) oi)).
  { eapply (hoare_wrap _ _ _ _ _ _ (fun _ d => d = d0)); [apply inspect_spec; [done|by destruct dl]|by left]. }
  intros [i|]; apply hoare_known; intros Hf; [|apply hoare_raise; by left].
  apply hoare_if; intros Hreg; [apply hoare_raise; by left|]. apply negb_false_iff in Hreg.
  destruct (found_regular _ _ _ _ Hf Hreg) as (data & Hcl & mode & Hd).
  eapply (hoare_bind _ _ _ (fun oi d => d = d0 /\ found_at d0 r (dl ++ [new]) oi)).
  { eapply (hoare_wrap _ _ _ _ _ _ (fun _ d => d = d0)); [apply inspect_spec; [done|by destruct dl]|by left]. }
  intros oj. apply hoare_known. intros Hf'. apply hoare_if; intros Hreg'; [apply hoare_raise; by left|].
  rewrite !Dir_local_path by done. pose proof (clear_chain _ _ _ _ Hcl) as Hch.
  eapply (hoare_bind _ _ _ (fun _ d => d = d0)).
  { assert (forall d, grown d0 d r dl -> d = d0) as Hsame.
    { intros d Hg. apply map_eq. intros p. destruct (Hg p) as [?|(Hn & _ & l1 & l2 & Hdl' & Hl1 & ->)]; [done|].
      destruct (Hch l1 l2 Hdl' Hl1) as [m Hm]. congruence. }
    eapply (hoare_wrap _ _ _ _ _ _ (fun _ d => d = d0)); [|by left].
    eapply hoare_post; [by apply ensureDirectories_spec|intros _ d [? _]; by apply Hsame|intros e d; apply Hsame]. }
  intros _. eapply (hoare_bind _ _ _ (fun _ d => d = <[r ++ dl ++ [new] := File data mode]> (delete (r ++ dl ++ [old]) d0))).
  { eapply (hoare_wrap _ _ _ _ _ _ (fun _ d => d = d0)); [|by left].
    apply root_rename_spec; [done|done|done|by apply chain_clear|done|intros [m Hm]; congruence|].
    intros [m Hm]. destruct oj as [j|]; [|destruct Hf'; split; [by apply chain_clear|by eexists]].
    destruct Hf' as (n & Hn & -> & _). rewrite Hm in Hn. injection Hn as <-. done. }
  intros _. assert (Y (<[r ++ dl ++ [new] := File data mode]> (delete (r ++ dl ++ [old]) d0))) as Hy by (exists r, data, mode; done).
  eapply hoare_bind; [apply syncs_spec; by right|]. intros ?. cbv zeta. rewrite bool_decide_eq_true_2 by done. apply hoare_ret. intros d ->. exact Hy.
Qed.

(* ------------------------------------------------------------------ *)
(** ** No file operation runs a command *)

Lemma ensure_each_quiet r mode l : forall current, steps (emits quiet) (ensure_each r mode current l).
Proof. induction l as [|c l IH]; intros current; cbn [ensure_each]; walk quiet_leaf. Qed.

Lemma inspect_each_quiet r l : forall current, steps (emits quiet) (inspect_each r current l).
Proof. induction l as [|c l IH]; intros current; cbn [inspect_each]; walk quiet_leaf. Qed.

#[local] Hint Resolve ensure_each_quiet inspect_each_quiet : quiet.

Lemma RegularFileExists_quiet rootMount p : steps (emits quiet) (RegularFileExists rootMount p).
Proof. walk quiet_leaf. Qed.

Lemma ReadFile_quiet rootMount p : steps (emits quiet) (ReadFile rootMount p).
Proof. walk quiet_leaf. Qed.

Lemma ReadDir_quiet rootMount p : steps (emits quiet) (ReadDir rootMount p).
Proof. walk quiet_leaf. Qed.

Lemma CreateFile_quiet rootMount p data mode : steps (emits quiet) (CreateFile rootMount p data mode).
Proof. walk quiet_leaf. Qed.

Lemma CreateFileWriter_quiet rootMount p mode : steps (emits quiet) (CreateFileWriter rootMount p mode).
Proof. walk quiet_leaf. Qed.

Lemma WriteFile_quiet rootMount p data mode : steps (emits quiet) (WriteFile rootMount p data mode).
Proof. walk quiet_leaf. Qed.

Lemma RenameFile_quiet rootMount p q : steps (emits quiet) (RenameFile rootMount p q).
Proof. walk quiet_leaf. Qed.

Lemma RemoveFile_quiet rootMount p : steps (emits quiet) (RemoveFile rootMount p).
Proof. walk quiet_leaf. Qed.

Lemma copyTreeEntryFollowingSymlinks_quiet fuel : forall rootMount source destination ancestors,
  steps (emits quiet) (copyTreeEntryFollowingSymlinks fuel rootMount source destination ancestors).
Proof. induction fuel as [|fuel IH]; intros rootMount source destination ancestors; cbn [copyTreeEntryFollowingSymlinks]; walk quiet_leaf. Qed.

#[local] Hint Resolve copyTreeEntryFollowingSymlinks_quiet : quiet.

Lemma CopyTreeIfExistsFollowingSymlinks_quiet rootMount source destination : steps (emits quiet) (CopyTreeIfExistsFollowingSymlinks rootMount source destination).
Proof. walk quiet_leaf. Qed.

Lemma CopyFileFollowingSymlinks_quiet rootMount source destination : steps (emits quiet) (CopyFileFollowingSymlinks rootMount source destination).
Proof. walk quiet_leaf. Qed.

(* ------------------------------------------------------------------ *)
(** ** A write is all or nothing *)

(** C21: [WriteFile] changes the file it names in one step.  Whatever call fails,
    and so wherever the agent is killed, the file holds what it held before or
    all of the new text with its mode, it holds the new text when the call
    succeeds, and nothing else that was on the disk has changed; no symbolic link
    was followed below the root. *)
Theorem WriteFile_atomic rootMount path data mode r dl name s :
  leads (mem s) rootMount path r (dl ++ [name]) -> (forall text, name <> temp_name text) ->
  let '(s', result) := WriteFile rootMount path data mode s in
  let target := r ++ dl ++ [name] in
  (forall p n, mem s !! p = Some n -> p <> target -> (forall text, p <> r ++ dl ++ [temp_name text]) -> mem s' !! p = Some n) /\
  (mem s' !! target = mem s !! target \/ mem s' !! target = Some (File data mode)) /\
  (result = Ok tt -> mem s' !! target = Some (File data mode) /\ clear (mem s') r (dl ++ [name])) /\
  result <> Panic.
Proof.
  intros Hl Hname. pose proof Hl as (_ & _ & Hparts & _).
  destruct (WriteFile_spec rootMount path data mode dl name (mem s) Hparts Hname s eq_refl) as [_ Hspec].
  destruct (WriteFile rootMount path data mode s) as [s' [[]|e|]]; simpl in *; [| |done].
  - destruct Hspec as (r' & Hl' & Ht & Hc & Hd & _). destruct (leads_inj _ _ _ _ _ _ _ Hl Hl') as [<- _].
    split_and!; [|by right|done|done]. intros p n Hn Hp Htemp. by eapply touches_keeps.
  - destruct Hspec as [->|(r' & Hl' & Ht & Hd)]; [split_and!; [done|by left|done|done]|].
    destruct (leads_inj _ _ _ _ _ _ _ Hl Hl') as [<- _]. split_and!; [|done|done|done].
    intros p n Hn Hp Htemp. eapply touches_keeps; [exact Ht| |done]. intros [?|[text ?]]; [done|by apply (Htemp text)].
Qed.

End HostFs.

(* ------------------------------------------------------------------ *)
(** ** A machine *)

(** No fault, no cancellation; commands do nothing and succeed. *)
Program Definition quiet_world : World := {|
  w_fault _ := None;
  w_torn _ := "";
  w_cancelled _ := None;
  w_exec _ _ d := (d, {| oc_started := true; oc_state := Some (0, None); oc_err := None |});
  w_now _ := 1;
  w_random _ := "RANDOM";
  w_env := ∅;
  w_umask := 18;
  w_listing := entries
|}.
Next Obligation. done. Qed.
Next Obligation. done. Qed.
Next Obligation. done. Qed.
Next Obligation. done. Qed.

Definition sample_disk : disk := <[[] := Directory 493]> (<[["root"] := Directory 493]> (<[["root"; "etc"] := Directory 493]> ∅)).

Definition sample_pass : pass event disk := {| trace := []; mem := sample_disk |}.

#[local] Existing Instance quiet_world.

Lemma WriteFile_atomic_witness : leads sample_disk "/root" "/root/etc/skyhook/flag" ["root"] (["etc"; "skyhook"] ++ ["flag"]) /\
  (forall text, "flag" <> temp_name text) /\
  mem (WriteFile "/root" "/root/etc/skyhook/flag" "text" 384 sample_pass).1 !! ["root"; "etc"; "skyhook"; "flag"] = Some (File "text" 384).
Proof.
  assert (leads sample_disk "/root" "/root/etc/skyhook/flag" ["root"] (["etc"; "skyhook"] ++ ["flag"])) as Hl.
  { unfold leads. split_and!; try reflexivity. repeat constructor; by vm_compute. }
  assert (forall text, "flag" <> temp_name text) as Hn by done.
  split; [exact Hl|]. split; [exact Hn|].
  pose proof (WriteFile_atomic "/root" "/root/etc/skyhook/flag" "text" 384 ["root"] ["etc"; "skyhook"] "flag" sample_pass Hl Hn) as H.
  destruct (WriteFile "/root" "/root/etc/skyhook/flag" "text" 384 sample_pass) as [s' result] eqn:E.
  destruct H as (_ & _ & H & _). apply H. apply (f_equal snd) in E. by vm_compute in E.
Defined.

#[export] Hint Resolve RegularFileExists_quiet ReadFile_quiet ReadDir_quiet CreateFile_quiet CreateFileWriter_quiet WriteFile_quiet
  RenameFile_quiet RemoveFile_quiet CopyTreeIfExistsFollowingSymlinks_quiet CopyFileFollowingSymlinks_quiet : quiet.
