(* ===== verification/HostWatch.v ===== *)
(** * What file operations leave alone

    The root of the host is mounted on a directory that no link leads to
    ([mounted]); then a path below it is where its components say.  Operations
    that only read keep every property of the disk; the lemmas are leaves of
    [walk] for the programs built from them. *)

From S2P Require Import Prelude Effects Paths Host HostFs.

#[local] Open Scope Z_scope.
#[local] Open Scope go_scope.

(* ------------------------------------------------------------------ *)
(** ** A mounted root *)

Definition mounted (rootMount : string) (d : disk) : Prop :=
  IsAbs rootMount = true /\ Clean rootMount = rootMount /\ chain d [] (clean_parts rootMount).

Lemma resolve_skip links (d : disk) base follow cur rest : resolve links d base follow cur ("" :: rest) = resolve links d base follow cur rest.
Proof. by destruct links. Qed.

Lemma split_absolute l : Forall plain l -> l <> [] -> split_char slash ("/" +:+ join "/" l) = "" :: l.
Proof.
  intros Hp Hl. rewrite append_cons, append_nil_l. change (String "/" ?t) with ("" +:+ String slash t).
  rewrite split_char_cons by done. f_equal. apply split_join; [done|by apply plain_free].
Qed.

Lemma mounted_located rootMount (d : disk) : mounted rootMount d -> located d true rootMount = Ok (clean_parts rootMount).
Proof.
  intros (Ha & Hc & Hd). pose proof (clean_parts_abs _ Ha) as Hp. unfold located. rewrite <- Hc at 1. rewrite Clean_abs by done.
  destruct (decide (clean_parts rootMount = [])) as [E|Hne].
  - rewrite E. change (split_char slash ("/" +:+ join "/" [])) with [""; ""]. by rewrite !resolve_skip.
  - rewrite split_absolute by done. rewrite resolve_skip. rewrite resolve_plain; [done|done|by apply chain_clear_self|].
    intros _ target Ht. destruct (chain_dirs _ _ _ Hd Hne) as [mode Hm]. simpl in *. congruence.
Qed.

Lemma mounted_leads rootMount path (d : disk) r l : mounted rootMount d -> leads d rootMount path r l ->
  r = clean_parts rootMount /\ r ++ l = clean_parts path.
Proof.
  intros Hm (_ & _ & Hc & _ & Hr). rewrite (mounted_located _ _ Hm) in Hr. injection Hr as <-. by split.
Qed.

Lemma mounted_leads_intro rootMount path (d : disk) l : mounted rootMount d -> IsAbs path = true -> clean_parts path = clean_parts rootMount ++ l ->
  leads d rootMount path (clean_parts rootMount) l.
Proof.
  intros Hm Hp Hc. pose proof (mounted_located _ _ Hm) as Hr. destruct Hm as (Ha & _ & _). unfold leads. split_and!; try done.
  pose proof (clean_parts_abs _ Hp) as Hf. rewrite Hc in Hf. by apply Forall_app in Hf as [_ ?].
Qed.

(** The mount stays where only paths below it are touched. *)
Lemma touches_mounted rootMount ps (d0 d : disk) : touches ps d0 d -> (forall l1 l2, clean_parts rootMount = l1 ++ l2 -> ~ ps l1) ->
  mounted rootMount d0 -> mounted rootMount d.
Proof.
  intros Ht Hps (Ha & Hc & Hd). split_and!; [done|done|]. intros l1 l2 Hl H1. destruct (Hd l1 l2 Hl H1) as [m Hm].
  exists m. eapply touches_keeps; [exact Ht|by apply (Hps l1 l2)|done].
Qed.

(* ------------------------------------------------------------------ *)
(** ** What is at a place *)

Definition written (o : option node) : Prop := exists data mode, o = Some (File data mode).

Section Watch.
Context `{W : World}.
Context (rootMount : string).

Lemma hoare_keeps {A : Type} (I : disk -> Prop) (m : Go A) :
  (forall d0, I d0 -> hoare (fun d => d = d0) m (fun _ => I) (fun _ => I)) -> steps (keeps I (fun _ => True)) m.
Proof.
  intros H s Hs. destruct (H (mem s) Hs s eq_refl) as [(t & Ht & _) Hr]. split.
  - by destruct ((m s).2).
  - exists t. split; [done|]. by apply List.Forall_forall.
Qed.

Lemma steps_same {A : Type} (R : pass event disk -> pass event disk -> Prop) `{!PreOrder R} (m : Go A) : (forall s, (m s).1 = s) -> steps R m.
Proof. intros H s. rewrite H. reflexivity. Qed.

Lemma query_keeps {A : Type} (I : disk -> Prop) c (f : disk -> res A) : steps (keeps I (fun _ => True)) (query c f).
Proof.
  intros s Hs. unfold query, sys, torn_call. destruct (w_fault (trace s)); simpl; (split; [done|]); exists [Sys c]; by split; [|repeat constructor].
Qed.

Lemma event_keeps {A : Type} (I : disk -> Prop) (m : Go A) e : (forall s, exists a, m s = ({| trace := trace s ++ [e]; mem := mem s |}, a)) ->
  steps (keeps I (fun _ => True)) m.
Proof. intros H s Hs. destruct (H s) as [a ->]. split; [done|]. exists [e]. by split; [|repeat constructor]. Qed.

Lemma now_keeps (I : disk -> Prop) : steps (keeps I (fun _ => True)) time_now.
Proof. apply (event_keeps _ _ Clock). intros s. by eexists. Qed.

Lemma ctx_keeps (I : disk -> Prop) : steps (keeps I (fun _ => True)) ctx_err.
Proof. apply (event_keeps _ _ Asked). intros s. by eexists. Qed.

Lemma exec_keeps (I : disk -> Prop) pr : (forall t d, I d -> I (w_exec t pr d).1) -> steps (keeps I (fun _ => True)) (exec pr).
Proof.
  intros H s Hs. unfold exec. pose proof (H (trace s) (mem s) Hs). destruct (w_exec (trace s) pr (mem s)) as [d o]. simpl in *.
  split; [done|]. exists [Ran pr o]. by split; [|repeat constructor].
Qed.

Lemma inspect_each_keeps (I : disk -> Prop) r l : forall current, steps (keeps I (fun _ => True)) (inspect_each r current l).
Proof. induction l as [|c l IH]; intros current; cbn [inspect_each]; walk ltac:(first [apply IH|apply query_keeps]). Qed.

Lemma RegularFileExists_keeps (I : disk -> Prop) path : steps (keeps I (fun _ => True)) (RegularFileExists rootMount path).
Proof. walk ltac:(first [apply query_keeps|apply inspect_each_keeps]). Qed.

Lemma ReadFile_keeps (I : disk -> Prop) path : steps (keeps I (fun _ => True)) (ReadFile rootMount path).
Proof. walk ltac:(first [apply query_keeps|apply inspect_each_keeps]). Qed.

Lemma ReadDir_keeps (I : disk -> Prop) root path : steps (keeps I (fun _ => True)) (ReadDir root path).
Proof. walk ltac:(first [apply query_keeps|apply inspect_each_keeps]). Qed.

(* ------------------------------------------------------------------ *)
(** ** Operations that write *)

Lemma prefix_shorter (l l1 l2 dl : list string) name : l = l1 ++ l2 -> l ++ dl ++ [name] <> l1.
Proof. intros -> H. apply (f_equal length) in H. rewrite !length_app in H. simpl in H. lia. Qed.

End Watch.
