(* ===== verification/Stages.v ===== *)
(** * Stages of the node agent

    Models [agent/go/internal/stage] and [agent/go/internal/execution]: the
    lifecycle stages, which of them check which, and what an operation is
    given. *)

From S2P Require Import Prelude Effects Paths Host.

#[local] Open Scope Z_scope.
#[local] Open Scope go_scope.

(* ------------------------------------------------------------------ *)
(** ** stage.go *)

Module Stage.

Definition Uninstall := "uninstall".
Definition UninstallCheck := "uninstall-check".
Definition Upgrade := "upgrade".
Definition UpgradeCheck := "upgrade-check".
Definition Apply := "apply".
Definition ApplyCheck := "apply-check".
Definition Config := "config".
Definition ConfigCheck := "config-check".
Definition Interrupt := "interrupt".
Definition PostInterrupt := "post-interrupt".
Definition PostInterruptCheck := "post-interrupt-check".

Definition All : list string :=
  [Uninstall; UninstallCheck; Upgrade; UpgradeCheck; Apply; ApplyCheck; Config; ConfigCheck; Interrupt; PostInterrupt;
   PostInterruptCheck].

Definition ApplyToCheck : gmap string string := list_to_map
  [(Uninstall, UninstallCheck); (Upgrade, UpgradeCheck); (Apply, ApplyCheck); (Config, ConfigCheck);
   (PostInterrupt, PostInterruptCheck)].

Definition CheckToApply : gmap string string := list_to_map
  [(UninstallCheck, Uninstall); (UpgradeCheck, Upgrade); (ApplyCheck, Apply); (ConfigCheck, Config);
   (PostInterruptCheck, PostInterrupt)].

Definition nonStepStages : gset string := {[ Interrupt ]}.

Definition IsStepStage (s : string) : bool := negb (bool_decide (s ∈ nonStepStages)).

Definition ParseStage (s : string) : res string :=
  if bool_decide (s ∈ All) then Ok s else Err (errorf "unknown stage %q" [s]).

Lemma ParseStage_ok s t : ParseStage s = Ok t <-> t = s /\ s ∈ All.
Proof. unfold ParseStage. case_bool_decide; split; [by intros [= <-]|by intros [-> _]|done|by intros [_ ?]]. Qed.

(** The two tables are inverse to each other, over stages, and pair a stage with
    one of another kind. *)
Lemma stages_paired : (forall s c, ApplyToCheck !! s = Some c <-> CheckToApply !! c = Some s) /\
  (forall s c, ApplyToCheck !! s = Some c -> s ∈ All /\ c ∈ All /\ ApplyToCheck !! c = None /\ IsStepStage s = true /\ IsStepStage c = true) /\
  (forall s, s ∈ All -> IsStepStage s = true -> is_Some (ApplyToCheck !! s) \/ is_Some (CheckToApply !! s)).
Proof.
  assert (forall (l : list (string * string)) s c, NoDup l.*1 -> (list_to_map l : gmap string string) !! s = Some c <-> (s, c) ∈ l) as Hl.
  { intros l s c Hn. symmetry. by apply elem_of_list_to_map. }
  assert (forall s c, ApplyToCheck !! s = Some c <-> (s, c) ∈ [(Uninstall, UninstallCheck); (Upgrade, UpgradeCheck); (Apply, ApplyCheck);
    (Config, ConfigCheck); (PostInterrupt, PostInterruptCheck)]) as HA by (intros s c; apply Hl, (bool_decide_eq_true_1 _); by vm_compute).
  assert (forall s c, CheckToApply !! s = Some c <-> (s, c) ∈ [(UninstallCheck, Uninstall); (UpgradeCheck, Upgrade); (ApplyCheck, Apply);
    (ConfigCheck, Config); (PostInterruptCheck, PostInterrupt)]) as HC by (intros s c; apply Hl, (bool_decide_eq_true_1 _); by vm_compute).
  split_and!.
  - intros s c. rewrite HA, HC, !elem_of_cons, !elem_of_nil. naive_solver.
  - intros s c. rewrite HA, !elem_of_cons, elem_of_nil.
    intros [[= -> ->]|[[= -> ->]|[[= -> ->]|[[= -> ->]|[[= -> ->]|[]]]]]]; split_and!;
      first [reflexivity|apply (bool_decide_eq_true_1 _); by vm_compute].
  - intros s Hs Hstep. unfold All in Hs. rewrite !elem_of_cons, elem_of_nil in Hs.
    repeat destruct Hs as [->|Hs]; try done; first [by left; vm_compute; eexists|by right; vm_compute; eexists].
Qed.

End Stage.

(* ------------------------------------------------------------------ *)
(** ** execution.go *)

Inductive Status := StatusSuccess | StatusFailed.

#[export] Instance Status_eq_dec : EqDecision Status.
Proof. solve_decision. Defined.

Module Run.

Record Config := { rootMount : string; stepRoot : string; skyhookDir : string; stdout : writer; stderr : writer }.

Definition Validate (config : Config) : res unit :=
  if negb (IsAbs (rootMount config)) then Err (errorf "root mount %q is not absolute" [rootMount config])
  else if negb (IsAbs (stepRoot config)) then Err (errorf "step root %q is not absolute" [stepRoot config])
  else if negb (IsAbs (skyhookDir config)) then Err (errorf "skyhook directory %q is not absolute" [skyhookDir config])
  else if bool_decide (stdout config = None) then Err (errorf "stdout writer is nil" [])
  else if bool_decide (stderr config = None) then Err (errorf "stderr writer is nil" [])
  else Ok tt.

Definition Option := Config -> Config.

Definition WithRootMount (r : string) : Option := fun c =>
  {| rootMount := r; stepRoot := stepRoot c; skyhookDir := skyhookDir c; stdout := stdout c; stderr := stderr c |}.
Definition WithStepRoot (r : string) : Option := fun c =>
  {| rootMount := rootMount c; stepRoot := r; skyhookDir := skyhookDir c; stdout := stdout c; stderr := stderr c |}.
Definition WithSkyhookDir (r : string) : Option := fun c =>
  {| rootMount := rootMount c; stepRoot := stepRoot c; skyhookDir := r; stdout := stdout c; stderr := stderr c |}.

(** [io.Discard] writes to no sink. *)
Definition WithRunOutput (out err : writer) : Option := fun c =>
  {| rootMount := rootMount c; stepRoot := stepRoot c; skyhookDir := skyhookDir c; stdout := Some (default [] out); stderr := Some (default [] err) |}.

Definition NewConfig (options : list Option) : res Config :=
  let config := {| rootMount := ""; stepRoot := ""; skyhookDir := ""; stdout := Some [Stdout]; stderr := Some [Stderr] |} in
  let config := fold_left (fun c (o : Option) => o c) options config in
  let! _ := rwrap "constructing agent run config: %w" [] (Validate config) in
  Ok config.

End Run.
