(* ===== verification/Command.v ===== *)
(** * Commands

    Models [agent/go/internal/command]: what a command is, and how it is run,
    on the agent's own files or inside the root of the host.

    Not modelled: a nil context, and the callback with which [os/exec] kills the
    process group when the context ends; both are part of what a command may do
    ([w_exec]). *)

From S2P Require Import Prelude Effects Paths Host.

#[local] Open Scope Z_scope.
#[local] Open Scope go_scope.

Record Command := {
  cmd_Executable : string;
  cmd_Arguments : list string;
  cmd_WorkingDirectory : string;
  cmd_Environment : gmap string string;
  cmd_Stdout : writer;
  cmd_Stderr : writer;
  cmd_Permissions : Z;
  cmd_RequiredPermissions : Z
}.

Definition CommandOption := Command -> Command.

(** [io.Discard] writes to no sink. *)
Definition NewCommand (executable : string) (options : list CommandOption) : Command :=
  fold_left (fun c (o : CommandOption) => o c) options
    {| cmd_Executable := executable; cmd_Arguments := []; cmd_WorkingDirectory := ""; cmd_Environment := ∅;
       cmd_Stdout := Some []; cmd_Stderr := Some []; cmd_Permissions := 0; cmd_RequiredPermissions := 0 |}.

Definition WithArguments (arguments : list string) : CommandOption := fun c =>
  {| cmd_Executable := cmd_Executable c; cmd_Arguments := arguments; cmd_WorkingDirectory := cmd_WorkingDirectory c;
     cmd_Environment := cmd_Environment c; cmd_Stdout := cmd_Stdout c; cmd_Stderr := cmd_Stderr c;
     cmd_Permissions := cmd_Permissions c; cmd_RequiredPermissions := cmd_RequiredPermissions c |}.
Definition WithWorkingDirectory (directory : string) : CommandOption := fun c =>
  {| cmd_Executable := cmd_Executable c; cmd_Arguments := cmd_Arguments c; cmd_WorkingDirectory := directory;
     cmd_Environment := cmd_Environment c; cmd_Stdout := cmd_Stdout c; cmd_Stderr := cmd_Stderr c;
     cmd_Permissions := cmd_Permissions c; cmd_RequiredPermissions := cmd_RequiredPermissions c |}.
Definition WithEnvironment (environment : gmap string string) : CommandOption := fun c =>
  {| cmd_Executable := cmd_Executable c; cmd_Arguments := cmd_Arguments c; cmd_WorkingDirectory := cmd_WorkingDirectory c;
     cmd_Environment := environment; cmd_Stdout := cmd_Stdout c; cmd_Stderr := cmd_Stderr c;
     cmd_Permissions := cmd_Permissions c; cmd_RequiredPermissions := cmd_RequiredPermissions c |}.
Definition WithStdout (w : writer) : CommandOption := fun c =>
  {| cmd_Executable := cmd_Executable c; cmd_Arguments := cmd_Arguments c; cmd_WorkingDirectory := cmd_WorkingDirectory c;
     cmd_Environment := cmd_Environment c; cmd_Stdout := w; cmd_Stderr := cmd_Stderr c;
     cmd_Permissions := cmd_Permissions c; cmd_RequiredPermissions := cmd_RequiredPermissions c |}.
Definition WithStderr (w : writer) : CommandOption := fun c =>
  {| cmd_Executable := cmd_Executable c; cmd_Arguments := cmd_Arguments c; cmd_WorkingDirectory := cmd_WorkingDirectory c;
     cmd_Environment := cmd_Environment c; cmd_Stdout := cmd_Stdout c; cmd_Stderr := w;
     cmd_Permissions := cmd_Permissions c; cmd_RequiredPermissions := cmd_RequiredPermissions c |}.
Definition WithPermissions (permissions : Z) : CommandOption := fun c =>
  {| cmd_Executable := cmd_Executable c; cmd_Arguments := cmd_Arguments c; cmd_WorkingDirectory := cmd_WorkingDirectory c;
     cmd_Environment := cmd_Environment c; cmd_Stdout := cmd_Stdout c; cmd_Stderr := cmd_Stderr c;
     cmd_Permissions := permissions; cmd_RequiredPermissions := cmd_RequiredPermissions c |}.
Definition WithRequiredPermissions (permissions : Z) : CommandOption := fun c =>
  {| cmd_Executable := cmd_Executable c; cmd_Arguments := cmd_Arguments c; cmd_WorkingDirectory := cmd_WorkingDirectory c;
     cmd_Environment := cmd_Environment c; cmd_Stdout := cmd_Stdout c; cmd_Stderr := cmd_Stderr c;
     cmd_Permissions := cmd_Permissions c; cmd_RequiredPermissions := permissions |}.

Definition NUL : ascii := "000"%char.

Definition sortedEnvironmentNames (environment : gmap string string) : list string :=
  sort_strings (map_to_list environment).*1.

Definition perm (mode : Z) : Z := Z.land mode 511.

Definition Command_validate (c : Command) : res unit :=
  if bool_decide (cmd_Executable c = "") then Err (errorf "command executable is empty" [])
  else if negb (bool_decide (cmd_Permissions c = perm (cmd_Permissions c))) then Err (errorf "command permissions contain non-permission mode bits" [])
  else if negb (bool_decide (cmd_RequiredPermissions c = perm (cmd_RequiredPermissions c)))
    then Err (errorf "command required permissions contain non-permission mode bits" [])
  else if negb (bool_decide (cmd_Permissions c = 0)) && negb (bool_decide (cmd_RequiredPermissions c = 0))
    then Err (errorf "command permissions and required permissions are mutually exclusive" [])
  else if negb (bool_decide (Z.lor (cmd_Permissions c) (cmd_RequiredPermissions c) = 0)) && negb (IsAbs (cmd_Executable c))
    then Err (errorf "command permissions require an absolute executable path" [])
  else if contains_char NUL (cmd_Executable c) then Err (errorf "command executable contains a NUL byte" [])
  else
    let! _ := rforall (fun '(index, argument) =>
      if contains_char NUL argument then Err (errorf "command argument %d contains a NUL byte" [show_int index]) else Ok tt)
      (imap (fun i a => (Z.of_nat i, a)) (cmd_Arguments c)) in
    let! _ :=
      if bool_decide (cmd_WorkingDirectory c = "") then Ok tt
      else if contains_char NUL (cmd_WorkingDirectory c) then Err (errorf "command working directory contains a NUL byte" [])
      else if negb (IsAbs (cmd_WorkingDirectory c)) then Err (errorf "working directory %q is not absolute" [cmd_WorkingDirectory c])
      else Ok tt in
    rforall (fun name =>
      let value := default "" (cmd_Environment c !! name) in
      if bool_decide (name = "") then Err (errorf "command environment contains an empty name" [])
      else if contains_char "="%char name then Err (errorf "command environment name %q contains '='" [name])
      else if contains_char NUL name || contains_char NUL value then Err (errorf "command environment variable %q contains a NUL byte" [name])
      else Ok tt) (sortedEnvironmentNames (cmd_Environment c)).

Definition SuccessExitCode : Z := 0.
Definition SignalExitCode : Z := -1.
Definition SIGTERM : Z := 15.

Record Result := { ExitCode : Z; Signal : option Z }.

Definition no_result : Result := {| ExitCode := 0; Signal := None |}.

Section Command.
Context `{W : World}.

(** What [Run] returns: both values are used by its callers. *)
Definition failed {A : Type} (fmt : string) (args : list string) (e : error) (r : A) : Go (A * option error) :=
  ret (r, Some (wrapf fmt args e)).

Definition validateRun (c : Command) : Go unit :=
  let* cancelled := ctx_err in
  match cancelled with
  | Some e => raise (wrapf "validating command context: command context is not runnable: %w" [] e)
  | None => wrap "validating command %q: %w" [cmd_Executable c] (lift (Command_validate c))
  end.

Definition applyExecutablePermissions (c : Command) (file : list string) : Go unit :=
  let* info := wrap "checking command executable %q: %w" [cmd_Executable c] (file_stat file) in
  if negb (IsRegular info) then raise (wrapf "command executable %q is not a regular file: %w" [cmd_Executable c] ErrPermission)
  else
    let permissions :=
      if bool_decide (cmd_RequiredPermissions c = 0) then cmd_Permissions c else Z.lor (Perm info) (cmd_RequiredPermissions c) in
    if bool_decide (Perm info = permissions) then ret tt
    else
      let* cancelled := ctx_err in
      match cancelled with
      | Some e => raise (wrapf "running command %q: %w" [cmd_Executable c] e)
      | None => wrap "setting permissions on %q: %w" [cmd_Executable c] (file_chmod file permissions)
      end.

Definition closeExecutable (c : Command) (file : list string) : Go unit :=
  wrap "closing command executable %q: %w" [cmd_Executable c] (file_close file).

Definition process_of (c : Command) (executable workingDirectory chroot : string) : process := {|
  pr_chroot := chroot;
  pr_executable := executable;
  pr_args := cmd_Executable c :: cmd_Arguments c;
  pr_dir := workingDirectory;
  pr_env := map (fun name => (name, default "" (cmd_Environment c !! name))) (sortedEnvironmentNames (cmd_Environment c));
  pr_stdout := cmd_Stdout c;
  pr_stderr := cmd_Stderr c
|}.

(** [pr_env] is what is set on top of the agent's own environment. *)
Definition executeCommand (c : Command) (executable workingDirectory chroot : string) : Go (Result * option error) :=
  let* cancelled := ctx_err in
  match cancelled with
  | Some e => failed "running command %q: %w" [cmd_Executable c] e no_result
  | None =>
      let* o := exec (process_of c executable workingDirectory chroot) in
      let result := match oc_state o with Some (code, signal) => {| ExitCode := code; Signal := signal |} | None => no_result end in
      match oc_err o with
      | None => ret (result, None)
      | Some (exited, runErr) =>
          let* cancelled := ctx_err in
          match cancelled with
          | Some e => failed "running command %q: %w" [cmd_Executable c] e result
          | None =>
              if exited then ret (result, None)
              else if negb (oc_started o) then failed "starting command %q: %w" [cmd_Executable c] runErr result
              else failed "waiting for command %q: %w" [cmd_Executable c] runErr result
          end
      end
  end.

(** Opening, changing and closing the executable. *)
Definition changePermissions (c : Command) (what : string) (open : Go (list string)) : Go unit :=
  if bool_decide (cmd_Permissions c = 0) && bool_decide (cmd_RequiredPermissions c = 0) then ret tt
  else
    let* file := wrap ("applying " +:+ what +:+ ": opening command executable %q: %w") [cmd_Executable c] open in
    let* permissionsErr := try (applyExecutablePermissions c file) in
    let* closeErr := try (closeExecutable c file) in
    when_err (errors_Join [permissionsErr; closeErr]) (wrapf ("applying " +:+ what +:+ ": %w") []) (ret tt).

Definition command_Run (c : Command) : Go (Result * option error) :=
  let* invalid := try (wrap "validating command execution: %w" [] (validateRun c)) in
  match invalid with
  | Some e => ret (no_result, Some e)
  | None =>
      let* refused := try (changePermissions c "command executable permissions" (os_open (cmd_Executable c))) in
      match refused with
      | Some e => ret (no_result, Some e)
      | None =>
          let* '(result, err) := executeCommand c (cmd_Executable c) (cmd_WorkingDirectory c) "" in
          ret (result, wrapf "executing command: %w" [] <$> err)
      end
  end.

(* ------------------------------------------------------------------ *)
(** ** chroot_command_runner.go *)

Record chrootSetup := { cs_root : list string; cs_rootPath : string; cs_executable : string; cs_workingDirectory : string }.

Definition chrootSetup_close (setup : chrootSetup) : Go unit := wrap "closing target root %q: %w" [cs_rootPath setup] close_root.

Fixpoint look_each (root : list string) (workingDirectory executable : string) (permissionErr : option error)
    (directories : list string) : Go string :=
  match directories with
  | [] =>
      match permissionErr with
      | Some e => raise e
      | None => raise (errorf "executable %q not found in PATH" [executable])
      end
  | directory :: directories =>
      let directory :=
        if bool_decide (directory = "") then workingDirectory
        else if negb (IsAbs directory) then Join [workingDirectory; directory] else directory in
      let candidate := Clean (Join [directory; executable]) in
      let relative := trim_prefix candidate "/" in
      let* found := attempt (root_lstat root relative) in
      match found with
      | Err e =>
          if errors_Is e ErrNotExist || errors_Is e ENOTDIR
          then look_each root workingDirectory executable permissionErr directories
          else raise (wrapf "checking executable candidate %q: %w" [candidate] e)
      | Ok info =>
          if IsSymlink info || IsRegular info && negb (bool_decide (Z.land (Perm info) 73 = 0)) then ret candidate
          else
            let permissionErr :=
              match permissionErr with
              | None => Some (wrapf "executable candidate %q is not executable: %w" [candidate] ErrPermission)
              | e => e
              end in
            look_each root workingDirectory executable permissionErr directories
      | Panic => lift Panic
      end
  end.

Definition lookPathInRoot (root : list string) (workingDirectory pathEnvironment executable : string) : Go string :=
  look_each root workingDirectory executable None (SplitList pathEnvironment).

(** An error closes the root again. *)
Definition prepareChroot (rootPath : string) (c : Command) : Go chrootSetup :=
  if bool_decide (rootPath = "") then raise (errorf "command chroot is empty" [])
  else if contains_char NUL rootPath then raise (errorf "command chroot contains a NUL byte" [])
  else if negb (IsAbs rootPath) then raise (errorf "chroot %q is not absolute" [rootPath])
  else
    let configuredRoot := rootPath in
    let* rootPath := wrap "resolving chroot %q: %w" [configuredRoot] (eval_links rootPath) in
    let* root := wrap "opening target root %q: %w" [rootPath] (open_root rootPath) in
    let workingDirectory := if bool_decide (cmd_WorkingDirectory c = "") then "/" else cmd_WorkingDirectory c in
    let setup executable :=
      {| cs_root := root; cs_rootPath := rootPath; cs_executable := executable; cs_workingDirectory := workingDirectory |} in
    on_error
      (if contains_char slash (cmd_Executable c) then ret (setup (cmd_Executable c))
       else
         let pathEnvironment := match cmd_Environment c !! "PATH" with Some v => v | None => Getenv "PATH" end in
         let* executable := wrap "resolving command executable: %w" []
           (lookPathInRoot root workingDirectory pathEnvironment (cmd_Executable c)) in
         ret (setup executable))
      (try (chrootSetup_close (setup (cmd_Executable c)))).

Definition chroot_Run (root : string) (c : Command) : Go (Result * option error) :=
  let* invalid := try (wrap "validating chroot command execution: %w" [] (validateRun c)) in
  match invalid with
  | Some e => ret (no_result, Some e)
  | None =>
      let* prepared := attempt (wrap "preparing chroot command execution: %w" [] (prepareChroot root c)) in
      match prepared with
      | Err e => ret (no_result, Some e)
      | Panic => lift Panic
      | Ok setup =>
          let* '(result, err) :=
            let* refused := try (changePermissions c "chroot command executable permissions"
              (root_open (cs_root setup) (trim_prefix (Clean (cmd_Executable c)) "/"))) in
            match refused with
            | Some e => ret (no_result, Some e)
            | None =>
                let* '(result, err) := executeCommand c (cs_executable setup) (cs_workingDirectory setup) (cs_rootPath setup) in
                ret (result, wrapf "executing chroot command: %w" [] <$> err)
            end in
          let* closed := try (chrootSetup_close setup) in
          ret (result, errors_Join [err; closed])
      end
  end.

(* ------------------------------------------------------------------ *)
(** ** runner.go *)

(** [NewRunner]: inside a root, or not. *)
Definition Runner := option string.

Definition Runner_Run (runner : Runner) (c : Command) : Go (Result * option error) :=
  match runner with Some root => chroot_Run root c | None => command_Run c end.

(* ------------------------------------------------------------------ *)
(** ** What is run *)

Definition result_of (o : outcome) : Result :=
  match oc_state o with Some (code, signal) => {| ExitCode := code; Signal := signal |} | None => no_result end.

(** [c] is run once, as a process that is told what [c] says, or not at all and
    then with an error; without an error the result is what the process left. *)
Definition run_once (c : Command) (l : list (process * outcome)) (r : res (Result * option error)) : Prop :=
  (l = [] /\ (r = Panic \/ exists e, r = Ok (no_result, Some e))) \/
  (exists executable workingDirectory chroot o err, l = [(process_of c executable workingDirectory chroot, o)] /\
    r = Ok (result_of o, err) /\ (err = None -> oc_state o = Some (ExitCode (result_of o), Signal (result_of o)))).

Lemma executeCommand_traced c executable workingDirectory chroot : traced (executeCommand c executable workingDirectory chroot) (run_once c).
Proof.
  apply traced_ctx. intros [e|]; [apply traced_ret; left; naive_solver|].
  eapply traced_bind; [apply traced_exec| |naive_solver..]. intros ? ? (o & -> & [= ->] & Ho).
  fold (result_of o). unfold ended in Ho.
  assert (forall err, (err = None -> oc_state o = Some (ExitCode (result_of o), Signal (result_of o))) ->
    traced (ret (result_of o, err)) (fun l' => run_once c ([(process_of c executable workingDirectory chroot, o)] ++ l'))) as Hr.
  { intros err He. apply traced_ret. right. rewrite app_nil_r. by repeat eexists. }
  destruct (oc_err o) as [[exited runErr]|].
  - apply traced_ctx. intros [e|]; [by apply Hr|]. destruct exited; [|by destruct (negb (oc_started o)); apply Hr].
    apply Hr. intros _. unfold result_of. destruct (Ho eq_refl) as [[code signal] ->]. done.
  - apply Hr. intros _. unfold result_of. by rewrite Ho.
Qed.

Lemma changePermissions_quiet c what open : steps (emits quiet) open -> steps (emits quiet) (changePermissions c what open).
Proof. intros Ho. walk assumption. Qed.

Lemma look_each_quiet root workingDirectory executable l : forall permissionErr,
  steps (emits quiet) (look_each root workingDirectory executable permissionErr l).
Proof. induction l as [|d l IH]; intros permissionErr; cbn [look_each]; walk ltac:(apply IH). Qed.

Lemma prepareChroot_quiet root c : steps (emits quiet) (prepareChroot root c).
Proof. walk ltac:(apply look_each_quiet). Qed.

(** A later error is added to what was returned. *)
Lemma run_once_more c l result err err' : (err' = None -> err = None) -> run_once c l (Ok (result, err)) -> run_once c l (Ok (result, err')).
Proof.
  intros He [[-> [?|[e [= -> ->]]]]|(executable & directory & chroot & o & err1 & -> & [= -> ->] & Ho)]; [done|left|right].
  - split; [done|]. right. destruct err' as [e'|]; [by eexists|]. by specialize (He eq_refl).
  - repeat eexists. auto.
Qed.

Lemma run_once_err c l e : ~ run_once c l (Err e).
Proof. intros [[_ [?|[? ?]]]|(? & ? & ? & ? & ? & _ & ? & _)]; done. Qed.

Lemma run_once_panic c : run_once c [] Panic.
Proof. left. by split; [|left]. Qed.

Lemma run_once_refused c r e : r = Ok (no_result, Some e) -> run_once c [] r.
Proof. intros ->. left. split; [done|]. right. by exists e. Qed.

(** An error of [executeCommand] is wrapped. *)
Lemma traced_execute c executable workingDirectory chroot fmt :
  traced (let* '(result, err) := executeCommand c executable workingDirectory chroot in ret (result, wrapf fmt [] <$> err)) (run_once c).
Proof.
  eapply traced_bind; [apply executeCommand_traced|..]; [|by intros l e ?%run_once_err|].
  - intros l [result err] H. apply traced_ret. rewrite app_nil_r. eapply run_once_more; [|exact H]. by destruct err.
  - done.
Qed.

Lemma command_Run_traced c : traced (command_Run c) (run_once c).
Proof.
  apply traced_try; [walk fail| |apply run_once_panic]. intros [e|]; [by eapply traced_ret, run_once_refused|].
  apply traced_try; [by apply changePermissions_quiet; walk fail| |apply run_once_panic].
  intros [e|]; [by eapply traced_ret, run_once_refused|]. apply traced_execute.
Qed.

Lemma chroot_Run_traced root c : traced (chroot_Run root c) (run_once c).
Proof.
  apply traced_try; [walk fail| |apply run_once_panic]. intros [e|]; [by eapply traced_ret, run_once_refused|].
  apply traced_attempt; [apply steps_wrap; [exact _|apply prepareChroot_quiet]| |apply run_once_panic].
  intros [setup|e|]; [|by eapply traced_ret, run_once_refused|by apply traced_panic, run_once_panic].
  eapply (traced_bind _ _ (run_once c)).
  - apply traced_try; [by apply changePermissions_quiet; walk fail| |apply run_once_panic].
    intros [e|]; [by eapply traced_ret, run_once_refused|]. apply traced_execute.
  - intros l [result err] H. apply traced_try_safe; [walk fail|by apply wrap_safe, query_safe|].
    intros closed. apply traced_ret. rewrite app_nil_r. eapply run_once_more; [|exact H]. by destruct err, closed.
  - by intros l e ?%run_once_err.
  - done.
Qed.

Lemma Runner_Run_traced runner c : traced (Runner_Run runner c) (run_once c).
Proof. destruct runner; [apply chroot_Run_traced|apply command_Run_traced]. Qed.

End Command.
