(* ===== verification/Step.v ===== *)
(** * Steps

    Models [agent/go/internal/step]: the two kinds of step, their wire form, the
    fingerprint that names their completion flag and how a step is run.

    The texts of the legacy agent write a printable character as it is; which
    characters beyond Latin-1 are printable is a table of [unicode], the
    parameter [Unicode].  A nil slice or map counts as an empty one: every
    method fills in the defaults first. *)

From S2P Require Import Prelude Effects Encoding Sha256 Json Paths Host HostFs Stages Command.

#[local] Open Scope Z_scope.
#[local] Open Scope go_scope.

Class Unicode := { unicode_printable : Z -> bool }.

(* ------------------------------------------------------------------ *)
(** ** idempotence.go *)

Definition Auto := "auto".
Definition Disabled := "disabled".

Definition Idempotence_Validate (i : string) : res unit :=
  if bool_decide (i = Auto) || bool_decide (i = Disabled) then Ok tt else Err (errorf "%s is not a valid idempotence value" [i]).

Definition Idempotence_MarshalJSON (i : string) : res json :=
  let! _ := rwrap "marshal idempotence: %w" [] (Idempotence_Validate i) in
  Ok (JBool (bool_decide (i = Disabled))).

Definition Idempotence_UnmarshalJSON (i : string) (data : json) : res string :=
  let! value := rwrap "unmarshal idempotence: %w" [] (d_pointer d_bool false None data) in
  match value with
  | None => Err (errorf "unmarshal idempotence: null is not a valid idempotence value" [])
  | Some value => Ok (if value : bool then Disabled else Auto)
  end.

(* ------------------------------------------------------------------ *)
(** ** The steps *)

(** The fields both kinds of step have. *)
Record StepFields := {
  st_Name : string;
  st_ScriptPath : string;
  st_Arguments : list string;
  st_Returncodes : list Z;
  st_OnHost : bool;
  st_IdempotenceMode : string;
  st_UpgradeStep : bool;
  st_Env : gmap string string;
  st_RequiresInterrupt : bool;
  st_versions : option (string * string)
}.

Inductive Step := RegularStep (f : StepFields) | UpgradeStep (f : StepFields).

Definition fields (s : Step) : StepFields := match s with RegularStep f | UpgradeStep f => f end.

Record ExecutionMetadata := { em_Arguments : list string; em_ReturnCodes : list Z; em_OnHost : bool }.

Definition applyDefaults (f : StepFields) : StepFields := {|
  st_Name := if bool_decide (st_Name f = "") then st_ScriptPath f else st_Name f;
  st_ScriptPath := st_ScriptPath f;
  st_Arguments := st_Arguments f;
  st_Returncodes := match st_Returncodes f with [] => [SuccessExitCode] | l => l end;
  st_OnHost := st_OnHost f;
  st_IdempotenceMode := if bool_decide (st_IdempotenceMode f = "") then Auto else st_IdempotenceMode f;
  st_UpgradeStep := st_UpgradeStep f;
  st_Env := st_Env f;
  st_RequiresInterrupt := st_RequiresInterrupt f;
  st_versions := st_versions f
|}.

Definition set_upgrade (b : bool) (f : StepFields) : StepFields := {|
  st_Name := st_Name f; st_ScriptPath := st_ScriptPath f; st_Arguments := st_Arguments f; st_Returncodes := st_Returncodes f;
  st_OnHost := st_OnHost f; st_IdempotenceMode := st_IdempotenceMode f; st_UpgradeStep := b; st_Env := st_Env f;
  st_RequiresInterrupt := st_RequiresInterrupt f; st_versions := st_versions f |}.

Definition set_versions (v : option (string * string)) (f : StepFields) : StepFields := {|
  st_Name := st_Name f; st_ScriptPath := st_ScriptPath f; st_Arguments := st_Arguments f; st_Returncodes := st_Returncodes f;
  st_OnHost := st_OnHost f; st_IdempotenceMode := st_IdempotenceMode f; st_UpgradeStep := st_UpgradeStep f; st_Env := st_Env f;
  st_RequiresInterrupt := st_RequiresInterrupt f; st_versions := v |}.

Definition set_on_host (b : bool) (f : StepFields) : StepFields := {|
  st_Name := st_Name f; st_ScriptPath := st_ScriptPath f; st_Arguments := st_Arguments f; st_Returncodes := st_Returncodes f;
  st_OnHost := b; st_IdempotenceMode := st_IdempotenceMode f; st_UpgradeStep := st_UpgradeStep f; st_Env := st_Env f;
  st_RequiresInterrupt := st_RequiresInterrupt f; st_versions := st_versions f |}.

Definition UpgradeStep_Validate (f : StepFields) : res unit :=
  match st_Arguments f with
  | [] => Ok tt
  | arguments => Err (errorf "UpgradeStep %s can not have any arguments, but found: %v" (st_Name f :: arguments))
  end.

(** The options and [newStepOptions]: they set what they are given, and the
    defaults fill in the rest. *)
Definition Option := StepFields -> StepFields.

Definition WithName (name : string) : Option := fun f => {|
  st_Name := name; st_ScriptPath := st_ScriptPath f; st_Arguments := st_Arguments f; st_Returncodes := st_Returncodes f;
  st_OnHost := st_OnHost f; st_IdempotenceMode := st_IdempotenceMode f; st_UpgradeStep := st_UpgradeStep f; st_Env := st_Env f;
  st_RequiresInterrupt := st_RequiresInterrupt f; st_versions := st_versions f |}.
Definition WithStepArguments (arguments : list string) : Option := fun f => {|
  st_Name := st_Name f; st_ScriptPath := st_ScriptPath f; st_Arguments := arguments; st_Returncodes := st_Returncodes f;
  st_OnHost := st_OnHost f; st_IdempotenceMode := st_IdempotenceMode f; st_UpgradeStep := st_UpgradeStep f; st_Env := st_Env f;
  st_RequiresInterrupt := st_RequiresInterrupt f; st_versions := st_versions f |}.
Definition WithReturncodes (returncodes : list Z) : Option := fun f => {|
  st_Name := st_Name f; st_ScriptPath := st_ScriptPath f; st_Arguments := st_Arguments f; st_Returncodes := returncodes;
  st_OnHost := st_OnHost f; st_IdempotenceMode := st_IdempotenceMode f; st_UpgradeStep := st_UpgradeStep f; st_Env := st_Env f;
  st_RequiresInterrupt := st_RequiresInterrupt f; st_versions := st_versions f |}.
Definition WithEnv (environment : gmap string string) : Option := fun f => {|
  st_Name := st_Name f; st_ScriptPath := st_ScriptPath f; st_Arguments := st_Arguments f; st_Returncodes := st_Returncodes f;
  st_OnHost := st_OnHost f; st_IdempotenceMode := st_IdempotenceMode f; st_UpgradeStep := st_UpgradeStep f; st_Env := environment;
  st_RequiresInterrupt := st_RequiresInterrupt f; st_versions := st_versions f |}.
Definition WithOnHost (onHost : bool) : Option := set_on_host onHost.
Definition WithIdempotence (idempotence : string) : Option := fun f => {|
  st_Name := st_Name f; st_ScriptPath := st_ScriptPath f; st_Arguments := st_Arguments f; st_Returncodes := st_Returncodes f;
  st_OnHost := st_OnHost f; st_IdempotenceMode := idempotence; st_UpgradeStep := st_UpgradeStep f; st_Env := st_Env f;
  st_RequiresInterrupt := st_RequiresInterrupt f; st_versions := st_versions f |}.
Definition WithRequiresInterrupt (requiresInterrupt : bool) : Option := fun f => {|
  st_Name := st_Name f; st_ScriptPath := st_ScriptPath f; st_Arguments := st_Arguments f; st_Returncodes := st_Returncodes f;
  st_OnHost := st_OnHost f; st_IdempotenceMode := st_IdempotenceMode f; st_UpgradeStep := st_UpgradeStep f; st_Env := st_Env f;
  st_RequiresInterrupt := requiresInterrupt; st_versions := st_versions f |}.

Definition newStepOptions (path : string) (opts : list Option) : StepFields :=
  applyDefaults (fold_left (fun f (o : Option) => o f) opts
    {| st_Name := ""; st_ScriptPath := path; st_Arguments := []; st_Returncodes := []; st_OnHost := true; st_IdempotenceMode := "";
       st_UpgradeStep := false; st_Env := ∅; st_RequiresInterrupt := false; st_versions := None |}).

Definition NewRegularStep (path : string) (opts : list Option) : Step := RegularStep (newStepOptions path opts).

Definition NewUpgradeStep (path : string) (opts : list Option) : res Step :=
  let value := set_upgrade true (newStepOptions path opts) in
  let! _ := rwrap "NewUpgradeStep: %w" [] (UpgradeStep_Validate value) in
  Ok (UpgradeStep value).

(* ------------------------------------------------------------------ *)
(** ** The interface [Step] *)

Definition Path (s : Step) : string := st_ScriptPath (fields s).
Definition Idempotence (s : Step) : string := st_IdempotenceMode (fields s).

Definition WithVersions (previous current : string) (s : Step) : Step :=
  match s with
  | RegularStep f => RegularStep (set_versions (Some (previous, current)) f)
  | UpgradeStep f => UpgradeStep (set_versions (Some (previous, current)) f)
  end.

Definition newExecutionMetadata (arguments : list string) (returnCodes : list Z) (onHost : bool) : ExecutionMetadata :=
  {| em_Arguments := arguments; em_ReturnCodes := returnCodes; em_OnHost := onHost |}.

Definition ExecutionMetadata_of (s : Step) : ExecutionMetadata :=
  match s with
  | RegularStep f => let f := applyDefaults f in newExecutionMetadata (st_Arguments f) (st_Returncodes f) (st_OnHost f)
  | UpgradeStep f =>
      let f := applyDefaults f in
      let arguments := match st_versions f with Some (previous, current) => [previous; current] | None => st_Arguments f end in
      newExecutionMetadata arguments (st_Returncodes f) (st_OnHost f)
  end.

(* ------------------------------------------------------------------ *)
(** ** Texts of the legacy agent *)

Fixpoint hex_width (n : nat) (z : Z) : string :=
  match n with O => "" | S n => hex_width n (Z.shiftr z 4) +:+ String (hex_digit z) "" end.

Section Texts.
Context `{Unicode}.

(** [unicode.IsPrint]; the table is asked beyond Latin-1 only. *)
Definition IsPrint (r : Z) : bool :=
  if bool_decide (r < 256) then bool_decide (32 <= r <= 126) || bool_decide (161 <= r <= 255) && negb (bool_decide (r = 173))
  else unicode_printable r.

Definition formatLegacyRune (quote r : Z) : string :=
  if bool_decide (r = 92) then "\\"
  else if bool_decide (r = quote) then "\" +:+ encode_rune r
  else if bool_decide (r = 9) then "\t"
  else if bool_decide (r = 10) then "\n"
  else if bool_decide (r = 13) then "\r"
  else if IsPrint r then encode_rune r
  else if bool_decide (r <= 255) then "\x" +:+ hex_width 2 r
  else if bool_decide (r <= 65535) then "\u" +:+ hex_width 4 r
  else "\U" +:+ hex_width 8 r.

Definition single_quote : Z := 39.
Definition double_quote : Z := 34.

Definition formatLegacyString (value : string) : string :=
  let quote := if contains_char "'"%char value && negb (contains_char "034"%char value) then double_quote else single_quote in
  encode_rune quote +:+ String.concat "" (map (formatLegacyRune quote) (runes value)) +:+ encode_rune quote.

Definition FormatLegacyArguments (values : list string) : string := "[" +:+ join ", " (map formatLegacyString values) +:+ "]".

End Texts.

Definition FormatLegacyReturnCodes (values : list Z) : string := "[" +:+ join ", " (map show_int values) +:+ "]".

(* ------------------------------------------------------------------ *)
(** ** Fingerprints *)

(** What a step's completion flag depends on. *)
Definition fingerprint_payload (path : string) (arguments : list string) (returncodes : list Z) (environment : gmap string string)
    (onHost : bool) : json :=
  JObject [("path", JString path); ("arguments", JArray (map JString arguments));
           ("returnCodes", JArray (map (fun z => JNumber (show_int z)) returncodes)); ("env", e_map JString environment);
           ("onHost", JBool onHost)].

(** These values always marshal. *)
Definition stepFingerprint `{JSON} (path : string) (arguments : list string) (returncodes : list Z) (environment : gmap string string)
    (onHost : bool) : string :=
  EncodeToString (Sum256 (json_print (fingerprint_payload path arguments returncodes environment onHost))).

Definition Fingerprint `{JSON} (s : Step) : string :=
  let f := fields s in stepFingerprint (st_ScriptPath f) (st_Arguments f) (st_Returncodes f) (st_Env f) (st_OnHost f).

(* ------------------------------------------------------------------ *)
(** ** The wire form *)

Definition step_json (f : StepFields) (idempotence : json) : json :=
  JObject ([("name", JString (st_Name f)); ("path", JString (st_ScriptPath f)); ("arguments", JArray (map JString (st_Arguments f)));
            ("returncodes", JArray (map (fun z => JNumber (show_int z)) (st_Returncodes f))); ("on_host", JBool (st_OnHost f));
            ("idempotence", idempotence); ("upgrade_step", JBool (st_UpgradeStep f))] ++
           (if bool_decide (st_Env f = ∅) then [] else [("env", e_map JString (st_Env f))]) ++
           (if st_RequiresInterrupt f then [("requires_interrupt", JBool true)] else [])).

Definition encodeStep (f : StepFields) : res json :=
  let! _ := rwrap "validate idempotence: %w" [] (Idempotence_Validate (st_IdempotenceMode f)) in
  let! idempotence := rwrap "marshal step: %w" [] (Idempotence_MarshalJSON (st_IdempotenceMode f)) in
  Ok (step_json f idempotence).

(** [Encode] returns the text of this document. *)
Definition Encode (s : Step) : res json :=
  match s with
  | RegularStep f => encodeStep (set_upgrade false (applyDefaults f))
  | UpgradeStep f =>
      let! _ := rwrap "upgrade step validation failed: %w" [] (UpgradeStep_Validate f) in
      encodeStep (set_upgrade true (applyDefaults f))
  end.

(** [json.Unmarshal] into a step. *)
Definition unmarshal_fields (o : list (string * json)) : res StepFields :=
  let! name := field d_string "" "name" o in
  let! path := field d_string "" "path" o in
  let! arguments := field (d_slice d_string "") [] "arguments" o in
  let! returncodes := field (d_slice d_int 0) [] "returncodes" o in
  let! on_host := field d_bool false "on_host" o in
  let! idempotence := field Idempotence_UnmarshalJSON "" "idempotence" o in
  let! upgrade_step := field d_bool false "upgrade_step" o in
  let! env := field (d_map d_string "") ∅ "env" o in
  let! requires_interrupt := field d_bool false "requires_interrupt" o in
  Ok {| st_Name := name; st_ScriptPath := path; st_Arguments := arguments; st_Returncodes := returncodes; st_OnHost := on_host;
        st_IdempotenceMode := idempotence; st_UpgradeStep := upgrade_step; st_Env := env; st_RequiresInterrupt := requires_interrupt;
        st_versions := None |}.

Definition Decode (data : json) : res Step :=
  let! '(upgradeStep, onHost) := rwrap "decode step: %w" []
    (let! o := struct_of data in
     let! upgradeStep := field d_bool false "upgrade_step" o in
     let! onHost := field (d_pointer d_bool false) None "on_host" o in
     Ok (upgradeStep, onHost)) in
  let set_host f := if bool_decide (onHost = None) then set_on_host true f else f in
  if upgradeStep : bool then
    let! u := rwrap "decode upgrade step: %w" [] (rbind (struct_of data) unmarshal_fields) in
    let u := applyDefaults (set_host u) in
    let! _ := rwrap "upgrade step validation failed: %w" [] (UpgradeStep_Validate u) in
    Ok (UpgradeStep u)
  else
    let! regular := rwrap "decode step: %w" [] (rbind (struct_of data) unmarshal_fields) in
    Ok (RegularStep (applyDefaults (set_host regular))).

(* ------------------------------------------------------------------ *)
(** ** Running a step *)

Section Run.
Context `{W : World}.

(** The arguments with the variables they name, and the variables that are not
    set, each once. *)
Definition resolveArguments (configured : list string) : list string * list string :=
  fold_left (fun '(arguments, missing) argument =>
    match cut_prefix argument "env:" with
    | None => (arguments ++ [argument], missing)
    | Some name =>
        match LookupEnv name with
        | None => (arguments ++ [argument], if bool_decide (name ∈ missing) then missing else missing ++ [name])
        | Some value => (arguments ++ [value], missing)
        end
    end) configured ([], []).

(** The command of a step: inside the root of the host, or on the paths where the
    agent sees it. *)
Definition step_command (config : Run.Config) (path : string) (arguments : list string) (onHost : bool)
    (environment : gmap string string) (versions : option (string * string)) : res (Runner * Command) :=
  let! '(runner, stepRoot, skyhookDir) :=
    if onHost then Ok (Some (Run.rootMount config), Run.stepRoot config, Run.skyhookDir config)
    else
      let! stepRoot := rwrap "running step %q: resolving mounted step root: %w" [path]
        (HostPathToMounted (Run.rootMount config) (Run.stepRoot config)) in
      let! skyhookDir := rwrap "running step %q: resolving mounted package directory: %w" [path]
        (HostPathToMounted (Run.rootMount config) (Run.skyhookDir config)) in
      Ok (None, stepRoot, skyhookDir) in
  let environment :=
    match versions with
    | Some (previous, current) => <["CURRENT_VERSION" := current]> (<["PREVIOUS_VERSION" := previous]> environment)
    | None => environment
    end in
  let environment := <["SKYHOOK_DIR" := skyhookDir]> (<["STEP_ROOT" := stepRoot]> environment) in
  Ok (runner, NewCommand (Join [stepRoot; path])
    [WithArguments arguments; WithWorkingDirectory skyhookDir; WithEnvironment environment; WithStdout (Run.stdout config);
     WithStderr (Run.stderr config); WithRequiredPermissions 73]).

(** An error comes with [StatusFailed]. *)
Definition runStep (config : Run.Config) (path : string) (arguments : list string) (returncodes : list Z) (onHost : bool)
    (environment : gmap string string) (versions : option (string * string)) : Go Status :=
  let* cancelled := ctx_err in
  when_err cancelled (wrapf "running step %q: %w" [path])
    (let* _ := wrap "running step %q: invalid run config: %w" [path] (lift (Run.Validate config)) in
     if negb (IsLocal path) then raise (errorf "running step: path %q must be relative to the step root" [path])
     else
       let '(resolvedArguments, missing) := resolveArguments arguments in
       if negb (bool_decide (missing = []))
       then raise (errorf "running step %q: expected environment variables do not exist: %s" [path; join ", " missing])
       else
         let* '(runner, cmd) := lift (step_command config path resolvedArguments onHost environment versions) in
         let* '(result, err) := Runner_Run runner cmd in
         when_err err (wrapf "running step %q command: %w" [path])
           (if negb (bool_decide (Signal result = None)) || negb (bool_decide (ExitCode result ∈ returncodes))
            then ret StatusFailed else ret StatusSuccess)).

Definition Step_Run (config : Run.Config) (s : Step) : Go Status :=
  match s with
  | RegularStep f =>
      let f := applyDefaults f in
      runStep config (st_ScriptPath f) (st_Arguments f) (st_Returncodes f) (st_OnHost f) (st_Env f) (st_versions f)
  | UpgradeStep f =>
      let* _ := wrap "upgrade step validation failed: %w" [] (lift (UpgradeStep_Validate f)) in
      match st_versions f with
      | None => raise (errorf "running upgrade step: versions were not provided" [])
      | Some (previous, current) =>
          if bool_decide (previous = "") then raise (errorf "running upgrade step: previous version must not be empty" [])
          else if bool_decide (current = "") then raise (errorf "running upgrade step: current version must not be empty" [])
          else
            let f := applyDefaults f in
            runStep config (st_ScriptPath f) [previous; current] (st_Returncodes f) (st_OnHost f) (st_Env f) (st_versions f)
      end
  end.

End Run.

(* ------------------------------------------------------------------ *)
(** ** A step is written as it is read *)

Lemma applyDefaults_idemp f : applyDefaults (applyDefaults f) = applyDefaults f.
Proof.
  unfold applyDefaults; simpl. f_equal; try (by destruct (st_Returncodes f)).
  - destruct (decide (st_Name f = "")) as [H|H]; [rewrite (bool_decide_eq_true_2 (st_Name f = "")) by done; by case_bool_decide|].
    by rewrite !(bool_decide_eq_false_2 (st_Name f = "")) by done.
  - destruct (decide (st_IdempotenceMode f = "")) as [H|H]; [by rewrite (bool_decide_eq_true_2 (st_IdempotenceMode f = ""))|].
    by rewrite !(bool_decide_eq_false_2 (st_IdempotenceMode f = "")).
Qed.

Lemma members_of_cons k v o name : members_of ((k, v) :: o) name = if same_key k name then v :: members_of o name else members_of o name.
Proof. unfold members_of. cbn [List.filter fst]. by destruct (same_key k name). Qed.

(** The members after the seven that are always there. *)
Definition optional_members (f : StepFields) : list (string * json) :=
  (if bool_decide (st_Env f = ∅) then [] else [("env", e_map JString (st_Env f))]) ++
  (if st_RequiresInterrupt f then [("requires_interrupt", JBool true)] else []).

Lemma optional_others f name : same_key "env" name = false -> same_key "requires_interrupt" name = false ->
  members_of (optional_members f) name = [].
Proof.
  intros H1 H2. unfold optional_members. destruct (bool_decide (st_Env f = ∅)), (st_RequiresInterrupt f); cbn [app];
    by rewrite ?members_of_cons, ?H1, ?H2.
Qed.

Lemma optional_env f : field (d_map d_string "") ∅ "env" (optional_members f) = Ok (st_Env f).
Proof.
  unfold field, optional_members. case_bool_decide as He.
  - rewrite He. by destruct (st_RequiresInterrupt f).
  - cbn [app]. rewrite members_of_cons. change (same_key "env" "env") with true. cbn iota.
    replace (members_of (if st_RequiresInterrupt f then [("requires_interrupt", JBool true)] else []) "env") with ([] : list json)
      by by destruct (st_RequiresInterrupt f).
    cbn [rfold]. rewrite d_map_e_map; [done|]. done.
Qed.

Lemma optional_interrupt f : field d_bool false "requires_interrupt" (optional_members f) = Ok (st_RequiresInterrupt f).
Proof. unfold field, optional_members. by destruct (bool_decide (st_Env f = ∅)), (st_RequiresInterrupt f). Qed.

Ltac read_member :=
  repeat (rewrite members_of_cons;
          match goal with |- context [same_key ?a ?b] => let v := eval vm_compute in (same_key a b) in change (same_key a b) with v end;
          cbn iota).

Lemma unmarshal_step_json f mode : Forall int64 (st_Returncodes f) -> Idempotence_UnmarshalJSON "" mode = Ok (st_IdempotenceMode f) ->
  exists o, step_json f mode = JObject o /\ unmarshal_fields o = Ok (set_versions None f) /\
    field d_bool false "upgrade_step" o = Ok (st_UpgradeStep f) /\ field (d_pointer d_bool false) None "on_host" o = Ok (Some (st_OnHost f)).
Proof.
  intros Hr Hm. eexists. split; [reflexivity|]. change (?l ++ (if bool_decide (st_Env f = ∅) then [] else ?a) ++ ?b) with (l ++ optional_members f).
  cbn [app].
  assert (forall {A : Type} (dec : A -> json -> res A) zero name, field dec zero name (optional_members f) =
    rfold dec zero (members_of (optional_members f) name)) as Hfold by done.
  pose proof (optional_env f) as He. pose proof (optional_interrupt f) as Hi. rewrite Hfold in He, Hi.
  split_and!; unfold unmarshal_fields, field; read_member; rewrite ?optional_others by reflexivity; cbn [rfold rbind d_string d_bool]; try done.
  rewrite d_strings. cbn [rbind]. rewrite d_ints by done. cbn [rbind]. rewrite Hm. cbn [rbind]. rewrite He. cbn [rbind]. rewrite Hi. done.
Qed.

Lemma Idempotence_round_trip i j : Idempotence_MarshalJSON i = Ok j -> Idempotence_UnmarshalJSON "" j = Ok i.
Proof.
  unfold Idempotence_MarshalJSON, Idempotence_Validate. destruct (decide (i = Auto)) as [->|H1]; [by intros [= <-]|].
  destruct (decide (i = Disabled)) as [->|H2]; [by intros [= <-]|]. by rewrite !bool_decide_eq_false_2.
Qed.

(** What a step reads as: the defaults are filled in, its versions are lost. *)
Definition canonical (s : Step) : Step :=
  match s with
  | RegularStep f => RegularStep (set_versions None (set_upgrade false (applyDefaults f)))
  | UpgradeStep f => UpgradeStep (set_versions None (set_upgrade true (applyDefaults f)))
  end.

Lemma Decode_step_json f : Forall int64 (st_Returncodes f) -> forall j, encodeStep f = Ok j -> applyDefaults f = f ->
  (st_UpgradeStep f = true -> st_Arguments f = []) ->
  Decode j = Ok ((if st_UpgradeStep f then UpgradeStep else RegularStep) (set_versions None f)).
Proof.
  intros Hr j Hj Hd Hu. unfold encodeStep in Hj. apply rbind_unit_ok in Hj as [_ Hj].
  apply rbind_ok in Hj as (mode & Hm & [= <-]). apply rwrap_ok in Hm. apply Idempotence_round_trip in Hm.
  destruct (unmarshal_step_json f mode Hr Hm) as (o & -> & Ho & Hup & Hhost). unfold Decode. cbn [struct_of rbind].
  rewrite Hup. cbn [rbind]. rewrite Hhost. cbn [rbind rwrap]. rewrite Ho. cbn [rwrap rbind].
  rewrite (bool_decide_eq_false_2 (Some (st_OnHost f) = None)) by done.
  assert (applyDefaults (set_versions None f) = set_versions None f) as Hd'.
  { transitivity (set_versions None (applyDefaults f)); [done|by rewrite Hd]. }
  rewrite Hd'. destruct (st_UpgradeStep f); [|done]. unfold UpgradeStep_Validate. simpl. by rewrite Hu.
Qed.

Lemma Step_decoded s j : Encode s = Ok j -> Forall int64 (st_Returncodes (fields s)) -> Decode j = Ok (canonical s).
Proof.
  assert (forall f, Forall int64 (st_Returncodes f) -> Forall int64 (st_Returncodes (applyDefaults f))) as Hr.
  { intros f Hf. simpl. destruct (st_Returncodes f); [by repeat constructor|done]. }
  assert (forall b f, applyDefaults (set_upgrade b (applyDefaults f)) = set_upgrade b (applyDefaults f)) as Hd.
  { intros b f. transitivity (set_upgrade b (applyDefaults (applyDefaults f))); [done|by rewrite applyDefaults_idemp]. }
  destruct s as [f|f]; cbn [Encode fields canonical]; intros Hj Hf.
  - by rewrite (Decode_step_json (set_upgrade false (applyDefaults f)) (Hr f Hf) j Hj (Hd false f)).
  - apply rbind_unit_ok in Hj as [Hv Hj]. apply rwrap_ok in Hv. unfold UpgradeStep_Validate in Hv.
    rewrite (Decode_step_json (set_upgrade true (applyDefaults f)) (Hr f Hf) j Hj (Hd true f)); [done|]. intros _. simpl. by destruct (st_Arguments f).
Qed.

(* ------------------------------------------------------------------ *)
(** ** Fingerprints tell steps apart *)

Definition texts_valid (s : Step) : Prop :=
  let f := fields s in
  valid_utf8 (st_ScriptPath f) = true /\ Forall (fun a => valid_utf8 a = true) (st_Arguments f) /\ Forall int64 (st_Returncodes f) /\
  map_Forall (fun k v => valid_utf8 k = true /\ valid_utf8 v = true) (st_Env f).

Lemma forallb_map_valid l : Forall (fun a => valid_utf8 a = true) l -> forallb json_valid (map JString l) = true.
Proof. induction 1 as [|a l Ha _ IH]; [done|]. simpl. by rewrite Ha, IH. Qed.

Lemma forallb_map_ints l : Forall int64 l -> forallb json_valid (map (fun z => JNumber (show_int z)) l) = true.
Proof. induction 1 as [|a l Ha _ IH]; [done|]. cbn [map forallb json_valid]. by rewrite integer_literal_show, IH. Qed.

Definition payload_of (s : Step) : json :=
  let f := fields s in fingerprint_payload (st_ScriptPath f) (st_Arguments f) (st_Returncodes f) (st_Env f) (st_OnHost f).

Lemma payload_valid s : texts_valid s -> json_valid (payload_of s) = true.
Proof.
  intros (H1 & H2 & H3 & H4). unfold payload_of, fingerprint_payload. cbn [json_valid forallb fst snd].
  rewrite H1, forallb_map_valid, forallb_map_ints by done. cbn [andb]. by rewrite e_map_valid.
Qed.

(** C22: the fingerprint of a step is the SHA-256 of a text that is the same for two
    steps just if they run the same script with the same arguments, accepted
    codes, environment and place: but for a collision, steps that differ in one
    of these have different completion flags, and the versions, the name and the
    idempotence of a step do not matter. *)
Theorem fingerprint_inputs `{JSON} s t : texts_valid s -> texts_valid t ->
  Fingerprint s = EncodeToString (Sum256 (json_print (payload_of s))) /\
  (json_print (payload_of s) = json_print (payload_of t) <->
   st_ScriptPath (fields s) = st_ScriptPath (fields t) /\ st_Arguments (fields s) = st_Arguments (fields t) /\
   st_Returncodes (fields s) = st_Returncodes (fields t) /\ st_Env (fields s) = st_Env (fields t) /\
   st_OnHost (fields s) = st_OnHost (fields t)).
Proof.
  intros Hs Ht. split; [done|]. split.
  - intros Ep. apply json_print_inj in Ep; [|by apply payload_valid..]. injection Ep as E1 E2 E3 E4 E5. split_and!; [done|..|done].
    + apply (f_equal (fun l => d_slice d_string "" [] (JArray l))) in E2. rewrite !d_strings in E2. by injection E2.
    + apply (f_equal (fun l => d_slice d_int 0 [] (JArray l))) in E3. rewrite !d_ints in E3 by (by destruct Hs as (? & ? & ? & _), Ht as (? & ? & ? & _)).
      by injection E3.
    + assert (e_map JString (st_Env (fields s)) = e_map JString (st_Env (fields t))) as E by (unfold e_map; by rewrite E4).
      apply (f_equal (d_map d_string "" ∅)) in E. rewrite !d_map_e_map in E by done. by injection E.
  - intros (H1 & H2 & H3 & H4 & H5). unfold payload_of. by rewrite H1, H2, H3, H4, H5.
Qed.

Lemma fingerprint_inputs_witness :
  let step env := RegularStep {| st_Name := ""; st_ScriptPath := "a.sh"; st_Arguments := ["x"]; st_Returncodes := [3]; st_OnHost := false;
    st_IdempotenceMode := Disabled; st_UpgradeStep := false; st_Env := {[ "A" := env ]}; st_RequiresInterrupt := true; st_versions := None |} in
  @json_print sample_JSON (payload_of (step "1")) <> @json_print sample_JSON (payload_of (step "2")).
Proof.
  intros step. assert (forall env, valid_utf8 env = true -> texts_valid (step env)) as Hv.
  { intros env He. unfold texts_valid, step. cbn [fields st_ScriptPath st_Arguments st_Returncodes st_Env].
    split_and!; [reflexivity|repeat constructor|repeat constructor; done|]. apply map_Forall_singleton. by split. }
  intros E. destruct (@fingerprint_inputs sample_JSON (step "1") (step "2") (Hv "1" eq_refl) (Hv "2" eq_refl)) as [_ [H _]].
  destruct (H E) as (_ & _ & _ & He & _). cbn [fields step st_Env] in He. apply (f_equal (lookup "A")) in He.
  rewrite !lookup_singleton_eq in He. discriminate.
Defined.

(* ------------------------------------------------------------------ *)
(** ** What a step runs *)

Definition accepted (returncodes : list Z) (o : outcome) : Prop := exists code, oc_state o = Some (code, None) /\ code ∈ returncodes.

Definition accepted_codes (s : Step) : list Z := st_Returncodes (applyDefaults (fields s)).

Section Runs.
Context `{W : World}.

(** The process of a step: its script with its arguments, those that name a
    variable replaced by its value. *)
Definition script_of (path : string) (arguments : list string) (p : process) : Prop :=
  exists root, pr_args p = Join [root; path] :: (resolveArguments arguments).1.

(** A step runs at most its script, once; success is one run that exited with an
    accepted code. *)
Definition step_trace (path : string) (arguments : list string) (returncodes : list Z) (l : list (process * outcome)) (r : res Status) : Prop :=
  (l = [] \/ exists p o, l = [(p, o)] /\ script_of path arguments p) /\
  (r = Ok StatusSuccess -> exists p o, l = [(p, o)] /\ script_of path arguments p /\ accepted returncodes o).

Lemma step_trace_none path arguments returncodes r : r <> Ok StatusSuccess -> step_trace path arguments returncodes [] r.
Proof. intros Hr. split; [by left|done]. Qed.

Lemma step_command_args config path arguments onHost environment versions runner cmd :
  step_command config path arguments onHost environment versions = Ok (runner, cmd) ->
  exists root, cmd_Executable cmd :: cmd_Arguments cmd = Join [root; path] :: arguments.
Proof. unfold step_command. rewrite rbind_ok. intros ([[runner' root] directory] & _ & [= <- <-]). by exists root. Qed.

Lemma runStep_traced config path arguments returncodes onHost environment versions :
  traced (runStep config path arguments returncodes onHost environment versions) (step_trace path arguments returncodes).
Proof.
  assert (forall e, traced (raise e) (step_trace path arguments returncodes)) as Hraise by (intros e; by apply traced_raise, step_trace_none).
  apply traced_ctx. intros [e|]; [apply Hraise|]. cbn [when_err].
  apply traced_bind_quiet; [walk fail|intros _|intros e; by apply step_trace_none|by apply step_trace_none].
  destruct (negb (IsLocal path)); [apply Hraise|]. destruct (resolveArguments arguments) as [resolved missing] eqn:Ea.
  destruct (negb (bool_decide (missing = []))); [apply Hraise|].
  destruct (step_command config path resolved onHost environment versions) as [[runner cmd]|e|] eqn:Ec;
    [|by apply traced_raise, step_trace_none|by apply traced_panic, step_trace_none].
  assert (forall executable directory chroot, script_of path arguments (process_of cmd executable directory chroot)) as Hs.
  { intros. apply step_command_args in Ec as [root Hr]. exists root. by rewrite Ea. }
  apply (traced_bind (lift (Ok (runner, cmd))) _ (fun l r => l = [] /\ r = Ok (runner, cmd))); [by apply traced_ret| |naive_solver..].
  intros ? ? (-> & [= ->]).
  eapply traced_bind; [apply Runner_Run_traced|..]; [|by intros l e ?%run_once_err|
    intros l [[-> _]|(? & ? & ? & ? & ? & _ & ? & _)]; [by apply step_trace_none|done]].
  intros l [result err] [[-> [?|[e [= -> ->]]]]|(executable & directory & chroot & o & err1 & -> & [= -> ->] & Ho)];
    [done|by apply traced_raise, step_trace_none|].
  specialize (Hs executable directory chroot).
  assert (forall r, r <> Ok StatusSuccess -> step_trace path arguments returncodes [(process_of cmd executable directory chroot, o)] r) as Hone.
  { intros r Hr. split; [right; by eexists _, _|done]. }
  destruct err1 as [e|]; [by apply traced_raise, Hone|]. cbn [when_err]. specialize (Ho eq_refl).
  destruct (negb (bool_decide (Signal (result_of o) = None)) || negb (bool_decide (ExitCode (result_of o) ∈ returncodes))) eqn:Eb;
    [by apply traced_ret, Hone|]. apply orb_false_iff in Eb as [E1 E2]. rewrite !negb_false_iff, !bool_decide_eq_true in *.
  apply traced_ret. split; [right; by eexists _, _|]. intros _. eexists _, _. split_and!; [done|done|]. rewrite E1 in Ho. by exists (ExitCode (result_of o)).
Qed.

(** An upgrade step gets the versions in place of its arguments. *)
Definition run_arguments (s : Step) : list string :=
  match s with
  | RegularStep f => st_Arguments f
  | UpgradeStep f => match st_versions f with Some (previous, current) => [previous; current] | None => [] end
  end.

Lemma Step_Run_traced config s : traced (Step_Run config s) (step_trace (Path s) (run_arguments s) (accepted_codes s)).
Proof.
  destruct s as [f|f]; [apply runStep_traced|]. unfold Step_Run, run_arguments.
  apply traced_bind_quiet; [walk fail|intros _|intros e; by apply step_trace_none|by apply step_trace_none].
  destruct (st_versions f) as [[previous current]|]; [|by apply traced_raise, step_trace_none].
  case_bool_decide; [by apply traced_raise, step_trace_none|]. case_bool_decide; [by apply traced_raise, step_trace_none|].
  apply runStep_traced.
Qed.

End Runs.
