(* ===== verification/PackageConfig.v ===== *)
(** * Package configurations

    Models [agent/go/internal/config], [schema] and [version]: the document a
    package is described by, its wire form, the rules over its stages, and
    loading and dumping it.

    The check of a document against its JSON schema is code of a library,
    [jsonschema_validate] of the parameter [JSONSchema].  A step without its
    check is a warning; which are warned about is [missing_check_pairs]. *)

From S2P Require Import Prelude Effects Encoding Sha256 Json Paths Host HostFs Stages Command Step.

#[local] Open Scope Z_scope.
#[local] Open Scope go_scope.

(* ------------------------------------------------------------------ *)
(** ** schema.go, version.go *)

Module Schema.

Definition V1 := "v1".
Definition Latest := "latest".
Definition knownConcreteVersions : list string := [V1].

Definition parseVersionNumber (v : string) : res Z := Atoi (trim_prefix (to_lower v) "v").

Definition Compare (a b : string) : res Z :=
  if bool_decide (a = b) then Ok 0
  else if bool_decide (b = Latest) then Ok (-1)
  else if bool_decide (a = Latest) then Ok 1
  else
    let! aNum := rwrap "comparing schema versions %q and %q: %w" [a; b] (parseVersionNumber a) in
    let! bNum := rwrap "comparing schema versions %q and %q: %w" [a; b] (parseVersionNumber b) in
    Ok (if aNum <? bNum then -1 else if bNum <? aNum then 1 else 0).

Definition Highest : res string :=
  match knownConcreteVersions with
  | [] => Panic
  | v :: rest =>
      rfold (fun highest v =>
        let! cmp := rwrap "computing highest schema version: %w" [] (Compare v highest) in
        Ok (if 0 <? cmp then v else highest)) v rest
  end.

Definition LatestFrom (values : list string) : res string :=
  let! best := rfold (fun best value =>
    if bool_decide (value = Latest) then Ok best
    else match best with
    | None => Ok (Some value)
    | Some b =>
        let! cmp := rwrap "selecting latest schema version: %w" [] (Compare value b) in
        Ok (Some (if 0 <? cmp then value else b))
    end) None values in
  match best with Some b => Ok b | None => Err (errorf "no concrete schema versions in input" []) end.

Definition ParseSchemaVersion (value : string) : res string :=
  let normalized := to_lower (TrimSpace value) in
  if bool_decide (normalized = Latest) then Ok normalized
  else
    let! n := rwrap "invalid schema version %q: %w" [value] (parseVersionNumber normalized) in
    if n <? 1 then Err (errorf "invalid schema version %q: must be >= v1" [value])
    else Ok ("v" +:+ show_int n).

Example schema_examples :
  (map ParseSchemaVersion ["v01"; " V1 "; "2"; "LATEST"], map (fun v => is_err (ParseSchemaVersion v)) ["v0"; "v"; "vv1"; "-1"],
   Highest, Compare "v2" "v10", LatestFrom ["v2"; "latest"; "v10"; "v3"]) =
  ([Ok "v1"; Ok "v1"; Ok "v2"; Ok "latest"], [true; true; true; true], Ok "v1", Ok (-1), Ok "v10").
Proof. vm_compute. reflexivity. Qed.

End Schema.

(** [Version] and [GitSHA] are set when the agent is built. *)
Definition GetVersion (Version GitSHA : string) : string :=
  if negb (bool_decide (Version = "")) then Version else if negb (bool_decide (GitSHA = "")) then GitSHA else "unknown".

(* ------------------------------------------------------------------ *)
(** ** config.go *)

Record PackageConfig := {
  pc_SchemaVersion : string;
  pc_RootDir : string;
  pc_ExpectedConfigFiles : list string;
  pc_PackageName : string;
  pc_PackageVersion : string;
  pc_Modes : gmap string (list Step)
}.

Section Config.
Context `{MR : MapRange}.

Definition steps_of (modes : gmap string (list Step)) (st : string) : list Step := default [] (modes !! st).

Definition Config_MarshalJSON (c : PackageConfig) : res json :=
  let! modes := rfold (fun modes '(st, steps) =>
    let! encoded := each (fun '(i, s) => rwrap "encoding step %d in stage %q: %w" [show_int i; st] (Encode s)) (imap (fun i s => (Z.of_nat i, s)) steps) in
    Ok (<[st := encoded]> modes)) (∅ : gmap string (list json)) (range (pc_Modes c)) in
  Ok (JObject [("schema_version", JString (pc_SchemaVersion c)); ("root_dir", JString (pc_RootDir c));
               ("expected_config_files", JArray (map JString (pc_ExpectedConfigFiles c))); ("package_name", JString (pc_PackageName c));
               ("package_version", JString (pc_PackageVersion c)); ("modes", e_map JArray modes)]).

(** A raw message is kept as it is. *)
Definition d_raw (old : json) (j : json) : res json := Ok j.

Definition Config_UnmarshalJSON (data : json) : res PackageConfig :=
  let! o := struct_of data in
  let! schema_version := field d_string "" "schema_version" o in
  let! root_dir := field d_string "" "root_dir" o in
  let! expected := field (d_slice d_string "") [] "expected_config_files" o in
  let! package_name := field d_string "" "package_name" o in
  let! package_version := field d_string "" "package_version" o in
  let! raw := field (d_map (d_slice d_raw JNull) []) ∅ "modes" o in
  let! modes := rfold (fun modes '(rawStage, rawSteps) =>
    let! st := rwrap "config modes: %w" [] (Stage.ParseStage rawStage) in
    let! steps := each (fun '(i, raw) => rwrap "decoding step %d in stage %q: %w" [show_int i; st] (Decode raw)) (imap (fun i r => (Z.of_nat i, r)) rawSteps) in
    Ok (<[st := steps]> modes)) (∅ : gmap string (list Step)) (range raw) in
  Ok {| pc_SchemaVersion := schema_version; pc_RootDir := root_dir; pc_ExpectedConfigFiles := expected;
        pc_PackageName := package_name; pc_PackageVersion := package_version; pc_Modes := modes |}.

(* ------------------------------------------------------------------ *)
(** ** validate.go: the rules *)

Definition requireDefinedSteps (modes : gmap string (list Step)) : res unit :=
  if any (fun kv => negb (bool_decide (kv.2 = [] :> list Step))) (range modes) then Ok tt else Err (errorf "there are no defined steps" []).

Definition has_steps (modes : gmap string (list Step)) (st : string) : bool := match steps_of modes st with [] => false | _ => true end.

Definition requireNonCheckStage (modes : gmap string (list Step)) : res unit :=
  if any (fun kv => has_steps modes kv.1) (range Stage.ApplyToCheck) then Ok tt
  else Err (errorf "there are only check stages defined; define at least one of: %s"
    [join ", " (sort_strings (range Stage.ApplyToCheck).*1)]).

Definition requireApplyChecks (modes : gmap string (list Step)) : res unit :=
  rforall (fun '(applyStage, checkStage) =>
    if has_steps modes applyStage && negb (has_steps modes checkStage)
    then Err (errorf "stage %q has steps but no corresponding %q checks" [applyStage; checkStage]) else Ok tt)
    (range Stage.ApplyToCheck).

Definition requireUpgradeStepPlacement (modes : gmap string (list Step)) : res unit :=
  rforall (fun '(st, list) =>
    rforall (fun s =>
      match s with
      | RegularStep _ => Ok tt
      | UpgradeStep u =>
          if negb (bool_decide (st = Stage.Upgrade)) && negb (bool_decide (st = Stage.UpgradeCheck))
          then Err (errorf "UpgradeStep %q is defined in stage %q but may only appear in %q or %q"
            [st_ScriptPath u; st; Stage.Upgrade; Stage.UpgradeCheck])
          else UpgradeStep_Validate u
      end) list) (range modes).

Definition modeRules : list (gmap string (list Step) -> res unit) :=
  [requireDefinedSteps; requireNonCheckStage; requireUpgradeStepPlacement; requireApplyChecks].

Definition checkModeRules (modes : gmap string (list Step)) : res unit := rforall (fun rule => rule modes) modeRules.

Definition dot : ascii := "."%char.

Definition expectedCheckName (p : string) : string :=
  let '(dir, base) := Split p in
  match cut_at_last dot base with
  | None => dir +:+ base +:+ "_check"
  | Some (name, ext) =>
      if bool_decide (ext = "") then dir +:+ name +:+ "_check" else dir +:+ name +:+ "_check." +:+ ext
  end.

Example expectedCheckName_examples :
  map expectedCheckName ["foo.sh"; "foo"; "dir.v1/foo"; "a.b.sh"; "foo."; ".x"] =
  ["foo_check.sh"; "foo_check"; "dir.v1/foo_check"; "a.b_check.sh"; "foo_check"; "_check.x"].
Proof. reflexivity. Qed.

(** The steps [warnMissingCheckPairs] warns about, with their stage and the
    check that is missing. *)
Definition missing_check_pairs (modes : gmap string (list Step)) : list (string * string * string) :=
  flat_map (fun '(st, list) =>
    match Stage.ApplyToCheck !! st with
    | None => []
    | Some checkStage =>
        let checkPaths := map Path (steps_of modes checkStage) in
        omap (fun s =>
          let expected := expectedCheckName (Path s) in
          if bool_decide (expected ∈ checkPaths) then None else Some (Path s, st, expected)) list
    end) (range modes).

Section Load.
Context `{W : World}.

Definition checkStepFilesExist (modes : gmap string (list Step)) (rootDir : string) : Go unit :=
  let* missing := loop (fun missing '(_, list) =>
    loop (fun missing s =>
      let rel := Path s in
      if negb (IsLocal rel) then raise (errorf "step path %q must be relative to and contained within the package root" [rel])
      else
        let* found := attempt (os_stat (Join [rootDir; rel])) in
        match found with
        | Ok _ => ret missing
        | Err e =>
            if errors_Is e ErrNotExist then ret (missing ++ [rel])
            else raise (wrapf "checking step %q under %q: %w" [rel; rootDir] e)
        | Panic => lift Panic
        end) missing list) [] (range modes) in
  if negb (bool_decide (missing = [])) then raise (errorf "the following steps do not exist: %s" [join ", " (sort_strings missing)])
  else ret tt.

Definition validateModes (modes : gmap string (list Step)) (rootDir : string) : Go unit :=
  let* _ := lift (checkModeRules modes) in
  checkStepFilesExist modes rootDir.

End Load.

(* ------------------------------------------------------------------ *)
(** ** Loading and dumping *)

(** The library that checks a document against the embedded schema of a version. *)
Class JSONSchema := { jsonschema_validate : string -> json -> res unit }.

(** The versions whose schemas are embedded. *)
Definition embedded_versions : list string := ["v1"].

Section Loader.
Context `{J : JSON} `{S : JSONSchema}.

Definition embeddedValidator_Validate (data : string) (v : string) : res unit :=
  if negb (bool_decide (v ∈ embedded_versions)) then Err (errorf "unknown schema version %q" [v])
  else
    let! doc := rwrap "parsing config json: %w" [] (json_parse data) in
    rwrap "config failed schema validation: %w" [] (jsonschema_validate v doc).

Definition schemaVersionOf (data : string) : res string :=
  let! version := rwrap "parsing config json: %w" []
    (let! j := json_parse data in let! o := struct_of j in field d_string "" "schema_version" o) in
  if bool_decide (version = "") then Err (errorf "config is missing required field schema_version" []) else Ok version.

Definition set_schema_version (v : string) (c : PackageConfig) : PackageConfig := {|
  pc_SchemaVersion := v; pc_RootDir := pc_RootDir c; pc_ExpectedConfigFiles := pc_ExpectedConfigFiles c;
  pc_PackageName := pc_PackageName c; pc_PackageVersion := pc_PackageVersion c; pc_Modes := pc_Modes c |}.

(** [Load] up to the rules over its stages. *)
Definition parse_config (data : string) : res PackageConfig :=
  let! version := schemaVersionOf data in
  let! _ := embeddedValidator_Validate data version in
  let! cfg := rwrap "parsing config json: %w" [] (rbind (json_parse data) Config_UnmarshalJSON) in
  Ok (set_schema_version version cfg).

Definition Load `{W : World} (data stepRootDir : string) : Go PackageConfig :=
  let* cfg := lift (parse_config data) in
  let* _ := wrap "validating steps: %w" [] (validateModes (pc_Modes cfg) stepRootDir) in
  ret cfg.

Definition Dump (packageName packageVersion rootDir : string) (modes : gmap string (list Step)) (expectedConfigFiles : list string) : res string :=
  let! latest := rwrap "resolving latest schema version: %w" [] Schema.Highest in
  let! _ := rforall (fun '(st, _) => let! _ := rwrap "dumping config: %w" [] (Stage.ParseStage st) in Ok tt) (range modes) in
  let! _ := rwrap "dumping config: %w" [] (checkModeRules modes) in
  let! data := rwrap "marshaling config: %w" [] (Config_MarshalJSON
    {| pc_SchemaVersion := latest; pc_RootDir := rootDir; pc_ExpectedConfigFiles := expectedConfigFiles;
       pc_PackageName := packageName; pc_PackageVersion := packageVersion; pc_Modes := modes |}) in
  let data := json_print data in
  let! _ := rwrap "dump produced invalid config: %w" [] (embeddedValidator_Validate data latest) in
  Ok data.

End Loader.
End Config.

(* ------------------------------------------------------------------ *)
(** ** The rules, whatever the order of the maps *)

Definition rules_hold (modes : gmap string (list Step)) : Prop :=
  (exists st c, Stage.ApplyToCheck !! st = Some c /\ steps_of modes st <> []) /\
  (forall st f, UpgradeStep f ∈ steps_of modes st -> (st = Stage.Upgrade \/ st = Stage.UpgradeCheck) /\ st_Arguments f = []) /\
  (forall st c, Stage.ApplyToCheck !! st = Some c -> steps_of modes st <> [] -> steps_of modes c <> []).

Section Rules.
Context `{MR : MapRange}.

Lemma has_steps_spec modes st : has_steps modes st = true <-> steps_of modes st <> [].
Proof. unfold has_steps. by destruct (steps_of modes st). Qed.

Lemma UpgradeStep_Validate_ok f : UpgradeStep_Validate f = Ok tt <-> st_Arguments f = [].
Proof. unfold UpgradeStep_Validate. by destruct (st_Arguments f). Qed.

Lemma elem_of_steps_of (modes : gmap string (list Step)) st s : s ∈ steps_of modes st <-> exists l, modes !! st = Some l /\ s ∈ l.
Proof.
  unfold steps_of. destruct (modes !! st) as [l|]; simpl; [naive_solver|]. rewrite elem_of_nil. naive_solver.
Qed.

Lemma requireNonCheckStage_ok modes : requireNonCheckStage modes = Ok tt <-> exists st c, Stage.ApplyToCheck !! st = Some c /\ steps_of modes st <> [].
Proof.
  unfold requireNonCheckStage. destruct (any _ _) eqn:E.
  - split; [intros _|done]. apply any_true in E as ([st c] & Hr%elem_of_range & Hs%has_steps_spec). by exists st, c.
  - split; [done|]. intros (st & c & Hr & Hs). rewrite any_false in E. apply elem_of_range in Hr. specialize (E _ Hr).
    apply has_steps_spec in Hs. simpl in E. congruence.
Qed.

Lemma requireDefinedSteps_ok modes : requireDefinedSteps modes = Ok tt <-> exists st, steps_of modes st <> [].
Proof.
  unfold requireDefinedSteps. destruct (any _ _) eqn:E.
  - split; [intros _|done]. apply any_true in E as ([st l] & Hr%elem_of_range & Hs). exists st. unfold steps_of. rewrite Hr.
    apply negb_true_iff, bool_decide_eq_false in Hs. exact Hs.
  - split; [done|]. intros (st & Hs). unfold steps_of in Hs. destruct (modes !! st) as [l|] eqn:El; [|done]. rewrite any_false in E.
    apply elem_of_range in El. specialize (E _ El). apply negb_false_iff, bool_decide_eq_true in E. done.
Qed.

Lemma requireApplyChecks_ok modes : requireApplyChecks modes = Ok tt <->
  forall st c, Stage.ApplyToCheck !! st = Some c -> steps_of modes st <> [] -> steps_of modes c <> [].
Proof.
  unfold requireApplyChecks. rewrite rforall_ok, List.Forall_forall. split.
  - intros H st c Hr Hs. apply elem_of_range, list_elem_of_In in Hr. specialize (H _ Hr). simpl in H.
    apply has_steps_spec in Hs. rewrite Hs in H. simpl in H. destruct (has_steps modes c) eqn:E; [by apply has_steps_spec|done].
  - intros H [st c] Hr%list_elem_of_In%elem_of_range. destruct (has_steps modes st) eqn:E; [|done].
    apply has_steps_spec in E. specialize (H _ _ Hr E). apply has_steps_spec in H. by rewrite H.
Qed.

Lemma requireUpgradeStepPlacement_ok modes : requireUpgradeStepPlacement modes = Ok tt <->
  forall st f, UpgradeStep f ∈ steps_of modes st -> (st = Stage.Upgrade \/ st = Stage.UpgradeCheck) /\ st_Arguments f = [].
Proof.
  unfold requireUpgradeStepPlacement. rewrite rforall_ok, List.Forall_forall. split.
  - intros H st f (l & Hl & Hf)%elem_of_steps_of. apply elem_of_range, list_elem_of_In in Hl. specialize (H _ Hl). simpl in H.
    rewrite rforall_ok, List.Forall_forall in H. apply list_elem_of_In in Hf. specialize (H _ Hf). simpl in H.
    repeat case_bool_decide; simpl in H; try done; apply UpgradeStep_Validate_ok in H; auto.
  - intros H [st l] Hl%list_elem_of_In%elem_of_range. rewrite rforall_ok, List.Forall_forall.
    intros [f|f] Hf%list_elem_of_In; [done|]. destruct (H st f) as [Hst Ha]; [apply elem_of_steps_of; eauto|].
    apply UpgradeStep_Validate_ok in Ha. rewrite Ha. by destruct Hst as [-> | ->].
Qed.

Lemma checkModeRules_ok modes : checkModeRules modes = Ok tt <-> rules_hold modes.
Proof.
  unfold checkModeRules, modeRules, rules_hold. cbn [rforall]. rewrite !rbind_unit_ok.
  rewrite requireDefinedSteps_ok, requireNonCheckStage_ok, requireUpgradeStepPlacement_ok, requireApplyChecks_ok.
  split; [tauto|]. intros (H1 & H2 & H3). split_and!; try done. destruct H1 as (st & c & _ & Hs). by exists st.
Qed.

(* ------------------------------------------------------------------ *)
(** ** The wire form *)

(** [m'] has what [f] makes of the entries of [m]. *)
Definition matches {V T : Type} (f : string -> V -> res T) (m : gmap string V) (m' : gmap string T) : Prop :=
  forall k, match m !! k with Some v => exists w, f k v = Ok w /\ m' !! k = Some w | None => m' !! k = None end.

Lemma rfold_rebuild {V T : Type} (f : string -> V -> res T) l : forall (acc m' : gmap string T), NoDup l.*1 ->
  rfold (fun acc '(k, v) => let! w := f k v in Ok (<[k := w]> acc)) acc l = Ok m' <->
  forall k, match (list_to_map l : gmap string V) !! k with Some v => exists w, f k v = Ok w /\ m' !! k = Some w | None => m' !! k = acc !! k end.
Proof.
  induction l as [|[k v] l IH]; intros acc m' Hn.
  - cbn [rfold list_to_map foldr]. split; [by intros [= ->]|]. intros H. f_equal. symmetry. by apply map_eq.
  - cbn [fmap list_fmap] in Hn. apply NoDup_cons in Hn as [Hk Hn]. cbn [rfold]. rewrite rbind_ok. change (list_to_map ((k, v) :: l) : gmap string V) with (<[k := v]> (list_to_map l : gmap string V)). split.
    + intros (acc' & Hf & H). apply rbind_ok in Hf as (w & Hw & [= <-]). pose proof (proj1 (IH _ _ Hn) H) as Hall. clear H. intros k'. specialize (Hall k') as H.
      destruct (decide (k' = k)) as [->|Hne].
      * rewrite lookup_insert_eq. exists w. split; [done|]. rewrite (not_elem_of_list_to_map_1 (M := gmap string) l k Hk) in H. by rewrite lookup_insert_eq in H.
      * rewrite lookup_insert_ne by done.
        destruct (list_to_map l !! k') as [v'|]; [done|]. by rewrite lookup_insert_ne in H.
    + intros H. pose proof (H k) as Hkk. rewrite lookup_insert_eq in Hkk. destruct Hkk as (w & Hw & Hm). exists (<[k := w]> acc). rewrite Hw. split; [done|].
      apply (proj2 (IH _ _ Hn)). intros k'. specialize (H k'). destruct (decide (k' = k)) as [->|Hne].
      * rewrite (not_elem_of_list_to_map_1 (M := gmap string) l k Hk). by rewrite lookup_insert_eq.
      * rewrite lookup_insert_ne in H by done. destruct (list_to_map l !! k') as [v'|]; [done|]. by rewrite lookup_insert_ne.
Qed.

Lemma rebuild_range {V T : Type} (f : string -> V -> res T) (m : gmap string V) (m' : gmap string T) :
  rfold (fun acc '(k, v) => let! w := f k v in Ok (<[k := w]> acc)) ∅ (range m) = Ok m' <-> matches f m m'.
Proof.
  rewrite rfold_rebuild by apply NoDup_range.
  assert ((list_to_map (range m) : gmap string V) = m) as Hl.
  { transitivity (list_to_map (map_to_list m) : gmap string V); [|apply list_to_map_to_list].
    apply list_to_map_proper; [apply NoDup_range|apply range_Permutation]. }
  rewrite Hl. unfold matches. split; intros H k; specialize (H k); destruct (m !! k); try done; rewrite lookup_empty in *; done.
Qed.

(* ------------------------------------------------------------------ *)
(** ** A configuration is written as it is read *)

(** What a configuration reads as. *)
Definition canonical_config (c : PackageConfig) : PackageConfig := {|
  pc_SchemaVersion := pc_SchemaVersion c; pc_RootDir := pc_RootDir c; pc_ExpectedConfigFiles := pc_ExpectedConfigFiles c;
  pc_PackageName := pc_PackageName c; pc_PackageVersion := pc_PackageVersion c; pc_Modes := map canonical <$> pc_Modes c |}.

Definition codes_fit (modes : gmap string (list Step)) : Prop :=
  forall st s, s ∈ steps_of modes st -> Forall int64 (st_Returncodes (fields s)).

Lemma each_imap {A B : Type} (f : A -> res B) fmt st (l : list A) (l' : list B) : forall n,
  each (fun '(i, a) => rwrap fmt [show_int i; st] (f a)) (imap (fun i a => (Z.of_nat (n + i), a)) l) = Ok l' <-> each f l = Ok l'.
Proof.
  revert l'; induction l as [|a l IH]; intros l' n; [done|]. cbn [imap each]. rewrite !rbind_ok. setoid_rewrite rwrap_ok.
  assert (imap ((fun i a => (Z.of_nat (n + i), a)) ∘ S) l = imap (fun i a => (Z.of_nat (S n + i), a)) l) as ->.
  { apply imap_ext. intros i x _. simpl. do 2 f_equal. lia. }
  split; intros (b & Hb & H); exists b; (split; [done|]); rewrite rbind_ok in *; destruct H as (l2 & Hl & [= <-]); exists l2; (split; [|done]);
    by apply (IH l2 (S n)).
Qed.

Lemma each_encode_decode l js : each Encode l = Ok js -> (forall s, s ∈ l -> Forall int64 (st_Returncodes (fields s))) ->
  each Decode js = Ok (map canonical l).
Proof.
  revert js; induction l as [|s l IH]; intros js; cbn [each]; [by intros [= <-]|].
  rewrite rbind_ok. intros (j & Hj & H). rewrite rbind_ok in H. destruct H as (js' & Hl & [= <-]). intros Hc. cbn [each map].
  destruct (Decode j) eqn:E; rewrite (Step_decoded s j Hj (Hc s ltac:(by left))) in E; try done. injection E as <-. cbn [rbind].
  rewrite (IH js' Hl); [done|]. intros s' Hs'. apply Hc. by right.
Qed.

Lemma raw_slices (modes : gmap string (list json)) : d_map (d_slice d_raw JNull) [] ∅ (e_map JArray modes) = Ok modes.
Proof.
  apply d_map_e_map. intros k l _. cbn [d_slice]. rewrite <- (map_id l) at 1. by apply each_map.
Qed.

Definition decode_stage (st : string) (rawSteps : list json) : res (list Step) :=
  let! st := rwrap "config modes: %w" [] (Stage.ParseStage st) in
  each (fun '(i, raw) => rwrap "decoding step %d in stage %q: %w" [show_int i; st] (Decode raw)) (imap (fun i r => (Z.of_nat i, r)) rawSteps).

Lemma rfold_ext {S A : Type} (f g : S -> A -> res S) l : (forall s a, a ∈ l -> f s a = g s a) -> forall s, rfold f s l = rfold g s l.
Proof.
  induction l as [|a l IH]; intros H s; [done|]. cbn [rfold]. rewrite (H s a) by (by left). destruct (g s a); [|done..].
  apply IH. intros s' a' Ha. apply H. by right.
Qed.

Lemma decoded_modes (raw : gmap string (list json)) (modes : gmap string (list Step)) :
  rfold (fun (modes : gmap string (list Step)) '(rawStage, rawSteps) =>
    let! st := rwrap "config modes: %w" [] (Stage.ParseStage rawStage) in
    let! steps := each (fun '(i, raw) => rwrap "decoding step %d in stage %q: %w" [show_int i; st] (Decode raw)) (imap (fun i r => (Z.of_nat i, r)) rawSteps) in
    Ok (<[st := steps]> modes)) ∅ (range raw) = Ok modes <-> matches decode_stage raw modes.
Proof.
  rewrite <- rebuild_range. erewrite rfold_ext; [reflexivity|]. intros acc [st l] _. unfold decode_stage.
  destruct (Stage.ParseStage st) as [st'|e|] eqn:E; try done. apply Stage.ParseStage_ok in E as [-> _]. cbn [rwrap rbind]. by destruct (each _ _).
Qed.

Lemma Config_decoded c j : Config_MarshalJSON c = Ok j -> (forall st, is_Some (pc_Modes c !! st) -> st ∈ Stage.All) -> codes_fit (pc_Modes c) ->
  Config_UnmarshalJSON j = Ok (canonical_config c).
Proof.
  unfold Config_MarshalJSON. rewrite rbind_ok. intros (modes & Hm & [= <-]) Hst Hc.
  apply (rebuild_range (fun st steps => each (fun '(i, s) => rwrap "encoding step %d in stage %q: %w" [show_int i; st] (Encode s))
    (imap (fun i s => (Z.of_nat i, s)) steps))) in Hm.
  unfold Config_UnmarshalJSON. cbn [struct_of rbind]. unfold field. read_member. cbn [members_of List.filter map rfold rbind d_string].
  rewrite d_strings. cbn [rbind rfold]. rewrite raw_slices. cbn [rbind].
  rewrite (proj2 (decoded_modes modes (map canonical <$> pc_Modes c))); [done|].
  intros st. specialize (Hm st). rewrite lookup_fmap. destruct (pc_Modes c !! st) as [l|] eqn:El; [|by rewrite Hm].
  destruct Hm as (js & Hjs & ->). exists (map canonical l). split; [|done]. apply (each_imap Encode _ st l js 0) in Hjs.
  unfold decode_stage. rewrite (proj2 (Stage.ParseStage_ok st st)) by (split; [done|apply Hst; by rewrite El]). cbn [rwrap rbind].
  apply (each_imap Decode _ st js (map canonical l) 0). apply each_encode_decode; [done|].
  intros s Hs. apply (Hc st). apply elem_of_steps_of. by exists l.
Qed.

(* ------------------------------------------------------------------ *)
(** ** What is dumped can be loaded *)

Lemma steps_of_canonical modes st : steps_of (map canonical <$> modes) st = map canonical (steps_of modes st).
Proof. unfold steps_of. rewrite lookup_fmap. by destruct (modes !! st). Qed.

Lemma rules_canonical modes : rules_hold modes -> rules_hold (map canonical <$> modes).
Proof.
  assert (forall st, steps_of (map canonical <$> modes) st <> [] <-> steps_of modes st <> []) as He.
  { intros st. rewrite steps_of_canonical. by destruct (steps_of modes st). }
  intros (H1 & H2 & H3). unfold rules_hold. setoid_rewrite He. split_and!; [done| |done].
  intros st f Hf. rewrite steps_of_canonical in Hf. apply list_elem_of_In, in_map_iff in Hf as ([g|g] & Hg & Hin); [done|].
  injection Hg as <-. apply list_elem_of_In in Hin. by apply (H2 st g).
Qed.

Lemma Config_json_version c j : Config_MarshalJSON c = Ok j -> pc_SchemaVersion c <> "" ->
  (let! o := struct_of j in field d_string "" "schema_version" o) = Ok (pc_SchemaVersion c).
Proof.
  unfold Config_MarshalJSON. rewrite rbind_ok. intros (modes & _ & [= <-]) Hv. cbn [struct_of rbind]. unfold field. by read_member.
Qed.

End Rules.

(** C27: a document that [Dump] produces is one that [Load] accepts: whatever the
    orders of the maps, loading it gives the configuration that was dumped, with
    its steps' defaults filled in, and can fail only over the step files of the
    package. *)
Theorem Dump_loads `{MR : MapRange} `{J : JSON} `{S : JSONSchema} `{W : World} name version root modes expected data stepRoot :
  Dump name version root modes expected = Ok data -> codes_fit modes ->
  let c := {| pc_SchemaVersion := "v1"; pc_RootDir := root; pc_ExpectedConfigFiles := expected; pc_PackageName := name;
              pc_PackageVersion := version; pc_Modes := modes |} in
  (forall j, Config_MarshalJSON c = Ok j -> json_valid j = true) ->
  forall s, Load data stepRoot s =
    bind (wrap "validating steps: %w" [] (checkStepFilesExist (pc_Modes (canonical_config c)) stepRoot)) (fun _ => ret (canonical_config c)) s.
Proof.
  intros Hd Hc c Hv s. unfold Dump in Hd. change Schema.Highest with (Ok "v1") in Hd. cbn [rwrap rbind] in Hd.
  apply rbind_unit_ok in Hd as [Hst Hd]. apply rbind_unit_ok in Hd as [Hr Hd]. apply rwrap_ok in Hr. apply checkModeRules_ok in Hr.
  apply rbind_ok in Hd as (j & Hj & Hd). apply rwrap_ok in Hj. fold c in Hj. cbv zeta in Hd. apply rbind_unit_ok in Hd as [Hval [= <-]].
  apply rwrap_ok in Hval. pose proof (json_round_trip j (Hv j Hj)) as Hp.
  assert (parse_config (json_print j) = Ok (canonical_config c)) as Hparse.
  { unfold parse_config, schemaVersionOf. rewrite Hp. cbn [rbind]. rewrite (Config_json_version c j Hj) by done. cbn [rwrap rbind].
    rewrite bool_decide_eq_false_2 by done. cbn [rbind pc_SchemaVersion c]. rewrite Hval. cbn [rbind].
    rewrite (Config_decoded c j Hj); [done| |done]. intros st [l Hl]. rewrite rforall_ok, List.Forall_forall in Hst.
    apply elem_of_range, list_elem_of_In in Hl. specialize (Hst _ Hl). simpl in Hst. destruct (Stage.ParseStage st) eqn:E; [|done..]. by apply Stage.ParseStage_ok in E as [_ ?]. }
  unfold Load. rewrite Hparse. unfold bind at 1, lift at 1. unfold validateModes, bind, wrap, lift.
  rewrite (proj2 (checkModeRules_ok _)) by by apply rules_canonical. done.
Qed.

Definition sample_schema : JSONSchema := {| jsonschema_validate _ _ := Ok tt |}.

Definition sample_modes : gmap string (list Step) :=
  {[ Stage.Apply := [NewRegularStep "a.sh" []]; Stage.ApplyCheck := [NewRegularStep "a_check.sh" []] ]}.

Definition sample_steps : pass event disk := {| trace := []; mem := <[["steps"; "a.sh"] := File "" 493]>
  (<[["steps"; "a_check.sh"] := File "" 493]> (<[["steps"] := Directory 493]> (<[[] := Directory 493]> ∅))) |}.

Lemma Dump_loads_witness :
  let J := sample_JSON in let S := sample_schema in let W := quiet_world in
  exists data, Dump "p" "1.0.0" "/" sample_modes [] = Ok data /\
    (Load data "/steps" sample_steps).2 =
    Ok (canonical_config {| pc_SchemaVersion := "v1"; pc_RootDir := "/"; pc_ExpectedConfigFiles := []; pc_PackageName := "p";
      pc_PackageVersion := "1.0.0"; pc_Modes := sample_modes |}).
Proof.
  intros J S W. destruct (Dump "p" "1.0.0" "/" sample_modes []) as [data| |] eqn:E; [|by vm_compute in E..].
  exists data. split; [done|]. rewrite (Dump_loads "p" "1.0.0" "/" sample_modes [] data "/steps" E).
  - vm_compute. reflexivity.
  - intros st s Hs. apply elem_of_steps_of in Hs as (l & Hl & Hin). unfold sample_modes in Hl.
    apply lookup_insert_Some in Hl as [[<- <-]|[_ Hl]]; [|apply lookup_singleton_Some in Hl as [<- <-]];
      apply list_elem_of_singleton in Hin as ->; by repeat constructor.
  - intros j Hj. vm_compute in Hj. injection Hj as <-. vm_compute. reflexivity.
Defined.

(* ------------------------------------------------------------------ *)
(** ** What is loaded obeys the rules *)

Section Loaded.
Context `{MR : MapRange} `{W : World}.

(** The path of the step leads down from the root as it is written, and something
    is there when links are followed: a file, a directory, or what a link
    points to, inside the root or not. *)
Definition step_present (d : disk) (rootDir : string) (s : Step) : Prop :=
  IsLocal (Path s) = true /\ exists i, stat_at d (located d true (Join [rootDir; Path s])) = Ok i.

Lemma checkStepFilesExist_spec modes rootDir d0 : hoare (fun d => d = d0) (checkStepFilesExist modes rootDir)
  (fun _ d => d = d0 /\ forall st s, s ∈ steps_of modes st -> step_present d0 rootDir s) (fun _ d => d = d0).
Proof.
  set (I := fun (steps : list Step) (missing : list string) (d : disk) =>
    d = d0 /\ (missing = [] -> Forall (step_present d0 rootDir) steps)).
  unfold checkStepFilesExist. eapply (hoare_bind _ _ _ (fun missing => I (flat_map snd (range modes)) missing)).
  - apply hoare_conseq with (P := I [] []) (Q := I (flat_map snd (range modes))) (X := fun _ d => d = d0); [|by intros d ->; split|done..].
    apply (hoare_loop (fun before => I (flat_map snd before))). intros before [st l] after acc _.
    rewrite flat_map_app. cbn [flat_map snd]. rewrite app_nil_r.
    apply hoare_conseq with (P := I (flat_map snd before ++ []) acc) (Q := I (flat_map snd before ++ l)) (X := fun _ d => d = d0); [|by rewrite app_nil_r|done..].
    apply (hoare_loop (fun inner => I (flat_map snd before ++ inner))). intros inner s rest missing _. cbv zeta.
    apply hoare_if; intros Hl; [apply hoare_raise; by intros d [-> _]|]. apply negb_false_iff in Hl.
    apply hoare_known. intros Hi.
    eapply (hoare_bind _ _ _ (fun found d => d = d0 /\ (forall i, found = Ok i -> stat_at d0 (located d0 true (Join [rootDir; Path s])) = Ok i) /\ found <> Panic)).
    + eapply hoare_post; [apply (hoare_attempt _ _ (fun i d => d = d0 /\ stat_at d0 (located d0 true (Join [rootDir; Path s])) = Ok i) (fun _ d => d = d0) (fun _ d => d = d0))| |done].
      * apply hoare_query; [|by intros d e ->]. intros d ->. pose proof (located_total d0 true (Join [rootDir; Path s])).
        destruct (located d0 true (Join [rootDir; Path s])) as [q|e|]; simpl; [by destruct (d0 !! q)|done..].
      * intros [i|e|] d; simpl; [intros [-> Hs]; by split_and!; [|intros ? [= <-]|]|intros ->; by split_and!|done].
    + intros [i|e|].
      * apply hoare_ret. intros d (-> & Hs & _). split; [done|]. intros Hm. rewrite app_assoc. apply Forall_app. split; [by apply Hi|].
        constructor; [|constructor]. split; [done|]. exists i. by apply Hs.
      * destruct (errors_Is e ErrNotExist); [|by apply hoare_raise; intros d [-> _]]. apply hoare_ret. intros d (-> & _). split; [done|].
        intros Hm. by destruct missing.
      * apply hoare_false. by intros d (_ & _ & ?).
  - intros missing. case_bool_decide as Hm; simpl.
    + apply hoare_ret. intros d [-> Hi]. split; [done|]. intros st s (l & Hl & Hs)%elem_of_steps_of. apply elem_of_range in Hl.
      eapply List.Forall_forall; [exact (Hi Hm)|]. apply in_flat_map. exists (st, l). by rewrite <- !list_elem_of_In.
    + apply hoare_raise. by intros d [-> _].
Qed.

Lemma parse_config_stages `{J : JSON} `{S : JSONSchema} data cfg : parse_config data = Ok cfg -> forall st, is_Some (pc_Modes cfg !! st) -> st ∈ Stage.All.
Proof.
  unfold parse_config. rewrite rbind_ok. intros (version & _ & H). apply rbind_unit_ok in H as [_ H]. apply rbind_ok in H as (c & Hc & [= <-]).
  apply rwrap_ok, rbind_ok in Hc as (j & _ & Hc). simpl. unfold Config_UnmarshalJSON in Hc.
  do 7 (apply rbind_ok in Hc as (? & _ & Hc)). apply rbind_ok in Hc as (modes & Hm & [= <-]). simpl.
  apply decoded_modes in Hm. intros st [l Hl]. specialize (Hm st). destruct (_ !! st) as [raw|]; [|congruence].
  destruct Hm as (w & Hw & _). unfold decode_stage in Hw. destruct (Stage.ParseStage st) eqn:E; [|done..]. by apply Stage.ParseStage_ok in E as [_ ?].
Qed.

(** C26: a configuration that is loaded has work to do, checks what it applies,
    upgrades with steps that take no arguments and only in the stages for it,
    and knows its stages; the path of every step leads down from the root of the
    package as it is written, and something is there, links being followed;
    loading changes nothing on the disk.  That a step is a file, and that it
    resolves inside the root, is not checked: see [steps_lead_out]. *)
Theorem Load_valid `{J : JSON} `{S : JSONSchema} data stepRoot s s' cfg : Load data stepRoot s = (s', Ok cfg) ->
  mem s' = mem s /\ rules_hold (pc_Modes cfg) /\ (forall st, is_Some (pc_Modes cfg !! st) -> st ∈ Stage.All) /\
  (forall st step, step ∈ steps_of (pc_Modes cfg) st -> step_present (mem s) stepRoot step).
Proof.
  unfold Load. intros H. apply bind_ok in H as (s1 & c & Hl & H). unfold lift in Hl. injection Hl as <- Hp.
  apply bind_ok in H as (s2 & [] & Hv & H). injection H as -> ->. apply wrap_ok, bind_ok in Hv as (s3 & [] & Hr & Hf).
  unfold lift in Hr. injection Hr as <- Hr. apply checkModeRules_ok in Hr.
  destruct (checkStepFilesExist_spec (pc_Modes cfg) stepRoot (mem s) s eq_refl) as [_ Hspec]. rewrite Hf in Hspec. simpl in Hspec.
  destruct Hspec as [Hm Hfiles]. split_and!; [done|done|by eapply parse_config_stages|done].
Qed.

End Loaded.

Lemma Load_valid_witness :
  let J := sample_JSON in let S := sample_schema in let W := quiet_world in
  exists data cfg, (Load data "/steps" sample_steps).2 = Ok cfg /\ rules_hold (pc_Modes cfg).
Proof.
  intros J S W. destruct (Dump "p" "1.0.0" "/" sample_modes []) as [data| |] eqn:E; [|by vm_compute in E..].
  vm_compute in E. injection E as E. exists data. subst data.
  match goal with |- exists cfg, (Load ?data ?root ?s).2 = _ /\ _ => destruct (Load data root s) as [s' [cfg| |]] eqn:El end;
    [|by apply (f_equal snd) in El; vm_compute in El..].
  exists cfg. split; [done|]. apply Load_valid in El. tauto.
Defined.

(** The root itself, and a file that is a link to another one outside the root. *)
Definition leading_out_modes : gmap string (list Step) :=
  {[ Stage.Apply := [NewRegularStep "." []; NewRegularStep "a.sh" []];
     Stage.ApplyCheck := [NewRegularStep "_check" []; NewRegularStep "a_check.sh" []] ]}.

Definition leading_out : pass event disk :=
  {| trace := []; mem := <[["steps"; "a.sh"] := Link "../etc/passwd"]> (<[["etc"; "passwd"] := File "" 420]>
    (<[["steps"; "_check"] := File "" 493]> (<[["etc"] := Directory 493]> (mem sample_steps)))) |}.

(** The comment in [checkStepFilesExist] says that the path of a step resolves
    inside the root of the package and never escapes it.  Only the text of the
    path is checked: both steps load. *)
Example steps_lead_out :
  let J := sample_JSON in let S := sample_schema in let W := quiet_world in
  exists data cfg, Dump "p" "1.0.0" "/" leading_out_modes [] = Ok data /\ (Load data "/steps" leading_out).2 = Ok cfg /\
    map Path (steps_of (pc_Modes cfg) Stage.Apply) = ["."; "a.sh"] /\
    rbind (stat_at (mem leading_out) (located (mem leading_out) true "/steps/.")) (fun i => Ok (IsDir i)) = Ok true /\
    located (mem leading_out) true "/steps/a.sh" = Ok ["etc"; "passwd"].
Proof. intros J S W. eexists _, _. split; [by vm_compute|]. split; [by vm_compute|]. split_and!; by vm_compute. Qed.
