(* ===== verification/Flags.v ===== *)
(** * Flags and logs

    Models [agent/go/internal/flags]: where the agent keeps its state on the
    host, the completion flags of a package's steps and what they decide, and
    the logs of its operations with their retention.

    Times are nanoseconds since 1970.  How [time] prints and reads them is the
    parameter [TimeFormat].  [CreateLogFile] tries one name after the other; the
    files on the disk bound how many are taken. *)

From S2P Require Import Prelude Effects Encoding Sha256 Json Paths Host HostFs Stages Command Step PackageConfig.

#[local] Open Scope Z_scope.
#[local] Open Scope go_scope.

Definition logTimeFormat := "2006-01-02-150405.000000000".
Definition legacyLogTimeFormat := "2006-01-02-150405".

(** The years of four digits. *)
Definition common_era (t : Z) : Prop := -62167219200000000000 <= t < 253402300800000000000.

Class TimeFormat := {
  time_format : string -> Z -> string;
  time_parse : string -> string -> option Z;
  time_round_trip : forall t, common_era t -> time_parse logTimeFormat (time_format logTimeFormat t) = Some t;
  time_word : forall t, contains_char slash (time_format logTimeFormat t) = false;
  time_length : forall t, common_era t -> String.length (time_format logTimeFormat t) = String.length logTimeFormat
}.

(** [time.Time{}] is the first day of the year 1. *)
Definition zero_time : Z := -62135596800000000000.
Definition Time_IsZero (t : Z) : bool := bool_decide (t = zero_time).

(* ------------------------------------------------------------------ *)
(** ** layout.go *)

Definition DefaultStateRoot := "/etc/skyhook".
Definition DefaultLogRoot := "/var/log/skyhook".

Record Layout := { l_rootMount : string; l_stateRoot : string; l_logRoot : string }.

Definition normalizeRootMount (rootMount : string) : string := if bool_decide (rootMount = "") then "/" else Clean rootMount.

Definition normalizeLayoutRoot (name root : string) : res string :=
  let root := Clean (trim_left slash root) in
  if bool_decide (root = ".") || negb (IsLocal root) then Err (errorf "%s %q must remain within the mounted host root" [name; root])
  else Ok root.

Definition NewLayout (rootMount stateRoot logRoot : string) : res Layout :=
  let stateRoot := if bool_decide (stateRoot = "") then DefaultStateRoot else stateRoot in
  let logRoot := if bool_decide (logRoot = "") then DefaultLogRoot else logRoot in
  let! stateRoot := rwrap "constructing layout: normalizing state root: %w" [] (normalizeLayoutRoot "state root" stateRoot) in
  let! logRoot := rwrap "constructing layout: normalizing log root: %w" [] (normalizeLayoutRoot "log root" logRoot) in
  Ok {| l_rootMount := normalizeRootMount rootMount; l_stateRoot := stateRoot; l_logRoot := logRoot |}.

Definition DefaultLayout (rootMount : string) : Layout :=
  {| l_rootMount := normalizeRootMount rootMount; l_stateRoot := trim_prefix DefaultStateRoot "/"; l_logRoot := trim_prefix DefaultLogRoot "/" |}.

Definition StateDir (l : Layout) : string := Join [l_rootMount l; l_stateRoot l].
Definition FlagDir (l : Layout) : string := Join [StateDir l; "flags"].
Definition HistoryDir (l : Layout) : string := Join [StateDir l; "history"].
Definition LogDir (l : Layout) : string := Join [l_rootMount l; l_logRoot l].
Definition StepsDir (copyDir : string) : string := Join [copyDir; "skyhook_dir"].

Definition validatePackagePath (cfg : PackageConfig) : res unit :=
  let! _ := ValidatePathComponent "package name" (pc_PackageName cfg) in
  ValidatePathComponent "package version" (pc_PackageVersion cfg).

Definition packageLogDir (l : Layout) (cfg : PackageConfig) (stepPath : string) : res string :=
  let! _ := rwrap "building package log path for step %q: validating package path: %w" [stepPath] (validatePackagePath cfg) in
  if negb (IsLocal stepPath) then Err (errorf "step path %q must be relative to the package root" [stepPath])
  else Ok (Join [LogDir l; pc_PackageName cfg; pc_PackageVersion cfg; stepPath]).

Record LogFiles := { lf_rootMount : string; lf_directory : string; lf_prefix : string; lf_suffix : string }.

Definition LogFilePattern (l : Layout) (cfg : PackageConfig) (stepPath : string) : res LogFiles :=
  let! logBase := rwrap "building log file pattern for step %q: resolving package log path: %w" [stepPath] (packageLogDir l cfg stepPath) in
  Ok {| lf_rootMount := l_rootMount l; lf_directory := Dir logBase; lf_prefix := Base logBase +:+ "-"; lf_suffix := ".log" |}.

(** A decimal number above zero that fits an [int]. *)
Definition parsePositiveDecimal (value : string) : option Z :=
  if bool_decide (value = "") then None
  else match unsigned value with
  | None => None
  | Some _ => match Atoi value with Ok parsed => if 0 <? parsed then Some parsed else None | _ => None end
  end.

Section Logs.
Context `{T : TimeFormat} `{W : World}.

Definition LogFilePath (l : Layout) (cfg : PackageConfig) (stepPath : string) (at_ : Z) : res string :=
  let! logDir := rwrap "building log file path for step %q: resolving package log path: %w" [stepPath] (packageLogDir l cfg stepPath) in
  if Time_IsZero at_ then Err (errorf "log timestamp must not be zero" [])
  else Ok (logDir +:+ "-" +:+ time_format logTimeFormat at_ +:+ ".log").

(** [next] after one entry of the directory. *)
Definition next_collision (baseName : string) (next : Z) (name : string) : Z :=
  let prefix := trim_suffix baseName ".log" +:+ "-" in
  if bool_decide (name = baseName) then Z.max next 1
  else if negb (has_prefix name prefix) || negb (has_suffix name ".log") then next
  else match parsePositiveDecimal (trim_suffix (trim_prefix name prefix) ".log") with
  | Some index => Z.max next (index +! 1)
  | None => next
  end.

Definition nextLogCollision (rootMount basePath : string) : Go Z :=
  let* entries := attempt (ReadDir rootMount (Dir basePath)) in
  match entries with
  | Err e => if errors_Is e ErrNotExist then ret 0 else raise (wrapf "reading log directory %q: %w" [Dir basePath] e)
  | Ok entries => ret (fold_left (next_collision (Base basePath)) entries.*1 0)
  | Panic => lift Panic
  end.

Definition collision_path (basePath : string) (collision : Z) : string :=
  if 0 <? collision then trim_suffix basePath ".log" +:+ "-" +:+ show_int collision +:+ ".log" else basePath.

(** Without fuel the loop would not have ended. *)
Fixpoint create_log_each (fuel : nat) (rootMount basePath : string) (mode collision : Z) : Go (string * list string) :=
  match fuel with
  | O => lift Panic
  | S fuel =>
      let path := collision_path basePath collision in
      let* created := attempt (CreateFileWriter rootMount path mode) in
      match created with
      | Err e =>
          if errors_Is e ErrExist then create_log_each fuel rootMount basePath mode (collision +! 1)
          else raise (wrapf "creating log file %q: %w" [path] e)
      | Ok file => ret (path, file)
      | Panic => lift Panic
      end
  end.

Definition CreateLogFile (l : Layout) (cfg : PackageConfig) (stepPath : string) (at_ mode : Z) : Go (string * list string) :=
  let* basePath := wrap "creating log file for step %q: resolving log file path: %w" [stepPath] (lift (LogFilePath l cfg stepPath at_)) in
  let* collision := wrap "creating log file for step %q: finding next collision index: %w" [stepPath] (nextLogCollision (l_rootMount l) basePath) in
  let* fuel := gets (fun d : disk => S (size d)) in
  create_log_each fuel (l_rootMount l) basePath mode collision.

(* ------------------------------------------------------------------ *)
(** ** logs.go *)

Definition DefaultLogRetention : nat := 5.

Record logCandidate := { lc_path : string; lc_timestamp : Z; lc_collisionIndex : Z }.

Definition parseLogTimestampWithFormat (value format : string) : option (Z * Z) :=
  let length := String.length format in
  if (String.length value <? length)%nat then None
  else match time_parse format (str_take length value) with
  | None => None
  | Some parsed =>
      let suffix := String.substring length (String.length value - length) value in
      if bool_decide (suffix = "") then Some (parsed, 0)
      else match cut_prefix suffix "-" with
      | None => None
      | Some digits => match parsePositiveDecimal digits with Some index => Some (parsed, index) | None => None end
      end
  end.

Definition parseLogTimestamp (value : string) : option (Z * Z) :=
  match parseLogTimestampWithFormat value logTimeFormat with
  | Some r => Some r
  | None => parseLogTimestampWithFormat value legacyLogTimeFormat
  end.

(** [less] of the sort: the newest first. *)
Definition newer (a b : logCandidate) : bool :=
  if bool_decide (lc_timestamp a = lc_timestamp b) then
    if negb (bool_decide (lc_collisionIndex a = lc_collisionIndex b)) then lc_collisionIndex b <? lc_collisionIndex a
    else str_ltb (lc_path a) (lc_path b)
  else lc_timestamp b <? lc_timestamp a.

Definition not_older (a b : logCandidate) : Prop := newer b a = false.
#[export] Instance not_older_dec a b : Decision (not_older a b).
Proof. unfold not_older. apply _. Defined.

(** The candidate an entry is, unless its name is not that of a log. *)
Definition log_candidate (logFiles : LogFiles) (name : string) : option logCandidate :=
  if negb (has_prefix name (lf_prefix logFiles)) || negb (has_suffix name (lf_suffix logFiles)) then None
  else match parseLogTimestamp (trim_suffix (trim_prefix name (lf_prefix logFiles)) (lf_suffix logFiles)) with
  | None => None
  | Some (parsed, index) =>
      Some {| lc_path := Join [lf_directory logFiles; name]; lc_timestamp := parsed; lc_collisionIndex := index |}
  end.

Definition log_candidates (logFiles : LogFiles) (names : list string) : Go (list logCandidate) :=
  loop (fun files name =>
    match log_candidate logFiles name with
    | None => ret files
    | Some c =>
        let* info := wrap "stating log file %q: %w" [Join [lf_directory logFiles; name]] (os_lstat (Join [lf_directory logFiles; name])) in
        ret (if IsRegular info then files ++ [c] else files)
    end) [] names.

Definition old_logs (keep : nat) (files : list logCandidate) : list logCandidate := drop keep (merge_sort not_older files).

(** A negative [keep] is refused by the source; here it is a [nat]. *)
Definition CleanupOldLogs (logFiles : LogFiles) (keep : nat) : Go unit :=
  let* entries := attempt (ReadDir (lf_rootMount logFiles) (lf_directory logFiles)) in
  match entries with
  | Err e => if errors_Is e ErrNotExist then ret tt else raise (wrapf "reading log directory %q: %w" [lf_directory logFiles] e)
  | Panic => lift Panic
  | Ok entries =>
      let* files := log_candidates logFiles entries.*1 in
      loop (fun _ file => wrap "removing old log %q: %w" [lc_path file] (RemoveFile (lf_rootMount logFiles) (lc_path file))) tt (old_logs keep files)
  end.

End Logs.

(* ------------------------------------------------------------------ *)
(** ** flags.go *)

Definition flagFileMode : Z := 384.

Definition ReasonFlagMissing := "flag-missing".
Definition ReasonAlwaysRun := "always-run".
Definition ReasonStageAlwaysRuns := "stage-always-runs".
Definition ReasonIdempotenceDisabled := "idempotence-disabled".
Definition ReasonAlreadyCompleted := "already-completed".

Record Decision_ := { d_Run : bool; d_Reason : string }.

Definition Decide (flagExists alwaysRun : bool) (currentStage idempotence : string) : Decision_ :=
  if negb flagExists then {| d_Run := true; d_Reason := ReasonFlagMissing |}
  else if alwaysRun then {| d_Run := true; d_Reason := ReasonAlwaysRun |}
  else if bool_decide (currentStage ∈ [Stage.Config; Stage.Uninstall; Stage.Upgrade]) then {| d_Run := true; d_Reason := ReasonStageAlwaysRuns |}
  else if bool_decide (idempotence = Disabled) then {| d_Run := true; d_Reason := ReasonIdempotenceDisabled |}
  else {| d_Run := false; d_Reason := ReasonAlreadyCompleted |}.

Record fileStore := { fs_rootMount : string; fs_dir : string; fs_packageName : string; fs_packageVersion : string }.

Definition newFileStore (layout : Layout) (cfg : PackageConfig) : res fileStore :=
  let! _ := rwrap "validating package path: %w" [] (validatePackagePath cfg) in
  Ok {| fs_rootMount := l_rootMount layout; fs_dir := Join [l_stateRoot layout; "flags"]; fs_packageName := pc_PackageName cfg;
        fs_packageVersion := pc_PackageVersion cfg |}.

Definition NewStore : Layout -> PackageConfig -> res fileStore := newFileStore.

Section Store.
Context `{J : JSON} `{U : Unicode} `{W : World}.

Definition Store_Path (s : fileStore) (value : Step) : res string :=
  if negb (IsLocal (Path value)) then Err (errorf "building flag path: step path %q must be relative to the package root" [Path value])
  else
    let filename := Base (Path value) +:+ "-" +:+ Fingerprint value +:+ ".flag" in
    Ok (Join [fs_rootMount s; fs_dir s; fs_packageName s; fs_packageVersion s; filename]).

Definition legacyPath (s : fileStore) (value : Step) : option string :=
  if negb (IsLocal (Path value)) then None
  else
    let metadata := ExecutionMetadata_of value in
    let payload := FormatLegacyArguments (em_Arguments metadata) +:+ "_" +:+ FormatLegacyReturnCodes (em_ReturnCodes metadata) in
    let marker := b64_encode payload in
    Some (Join [fs_rootMount s; fs_dir s; fs_packageName s; fs_packageVersion s; Path value +:+ "_" +:+ marker]).

Definition validatePath (s : fileStore) (path : string) : res unit :=
  let storePath := Join [fs_rootMount s; fs_dir s] in
  let! relative := rwrap "resolving path relative to flag store: %w" [] (Rel storePath path) in
  if negb (IsLocal relative) then Err (errorf "flag path %q must be contained within %q" [path; storePath]) else Ok tt.

Definition Store_Write (s : fileStore) (path data : string) : Go unit :=
  let* _ := wrap "validating flag store path %q: %w" [path] (lift (validatePath s path)) in
  wrap "writing flag %q: %w" [path] (WriteFile (fs_rootMount s) path data flagFileMode).

(** Each path with whether a flag was there. *)
Definition mark_existed (s : fileStore) (value : Step) (paths : list string) : Go (list (string * bool)) :=
  loop (fun marked markerPath =>
    let* _ := wrap "marking step %q: validating flag path: %w" [Path value] (lift (validatePath s markerPath)) in
    let* existed := wrap "marking step %q: inspecting flag path %q: %w" [Path value; markerPath] (RegularFileExists (fs_rootMount s) markerPath) in
    ret (marked ++ [(markerPath, existed)])) [] paths.

(** The flags written so far are removed, unless they were there before. *)
Definition mark_rollback (s : fileStore) (written : list (string * bool)) : Go (option error) :=
  loop (fun rollbackErr '(path, existed) =>
    if existed : bool then ret rollbackErr
    else
      let* removed := try (RemoveFile (fs_rootMount s) path) in
      ret (errors_Join [rollbackErr; wrapf "removing incomplete flag %q: %w" [path] <$> removed])) None written.

Fixpoint mark_each (s : fileStore) (value : Step) (message : string) (written todo : list (string * bool)) : Go unit :=
  match todo with
  | [] => ret tt
  | (markerPath, existed) :: todo =>
      let written := written ++ [(markerPath, existed)] in
      let* failed := try (Store_Write s markerPath message) in
      match failed with
      | None => mark_each s value message written todo
      | Some e =>
          let* rollbackErr := mark_rollback s written in
          when_err (errors_Join [Some (wrapf "marking step %q: %w" [Path value] e); rollbackErr]) (fun e => e) (ret tt)
      end
  end.

Definition Mark (s : fileStore) (value : Step) (message : string) : Go string :=
  let* path := wrap "marking step: resolving flag path: %w" [] (lift (Store_Path s value)) in
  let paths := match legacyPath s value with Some legacyPath => [legacyPath; path] | None => [path] end in
  let* marked := mark_existed s value paths in
  let* _ := mark_each s value message [] marked in
  ret path.

Definition Remove (s : fileStore) (value : Step) : Go unit :=
  let* path := wrap "removing step flag: resolving flag path: %w" [] (lift (Store_Path s value)) in
  let paths := match legacyPath s value with Some legacyPath => [path; legacyPath] | None => [path] end in
  let* removeErr := loop (fun removeErr flagPath =>
    let* invalid := try (lift (validatePath s flagPath)) in
    match invalid with
    | Some e => ret (errors_Join [removeErr; Some (wrapf "removing step flag: validating store path: %w" [] e)])
    | None =>
        let* removed := try (RemoveFile (fs_rootMount s) flagPath) in
        ret (errors_Join [removeErr; wrapf "removing step flag %q: %w" [flagPath] <$> removed])
    end) None paths in
  when_err removeErr (fun e => e) (ret tt).

Definition Check (s : fileStore) (value : Step) (alwaysRun : bool) (currentStage : string) : Go Decision_ :=
  let* _ := wrap "checking flag for step %q: validating stage: %w" [Path value] (lift (Stage.ParseStage currentStage)) in
  let* _ := wrap "checking flag for step %q: validating idempotence: %w" [Path value] (lift (Idempotence_Validate (Idempotence value))) in
  let* path := wrap "checking flag for step %q: resolving store path: %w" [Path value] (lift (Store_Path s value)) in
  let* _ := wrap "checking flag for step %q: validating store path: %w" [Path value] (lift (validatePath s path)) in
  let* exists_ := wrap "checking flag for step %q: inspecting store path: %w" [Path value] (RegularFileExists (fs_rootMount s) path) in
  if negb exists_ then
    let* exists_ :=
      match legacyPath s value with
      | Some legacyPath =>
          wrap "checking flag for step %q: inspecting legacy store path: %w" [Path value] (RegularFileExists (fs_rootMount s) legacyPath)
      | None => ret exists_
      end in
    if negb exists_ then ret (Decide false alwaysRun currentStage (Idempotence value))
    else ret (Decide true alwaysRun currentStage (Idempotence value))
  else ret (Decide true alwaysRun currentStage (Idempotence value)).

End Store.

(* ------------------------------------------------------------------ *)
(** ** A sample clock *)

Definition digit (d : Z) : ascii := Ascii.ascii_of_N (Z.to_N (48 + d)).

(** The last [width] digits of a number. *)
Fixpoint fixed (width : nat) (z : Z) : string := match width with O => "" | S width => fixed width (z / 10) +:+ String (digit (z mod 10)) "" end.

Lemma digit_value_digit d : 0 <= d < 10 -> digit_value (digit d) = Some d /\ digit d <> slash.
Proof.
  intros H. assert (d = 0 \/ d = 1 \/ d = 2 \/ d = 3 \/ d = 4 \/ d = 5 \/ d = 6 \/ d = 7 \/ d = 8 \/ d = 9) as Hd by lia.
  repeat destruct Hd as [->|Hd]; subst; by split.
Qed.

Lemma decimal_snoc s c : forall acc, decimal acc (s +:+ String c "") =
  match decimal acc s, digit_value c with Some n, Some v => Some (n * 10 + v) | _, _ => None end.
Proof.
  induction s as [|a s IH]; intros acc; [by simpl; destruct (digit_value c)|]. rewrite append_cons. cbn [decimal].
  destruct (digit_value a); [apply IH|done].
Qed.

Lemma decimal_fixed width z : 0 <= z < 10 ^ Z.of_nat width -> decimal 0 (fixed width z) = Some z.
Proof.
  revert z; induction width as [|width IH]; intros z Hz; [simpl in *; f_equal; lia|]. rewrite Nat2Z.inj_succ, Z.pow_succ_r in Hz by lia.
  cbn [fixed]. rewrite decimal_snoc, IH by (split; [apply Z.div_pos; lia|apply Z.div_lt_upper_bound; lia]).
  destruct (digit_value_digit (z mod 10)) as [-> _]; [apply Z.mod_pos_bound; lia|]. f_equal. pose proof (Z.div_mod z 10). lia.
Qed.

Lemma fixed_word width : forall z, String.length (fixed width z) = width /\ contains_char slash (fixed width z) = false.
Proof.
  induction width as [|width IH]; intros z; [done|]. cbn [fixed]. destruct (IH (z / 10)) as [Hl Hc]. rewrite length_append, contains_char_app, Hl, Hc.
  destruct (digit_value_digit (z mod 10)) as [_ Hd]; [apply Z.mod_pos_bound; lia|]. simpl. rewrite bool_decide_eq_false_2 by done. split; [lia|done].
Qed.

(** A clock that is printed as a number of nanoseconds. *)
Program Definition sample_time : TimeFormat := {|
  time_format layout t := fixed (String.length layout) (t + 62167219200000000000);
  time_parse layout s := option_map (fun n => n - 62167219200000000000) (decimal 0 s)
|}.
Next Obligation.
  intros t Ht. cbv beta. unfold common_era in Ht. rewrite decimal_fixed; [|change (10 ^ Z.of_nat (String.length logTimeFormat)) with 1000000000000000000000000000; lia].
  simpl. f_equal. lia.
Qed.
Next Obligation. intros t. apply fixed_word. Qed.
Next Obligation. intros t _. apply fixed_word. Qed.
