(* ===== verification/History.v ===== *)
(** * Package history

    Models [agent/go/internal/history]: the ledger of the versions a package had
    on a host, which tells an upgrade where it comes from.

    A time in a document is RFC 3339; how it prints and reads is the parameter
    [TimeJSON], which fails beyond the years of four digits. *)

From S2P Require Import Prelude Effects Encoding Sha256 Json Paths Host HostFs Stages Command Step PackageConfig Flags.

#[local] Open Scope Z_scope.
#[local] Open Scope go_scope.

Definition UnknownVersion := "unknown".
Definition UninstalledVersion := "uninstalled".
Definition historyFileMode : Z := 384.
Definition historyEntryLimit : nat := 100.

Class TimeJSON := {
  time_marshal : Z -> res string;
  time_unmarshal : string -> res Z;
  time_json_round_trip : forall t s, time_marshal t = Ok s -> time_unmarshal s = Ok t /\ valid_utf8 s = true;
  time_marshal_ok : forall t, common_era t -> is_ok (time_marshal t) = true
}.

Record LedgerEntry := { le_Version : string; le_Time : Z }.
Record Ledger := { lg_CurrentVersion : string; lg_Entries : list LedgerEntry }.
Record Versions := { v_Previous : string; v_Current : string }.

#[export] Instance LedgerEntry_eq_dec : EqDecision LedgerEntry.
Proof. solve_decision. Defined.

Record historyStore := { hs_rootMount : string; hs_path : string; hs_packageName : string; hs_version : string }.

Definition newHistoryStore (layout : Layout) (cfg : PackageConfig) : res historyStore :=
  let name := pc_PackageName cfg in
  let! _ := ValidatePathComponent "package name" name in
  if bool_decide (pc_PackageVersion cfg = "") then Err (errorf "package version must not be empty" [])
  else Ok {| hs_rootMount := l_rootMount layout; hs_path := Join [HistoryDir layout; name +:+ ".json"]; hs_packageName := name;
             hs_version := pc_PackageVersion cfg |}.

Section History.
Context `{J : JSON} `{TJ : TimeJSON} `{W : World}.

Definition entry_json (e : LedgerEntry) : res json :=
  let! t := time_marshal (le_Time e) in Ok (JObject [("version", JString (le_Version e)); ("time", JString t)]).

Definition Ledger_MarshalJSON (l : Ledger) : res json :=
  let! entries := each entry_json (lg_Entries l) in
  Ok (JObject [("current-version", JString (lg_CurrentVersion l)); ("history", JArray entries)]).

Definition d_time (old : Z) (j : json) : res Z :=
  match j with JNull => Ok old | JString s => time_unmarshal s | _ => mismatch j end.

Definition d_entry (old : LedgerEntry) (j : json) : res LedgerEntry :=
  let! o := struct_of j in
  let! version := rfold d_string (le_Version old) (members_of o "version") in
  let! time := rfold d_time (le_Time old) (members_of o "time") in
  Ok {| le_Version := version; le_Time := time |}.

Definition Ledger_UnmarshalJSON (j : json) : res Ledger :=
  let! o := struct_of j in
  let! current := field d_string "" "current-version" o in
  let! entries := field (d_slice d_entry {| le_Version := ""; le_Time := zero_time |}) [] "history" o in
  Ok {| lg_CurrentVersion := current; lg_Entries := entries |}.

Definition no_history : Ledger := {| lg_CurrentVersion := UnknownVersion; lg_Entries := [] |}.

Definition load (s : historyStore) : Go Ledger :=
  let* data := attempt (ReadFile (hs_rootMount s) (hs_path s)) in
  match data with
  | Err e => if errors_Is e ErrNotExist then ret no_history else raise (wrapf "reading history %q: %w" [hs_path s] e)
  | Panic => lift Panic
  | Ok data =>
      match rbind (json_parse data) Ledger_UnmarshalJSON with
      | Err _ =>
          let backup := hs_path s +:+ ".backup" in
          let* _ := wrap "moving corrupt history %q to %q: %w" [hs_path s; backup] (RenameFile (hs_rootMount s) (hs_path s) backup) in
          ret no_history
      | Panic => lift Panic
      | Ok result =>
          ret (if bool_decide (lg_CurrentVersion result = "")
               then {| lg_CurrentVersion := UnknownVersion; lg_Entries := lg_Entries result |} else result)
      end
  end.

Definition Read (s : historyStore) : Go Versions :=
  let* ledger := wrap "reading versions for package %q: %w" [hs_packageName s] (load s) in
  ret {| v_Current := hs_version s; v_Previous := lg_CurrentVersion ledger |}.

(** The version a completed stage leaves on the host. *)
Definition recorded_version (s : historyStore) (completedStage : string) : string :=
  if bool_decide (completedStage = Stage.UninstallCheck) then UninstalledVersion else hs_version s.

Definition recorded (s : historyStore) (completedStage : string) (at_ : Z) (ledger : Ledger) : Ledger :=
  let version := recorded_version s completedStage in
  {| lg_CurrentVersion := version; lg_Entries := take historyEntryLimit ({| le_Version := version; le_Time := at_ |} :: lg_Entries ledger) |}.

(** The document is printed with a line break at its end. *)
Definition Record_ (s : historyStore) (completedStage : string) (at_ : Z) : Go unit :=
  let* _ := wrap "recording history for package %q: validating completed stage: %w" [hs_packageName s] (lift (Stage.ParseStage completedStage)) in
  if Time_IsZero at_ then raise (errorf "history timestamp must not be zero" [])
  else
    let* ledger := wrap "recording history for package %q: %w" [hs_packageName s] (load s) in
    let ledger := recorded s completedStage at_ ledger in
    let* data := wrap "encoding history for package %q: %w" [hs_packageName s] (lift (Ledger_MarshalJSON ledger)) in
    wrap "writing history for package %q: %w" [hs_packageName s]
      (WriteFile (hs_rootMount s) (hs_path s) (json_indent data +:+ String "010" "") historyFileMode).

End History.
