(* ===== verification/HostInterrupts.v ===== *)
(** * Interrupts on the host

    Models [agent/go/internal/interrupts]: the five interrupts, their wire form,
    and how each is run on the host.

    Not modelled: a nil interrupt, and the ten seconds [NodeRestart] waits: the
    clock is read once before and the end of the wait is the context's or the
    timer's. *)

From S2P Require Import Prelude Effects Encoding Sha256 Json Paths Host HostFs Stages Command Step.

#[local] Open Scope Z_scope.
#[local] Open Scope go_scope.

Definition NodeRestartType := "node_restart".
Definition ServiceRestartType := "service_restart".
Definition RestartAllServicesType := "restart_all_services".
Definition NoOpType := "no_op".
Definition ScriptInterruptType := "script_interrupt".

Inductive Interrupt :=
| NodeRestart
| ServiceRestart (Services : list string)
| RestartAllServices
| NoOp
| ScriptInterrupt.

#[export] Instance Interrupt_eq_dec : EqDecision Interrupt.
Proof. solve_decision. Defined.

Definition Type_of (i : Interrupt) : string :=
  match i with
  | NodeRestart => NodeRestartType
  | ServiceRestart _ => ServiceRestartType
  | RestartAllServices => RestartAllServicesType
  | NoOp => NoOpType
  | ScriptInterrupt => ScriptInterruptType
  end.

(* ------------------------------------------------------------------ *)
(** ** The wire form *)

Definition marshalTypeOnly (typeName : string) : json := JObject [("type", JString typeName)].

Definition Serialize (i : Interrupt) : json :=
  match i with
  | ServiceRestart services => JObject [("type", JString (Type_of i)); ("services", JArray (map JString services))]
  | _ => marshalTypeOnly (Type_of i)
  end.

Definition errInvalidSerializedInterrupt : error := errorf ("serialized interrupt must be base64-encoded JSON with a " +:+ String "034" "type" +:+ String "034" " field") [].

Definition supportedTypes : string :=
  join ", " [NodeRestartType; ServiceRestartType; RestartAllServicesType; NoOpType; ScriptInterruptType].

Section Wire.
Context `{J : JSON}.

Definition Interrupt_Encode (i : Interrupt) : string := b64_encode (json_print (Serialize i)).

(** An error of the library is printed, not wrapped. *)
Definition invalid {A : Type} (r : res A) : res A := match r with Err _ => Err (Wrapf "%w: %v" [] errInvalidSerializedInterrupt) | r => r end.

Definition Interrupt_Decode (serializedValue : string) : res Interrupt :=
  let! data := invalid (b64_decode serializedValue) in
  let! type := invalid (let! j := json_parse data in let! o := struct_of j in field (d_pointer d_string "") None "type" o) in
  match type with
  | None => Err errInvalidSerializedInterrupt
  | Some type =>
      if bool_decide (type = NodeRestartType) then Ok NodeRestart
      else if bool_decide (type = ServiceRestartType) then
        let! services := invalid (let! j := json_parse data in let! o := struct_of j in field (d_slice d_string "") [] "services" o) in
        Ok (ServiceRestart services)
      else if bool_decide (type = RestartAllServicesType) then Ok RestartAllServices
      else if bool_decide (type = NoOpType) then Ok NoOp
      else if bool_decide (type = ScriptInterruptType) then Ok ScriptInterrupt
      else Err (errorf "unknown interrupt %q must be one of: %s" [type; supportedTypes])
  end.

End Wire.

(* ------------------------------------------------------------------ *)
(** ** Running *)

(** [ResumableInterrupt]: the number of operations, for the interrupts that have one. *)
Definition OperationCount (i : Interrupt) : option nat :=
  match i with
  | ServiceRestart services => Some (S (length services))
  | RestartAllServices => Some 1%nat
  | _ => None
  end.

Definition Canceled : error := errorf "context canceled" [].
Definition DeadlineExceeded : error := errorf "context deadline exceeded" [].

Section Run.
Context `{W : World}.

Definition validate_interrupt (config : Run.Config) (interruptType : string) : Go unit :=
  let* cancelled := ctx_err in
  when_err cancelled (wrapf "running interrupt %q: %w" [interruptType])
    (wrap "running interrupt %q: invalid run config: %w" [interruptType] (lift (Run.Validate config))).

Definition plain_Run (i : Interrupt) (config : Run.Config) : Go Status :=
  let* _ := validate_interrupt config (Type_of i) in ret StatusSuccess.

Definition host_command (config : Run.Config) (executable : string) (arguments : list string) : Command :=
  NewCommand executable [WithArguments arguments; WithWorkingDirectory (Run.skyhookDir config); WithStdout (Run.stdout config);
    WithStderr (Run.stderr config)].

Definition nodeRestartCompleted (result : Result) : bool :=
  bool_decide (ExitCode result = SignalExitCode) && bool_decide (Signal result = Some SIGTERM).

(** Waiting ends with an error either way. *)
Definition waitForNodeRestart : Go unit :=
  let* _ := time_now in
  let* cancelled := ctx_err in
  match cancelled with
  | Some e => raise (wrapf "waiting for host restart: %w" [] e)
  | None => raise (errorf "reboot was enqueued but the host did not restart within %s" ["10s"])
  end.

Definition NodeRestart_Run (config : Run.Config) : Go Status :=
  let* _ := validate_interrupt config NodeRestartType in
  let cmd := host_command config "reboot" [] in
  let* '(result, runErr) := Runner_Run (Some (Run.rootMount config)) cmd in
  if nodeRestartCompleted result &&
     match runErr with None => true | Some e => errors_Is e Canceled || errors_Is e DeadlineExceeded end
  then ret StatusSuccess
  else
    when_err runErr (wrapf "running interrupt %q command %q: %w" [NodeRestartType; cmd_Executable cmd])
      (if negb (bool_decide (Signal result = None)) || negb (bool_decide (ExitCode result = SuccessExitCode)) then ret StatusFailed
       else let* _ := waitForNodeRestart in ret StatusFailed).

(** What follows a command of a service interrupt: [next] if it succeeded. *)
Definition service_command (config : Run.Config) (cmd : Command) (fmt : string) (args : list string) (next : Go Status) : Go Status :=
  let* '(result, runErr) := Runner_Run (Some (Run.rootMount config)) cmd in
  when_err runErr (wrapf fmt args)
    (if negb (bool_decide (Signal result = None)) || negb (bool_decide (ExitCode result = SuccessExitCode)) then ret StatusFailed else next).

Definition RestartAllServices_run (config : Run.Config) (markCompleted : option (nat -> Go unit)) : Go Status :=
  let* _ := validate_interrupt config RestartAllServicesType in
  let cmd := host_command config "service" ["procps"; "force-reload"] in
  service_command config cmd "running interrupt %q command %q: %w" [RestartAllServicesType; cmd_Executable cmd]
    (let* _ := match markCompleted with
               | Some mark => wrap "marking interrupt %q complete: %w" [RestartAllServicesType] (mark 0%nat)
               | None => ret tt
               end in
     ret StatusSuccess).

Definition wrong_count (i : Interrupt) (completed : list bool) (count : nat) : error :=
  errorf "running interrupt %q: received %d completion states for %d operations"
    [Type_of i; show_int (zlen completed); show_int (Z.of_nat count)].

(** The commands of a service restart, in order. *)
Definition service_commands (config : Run.Config) (services : list string) : list Command :=
  host_command config "systemctl" ["daemon-reload"] :: map (fun service => host_command config "systemctl" ["restart"; service]) services.

Fixpoint run_commands (config : Run.Config) (markCompleted : option (nat -> Go unit)) (index : nat) (commands : list (Command * bool)) : Go Status :=
  match commands with
  | [] => ret StatusSuccess
  | (cmd, completed) :: commands =>
      if completed : bool then run_commands config markCompleted (S index) commands
      else
        service_command config cmd "running interrupt %q command %d %q: %w" [ServiceRestartType; show_int (Z.of_nat index); cmd_Executable cmd]
          (let* _ := match markCompleted with
                     | Some mark => wrap "marking interrupt %q command %d complete: %w" [ServiceRestartType; show_int (Z.of_nat index)] (mark index)
                     | None => ret tt
                     end in
           run_commands config markCompleted (S index) commands)
  end.

Definition ServiceRestart_runPending (services : list string) (config : Run.Config) (completed : list bool)
    (markCompleted : option (nat -> Go unit)) : Go Status :=
  let* _ := validate_interrupt config ServiceRestartType in
  run_commands config markCompleted 0 (zip (service_commands config services) completed).

(** [RunPending] of a resumable interrupt, with a callback that is not nil. *)
Definition RunPending (i : Interrupt) (config : Run.Config) (completed : list bool) (markCompleted : nat -> Go unit) : Go Status :=
  match i with
  | ServiceRestart services =>
      if negb (bool_decide (length completed = S (length services))) then raise (wrong_count i completed (S (length services)))
      else ServiceRestart_runPending services config completed (Some markCompleted)
  | RestartAllServices =>
      if negb (bool_decide (length completed = 1%nat)) then raise (wrong_count i completed 1)
      else match completed with
      | true :: _ => ret StatusSuccess
      | _ => RestartAllServices_run config (Some markCompleted)
      end
  | _ => lift Panic
  end.

Definition Interrupt_Run (i : Interrupt) (config : Run.Config) : Go Status :=
  match i with
  | NodeRestart => NodeRestart_Run config
  | ServiceRestart services => ServiceRestart_runPending services config (replicate (S (length services)) false) None
  | RestartAllServices => RestartAllServices_run config None
  | NoOp | ScriptInterrupt => plain_Run i config
  end.

End Run.
