(* ===== verification/Agent.v ===== *)
(** * The node agent

    Models [agent/go/internal/agent]: one invocation of the agent on a node, from
    its arguments to its exit code.  The operator starts it once for every stage
    of a package, and again after a failure or a reboot; what it has done is on
    the disk of the host.

    The logger and a nil context are not modelled. *)

From S2P Require Import Prelude Effects Encoding Sha256 Json Paths Host HostFs Stages Command Step PackageConfig Flags History HostInterrupts.

#[local] Open Scope Z_scope.
#[local] Open Scope go_scope.

Definition usage := "usage: agent MODE [ROOT_MOUNT] COPY_DIR [INTERRUPT_DATA]" +:+ String "010" "       agent --version".
Definition newline : string := String "010" "".

Definition ExitSuccess : Z := 0.
Definition ExitFailure : Z := 1.
Definition ExitUsage : Z := 2.

Record request := { rq_stage : string; rq_rootMount : string; rq_copyDir : string; rq_interruptData : string }.

Record runtimeConfig := {
  rt_dataDir : string; rt_stateRoot : string; rt_logRoot : string; rt_resourceID : string;
  rt_alwaysRunStep : bool; rt_writeLogs : bool; rt_copyResolver : bool
}.

(* ------------------------------------------------------------------ *)
(** ** agent.go: the request *)

Definition unsupportedStageError (stage : string) : error := errorf "unsupported stage %q" [stage].

(** [errors.As] of what [parseRequest] returns. *)
Definition as_unsupported (e : error) : option string :=
  match e with Errorf fmt [stage] => if bool_decide (fmt = "unsupported stage %q") then Some stage else None | _ => None end.

Definition validateRequest (req : request) : res unit :=
  let! _ := Stage.ParseStage (rq_stage req) in
  if negb (IsAbs (rq_rootMount req)) then Err (errorf "root mount %q is not absolute" [rq_rootMount req])
  else if negb (IsAbs (rq_copyDir req)) then Err (errorf "copy directory %q is not absolute" [rq_copyDir req])
  else if bool_decide (rq_stage req = Stage.Interrupt) then
    if bool_decide (rq_interruptData req = "") then Err (errorf "interrupt data must not be empty" []) else Ok tt
  else if negb (bool_decide (rq_interruptData req = "")) then Err (errorf "stage %q does not accept interrupt data" [rq_stage req])
  else Ok tt.

Definition defaultRootMount := "/root".

Definition parseRequest (arguments : list string) : res request :=
  let! '(mode, rootMount, copyDir, interruptData) :=
    match arguments with
    | [mode; copyDir] => Ok (mode, defaultRootMount, copyDir, "")
    | [mode; a; b] => if bool_decide (mode = Stage.Interrupt) then Ok (mode, defaultRootMount, a, b) else Ok (mode, a, b, "")
    | [mode; rootMount; copyDir; interruptData] => Ok (mode, rootMount, copyDir, interruptData)
    | _ => Err (errorf "expected 2, 3, or 4 arguments; received %d" [show_int (zlen arguments)])
    end in
  match Stage.ParseStage mode with
  | Err _ => Err (unsupportedStageError mode)
  | Panic => Panic
  | Ok currentStage =>
      let parsed := {| rq_stage := currentStage; rq_rootMount := rootMount; rq_copyDir := copyDir; rq_interruptData := interruptData |} in
      let! _ := validateRequest parsed in
      Ok parsed
  end.

(** The package a resource ID names: what is between its first and its last
    underscore, and the version after it. *)
Definition configFromResourceID (resourceID : string) : res PackageConfig :=
  let bad := Err (errorf "resource ID %q must end in _PACKAGE_VERSION" [resourceID]) in
  match cut_at_last "_"%char resourceID with
  | None => bad
  | Some (before, packageVersion) =>
      if bool_decide (before = "") || bool_decide (packageVersion = "") then bad
      else match cut_at_first "_"%char before with
      | None => bad
      | Some (name, packageName) =>
          if bool_decide (name = "") || bool_decide (packageName = "") then bad
          else
            let! _ := ValidatePathComponent "package name" packageName in
            let! _ := ValidatePathComponent "package version" packageVersion in
            Ok {| pc_SchemaVersion := ""; pc_RootDir := ""; pc_ExpectedConfigFiles := []; pc_PackageName := packageName;
                  pc_PackageVersion := packageVersion; pc_Modes := ∅ |}
      end
  end.

Example configFromResourceID_examples :
  (option_map (fun c => (pc_PackageName c, pc_PackageVersion c)) (match configFromResourceID "a-b-c_pkg_x_1.2.3" with Ok c => Some c | _ => None end),
   map (fun s => is_err (configFromResourceID s)) [""; "_a_b"; "a_b"; "a_b_"; "a__1"; "a_.._1"; "a_b/c_1"]) =
  (Some ("pkg_x", "1.2.3"), [true; true; true; true; true; true; true]).
Proof. vm_compute. reflexivity. Qed.

Definition formatLegacyBool (value : bool) : string := if value then "True" else "False".

Definition validateRuntime (req : request) (runtime : runtimeConfig) : res unit :=
  let! _ := rwrap "running agent: %w" [] (validateRequest req) in
  if negb (IsAbs (rt_dataDir runtime)) then Err (errorf "running agent: data directory %q is not absolute" [rt_dataDir runtime])
  else if bool_decide (rq_stage req = Stage.Interrupt)
    then rwrap "running agent: %w" [] (ValidatePathComponent "resource ID" (rt_resourceID runtime))
  else Ok tt.

Section Agent.
Context `{MR : MapRange} `{J : JSON} `{S : JSONSchema} `{U : Unicode} `{T : TimeFormat} `{TJ : TimeJSON} `{W : World}.

Definition envOrDefault (name fallback : string) : string := let value := Getenv name in if bool_decide (value = "") then fallback else value.

(** [strings.EqualFold] with an ASCII word. *)
Definition EqualFold (a b : string) : bool := bool_decide (to_lower a = to_lower b).

Definition envBool (name : string) (fallback : bool) : bool :=
  match LookupEnv name with None => fallback | Some value => EqualFold value "true" end.

Definition normalizeRuntime (runtime : runtimeConfig) : runtimeConfig := {|
  rt_dataDir := if bool_decide (rt_dataDir runtime = "") then "/skyhook-package" else rt_dataDir runtime;
  rt_stateRoot := if bool_decide (rt_stateRoot runtime = "") then DefaultStateRoot else rt_stateRoot runtime;
  rt_logRoot := if bool_decide (rt_logRoot runtime = "") then DefaultLogRoot else rt_logRoot runtime;
  rt_resourceID := rt_resourceID runtime; rt_alwaysRunStep := rt_alwaysRunStep runtime; rt_writeLogs := rt_writeLogs runtime;
  rt_copyResolver := rt_copyResolver runtime |}.

Definition runtimeFromEnvironment : runtimeConfig :=
  let runtime := normalizeRuntime
    {| rt_dataDir := envOrDefault "SKYHOOK_DATA_DIR" "/skyhook-package"; rt_stateRoot := envOrDefault "SKYHOOK_ROOT_DIR" DefaultStateRoot;
       rt_logRoot := envOrDefault "SKYHOOK_LOG_DIR" DefaultLogRoot; rt_resourceID := Getenv "SKYHOOK_RESOURCE_ID";
       rt_alwaysRunStep := false; rt_writeLogs := false; rt_copyResolver := false |} in
  {| rt_dataDir := rt_dataDir runtime; rt_stateRoot := rt_stateRoot runtime; rt_logRoot := rt_logRoot runtime;
     rt_resourceID := rt_resourceID runtime;
     rt_alwaysRunStep := envBool "OVERLAY_ALWAYS_RUN_STEP" false;
     rt_writeLogs := envBool "SKYHOOK_AGENT_WRITE_LOGS" true;
     rt_copyResolver := envBool "COPY_RESOLV" true |}.

Definition banner_lines (req : request) (runtime : runtimeConfig) (cfg : PackageConfig) : list string :=
  let interruptData := if bool_decide (rq_interruptData req = "") then "None" else rq_interruptData req in
  ["--------------------";
   "--CLI CONFIGURATION-";
   "mode: " +:+ rq_stage req;
   "root_mount: " +:+ rq_rootMount req;
   "copy_dir: " +:+ rq_copyDir req;
   "interrupt_data: " +:+ interruptData;
   "always_run_step: " +:+ formatLegacyBool (rt_alwaysRunStep runtime);
   "--ENV CONFIGURATION-";
   "COPY_RESOLV: " +:+ formatLegacyBool (rt_copyResolver runtime);
   "OVERLAY_ALWAYS_RUN_STEP: " +:+ formatLegacyBool (rt_alwaysRunStep runtime);
   "SKYHOOK_RESOURCE_ID: " +:+ rt_resourceID runtime;
   "SKYHOOK_DATA_DIR: " +:+ rt_dataDir runtime;
   "SKYHOOK_ROOT_DIR: " +:+ rt_stateRoot runtime;
   "SKYHOOK_LOG_DIR: " +:+ rt_logRoot runtime;
   "SKYHOOK_AGENT_BUFFER_LIMIT: " +:+ envOrDefault "SKYHOOK_AGENT_BUFFER_LIMIT" "8192";
   "SKYHOOK_AGENT_WRITE_LOGS: " +:+ formatLegacyBool (rt_writeLogs runtime);
   "Directory CONFIGURATION";
   "flag_dir: " +:+ Join [rt_stateRoot runtime; "flags"; pc_PackageName cfg; pc_PackageVersion cfg];
   "log_dir: " +:+ Join [rt_logRoot runtime; pc_PackageName cfg; pc_PackageVersion cfg];
   "history_file: " +:+ Join [rt_stateRoot runtime; "history"; pc_PackageName cfg +:+ ".json"];
   "--------------------"].

Definition printStartupBanner (req : request) (runtime : runtimeConfig) : Go unit :=
  let* cfg := wrap "resolving package identity: %w" [] (lift (configFromResourceID (rt_resourceID runtime))) in
  wrap "writing startup banner: %w" [] (write_out (join newline (banner_lines req runtime cfg) +:+ newline)).

Definition validateRun_agent (req : request) (runtime : runtimeConfig) : Go unit :=
  let* cancelled := ctx_err in
  when_err cancelled (wrapf "running agent: %w" []) (lift (validateRuntime req runtime)).

(* ------------------------------------------------------------------ *)
(** ** package.go *)

Definition legacyNodeFilesDir := "/etc/nvidia-bootstrap/node-files".

Definition ensurePackageData (rootMount copyRoot dataDir legacyDir : string) : Go unit :=
  let* found := attempt (os_stat copyRoot) in
  match found with
  | Ok info => if negb (IsDir info) then raise (errorf "package copy path %q is not a directory" [copyRoot]) else ret tt
  | Panic => lift Panic
  | Err e =>
      if negb (errors_Is e ErrNotExist) then raise (wrapf "stating package copy path %q: %w" [copyRoot] e)
      else
        let* _ := wrap "copying package data from %q: %w" [dataDir] (CopyTreeIfExistsFollowingSymlinks rootMount dataDir copyRoot) in
        let* copied := attempt (os_stat copyRoot) in
        let* _ :=
          match copied with
          | Err e =>
              if errors_Is e ErrNotExist then raise (errorf "package data directory %q does not exist" [dataDir])
              else raise (wrapf "stating copied package data %q: %w" [copyRoot] e)
          | Panic => lift Panic
          | Ok _ => ret tt
          end in
        wrap "copying legacy node files from %q: %w" [legacyDir] (CopyTreeIfExistsFollowingSymlinks rootMount legacyDir copyRoot)
  end.

Definition loadConfig (copyRoot : string) : Go PackageConfig :=
  let configPath := Join [copyRoot; "config.json"] in
  let* data := wrap "reading package config %q: %w" [configPath] (os_readfile configPath) in
  wrap "loading package config %q: %w" [configPath] (Load data (StepsDir copyRoot)).

Definition prepareHost (rootMount copyRoot : string) (cfg : PackageConfig) : Go unit :=
  let* _ := wrap "copying package root overlay: %w" []
    (CopyTreeIfExistsFollowingSymlinks rootMount (Join [copyRoot; "root_dir"]) rootMount) in
  loop (fun _ expected =>
    if negb (IsLocal expected) then raise (errorf "expected config file %q must be relative to the configmaps directory" [expected])
    else
      let* found := attempt (os_stat (Join [copyRoot; "configmaps"; expected])) in
      match found with
      | Err e =>
          if errors_Is e ErrNotExist then raise (errorf "expected config file %q was not found in the configmaps directory" [expected])
          else raise (wrapf "stating expected config file %q: %w" [expected] e)
      | Panic => lift Panic
      | Ok info => if negb (IsRegular info) then raise (errorf "expected config file %q is not a regular file" [expected]) else ret tt
      end) tt (pc_ExpectedConfigFiles cfg).

Definition copyResolverConfig (rootMount : string) : Go unit :=
  let source := Join ["/"; "etc"; "resolv.conf"] in
  let* destination := wrap "resolving host resolver path: %w" [] (lift (HostPathToMounted rootMount source)) in
  wrap "copying resolver configuration: %w" [] (CopyFileFollowingSymlinks rootMount source destination).

(* ------------------------------------------------------------------ *)
(** ** log.go *)

Definition logFileMode : Z := 384.

(** The file that is closed in the end, and the logs that are retained. *)
Record operationLog := {
  ol_stdout : writer; ol_stderr : writer; ol_file : option (list string); ol_files : option LogFiles; ol_operation : string
}.

Definition closeLog (log : operationLog) : Go unit :=
  match ol_file log with
  | Some file => wrap "closing log for %s: %w" [ol_operation log] (file_close file)
  | None => ret tt
  end.

Definition prepareOperationLog (runtime : runtimeConfig) (layout : Layout) (cfg : PackageConfig) (logPath operation : string) : Go operationLog :=
  if negb (rt_writeLogs runtime)
  then ret {| ol_stdout := Some [Stdout]; ol_stderr := Some [Stderr]; ol_file := None; ol_files := None; ol_operation := operation |}
  else
    let* now := time_now in
    let* '(_, file) := wrap "preparing log for %s: %w" [operation] (CreateLogFile layout cfg logPath now logFileMode) in
    let prepared files := {| ol_stdout := Some [Stdout; LogFile file]; ol_stderr := Some [Stderr; LogFile file]; ol_file := Some file;
                             ol_files := files; ol_operation := operation |} in
    match LogFilePattern layout cfg logPath with
    | Ok files => ret (prepared (Some files))
    | Err e =>
        let* closed := try (closeLog (prepared None)) in
        when_err (errors_Join [Some (wrapf "resolving log retention for %s: %w" [operation] e); closed]) (fun e => e) (lift Panic)
    | Panic => lift Panic
    end.

Definition finalize (log : operationLog) : Go unit :=
  let* closeErr := try (closeLog log) in
  let* cleanupErr :=
    match ol_files log with
    | Some files => try (wrap "cleaning old logs for %s: %w" [ol_operation log] (CleanupOldLogs files DefaultLogRetention))
    | None => ret None
    end in
  when_err (errors_Join [closeErr; cleanupErr]) (fun e => e) (ret tt).

(** [execution.NewConfig]; an error closes the log. *)
Definition execution_config (req : request) (log : operationLog) (what : error -> error) : Go Run.Config :=
  match Run.NewConfig [Run.WithRootMount (rq_rootMount req); Run.WithStepRoot (StepsDir (rq_copyDir req)); Run.WithSkyhookDir (rq_copyDir req);
                       Run.WithRunOutput (ol_stdout log) (ol_stderr log)] with
  | Ok config => ret config
  | Err e => let* finalized := try (finalize log) in when_err (errors_Join [Some (what e); finalized]) (fun e => e) (lift Panic)
  | Panic => lift Panic
  end.

(* ------------------------------------------------------------------ *)
(** ** steps.go *)

Definition isUpgradeStage (currentStage : string) : bool := bool_decide (currentStage = Stage.Upgrade) || bool_decide (currentStage = Stage.UpgradeCheck).

Definition recordsHistory (currentStage : string) : bool :=
  bool_decide (currentStage ∈ [Stage.ApplyCheck; Stage.UpgradeCheck; Stage.UninstallCheck]).

Definition formatLegacyIdempotence (value : string) : string :=
  if bool_decide (value = Auto) then "Idempotence.Auto"
  else if bool_decide (value = Disabled) then "Idempotence.Disabled" else "Idempotence." +:+ value.

Definition writeStepHeader (currentStage : string) (value : Step) : Go unit :=
  let metadata := ExecutionMetadata_of value in
  write_out (join " " [currentStage; Path value; FormatLegacyArguments (em_Arguments metadata); FormatLegacyReturnCodes (em_ReturnCodes metadata);
    formatLegacyIdempotence (Idempotence value); formatLegacyBool (em_OnHost metadata)] +:+ newline).

(** [runStep]; [markComplete] runs when the step succeeded. *)
Definition agent_runStep (req : request) (runtime : runtimeConfig) (layout : Layout) (cfg : PackageConfig) (value : Step)
    (markComplete : option (Go unit)) : Go Status :=
  let operation := "step %q" +:+ Path value in
  let* log := prepareOperationLog runtime layout cfg (Path value) operation in
  let* runConfig := execution_config req log (wrapf "configuring step %q execution: %w" [Path value]) in
  let* ran := attempt (Step_Run runConfig value) in
  let* markErr :=
    match ran, markComplete with Ok StatusSuccess, Some mark => try mark | _, _ => ret None end in
  let* finalizeErr := try (finalize log) in
  let runErr := match ran with Err e => Some (wrapf "running step %q: %w" [Path value] e) | _ => None end in
  when_err (errors_Join [runErr; markErr; finalizeErr]) (fun e => e) (lift ran).

Record checkResult := { cr_path : string; cr_failed : bool }.

Definition summarizeChecks (currentStage : string) (results : list checkResult) (flagStore : fileStore) (layout : Layout) : Go Status :=
  let lines := map (fun r => cr_path r +:+ " " +:+ (if cr_failed r then "True" else "False")) results in
  let failed := any cr_failed results in
  let* _ := wrap "writing check results for stage %q: %w" [currentStage]
    (Store_Write flagStore (Join [FlagDir layout; "check_results"]) (join newline lines)) in
  if failed then ret StatusFailed
  else
    let* _ := wrap "writing completed-check flag for stage %q: %w" [currentStage]
      (Store_Write flagStore (Join [FlagDir layout; currentStage +:+ "_ALL_CHECKED"]) "") in
    ret StatusSuccess.

Definition removeStepFlags (cfg : PackageConfig) (flagStore : fileStore) : Go unit :=
  loop (fun _ currentStage =>
    loop (fun _ value => wrap "removing completion flag for step %q: %w" [Path value] (Remove flagStore value)) tt (steps_of (pc_Modes cfg) currentStage))
    tt Stage.All.

Definition RFC3339Nano := "2006-01-02T15:04:05.999999999Z07:00".

Definition completion_message (now : Z) (value : Step) : string :=
  "last_run: " +:+ time_format RFC3339Nano now +:+ newline +:+ "step_always_runs: " +:+
    (if bool_decide (Idempotence value = Disabled) then "true" else "false").

Definition mark_complete (flagStore : fileStore) (value : Step) : Go unit :=
  let* now := time_now in
  let* _ := wrap "marking step %q complete: %w" [Path value] (Mark flagStore value (completion_message now value)) in
  ret tt.

(** What one round of [runSteps] leaves: the stage goes on, with the results of
    the checks so far, or it has failed. *)
Inductive progress := Continue (results : list checkResult) | StageFailed.

Definition one_step (req : request) (runtime : runtimeConfig) (layout : Layout) (cfg : PackageConfig) (flagStore : fileStore)
    (versions : Versions) (results : list checkResult) (configuredStep : Step) : Go progress :=
  let stage := rq_stage req in
  let isCheck := bool_decide (is_Some (Stage.CheckToApply !! stage)) in
  let* cancelled := ctx_err in
  when_err cancelled (wrapf "running stage %q: %w" [stage])
    (let runnableStep := if isUpgradeStage stage then WithVersions (v_Previous versions) (v_Current versions) configuredStep else configuredStep in
     let* run :=
       if isCheck then ret true
       else
         let* decision := wrap "checking completion for step %q: %w" [Path configuredStep]
           (Check flagStore configuredStep (rt_alwaysRunStep runtime) stage) in
         ret (d_Run decision) in
     if negb run then ret (Continue results)
     else
       let* _ := wrap "writing execution header for step %q: %w" [Path configuredStep] (writeStepHeader stage runnableStep) in
       let markComplete := if isCheck then None else Some (mark_complete flagStore configuredStep) in
       let* status := agent_runStep req runtime layout cfg runnableStep markComplete in
       if isCheck then ret (Continue (results ++ [{| cr_path := Path configuredStep; cr_failed := negb (bool_decide (status = StatusSuccess)) |}]))
       else if negb (bool_decide (status = StatusSuccess)) then ret StageFailed
       else ret (Continue results)).

Fixpoint each_step (req : request) (runtime : runtimeConfig) (layout : Layout) (cfg : PackageConfig) (flagStore : fileStore)
    (versions : Versions) (results : list checkResult) (steps : list Step) : Go progress :=
  match steps with
  | [] => ret (Continue results)
  | configuredStep :: steps =>
      let* p := one_step req runtime layout cfg flagStore versions results configuredStep in
      match p with
      | StageFailed => ret StageFailed
      | Continue results => each_step req runtime layout cfg flagStore versions results steps
      end
  end.

Definition runSteps (req : request) (runtime : runtimeConfig) (layout : Layout) (cfg : PackageConfig) (flagStore : fileStore)
    (history : historyStore) : Go Status :=
  let stage := rq_stage req in
  let* _ := wrap "writing agent start flag: %w" [] (Store_Write flagStore (Join [FlagDir layout; "START"]) "") in
  let configuredSteps := steps_of (pc_Modes cfg) stage in
  let* versions :=
    if isUpgradeStage stage then wrap "reading package history for stage %q: %w" [stage] (Read history)
    else ret {| v_Previous := ""; v_Current := "" |} in
  let isCheck := bool_decide (is_Some (Stage.CheckToApply !! stage)) in
  let checks := isCheck && negb (bool_decide (length configuredSteps = 0%nat)) in
  let* _ :=
    if checks then wrap "clearing completed-check flag for stage %q: %w" [stage]
      (RemoveFile (rq_rootMount req) (Join [FlagDir layout; stage +:+ "_ALL_CHECKED"]))
    else ret tt in
  let* p := each_step req runtime layout cfg flagStore versions [] configuredSteps in
  match p with
  | StageFailed => ret StatusFailed
  | Continue results =>
      let* status := if checks then summarizeChecks stage results flagStore layout else ret StatusSuccess in
      if bool_decide (status = StatusFailed) then ret StatusFailed
      else
        let* _ :=
          if recordsHistory stage then
            let* now := time_now in
            wrap "recording package history for stage %q: %w" [stage] (Record_ history stage now)
          else ret tt in
        let* _ := if bool_decide (stage = Stage.UninstallCheck) then removeStepFlags cfg flagStore else ret tt in
        ret StatusSuccess
  end.

(* ------------------------------------------------------------------ *)
(** ** interrupt.go *)

Definition markerFileMode : Z := 384.
Definition hostBootIDPath := "/proc/sys/kernel/random/boot_id".
Definition restartMarkerPrefix := "boot-id:".

Definition interruptCompletionMarkers (layout : Layout) (resourceID : string) (value : Interrupt) : list string :=
  let baseDirectory := Join [StateDir layout; "interrupts"; "flags"; resourceID] in
  match value with
  | ScriptInterrupt => []
  | NoOp => [Join [baseDirectory; Type_of value +:+ ".complete"]]
  | _ =>
      let operationCount := default 1%nat (OperationCount value) in
      map (fun index => Join [baseDirectory; Type_of value +:+ "_" +:+ show_int (Z.of_nat index) +:+ ".complete"]) (seq 0 operationCount)
  end.

Definition completedInterruptOperations (rootMount : string) (markers : list string) : Go (list bool) :=
  loop (fun completed marker =>
    let* exists_ := wrap "checking interrupt completion marker %q: %w" [marker] (RegularFileExists rootMount marker) in
    ret (completed ++ [exists_])) [] markers.

Definition allOperationsComplete (completed : list bool) : bool := all (fun b => b) completed.

Definition markInterruptComplete (rootMount marker : string) : Go unit :=
  let* now := time_now in CreateFile rootMount marker (time_format RFC3339Nano now) markerFileMode.

Definition hostBootID (rootMount : string) : Go string :=
  let* path := lift (HostPathToMounted rootMount hostBootIDPath) in
  let* data := ReadFile rootMount path in
  let bootID := TrimSpace data in
  if bool_decide (bootID = "") then raise (errorf "host boot ID is empty" []) else ret bootID.

(** The boot that a pending marker holds. *)
Definition marked_boot (data : string) : option string :=
  match cut_prefix (TrimSpace data) restartMarkerPrefix with
  | Some previousBootID => if bool_decide (previousBootID = "") then None else Some previousBootID
  | None => None
  end.

Definition pending_marker (completeMarker : string) : string := trim_suffix completeMarker ".complete" +:+ ".pending".

(** The pending marker, and whether the host has restarted since it was made. *)
Definition prepareNodeRestartMarker (rootMount completeMarker : string) : Go (string * bool) :=
  let* bootID := wrap "reading host boot ID: %w" [] (hostBootID rootMount) in
  let pendingMarker := pending_marker completeMarker in
  let mark_pending :=
    let* _ := wrap "marking node restart pending: %w" []
      (CreateFile rootMount pendingMarker (restartMarkerPrefix +:+ bootID +:+ newline) markerFileMode) in
    ret (pendingMarker, false) in
  let* pending := wrap "checking pending node restart: %w" [] (RegularFileExists rootMount pendingMarker) in
  if pending : bool then
    let* data := wrap "reading pending node restart: %w" [] (ReadFile rootMount pendingMarker) in
    if match marked_boot data with Some previousBootID => negb (bool_decide (previousBootID = bootID)) | None => false end then
      let* _ := wrap "completing node restart marker: %w" [] (RenameFile rootMount pendingMarker completeMarker) in
      ret (pendingMarker, true)
    else
      let* _ := wrap "removing stale node restart marker: %w" [] (RemoveFile rootMount pendingMarker) in
      mark_pending
  else mark_pending.

Definition mark_operation (rootMount : string) (completeMarkers : list string) (index : nat) : Go unit :=
  match completeMarkers !! index with
  | None => raise (errorf "interrupt operation index %d is out of range" [show_int (Z.of_nat index)])
  | Some marker => markInterruptComplete rootMount marker
  end.

Definition executeInterrupt (rootMount : string) (value : Interrupt) (runConfig : Run.Config) (completedOperations : list bool)
    (completeMarkers : list string) : Go Status :=
  match OperationCount value with
  | Some _ => RunPending value runConfig completedOperations (mark_operation rootMount completeMarkers)
  | None =>
      let* status := Interrupt_Run value runConfig in
      if negb (bool_decide (status = StatusSuccess)) || bool_decide (value = NodeRestart) || bool_decide (completeMarkers = [])
      then ret status
      else
        let* _ := loop (fun _ '(marker, completed) =>
          if completed : bool then ret tt
          else wrap "marking interrupt %q complete: %w" [Type_of value] (markInterruptComplete rootMount marker))
          tt (zip completeMarkers completedOperations) in
        ret status
  end.

(** Until the interrupt is executed, an error removes the pending marker. *)
Definition runInterrupt (req : request) (runtime : runtimeConfig) (layout : Layout) (value : Interrupt) : Go Status :=
  let interruptType := Type_of value in
  let completeMarkers := interruptCompletionMarkers layout (rt_resourceID runtime) value in
  let* completedOperations := completedInterruptOperations (rq_rootMount req) completeMarkers in
  if (0 <? zlen completedOperations) && allOperationsComplete completedOperations then ret StatusSuccess
  else
    let* '(pendingMarker, completed) :=
      if bool_decide (value = NodeRestart) then
        let* complete := lift (deref (head completeMarkers)) in
        let* '(marker, completed) := prepareNodeRestartMarker (rq_rootMount req) complete in
        ret (Some marker, completed)
      else ret (None, false) in
    if completed : bool then ret StatusSuccess
    else
      let remove_pending :=
        match pendingMarker with
        | Some marker => try (wrap "removing failed node restart marker: %w" [] (RemoveFile (rq_rootMount req) marker))
        | None => ret None
        end in
      let* '(log, runConfig) := on_error
        (let* logConfig :=
           if rt_writeLogs runtime
           then wrap "resolving interrupt log identity: %w" [] (lift (configFromResourceID (rt_resourceID runtime)))
           else ret {| pc_SchemaVersion := ""; pc_RootDir := ""; pc_ExpectedConfigFiles := []; pc_PackageName := ""; pc_PackageVersion := "";
                       pc_Modes := ∅ |} in
         let* log := prepareOperationLog runtime layout logConfig (Join ["interrupts"; interruptType]) ("interrupt %q" +:+ interruptType) in
         let* runConfig := execution_config req log (wrapf "configuring interrupt %q execution: %w" [interruptType]) in
         ret (log, runConfig))
        remove_pending in
      let* executed := attempt (executeInterrupt (rq_rootMount req) value runConfig completedOperations completeMarkers) in
      let* finalizeErr := try (finalize log) in
      let runErr := match executed with Err e => Some (wrapf "running interrupt %q: %w" [interruptType] e) | _ => None end in
      when_err (errors_Join [runErr; finalizeErr]) (fun e => e) (lift executed).

Definition runDecodedInterrupt (req : request) (runtime : runtimeConfig) (layout : Layout) : Go Status :=
  let* value := wrap "decoding interrupt: %w" [] (lift (Interrupt_Decode (rq_interruptData req))) in
  runInterrupt req runtime layout value.

(* ------------------------------------------------------------------ *)
(** ** agent.go: a run *)

Definition runRequest (req : request) (runtime : runtimeConfig) : Go Status :=
  let runtime := normalizeRuntime runtime in
  let* _ := validateRun_agent req runtime in
  let* _ := if rt_copyResolver runtime then wrap "copying resolver configuration: %w" [] (copyResolverConfig (rq_rootMount req)) else ret tt in
  let* copyRoot := wrap "resolving package copy directory: %w" [] (lift (HostPathToMounted (rq_rootMount req) (rq_copyDir req))) in
  let* _ := wrap "preparing package data: %w" [] (ensurePackageData (rq_rootMount req) copyRoot (rt_dataDir runtime) legacyNodeFilesDir) in
  let* layout := wrap "preparing agent filesystem layout: %w" [] (lift (NewLayout (rq_rootMount req) (rt_stateRoot runtime) (rt_logRoot runtime))) in
  if bool_decide (rq_stage req = Stage.Interrupt) then runDecodedInterrupt req runtime layout
  else
    let* cfg := loadConfig copyRoot in
    let* _ :=
      if negb (bool_decide (rq_stage req = Stage.Uninstall)) && negb (bool_decide (rq_stage req = Stage.UninstallCheck))
      then prepareHost (rq_rootMount req) copyRoot cfg else ret tt in
    let* flagStore := wrap "constructing flag store: %w" [] (lift (NewStore layout cfg)) in
    let* historyStore := wrap "constructing history store: %w" [] (lift (newHistoryStore layout cfg)) in
    runSteps req runtime layout cfg flagStore historyStore.

(** [Run]: the exit code; what is printed for the user may fail. *)
Definition Agent_Run (version : string) (arguments : list string) : Go Z :=
  let complain text := try (write_out (text +:+ newline)) in
  match arguments with
  | "--version" :: rest =>
      if negb (bool_decide (rest = []))
      then
        let* _ := complain "--version does not accept additional arguments" in
        let* _ := complain usage in
        ret ExitUsage
      else
        let* failed := try (write_out (version +:+ newline)) in
        match failed with Some _ => ret ExitFailure | None => ret ExitSuccess end
  | _ =>
      match parseRequest arguments with
      | Panic => lift Panic
      | Err e =>
          match as_unsupported e with
          | Some _ => ret ExitSuccess
          | None =>
              let* _ := complain "error" in
              let* _ := complain usage in
              ret ExitUsage
          end
      | Ok req =>
          let runtime := runtimeFromEnvironment in
          let* failed := try (printStartupBanner req runtime) in
          match failed with
          | Some _ => ret ExitFailure
          | None =>
              let* ran := attempt (runRequest req runtime) in
              match ran with
              | Ok StatusSuccess => ret ExitSuccess
              | Ok StatusFailed | Err _ => ret ExitFailure
              | Panic => lift Panic
              end
          end
      end
  end.

End Agent.
