(* ===== verification/StorePaths.v ===== *)
(** * Where the agent's files are

    The paths that [Flags] and [History] build, as the components they have below
    the mounted root: every one is below its own directory, and none is named
    like the temporary files of [HostFs.WriteFile]. *)

From stdpp Require Import pretty.
From S2P Require Import Prelude Effects Encoding Sha256 Json Paths Host HostFs HostWatch Stages Command Step PackageConfig Flags History HostInterrupts Agent.

#[local] Open Scope Z_scope.
#[local] Open Scope go_scope.

(* ------------------------------------------------------------------ *)
(** ** Text *)

Lemma append_inj_suffix a b s t : a +:+ s = b +:+ t -> String.length s = String.length t -> a = b /\ s = t.
Proof.
  revert b; induction a as [|x a IH]; intros [|y b] E Hl.
  - by split.
  - rewrite append_nil_l in E. subst s. rewrite length_append in Hl. simpl in Hl. lia.
  - rewrite append_nil_l in E. subst t. rewrite length_append in Hl. simpl in Hl. lia.
  - rewrite !append_cons in E. injection E as -> E. by destruct (IH b E Hl) as [-> ->].
Qed.

Lemma str_rev_onto_app a : forall b acc, str_rev_onto (a +:+ b) acc = str_rev_onto b (str_rev_onto a acc).
Proof. induction a as [|x a IH]; intros b acc; [done|]. rewrite append_cons. simpl. apply IH. Qed.

Lemma str_rev_onto_acc s : forall acc, str_rev_onto s acc = str_rev s +:+ acc.
Proof.
  unfold str_rev. induction s as [|x s IH]; intros acc; [done|]. simpl. rewrite IH, (IH (String x "")). by rewrite append_assoc.
Qed.

Lemma str_rev_app a b : str_rev (a +:+ b) = str_rev b +:+ str_rev a.
Proof. unfold str_rev at 1. rewrite str_rev_onto_app, str_rev_onto_acc. done. Qed.

Lemma str_rev_cons x s : str_rev (String x s) = str_rev s +:+ String x "".
Proof. change (String x s) with (String x "" +:+ s). by rewrite str_rev_app. Qed.

Lemma str_rev_involutive s : str_rev (str_rev s) = s.
Proof. induction s as [|x s IH]; [done|]. by rewrite str_rev_cons, str_rev_app, IH. Qed.

Lemma trim_left_spec c s : exists a, s = a +:+ trim_left c s /\ (forall rest, trim_left c s <> String c rest) /\
  (a <> "" -> exists rest, s = String c rest).
Proof.
  induction s as [|x s (a & Hs & Hh & Ha)]; simpl; [by exists ""|]. case_bool_decide as Hx.
  - subst. exists (String c a). rewrite append_cons, <- Hs. split_and!; [done|done|]. intros _. by eexists.
  - exists "". split_and!; [done|by intros rest [= ? _]|done].
Qed.

Lemma cut_at_last_some c s before after : cut_at_last c s = Some (before, after) -> s = before +:+ String c after /\ contains_char c after = false.
Proof.
  revert before after; induction s as [|x s IH]; intros before after; simpl; [done|].
  destruct (cut_at_last c s) as [[b a]|] eqn:E.
  - intros [= <- <-]. destruct (IH b a eq_refl) as [-> Hf]. by split.
  - case_bool_decide as Hx; [|done]. intros [= <- <-]. subst. split; [done|]. clear IH.
    induction s as [|y s IHs]; [done|]. simpl in *. destruct (cut_at_last c s) as [[]|]; [done|]. case_bool_decide; [done|]. by apply IHs.
Qed.

Lemma cut_at_last_free c s : cut_at_last c s = None -> contains_char c s = false.
Proof.
  induction s as [|x s IH]; [done|]. simpl. destruct (cut_at_last c s) as [[]|]; [done|]. case_bool_decide; [done|]. intros _. by apply IH.
Qed.

(** [filepath.Base] of a local path is one word. *)
Lemma Base_local p : IsLocal p = true -> contains_char slash (Base p) = false /\ Base p <> "".
Proof.
  intros H. destruct (local_rel _ H) as [Ha Hne]. unfold Base. rewrite bool_decide_eq_false_2 by done.
  destruct (trim_left_spec slash (str_rev p)) as (a & Hs & Hh & Hslash). set (q := trim_left slash (str_rev p)) in *.
  assert (str_rev q <> "") as Hq.
  { intros E. apply (f_equal str_rev) in E. rewrite str_rev_involutive in E. simpl in E. rewrite E, append_nil_r in Hs.
    assert (a <> "") as Hane. { intros ->. apply Hne. apply (f_equal str_rev) in Hs. by rewrite str_rev_involutive in Hs. }
    assert (forall t, (forall x, contains_char x t = true -> x = slash) -> t <> "" -> IsAbs t = true) as Hall.
    { intros t Ht Htne. destruct t as [|x t]; [done|]. rewrite (Ht x); [|simpl; by rewrite bool_decide_eq_true_2]. apply (IsAbs_slash t). }
    enough (IsAbs p = true) by congruence. apply Hall; [|done]. clear -E.
    assert (forall s, trim_left slash s = "" -> forall x, contains_char x s = true -> x = slash) as Ht.
    { induction s as [|y s IH]; [done|]. simpl. case_bool_decide as Hy; [|done]. intros Hs x. rewrite orb_true_iff, bool_decide_eq_true.
      intros [->|Hx]; [done|by apply IH]. }
    intros x Hx. apply (Ht _ E). rewrite <- (str_rev_involutive p) in Hx. revert Hx. generalize (str_rev p). intros s Hx.
    assert (forall u, contains_char x (str_rev u) = contains_char x u) as Hrev.
    { induction u as [|y u IH]; [done|]. rewrite str_rev_cons, contains_char_app, IH. simpl. by rewrite orb_false_r, orb_comm. }
    by rewrite Hrev in Hx. }
  destruct (cut_at_last slash (str_rev q)) as [[before after]|] eqn:E.
  - apply cut_at_last_some in E as [E Hf]. assert (after <> "") as Hafter.
    { intros ->. apply (f_equal str_rev) in E. rewrite str_rev_involutive, str_rev_app in E. by apply (Hh (str_rev before)). }
    rewrite bool_decide_eq_false_2 by done. by split.
  - apply cut_at_last_free in E. rewrite bool_decide_eq_false_2 by done. by split.
Qed.

Lemma ValidatePathComponent_plain name value : ValidatePathComponent name value = Ok tt -> plain value /\ IsLocal value = true.
Proof.
  unfold ValidatePathComponent. repeat case_bool_decide; simpl; try done; destruct (IsLocal value) eqn:El; simpl; try done.
  intros _. destruct (Base_local _ El) as [Hf _]. split; [|done]. split_and!; try done; [intros ->; by vm_compute in El|congruence].
Qed.

Lemma plain_local c : plain c -> IsLocal c = true /\ clean_parts c = [c].
Proof.
  intros H. assert (Forall plain [c]) as Hf by by apply Forall_singleton. by split; [apply (local_join [c])|apply (clean_parts_join [c])].
Qed.

(** The digits of a number. *)
Lemma decimal_free c s acc n : digit_value c = None -> decimal acc s = Some n -> contains_char c s = false.
Proof.
  intros Hc. revert acc; induction s as [|a s IH]; intros acc; [done|]. cbn [decimal]. destruct (digit_value a) as [v|] eqn:Ea; [|done].
  intros H. apply IH in H. simpl. rewrite H, orb_false_r. apply bool_decide_eq_false_2. congruence.
Qed.

Lemma show_int_free c z : digit_value c = None -> 0 <= z -> contains_char c (show_int z) = false.
Proof.
  intros Hc Hz. assert (show_int z = pretty (Z.to_N z)) as -> by by destruct z.
  pose proof (unsigned_pretty (Z.to_N z)) as H. unfold unsigned in H. case_bool_decide; [done|]. exact (decimal_free _ _ _ _ Hc H).
Qed.

Lemma show_nat_free n : contains_char slash (show_int (Z.of_nat n)) = false.
Proof. by apply show_int_free; [|lia]. Qed.

(* ------------------------------------------------------------------ *)
(** ** Absolute paths, and what is appended to them *)

Lemma cut_prefix_app p a : cut_prefix (p +:+ a) p = Some a.
Proof. induction p as [|x p IH]; [by destruct a|]. rewrite append_cons. simpl. by rewrite bool_decide_eq_true_2. Qed.

Lemma trim_suffix_app a p : trim_suffix (a +:+ p) p = a.
Proof. unfold trim_suffix, trim_prefix. by rewrite str_rev_app, cut_prefix_app, str_rev_involutive. Qed.

Lemma absolute_parts l : Forall plain l -> IsAbs (absolute l) = true /\ clean_parts (absolute l) = l.
Proof.
  intros Hl. assert (IsAbs (absolute l) = true) as Ha by apply IsAbs_slash. split; [done|]. unfold clean_parts. rewrite Ha.
  destruct l as [|c l]; [done|]. unfold absolute. rewrite split_absolute by done. change (foldl (clean_step true) [] ("" :: c :: l)) with (foldl (clean_step true) (clean_step true [] "") (c :: l)).
  rewrite clean_step_skip, clean_fold_plain, app_nil_r by (by try left). apply rev_involutive.
Qed.

Lemma Clean_absolute p : IsAbs p = true -> Clean p = absolute (clean_parts p).
Proof. apply Clean_abs. Qed.

Lemma join_last l c t : join "/" (l ++ [c]) +:+ t = join "/" (l ++ [c +:+ t]).
Proof.
  destruct (decide (l = [])) as [->|Hl]; [done|]. rewrite !join_snoc by done. by rewrite append_assoc, append_cons.
Qed.

Lemma absolute_last l c t : absolute (l ++ [c]) +:+ t = absolute (l ++ [c +:+ t]).
Proof. unfold absolute. by rewrite append_assoc, join_last. Qed.

(** A clean path by its components. *)
Lemma clean_path p l : IsAbs p = true -> Clean p = p -> clean_parts p = l -> p = absolute l.
Proof. intros Ha Hc <-. rewrite <- Hc at 1. by apply Clean_absolute. Qed.

Lemma Join_clean a l : IsAbs a = true -> Clean (Join (a :: l)) = Join (a :: l).
Proof.
  intros Ha. unfold Join. cbn [drop_empty]. rewrite bool_decide_eq_false_2 by by apply IsAbs_nonempty. apply Clean_idemp.
  destruct l as [|b l]; [done|]. rewrite join_cons by done. by apply IsAbs_app.
Qed.

(* ------------------------------------------------------------------ *)
(** ** The layout *)

Lemma Clean_of_local p : IsLocal p = true -> Clean p = local_path (clean_parts p).
Proof.
  intros H. destruct (local_rel _ H) as [Ha _]. pose proof (local_parts _ H) as Hp. unfold Clean, local_path. rewrite Ha.
  destruct (clean_parts p) as [|c l]; [done|]. rewrite bool_decide_eq_false_2; [done|].
  destruct (local_rel _ (local_join (c :: l) ltac:(done) Hp)) as [_ ?]. done.
Qed.

Lemma Join_dir d c : IsLocal d = true -> Clean d = d -> plain c -> IsLocal (Join [d; c]) = true /\ clean_parts (Join [d; c]) = clean_parts d ++ [c].
Proof.
  intros Hd Hc Hp. pose proof (local_parts _ Hd) as Hl. rewrite <- Hc at 1 2. rewrite (Clean_of_local d Hd). rewrite Join_local by done.
  assert (Forall plain (clean_parts d ++ [c])) as Hf by (apply Forall_app; split; [done|by apply Forall_singleton]).
  split; [by apply local_path_local|]. destruct (clean_parts d ++ [c]) as [|x l] eqn:E; [by destruct (clean_parts d)|].
  change (local_path (x :: l)) with (join "/" (x :: l)). by apply clean_parts_join.
Qed.

Lemma clean_parts_up n l : Forall plain l -> repeat ".." n ++ l <> [] -> IsAbs (join "/" (repeat ".." n ++ l)) = false ->
  clean_parts (join "/" (repeat ".." n ++ l)) = repeat ".." n ++ l.
Proof.
  intros Hl Hne Ha. unfold clean_parts. rewrite Ha. rewrite split_join; [|done|].
  - assert (forall m k, foldl (clean_step false) (repeat ".." k) (repeat ".." m) = repeat ".." (m + k)) as Hf.
    { induction m as [|m IH]; intros k; [done|]. cbn [repeat foldl].
      replace (clean_step false (repeat ".." k) "..") with (repeat ".." (S k)) by by destruct k. rewrite IH. f_equal. lia. }
    pose proof (Hf n 0%nat) as Hn. change (repeat ".." 0) with ([] : list string) in Hn. rewrite foldl_app, Hn, clean_fold_plain by done. rewrite rev_app_distr, rev_involutive, Nat.add_0_r. f_equal.
    clear. induction n as [|n IH]; [done|]. cbn [repeat rev]. rewrite IH. by rewrite <- repeat_cons.
  - apply Forall_app. split; [|by apply plain_free]. clear. induction n; by constructor.
Qed.

(** A root of the layout: a clean local path. *)
Definition layout_root (r : string) : Prop := IsLocal r = true /\ Clean r = r.

Lemma normalizeLayoutRoot_ok name r root : normalizeLayoutRoot name r = Ok root -> layout_root root.
Proof.
  unfold normalizeLayoutRoot. case_bool_decide as H1; [done|]. simpl. destruct (IsLocal (Clean (trim_left slash r))) eqn:El; [|done].
  intros [= <-]. split; [done|]. destruct (local_rel _ El) as [Ha _]. set (t := trim_left slash r) in *.
  destruct (IsAbs t) eqn:Et; [by rewrite IsAbs_Clean in Ha|].
  destruct (clean_parts_rel _ Et) as (n & l & Hparts & Hl). unfold Clean in Ha, H1 |- * at 2 3. rewrite Et in *.
  case_bool_decide as Hj; [done|]. rewrite Hparts in *.
  unfold Clean. rewrite Ha, clean_parts_up; [by rewrite bool_decide_eq_false_2|done|by intros E; rewrite E in Hj|done].
Qed.

Lemma NewLayout_ok rootMount stateRoot logRoot layout : NewLayout rootMount stateRoot logRoot = Ok layout ->
  l_rootMount layout = normalizeRootMount rootMount /\ layout_root (l_stateRoot layout) /\ layout_root (l_logRoot layout).
Proof.
  unfold NewLayout. rewrite rbind_ok. intros (st & Hs & H). rewrite rbind_ok in H. destruct H as (lg & Hl & [= <-]).
  apply rwrap_ok, normalizeLayoutRoot_ok in Hs, Hl. by split_and!.
Qed.

Lemma normalizeRootMount_clean rootMount : IsAbs rootMount = true -> Clean rootMount = rootMount -> normalizeRootMount rootMount = rootMount.
Proof. intros Ha Hc. unfold normalizeRootMount. rewrite bool_decide_eq_false_2; [done|]. by apply IsAbs_nonempty. Qed.

(* ------------------------------------------------------------------ *)
(** ** Words *)

Lemma split_char_glue c a b : exists init y b1 bs, split_char c a = init ++ [y] /\ split_char c b = b1 :: bs /\
  split_char c (a +:+ b) = init ++ (y +:+ b1) :: bs.
Proof.
  pose proof (split_char_nonempty c b) as Hb. destruct (split_char c b) as [|b1 bs] eqn:Eb; [done|]. clear Hb.
  induction a as [|x a (init & y & b1' & bs' & Ha & [= <- <-] & Hab)].
  - exists [], "", b1, bs. by rewrite append_nil_l, Eb.
  - rewrite append_cons. simpl. rewrite Ha, Hab. case_bool_decide.
    + exists ("" :: init), y, b1, bs. done.
    + destruct init as [|w init]; simpl; [exists [], (String x y), b1, bs|exists (String x w :: init), y, b1, bs]; done.
Qed.

Lemma split_char_contains (c d : ascii) s : c <> d -> Forall (fun w => contains_char d w = false) (split_char c s) <-> contains_char d s = false.
Proof.
  intros Hcd. induction s as [|x s IH]; simpl; [split; [done|by repeat constructor]|]. case_bool_decide as Hx.
  - subst. rewrite Forall_cons, IH. rewrite bool_decide_eq_false_2 by done. simpl. naive_solver.
  - pose proof (split_char_nonempty c s). destruct (split_char c s) as [|w ws]; [done|]. rewrite Forall_cons in IH. rewrite Forall_cons. simpl.
    rewrite !orb_false_iff. tauto.
Qed.

(** A word is added to a clean absolute path by what is appended to it. *)
Lemma clean_parts_app X e : IsAbs X = true ->
  clean_parts (X +:+ "/" +:+ e) = rev (foldl (clean_step true) (rev (clean_parts X)) (split_char slash e)).
Proof.
  intros Ha. unfold clean_parts at 1. rewrite IsAbs_app by done. change (X +:+ "/" +:+ e) with (X +:+ String slash e).
  rewrite split_char_app, foldl_app. unfold clean_parts. by rewrite Ha, rev_involutive.
Qed.

Lemma fold_words_last rooted kept ms w : Forall (fun m => m = "" \/ plain m) ms -> exists l x,
  foldl (clean_step rooted) (w :: kept) ms = x :: l /\ (x = w \/ x ∈ ms).
Proof.
  revert kept w; induction ms as [|m ms IH]; intros kept w Hm; [exists kept, w; by split; [|left]|].
  apply Forall_cons in Hm as [Hm Hms]. cbn [foldl]. destruct Hm as [->|Hm].
  - rewrite clean_step_skip by by left. destruct (IH kept w Hms) as (l & x & H & [->|Hx]); exists l; eexists; (split; [exact H|]); [by left|]. right. by right.
  - rewrite clean_step_plain by done. destruct (IH (w :: kept) m Hms) as (l & x & H & [->|Hx]); exists l; eexists; (split; [exact H|]); right; [by left|by right].
Qed.

Lemma contains_suffix c a s b t : a +:+ s = b +:+ t -> (String.length t <= String.length s)%nat -> contains_char c t = true -> contains_char c s = true.
Proof.
  intros E Hl Hc. assert (exists u, s = u +:+ t) as [u ->].
  { clear Hc. revert b E; induction a as [|x a IH]; intros b E; [by exists b|]. destruct b as [|y b].
    - rewrite append_nil_l in E. subst t. rewrite length_append in Hl. simpl in Hl. lia.
    - rewrite !append_cons in E. injection E as _ E. by eapply IH. }
  by rewrite contains_char_app, Hc, orb_true_r.
Qed.

(** An ending with a dot and no underscore is not that of a word that ends in an
    underscore and letters without dots. *)
Lemma marked_not_dotted y m a ext : contains_char "."%char m = false -> contains_char "."%char ext = true -> contains_char "_"%char ext = false ->
  y +:+ "_" +:+ m <> a +:+ ext.
Proof.
  intros Hm Hd Hu E. destruct (decide (String.length ext <= String.length m)%nat) as [Hl|Hl].
  - rewrite <- append_assoc in E. pose proof (contains_suffix "."%char _ _ _ _ E Hl Hd). congruence.
  - assert (String.length ("_" +:+ m) <= String.length ext)%nat as Hl' by (rewrite length_append; simpl; lia).
    pose proof (contains_suffix "_"%char _ _ _ _ (eq_sym E) Hl' eq_refl). congruence.
Qed.

Lemma no_dot_not_dotted w a ext : contains_char "."%char w = false -> contains_char "."%char ext = true -> w <> a +:+ ext.
Proof. intros Hw He ->. by rewrite contains_char_app, He, orb_true_r in Hw. Qed.

Lemma no_dot_not_temp w text : contains_char "."%char w = false -> w <> temp_name text.
Proof. intros Hw ->. by vm_compute in Hw. Qed.

Lemma marked_last X e m a ext : IsAbs X = true -> contains_char "."%char m = false -> contains_char "."%char ext = true ->
  contains_char "_"%char ext = false -> last (clean_parts (X +:+ "/" +:+ e +:+ "_" +:+ m)) <> Some (a +:+ ext).
Proof.
  intros Ha Hm Hext1 Hext2. rewrite clean_parts_app by done.
  destruct (split_char_glue slash e ("_" +:+ m)) as (init & y & b1 & bs & He & Hb & ->).
  assert (exists m1, b1 = "_" +:+ m1 /\ split_char slash m = m1 :: bs) as (m1 & -> & Hsm).
  { change ("_" +:+ m) with (String "_" m) in Hb. cbn [split_char] in Hb. rewrite bool_decide_eq_false_2 in Hb by done.
    destruct (split_char slash m) as [|w ws] eqn:E; [by apply split_char_nonempty in E|]. injection Hb as <- <-. by exists w. }
  pose proof (proj2 (split_char_contains slash "."%char m ltac:(done)) Hm) as Hdots. rewrite Hsm in Hdots. apply Forall_cons in Hdots as [Hd1 Hds].
  assert (contains_char slash (y +:+ "_" +:+ m1) = false) as Hslash.
  { rewrite !contains_char_app. pose proof (split_char_free slash e) as H1. rewrite He in H1. apply Forall_app in H1 as [_ H1].
    apply Forall_cons in H1 as [-> _]. pose proof (split_char_free slash m) as H2. rewrite Hsm in H2. apply Forall_cons in H2 as [-> _]. done. }
  assert (plain (y +:+ "_" +:+ m1)) as Hplain.
  { split_and!; [| | |done]; intros E; apply (f_equal (contains_char "_"%char)) in E; rewrite !contains_char_app in E; simpl in E;
      rewrite orb_true_r in E; done. }
  rewrite foldl_app. cbn [foldl]. rewrite clean_step_plain by done.
  destruct (fold_words_last true (foldl (clean_step true) (rev (clean_parts X)) init) bs (y +:+ "_" +:+ m1)) as (l & x & -> & Hx).
  - pose proof (split_char_free slash m) as H2. rewrite Hsm in H2. apply Forall_cons in H2 as [_ H2].
    apply List.Forall_forall. intros w Hw. rewrite List.Forall_forall in H2, Hds. specialize (H2 _ Hw). specialize (Hds _ Hw).
    destruct (word_cases w H2) as [[?|?]|[?|?]]; [by left|by subst|by subst|by right].
  - cbn [rev]. rewrite last_snoc. intros [= ->]. destruct Hx as [E|Hx].
    + symmetry in E. by apply (marked_not_dotted _ _ _ _ Hd1 Hext1 Hext2) in E.
    + apply list_elem_of_In in Hx. rewrite List.Forall_forall in Hds. specialize (Hds _ Hx). by apply (no_dot_not_dotted _ a ext) in Hds.
Qed.

(** The last word of a path with an ending. *)
Lemma last_word Y u t : IsAbs Y = true -> Y = u +:+ t -> contains_char slash t = false -> (2 < String.length t)%nat ->
  exists y, last (clean_parts Y) = Some (y +:+ t).
Proof.
  intros Ha -> Ht Hl. unfold clean_parts. rewrite Ha. destruct (split_char_glue slash u t) as (init & y & b & bs & Hu & Hb & ->).
  rewrite split_char_none in Hb by done. injection Hb as <- <-. exists y. rewrite foldl_app. cbn [foldl]. rewrite clean_step_plain; [by cbn [rev]; rewrite last_snoc|].
  assert (2 < String.length (y +:+ t))%nat as Hl' by (rewrite length_append; lia).
  split_and!; try (intros E; rewrite E in Hl'; simpl in Hl'; lia). rewrite contains_char_app, Ht, orb_false_r.
  pose proof (split_char_free slash u) as Hf. rewrite Hu in Hf. apply Forall_app in Hf as [_ Hf]. by apply Forall_cons in Hf as [? _].
Qed.

(* ------------------------------------------------------------------ *)
(** ** The markers of the interrupts *)

Section Markers.
Context (rootMount stateRoot logRoot : string) (layout : Layout).
Context (Hroot : IsAbs rootMount = true) (Hlayout : NewLayout rootMount stateRoot logRoot = Ok layout).

#[local] Set Default Proof Using "All".

Lemma layout_mount : IsAbs (l_rootMount layout) = true /\ clean_parts (l_rootMount layout) = clean_parts rootMount.
Proof.
  destruct (NewLayout_ok _ _ _ _ Hlayout) as (-> & _ & _). unfold normalizeRootMount.
  rewrite bool_decide_eq_false_2 by by apply IsAbs_nonempty. split; [by apply IsAbs_Clean|by apply clean_parts_Clean].
Qed.

Lemma StateDir_parts : IsAbs (StateDir layout) = true /\ clean_parts (StateDir layout) = clean_parts rootMount ++ clean_parts (l_stateRoot layout).
Proof.
  destruct layout_mount as [Ha Hc], (NewLayout_ok _ _ _ _ Hlayout) as (_ & [Hs _] & _).
  destruct (Join_abs (l_rootMount layout) [l_stateRoot layout] Ha) as [H1 H2]; [by repeat constructor|]. split; [done|].
  unfold StateDir. rewrite H2, Hc. simpl. by rewrite app_nil_r.
Qed.

Definition markers_dir (id : string) : list string := clean_parts (l_stateRoot layout) ++ ["interrupts"; "flags"; id].

Lemma marker_below id value marker : plain id -> marker ∈ interruptCompletionMarkers layout id value ->
  IsAbs marker = true /\ exists name, plain (name +:+ ".complete") /\ marker = Join [Join [StateDir layout; "interrupts"; "flags"; id]; name +:+ ".complete"] /\
    clean_parts marker = clean_parts rootMount ++ markers_dir id ++ [name +:+ ".complete"].
Proof.
  intros Hid Hm. assert (exists name, plain (name +:+ ".complete") /\ marker = Join [Join [StateDir layout; "interrupts"; "flags"; id]; name +:+ ".complete"])
    as (name & Hname & ->).
  { assert (forall name : string, contains_char slash name = false -> plain (name +:+ ".complete")) as Hp.
    { intros name Hn. assert (9 <= String.length (name +:+ ".complete"))%nat as Hl by (rewrite length_append; simpl; lia).
      split_and!; try (intros E; rewrite E in Hl; simpl in Hl; lia). by rewrite contains_char_app, Hn. }
    assert (forall count, marker ∈ map (fun index => Join [Join [StateDir layout; "interrupts"; "flags"; id];
      Type_of value +:+ "_" +:+ show_int (Z.of_nat index) +:+ ".complete"]) (seq 0 count) ->
      exists name, plain (name +:+ ".complete") /\ marker = Join [Join [StateDir layout; "interrupts"; "flags"; id]; name +:+ ".complete"]) as Hnum.
    { intros count (index & -> & _)%list_elem_of_fmap. exists (Type_of value +:+ "_" +:+ show_int (Z.of_nat index)). rewrite !append_assoc.
      split; [|done]. rewrite <- !append_assoc. apply Hp. rewrite !contains_char_app, show_nat_free. by destruct value. }
    unfold interruptCompletionMarkers in Hm. destruct value; try by eapply Hnum.
    - apply list_elem_of_singleton in Hm as ->. exists (Type_of NoOp). by split; [apply Hp|].
    - by apply elem_of_nil in Hm. }
  destruct (plain_local _ Hid) as [Hi1 Hi2], (plain_local _ Hname) as [Hn1 Hn2], StateDir_parts as [Ha Hc].
  destruct (Join_abs (StateDir layout) ["interrupts"; "flags"; id] Ha) as [H1 H2]; [by repeat constructor|].
  destruct (Join_abs _ [name +:+ ".complete"] H1) as [H3 H4]; [by repeat constructor|]. split; [done|]. exists name. split_and!; [done|done|].
  rewrite H4, H2, Hc. cbn [map concat]. rewrite Hi2, Hn2. unfold markers_dir. by rewrite <- !app_assoc.
Qed.

Lemma NodeRestart_markers id : plain id -> exists complete, interruptCompletionMarkers layout id NodeRestart = [complete] /\
  clean_parts complete = clean_parts rootMount ++ markers_dir id ++ ["node_restart_0.complete"] /\
  IsAbs (pending_marker complete) = true /\
  clean_parts (pending_marker complete) = clean_parts rootMount ++ markers_dir id ++ ["node_restart_0.pending"].
Proof.
  intros Hid. eexists. split; [done|].
  change (Type_of NodeRestart +:+ "_" +:+ show_int (Z.of_nat 0) +:+ ".complete") with "node_restart_0.complete".
  set (base := Join [StateDir layout; "interrupts"; "flags"; id]).
  destruct StateDir_parts as [Ha Hc], (plain_local _ Hid) as [Hi1 Hi2].
  destruct (Join_abs (StateDir layout) ["interrupts"; "flags"; id] Ha) as [H1 H2]; [by repeat constructor|]. fold base in H1, H2.
  destruct (Join_abs base ["node_restart_0.complete"] H1) as [H3 H4]; [by repeat constructor|].
  assert (clean_parts base = clean_parts rootMount ++ markers_dir id) as Hb.
  { rewrite H2, Hc. cbn [map concat]. rewrite Hi2. unfold markers_dir. by rewrite <- !app_assoc. }
  change (concat (map clean_parts ["node_restart_0.complete"])) with ["node_restart_0.complete"] in H4. split; [by rewrite H4, Hb, <- app_assoc|].
  pose proof (clean_path _ _ H3 (Join_clean _ _ H1) H4) as Hm. change "node_restart_0.complete" with ("node_restart_0" +:+ ".complete") in Hm at 2.
  rewrite <- absolute_last in Hm. unfold pending_marker. rewrite Hm, trim_suffix_app, absolute_last.
  destruct (absolute_parts (clean_parts base ++ ["node_restart_0" +:+ ".pending"])) as [H5 H6].
  { apply Forall_app. split; [by apply clean_parts_abs|]. by apply Forall_singleton. }
  split; [done|]. by rewrite H6, Hb, <- app_assoc.
Qed.

End Markers.

Section Store.
Context (layout : Layout) (cfg : PackageConfig) (st : fileStore).
Context (Hroot : IsAbs (l_rootMount layout) = true) (Hclean : Clean (l_rootMount layout) = l_rootMount layout).
Context (Hstate : layout_root (l_stateRoot layout)) (Hst : newFileStore layout cfg = Ok st).

#[local] Set Default Proof Using "All".

Lemma store_fields : st = {| fs_rootMount := l_rootMount layout; fs_dir := Join [l_stateRoot layout; "flags"];
  fs_packageName := pc_PackageName cfg; fs_packageVersion := pc_PackageVersion cfg |} /\ plain (pc_PackageName cfg) /\ plain (pc_PackageVersion cfg).
Proof.
  revert Hst. unfold newFileStore, validatePackagePath. rewrite rbind_unit_ok, rwrap_ok, rbind_unit_ok. intros ((H1 & H2) & [= <-]).
  apply ValidatePathComponent_plain in H1 as [? _], H2 as [? _]. done.
Qed.

(** The directory of all flags. *)
Definition flags_dir : list string := clean_parts (l_rootMount layout) ++ clean_parts (l_stateRoot layout) ++ ["flags"].

Lemma fs_dir_parts : IsLocal (fs_dir st) = true /\ clean_parts (fs_dir st) = clean_parts (l_stateRoot layout) ++ ["flags"].
Proof. destruct store_fields as (-> & _ & _). simpl. destruct Hstate. by apply Join_dir. Qed.

End Store.
