(* ===== verification/AgentRuns.v ===== *)
(** * What the agent runs

    [Agent.runSteps] and [HostInterrupts.RunPending] by the commands they run:
    which, in which order, how often, and how they ended when the agent says that
    the stage or the interrupt is done. *)

From S2P Require Import Prelude Effects Encoding Sha256 Json Paths Host HostFs Stages Command Step PackageConfig Flags History HostInterrupts Agent StorePaths.

#[local] Open Scope Z_scope.
#[local] Open Scope go_scope.

(* ------------------------------------------------------------------ *)
(** ** What runs nothing *)

Section Quiet.
Context `{MR : MapRange} `{J : JSON} `{S : JSONSchema} `{U : Unicode} `{T : TimeFormat} `{TJ : TimeJSON} `{W : World}.

Lemma create_log_each_quiet fuel : forall rootMount basePath mode collision,
  steps (emits quiet) (create_log_each fuel rootMount basePath mode collision).
Proof. induction fuel as [|fuel IH]; intros; cbn [create_log_each]; walk ltac:(first [apply IH|quiet_leaf]). Qed.

Lemma CreateLogFile_quiet layout cfg path at_ mode : steps (emits quiet) (CreateLogFile layout cfg path at_ mode).
Proof. walk ltac:(first [apply create_log_each_quiet|quiet_leaf]). Qed.

Lemma CleanupOldLogs_quiet files keep : steps (emits quiet) (CleanupOldLogs files keep).
Proof. walk quiet_leaf. Qed.

Lemma Store_Write_quiet st path data : steps (emits quiet) (Store_Write st path data).
Proof. walk quiet_leaf. Qed.

#[local] Hint Resolve CreateLogFile_quiet CleanupOldLogs_quiet Store_Write_quiet : quiet.

Lemma mark_each_quiet st v message todo : forall written, steps (emits quiet) (mark_each st v message written todo).
Proof. induction todo as [|[path existed] todo IH]; intros written; cbn [mark_each]; walk ltac:(first [apply IH|quiet_leaf]). Qed.

#[local] Hint Resolve mark_each_quiet : quiet.

Lemma Mark_quiet st v message : steps (emits quiet) (Mark st v message).
Proof. walk quiet_leaf. Qed.

Lemma Remove_quiet st v : steps (emits quiet) (Remove st v).
Proof. walk quiet_leaf. Qed.

Lemma Check_quiet st v always stage : steps (emits quiet) (Check st v always stage).
Proof. walk quiet_leaf. Qed.

Lemma Read_quiet h : steps (emits quiet) (Read h).
Proof. walk quiet_leaf. Qed.

Lemma Record_quiet h stage at_ : steps (emits quiet) (Record_ h stage at_).
Proof. walk quiet_leaf. Qed.

Lemma finalize_quiet log : steps (emits quiet) (finalize log).
Proof. walk quiet_leaf. Qed.

#[local] Hint Resolve Mark_quiet Remove_quiet Check_quiet Read_quiet Record_quiet finalize_quiet : quiet.

Lemma prepareOperationLog_quiet rt layout cfg path operation : steps (emits quiet) (prepareOperationLog rt layout cfg path operation).
Proof. walk quiet_leaf. Qed.

Lemma execution_config_quiet req log what : steps (emits quiet) (execution_config req log what).
Proof. walk quiet_leaf. Qed.

Lemma mark_complete_quiet st v : steps (emits quiet) (mark_complete st v).
Proof. walk quiet_leaf. Qed.

End Quiet.

#[export] Hint Resolve CreateLogFile_quiet CleanupOldLogs_quiet Store_Write_quiet Mark_quiet Remove_quiet Check_quiet Read_quiet Record_quiet
  finalize_quiet prepareOperationLog_quiet execution_config_quiet mark_complete_quiet : quiet.

(* ------------------------------------------------------------------ *)
(** ** The steps of a stage *)

Section Stages.
Context `{MR : MapRange} `{J : JSON} `{S : JSONSchema} `{U : Unicode} `{T : TimeFormat} `{TJ : TimeJSON} `{W : World}.

Lemma agent_runStep_traced req rt layout cfg v mark : (forall m, mark = Some m -> steps (emits quiet) m) ->
  traced (agent_runStep req rt layout cfg v mark) (step_trace (Path v) (run_arguments v) (accepted_codes v)).
Proof.
  intros Hmark. unfold agent_runStep.
  apply traced_bind_quiet; [walk quiet_leaf|intros log|intros; by apply step_trace_none|by apply step_trace_none].
  apply traced_bind_quiet; [walk quiet_leaf|intros config|intros; by apply step_trace_none|by apply step_trace_none].
  eapply traced_attempting; [apply Step_Run_traced| |done]. intros l ran [Hl Hs] s. exists []. split.
  - apply emits_quiet_runs. refine ((_ : steps (emits quiet) _) s). walk ltac:(first [by apply Hmark|quiet_leaf]).
  - rewrite app_nil_r. split; [done|]. intros E. apply Hs. revert E. unfold bind.
    repeat match goal with |- context [match ?m ?x with (_, _) => _ end] => destruct (m x) as [? [?|?|]]; try done end.
    unfold when_err. repeat case_match; done.
Qed.

(** A step as a stage runs it. *)
Definition prepared (stage : string) (versions : Versions) (s : Step) : Step :=
  if isUpgradeStage stage then WithVersions (v_Previous versions) (v_Current versions) s else s.

Definition is_check (stage : string) : bool := bool_decide (is_Some (Stage.CheckToApply !! stage)).

(** The steps that a completion flag does not hold back. *)
Definition must_run (rt : runtimeConfig) (stage : string) (s : Step) : Prop :=
  is_check stage = true \/ rt_alwaysRunStep rt = true \/ stage ∈ [Stage.Config; Stage.Uninstall; Stage.Upgrade] \/ Idempotence s = Disabled.

#[export] Instance must_run_dec rt stage s : Decision (must_run rt stage s).
Proof. unfold must_run. apply _. Defined.

Definition runs_script (stage : string) (versions : Versions) (s : Step) (c : process * outcome) : Prop :=
  script_of (Path s) (run_arguments (prepared stage versions s)) c.1.

Definition passed (s : Step) (c : process * outcome) : Prop := accepted (accepted_codes s) c.2.

Lemma Path_prepared stage versions s : Path (prepared stage versions s) = Path s.
Proof. unfold prepared. destruct (isUpgradeStage stage); [by destruct s|done]. Qed.

Lemma accepted_codes_prepared stage versions s : accepted_codes (prepared stage versions s) = accepted_codes s.
Proof. unfold prepared. destruct (isUpgradeStage stage); [by destruct s|done]. Qed.

Lemma Decide_must_run rt stage s exists_ : must_run rt stage s -> is_check stage = false ->
  d_Run (Decide exists_ (rt_alwaysRunStep rt) stage (Idempotence s)) = true.
Proof.
  unfold Decide. intros [?|[->|[Hs|Hs]]] Hc; [congruence|by destruct exists_|..]; destruct exists_, (rt_alwaysRunStep rt); try done; simpl.
  - by rewrite bool_decide_eq_true_2.
  - case_bool_decide; [done|]. by rewrite bool_decide_eq_true_2.
Qed.

Lemma Check_decides st s always stage z z' d : Check st s always stage z = (z', Ok d) -> exists b, d = Decide b always stage (Idempotence s).
Proof.
  unfold Check. intros H. do 5 (apply bind_ok in H as (? & ? & _ & H)).
  lazymatch type of H with (if ?b then _ else _) _ = _ => destruct b end.
  - apply bind_ok in H as (? & b & _ & H). exists b. destruct b; by injection H as _ <-.
  - exists true. by injection H as _ <-.
Qed.

(** What a round of the loop runs: the step's script or nothing. *)
Definition round_trace (rt : runtimeConfig) (stage : string) (versions : Versions) (results : list checkResult) (s : Step)
    (l : list (process * outcome)) (r : res progress) : Prop :=
  (l = [] \/ exists c, l = [c] /\ runs_script stage versions s c) /\
  (forall results', r = Ok (Continue results') -> exists news, results' = results ++ news /\
    (is_check stage = false \/ any cr_failed news = false -> (l = [] /\ ~ must_run rt stage s) \/ exists c, l = [c] /\ passed s c)).

Lemma round_trace_none rt stage versions results s r : (forall results', r <> Ok (Continue results')) ->
  round_trace rt stage versions results s [] r.
Proof. intros Hr. split; [by left|]. intros results' ->. by destruct (Hr results'). Qed.

Lemma one_step_traced req rt layout cfg st versions results s :
  traced (one_step req rt layout cfg st versions results s) (round_trace rt (rq_stage req) versions results s).
Proof.
  unfold one_step. apply traced_ctx. intros [e|]; [by apply traced_raise, round_trace_none|]. cbn [when_err].
  fold (prepared (rq_stage req) versions s). fold (is_check (rq_stage req)).
  apply (traced_bind _ _ (fun l r => l = [] /\ (r = Ok false -> ~ must_run rt (rq_stage req) s))).
  { intros z. exists []. split; [apply emits_quiet_runs; refine ((_ : steps (emits quiet) _) z); walk quiet_leaf|]. split; [done|].
    destruct (is_check (rq_stage req)) eqn:Ec; [done|]. unfold bind.
    intros H. destruct (wrap _ _ _ z) as [z1 [d|e|]] eqn:E; [|done..]. rewrite wrap_ok in E. apply Check_decides in E as [b ->]. simpl in H.
    injection H as H. intros Hm. by rewrite (Decide_must_run _ _ _ _ Hm Ec) in H. }
  - intros l run [-> Hrun]. simpl. destruct run; simpl; [clear Hrun|]; [|apply traced_ret; split; [by left|]].
    2:{ intros results' [= <-]. exists []. rewrite app_nil_r. split; [done|]. intros _. left. auto. }
    apply traced_bind_quiet; [walk quiet_leaf|intros _|intros; by apply round_trace_none|by apply round_trace_none].
    eapply traced_bind; [apply agent_runStep_traced| |..].
    + destruct (is_check (rq_stage req)); [done|]. intros m [= <-]. walk quiet_leaf.
    + intros l status [Hl Hs]. rewrite Path_prepared, accepted_codes_prepared in *.
      assert (l = [] \/ exists c, l = [c] /\ runs_script (rq_stage req) versions s c) as Hl'.
      { destruct Hl as [->|(p & o & -> & Hp)]; [by left|]. right. by exists (p, o). }
      assert (status = StatusSuccess -> exists c, l = [c] /\ passed s c) as Hs'.
      { intros ->. destruct (Hs eq_refl) as (p & o & -> & _ & Ho). by exists (p, o). }
      destruct (is_check (rq_stage req)) eqn:Ec; [|case_bool_decide as E; simpl]; apply traced_ret; unfold round_trace; rewrite app_nil_r, Ec; (split; [done|]).
      * intros results' [= <-]. eexists. split; [done|]. intros [?|Hok]; [done|]. right. apply Hs'. simpl in Hok. by case_bool_decide.
      * intros results' [= <-]. exists []. rewrite app_nil_r. split; [done|]. intros _. right. by apply Hs'.
      * done.
    + intros l e [Hl _]. split; [|done]. rewrite Path_prepared in Hl. destruct Hl as [->|(p & o & -> & Hp)]; [by left|]. right. by exists (p, o).
    + intros l [Hl _]. split; [|done]. rewrite Path_prepared in Hl. destruct Hl as [->|(p & o & -> & Hp)]; [by left|]. right. by exists (p, o).
  - intros l e [-> _]. by apply round_trace_none.
  - intros l [-> _]. by apply round_trace_none.
Qed.

(** What the loop runs: the scripts of some of the steps, in order.  Where a
    failure ends the stage, only the last of them may have failed; a stage that
    went through has left out no step that had to run. *)
Definition loop_trace (rt : runtimeConfig) (stage : string) (versions : Versions) (todo : list Step) (results : list checkResult)
    (l : list (process * outcome)) (r : res progress) : Prop :=
  exists chosen, chosen `sublist_of` todo /\ Forall2 (runs_script stage versions) chosen l /\
    (is_check stage = false -> Forall2 passed (removelast chosen) (removelast l)) /\
    (forall results', r = Ok (Continue results') -> exists news, results' = results ++ news /\
      (is_check stage = false \/ any cr_failed news = false ->
        Forall2 passed chosen l /\ filter (must_run rt stage) todo `sublist_of` chosen)).

Lemma loop_trace_stop rt stage versions s todo results l r : round_trace rt stage versions results s l r ->
  (forall results', r <> Ok (Continue results')) -> forall r', (forall results', r' <> Ok (Continue results')) ->
  loop_trace rt stage versions (s :: todo) results l r'.
Proof.
  intros [Hl _] _ r' Hr'. destruct Hl as [->|(c & -> & Hc)].
  - exists []. split_and!; [apply sublist_nil_l|apply List.Forall2_nil|intros _; apply List.Forall2_nil|by intros results' ?%Hr'].
  - exists [s]. split_and!; [apply sublist_skip, sublist_nil_l|by apply List.Forall2_cons; [|apply List.Forall2_nil]|intros _; apply List.Forall2_nil|by intros results' ?%Hr'].
Qed.

Lemma each_step_traced req rt layout cfg st versions todo : forall results,
  traced (each_step req rt layout cfg st versions results todo) (loop_trace rt (rq_stage req) versions todo results).
Proof.
  induction todo as [|s todo IH]; intros results; cbn [each_step].
  { apply traced_ret. exists []. split_and!; [constructor|apply List.Forall2_nil|intros _; apply List.Forall2_nil|]. intros results' [= <-]. exists [].
    by rewrite app_nil_r. }
  eapply traced_bind; [apply one_step_traced| |intros l e H; by eapply loop_trace_stop|intros l H; by eapply loop_trace_stop].
  intros l [results1|] H; [|apply traced_ret; rewrite app_nil_r; by eapply loop_trace_stop].
  eapply traced_conseq; [apply IH|]. intros l' r (chosen & Hsub & Hruns & Hlast & Hdone). destruct H as [Hl Hround].
  destruct (Hround _ eq_refl) as (news1 & -> & Hpass). clear Hround.
  exists (match l with [] => chosen | _ => s :: chosen end). destruct Hl as [->|(c & -> & Hc)].
  - split_and!; [by apply sublist_cons|done|done|]. intros results' Hr. destruct (Hdone _ Hr) as (news & -> & Hok).
    exists (news1 ++ news). rewrite app_assoc. split; [done|]. rewrite any_app, orb_false_iff. intros Hcond.
    destruct Hok as [? Hmust]; [tauto|]. split; [done|]. destruct Hpass as [[_ Hn]|(c & ? & _)]; [tauto| |done].
    by rewrite filter_cons_False.
  - assert (is_check (rq_stage req) = false -> passed s c) as Hpc.
    { intros Hcheck. destruct Hpass as [[? _]|(c' & [= <-] & ?)]; [by left|done|done]. }
    split_and!; [by apply sublist_skip|by constructor| |].
    + intros Hcheck. destruct Hruns as [|s' c' chosen l' Hs' Hr]; [constructor|]. change (([c] ++ c' :: l')) with (c :: c' :: l').
      change (removelast (s :: s' :: chosen)) with (s :: removelast (s' :: chosen)).
      change (removelast (c :: c' :: l')) with (c :: removelast (c' :: l')). constructor; auto.
    + intros results' Hr. destruct (Hdone _ Hr) as (news & -> & Hok).
      exists (news1 ++ news). rewrite app_assoc. split; [done|]. rewrite any_app, orb_false_iff. intros Hcond.
      destruct Hok as [? Hmust]; [tauto|]. destruct Hpass as [[? _]|(c' & [= <-] & Hp)]; [tauto|done|]. split; [by constructor|].
      rewrite filter_cons. case_decide; [by apply sublist_skip|by apply sublist_cons].
Qed.

Definition stage_trace (rt : runtimeConfig) (stage : string) (todo : list Step) (l : list (process * outcome)) (r : res Status) : Prop :=
  exists versions chosen, chosen `sublist_of` todo /\ Forall2 (runs_script stage versions) chosen l /\
    (is_check stage = false -> Forall2 passed (removelast chosen) (removelast l)) /\
    (r = Ok StatusSuccess -> Forall2 passed chosen l /\ filter (must_run rt stage) todo `sublist_of` chosen).

Lemma stage_trace_none rt stage todo r : r <> Ok StatusSuccess -> stage_trace rt stage todo [] r.
Proof.
  intros Hr. exists {| v_Previous := ""; v_Current := "" |}, [].
  split_and!; [apply sublist_nil_l|apply List.Forall2_nil|intros _; apply List.Forall2_nil|done].
Qed.

Lemma loop_stage_trace rt stage versions todo l r r' : loop_trace rt stage versions todo [] l r ->
  (r' = Ok StatusSuccess -> exists results, r = Ok (Continue results) /\ (is_check stage = false \/ todo = [] \/ any cr_failed results = false)) ->
  stage_trace rt stage todo l r'.
Proof.
  intros (chosen & Hsub & Hruns & Hlast & Hdone) Hr. exists versions, chosen. split_and!; [done|done|done|].
  intros (results & E & Hcond)%Hr. destruct (Hdone _ E) as (news & -> & Hok). destruct Hcond as [?|[->|?]]; [by apply Hok; left| |by apply Hok; right].
  apply sublist_nil_r in Hsub as ->. apply Forall2_nil_inv_l in Hruns as ->. split; [apply List.Forall2_nil|constructor].
Qed.

Lemma summarizeChecks_ok stage results st layout z z' : summarizeChecks stage results st layout z = (z', Ok StatusSuccess) ->
  any cr_failed results = false.
Proof. intros H. unfold summarizeChecks in H. apply bind_ok in H as (? & ? & _ & H). by destruct (any cr_failed results). Qed.

(** C2: Whatever the disk and the commands do, a stage of a package runs scripts
    of its own steps only, in their order and each at most once; in a stage that
    is no check, a step whose command was not accepted is the last that runs.
    When the agent says that the stage succeeded, every command exited with a
    code that its step accepts, and every step that its completion flag could
    not hold back has run: all of them in a check, in the config, uninstall and
    upgrade stages, or if steps always run. *)
Theorem stage_runs req rt layout cfg st history :
  traced (runSteps req rt layout cfg st history) (stage_trace rt (rq_stage req) (steps_of (pc_Modes cfg) (rq_stage req))).
Proof.
  unfold runSteps. set (todo := steps_of (pc_Modes cfg) (rq_stage req)). fold (is_check (rq_stage req)).
  apply traced_bind_quiet; [walk quiet_leaf|intros _|intros; by apply stage_trace_none|by apply stage_trace_none].
  apply traced_bind_quiet; [walk quiet_leaf|intros versions|intros; by apply stage_trace_none|by apply stage_trace_none].
  apply traced_bind_quiet; [walk quiet_leaf|intros _|intros; by apply stage_trace_none|by apply stage_trace_none].
  eapply traced_bind; [apply each_step_traced| |intros l e H; by eapply loop_stage_trace|intros l H; by eapply loop_stage_trace].
  intros l [results|] H; [|apply traced_ret; rewrite app_nil_r; by eapply loop_stage_trace].
  intros z. exists []. split; [apply emits_quiet_runs; refine ((_ : steps (emits quiet) _) z); walk quiet_leaf|].
  rewrite app_nil_r. eapply loop_stage_trace; [exact H|]. intros E. exists results. split; [done|].
  destruct (bind _ _ z) as [z' r] eqn:Eb. simpl in E. subst r. apply bind_ok in Eb as (z1 & status & Es & Ek).
  destruct (is_check (rq_stage req)); [right|by left]. simpl in Es.
  destruct (bool_decide (length todo = 0%nat)) eqn:Elen; [left; by apply bool_decide_eq_true, length_zero_iff_nil in Elen|right].
  destruct status; [by apply summarizeChecks_ok in Es|by injection Ek].
Qed.

End Stages.

(* ------------------------------------------------------------------ *)
(** ** The commands of an interrupt *)

(** The arguments of the commands an interrupt has left to run. *)
Definition pending_commands (value : Interrupt) (completed : list bool) : list (list string) :=
  let left_over all := omap (fun '(args, completed) => if completed : bool then None else Some args) (zip all completed) in
  match value with
  | NodeRestart => left_over [["reboot"]]
  | ServiceRestart services => left_over (["systemctl"; "daemon-reload"] :: map (fun service => ["systemctl"; "restart"; service]) services)
  | RestartAllServices => left_over [["service"; "procps"; "force-reload"]]
  | NoOp | ScriptInterrupt => []
  end.

(** How a command ends that did its work: the reboot ends what asked for it. *)
Definition ended_well (value : Interrupt) (o : outcome) : Prop :=
  oc_state o = if bool_decide (value = NodeRestart) then Some (SignalExitCode, Some SIGTERM) else Some (SuccessExitCode, None).

Definition interrupt_trace (value : Interrupt) (todo : list (list string)) (l : list (process * outcome)) (r : res Status) : Prop :=
  exists gone rest, todo = gone ++ rest /\ Forall2 (fun args c => pr_args c.1 = args) gone l /\
    Forall (fun c => ended_well value c.2) (removelast l) /\
    (r = Ok StatusSuccess -> rest = [] /\ Forall (fun c => ended_well value c.2) l).

Lemma interrupt_trace_none value todo r : r <> Ok StatusSuccess -> interrupt_trace value todo [] r.
Proof. intros Hr. exists [], todo. split_and!; [done|apply List.Forall2_nil|done|done]. Qed.

Lemma interrupt_trace_done value r : interrupt_trace value [] [] r.
Proof. exists [], []. by split_and!; [|apply List.Forall2_nil|..]. Qed.

Section Interrupts.
Context `{MR : MapRange} `{J : JSON} `{S : JSONSchema} `{U : Unicode} `{T : TimeFormat} `{TJ : TimeJSON} `{W : World}.

Lemma service_command_traced value config cmd fmt args next todo : value <> NodeRestart ->
  traced next (interrupt_trace value todo) ->
  traced (service_command config cmd fmt args next) (interrupt_trace value ((cmd_Executable cmd :: cmd_Arguments cmd) :: todo)).
Proof.
  intros Hv Hnext. unfold service_command.
  eapply traced_bind; [apply Runner_Run_traced| |by intros l e ?%run_once_err|].
  2:{ intros l [[-> _]|(? & ? & ? & ? & ? & _ & ? & _)]; [by apply interrupt_trace_none|done]. }
  intros l [result err] [[-> [?|[e [= -> ->]]]]|(executable & directory & chroot & o & err1 & -> & [= -> ->] & Ho)];
    [done|by apply traced_raise, interrupt_trace_none|].
  set (c := (process_of cmd executable directory chroot, o)).
  assert (forall r, r <> Ok StatusSuccess -> interrupt_trace value ((cmd_Executable cmd :: cmd_Arguments cmd) :: todo) [c] r) as Hone.
  { intros r Hr. exists [cmd_Executable cmd :: cmd_Arguments cmd], todo. split_and!; [done| |done|done].
    by apply List.Forall2_cons; [|apply List.Forall2_nil]. }
  destruct err1 as [e|]; [by apply traced_raise, Hone|]. cbn [when_err]. specialize (Ho eq_refl).
  destruct (negb (bool_decide (Signal (result_of o) = None)) || negb (bool_decide (ExitCode (result_of o) = SuccessExitCode))) eqn:Eb;
    [by apply traced_ret, Hone|]. apply orb_false_iff in Eb as [E1 E2]. rewrite !negb_false_iff, !bool_decide_eq_true in *.
  assert (ended_well value o) as Hw by (unfold ended_well; rewrite bool_decide_eq_false_2 by done; congruence).
  eapply traced_conseq; [exact Hnext|]. intros l' r (gone & rest & -> & Hargs & Hlast & Hok).
  exists ((cmd_Executable cmd :: cmd_Arguments cmd) :: gone), rest. split_and!; [done|by apply List.Forall2_cons| |].
  - destruct l' as [|c' l']; [constructor|]. change (removelast ([c] ++ c' :: l')) with (c :: removelast (c' :: l')). by constructor.
  - intros E. destruct (Hok E). split; [done|]. by constructor.
Qed.

Definition left_over (commands : list (Command * bool)) : list (list string) :=
  omap (fun '(cmd, completed) => if completed : bool then None else Some (cmd_Executable cmd :: cmd_Arguments cmd)) commands.

Lemma run_commands_traced value config mark commands : value <> NodeRestart ->
  (forall m, mark = Some m -> forall index : nat, steps (emits quiet) (m index)) ->
  forall index, traced (run_commands config mark index commands) (interrupt_trace value (left_over commands)).
Proof.
  intros Hv Hmark. induction commands as [|[cmd completed] commands IH]; intros index; cbn [run_commands].
  { by apply traced_ret, interrupt_trace_done. }
  destruct completed; [apply IH|]. apply service_command_traced; [done|].
  apply traced_bind_quiet; [|intros _; apply IH|intros; by apply interrupt_trace_none|by apply interrupt_trace_none].
  destruct mark as [m|]; [|walk fail]. apply steps_wrap; [exact _|by apply Hmark].
Qed.

Lemma left_over_services config services completed :
  left_over (zip (service_commands config services) completed) = pending_commands (ServiceRestart services) completed.
Proof.
  unfold pending_commands, service_commands, left_over. destruct completed as [|b completed]; [done|]. simpl.
  assert (forall l c, omap (fun '(cmd, completed) => if completed : bool then None else Some (cmd_Executable cmd :: cmd_Arguments cmd))
    (zip (map (fun service => host_command config "systemctl" ["restart"; service]) l) c) =
    omap (fun '(args, completed) => if completed : bool then None else Some args) (zip (map (fun service => ["systemctl"; "restart"; service]) l) c)) as Hl.
  { induction l as [|x l IH]; intros c; [done|]. destruct c as [|b' c]; [done|]. simpl. rewrite IH. by destruct b'. }
  rewrite Hl. by destruct b.
Qed.

Lemma validated_traced (config : Run.Config) type value todo (k : Go Status) : traced k (interrupt_trace value todo) ->
  traced (let* _ := validate_interrupt config type in k) (interrupt_trace value todo).
Proof.
  intros Hk. apply traced_bind_quiet; [walk fail|by intros _|intros; by apply interrupt_trace_none|by apply interrupt_trace_none].
Qed.

Lemma RunPending_traced value config completed mark : (forall index, steps (emits quiet) (mark index)) -> OperationCount value <> None ->
  traced (RunPending value config completed mark) (interrupt_trace value (pending_commands value completed)).
Proof.
  intros Hmark Hv. destruct value as [|services| | |]; try done; unfold RunPending.
  - destruct (negb _); [by apply traced_raise, interrupt_trace_none|]. apply validated_traced. rewrite <- (left_over_services config).
    apply run_commands_traced; [done|]. by intros m [= <-].
  - case_bool_decide as Hl; simpl; [|by apply traced_raise, interrupt_trace_none].
    destruct completed as [|b [|]]; try done. destruct b; [by apply traced_ret, interrupt_trace_done|]. apply validated_traced.
    apply (service_command_traced _ _ (host_command config "service" ["procps"; "force-reload"]) _ _ _ []); [done|].
    apply traced_bind_quiet; [walk ltac:(apply Hmark)|intros _|intros; by apply interrupt_trace_none|by apply interrupt_trace_none].
    apply traced_ret, interrupt_trace_done.
Qed.

Lemma NodeRestart_Run_traced config : traced (NodeRestart_Run config) (interrupt_trace NodeRestart [["reboot"]]).
Proof.
  apply validated_traced. set (cmd := host_command config "reboot" []).
  eapply traced_bind; [apply Runner_Run_traced| |by intros l e ?%run_once_err|].
  2:{ intros l [[-> _]|(? & ? & ? & ? & ? & _ & ? & _)]; [by apply interrupt_trace_none|done]. }
  intros l [result err] [[-> [?|[e [= -> ->]]]]|(executable & directory & chroot & o & err1 & -> & [= -> ->] & Ho)];
    [done|by apply traced_raise, interrupt_trace_none|].
  set (c := (process_of cmd executable directory chroot, o)).
  assert (forall r, (r = Ok StatusSuccess -> ended_well NodeRestart o) -> interrupt_trace NodeRestart [["reboot"]] [c] r) as Hone.
  { intros r Hr. exists [["reboot"]], []. split_and!; [done|by apply List.Forall2_cons; [|apply List.Forall2_nil]|done|].
    intros E. split; [done|]. apply Forall_singleton. by apply Hr. }
  case_match eqn:E.
  - apply traced_ret. rewrite app_nil_r. apply Hone. intros _. apply andb_true_iff in E as [E _]. unfold nodeRestartCompleted in E.
    apply andb_true_iff in E as [E1 E2]. rewrite bool_decide_eq_true in E1, E2. unfold ended_well, result_of in *.
    destruct (oc_state o) as [[code signal]|]; [|done]. simpl in *. by subst.
  - destruct err1 as [e|]; [by apply traced_raise, Hone|]. cbn [when_err]. case_match; [by apply traced_ret, Hone|].
    apply traced_bind_quiet; [walk fail|intros _; by apply traced_ret, Hone|intros; by apply Hone|by apply Hone].
Qed.

Lemma pending_complete value completed : allOperationsComplete completed = true -> pending_commands value completed = [].
Proof.
  intros Hall. assert (forall all, omap (fun '(args, completed) => if completed : bool then None else Some args) (zip all completed) = ([] : list (list string))) as H.
  { revert Hall. induction completed as [|b completed IH]; intros Hall [|args all]; try done. simpl in *. apply andb_true_iff in Hall as [-> Hall].
    by apply IH. }
  destruct value; first [apply H|done].
Qed.

Lemma executeInterrupt_traced rootMount value config completed markers : value <> NodeRestart ->
  traced (executeInterrupt rootMount value config completed markers) (interrupt_trace value (pending_commands value completed)).
Proof.
  intros Hv. unfold executeInterrupt. destruct (OperationCount value) eqn:Ec.
  - apply RunPending_traced; [|congruence]. intros index. walk quiet_leaf.
  - apply traced_quiet; [|intros r; destruct value; try done; apply interrupt_trace_done]. destruct value; try done; walk quiet_leaf.
Qed.

Lemma executeInterrupt_reboot rootMount config completed markers :
  traced (executeInterrupt rootMount NodeRestart config completed markers) (interrupt_trace NodeRestart [["reboot"]]).
Proof.
  unfold executeInterrupt. cbn [OperationCount]. eapply traced_bind; [apply NodeRestart_Run_traced| |..].
  - intros l status H. rewrite (bool_decide_eq_true_2 (NodeRestart = NodeRestart)), orb_true_r by done. apply traced_ret. by rewrite app_nil_r.
  - intros l e (gone & rest & ? & ? & ? & _). exists gone, rest. by split_and!.
  - intros l (gone & rest & ? & ? & ? & _). exists gone, rest. by split_and!.
Qed.

(** What follows the execution of an interrupt. *)
Lemma concluded_traced value todo (m : Go Status) (conclude : Go unit) (finish : res Status -> option error -> option error) :
  traced m (interrupt_trace value todo) -> steps (emits quiet) conclude ->
  traced (let* executed := attempt m in
          let* concludeErr := try conclude in
          when_err (finish executed concludeErr) (fun e => e) (lift executed)) (interrupt_trace value todo).
Proof.
  intros Hm Hc. eapply traced_attempting; [apply Hm| |done]. intros l r (gone & rest & Htodo & Hargs & Hlast & Hok) s. exists []. split.
  - apply emits_quiet_runs. refine ((_ : steps (emits quiet) _) s). walk assumption.
  - rewrite app_nil_r. exists gone, rest. split_and!; [done|done|done|]. intros E. apply Hok. revert E. unfold bind, try.
    destruct (conclude s) as [? [?|?|]]; simpl; [| |done]; unfold when_err; case_match; done.
Qed.

Lemma not_root path rootMount l c : clean_parts path = clean_parts rootMount ++ l ++ [c] -> clean_parts path <> clean_parts rootMount.
Proof. intros -> E. apply (f_equal length) in E. rewrite !length_app in E. simpl in E. lia. Qed.

Lemma markers_seen rootMount markers d0 : Forall (fun marker => clean_parts marker <> clean_parts rootMount) markers ->
  hoare (fun d => d = d0) (completedInterruptOperations rootMount markers)
    (fun completed d => d = d0 /\ Forall2 (seen d0 rootMount) markers completed) (fun _ d => d = d0).
Proof.
  intros Hm. eapply (hoare_conseq (fun d => d = d0 /\ Forall2 (seen d0 rootMount) [] []));
    [apply (hoare_loop (fun before completed d => d = d0 /\ Forall2 (seen d0 rootMount) before completed) _ (fun _ d => d = d0))|..]; [|naive_solver..].
  intros before marker after completed E. rewrite E in Hm. apply Forall_app in Hm as [_ [Hm _]%Forall_cons].
  apply hoare_known. intros Hb. eapply (hoare_bind _ _ _ (fun b d => d = d0 /\ seen d0 rootMount marker b)).
  { eapply hoare_wrap; [by apply RegularFileExists_spec|done]. }
  intros b. apply hoare_known. intros Hs. apply hoare_ret. intros d ->. split; [done|]. apply Forall2_app; [done|].
  by apply List.Forall2_cons; [|apply List.Forall2_nil].
Qed.

Lemma runInterrupt_conclude req value todo completed markers (prepare : Go (operationLog * Run.Config)) :
  steps (emits quiet) prepare ->
  (forall config, traced (executeInterrupt (rq_rootMount req) value config completed markers) (interrupt_trace value todo)) ->
  traced (let* '(log, runConfig) := prepare in
          let* executed := attempt (executeInterrupt (rq_rootMount req) value runConfig completed markers) in
          let* finalizeErr := try (finalize log) in
          let runErr := match executed with Err e => Some (wrapf "running interrupt %q: %w" [Type_of value] e) | _ => None end in
          when_err (errors_Join [runErr; finalizeErr]) (fun e => e) (lift executed)) (interrupt_trace value todo).
Proof.
  intros Hp He. apply traced_bind_quiet; [done|intros [log config]|intros; by apply interrupt_trace_none|by apply interrupt_trace_none].
  apply (concluded_traced _ _ _ (finalize log) (fun executed finalizeErr => errors_Join
    [match executed with Err e => Some (wrapf "running interrupt %q: %w" [Type_of value] e) | _ => None end; finalizeErr])); [apply He|walk quiet_leaf].
Qed.

(** C6: An interrupt that is no reboot runs the commands it has left on the host:
    those whose completion markers are not on the host's disk, in order, each
    once, and none after one that did not succeed; when the agent says that the
    interrupt is done, every one of them exited with 0.  Nothing runs if the
    markers cannot be read. *)
Theorem interrupt_runs req rt layout stateRoot logRoot value s : IsAbs (rq_rootMount req) = true ->
  NewLayout (rq_rootMount req) stateRoot logRoot = Ok layout -> plain (rt_resourceID rt) -> value <> NodeRestart ->
  exists l, runs l s (runInterrupt req rt layout value s).1 /\
    ((l = [] /\ (runInterrupt req rt layout value s).2 <> Ok StatusSuccess) \/
     exists completed, Forall2 (seen (mem s) (rq_rootMount req)) (interruptCompletionMarkers layout (rt_resourceID rt) value) completed /\
       interrupt_trace value (pending_commands value completed) l (runInterrupt req rt layout value s).2).
Proof.
  intros Ha Hlayout Hid Hv. refine ((_ : traced_in (fun d => d = mem s) (runInterrupt req rt layout value) (fun l r => (l = [] /\ r <> Ok StatusSuccess) \/
    exists completed, Forall2 (seen (mem s) (rq_rootMount req)) (interruptCompletionMarkers layout (rt_resourceID rt) value) completed /\
      interrupt_trace value (pending_commands value completed) l r)) s eq_refl).
  eapply traced_after; [apply markers_seen| |intros e; by left].
  - apply List.Forall_forall. intros marker Hm%list_elem_of_In.
    destruct (marker_below _ _ _ _ Ha Hlayout _ _ _ Hid Hm) as (_ & name & _ & _ & Hp). by eapply not_root.
  - intros completed. apply traced_known. intros Hseen. apply traced_anywhere.
    eapply traced_conseq; [|intros l r H; right; exists completed; split; [exact Hseen|exact H]].
    destruct ((0 <? zlen completed) && allOperationsComplete completed) eqn:Eall.
    { apply andb_true_iff in Eall as [_ Eall]. rewrite (pending_complete _ _ Eall). apply traced_ret, interrupt_trace_done. }
    rewrite bool_decide_eq_false_2 by done. cbn [bind ret].
    apply runInterrupt_conclude; [walk quiet_leaf|]. intros config. by apply executeInterrupt_traced.
Qed.

(* ------------------------------------------------------------------ *)
(** ** Reboots *)

(** The host has booted again since the pending marker was written. *)
Definition restarted (d : disk) (rootMount pending : string) : Prop := exists path boot data previous,
  HostPathToMounted rootMount hostBootIDPath = Ok path /\ contains d rootMount path boot /\ contains d rootMount pending data /\
  marked_boot data = Some previous /\ previous <> TrimSpace boot.

Lemma boot_path rootMount : IsAbs rootMount = true -> exists path, HostPathToMounted rootMount hostBootIDPath = Ok path /\
  clean_parts path = clean_parts rootMount ++ ["proc"; "sys"; "kernel"; "random"; "boot_id"].
Proof.
  intros Ha. unfold HostPathToMounted. rewrite Ha. change (IsAbs hostBootIDPath) with true.
  change (trim_prefix (Clean hostBootIDPath) "/") with "proc/sys/kernel/random/boot_id". simpl negb. cbn [orb].
  eexists. split; [reflexivity|]. destruct (Join_abs (Clean rootMount) ["proc/sys/kernel/random/boot_id"]) as [_ H];
    [by apply IsAbs_Clean|by repeat constructor|]. by rewrite H, clean_parts_Clean.
Qed.

Lemma hostBootID_spec rootMount d0 : IsAbs rootMount = true ->
  hoare (fun d => d = d0) (hostBootID rootMount) (fun bootID d => d = d0 /\ exists path boot, HostPathToMounted rootMount hostBootIDPath = Ok path /\
    contains d0 rootMount path boot /\ bootID = TrimSpace boot) (fun _ _ => True).
Proof.
  intros Ha. destruct (boot_path _ Ha) as (path & Hpath & Hparts). unfold hostBootID. rewrite Hpath.
  eapply (hoare_bind _ _ _ (fun p d => d = d0 /\ p = path)); [by apply hoare_lift|]. intros p. apply hoare_known. intros ->.
  eapply (hoare_bind _ _ _ (fun data d => d = d0 /\ contains d0 rootMount path data)).
  { eapply hoare_error; [apply ReadFile_spec|done]. by apply (not_root _ _ ["proc"; "sys"; "kernel"; "random"] "boot_id"). }
  intros data. apply hoare_known. intros Hd. apply hoare_if; intros Hb; [by apply hoare_raise|]. apply hoare_ret. intros d ->.
  split; [done|]. by exists path, data.
Qed.

Lemma prepareNodeRestartMarker_spec rootMount complete dl d0 : IsAbs rootMount = true ->
  clean_parts complete = clean_parts rootMount ++ dl ++ ["node_restart_0.complete"] -> IsAbs complete = true ->
  IsAbs (pending_marker complete) = true -> clean_parts (pending_marker complete) = clean_parts rootMount ++ dl ++ ["node_restart_0.pending"] ->
  hoare (fun d => d = d0) (prepareNodeRestartMarker rootMount complete)
    (fun '(marker, completed) _ => if completed : bool then restarted d0 rootMount (pending_marker complete)
       else ~ restarted d0 rootMount (pending_marker complete)) (fun _ _ => True).
Proof.
  intros Ha Hc Hca Hpa Hp. unfold prepareNodeRestartMarker. set (pending := pending_marker complete) in *.
  eapply (hoare_bind _ _ _ (fun bootID d => d = d0 /\ exists path boot, HostPathToMounted rootMount hostBootIDPath = Ok path /\
    contains d0 rootMount path boot /\ bootID = TrimSpace boot)); [eapply hoare_wrap; [by apply hostBootID_spec|done]|].
  intros bootID. apply hoare_known. intros (path & boot & Hpath & Hboot & ->).
  assert (forall d1, ~ restarted d0 rootMount pending -> hoare (fun d => d = d1)
    (let* _ := wrap "marking node restart pending: %w" [] (CreateFile rootMount pending (restartMarkerPrefix +:+ TrimSpace boot +:+ newline) markerFileMode) in
     ret (pending, false)) (fun '(marker, completed) _ => if completed : bool then restarted d0 rootMount pending else ~ restarted d0 rootMount pending)
    (fun _ _ => True)) as Hcreate.
  { intros d1 Hn. eapply (hoare_bind _ _ _ (fun _ _ => True)); [|intros _; by apply hoare_ret].
    eapply (hoare_wrap _ _ _ _ _ (fun _ _ => True)); [|done]. by eapply hoare_post; [apply CreateFile_spec|..]. }
  eapply (hoare_bind _ _ _ (fun b d => d = d0 /\ seen d0 rootMount pending b)).
  { eapply hoare_wrap; [apply RegularFileExists_spec; by eapply not_root|done]. }
  intros b. apply hoare_known. intros Hseen. destruct b.
  2:{ apply Hcreate. intros (? & ? & data & ? & _ & _ & Hd & _). by apply (seen_contains _ _ _ _ _ Hd) in Hseen. }
  eapply (hoare_bind _ _ _ (fun data d => d = d0 /\ contains d0 rootMount pending data)).
  { eapply hoare_wrap; [apply ReadFile_spec; by eapply not_root|done]. }
  intros data. apply hoare_known. intros Hdata.
  destruct (match marked_boot data with Some previousBootID => negb (bool_decide (previousBootID = TrimSpace boot)) | None => false end) eqn:Em.
  - assert (restarted d0 rootMount pending) as Hr.
    { destruct (marked_boot data) as [previous|] eqn:Eb; [|done]. exists path, boot, data, previous. split_and!; try done.
      by apply negb_true_iff, bool_decide_eq_false in Em. }
    eapply (hoare_bind _ _ _ (fun _ _ => True)); [|intros _; by apply hoare_ret].
    eapply (hoare_wrap _ _ _ _ _ (fun _ _ => True)); [|done]. by eapply hoare_post; [by eapply RenameFile_spec|..].
  - assert (~ restarted d0 rootMount pending) as Hn.
    { intros (path' & boot' & data' & previous & Hpath' & Hboot' & Hdata' & Hm & Hne). rewrite Hpath in Hpath'. injection Hpath' as <-.
      rewrite (contains_inj _ _ _ _ _ Hboot' Hboot), (contains_inj _ _ _ _ _ Hdata' Hdata) in *. rewrite Hm in Em.
      by rewrite bool_decide_eq_false_2 in Em. }
    eapply (hoare_bind _ _ _ (fun _ _ => True)).
    { eapply (hoare_wrap _ _ _ _ _ (fun _ _ => True)); [|done]. eapply hoare_post; [apply RemoveFile_spec; by eapply not_root|done|done]. }
    intros _. intros s _. by apply (Hcreate (mem s) Hn s).
Qed.

Lemma reboot_trace l r : interrupt_trace NodeRestart [["reboot"]] l r ->
  (l = [] \/ exists c, l = [c] /\ pr_args c.1 = ["reboot"]) /\ (r = Ok StatusSuccess -> exists c, l = [c] /\ ended_well NodeRestart c.2).
Proof.
  intros (gone & rest & Htodo & Hargs & _ & Hok). split.
  - destruct Hargs as [|args c gone l Hc Hargs]; [by left|]. injection Htodo as <- Htodo. symmetry in Htodo. apply app_eq_nil in Htodo as [-> _].
    apply Forall2_nil_inv_l in Hargs as ->. right. by exists c.
  - intros E. destruct (Hok E) as [-> Hwell]. rewrite app_nil_r in Htodo. subst gone.
    apply Forall2_cons_inv_l in Hargs as (c & l' & _ & Hl' & ->). apply Forall2_nil_inv_l in Hl' as ->. exists c. split; [done|].
    by inversion Hwell.
Qed.

(** C5: The agent asks the host for a reboot at most once in a run, and not at
    all when the completion marker is on the host's disk or the pending marker
    holds the ID of another boot than the host's.  When it says that the reboot
    is done, one of these was so, or the command it ran was ended by the signal
    of the shutdown.  The files may be cut off, the calls may fail and the host
    may change under the commands. *)
Theorem reboot_once req rt layout stateRoot logRoot s : IsAbs (rq_rootMount req) = true ->
  NewLayout (rq_rootMount req) stateRoot logRoot = Ok layout -> plain (rt_resourceID rt) ->
  exists complete l, interruptCompletionMarkers layout (rt_resourceID rt) NodeRestart = [complete] /\
    runs l s (runInterrupt req rt layout NodeRestart s).1 /\
    (l = [] \/ exists c, l = [c] /\ pr_args c.1 = ["reboot"]) /\
    ((exists data, contains (mem s) (rq_rootMount req) complete data) \/ restarted (mem s) (rq_rootMount req) (pending_marker complete) -> l = []) /\
    ((runInterrupt req rt layout NodeRestart s).2 = Ok StatusSuccess ->
      (l = [] /\ ((exists data, contains (mem s) (rq_rootMount req) complete data) \/ restarted (mem s) (rq_rootMount req) (pending_marker complete))) \/
      exists c, l = [c] /\ ended_well NodeRestart c.2).
Proof.
  intros Ha Hlayout Hid. destruct (NodeRestart_markers _ _ _ _ Ha Hlayout _ Hid) as (complete & Em & Hc & Hpa & Hp).
  exists complete. set (d0 := mem s). set (over := (exists data, contains d0 (rq_rootMount req) complete data) \/ restarted d0 (rq_rootMount req) (pending_marker complete)).
  assert (IsAbs complete = true) as Hca.
  { apply (marker_below _ _ _ _ Ha Hlayout (rt_resourceID rt) NodeRestart); [done|]. rewrite Em. by apply list_elem_of_singleton. }
  enough (traced_in (fun d => d = d0) (runInterrupt req rt layout NodeRestart) (fun l r => (l = [] \/ exists c, l = [c] /\ pr_args c.1 = ["reboot"]) /\
    (over -> l = []) /\ (r = Ok StatusSuccess -> (l = [] /\ over) \/ exists c, l = [c] /\ ended_well NodeRestart c.2))) as H.
  { destruct (H s eq_refl) as (l & Hl & H1 & H2 & H3). by exists l. }
  unfold runInterrupt. rewrite Em. eapply traced_after; [apply markers_seen; apply Forall_singleton; by eapply not_root| |intros e; split_and!; [by left|done|done]].
  intros completed. apply traced_known. intros Hseen. apply Forall2_cons_inv_l in Hseen as (b & bs & Hb & Hbs & ->).
  apply Forall2_nil_inv_l in Hbs as ->. destruct b.
  { apply traced_anywhere, traced_ret. destruct Hb as (r & l & Hl & data & Hd). split_and!; [by left|done|]. intros _. left. split; [done|].
    left. exists data, r, l. done. }
  assert (~ exists data, contains d0 (rq_rootMount req) complete data) as Hn by (intros [data Hd]; by apply (seen_contains _ _ _ _ _ Hd) in Hb).
  change ((0 <? zlen [false]) && allOperationsComplete [false]) with false. cbv iota. rewrite (bool_decide_eq_true_2 (NodeRestart = NodeRestart)) by done.
  change (lift (deref (head [complete]))) with (ret (S := disk) (E := event) complete).
  eapply (traced_after _ _ _ (fun '(_, completed) _ => if completed : bool then restarted d0 (rq_rootMount req) (pending_marker complete)
    else ~ restarted d0 (rq_rootMount req) (pending_marker complete)) (fun _ _ => True)); [| |intros e; split_and!; [by left|done|done]].
  { eapply (hoare_bind _ _ _ (fun c d => d = d0 /\ c = complete)); [by apply hoare_ret|]. intros c. apply hoare_known. intros ->.
    eapply hoare_bind; [by eapply prepareNodeRestartMarker_spec|]. intros [marker completed]. by apply hoare_ret. }
  intros [pending completed]. destruct completed; apply traced_fact; intros Hr.
  { apply traced_ret. split_and!; [by left|done|]. intros _. left. split; [done|]. by right. }
  eapply traced_conseq; [apply (runInterrupt_conclude _ _ [["reboot"]]); [walk quiet_leaf|intros config; apply executeInterrupt_reboot]|].
  intros l r [H1 H2]%reboot_trace. split_and!; [done|unfold over; tauto|]. intros E. right. by apply H2.
Qed.

End Interrupts.

(* ------------------------------------------------------------------ *)
(** ** Samples *)

Definition sample_request (stage : string) : request := {| rq_stage := stage; rq_rootMount := "/root"; rq_copyDir := "/package"; rq_interruptData := "" |}.
Definition sample_runtime : runtimeConfig := {|
  rt_dataDir := ""; rt_stateRoot := ""; rt_logRoot := ""; rt_resourceID := "id"; rt_alwaysRunStep := false; rt_writeLogs := false; rt_copyResolver := false |}.
Definition sample_layout : Layout := {| l_rootMount := "/root"; l_stateRoot := "etc/skyhook"; l_logRoot := "var/log/skyhook" |}.

Lemma sample_layout_ok : NewLayout "/root" "" "" = Ok sample_layout /\ plain "id".
Proof. split; [reflexivity|by split_and!]. Qed.

Lemma interrupt_runs_witness :
  let run := @runInterrupt sample_time quiet_world (sample_request Stage.Interrupt) sample_runtime sample_layout (ServiceRestart ["a"]) sample_pass in
  exists l, @runs l sample_pass run.1.
Proof.
  intros run. destruct sample_layout_ok as [Hl Hid].
  destruct (@interrupt_runs sample_time quiet_world (sample_request Stage.Interrupt) sample_runtime sample_layout "" "" (ServiceRestart ["a"]) sample_pass
    eq_refl Hl Hid ltac:(discriminate)) as (l & H & _). exists l. exact H.
Defined.

Lemma reboot_once_witness :
  let run := @runInterrupt sample_time quiet_world (sample_request Stage.Interrupt) sample_runtime sample_layout NodeRestart sample_pass in
  exists l, @runs l sample_pass run.1 /\ (l = [] \/ exists c, l = [c] /\ pr_args c.1 = ["reboot"]).
Proof.
  intros run. destruct sample_layout_ok as [Hl Hid].
  destruct (@reboot_once sample_time quiet_world (sample_request Stage.Interrupt) sample_runtime sample_layout "" "" sample_pass eq_refl Hl Hid)
    as (complete & l & _ & H & Hr & _). exists l. split; [exact H|exact Hr].
Defined.
