(* ===== verification/Completion.v ===== *)
(** * Steps that are done

    What the flags of [Flags] promise over runs of the agent: where the two flags
    of a step are, what [Check] decides by them, that a marked step is flagged,
    and that the flags last. *)

From S2P Require Import Prelude Effects Encoding Sha256 Json Paths Host HostFs HostWatch Stages Command Step PackageConfig Flags History HostInterrupts Agent StorePaths AgentRuns.

#[local] Open Scope Z_scope.
#[local] Open Scope go_scope.

(* ------------------------------------------------------------------ *)
(** ** The letters of the encodings *)

Lemma b64_char_free c v : contains_char c b64_alphabet = false -> b64_char v <> c.
Proof.
  assert (forall s n a, String.get n s = Some a -> contains_char a s = true) as Hget.
  { induction s as [|b s IH]; intros [|n] a; simpl; try done; [intros [= ->]; by rewrite bool_decide_eq_true_2|].
    intros H. by rewrite (IH _ _ H), orb_true_r. }
  intros Hc Hv. enough (contains_char (b64_char v) b64_alphabet = true) as H by by rewrite Hv, Hc in H.
  unfold b64_char. destruct (String.get _ _) as [a|] eqn:E; [exact (Hget _ _ _ E)|by vm_compute].
Qed.

Lemma b64_encode_free c s : contains_char c b64_alphabet = false -> c <> padding -> contains_char c (b64_encode s) = false.
Proof.
  intros Hc Hp. assert (forall v, bool_decide (b64_char v = c) = false) as Hv by (intros v; by apply bool_decide_eq_false_2, b64_char_free).
  assert (forall t, contains_char c (String "=" t) = contains_char c t) as Hpad by (intros t; simpl; by rewrite bool_decide_eq_false_2).
  induction s as [|x|x y|x y z s IH] using string_by_three; [done|..]; cbn [b64_encode contains_char]; rewrite ?Hv; rewrite ?bool_decide_eq_false_2 by done; done.
Qed.

Lemma EncodeToString_free c l : bool_decide (c ∈ hex_digits) = false -> contains_char c (EncodeToString l) = false.
Proof.
  intros Hc%bool_decide_eq_false. assert (forall z, bool_decide (hex_digit z = c) = false) as Hz.
  { intros z. apply bool_decide_eq_false_2. intros <-. apply Hc. unfold hex_digit.
    destruct (nth_in_or_default (Z.to_nat (Z.land z 15)) hex_digits "0"%char) as [H| ->]; [by apply list_elem_of_In|by left]. }
  induction l as [|b l IH]; [done|]. cbn [EncodeToString contains_char]. by rewrite !Hz, IH.
Qed.

(* ------------------------------------------------------------------ *)
(** ** Where the flags of a step are *)

(** A word with a mark after a local path goes down. *)
Lemma fold_words_more rooted kept ms : Forall (fun m => m = "" \/ plain m) ms -> exists more, foldl (clean_step rooted) kept ms = more ++ kept.
Proof.
  revert kept; induction ms as [|m ms IH]; intros kept Hm; [by exists []|]. apply Forall_cons in Hm as [[->|Hm] Hms]; cbn [foldl].
  - rewrite clean_step_skip by by left. by apply IH.
  - rewrite clean_step_plain by done. destruct (IH (m :: kept) Hms) as [more ->]. exists (more ++ [m]). by rewrite <- app_assoc.
Qed.

Lemma marked_parts X e m : IsAbs X = true -> IsLocal e = true -> contains_char "."%char m = false ->
  exists rest, rest <> [] /\ clean_parts (X +:+ "/" +:+ e +:+ "_" +:+ m) = clean_parts X ++ rest.
Proof.
  intros Ha He Hm. rewrite clean_parts_app by done.
  destruct (split_char_glue slash e ("_" +:+ m)) as (init & y & b1 & bs & Hs & Hb & ->).
  pose proof (proj2 (split_char_contains slash "."%char ("_" +:+ m) ltac:(done)) ltac:(by rewrite contains_char_app, Hm)) as Hdots.
  pose proof (split_char_free slash ("_" +:+ m)) as Hfree. rewrite Hb in Hdots, Hfree.
  apply Forall_cons in Hdots as [Hd1 Hds], Hfree as [Hf1 Hfs].
  assert (exists m1, b1 = "_" +:+ m1) as [m1 ->].
  { change ("_" +:+ m) with (String "_" m) in Hb. cbn [split_char] in Hb. rewrite bool_decide_eq_false_2 in Hb by done.
    destruct (split_char slash m) as [|w ws] eqn:E; [by apply split_char_nonempty in E|]. injection Hb as <- _. by exists w. }
  assert (contains_char slash y = false /\ Forall (fun w => contains_char slash w = false) init) as [Hy Hinit].
  { pose proof (split_char_free slash e) as H. rewrite Hs in H. apply Forall_app in H as [? H]. by apply Forall_cons in H as [? _]. }
  assert (plain (y +:+ "_" +:+ m1)) as Hplain.
  { split_and!; [..|by rewrite contains_char_app, Hy]; intros E; apply (f_equal (contains_char "_"%char)) in E;
      rewrite !contains_char_app in E; simpl in E; by rewrite orb_true_r in E. }
  assert (".." ∉ foldl (clean_step false) [] init) as Hup.
  { intros Hin. apply (up_stays false [y]) in Hin. rewrite <- foldl_app, <- Hs in Hin. pose proof (local_parts _ He) as Hp. unfold clean_parts in Hp.
    rewrite (proj1 (local_rel _ He)), List.Forall_forall in Hp.
    apply plain_up, Hp. rewrite <- in_rev. by apply list_elem_of_In. }
  destruct (clean_fold_local init [] (rev (clean_parts X)) ltac:(constructor) Hinit Hup) as [_ Hfold]. rewrite app_nil_l in Hfold.
  rewrite foldl_app, Hfold. cbn [foldl]. rewrite clean_step_plain by done.
  destruct (fold_words_more true ((y +:+ "_" +:+ m1) :: foldl (clean_step false) [] init ++ rev (clean_parts X)) bs) as [more ->].
  - apply List.Forall_forall. intros w Hw. rewrite List.Forall_forall in Hfs, Hds. specialize (Hfs _ Hw). specialize (Hds _ Hw).
    destruct (word_cases w Hfs) as [[?|?]|[?|?]]; [by left|by subst|by subst|by right].
  - exists (rev (more ++ (y +:+ "_" +:+ m1) :: foldl (clean_step false) [] init)). split.
    + intros E%(f_equal length). rewrite length_rev, length_app in E. simpl in E. lia.
    + rewrite app_comm_cons, app_assoc, rev_app_distr, rev_involutive. done.
Qed.

(** The flags of a step: the fingerprint's and the legacy one. *)
Definition flag_of `{JSON} `{Unicode} (st : fileStore) (s : Step) (path : string) : Prop := Store_Path st s = Ok path \/ legacyPath st s = Some path.

Definition flagged `{JSON} `{Unicode} (d : disk) (st : fileStore) (s : Step) : Prop :=
  exists path data, flag_of st s path /\ contains d (fs_rootMount st) path data.

(** A stage whose steps the flags may hold back. *)
Definition may_skip (rt : runtimeConfig) (stage : string) : Prop :=
  is_check stage = false /\ rt_alwaysRunStep rt = false /\ stage ∉ [Stage.Config; Stage.Uninstall; Stage.Upgrade].

Lemma Decide_skips rt stage s : may_skip rt stage -> Idempotence s <> Disabled ->
  d_Run (Decide true (rt_alwaysRunStep rt) stage (Idempotence s)) = false.
Proof. intros (_ & -> & Hs) Hi. unfold Decide. simpl. by rewrite !bool_decide_eq_false_2. Qed.

Lemma may_skip_plain rt stage : may_skip rt stage -> isUpgradeStage stage = false /\ recordsHistory stage = false /\ stage <> Stage.UninstallCheck.
Proof.
  intros (Hc & _ & Hs). unfold is_check in Hc. apply bool_decide_eq_false in Hc.
  assert (forall x, x ∈ [Stage.ApplyCheck; Stage.UpgradeCheck; Stage.UninstallCheck] -> stage <> x) as Hx.
  { intros x Hx ->. apply Hc. repeat (apply elem_of_cons in Hx as [->|Hx]; [by eexists|]). by apply elem_of_nil in Hx. }
  split_and!.
  - unfold isUpgradeStage. rewrite !bool_decide_eq_false_2; [done|apply Hx; set_solver|intros ->; apply Hs; set_solver].
  - unfold recordsHistory. rewrite bool_decide_eq_false_2; [done|]. intros Hin. by apply (Hx stage).
  - apply Hx. set_solver.
Qed.

Section Flagged.
Context `{J : JSON} `{U : Unicode} `{T : TimeFormat} `{TJ : TimeJSON} `{W : World}.
Context (layout : Layout) (cfg : PackageConfig) (st : fileStore).
Context (Hroot : IsAbs (l_rootMount layout) = true) (Hclean : Clean (l_rootMount layout) = l_rootMount layout).
Context (Hstate : layout_root (l_stateRoot layout)) (Hst : newFileStore layout cfg = Ok st).

#[local] Set Default Proof Using "All".

Lemma package_dir : let dir := [fs_rootMount st; fs_dir st; fs_packageName st; fs_packageVersion st] in
  IsAbs (join "/" dir) = true /\ clean_parts (join "/" dir) = flags_dir layout ++ [fs_packageName st; fs_packageVersion st].
Proof.
  destruct (store_fields _ _ _ Hroot Hclean Hstate Hst) as (E & Hn & Hv), (fs_dir_parts _ _ _ Hroot Hclean Hstate Hst) as [Hl Hp].
  rewrite E in Hl, Hp |- *. cbn [fs_rootMount fs_dir fs_packageName fs_packageVersion] in *.
  destruct (plain_local _ Hn) as [Hn1 Hn2], (plain_local _ Hv) as [Hv1 Hv2].
  set (dir := [_; _; _; _]). cbv zeta.
  assert (IsAbs (join "/" dir) = true) as Ha by (unfold dir; rewrite join_cons by done; by apply IsAbs_app). split; [done|].
  destruct (Join_abs (l_rootMount layout) (tail dir) Hroot) as [_ Hc]; [by repeat constructor|].
  unfold Join in Hc. cbn [drop_empty] in Hc. rewrite bool_decide_eq_false_2 in Hc by by apply IsAbs_nonempty.
  rewrite clean_parts_Clean in Hc by done. etrans; [exact Hc|]. cbn [map concat dir tail]. rewrite Hp, Hn2, Hv2.
  unfold flags_dir. by rewrite <- !app_assoc.
Qed.

Lemma package_join x : let dir := join "/" [fs_rootMount st; fs_dir st; fs_packageName st; fs_packageVersion st] in
  Join [fs_rootMount st; fs_dir st; fs_packageName st; fs_packageVersion st; x] = Clean (dir +:+ "/" +:+ x).
Proof.
  destruct (store_fields _ _ _ Hroot Hclean Hstate Hst) as (E & _). unfold Join. cbn [drop_empty].
  rewrite bool_decide_eq_false_2 by (rewrite E; by apply IsAbs_nonempty). cbv zeta. f_equal.
  exact (join_snoc [fs_rootMount st; fs_dir st; fs_packageName st; fs_packageVersion st] x ltac:(done)).
Qed.

(** The name of a flag: one word for the fingerprint, the step's path with a mark
    for the legacy flag. *)
Definition flag_name (s : Step) (x : string) : Prop :=
  (plain x /\ exists u, x = u +:+ ".flag") \/
  (exists m, contains_char "."%char m = false /\ x = Path s +:+ "_" +:+ m).

Lemma flag_form s path : flag_of st s path -> IsLocal (Path s) = true /\ exists x, flag_name s x /\
  path = Clean (join "/" [fs_rootMount st; fs_dir st; fs_packageName st; fs_packageVersion st] +:+ "/" +:+ x).
Proof.
  intros [H|H]; revert H.
  - unfold Store_Path. destruct (IsLocal (Path s)) eqn:El; cbn [negb]; [|done]. intros [= <-]. split; [done|]. eexists. split; [|apply package_join].
    set (filename := Base _ +:+ _). left. destruct (Base_local _ El) as [Hb _]. split; [|exists (Base (Path s) +:+ "-" +:+ Fingerprint s); by rewrite !append_assoc].
    assert (4 <= String.length filename)%nat as Hlen by (unfold filename; rewrite !length_append; simpl; lia).
    split_and!; try (intros E; rewrite E in Hlen; simpl in Hlen; lia).
    unfold filename. rewrite !contains_char_app, Hb. unfold Fingerprint, stepFingerprint. by rewrite EncodeToString_free.
  - unfold legacyPath. destruct (IsLocal (Path s)) eqn:El; cbn [negb]; [|done]. cbv zeta.
    match goal with |- context [b64_encode ?p] => set (m := b64_encode p) end. intros [= <-]. split; [done|]. eexists. split; [|apply package_join].
    right. exists m. split; [by apply b64_encode_free|done].
Qed.

Lemma flag_below s path : flag_of st s path -> IsAbs path = true /\ exists rest, rest <> [] /\
  clean_parts path = flags_dir layout ++ [fs_packageName st; fs_packageVersion st] ++ rest.
Proof.
  intros (El & x & Hx & ->)%flag_form. destruct package_dir as [Ha Hc]. split; [by apply IsAbs_Clean, IsAbs_app|].
  rewrite clean_parts_Clean by by apply IsAbs_app. destruct Hx as [[Hx _]|(m & Hm & ->)].
  - destruct (plain_local _ Hx) as [Hx1 Hx2]. exists [x]. split; [done|]. by rewrite clean_parts_below, Hc, Hx2, <- app_assoc.
  - destruct (marked_parts _ (Path s) m Ha El Hm) as (rest & Hne & Hr). exists rest. split; [done|]. by rewrite Hr, Hc, <- app_assoc.
Qed.

(** Flags end neither like logs nor like temporary files. *)
Lemma flag_last s path a ext : flag_of st s path -> contains_char "."%char ext = true -> contains_char "_"%char ext = false ->
  String.length ext = 4%nat -> last (clean_parts path) <> Some (a +:+ ext).
Proof.
  intros (El & x & Hx & ->)%flag_form Hd Hu Hl. destruct package_dir as [Ha _]. rewrite clean_parts_Clean by by apply IsAbs_app.
  destruct Hx as [[_ [u ->]]|(m & Hm & ->)]; [|by apply marked_last].
  set (X := join "/" _) in *. destruct (last_word (X +:+ "/" +:+ u +:+ ".flag") (X +:+ "/" +:+ u) ".flag") as [y ->];
    [by apply IsAbs_app|by rewrite !append_assoc|done|simpl; lia|].
  intros [= E]. change ".flag" with ("." +:+ "flag") in E. rewrite <- append_assoc in E.
  apply append_inj_suffix in E as [_ <-]; [by vm_compute in Hd|done].
Qed.

Lemma flag_not_root s path : flag_of st s path -> clean_parts path <> clean_parts (fs_rootMount st).
Proof.
  intros H. destruct (flag_below _ _ H) as (_ & rest & Hne & ->), (store_fields _ _ _ Hroot Hclean Hstate Hst) as (-> & _).
  unfold flags_dir. simpl. intros E%(f_equal length). rewrite !length_app in E. simpl in E. lia.
Qed.

Lemma hoare_checked {A B : Type} fmt args (r : res A) (k : A -> Go B) d0 (Q : B -> disk -> Prop) : r <> Panic ->
  (forall a, r = Ok a -> hoare (fun d => d = d0) (k a) Q (fun _ d => d = d0)) ->
  hoare (fun d => d = d0) (bind (wrap fmt args (lift r)) k) Q (fun _ d => d = d0).
Proof.
  intros Hr Hk. eapply (hoare_bind _ _ _ (fun a d => d = d0 /\ r = Ok a)).
  - eapply hoare_wrap; [|by intros e d H; exact H]. apply hoare_lift. by intros d ->; destruct r.
  - intros a. apply hoare_known. apply Hk.
Qed.

Lemma validatePath_total path : validatePath st path <> Panic.
Proof.
  unfold validatePath. destruct (Rel _ _) as [rel|e|] eqn:E; simpl; [by destruct (IsLocal rel)|done|].
  revert E. unfold Rel. case_bool_decide; [done|]. case_match; [done|]. by case_match.
Qed.

(** [Check] decides by the flags that are there, and leaves the disk alone. *)
Lemma Check_spec s always stage d0 :
  hoare (fun d => d = d0) (Check st s always stage)
    (fun decision d => d = d0 /\ exists b, decision = Decide b always stage (Idempotence s) /\ (b = true <-> flagged d0 st s))
    (fun _ d => d = d0).
Proof.
  unfold Check. apply hoare_checked; [unfold Stage.ParseStage; by case_bool_decide|]. intros _ _.
  apply hoare_checked; [unfold Idempotence_Validate; by repeat case_bool_decide|]. intros _ _.
  apply hoare_checked; [unfold Store_Path; by case_match|]. intros path Hpath.
  apply hoare_checked; [apply validatePath_total|]. intros _ _.
  eapply hoare_bind; [eapply hoare_wrap; [by eapply RegularFileExists_spec, flag_not_root; left|done]|]. intros found.
  apply hoare_known. intros Hfound. destruct found; simpl.
  - apply hoare_ret. intros d ->. split; [done|]. exists true. split; [done|]. split; [|done]. intros _.
    destruct Hfound as (r & l & Hl & data & Hd). exists path, data. split; [by left|]. by exists r, l.
  - eapply (hoare_bind _ _ _ (fun b d => d = d0 /\ (b = true <-> flagged d0 st s))).
    + destruct (legacyPath st s) as [legacy|] eqn:El.
      * eapply hoare_wrap; [eapply hoare_post; [by eapply RegularFileExists_spec, flag_not_root; right|..]|]; try done.
        intros b d [-> Hb]. split; [done|]. split.
        -- intros ->. destruct Hb as (r & l & Hl & data & Hd). exists legacy, data. split; [by right|]. by exists r, l.
        -- intros (p & data & [Hp|Hp] & Hc); [|rewrite El in Hp; injection Hp as <-; exact (seen_contains _ _ _ _ _ Hc Hb)].
           rewrite Hpath in Hp. injection Hp as <-. by apply (seen_contains _ _ _ _ _ Hc) in Hfound.
      * apply hoare_ret. intros d ->. split; [done|]. split; [done|]. intros (p & data & [Hp|Hp] & Hc); [|congruence].
        rewrite Hpath in Hp. injection Hp as <-. by apply (seen_contains _ _ _ _ _ Hc) in Hfound.
    + intros b. apply hoare_known. intros Hb. destruct b; apply hoare_ret; intros d ->; (split; [done|]); eexists; by split.
Qed.

(* ------------------------------------------------------------------ *)
(** ** A file that stays *)

(** A file is at [p], and no link is on the way. *)
Definition there (d : disk) (p : list string) : Prop := mounted (l_rootMount layout) d /\ clear d [] p /\ written (d !! p).

(** It stays where nothing that is there changes. *)
Lemma there_touches ps d0 d p : (exists l, l <> [] /\ p = clean_parts (l_rootMount layout) ++ l) -> touches ps d0 d ->
  (forall q, ps q -> ~ directory_at d0 q) -> (ps p -> written (d !! p)) -> there d0 p -> there d p.
Proof.
  intros (l & Hl & Hp) Ht Hd Hps (Hm & Hc & Hw). split_and!.
  - destruct Hm as (H1 & H2 & H3). split_and!; [done|done|]. intros l1 l2 E Hne. destruct (H3 l1 l2 E Hne) as [m Hm]. exists m.
    eapply touches_keeps; [exact Ht| |done]. intros Hq%Hd. destruct Hq. by exists m.
  - intros l1 l2 E H1 H2. destruct (Hc l1 l2 E H1 H2) as [m Hm']. exists m. eapply touches_keeps; [exact Ht| |done].
    intros Hq%Hd. destruct Hq. by exists m.
  - destruct (Ht p) as [?|[->|[Hn _]]]; [auto|done|]. destruct Hw as (? & ? & Hw). congruence.
Qed.

Lemma contains_there d path data l : mounted (l_rootMount layout) d -> clean_parts path = clean_parts (l_rootMount layout) ++ l ->
  contains d (l_rootMount layout) path data -> there d (clean_parts path).
Proof.
  intros Hm Hl (r & l' & Hle & Hc & m & Hd). destruct (mounted_leads _ _ _ _ _ Hm Hle) as [-> E]. rewrite <- E. split_and!; [done| |by eexists _, _].
  intros l1 l2 El H1 H2. destruct (app_eq_inv _ _ _ _ El) as [(k & E1 & E2)|(k & E1 & E2)].
  - destruct Hm as (_ & _ & Hch). by apply (Hch l1 k).
  - destruct k as [|c k]; [rewrite app_nil_r in E1; subst l1; destruct Hm as (_ & _ & Hch); apply (Hch _ []); [by rewrite app_nil_r|done]|].
    subst l1. rewrite app_nil_l. by apply (Hc (c :: k) l2).
Qed.

Lemma there_contains d path l : IsAbs path = true -> clean_parts path = clean_parts (l_rootMount layout) ++ l -> there d (clean_parts path) ->
  exists data, contains d (l_rootMount layout) path data.
Proof.
  intros Ha Hl (Hm & Hc & data & m & Hd). exists data, (clean_parts (l_rootMount layout)), l.
  split; [by apply mounted_leads_intro|]. rewrite Hl in Hc, Hd. split; [|by exists m].
  intros l1 l2 E H1 H2. apply (Hc _ l2); [by rewrite E, <- app_assoc| |done]. by destruct (clean_parts (l_rootMount layout)).
Qed.

Lemma flag_depth s path : flag_of st s path -> exists l, (2 < length l)%nat /\ l <> [] /\ clean_parts path = clean_parts (l_rootMount layout) ++ l /\
  exists rest, clean_parts path = flags_dir layout ++ rest /\ (2 < length rest)%nat.
Proof.
  intros H. destruct (flag_below _ _ H) as (_ & rest & Hne & E). assert (0 < length rest)%nat by (destruct rest; [done|simpl; lia]).
  exists (clean_parts (l_stateRoot layout) ++ ["flags"] ++ [fs_packageName st; fs_packageVersion st] ++ rest). split_and!.
  - rewrite !length_app. simpl. lia.
  - by destruct (clean_parts (l_stateRoot layout)).
  - rewrite E. unfold flags_dir. by rewrite <- !app_assoc.
  - eexists. split; [exact E|]. simpl. lia.
Qed.

(** The file that is there is a flag of the step. *)
Lemma there_flagged d s path : flag_of st s path -> there d (clean_parts path) -> flagged d st s.
Proof.
  intros Hf Ht. destruct (flag_below _ _ Hf) as (Ha & _), (flag_depth _ _ Hf) as (l & _ & _ & Hl & _).
  destruct (there_contains _ _ _ Ha Hl Ht) as [data Hc]. exists path, data. split; [done|].
  destruct (store_fields _ _ _ Hroot Hclean Hstate Hst) as (-> & _). exact Hc.
Qed.

Lemma flagged_there d s : mounted (l_rootMount layout) d -> flagged d st s -> exists path, flag_of st s path /\ there d (clean_parts path).
Proof.
  intros Hm (path & data & Hf & Hc). exists path. split; [done|]. destruct (flag_depth _ _ Hf) as (l & _ & _ & Hl & _).
  destruct (store_fields _ _ _ Hroot Hclean Hstate Hst) as (E & _). rewrite E in Hc. by eapply contains_there.
Qed.

(* ------------------------------------------------------------------ *)
(** ** A stage that is done *)

Lemma start_parts : clean_parts (Join [FlagDir layout; "START"]) = clean_parts (l_rootMount layout) ++ (clean_parts (l_stateRoot layout) ++ ["flags"]) ++ ["START"].
Proof.
  destruct Hstate as [Hs _]. destruct (Join_abs (l_rootMount layout) [l_stateRoot layout] Hroot) as [H1 H2]; [by repeat constructor|].
  destruct (Join_abs (StateDir layout) ["flags"] H1) as [H3 H4]; [by repeat constructor|].
  destruct (Join_abs (FlagDir layout) ["START"] H3) as [_ H5]; [by repeat constructor|].
  rewrite H5. unfold FlagDir at 1. rewrite H4. unfold StateDir. rewrite H2. simpl. by rewrite app_nil_r, <- !app_assoc.
Qed.

(** What is there stays when the store writes, and so does the mount. *)
Lemma Store_Write_there path data dl name d0 : clean_parts path = clean_parts (l_rootMount layout) ++ dl ++ [name] ->
  (forall text, name <> temp_name text) -> mounted (l_rootMount layout) d0 ->
  hoare (fun d => d = d0) (Store_Write st path data)
    (fun _ d => mounted (l_rootMount layout) d /\ there d (clean_parts path) /\
      forall p, (exists l, l <> [] /\ p = clean_parts (l_rootMount layout) ++ l) -> there d0 p -> there d p)
    (fun _ _ => True).
Proof.
  intros Hp Hn Hm. unfold Store_Write.
  assert (fs_rootMount st = l_rootMount layout) as -> by by destruct (store_fields _ _ _ Hroot Hclean Hstate Hst) as (-> & _).
  eapply (hoare_bind _ _ _ (fun _ d => d = d0)).
  - eapply hoare_wrap; [|done]. apply (hoare_lift _ _ _ (fun _ _ => True)). intros d ->. pose proof (validatePath_total path).
    by destruct (validatePath st path) as [[]|e|].
  - intros _. eapply (hoare_wrap _ _ _ _ _ _ (fun _ _ => True)); [|done].
    eapply hoare_post; [by apply (WriteFile_spec _ path data flagFileMode dl name)| |done].
    intros _ d (r & Hl & Ht & Hc & Hd & Hnd). destruct (mounted_leads _ _ _ _ _ Hm Hl) as [-> E]. rewrite E in Ht, Hd, Hnd.
    assert (mounted (l_rootMount layout) d) as Hm'.
    { eapply touches_mounted; [exact Ht| |done]. intros l1 l2 Hl1 Eq. rewrite Hp in Eq. symmetry in Eq. by apply (prefix_shorter _ _ _ _ _ Hl1) in Eq. }
    assert (forall p, (exists l, l <> [] /\ p = clean_parts (l_rootMount layout) ++ l) -> there d0 p -> there d p) as Hkeep.
    { intros p Hl' Hp'. eapply there_touches; [exact Hl'|exact Ht|by intros q ->|intros ->; by eexists _, _|exact Hp']. }
    split_and!; [done| |done]. apply (contains_there _ path data (dl ++ [name])); [done|done|].
    exists (clean_parts (l_rootMount layout)), (dl ++ [name]). split; [apply mounted_leads_intro; [done|by destruct Hl as (_ & ? & _)|done]|].
    split; [done|]. exists flagFileMode. by rewrite E.
Qed.

Lemma flagged_keeps d0 d s : mounted (l_rootMount layout) d0 ->
  (forall p, (exists l, l <> [] /\ p = clean_parts (l_rootMount layout) ++ l) -> there d0 p -> there d p) -> flagged d0 st s -> flagged d st s.
Proof.
  intros Hm Hk (path & Hf & Hp)%flagged_there; [|done]. apply (there_flagged _ _ path); [done|]. apply Hk; [|done].
  destruct (flag_depth _ _ Hf) as (l & _ & Hne & Hl & _). by exists l.
Qed.

(** A step that is done once it has a flag. *)
Definition done_with (d : disk) (s : Step) : Prop := flagged d st s /\ Idempotence s <> Disabled.

Lemma one_step_idle req rt versions results s d0 : may_skip rt (rq_stage req) -> done_with d0 s ->
  hoare (fun d => d = d0) (one_step req rt layout cfg st versions results s) (fun p d => d = d0 /\ p = Continue results) (fun _ d => d = d0).
Proof.
  intros Hm [Hf Hi]. unfold one_step. fold (is_check (rq_stage req)). rewrite (proj1 Hm).
  eapply (hoare_bind _ _ _ (fun _ d => d = d0)); [by apply hoare_ctx|]. intros [e|]; [by apply hoare_raise|]. cbn [when_err].
  eapply (hoare_bind _ _ _ (fun run d => d = d0 /\ run = false)).
  - eapply hoare_bind; [eapply hoare_wrap; [apply Check_spec|by intros e d H; exact H]|]. intros decision. apply hoare_known. intros (b & -> & Hb).
    apply hoare_ret. intros d ->. split; [done|]. rewrite (proj2 Hb Hf). by apply Decide_skips.
  - intros run. apply hoare_known. intros ->. by apply hoare_ret.
Qed.

Lemma each_step_idle req rt versions results todo d0 : may_skip rt (rq_stage req) -> Forall (done_with d0) todo ->
  hoare (fun d => d = d0) (each_step req rt layout cfg st versions results todo) (fun p d => d = d0 /\ p = Continue results) (fun _ d => d = d0).
Proof.
  intros Hm. induction 1 as [|s todo Hs Htodo IH]; cbn [each_step]; [by apply hoare_ret|].
  eapply hoare_bind; [by apply one_step_idle|]. intros p. apply hoare_known. by intros ->.
Qed.

(** When every step of a stage has one of its two flags, a stage that obeys
    flags does nothing: the agent runs no command, and it ends with success unless
    a file operation fails or it is stopped. *)
Lemma flagged_stage_idle req rt history z : mounted (l_rootMount layout) (mem z) -> may_skip rt (rq_stage req) ->
  Forall (done_with (mem z)) (steps_of (pc_Modes cfg) (rq_stage req)) ->
  let '(z', r) := runSteps req rt layout cfg st history z in
  runs [] z z' /\ r <> Ok StatusFailed /\ r <> Panic.
Proof.
  intros Hmount Hm Hdone. set (todo := steps_of _ _) in *. destruct (may_skip_plain _ _ Hm) as (Hu & Hh & Huc).
  enough (hoare (fun d => d = mem z) (runSteps req rt layout cfg st history) (fun status _ => status = StatusSuccess) (fun _ _ => True)) as H.
  { destruct (H z eq_refl) as [Hq Hr]. destruct (runSteps req rt layout cfg st history z) as [z' [status|e|]]; simpl in *; [| |done];
      (split; [by apply emits_quiet_runs|]); split; try done. by intros [= ->]. }
  unfold runSteps. fold todo (is_check (rq_stage req)). rewrite Hu, (proj1 Hm). cbn [andb].
  eapply (hoare_bind _ _ _ (fun _ d => Forall (done_with d) todo)).
  { eapply hoare_wrap; [|done]. eapply hoare_post; [apply (Store_Write_there _ _ _ _ _ start_parts); [intros text; by apply no_dot_not_temp|done]| |done].
    intros _ d (_ & _ & Hd). eapply Forall_impl; [exact Hdone|]. intros s [??]. split; [by eapply flagged_keeps|done]. }
  intros _. apply hoare_each. intros d1 Hd1. eapply (hoare_bind _ _ _ (fun _ d => d = d1)); [by apply hoare_ret|]. intros versions.
  eapply (hoare_bind _ _ _ (fun _ d => d = d1)); [by apply hoare_ret|]. intros _.
  eapply hoare_bind; [eapply hoare_error; [by apply each_step_idle|done]|]. intros p. apply hoare_known. intros ->.
  eapply (hoare_bind _ _ _ (fun status d => d = d1 /\ status = StatusSuccess)); [by apply hoare_ret|]. intros status. apply hoare_known. intros ->.
  cbn [bool_decide]. rewrite Hh, (bool_decide_eq_false_2 (rq_stage req = Stage.UninstallCheck)) by done.
  do 2 (eapply (hoare_bind _ _ _ (fun _ d => d = d1)); [by apply hoare_ret|intros _]). apply hoare_ret. by intros d ->.
Qed.

End Flagged.

(* ------------------------------------------------------------------ *)
(** ** What a part that succeeds leaves *)

Section Ends.
Context `{W : World}.

(** From a disk in [P], a success leaves one in [Q]; commands may run. *)
Definition ends {A : Type} (P : disk -> Prop) (m : Go A) (Q : A -> disk -> Prop) : Prop :=
  forall s s' a, P (mem s) -> m s = (s', Ok a) -> Q a (mem s').

Lemma ends_ret {A : Type} (P : disk -> Prop) (a : A) (Q : A -> disk -> Prop) : (forall d, P d -> Q a d) -> ends P (ret a) Q.
Proof. intros HQ s s' b Hs [= <- <-]. by apply HQ. Qed.

Lemma ends_raise {A : Type} (P : disk -> Prop) e (Q : A -> disk -> Prop) : ends P (raise e) Q.
Proof. by intros s s' b Hs. Qed.

Lemma ends_lift {A : Type} (P : disk -> Prop) (r : res A) (Q : A -> disk -> Prop) : (forall a d, r = Ok a -> P d -> Q a d) -> ends P (lift r) Q.
Proof. intros HQ s s' b Hs [= <- E]. by apply HQ. Qed.

Lemma ends_bind {A B : Type} (P : disk -> Prop) (m : Go A) (k : A -> Go B) (R : A -> disk -> Prop) (Q : B -> disk -> Prop) :
  ends P m R -> (forall a, ends (R a) (k a) Q) -> ends P (bind m k) Q.
Proof. intros Hm Hk s s' b Hs (s1 & a & E1 & E2)%bind_ok. by eapply Hk; [eapply Hm|]. Qed.

Lemma ends_wrap {A : Type} (P : disk -> Prop) fmt args (m : Go A) (Q : A -> disk -> Prop) : ends P m Q -> ends P (wrap fmt args m) Q.
Proof. intros Hm s s' a Hs H%wrap_ok. by eapply Hm. Qed.

Lemma ends_hoare {A : Type} (P : disk -> Prop) (m : Go A) (Q : A -> disk -> Prop) (X : error -> disk -> Prop) : hoare P m Q X -> ends P m Q.
Proof. intros Hm s s' a Hs E. destruct (Hm s Hs) as [_ H]. by rewrite E in H. Qed.

Lemma ends_keeps {A : Type} (I : disk -> Prop) (m : Go A) : steps (keeps I (fun _ => True)) m -> ends I m (fun _ => I).
Proof. intros Hm s s' a Hs E. destruct (Hm s Hs) as [H _]. by rewrite E in H. Qed.

Lemma ends_conseq {A : Type} (P P' : disk -> Prop) (m : Go A) (Q Q' : A -> disk -> Prop) :
  ends P m Q -> (forall d, P' d -> P d) -> (forall a d, Q a d -> Q' a d) -> ends P' m Q'.
Proof. intros Hm HP HQ s s' a Hs E. by eapply HQ, Hm; [apply HP|]. Qed.

Lemma ends_attempt {A : Type} (P : disk -> Prop) (m : Go A) (Q : A -> disk -> Prop) :
  ends P m Q -> ends P (attempt m) (fun r d => forall a, r = Ok a -> Q a d).
Proof.
  intros Hm s s' r Hs E a ->. unfold attempt in E. destruct (m s) as [s1 [a'|e|]] eqn:Em; try done. injection E as <- <-. by eapply Hm.
Qed.

Lemma ends_try {A : Type} (P : disk -> Prop) (m : Go A) (Q : A -> disk -> Prop) :
  ends P m Q -> ends P (try m) (fun r d => r = None -> exists a, Q a d).
Proof.
  intros Hm s s' r Hs E ->. unfold try in E. destruct (m s) as [s1 [a|e|]] eqn:Em; try done. injection E as <-. exists a. by eapply Hm.
Qed.

Lemma ends_if {A : Type} (b : bool) (P : disk -> Prop) (m m' : Go A) (Q : A -> disk -> Prop) :
  (b = true -> ends P m Q) -> (b = false -> ends P m' Q) -> ends P (if b then m else m') Q.
Proof. destruct b; auto. Qed.

Lemma ends_loop {A B : Type} (I : disk -> Prop) (f : B -> A -> Go B) l : (forall acc a, a ∈ l -> ends I (f acc a) (fun _ => I)) ->
  forall acc, ends I (loop f acc l) (fun _ => I).
Proof.
  induction l as [|a l IH]; intros Hf acc; cbn [loop]; [by apply ends_ret|].
  eapply ends_bind; [apply Hf; by left|]. intros acc'. apply IH. intros acc'' a' Ha. apply Hf. by right.
Qed.

(** What the conclusion of a part needs is that no error was kept. *)
Lemma ends_when_err {A : Type} (P : disk -> Prop) e (f : error -> error) (m : Go A) (Q : A -> disk -> Prop) :
  (e = None -> ends P m Q) -> ends P (when_err e f m) Q.
Proof. destruct e; [intros _; apply ends_raise|auto]. Qed.

Lemma ends_known {A : Type} (P : disk -> Prop) (known : Prop) (m : Go A) (Q : A -> disk -> Prop) :
  (known -> ends P m Q) -> ends (fun d => P d /\ known) m Q.
Proof. intros Hm s s' a [Hs Hk]. by apply Hm. Qed.

Lemma ends_each {A : Type} (P : disk -> Prop) (m : Go A) (Q : A -> disk -> Prop) : (forall d0, P d0 -> ends (fun d => d = d0) m Q) -> ends P m Q.
Proof. intros Hm s s' a Hs. by apply (Hm (mem s) Hs). Qed.

Lemma ends_any {A : Type} (P : disk -> Prop) (m : Go A) : ends P m (fun _ _ => True).
Proof. done. Qed.

End Ends.

(* ------------------------------------------------------------------ *)
(** ** The flags last *)

(** What follows a part may use that the part succeeded. *)
Lemma steps_knowing {E S A B : Type} (R : pass E S -> pass E S -> Prop) `{!PreOrder R} (m : M E S A) (k : A -> M E S B) :
  steps R m -> (forall a, (exists s s', m s = (s', Ok a)) -> steps R (k a)) -> steps R (bind m k).
Proof.
  intros Hm Hk s. unfold bind. pose proof (Hm s) as H. destruct (m s) as [s1 [a|e|]] eqn:Em; [|done..].
  etrans; [exact H|]. apply Hk. by exists s, s1.
Qed.

Lemma IsAbs_Dir p : IsAbs p = true -> IsAbs (Dir p) = true.
Proof.
  intros Ha. unfold Dir. destruct (cut_at_last slash p) as [[before after]|] eqn:E.
  - apply cut_at_last_some in E as [-> _]. apply IsAbs_Clean. destruct before as [|x before]; [done|].
    rewrite append_cons in Ha |- *. by rewrite IsAbs_cons in Ha |- *.
  - apply cut_at_last_free in E. apply has_prefix_spec in Ha as [a ->]. by rewrite contains_char_app in E.
Qed.

(** A path of the root itself is not removed. *)
Lemma RemoveFile_removes `{World} rootMount path d0 :
  hoare (fun d => d = d0) (RemoveFile rootMount path)
    (fun _ d => d = d0 \/ exists r l, l <> [] /\ leads d0 rootMount path r l /\ removed_at d0 d r l)
    (fun _ d => d = d0 \/ exists r l, l <> [] /\ leads d0 rootMount path r l /\ removed_at d0 d r l).
Proof.
  destruct (decide (clean_parts path = clean_parts rootMount)) as [E|Hne].
  - eapply hoare_post; [apply (openRoot_spec _ _ _ _ (fun _ d => d = d0) (fun d => d = d0))| |]; [done|done| |by left|by left].
    intros r l (_ & _ & Hc & _). rewrite E in Hc. rewrite <- (app_nil_r (clean_parts rootMount)) in Hc at 1. apply app_inv_head in Hc as <-.
    eapply (hoare_bind _ _ _ (fun found d => d = d0 /\ found = None)); [eapply hoare_wrap; [by apply hoare_ret|by intros e d X; exact X]|].
    intros found. apply hoare_known. intros ->. by apply hoare_ret.
  - assert (forall d r l, leads d0 rootMount path r l -> removed_at d0 d r l -> exists r l, l <> [] /\ leads d0 rootMount path r l /\ removed_at d0 d r l) as Hrem.
    { intros d r l Hl Hr. exists r, l. split; [|done]. intros ->. destruct Hl as (_ & _ & Hc & _). by rewrite app_nil_r in Hc. }
    eapply hoare_post; [by apply RemoveFile_spec|..]; [intros _ d (r & l & Hl & Hr & _); right; by eapply Hrem|].
    intros _ d [->|(r & l & Hl & Hr)]; [by left|right; by eapply Hrem].
Qed.

Section Lasting.
Context `{J : JSON} `{U : Unicode} `{T : TimeFormat} `{TJ : TimeJSON} `{W : World}.
Context (layout : Layout) (cfg : PackageConfig) (st : fileStore).
Context (Hroot : IsAbs (l_rootMount layout) = true) (Hclean : Clean (l_rootMount layout) = l_rootMount layout).
Context (Hstate : layout_root (l_stateRoot layout)) (Hst : newFileStore layout cfg = Ok st).

#[local] Set Default Proof Using "All".

(** The files at [K] are there. *)
Definition kept (K : list string -> Prop) (d : disk) : Prop := mounted (l_rootMount layout) d /\ forall p, K p -> there layout d p.

Definition flags_only (K : list string -> Prop) : Prop := forall p, K p -> exists s path, flag_of st s path /\ p = clean_parts path.

Notation stays K m := (steps (keeps (kept K) (fun _ : event => True)) m).

Lemma flags_only_below K p : flags_only K -> K p -> exists l, l <> [] /\ p = clean_parts (l_rootMount layout) ++ l.
Proof.
  intros HK (s & path & Hf & ->)%HK. destruct (flag_depth _ _ _ Hroot Hclean Hstate Hst _ _ Hf) as (l & _ & Hne & Hl & _). by exists l.
Qed.

(** A path below the mount is a name in a directory. *)
Definition below_mount (path : string) : Prop := exists dl name, clean_parts path = clean_parts (l_rootMount layout) ++ dl ++ [name].

Lemma kept_touches K ps d0 d : flags_only K -> touches ps d0 d -> (forall q, ps q -> ~ directory_at d0 q) -> (forall p, ps p -> K p -> written (d !! p)) ->
  (forall l1 l2, clean_parts (l_rootMount layout) = l1 ++ l2 -> ~ ps l1) -> kept K d0 -> kept K d.
Proof.
  intros HK Ht Hd Hw Hps [Hm Hk]. split; [by eapply touches_mounted|]. intros p Hp. eapply there_touches; [..|by apply Hk]; try done.
  - by eapply flags_only_below.
  - intros ?. by apply Hw.
Qed.

(* ------------------------------------------------------------------ *)
(** *** Marks *)

(** The flags of a step, by where they are. *)
Definition flags_at (s : Step) (p : list string) : Prop := exists path, flag_of st s path /\ p = clean_parts path.

Definition with_flags (K : list string -> Prop) (s : Step) (p : list string) : Prop := K p \/ flags_at s p.

Lemma with_flags_only K s : flags_only K -> flags_only (with_flags K s).
Proof. intros HK p [Hp|(path & Hf & ->)]; [by apply HK|by exists s, path]. Qed.

Lemma kept_weaken (K K' : list string -> Prop) d : (forall p, K' p -> K p) -> kept K d -> kept K' d.
Proof. intros H [Hm Hk]. split; [done|]. intros p Hp. by apply Hk, H. Qed.

Lemma flag_location s path : flag_of st s path -> exists dl name, clean_parts path = clean_parts (l_rootMount layout) ++ dl ++ [name] /\
  forall text, name <> temp_name text.
Proof.
  intros Hf. destruct (flag_depth _ _ _ Hroot Hclean Hstate Hst _ _ Hf) as (l & _ & Hne & Hl & _). destruct (exists_last Hne) as (dl & name & ->).
  exists dl, name. split; [done|]. intros text ->. eapply (flag_last _ _ _ Hroot Hclean Hstate Hst _ _ (".hostfs-" +:+ text) ".tmp") in Hf; try done.
  apply Hf. rewrite Hl, app_assoc, last_snoc. unfold temp_name. by rewrite append_assoc.
Qed.

Lemma Store_Write_kept K path data dl name : flags_only K -> clean_parts path = clean_parts (l_rootMount layout) ++ dl ++ [name] ->
  (forall text, name <> temp_name text) ->
  ends (kept K) (Store_Write st path data) (fun _ => kept (fun p => K p \/ p = clean_parts path)).
Proof.
  intros HK Hp Hn. apply ends_each. intros d0 [Hm Hk]. eapply ends_conseq; [eapply ends_hoare, (Store_Write_there _ _ _ Hroot Hclean Hstate Hst path data dl name d0 Hp Hn Hm)|done|].
  intros _ d (Hm' & Hd & H). split; [done|]. intros p [Hp'| ->]; [|done]. apply H; [by eapply flags_only_below|by apply Hk].
Qed.

Lemma mark_each_ends s message todo : Forall (fun marked => flag_of st s marked.1) todo -> forall K written, flags_only K ->
  ends (kept K) (mark_each st s message written todo) (fun _ => kept (fun p => K p \/ exists path, path ∈ todo.*1 /\ p = clean_parts path)).
Proof.
  induction 1 as [|[path existed] todo Hf Htodo IH]; intros K written HK; cbn [mark_each].
  { apply ends_ret. intros d. apply kept_weaken. intros p [?|(path & Hp & _)]; [done|by apply elem_of_nil in Hp]. }
  destruct (flag_location _ _ Hf) as (dl & name & Hp & Hn).
  eapply ends_bind; [eapply ends_try, (Store_Write_kept K path message dl name); done|]. intros [e|]; cbn [fst].
  { eapply ends_bind; [apply ends_any|]. intros rollback. apply ends_when_err. by destruct rollback. }
  eapply ends_conseq; [apply (IH (fun p => K p \/ p = clean_parts path))| |].
  - intros p [Hp'| ->]; [by apply HK|by exists s, path].
  - intros d Hd. by destruct Hd as [_ ?].
  - intros ? d. apply kept_weaken. intros p [?|(path' & Hin & ->)]; [by left; left|]. cbn [fmap list_fmap fst] in Hin.
    apply elem_of_cons in Hin as [->|Hin]; [by left; right|]. right. by exists path'.
Qed.

Lemma mark_existed_paths s paths z z' marked : mark_existed st s paths z = (z', Ok marked) -> marked.*1 = paths.
Proof.
  unfold mark_existed. assert (forall acc z z' marked, loop (fun marked markerPath =>
    let* _ := wrap "marking step %q: validating flag path: %w" [Path s] (lift (validatePath st markerPath)) in
    let* existed := wrap "marking step %q: inspecting flag path %q: %w" [Path s; markerPath] (RegularFileExists (fs_rootMount st) markerPath) in
    ret (marked ++ [(markerPath, existed)])) acc paths z = (z', Ok marked) -> marked.*1 = acc.*1 ++ paths) as H; [|by apply (H [])].
  clear. induction paths as [|path paths IH]; intros acc z z' marked; cbn [loop]; [intros [= _ <-]; by rewrite app_nil_r|].
  intros (z1 & acc' & E & H)%bind_ok. apply IH in H as ->. apply bind_ok in E as (? & ? & _ & E). apply bind_ok in E as (? & ? & _ & E).
  injection E as _ <-. rewrite fmap_app, <- app_assoc. done.
Qed.

Lemma Mark_ends K s message : flags_only K -> ends (kept K) (Mark st s message) (fun _ => kept (with_flags K s)).
Proof.
  intros HK. unfold Mark. eapply (ends_bind _ _ _ (fun path d => kept K d /\ Store_Path st s = Ok path)).
  { apply ends_wrap, ends_lift. intros path d Hp Hk. done. }
  intros path. apply ends_known. intros Hpath. cbv zeta. set (paths := match legacyPath st s with Some l => [l; path] | None => [path] end).
  assert (forall p, p ∈ paths <-> flag_of st s p) as Hpaths.
  { intros p. unfold paths, flag_of. rewrite Hpath. destruct (legacyPath st s) as [l|].
    - rewrite elem_of_cons, list_elem_of_singleton. split; [intros [->| ->]; [by right|by left]|intros [[= ->]|[= ->]]; [by right|by left]].
    - rewrite list_elem_of_singleton. split; [intros ->; by left|by intros [[= ->]|?]]. }
  eapply (ends_bind _ _ _ (fun marked d => kept K d /\ marked.*1 = paths)).
  { intros z z' marked Hz E. split; [|by eapply mark_existed_paths]. refine (ends_keeps _ _ _ z z' marked Hz E). walk ltac:(apply RegularFileExists_keeps). }
  intros marked. apply ends_known. intros Hm.
  eapply ends_bind; [apply mark_each_ends; [|done]|].
  - apply List.Forall_forall. intros [p e] Hin. apply Hpaths. rewrite <- Hm. apply list_elem_of_fmap. exists (p, e). split; [done|by apply list_elem_of_In].
  - intros ?. apply ends_ret. intros d. apply kept_weaken. intros p [?|(path' & Hf & ->)]; [by left|]. right. exists path'. split; [|done].
    rewrite Hm. by apply Hpaths.
Qed.

Lemma mark_complete_ends K s : flags_only K -> ends (kept K) (mark_complete st s) (fun _ => kept (with_flags K s)).
Proof.
  intros HK. unfold mark_complete. eapply ends_bind; [apply ends_keeps, now_keeps|]. intros now.
  eapply ends_bind; [by apply ends_wrap, Mark_ends|]. intros path. by apply ends_ret.
Qed.

(** A step is done for [Check] once one that differs in its environment only is
    marked: the legacy flag does not tell them apart. *)
Lemma legacyPath_same s t : Path t = Path s -> em_Arguments (ExecutionMetadata_of t) = em_Arguments (ExecutionMetadata_of s) ->
  em_ReturnCodes (ExecutionMetadata_of t) = em_ReturnCodes (ExecutionMetadata_of s) -> legacyPath st t = legacyPath st s.
Proof. unfold legacyPath. by intros -> -> ->. Qed.

(** The environment of a step, and whether it runs on the host, do not count:
    once a step is marked, a step of the same path, arguments and return codes
    passes for completed, although its fingerprint is another. *)
Theorem changed_environment_is_skipped s t message always stage z z1 z2 path decision : mounted (l_rootMount layout) (mem z) ->
  Path t = Path s -> em_Arguments (ExecutionMetadata_of t) = em_Arguments (ExecutionMetadata_of s) ->
  em_ReturnCodes (ExecutionMetadata_of t) = em_ReturnCodes (ExecutionMetadata_of s) ->
  Mark st s message z = (z1, Ok path) -> Check st t always stage z1 = (z2, Ok decision) ->
  decision = Decide true always stage (Idempotence t).
Proof.
  intros Hm Hp Ha Hr Hmark Hcheck.
  destruct (Mark_ends (fun _ => False) s message ltac:(by intros p []) z z1 path ltac:(by split) Hmark) as [Hm1 Hk].
  apply (ends_hoare _ _ _ _ (Check_spec _ _ _ Hroot Hclean Hstate Hst t always stage (mem z1)) z1 z2 decision eq_refl) in Hcheck as (_ & b & -> & Hb).
  enough (b = true) as -> by done. apply Hb.
  apply bind_ok in Hmark as (? & spath & E & _). apply wrap_ok in E. injection E as _ E.
  assert (exists legacy, legacyPath st s = Some legacy) as [legacy Hl].
  { unfold Store_Path in E. unfold legacyPath. destruct (IsLocal (Path s)); [by eexists|done]. }
  apply (there_flagged _ _ _ Hroot Hclean Hstate Hst _ _ legacy); [right; by rewrite (legacyPath_same s t)|].
  apply Hk. right. exists legacy. split; [by right|done].
Qed.

(* ------------------------------------------------------------------ *)
(** *** Operations *)

(** Commands leave the mount and the flags alone. *)
Definition respects_flags : Prop := forall t pr d,
  (mounted (l_rootMount layout) d -> mounted (l_rootMount layout) (w_exec t pr d).1) /\
  (forall s path, flag_of st s path -> there layout d (clean_parts path) -> there layout (w_exec t pr d).1 (clean_parts path)).

Context (Hlog : layout_root (l_logRoot layout)) (Hexec : respects_flags).

Lemma CreateFileWriter_stays K path mode : flags_only K -> below_mount path -> stays K (CreateFileWriter (l_rootMount layout) path mode).
Proof.
  intros HK (dl & name & Hp). apply hoare_keeps. intros d0 Hd.
  assert (forall r d, leads d0 (l_rootMount layout) path r (dl ++ [name]) -> touches (fun p => p = r ++ dl ++ [name] /\ d0 !! p = None) d0 d -> kept K d) as H.
  { intros r d Hl Ht. destruct (mounted_leads _ _ _ _ _ (proj1 Hd) Hl) as [-> _]. eapply kept_touches; [done|exact Ht|..|done].
    - intros q [_ Hq] [m Hm]. congruence.
    - intros p [_ Hn] Hp'. destruct (proj2 Hd p Hp') as (_ & _ & data & m & Hw). congruence.
    - intros l1 l2 Hl1 [E _]. symmetry in E. by apply (prefix_shorter _ _ _ _ _ Hl1) in E. }
  eapply hoare_post; [by apply CreateFileWriter_spec|..].
  - intros f d (r & Hl & Ht & _). by eapply H.
  - intros _ d [->|(r & Hl & Ht)]; [done|by eapply H].
Qed.

Lemma RemoveFile_stays K path : flags_only K -> ~ K (clean_parts path) -> stays K (RemoveFile (l_rootMount layout) path).
Proof.
  intros HK Hp. apply hoare_keeps. intros d0 Hd.
  enough (forall d, d = d0 \/ (exists r l, l <> [] /\ leads d0 (l_rootMount layout) path r l /\ removed_at d0 d r l) -> kept K d) as Hk.
  { eapply hoare_post; [apply RemoveFile_removes|..]; [intros ? d; apply Hk|intros ? d; apply Hk]. }
  intros d [->|(r & l & Hne & Hl & [->|[-> (data & _ & mode & Hf)]])]; [done..|].
  destruct (mounted_leads _ _ _ _ _ (proj1 Hd) Hl) as [-> E]. rewrite E in *.
  assert (length (clean_parts (l_rootMount layout)) < length (clean_parts path))%nat as Hlen by (rewrite <- E, length_app; destruct l; [done|simpl; lia]).
  eapply (kept_touches _ (fun p => p = clean_parts path)); [done|by apply touches_delete; [|reflexivity]|..|done].
  - intros q -> [m Hm]. congruence.
  - by intros p ->.
  - intros l1 l2 Hl1 ->. rewrite Hl1, length_app in Hlen. lia.
Qed.

Lemma chmod_kept K (d : disk) mode q : kept K d -> kept K (chmod_at d mode q).1.
Proof.
  unfold chmod_at. destruct (d !! q) as [n|] eqn:E; [|done]. simpl. intros [(Ha & Hc & Hd) Hk].
  assert (forall p, directory_at d p -> directory_at (<[q := set_mode mode n]> d) p) as Hdir.
  { intros p [m Hm]. destruct (decide (q = p)) as [->|Hne]; [|exists m; by rewrite lookup_insert_ne].
    rewrite E in Hm. injection Hm as ->. exists mode. by rewrite lookup_insert_eq. }
  assert (mounted (l_rootMount layout) (<[q := set_mode mode n]> d)) as Hm.
  { split_and!; [done|done|]. intros l1 l2 Hl H1. by apply Hdir, (Hd l1 l2). }
  split; [done|]. intros p Hp. destruct (Hk p Hp) as (_ & Hcl & data & m & Hw). split_and!; [done|intros l1 l2 Hl H1 H2; by apply Hdir, (Hcl l1 l2)|].
  destruct (decide (q = p)) as [->|Hne]; [|exists data, m; by rewrite lookup_insert_ne].
  rewrite E in Hw. injection Hw as ->. exists data, mode. by rewrite lookup_insert_eq.
Qed.

Lemma file_chmod_stays K f mode : stays K (file_chmod f mode).
Proof.
  intros s Hs. unfold file_chmod, sys, torn_call. destruct (w_fault (trace s)); simpl; (split; [by try apply chmod_kept|]);
    exists [Sys FileChmod]; by split; [|repeat constructor].
Qed.

Lemma exec_stays K pr : flags_only K -> stays K (exec pr).
Proof.
  intros HK. apply exec_keeps. intros t d [Hm Hk]. destruct (Hexec t pr d) as [H1 H2]. split; [by apply H1|].
  intros p Hp. destruct (HK p Hp) as (s & path & Hf & ->). by apply (H2 s), Hk.
Qed.

(** Reading, asking and waiting change nothing. *)
Ltac stays_leaf := first [apply query_keeps|apply now_keeps|apply ctx_keeps|apply inspect_each_keeps|apply RegularFileExists_keeps|apply ReadDir_keeps
  |apply file_chmod_stays|by apply exec_stays|assumption|lazymatch goal with IH : context [steps (keeps (kept _) _) _] |- _ => apply IH end].

Lemma look_each_stays K root wd executable l : forall pe, stays K (look_each root wd executable pe l).
Proof. induction l as [|c l IH]; intros pe; cbn [look_each]; walk stays_leaf. Qed.

Lemma Step_Run_stays K config s : flags_only K -> stays K (Step_Run config s).
Proof. intros HK. walk ltac:(first [apply look_each_stays|stays_leaf]). Qed.

(* ------------------------------------------------------------------ *)
(** *** Logs *)

Lemma LogDir_parts : IsAbs (LogDir layout) = true /\ clean_parts (LogDir layout) = clean_parts (l_rootMount layout) ++ clean_parts (l_logRoot layout).
Proof.
  destruct Hlog as [Hl _]. destruct (Join_abs (l_rootMount layout) [l_logRoot layout] Hroot) as [H1 H2]; [by repeat constructor|].
  split; [done|]. unfold LogDir. rewrite H2. simpl. by rewrite app_nil_r.
Qed.

Lemma packageLogDir_ok stepPath base : packageLogDir layout cfg stepPath = Ok base ->
  IsAbs base = true /\ Clean base = base /\ exists dl c, clean_parts base = clean_parts (l_rootMount layout) ++ dl ++ [c].
Proof.
  unfold packageLogDir. rewrite rbind_unit_ok. intros [_ H]. destruct (IsLocal stepPath) eqn:El; cbn [negb] in H; [|done]. injection H as <-.
  destruct LogDir_parts as [Ha Hc], (store_fields _ _ _ Hroot Hclean Hstate Hst) as (_ & Hn & Hv).
  destruct (plain_local _ Hn) as [Hn1 Hn2], (plain_local _ Hv) as [Hv1 Hv2].
  destruct (Join_abs (LogDir layout) [pc_PackageName cfg; pc_PackageVersion cfg; stepPath] Ha) as [H1 H2]; [by repeat constructor|].
  split_and!; [done|by apply Join_clean|]. rewrite H2, Hc. cbn [map concat]. rewrite Hn2, Hv2, app_nil_r.
  destruct (exists_last (l := clean_parts (l_logRoot layout) ++ [pc_PackageName cfg] ++ [pc_PackageVersion cfg] ++ clean_parts stepPath)) as (dl & c & E);
    [by destruct (clean_parts (l_logRoot layout))|]. exists dl, c. by rewrite <- E, <- !app_assoc.
Qed.

Lemma below_append base t : IsAbs base = true -> Clean base = base -> (exists dl c, clean_parts base = clean_parts (l_rootMount layout) ++ dl ++ [c]) ->
  contains_char slash t = false -> (2 < String.length t)%nat -> below_mount (base +:+ t).
Proof.
  intros Ha Hc (dl & c & Hp) Ht Hl. exists dl, (c +:+ t). rewrite app_assoc in Hp. rewrite (clean_path _ _ Ha Hc Hp), absolute_last.
  pose proof (clean_parts_abs _ Ha) as Hf. rewrite Hp in Hf. apply Forall_app in Hf as [Hf1 Hf2]. apply Forall_cons in Hf2 as [(_ & _ & _ & Hslash) _].
  assert (2 < String.length (c +:+ t))%nat as Hlen by (rewrite length_append; lia).
  destruct (absolute_parts ((clean_parts (l_rootMount layout) ++ dl) ++ [c +:+ t])) as [_ ->]; [|by rewrite <- app_assoc].
  apply Forall_app. split; [done|]. apply Forall_singleton. split_and!; try (intros E; rewrite E in Hlen; simpl in Hlen; lia).
  by rewrite contains_char_app, Hslash, Ht.
Qed.

Lemma LogFilePath_ok stepPath at_ base : LogFilePath layout cfg stepPath at_ = Ok base -> forall collision, below_mount (collision_path base collision).
Proof.
  unfold LogFilePath. rewrite rbind_ok. intros (dir & Hdir & H). apply rwrap_ok, packageLogDir_ok in Hdir as (Ha & Hc & Hb).
  destruct (Time_IsZero at_); [done|]. injection H as <-. intros collision. unfold collision_path. destruct (0 <? collision) eqn:E.
  - assert (forall a b c, trim_suffix (a +:+ b +:+ c +:+ ".log") ".log" = a +:+ b +:+ c) as ->.
    { intros a b c. rewrite <- !append_assoc, trim_suffix_app. done. }
    rewrite <- !append_assoc, (append_assoc dir). rewrite !append_assoc. apply below_append; [done..| |].
    + rewrite !contains_char_app, time_word, show_int_free by (try done; lia). done.
    + rewrite !length_append. simpl. lia.
  - apply below_append; [done..| |].
    + by rewrite !contains_char_app, time_word.
    + rewrite !length_append. simpl. lia.
Qed.

Lemma create_log_each_stays K base mode fuel : flags_only K -> (forall collision, below_mount (collision_path base collision)) ->
  forall collision, stays K (create_log_each fuel (l_rootMount layout) base mode collision).
Proof.
  intros HK Hb. induction fuel as [|fuel IH]; intros collision; cbn [create_log_each]; [walk fail|].
  apply steps_bind; [exact _|apply steps_attempt; [exact _|by apply CreateFileWriter_stays]|]. intros created. walk stays_leaf.
Qed.

Lemma CreateLogFile_stays K stepPath at_ mode : flags_only K -> stays K (CreateLogFile layout cfg stepPath at_ mode).
Proof.
  intros HK. apply steps_knowing; [exact _|walk fail|]. intros base (s & s' & E). apply wrap_ok in E. injection E as _ E.
  walk ltac:(first [apply create_log_each_stays; [done|by apply (LogFilePath_ok _ _ _ E)]|stays_leaf]).
Qed.

Definition log_named (files : LogFiles) (c : logCandidate) : Prop := exists name, has_suffix name (lf_suffix files) = true /\ lc_path c = Join [lf_directory files; name].

Lemma log_candidates_named files names s s' cs : log_candidates files names s = (s', Ok cs) -> Forall (log_named files) cs.
Proof.
  intros H. eapply (loop_inv (Forall (log_named files))) in H; [done| |constructor]. clear. intros acc name s s' acc' Ha E; revert E.
  unfold log_candidate. destruct (has_suffix name (lf_suffix files)) eqn:Es; cbn [negb]; [|rewrite orb_true_r; by intros [= _ <-]].
  destruct (negb _ || _); [by intros [= _ <-]|]. destruct (parseLogTimestamp _) as [[parsed index]|]; [|by intros [= _ <-]].
  intros (s1 & info & _ & E)%bind_ok. injection E as _ <-. destruct (IsRegular info); [|done]. apply Forall_app. split; [done|].
  apply Forall_singleton. by exists name.
Qed.

Lemma CleanupOldLogs_stays K files keep : flags_only K -> lf_rootMount files = l_rootMount layout -> IsAbs (lf_directory files) = true -> lf_suffix files = ".log" ->
  stays K (CleanupOldLogs files keep).
Proof.
  intros HK Hr Hd Hs. unfold CleanupOldLogs. rewrite Hr. apply steps_bind; [exact _|walk stays_leaf|]. intros [entries|e|]; [|walk fail..].
  apply steps_knowing; [exact _|walk stays_leaf|]. intros cs (s & s' & Hcs%log_candidates_named). apply steps_loop; [exact _|]. intros _ c Hc.
  apply steps_wrap; [exact _|]. apply RemoveFile_stays; [done|]. intros (st' & path & Hf & E)%HK.
  assert (c ∈ cs) as Hin.
  { unfold old_logs in Hc. apply list_elem_of_In in Hc. rewrite <- (merge_sort_Permutation not_older cs). apply list_elem_of_In.
    rewrite <- (take_drop keep (merge_sort not_older cs)). apply in_or_app. by right. }
  rewrite List.Forall_forall in Hcs. apply list_elem_of_In, Hcs in Hin as (name & Hn & Hp). rewrite Hs in Hn.
  apply has_suffix_spec in Hn as [u ->]. rewrite Hp, Join_two, clean_parts_Clean in E by first [by apply IsAbs_nonempty|by apply IsAbs_app].
  destruct (last_word (lf_directory files +:+ "/" +:+ u +:+ ".log") (lf_directory files +:+ "/" +:+ u) ".log") as [y Hy];
    [by apply IsAbs_app|by rewrite !append_assoc|done|simpl; lia|].
  rewrite E in Hy. by eapply (flag_last _ _ _ Hroot Hclean Hstate Hst _ _ y ".log") in Hy.
Qed.

(** The logs of an operation, as they are prepared. *)
Definition own_log (log : operationLog) : Prop := forall files, ol_files log = Some files ->
  lf_rootMount files = l_rootMount layout /\ IsAbs (lf_directory files) = true /\ lf_suffix files = ".log".

Lemma finalize_stays K log : flags_only K -> own_log log -> stays K (finalize log).
Proof.
  intros HK Ho. unfold finalize. apply steps_bind; [exact _|walk stays_leaf|]. intros closed. apply steps_bind; [exact _| |intros cleaned; walk fail].
  destruct (ol_files log) as [files|] eqn:E; [|walk fail]. destruct (Ho _ E) as (? & ? & ?).
  apply steps_try; [exact _|]. apply steps_wrap; [exact _|]. by apply CleanupOldLogs_stays.
Qed.

Lemma prepareOperationLog_stays K rt stepPath operation : flags_only K -> stays K (prepareOperationLog rt layout cfg stepPath operation).
Proof. intros HK. walk ltac:(first [by apply CreateLogFile_stays|stays_leaf]). Qed.

Lemma prepareOperationLog_own rt stepPath operation s s' log : prepareOperationLog rt layout cfg stepPath operation s = (s', Ok log) -> own_log log.
Proof.
  unfold prepareOperationLog. destruct (rt_writeLogs rt); cbn [negb]; [|by intros [= _ <-]].
  intros (s1 & now & _ & H)%bind_ok. apply bind_ok in H as (s2 & [path file] & _ & H).
  destruct (LogFilePattern layout cfg stepPath) as [files|e|] eqn:E; [|by apply bind_ok in H as (? & ? & _ & H); unfold when_err in H; case_match|done].
  injection H as _ <-. intros files' [= <-]. revert E. unfold LogFilePattern. rewrite rbind_ok. intros (base & Hb & [= <-]). simpl.
  apply rwrap_ok, packageLogDir_ok in Hb as (Ha & _ & _). split_and!; [done|by apply IsAbs_Dir|done].
Qed.


(* ------------------------------------------------------------------ *)
(** *** Runs *)

Lemma execution_config_stays K req log what : flags_only K -> own_log log -> stays K (execution_config req log what).
Proof.
  intros HK Ho. unfold execution_config. destruct (Run.NewConfig _) as [config|e|]; [walk fail| |walk fail].
  apply steps_bind; [exact _|apply steps_try; [exact _|by apply finalize_stays]|]. intros finalized. walk fail.
Qed.

Lemma agent_runStep_ends K K' req rt v mark : flags_only K -> flags_only K' -> ends (kept K) mark (fun _ => kept K') ->
  ends (kept K) (agent_runStep req rt layout cfg v (Some mark)) (fun status d => status = StatusSuccess -> kept K' d).
Proof.
  intros HK HK' Hmark. unfold agent_runStep. cbv zeta.
  eapply (ends_bind _ _ _ (fun log d => kept K d /\ own_log log)).
  { intros z z' log Hz E. split; [|by eapply prepareOperationLog_own]. refine (ends_keeps _ _ _ z z' log Hz E). by apply prepareOperationLog_stays. }
  intros log. apply ends_known. intros Ho. eapply ends_bind; [by apply ends_keeps, execution_config_stays|]. intros config.
  eapply ends_bind; [apply ends_keeps, steps_attempt; [exact _|by apply Step_Run_stays]|]. intros ran.
  assert (ran = Ok StatusSuccess \/ ran <> Ok StatusSuccess) as [->|Hran] by (destruct ran as [[]|e|]; auto).
  - eapply ends_bind; [by apply ends_try|]. intros [e|].
    { eapply ends_bind; [apply ends_any|]. intros finalized. by apply ends_when_err. }
    eapply (ends_bind _ _ _ (fun _ => kept K')).
    + eapply ends_conseq; [apply ends_keeps, steps_try; [exact _|by apply finalize_stays]| |done]. intros d Hd. by destruct Hd as [_ ?].
    + intros finalized. apply ends_when_err. intros _. by apply ends_lift.
  - eapply ends_bind; [apply ends_any|]. intros markErr. eapply ends_bind; [apply ends_any|]. intros finalized. apply ends_when_err. intros _.
    apply ends_lift. intros status d E _ ->. by destruct Hran.
Qed.

Lemma kept_flagged K s d : kept (with_flags K s) d -> (exists path, flag_of st s path) -> exists path, flag_of st s path /\ kept (fun p => K p \/ p = clean_parts path) d.
Proof.
  intros Hd [path Hf]. exists path. split; [done|]. eapply kept_weaken; [|exact Hd]. intros p [?| ->]; [by left|]. right. by exists path.
Qed.

Lemma one_step_ends K req rt versions results s : flags_only K -> is_check (rq_stage req) = false ->
  ends (kept K) (one_step req rt layout cfg st versions results s)
    (fun p d => p <> StageFailed -> exists path, flag_of st s path /\ kept (fun p => K p \/ p = clean_parts path) d).
Proof.
  intros HK Hc. unfold one_step. fold (is_check (rq_stage req)) (prepared (rq_stage req) versions s). rewrite Hc.
  eapply ends_bind; [apply ends_keeps, ctx_keeps|]. intros [e|]; [apply ends_raise|]. cbn [when_err].
  eapply (ends_bind _ _ _ (fun run d => kept K d /\ (exists path, Store_Path st s = Ok path) /\ (run = false -> flagged d st s))).
  { apply ends_each. intros d0 Hd0. intros z z' run Hz (z1 & decision & E & H)%bind_ok. injection H as <- <-. apply wrap_ok in E.
    pose proof (ends_hoare _ _ _ _ (Check_spec _ _ _ Hroot Hclean Hstate Hst s (rt_alwaysRunStep rt) (rq_stage req) d0) z z1 decision Hz E) as (-> & b & -> & Hb).
    split_and!; [done| |].
    - unfold Check in E. do 2 apply bind_ok in E as (? & ? & _ & E). apply bind_ok in E as (? & path & E & _). apply wrap_ok in E. injection E as _ E. by exists path.
    - intros Hr. apply Hb. destruct b; [done|]. by unfold Decide in Hr. }
  intros run. apply ends_each. intros d (Hk & [path Hpath] & Hrun). destruct run; cbn [negb].
  - eapply ends_conseq; [|intros d' ->; exact Hk|]. 2: intros p d' H; exact H.
    eapply ends_bind; [apply ends_keeps; unfold writeStepHeader; walk stays_leaf|]. intros ?. cbv zeta.
    eapply ends_bind; [apply (agent_runStep_ends K (with_flags K s)); [done|by apply with_flags_only|by apply mark_complete_ends]|]. intros status.
    case_bool_decide as Hs; cbn [negb]; apply ends_ret; intros d' Hd'; [|done]. intros _. apply kept_flagged; [by apply Hd'|]. exists path. by left.
  - apply ends_ret. intros d' -> _. destruct (flagged_there _ _ _ Hroot Hclean Hstate Hst d s (proj1 Hk) (Hrun eq_refl)) as (path' & Hf & Ht).
    exists path'. split; [done|]. split; [apply Hk|]. intros p [Hp| ->]; [by apply Hk|done].
Qed.

Lemma each_step_ends req rt versions todo : is_check (rq_stage req) = false -> forall K results, flags_only K ->
  ends (kept K) (each_step req rt layout cfg st versions results todo)
    (fun p d => p <> StageFailed -> mounted (l_rootMount layout) d /\ (forall p, K p -> there layout d p) /\ Forall (flagged d st) todo).
Proof.
  intros Hc. induction todo as [|s todo IH]; intros K results HK; cbn [each_step].
  { apply ends_ret. intros d [? ?] _. by split_and!. }
  eapply ends_bind; [by apply one_step_ends|]. intros [results'|]; [|by apply ends_ret].
  apply ends_each. intros d Hd. destruct Hd as (path & Hf & Hk); [done|].
  eapply ends_conseq; [apply (IH (fun p => K p \/ p = clean_parts path))|by intros d' ->|].
  - intros p [?| ->]; [by apply HK|by exists s, path].
  - intros p d' H Hp. destruct (H Hp) as (Hm & Hk' & Hall). split_and!; [done|intros q Hq; apply Hk'; by left|]. constructor; [|done].
    eapply (there_flagged _ _ _ Hroot Hclean Hstate Hst); [exact Hf|]. apply Hk'. by right.
Qed.

(** A run that says that the stage succeeded has left a flag of every step. *)
Lemma runSteps_ends req rt history : may_skip rt (rq_stage req) ->
  ends (mounted (l_rootMount layout)) (runSteps req rt layout cfg st history)
    (fun status d => status = StatusSuccess -> mounted (l_rootMount layout) d /\ Forall (flagged d st) (steps_of (pc_Modes cfg) (rq_stage req))).
Proof.
  intros Hm. destruct (may_skip_plain _ _ Hm) as (Hu & Hh & Huc). unfold runSteps. fold (is_check (rq_stage req)). rewrite Hu, (proj1 Hm). cbn [andb].
  set (K := fun _ : list string => False).
  eapply (ends_bind _ _ _ (fun _ => kept K)).
  { apply ends_each. intros d0 Hd0. apply ends_wrap. eapply ends_conseq; [eapply ends_hoare, (Store_Write_there _ _ _ Hroot Hclean Hstate Hst _ _ _ _ d0
      (start_parts _ _ _ Hroot Hclean Hstate Hst))|done|]; [intros text; by apply no_dot_not_temp|done|]. intros _ d (Hd & _). by split. }
  intros _. do 2 (eapply (ends_bind _ _ _ (fun _ => kept K)); [by apply ends_ret|intros ?]).
  eapply ends_bind; [apply each_step_ends; [exact (proj1 Hm)|by intros p []]|]. intros [results|]; [|by apply ends_ret].
  eapply (ends_bind _ _ _ (fun status d => status = StatusSuccess /\ mounted (l_rootMount layout) d /\ Forall (flagged d st) (steps_of (pc_Modes cfg) (rq_stage req)))).
  { apply ends_ret. intros d Hd. split; [done|]. destruct Hd as (? & _ & ?); [done|by split]. }
  intros status. apply ends_each. intros d (-> & Hd). rewrite Hh, (bool_decide_eq_false_2 (rq_stage req = Stage.UninstallCheck)) by done.
  rewrite (bool_decide_eq_false_2 (StatusSuccess = StatusFailed)) by done.
  do 2 (eapply (ends_bind _ _ _ (fun _ d' => d' = d)); [by apply ends_ret|intros ?]). apply ends_ret. by intros d' ->.
Qed.

(** C3: Once the agent has said that a stage succeeded, running it again does
    nothing: whatever happens between the operations, the second run starts no
    command and does not say that the stage failed.  The stage is none that runs
    its steps always, and the commands leave the flags alone. *)
Theorem second_run_is_idle req rt history z z' : may_skip rt (rq_stage req) -> mounted (l_rootMount layout) (mem z) ->
  Forall (fun s => Idempotence s <> Disabled) (steps_of (pc_Modes cfg) (rq_stage req)) ->
  let '(z1, r1) := runSteps req rt layout cfg st history z in
  r1 = Ok StatusSuccess -> mem z' = mem z1 ->
  let '(z2, r2) := runSteps req rt layout cfg st history z' in runs [] z' z2 /\ r2 <> Ok StatusFailed /\ r2 <> Panic.
Proof.
  intros Hm Hmount Hi. destruct (runSteps req rt layout cfg st history z) as [z1 r1] eqn:E. intros -> Hz.
  destruct (runSteps_ends req rt history Hm z z1 StatusSuccess Hmount E eq_refl) as [Hm1 Hf]. rewrite <- Hz in *.
  apply (flagged_stage_idle _ _ _ Hroot Hclean Hstate Hst); [done|done|].
  apply List.Forall_forall. intros s Hs. rewrite List.Forall_forall in Hf, Hi. split; [by apply Hf|by apply Hi].
Qed.

End Lasting.

(* ------------------------------------------------------------------ *)
(** ** Samples *)

Definition letters : Unicode := {| unicode_printable _ := true |}.

Lemma decimal_valid s : forall acc n, decimal acc s = Some n -> valid_utf8 s = true.
Proof.
  induction s as [|a s IH]; intros acc n; [done|]. cbn [decimal]. unfold digit_value. case_bool_decide as Ha; [|done]. intros H.
  unfold valid_utf8. cbn [decoded]. rewrite bool_decide_eq_true_2 by lia. exact (IH _ _ H).
Qed.

Definition nanoseconds (t : Z) : string := fixed 21 (t + 62167219200000000000).

Lemma nanoseconds_read t : common_era t -> decimal 0 (nanoseconds t) = Some (t + 62167219200000000000).
Proof.
  intros Ht. apply decimal_fixed. change (10 ^ Z.of_nat 21) with 1000000000000000000000. unfold common_era in Ht. lia.
Qed.

#[local] Instance common_era_dec t : Decision (common_era t).
Proof. unfold common_era. apply _. Defined.

Definition read_nanoseconds (s : string) : res Z :=
  match decimal 0 s with Some n => Ok (n - 62167219200000000000) | None => Err ErrSyntax end.

(** A clock that is written as a number. *)
Program Definition sample_time_json : TimeJSON := {|
  time_marshal t := if bool_decide (common_era t) then Ok (nanoseconds t) else Err ErrRange;
  time_unmarshal := read_nanoseconds
|}.
Next Obligation.
  intros t s. cbv beta. case_bool_decide as Ht; [|done]. intros [= <-]. unfold read_nanoseconds. rewrite (nanoseconds_read _ Ht). split; [f_equal; lia|].
  by eapply decimal_valid, nanoseconds_read.
Qed.
Next Obligation. intros t Ht. cbv beta. by rewrite bool_decide_eq_true_2. Qed.

Definition sample_step (env : string) : Step := NewRegularStep "a.sh" [WithEnv {[ "A" := env ]}].

Definition sample_config : PackageConfig := {|
  pc_SchemaVersion := "v1"; pc_RootDir := "/"; pc_ExpectedConfigFiles := []; pc_PackageName := "p"; pc_PackageVersion := "1.0.0";
  pc_Modes := {[ Stage.Apply := [sample_step "1"] ]} |}.

Definition sample_store : fileStore := {| fs_rootMount := "/root"; fs_dir := "etc/skyhook/flags"; fs_packageName := "p"; fs_packageVersion := "1.0.0" |}.

Definition sample_history : historyStore := {|
  hs_rootMount := "/root"; hs_path := "/root/etc/skyhook/history/p.json"; hs_packageName := "p"; hs_version := "1.0.0" |}.

Definition sample_host : pass event disk := {| trace := []; mem :=
  <[["root"; "package"] := Directory 493]> (<[["root"; "package"; "skyhook_dir"] := Directory 493]>
  (<[["root"; "package"; "skyhook_dir"; "a.sh"] := File "" 493]> sample_disk)) |}.

Lemma sample_facts : layout_root (l_stateRoot sample_layout) /\ layout_root (l_logRoot sample_layout) /\
  newFileStore sample_layout sample_config = Ok sample_store /\ mounted "/root" (mem sample_host).
Proof.
  split_and!; [by split|by split|reflexivity|]. split_and!; [done|done|]. intros l1 l2 E H. change (clean_parts "/root") with ["root"] in E.
  destruct l1 as [|x [|y l1]]; [done| |done]. injection E as <- <-. eexists. vm_compute. reflexivity.
Qed.

#[local] Existing Instances sample_JSON letters sample_time sample_time_json quiet_world.

Lemma quiet_respects : respects_flags sample_layout sample_store.
Proof. intros t pr d. by split. Qed.

Lemma sample_stage : may_skip sample_runtime Stage.Apply /\
  Forall (fun s => Idempotence s <> Disabled) (steps_of (pc_Modes sample_config) Stage.Apply).
Proof.
  split; [split_and!; [reflexivity|done|]; intros H; repeat (apply elem_of_cons in H as [H|H]; [discriminate|]); by apply elem_of_nil in H|].
  change (steps_of _ _) with [sample_step "1"]. by apply Forall_singleton.
Qed.

Lemma second_run_is_idle_witness :
  let run := runSteps (sample_request Stage.Apply) sample_runtime sample_layout sample_config sample_store sample_history in
  length (commands (trace (run sample_host).1)) = 1%nat /\ runs [] (run sample_host).1 (run (run sample_host).1).1.
Proof.
  intros run. split; [by vm_compute|]. destruct sample_facts as (H1 & H2 & H3 & H4), sample_stage as [H5 H6].
  assert ((run sample_host).2 = Ok StatusSuccess) as Hr by by vm_compute.
  pose proof (second_run_is_idle sample_layout sample_config sample_store eq_refl eq_refl H1 H3 H2 quiet_respects (sample_request Stage.Apply) sample_runtime
    sample_history sample_host (run sample_host).1 H5 H4 H6) as H. fold run in H.
  destruct (run sample_host) as [z1 r1]. cbn [fst snd] in *. specialize (H Hr eq_refl). destruct (run z1) as [z2 r2]. exact (proj1 H).
Defined.

Lemma changed_environment_is_skipped_witness :
  let marked := Mark sample_store (sample_step "1") "done" sample_host in
  Fingerprint (sample_step "1") <> Fingerprint (sample_step "2") /\
  (Check sample_store (sample_step "2") false Stage.Apply marked.1).2 = Ok (Decide true false Stage.Apply Auto).
Proof.
  intros marked. split; [by vm_compute|]. destruct sample_facts as (H1 & H2 & H3 & H4).
  assert (is_ok marked.2 = true) as Hm by by vm_compute.
  assert (is_ok (Check sample_store (sample_step "2") false Stage.Apply (Mark sample_store (sample_step "1") "done" sample_host).1).2 = true) as Hc by by vm_compute.
  subst marked. revert Hm Hc. destruct (Mark sample_store (sample_step "1") "done" sample_host) as [z1 [path|e|]] eqn:Em; [|intros Hm; exact (False_ind _ (Bool.diff_false_true Hm))..].
  cbn [fst]. intros _ Hc.
  destruct (Check sample_store (sample_step "2") false Stage.Apply z1) as [z2 [decision|e|]] eqn:Ec; [|done..]. cbn [snd]. f_equal.
  exact (changed_environment_is_skipped sample_layout sample_config sample_store eq_refl eq_refl H1 H3 (sample_step "1") (sample_step "2") "done" false Stage.Apply
    sample_host z1 z2 path decision H4 eq_refl eq_refl eq_refl Em Ec).
Defined.
