(* ===== verification/Graph.v ===== *)
(** * The dependency graph of packages

    Models [operator/internal/graph/dependency_graph.go].  A [*vertex] is
    identified by its name: at most one vertex object exists per name, because a
    placeholder created for a dependency that is not yet added is the object
    [Add] later moves into [vertices].  The [edges] slice of pointers is
    therefore a list of names.  [object] is [None] while it holds the zero value
    (a placeholder). *)

From S2P Require Import Prelude.

Record vertex (T : Type) := Vertex {
  edges : list string;
  parents : list string;
  name : string;
  object : option T
}.
Arguments Vertex {T} edges parents name object.
Arguments edges {T} _. Arguments parents {T} _. Arguments name {T} _. Arguments object {T} _.

Record dag (T : Type) := Dag {
  vertices : gmap string (vertex T);
  placeholders : gmap string (vertex T)
}.
Arguments Dag {T} vertices placeholders.
Arguments vertices {T} _. Arguments placeholders {T} _.

Section Graph.
Context {T : Type} `{MR : MapRange}.
Implicit Types (d : dag T) (v : vertex T) (n p : string).

Definition New : dag T := Dag ∅ ∅.

(** [v.edges = append(v.edges, child)] *)
Definition append_edge (child : string) v : vertex T :=
  Vertex (edges v ++ [child]) (parents v) (name v) (object v).

(** The body of the loop over [dependencies] in [Add]. *)
Definition link (child : string) d (dependency : string) : dag T :=
  match vertices d !! dependency with
  | Some dep => Dag (<[dependency := append_edge child dep]> (vertices d)) (placeholders d)
  | None =>
      let place :=
        match placeholders d !! dependency with
        | Some place => place
        | None => Vertex [] [] dependency None
        end in
      Dag (vertices d) (<[dependency := append_edge child place]> (placeholders d))
  end.

Definition Add d n (obj : T) (dependencies : list string) : res (dag T) :=
  match vertices d !! n with
  | Some _ => Err (errorf "error [%s] vertex already exists" [n])
  | None =>
      let vert :=
        match placeholders d !! n with
        | None => Vertex [] dependencies n (Some obj)
        | Some place => Vertex (edges place) dependencies (name place) (Some obj)
        end in
      let d1 := Dag (<[n := vert]> (vertices d)) (delete n (placeholders d)) in
      Ok (foldl (link n) d1 dependencies)
  end.

Definition Valid d : res unit :=
  match range (placeholders d) with
  | [] => Ok tt
  | miss => Err (errorf "error graph is not valid, missing: %v" miss.*1)
  end.

(** A vertex is offered when it is not done and all its parents are. *)
Definition ready (done : list string) v : bool :=
  negb (bool_decide (name v ∈ done)) && all (fun parent => bool_decide (parent ∈ done)) (parents v).

Definition Next d (from : list string) : res (list string) :=
  rbind (Valid d) (fun _ =>
    Ok (sort_strings (map name (List.filter (ready from) (map snd (range (vertices d))))))).

(** [d.vertices[f].object]: an unknown name dereferences a nil vertex. *)
Fixpoint Get d (from : list string) : res (list (option T)) :=
  match from with
  | [] => Ok []
  | f :: from =>
      rbind (deref (vertices d !! f)) (fun v =>
      rbind (Get d from) (fun rest => Ok (object v :: rest)))
  end.

Definition IsRoot v : bool := match edges v with [] => true | _ => false end.

(** The loop of [PrintGraph]: the layers it prints.  [None] is out of fuel. *)
Fixpoint walk (fuel : nat) d (completed : list string) : option (list (list string)) :=
  match fuel with
  | O => None
  | S fuel =>
      let step := match Next d completed with Ok step => step | _ => [] end in
      match step with
      | [] => Some []
      | _ => match walk fuel d (completed ++ step) with
             | Some ret => Some (step :: ret)
             | None => None
             end
      end
  end.

(* ---------------------------------------------------------------- *)
(** ** Well-formed graphs *)

Definition known d n : Prop := is_Some (vertices d !! n) \/ is_Some (placeholders d !! n).

Record wf d : Prop := {
  wf_vname n v : vertices d !! n = Some v -> name v = n;
  wf_pname n v : placeholders d !! n = Some v -> name v = n;
  wf_disj n : is_Some (vertices d !! n) -> placeholders d !! n = None;
  wf_parent n v p : vertices d !! n = Some v -> p ∈ parents v -> known d p;
  wf_needed p : is_Some (placeholders d !! p) ->
    exists n v, vertices d !! n = Some v /\ p ∈ parents v
}.

Lemma wf_New : wf New.
Proof. split; unfold New; simpl; intros; simplify_map_eq; destruct_and?; naive_solver. Qed.

Lemma Valid_ok d : Valid d = Ok tt <-> placeholders d = ∅.
Proof.
  unfold Valid. pose proof (length_range (placeholders d)) as Hl.
  destruct (range (placeholders d)) as [|x l]; simpl in Hl.
  - split; [|done]. intros _. by apply map_size_empty_inv.
  - split; [done|]. intros E. rewrite E, map_size_empty in Hl. done.
Qed.

Lemma Valid_wf d : wf d ->
  (Valid d = Ok tt <-> forall n v p, vertices d !! n = Some v -> p ∈ parents v -> is_Some (vertices d !! p)).
Proof.
  intros Hwf. rewrite Valid_ok. split.
  - intros He n v p Hn Hp. destruct (wf_parent _ Hwf _ _ _ Hn Hp) as [?|[x Hx]]; [done|].
    rewrite He in Hx. simplify_map_eq.
  - intros H. apply map_eq. intros p. rewrite lookup_empty.
    destruct (placeholders d !! p) as [v|] eqn:Hp; [|done].
    destruct (wf_needed _ Hwf p) as (n & w & Hn & Hw); [eauto|].
    rewrite (wf_disj _ Hwf p) in Hp; [done|eauto].
Qed.

(** What [link] preserves: names, parents, objects, disjointness. *)
Definition same_vertex (v w : vertex T) : Prop :=
  parents v = parents w /\ name v = name w /\ object v = object w.

Lemma link_vertices child d dep n :
  match vertices (link child d dep) !! n, vertices d !! n with
  | Some v', Some v => same_vertex v' v
  | None, None => True
  | _, _ => False
  end.
Proof.
  unfold link. destruct (vertices d !! dep) as [w|] eqn:E; simpl.
  - destruct (decide (dep = n)) as [->|Hne].
    + rewrite lookup_insert_eq, E. done.
    + rewrite lookup_insert_ne by done. by destruct (vertices d !! n).
  - by destruct (vertices d !! n).
Qed.

Lemma links_vertices child deps d n :
  match vertices (foldl (link child) d deps) !! n, vertices d !! n with
  | Some v', Some v => same_vertex v' v
  | None, None => True
  | _, _ => False
  end.
Proof.
  revert d; induction deps as [|dep deps IH]; intros d; simpl.
  - by destruct (vertices d !! n).
  - specialize (IH (link child d dep)). pose proof (link_vertices child d dep n) as H.
    unfold same_vertex in *. repeat case_match; naive_solver congruence.
Qed.

Lemma links_vertices_Some child deps d n v :
  vertices (foldl (link child) d deps) !! n = Some v ->
  exists w, vertices d !! n = Some w /\ same_vertex v w.
Proof.
  intros H. pose proof (links_vertices child deps d n) as H'. rewrite H in H'.
  destruct (vertices d !! n); naive_solver.
Qed.

Lemma links_vertices_is_Some child deps d n :
  is_Some (vertices (foldl (link child) d deps) !! n) <-> is_Some (vertices d !! n).
Proof.
  pose proof (links_vertices child deps d n) as H'. unfold is_Some.
  repeat case_match; naive_solver.
Qed.

Lemma link_placeholders child d dep n :
  is_Some (placeholders (link child d dep) !! n) <->
    is_Some (placeholders d !! n) \/ (n = dep /\ vertices d !! dep = None).
Proof.
  unfold link. destruct (vertices d !! dep) as [w|] eqn:E; simpl; [naive_solver|].
  destruct (decide (dep = n)) as [->|Hne].
  - rewrite lookup_insert_eq. naive_solver.
  - rewrite lookup_insert_ne by done. naive_solver.
Qed.

Lemma links_placeholders child deps d n :
  is_Some (placeholders (foldl (link child) d deps) !! n) <->
    is_Some (placeholders d !! n) \/ (n ∈ deps /\ vertices d !! n = None).
Proof.
  revert d; induction deps as [|dep deps IH]; intros d; simpl.
  - rewrite elem_of_nil. naive_solver.
  - rewrite IH, link_placeholders, elem_of_cons, !eq_None_not_Some.
    pose proof (links_vertices_is_Some child [dep] d n) as E. simpl in E. rewrite E.
    naive_solver.
Qed.

Lemma links_pname child deps d :
  (forall n v, placeholders d !! n = Some v -> name v = n) ->
  forall n v, placeholders (foldl (link child) d deps) !! n = Some v -> name v = n.
Proof.
  revert d; induction deps as [|dep deps IH]; intros d Hd; simpl; [done|].
  apply IH. intros n v. unfold link.
  destruct (vertices d !! dep); simpl; [apply Hd|].
  intros [[<- <-]|[? ?]]%lookup_insert_Some; [|by apply Hd].
  destruct (placeholders d !! dep) eqn:E; simpl; eauto.
Qed.

Lemma Add_lookup d n obj deps d' :
  Add d n obj deps = Ok d' -> forall m,
  match vertices d' !! m with
  | Some v => if decide (m = n) then parents v = deps /\ object v = Some obj
              else exists w, vertices d !! m = Some w /\ same_vertex v w
  | None => m <> n /\ vertices d !! m = None
  end.
Proof.
  unfold Add. destruct (vertices d !! n) eqn:En; [done|]. intros [= <-] m.
  set (d1 := Dag _ _).
  pose proof (links_vertices n deps d1 m) as H.
  destruct (vertices (foldl (link n) d1 deps) !! m) as [v|].
  - destruct (vertices d1 !! m) as [w|] eqn:Ew; [|done].
    unfold d1 in Ew; simpl in Ew. case_decide as Hm.
    + subst m. rewrite lookup_insert_eq in Ew. simplify_eq.
      destruct H as (-> & _ & ->). by destruct (placeholders d !! n).
    + rewrite lookup_insert_ne in Ew by done. eauto.
  - destruct (vertices d1 !! m) as [w|] eqn:Ew; [done|].
    unfold d1 in Ew; simpl in Ew. rewrite lookup_insert_None in Ew. naive_solver.
Qed.

Lemma Add_placeholders d n obj deps d' m :
  Add d n obj deps = Ok d' ->
  is_Some (placeholders d' !! m) <->
    m <> n /\ (is_Some (placeholders d !! m) \/ (m ∈ deps /\ vertices d !! m = None)).
Proof.
  unfold Add. destruct (vertices d !! n) eqn:En; [done|]. intros [= <-].
  rewrite links_placeholders; simpl. destruct (decide (m = n)) as [->|Hne].
  - rewrite lookup_delete_eq, lookup_insert_eq. naive_solver.
  - rewrite lookup_delete_ne, lookup_insert_ne by done. naive_solver.
Qed.

Lemma wf_Add d n obj deps d' : wf d -> Add d n obj deps = Ok d' -> wf d'.
Proof.
  intros Hwf HA. pose proof (Add_lookup _ _ _ _ _ HA) as HL.
  pose proof (fun m => Add_placeholders _ _ _ _ _ m HA) as HP.
  assert (Hdom : forall m, is_Some (vertices d' !! m) <-> m = n \/ is_Some (vertices d !! m)).
  { intros m. specialize (HL m). rewrite !is_Some_alt.
    destruct (vertices d' !! m); [case_decide; [naive_solver|]|].
    - destruct HL as (w & -> & _). naive_solver.
    - destruct HL as [? ->]. naive_solver. }
  split.
  - intros m v Hm. unfold Add in HA. destruct (vertices d !! n) eqn:En; [done|].
    injection HA as <-.
    destruct (links_vertices_Some _ _ _ _ _ Hm) as (w & Hw & _ & -> & _). simpl in Hw.
    apply lookup_insert_Some in Hw as [[<- <-]|[_ Hw]]; [|by eapply wf_vname].
    destruct (placeholders d !! n) eqn:Ep; simpl; [by eapply wf_pname|done].
  - unfold Add in HA. destruct (vertices d !! n) eqn:En; [done|]. injection HA as <-.
    apply links_pname. simpl. intros m v [_ ?]%lookup_delete_Some. by eapply wf_pname.
  - intros m Hm%Hdom. apply eq_None_not_Some. rewrite HP.
    intros [Hne [Hs|[_ Hs]]]; destruct Hm as [?|[w Hw]]; try done; [|congruence].
    rewrite (wf_disj _ Hwf m) in Hs by eauto. by destruct Hs.
  - intros m v p Hm Hp. unfold known. rewrite Hdom, HP.
    destruct (decide (p = n)) as [|Hne]; [by auto|].
    specialize (HL m). rewrite Hm in HL. case_decide as Hmn.
    + destruct HL as [<- _]. destruct (vertices d !! p) eqn:E; [left; right; by eauto|]. naive_solver.
    + destruct HL as (w & Hw & Hsv & _). rewrite Hsv in Hp.
      destruct (wf_parent _ Hwf _ _ _ Hw Hp); naive_solver.
  - intros p [Hne Hp]%HP. destruct Hp as [Hp|[Hp _]].
    + destruct (wf_needed _ Hwf p Hp) as (m & w & Hw & Hpw).
      exists m. specialize (HL m). destruct (vertices d' !! m) as [v|] eqn:E.
      * exists v. split; [done|]. case_decide as Hmn.
        -- subst m. unfold Add in HA. rewrite Hw in HA. done.
        -- destruct HL as (w' & Hw' & -> & _). by simplify_eq.
      * destruct HL; congruence.
    + exists n. specialize (HL n). destruct (vertices d' !! n) as [v|] eqn:E; [|naive_solver].
      exists v. rewrite decide_True in HL by done. destruct HL as [-> _]. done.
Qed.

(* ---------------------------------------------------------------- *)
(** ** What [Next] offers *)

Definition offered d (from : list string) n : Prop :=
  n ∉ from /\ exists v, vertices d !! n = Some v /\ forall p, p ∈ parents v -> p ∈ from.

Lemma ready_spec from v :
  ready from v = true <-> name v ∉ from /\ forall p, p ∈ parents v -> p ∈ from.
Proof.
  unfold ready. rewrite andb_true_iff, negb_true_iff, bool_decide_eq_false, all_true.
  by setoid_rewrite bool_decide_eq_true.
Qed.

Lemma Next_elem d from l : wf d -> Next d from = Ok l ->
  forall n, n ∈ l <-> offered d from n.
Proof.
  intros Hwf. unfold Next. destruct (Valid d) as [[]| |]; [|done..]. simpl.
  intros [= <-] n. rewrite elem_of_sort_strings, list_elem_of_fmap.
  setoid_rewrite elem_of_filterb. setoid_rewrite ready_spec.
  setoid_rewrite list_elem_of_fmap. unfold offered. split.
  - intros (v & -> & ([k w] & -> & Hk%elem_of_range) & Hr). simpl in *.
    rewrite <- (wf_vname _ Hwf _ _ Hk) in Hk. naive_solver.
  - intros (Hn & v & Hv & Hp). exists v. pose proof (wf_vname _ Hwf _ _ Hv) as Hname.
    rewrite Hname. split_and!; [done| |done|done].
    exists (n, v). by rewrite elem_of_range.
Qed.

Lemma Next_NoDup d from l : wf d -> Next d from = Ok l -> NoDup l.
Proof.
  intros Hwf. unfold Next. destruct (Valid d) as [[]| |]; [|done..]. simpl. intros [= <-].
  rewrite sort_strings_Permutation.
  assert (Hfst : forall k w, (k, w) ∈ range (vertices d) -> name w = k).
  { intros k w Hk%elem_of_range. by eapply wf_vname. }
  pose proof (NoDup_range (vertices d)) as Hnd.
  revert Hfst Hnd. induction (range (vertices d)) as [|[k w] l IH]; simpl; [constructor|].
  intros Hfst [Hk Hnd]%NoDup_cons.
  assert (IH' : NoDup (map name (List.filter (ready from) (map snd l)))).
  { apply IH; [|done]. intros. apply Hfst. by right. }
  destruct (ready from w); [|done]. simpl. constructor; [|done].
  rewrite (Hfst k w) by by left. rewrite list_elem_of_fmap.
  intros (w' & -> & [Hw' _]%elem_of_filterb). apply list_elem_of_fmap in Hw' as ([k' w''] & -> & Hin).
  simpl in *. rewrite (Hfst k' w'') in Hk by by right.
  apply Hk, list_elem_of_fmap. by exists (k', w'').
Qed.

Lemma Next_sorted d from l : Next d from = Ok l -> StronglySorted str_le l.
Proof.
  unfold Next. destruct (Valid d); [|done..]. simpl. intros [= <-]. auto with nodewright.
Qed.

Lemma Get_present d (from : list string) : (forall n, n ∈ from -> is_Some (vertices d !! n)) ->
  Get d from = Ok (map (fun n => vertices d !! n ≫= object) from).
Proof.
  induction from as [|n from IH]; simpl; [done|]. intros H.
  destruct (H n ltac:(by left)) as [v Hv]. rewrite Hv, IH; [done|].
  intros m Hm. apply H. by right.
Qed.

(** A topological rank: the dependency relation has no cycle. *)
Definition acyclic d : Prop :=
  exists rank : string -> nat,
    forall n v p, vertices d !! n = Some v -> p ∈ parents v -> rank p < rank n.

Lemma lowest_pending d (rank : string -> nat) (from : list string) n v :
  vertices d !! n = Some v -> n ∉ from ->
  exists m w, vertices d !! m = Some w /\ m ∉ from /\
    forall k u, vertices d !! k = Some u -> k ∉ from -> rank m <= rank k.
Proof.
  intros Hn Hfrom. remember (rank n) as r eqn:Hr. revert n v Hn Hfrom Hr.
  induction (lt_wf r) as [r _ IH]. intros n v Hn Hfrom ->.
  destruct (decide (Exists (fun ku => ku.1 ∉ from /\ rank ku.1 < rank n) (map_to_list (vertices d))))
    as [Hex|Hno].
  - apply Exists_exists in Hex as ([k u] & Hk%elem_of_map_to_list & Hkf & Hlt). simpl in *. eauto.
  - exists n, v. split_and!; try done. intros k u Hk Hkf.
    destruct (le_lt_dec (rank n) (rank k)); [done|]. exfalso. apply Hno, Exists_exists.
    exists (k, u). by rewrite elem_of_map_to_list.
Qed.

Lemma offered_progress d (from : list string) n v :
  wf d -> Valid d = Ok tt -> acyclic d ->
  vertices d !! n = Some v -> n ∉ from -> exists m, offered d from m.
Proof.
  intros Hwf HV [rank Hrank] Hn Hf.
  destruct (lowest_pending d rank from n v Hn Hf) as (m & w & Hm & Hmf & Hmin).
  exists m. split; [done|]. exists w. split; [done|]. intros p Hp.
  destruct (decide (p ∈ from)) as [|Hpf]; [done|]. exfalso.
  destruct (proj1 (Valid_wf d Hwf) HV _ _ _ Hm Hp) as [u Hu].
  pose proof (Hmin p u Hu Hpf). pose proof (Hrank _ _ _ Hm Hp). lia.
Qed.

(** The vertices the walk has not offered yet. *)
Definition pending d (completed : list string) : nat :=
  length (List.filter (fun n => negb (bool_decide (n ∈ completed))) (map_to_list (vertices d)).*1).

Lemma pending_decreases d completed step m :
  is_Some (vertices d !! m) -> m ∉ completed -> m ∈ step ->
  pending d (completed ++ step) < pending d completed.
Proof.
  intros [v Hv] Hm Hs. unfold pending.
  assert (Hin : m ∈ (map_to_list (vertices d)).*1).
  { apply list_elem_of_fmap. exists (m, v). by rewrite elem_of_map_to_list. }
  induction (map_to_list (vertices d)).*1 as [|k l IH]; [by apply elem_of_nil in Hin|].
  assert (Hle : length (List.filter (fun n => negb (bool_decide (n ∈ completed ++ step))) l)
            <= length (List.filter (fun n => negb (bool_decide (n ∈ completed))) l)).
  { clear. induction l as [|k l IH]; simpl; [done|]. repeat case_bool_decide; simpl; set_solver by lia. }
  apply elem_of_cons in Hin as [<-|Hin]; simpl.
  - rewrite bool_decide_eq_true_2 by set_solver. rewrite bool_decide_eq_false_2 by done. simpl. lia.
  - specialize (IH Hin). repeat case_bool_decide; simpl; set_solver by lia.
Qed.

Lemma walk_enough_fuel d completed fuel :
  wf d -> pending d completed < fuel -> exists ret, walk fuel d completed = Some ret.
Proof.
  intros Hwf. revert completed; induction fuel as [|fuel IH]; intros completed Hf; [lia|]. simpl.
  destruct (Next d completed) as [step| |] eqn:HN; [|by eauto..].
  destruct step as [|m step]; [by eauto|].
  destruct (proj1 (Next_elem _ _ _ Hwf HN m)) as [Hm (v & Hv & _)]; [by left|].
  destruct (IH (completed ++ m :: step)) as [ret ->]; [|by eauto].
  pose proof (pending_decreases d completed (m :: step) m) as Hp. 
  specialize (Hp ltac:(eauto) Hm ltac:(by left)). lia.
Qed.

(** The layers of a walk: each holds what [Next] offers after the previous
    ones, and nothing is offered after the last. *)
Lemma walk_layers d completed fuel ret :
  walk fuel d completed = Some ret ->
  forall i layer, ret !! i = Some layer ->
    Next d (completed ++ concat (take i ret)) = Ok layer.
Proof.
  revert completed ret; induction fuel as [|fuel IH]; intros completed ret; simpl; [done|].
  destruct (Next d completed) as [step| |] eqn:HN; [|by intros [= <-] ? ?..].
  destruct step as [|m step]; [by intros [= <-] ? ?|].
  destruct (walk fuel d (completed ++ m :: step)) as [ret'|] eqn:HW; [|done].
  intros [= <-] [|i] layer; simpl.
  - intros [= <-]. by rewrite app_nil_r.
  - intros Hi. specialize (IH _ _ HW _ _ Hi). by rewrite <- app_assoc in IH.
Qed.

Lemma walk_end d completed fuel ret :
  walk fuel d completed = Some ret -> Valid d = Ok tt ->
  Next d (completed ++ concat ret) = Ok [].
Proof.
  intros HW HV. revert completed ret HW; induction fuel as [|fuel IH]; intros completed ret; simpl; [done|].
  destruct (Next d completed) as [step| |] eqn:HN; unfold Next in HN; rewrite HV in HN; simpl in HN; [|done..].
  destruct step as [|m step].
  - intros [= <-]. simpl. rewrite app_nil_r. unfold Next. by rewrite HV.
  - destruct (walk fuel d (completed ++ m :: step)) as [ret'|] eqn:HW; [|done].
    intros [= <-]. specialize (IH _ _ HW). by rewrite <- app_assoc in IH.
Qed.

(* ---------------------------------------------------------------- *)
(** ** Properties *)

(** [Next] returns, in ascending order and without duplicates, exactly the
    vertices that are not in [from] and whose parents are all in [from]. *)
Theorem Next_spec d from l : wf d -> Next d from = Ok l ->
  StronglySorted str_le l /\ NoDup l /\ forall n, n ∈ l <-> offered d from n.
Proof.
  intros Hwf HN. split_and!; eauto using Next_sorted, Next_NoDup, Next_elem.
Qed.

(** [Add] keeps the graph well formed (vertices and placeholders disjoint
    and named by their key, every parent known, every placeholder needed by a
    vertex), so [Valid] accepts the result exactly when every dependency of
    every vertex has been added; and adding a name twice is refused. *)
Theorem Add_wf d n obj deps : wf d ->
  match Add d n obj deps with
  | Ok d' => wf d' /\ vertices d !! n = None /\
      (Valid d' = Ok tt <-> forall m v p, vertices d' !! m = Some v -> p ∈ parents v -> is_Some (vertices d' !! p))
  | Err _ => is_Some (vertices d !! n)
  | Panic => False
  end.
Proof.
  intros Hwf. destruct (Add d n obj deps) as [d'|e|] eqn:HA.
  - pose proof (wf_Add _ _ _ _ _ Hwf HA) as Hwf'. split_and!; [done| |by apply Valid_wf].
    unfold Add in HA. by destruct (vertices d !! n).
  - unfold Add in HA. destruct (vertices d !! n); [by eauto|done].
  - unfold Add in HA. by destruct (vertices d !! n).
Qed.

(** C36: on a valid graph without dependency cycles the walk that feeds every
    offered vertex back as completed terminates, visits every vertex, and
    visits each one after all its parents: no package is stranded. *)
Theorem walk_visits_all d : wf d -> Valid d = Ok tt -> acyclic d ->
  exists ret, walk (S (size (vertices d))) d [] = Some ret /\
    (forall n, is_Some (vertices d !! n) -> n ∈ concat ret) /\
    (forall i layer n v p, ret !! i = Some layer -> n ∈ layer ->
       vertices d !! n = Some v -> p ∈ parents v -> p ∈ concat (take i ret)).
Proof.
  intros Hwf HV Hac.
  destruct (walk_enough_fuel d [] (S (size (vertices d))) Hwf) as [ret Hret].
  { unfold pending. pose proof (filter_length_le (fun n => negb (bool_decide (n ∈ []))) (map_to_list (vertices d)).*1).
    rewrite length_fmap, length_map_to_list in H. lia. }
  exists ret. split_and!; [done| |].
  - intros n [v Hn]. destruct (decide (n ∈ concat ret)) as [|Hno]; [done|]. exfalso.
    pose proof (walk_end _ _ _ _ Hret HV) as HE. simpl in HE.
    destruct (offered_progress d (concat ret) n v Hwf HV Hac Hn Hno) as [m Hm].
    apply (Next_elem _ _ _ Hwf HE) in Hm. by apply elem_of_nil in Hm.
  - intros i layer n v p Hi Hn Hv Hp.
    pose proof (walk_layers _ _ _ _ Hret _ _ Hi) as HN. simpl in HN.
    apply (Next_elem _ _ _ Hwf HN) in Hn as [_ (w & Hw & Hall)]. simplify_eq. auto.
Qed.

(** [Valid] does not look for cycles: two vertices that depend on each other
    make a valid graph, and [Next] never offers either of them. *)
Theorem Valid_accepts_cycle (obj : T) : exists d1 d2,
  Add New "a" obj ["b"] = Ok d1 /\ Add d1 "b" obj ["a"] = Ok d2 /\
  Valid d2 = Ok tt /\ ~ acyclic d2 /\ Next d2 [] = Ok [].
Proof.
  destruct (Add New "a" obj ["b"]) as [d1| |] eqn:H1; [|done..].
  destruct (Add d1 "b" obj ["a"]) as [d2| |] eqn:H2; try (by injection H1 as <-).
  assert (Hwf : wf d2) by eauto using wf_Add, wf_New.
  assert (HV : Valid d2 = Ok tt).
  { injection H1 as <-. injection H2 as <-. by apply Valid_ok. }
  assert (Hpar : forall n v, vertices d2 !! n = Some v ->
    (n = "a" /\ parents v = ["b"]) \/ (n = "b" /\ parents v = ["a"])).
  { intros n v Hn. pose proof (Add_lookup _ _ _ _ _ H2 n) as HL. rewrite Hn in HL.
    case_decide; [naive_solver|]. destruct HL as (w & Hw & -> & _).
    pose proof (Add_lookup _ _ _ _ _ H1 n) as HL. rewrite Hw in HL.
    case_decide; [naive_solver|]. destruct HL as (u & Hu & _). by simplify_map_eq. }
  assert (Hin : is_Some (vertices d2 !! "a") /\ is_Some (vertices d2 !! "b")).
  { pose proof (Add_lookup _ _ _ _ _ H2 "b"). pose proof (Add_lookup _ _ _ _ _ H2 "a").
    pose proof (Add_lookup _ _ _ _ _ H1 "a").
    split; [destruct (vertices d2 !! "a")|destruct (vertices d2 !! "b")]; eauto;
      destruct (vertices d1 !! "a"); naive_solver. }
  exists d1, d2. split_and!; [done..| |].
  - intros [rank Hr]. destruct Hin as [[va Ha] [vb Hb]].
    destruct (Hpar _ _ Ha) as [[_ Pa]|[? _]]; [|done].
    destruct (Hpar _ _ Hb) as [[? _]|[_ Pb]]; [done|].
    pose proof (Hr "a" va "b" Ha ltac:(rewrite Pa; by left)).
    pose proof (Hr "b" vb "a" Hb ltac:(rewrite Pb; by left)). lia.
  - destruct (Next d2 []) as [[|m l]| |] eqn:HN; [done| |by unfold Next in HN; rewrite HV in HN..].
    exfalso. destruct (proj1 (Next_elem _ _ _ Hwf HN m) ltac:(by left)) as [_ (v & Hv & Hp)].
    destruct (Hpar _ _ Hv) as [[_ E]|[_ E]]; rewrite E in Hp;
      specialize (Hp _ ltac:(by left)); by apply elem_of_nil in Hp.
Qed.
End Graph.

(* ------------------------------------------------------------------ *)
(** ** Witnesses *)

(** A graph of two packages, [b] depending on [a], added in the wrong order. *)
Definition sample : dag nat :=
  match Add New "b" 1 ["a"] with
  | Ok d => match Add d "a" 0 [] with Ok d => d | _ => New end
  | _ => New
  end.

Lemma sample_wf : wf sample.
Proof.
  apply (wf_Add (Dag {["b" := Vertex [] ["a"] "b" (Some 1)]} {["a" := Vertex ["b"] [] "a" None]}) "a" 0 []);
    [|reflexivity].
  apply (wf_Add New "b" 1 ["a"]); [apply wf_New|reflexivity].
Qed.

Lemma Next_spec_witness :
  Next sample ["a"] = Ok ["b"] /\ (forall n, n ∈ ["b"] <-> offered sample ["a"] n).
Proof.
  split; [reflexivity|]. apply (Next_spec sample ["a"] ["b"]); [apply sample_wf|reflexivity].
Defined.

Lemma Add_wf_witness :
  wf sample /\ is_err (Add sample "a" 7 []) = true /\ is_Some (vertices sample !! "a").
Proof.
  split; [apply sample_wf|]. split; [reflexivity|].
  apply (Add_wf sample "a" 7 [] sample_wf).
Defined.

Lemma walk_visits_all_witness :
  walk 3 sample [] = Some [["a"]; ["b"]] /\
  exists ret, walk (S (size (vertices sample))) sample [] = Some ret /\ "b" ∈ concat ret.
Proof.
  split; [reflexivity|].
  destruct (walk_visits_all sample) as (ret & Hret & Hall & _).
  - apply sample_wf.
  - reflexivity.
  - exists (fun n => if decide (n = "a") then 0 else 1). intros n v p Hn Hp.
    change (vertices sample) with (<["a" := Vertex ["b"] [] "a" (Some 0)]>
      (<["b" := Vertex [] ["a"] "b" (Some 1)]> (∅ : gmap string (vertex nat)))) in Hn.
    apply lookup_insert_Some in Hn as [[<- <-]|[_ Hn]]; [by apply elem_of_nil in Hp|].
    apply lookup_insert_Some in Hn as [[<- <-]|[_ Hn]]; [|by simplify_map_eq].
    apply list_elem_of_singleton in Hp as ->. simpl. lia.
  - exists ret. split; [done|]. apply Hall. eexists. reflexivity.
Defined.
