(* ===== verification/Float64.v ===== *)
(** * IEEE 754 binary64 arithmetic as the source uses it

    [float64(x)], [/], [*] and [int(f)], over the Standard Library's
    [SpecFloat] (round to nearest, ties to even), so that the budget arithmetic
    of the source is evaluated bit for bit. *)

From Stdlib Require Import SpecFloat.
From S2P Require Import Prelude.

Definition float64 : Type := spec_float.

Definition f64_of_int (z : Z) : float64 := binary_normalize 53 1024 z 0 false.
Definition f64_div (x y : float64) : float64 := SFdiv 53 1024 x y.
Definition f64_mul (x y : float64) : float64 := SFmul 53 1024 x y.

(** [int(f)] drops the fraction.  A value outside the range of [int64] has an
    implementation-defined result; amd64 gives the smallest integer. *)
Definition f64_to_int (f : float64) : Z :=
  match f with
  | S754_finite s m e =>
      let a := if (e <? 0)%Z then Z.shiftr (Z.pos m) (- e) else Z.shiftl (Z.pos m) e in
      let z := if s then (- a)%Z else a in
      if bool_decide (int64 z) then z else (- two63)%Z
  | S754_zero _ => 0%Z
  | _ => (- two63)%Z
  end.
