(* ===== verification/DeploymentPolicy.v ===== *)
(** * Deployment policies: strategies, budgets, batch evaluation

    Models [operator/api/nodewright/v1alpha1/deployment_policy_types.go] and the
    admission checks of [deployment_policy_webhook.go].  A pointer to an integer
    is an [option Z]; following a nil pointer panics.  Label selectors are data
    of apimachinery; their compilation by [metav1.LabelSelectorAsSelector] is
    the parameter [Selectors]. *)

From S2P Require Import Prelude.

#[local] Open Scope Z_scope.

(* ------------------------------------------------------------------ *)
(** ** Label selectors (apimachinery) *)

Record LabelSelectorRequirement := {
  req_Key : string;
  req_Operator : string;
  req_Values : option (list string)
}.

Record LabelSelector := {
  MatchLabels : option (gmap string string);
  MatchExpressions : option (list LabelSelectorRequirement)
}.

#[export] Instance LabelSelectorRequirement_eq_dec : EqDecision LabelSelectorRequirement.
Proof. solve_decision. Defined.
#[export] Instance LabelSelector_eq_dec : EqDecision LabelSelector.
Proof. solve_decision. Defined.

(** [metav1.LabelSelectorAsSelector] followed by [selector.Matches]. *)
Class Selectors := {
  LabelSelectorAsSelector : LabelSelector -> res (gmap string string -> bool);
  selector_Empty : LabelSelector -> bool
}.

(* ------------------------------------------------------------------ *)
(** ** Data *)

Record FixedStrategy := {
  fs_InitialBatch : option Z;
  fs_BatchThreshold : option Z;
  fs_FailureThreshold : option Z;
  fs_SafetyLimit : option Z
}.

Record LinearStrategy := {
  ls_InitialBatch : option Z;
  ls_Delta : option Z;
  ls_BatchThreshold : option Z;
  ls_FailureThreshold : option Z;
  ls_SafetyLimit : option Z
}.

Record ExponentialStrategy := {
  es_InitialBatch : option Z;
  es_GrowthFactor : option Z;
  es_BatchThreshold : option Z;
  es_FailureThreshold : option Z;
  es_SafetyLimit : option Z
}.

Record DeploymentStrategy := {
  Fixed : option FixedStrategy;
  Linear : option LinearStrategy;
  Exponential : option ExponentialStrategy
}.

Record DeploymentBudget := { Percent : option Z; Count : option Z }.

Inductive StrategyType :=
| StrategyTypeFixed | StrategyTypeLinear | StrategyTypeExponential | StrategyTypeUnknown.

#[export] Instance StrategyType_eq_dec : EqDecision StrategyType.
Proof. solve_decision. Defined.

Definition DefaultCompartmentName : string := "__default__".

Record PolicyDefault := { pd_Budget : DeploymentBudget; pd_Strategy : option DeploymentStrategy }.

Record Compartment := {
  c_Name : string;
  c_Selector : LabelSelector;
  c_Budget : DeploymentBudget;
  c_Strategy : option DeploymentStrategy
}.

Record DeploymentPolicy := {
  dp_Name : string;
  dp_Default : PolicyDefault;
  dp_Compartments : list Compartment;
  dp_ResetBatchStateOnCompletion : option bool
}.

Record BatchProcessingState := {
  CurrentBatch : Z;
  ConsecutiveFailures : Z;
  CompletedNodes : Z;
  FailedNodes : Z;
  ShouldStop : bool;
  LastBatchSize : Z;
  LastBatchFailed : bool
}.

#[export] Instance BatchProcessingState_eq_dec : EqDecision BatchProcessingState.
Proof. solve_decision. Defined.

(* ------------------------------------------------------------------ *)
(** ** Defaults *)

Definition or_default (p : option Z) (d : Z) : option Z :=
  match p with None => Some d | Some z => Some z end.

Definition defaultCommonStrategyFields (initialBatch batchThreshold safetyLimit : option Z)
  : option Z * option Z * option Z :=
  (or_default initialBatch 1, or_default batchThreshold 100, or_default safetyLimit 50).

Definition FixedStrategy_Default (s : FixedStrategy) : FixedStrategy :=
  let '(ib, bt, sl) :=
    defaultCommonStrategyFields (fs_InitialBatch s) (fs_BatchThreshold s) (fs_SafetyLimit s) in
  {| fs_InitialBatch := ib; fs_BatchThreshold := bt;
     fs_FailureThreshold := fs_FailureThreshold s; fs_SafetyLimit := sl |}.

Definition LinearStrategy_Default (s : LinearStrategy) : LinearStrategy :=
  let '(ib, bt, sl) :=
    defaultCommonStrategyFields (ls_InitialBatch s) (ls_BatchThreshold s) (ls_SafetyLimit s) in
  {| ls_InitialBatch := ib; ls_Delta := or_default (ls_Delta s) 1; ls_BatchThreshold := bt;
     ls_FailureThreshold := ls_FailureThreshold s; ls_SafetyLimit := sl |}.

Definition ExponentialStrategy_Default (s : ExponentialStrategy) : ExponentialStrategy :=
  let '(ib, bt, sl) :=
    defaultCommonStrategyFields (es_InitialBatch s) (es_BatchThreshold s) (es_SafetyLimit s) in
  {| es_InitialBatch := ib; es_GrowthFactor := or_default (es_GrowthFactor s) 2;
     es_BatchThreshold := bt; es_FailureThreshold := es_FailureThreshold s; es_SafetyLimit := sl |}.

(** The [switch] takes the first strategy that is set. *)
Definition DeploymentStrategy_Default (s : DeploymentStrategy) : DeploymentStrategy :=
  match Fixed s, Linear s, Exponential s with
  | Some f, l, e => {| Fixed := Some (FixedStrategy_Default f); Linear := l; Exponential := e |}
  | None, Some l, e => {| Fixed := None; Linear := Some (LinearStrategy_Default l); Exponential := e |}
  | None, None, Some e =>
      {| Fixed := None; Linear := None; Exponential := Some (ExponentialStrategy_Default e) |}
  | None, None, None => s
  end.

(** [DeploymentPolicyWebhook.Default] *)
Definition default_compartment (c : Compartment) : Compartment :=
  {| c_Name := c_Name c; c_Selector := c_Selector c; c_Budget := c_Budget c;
     c_Strategy := DeploymentStrategy_Default <$> c_Strategy c |}.

Definition DeploymentPolicy_Default (p : DeploymentPolicy) : DeploymentPolicy :=
  {| dp_Name := dp_Name p;
     dp_Default := {| pd_Budget := pd_Budget (dp_Default p);
                      pd_Strategy := DeploymentStrategy_Default <$> pd_Strategy (dp_Default p) |};
     dp_Compartments := map default_compartment (dp_Compartments p);
     dp_ResetBatchStateOnCompletion := dp_ResetBatchStateOnCompletion p |}.

(* ------------------------------------------------------------------ *)
(** ** Validation *)

Definition count_some {A} (p : option A) : Z := if p then 1 else 0.

Definition DeploymentStrategy_Validate (s : DeploymentStrategy) : res unit :=
  if count_some (Fixed s) + count_some (Linear s) + count_some (Exponential s) =? 1
  then Ok tt
  else Err (errorf "exactly one of fixed, linear, or exponential must be set" []).

(** [if strategy != nil { if err := strategy.Validate(); err != nil { ... } }] *)
Definition optional_Validate (fmt : string) (args : list string) (s : option DeploymentStrategy) : res unit :=
  match s with Some s => rwrap fmt args (DeploymentStrategy_Validate s) | None => Ok tt end.

Definition DeploymentBudget_Validate (b : DeploymentBudget) : res unit :=
  let hasPercent := if Percent b then true else false in
  let hasCount := if Count b then true else false in
  if negb hasPercent && negb hasCount then Err (errorf "exactly one of percent or count must be set" [])
  else if hasPercent && hasCount then Err (errorf "percent and count are mutually exclusive" [])
  else Ok tt.

Section Validation.
Context `{MR : MapRange} `{Sel : Selectors}.

Definition Compartment_Validate (c : Compartment) : res unit :=
  rbind (rwrap "compartment %q budget: %w" [c_Name c] (DeploymentBudget_Validate (c_Budget c))) (fun _ =>
  rbind (optional_Validate "compartment %q strategy: %w" [c_Name c] (c_Strategy c)) (fun _ =>
  rbind (rwrap "compartment %q has invalid selector: %w" [c_Name c] (LabelSelectorAsSelector (c_Selector c)))
    (fun _ => Ok tt))).

(** [reflect.DeepEqual(compartment.Selector, existingSelector)] *)
Definition same_selector (sel : LabelSelector) (existing : string * LabelSelector) : bool :=
  bool_decide (sel = existing.2).

(** The loop over the compartments: [names] and [selectors] are the maps of
    what was seen before. *)
Fixpoint validate_compartments (names : gmap string bool) (selectors : gmap string LabelSelector)
    (cs : list Compartment) : res unit :=
  match cs with
  | [] => Ok tt
  | c :: cs =>
      if bool_decide (c_Name c = DefaultCompartmentName) then
        Err (errorf "compartment name %q is reserved and cannot be used" [c_Name c])
      else if bool_decide (names !! c_Name c = Some true) then
        Err (errorf "compartment name %q is not unique" [c_Name c])
      else
        rbind (rwrap "compartment %q: %w" [c_Name c] (Compartment_Validate c)) (fun _ =>
        match List.find (same_selector (c_Selector c)) (range selectors) with
        | Some (existing, _) =>
            Err (errorf "compartment %q has identical selector to compartment %q" [c_Name c; existing])
        | None =>
            validate_compartments (<[c_Name c := true]> names) (<[c_Name c := c_Selector c]> selectors) cs
        end)
  end.

Definition DeploymentPolicy_Validate (r : DeploymentPolicy) : res unit :=
  rbind (rwrap "default budget: %w" [] (DeploymentBudget_Validate (pd_Budget (dp_Default r)))) (fun _ =>
  rbind (optional_Validate "default strategy: %w" [] (pd_Strategy (dp_Default r))) (fun _ =>
  validate_compartments ∅ ∅ (dp_Compartments r))).
End Validation.

(* ------------------------------------------------------------------ *)
(** ** Batch sizes *)

Section BatchSize.
Local Open Scope go_scope.

(** The tail the three strategies share: clamp to the nodes that remain. *)
Definition clamp_remaining (totalNodes : Z) (state : BatchProcessingState) (batchSize : Z) : Z :=
  let processedNodes := CompletedNodes state +! FailedNodes state in
  let remaining := totalNodes -! processedNodes in
  if remaining <=? 0 then 0
  else Z.max 1 (if remaining <? batchSize then remaining else batchSize).

Definition FixedStrategy_CalculateBatchSize (s : FixedStrategy) (totalNodes : Z)
    (state : BatchProcessingState) : res Z :=
  rbind (deref (fs_InitialBatch s)) (fun batchSize => Ok (clamp_remaining totalNodes state batchSize)).

Definition progress_percent (totalNodes : Z) (state : BatchProcessingState) : Z :=
  ((CompletedNodes state +! FailedNodes state) *! 100) /! totalNodes.

(** [state.LastBatchFailed && progressPercent < *s.SafetyLimit]: the pointer is
    followed only when the last batch failed. *)
Definition slow_down (safetyLimit : option Z) (totalNodes : Z) (state : BatchProcessingState) : res bool :=
  if LastBatchFailed state
  then rbind (deref safetyLimit) (fun sl => Ok (progress_percent totalNodes state <? sl))
  else Ok false.

Definition LinearStrategy_CalculateBatchSize (s : LinearStrategy) (totalNodes : Z)
    (state : BatchProcessingState) : res Z :=
  if totalNodes =? 0 then Ok 0
  else
    rbind
      (if 0 <? LastBatchSize state then
         rbind (slow_down (ls_SafetyLimit s) totalNodes state) (fun slow =>
         rbind (deref (ls_Delta s)) (fun delta =>
           Ok (if (slow : bool) then Z.max 1 (LastBatchSize state -! delta)
               else LastBatchSize state +! delta)))
       else deref (ls_InitialBatch s))
      (fun batchSize => Ok (clamp_remaining totalNodes state batchSize)).

Definition ExponentialStrategy_CalculateBatchSize (s : ExponentialStrategy) (totalNodes : Z)
    (state : BatchProcessingState) : res Z :=
  if totalNodes =? 0 then Ok 0
  else
    rbind
      (rbind (if 0 <? LastBatchSize state
              then rbind (deref (es_GrowthFactor s)) (fun gf => Ok (if 0 <? gf then Some gf else None))
              else Ok None) (fun grow =>
       match grow with
       | Some gf =>
           rbind (slow_down (es_SafetyLimit s) totalNodes state) (fun slow =>
             let batchSize :=
               if (slow : bool) then Z.max 1 (LastBatchSize state /! gf) else LastBatchSize state *! gf in
             Ok (if totalNodes <? batchSize then totalNodes else batchSize))
       | None => deref (es_InitialBatch s)
       end))
      (fun batchSize => Ok (clamp_remaining totalNodes state batchSize)).

Definition CalculateBatchSize (s : DeploymentStrategy) (totalNodes : Z)
    (state : BatchProcessingState) : res Z :=
  match Fixed s, Linear s, Exponential s with
  | Some f, _, _ => FixedStrategy_CalculateBatchSize f totalNodes state
  | None, Some l, _ => LinearStrategy_CalculateBatchSize l totalNodes state
  | None, None, Some e => ExponentialStrategy_CalculateBatchSize e totalNodes state
  | None, None, None => Ok 1
  end.

(* -------------------------------------------------------------- *)
(** ** Evaluating a batch *)

Definition getBatchThreshold (s : option DeploymentStrategy) : Z :=
  match s with
  | None => 100
  | Some s =>
      match Fixed s ≫= fs_BatchThreshold, Linear s ≫= ls_BatchThreshold,
            Exponential s ≫= es_BatchThreshold with
      | Some t, _, _ => t
      | None, Some t, _ => t
      | None, None, Some t => t
      | None, None, None => 100
      end
  end.

Definition getSafetyLimit (s : option DeploymentStrategy) : Z :=
  match s with
  | None => 50
  | Some s =>
      match Fixed s ≫= fs_SafetyLimit, Linear s ≫= ls_SafetyLimit, Exponential s ≫= es_SafetyLimit with
      | Some t, _, _ => t
      | None, Some t, _ => t
      | None, None, Some t => t
      | None, None, None => 50
      end
  end.

(** Unlike the two above, the first strategy that is set decides. *)
Definition getFailureThreshold (s : option DeploymentStrategy) : option Z :=
  match s with
  | None => None
  | Some s =>
      match Fixed s, Linear s, Exponential s with
      | Some f, _, _ => fs_FailureThreshold f
      | None, Some l, _ => ls_FailureThreshold l
      | None, None, Some e => es_FailureThreshold e
      | None, None, None => None
      end
  end.

Definition EvaluateBatchResult (s : DeploymentStrategy) (state : BatchProcessingState)
    (batchSize successCount failureCount totalNodes : Z) : BatchProcessingState :=
  if batchSize =? 0 then state
  else
    let successPercentage := (successCount *! 100) /! batchSize in
    let progressPercent := if 0 <? totalNodes then progress_percent totalNodes state else 0 in
    let batchFailed := successPercentage <? getBatchThreshold (Some s) in
    let consecutive := if batchFailed then ConsecutiveFailures state +! 1 else 0 in
    let stop :=
      if batchFailed then
        match getFailureThreshold (Some s) with
        | Some threshold =>
            if (progressPercent <? getSafetyLimit (Some s)) && (threshold <=? consecutive)
            then true else ShouldStop state
        | None => ShouldStop state
        end
      else ShouldStop state in
    {| CurrentBatch := CurrentBatch state +! 1;
       ConsecutiveFailures := consecutive;
       CompletedNodes := CompletedNodes state;
       FailedNodes := FailedNodes state;
       ShouldStop := stop;
       LastBatchSize := batchSize;
       LastBatchFailed := batchFailed |}.
End BatchSize.

#[global] Arguments getBatchThreshold : simpl never.
#[global] Arguments getSafetyLimit : simpl never.
#[global] Arguments getFailureThreshold : simpl never.
#[global] Arguments progress_percent : simpl never.

(* ------------------------------------------------------------------ *)
(** ** Lemmas *)

Lemma clamp_remaining_spec totalNodes st b :
  let remaining := totalNodes - (CompletedNodes st + FailedNodes st) in
  int64 totalNodes -> int64 (CompletedNodes st + FailedNodes st) -> int64 remaining ->
  (remaining <= 0 -> clamp_remaining totalNodes st b = 0) /\
  (0 < remaining -> 1 <= clamp_remaining totalNodes st b <= remaining).
Proof.
  simpl. intros Ht Hp Hr. unfold clamp_remaining.
  rewrite (int_add_id _ _ Hp), (int_sub_id _ _ Hr).
  repeat case_if; bool_simpl; lia.
Qed.

Lemma BatchSize_is_clamped s totalNodes st b :
  CalculateBatchSize s totalNodes st = Ok b ->
  is_Some (Fixed s) \/ is_Some (Linear s) \/ is_Some (Exponential s) ->
  totalNodes = 0 /\ b = 0 \/ exists b0, b = clamp_remaining totalNodes st b0.
Proof.
  unfold CalculateBatchSize. intros H Hs.
  destruct (Fixed s) as [f|]; [|destruct (Linear s) as [l|]; [|destruct (Exponential s) as [e|]]].
  - unfold FixedStrategy_CalculateBatchSize in H. apply rbind_ok in H as (b0 & _ & [= <-]). eauto.
  - unfold LinearStrategy_CalculateBatchSize in H. case_match_in H; bool_simpl.
    + injection H as <-. auto.
    + apply rbind_ok in H as (b0 & _ & [= <-]). eauto.
  - unfold ExponentialStrategy_CalculateBatchSize in H. case_match_in H; bool_simpl.
    + injection H as <-. auto.
    + apply rbind_ok in H as (b0 & _ & [= <-]). eauto.
  - destruct Hs as [[? ?]|[[? ?]|[? ?]]]; done.
Qed.

(** Every field the size computation follows is set by the defaults. *)
Lemma slow_down_total sl totalNodes st : exists b, slow_down (Some sl) totalNodes st = Ok b.
Proof. unfold slow_down. destruct (LastBatchFailed st); simpl; eauto. Qed.

Lemma or_default_Some p d : exists z, or_default p d = Some z.
Proof. destruct p; simpl; eauto. Qed.

Lemma or_default_idem p d : or_default (or_default p d) d = or_default p d.
Proof. by destruct p. Qed.

Lemma FixedStrategy_Default_total f totalNodes st :
  exists b, FixedStrategy_CalculateBatchSize (FixedStrategy_Default f) totalNodes st = Ok b.
Proof.
  unfold FixedStrategy_CalculateBatchSize. simpl.
  destruct (or_default_Some (fs_InitialBatch f) 1) as [z ->]. simpl. eauto.
Qed.

Lemma LinearStrategy_Default_total l totalNodes st :
  exists b, LinearStrategy_CalculateBatchSize (LinearStrategy_Default l) totalNodes st = Ok b.
Proof.
  unfold LinearStrategy_CalculateBatchSize. simpl.
  destruct (or_default_Some (ls_InitialBatch l) 1) as [ib ->].
  destruct (or_default_Some (ls_Delta l) 1) as [dl ->].
  destruct (or_default_Some (ls_SafetyLimit l) 50) as [sl ->].
  destruct (totalNodes =? 0); [by eauto|].
  destruct (0 <? LastBatchSize st); simpl; [|by eauto].
  destruct (slow_down_total sl totalNodes st) as [b ->]. simpl. eauto.
Qed.

Lemma ExponentialStrategy_Default_total e totalNodes st :
  exists b, ExponentialStrategy_CalculateBatchSize (ExponentialStrategy_Default e) totalNodes st = Ok b.
Proof.
  unfold ExponentialStrategy_CalculateBatchSize. simpl.
  destruct (or_default_Some (es_InitialBatch e) 1) as [ib ->].
  destruct (or_default_Some (es_GrowthFactor e) 2) as [gf ->].
  destruct (or_default_Some (es_SafetyLimit e) 50) as [sl ->].
  destruct (totalNodes =? 0); [by eauto|].
  destruct (0 <? LastBatchSize st); simpl; [|by eauto].
  destruct (0 <? gf); simpl; [|by eauto].
  destruct (slow_down_total sl totalNodes st) as [b ->]. simpl. eauto.
Qed.

(* ------------------------------------------------------------------ *)
(** ** Sequences of batches *)

(** One evaluated batch: its size and outcome, and the node counts the
    compartment checkpointed before evaluating it. *)
Record outcome := {
  o_batchSize : Z; o_success : Z; o_failure : Z; o_totalNodes : Z;
  o_completed : Z; o_failed : Z
}.

Definition checkpoint (st : BatchProcessingState) (completed failed : Z) : BatchProcessingState :=
  {| CurrentBatch := CurrentBatch st; ConsecutiveFailures := ConsecutiveFailures st;
     CompletedNodes := completed; FailedNodes := failed; ShouldStop := ShouldStop st;
     LastBatchSize := LastBatchSize st; LastBatchFailed := LastBatchFailed st |}.

Definition evaluate (s : DeploymentStrategy) (st : BatchProcessingState) (o : outcome) : BatchProcessingState :=
  EvaluateBatchResult s (checkpoint st (o_completed o) (o_failed o))
    (o_batchSize o) (o_success o) (o_failure o) (o_totalNodes o).

(** The specification: a batch fails when its success percentage is below the
    threshold; the rollout is vulnerable while its progress is below the limit. *)
Definition failed_batch (s : DeploymentStrategy) (o : outcome) : bool :=
  o_success o * 100 / o_batchSize o <? getBatchThreshold (Some s).

Definition vulnerable (s : DeploymentStrategy) (o : outcome) : bool :=
  (if 0 <? o_totalNodes o then (o_completed o + o_failed o) * 100 / o_totalNodes o else 0)
    <? getSafetyLimit (Some s).

(** Failed batches since the last successful one, most recent batch first. *)
Fixpoint streak (s : DeploymentStrategy) (recent : list outcome) : nat :=
  match recent with
  | [] => O
  | o :: recent => if failed_batch s o then S (streak s recent) else O
  end.

(** The rollout should have stopped at one of the evaluated batches. *)
Fixpoint must_stop (s : DeploymentStrategy) (recent : list outcome) : bool :=
  match recent with
  | [] => false
  | o :: older =>
      must_stop s older ||
      match getFailureThreshold (Some s) with
      | Some threshold =>
          failed_batch s o && vulnerable s o && (threshold <=? Z.of_nat (streak s recent))
      | None => false
      end
  end.

Definition small (z : Z) : Prop := 0 <= z < 92233720368547758.

Definition plausible (o : outcome) : Prop :=
  0 < o_batchSize o /\ small (o_batchSize o) /\ small (o_success o) /\
  small (o_totalNodes o) /\ small (o_completed o + o_failed o).

Definition fresh_state : BatchProcessingState :=
  {| CurrentBatch := 1; ConsecutiveFailures := 0; CompletedNodes := 0; FailedNodes := 0;
     ShouldStop := false; LastBatchSize := 0; LastBatchFailed := false |}.

Lemma percent_id x y : small x -> 0 < y -> int_quot (int_mul x 100) y = x * 100 / y.
Proof.
  unfold small. intros Hx Hy.
  rewrite int_mul_id by (unfold int64, two63; lia).
  apply int_quot_id; [lia| |lia]. unfold int64, two63; lia.
Qed.

Lemma evaluate_spec s st o : plausible o -> 0 <= ConsecutiveFailures st < two63 - 1 ->
  let st' := evaluate s st o in
  ConsecutiveFailures st' = (if failed_batch s o then ConsecutiveFailures st + 1 else 0) /\
  ShouldStop st' = ShouldStop st ||
    match getFailureThreshold (Some s) with
    | Some threshold => failed_batch s o && vulnerable s o && (threshold <=? ConsecutiveFailures st')
    | None => false
    end.
Proof.
  intros (Hb & Hbs & Hs & Ht & Hc) Hf. simpl. unfold evaluate, EvaluateBatchResult.
  assert (o_batchSize o =? 0 = false) as -> by (apply Z.eqb_neq; lia). simpl.
  rewrite (percent_id _ _ Hs Hb).
  assert (Hp : forall t, t = o_totalNodes o -> 0 < t ->
     progress_percent t (checkpoint st (o_completed o) (o_failed o)) = (o_completed o + o_failed o) * 100 / t).
  { intros t -> Ht0. unfold progress_percent. simpl.
    rewrite (int_add_id (o_completed o)) by (unfold small, int64, two63 in *; lia).
    by apply percent_id. }
  fold (failed_batch s o). unfold vulnerable.
  assert ((if 0 <? o_totalNodes o
           then progress_percent (o_totalNodes o) (checkpoint st (o_completed o) (o_failed o)) else 0)
        = (if 0 <? o_totalNodes o then (o_completed o + o_failed o) * 100 / o_totalNodes o else 0)) as ->.
  { case_if; bool_simpl; [by apply Hp|done]. }
  rewrite (int_add_id (ConsecutiveFailures st)) by (unfold int64, two63 in *; lia).
  split; [done|].
  destruct (failed_batch s o); [|by destruct (getFailureThreshold (Some s)); simpl; rewrite orb_false_r].
  destruct (getFailureThreshold (Some s)); [|by rewrite orb_false_r].
  simpl. case_if; by rewrite ?orb_true_r, ?orb_false_r.
Qed.

Lemma streak_le s recent : (streak s recent <= length recent)%nat.
Proof. induction recent as [|o recent IH]; simpl; [lia|]. case_if; lia. Qed.

(** The evaluation of a sequence of batches, oldest first, kept in reverse. *)
Lemma evaluate_all_spec s recent :
  Forall plausible recent -> Z.of_nat (length recent) < two63 - 1 ->
  let st := foldr (fun o st => evaluate s st o) fresh_state recent in
  ConsecutiveFailures st = Z.of_nat (streak s recent) /\ ShouldStop st = must_stop s recent.
Proof.
  induction recent as [|o recent IH]; [done|]. intros [Ho Hr]%Forall_cons Hl. simpl in *.
  destruct (IH Hr ltac:(lia)) as [IH1 IH2]. pose proof (streak_le s recent).
  destruct (evaluate_spec s (foldr (fun o st => evaluate s st o) fresh_state recent) o Ho) as [E1 E2].
  { rewrite IH1. lia. }
  simpl in *. rewrite E1, IH1 in *. rewrite E2, IH2. clear E1 E2.
  split; [destruct (failed_batch s o); lia|].
  destruct (getFailureThreshold (Some s)); [|done]. f_equal.
  destruct (failed_batch s o); [|done]. do 2 f_equal. lia.
Qed.

(* ------------------------------------------------------------------ *)
(** ** Validation lemmas *)

Section ValidationLemmas.
Context `{MR : MapRange} `{Sel : Selectors}.

Definition one_of (s : DeploymentStrategy) : Prop :=
  count_some (Fixed s) + count_some (Linear s) + count_some (Exponential s) = 1.

Definition budget_ok (b : DeploymentBudget) : Prop :=
  is_Some (Percent b) /\ Count b = None \/ Percent b = None /\ is_Some (Count b).

Definition strategy_ok (s : option DeploymentStrategy) : Prop :=
  match s with Some s => one_of s | None => True end.

Definition compartment_ok (c : Compartment) : Prop :=
  budget_ok (c_Budget c) /\ strategy_ok (c_Strategy c) /\
  exists sel, LabelSelectorAsSelector (c_Selector c) = Ok sel.

Definition policy_ok (r : DeploymentPolicy) : Prop :=
  budget_ok (pd_Budget (dp_Default r)) /\ strategy_ok (pd_Strategy (dp_Default r)) /\
  Forall (fun c => c_Name c <> DefaultCompartmentName /\ compartment_ok c) (dp_Compartments r) /\
  NoDup (map c_Name (dp_Compartments r)) /\ NoDup (map c_Selector (dp_Compartments r)).

Lemma DeploymentBudget_Validate_ok b : DeploymentBudget_Validate b = Ok tt <-> budget_ok b.
Proof.
  unfold DeploymentBudget_Validate, budget_ok.
  destruct (Percent b), (Count b); simpl; split; try done; try naive_solver; unfold is_Some; naive_solver.
Qed.

Lemma DeploymentStrategy_Validate_ok s : DeploymentStrategy_Validate s = Ok tt <-> one_of s.
Proof. unfold DeploymentStrategy_Validate, one_of. case_if; bool_simpl; naive_solver. Qed.

Lemma optional_strategy_ok fmt args s :
  optional_Validate fmt args s = Ok tt <-> strategy_ok s.
Proof. unfold optional_Validate. destruct s as [s|]; simpl; [by rewrite rwrap_ok, DeploymentStrategy_Validate_ok|done]. Qed.

Lemma Compartment_Validate_ok c : Compartment_Validate c = Ok tt <-> compartment_ok c.
Proof.
  unfold Compartment_Validate, compartment_ok.
  rewrite rbind_unit_ok, rwrap_ok, DeploymentBudget_Validate_ok, rbind_unit_ok, optional_strategy_ok, rbind_ok.
  setoid_rewrite rwrap_ok. naive_solver.
Qed.

Lemma find_selector_None (selectors : gmap string LabelSelector) sel :
  List.find (same_selector sel) (range selectors) = None <->
  forall k s, selectors !! k = Some s -> sel <> s.
Proof.
  split.
  - intros H k s Hk%elem_of_range. apply list_elem_of_In in Hk.
    pose proof (List.find_none _ _ H _ Hk) as HN. unfold same_selector in HN. by bool_simpl.
  - intros H. destruct (List.find _ _) as [[k s]|] eqn:E; [|done].
    apply List.find_some in E as [Hin Heq]. apply list_elem_of_In, elem_of_range in Hin.
    unfold same_selector in Heq. bool_simpl. by destruct (H _ _ Hin).
Qed.

Lemma validate_compartments_ok cs names selectors :
  (forall k s, selectors !! k = Some s -> names !! k = Some true) ->
  validate_compartments names selectors cs = Ok tt <->
    Forall (fun c => c_Name c <> DefaultCompartmentName /\ compartment_ok c) cs /\
    NoDup (map c_Name cs) /\ NoDup (map c_Selector cs) /\
    (forall c, c ∈ cs -> names !! c_Name c <> Some true) /\
    (forall c k s, c ∈ cs -> selectors !! k = Some s -> c_Selector c <> s).
Proof.
  revert names selectors; induction cs as [|c cs IH]; intros names selectors Hsub; simpl.
  { split; [intros _|done]. split_and!; try constructor; intros c; set_solver. }
  rewrite Forall_cons, !NoDup_cons. setoid_rewrite elem_of_cons.
  setoid_rewrite list_elem_of_fmap.
  case_bool_decide as Hd; [naive_solver|]. case_bool_decide as Hn; [naive_solver|].
  rewrite rbind_unit_ok, rwrap_ok, Compartment_Validate_ok.
  destruct (List.find _ _) as [[k s]|] eqn:Hf.
  { split; [naive_solver|]. intros (_ & _ & _ & _ & H).
    assert (HN : List.find (same_selector (c_Selector c)) (range selectors) = None).
    { apply find_selector_None. eauto. }
    congruence. }
  pose proof (proj1 (find_selector_None _ _) Hf) as Hf'.
  rewrite IH; [|intros k s; rewrite !lookup_insert_Some; naive_solver].
  assert (HA : forall c', <[c_Name c:=true]> names !! c_Name c' <> Some true <->
                 c_Name c <> c_Name c' /\ names !! c_Name c' <> Some true).
  { intros c'. destruct (decide (c_Name c = c_Name c')) as [->|Hne].
    - rewrite lookup_insert_eq. split; [congruence|]. by intros [[] _].
    - rewrite lookup_insert_ne by done. split; [by split|by intros [_ ?]]. }
  assert (HC : selectors !! c_Name c = None).
  { destruct (selectors !! c_Name c) as [s|] eqn:E; [|done]. by apply Hsub in E. }
  assert (HB : forall c', (forall k s, <[c_Name c:=c_Selector c]> selectors !! k = Some s -> c_Selector c' <> s) <->
                 c_Selector c <> c_Selector c' /\ (forall k s, selectors !! k = Some s -> c_Selector c' <> s)).
  { intros c'. split.
    - intros H. split; [intros E; by eapply (H (c_Name c)); [apply lookup_insert_eq|]|].
      intros k s Hk. apply (H k). rewrite lookup_insert_ne; [done|]. intros <-. congruence.
    - intros [H1 H2] k s. rewrite lookup_insert_Some. intros [[<- <-]|[_ Hk]]; [congruence|eauto]. }
  split.
  - intros (Hc & Hcs & HNn & HNs & H1 & H2).
    split_and!; try done.
    + intros (y & Hy & Hin). by destruct (proj1 (HA y) (H1 y Hin)).
    + intros (y & Hy & Hin). by destruct (proj1 (HB y) (fun k s => H2 y k s Hin)).
    + intros c' [->|Hin]; [done|]. apply HA, H1, Hin.
    + intros c' k s [->|Hin]; [by apply Hf'|]. by apply (proj1 (HB c') (fun k s => H2 c' k s Hin)).
  - intros ([[_ Hc] Hcs] & [Hn1 Hn2] & [Hs1 Hs2] & H1 & H2). split_and!; try done.
    + intros c' Hin. apply HA. split; [|eauto]. intros E. apply Hn1. eauto.
    + intros c' k s Hin. revert k s. apply HB. split; [|eauto]. intros E. apply Hs1. eauto.
Qed.
End ValidationLemmas.

(* ------------------------------------------------------------------ *)
(** ** Properties *)

(** C38: whatever the strategy and however its growth overflows, the next batch is
    empty exactly when no node remains and otherwise holds between one node and
    the nodes that remain. *)
Theorem CalculateBatchSize_bounds s totalNodes st b :
  is_Some (Fixed s) \/ is_Some (Linear s) \/ is_Some (Exponential s) ->
  0 <= totalNodes < two63 -> 0 <= CompletedNodes st -> 0 <= FailedNodes st ->
  CompletedNodes st + FailedNodes st < two63 ->
  CalculateBatchSize s totalNodes st = Ok b ->
  let remaining := totalNodes - (CompletedNodes st + FailedNodes st) in
  (b = 0 <-> remaining <= 0) /\ (0 < remaining -> 1 <= b <= remaining).
Proof.
  intros Hs Ht Hc Hf Hcf H remaining.
  destruct (BatchSize_is_clamped _ _ _ _ H Hs) as [[-> ->]|[b0 ->]]; [lia|].
  destruct (clamp_remaining_spec totalNodes st b0) as [H0 H1]; unfold int64, two63 in *; [lia..|].
  fold remaining in H0, H1. lia.
Qed.

(** The defaults the admission webhook fills in make the batch size of every
    strategy total (no nil pointer is followed), and are idempotent. *)
Theorem Default_CalculateBatchSize_total s totalNodes st :
  (exists b, CalculateBatchSize (DeploymentStrategy_Default s) totalNodes st = Ok b) /\
  DeploymentStrategy_Default (DeploymentStrategy_Default s) = DeploymentStrategy_Default s.
Proof.
  unfold DeploymentStrategy_Default, CalculateBatchSize.
  destruct s as [f l e]; simpl. destruct f as [f|]; [|destruct l as [l|]; [|destruct e as [e|]]]; simpl.
  - split; [apply FixedStrategy_Default_total|].
    unfold FixedStrategy_Default; simpl. by rewrite !or_default_idem.
  - split; [apply LinearStrategy_Default_total|].
    unfold LinearStrategy_Default; simpl. by rewrite !or_default_idem.
  - split; [apply ExponentialStrategy_Default_total|].
    unfold ExponentialStrategy_Default; simpl. by rewrite !or_default_idem.
  - eauto.
Qed.

(** C37: over a rollout started fresh, [ConsecutiveFailures] counts the failed
    batches since the last successful one, and [ShouldStop] holds exactly when
    some evaluated batch failed below the safety limit with the failure
    threshold reached; without a failure threshold the rollout never stops. *)
Theorem batches_stop_exactly s recent :
  Forall plausible recent -> Z.of_nat (length recent) < two63 - 1 ->
  let st := foldr (fun o st => evaluate s st o) fresh_state recent in
  ConsecutiveFailures st = Z.of_nat (streak s recent) /\
  ShouldStop st = must_stop s recent /\
  (getFailureThreshold (Some s) = None -> ShouldStop st = false).
Proof.
  intros Hp Hl st. destruct (evaluate_all_spec s recent Hp Hl) as [H1 H2]. fold st in H1, H2.
  split_and!; [done..|]. intros HN. rewrite H2. clear -HN.
  induction recent as [|o recent IH]; [done|]. cbn [must_stop]. by rewrite IH, HN.
Qed.

(** A deployment policy is admitted exactly when its default and every
    compartment have one budget and one strategy kind and a valid selector, the
    compartment names are unique and not reserved, and no two compartments
    have the same selector; in whatever order the selectors seen so far are
    visited. *)
Theorem DeploymentPolicy_Validate_ok `{MR : MapRange} `{Sel : Selectors} (r : DeploymentPolicy) :
  DeploymentPolicy_Validate r = Ok tt <-> policy_ok r.
Proof.
  unfold DeploymentPolicy_Validate, policy_ok.
  rewrite rbind_unit_ok, rwrap_ok, DeploymentBudget_Validate_ok, rbind_unit_ok, optional_strategy_ok.
  rewrite validate_compartments_ok by by intros ? ? ?%lookup_empty_Some.
  split; [naive_solver|]. intros (? & ? & ? & ? & ?).
  split_and!; try done; intros; by simplify_map_eq.
Qed.

(* ------------------------------------------------------------------ *)
(** ** Witnesses *)

Definition doubling : DeploymentStrategy := DeploymentStrategy_Default
  {| Fixed := None; Linear := None;
     Exponential := Some {| es_InitialBatch := Some 1; es_GrowthFactor := Some 2; es_BatchThreshold := None;
                            es_FailureThreshold := Some 2; es_SafetyLimit := None |} |}.

Lemma CalculateBatchSize_bounds_witness :
  CalculateBatchSize doubling 10 (checkpoint fresh_state 3 0) = Ok 1 /\ (0 < 7 -> 1 <= 1 <= 7).
Proof.
  split; [reflexivity|].
  apply (CalculateBatchSize_bounds doubling 10 (checkpoint fresh_state 3 0) 1);
    [right; right; eexists; reflexivity|unfold two63; lia|simpl; lia|simpl; lia|simpl; unfold two63; lia|reflexivity].
Defined.

Definition bad_batch (n : Z) : outcome :=
  {| o_batchSize := 2; o_success := 0; o_failure := 2; o_totalNodes := 100; o_completed := 0; o_failed := n |}.

Lemma batches_stop_exactly_witness :
  ShouldStop (foldr (fun o st => evaluate doubling st o) fresh_state [bad_batch 4; bad_batch 2]) = true.
Proof.
  destruct (batches_stop_exactly doubling [bad_batch 4; bad_batch 2]) as (_ & -> & _).
  - repeat constructor; simpl; lia.
  - simpl. unfold two63. lia.
  - reflexivity.
Defined.
