(* ===== verification/Api.v ===== *)
(** * The NodeWright resource

    Models [operator/api/nodewright/v1alpha1/nodewright_types.go]: the data of
    the custom resource and the functions on packages, images and the resource
    itself.  The functions on a node's package state are in [NodeState].

    A Go string type with named constants is an inductive type with one
    constructor per constant and one for every other string.  A nil map and an
    empty map are the same value here; where the source tells them apart the
    model uses an option.  [time.Time] is a number of nanoseconds, 0 for the
    zero time.  A [resource.Quantity] is its text: the model only passes it on. *)

From S2P Require Import Prelude Graph DeploymentPolicy.

(* ------------------------------------------------------------------ *)
(** ** Enumerations *)

Inductive Stage :=
| StageUninstall | StageUninstallInterrupt | StageUpgrade | StageApply
| StageInterrupt | StagePostInterrupt | StageConfig
| StageOther (s : string).

#[export] Instance Stage_eq_dec : EqDecision Stage.
Proof. solve_decision. Defined.

Definition stage_string (s : Stage) : string :=
  match s with
  | StageUninstall => "uninstall"
  | StageUninstallInterrupt => "uninstall-interrupt"
  | StageUpgrade => "upgrade"
  | StageApply => "apply"
  | StageInterrupt => "interrupt"
  | StagePostInterrupt => "post-interrupt"
  | StageConfig => "config"
  | StageOther s => s
  end.

Inductive State :=
| StateComplete | StateInProgress | StateSkipped | StateErroring | StateUnknown
| StateOther (s : string).

#[export] Instance State_eq_dec : EqDecision State.
Proof. solve_decision. Defined.

Definition state_string (s : State) : string :=
  match s with
  | StateComplete => "complete"
  | StateInProgress => "in_progress"
  | StateSkipped => "skipped"
  | StateErroring => "erroring"
  | StateUnknown => "unknown"
  | StateOther s => s
  end.

Inductive Status :=
| StatusComplete | StatusBlocked | StatusWaiting | StatusDisabled | StatusPaused
| StatusInProgress | StatusErroring | StatusUnknown
| StatusOther (s : string).

#[export] Instance Status_eq_dec : EqDecision Status.
Proof. solve_decision. Defined.

(** The zero value of the string type. *)
Definition StatusEmpty : Status := StatusOther "".

Definition status_string (s : Status) : string :=
  match s with
  | StatusComplete => "complete"
  | StatusBlocked => "blocked"
  | StatusWaiting => "waiting"
  | StatusDisabled => "disabled"
  | StatusPaused => "paused"
  | StatusInProgress => "in_progress"
  | StatusErroring => "erroring"
  | StatusUnknown => "unknown"
  | StatusOther s => s
  end.

Definition Statuses : list Status :=
  [StatusComplete; StatusBlocked; StatusWaiting; StatusDisabled; StatusPaused;
   StatusInProgress; StatusErroring; StatusUnknown].

Definition GetStatus (s : string) : Status :=
  if bool_decide (s = status_string StatusComplete) then StatusComplete
  else if bool_decide (s = status_string StatusBlocked) then StatusBlocked
  else if bool_decide (s = status_string StatusWaiting) then StatusWaiting
  else if bool_decide (s = status_string StatusDisabled) then StatusDisabled
  else if bool_decide (s = status_string StatusPaused) then StatusPaused
  else if bool_decide (s = status_string StatusInProgress) then StatusInProgress
  else if bool_decide (s = status_string StatusErroring) then StatusErroring
  else StatusUnknown.

Definition StateToStatus (s : State) : Status :=
  match s with
  | StateComplete => StatusComplete
  | StateErroring => StatusErroring
  | StateInProgress => StatusInProgress
  | _ => StatusUnknown
  end.

Inductive InterruptType :=
| REBOOT | SERVICE | NOOP | RESTART_ALL_SERVICES
| InterruptOther (s : string).

#[export] Instance InterruptType_eq_dec : EqDecision InterruptType.
Proof. solve_decision. Defined.

Inductive SequencingMode := SequencingNode | SequencingAll | SequencingOther (s : string).

#[export] Instance SequencingMode_eq_dec : EqDecision SequencingMode.
Proof. solve_decision. Defined.

(* ------------------------------------------------------------------ *)
(** ** Kubernetes data the resource carries *)

Record Toleration := {
  tol_Key : string; tol_Operator : string; tol_Value : string;
  tol_Effect : string; tol_TolerationSeconds : option Z
}.

Record Taint := { taint_Key : string; taint_Value : string; taint_Effect : string }.

Record EnvVar := { env_Name : string; env_Value : string }.

Record Condition := {
  cond_Type : string; cond_Status : string; cond_ObservedGeneration : Z;
  cond_LastTransitionTime : Z; cond_Reason : string; cond_Message : string
}.

Definition Quantity : Type := string.

#[export] Instance Toleration_eq_dec : EqDecision Toleration.
Proof. solve_decision. Defined.
#[export] Instance Taint_eq_dec : EqDecision Taint.
Proof. solve_decision. Defined.
#[export] Instance EnvVar_eq_dec : EqDecision EnvVar.
Proof. solve_decision. Defined.
#[export] Instance Condition_eq_dec : EqDecision Condition.
Proof. solve_decision. Defined.

(* ------------------------------------------------------------------ *)
(** ** Packages *)

Record PackageRef := { ref_Name : string; ref_Version : string }.

#[export] Instance PackageRef_eq_dec : EqDecision PackageRef.
Proof. solve_decision. Defined.

(** [fmt.Sprintf("%s|%s", p.Name, p.Version)] *)
Definition unique_name (name version : string) : string := name +:+ "|" +:+ version.
Definition GetUniqueName (p : PackageRef) : string := unique_name (ref_Name p) (ref_Version p).

Record ResourceRequirements := {
  CPURequest : Quantity; CPULimit : Quantity; MemoryRequest : Quantity; MemoryLimit : Quantity
}.

Record Uninstall := { un_Enabled : bool; un_Apply : bool }.

Record Interrupt := { int_Type : InterruptType; int_Services : list string }.

Record Package := {
  pkg_Ref : PackageRef;
  pkg_Image : string;
  pkg_ContainerSHA : string;
  pkg_AgentImageOverride : string;
  pkg_Interrupt : option Interrupt;
  pkg_DependsOn : gmap string string;
  pkg_ConfigInterrupts : gmap string Interrupt;
  pkg_ConfigMap : gmap string string;
  pkg_Env : list EnvVar;
  pkg_Resources : option ResourceRequirements;
  pkg_GracefulShutdown : option Z;
  pkg_StageTimeout : option Z;
  pkg_Uninstall : option Uninstall
}.

#[export] Instance ResourceRequirements_eq_dec : EqDecision ResourceRequirements.
Proof. solve_decision. Defined.
#[export] Instance Uninstall_eq_dec : EqDecision Uninstall.
Proof. solve_decision. Defined.
#[export] Instance Interrupt_eq_dec : EqDecision Interrupt.
Proof. solve_decision. Defined.
#[export] Instance Package_eq_dec : EqDecision Package.
Proof. solve_decision. Defined.

Definition pkg_Name (p : Package) : string := ref_Name (pkg_Ref p).
Definition pkg_Version (p : Package) : string := ref_Version (pkg_Ref p).
Definition pkg_UniqueName (p : Package) : string := GetUniqueName (pkg_Ref p).

Notation Packages := (gmap string Package).

Definition pkg_HasInterrupt (f : Package) : bool := if pkg_Interrupt f then true else false.

(** [UninstallEnabled] and [IsUninstalling] take a pointer that may be nil. *)
Definition UninstallEnabled (f : option Package) : bool :=
  match f ≫= pkg_Uninstall with Some u => un_Enabled u | None => false end.

Definition IsUninstalling (f : option Package) : bool :=
  UninstallEnabled f && match f ≫= pkg_Uninstall with Some u => un_Apply u | None => false end.

Definition set_pkg_Name (n : string) (p : Package) : Package :=
  {| pkg_Ref := {| ref_Name := n; ref_Version := pkg_Version p |};
     pkg_Image := pkg_Image p; pkg_ContainerSHA := pkg_ContainerSHA p;
     pkg_AgentImageOverride := pkg_AgentImageOverride p; pkg_Interrupt := pkg_Interrupt p;
     pkg_DependsOn := pkg_DependsOn p; pkg_ConfigInterrupts := pkg_ConfigInterrupts p;
     pkg_ConfigMap := pkg_ConfigMap p; pkg_Env := pkg_Env p; pkg_Resources := pkg_Resources p;
     pkg_GracefulShutdown := pkg_GracefulShutdown p; pkg_StageTimeout := pkg_StageTimeout p;
     pkg_Uninstall := pkg_Uninstall p |}.

(** [Packages.Names]: a package without a name takes its key. *)
Definition Names (f : Packages) : Packages :=
  map_imap (fun k m => Some (if bool_decide (pkg_Name m = "") then set_pkg_Name k m else m)) f.

(** [Packages.UnmarshalJSON]; [decode] is [json.Unmarshal] into a map of packages. *)
Definition Packages_UnmarshalJSON (decode : string -> res Packages) (data : string) : res Packages :=
  rbind (rwrap "unmarshalling packages: %w" [] (decode data)) (fun ret => Ok (Names ret)).

(** Once read, only the package under the empty key can be without a name. *)
Lemma Packages_UnmarshalJSON_names decode data f k p :
  Packages_UnmarshalJSON decode data = Ok f -> f !! k = Some p -> pkg_Name p = "" -> k = "".
Proof.
  unfold Packages_UnmarshalJSON. intros (m & _ & [= <-])%rbind_ok. unfold Names. rewrite map_lookup_imap.
  destruct (m !! k) as [q|]; [|done]. simpl. by case_bool_decide; intros [= <-].
Qed.

(** [Interrupt.ToArgs]: the copy that is handed to the agent, before it is encoded. *)
Definition agent_interrupt (i : Interrupt) : Interrupt :=
  {| int_Type :=
       match int_Type i with
       | REBOOT => InterruptOther "node_restart"
       | SERVICE => InterruptOther "service_restart"
       | NOOP => InterruptOther "no_op"
       | RESTART_ALL_SERVICES => InterruptOther "restart_all_services"
       | InterruptOther s => InterruptOther s
       end;
     int_Services := int_Services i |}.

(* ------------------------------------------------------------------ *)
(** ** Image references *)

(** [strings.LastIndex(s, string(c))], with the text before and after that
    occurrence; [None] for the index -1. *)
Fixpoint cut_last (c : Ascii.ascii) (s : string) : option (string * string) :=
  match s with
  | EmptyString => None
  | String a s' =>
      match cut_last c s' with
      | Some (before, after) => Some (String a before, after)
      | None => if bool_decide (a = c) then Some (EmptyString, s') else None
      end
  end.

(** [strings.LastIndex] itself. *)
Definition last_index (c : Ascii.ascii) (s : string) : Z :=
  match cut_last c s with Some (before, _) => Z.of_nat (String.length before) | None => -1 end.

Definition splitImageReference (image : string) : string * option string * option string :=
  let '(repository, digest) :=
    match cut_last "@"%char image with Some (r, d) => (r, Some d) | None => (image, None) end in
  let '(repository, tag) :=
    if (last_index "/"%char repository <? last_index ":"%char repository)%Z then
      match cut_last ":"%char repository with Some (r, t) => (r, Some t) | None => (repository, None) end
    else (repository, None) in
  (repository, tag, digest).

(* ------------------------------------------------------------------ *)
(** ** Budgets and drain configuration *)

Record InterruptionBudget := { ib_Percent : option Z; ib_Count : option Z }.

#[export] Instance InterruptionBudget_eq_dec : EqDecision InterruptionBudget.
Proof. solve_decision. Defined.

Definition InterruptionBudget_Validate (i : InterruptionBudget) : res unit :=
  match ib_Count i, ib_Percent i with
  | Some _, Some _ =>
      Err (errorf "error InterruptionBudget is not valid, both percent and count can not be set at the same time" [])
  | _, _ => Ok tt
  end.

Record DrainConfig := {
  dc_DisableEviction : option bool; dc_DeleteEmptyDirData : option bool; dc_Force : option bool;
  dc_IgnoreDaemonSets : option bool; dc_Timeout : option Z; dc_GracePeriod : option Z
}.

#[export] Instance DrainConfig_eq_dec : EqDecision DrainConfig.
Proof. solve_decision. Defined.

Definition negative (d : option Z) : bool :=
  match d with Some d => (d <? 0)%Z | None => false end.

Definition DrainConfig_Validate (d : option DrainConfig) : res unit :=
  match d with
  | None => Ok tt
  | Some d =>
      if negative (dc_Timeout d) then Err (errorf "drainConfig.timeout must be greater than or equal to 0" [])
      else if negative (dc_GracePeriod d) then
        Err (errorf "drainConfig.gracePeriod must be greater than or equal to 0" [])
      else Ok tt
  end.

(* ------------------------------------------------------------------ *)
(** ** The state of a node's packages *)

Record PackageStatus := {
  ps_Name : string; ps_Version : string; ps_Image : string; ps_ContainerSHA : string;
  ps_Stage : Stage; ps_State : State; ps_Restarts : Z
}.

#[export] Instance PackageStatus_eq_dec : EqDecision PackageStatus.
Proof. solve_decision. Defined.

Notation NodeState := (gmap string PackageStatus).

Definition PackageStatus_Equal (left right : PackageStatus) : bool :=
  bool_decide (ps_Name left = ps_Name right) && bool_decide (ps_Version left = ps_Version right) &&
  bool_decide (ps_Image left = ps_Image right) &&
  bool_decide (ps_ContainerSHA left = ps_ContainerSHA right) &&
  bool_decide (ps_Stage left = ps_Stage right) && bool_decide (ps_State left = ps_State right) &&
  (ps_Restarts left =? ps_Restarts right)%Z.

(** The three tests below take a pointer that may be nil. *)
Definition IsInterruptStage (s : option PackageStatus) : bool :=
  match s with
  | Some s => bool_decide (ps_Stage s = StageInterrupt) || bool_decide (ps_Stage s = StageUninstallInterrupt)
  | None => false
  end.

Definition IsActive (s : option PackageStatus) : bool :=
  match s with
  | Some s => bool_decide (ps_State s = StateInProgress) || bool_decide (ps_State s = StateErroring)
  | None => false
  end.

Definition IsSkipped (s : option PackageStatus) : bool :=
  match s with Some s => bool_decide (ps_State s = StateSkipped) | None => false end.

(* ------------------------------------------------------------------ *)
(** ** The resource: specification and status *)

Record CompartmentStatus := {
  cs_Matched : Z; cs_Ceiling : Z; cs_InProgress : Z; cs_Completed : Z; cs_ProgressPercent : Z;
  cs_BatchState : option BatchProcessingState
}.

#[export] Instance CompartmentStatus_eq_dec : EqDecision CompartmentStatus.
Proof. solve_decision. Defined.

Record NodeWrightSpec := {
  Serial : bool;
  PodNonInterruptLabels : LabelSelector;
  NodeSelector : LabelSelector;
  sp_DeploymentPolicy : string;
  DeploymentPolicyOptions : option (option bool);
  sp_InterruptionBudget : InterruptionBudget;
  sp_DrainConfig : option DrainConfig;
  sp_Packages : Packages;
  AdditionalTolerations : list Toleration;
  RuntimeRequired : bool;
  RuntimeRequiredCordonAfter : bool;
  AutoTaintNewNodes : bool;
  Priority : Z;
  Sequencing : SequencingMode
}.

Record NodeWrightStatus := {
  ObservedGeneration : Z;
  st_NodeState : option (gmap string (option NodeState));
  NodeStatus : gmap string Status;
  st_Status : Status;
  Conditions : list Condition;
  NodeBootIds : gmap string string;
  NodePriority : gmap string Z;
  NodeOrderOffset : Z;
  ConfigUpdates : gmap string (list string);
  CompartmentStatuses : gmap string CompartmentStatus;
  NodesInProgress : Z;
  CompleteNodes : string;
  PackageList : string
}.

Record NodeWright := {
  nw_Name : string;
  nw_UID : string;
  nw_Generation : Z;
  nw_CreationTimestamp : Z;
  nw_DeletionTimestamp : option Z;
  nw_Finalizers : list string;
  nw_Annotations : gmap string string;
  Spec : NodeWrightSpec;
  nw_Status : NodeWrightStatus
}.


(** Assignments to the fields. *)
Definition set_sp_Packages (v : Packages) (s : NodeWrightSpec) : NodeWrightSpec :=
  {| Serial := Serial s; PodNonInterruptLabels := PodNonInterruptLabels s; NodeSelector :=
     NodeSelector s; sp_DeploymentPolicy := sp_DeploymentPolicy s; DeploymentPolicyOptions :=
     DeploymentPolicyOptions s; sp_InterruptionBudget := sp_InterruptionBudget s; sp_DrainConfig
     := sp_DrainConfig s; sp_Packages := v; AdditionalTolerations := AdditionalTolerations s;
     RuntimeRequired := RuntimeRequired s; RuntimeRequiredCordonAfter :=
     RuntimeRequiredCordonAfter s; AutoTaintNewNodes := AutoTaintNewNodes s; Priority :=
     Priority s; Sequencing := Sequencing s |}.
Definition set_ObservedGeneration (v : Z) (s : NodeWrightStatus) : NodeWrightStatus :=
  {| ObservedGeneration := v; st_NodeState := st_NodeState s; NodeStatus := NodeStatus s;
     st_Status := st_Status s; Conditions := Conditions s; NodeBootIds := NodeBootIds s;
     NodePriority := NodePriority s; NodeOrderOffset := NodeOrderOffset s; ConfigUpdates :=
     ConfigUpdates s; CompartmentStatuses := CompartmentStatuses s; NodesInProgress :=
     NodesInProgress s; CompleteNodes := CompleteNodes s; PackageList := PackageList s |}.
Definition set_st_NodeState (v : option (gmap string (option NodeState))) (s : NodeWrightStatus) : NodeWrightStatus :=
  {| ObservedGeneration := ObservedGeneration s; st_NodeState := v; NodeStatus := NodeStatus s;
     st_Status := st_Status s; Conditions := Conditions s; NodeBootIds := NodeBootIds s;
     NodePriority := NodePriority s; NodeOrderOffset := NodeOrderOffset s; ConfigUpdates :=
     ConfigUpdates s; CompartmentStatuses := CompartmentStatuses s; NodesInProgress :=
     NodesInProgress s; CompleteNodes := CompleteNodes s; PackageList := PackageList s |}.
Definition set_NodeStatus (v : gmap string Status) (s : NodeWrightStatus) : NodeWrightStatus :=
  {| ObservedGeneration := ObservedGeneration s; st_NodeState := st_NodeState s; NodeStatus :=
     v; st_Status := st_Status s; Conditions := Conditions s; NodeBootIds := NodeBootIds s;
     NodePriority := NodePriority s; NodeOrderOffset := NodeOrderOffset s; ConfigUpdates :=
     ConfigUpdates s; CompartmentStatuses := CompartmentStatuses s; NodesInProgress :=
     NodesInProgress s; CompleteNodes := CompleteNodes s; PackageList := PackageList s |}.
Definition set_st_Status (v : Status) (s : NodeWrightStatus) : NodeWrightStatus :=
  {| ObservedGeneration := ObservedGeneration s; st_NodeState := st_NodeState s; NodeStatus :=
     NodeStatus s; st_Status := v; Conditions := Conditions s; NodeBootIds := NodeBootIds s;
     NodePriority := NodePriority s; NodeOrderOffset := NodeOrderOffset s; ConfigUpdates :=
     ConfigUpdates s; CompartmentStatuses := CompartmentStatuses s; NodesInProgress :=
     NodesInProgress s; CompleteNodes := CompleteNodes s; PackageList := PackageList s |}.
Definition set_Conditions (v : list Condition) (s : NodeWrightStatus) : NodeWrightStatus :=
  {| ObservedGeneration := ObservedGeneration s; st_NodeState := st_NodeState s; NodeStatus :=
     NodeStatus s; st_Status := st_Status s; Conditions := v; NodeBootIds := NodeBootIds s;
     NodePriority := NodePriority s; NodeOrderOffset := NodeOrderOffset s; ConfigUpdates :=
     ConfigUpdates s; CompartmentStatuses := CompartmentStatuses s; NodesInProgress :=
     NodesInProgress s; CompleteNodes := CompleteNodes s; PackageList := PackageList s |}.
Definition set_NodeBootIds (v : gmap string string) (s : NodeWrightStatus) : NodeWrightStatus :=
  {| ObservedGeneration := ObservedGeneration s; st_NodeState := st_NodeState s; NodeStatus :=
     NodeStatus s; st_Status := st_Status s; Conditions := Conditions s; NodeBootIds := v;
     NodePriority := NodePriority s; NodeOrderOffset := NodeOrderOffset s; ConfigUpdates :=
     ConfigUpdates s; CompartmentStatuses := CompartmentStatuses s; NodesInProgress :=
     NodesInProgress s; CompleteNodes := CompleteNodes s; PackageList := PackageList s |}.
Definition set_NodePriority (v : gmap string Z) (s : NodeWrightStatus) : NodeWrightStatus :=
  {| ObservedGeneration := ObservedGeneration s; st_NodeState := st_NodeState s; NodeStatus :=
     NodeStatus s; st_Status := st_Status s; Conditions := Conditions s; NodeBootIds :=
     NodeBootIds s; NodePriority := v; NodeOrderOffset := NodeOrderOffset s; ConfigUpdates :=
     ConfigUpdates s; CompartmentStatuses := CompartmentStatuses s; NodesInProgress :=
     NodesInProgress s; CompleteNodes := CompleteNodes s; PackageList := PackageList s |}.
Definition set_NodeOrderOffset (v : Z) (s : NodeWrightStatus) : NodeWrightStatus :=
  {| ObservedGeneration := ObservedGeneration s; st_NodeState := st_NodeState s; NodeStatus :=
     NodeStatus s; st_Status := st_Status s; Conditions := Conditions s; NodeBootIds :=
     NodeBootIds s; NodePriority := NodePriority s; NodeOrderOffset := v; ConfigUpdates :=
     ConfigUpdates s; CompartmentStatuses := CompartmentStatuses s; NodesInProgress :=
     NodesInProgress s; CompleteNodes := CompleteNodes s; PackageList := PackageList s |}.
Definition set_ConfigUpdates (v : gmap string (list string)) (s : NodeWrightStatus) : NodeWrightStatus :=
  {| ObservedGeneration := ObservedGeneration s; st_NodeState := st_NodeState s; NodeStatus :=
     NodeStatus s; st_Status := st_Status s; Conditions := Conditions s; NodeBootIds :=
     NodeBootIds s; NodePriority := NodePriority s; NodeOrderOffset := NodeOrderOffset s;
     ConfigUpdates := v; CompartmentStatuses := CompartmentStatuses s; NodesInProgress :=
     NodesInProgress s; CompleteNodes := CompleteNodes s; PackageList := PackageList s |}.
Definition set_CompartmentStatuses (v : gmap string CompartmentStatus) (s : NodeWrightStatus) : NodeWrightStatus :=
  {| ObservedGeneration := ObservedGeneration s; st_NodeState := st_NodeState s; NodeStatus :=
     NodeStatus s; st_Status := st_Status s; Conditions := Conditions s; NodeBootIds :=
     NodeBootIds s; NodePriority := NodePriority s; NodeOrderOffset := NodeOrderOffset s;
     ConfigUpdates := ConfigUpdates s; CompartmentStatuses := v; NodesInProgress :=
     NodesInProgress s; CompleteNodes := CompleteNodes s; PackageList := PackageList s |}.
Definition set_NodesInProgress (v : Z) (s : NodeWrightStatus) : NodeWrightStatus :=
  {| ObservedGeneration := ObservedGeneration s; st_NodeState := st_NodeState s; NodeStatus :=
     NodeStatus s; st_Status := st_Status s; Conditions := Conditions s; NodeBootIds :=
     NodeBootIds s; NodePriority := NodePriority s; NodeOrderOffset := NodeOrderOffset s;
     ConfigUpdates := ConfigUpdates s; CompartmentStatuses := CompartmentStatuses s;
     NodesInProgress := v; CompleteNodes := CompleteNodes s; PackageList := PackageList s |}.
Definition set_CompleteNodes (v : string) (s : NodeWrightStatus) : NodeWrightStatus :=
  {| ObservedGeneration := ObservedGeneration s; st_NodeState := st_NodeState s; NodeStatus :=
     NodeStatus s; st_Status := st_Status s; Conditions := Conditions s; NodeBootIds :=
     NodeBootIds s; NodePriority := NodePriority s; NodeOrderOffset := NodeOrderOffset s;
     ConfigUpdates := ConfigUpdates s; CompartmentStatuses := CompartmentStatuses s;
     NodesInProgress := NodesInProgress s; CompleteNodes := v; PackageList := PackageList s |}.
Definition set_PackageList (v : string) (s : NodeWrightStatus) : NodeWrightStatus :=
  {| ObservedGeneration := ObservedGeneration s; st_NodeState := st_NodeState s; NodeStatus :=
     NodeStatus s; st_Status := st_Status s; Conditions := Conditions s; NodeBootIds :=
     NodeBootIds s; NodePriority := NodePriority s; NodeOrderOffset := NodeOrderOffset s;
     ConfigUpdates := ConfigUpdates s; CompartmentStatuses := CompartmentStatuses s;
     NodesInProgress := NodesInProgress s; CompleteNodes := CompleteNodes s; PackageList := v
     |}.
Definition set_nw_Finalizers (v : list string) (s : NodeWright) : NodeWright :=
  {| nw_Name := nw_Name s; nw_UID := nw_UID s; nw_Generation := nw_Generation s;
     nw_CreationTimestamp := nw_CreationTimestamp s; nw_DeletionTimestamp :=
     nw_DeletionTimestamp s; nw_Finalizers := v; nw_Annotations := nw_Annotations s; Spec :=
     Spec s; nw_Status := nw_Status s |}.
Definition set_nw_Annotations (v : gmap string string) (s : NodeWright) : NodeWright :=
  {| nw_Name := nw_Name s; nw_UID := nw_UID s; nw_Generation := nw_Generation s;
     nw_CreationTimestamp := nw_CreationTimestamp s; nw_DeletionTimestamp :=
     nw_DeletionTimestamp s; nw_Finalizers := nw_Finalizers s; nw_Annotations := v; Spec := Spec
     s; nw_Status := nw_Status s |}.
Definition set_Spec (v : NodeWrightSpec) (s : NodeWright) : NodeWright :=
  {| nw_Name := nw_Name s; nw_UID := nw_UID s; nw_Generation := nw_Generation s;
     nw_CreationTimestamp := nw_CreationTimestamp s; nw_DeletionTimestamp :=
     nw_DeletionTimestamp s; nw_Finalizers := nw_Finalizers s; nw_Annotations := nw_Annotations
     s; Spec := v; nw_Status := nw_Status s |}.
Definition set_nw_Status (v : NodeWrightStatus) (s : NodeWright) : NodeWright :=
  {| nw_Name := nw_Name s; nw_UID := nw_UID s; nw_Generation := nw_Generation s;
     nw_CreationTimestamp := nw_CreationTimestamp s; nw_DeletionTimestamp :=
     nw_DeletionTimestamp s; nw_Finalizers := nw_Finalizers s; nw_Annotations := nw_Annotations
     s; Spec := Spec s; nw_Status := v |}.

(* ------------------------------------------------------------------ *)
(** ** Functions on the resource *)

Definition METADATA_PREFIX : string := "nodewright.nvidia.com".

Definition IsPerNodeSequencing (spec : NodeWrightSpec) : bool :=
  negb (bool_decide (Sequencing spec = SequencingAll)).

Section BuildGraph.
Context `{MR : MapRange}.

(** The dependencies of one package, as unique names. *)
Fixpoint package_deps (dependsOn : list (string * string)) : res (list string) :=
  match dependsOn with
  | [] => Ok []
  | (dep, ver) :: rest =>
      if bool_decide (ver = "") then Err (errorf "DependsOn version is empty for [%s]" [dep])
      else rbind (package_deps rest) (fun deps => Ok (unique_name dep ver :: deps))
  end.

Definition add_package (g : dag Package) (kp : string * Package) : res (dag Package) :=
  rbind (package_deps (range (pkg_DependsOn kp.2))) (fun deps =>
  rwrap "error building graph from packages: %w" [] (Add g (pkg_UniqueName kp.2) kp.2 deps)).

Definition BuildGraph (spec : NodeWrightSpec) : res (dag Package) :=
  rfold add_package New (range (sp_Packages spec)).
End BuildGraph.

Definition WasUpdated (s : NodeWright) : bool :=
  (1 <? nw_Generation s)%Z && (ObservedGeneration (nw_Status s) <? nw_Generation s)%Z.

Definition annotation_is_true (s : NodeWright) (key : string) : bool :=
  match nw_Annotations s !! key with Some val => bool_decide (val = "true") | None => false end.

Definition IsPaused (s : NodeWright) : bool := annotation_is_true s (METADATA_PREFIX +:+ "/pause").
Definition IsDisabled (s : NodeWright) : bool := annotation_is_true s (METADATA_PREFIX +:+ "/disable").

Definition ShouldResetBatchStateOnCompletion (s : NodeWright) (policy : option DeploymentPolicy) : bool :=
  match mjoin (DeploymentPolicyOptions (Spec s)) with
  | Some b => b
  | None => match policy ≫= dp_ResetBatchStateOnCompletion with Some b => b | None => false end
  end.

(** The batch state of a compartment before its first batch. *)
Definition fresh_BatchState : BatchProcessingState :=
  {| CurrentBatch := 1; ConsecutiveFailures := 0; CompletedNodes := 0; FailedNodes := 0;
     ShouldStop := false; LastBatchSize := 0; LastBatchFailed := false |}.

Definition set_cs_BatchState (b : option BatchProcessingState) (cs : CompartmentStatus) : CompartmentStatus :=
  {| cs_Matched := cs_Matched cs; cs_Ceiling := cs_Ceiling cs; cs_InProgress := cs_InProgress cs;
     cs_Completed := cs_Completed cs; cs_ProgressPercent := cs_ProgressPercent cs; cs_BatchState := b |}.

Definition ResetCompartmentBatchStates (s : NodeWright) : NodeWright * bool :=
  if bool_decide (CompartmentStatuses (nw_Status s) = ∅) then (s, false)
  else
    (set_nw_Status (set_CompartmentStatuses
       (set_cs_BatchState (Some fresh_BatchState) <$> CompartmentStatuses (nw_Status s)) (nw_Status s)) s, true).


(* ------------------------------------------------------------------ *)
(** ** Lemmas: the dependency graph of the specification *)

Section GraphLemmas.
Context `{MR : MapRange}.

Lemma package_deps_ok l deps : package_deps l = Ok deps ->
  forall p, p ∈ deps <-> exists dep ver, (dep, ver) ∈ l /\ p = unique_name dep ver.
Proof.
  revert deps; induction l as [|[dep ver] l IH]; intros deps; simpl.
  - intros [= <-] p. setoid_rewrite elem_of_nil. naive_solver.
  - case_bool_decide; [done|]. intros (ds & Hds & [= <-])%rbind_ok p.
    rewrite elem_of_cons, (IH _ Hds). setoid_rewrite elem_of_cons. naive_solver.
Qed.

(** The unique names a package depends on. *)
Definition depends_on (pkg : Package) (p : string) : Prop :=
  exists dep ver, pkg_DependsOn pkg !! dep = Some ver /\ p = unique_name dep ver.

(** The graph holds exactly the packages of the list. *)
Record graph_of (l : list (string * Package)) (g : dag Package) : Prop := {
  go_wf : wf g;
  go_vertex n v : vertices g !! n = Some v -> exists k pkg, (k, pkg) ∈ l /\
    pkg_UniqueName pkg = n /\ object v = Some pkg /\ (forall p, p ∈ parents v <-> depends_on pkg p);
  go_package k pkg : (k, pkg) ∈ l -> exists v, vertices g !! pkg_UniqueName pkg = Some v /\
    object v = Some pkg /\ (forall p, p ∈ parents v <-> depends_on pkg p)
}.

Lemma add_package_graph l g kp g' :
  graph_of l g -> add_package g kp = Ok g' -> graph_of (kp :: l) g'.
Proof.
  intros [Hwf Hv Hp]. destruct kp as [k pkg]. unfold add_package; simpl.
  intros (deps & Hdeps & HA)%rbind_ok. apply rwrap_ok in HA.
  pose proof (Add_lookup _ _ _ _ _ HA) as HL.
  assert (Hd : forall p, p ∈ deps <-> depends_on pkg p).
  { intros p. rewrite (package_deps_ok _ _ Hdeps). unfold depends_on. by setoid_rewrite elem_of_range. }
  split; [by eapply wf_Add| |].
  - intros n v Hn. specialize (HL n). rewrite Hn in HL. case_decide as En.
    + destruct HL as [HLp HLo]. exists k, pkg. rewrite HLp. split_and!; [by left|done..].
    + destruct HL as (w & Hw & Hsp & _ & Hso). destruct (Hv _ _ Hw) as (k' & pkg' & Hin & Hu & Ho & Hpar).
      exists k', pkg'. rewrite Hso, Hsp. split_and!; [by right|done..].
  - intros k' pkg' [[= -> ->]|Hin]%elem_of_cons.
    + specialize (HL (pkg_UniqueName pkg)). destruct (vertices g' !! _) as [v|]; [|naive_solver].
      rewrite decide_True in HL by done. destruct HL as [<- ?]. eauto.
    + destruct (Hp _ _ Hin) as (w & Hw & Hobj & Hpar). specialize (HL (pkg_UniqueName pkg')).
      destruct (vertices g' !! _) as [v|]; [|destruct HL; congruence].
      case_decide as En; [|destruct HL as (w' & Hw' & Hsp & _ & Hso); simplify_eq; exists v; by rewrite Hsp, Hso].
      unfold Add in HA. rewrite <- En, Hw in HA. done.
Qed.

Lemma BuildGraph_graph spec g : BuildGraph spec = Ok g ->
  exists l, graph_of l g /\ forall k pkg, (k, pkg) ∈ l <-> sp_Packages spec !! k = Some pkg.
Proof.
  unfold BuildGraph. intros H.
  assert (HG : forall l2 l1 g0, graph_of l1 g0 -> rfold add_package g0 l2 = Ok g -> graph_of (rev l2 ++ l1) g).
  { induction l2 as [|kp l2 IH]; simpl; [by intros ? ? ? [= <-]|].
    intros l1 g0 Hg (g1 & H1 & H2)%rbind_ok. rewrite <- app_assoc. simpl.
    eapply IH; [|done]. by eapply add_package_graph. }
  exists (rev (range (sp_Packages spec)) ++ []). split.
  - apply (HG _ [] New); [|done]. split; [apply wf_New| |].
    + intros n v Hn. unfold New in Hn; simpl in Hn. by simplify_map_eq.
    + intros k pkg Hin. by apply elem_of_nil in Hin.
  - intros k pkg. rewrite app_nil_r, <- elem_of_range. rewrite !list_elem_of_In. by rewrite <- in_rev.
Qed.
End GraphLemmas.

(* ------------------------------------------------------------------ *)
(** ** Lemmas: image references *)

Fixpoint has_char (c : ascii) (s : string) : bool :=
  match s with EmptyString => false | String a s => bool_decide (a = c) || has_char c s end.

Lemma cut_last_None c s : cut_last c s = None <-> has_char c s = false.
Proof.
  induction s as [|x s IH]; simpl; [done|].
  destruct (cut_last c s) as [[b a]|].
  - split; [done|]. intros [_ H]%orb_false_iff. by apply IH in H.
  - case_bool_decide; simpl; [done|]. naive_solver.
Qed.

Lemma cut_last_join c s b a : cut_last c s = Some (b, a) -> s = b +:+ String c a.
Proof.
  revert b a; induction s as [|x s IH]; intros b a; simpl; [done|].
  destruct (cut_last c s) as [[b' a']|].
  - intros [= <- <-]. by rewrite append_cons, (IH b' a').
  - case_bool_decide; [|done]. by intros [= <- <-]; subst.
Qed.

Lemma cut_last_app c b a : has_char c a = false -> cut_last c (b +:+ String c a) = Some (b, a).
Proof.
  intros Ha. induction b as [|x b IH]; rewrite ?append_cons, ?append_nil_l; simpl.
  - rewrite (proj2 (cut_last_None c a) Ha). by rewrite bool_decide_eq_true_2.
  - by rewrite IH.
Qed.

Lemma cut_last_suffix c s t : has_char c t = false ->
  cut_last c (s +:+ t) = match cut_last c s with Some (b, a) => Some (b, a +:+ t) | None => None end.
Proof.
  intros Ht. induction s as [|x s IH]; rewrite ?append_cons, ?append_nil_l; simpl; [by apply cut_last_None|].
  rewrite IH. destruct (cut_last c s) as [[b a]|]; [done|]. by case_bool_decide.
Qed.

Lemma last_index_suffix c s t : has_char c t = false -> last_index c (s +:+ t) = last_index c s.
Proof. intros Ht. unfold last_index. rewrite cut_last_suffix by done. by destruct (cut_last c s) as [[]|]. Qed.

Lemma last_index_lt c s : (last_index c s < Z.of_nat (String.length s))%Z.
Proof.
  unfold last_index. destruct (cut_last c s) as [[b a]|] eqn:E; [|lia].
  apply cut_last_join in E as ->. rewrite length_append. simpl. lia.
Qed.

Lemma last_index_app c b a : has_char c a = false ->
  last_index c (b +:+ String c a) = Z.of_nat (String.length b).
Proof. intros Ha. unfold last_index. by rewrite cut_last_app. Qed.

Lemma has_char_app c s t : has_char c (s +:+ t) = has_char c s || has_char c t.
Proof. induction s as [|x s IH]; rewrite ?append_cons, ?append_nil_l; simpl; [done|]. by rewrite IH, orb_assoc. Qed.

(** The text of a reference. *)
Definition with_part (c : ascii) (part : option string) : string :=
  match part with Some p => String c p | None => "" end.

Definition image_reference (r : string * option string * option string) : string :=
  let '(repository, tag, digest) := r in
  repository +:+ with_part ":" tag +:+ with_part "@" digest.

Definition part_free (cs : list ascii) (part : option string) : Prop :=
  forall p c, part = Some p -> c ∈ cs -> has_char c p = false.

(** A repository, tag and digest as the reference grammar has them: no [@] before
    the digest, no [:] or [/] in the tag, a port only before the last [/]. *)
Definition reference_ok (repository : string) (tag digest : option string) : Prop :=
  has_char "@" repository = false /\
  (last_index ":" repository <= last_index "/" repository)%Z /\
  part_free ["@"; ":"; "/"]%char tag /\ part_free ["@"]%char digest.

Lemma split_digest repository tag digest :
  has_char "@" repository = false -> part_free ["@"; ":"; "/"]%char tag -> part_free ["@"]%char digest ->
  cut_last "@" (image_reference (repository, tag, digest)) =
    match digest with Some d => Some (repository +:+ with_part ":" tag, d) | None => None end.
Proof.
  intros Hr Ht Hd. unfold image_reference.
  assert (Ha : has_char "@" (repository +:+ with_part ":" tag) = false).
  { rewrite has_char_app, Hr. destruct tag as [t|]; [|done]. simpl. apply (Ht t "@"%char); [done|by left]. }
  rewrite <- append_assoc. destruct digest as [d|]; simpl.
  - apply cut_last_app, (Hd d); [done|by left].
  - rewrite append_nil_r. by apply cut_last_None.
Qed.

(* ------------------------------------------------------------------ *)
(** ** Properties *)

(** The graph built from a specification offers a package exactly when it is
    not completed and each of its dependencies, by name and version, is; and
    it offers anything at all only when every dependency is a package of the
    specification. *)
Theorem BuildGraph_Next `{MR : MapRange} spec g completed l :
  BuildGraph spec = Ok g -> Next g completed = Ok l ->
  (forall n, n ∈ l <-> n ∉ completed /\ exists k pkg, sp_Packages spec !! k = Some pkg /\
     pkg_UniqueName pkg = n /\ forall p, depends_on pkg p -> p ∈ completed) /\
  (forall k pkg p, sp_Packages spec !! k = Some pkg -> depends_on pkg p ->
     exists k' pkg', sp_Packages spec !! k' = Some pkg' /\ pkg_UniqueName pkg' = p).
Proof.
  intros HB HN. destruct (BuildGraph_graph _ _ HB) as (ps & [Hwf Hv Hp] & Hps).
  assert (HV : Valid g = Ok tt).
  { unfold Next in HN. by destruct (Valid g) as [[]| |]. }
  split.
  - intros n. rewrite (Next_elem _ _ _ Hwf HN). split.
    + intros (Hn & v & Hgv & Hall). split; [done|].
      destruct (Hv _ _ Hgv) as (k & pkg & Hin%Hps & Hu & _ & Hpar).
      exists k, pkg. split_and!; [done..|]. intros p Hd. by apply Hall, Hpar.
    + intros (Hn & k & pkg & Hk%Hps & <- & Hall). split; [done|].
      destruct (Hp _ _ Hk) as (v & Hgv & _ & Hpar). exists v. split; [done|].
      intros p Hd. by apply Hall, Hpar.
  - intros k pkg p Hk%Hps Hd. destruct (Hp _ _ Hk) as (v & Hgv & _ & Hpar).
    apply Hpar in Hd. destruct (proj1 (Valid_wf g Hwf) HV _ _ _ Hgv Hd) as [w Hw].
    destruct (Hv _ _ Hw) as (k' & pkg' & Hin%Hps & Hu & _). eauto.
Qed.

(** Splitting an image reference loses nothing: the parts put together again
    are the reference; and the parts of a well formed reference are found
    whether or not it has a port, a tag or a digest. *)
Theorem splitImageReference_roundtrip :
  (forall image, image_reference (splitImageReference image) = image) /\
  (forall repository tag digest, reference_ok repository tag digest ->
     splitImageReference (image_reference (repository, tag, digest)) = (repository, tag, digest)).
Proof.
  split.
  - intros image. unfold splitImageReference, image_reference.
    assert (H : exists r d, image = r +:+ with_part "@" d /\
      match cut_last "@" image with Some (r, d) => (r, Some d) | None => (image, None) end = (r, d)).
    { destruct (cut_last "@" image) as [[r d]|] eqn:E.
      - exists r, (Some d). by apply cut_last_join in E.
      - exists image, None. simpl. by rewrite append_nil_r. }
    destruct H as (r & d & Himage & ->).
    case_if; [|done]. destruct (cut_last ":" r) as [[r' t]|] eqn:E'; [|done].
    apply cut_last_join in E'. rewrite Himage, E'. simpl. by rewrite !append_assoc.
  - intros repository tag digest (Hr & Hl & Ht & Hd). unfold splitImageReference.
    rewrite (split_digest _ _ _ Hr Ht Hd).
    assert (H : match match digest with Some d => Some (repository +:+ with_part ":" tag, d) | None => None end with
                | Some (r, d) => (r, Some d)
                | None => (image_reference (repository, tag, digest), None)
                end = (repository +:+ with_part ":" tag, digest)).
    { destruct digest; [done|]. unfold image_reference. simpl. by rewrite append_nil_r. }
    rewrite H. destruct tag as [t|]; simpl.
    + assert (Hc : forall c, c ∈ ["@"; ":"; "/"]%char -> has_char c t = false) by (intros; by eapply Ht).
      rewrite (last_index_suffix "/"); [|simpl; apply Hc; set_solver].
      rewrite last_index_app, cut_last_app by (apply Hc; set_solver).
      pose proof (last_index_lt "/" repository). case_if; bool_simpl; [done|lia].
    + rewrite append_nil_r. case_if; bool_simpl; [lia|done].
Qed.

(* ------------------------------------------------------------------ *)
(** ** Witnesses *)

Definition plain_package (name version : string) (deps : gmap string string) : Package :=
  {| pkg_Ref := {| ref_Name := name; ref_Version := version |}; pkg_Image := "img"; pkg_ContainerSHA := "";
     pkg_AgentImageOverride := ""; pkg_Interrupt := None; pkg_DependsOn := deps; pkg_ConfigInterrupts := ∅;
     pkg_ConfigMap := ∅; pkg_Env := []; pkg_Resources := None; pkg_GracefulShutdown := None;
     pkg_StageTimeout := None; pkg_Uninstall := None |}.

Definition empty_selector : LabelSelector := {| MatchLabels := None; MatchExpressions := None |}.

Definition plain_spec (packages : Packages) : NodeWrightSpec :=
  {| Serial := false; PodNonInterruptLabels := empty_selector; NodeSelector := empty_selector;
     sp_DeploymentPolicy := ""; DeploymentPolicyOptions := None;
     sp_InterruptionBudget := {| ib_Percent := None; ib_Count := None |}; sp_DrainConfig := None;
     sp_Packages := packages; AdditionalTolerations := []; RuntimeRequired := false;
     RuntimeRequiredCordonAfter := false; AutoTaintNewNodes := false; Priority := 200;
     Sequencing := SequencingNode |}.

Definition two_packages : Packages :=
  <["tuning" := plain_package "tuning" "1.0.0" {["base" := "2.0.0"]}]>
    {["base" := plain_package "base" "2.0.0" ∅]}.

Lemma BuildGraph_Next_witness : exists g,
  BuildGraph (plain_spec two_packages) = Ok g /\ Next g ["base|2.0.0"] = Ok ["tuning|1.0.0"] /\
  "base|2.0.0" ∉ ["tuning|1.0.0"].
Proof.
  destruct (BuildGraph (plain_spec two_packages)) as [g| |] eqn:E; try (by vm_compute in E).
  assert (HN : Next g ["base|2.0.0"] = Ok ["tuning|1.0.0"]).
  { vm_compute in E. injection E as <-. reflexivity. }
  exists g. split_and!; [done|done|].
  intros Hin. by apply (proj1 (BuildGraph_Next _ _ _ _ E HN)) in Hin as [[] _]; left.
Defined.
