(* ===== verification/NodeState.v ===== *)
(** * The package state of a node

    Models the methods of [NodeState] in
    [operator/api/nodewright/v1alpha1/nodewright_types.go]: the record, per
    package and version, of how far a node has got.  The source's nil map is the
    empty map: every method treats them alike. *)

From S2P Require Import Prelude Graph DeploymentPolicy Api.

Section NodeState.
Context `{MR : MapRange}.
Implicit Types (ns : NodeState) (packages : Packages)
  (interrupt : gmap string (list Interrupt)) (config : gmap string (list string)).

Definition Upsert ns (p : PackageRef) (image : string) (state : State) (stage : Stage)
    (restarts : Z) (containerSHA : string) : NodeState * bool :=
  let status :=
    {| ps_Name := ref_Name p; ps_Version := ref_Version p; ps_Image := image;
       ps_ContainerSHA := containerSHA; ps_Stage := stage; ps_State := state; ps_Restarts := restarts |} in
  let write := (<[GetUniqueName p := status]> ns, true) in
  match ns !! GetUniqueName p with
  | Some existing => if PackageStatus_Equal status existing then (ns, false) else write
  | None => write
  end.

Definition RemoveState ns (p : PackageRef) : NodeState * bool :=
  match ns !! GetUniqueName p with
  | Some _ => (delete (GetUniqueName p) ns, true)
  | None => (ns, false)
  end.

Definition IsUninstallCycleInProgress ns (uniqueName : string) : bool :=
  match ns !! uniqueName with
  | Some status =>
      bool_decide (ps_Stage status = StageUninstall) || bool_decide (ps_Stage status = StageUninstallInterrupt)
  | None => false
  end.

Definition IsUninstalled ns (uniqueName : string) : bool :=
  match ns !! uniqueName with Some _ => false | None => true end.

Definition ns_Get ns (name : string) : option PackageStatus := ns !! name.

(** Reading a nil or missing slice of a map gives the empty slice. *)
Definition slice_of {A} (m : gmap string (list A)) (k : string) : list A := default [] (m !! k).

Definition ns_HasInterrupt (p : Package) interrupt config : bool :=
  if (0 <? zlen (slice_of config (pkg_Name p)))%Z
  then (0 <? zlen (slice_of interrupt (pkg_Name p)))%Z
  else pkg_HasInterrupt p.

(** The two stage tables of [NextStage]. *)
Definition next_stage_without_interrupt (s : Stage) : option Stage :=
  match s with
  | StageUninstall => Some StageApply
  | StageApply => Some StageConfig
  | StageUpgrade => Some StageConfig
  | StageInterrupt => Some StagePostInterrupt
  | _ => None
  end.

Definition next_stage_with_interrupt (s : Stage) : option Stage :=
  match s with
  | StageUpgrade => Some StageConfig
  | StageApply => Some StageConfig
  | StageConfig => Some StageInterrupt
  | StageInterrupt => Some StagePostInterrupt
  | _ => None
  end.

Definition NextStage ns (p : Package) interrupt config : option Stage :=
  match ns !! pkg_UniqueName p with
  | None => None
  | Some state =>
      if negb (bool_decide (ps_State state = StateComplete)) then None
      else if ns_HasInterrupt p interrupt config
      then next_stage_with_interrupt (ps_Stage state)
      else next_stage_without_interrupt (ps_Stage state)
  end.

(** [len(m)] *)
Definition mlen {V} (m : gmap string V) : Z := Z.of_nat (size m).

Definition contains_package ns (kp : string * Package) : bool :=
  match ns !! pkg_UniqueName kp.2 with
  | Some v2 => bool_decide (ps_Version v2 = pkg_Version kp.2)
  | None => false
  end.

Definition Contains ns packages : bool :=
  if (mlen ns <? mlen packages)%Z then false else all (contains_package ns) (range packages).

Definition IsPackageComplete ns (p : Package) interrupt config : bool :=
  match ns !! pkg_UniqueName p with
  | None => false
  | Some st =>
      if negb (bool_decide (pkg_Version p = ps_Version st)) || negb (bool_decide (ps_State st = StateComplete))
      then false
      else if bool_decide (ps_Stage st = StagePostInterrupt) then true
      else bool_decide (ps_Stage st = StageConfig) && negb (ns_HasInterrupt p interrupt config)
  end.

Definition GetComplete ns packages interrupt config : list string :=
  sort_strings (map (fun kp => pkg_UniqueName kp.2)
    (List.filter (fun kp => IsPackageComplete ns kp.2 interrupt config) (range packages))).

(** Packages that still count: an uninstall that has completed does not. *)
Definition is_active ns (kp : string * Package) : bool :=
  negb (IsUninstalling (Some kp.2) && IsUninstalled ns (pkg_UniqueName kp.2)).

Definition add_active ns (active : Packages) (kp : string * Package) : Packages :=
  if is_active ns kp then <[kp.1 := kp.2]> active else active.

Definition activePackages ns packages : Packages := foldl (add_active ns) ∅ (range packages).

Definition ns_IsComplete ns packages interrupt config : bool :=
  let active := activePackages ns packages in
  if (mlen active <=? zlen (GetComplete ns active interrupt config))%Z then
    if any (fun kp => IsUninstallCycleInProgress ns (pkg_UniqueName kp.2)) (range active)
    then false
    else Contains ns active
  else false.

(** One iteration of the loop of [ProgressSkipped] over the map it writes to: the
    entry is read when the iteration reaches it. *)
Definition set_ps_State (st : State) (s : PackageStatus) : PackageStatus :=
  {| ps_Name := ps_Name s; ps_Version := ps_Version s; ps_Image := ps_Image s;
     ps_ContainerSHA := ps_ContainerSHA s; ps_Stage := ps_Stage s; ps_State := st;
     ps_Restarts := ps_Restarts s |}.

Definition progress_one packages (acc : NodeState * bool) (key : string) : NodeState * bool :=
  let '(ns, ret) := acc in
  match ns !! key with
  | None => acc
  | Some s =>
      match packages !! ps_Name s with
      | None => acc
      | Some f =>
          if bool_decide (ps_Stage s = StageInterrupt) && bool_decide (ps_State s = StateSkipped)
          then (<[pkg_UniqueName f := set_ps_State StateComplete s]> ns, true)
          else acc
      end
  end.

Definition ProgressSkipped ns packages : NodeState * bool :=
  foldl (progress_one packages) (ns, false) (range ns).*1.

(* ------------------------------------------------------------------ *)
(** ** Lemmas: completion *)

Lemma PackageStatus_Equal_spec s t : PackageStatus_Equal s t = true <-> s = t.
Proof.
  unfold PackageStatus_Equal. destruct s, t; simpl. split.
  - intros H. bool_simpl. congruence.
  - intros [= -> -> -> -> -> -> ->]. by rewrite !bool_decide_eq_true_2, Z.eqb_refl.
Qed.

Lemma activePackages_fold ns k p l (m : Packages) :
  NoDup l.*1 -> (forall k', k' ∈ l.*1 -> m !! k' = None) ->
  foldl (add_active ns) m l !! k = Some p <-> m !! k = Some p \/ ((k, p) ∈ l /\ is_active ns (k, p) = true).
Proof.
  revert m; induction l as [|[k1 p1] l IH]; intros m; simpl.
  { rewrite elem_of_nil. naive_solver. }
  intros [Hk1 Hnd]%NoDup_cons Hm.
  assert (Hfresh : forall k', k' ∈ l.*1 -> add_active ns m (k1, p1) !! k' = None).
  { intros k' Hk'. specialize (Hm k' ltac:(by right)). unfold add_active. case_if; [|done]. simpl.
    rewrite lookup_insert_ne; [done|]. by intros ->. }
  rewrite (IH _ Hnd Hfresh), elem_of_cons. clear IH Hfresh.
  specialize (Hm k1 ltac:(by left)). unfold add_active. case_if; simpl.
  - rewrite lookup_insert_Some. destruct (decide (k1 = k)) as [->|Hne].
    + split; [intros [[[_ <-]|[? _]]|[? ?]]; by auto|].
      intros [?|[[[= ->]|Hin] _]]; [congruence|by auto|].
      destruct Hk1. apply list_elem_of_fmap. by exists (k, p).
    + split; [intros [[[? _]|[_ ?]]|[? ?]]; by auto|].
      intros [?|[[[= -> ->]|Hin] ?]]; by auto.
  - split; [intros [?|[? ?]]; by auto|]. intros [?|[[[= -> ->]|Hin] ?]]; [by auto|congruence|by auto].
Qed.

Lemma activePackages_spec ns packages k p :
  activePackages ns packages !! k = Some p <-> packages !! k = Some p /\ is_active ns (k, p) = true.
Proof.
  unfold activePackages.
  rewrite (activePackages_fold ns k p _ ∅); [|apply NoDup_range|by intros; rewrite lookup_empty].
  rewrite lookup_empty, elem_of_range. naive_solver.
Qed.

Lemma IsPackageComplete_present ns p interrupt config : IsPackageComplete ns p interrupt config = true ->
  exists st, ns !! pkg_UniqueName p = Some st /\ ps_Version st = pkg_Version p /\ ps_State st = StateComplete /\
    (ps_Stage st = StagePostInterrupt \/ ps_Stage st = StageConfig /\ ns_HasInterrupt p interrupt config = false).
Proof.
  unfold IsPackageComplete. destruct (ns !! pkg_UniqueName p) as [st|]; [|done].
  case_if; [done|]. bool_simpl. case_bool_decide; intros HH; bool_simpl; exists st; naive_solver.
Qed.

(** Enough packages are complete exactly when all are. *)
Lemma GetComplete_all ns active interrupt config :
  (mlen active <=? zlen (GetComplete ns active interrupt config))%Z = true <->
  forall k p, active !! k = Some p -> IsPackageComplete ns p interrupt config = true.
Proof.
  set (f := fun kp : string * Package => IsPackageComplete ns kp.2 interrupt config).
  assert (E : zlen (GetComplete ns active interrupt config) = count f (range active)).
  { unfold zlen, count, GetComplete. rewrite sort_strings_Permutation, length_map. done. }
  assert (E2 : mlen active = zlen (range active)) by (unfold mlen, zlen; by rewrite length_range).
  rewrite E, E2, Z.leb_le. pose proof (count_le f (range active)).
  transitivity (count f (range active) = zlen (range active)); [lia|].
  rewrite count_full. split.
  - intros Hc k p Hk. apply (Hc (k, p)). by apply elem_of_range.
  - intros Hc [k p] Hk%elem_of_range. by apply (Hc k).
Qed.

Lemma ns_IsComplete_alt ns packages interrupt config :
  ns_IsComplete ns packages interrupt config = true <->
  (forall k p, packages !! k = Some p -> is_active ns (k, p) = true ->
     IsPackageComplete ns p interrupt config = true) /\
  (mlen (activePackages ns packages) <= mlen ns)%Z.
Proof.
  unfold ns_IsComplete. set (active := activePackages ns packages).
  assert (HA : (forall k p, active !! k = Some p -> IsPackageComplete ns p interrupt config = true) <->
    (forall k p, packages !! k = Some p -> is_active ns (k, p) = true -> IsPackageComplete ns p interrupt config = true)).
  { unfold active. setoid_rewrite activePackages_spec. naive_solver. }
  rewrite <- HA, <- (GetComplete_all ns active). clear HA. case_if; [|naive_solver].
  rewrite GetComplete_all in E. destruct (any _ _) eqn:Ea.
  - apply any_true in Ea as ([k p] & Hk%elem_of_range & Hu). simpl in Hu.
    destruct (IsPackageComplete_present _ _ _ _ (E _ _ Hk)) as (st & Hst & _ & _ & Hstage).
    unfold IsUninstallCycleInProgress in Hu. rewrite Hst in Hu.
    destruct Hstage as [Hs|[Hs _]]; rewrite Hs in Hu; done.
  - unfold Contains. case_if; bool_simpl; [split; [done|lia]|].
    split; [done|]. intros _. apply all_true. intros [k p] Hk%elem_of_range.
    destruct (IsPackageComplete_present _ _ _ _ (E _ _ Hk)) as (st & Hst & Hv & _).
    unfold contains_package. simpl. rewrite Hst. by apply bool_decide_eq_true_2.
Qed.

(** Distinct packages have distinct unique names, so a state that has them all is
    at least as large. *)
Lemma active_fits ns packages interrupt config :
  (forall k k' p p', packages !! k = Some p -> packages !! k' = Some p' ->
     pkg_UniqueName p = pkg_UniqueName p' -> k = k') ->
  (forall k p, packages !! k = Some p -> is_active ns (k, p) = true ->
     IsPackageComplete ns p interrupt config = true) ->
  (mlen (activePackages ns packages) <= mlen ns)%Z.
Proof.
  intros Hinj Hall. unfold mlen. apply inj_le.
  set (active := activePackages ns packages).
  set (names := map (fun kp : string * Package => pkg_UniqueName kp.2) (map_to_list active)).
  assert (Hnd : NoDup names).
  { unfold names. apply NoDup_fmap_2_strong; [|apply NoDup_map_to_list].
    intros [k p] [k' p'] Hk%elem_of_map_to_list Hk'%elem_of_map_to_list; simpl.
    apply activePackages_spec in Hk as [Hk _], Hk' as [Hk' _]. intros E.
    pose proof (Hinj _ _ _ _ Hk Hk' E). subst. by simplify_eq. }
  assert (Hsub : names ⊆ (map_to_list ns).*1).
  { intros n [[k p] [-> Hk%elem_of_map_to_list]]%list_elem_of_fmap. simpl.
    apply activePackages_spec in Hk as [Hk Ha].
    destruct (IsPackageComplete_present _ _ _ _ (Hall _ _ Hk Ha)) as (st & Hst & _).
    apply list_elem_of_fmap. exists (pkg_UniqueName p, st). by rewrite elem_of_map_to_list. }
  pose proof (submseteq_length _ _ (NoDup_submseteq _ _ Hnd Hsub)) as Hl.
  unfold names in Hl. rewrite length_map, length_fmap, !length_map_to_list in Hl. done.
Qed.

(** What a package needs before a node counts as complete. *)
Definition finished ns interrupt config (p : Package) : Prop :=
  IsUninstalling (Some p) = true /\ ns !! pkg_UniqueName p = None \/
  exists st, ns !! pkg_UniqueName p = Some st /\ ps_Version st = pkg_Version p /\ ps_State st = StateComplete /\
    (ps_Stage st = StagePostInterrupt \/ ps_Stage st = StageConfig /\ ns_HasInterrupt p interrupt config = false).

Lemma finished_alt ns interrupt config k p :
  finished ns interrupt config p <->
  (is_active ns (k, p) = true -> IsPackageComplete ns p interrupt config = true).
Proof.
  unfold is_active, IsUninstalled, finished; simpl. split.
  - intros [[-> ->]|(st & Hst & Hv & Hs & Hstage)]; [done|]. intros _.
    unfold IsPackageComplete. rewrite Hst, Hv, Hs, !bool_decide_eq_true_2 by done. simpl.
    destruct Hstage as [->|[-> ->]]; done.
  - intros H. destruct (ns !! pkg_UniqueName p) as [st|] eqn:Hst.
    + right. rewrite andb_false_r in H. specialize (H eq_refl).
      apply IsPackageComplete_present in H. destruct H as (st' & Hst' & H). rewrite Hst in Hst'.
      injection Hst' as <-. by exists st.
    + destruct (IsUninstalling (Some p)); [by left|]. specialize (H eq_refl).
      unfold IsPackageComplete in H. by rewrite Hst in H.
Qed.

(* ------------------------------------------------------------------ *)
(** ** Lemmas: the life of a package *)

(** The interrupts and configuration updates of one reconcile. *)
Definition signals : Type := gmap string (list Interrupt) * gmap string (list string).

(** A package that completed its stage runs the next one and completes it. *)
Definition advance (p : Package) (sig : signals) ns : NodeState :=
  match NextStage ns p sig.1 sig.2 with
  | Some stage => (Upsert ns (pkg_Ref p) (pkg_Image p) StateComplete stage 0 (pkg_ContainerSHA p)).1
  | None => ns
  end.

(** [sig i] is what the [i]-th reconcile sees: it may differ each time. *)
Fixpoint life (p : Package) (sig : nat -> signals) (i : nat) ns : NodeState :=
  match i with O => ns | S i => advance p (sig i) (life p sig i ns) end.

Definition forward (s : Stage) : bool :=
  match s with
  | StageUpgrade | StageApply | StageConfig | StageInterrupt | StagePostInterrupt => true
  | _ => false
  end.

(** The stages a forward stage still has before it. *)
Definition stages_left (s : Stage) : nat :=
  match s with StagePostInterrupt => 0 | StageInterrupt => 1 | StageConfig => 2 | _ => 3 end.

Definition at_stage ns (p : Package) (s : Stage) : Prop :=
  exists st, ns !! pkg_UniqueName p = Some st /\ ps_Version st = pkg_Version p /\
    ps_State st = StateComplete /\ ps_Stage st = s.

Lemma at_stage_progress ns p s sig : at_stage ns p s -> forward s = true ->
  IsPackageComplete ns p sig.1 sig.2 = true /\ NextStage ns p sig.1 sig.2 = None \/
  IsPackageComplete ns p sig.1 sig.2 = false /\
    exists s', NextStage ns p sig.1 sig.2 = Some s' /\ forward s' = true /\ stages_left s' < stages_left s.
Proof.
  intros (st & Hst & Hv & Hs & <-) Hf. unfold IsPackageComplete, NextStage.
  rewrite Hst, Hv, Hs, !bool_decide_eq_true_2 by done. simpl.
  destruct (ns_HasInterrupt p sig.1 sig.2), (ps_Stage st); simpl in *; try done;
    (by left) || (right; split; [done|]; eexists; split_and!; [done|done|simpl; lia]).
Qed.

Lemma Upsert_lookup ns p image state stage restarts sha :
  (Upsert ns p image state stage restarts sha).1 =
  <[GetUniqueName p :=
      {| ps_Name := ref_Name p; ps_Version := ref_Version p; ps_Image := image; ps_ContainerSHA := sha;
         ps_Stage := stage; ps_State := state; ps_Restarts := restarts |}]> ns.
Proof.
  unfold Upsert. destruct (ns !! GetUniqueName p) as [e|] eqn:E; [|done].
  case_if; [|done]. apply PackageStatus_Equal_spec in E0 as ->. simpl. by rewrite insert_id.
Qed.

Lemma advance_at_stage ns p sig s : NextStage ns p sig.1 sig.2 = Some s -> at_stage (advance p sig ns) p s.
Proof.
  intros H. unfold advance, at_stage. rewrite H, Upsert_lookup. eexists. split; [apply lookup_insert_eq|]. done.
Qed.

Lemma life_progress ns p sig s : at_stage ns p s -> forward s = true -> forall i,
  (exists j, (j <= i)%nat /\ IsPackageComplete (life p sig j ns) p (sig j).1 (sig j).2 = true) \/
  (exists s', at_stage (life p sig (S i) ns) p s' /\ forward s' = true /\ stages_left s' + S i <= stages_left s).
Proof.
  intros Hs Hf. induction i as [|i IH].
  - destruct (at_stage_progress ns p s (sig 0) Hs Hf) as [[H _]|(_ & s' & Hn & Hf' & Hl)].
    + left. exists 0. done.
    + right. exists s'. split_and!; [by apply advance_at_stage|done|lia].
  - destruct IH as [(j & Hj & H)|(s1 & Hs1 & Hf1 & Hl1)]; [left; exists j; split; [lia|done]|].
    destruct (at_stage_progress _ p s1 (sig (S i)) Hs1 Hf1) as [[H _]|(_ & s' & Hn & Hf' & Hl)].
    + left. exists (S i). done.
    + right. exists s'. split_and!; [by apply advance_at_stage|done|lia].
Qed.

(* ------------------------------------------------------------------ *)
(** ** Lemmas: skipped interrupts *)

Definition skipped packages (s : PackageStatus) : bool :=
  bool_decide (ps_Stage s = StageInterrupt) && bool_decide (ps_State s = StateSkipped) &&
  bool_decide (is_Some (packages !! ps_Name s)).

Definition promote packages (s : PackageStatus) : PackageStatus :=
  if skipped packages s then set_ps_State StateComplete s else s.

(** The specification has every skipped entry at the version it was skipped at. *)
Definition skipped_current packages ns : Prop := forall k s f,
  ns !! k = Some s -> packages !! ps_Name s = Some f -> skipped packages s = true -> pkg_UniqueName f = k.

#[local] Arguments progress_one : simpl never.

Lemma progress_one_spec packages ns ret key :
  skipped_current packages ns ->
  progress_one packages (ns, ret) key =
    match ns !! key with
    | Some s => if skipped packages s then (<[key := set_ps_State StateComplete s]> ns, true) else (ns, ret)
    | None => (ns, ret)
    end.
Proof.
  intros Hc. unfold progress_one. destruct (ns !! key) as [s|] eqn:Hs; [|done].
  destruct (packages !! ps_Name s) as [f|] eqn:Hf.
  - case_if.
    + assert (Hsk : skipped packages s = true).
      { unfold skipped. rewrite E. simpl. apply bool_decide_eq_true_2. eauto. }
      rewrite Hsk. by rewrite (Hc _ _ _ Hs Hf Hsk).
    + unfold skipped. by rewrite E.
  - assert (skipped packages s = false) as ->; [|done]. unfold skipped. rewrite Hf.
    rewrite (bool_decide_eq_false_2 (is_Some None)); [by rewrite andb_false_r|]. by intros [].
Qed.

Lemma skipped_promoted packages s : skipped packages (set_ps_State StateComplete s) = false.
Proof. unfold skipped. simpl. by rewrite andb_false_r. Qed.

Lemma progress_fold packages keys ns ret : skipped_current packages ns -> NoDup keys ->
  let r := foldl (progress_one packages) (ns, ret) keys in
  (forall k, r.1 !! k = if bool_decide (k ∈ keys) then promote packages <$> ns !! k else ns !! k) /\
  (r.2 = ret || any (fun k => match ns !! k with Some s => skipped packages s | None => false end) keys).
Proof.
  revert ns ret; induction keys as [|key keys IH]; intros ns ret Hc; simpl.
  { intros _. split; [done|by rewrite orb_false_r]. }
  intros [Hnin Hnd]%NoDup_cons. rewrite progress_one_spec by done.
  assert (Hother : forall k, k <> key -> bool_decide (k ∈ key :: keys) = bool_decide (k ∈ keys)).
  { intros k Hk. apply bool_decide_ext. rewrite elem_of_cons. naive_solver. }
  destruct (ns !! key) as [s|] eqn:Hs; simpl; [destruct (skipped packages s) eqn:Hsk|].
  - assert (Hc' : skipped_current packages (<[key := set_ps_State StateComplete s]> ns)).
    { intros k s' f [[<- <-]|[_ Hk]]%lookup_insert_Some Hf Hsk'; [by rewrite skipped_promoted in Hsk'|eauto]. }
    destruct (IH _ true Hc' Hnd) as [H1 H2]. split.
    + intros k. rewrite H1. destruct (decide (k = key)) as [->|Hne].
      * rewrite bool_decide_eq_false_2 by done. rewrite bool_decide_eq_true_2 by by left.
        rewrite lookup_insert_eq, Hs. simpl. unfold promote. by rewrite Hsk.
      * rewrite Hother, lookup_insert_ne by done. done.
    + rewrite H2. by rewrite orb_true_r.
  - destruct (IH ns ret Hc Hnd) as [H1 H2]. split; [|by rewrite H2].
    intros k. rewrite H1. destruct (decide (k = key)) as [->|Hne]; [|by rewrite Hother].
    rewrite bool_decide_eq_false_2 by done. rewrite bool_decide_eq_true_2 by by left.
    rewrite Hs. simpl. unfold promote. by rewrite Hsk.
  - destruct (IH ns ret Hc Hnd) as [H1 H2]. split; [|by rewrite H2].
    intros k. rewrite H1. destruct (decide (k = key)) as [->|Hne]; [|by rewrite Hother].
    rewrite Hs. by case_bool_decide; case_bool_decide.
Qed.

(* ------------------------------------------------------------------ *)
(** ** Properties *)

(** When the packages of a specification have distinct unique names, a node
    is complete exactly when every package is finished: absent after a requested
    uninstall, or recorded at the specified version in state complete at the
    post-interrupt stage, or at the config stage with no interrupt in scope.
    The counting of complete packages and the size comparisons of [IsComplete]
    and [Contains] amount to nothing else. *)
Theorem IsComplete_spec ns packages interrupt config :
  (forall k k' p p', packages !! k = Some p -> packages !! k' = Some p' ->
     pkg_UniqueName p = pkg_UniqueName p' -> k = k') ->
  ns_IsComplete ns packages interrupt config = true <->
  forall k p, packages !! k = Some p -> finished ns interrupt config p.
Proof.
  intros Hinj. rewrite ns_IsComplete_alt. split.
  - intros [H _] k p Hk. apply (finished_alt _ _ _ k). eauto.
  - intros H. assert (Hall : forall k p, packages !! k = Some p -> is_active ns (k, p) = true ->
      IsPackageComplete ns p interrupt config = true).
    { intros k p Hk. apply finished_alt. eauto. }
    split; [done|]. by eapply active_fits.
Qed.

(** C35: a package that has completed a stage of the install pipeline is never
    stuck: whatever the interrupt and configuration signals of each reconcile
    (they may change or disappear at any time), after at most three more stages
    it is complete under the signals of that reconcile, and until then
    [NextStage] always names a stage to run. *)
Theorem lifecycle_completes ns p s (sig : nat -> signals) :
  at_stage ns p s -> forward s = true ->
  exists i, i <= stages_left s /\
    IsPackageComplete (life p sig i ns) p (sig i).1 (sig i).2 = true /\
    forall j, j < i -> is_Some (NextStage (life p sig j ns) p (sig j).1 (sig j).2) \/
      IsPackageComplete (life p sig j ns) p (sig j).1 (sig j).2 = true.
Proof.
  intros Hs Hf.
  destruct (life_progress ns p sig s Hs Hf (stages_left s)) as [(i & Hi & Hc)|(s' & _ & _ & Hl)]; [|lia].
  exists i. split_and!; [done..|]. intros j _.
  assert (HN : (exists s', at_stage (life p sig j ns) p s' /\ forward s' = true)).
  { induction j as [|j IH]; [by exists s|]. destruct IH as (s1 & Hs1 & Hf1). simpl.
    destruct (at_stage_progress _ p s1 (sig j) Hs1 Hf1) as [[_ H]|(_ & s' & Hn & Hf' & _)].
    - exists s1. unfold advance. by rewrite H.
    - exists s'. split; [by apply advance_at_stage|done]. }
  destruct HN as (s1 & Hs1 & Hf1).
  destruct (at_stage_progress _ p s1 (sig j) Hs1 Hf1) as [[H _]|(_ & s' & Hn & _)]; eauto.
Qed.

(** [Upsert] and [RemoveState] write exactly one entry, leave the others, and
    report a change exactly when the state differs afterwards: recording the
    same status again is a no-op. *)
Theorem Upsert_RemoveState_spec ns p image state stage restarts sha :
  let up := Upsert ns p image state stage restarts sha in
  let rm := RemoveState ns p in
  ((up.2 = true <-> up.1 <> ns) /\ (rm.2 = true <-> rm.1 <> ns)) /\
  Upsert up.1 p image state stage restarts sha = (up.1, false) /\
  (up.1 !! GetUniqueName p = Some
     {| ps_Name := ref_Name p; ps_Version := ref_Version p; ps_Image := image; ps_ContainerSHA := sha;
        ps_Stage := stage; ps_State := state; ps_Restarts := restarts |} /\
   rm.1 !! GetUniqueName p = None) /\
  (forall k, k <> GetUniqueName p -> up.1 !! k = ns !! k /\ rm.1 !! k = ns !! k).
Proof.
  set (st := {| ps_Name := ref_Name p; ps_Version := ref_Version p; ps_Image := image; ps_ContainerSHA := sha;
                ps_Stage := stage; ps_State := state; ps_Restarts := restarts |}).
  cbv zeta.
  assert (Heq : forall m : NodeState, m !! GetUniqueName p = Some st ->
    Upsert m p image state stage restarts sha = (m, false)).
  { intros m Hm. unfold Upsert. rewrite Hm. fold st. by rewrite (proj2 (PackageStatus_Equal_spec st st)). }
  rewrite Upsert_lookup. fold st. split_and!.
  - unfold Upsert. fold st. destruct (ns !! GetUniqueName p) as [e|] eqn:E; [case_if|]; simpl.
    + apply PackageStatus_Equal_spec in E0 as <-. rewrite insert_id by done. naive_solver.
    + split; [|done]. intros _ H. rewrite <- H, lookup_insert_eq in E. injection E as <-.
      rewrite (proj2 (PackageStatus_Equal_spec _ _)) in E0; done.
    + split; [|done]. intros _ H. by rewrite <- H, lookup_insert_eq in E.
  - unfold RemoveState. destruct (ns !! GetUniqueName p) as [e|] eqn:E; simpl; [|naive_solver].
    split; [|done]. intros _ H. by rewrite <- H, lookup_delete_eq in E.
  - apply Heq, lookup_insert_eq.
  - apply lookup_insert_eq.
  - unfold RemoveState. destruct (ns !! GetUniqueName p) eqn:E; [apply lookup_delete_eq|done].
  - intros k Hk. rewrite lookup_insert_ne by done. split; [done|].
    unfold RemoveState. destruct (ns !! GetUniqueName p); simpl; [by rewrite lookup_delete_ne|done].
Qed.

(** While the specification still has every skipped package at the version
    that was skipped, [ProgressSkipped] completes exactly the entries skipped at
    the interrupt stage, leaves every other entry, and reports whether there
    was one; in whatever order the state is visited. *)
Theorem ProgressSkipped_spec packages ns : skipped_current packages ns ->
  let r := ProgressSkipped ns packages in
  r.1 = promote packages <$> ns /\
  (r.2 = true <-> exists k s, ns !! k = Some s /\ skipped packages s = true).
Proof.
  intros Hc r. destruct (progress_fold packages (range ns).*1 ns false Hc (NoDup_range ns)) as [H1 H2].
  fold (ProgressSkipped ns packages) in H1, H2. fold r in H1, H2. split.
  - apply map_eq. intros k. rewrite H1, lookup_fmap. case_bool_decide as Hk; [done|].
    rewrite elem_of_range_fst in Hk. apply eq_None_not_Some in Hk. by rewrite Hk.
  - rewrite H2. simpl. rewrite any_true. split.
    + intros (k & _ & Hk). destruct (ns !! k) as [s|] eqn:E; [eauto|done].
    + intros (k & s & Hk & Hs). exists k. rewrite elem_of_range_fst, Hk. eauto.
Qed.
End NodeState.

(** When the specification moved on to another version, [ProgressSkipped]
    records the skipped version's status under the new version's name: the
    entry of the upgrade in progress is lost, and the skipped entry stays
    skipped. *)
Theorem ProgressSkipped_other_version `{MR : MapRange} :
  let st version stage state :=
    {| ps_Name := "tuning"; ps_Version := version; ps_Image := "img"; ps_ContainerSHA := "";
       ps_Stage := stage; ps_State := state; ps_Restarts := 0 |} in
  let old := st "1.0.0" StageInterrupt StateSkipped in
  let upgrade := st "2.0.0" StageUpgrade StateInProgress in
  let packages : Packages := {["tuning" := plain_package "tuning" "2.0.0" ∅]} in
  let ns : NodeState := <["tuning|1.0.0" := old]> {["tuning|2.0.0" := upgrade]} in
  ProgressSkipped ns packages =
    (<["tuning|1.0.0" := old]> {["tuning|2.0.0" := set_ps_State StateComplete old]}, true).
Proof.
  intros st old upgrade packages ns. unfold ProgressSkipped.
  assert (HP : range ns ≡ₚ [("tuning|1.0.0", old); ("tuning|2.0.0", upgrade)]).
  { rewrite range_Permutation. unfold ns. rewrite map_to_list_insert by done. by rewrite map_to_list_singleton. }
  symmetry in HP. apply Permutation_length_2_inv in HP as [-> | ->]; reflexivity.
Qed.

(* ------------------------------------------------------------------ *)
(** ** Witnesses *)

Definition status_of (p : Package) (stage : Stage) (state : State) : PackageStatus :=
  {| ps_Name := pkg_Name p; ps_Version := pkg_Version p; ps_Image := pkg_Image p; ps_ContainerSHA := "";
     ps_Stage := stage; ps_State := state; ps_Restarts := 0 |}.

Definition base_package : Package := plain_package "base" "2.0.0" ∅.
Definition base_only : Packages := {["base" := base_package]}.

Lemma base_only_lookup k p : base_only !! k = Some p -> k = "base" /\ p = base_package.
Proof. unfold base_only. by intros [<- <-]%lookup_singleton_Some. Qed.

Lemma IsComplete_spec_witness :
  ns_IsComplete {["base|2.0.0" := status_of base_package StageConfig StateComplete]} base_only ∅ ∅ = true /\
  finished {["base|2.0.0" := status_of base_package StageConfig StateComplete]} ∅ ∅ base_package.
Proof.
  set (ns := {["base|2.0.0" := _]}).
  assert (Hc : ns_IsComplete ns base_only ∅ ∅ = true) by reflexivity.
  assert (Hb : base_only !! "base" = Some base_package) by reflexivity.
  split; [exact Hc|].
  pose proof (IsComplete_spec ns base_only ∅ ∅) as H. apply (proj1 (H ltac:(
    intros k k' p p' Hk Hk' _; apply base_only_lookup in Hk as [-> _], Hk' as [-> _]; reflexivity)) Hc _ _ Hb).
Defined.

Lemma lifecycle_completes_witness :
  at_stage {["base|2.0.0" := status_of base_package StageApply StateComplete]} base_package StageApply /\
  exists i, i <= 3 /\ IsPackageComplete (life base_package (fun _ => (∅, ∅)) i
    {["base|2.0.0" := status_of base_package StageApply StateComplete]}) base_package ∅ ∅ = true.
Proof.
  assert (H : at_stage {["base|2.0.0" := status_of base_package StageApply StateComplete]} base_package StageApply)
    by (eexists; repeat split; reflexivity).
  split; [exact H|].
  destruct (lifecycle_completes _ base_package StageApply (fun _ => (∅, ∅)) H eq_refl) as (i & Hi & Hc & _).
  exists i. split; [exact Hi|exact Hc].
Defined.

Lemma ProgressSkipped_spec_witness :
  skipped_current base_only {["base|2.0.0" := status_of base_package StageInterrupt StateSkipped]} /\
  (ProgressSkipped {["base|2.0.0" := status_of base_package StageInterrupt StateSkipped]} base_only).2 = true.
Proof.
  assert (H : skipped_current base_only {["base|2.0.0" := status_of base_package StageInterrupt StateSkipped]}).
  { intros k s f [<- <-]%lookup_singleton_Some [_ ->]%base_only_lookup _. reflexivity. }
  split; [exact H|]. apply (ProgressSkipped_spec base_only _ H).
  exists "base|2.0.0", (status_of base_package StageInterrupt StateSkipped). split; reflexivity.
Defined.
