(* ===== verification/Skyhook.v ===== *)
(** * The resource wrapper and its conditions

    Models [operator/internal/wrapper/skyhook.go] and [skyhook_conditions.go].
    A [*Skyhook] is the resource it wraps with the [Updated] flag that decides
    whether its status is written back.  [metav1.Now()] is the argument [now];
    the operator version, set when the program is linked, is the parameter
    [VERSION]. *)

From S2P Require Import Prelude Graph DeploymentPolicy Api NodeState.

Record Skyhook := { sk_nw : NodeWright; Updated : bool }.

(** Changing the status of the wrapped resource. *)
Definition map_status (f : NodeWrightStatus -> NodeWrightStatus) (s : Skyhook) : Skyhook :=
  {| sk_nw := set_nw_Status (f (nw_Status (sk_nw s))) (sk_nw s); Updated := Updated s |}.

Definition touch (s : Skyhook) : Skyhook := {| sk_nw := sk_nw s; Updated := true |}.

Definition sk_Status (s : Skyhook) : NodeWrightStatus := nw_Status (sk_nw s).
Definition sk_Spec (s : Skyhook) : NodeWrightSpec := Spec (sk_nw s).

Definition NewSkyhookWrapper (s : NodeWright) : Skyhook := {| sk_nw := s; Updated := false |}.

Definition ResourceID (s : Skyhook) : string :=
  nw_Name (sk_nw s) +:+ "-" +:+ nw_UID (sk_nw s) +:+ "-" +:+ show_int (nw_Generation (sk_nw s)).

Definition sk_SetStatus (status : Status) (s : Skyhook) : Skyhook :=
  let s := if negb (bool_decide (st_Status (sk_Status s) = status))
           then touch (map_status (set_st_Status status) s) else s in
  match status with
  | StatusComplete => touch (map_status (set_ObservedGeneration (nw_Generation (sk_nw s))) s)
  | StatusUnknown =>
      match st_NodeState (sk_Status s) with
      | Some _ => touch (map_status (set_st_NodeState None) s)
      | None => s
      end
  | _ => s
  end.

Definition SetNodeStatus (nodeName : string) (status : Status) (s : Skyhook) : Skyhook :=
  let write := touch (map_status (set_NodeStatus (<[nodeName := status]> (NodeStatus (sk_Status s)))) s) in
  match NodeStatus (sk_Status s) !! nodeName with
  | Some v => if negb (bool_decide (v = status)) then write else s
  | None => write
  end.

(** [reflect.DeepEqual] tells a nil map from an empty one. *)
Definition NodeState_Equal (left right : option NodeState) : bool := bool_decide (left = right).

Definition SetNodeState (nodeName : string) (nodestate : option NodeState) (s : Skyhook) : Skyhook :=
  let m := default ∅ (st_NodeState (sk_Status s)) in
  let made := map_status (set_st_NodeState (Some m)) s in
  let write := touch (map_status (set_st_NodeState (Some (<[nodeName := nodestate]> m))) s) in
  match m !! nodeName with
  | Some state => if negb (NodeState_Equal state nodestate) then write else made
  | None => write
  end.

Definition add_config_update (pkg : string) (s : Skyhook) (newKey : string) : Skyhook :=
  let configUpdates := slice_of (ConfigUpdates (sk_Status s)) pkg in
  if any (fun oldKey => bool_decide (newKey = oldKey)) configUpdates then s
  else touch (map_status (set_ConfigUpdates
         (<[pkg := configUpdates ++ [newKey]]> (ConfigUpdates (sk_Status s)))) s).

Definition AddConfigUpdates (pkg : string) (newKeys : list string) (s : Skyhook) : Skyhook :=
  foldl (add_config_update pkg) s newKeys.

Definition RemoveConfigUpdates (pkg : string) (s : Skyhook) : Skyhook :=
  touch (map_status (set_ConfigUpdates (delete pkg (ConfigUpdates (sk_Status s)))) s).

Definition GetConfigUpdates (s : Skyhook) : gmap string (list string) := ConfigUpdates (sk_Status s).

Definition SetCompleteNodes (v : string) (s : Skyhook) : Skyhook := touch (map_status (set_CompleteNodes v) s).
Definition SetPackageList (v : string) (s : Skyhook) : Skyhook := touch (map_status (set_PackageList v) s).
Definition SetNodesInProgress (v : Z) (s : Skyhook) : Skyhook := touch (map_status (set_NodesInProgress v) s).

(* ------------------------------------------------------------------ *)
(** ** [filepath.Match]

    The documented language of the standard library function, on bytes; a
    malformed pattern matches nothing here, as every caller ignores the match
    when there is an error. *)

Inductive glob := GStar | GAny | GChar (c : ascii) | GClass (negated : bool) (ranges : list (ascii * ascii)).

Inductive class_state := CStart | CItems.

(** Parse the characters after [[] up to [\]]. *)
Fixpoint parse_class (fuel : nat) (l : list ascii) (neg : bool) (acc : list (ascii * ascii))
  : option (glob * list ascii) :=
  match fuel with
  | O => None
  | S fuel =>
      match l with
      | "]"%char :: rest => match acc with [] => None | _ => Some (GClass neg (rev acc), rest) end
      | _ =>
          let esc l := match l with
                       | "\"%char :: c :: rest => Some (c, rest)
                       | "\"%char :: [] => None
                       | "-"%char :: _ => None
                       | "]"%char :: _ => None
                       | c :: rest => Some (c, rest)
                       | [] => None
                       end in
          match esc l with
          | None => None
          | Some (lo, "-"%char :: rest) =>
              match esc rest with
              | Some (hi, rest) => parse_class fuel rest neg ((lo, hi) :: acc)
              | None => None
              end
          | Some (lo, rest) => parse_class fuel rest neg ((lo, lo) :: acc)
          end
      end
  end.

Fixpoint parse_glob (fuel : nat) (l : list ascii) : option (list glob) :=
  match fuel with
  | O => None
  | S fuel =>
      match l with
      | [] => Some []
      | "*"%char :: rest => cons GStar <$> parse_glob fuel rest
      | "?"%char :: rest => cons GAny <$> parse_glob fuel rest
      | "\"%char :: [] => None
      | "\"%char :: c :: rest => cons (GChar c) <$> parse_glob fuel rest
      | "["%char :: rest =>
          match (match rest with
                 | "^"%char :: rest => parse_class fuel rest true []
                 | _ => parse_class fuel rest false []
                 end) with
          | Some (g, rest) => cons g <$> parse_glob fuel rest
          | None => None
          end
      | c :: rest => cons (GChar c) <$> parse_glob fuel rest
      end
  end.

Definition in_range (c : ascii) (r : ascii * ascii) : bool :=
  (N_of_ascii r.1 <=? N_of_ascii c)%N && (N_of_ascii c <=? N_of_ascii r.2)%N.

Definition match_one (g : glob) (c : ascii) : bool :=
  match g with
  | GStar => false
  | GAny => negb (bool_decide (c = "/"%char))
  | GChar d => bool_decide (c = d)
  | GClass neg ranges => xorb neg (any (in_range c) ranges)
  end.

(** A star matches any run of characters other than the separator. *)
Fixpoint match_star (rest : list ascii -> bool) (s : list ascii) : bool :=
  rest s || match s with c :: s => negb (bool_decide (c = "/"%char)) && match_star rest s | [] => false end.

Fixpoint match_glob (gs : list glob) (s : list ascii) : bool :=
  match gs with
  | [] => match s with [] => true | _ => false end
  | GStar :: gs => match_star (match_glob gs) s
  | g :: gs => match s with c :: s => match_one g c && match_glob gs s | [] => false end
  end.

Definition filepath_Match (pattern name : string) : bool :=
  let l := String.list_ascii_of_string pattern in
  match parse_glob (S (length l)) l with
  | Some gs => match_glob gs (String.list_ascii_of_string name)
  | None => false
  end.

(* ------------------------------------------------------------------ *)
(** ** Configuration interrupts *)

Definition interrupt_type_string (t : InterruptType) : string :=
  match t with
  | REBOOT => "reboot" | SERVICE => "service" | NOOP => "noop"
  | RESTART_ALL_SERVICES => "restartAllServices" | InterruptOther s => s
  end.

(** [fmt.Sprintf("%s|%s", interrupt.Type, strings.Join(interrupt.Services, ","))] *)
Definition interrupt_key (i : Interrupt) : string :=
  interrupt_type_string (int_Type i) +:+ "|" +:+ join "," (int_Services i).

Section ConfigInterrupts.
Context `{MR : MapRange}.

(** The innermost loop: one update against one pattern.  [acc] is the keys seen
    for this package and the interrupts collected so far. *)
Definition match_interrupt (update : string) (acc : gset string * list Interrupt)
    (pi : string * Interrupt) : gset string * list Interrupt :=
  if filepath_Match pi.1 update then
    if bool_decide (interrupt_key pi.2 ∈ acc.1) then acc
    else ({[interrupt_key pi.2]} ∪ acc.1, acc.2 ++ [pi.2])
  else acc.

Definition match_update (p : Package) (acc : gset string * list Interrupt) (update : string)
  : gset string * list Interrupt :=
  foldl (match_interrupt update) acc (range (pkg_ConfigInterrupts p)).

Definition package_interrupts (updates : gmap string (list string)) (interrupts : gmap string (list Interrupt))
    (kp : string * Package) : gmap string (list Interrupt) :=
  let p := kp.2 in
  let before := slice_of interrupts (pkg_Name p) in
  let after := (foldl (match_update p) (∅, before) (slice_of updates (pkg_Name p))).2 in
  match after with [] => interrupts | _ => <[pkg_Name p := after]> interrupts end.

Definition GetConfigInterrupts (s : Skyhook) : gmap string (list Interrupt) :=
  foldl (package_interrupts (ConfigUpdates (sk_Status s))) ∅ (range (sp_Packages (sk_Spec s))).
End ConfigInterrupts.

(* ------------------------------------------------------------------ *)
(** ** Versions and the order of nodes *)

Definition set_annotation (k v : string) (s : Skyhook) : Skyhook :=
  {| sk_nw := set_nw_Annotations (<[k := v]> (nw_Annotations (sk_nw s))) (sk_nw s); Updated := Updated s |}.

Definition GetVersion (s : Skyhook) : string :=
  default "" (nw_Annotations (sk_nw s) !! (METADATA_PREFIX +:+ "/version")).

Definition SetVersion (VERSION : string) (s : Skyhook) : Skyhook :=
  if bool_decide (VERSION = "") then s
  else if bool_decide (GetVersion s = VERSION) then s
  else touch (set_annotation (METADATA_PREFIX +:+ "/version") VERSION s).

(** [Migrate]; the step it calls for a resource without a version is a parameter. *)
Definition Migrate (VERSION : string) (migrateSkyhookTo_0_5_0 : Skyhook -> res Skyhook) (s : Skyhook) : res Skyhook :=
  if bool_decide (GetVersion s = VERSION) then Ok s
  else if bool_decide (GetVersion s = "") then
    rbind (migrateSkyhookTo_0_5_0 s) (fun s => Ok (SetVersion VERSION s))
  else Ok s.

Definition RemoveNodePriority (name : string) (s : Skyhook) : Skyhook :=
  match NodePriority (sk_Status s) !! name with
  | None => s
  | Some _ =>
      touch (map_status (fun st =>
        set_NodeOrderOffset (int_add (NodeOrderOffset st) 1)
          (set_NodePriority (delete name (NodePriority st)) st)) s)
  end.

(** [entries] sorted by time, then by name. *)
Definition entry_le (a b : string * Z) : Prop :=
  (a.2 < b.2)%Z \/ (a.2 = b.2 /\ str_le a.1 b.1).
#[export] Instance entry_le_dec a b : Decision (entry_le a b).
Proof. unfold entry_le. apply _. Defined.

Fixpoint position (nodeName : string) (entries : list (string * Z)) : option Z :=
  match entries with
  | [] => None
  | e :: entries =>
      if bool_decide (e.1 = nodeName) then Some 0%Z
      else match position nodeName entries with Some i => Some (i + 1)%Z | None => None end
  end.

Section NodeOrder.
Context `{MR : MapRange}.

Definition NodeOrder (s : Skyhook) (nodeName : string) : Z :=
  match position nodeName (merge_sort entry_le (range (NodePriority (sk_Status s)))) with
  | Some i => int_add (NodeOrderOffset (sk_Status s)) i
  | None => 0
  end.
End NodeOrder.

(* ------------------------------------------------------------------ *)
(** ** Lemmas: configuration interrupts *)

(** From [a] to [b] one representative, by key, of each interrupt of [M] is
    collected. *)
Definition collects (M : Interrupt -> Prop) (a b : gset string * list Interrupt) : Prop :=
  exists new, b.2 = a.2 ++ new /\ b.1 = a.1 ∪ list_to_set (map interrupt_key new) /\
    NoDup (map interrupt_key new) /\ (forall i, i ∈ new -> interrupt_key i ∉ a.1 /\ M i) /\
    (forall i, M i -> interrupt_key i ∈ b.1).

Lemma collects_ext M N a b : (forall i, M i <-> N i) -> collects M a b -> collects N a b.
Proof.
  intros H (new & H1 & H2 & H3 & H4 & H5). exists new. split_and!; [done..| |].
  - intros i Hi. destruct (H4 i Hi). by rewrite <- H.
  - intros i Hi. by apply H5, H.
Qed.

Lemma collects_refl a : collects (fun _ => False) a a.
Proof.
  exists []. split_and!; [by rewrite app_nil_r|simpl; set_solver|constructor|by intros i ?%elem_of_nil|done].
Qed.

Lemma collects_trans M N a b c : collects M a b -> collects N b c -> collects (fun i => M i \/ N i) a c.
Proof.
  intros (n1 & E1 & S1 & D1 & I1 & A1) (n2 & E2 & S2 & D2 & I2 & A2). exists (n1 ++ n2). split_and!.
  - by rewrite E2, E1, <- app_assoc.
  - rewrite S2, S1, map_app, list_to_set_app_L. set_solver.
  - rewrite map_app. apply NoDup_app. split_and!; [done| |done].
    intros k Hk (i & -> & Hi)%list_elem_of_fmap. destruct (I2 i Hi) as [Hn _]. apply Hn.
    rewrite S1. apply elem_of_union_r. by apply elem_of_list_to_set.
  - intros i [Hi|Hi]%elem_of_app.
    + destruct (I1 i Hi). auto.
    + destruct (I2 i Hi) as [Hn ?]. split; [|by right]. intros Ha. apply Hn. rewrite S1. set_solver.
  - intros i [Hi|Hi]; [rewrite S2; specialize (A1 i Hi); set_solver|auto].
Qed.

Lemma collects_fold {A} (M : A -> Interrupt -> Prop) f (l : list A) a :
  (forall x a, x ∈ l -> collects (M x) a (f a x)) ->
  collects (fun i => exists x, x ∈ l /\ M x i) a (foldl f a l).
Proof.
  revert a; induction l as [|x l IH]; intros a H; simpl.
  - eapply collects_ext; [|apply collects_refl]. intros i. split; [done|].
    intros (x & Hx & _). by apply elem_of_nil in Hx.
  - eapply collects_ext; [|eapply collects_trans; [apply H; by left|apply IH; intros; apply H; by right]].
    intros i. setoid_rewrite elem_of_cons. naive_solver.
Qed.

Section ConfigInterruptLemmas.
Context `{MR : MapRange}.

(** An interrupt that some update of a package named [n] calls for. *)
Definition called_for (updates : list string) (p : Package) (i : Interrupt) : Prop :=
  exists update pattern, update ∈ updates /\ pkg_ConfigInterrupts p !! pattern = Some i /\
    filepath_Match pattern update = true.

Lemma match_interrupt_collects update a pi :
  collects (fun i => filepath_Match pi.1 update = true /\ pi.2 = i) a (match_interrupt update a pi).
Proof.
  unfold match_interrupt. case_if; [case_bool_decide as Hk|].
  - exists []. split_and!; [by rewrite app_nil_r|simpl; set_solver|constructor|by intros i ?%elem_of_nil|].
    by intros i [_ <-].
  - exists [pi.2]. simpl. split_and!; [done|set_solver|apply NoDup_singleton| |].
    + by intros i ->%list_elem_of_singleton.
    + intros i [_ <-]. set_solver.
  - eapply collects_ext; [|apply collects_refl]. naive_solver.
Qed.

Lemma match_updates_collect updates p a :
  collects (called_for updates p) a (foldl (match_update p) a updates).
Proof.
  eapply collects_ext; [|apply (collects_fold (fun update i => exists pi, pi ∈ range (pkg_ConfigInterrupts p) /\
    filepath_Match pi.1 update = true /\ pi.2 = i))].
  - intros i. unfold called_for. split.
    + intros (u & Hu & [pattern j] & Hin%elem_of_range & Hm & <-). eauto 10.
    + intros (u & pattern & Hu & Hp & Hm). exists u. split; [done|]. exists (pattern, i).
      by rewrite elem_of_range.
  - intros u b _. unfold match_update. apply collects_fold. intros pi c _. apply match_interrupt_collects.
Qed.

Lemma slice_of_insert {A} (m : gmap string (list A)) k v k' :
  slice_of (<[k := v]> m) k' = if decide (k = k') then v else slice_of m k'.
Proof. unfold slice_of. case_decide as E; [subst; by rewrite lookup_insert_eq|by rewrite lookup_insert_ne]. Qed.

(** One package's turn: its own list grows by representatives of what it calls
    for, the lists of other names are left. *)
Lemma package_interrupts_spec updates interrupts kp n :
  let r := package_interrupts updates interrupts kp in
  exists new, slice_of r n = slice_of interrupts n ++ new /\
    NoDup (map interrupt_key new) /\
    (forall i, i ∈ new -> pkg_Name kp.2 = n /\ called_for (slice_of updates n) kp.2 i) /\
    (forall i, pkg_Name kp.2 = n -> called_for (slice_of updates n) kp.2 i -> interrupt_key i ∈ map interrupt_key new).
Proof.
  intros r. unfold r, package_interrupts. clear r. destruct kp as [k p]; simpl.
  destruct (match_updates_collect (slice_of updates (pkg_Name p)) p (∅, slice_of interrupts (pkg_Name p)))
    as (new & H2 & H1 & Hnd & Hin & Hall).
  destruct (foldl (match_update p) _ _) as [seen after]; simpl in *. subst after seen.
  destruct (decide (pkg_Name p = n)) as [<-|Hne].
  - exists new. split_and!; [|done|intros i Hi; by destruct (Hin i Hi)|].
    + destruct (slice_of interrupts (pkg_Name p) ++ new) eqn:E; [|by rewrite slice_of_insert, decide_True, <- E].
      by apply app_eq_nil in E as [-> _].
    + intros i _ Hi. specialize (Hall i Hi). set_solver.
  - exists []. split_and!; [|constructor|by intros i ?%elem_of_nil|done]. rewrite app_nil_r.
    destruct (_ ++ new); [done|]. by rewrite slice_of_insert, decide_False.
Qed.

Definition triggered (s : Skyhook) (n : string) (i : Interrupt) : Prop :=
  exists k p, sp_Packages (sk_Spec s) !! k = Some p /\ pkg_Name p = n /\
    called_for (slice_of (ConfigUpdates (sk_Status s)) n) p i.

Lemma GetConfigInterrupts_list updates l m n :
  exists new, slice_of (foldl (package_interrupts updates) m l) n = slice_of m n ++ new /\
    (forall i, i ∈ new -> exists kp, kp ∈ l /\ pkg_Name kp.2 = n /\ called_for (slice_of updates n) kp.2 i) /\
    (forall kp i, kp ∈ l -> pkg_Name kp.2 = n -> called_for (slice_of updates n) kp.2 i ->
       interrupt_key i ∈ map interrupt_key new) /\
    ((forall kp kp', kp ∈ l -> kp' ∈ l -> pkg_Name kp.2 = pkg_Name kp'.2 -> kp = kp') -> NoDup l ->
       NoDup (map interrupt_key new)).
Proof.
  revert m; induction l as [|kp l IH]; intros m; simpl.
  { exists []. rewrite app_nil_r. split_and!; [done|by intros i ?%elem_of_nil|by intros kp i ?%elem_of_nil|constructor]. }
  destruct (package_interrupts_spec updates m kp n) as (n1 & E1 & D1 & I1 & A1).
  destruct (IH (package_interrupts updates m kp)) as (n2 & E2 & I2 & A2 & D2).
  exists (n1 ++ n2). rewrite E2, E1, <- app_assoc, map_app. split_and!; [done| | |].
  - intros i [Hi|Hi]%elem_of_app.
    + exists kp. destruct (I1 i Hi). split_and!; [by left|done..].
    + destruct (I2 i Hi) as (kp' & ? & ?). exists kp'. split; [by right|done].
  - intros kp' i [->|Hin]%elem_of_cons Hn Hc; apply elem_of_app; [left|right]; eauto.
  - intros Hinj [Hnin Hnd]%NoDup_cons. apply NoDup_app. split_and!; [done| |].
    + intros key (i & -> & Hi)%list_elem_of_fmap (j & _ & Hj)%list_elem_of_fmap.
      destruct (I1 i Hi) as [Hn1 _]. destruct (I2 j Hj) as (kp' & Hkp' & Hn2 & _).
      apply Hnin. rewrite (Hinj kp kp'); [done|by left|by right|congruence].
    + apply D2; [|done]. intros kp1 kp2 H1 H2. apply Hinj; by right.
Qed.
End ConfigInterruptLemmas.

(* ------------------------------------------------------------------ *)
(** ** Lemmas: the order of nodes *)

Definition entry_lt (a b : string * Z) : Prop := entry_le a b /\ a <> b.
#[export] Instance entry_lt_dec a b : Decision (entry_lt a b).
Proof. unfold entry_lt. apply _. Defined.

#[export] Instance entry_le_total : Total entry_le.
Proof.
  intros [n t] [n' t']. unfold entry_le; simpl.
  destruct (Z.lt_trichotomy t t') as [?|[->|?]]; [auto| |auto].
  destruct (total str_le n n'); auto.
Qed.

#[export] Instance entry_le_trans : Transitive entry_le.
Proof.
  intros [n t] [n' t'] [n'' t'']. unfold entry_le; simpl.
  intros [?|[-> ?]] [?|[-> ?]]; [left; lia|left; lia|left; lia|right]. split; [done|by etrans].
Qed.

#[export] Instance entry_le_antisymm : AntiSymm eq entry_le.
Proof.
  intros [n t] [n' t']. unfold entry_le; simpl.
  intros [?|[-> ?]] [?|[? ?]]; try lia. f_equal. by apply (anti_symm str_le).
Qed.

Lemma entry_lt_trichotomy a b : a <> b -> entry_lt a b \/ entry_lt b a.
Proof. intros H. unfold entry_lt. destruct (total entry_le a b); naive_solver. Qed.

Lemma entry_lt_asym a b : entry_lt a b -> ~ entry_lt b a.
Proof. intros [H1 Hne] [H2 _]. apply Hne. by apply (anti_symm entry_le). Qed.

(** How many of the entries come before [e]. *)
Definition rank (e : string * Z) (l : list (string * Z)) : Z :=
  count (fun e' => bool_decide (entry_lt e' e)) l.

#[export] Instance rank_proper e : Proper ((≡ₚ) ==> eq) (rank e).
Proof.
  intros l1 l2 H. unfold rank, count, zlen. f_equal. induction H; simpl; repeat case_if; simpl; congruence.
Qed.

Lemma rank_cons e e' l : rank e (e' :: l) = ((if bool_decide (entry_lt e' e) then 1 else 0) + rank e l)%Z.
Proof. unfold rank, count, zlen. simpl. case_if; simpl; lia. Qed.

Lemma rank_all_after e l : Forall (entry_le e) l -> rank e l = 0%Z.
Proof.
  intros H. apply count_zero. intros e' He'. rewrite Forall_forall in H. apply bool_decide_eq_false.
  intros [Hle Hne]. apply Hne. apply (anti_symm entry_le); auto.
Qed.

Lemma position_rank n t l : StronglySorted entry_le l -> NoDup l.*1 -> (n, t) ∈ l ->
  position n l = Some (rank (n, t) l).
Proof.
  induction l as [|[n' t'] l IH]; simpl; [by intros _ _ ?%elem_of_nil|].
  intros [Hs Hl]%StronglySorted_inv [Hn' Hnd]%NoDup_cons Hin. rewrite rank_cons.
  case_bool_decide as Hn; simpl in Hn.
  - assert (t = t') as ->.
    { apply elem_of_cons in Hin as [[= _ ->]|Hin]; [done|]. exfalso. apply Hn', list_elem_of_fmap.
      subst. by exists (n, t). }
    subst n'. rewrite bool_decide_eq_false_2 by by intros [_ []]. by rewrite rank_all_after.
  - apply elem_of_cons in Hin as [[= ? ?]|Hin]; [congruence|]. rewrite (IH Hs Hnd Hin).
    rewrite bool_decide_eq_true_2; [f_equal; lia|]. split; [|congruence].
    rewrite Forall_forall in Hl. auto.
Qed.

Lemma rank_lt e l : e ∈ l -> (0 <= rank e l < zlen l)%Z.
Proof.
  intros He. split; [apply count_nonneg|]. unfold rank.
  pose proof (count_le (fun e' => bool_decide (entry_lt e' e)) l).
  destruct (Z.eq_dec (count (fun e' => bool_decide (entry_lt e' e)) l) (zlen l)) as [E|]; [|lia].
  apply count_full with (x := e) in E; [|done]. bool_simpl. by destruct E.
Qed.

Lemma rank_mono e1 e2 l : e1 ∈ l -> entry_lt e1 e2 -> (rank e1 l < rank e2 l)%Z.
Proof.
  intros Hin Hlt.
  assert (Himp : forall e, entry_lt e e1 -> entry_lt e e2).
  { intros e H. split; [destruct H, Hlt; by etrans|]. intros ->. by eapply entry_lt_asym. }
  assert (Hle : forall l', (rank e1 l' <= rank e2 l')%Z).
  { intros l'. induction l' as [|e l' IH]; [done|]. rewrite !rank_cons.
    repeat case_bool_decide; try lia. naive_solver. }
  induction l as [|e l IH]; [by apply elem_of_nil in Hin|]. rewrite !rank_cons.
  pose proof (Hle l). apply elem_of_cons in Hin as [<-|Hin].
  - rewrite (bool_decide_eq_false_2 (entry_lt e1 e1)) by by intros [_ []].
    rewrite bool_decide_eq_true_2 by done. lia.
  - specialize (IH Hin). repeat case_bool_decide; try lia. naive_solver.
Qed.

Section NodeOrderLemmas.
Context `{MR : MapRange}.

Definition order_fits (s : Skyhook) : Prop :=
  int64 (NodeOrderOffset (sk_Status s)) /\
  (NodeOrderOffset (sk_Status s) + mlen (NodePriority (sk_Status s)) < two63)%Z.

Lemma NodeOrder_rank s n t : order_fits s -> NodePriority (sk_Status s) !! n = Some t ->
  NodeOrder s n = (NodeOrderOffset (sk_Status s) + rank (n, t) (map_to_list (NodePriority (sk_Status s))))%Z.
Proof.
  intros [Hoff Hfit] Hn. unfold NodeOrder. set (m := NodePriority (sk_Status s)) in *.
  assert (Hp : merge_sort entry_le (range m) ≡ₚ map_to_list m).
  { by rewrite merge_sort_Permutation, range_Permutation. }
  rewrite (position_rank n t).
  - rewrite Hp. apply int_add_id. pose proof (rank_lt (n, t) (map_to_list m)) as Hr.
    rewrite elem_of_map_to_list in Hr. specialize (Hr Hn). unfold zlen, mlen, int64 in *.
    rewrite length_map_to_list in Hr. lia.
  - apply StronglySorted_merge_sort; apply _.
  - rewrite Hp. apply NoDup_fst_map_to_list.
  - rewrite Hp. by apply elem_of_map_to_list.
Qed.
End NodeOrderLemmas.

(* ------------------------------------------------------------------ *)
(** ** Properties *)

Section Properties.
Context `{MR : MapRange}.

(** The interrupts collected for a package name are exactly those a pending
    configuration update calls for through a matching pattern, one for each
    type and list of services, whatever the order in which packages and
    patterns are visited; when each name belongs to one package no two of them
    have the same type and services. *)
Theorem GetConfigInterrupts_spec s n :
  let found := slice_of (GetConfigInterrupts s) n in
  (forall i, i ∈ found -> triggered s n i) /\
  (forall i, triggered s n i -> exists j, j ∈ found /\ interrupt_key j = interrupt_key i) /\
  ((forall k k' p p', sp_Packages (sk_Spec s) !! k = Some p -> sp_Packages (sk_Spec s) !! k' = Some p' ->
      pkg_Name p = pkg_Name p' -> k = k') -> NoDup (map interrupt_key found)).
Proof.
  unfold GetConfigInterrupts, triggered.
  destruct (GetConfigInterrupts_list (ConfigUpdates (sk_Status s)) (range (sp_Packages (sk_Spec s))) ∅ n)
    as (new & E & H1 & H2 & H3).
  cbv zeta. rewrite E. assert (slice_of (∅ : gmap string (list Interrupt)) n = []) as -> by done. simpl. split_and!.
  - intros i Hi. destruct (H1 i Hi) as ([k p] & Hk%elem_of_range & Hn & Hc). eauto.
  - intros i (k & p & Hk & Hn & Hc). apply elem_of_range in Hk.
    destruct (proj1 (list_elem_of_fmap _ _ _) (H2 (k, p) i Hk Hn Hc)) as (j & Hj & Hin). eauto.
  - intros Hinj. apply H3.
    + intros [k p] [k' p'] Hk%elem_of_range Hk'%elem_of_range Hn. simpl in Hn.
      pose proof (Hinj _ _ _ _ Hk Hk' Hn). subst. by simplify_eq.
    + apply (NoDup_fmap_1 fst), NoDup_range.
Qed.

(** The order of a node is the offset plus the number of nodes before it by
    time and name: distinct for distinct nodes, below offset plus the number of
    nodes.  Removing a node leaves the order of the nodes after it and adds one
    to the order of the nodes before it. *)
Theorem NodeOrder_RemoveNodePriority s n t x u :
  order_fits s ->
  NodePriority (sk_Status s) !! n = Some t -> NodePriority (sk_Status s) !! x = Some u -> n <> x ->
  let offset := NodeOrderOffset (sk_Status s) in
  (offset <= NodeOrder s n < offset + mlen (NodePriority (sk_Status s)))%Z /\
  NodeOrder s n <> NodeOrder s x /\
  NodeOrder (RemoveNodePriority x s) n =
    (NodeOrder s n + if bool_decide (entry_lt (x, u) (n, t)) then 0 else 1)%Z.
Proof.
  intros Hfit Hn Hx Hne offset. unfold offset.
  assert (Hin : (n, t) ∈ map_to_list (NodePriority (sk_Status s))) by by apply elem_of_map_to_list.
  assert (Hix : (x, u) ∈ map_to_list (NodePriority (sk_Status s))) by by apply elem_of_map_to_list.
  rewrite (NodeOrder_rank s n t), (NodeOrder_rank s x u) by done.
  pose proof (rank_lt _ _ Hin) as Hr. unfold zlen in Hr. rewrite length_map_to_list in Hr.
  fold (mlen (NodePriority (sk_Status s))) in Hr. split_and!; [lia|lia| |].
  - destruct (entry_lt_trichotomy (n, t) (x, u)) as [H|H]; [congruence|..].
    + pose proof (rank_mono _ _ _ Hin H). lia.
    + pose proof (rank_mono _ _ _ Hix H). lia.
  - assert (HR : RemoveNodePriority x s = touch (map_status (fun st =>
        set_NodeOrderOffset (int_add (NodeOrderOffset st) 1)
          (set_NodePriority (delete x (NodePriority st)) st)) s)) by (unfold RemoveNodePriority; by rewrite Hx).
    assert (Hsize : (mlen (NodePriority (sk_Status s)) = mlen (delete x (NodePriority (sk_Status s))) + 1)%Z).
    { unfold mlen. rewrite map_size_delete_Some by eauto. pose proof (rank_lt _ _ Hix) as Hl.
      unfold zlen in Hl. rewrite length_map_to_list in Hl. lia. }
    destruct Hfit as [Hoff Hfit].
    assert (Hoff1 : int_add (NodeOrderOffset (sk_Status s)) 1 = (NodeOrderOffset (sk_Status s) + 1)%Z).
    { apply int_add_id. unfold int64 in *. lia. }
    rewrite (NodeOrder_rank (RemoveNodePriority x s) n t); rewrite HR; unfold order_fits; cbn -[int_add delete];
      change (nw_Status (sk_nw s)) with (sk_Status s).
    + rewrite Hoff1.
      assert (E : map_to_list (NodePriority (sk_Status s)) ≡ₚ (x, u) :: map_to_list (delete x (NodePriority (sk_Status s)))).
      { symmetry. by apply map_to_list_delete. }
      rewrite E, rank_cons. destruct (bool_decide (entry_lt (x, u) (n, t))); lia.
    + rewrite Hoff1. unfold int64 in *. lia.
    + by rewrite lookup_delete_ne.
Qed.
End Properties.

(** An order number is reused: when the second of two nodes is removed first,
    the first node's order becomes the number the second one had. *)
Theorem NodeOrder_reused : forall nw,
  let s := {| sk_nw := set_nw_Status (set_NodeOrderOffset 0 (set_NodePriority
                 (<["node-a" := 1%Z]> {["node-b" := 2%Z]}) (nw_Status nw))) nw; Updated := false |} in
  NodeOrder s "node-a" = 0%Z /\ NodeOrder s "node-b" = 1%Z /\
  NodeOrder (RemoveNodePriority "node-b" s) "node-a" = 1%Z.
Proof. intros nw. split_and!; reflexivity. Qed.

(* ------------------------------------------------------------------ *)
(** ** Witnesses *)

Definition empty_status : NodeWrightStatus :=
  {| ObservedGeneration := 0; st_NodeState := None; NodeStatus := ∅; st_Status := StatusEmpty; Conditions := [];
     NodeBootIds := ∅; NodePriority := ∅; NodeOrderOffset := 0; ConfigUpdates := ∅; CompartmentStatuses := ∅;
     NodesInProgress := 0; CompleteNodes := ""; PackageList := "" |}.

Definition plain_nodewright (name : string) (spec : NodeWrightSpec) (st : NodeWrightStatus) : NodeWright :=
  {| nw_Name := name; nw_UID := "uid-" +:+ name; nw_Generation := 1; nw_CreationTimestamp := 0;
     nw_DeletionTimestamp := None; nw_Finalizers := []; nw_Annotations := ∅; Spec := spec; nw_Status := st |}.

Definition three_nodes : gmap string Z := <["n1" := 5%Z]> (<["n2" := 5%Z]> {["n0" := 7%Z]}).

Lemma NodeOrder_RemoveNodePriority_witness :
  let s := NewSkyhookWrapper (plain_nodewright "tuning" (plain_spec ∅) (set_NodePriority three_nodes empty_status)) in
  NodeOrder s "n2" = 1%Z /\ NodeOrder s "n2" <> NodeOrder s "n0" /\
  NodeOrder (RemoveNodePriority "n1" s) "n2" = (NodeOrder s "n2" + 0)%Z.
Proof.
  set (s := NewSkyhookWrapper _). simpl.
  assert (Hfit : order_fits s) by (split; vm_compute; repeat split; discriminate).
  assert (H2 : NodePriority (sk_Status s) !! "n2" = Some 5%Z) by reflexivity.
  assert (H1 : NodePriority (sk_Status s) !! "n1" = Some 5%Z) by reflexivity.
  assert (H0 : NodePriority (sk_Status s) !! "n0" = Some 7%Z) by reflexivity.
  split; [reflexivity|]. split.
  - apply (NodeOrder_RemoveNodePriority s "n2" 5 "n0" 7 Hfit H2 H0). discriminate.
  - apply (NodeOrder_RemoveNodePriority s "n2" 5 "n1" 5 Hfit H2 H1). discriminate.
Defined.
