(* ===== verification/Interrupts.v ===== *)
(** * Merging the interrupts of a node

    Models [fudgeInterruptWithPriority], [mergeInterrupt] and [merge] of
    [operator/internal/controller/skyhook_controller.go], which choose the one
    interrupt that a node runs for all the packages that are next.

    The function works on pointers, and [mergeInterrupt] writes through them: the
    interrupt of a package is the object that the resource's specification points
    to.  [store] is those objects, [ref] a pointer.  (The order of the elements
    of a slice of services that [slices.Sort] shares with another slice is not
    modelled.) *)

From S2P Require Import Prelude Graph DeploymentPolicy Api NodeState Skyhook.

#[local] Open Scope Z_scope.

(* ------------------------------------------------------------------ *)
(** ** Pointers *)

(** The interrupt of a package, or one that [GetConfigInterrupts] allocated. *)
Inductive ref := Own (package : string) | Config (package : string) (i : nat).

Record store := { st_own : gmap string Interrupt; st_config : gmap string (list Interrupt) }.

Definition read (st : store) (r : ref) : option Interrupt :=
  match r with
  | Own p => st_own st !! p
  | Config p i => st_config st !! p ≫= (.!! i)
  end.

Definition set_int_Services (l : list string) (i : Interrupt) : Interrupt := {| int_Type := int_Type i; int_Services := l |}.

Definition write_Services (l : list string) (r : ref) (st : store) : store :=
  match r with
  | Own p => {| st_own := alter (set_int_Services l) p (st_own st); st_config := st_config st |}
  | Config p i => {| st_own := st_own st; st_config := alter (alter (set_int_Services l) i) p (st_config st) |}
  end.

(* ------------------------------------------------------------------ *)
(** ** Merging *)

Definition append_new (left : list string) (r : string) : list string :=
  if bool_decide (r ∈ left) then left else left ++ [r].

(** [merge], whose name the finite maps use. *)
Definition merge_services (left right : list string) : list string := sort_strings (foldl append_new left right).

Definition mergeInterrupt (left right : ref) (st : store) : store :=
  match read st left, read st right with
  | Some l, Some r =>
      if bool_decide (int_Type l = SERVICE) && bool_decide (int_Type r = SERVICE)
      then write_Services (merge_services (int_Services l) (int_Services r)) left st else st
  | _, _ => st
  end.

(** A type that is not in the map has Go's zero value. *)
Definition interrupt_priority (t : InterruptType) : Z :=
  match t with
  | REBOOT => 0 | RESTART_ALL_SERVICES => 1 | SERVICE => 2 | NOOP => 3
  | InterruptOther _ => 0
  end.

(* ------------------------------------------------------------------ *)
(** ** Choosing *)

(** The body of the two loops over the candidates; a reboot returns at once. *)
Fixpoint choose (ret : option (string * ref)) (candidates : list (string * ref)) (st : store)
  : store * option (string * ref) :=
  match candidates with
  | [] => (st, ret)
  | c :: candidates =>
      let best := default c ret in
      match read st c.2, read st best.2 with
      | Some interrupt, Some chosen =>
          if bool_decide (int_Type interrupt = REBOOT) then (st, Some c)
          else if interrupt_priority (int_Type interrupt) <? interrupt_priority (int_Type chosen)
          then choose (Some c) candidates st
          else if interrupt_priority (int_Type interrupt) =? interrupt_priority (int_Type chosen)
          then choose (Some best) candidates (mergeInterrupt best.2 c.2 st)
          else choose (Some best) candidates st
      | _, _ => choose ret candidates st
      end
  end.

(** The pointers of a package that has no pending update of its configuration:
    its own interrupt only. *)
Definition own_interrupt (configUpdates : gmap string (list string)) (interrupts : gmap string (list ref)) (p : Package)
  : gmap string (list ref) :=
  match slice_of configUpdates (pkg_Name p) with
  | [] => <[pkg_Name p := if pkg_HasInterrupt p then [Own (pkg_Name p)] else []]> interrupts
  | _ => interrupts
  end.

Definition config_refs (interrupts : gmap string (list Interrupt)) : gmap string (list ref) :=
  map_imap (fun p l => Some (imap (fun i _ => Config p i) l)) interrupts.

(** In the order of the packages' names. *)
Definition candidates (next : list Package) (configUpdates : gmap string (list string))
    (interrupts : gmap string (list Interrupt)) : list (string * ref) :=
  let refs := foldl (own_interrupt configUpdates) (config_refs interrupts) next in
  flat_map (fun name => map (pair name) (slice_of refs name)) (sort_strings (map pkg_Name next)).

(** The objects behind the arguments. *)
Definition objects (next : list Package) (interrupts : gmap string (list Interrupt)) : store :=
  {| st_own := list_to_map (omap (fun p => pair (pkg_Name p) <$> pkg_Interrupt p) next); st_config := interrupts |}.

Definition fudgeInterruptWithPriority (next : list Package) (configUpdates : gmap string (list string))
    (interrupts : gmap string (list Interrupt)) : store * option (string * ref) :=
  choose None (candidates next configUpdates interrupts) (objects next interrupts).

(* ------------------------------------------------------------------ *)
(** ** Lemmas *)

#[export] Instance ref_eq_dec : EqDecision ref.
Proof. solve_decision. Defined.

Lemma read_write l r r' st :
  read (write_Services l r st) r' = if bool_decide (r = r') then set_int_Services l <$> read st r else read st r'.
Proof.
  case_bool_decide as E; [subst r'|]; destruct r as [p|p i]; try (destruct r' as [p'|p' i']); simpl; try done.
  - apply lookup_alter_eq.
  - rewrite lookup_alter_eq. destruct (st_config st !! p); simpl; [apply list_lookup_alter_eq|done].
  - apply lookup_alter_ne. congruence.
  - destruct (decide (p = p')) as [->|Hp]; [|by rewrite lookup_alter_ne].
    rewrite lookup_alter_eq. destruct (st_config st !! p'); simpl; [|done]. apply list_lookup_alter_ne. congruence.
Qed.

Lemma elem_of_merge_services x left right : x ∈ merge_services left right <-> x ∈ left \/ x ∈ right.
Proof.
  unfold merge_services. rewrite elem_of_sort_strings. revert left; induction right as [|r right IH]; intros left; simpl; [set_solver|].
  rewrite IH. unfold append_new. case_bool_decide; set_solver.
Qed.

(** What a candidate is worth; a reboot before everything. *)
Definition rank (i : Interrupt) : Z := if bool_decide (int_Type i = REBOOT) then -1 else interrupt_priority (int_Type i).

Lemma rank_service i : rank i = 2 <-> int_Type i = SERVICE.
Proof. unfold rank. by destruct (int_Type i) eqn:E. Qed.

Section Choose.
Context (st0 : store).

Definition rank_of (c : string * ref) : Z := match read st0 c.2 with Some i => rank i | None => 0 end.

(** The services that the candidates ask to restart. *)
Definition offered (l : list (string * ref)) (svc : string) : Prop :=
  exists c i, c ∈ l /\ read st0 c.2 = Some i /\ int_Type i = SERVICE /\ svc ∈ int_Services i.

(** Only the lists of services are written. *)
Definition same_types (st : store) : Prop := forall r i0, read st0 r = Some i0 ->
  exists i, read st r = Some i /\ int_Type i = int_Type i0 /\ (int_Type i0 <> SERVICE -> i = i0).

(** The first candidate of the lowest rank, with the services of all. *)
Definition best_of (l : list (string * ref)) (c : string * ref) (st : store) : Prop :=
  exists l1 l2 i, l = l1 ++ c :: l2 /\ read st c.2 = Some i /\ rank i = rank_of c /\
    Forall (fun c' => rank_of c < rank_of c') l1 /\ Forall (fun c' => rank_of c <= rank_of c') l2 /\
    (int_Type i <> SERVICE -> read st0 c.2 = Some i) /\
    (int_Type i = SERVICE -> forall svc, svc ∈ int_Services i <-> offered l svc).

Definition valid (c : string * ref) : Prop := is_Some (read st0 c.2).

(** The state of the loop. *)
Definition choosing (l : list (string * ref)) (ret : option (string * ref)) (st : store) : Prop :=
  same_types st /\
  match ret with
  | None => l = [] /\ st = st0
  | Some c => best_of l c st /\ valid c /\ 0 <= rank_of c /\
      (2 <= rank_of c -> forall r, r <> c.2 -> read st r = read st0 r)
  end.

Lemma rank_of_read c i : read st0 c.2 = Some i -> rank_of c = rank i.
Proof. unfold rank_of. by intros ->. Qed.

Lemma offered_app l1 l2 svc : offered (l1 ++ l2) svc <-> offered l1 svc \/ offered l2 svc.
Proof. unfold offered. set_solver. Qed.

Lemma offered_none l svc : Forall (fun c => 2 < rank_of c) l -> ~ offered l svc.
Proof.
  rewrite Forall_forall. intros H (c & i & Hc & Hr & Ht & _). pose proof (H c Hc) as Hlt.
  rewrite (rank_of_read c i Hr) in Hlt. apply rank_service in Ht. lia.
Qed.

Lemma offered_one c i svc : read st0 c.2 = Some i -> int_Type i = SERVICE -> offered [c] svc <-> svc ∈ int_Services i.
Proof.
  intros Hr Ht. split; [|intros; exists c, i; set_solver].
  intros (c' & i' & ->%list_elem_of_singleton & Hr' & _ & Hs). congruence.
Qed.

Lemma best_all_ge l c st : best_of l c st -> Forall (fun c' => rank_of c <= rank_of c') l.
Proof.
  intros (l1 & l2 & i & -> & _ & _ & H1 & H2 & _). apply Forall_app. split; [|constructor; [lia|done]].
  eapply Forall_impl; [exact H1|]. simpl. lia.
Qed.

Lemma same_types_merge st left right : same_types st -> same_types (mergeInterrupt left right st).
Proof.
  intros H r i0 Hr. destruct (H r i0 Hr) as (i & Hi & Ht & Hs). unfold mergeInterrupt.
  destruct (read st left) as [l|] eqn:El; [|eauto]. destruct (read st right) as [r'|]; [|eauto].
  destruct (bool_decide _) eqn:E1; [|by eauto]. apply bool_decide_eq_true in E1. case_bool_decide; [|by eauto]. simpl.
  rewrite read_write. case_bool_decide as E; [subst r|by eauto].
  rewrite El. eexists. split; [done|]. simpl. assert (l = i) as -> by congruence. split; [done|]. congruence.
Qed.

(** A candidate better than all before it. *)
Lemma best_new st l c i : read st0 c.2 = Some i -> read st c.2 = Some i -> Forall (fun c' => rank_of c < rank_of c') l ->
  best_of (l ++ [c]) c st.
Proof.
  intros Hr0 Hr Hl. exists l, [], i. pose proof (rank_of_read c i Hr0) as Hrank. split_and!; try done.
  intros Hs svc. rewrite offered_app, (offered_one c i) by done. split; [by right|]. intros [Ho|?]; [|done].
  exfalso. revert Ho. apply offered_none. eapply Forall_impl; [exact Hl|]. simpl. intros c' Hc'.
  apply rank_service in Hs. lia.
Qed.

(** One no better. *)
Lemma best_old st l c c' : best_of l c st -> rank_of c <= rank_of c' ->
  (forall i, read st c.2 = Some i -> int_Type i = SERVICE -> rank_of c' <> 2) -> valid c' ->
  best_of (l ++ [c']) c st.
Proof.
  intros (l1 & l2 & i & -> & Hr & Hk & H1 & H2 & Hn & Hs) Hle Hno [i' Hi']. exists l1, (l2 ++ [c']), i.
  split_and!; try done.
  - by rewrite <- app_assoc.
  - apply Forall_app. split; [done|]. by constructor.
  - intros Ht svc. rewrite offered_app, Hs by done. split; [by left|]. intros [?|Ho]; [done|].
    destruct Ho as (c0 & i0 & ->%list_elem_of_singleton & Hr0 & Ht0 & _). apply (Hno i Hr) in Ht as [].
    rewrite (rank_of_read c' i0 Hr0). by apply rank_service.
Qed.

(** The end of the loop at a reboot. *)
Lemma best_reboot st l c i : read st c.2 = Some i -> read st0 c.2 = Some i -> int_Type i = REBOOT ->
  Forall (fun c' => 0 <= rank_of c') l -> forall more, best_of (l ++ c :: more) c st.
Proof.
  intros Hr Hr0 Ht Hl more. exists l, more, i.
  assert (Hrank : rank i = -1) by (unfold rank; by rewrite Ht). pose proof (rank_of_read c i Hr0) as Hk. split_and!; try done.
  - eapply Forall_impl; [exact Hl|]. simpl. intros. lia.
  - apply Forall_forall. intros c' _. unfold rank_of at 2. destruct (read st0 c'.2) as [i'|]; [|lia].
    rewrite Hk, Hrank. unfold rank. case_bool_decide; [lia|]. destruct (int_Type i'); simpl; lia.
  - by rewrite Ht.
Qed.

Lemma merge_services_run left right st l r : read st left = Some l -> read st right = Some r ->
  int_Type l = SERVICE -> int_Type r = SERVICE ->
  mergeInterrupt left right st = write_Services (merge_services (int_Services l) (int_Services r)) left st.
Proof. intros Hl Hr Tl Tr. unfold mergeInterrupt. by rewrite Hl, Hr, Tl, Tr. Qed.

Lemma merge_other left right st l : read st left = Some l -> int_Type l <> SERVICE -> mergeInterrupt left right st = st.
Proof. intros Hl Tl. unfold mergeInterrupt. rewrite Hl. case_match; [|done]. by rewrite bool_decide_eq_false_2. Qed.

Lemma best_merge st l extra (c c' : string * ref) i' : best_of l c st -> read st c'.2 = Some i' -> int_Type i' = SERVICE ->
  rank_of c = 2 -> Forall (fun c0 => rank_of c <= rank_of c0) extra ->
  (forall svc, svc ∈ int_Services i' -> offered (l ++ extra) svc) -> (forall svc, offered extra svc -> svc ∈ int_Services i') ->
  best_of (l ++ extra) c (mergeInterrupt c.2 c'.2 st).
Proof.
  intros (l1 & l2 & i & -> & Hr & Hk & H1 & H2 & Hn & Hs) Hr' Ht' H2' Hex Hin Hout.
  assert (Ht : int_Type i = SERVICE) by (apply rank_service; lia).
  rewrite (merge_services_run _ _ _ i i') by done.
  exists l1, (l2 ++ extra), (set_int_Services (merge_services (int_Services i) (int_Services i')) i). split_and!; try done.
  - by rewrite <- app_assoc.
  - rewrite read_write, bool_decide_eq_true_2, Hr by done. done.
  - by apply Forall_app.
  - intros _ svc. cbn [int_Services set_int_Services]. rewrite elem_of_merge_services, offered_app, (Hs Ht).
    split; [intros [?|H]; [by left|apply offered_app, Hin, H]|]. intros [?|?]; [by left|right; by apply Hout].
Qed.

Lemma choose_base st (c : string * ref) i : read st0 c.2 = Some i -> st = st0 -> int_Type i <> REBOOT ->
  choosing [c] (Some c) (mergeInterrupt c.2 c.2 st).
Proof.
  intros Hr -> Ht. assert (Hb : best_of ([] ++ [c]) c st0) by (by eapply best_new).
  pose proof (rank_of_read c i Hr) as Hrank.
  assert (Hpos : 0 <= rank i) by (unfold rank; destruct (int_Type i); simpl; try case_bool_decide; try lia; done).
  split; [|split_and!].
  - apply same_types_merge. intros r i0 ?. by exists i0.
  - destruct (decide (int_Type i = SERVICE)) as [E|E].
    + apply (best_merge st0 ([] ++ [c]) [] c c i); [done|done|done| |constructor| |].
      * rewrite Hrank. by apply rank_service.
      * intros svc Hsvc. by apply (offered_one c i).
      * by intros svc (? & ? & []%not_elem_of_nil & _).
    + by rewrite (merge_other _ _ _ i).
  - by eexists.
  - lia.
  - intros _ r Hne. unfold mergeInterrupt. repeat case_match; [|done..].
    rewrite read_write, bool_decide_eq_false_2 by done. done.
Qed.

Lemma choose_step l c c' st i' : choosing l (Some c) st -> read st0 c'.2 = Some i' -> int_Type i' <> REBOOT ->
  rank_of c < rank_of c' -> choosing (l ++ [c']) (Some c) st.
Proof.
  intros (Ht & Hb & Hv & Hp & Hf) Hr' Hn Hlt. split; [done|]. split_and!; [|done..].
  apply best_old; [done|lia| |by eexists]. intros i Hi Hs. destruct Hb as (? & ? & i0 & _ & Hr & Hk & _).
  assert (i = i0) as -> by congruence. apply rank_service in Hs. lia.
Qed.

Lemma choose_equal l c c' st i' : choosing l (Some c) st -> read st0 c'.2 = Some i' -> int_Type i' <> REBOOT ->
  rank_of c = rank_of c' -> choosing (l ++ [c']) (Some c) (mergeInterrupt c.2 c'.2 st).
Proof.
  intros (Ht & Hb & Hv & Hp & Hf) Hr' Hn Heq. split; [by apply same_types_merge|].
  pose proof (rank_of_read c' i' Hr') as Hk'. pose proof Hb as (l1 & l2 & i & -> & Hr & Hk & Hrest).
  destruct (decide (int_Type i = SERVICE)) as [E|E].
  - assert (Hk2 : rank_of c = 2) by (apply rank_service in E; lia).
    assert (E' : int_Type i' = SERVICE) by (apply rank_service; lia).
    assert (exists j, read st c'.2 = Some j /\ int_Type j = SERVICE /\
      (forall svc, svc ∈ int_Services j -> offered ((l1 ++ c :: l2) ++ [c']) svc) /\
      (forall svc, svc ∈ int_Services i' -> svc ∈ int_Services j)) as (j & Hj & Tj & Hin & Hout).
    { destruct (decide (c'.2 = c.2)) as [Ec|Ec].
      - exists i. destruct Hrest as (_ & _ & _ & Hs). rewrite Ec. split_and!; [done|done| |].
        + intros svc Hsvc. apply offered_app. left. by apply Hs.
        + intros svc Hsvc. apply Hs; [done|]. exists c, i'. rewrite <- Ec. set_solver.
      - exists i'. rewrite Hf by (lia || done). split_and!; [done|done| |done].
        intros svc Hsvc. apply offered_app. right. by apply (offered_one c' i'). }
    split_and!; [|done..|].
    + apply (best_merge st _ [c'] c c' j); try done; [|].
      * constructor; [lia|constructor].
      * intros svc Ho. apply Hout. by apply (offered_one c' i').
    + intros _ r Hne. rewrite (merge_services_run _ _ _ i j) by done.
      rewrite read_write, bool_decide_eq_false_2 by done. apply Hf; [lia|done].
  - rewrite (merge_other _ _ _ i) by done. split_and!; [|done..].
    apply best_old; [done|lia| |by eexists]. intros i0 Hi0. congruence.
Qed.

Lemma choose_better l c c' st i' : choosing l (Some c) st -> read st0 c'.2 = Some i' -> int_Type i' <> REBOOT ->
  rank_of c' < rank_of c -> choosing (l ++ [c']) (Some c') st.
Proof.
  intros (Ht & Hb & Hv & Hp & Hf) Hr' Hn Hlt. split; [done|].
  pose proof (rank_of_read c' i' Hr') as Hk'.
  assert (Hne : c'.2 <> c.2) by (intros E; unfold rank_of in Hlt; rewrite E in Hlt; lia).
  assert (Hread : read st c'.2 = Some i').
  { destruct (decide (int_Type i' = SERVICE)) as [E|E].
    - rewrite Hf; [done| |done]. apply rank_service in E. lia.
    - destruct (Ht _ _ Hr') as (j & Hj & _ & Hsame). by rewrite <- (Hsame E). }
  split_and!; [|by eexists| |].
  - apply (best_new st l c' i'); [done|done|]. eapply Forall_impl; [by eapply best_all_ge|]. simpl. intros. lia.
  - rewrite Hk'. unfold rank. destruct (int_Type i'); simpl; try case_bool_decide; try lia; done.
  - intros H2 r Hr. destruct (decide (r = c.2)) as [->|]; [|apply Hf; [lia|done]].
    destruct Hb as (? & ? & i & _ & Hri & Hki & _ & _ & Hns & _). rewrite Hri. symmetry. apply Hns.
    intros E. apply rank_service in E. lia.
Qed.

Lemma nonneg_rank c i : read st0 c.2 = Some i -> int_Type i <> REBOOT -> rank_of c = interrupt_priority (int_Type i).
Proof. intros Hr Hn. rewrite (rank_of_read c i Hr). unfold rank. by rewrite bool_decide_eq_false_2. Qed.

Definition chosen (l : list (string * ref)) (ret : option (string * ref)) (st : store) : Prop :=
  same_types st /\ match ret with None => l = [] | Some c => best_of l c st end.

Lemma choosing_nonneg l ret st : choosing l ret st -> Forall (fun c => 0 <= rank_of c) l.
Proof.
  intros [_ H]. destruct ret as [c|]; [|by destruct H as [-> _]].
  destruct H as (Hb & _ & Hp & _). eapply Forall_impl; [by eapply best_all_ge|]. simpl. intros. lia.
Qed.

Lemma choose_chosen more l ret st : choosing l ret st -> Forall valid more ->
  chosen (l ++ more) (choose ret more st).2 (choose ret more st).1.
Proof.
  revert l ret st; induction more as [|c more IH]; intros l ret st Hst Hv.
  { rewrite app_nil_r. destruct Hst as [Ht H]. split; [done|]. destruct ret; [by destruct H|by destruct H]. }
  apply Forall_cons in Hv as [[i0 Hc0] Hv]. pose proof Hst as [Ht Hret].
  destruct (Ht c.2 i0 Hc0) as (i & Hc & Tc & Hsame). cbn [choose]. rewrite Hc.
  assert (exists j, read st (default c ret).2 = Some j /\ rank j = rank_of (default c ret) /\
    (ret <> None -> int_Type j <> REBOOT)) as (j & Hj & Hkj & Hnj).
  { destruct ret as [b|]; simpl; [|exists i; split_and!; [done| |done]].
    - destruct Hret as ((? & ? & j & _ & Hj & Hk & _) & _ & Hp & _). exists j. split_and!; [done|done|].
      intros _ E. unfold rank in Hk. rewrite E in Hk. simpl in Hk. lia.
    - unfold rank_of, rank. by rewrite Hc0, Tc. }
  rewrite Hj. replace (l ++ c :: more) with ((l ++ [c]) ++ more) by (by rewrite <- app_assoc).
  destruct (decide (int_Type i = REBOOT)) as [E|E].
  - rewrite bool_decide_eq_true_2 by done. split; [done|]. rewrite <- app_assoc. cbn [app snd fst].
    apply (best_reboot st l c i); [done| |done|].
    + rewrite Hsame; [done|]. congruence.
    + by eapply choosing_nonneg.
  - rewrite bool_decide_eq_false_2 by done. assert (En : int_Type i0 <> REBOOT) by congruence.
    rewrite Tc, <- (nonneg_rank c i0 Hc0 En). destruct ret as [b|]; simpl in Hj, Hkj.
    + assert (Hjn : interrupt_priority (int_Type j) = rank_of b).
      { rewrite <- Hkj. unfold rank. by rewrite bool_decide_eq_false_2 by (by apply Hnj). }
      cbn [default]. rewrite Hjn. destruct (rank_of c <? rank_of b) eqn:E1; [|destruct (rank_of c =? rank_of b) eqn:E2].
      * apply Z.ltb_lt in E1. apply IH; [|done]. by apply (choose_better l b c st i0).
      * apply Z.eqb_eq in E2. apply IH; [|done]. by apply (choose_equal l b c st i0).
      * apply Z.ltb_ge in E1. apply Z.eqb_neq in E2. apply IH; [|done]. apply (choose_step l b c st i0); [done..|lia].
    + destruct Hret as [-> ->]. assert (j = i) as -> by congruence. cbn [default].
      rewrite (nonneg_rank c i0 Hc0 En), <- Tc, Z.ltb_irrefl, Z.eqb_refl. apply IH; [|done].
      by apply (choose_base st0 c i0).
Qed.
End Choose.

Lemma candidates_valid next configUpdates interrupts :
  Forall (valid (objects next interrupts)) (candidates next configUpdates interrupts).
Proof.
  apply Forall_forall. intros [n r]. unfold candidates. rewrite list_elem_of_In, in_flat_map. intros (name & _ & H%list_elem_of_In).
  apply list_elem_of_fmap in H as (r' & [= -> ->] & H). unfold valid; cbn [snd].
  assert (Hall : forall l, (forall p, p ∈ l -> p ∈ next) -> forall m : gmap string (list ref),
    (forall k, r' ∈ slice_of m k -> is_Some (read (objects next interrupts) r')) ->
    r' ∈ slice_of (foldl (own_interrupt configUpdates) m l) name -> is_Some (read (objects next interrupts) r')).
  { induction l as [|p l IH]; intros Hin m Hm; simpl; [apply Hm|]. apply IH; [set_solver|]. intros k.
    unfold own_interrupt. destruct (slice_of configUpdates (pkg_Name p)); [|apply Hm]. unfold slice_of at 1.
    destruct (decide (pkg_Name p = k)) as [<-|Hk]; [|by rewrite lookup_insert_ne; [apply Hm|]].
    rewrite lookup_insert_eq. unfold pkg_HasInterrupt. destruct (pkg_Interrupt p) as [i|] eqn:Ei; simpl; [|by intros ?%not_elem_of_nil].
    intros ->%list_elem_of_singleton. cbn [read objects st_own]. destruct (list_to_map _ !! _) eqn:E; [eauto|].
    apply not_elem_of_list_to_map in E as []. apply list_elem_of_fmap. exists (pkg_Name p, i). split; [done|].
    apply list_elem_of_omap. exists p. rewrite Ei. split; [apply Hin; by left|done]. }
  revert H. apply (Hall next); [done|]. intros k. unfold config_refs, slice_of. rewrite map_lookup_imap.
  destruct (interrupts !! k) as [l|] eqn:E; simpl; [|by intros ?%not_elem_of_nil].
  rewrite elem_of_lookup_imap. intros (i & x & -> & Hx). simpl. rewrite E. simpl. eauto.
Qed.

(* ------------------------------------------------------------------ *)
(** ** Property *)

(** C31: A node runs one interrupt for all the packages that are next, and it is
    enough for each of them.  It is the first, in the order of the packages'
    names, of the strongest kind asked for (a reboot over a restart of all
    services over a restart of services over none); if it restarts services, it
    restarts exactly those that some candidate asks for; there is none only when
    no package asks for one.  The types of the interrupts are never changed, and
    the services only of interrupts that restart services: of the other kinds
    the one chosen is run as it was asked for. *)
Theorem fudgeInterruptWithPriority_spec next configUpdates interrupts :
  let '(st, ret) := fudgeInterruptWithPriority next configUpdates interrupts in
  let asked := objects next interrupts in
  chosen asked (candidates next configUpdates interrupts) ret st.
Proof.
  unfold fudgeInterruptWithPriority.
  pose proof (choose_chosen (objects next interrupts) (candidates next configUpdates interrupts) [] None (objects next interrupts)) as H.
  destruct (choose _ _ _) as [st ret]. apply H; [|apply candidates_valid]. split; [|done]. intros r i ?. by exists i.
Qed.
