(* ===== verification/Conditions.v ===== *)
(** * Conditions of the resource

    Models [operator/internal/wrapper/skyhook_conditions.go] and the two
    condition methods of [skyhook.go].  The current time is the argument
    [now]. *)

From S2P Require Import Prelude Graph DeploymentPolicy Api NodeState Skyhook.

Definition ReadyConditionNodeListLimit : Z := 10.
Definition SkyhookConditionReady : string := "Ready".
Definition SkyhookConditionTaintNotTolerable : string := "TaintNotTolerable".
Definition SkyhookConditionNodesIgnored : string := "NodesIgnored".
Definition SkyhookConditionApplyPackage : string := "ApplyPackage".
Definition SkyhookConditionDeploymentPolicyNotFound : string := "DeploymentPolicyNotFound".
Definition SkyhookConditionBlocked : string := "Blocked".
Definition SkyhookConditionUninstallInProgress : string := "UninstallInProgress".
Definition SkyhookConditionUninstallFailed : string := "UninstallFailed".
Definition SkyhookConditionNodeStateMalformed : string := "NodeStateMalformed".
Definition SkyhookConditionDeletionBlocked : string := "DeletionBlocked".
Definition LegacySkyhookConditionTransition : string := METADATA_PREFIX +:+ "/Transition".
Definition ConditionTrue : string := "True".
Definition ConditionFalse : string := "False".

Definition SkyhookReadyConditionReason (status : Status) : string :=
  match status with
  | StatusComplete => "NodesConverged"
  | StatusInProgress => "Progressing"
  | StatusBlocked => "Blocked"
  | StatusErroring => "Erroring"
  | StatusPaused => "Paused"
  | StatusWaiting => "Waiting"
  | StatusDisabled => "Disabled"
  | _ => "Unknown"
  end.

Definition prefixed (conditionType : string) : string := METADATA_PREFIX +:+ "/" +:+ conditionType.

Definition LegacySkyhookConditionType (conditionType : string) : string :=
  if bool_decide (conditionType = "") then ""
  else if bool_decide (conditionType = LegacySkyhookConditionTransition) then LegacySkyhookConditionTransition
  else if bool_decide (conditionType ∈ [SkyhookConditionTaintNotTolerable; SkyhookConditionNodesIgnored;
                                        SkyhookConditionApplyPackage; SkyhookConditionDeploymentPolicyNotFound])
  then prefixed conditionType
  else if has_prefix conditionType (METADATA_PREFIX +:+ "/") then conditionType
  else prefixed conditionType.

Definition set_cond_Type (t : string) (c : Condition) : Condition :=
  {| cond_Type := t; cond_Status := cond_Status c; cond_ObservedGeneration := cond_ObservedGeneration c;
     cond_LastTransitionTime := cond_LastTransitionTime c; cond_Reason := cond_Reason c;
     cond_Message := cond_Message c |}.

Definition set_cond_time (t : Z) (c : Condition) : Condition :=
  {| cond_Type := cond_Type c; cond_Status := cond_Status c; cond_ObservedGeneration := cond_ObservedGeneration c;
     cond_LastTransitionTime := t; cond_Reason := cond_Reason c; cond_Message := cond_Message c |}.

(** The body the two [conditionWithStableTransitionTime] functions share: [same]
    is the test of their loop. *)
Definition stable_time (same : Condition -> bool) (now : Z) (conditions : list Condition) (condition : Condition)
  : Condition :=
  let condition := if (cond_LastTransitionTime condition =? 0)%Z then set_cond_time now condition else condition in
  match List.find same conditions with
  | Some existing => set_cond_time (cond_LastTransitionTime existing) condition
  | None => condition
  end.

Definition same_type_status (c existing : Condition) : bool :=
  bool_decide (cond_Type existing = cond_Type c) && bool_decide (cond_Status existing = cond_Status c).

Definition conditionWithStableTransitionTime (now : Z) (conditions : list Condition) (c : Condition) : Condition :=
  stable_time (same_type_status c) now conditions c.

Definition conditionWithStableTransitionTimeForReasonOrMessage (now : Z) (conditions : list Condition)
    (c : Condition) : Condition :=
  stable_time (fun existing => same_type_status c existing &&
    bool_decide (cond_Reason existing = cond_Reason c) && bool_decide (cond_Message existing = cond_Message c))
    now conditions c.

Definition skyhookConditionsEqual (left right : Condition) : bool :=
  bool_decide (cond_Type left = cond_Type right) && bool_decide (cond_Status left = cond_Status right) &&
  (cond_ObservedGeneration left =? cond_ObservedGeneration right)%Z &&
  (cond_LastTransitionTime left =? cond_LastTransitionTime right)%Z &&
  bool_decide (cond_Reason left = cond_Reason right) && bool_decide (cond_Message left = cond_Message right).

Fixpoint addOrUpdateSkyhookCondition (conditions : list Condition) (c : Condition) : list Condition * bool :=
  match conditions with
  | [] => ([c], true)
  | existing :: rest =>
      if negb (bool_decide (cond_Type existing = cond_Type c)) then
        let '(rest', changed) := addOrUpdateSkyhookCondition rest c in (existing :: rest', changed)
      else if skyhookConditionsEqual existing c then (conditions, false)
      else (c :: rest, true)
  end.

Definition addSkyhookCondition (s : Skyhook) (c : Condition) : Skyhook * bool :=
  let '(conditions, changed) := addOrUpdateSkyhookCondition (Conditions (sk_Status s)) c in
  if changed then (touch (map_status (set_Conditions conditions) s), true) else (s, false).

Definition AddSkyhookCondition (now : Z) (s : Skyhook) (c : Condition) : Skyhook * bool :=
  addSkyhookCondition s (conditionWithStableTransitionTime now (Conditions (sk_Status s)) c).

Definition AddSkyhookConditionRefreshingTransitionOnReasonOrMessage (now : Z) (s : Skyhook) (c : Condition)
  : Skyhook * bool :=
  addSkyhookCondition s (conditionWithStableTransitionTimeForReasonOrMessage now (Conditions (sk_Status s)) c).

Definition AddSkyhookConditionWithLegacy (now : Z) (s : Skyhook) (c : Condition) : Skyhook * bool :=
  let '(s, changed) := AddSkyhookCondition now s c in
  let legacyType := LegacySkyhookConditionType (cond_Type c) in
  if bool_decide (legacyType = "") then (s, changed)
  else
    let '(s, changed') := AddSkyhookCondition now s (set_cond_Type legacyType c) in
    (s, changed' || changed).

Definition AddCondition (now : Z) (s : Skyhook) (c : Condition) : Skyhook := (AddSkyhookCondition now s c).1.

Fixpoint remove_condition (condType : string) (conditions : list Condition) : option (list Condition) :=
  match conditions with
  | [] => None
  | c :: rest =>
      if bool_decide (cond_Type c = condType) then Some rest
      else match remove_condition condType rest with Some rest' => Some (c :: rest') | None => None end
  end.

Definition RemoveCondition (condType : string) (s : Skyhook) : Skyhook :=
  match remove_condition condType (Conditions (sk_Status s)) with
  | Some conditions => touch (map_status (set_Conditions conditions) s)
  | None => s
  end.

Definition RemoveSkyhookConditionTypes (s : Skyhook) (conditionTypes : list string) : Skyhook * bool :=
  let removed c := bool_decide (cond_Type c ∈ conditionTypes) in
  let conditions := Conditions (sk_Status s) in
  if any removed conditions
  then (touch (map_status (set_Conditions (List.filter (fun c => negb (removed c)) conditions)) s), true)
  else (s, false).

Definition HasTrueSkyhookCondition (s : Skyhook) (conditionTypes : list string) : bool :=
  any (fun c => any (fun t => bool_decide (cond_Type c = t) && bool_decide (cond_Status c = ConditionTrue))
                    conditionTypes) (Conditions (sk_Status s)).

(* ------------------------------------------------------------------ *)
(** ** The message of the Ready condition *)

(** [byStatus] of [SkyhookReadyConditionStatusGroups], as a function of the key. *)
Definition SkyhookReadyConditionStatusGroups (nodeStatuses : gmap string Status) (sortedNodeNames : list string)
  : Status -> list string :=
  fun status => List.filter (fun n =>
    bool_decide (match nodeStatuses !! n with Some st => st | None => StatusUnknown end = status)) sortedNodeNames.

Definition nodeProgressStatusLabel (status : Status) : string :=
  match status with StatusInProgress => "in progress" | _ => status_string status end.

Definition formatNodeList (nodes : list string) : string :=
  if bool_decide (nodes = []) then ""
  else if (ReadyConditionNodeListLimit <? zlen nodes)%Z then " (list truncated; see controller logs)"
  else " (" +:+ join ", " nodes +:+ ")".

Definition ready_part (byStatus : Status -> list string) (status : Status) : list string :=
  match byStatus status with
  | [] => []
  | nodes => [show_int (zlen nodes) +:+ " " +:+ nodeProgressStatusLabel status +:+ formatNodeList nodes]
  end.

Definition ready_order : list Status :=
  [StatusInProgress; StatusBlocked; StatusErroring; StatusWaiting; StatusPaused; StatusDisabled; StatusUnknown].

Definition skyhookReadyConditionMessageFromStatusGroups (byStatus : Status -> list string) (total : Z) : string :=
  let complete := byStatus StatusComplete in
  join ", " ((show_int (zlen complete) +:+ "/" +:+ show_int total +:+ " nodes complete" +:+ formatNodeList complete)
             :: flat_map (ready_part byStatus) ready_order).

Definition SkyhookReadyConditionMessage (nodeStatuses : gmap string Status) (sortedNodeNames : list string) : string :=
  skyhookReadyConditionMessageFromStatusGroups
    (SkyhookReadyConditionStatusGroups nodeStatuses sortedNodeNames) (zlen sortedNodeNames).

(** The groups of all statuses the names have: a group is long whatever its status. *)
Definition SkyhookReadyConditionMessageTruncated (byStatus : list (Status * list string)) : bool :=
  any (fun g => (ReadyConditionNodeListLimit <? zlen g.2)%Z) byStatus.

(* ------------------------------------------------------------------ *)
(** ** Lemmas *)

Lemma skyhookConditionsEqual_spec l r : skyhookConditionsEqual l r = true <-> l = r.
Proof.
  unfold skyhookConditionsEqual. destruct l, r; simpl. split.
  - intros H. bool_simpl. congruence.
  - intros [= -> -> -> -> -> ->]. by rewrite !bool_decide_eq_true_2, !Z.eqb_refl.
Qed.

(** The entry an update finds, if any. *)
Definition entry_of (t : string) (conditions : list Condition) : option Condition :=
  List.find (fun e => bool_decide (cond_Type e = t)) conditions.

Lemma addOrUpdate_spec conditions c :
  let '(conditions', changed) := addOrUpdateSkyhookCondition conditions c in
  entry_of (cond_Type c) conditions' = Some c /\
  (changed = false <-> entry_of (cond_Type c) conditions = Some c) /\
  (changed = false -> conditions' = conditions) /\
  (forall t, t <> cond_Type c -> entry_of t conditions' = entry_of t conditions) /\
  (map cond_Type conditions' = map cond_Type conditions \/
   cond_Type c ∉ map cond_Type conditions /\ map cond_Type conditions' = map cond_Type conditions ++ [cond_Type c]).
Proof.
  unfold entry_of. induction conditions as [|e l IH]; simpl.
  - rewrite bool_decide_eq_true_2 by done. split_and!; try done.
    + intros t Ht. by rewrite bool_decide_eq_false_2.
    + right. split; [apply not_elem_of_nil|done].
  - destruct (addOrUpdateSkyhookCondition l c) as [l' ch]. destruct IH as (IH1 & IH2 & IH3 & IH4 & IH5).
    case_bool_decide as Ht; simpl.
    + destruct (skyhookConditionsEqual e c) eqn:E; simpl.
      * apply skyhookConditionsEqual_spec in E as ->. rewrite bool_decide_eq_true_2 by done.
        split_and!; try done. by left.
      * rewrite bool_decide_eq_true_2 by done. split_and!; try done.
        -- split; [done|]. intros [= ->]. rewrite (proj2 (skyhookConditionsEqual_spec c c)) in E; done.
        -- intros t Hne. rewrite !bool_decide_eq_false_2; congruence.
        -- left. by rewrite Ht.
    + rewrite bool_decide_eq_false_2 by done. split_and!; try done.
      * intros H. by rewrite IH3.
      * intros t Hne. case_bool_decide; [done|]. by apply IH4.
      * destruct IH5 as [->|[Hn ->]]; [by left|]. right. split; [|done].
        apply not_elem_of_cons. auto.
Qed.

Lemma find_stable (t st : string) conditions e :
  entry_of t conditions = Some e -> cond_Type e = t -> cond_Status e = st ->
  List.find (fun x => bool_decide (cond_Type x = t) && bool_decide (cond_Status x = st)) conditions = Some e.
Proof.
  unfold entry_of. induction conditions as [|x l IH]; simpl; [done|]. case_bool_decide as Hx; simpl; [|done].
  intros [= ->] _ Hs. by rewrite bool_decide_eq_true_2.
Qed.

Lemma stable_time_fields same now conditions c :
  cond_Type (stable_time same now conditions c) = cond_Type c /\
  cond_Status (stable_time same now conditions c) = cond_Status c /\
  cond_ObservedGeneration (stable_time same now conditions c) = cond_ObservedGeneration c /\
  cond_Reason (stable_time same now conditions c) = cond_Reason c /\
  cond_Message (stable_time same now conditions c) = cond_Message c.
Proof. unfold stable_time. repeat case_match; simpl; by repeat case_if. Qed.

(** Two conditions that differ at most in their transition time. *)
Definition same_but_time (c d : Condition) : Prop := set_cond_time 0 c = set_cond_time 0 d.

Lemma stable_time_same same now conditions c : same_but_time (stable_time same now conditions c) c.
Proof.
  unfold same_but_time. destruct (stable_time_fields same now conditions c) as (H1 & H2 & H3 & H4 & H5).
  unfold set_cond_time. by rewrite H1, H2, H3, H4, H5.
Qed.

Lemma stable_time_found now conditions c e :
  entry_of (cond_Type c) conditions = Some e -> cond_Status e = cond_Status c ->
  cond_LastTransitionTime (conditionWithStableTransitionTime now conditions c) = cond_LastTransitionTime e.
Proof.
  intros He Hs. unfold conditionWithStableTransitionTime, stable_time, same_type_status.
  assert (Ht : cond_Type e = cond_Type c).
  { apply List.find_some in He as [_ He]. by bool_simpl. }
  by rewrite (find_stable _ _ _ _ He Ht Hs).
Qed.

Lemma same_but_time_eq c d : same_but_time c d -> cond_LastTransitionTime c = cond_LastTransitionTime d -> c = d.
Proof. unfold same_but_time, set_cond_time. destruct c, d; simpl. intros [= -> -> -> -> ->] ->. done. Qed.

Lemma addOrUpdate_NoDup conditions c :
  NoDup (map cond_Type conditions) -> NoDup (map cond_Type (addOrUpdateSkyhookCondition conditions c).1).
Proof.
  pose proof (addOrUpdate_spec conditions c) as H.
  destruct (addOrUpdateSkyhookCondition conditions c) as [cs ch]. destruct H as (_ & _ & _ & _ & H). simpl.
  destruct H as [->|[Hn ->]]; [done|]. intros Hnd. apply NoDup_app. split_and!; [done| |by apply NoDup_singleton].
  intros t Ht ->%list_elem_of_singleton. done.
Qed.

(* ------------------------------------------------------------------ *)
(** ** Properties *)

(** Adding a condition records it under its type and leaves the conditions
    of other types; types stay distinct; the transition time is kept while the
    status is; and asserting the same condition again, at whatever time and
    with whatever time in it, changes nothing and does not mark the resource
    as updated. *)
Theorem AddSkyhookCondition_spec now s c :
  let r := AddSkyhookCondition now s c in
  let before := Conditions (sk_Status s) in
  let after := Conditions (sk_Status r.1) in
  (exists e, entry_of (cond_Type c) after = Some e /\ same_but_time e c /\
     forall e0, entry_of (cond_Type c) before = Some e0 -> cond_Status e0 = cond_Status c ->
       cond_LastTransitionTime e = cond_LastTransitionTime e0) /\
  (forall t, t <> cond_Type c -> entry_of t after = entry_of t before) /\
  (NoDup (map cond_Type before) -> NoDup (map cond_Type after)) /\
  (r.2 = false -> r.1 = s) /\
  (forall now' t', AddSkyhookCondition now' r.1 (set_cond_time t' c) = (r.1, false)).
Proof.
  cbv zeta. unfold AddSkyhookCondition, addSkyhookCondition.
  set (c1 := conditionWithStableTransitionTime now (Conditions (sk_Status s)) c).
  assert (Hsame : same_but_time c1 c) by apply stable_time_same.
  assert (Htype : cond_Type c1 = cond_Type c) by apply stable_time_fields.
  assert (Hstatus : cond_Status c1 = cond_Status c) by apply stable_time_fields.
  pose proof (addOrUpdate_spec (Conditions (sk_Status s)) c1) as H.
  pose proof (addOrUpdate_NoDup (Conditions (sk_Status s)) c1) as HN.
  destruct (addOrUpdateSkyhookCondition (Conditions (sk_Status s)) c1) as [cs ch].
  destruct H as (He & Hch & Hcs & Hother & _). rewrite Htype in *. simpl in HN.
  assert (Hafter : Conditions (sk_Status (if ch then (touch (map_status (set_Conditions cs) s), true) else (s, false)).1) = cs).
  { destruct ch; simpl; [done|]. by rewrite Hcs. }
  rewrite Hafter. split_and!; [|done|done|by destruct ch|].
  - exists c1. split_and!; [done..|]. intros e0 He0 Hs0. by apply stable_time_found.
  - intros now' t'. set (c2 := conditionWithStableTransitionTime _ _ _).
    assert (c2 = c1) as ->.
    { apply same_but_time_eq; [|by apply stable_time_found].
      transitivity (set_cond_time 0 (set_cond_time t' c)); [apply stable_time_same|].
      symmetry. apply Hsame. }
    pose proof (addOrUpdate_spec cs c1) as H2. destruct (addOrUpdateSkyhookCondition cs c1) as [cs2 ch2].
    destruct H2 as (_ & Hch2 & _). rewrite Htype in Hch2. by rewrite (proj2 Hch2 He).
Qed.
