(* ===== verification/Text.v ===== *)
(** * The operator's values are countable

    The encoders of the standard library are parameters of the model.  With the
    texts of [Encoding], these instances give functions that satisfy their
    laws. *)

From S2P Require Export Encoding.
From S2P Require Import Prelude Graph DeploymentPolicy Api.
From stdpp Require Import countable.

Definition stage_code (s : Stage) : nat + string :=
  match s with
  | StageUninstall => inl 0 | StageUninstallInterrupt => inl 1 | StageUpgrade => inl 2 | StageApply => inl 3
  | StageInterrupt => inl 4 | StagePostInterrupt => inl 5 | StageConfig => inl 6 | StageOther s => inr s
  end.

Definition code_stage (c : nat + string) : Stage :=
  match c with
  | inl 0 => StageUninstall | inl 1 => StageUninstallInterrupt | inl 2 => StageUpgrade | inl 3 => StageApply
  | inl 4 => StageInterrupt | inl 5 => StagePostInterrupt | inl _ => StageConfig | inr s => StageOther s
  end.

Definition state_code (s : State) : nat + string :=
  match s with
  | StateComplete => inl 0 | StateInProgress => inl 1 | StateSkipped => inl 2 | StateErroring => inl 3
  | StateUnknown => inl 4 | StateOther s => inr s
  end.

Definition code_state (c : nat + string) : State :=
  match c with
  | inl 0 => StateComplete | inl 1 => StateInProgress | inl 2 => StateSkipped | inl 3 => StateErroring
  | inl _ => StateUnknown | inr s => StateOther s
  end.

#[export] Instance Stage_countable : Countable Stage.
Proof. apply (inj_countable' stage_code code_stage). by intros []. Defined.
#[export] Instance State_countable : Countable State.
Proof. apply (inj_countable' state_code code_state). by intros []. Defined.

Definition status_code (s : PackageStatus) : string * string * string * string * Stage * State * Z :=
  (ps_Name s, ps_Version s, ps_Image s, ps_ContainerSHA s, ps_Stage s, ps_State s, ps_Restarts s).

Definition code_status (c : string * string * string * string * Stage * State * Z) : PackageStatus :=
  let '(n, v, i, sha, st, state, r) := c in
  {| ps_Name := n; ps_Version := v; ps_Image := i; ps_ContainerSHA := sha; ps_Stage := st; ps_State := state;
     ps_Restarts := r |}.

#[export] Instance PackageStatus_countable : Countable PackageStatus.
Proof. apply (inj_countable' status_code code_status). by intros []. Defined.
