(* ===== verification/Node.v ===== *)
(** * The node wrapper

    Models [operator/internal/wrapper/node.go].  A [skyhookNode] built from a
    name only is a [SkyhookNodeOnly]; [Convert] adds the resource and the graph
    to make a [SkyhookNode], so that the methods that follow the resource
    pointer exist exactly where it is not nil.  The cached node state is an
    option: nil is not the empty map here, because [State] reads the annotation
    again when the cache is nil.

    The JSON text of a node state and the RFC 3339 text of a time are kept
    abstract: [NodeStateJSON] and [TimeText] are the standard library's
    encoders with their round-trip laws. *)

From S2P Require Import Prelude Graph DeploymentPolicy Api NodeState Skyhook Text.

(* ------------------------------------------------------------------ *)
(** ** Encoders *)

Class NodeStateJSON := {
  json_Marshal : NodeState -> string;
  (** [json.Unmarshal] into an empty map; the text [null] makes it nil *)
  json_Unmarshal : string -> res (option NodeState);
  json_roundtrip : forall ns, json_Unmarshal (json_Marshal ns) = Ok (Some ns)
}.

Class TimeText := {
  time_Format : Z -> string;
  time_Parse : string -> res Z;
  time_roundtrip : forall t, time_Parse (time_Format t) = Ok t
}.

Lemma json_Marshal_inj `{NodeStateJSON} ns ns' : json_Marshal ns = json_Marshal ns' -> ns = ns'.
Proof. intros E. pose proof (json_roundtrip ns) as H1. rewrite E, json_roundtrip in H1. congruence. Qed.

(* ------------------------------------------------------------------ *)
(** ** The Kubernetes node *)

Record NodeCondition := {
  nc_Type : string; nc_Status : string; nc_LastHeartbeatTime : Z; nc_LastTransitionTime : Z;
  nc_Reason : string; nc_Message : string
}.

Record Node := {
  n_Name : string;
  n_UID : string;
  n_CreationTimestamp : Z;
  n_Labels : gmap string string;
  n_Annotations : gmap string string;
  n_Taints : list Taint;
  n_Unschedulable : bool;
  n_Conditions : list NodeCondition;
  n_BootID : string
}.

Record SkyhookNodeOnly := {
  sn_Node : Node;
  sn_skyhookName : string;
  sn_nodeState : option NodeState;
  sn_updated : bool
}.

Record SkyhookNode := {
  full_Only : SkyhookNodeOnly;
  full_skyhook : Skyhook;
  full_graph : dag Package
}.

(** Assignments to the fields. *)
Definition set_n_Labels (v : gmap string string) (s : Node) : Node :=
  {| n_Name := n_Name s; n_UID := n_UID s; n_CreationTimestamp := n_CreationTimestamp s;
     n_Labels := v; n_Annotations := n_Annotations s; n_Taints := n_Taints s; n_Unschedulable :=
     n_Unschedulable s; n_Conditions := n_Conditions s; n_BootID := n_BootID s |}.
Definition set_n_Annotations (v : gmap string string) (s : Node) : Node :=
  {| n_Name := n_Name s; n_UID := n_UID s; n_CreationTimestamp := n_CreationTimestamp s;
     n_Labels := n_Labels s; n_Annotations := v; n_Taints := n_Taints s; n_Unschedulable :=
     n_Unschedulable s; n_Conditions := n_Conditions s; n_BootID := n_BootID s |}.
Definition set_n_Taints (v : list Taint) (s : Node) : Node :=
  {| n_Name := n_Name s; n_UID := n_UID s; n_CreationTimestamp := n_CreationTimestamp s;
     n_Labels := n_Labels s; n_Annotations := n_Annotations s; n_Taints := v; n_Unschedulable :=
     n_Unschedulable s; n_Conditions := n_Conditions s; n_BootID := n_BootID s |}.
Definition set_n_Unschedulable (v : bool) (s : Node) : Node :=
  {| n_Name := n_Name s; n_UID := n_UID s; n_CreationTimestamp := n_CreationTimestamp s;
     n_Labels := n_Labels s; n_Annotations := n_Annotations s; n_Taints := n_Taints s;
     n_Unschedulable := v; n_Conditions := n_Conditions s; n_BootID := n_BootID s |}.
Definition set_n_Conditions (v : list NodeCondition) (s : Node) : Node :=
  {| n_Name := n_Name s; n_UID := n_UID s; n_CreationTimestamp := n_CreationTimestamp s;
     n_Labels := n_Labels s; n_Annotations := n_Annotations s; n_Taints := n_Taints s;
     n_Unschedulable := n_Unschedulable s; n_Conditions := v; n_BootID := n_BootID s |}.
Definition set_sn_Node (v : Node) (s : SkyhookNodeOnly) : SkyhookNodeOnly :=
  {| sn_Node := v; sn_skyhookName := sn_skyhookName s; sn_nodeState := sn_nodeState s;
     sn_updated := sn_updated s |}.
Definition set_sn_nodeState (v : option NodeState) (s : SkyhookNodeOnly) : SkyhookNodeOnly :=
  {| sn_Node := sn_Node s; sn_skyhookName := sn_skyhookName s; sn_nodeState := v; sn_updated :=
     sn_updated s |}.
Definition set_sn_updated (v : bool) (s : SkyhookNodeOnly) : SkyhookNodeOnly :=
  {| sn_Node := sn_Node s; sn_skyhookName := sn_skyhookName s; sn_nodeState := sn_nodeState s;
     sn_updated := v |}.
Definition set_full_Only (v : SkyhookNodeOnly) (s : SkyhookNode) : SkyhookNode :=
  {| full_Only := v; full_skyhook := full_skyhook s; full_graph := full_graph s |}.
Definition set_full_skyhook (v : Skyhook) (s : SkyhookNode) : SkyhookNode :=
  {| full_Only := full_Only s; full_skyhook := v; full_graph := full_graph s |}.

(** [node.GetNode().Name] *)
Definition f_name (f : SkyhookNode) : string := n_Name (sn_Node (full_Only f)).

Definition n_map (f : Node -> Node) (n : SkyhookNodeOnly) : SkyhookNodeOnly := set_sn_Node (f (sn_Node n)) n.
Definition mark_updated (n : SkyhookNodeOnly) : SkyhookNodeOnly := set_sn_updated true n.
Definition annotations (n : SkyhookNodeOnly) : gmap string string := n_Annotations (sn_Node n).
Definition put_annotation (k v : string) (n : SkyhookNodeOnly) : SkyhookNodeOnly :=
  n_map (fun m => set_n_Annotations (<[k := v]> (n_Annotations m)) m) n.
Definition drop_annotation (k : string) (n : SkyhookNodeOnly) : SkyhookNodeOnly :=
  n_map (fun m => set_n_Annotations (delete k (n_Annotations m)) m) n.
Definition put_label (k v : string) (n : SkyhookNodeOnly) : SkyhookNodeOnly :=
  n_map (fun m => set_n_Labels (<[k := v]> (n_Labels m)) m) n.
Definition drop_label (k : string) (n : SkyhookNodeOnly) : SkyhookNodeOnly :=
  n_map (fun m => set_n_Labels (delete k (n_Labels m)) m) n.

(** [fmt.Sprintf("%s/<kind>_%s", METADATA_PREFIX, skyhookName)] *)
Definition node_key (kind skyhookName : string) : string :=
  METADATA_PREFIX +:+ "/" +:+ kind +:+ "_" +:+ skyhookName.

Definition statusKey (n : SkyhookNodeOnly) : string := node_key "status" (sn_skyhookName n).
Definition nodeStateKey (n : SkyhookNodeOnly) : string := node_key "nodeState" (sn_skyhookName n).
Definition versionKey (n : SkyhookNodeOnly) : string := node_key "version" (sn_skyhookName n).
Definition drainStartAnnotationKey (n : SkyhookNodeOnly) : string := node_key "drainStart" (sn_skyhookName n).

Definition cordonAnnotationPrefix : string := METADATA_PREFIX +:+ "/cordon_".
Definition cordonAnnotationKey (skyhookName : string) : string := cordonAnnotationPrefix +:+ skyhookName.
Definition cordonAnnotationValue : string := "true".
Definition RuntimeRequiredCordonAnnotation : string := METADATA_PREFIX +:+ "/runtimeRequiredCordon".

(* ------------------------------------------------------------------ *)
(** ** Cordons, drains, taints *)

Section Node.
Context `{MR : MapRange} `{JS : NodeStateJSON} `{TT : TimeText}.

Definition hasSkyhookCordon (annotations : gmap string string) : bool :=
  any (fun kv => has_prefix kv.1 cordonAnnotationPrefix) (range annotations) ||
  match annotations !! RuntimeRequiredCordonAnnotation with Some _ => true | None => false end.

Definition Cordon (n : SkyhookNodeOnly) : SkyhookNodeOnly * bool :=
  let held := match annotations n !! cordonAnnotationKey (sn_skyhookName n) with Some _ => true | None => false end in
  if negb (n_Unschedulable (sn_Node n)) || negb held then
    (mark_updated (put_annotation (cordonAnnotationKey (sn_skyhookName n)) cordonAnnotationValue
       (n_map (set_n_Unschedulable true) n)), true)
  else (n, false).

Definition Uncordon (n : SkyhookNodeOnly) : SkyhookNodeOnly :=
  match annotations n !! cordonAnnotationKey (sn_skyhookName n) with
  | Some _ =>
      let n := drop_annotation (cordonAnnotationKey (sn_skyhookName n)) n in
      mark_updated (if negb (hasSkyhookCordon (annotations n)) then n_map (set_n_Unschedulable false) n else n)
  | None => n
  end.

Definition StartDrain (startedAt : Z) (n : SkyhookNodeOnly) : SkyhookNodeOnly :=
  match annotations n !! drainStartAnnotationKey n with
  | Some _ => n
  | None => mark_updated (put_annotation (drainStartAnnotationKey n) (time_Format startedAt) n)
  end.

Definition DrainStartedAt (n : SkyhookNodeOnly) : res (option Z) :=
  match annotations n !! drainStartAnnotationKey n with
  | None => Ok None
  | Some value => rwrap "error parsing drain start annotation: %w" [] (rbind (time_Parse value) (fun t => Ok (Some t)))
  end.

Definition ClearDrainStart (n : SkyhookNodeOnly) : SkyhookNodeOnly :=
  match annotations n !! drainStartAnnotationKey n with
  | None => n
  | Some _ => mark_updated (drop_annotation (drainStartAnnotationKey n) n)
  end.

Definition TaintEffectNoSchedule : string := "NoSchedule".

(** [Taint] writes the resource's name, so it needs the resource. *)
Definition AddTaint (key : string) (f : SkyhookNode) : SkyhookNode :=
  let n := full_Only f in
  if any (fun t => bool_decide (taint_Key t = key)) (n_Taints (sn_Node n)) then f
  else set_full_Only (mark_updated (n_map (fun m => set_n_Taints (n_Taints m ++
         [{| taint_Key := key; taint_Value := nw_Name (sk_nw (full_skyhook f));
             taint_Effect := TaintEffectNoSchedule |}]) m) n)) f.

Definition RemoveTaint (key : string) (n : SkyhookNodeOnly) : SkyhookNodeOnly :=
  let taints := n_Taints (sn_Node n) in
  let temp := List.filter (fun t => negb (bool_decide (taint_Key t = key))) taints in
  if (zlen taints =? 0)%Z then n
  else if (zlen temp <? zlen taints)%Z then mark_updated (n_map (set_n_Taints temp) n) else n.

Definition HasSkyhookAnnotations (n : SkyhookNodeOnly) : bool :=
  any (fun kv => has_prefix kv.1 (METADATA_PREFIX +:+ "/")) (range (annotations n)).

(* ------------------------------------------------------------------ *)
(** ** Status and version *)

Definition node_Status (n : SkyhookNodeOnly) : Status :=
  match annotations n !! statusKey n with Some s => GetStatus s | None => StatusUnknown end.

(** [SetStatus] without a resource: annotation, label and cordon. *)
Definition SetStatus_only (status : Status) (n : SkyhookNodeOnly) : SkyhookNodeOnly :=
  let write := put_label (statusKey n) (status_string status)
                 (put_annotation (statusKey n) (status_string status) (mark_updated n)) in
  let n := match annotations n !! statusKey n with
           | Some s => if negb (bool_decide (s = status_string status)) then write else n
           | None => write
           end in
  if bool_decide (status = StatusComplete) then Uncordon n else n.

Definition node_SetStatus (status : Status) (f : SkyhookNode) : SkyhookNode :=
  let n := SetStatus_only status (full_Only f) in
  let s := SetNodeStatus (n_Name (sn_Node n)) status (full_skyhook f) in
  let s := SetNodeState (n_Name (sn_Node n)) (sn_nodeState n) s in
  {| full_Only := n; full_skyhook := s; full_graph := full_graph f |}.

Definition node_GetVersion (n : SkyhookNodeOnly) : string := default "" (annotations n !! versionKey n).

Definition node_SetVersion (VERSION : string) (n : SkyhookNodeOnly) : SkyhookNodeOnly :=
  if bool_decide (node_GetVersion n = VERSION) then n
  else if bool_decide (VERSION = "") then n
  else mark_updated (put_annotation (versionKey n) VERSION n).

(* ------------------------------------------------------------------ *)
(** ** The node state annotation *)

Definition node_State (n : SkyhookNodeOnly) : res (option NodeState) :=
  match sn_nodeState n with
  | Some ns => Ok (Some ns)
  | None =>
      match annotations n !! nodeStateKey n with
      | None => Ok None
      | Some s => rwrap "error unmarshalling node state: %w" [] (json_Unmarshal s)
      end
  end.

(** On an error the cache is left nil and the caller is told. *)
Definition ReloadState (n : SkyhookNodeOnly) : SkyhookNodeOnly * res unit :=
  let n := set_sn_nodeState None n in
  match rwrap "reloading node state for %s: %w" [n_Name (sn_Node n)] (node_State n) with
  | Ok state => (set_sn_nodeState state n, Ok tt)
  | Err e => (n, Err e)
  | Panic => (n, Panic)
  end.

Definition NewSkyhookNodeOnly (node : Node) (skyhookName : string) : SkyhookNodeOnly :=
  let ret := {| sn_Node := node; sn_skyhookName := skyhookName; sn_nodeState := None; sn_updated := false |} in
  match node_State ret with
  | Ok state => set_sn_nodeState state ret
  | _ => ret
  end.

Definition Convert (n : SkyhookNodeOnly) (skyhook : NodeWright) : res SkyhookNode :=
  rbind (BuildGraph (Spec skyhook)) (fun graph =>
  Ok {| full_Only := n; full_skyhook := NewSkyhookWrapper skyhook; full_graph := graph |}).

Definition NewSkyhookNode (node : Node) (skyhook : NodeWright) : res SkyhookNode :=
  Convert (NewSkyhookNodeOnly node (nw_Name skyhook)) skyhook.

Definition SetState (state : option NodeState) (n : SkyhookNodeOnly) : SkyhookNodeOnly :=
  match state with
  | None => n
  | Some ns =>
      let data := json_Marshal ns in
      let write := mark_updated (set_sn_nodeState (Some ns) (put_annotation (nodeStateKey n) data n)) in
      match annotations n !! nodeStateKey n with
      | Some s => if negb (bool_decide (s = data)) then write else n
      | None => write
      end
  end.

(** Methods of a nil [NodeState] read it as empty; they change the cached map in
    place, and [SetState] then writes it out. *)
Definition cached (n : SkyhookNodeOnly) : NodeState := default ∅ (sn_nodeState n).

Definition node_RemoveState (p : PackageRef) (n : SkyhookNodeOnly) : SkyhookNodeOnly :=
  let '(ns, changed) := RemoveState (cached n) p in
  if changed then SetState (Some ns) (set_sn_nodeState (Some ns) n) else n.

(** [Upsert] allocates the map when it was nil, changed or not. *)
Definition Upsert_only (p : PackageRef) (image : string) (state : State) (stage : Stage) (restarts : Z)
    (containerSHA : string) (n : SkyhookNodeOnly) : SkyhookNodeOnly * bool :=
  let '(ns, changed) := Upsert (cached n) p image state stage restarts containerSHA in
  let n := set_sn_nodeState (Some ns) n in
  (if changed then SetState (Some ns) n else n, changed).

Definition node_Upsert (p : PackageRef) (image : string) (state : State) (stage : Stage) (restarts : Z)
    (containerSHA : string) (f : SkyhookNode) : SkyhookNode :=
  let '(n, changed) := Upsert_only p image state stage restarts containerSHA (full_Only f) in
  set_full_Only n (if changed then set_full_skyhook (touch (full_skyhook f)) f else f).

Definition node_PackageStatus (n : SkyhookNodeOnly) (name : string) : option PackageStatus := ns_Get (cached n) name.

(* ------------------------------------------------------------------ *)
(** ** Progress of the packages *)

Definition f_packages (f : SkyhookNode) : Packages := sp_Packages (sk_Spec (full_skyhook f)).
Definition f_interrupts (f : SkyhookNode) := GetConfigInterrupts (full_skyhook f).
Definition f_updates (f : SkyhookNode) := GetConfigUpdates (full_skyhook f).

Definition node_IsPackageComplete (f : SkyhookNode) (p : Package) : bool :=
  IsPackageComplete (cached (full_Only f)) p (f_interrupts f) (f_updates f).
Definition node_IsComplete (f : SkyhookNode) : bool :=
  ns_IsComplete (cached (full_Only f)) (f_packages f) (f_interrupts f) (f_updates f).
Definition node_GetComplete (f : SkyhookNode) : list string :=
  GetComplete (cached (full_Only f)) (f_packages f) (f_interrupts f) (f_updates f).
Definition node_NextStage (f : SkyhookNode) (p : Package) : option Stage :=
  NextStage (cached (full_Only f)) p (f_interrupts f) (f_updates f).
Definition node_HasInterrupt (f : SkyhookNode) (p : Package) : bool :=
  ns_HasInterrupt p (f_interrupts f) (f_updates f).

(** A nil state has nothing to promote, so [SetState] is only called on a map. *)
Definition node_ProgressSkipped (f : SkyhookNode) : SkyhookNode :=
  let n := full_Only f in
  let '(ns, changed) := ProgressSkipped (cached n) (f_packages f) in
  if changed then
    {| full_Only := SetState (Some ns) (set_sn_nodeState (Some ns) n);
       full_skyhook := touch (full_skyhook f); full_graph := full_graph f |}
  else f.

(** [sort.Slice] by package name: the order of equal names is left open by the
    library; unique names make it definite. *)
Definition by_name (a b : Package) : Prop := str_le (pkg_Name a) (pkg_Name b).
#[export] Instance by_name_dec a b : Decision (by_name a b).
Proof. unfold by_name. apply _. Defined.

(** [Get] returns the pointers stored in the graph; a placeholder's is nil and
    comparing its name would panic. *)
Fixpoint all_present (l : list (option Package)) : res (list Package) :=
  match l with
  | [] => Ok []
  | p :: l => rbind (deref p) (fun p => rbind (all_present l) (fun l => Ok (p :: l)))
  end.

Definition RunNext (f : SkyhookNode) : res (list Package) :=
  rbind (Next (full_graph f) (node_GetComplete f)) (fun next =>
  rbind (Get (full_graph f) next) (fun toRun =>
  rbind (all_present toRun) (fun toRun => Ok (merge_sort by_name toRun)))).

(* ------------------------------------------------------------------ *)
(** ** Conditions, reset, cleanup *)

Definition conditionTypeNotReady : string := "NotReady".
Definition conditionTypeErroring : string := "Erroring".

Definition node_condition (now : Z) (type status reason message : string) : NodeCondition :=
  {| nc_Type := type; nc_Status := status; nc_LastHeartbeatTime := now; nc_LastTransitionTime := now;
     nc_Reason := reason; nc_Message := message |}.

Definition condition_type (n : SkyhookNodeOnly) (kind : string) : string :=
  METADATA_PREFIX +:+ "/" +:+ sn_skyhookName n +:+ "/" +:+ kind.

(** One iteration of the loop over the conditions; the error condition's case
    comes first. *)
Definition refresh_condition (errorCond cond c : NodeCondition) : NodeCondition * bool :=
  if bool_decide (nc_Type c = nc_Type errorCond) then
    if negb (bool_decide (nc_Reason c = nc_Reason errorCond)) && bool_decide (nc_Message c = nc_Message errorCond)
    then (errorCond, true) else (c, false)
  else if bool_decide (nc_Type c = nc_Type cond) then
    if negb (bool_decide (nc_Reason c = nc_Reason cond)) || negb (bool_decide (nc_Message c = nc_Message cond))
    then (cond, true) else (c, false)
  else (c, false).

Definition UpdateCondition (now : Z) (f : SkyhookNode) : SkyhookNode :=
  let n := full_Only f in
  let complete := node_IsComplete f in
  let erroring := any (fun kv => bool_decide (ps_State kv.2 = StateErroring) || bool_decide (ps_State kv.2 = StateUnknown))
                    (range (cached n)) in
  let cond := node_condition now (condition_type n conditionTypeNotReady)
                (if complete then "False" else "True") (if complete then "Complete" else "Incomplete")
                ("NodeWright " +:+ sn_skyhookName n +:+ " Ready") in
  let errorCond := node_condition now (condition_type n conditionTypeErroring)
                     (if erroring then "True" else "False")
                     (if erroring then "Package(s) Erroring or Unknown" else "Not Erroring")
                     ("Package Erroring or Unknown for " +:+ sn_skyhookName n) in
  let old := n_Conditions (sn_Node n) in
  let refreshed := map (refresh_condition errorCond cond) old in
  let errorCondFound := any (fun c => bool_decide (nc_Type c = nc_Type errorCond)) old in
  let condFound := any (fun c => negb (bool_decide (nc_Type c = nc_Type errorCond)) &&
                                 bool_decide (nc_Type c = nc_Type cond)) old in
  let conds := map fst refreshed in
  let conds := if errorCondFound then conds else errorCond :: conds in
  let conds := if condFound then conds else cond :: conds in
  let changed := any snd refreshed || negb errorCondFound || negb condFound in
  let n := n_map (set_n_Conditions conds) n in
  set_full_Only (if changed then mark_updated n else n) f.

Definition Reset (f : SkyhookNode) : SkyhookNode :=
  let n := full_Only f in
  let name := n_Name (sn_Node n) in
  let s := map_status (fun st =>
      set_st_Status StatusUnknown
        (set_NodeStatus (delete name (NodeStatus st))
          (set_st_NodeState (match st_NodeState st with Some m => Some (delete name m) | None => None end) st)))
      (full_skyhook f) in
  let n' := foldl (fun n k => drop_annotation k n) n
             [cordonAnnotationKey (sn_skyhookName n); drainStartAnnotationKey n; nodeStateKey n; statusKey n; versionKey n] in
  let n' := drop_label (statusKey n) n' in
  {| full_Only := mark_updated (set_sn_nodeState None n'); full_skyhook := touch s; full_graph := full_graph f |}.

(** The keys of this resource: the operator's prefix and the resource's name. *)
Definition owned_key (n : SkyhookNodeOnly) (key : string) : bool :=
  has_prefix key (METADATA_PREFIX +:+ "/") && has_suffix key ("_" +:+ sn_skyhookName n).

(** Deleting entries while ranging over the map they are in. *)
Definition delete_keys (p : string -> bool) (m : gmap string string) : gmap string string * bool :=
  let keys := List.filter p (range m).*1 in
  (foldl (fun m k => delete k m) m keys, match keys with [] => false | _ => true end).

Definition CleanupSCRMetadata (n : SkyhookNodeOnly) : SkyhookNodeOnly :=
  let preserveNodeState := match node_State n with Ok (Some ns) => (0 <? mlen ns)%Z | _ => false end in
  let '(anns, c1) := delete_keys (fun key => owned_key n key &&
      negb (preserveNodeState && (bool_decide (key = nodeStateKey n) || bool_decide (key = versionKey n))))
      (annotations n) in
  let '(labels, c2) := delete_keys (owned_key n) (n_Labels (sn_Node n)) in
  let condPrefix := METADATA_PREFIX +:+ "/" +:+ sn_skyhookName n +:+ "/" in
  let filtered := List.filter (fun c => negb (has_prefix (nc_Type c) condPrefix)) (n_Conditions (sn_Node n)) in
  let c3 := any (fun c => has_prefix (nc_Type c) condPrefix) (n_Conditions (sn_Node n)) in
  let n' := n_map (fun m => set_n_Conditions filtered (set_n_Labels labels (set_n_Annotations anns m))) n in
  let n' := if preserveNodeState then n' else set_sn_nodeState None n' in
  if c1 || c2 || c3 then mark_updated n' else n'.
End Node.

(* ------------------------------------------------------------------ *)
(** ** Lemmas: keys *)

Lemma cordon_key_has_prefix name : has_prefix (cordonAnnotationKey name) cordonAnnotationPrefix = true.
Proof. apply has_prefix_app. Qed.

(** Of the operator's keys only the cordons count as cordons. *)
Definition not_a_cordon (key : string) : Prop :=
  has_prefix key cordonAnnotationPrefix = false /\ key <> RuntimeRequiredCordonAnnotation.

Lemma node_keys_not_cordons n :
  not_a_cordon (statusKey n) /\ not_a_cordon (nodeStateKey n) /\
  not_a_cordon (versionKey n) /\ not_a_cordon (drainStartAnnotationKey n).
Proof. split_and!; split; first [reflexivity|discriminate]. Qed.

Section CordonLemmas.
Context `{MR : MapRange} `{JS : NodeStateJSON} `{TT : TimeText}.

Lemma hasSkyhookCordon_spec m :
  hasSkyhookCordon m = true <->
  exists k v, m !! k = Some v /\ (has_prefix k cordonAnnotationPrefix = true \/ k = RuntimeRequiredCordonAnnotation).
Proof.
  unfold hasSkyhookCordon. rewrite orb_true_iff, any_true. split.
  - intros [([k v] & Hk%elem_of_range & Hp)|H]; [by eauto 10|].
    destruct (m !! RuntimeRequiredCordonAnnotation) eqn:E; [eauto 10|done].
  - intros (k & v & Hk & [Hp| ->]); [left|by rewrite Hk; right].
    exists (k, v). by rewrite elem_of_range.
Qed.

(** Whatever cordon annotation is on the node, the node is unschedulable. *)
Definition cordons_hold (m : Node) : Prop :=
  hasSkyhookCordon (n_Annotations m) = true -> n_Unschedulable m = true.

Lemma cordons_hold_less m m' :
  cordons_hold m -> n_Unschedulable m' = n_Unschedulable m ->
  (forall k v, ~ not_a_cordon k -> n_Annotations m' !! k = Some v -> is_Some (n_Annotations m !! k)) ->
  cordons_hold m'.
Proof.
  unfold cordons_hold. intros H -> Hsub (k & v & Hk & Hc)%hasSkyhookCordon_spec. apply H.
  destruct (Hsub k v) as [w Hw]; [|done|].
  - unfold not_a_cordon. intros [Hn1 Hn2]. destruct Hc; congruence.
  - apply hasSkyhookCordon_spec. eauto 10.
Qed.

Lemma cordons_hold_put k v n :
  not_a_cordon k -> cordons_hold (sn_Node n) -> cordons_hold (sn_Node (put_annotation k v n)).
Proof.
  intros Hk H. eapply cordons_hold_less; [done|done|]. simpl. intros k' v' Hk' Hl.
  apply lookup_insert_Some in Hl as [[<- _]|[_ Hl]]; [done|eauto].
Qed.

Lemma cordons_hold_drop k n : cordons_hold (sn_Node n) -> cordons_hold (sn_Node (drop_annotation k n)).
Proof.
  intros H. eapply cordons_hold_less; [done|done|]. simpl. intros k' v' _ [_ Hl]%lookup_delete_Some. eauto.
Qed.

Lemma cordons_hold_Cordon n : cordons_hold (sn_Node n) -> cordons_hold (sn_Node (Cordon n).1).
Proof. intros H. unfold Cordon. case_if; [|done]. unfold cordons_hold. done. Qed.

Lemma cordons_hold_Uncordon n : cordons_hold (sn_Node n) -> cordons_hold (sn_Node (Uncordon n)).
Proof.
  intros H. unfold Uncordon. destruct (annotations n !! cordonAnnotationKey (sn_skyhookName n)); [|done].
  case_if; [|by apply (cordons_hold_drop _ n)]. bool_simpl. unfold cordons_hold. simpl.
  intros Hc. exfalso. revert E Hc. unfold annotations. simpl. congruence.
Qed.

Lemma cordons_hold_SetStatus status n : cordons_hold (sn_Node n) -> cordons_hold (sn_Node (SetStatus_only status n)).
Proof.
  intros H. destruct (node_keys_not_cordons n) as (Hs & _).
  assert (Hw : cordons_hold (sn_Node (put_label (statusKey n) (status_string status)
    (put_annotation (statusKey n) (status_string status) (mark_updated n))))).
  { eapply cordons_hold_less; [apply (cordons_hold_put (statusKey n) (status_string status) n Hs H)|done|].
    simpl. eauto. }
  unfold SetStatus_only.
  assert (HC : forall n', cordons_hold (sn_Node n') ->
    cordons_hold (sn_Node (if bool_decide (status = StatusComplete) then Uncordon n' else n'))).
  { intros n' Hn'. case_if; [by apply cordons_hold_Uncordon|done]. }
  apply HC. destruct (annotations n !! statusKey n); [case_if|]; done.
Qed.

Lemma cordons_hold_SetState state n : cordons_hold (sn_Node n) -> cordons_hold (sn_Node (SetState state n)).
Proof.
  intros H. destruct (node_keys_not_cordons n) as (_ & Hs & _). unfold SetState. destruct state as [ns|]; [|done].
  assert (Hw := cordons_hold_put (nodeStateKey n) (json_Marshal ns) n Hs H).
  destruct (annotations n !! nodeStateKey n); [case_if|]; done.
Qed.
End CordonLemmas.

(* ------------------------------------------------------------------ *)
(** ** The node under all its wrappers *)

Section Steps.
Context `{MR : MapRange} `{JS : NodeStateJSON} `{TT : TimeText}.

(** One call of a method through some wrapper of the node: any resource's, with
    any cached state. *)
Inductive node_step : Node -> Node -> Prop :=
| step_Cordon n : node_step (sn_Node n) (sn_Node (Cordon n).1)
| step_Uncordon n : node_step (sn_Node n) (sn_Node (Uncordon n))
| step_SetStatus status n : node_step (sn_Node n) (sn_Node (SetStatus_only status n))
| step_StartDrain t n : node_step (sn_Node n) (sn_Node (StartDrain t n))
| step_ClearDrainStart n : node_step (sn_Node n) (sn_Node (ClearDrainStart n))
| step_Taint key f : node_step (sn_Node (full_Only f)) (sn_Node (full_Only (AddTaint key f)))
| step_RemoveTaint key n : node_step (sn_Node n) (sn_Node (RemoveTaint key n))
| step_SetVersion v n : node_step (sn_Node n) (sn_Node (node_SetVersion v n))
| step_RemoveState p n : node_step (sn_Node n) (sn_Node (node_RemoveState p n))
| step_Upsert p i st sg r sha n : node_step (sn_Node n) (sn_Node (Upsert_only p i st sg r sha n).1)
| step_ProgressSkipped f : node_step (sn_Node (full_Only f)) (sn_Node (full_Only (node_ProgressSkipped f)))
| step_UpdateCondition now f : node_step (sn_Node (full_Only f)) (sn_Node (full_Only (UpdateCondition now f)))
| step_Reset f : node_step (sn_Node (full_Only f)) (sn_Node (full_Only (Reset f)))
| step_Cleanup n : node_step (sn_Node n) (sn_Node (CleanupSCRMetadata n)).

Lemma delete_keys_lookup p m k :
  (delete_keys p m).1 !! k = if p k then None else m !! k.
Proof.
  unfold delete_keys; simpl.
  assert (H : forall keys (m0 : gmap string string),
    foldl (fun m k => delete k m) m0 keys !! k = if bool_decide (k ∈ keys) then None else m0 !! k).
  { induction keys as [|k' keys IH]; intros m0; simpl; [done|]. rewrite IH.
    destruct (decide (k = k')) as [->|Hne].
    - rewrite lookup_delete_eq. rewrite (bool_decide_eq_true_2 (k' ∈ k' :: keys)) by by left. by case_bool_decide.
    - rewrite lookup_delete_ne by done. apply (f_equal (fun b : bool => if b then None else m0 !! k)).
      apply bool_decide_ext. rewrite elem_of_cons. naive_solver. }
  rewrite H. case_bool_decide as Hin.
  - apply elem_of_filterb in Hin as [_ ->]. done.
  - destruct (p k) eqn:Ep; [|done]. destruct (m !! k) eqn:Ek; [|done]. exfalso. apply Hin.
    apply elem_of_filterb. split; [|done]. apply elem_of_range_fst. by rewrite Ek.
Qed.

Lemma Cleanup_annotations n k :
  n_Annotations (sn_Node (CleanupSCRMetadata n)) !! k =
    if owned_key n k && negb (match node_State n with Ok (Some ns) => (0 <? mlen ns)%Z | _ => false end &&
                              (bool_decide (k = nodeStateKey n) || bool_decide (k = versionKey n)))
    then None else annotations n !! k.
Proof.
  unfold CleanupSCRMetadata. set (p := fun key => owned_key n key && _).
  pose proof (delete_keys_lookup p (annotations n) k) as H. unfold p at 2 in H. rewrite <- H. clear H.
  destruct (delete_keys p (annotations n)) as [anns c1].
  destruct (delete_keys _ (n_Labels (sn_Node n))) as [labels c2]. simpl. by repeat case_if.
Qed.

Lemma step_cordons_hold m m' : cordons_hold m -> node_step m m' -> cordons_hold m'.
Proof.
  intros H Hstep. destruct Hstep.
  - by apply cordons_hold_Cordon.
  - by apply cordons_hold_Uncordon.
  - by apply cordons_hold_SetStatus.
  - unfold StartDrain. case_match; [done|]. destruct (node_keys_not_cordons n) as (_ & _ & _ & Hd).
    by apply (cordons_hold_put _ (time_Format t) n Hd).
  - unfold ClearDrainStart. case_match; [|done]. by apply (cordons_hold_drop _ n).
  - unfold AddTaint. by case_if.
  - unfold RemoveTaint. by repeat case_if.
  - unfold node_SetVersion. repeat case_if; [done|done|]. destruct (node_keys_not_cordons n) as (_ & _ & Hv & _).
    by apply (cordons_hold_put _ v n Hv).
  - unfold node_RemoveState. destruct (RemoveState (cached n) p) as [ns []]; [|done].
    by apply cordons_hold_SetState.
  - unfold Upsert_only. destruct (Upsert (cached n) p i st sg r sha) as [ns []]; [|done].
    by apply cordons_hold_SetState.
  - unfold node_ProgressSkipped. destruct (ProgressSkipped _ _) as [ns []]; [|done].
    by apply cordons_hold_SetState.
  - unfold UpdateCondition. simpl. case_if; done.
  - unfold Reset. simpl. repeat (rewrite ?delete_empty). eapply cordons_hold_less; [done|done|]. simpl.
    intros k v _. rewrite !lookup_delete_Some. naive_solver.
  - eapply cordons_hold_less; [done| |].
    + unfold CleanupSCRMetadata. destruct (delete_keys _ (annotations n)), (delete_keys _ (n_Labels _)).
      by repeat case_if.
    + intros k v _ Hk. rewrite Cleanup_annotations in Hk. case_match; [done|]. unfold annotations in Hk. eauto.
Qed.

(* ------------------------------------------------------------------ *)
(** ** Lemmas: the cached state and the annotation *)

(** Reading the annotation again gives the cached state. *)
Definition in_sync (n : SkyhookNodeOnly) : Prop :=
  node_State (set_sn_nodeState None n) = Ok (sn_nodeState n).

Lemma SetState_spec ns n :
  let n' := SetState (Some ns) (set_sn_nodeState (Some ns) n) in
  sn_nodeState n' = Some ns /\ annotations n' !! nodeStateKey n' = Some (json_Marshal ns) /\ in_sync n' /\
  sn_skyhookName n' = sn_skyhookName n /\
  (sn_updated n' = false -> annotations n' = annotations n).
Proof.
  intros n'. assert (H : sn_nodeState n' = Some ns /\ annotations n' !! nodeStateKey n' = Some (json_Marshal ns) /\
    sn_skyhookName n' = sn_skyhookName n /\ (sn_updated n' = false -> annotations n' = annotations n)).
  { unfold n', SetState, annotations.
    change (nodeStateKey (set_sn_nodeState (Some ns) n)) with (nodeStateKey n). simpl.
    destruct (n_Annotations (sn_Node n) !! nodeStateKey n) as [s|] eqn:E.
    - case_bool_decide as Hs; simpl; [|split_and!; [done|apply lookup_insert_eq|done|done]].
      subst s. split_and!; [done|exact E|done|done].
    - simpl. split_and!; [done|apply lookup_insert_eq|done|done]. }
  destruct H as (H1 & H2 & H3 & H4). split_and!; [done|done| |done|done].
  unfold in_sync, node_State. simpl.
  change (annotations (set_sn_nodeState None n')) with (annotations n').
  change (nodeStateKey (set_sn_nodeState None n')) with (nodeStateKey n').
  by rewrite H2, json_roundtrip, H1.
Qed.

#[local] Arguments SetState : simpl never.

(** What a method leaves in the cache and, when in sync, in the annotation. *)
Lemma Upsert_only_spec p image state stage restarts sha n : in_sync n ->
  let n' := (Upsert_only p image state stage restarts sha n).1 in
  in_sync n' /\ sn_nodeState n' = Some (Upsert (cached n) p image state stage restarts sha).1 /\
  sn_skyhookName n' = sn_skyhookName n.
Proof.
  intros Hs. unfold Upsert_only. destruct (Upsert (cached n) p image state stage restarts sha) as [ns ch] eqn:E.
  destruct ch; simpl.
  - destruct (SetState_spec ns n) as (H1 & _ & H3 & H4 & _). done.
  - assert (Some ns = sn_nodeState n) as Hns; [|by rewrite Hns; destruct n].
    unfold Upsert, cached in E. destruct (sn_nodeState n) as [ns0|]; simpl in *.
    + destruct (ns0 !! GetUniqueName p); [case_match|]; congruence.
    + rewrite lookup_empty in E. congruence.
Qed.

Lemma RemoveState_only_spec p n : in_sync n ->
  let n' := node_RemoveState p n in
  in_sync n' /\ cached n' = (RemoveState (cached n) p).1 /\ sn_skyhookName n' = sn_skyhookName n.
Proof.
  intros Hs. unfold node_RemoveState. destruct (RemoveState (cached n) p) as [ns ch] eqn:E.
  destruct ch; simpl.
  - destruct (SetState_spec ns n) as (H1 & _ & H3 & H4 & _). split_and!; [done| |done].
    unfold cached. by rewrite H1.
  - split_and!; [done| |done]. unfold RemoveState in E. destruct (cached n !! GetUniqueName p); congruence.
Qed.

Lemma ReloadState_in_sync n : in_sync n -> ReloadState n = (n, Ok tt).
Proof.
  unfold in_sync, ReloadState. intros ->. simpl. by destruct n.
Qed.

(* ------------------------------------------------------------------ *)
(** ** Lemmas: the packages to run *)

Lemma all_present_map (l : list Package) : all_present (map Some l) = Ok l.
Proof. induction l as [|p l IH]; simpl; [done|]. by rewrite IH. Qed.

Lemma elem_of_GetComplete ns packages interrupt config n :
  n ∈ GetComplete ns packages interrupt config <->
  exists k p, packages !! k = Some p /\ pkg_UniqueName p = n /\ IsPackageComplete ns p interrupt config = true.
Proof.
  unfold GetComplete. rewrite elem_of_sort_strings, list_elem_of_fmap. split.
  - intros ([k p] & -> & [Hk Hc]%elem_of_filterb). apply elem_of_range in Hk. eauto.
  - intros (k & p & Hk & <- & Hc). exists (k, p). split; [done|]. apply elem_of_filterb.
    by rewrite elem_of_range.
Qed.

Lemma by_name_total : Total by_name.
Proof. intros a b. apply (total str_le). Qed.

(** A package that may run: not complete, all its dependencies complete. *)
Definition runnable (f : SkyhookNode) (p : Package) : Prop :=
  (exists k, f_packages f !! k = Some p) /\ node_IsPackageComplete f p = false /\
  forall d, depends_on p d -> exists k' p', f_packages f !! k' = Some p' /\ pkg_UniqueName p' = d /\
    node_IsPackageComplete f p' = true.

(** The packages stored in the graph under the offered names. *)
Definition is_package_of (f : SkyhookNode) (n : string) (p : Package) : Prop :=
  runnable f p /\ pkg_UniqueName p = n /\ vertices (full_graph f) !! n ≫= object = Some p.

Lemma offered_runnable f n :
  BuildGraph (sk_Spec (full_skyhook f)) = Ok (full_graph f) ->
  offered (full_graph f) (node_GetComplete f) n <->
  exists p, is_package_of f n p.
Proof.
  intros HB. destruct (BuildGraph_graph _ _ HB) as (ps & [Hwf Hv Hp] & Hps).
  assert (Hsame : forall k p k' p', f_packages f !! k = Some p -> f_packages f !! k' = Some p' ->
      pkg_UniqueName p = pkg_UniqueName p' -> p = p').
  { intros k p k' p' Hk%Hps Hk'%Hps E. destruct (Hp _ _ Hk) as (v & Hgv & Ho & _).
    destruct (Hp _ _ Hk') as (v' & Hgv' & Ho' & _). rewrite <- E in Hgv'. congruence. }
  assert (Hdone : forall k p, f_packages f !! k = Some p ->
      pkg_UniqueName p ∈ node_GetComplete f <-> node_IsPackageComplete f p = true).
  { intros k p Hk. unfold node_GetComplete. rewrite elem_of_GetComplete. split.
    - intros (k' & p' & Hk' & Hu & Hc). rewrite (Hsame _ _ _ _ Hk Hk' (eq_sym Hu)). done.
    - intros Hc. eauto. }
  unfold offered, is_package_of, runnable. split.
  - intros (Hn & v & Hgv & Hall). destruct (Hv _ _ Hgv) as (k & p & Hin%Hps & Hu & Ho & Hpar).
    exists p. rewrite Hgv. simpl. split_and!; [eauto| | |done|done].
    + subst n. rewrite (Hdone k p Hin) in Hn. by apply not_true_is_false.
    + intros d Hd%Hpar%Hall. unfold node_GetComplete in Hd. rewrite elem_of_GetComplete in Hd.
      naive_solver.
  - intros (p & ([k Hk] & Hc & Hall) & <- & _). split.
    + rewrite (Hdone k p Hk). by rewrite Hc.
    + destruct (Hp k p) as (v & Hgv & _ & Hpar); [by apply Hps|]. exists v. split; [done|].
      intros d Hd%Hpar. destruct (Hall d Hd) as (k' & p' & Hk' & <- & Hc').
      by apply (Hdone k' p' Hk').
Qed.

Lemma packages_of_names f (ns : list string) :
  (forall n, n ∈ ns -> exists p, is_package_of f n p) ->
  exists l, map (fun n => vertices (full_graph f) !! n ≫= object) ns = map Some l /\
    map pkg_UniqueName l = ns /\ forall p, p ∈ l -> runnable f p.
Proof.
  induction ns as [|n ns IH]; intros Hns; simpl.
  - exists []. split_and!; [done..|]. by intros p ?%elem_of_nil.
  - destruct (Hns n ltac:(by left)) as (p & Hr & <- & Ho).
    destruct IH as (l & Hl1 & Hl2 & Hl3); [intros; apply Hns; by right|].
    exists (p :: l). simpl. rewrite Ho, Hl1, Hl2. split_and!; [done..|].
    intros q [->|Hq]%elem_of_cons; auto.
Qed.

Lemma Next_ok {T} (g : dag T) completed : Valid g = Ok tt -> exists l, Next g completed = Ok l.
Proof. intros HV. unfold Next. rewrite HV. simpl. eauto. Qed.

(* ------------------------------------------------------------------ *)
(** ** Properties *)

(** A node under the wrappers of any number of resources, whose methods are
    called in any order: as long as some resource's cordon (or the persistent
    runtime-required cordon) is on the node it stays unschedulable, so one
    resource's uncordon never frees a node another still holds; and the uncordon
    of the last holder makes it schedulable. *)
Theorem cordons_are_shared m m' : cordons_hold m -> star node_step m m' ->
  (forall holder, is_Some (n_Annotations m' !! cordonAnnotationKey holder) -> n_Unschedulable m' = true) /\
  (is_Some (n_Annotations m' !! RuntimeRequiredCordonAnnotation) -> n_Unschedulable m' = true) /\
  (forall n, sn_Node n = m' -> is_Some (n_Annotations m' !! cordonAnnotationKey (sn_skyhookName n)) ->
     n_Unschedulable (sn_Node (Uncordon n)) =
       hasSkyhookCordon (delete (cordonAnnotationKey (sn_skyhookName n)) (n_Annotations m'))).
Proof.
  intros H Hstar. assert (H' : cordons_hold m').
  { eapply (star_invariant _ cordons_hold); [|done|done]. intros s t. apply step_cordons_hold. }
  assert (Hheld : forall k, (has_prefix k cordonAnnotationPrefix = true \/ k = RuntimeRequiredCordonAnnotation) ->
    is_Some (n_Annotations m' !! k) -> n_Unschedulable m' = true).
  { intros k Hk [v Hv]. apply H', hasSkyhookCordon_spec. eauto 10. }
  split_and!.
  - intros holder. apply Hheld. left. apply cordon_key_has_prefix.
  - apply Hheld. by right.
  - intros n <- Hn. specialize (Hheld _ (or_introl (cordon_key_has_prefix _)) Hn).
    destruct Hn as [v Hv]. unfold Uncordon, annotations. rewrite Hv. simpl.
    destruct (hasSkyhookCordon (delete _ _)); simpl; done.
Qed.

(** What [Upsert] and [RemoveState] record survives a reload: the annotation
    parses back to exactly the cached state, which has the new entry, or not the
    removed one, and every other entry as before. *)
Theorem recorded_state_survives_reload p image state stage restarts sha n : in_sync n ->
  let up := (Upsert_only p image state stage restarts sha n).1 in
  let rm := node_RemoveState p n in
  (ReloadState up = (up, Ok tt) /\ ReloadState rm = (rm, Ok tt)) /\
  cached up = <[GetUniqueName p :=
      {| ps_Name := ref_Name p; ps_Version := ref_Version p; ps_Image := image; ps_ContainerSHA := sha;
         ps_Stage := stage; ps_State := state; ps_Restarts := restarts |}]> (cached n) /\
  cached rm = delete (GetUniqueName p) (cached n).
Proof.
  intros Hs up rm.
  destruct (Upsert_only_spec p image state stage restarts sha n Hs) as (Hu & Huns & _).
  destruct (RemoveState_only_spec p n Hs) as (Hr & Hrns & _).
  split; [split; by apply ReloadState_in_sync|]. split.
  - unfold cached at 1. fold up in Huns. by rewrite Huns, Upsert_lookup.
  - fold rm in Hrns. rewrite Hrns. unfold RemoveState. case_match eqn:E; simpl; [done|].
    by rewrite delete_id.
Qed.

(** C40: when every dependency is a package of the resource, [RunNext] never
    fails and returns, without duplicates and ordered by name, exactly the
    packages that are not complete on the node and whose dependencies all are. *)
Theorem RunNext_spec f :
  BuildGraph (sk_Spec (full_skyhook f)) = Ok (full_graph f) ->
  (forall k p d, f_packages f !! k = Some p -> depends_on p d ->
     exists k' p', f_packages f !! k' = Some p' /\ pkg_UniqueName p' = d) ->
  exists l, RunNext f = Ok l /\ NoDup l /\ Sorted by_name l /\ forall p, p ∈ l <-> runnable f p.
Proof.
  intros HB Hdeps. destruct (BuildGraph_graph _ _ HB) as (ps & [Hwf Hv Hp] & Hps).
  assert (HV : Valid (full_graph f) = Ok tt).
  { apply (Valid_wf _ Hwf). intros n v p Hn Hpar. destruct (Hv _ _ Hn) as (k & pkg & Hin%Hps & _ & _ & Hd).
    destruct (Hdeps k pkg p Hin ltac:(by apply Hd)) as (k' & p' & Hk'%Hps & <-).
    destruct (Hp _ _ Hk') as (w & Hw & _). eauto. }
  destruct (Next_ok _ (node_GetComplete f) HV) as [next Hnext].
  assert (Hof : forall n, n ∈ next -> exists p, is_package_of f n p).
  { intros n Hn. apply (offered_runnable f n HB). by apply (Next_elem _ _ _ Hwf Hnext). }
  assert (Hmap : exists l, map (fun n => vertices (full_graph f) !! n ≫= object) next = map Some l /\
      map pkg_UniqueName l = next /\ forall p, p ∈ l <-> runnable f p).
  { destruct (packages_of_names f next Hof) as (l & Hl1 & Hl2 & Hl3). exists l. split_and!; [done..|].
    intros p. split; [auto|]. intros Hr.
    assert (Hin : pkg_UniqueName p ∈ next).
    { apply (Next_elem _ _ _ Hwf Hnext), (offered_runnable f _ HB). exists p. split_and!; [done..|].
      destruct Hr as ([k Hk%Hps] & _). destruct (Hp _ _ Hk) as (v & Hgv & Ho & _). by rewrite Hgv. }
    rewrite <- Hl2 in Hin. apply list_elem_of_fmap in Hin as (q & Hq & Hin).
    assert (p = q) as ->; [|done].
    destruct Hr as ([k Hk%Hps] & _). destruct (Hl3 q Hin) as ([k' Hk'%Hps] & _).
    destruct (Hp _ _ Hk) as (v & Hgv & Ho & _). destruct (Hp _ _ Hk') as (v' & Hgv' & Ho' & _).
    rewrite <- Hq in Hgv'. congruence. }
  destruct Hmap as (l & Hl1 & Hl2 & Hl3). exists (merge_sort by_name l). split_and!.
  - unfold RunNext. rewrite Hnext. simpl. rewrite Get_present; simpl.
    + by rewrite Hl1, all_present_map.
    + intros n Hn. destruct (Hof n Hn) as (p & _ & _ & Ho).
      destruct (vertices (full_graph f) !! n); [by eauto|done].
  - rewrite merge_sort_Permutation. apply (NoDup_fmap_1 pkg_UniqueName).
    change (NoDup (map pkg_UniqueName l)). rewrite Hl2. by eapply Next_NoDup.
  - apply Sorted_merge_sort. apply by_name_total.
  - intros p. by rewrite merge_sort_Permutation, Hl3.
Qed.

(** A resource's name has no underscore (Kubernetes names are DNS names). *)
Definition dns_name (s : string) : Prop := has_char "_" s = false.

Lemma node_key_cut kind name : dns_name name ->
  cut_last "_" (node_key kind name) = Some (METADATA_PREFIX +:+ "/" +:+ kind, name).
Proof.
  intros H. unfold node_key. rewrite <- !append_assoc.
  rewrite (append_assoc _ "_" name). by apply cut_last_app.
Qed.

Lemma owned_node_key n kind name : dns_name name -> dns_name (sn_skyhookName n) ->
  owned_key n (node_key kind name) = bool_decide (name = sn_skyhookName n).
Proof.
  intros Hd Hn. unfold owned_key.
  assert (has_prefix (node_key kind name) (METADATA_PREFIX +:+ "/") = true) as ->.
  { unfold node_key. rewrite <- append_assoc. apply has_prefix_app. }
  simpl. case_bool_decide as E.
  - subst name. unfold node_key. rewrite <- !append_assoc. rewrite (append_assoc _ "_"). apply has_suffix_app.
  - apply not_true_iff_false. intros [a Ha]%has_suffix_spec. apply E.
    pose proof (node_key_cut kind name Hd) as H. rewrite Ha in H.
    change ("_" +:+ sn_skyhookName n) with (String "_" (sn_skyhookName n)) in H.
    rewrite (cut_last_app _ _ _ Hn) in H. congruence.
Qed.

(** Cleaning up a resource's metadata removes every annotation and label the
    operator keeps on the node for it, except its package state and version when
    a non-empty state can be read; it removes its node conditions; and it leaves
    the keys of every other resource, and every key outside the operator's
    prefix, as they were. *)
Theorem CleanupSCRMetadata_spec n : dns_name (sn_skyhookName n) ->
  let m := sn_Node n in
  let m' := sn_Node (CleanupSCRMetadata n) in
  let keep := match node_State n with Ok (Some ns) => (0 <? mlen ns)%Z | _ => false end in
  (forall kind, n_Annotations m' !! node_key kind (sn_skyhookName n) =
     if keep && bool_decide (node_key kind (sn_skyhookName n) ∈ [nodeStateKey n; versionKey n])
     then n_Annotations m !! node_key kind (sn_skyhookName n) else None) /\
  (forall kind, n_Labels m' !! node_key kind (sn_skyhookName n) = None) /\
  (forall kind other, dns_name other -> other <> sn_skyhookName n ->
     n_Annotations m' !! node_key kind other = n_Annotations m !! node_key kind other /\
     n_Labels m' !! node_key kind other = n_Labels m !! node_key kind other) /\
  (forall key, has_prefix key (METADATA_PREFIX +:+ "/") = false ->
     n_Annotations m' !! key = n_Annotations m !! key /\ n_Labels m' !! key = n_Labels m !! key) /\
  n_Taints m' = n_Taints m /\ n_Unschedulable m' = n_Unschedulable m.
Proof.
  intros Hd m m' keep.
  assert (HA : forall k, n_Annotations m' !! k =
    if owned_key n k && negb (keep && bool_decide (k ∈ [nodeStateKey n; versionKey n])) then None
    else n_Annotations m !! k).
  { intros k. unfold m', keep. rewrite Cleanup_annotations. unfold annotations.
    by rewrite bool_decide_elem_of_pair. }
  assert (HL : forall k, n_Labels m' !! k = if owned_key n k then None else n_Labels m !! k).
  { intros k. unfold m', m, CleanupSCRMetadata.
    pose proof (delete_keys_lookup (owned_key n) (n_Labels (sn_Node n)) k) as H.
    destruct (delete_keys _ (annotations n)), (delete_keys _ (n_Labels _)). simpl in *. repeat case_if; done. }
  split_and!.
  - intros kind. rewrite HA, owned_node_key, bool_decide_eq_true_2 by done.
    destruct (keep && _); reflexivity.
  - intros kind. by rewrite HL, owned_node_key, bool_decide_eq_true_2.
  - intros kind other Ho Hne. rewrite HA, HL, owned_node_key, bool_decide_eq_false_2 by done. done.
  - intros key Hk. rewrite HA, HL. unfold owned_key. by rewrite Hk.
  - unfold m', CleanupSCRMetadata. destruct (delete_keys _ (annotations n)), (delete_keys _ (n_Labels _)).
    by repeat case_if.
  - unfold m', CleanupSCRMetadata. destruct (delete_keys _ (annotations n)), (delete_keys _ (n_Labels _)).
    by repeat case_if.
Qed.
End Steps.

(** [Reset] forgets the resource's cordon without lifting it: the node keeps
    the schedulability it had while no annotation of this resource records the
    cordon any more, so a later [Uncordon] by the resource leaves the node
    unschedulable. *)
Theorem Reset_keeps_cordon `{MR : MapRange} (f : SkyhookNode) :
  let n := full_Only (Reset f) in
  n_Unschedulable (sn_Node n) = n_Unschedulable (sn_Node (full_Only f)) /\
  annotations n !! cordonAnnotationKey (sn_skyhookName n) = None /\
  Uncordon n = n.
Proof.
  intros n.
  assert (H : annotations n !! cordonAnnotationKey (sn_skyhookName n) = None).
  { unfold n, Reset, annotations. simpl. rewrite !lookup_delete_None. tauto. }
  split_and!; [done|done|]. unfold Uncordon. by rewrite H.
Qed.

(* ------------------------------------------------------------------ *)
(** ** Witnesses *)

#[local] Instance example_json : NodeStateJSON.
Proof.
  refine {| json_Marshal := to_text;
            json_Unmarshal := fun s => match of_text s with Some ns => Ok (Some ns) | None => Err (errorf "" []) end |}.
  intros ns. by rewrite of_to_text.
Defined.

#[local] Instance example_time : TimeText.
Proof.
  refine {| time_Format := to_text;
            time_Parse := fun s => match of_text s with Some t => Ok t | None => Err (errorf "" []) end |}.
  intros t. by rewrite of_to_text.
Defined.

Definition bare_node (name : string) : Node :=
  {| n_Name := name; n_UID := "uid"; n_CreationTimestamp := 0; n_Labels := ∅; n_Annotations := ∅; n_Taints := [];
     n_Unschedulable := false; n_Conditions := []; n_BootID := "boot" |}.

Definition wrapped (name : string) (m : Node) : SkyhookNodeOnly := NewSkyhookNodeOnly m name.

Lemma cordons_are_shared_witness :
  let n1 := (Cordon (wrapped "a" (bare_node "node-1"))).1 in
  let n2 := (Cordon (wrapped "b" (sn_Node n1))).1 in
  star node_step (bare_node "node-1") (sn_Node (Uncordon (wrapped "a" (sn_Node n2)))) /\
  n_Unschedulable (sn_Node (Uncordon (wrapped "a" (sn_Node n2)))) = true.
Proof.
  set (n1 := (Cordon (wrapped "a" (bare_node "node-1"))).1).
  set (n2 := (Cordon (wrapped "b" (sn_Node n1))).1). cbv zeta.
  assert (Hstar : star node_step (bare_node "node-1") (sn_Node (Uncordon (wrapped "a" (sn_Node n2))))).
  { apply star_cons with (sn_Node n1); [exact (step_Cordon (wrapped "a" (bare_node "node-1")))|].
    apply star_cons with (sn_Node n2); [exact (step_Cordon (wrapped "b" (sn_Node n1)))|].
    apply star_cons with (sn_Node (Uncordon (wrapped "a" (sn_Node n2))));
      [exact (step_Uncordon (wrapped "a" (sn_Node n2)))|apply star_nil]. }
  split; [exact Hstar|].
  assert (H0 : cordons_hold (bare_node "node-1")) by (intros H; vm_compute in H; discriminate H).
  apply (proj1 (cordons_are_shared _ _ H0 Hstar) "b"). vm_compute. eexists; reflexivity.
Defined.

Definition fresh_wrapper : SkyhookNodeOnly :=
  {| sn_Node := bare_node "node-1"; sn_skyhookName := "tuning"; sn_nodeState := None; sn_updated := false |}.

Lemma recorded_state_survives_reload_witness :
  in_sync fresh_wrapper /\
  let up := (Upsert_only (pkg_Ref base_package) "img" StateInProgress StageApply 0 "" fresh_wrapper).1 in
  ReloadState up = (up, Ok tt).
Proof.
  assert (H : in_sync fresh_wrapper) by reflexivity. split; [exact H|]. cbv zeta.
  destruct (recorded_state_survives_reload (pkg_Ref base_package) "img" StateInProgress StageApply 0 ""
              fresh_wrapper H) as [[H1 _] _]. exact H1.
Defined.

Definition sample_node (g : dag Package) : SkyhookNode :=
  {| full_Only := fresh_wrapper;
     full_skyhook := NewSkyhookWrapper (plain_nodewright "tuning" (plain_spec base_only) empty_status);
     full_graph := g |}.

Lemma RunNext_spec_witness : exists g l,
  BuildGraph (plain_spec base_only) = Ok g /\ RunNext (sample_node g) = Ok l /\ base_package ∈ l.
Proof.
  destruct (BuildGraph (plain_spec base_only)) as [g| |] eqn:E; try (by vm_compute in E).
  destruct (RunNext_spec (sample_node g)) as (l & Hl & _ & _ & Hp).
  - exact E.
  - intros k p d Hk (dep & ver & Hdep & _). apply base_only_lookup in Hk as [_ ->].
    exfalso. vm_compute in Hdep. discriminate Hdep.
  - exists g, l. split; [reflexivity|]. split; [exact Hl|]. apply Hp. split; [exists "base"; reflexivity|].
    split; [reflexivity|]. intros d (dep & ver & Hdep & _). exfalso. vm_compute in Hdep. discriminate Hdep.
Defined.

Lemma CleanupSCRMetadata_spec_witness :
  dns_name (sn_skyhookName fresh_wrapper) /\
  n_Labels (sn_Node (CleanupSCRMetadata fresh_wrapper)) !! node_key "status" "tuning" = None.
Proof.
  assert (H : dns_name (sn_skyhookName fresh_wrapper)) by reflexivity. split; [exact H|].
  destruct (CleanupSCRMetadata_spec fresh_wrapper H) as (_ & HL & _). exact (HL "status").
Defined.
