(* ===== verification/Migration.v ===== *)
(** * Migrations of node metadata

    Models [operator/internal/wrapper/zz.migration.0.18.0.go] (the rename of the
    metadata prefix, converge and prune), [zz.migration.0.5.0.go] and the
    [Migrate] method of [node.go], with [operator/internal/version/version.go].
    Semantic versions are compared by [golang.org/x/mod/semver], the parameter
    [Semver]. *)

From S2P Require Import Prelude Graph DeploymentPolicy Api NodeState Skyhook Text Node.

(* ------------------------------------------------------------------ *)
(** ** Versions *)

Class Semver := {
  semver_IsValid : string -> bool;
  semver_Compare : string -> string -> Z;
  semver_MajorMinor : string -> string
}.

(** [if version[0] != 'v' { version = "v" + version }]; indexing the empty string panics. *)
Definition with_v (version : string) : res string :=
  match version with
  | EmptyString => Panic
  | String c _ => Ok (if bool_decide (c = "v"%char) then version else "v" +:+ version)
  end.

Section Version.
Context `{SV : Semver}.

Definition version_IsValid (version : string) : bool :=
  match with_v version with Ok v => semver_IsValid v | _ => false end.

Definition version_Compare (version1 version2 : string) : res Z :=
  rbind (with_v version1) (fun v1 => rbind (with_v version2) (fun v2 => Ok (semver_Compare v1 v2))).

Definition version_MajorMinor (version : string) : string :=
  match with_v version with Ok v => semver_MajorMinor v | _ => "" end.
End Version.

(* ------------------------------------------------------------------ *)
(** ** The renamed prefix *)

Definition legacySkyhookMetadataPrefix : string := "skyhook.nvidia.com".
Definition oldPrefix : string := legacySkyhookMetadataPrefix +:+ "/".
Definition newPrefix : string := METADATA_PREFIX +:+ "/".

Definition statusPrefix : string := "status_".
Definition ignoreLabel : string := "ignore".
Definition nameScopedAnnotationPrefixes : list string :=
  ["nodeState_"; statusPrefix; "version_"; "cordon_"; "drainStart_"].
Definition nodeScopedAnnotationPrefixes : list string := ["autoTaint_"].

Definition isOperatorOwnedAnnotation (suffix : string) : bool :=
  any (has_prefix suffix) (nameScopedAnnotationPrefixes ++ nodeScopedAnnotationPrefixes).

Definition isOperatorOwnedLabel (suffix : string) : bool :=
  bool_decide (suffix = ignoreLabel) || has_prefix suffix statusPrefix.

Definition ownedByAnnotation (skyhookName suffix : string) : bool :=
  any (fun p => bool_decide (suffix = p +:+ skyhookName)) nameScopedAnnotationPrefixes.

Definition ownedByLabel (skyhookName suffix : string) : bool :=
  bool_decide (suffix = statusPrefix +:+ skyhookName).

Definition ownedByCondition (skyhookName suffix : string) : bool :=
  bool_decide (suffix = skyhookName +:+ "/" +:+ conditionTypeNotReady) ||
  bool_decide (suffix = skyhookName +:+ "/" +:+ conditionTypeErroring).

Definition isOperatorOwnedCondition (suffix : string) : bool :=
  has_suffix suffix ("/" +:+ conditionTypeNotReady) || has_suffix suffix ("/" +:+ conditionTypeErroring).

(** [strings.CutPrefix] *)
Fixpoint CutPrefix (s p : string) : option string :=
  match p, s with
  | EmptyString, _ => Some s
  | String a p, String b s => if bool_decide (a = b) then CutPrefix s p else None
  | String _ _, EmptyString => None
  end.

(** The part after the prefix, when the key has the prefix and the owner test
    accepts that part. *)
Definition owned_suffix (prefix : string) (isOwned : string -> bool) (k : string) : option string :=
  match CutPrefix k prefix with
  | Some suffix => if isOwned suffix then Some suffix else None
  | None => None
  end.

Definition hasCondition (conditions : list NodeCondition) (t : string) : bool :=
  any (fun c => bool_decide (nc_Type c = t)) conditions.

Section Prefix.
Context `{MR : MapRange}.

Definition copy_key (isOwned : string -> bool) (from to : string) (acc : gmap string string * bool) (k : string)
  : gmap string string * bool :=
  match owned_suffix from isOwned k with
  | None => acc
  | Some suffix =>
      match acc.1 !! (to +:+ suffix), acc.1 !! k with
      | None, Some v => (<[to +:+ suffix := v]> acc.1, true)
      | _, _ => acc
      end
  end.

(** The keys are collected before the map is written. *)
Definition copyPrefixedMap (m : gmap string string) (from to : string) (isOwned : string -> bool)
  : gmap string string * bool :=
  foldl (copy_key isOwned from to) (m, false) (range m).*1.

Definition dropPrefixedKeys (m : gmap string string) (prefix : string) (isOwned : string -> bool)
  : gmap string string * bool :=
  delete_keys (fun k => match owned_suffix prefix isOwned k with Some _ => true | None => false end) m.

Definition HasOperatorOwnedLegacyMetadata (n : Node) (skyhookName : string) : bool :=
  let has isOwned k := match owned_suffix oldPrefix isOwned k with Some _ => true | None => false end in
  any (fun kv => has (ownedByAnnotation skyhookName) kv.1) (range (n_Annotations n)) ||
  any (fun kv => has (ownedByLabel skyhookName) kv.1) (range (n_Labels n)) ||
  any (fun c => has (ownedByCondition skyhookName) (nc_Type c)) (n_Conditions n).

Definition set_nc_Type (t : string) (c : NodeCondition) : NodeCondition :=
  {| nc_Type := t; nc_Status := nc_Status c; nc_LastHeartbeatTime := nc_LastHeartbeatTime c;
     nc_LastTransitionTime := nc_LastTransitionTime c; nc_Reason := nc_Reason c; nc_Message := nc_Message c |}.

(** The copies the loop over the conditions adds. *)
Definition adopted_condition (conditions : list NodeCondition) (c : NodeCondition) : list NodeCondition :=
  match owned_suffix oldPrefix isOperatorOwnedCondition (nc_Type c) with
  | Some suffix =>
      if hasCondition conditions (newPrefix +:+ suffix) then [] else [set_nc_Type (newPrefix +:+ suffix) c]
  | None => []
  end.

Definition migrateNodePrefixToNodeWright (n : SkyhookNodeOnly) : SkyhookNodeOnly :=
  let m := sn_Node n in
  let '(anns, c1) := copyPrefixedMap (n_Annotations m) oldPrefix newPrefix isOperatorOwnedAnnotation in
  let '(labels, c2) := copyPrefixedMap (n_Labels m) oldPrefix newPrefix isOperatorOwnedLabel in
  let added := flat_map (adopted_condition (n_Conditions m)) (n_Conditions m) in
  let n' := set_sn_Node (set_n_Conditions (n_Conditions m ++ added)
              (set_n_Labels labels (set_n_Annotations anns m))) n in
  if c1 || c2 || negb (bool_decide (zlen added = 0%Z)) then mark_updated n' else n'.

Definition pruneLegacyNodePrefix (n : SkyhookNodeOnly) : SkyhookNodeOnly * bool :=
  let m := sn_Node n in
  let '(anns, c1) := dropPrefixedKeys (n_Annotations m) oldPrefix (ownedByAnnotation (sn_skyhookName n)) in
  let '(labels, c2) := dropPrefixedKeys (n_Labels m) oldPrefix (ownedByLabel (sn_skyhookName n)) in
  let owned c := match owned_suffix oldPrefix (ownedByCondition (sn_skyhookName n)) (nc_Type c) with
                 | Some _ => true | None => false end in
  let kept := List.filter (fun c => negb (owned c)) (n_Conditions m) in
  let n' := set_sn_Node (set_n_Conditions kept (set_n_Labels labels (set_n_Annotations anns m))) n in
  let changed := c1 || c2 || any owned (n_Conditions m) in
  (if changed then mark_updated n' else n', changed).
End Prefix.

(* ------------------------------------------------------------------ *)
(** ** The 0.5.0 migration *)

(** [strings.Split(s, "/")] *)
Fixpoint split_slash (s : string) : list string :=
  match s with
  | EmptyString => [EmptyString]
  | String c s =>
      if bool_decide (c = "/"%char) then EmptyString :: split_slash s
      else match split_slash s with w :: ws => String c w :: ws | [] => [String c EmptyString] end
  end.

(** The loop that removes conditions from the slice it ranges over.  The range
    keeps the length the slice had; each removal shifts the shared array and
    shortens the slice the node holds.  [backing] is the array, [len] the length
    of the node's slice; slicing past [len] panics. *)
Fixpoint remove_conditions (bad : NodeCondition -> res bool) (todo : nat) (idx : nat)
    (backing : list NodeCondition) (len : nat) : res (list NodeCondition) :=
  match todo with
  | O => Ok (take len backing)
  | S todo =>
      match backing !! idx with
      | None => Panic
      | Some c =>
          rbind (bad c) (fun b =>
          if (b : bool) then
            if Nat.leb (S idx) len
            then remove_conditions bad todo (S idx)
                   (take idx backing ++ drop (S idx) (take len backing) ++ drop (len - 1) backing) (len - 1)
            else Panic
          else remove_conditions bad todo (S idx) backing len)
      end
  end.

Definition invalid_condition (skyhookName : string) (c : NodeCondition) : res bool :=
  if has_prefix (nc_Type c) (METADATA_PREFIX +:+ "/" +:+ skyhookName +:+ "/") then
    rbind (deref (split_slash (nc_Type c) !! 2)) (fun lastpart =>
    Ok (negb (bool_decide (lastpart = "Erroring") || bool_decide (lastpart = "NotReady"))))
  else Ok false.

Section Migrate.
Context `{MR : MapRange} `{JS : NodeStateJSON} `{TT : TimeText} `{SV : Semver}.

(** [delete(node.nodeState, key)]; the map of a nil state has no entry. *)
Definition delete_state (key : string) (n : SkyhookNodeOnly) : SkyhookNodeOnly :=
  match sn_nodeState n with Some ns => set_sn_nodeState (Some (delete key ns)) n | None => n end.

(** Writing the state out: annotation, resource status, flag. *)
Definition persist (f : SkyhookNode) : SkyhookNode :=
  let n := SetState (sn_nodeState (full_Only f)) (full_Only f) in
  {| full_Only := mark_updated n;
     full_skyhook := SetNodeState (n_Name (sn_Node n)) (sn_nodeState n) (full_skyhook f);
     full_graph := full_graph f |}.

(** An entry whose image cannot be resolved. *)
Definition remove_old (ref : PackageRef) (name : string) (f : SkyhookNode) : SkyhookNode :=
  let n := full_Only f in
  let has k n := match ns_Get (cached n) k with Some _ => true | None => false end in
  let u1 := has (GetUniqueName ref) n in
  let n := if u1 then delete_state (GetUniqueName ref) n else n in
  let u2 := has name n in
  let n := if u2 then delete_state name n else n in
  let f := set_full_Only n f in
  if u1 || u2 then persist f else f.

(** One entry of the loop over the node state.  [parsed] is the map [State]
    returned when it is not the cached one. *)
Definition migrate_entry (parsed : option NodeState) (f : SkyhookNode) (key : string) : SkyhookNode :=
  let live := match parsed with Some ns => ns | None => cached (full_Only f) end in
  match live !! key with
  | None => f
  | Some s =>
      if negb (bool_decide (ps_Image s = "")) then f
      else
        let ref := {| ref_Name := ps_Name s; ref_Version := ps_Version s |} in
        let entry := f_packages f !! ps_Name s in
        match entry with
        | Some p =>
            if bool_decide (ps_Version s = pkg_Version p) then
              let f := node_Upsert ref (pkg_Image p) (ps_State s) (ps_Stage s) (ps_Restarts s) "" f in
              persist (set_full_Only (delete_state (pkg_Name p) (full_Only f)) f)
            else remove_old ref (pkg_Name p) f
        | None => remove_old ref "" f
        end
  end.

Definition migrateNodeTo_0_5_0 (f : SkyhookNode) : res SkyhookNode :=
  rbind (node_State (full_Only f)) (fun state =>
  let parsed := match sn_nodeState (full_Only f) with Some _ => None | None => Some (default ∅ state) end in
  let f := foldl (migrate_entry parsed) f (range (default ∅ state)).*1 in
  let n := full_Only f in
  let conds := n_Conditions (sn_Node n) in
  rbind (remove_conditions (invalid_condition (sn_skyhookName n)) (length conds) 0 conds (length conds)) (fun conds =>
  Ok (set_full_Only (n_map (set_n_Conditions conds) n) f))).

Definition node_Migrate (VERSION : string) (f : SkyhookNode) : res SkyhookNode :=
  let f := if bool_decide (node_GetVersion (full_Only f) = "")
           then set_full_Only (migrateNodePrefixToNodeWright (full_Only f)) f else f in
  let from := node_GetVersion (full_Only f) in
  if bool_decide (from = VERSION) then Ok f
  else if bool_decide (version_MajorMinor from ∈ [""; "v0.5"; "v0.6"; "v0.7"]) then
    rbind (migrateNodeTo_0_5_0 f) (fun f => Ok (set_full_Only (node_SetVersion VERSION (full_Only f)) f))
  else Ok f.
End Migrate.

(* ------------------------------------------------------------------ *)
(** ** Lemmas *)

Lemma CutPrefix_spec s p x : CutPrefix s p = Some x <-> s = p +:+ x.
Proof.
  revert s; induction p as [|a p IH]; intros s; simpl.
  - rewrite append_nil_l. destruct s; simpl; split; congruence.
  - rewrite append_cons. destruct s as [|b s]; [done|]. simpl. case_bool_decide as E.
    + subst b. rewrite IH. split; [by intros ->|]. intros H. by injection H.
    + split; [done|]. intros H. injection H as H _. congruence.
Qed.

Lemma owned_suffix_spec prefix isOwned k x :
  owned_suffix prefix isOwned k = Some x <-> k = prefix +:+ x /\ isOwned x = true.
Proof.
  unfold owned_suffix. destruct (CutPrefix k prefix) as [y|] eqn:E.
  - apply CutPrefix_spec in E as ->. split.
    + case_if; [|done]. by intros [= <-].
    + intros [H Ho]. apply append_inj_l in H as ->. by rewrite Ho.
  - split; [done|]. intros [H _]. apply CutPrefix_spec in H. congruence.
Qed.

Section CopyLemmas.
Context (from to : string) (prefixes_differ : forall x y, from +:+ x <> to +:+ y).

(** What a key holds after the copy. *)
Definition copied (isOwned : string -> bool) (m : gmap string string) (present : string -> bool) (k : string)
  : option string :=
  match m !! k with
  | Some v => Some v
  | None =>
      match owned_suffix to isOwned k with
      | Some suffix => if present (from +:+ suffix) then m !! (from +:+ suffix) else None
      | None => None
      end
  end.

Lemma copy_key_spec isOwned acc k0 k :
  (copy_key isOwned from to acc k0).1 !! k =
  copied isOwned acc.1 (fun k' => bool_decide (k' = k0)) k.
Proof.
  unfold copy_key, copied. destruct acc as [m ch]; simpl.
  destruct (owned_suffix from isOwned k0) as [x|] eqn:E0.
  - apply owned_suffix_spec in E0 as [-> Ho].
    assert (Hsame : owned_suffix to isOwned (to +:+ x) = Some x) by by apply owned_suffix_spec.
    destruct (m !! (to +:+ x)) as [w|] eqn:En; [|destruct (m !! (from +:+ x)) as [v|] eqn:Eo]; simpl.
    + destruct (m !! k) eqn:Ek; [done|]. destruct (owned_suffix to isOwned k) as [y|] eqn:E; [|done].
      apply owned_suffix_spec in E as [-> _]. case_bool_decide as H; [|done].
      apply append_inj_l in H as ->. congruence.
    + destruct (decide (k = to +:+ x)) as [->|Hne].
      * rewrite lookup_insert_eq, En, Hsame, bool_decide_eq_true_2 by done. by rewrite Eo.
      * rewrite lookup_insert_ne by done. destruct (m !! k) eqn:Ek; [done|].
        destruct (owned_suffix to isOwned k) as [y|] eqn:E; [|done].
        apply owned_suffix_spec in E as [-> _]. rewrite bool_decide_eq_false_2; [done|].
        intros H. apply append_inj_l in H as ->. done.
    + destruct (m !! k) eqn:Ek; [done|]. destruct (owned_suffix to isOwned k) as [y|] eqn:E; [|done].
      apply owned_suffix_spec in E as [-> _]. case_bool_decide as H; [|done].
      apply append_inj_l in H as ->. congruence.
  - destruct (m !! k) eqn:Ek; [done|]. destruct (owned_suffix to isOwned k) as [y|] eqn:E; [|done].
    apply owned_suffix_spec in E as [-> Ho]. case_bool_decide as H; [|done]. subst k0.
    rewrite (proj2 (owned_suffix_spec from isOwned _ y)) in E0; done.
Qed.

(** Copies never land on a legacy key. *)
Lemma copied_old isOwned m present x : copied isOwned m present (from +:+ x) = m !! (from +:+ x).
Proof using prefixes_differ.
  unfold copied. destruct (m !! (from +:+ x)); [done|].
  destruct (owned_suffix to isOwned (from +:+ x)) as [y|] eqn:E; [|done].
  apply owned_suffix_spec in E as [H _]. by destruct (prefixes_differ x y).
Qed.

Lemma copy_keys_spec isOwned ks acc k :
  (foldl (copy_key isOwned from to) acc ks).1 !! k =
  copied isOwned acc.1 (fun k' => bool_decide (k' ∈ ks)) k.
Proof using prefixes_differ.
  revert acc; induction ks as [|k0 ks IH]; intros acc; simpl.
  - unfold copied. destruct (acc.1 !! k); [done|]. by destruct (owned_suffix to isOwned k).
  - rewrite IH. unfold copied at 1. rewrite copy_key_spec.
    unfold copied at 1 2. destruct (acc.1 !! k) eqn:Ek; [done|].
    destruct (owned_suffix to isOwned k) as [x|] eqn:E; [|done].
    assert ((copy_key isOwned from to acc k0).1 !! (from +:+ x) = acc.1 !! (from +:+ x)) as ->
      by (rewrite copy_key_spec; apply copied_old).
    destruct (decide (from +:+ x = k0)) as [Hk|Hk].
    + rewrite (bool_decide_eq_true_2 _ Hk), (bool_decide_eq_true_2 (_ ∈ k0 :: ks)) by (rewrite Hk; by left).
      destruct (acc.1 !! (from +:+ x)); [done|]. by case_bool_decide.
    + rewrite (bool_decide_eq_false_2 _ Hk). 
      assert (bool_decide (from +:+ x ∈ k0 :: ks) = bool_decide (from +:+ x ∈ ks)) as ->; [|done].
      apply bool_decide_ext. rewrite elem_of_cons. tauto.
Qed.
End CopyLemmas.

Lemma prefixes_differ x y : oldPrefix +:+ x <> newPrefix +:+ y.
Proof. intros H. cbv in H. discriminate H. Qed.

Section PrefixLemmas.
Context `{MR : MapRange}.

Lemma copyPrefixedMap_lookup isOwned m k :
  (copyPrefixedMap m oldPrefix newPrefix isOwned).1 !! k =
  match m !! k with
  | Some v => Some v
  | None => match owned_suffix newPrefix isOwned k with
            | Some suffix => m !! (oldPrefix +:+ suffix)
            | None => None
            end
  end.
Proof.
  unfold copyPrefixedMap. rewrite (copy_keys_spec _ _ prefixes_differ). unfold copied; simpl.
  destruct (m !! k); [done|]. destruct (owned_suffix newPrefix isOwned k); [|done].
  case_bool_decide as H; [done|]. rewrite elem_of_range_fst in H.
  by apply eq_None_not_Some in H.
Qed.

Lemma dropPrefixedKeys_lookup m prefix isOwned k :
  (dropPrefixedKeys m prefix isOwned).1 !! k =
  match owned_suffix prefix isOwned k with Some _ => None | None => m !! k end.
Proof. unfold dropPrefixedKeys. rewrite delete_keys_lookup. by destruct (owned_suffix prefix isOwned k). Qed.

Lemma migrate_annotations n k :
  n_Annotations (sn_Node (migrateNodePrefixToNodeWright n)) !! k =
  (copyPrefixedMap (n_Annotations (sn_Node n)) oldPrefix newPrefix isOperatorOwnedAnnotation).1 !! k.
Proof.
  unfold migrateNodePrefixToNodeWright. destruct (copyPrefixedMap _ _ _ isOperatorOwnedAnnotation).
  destruct (copyPrefixedMap _ _ _ isOperatorOwnedLabel). by case_if.
Qed.

Lemma prune_annotations n k :
  n_Annotations (sn_Node (pruneLegacyNodePrefix n).1) !! k =
  match owned_suffix oldPrefix (ownedByAnnotation (sn_skyhookName n)) k with
  | Some _ => None | None => n_Annotations (sn_Node n) !! k end.
Proof.
  rewrite <- dropPrefixedKeys_lookup. unfold pruneLegacyNodePrefix. destruct (dropPrefixedKeys _ _ (ownedByAnnotation _)).
  destruct (dropPrefixedKeys _ _ (ownedByLabel _)). simpl. by case_if.
Qed.

Lemma migrate_name n : sn_skyhookName (migrateNodePrefixToNodeWright n) = sn_skyhookName n.
Proof.
  unfold migrateNodePrefixToNodeWright. destruct (copyPrefixedMap _ _ _ isOperatorOwnedAnnotation).
  destruct (copyPrefixedMap _ _ _ isOperatorOwnedLabel). by case_if.
Qed.
End PrefixLemmas.

(* ------------------------------------------------------------------ *)
(** ** Lemmas: ownership *)

Lemma kind_prefix p : p ∈ nameScopedAnnotationPrefixes -> exists kind, p = kind +:+ "_".
Proof.
  unfold nameScopedAnnotationPrefixes, statusPrefix. rewrite !elem_of_cons, elem_of_nil.
  intros [->|[->|[->|[->|[->|[]]]]]];
    [by exists "nodeState"|by exists "status"|by exists "version"|by exists "cordon"|by exists "drainStart"].
Qed.

Lemma owned_by_name p name : p ∈ nameScopedAnnotationPrefixes ->
  isOperatorOwnedAnnotation (p +:+ name) = true /\ ownedByAnnotation name (p +:+ name) = true.
Proof.
  intros Hp. split; apply any_true; exists p.
  - split; [apply elem_of_app; by left|apply has_prefix_app].
  - split; [done|by apply bool_decide_eq_true_2].
Qed.

Lemma owned_by_other p name other : p ∈ nameScopedAnnotationPrefixes -> dns_name name -> dns_name other ->
  other <> name -> ownedByAnnotation name (p +:+ other) = false.
Proof.
  intros Hp Hn Ho Hne. apply any_false. intros q Hq. apply bool_decide_eq_false. intros E.
  destruct (kind_prefix p Hp) as [k1 ->], (kind_prefix q Hq) as [k2 ->].
  rewrite !append_assoc in E. pose proof (cut_last_app "_" k1 other Ho) as H1.
  pose proof (cut_last_app "_" k2 name Hn) as H2.
  change (String "_" other) with ("_" +:+ other) in H1. change (String "_" name) with ("_" +:+ name) in H2.
  rewrite E in H1. congruence.
Qed.

Lemma owned_implies_operator name suffix :
  ownedByAnnotation name suffix = true -> isOperatorOwnedAnnotation suffix = true.
Proof.
  intros (p & Hp & E)%any_true. apply bool_decide_eq_true_1 in E as ->. by apply owned_by_name.
Qed.

Lemma owned_suffix_app prefix isOwned x :
  owned_suffix prefix isOwned (prefix +:+ x) = if isOwned x then Some x else None.
Proof.
  unfold owned_suffix. assert (CutPrefix (prefix +:+ x) prefix = Some x) as ->; [|done].
  by apply CutPrefix_spec.
Qed.

Lemma owned_suffix_other isOwned x : owned_suffix oldPrefix isOwned (newPrefix +:+ x) = None.
Proof.
  destruct (owned_suffix oldPrefix isOwned (newPrefix +:+ x)) as [y|] eqn:E; [|done].
  apply owned_suffix_spec in E as [H _]. symmetry in H. by apply prefixes_differ in H.
Qed.

Lemma owned_suffix_other' isOwned x : owned_suffix newPrefix isOwned (oldPrefix +:+ x) = None.
Proof.
  destruct (owned_suffix newPrefix isOwned (oldPrefix +:+ x)) as [y|] eqn:E; [|done].
  apply owned_suffix_spec in E as [H _]. by apply prefixes_differ in H.
Qed.

#[local] Opaque oldPrefix newPrefix.

(* ------------------------------------------------------------------ *)
(** ** Properties *)

(** The metadata rename is safe.  Adopting and later pruning the legacy keys
    of a resource leaves each of its annotations under the new prefix with the
    value it had there, or else with the legacy value, and no legacy key of the
    resource; the legacy keys of other resources and the user's own keys under
    either prefix are as they were; and adopting twice is adopting once. *)
Theorem adopt_then_prune `{MR : MapRange} n : dns_name (sn_skyhookName n) ->
  let name := sn_skyhookName n in
  let adopted := migrateNodePrefixToNodeWright n in
  let A0 := n_Annotations (sn_Node n) in
  let A2 := n_Annotations (sn_Node (pruneLegacyNodePrefix adopted).1) in
  (forall p, p ∈ nameScopedAnnotationPrefixes ->
     A2 !! (newPrefix +:+ p +:+ name) =
       match A0 !! (newPrefix +:+ p +:+ name) with Some v => Some v | None => A0 !! (oldPrefix +:+ p +:+ name) end /\
     A2 !! (oldPrefix +:+ p +:+ name) = None) /\
  (forall p other, p ∈ nameScopedAnnotationPrefixes -> dns_name other -> other <> name ->
     A2 !! (oldPrefix +:+ p +:+ other) = A0 !! (oldPrefix +:+ p +:+ other)) /\
  (forall suffix, isOperatorOwnedAnnotation suffix = false ->
     A2 !! (oldPrefix +:+ suffix) = A0 !! (oldPrefix +:+ suffix) /\
     A2 !! (newPrefix +:+ suffix) = A0 !! (newPrefix +:+ suffix)) /\
  n_Annotations (sn_Node (migrateNodePrefixToNodeWright adopted)) = n_Annotations (sn_Node adopted).
Proof.
  intros Hd name adopted A0 A2.
  assert (HA1 : forall k, n_Annotations (sn_Node adopted) !! k = match A0 !! k with Some v => Some v
    | None => match owned_suffix newPrefix isOperatorOwnedAnnotation k with
              | Some suffix => A0 !! (oldPrefix +:+ suffix) | None => None end end).
  { intros k. unfold adopted. rewrite migrate_annotations. apply copyPrefixedMap_lookup. }
  assert (HA2 : forall k, A2 !! k = match owned_suffix oldPrefix (ownedByAnnotation name) k with Some _ => None
    | None => n_Annotations (sn_Node adopted) !! k end).
  { intros k. unfold A2. rewrite prune_annotations. unfold adopted. by rewrite migrate_name. }
  assert (Hold : forall x, n_Annotations (sn_Node adopted) !! (oldPrefix +:+ x) = A0 !! (oldPrefix +:+ x)).
  { intros x. rewrite HA1, owned_suffix_other'. by destruct (A0 !! _). }
  split_and!.
  - intros p Hp. destruct (owned_by_name p name Hp) as [H1 H2]. split.
    + rewrite HA2, owned_suffix_other, HA1, owned_suffix_app, H1. done.
    + rewrite HA2, owned_suffix_app, H2. done.
  - intros p other Hp Ho Hne. rewrite HA2, owned_suffix_app, (owned_by_other p name other) by done. apply Hold.
  - intros suffix Hs. split.
    + rewrite HA2, owned_suffix_app. destruct (ownedByAnnotation name suffix) eqn:E; [|apply Hold].
      apply owned_implies_operator in E. congruence.
    + rewrite HA2, owned_suffix_other, HA1, owned_suffix_app, Hs. by destruct (A0 !! _).
  - apply map_eq. intros k. rewrite migrate_annotations, copyPrefixedMap_lookup.
    destruct (n_Annotations (sn_Node adopted) !! k) eqn:E; [done|].
    destruct (owned_suffix newPrefix isOperatorOwnedAnnotation k) as [x|] eqn:Ex; [|done].
    rewrite HA1, Ex in E. rewrite Hold. by destruct (A0 !! k).
Qed.

(** A node condition of this resource with the given last segment. *)
Definition tuning_condition (kind : string) : NodeCondition :=
  node_condition 0 (METADATA_PREFIX +:+ "/tuning/" +:+ kind) "True" "" "".

Definition with_conditions (cs : list NodeCondition) : SkyhookNode :=
  set_full_Only (n_map (set_n_Conditions cs) fresh_wrapper) (sample_node New).

(** The 0.5.0 migration removes obsolete conditions from the slice it ranges
    over, so it skips the condition after each removal and panics when a removal
    follows another at the end of the list: of two obsolete conditions followed
    by a valid one the second stays, and two obsolete conditions alone crash
    the operator. *)
Theorem migrateNodeTo_0_5_0_conditions `{MR : MapRange} `{JS : NodeStateJSON} :
  (exists f, migrateNodeTo_0_5_0 (with_conditions
       [tuning_condition "Old"; tuning_condition "Older"; tuning_condition "Erroring"]) = Ok f /\
     n_Conditions (sn_Node (full_Only f)) = [tuning_condition "Older"; tuning_condition "Erroring"]) /\
  migrateNodeTo_0_5_0 (with_conditions [tuning_condition "Old"; tuning_condition "Older"]) = Panic.
Proof.
  assert (HR : range (∅ : NodeState) = []).
  { apply length_zero_iff_nil. by rewrite length_range, map_size_empty. }
  assert (HS : forall cs, node_State (full_Only (with_conditions cs)) = Ok None) by reflexivity.
  unfold migrateNodeTo_0_5_0. rewrite !HS. cbn [rbind default]. rewrite HR. split; [|reflexivity].
  eexists. split; reflexivity.
Qed.

(* ------------------------------------------------------------------ *)
(** ** Witnesses *)

Lemma adopt_then_prune_witness :
  let n := put_annotation "skyhook.nvidia.com/version_tuning" "v1" fresh_wrapper in
  dns_name (sn_skyhookName n) /\
  n_Annotations (sn_Node (pruneLegacyNodePrefix (migrateNodePrefixToNodeWright n)).1)
    !! "nodewright.nvidia.com/version_tuning" = Some "v1".
Proof.
  set (n := put_annotation _ _ _). cbv zeta.
  assert (H : dns_name (sn_skyhookName n)) by reflexivity. split; [exact H|].
  destruct (adopt_then_prune n H) as (H1 & _).
  destruct (H1 "version_" ltac:(right; right; left)) as [H2 _].
  etransitivity; [exact H2|reflexivity].
Defined.
