(* ===== verification/Ownership.v ===== *)
(** * Owners of objects

    Models the owner references that the operator sets and moves:
    [SetControllerReference] of controller-runtime's [controllerutil], the
    controller of an object in apimachinery's [controller_ref.go], and
    [reparentToNodeWright] of
    [operator/internal/controller/skyhook_controller.go].  The resource is
    cluster scoped, so that an owner is never refused for its namespace; its
    group, version and kind are those of [groupversion_info.go]. *)

From S2P Require Import Prelude Api Text Migration.

Record OwnerReference := {
  or_APIVersion : string;
  or_Kind : string;
  or_Name : string;
  or_UID : string;
  or_Controller : bool
}.

#[export] Instance OwnerReference_eq_dec : EqDecision OwnerReference.
Proof. solve_decision. Defined.

(** [schema.ParseGroupVersion]: the group. *)
Definition group_of (apiVersion : string) : option string :=
  if bool_decide (apiVersion = "") || bool_decide (apiVersion = "/") then Some ""
  else match split_slash apiVersion with
       | [_] => Some ""
       | [group; _] => Some group
       | _ => None
       end.

Definition referSameObject (a b : OwnerReference) : bool :=
  match group_of (or_APIVersion a), group_of (or_APIVersion b) with
  | Some ga, Some gb => bool_decide (ga = gb) && bool_decide (or_Kind a = or_Kind b) && bool_decide (or_Name a = or_Name b)
  | _, _ => false
  end.

(** [metav1.GetControllerOf] *)
Definition controller_of (refs : list OwnerReference) : option OwnerReference := List.find or_Controller refs.

Definition IsControlledBy (refs : list OwnerReference) (owner : NodeWright) : bool :=
  match controller_of refs with Some ref => bool_decide (or_UID ref = nw_UID owner) | None => false end.

(** The reference that [SetControllerReference] makes. *)
Definition controllerRef (owner : NodeWright) : OwnerReference :=
  {| or_APIVersion := "nodewright.nvidia.com/v1alpha1"; or_Kind := "NodeWright"; or_Name := nw_Name owner;
     or_UID := nw_UID owner; or_Controller := true |}.

(** [owners\[idx\] = ref] at the first reference to the same object, or at the end. *)
Fixpoint upsertOwnerRef (ref : OwnerReference) (owners : list OwnerReference) : list OwnerReference :=
  match owners with
  | [] => [ref]
  | o :: owners => if referSameObject o ref then ref :: owners else o :: upsertOwnerRef ref owners
  end.

(** The owners, or [None] for the error that another object is the controller. *)
Definition SetControllerReference (owner : NodeWright) (owners : list OwnerReference) : option (list OwnerReference) :=
  let ref := controllerRef owner in
  match controller_of owners with
  | Some existing => if referSameObject existing ref then Some (upsertOwnerRef ref owners) else None
  | None => Some (upsertOwnerRef ref owners)
  end.

Definition legacy_owner (ref : OwnerReference) : bool := has_prefix (or_APIVersion ref) oldPrefix.

(** The owners of a config map, and whether to write them. *)
Definition reparentToNodeWright (owners : list OwnerReference) (nodewright : NodeWright) : list OwnerReference * bool :=
  let kept := List.filter (fun ref => negb (legacy_owner ref)) owners in
  let dropped := any legacy_owner owners in
  if negb dropped && IsControlledBy kept nodewright then (kept, false)
  else match SetControllerReference nodewright kept with
       | Some owners => (owners, true)
       | None => (kept, dropped)
       end.

(* ------------------------------------------------------------------ *)
(** ** Lemmas *)

(** A new object takes the reference as its only owner. *)
Lemma SetControllerReference_new owner : SetControllerReference owner [] = Some [controllerRef owner].
Proof. reflexivity. Qed.

Lemma controllerRef_not_legacy nw : legacy_owner (controllerRef nw) = false.
Proof. reflexivity. Qed.

Lemma upsertOwnerRef_in ref owners x : x ∈ upsertOwnerRef ref owners -> x = ref \/ x ∈ owners.
Proof.
  induction owners as [|o owners IH]; simpl; [set_solver|].
  destruct (referSameObject o ref); rewrite !elem_of_cons; naive_solver.
Qed.

Lemma upsertOwnerRef_ref ref owners : ref ∈ upsertOwnerRef ref owners.
Proof.
  induction owners as [|o owners IH]; simpl; [set_solver|]. destruct (referSameObject o ref); set_solver.
Qed.

(** The reference is the controller, when no other object was. *)
Lemma upsertOwnerRef_controller nw owners :
  match controller_of owners with Some o => referSameObject o (controllerRef nw) | None => true end = true ->
  controller_of (upsertOwnerRef (controllerRef nw) owners) = Some (controllerRef nw).
Proof.
  unfold controller_of. induction owners as [|o owners IH]; simpl; [done|].
  destruct (or_Controller o) eqn:Ec.
  - intros ->. done.
  - intros H. destruct (referSameObject o (controllerRef nw)); simpl; [done|]. rewrite Ec. by apply IH.
Qed.

Lemma no_legacy_after owners : any legacy_owner (List.filter (fun ref => negb (legacy_owner ref)) owners) = false.
Proof.
  apply not_true_iff_false. rewrite any_true. intros (x & Hx & H). apply elem_of_filterb in Hx as [_ Hx]. by rewrite H in Hx.
Qed.

(** After it no owner is in the legacy group, and the resource is the controller
    unless an object outside that group was. *)
Lemma reparent_spec owners nw : let owners' := (reparentToNodeWright owners nw).1 in
  any legacy_owner owners' = false /\
  (IsControlledBy owners' nw = true \/
   exists o, controller_of owners' = Some o /\ o ∈ owners /\ legacy_owner o = false /\ referSameObject o (controllerRef nw) = false).
Proof.
  unfold reparentToNodeWright. set (kept := List.filter _ owners). pose proof (no_legacy_after owners) as Hk. fold kept in Hk.
  destruct (negb (any legacy_owner owners) && IsControlledBy kept nw) eqn:E.
  { cbn [fst]. split; [done|]. left. by apply andb_true_iff in E as [_ ?]. }
  unfold SetControllerReference. destruct (controller_of kept) as [o|] eqn:Ho.
  - destruct (referSameObject o (controllerRef nw)) eqn:Er; cbn [fst].
    + split.
      * apply not_true_iff_false. rewrite any_true. intros (x & [->|Hx]%upsertOwnerRef_in & Hl); [by rewrite controllerRef_not_legacy in Hl|].
        apply not_true_iff_false in Hk. apply Hk, any_true. eauto.
      * left. unfold IsControlledBy. rewrite upsertOwnerRef_controller by (by rewrite Ho). by apply bool_decide_eq_true.
    + split; [done|]. right. exists o. split; [done|]. apply find_some in Ho as [Ho%list_elem_of_In _].
      apply elem_of_filterb in Ho as [Hin Hn]. split_and!; [done|by apply negb_true_iff|done].
  - cbn [fst]. split.
    + apply not_true_iff_false. rewrite any_true. intros (x & [->|Hx]%upsertOwnerRef_in & Hl); [by rewrite controllerRef_not_legacy in Hl|].
      apply not_true_iff_false in Hk. apply Hk, any_true. eauto.
    + left. unfold IsControlledBy. rewrite upsertOwnerRef_controller by (by rewrite Ho). by apply bool_decide_eq_true.
Qed.

(** A second time it changes nothing. *)
Lemma reparent_again owners nw : let owners' := (reparentToNodeWright owners nw).1 in
  reparentToNodeWright owners' nw = (owners', false).
Proof.
  intros owners'. destruct (reparent_spec owners nw) as [Hl Hc]. fold owners' in Hl, Hc.
  unfold reparentToNodeWright. rewrite Hl. cbn [negb].
  assert (Hf : List.filter (fun ref => negb (legacy_owner ref)) owners' = owners').
  { apply forallb_filter_id, forallb_forall. intros x Hx%list_elem_of_In. apply negb_true_iff.
    apply not_true_iff_false. intros H. apply not_true_iff_false in Hl. apply Hl, any_true. eauto. }
  rewrite Hf. destruct Hc as [->|(o & Ho & _ & _ & Hr)]; [done|]. cbn [andb].
  destruct (IsControlledBy owners' nw); [done|]. unfold SetControllerReference. by rewrite Ho, Hr.
Qed.
