(* ===== verification/SkyhookV1.v ===== *)
(** * The resources of the old group

    Models the data of [operator/api/v1alpha1/skyhook_types.go] and
    [deployment_policy_types.go]: the group [skyhook.nvidia.com], which was frozen
    when it was renamed.  As in the source the names are those of the new group;
    where both are in scope the new ones are qualified with their file, as
    [Api.Package] for [nwv1.Package].  Types of Kubernetes are shared.

    The functions on these types are copies of those of the new group; only those
    that decide whether a resource is paused or disabled are modelled. *)

From S2P Require Import Prelude DeploymentPolicy Api Ownership.

(* ------------------------------------------------------------------ *)
(** ** Metadata (apimachinery) *)

(** [metav1.ObjectMeta].  Managed fields are left out. *)
Record ObjectMeta := {
  om_Name : string; om_Namespace : string; om_UID : string; om_ResourceVersion : string;
  om_Generation : Z; om_CreationTimestamp : Z; om_DeletionTimestamp : option Z;
  om_Finalizers : list string; om_Annotations : gmap string string; om_Labels : gmap string string;
  om_OwnerReferences : list OwnerReference
}.

(** An object of the API: [metav1.TypeMeta], its metadata, specification and status. *)
Record Object {Sp St : Type} := {
  o_APIVersion : string; o_Kind : string; o_Meta : ObjectMeta; o_Spec : Sp; o_Status : St
}.
Arguments Object : clear implicits.

(* ------------------------------------------------------------------ *)
(** ** Enumerations *)

Inductive Stage :=
| StageUninstall | StageUninstallInterrupt | StageUpgrade | StageApply
| StageInterrupt | StagePostInterrupt | StageConfig
| StageOther (s : string).

#[export] Instance Stage_eq_dec : EqDecision Stage.
Proof. solve_decision. Defined.

Definition stage_string (s : Stage) : string :=
  match s with
  | StageUninstall => "uninstall"
  | StageUninstallInterrupt => "uninstall-interrupt"
  | StageUpgrade => "upgrade"
  | StageApply => "apply"
  | StageInterrupt => "interrupt"
  | StagePostInterrupt => "post-interrupt"
  | StageConfig => "config"
  | StageOther s => s
  end.

Inductive State :=
| StateComplete | StateInProgress | StateSkipped | StateErroring | StateUnknown
| StateOther (s : string).

#[export] Instance State_eq_dec : EqDecision State.
Proof. solve_decision. Defined.

Definition state_string (s : State) : string :=
  match s with
  | StateComplete => "complete"
  | StateInProgress => "in_progress"
  | StateSkipped => "skipped"
  | StateErroring => "erroring"
  | StateUnknown => "unknown"
  | StateOther s => s
  end.

Inductive Status :=
| StatusComplete | StatusBlocked | StatusWaiting | StatusDisabled | StatusPaused
| StatusInProgress | StatusErroring | StatusUnknown
| StatusOther (s : string).

#[export] Instance Status_eq_dec : EqDecision Status.
Proof. solve_decision. Defined.

Definition status_string (s : Status) : string :=
  match s with
  | StatusComplete => "complete"
  | StatusBlocked => "blocked"
  | StatusWaiting => "waiting"
  | StatusDisabled => "disabled"
  | StatusPaused => "paused"
  | StatusInProgress => "in_progress"
  | StatusErroring => "erroring"
  | StatusUnknown => "unknown"
  | StatusOther s => s
  end.

Inductive InterruptType :=
| REBOOT | SERVICE | NOOP | RESTART_ALL_SERVICES
| InterruptOther (s : string).

#[export] Instance InterruptType_eq_dec : EqDecision InterruptType.
Proof. solve_decision. Defined.

Definition interrupt_string (t : InterruptType) : string :=
  match t with
  | REBOOT => "reboot"
  | SERVICE => "service"
  | NOOP => "noop"
  | RESTART_ALL_SERVICES => "restartAllServices"
  | InterruptOther s => s
  end.

Inductive SequencingMode := SequencingNode | SequencingAll | SequencingOther (s : string).

#[export] Instance SequencingMode_eq_dec : EqDecision SequencingMode.
Proof. solve_decision. Defined.

(* ------------------------------------------------------------------ *)
(** ** Packages *)

Record PackageRef := { ref_Name : string; ref_Version : string }.

Record ResourceRequirements := {
  CPURequest : Quantity; CPULimit : Quantity; MemoryRequest : Quantity; MemoryLimit : Quantity
}.

Record Uninstall := { un_Enabled : bool; un_Apply : bool }.

Record Interrupt := { int_Type : InterruptType; int_Services : list string }.

Record Package := {
  pkg_Ref : PackageRef;
  pkg_Image : string;
  pkg_ContainerSHA : string;
  pkg_AgentImageOverride : string;
  pkg_Interrupt : option Interrupt;
  pkg_DependsOn : gmap string string;
  pkg_ConfigInterrupts : gmap string Interrupt;
  pkg_ConfigMap : gmap string string;
  pkg_Env : list EnvVar;
  pkg_Resources : option ResourceRequirements;
  pkg_GracefulShutdown : option Z;
  pkg_Uninstall : option Uninstall
}.

Notation Packages := (gmap string Package).

Record InterruptionBudget := { ib_Percent : option Z; ib_Count : option Z }.

Record DrainConfig := {
  dc_DisableEviction : option bool; dc_DeleteEmptyDirData : option bool; dc_Force : option bool;
  dc_IgnoreDaemonSets : option bool; dc_Timeout : option Z; dc_GracePeriod : option Z
}.

(* ------------------------------------------------------------------ *)
(** ** Deployment policies *)

Record FixedStrategy := {
  fs_InitialBatch : option Z;
  fs_BatchThreshold : option Z;
  fs_FailureThreshold : option Z;
  fs_SafetyLimit : option Z
}.

Record LinearStrategy := {
  ls_InitialBatch : option Z;
  ls_Delta : option Z;
  ls_BatchThreshold : option Z;
  ls_FailureThreshold : option Z;
  ls_SafetyLimit : option Z
}.

Record ExponentialStrategy := {
  es_InitialBatch : option Z;
  es_GrowthFactor : option Z;
  es_BatchThreshold : option Z;
  es_FailureThreshold : option Z;
  es_SafetyLimit : option Z
}.

Record DeploymentStrategy := {
  Fixed : option FixedStrategy;
  Linear : option LinearStrategy;
  Exponential : option ExponentialStrategy
}.

Record DeploymentBudget := { Percent : option Z; Count : option Z }.

Record PolicyDefault := { pd_Budget : DeploymentBudget; pd_Strategy : option DeploymentStrategy }.

Record Compartment := {
  c_Name : string;
  c_Selector : LabelSelector;
  c_Budget : DeploymentBudget;
  c_Strategy : option DeploymentStrategy
}.

Record DeploymentPolicySpec := {
  dps_Default : PolicyDefault;
  dps_Compartments : list Compartment;
  dps_ResetBatchStateOnCompletion : option bool
}.

Record BatchProcessingState := {
  CurrentBatch : Z;
  ConsecutiveFailures : Z;
  CompletedNodes : Z;
  FailedNodes : Z;
  ShouldStop : bool;
  LastBatchSize : Z;
  LastBatchFailed : bool
}.

(* ------------------------------------------------------------------ *)
(** ** The resource: specification and status *)

Record PackageStatus := {
  ps_Name : string; ps_Version : string; ps_Image : string; ps_ContainerSHA : string;
  ps_Stage : Stage; ps_State : State; ps_Restarts : Z
}.

Notation NodeState := (gmap string PackageStatus).

Record CompartmentStatus := {
  cs_Matched : Z; cs_Ceiling : Z; cs_InProgress : Z; cs_Completed : Z; cs_ProgressPercent : Z;
  cs_BatchState : option BatchProcessingState
}.

Record SkyhookSpec := {
  Serial : bool;
  PodNonInterruptLabels : LabelSelector;
  NodeSelector : LabelSelector;
  sp_DeploymentPolicy : string;
  DeploymentPolicyOptions : option (option bool);
  sp_InterruptionBudget : InterruptionBudget;
  sp_DrainConfig : option DrainConfig;
  sp_Packages : Packages;
  AdditionalTolerations : list Toleration;
  RuntimeRequired : bool;
  AutoTaintNewNodes : bool;
  Priority : Z;
  Sequencing : SequencingMode
}.

Record SkyhookStatus := {
  ObservedGeneration : Z;
  st_NodeState : option (gmap string (option NodeState));
  NodeStatus : gmap string Status;
  st_Status : Status;
  Conditions : list Condition;
  NodeBootIds : gmap string string;
  NodePriority : gmap string Z;
  NodeOrderOffset : Z;
  ConfigUpdates : gmap string (list string);
  CompartmentStatuses : gmap string CompartmentStatus;
  NodesInProgress : Z;
  CompleteNodes : string;
  PackageList : string
}.

Definition Skyhook : Type := Object SkyhookSpec SkyhookStatus.
Definition DeploymentPolicy : Type := Object DeploymentPolicySpec unit.

Definition METADATA_PREFIX : string := "skyhook.nvidia.com".

Definition annotation_is_true (s : Skyhook) (key : string) : bool :=
  match om_Annotations (o_Meta s) !! key with Some val => bool_decide (val = "true") | None => false end.

Definition IsPaused (s : Skyhook) : bool := annotation_is_true s (METADATA_PREFIX +:+ "/pause").
Definition IsDisabled (s : Skyhook) : bool := annotation_is_true s (METADATA_PREFIX +:+ "/disable").

Definition IsPerNodeSequencing (spec : SkyhookSpec) : bool :=
  negb (bool_decide (Sequencing spec = SequencingAll)).
