(* ===== verification/Conversion.v ===== *)
(** * Conversion from the old group to the new one

    Models [operator/api/v1alpha1/nodewright_conversion.go], field by field.  As
    in the source the names of the old group are used plainly and those of the
    new one are qualified with their file.  A converter that writes into [out]
    takes the [out] it is given, since it leaves the fields that only the new
    group has as they are. *)

From S2P Require Import Prelude Graph DeploymentPolicy Api NodeState Skyhook Text Node Migration Ownership SkyhookV1.

(** [nwv1.DeploymentPolicySpec]; [DeploymentPolicy] keeps the name with it. *)
Record NewDeploymentPolicySpec := {
  ndps_Default : DeploymentPolicy.PolicyDefault;
  ndps_Compartments : list DeploymentPolicy.Compartment;
  ndps_ResetBatchStateOnCompletion : option bool
}.

Definition NewNodeWright : Type := Object NodeWrightSpec NodeWrightStatus.
Definition NewDeploymentPolicy : Type := Object NewDeploymentPolicySpec unit.

(* ------------------------------------------------------------------ *)
(** ** Metadata *)

Section Metadata.
Context `{MR : MapRange}.

Definition keep_key (oldPrefix : string) (out : gmap string string) (kv : string * string) : gmap string string :=
  if has_prefix kv.1 oldPrefix then out else <[kv.1 := kv.2]> out.

Definition rewrite_key (oldPrefix newPrefix : string) (out : gmap string string) (kv : string * string) : gmap string string :=
  match CutPrefix kv.1 oldPrefix with
  | None => out
  | Some suffix =>
      let newKey := newPrefix +:+ suffix in
      match out !! newKey with Some _ => out | None => <[newKey := kv.2]> out end
  end.

(** The two loops range over the map on their own. *)
Definition rekeyPrefix (m : gmap string string) : gmap string string :=
  let oldPrefix := METADATA_PREFIX +:+ "/" in
  let newPrefix := Api.METADATA_PREFIX +:+ "/" in
  foldl (rewrite_key oldPrefix newPrefix) (foldl (keep_key oldPrefix) ∅ (range m)) (range m).

Definition prepareObjectMeta (meta : ObjectMeta) : ObjectMeta :=
  {| om_Name := om_Name meta; om_Namespace := om_Namespace meta; om_UID := ""; om_ResourceVersion := "";
     om_Generation := om_Generation meta; om_CreationTimestamp := om_CreationTimestamp meta;
     om_DeletionTimestamp := om_DeletionTimestamp meta; om_Finalizers := [];
     om_Annotations := rekeyPrefix (om_Annotations meta); om_Labels := rekeyPrefix (om_Labels meta);
     om_OwnerReferences := om_OwnerReferences meta |}.
End Metadata.

(* ------------------------------------------------------------------ *)
(** ** Enumerations: conversions of string types *)

Definition convert_Stage (s : Stage) : Api.Stage :=
  match s with
  | StageUninstall => Api.StageUninstall
  | StageUninstallInterrupt => Api.StageUninstallInterrupt
  | StageUpgrade => Api.StageUpgrade
  | StageApply => Api.StageApply
  | StageInterrupt => Api.StageInterrupt
  | StagePostInterrupt => Api.StagePostInterrupt
  | StageConfig => Api.StageConfig
  | StageOther s => Api.StageOther s
  end.

Definition convert_State (s : State) : Api.State :=
  match s with
  | StateComplete => Api.StateComplete
  | StateInProgress => Api.StateInProgress
  | StateSkipped => Api.StateSkipped
  | StateErroring => Api.StateErroring
  | StateUnknown => Api.StateUnknown
  | StateOther s => Api.StateOther s
  end.

Definition convert_Status (s : Status) : Api.Status :=
  match s with
  | StatusComplete => Api.StatusComplete
  | StatusBlocked => Api.StatusBlocked
  | StatusWaiting => Api.StatusWaiting
  | StatusDisabled => Api.StatusDisabled
  | StatusPaused => Api.StatusPaused
  | StatusInProgress => Api.StatusInProgress
  | StatusErroring => Api.StatusErroring
  | StatusUnknown => Api.StatusUnknown
  | StatusOther s => Api.StatusOther s
  end.

Definition convert_InterruptType (t : InterruptType) : Api.InterruptType :=
  match t with
  | REBOOT => Api.REBOOT
  | SERVICE => Api.SERVICE
  | NOOP => Api.NOOP
  | RESTART_ALL_SERVICES => Api.RESTART_ALL_SERVICES
  | InterruptOther s => Api.InterruptOther s
  end.

Definition convert_SequencingMode (m : SequencingMode) : Api.SequencingMode :=
  match m with
  | SequencingNode => Api.SequencingNode
  | SequencingAll => Api.SequencingAll
  | SequencingOther s => Api.SequencingOther s
  end.

(* ------------------------------------------------------------------ *)
(** ** Packages *)

Definition convertInterrupt (i : Interrupt) : Api.Interrupt :=
  {| Api.int_Type := convert_InterruptType (int_Type i); Api.int_Services := int_Services i |}.

Definition convertUninstall (u : Uninstall) : Api.Uninstall :=
  {| Api.un_Enabled := un_Enabled u; Api.un_Apply := un_Apply u |}.

Definition convertResourceRequirements (r : ResourceRequirements) : Api.ResourceRequirements :=
  {| Api.CPURequest := CPURequest r; Api.CPULimit := CPULimit r;
     Api.MemoryRequest := MemoryRequest r; Api.MemoryLimit := MemoryLimit r |}.

Definition convertPackage (p : Package) : Api.Package :=
  {| Api.pkg_Ref := {| Api.ref_Name := ref_Name (pkg_Ref p); Api.ref_Version := ref_Version (pkg_Ref p) |};
     Api.pkg_Image := pkg_Image p;
     Api.pkg_ContainerSHA := pkg_ContainerSHA p;
     Api.pkg_AgentImageOverride := pkg_AgentImageOverride p;
     Api.pkg_Interrupt := convertInterrupt <$> pkg_Interrupt p;
     Api.pkg_DependsOn := pkg_DependsOn p;
     Api.pkg_ConfigInterrupts := convertInterrupt <$> pkg_ConfigInterrupts p;
     Api.pkg_ConfigMap := pkg_ConfigMap p;
     Api.pkg_Env := pkg_Env p;
     Api.pkg_Resources := convertResourceRequirements <$> pkg_Resources p;
     Api.pkg_GracefulShutdown := pkg_GracefulShutdown p;
     Api.pkg_StageTimeout := None;
     Api.pkg_Uninstall := convertUninstall <$> pkg_Uninstall p |}.

Definition convertPackages (p : Packages) : Api.Packages := convertPackage <$> p.

Definition convertInterruptionBudget (b : InterruptionBudget) : Api.InterruptionBudget :=
  {| Api.ib_Percent := ib_Percent b; Api.ib_Count := ib_Count b |}.

Definition convertDrainConfig (d : DrainConfig) : Api.DrainConfig :=
  {| Api.dc_DisableEviction := dc_DisableEviction d; Api.dc_DeleteEmptyDirData := dc_DeleteEmptyDirData d;
     Api.dc_Force := dc_Force d; Api.dc_IgnoreDaemonSets := dc_IgnoreDaemonSets d;
     Api.dc_Timeout := dc_Timeout d; Api.dc_GracePeriod := dc_GracePeriod d |}.

Definition convertSkyhookSpec (s : SkyhookSpec) (out : NodeWrightSpec) : NodeWrightSpec :=
  {| Api.Serial := Serial s;
     Api.PodNonInterruptLabels := PodNonInterruptLabels s;
     Api.NodeSelector := NodeSelector s;
     Api.sp_DeploymentPolicy := sp_DeploymentPolicy s;
     Api.DeploymentPolicyOptions := DeploymentPolicyOptions s;
     Api.sp_InterruptionBudget := convertInterruptionBudget (sp_InterruptionBudget s);
     Api.sp_DrainConfig := convertDrainConfig <$> sp_DrainConfig s;
     Api.sp_Packages := convertPackages (sp_Packages s);
     Api.AdditionalTolerations := AdditionalTolerations s;
     Api.RuntimeRequired := RuntimeRequired s;
     Api.RuntimeRequiredCordonAfter := RuntimeRequiredCordonAfter out;
     Api.AutoTaintNewNodes := AutoTaintNewNodes s;
     Api.Priority := Priority s;
     Api.Sequencing := convert_SequencingMode (Sequencing s) |}.

(* ------------------------------------------------------------------ *)
(** ** Status *)

Definition convertPackageStatus (p : PackageStatus) : Api.PackageStatus :=
  {| Api.ps_Name := ps_Name p; Api.ps_Version := ps_Version p; Api.ps_Image := ps_Image p;
     Api.ps_ContainerSHA := ps_ContainerSHA p; Api.ps_Stage := convert_Stage (ps_Stage p);
     Api.ps_State := convert_State (ps_State p); Api.ps_Restarts := ps_Restarts p |}.

Definition convertNodeState (ns : NodeState) : Api.NodeState := convertPackageStatus <$> ns.

Definition convertNodeStateMap (m : gmap string (option NodeState)) : gmap string (option Api.NodeState) :=
  (fun ns : option NodeState => convertNodeState <$> ns) <$> m.

Definition convertBatchProcessingState (b : BatchProcessingState) : DeploymentPolicy.BatchProcessingState :=
  {| DeploymentPolicy.CurrentBatch := CurrentBatch b; DeploymentPolicy.ConsecutiveFailures := ConsecutiveFailures b;
     DeploymentPolicy.CompletedNodes := CompletedNodes b; DeploymentPolicy.FailedNodes := FailedNodes b;
     DeploymentPolicy.ShouldStop := ShouldStop b; DeploymentPolicy.LastBatchSize := LastBatchSize b;
     DeploymentPolicy.LastBatchFailed := LastBatchFailed b |}.

Definition convertCompartmentStatus (c : CompartmentStatus) : Api.CompartmentStatus :=
  {| Api.cs_Matched := cs_Matched c; Api.cs_Ceiling := cs_Ceiling c; Api.cs_InProgress := cs_InProgress c;
     Api.cs_Completed := cs_Completed c; Api.cs_ProgressPercent := cs_ProgressPercent c;
     Api.cs_BatchState := convertBatchProcessingState <$> cs_BatchState c |}.

Definition convertSkyhookStatus (s : SkyhookStatus) : NodeWrightStatus :=
  {| Api.ObservedGeneration := ObservedGeneration s;
     Api.st_NodeState := convertNodeStateMap <$> st_NodeState s;
     Api.NodeStatus := convert_Status <$> NodeStatus s;
     Api.st_Status := convert_Status (st_Status s);
     Api.Conditions := Conditions s;
     Api.NodeBootIds := NodeBootIds s;
     Api.NodePriority := NodePriority s;
     Api.NodeOrderOffset := NodeOrderOffset s;
     Api.ConfigUpdates := ConfigUpdates s;
     Api.CompartmentStatuses := convertCompartmentStatus <$> CompartmentStatuses s;
     Api.NodesInProgress := NodesInProgress s;
     Api.CompleteNodes := CompleteNodes s;
     Api.PackageList := PackageList s |}.

(* ------------------------------------------------------------------ *)
(** ** Deployment policies *)

Definition convertDeploymentBudget (b : DeploymentBudget) : DeploymentPolicy.DeploymentBudget :=
  {| DeploymentPolicy.Percent := Percent b; DeploymentPolicy.Count := Count b |}.

Definition convertFixedStrategy (s : FixedStrategy) : DeploymentPolicy.FixedStrategy :=
  {| DeploymentPolicy.fs_InitialBatch := fs_InitialBatch s; DeploymentPolicy.fs_BatchThreshold := fs_BatchThreshold s;
     DeploymentPolicy.fs_FailureThreshold := fs_FailureThreshold s; DeploymentPolicy.fs_SafetyLimit := fs_SafetyLimit s |}.

Definition convertLinearStrategy (s : LinearStrategy) : DeploymentPolicy.LinearStrategy :=
  {| DeploymentPolicy.ls_InitialBatch := ls_InitialBatch s; DeploymentPolicy.ls_Delta := ls_Delta s;
     DeploymentPolicy.ls_BatchThreshold := ls_BatchThreshold s;
     DeploymentPolicy.ls_FailureThreshold := ls_FailureThreshold s; DeploymentPolicy.ls_SafetyLimit := ls_SafetyLimit s |}.

Definition convertExponentialStrategy (s : ExponentialStrategy) : DeploymentPolicy.ExponentialStrategy :=
  {| DeploymentPolicy.es_InitialBatch := es_InitialBatch s; DeploymentPolicy.es_GrowthFactor := es_GrowthFactor s;
     DeploymentPolicy.es_BatchThreshold := es_BatchThreshold s;
     DeploymentPolicy.es_FailureThreshold := es_FailureThreshold s; DeploymentPolicy.es_SafetyLimit := es_SafetyLimit s |}.

Definition convertDeploymentStrategy (s : DeploymentStrategy) : DeploymentPolicy.DeploymentStrategy :=
  {| DeploymentPolicy.Fixed := convertFixedStrategy <$> Fixed s;
     DeploymentPolicy.Linear := convertLinearStrategy <$> Linear s;
     DeploymentPolicy.Exponential := convertExponentialStrategy <$> Exponential s |}.

Definition convertPolicyDefault (d : PolicyDefault) : DeploymentPolicy.PolicyDefault :=
  {| DeploymentPolicy.pd_Budget := convertDeploymentBudget (pd_Budget d);
     DeploymentPolicy.pd_Strategy := convertDeploymentStrategy <$> pd_Strategy d |}.

Definition convertCompartment (c : Compartment) : DeploymentPolicy.Compartment :=
  {| DeploymentPolicy.c_Name := c_Name c; DeploymentPolicy.c_Selector := c_Selector c;
     DeploymentPolicy.c_Budget := convertDeploymentBudget (c_Budget c);
     DeploymentPolicy.c_Strategy := convertDeploymentStrategy <$> c_Strategy c |}.

(** The flag is assigned only when it is set. *)
Definition convertDeploymentPolicySpec (s : DeploymentPolicySpec) (out : NewDeploymentPolicySpec) : NewDeploymentPolicySpec :=
  {| ndps_Default := convertPolicyDefault (dps_Default s);
     ndps_Compartments := convertCompartment <$> dps_Compartments s;
     ndps_ResetBatchStateOnCompletion :=
       match dps_ResetBatchStateOnCompletion s with Some v => Some v | None => ndps_ResetBatchStateOnCompletion out end |}.

(* ------------------------------------------------------------------ *)
(** ** Objects *)

Definition new_APIVersion : string := "nodewright.nvidia.com/v1alpha1".

Section Objects.
Context `{MR : MapRange}.

Definition Convert_Skyhook_To_NodeWright (s : Skyhook) (out : NewNodeWright) : NewNodeWright :=
  {| o_APIVersion := new_APIVersion; o_Kind := "NodeWright"; o_Meta := prepareObjectMeta (o_Meta s);
     o_Spec := convertSkyhookSpec (o_Spec s) (o_Spec out); o_Status := convertSkyhookStatus (o_Status s) |}.

Definition Convert_DeploymentPolicy_To_NodeWright (p : SkyhookV1.DeploymentPolicy) (out : NewDeploymentPolicy) : NewDeploymentPolicy :=
  {| o_APIVersion := new_APIVersion; o_Kind := "DeploymentPolicy"; o_Meta := prepareObjectMeta (o_Meta p);
     o_Spec := convertDeploymentPolicySpec (o_Spec p) (o_Spec out); o_Status := tt |}.
End Objects.

(* ------------------------------------------------------------------ *)
(** ** Lemmas: the metadata *)

Section MetadataLemmas.
Context `{MR : MapRange}.

Lemma keep_lookup old l out k : NoDup l.*1 ->
  foldl (keep_key old) out l !! k =
  if has_prefix k old then out !! k
  else match (list_to_map l : gmap string string) !! k with Some v => Some v | None => out !! k end.
Proof.
  revert out. induction l as [|[k' v] l IH]; intros out Hnd; cbn [foldl]; [by case_match|].
  apply NoDup_cons in Hnd as [Hk Hnd]. rewrite IH by done. unfold keep_key. cbn [fst snd list_to_map foldr].
  destruct (decide (k = k')) as [->|Hne].
  - destruct (has_prefix k' old); [done|]. rewrite (not_elem_of_list_to_map_1 _ _ Hk). by rewrite !lookup_insert_eq.
  - rewrite lookup_insert_ne by done. destruct (has_prefix k' old); [done|]. by rewrite lookup_insert_ne.
Qed.

Lemma rewrite_lookup old new l out k :
  foldl (rewrite_key old new) out l !! k =
  match out !! k, CutPrefix k new with
  | Some v, _ => Some v
  | None, Some suffix => (list_to_map l : gmap string string) !! (old +:+ suffix)
  | None, None => None
  end.
Proof.
  revert out. induction l as [|[k' v] l IH]; intros out; cbn [foldl].
  { by destruct (out !! k), (CutPrefix k new). }
  rewrite IH. unfold rewrite_key. cbn [fst snd list_to_map foldr]. destruct (CutPrefix k' old) as [s'|] eqn:E'.
  - apply CutPrefix_spec in E' as ->. destruct (out !! (new +:+ s')) as [w|] eqn:Eo.
    + destruct (out !! k) eqn:Ek; [done|]. destruct (CutPrefix k new) as [s|] eqn:E; [|done]. apply CutPrefix_spec in E as ->.
      rewrite lookup_insert_ne; [done|]. intros ?%(inj _). congruence.
    + destruct (decide (k = new +:+ s')) as [->|Hne].
      * rewrite lookup_insert_eq, Eo. rewrite (proj2 (CutPrefix_spec _ _ s') eq_refl). by rewrite lookup_insert_eq.
      * rewrite lookup_insert_ne by done. destruct (out !! k); [done|]. destruct (CutPrefix k new) as [s|] eqn:E; [|done].
        apply CutPrefix_spec in E as ->. rewrite lookup_insert_ne; [done|]. by intros <-%(inj _).
  - destruct (out !! k); [done|]. destruct (CutPrefix k new) as [s|]; [|done]. rewrite lookup_insert_ne; [done|].
    intros ->. pose proof (proj2 (CutPrefix_spec (old +:+ s) old s) eq_refl). congruence.
Qed.

Lemma list_to_map_range {V} (m : gmap string V) : list_to_map (range m) = m.
Proof.
  rewrite <- (list_to_map_to_list m) at 2. apply list_to_map_proper; [|apply range_Permutation].
  rewrite range_Permutation. apply NoDup_fst_map_to_list.
Qed.

(** An entry under the new prefix is the explicit one, or else the one under the
    old prefix; none is left under the old prefix, and the others are kept. *)
Lemma rekeyPrefix_lookup m k :
  rekeyPrefix m !! k =
  match CutPrefix k newPrefix with
  | Some suffix => match m !! k with Some v => Some v | None => m !! (oldPrefix +:+ suffix) end
  | None => if has_prefix k oldPrefix then None else m !! k
  end.
Proof.
  unfold rekeyPrefix. fold newPrefix. change (METADATA_PREFIX +:+ "/") with oldPrefix.
  rewrite rewrite_lookup, keep_lookup by (rewrite range_Permutation; apply NoDup_fst_map_to_list).
  rewrite list_to_map_range. destruct (CutPrefix k newPrefix) as [suffix|] eqn:E.
  - apply CutPrefix_spec in E as ->. destruct (has_prefix _ oldPrefix) eqn:Ho; [|by destruct (m !! (newPrefix +:+ suffix))].
    apply has_prefix_spec in Ho as [b Hb]. symmetry in Hb. by apply prefixes_differ in Hb.
  - destruct (has_prefix k oldPrefix); [by rewrite lookup_empty|]. rewrite lookup_empty. by destruct (m !! k).
Qed.
End MetadataLemmas.

(* ------------------------------------------------------------------ *)
(** ** Lemmas: the converters lose nothing *)

#[local] Instance convert_Stage_inj : Inj (=) (=) convert_Stage.
Proof. intros [] []; cbn; congruence. Qed.
#[local] Instance convert_State_inj : Inj (=) (=) convert_State.
Proof. intros [] []; cbn; congruence. Qed.
#[local] Instance convert_Status_inj : Inj (=) (=) convert_Status.
Proof. intros [] []; cbn; congruence. Qed.
#[local] Instance convert_InterruptType_inj : Inj (=) (=) convert_InterruptType.
Proof. intros [] []; cbn; congruence. Qed.
#[local] Instance convert_SequencingMode_inj : Inj (=) (=) convert_SequencingMode.
Proof. intros [] []; cbn; congruence. Qed.

(** The constants of the two groups are the same texts. *)
Lemma convert_strings :
  (forall s, Api.stage_string (convert_Stage s) = stage_string s) /\
  (forall s, Api.state_string (convert_State s) = state_string s) /\
  (forall s, Api.status_string (convert_Status s) = status_string s).
Proof. split_and!; by intros []. Qed.

#[local] Instance convertInterrupt_inj : Inj (=) (=) convertInterrupt.
Proof. intros [] [] [= ?%(inj _) ?]. by subst. Qed.
#[local] Instance convertUninstall_inj : Inj (=) (=) convertUninstall.
Proof. intros [] [] [=]. by subst. Qed.
#[local] Instance convertResources_inj : Inj (=) (=) convertResourceRequirements.
Proof. intros [] [] [=]. by subst. Qed.
#[local] Instance convertPackage_inj : Inj (=) (=) convertPackage.
Proof.
  intros [[] ? ? ? I ? C ? ? R ? U] [[] ? ? ? I' ? C' ? ? R' ? U'] [=]. subst.
  assert (I = I') as -> by by apply (inj (fmap convertInterrupt)).
  assert (C = C') as -> by by apply (inj (fmap convertInterrupt)).
  assert (R = R') as -> by by apply (inj (fmap convertResourceRequirements)).
  assert (U = U') as -> by by apply (inj (fmap convertUninstall)). done.
Qed.
#[local] Instance convertBudget_inj : Inj (=) (=) convertInterruptionBudget.
Proof. intros [] [] [=]. by subst. Qed.
#[local] Instance convertDrain_inj : Inj (=) (=) convertDrainConfig.
Proof. intros [] [] [=]. by subst. Qed.

Lemma convertSkyhookSpec_inj out s s' : convertSkyhookSpec s out = convertSkyhookSpec s' out -> s = s'.
Proof.
  destruct s as [? ? ? ? ? B D P ? ? ? ? Q], s' as [? ? ? ? ? B' D' P' ? ? ? ? Q']. intros [=]. subst.
  assert (B = B') as -> by (destruct B, B'; cbn in *; congruence).
  assert (D = D') as -> by by apply (inj (fmap convertDrainConfig)).
  assert (P = P') as -> by by apply (inj (fmap convertPackage)).
  assert (Q = Q') as -> by by apply (inj convert_SequencingMode). done.
Qed.

#[local] Instance convertPackageStatus_inj : Inj (=) (=) convertPackageStatus.
Proof. intros [] [] [=]. f_equal; try done; by apply (inj _). Qed.
#[local] Instance convertBatch_inj : Inj (=) (=) convertBatchProcessingState.
Proof. intros [] [] [=]. by subst. Qed.
#[local] Instance convertCompartmentStatus_inj : Inj (=) (=) convertCompartmentStatus.
Proof. intros [? ? ? ? ? B] [? ? ? ? ? B'] [=]. subst. f_equal. by apply (inj (fmap convertBatchProcessingState)). Qed.
#[local] Instance convertNodeStateMap_inj : Inj (=) (=) convertNodeStateMap.
Proof. unfold convertNodeStateMap, convertNodeState. apply _. Qed.

#[local] Instance convertSkyhookStatus_inj : Inj (=) (=) convertSkyhookStatus.
Proof.
  intros [? N M S ? ? ? ? ? C ? ? ?] [? N' M' S' ? ? ? ? ? C' ? ? ?] [=]. subst.
  assert (N = N') as -> by by apply (inj (fmap convertNodeStateMap)).
  assert (M = M') as -> by by apply (inj (fmap convert_Status)).
  assert (S = S') as -> by by apply (inj convert_Status).
  assert (C = C') as -> by by apply (inj (fmap convertCompartmentStatus)). done.
Qed.

#[local] Instance convertDeploymentBudget_inj : Inj (=) (=) convertDeploymentBudget.
Proof. intros [] [] [=]. by subst. Qed.
#[local] Instance convertFixed_inj : Inj (=) (=) convertFixedStrategy.
Proof. intros [] [] [=]. by subst. Qed.
#[local] Instance convertLinear_inj : Inj (=) (=) convertLinearStrategy.
Proof. intros [] [] [=]. by subst. Qed.
#[local] Instance convertExponential_inj : Inj (=) (=) convertExponentialStrategy.
Proof. intros [] [] [=]. by subst. Qed.
#[local] Instance convertStrategy_inj : Inj (=) (=) convertDeploymentStrategy.
Proof.
  intros [F L E] [F' L' E'] [=].
  assert (F = F') as -> by by apply (inj (fmap convertFixedStrategy)).
  assert (L = L') as -> by by apply (inj (fmap convertLinearStrategy)).
  assert (E = E') as -> by by apply (inj (fmap convertExponentialStrategy)). done.
Qed.
#[local] Instance convertPolicyDefault_inj : Inj (=) (=) convertPolicyDefault.
Proof.
  intros [[] S] [[] S'] [=]. subst. assert (S = S') as -> by by apply (inj (fmap convertDeploymentStrategy)). done.
Qed.
#[local] Instance convertCompartment_inj : Inj (=) (=) convertCompartment.
Proof.
  intros [? ? [] S] [? ? [] S'] [=]. subst. assert (S = S') as -> by by apply (inj (fmap convertDeploymentStrategy)). done.
Qed.

(** A flag that is not set in the policy is the one of [out]. *)
Lemma convertDeploymentPolicySpec_inj out s s' : ndps_ResetBatchStateOnCompletion out = None ->
  convertDeploymentPolicySpec s out = convertDeploymentPolicySpec s' out -> s = s'.
Proof.
  intros Hout. destruct s as [D C R], s' as [D' C' R']. unfold convertDeploymentPolicySpec. cbn. rewrite Hout.
  intros E. assert (D = D') as -> by by apply (inj convertPolicyDefault), (f_equal ndps_Default E).
  assert (C = C') as -> by by apply (inj (fmap convertCompartment)), (f_equal ndps_Compartments E).
  apply (f_equal ndps_ResetBatchStateOnCompletion) in E. cbn in E. by destruct R, R'; simplify_eq.
Qed.

(* ------------------------------------------------------------------ *)
(** ** Properties *)

(** The resource of the main controller that an object is. *)
Definition nodewright_of (o : NewNodeWright) : NodeWright :=
  let m := o_Meta o in
  {| nw_Name := om_Name m; nw_UID := om_UID m; nw_Generation := om_Generation m;
     nw_CreationTimestamp := om_CreationTimestamp m; nw_DeletionTimestamp := om_DeletionTimestamp m;
     nw_Finalizers := om_Finalizers m; nw_Annotations := om_Annotations m; Spec := o_Spec o; nw_Status := o_Status o |}.

Section Properties.
Context `{MR : MapRange}.

(** An annotation of the operator means the same after the conversion, unless
    the old object also had it under the new prefix. *)
Lemma converted_annotation s out key : om_Annotations (o_Meta s) !! (newPrefix +:+ key) = None ->
  Api.annotation_is_true (nodewright_of (Convert_Skyhook_To_NodeWright s out)) (newPrefix +:+ key) =
  annotation_is_true s (oldPrefix +:+ key).
Proof.
  intros H. unfold Api.annotation_is_true, annotation_is_true, nodewright_of, Convert_Skyhook_To_NodeWright, prepareObjectMeta.
  cbn. rewrite rekeyPrefix_lookup, (proj2 (CutPrefix_spec _ newPrefix key) eq_refl). by rewrite H.
Qed.

(** C29: the conversion to the new group is faithful.  Two resources that differ in
    their specification or status have conversions that differ there.  The
    object is one to be created, so it has no version, identity and finalizers.
    Whatever the order in which maps are ranged over, an annotation or label of
    the operator keeps its value under the new prefix, where an explicit one
    wins, none is left under the old prefix, and the others are kept; so the
    resource is paused, disabled and sequenced as it was. *)
Theorem Convert_Skyhook_faithful (s : Skyhook) (out : NewNodeWright) :
  let n := Convert_Skyhook_To_NodeWright s out in
  (forall s', o_Spec (Convert_Skyhook_To_NodeWright s' out) = o_Spec n ->
     o_Status (Convert_Skyhook_To_NodeWright s' out) = o_Status n -> o_Spec s' = o_Spec s /\ o_Status s' = o_Status s) /\
  (om_ResourceVersion (o_Meta n) = "" /\ om_UID (o_Meta n) = "" /\ om_Finalizers (o_Meta n) = []) /\
  (forall get k, get = om_Annotations \/ get = om_Labels ->
     get (o_Meta n) !! k =
     match CutPrefix k newPrefix with
     | Some key => match get (o_Meta s) !! k with Some v => Some v | None => get (o_Meta s) !! (oldPrefix +:+ key) end
     | None => if has_prefix k oldPrefix then None else get (o_Meta s) !! k
     end) /\
  (om_Annotations (o_Meta s) !! (newPrefix +:+ "pause") = None -> Api.IsPaused (nodewright_of n) = IsPaused s) /\
  (om_Annotations (o_Meta s) !! (newPrefix +:+ "disable") = None -> Api.IsDisabled (nodewright_of n) = IsDisabled s) /\
  Api.IsPerNodeSequencing (o_Spec n) = IsPerNodeSequencing (o_Spec s).
Proof.
  intros n. split_and!; try done.
  - intros s' H1 H2. split; [exact (convertSkyhookSpec_inj _ _ _ H1)|exact (inj convertSkyhookStatus _ _ H2)].
  - intros get k [->| ->]; apply rekeyPrefix_lookup.
  - intros H. exact (converted_annotation s out "pause" H).
  - intros H. exact (converted_annotation s out "disable" H).
  - unfold n, Api.IsPerNodeSequencing, IsPerNodeSequencing. cbn. by destruct (Sequencing (o_Spec s)).
Qed.
End Properties.
