(* ===== verification/Mirror.v ===== *)
(** * The mirror of the old group

    Models [operator/internal/controller/mirror_controller.go], which copies the
    resources and the deployment policies of the old group to the new one, and
    [operator/api/v1alpha1/legacy_readonly_webhook.go] with the update webhooks
    that freeze the old objects.

    The reconcilers of the two kinds share one core, which is a section over the
    kinds.  The client reads from a cache, so a read replaces the object it is
    given.  The predicates that choose which events are reconciled and the log
    lines are left out. *)

From S2P Require Import Prelude Effects Graph DeploymentPolicy Api NodeState Skyhook Text Node Migration Ownership SkyhookV1 Conversion.

#[local] Open Scope Z_scope.
#[local] Open Scope go_scope.

Definition MirroredFromAnnotation : string := Api.METADATA_PREFIX +:+ "/mirrored-from".
Definition MirroredGenerationAnnotation : string := Api.METADATA_PREFIX +:+ "/mirrored-generation".
Definition legacySkyhookFinalizer : string := "skyhook.nvidia.com/skyhook".
Definition migratedAtAnnotation : string := Api.METADATA_PREFIX +:+ "/legacy-migrated-at".

Definition preservedTargetAnnotations : list string :=
  [Api.METADATA_PREFIX +:+ "/pause"; Api.METADATA_PREFIX +:+ "/disable"; migratedAtAnnotation].

(* ------------------------------------------------------------------ *)
(** ** Objects *)

Section Objects.
Context {Sp St : Type}.

Local Notation O := (Object Sp St).

Definition set_o_Meta (m : ObjectMeta) (o : O) : O :=
  {| o_APIVersion := o_APIVersion o; o_Kind := o_Kind o; o_Meta := m; o_Spec := o_Spec o; o_Status := o_Status o |}.
Definition set_o_Spec (s : Sp) (o : O) : O :=
  {| o_APIVersion := o_APIVersion o; o_Kind := o_Kind o; o_Meta := o_Meta o; o_Spec := s; o_Status := o_Status o |}.

Definition SetAnnotations (a : gmap string string) (o : O) : O :=
  let m := o_Meta o in
  set_o_Meta {| om_Name := om_Name m; om_Namespace := om_Namespace m; om_UID := om_UID m;
                om_ResourceVersion := om_ResourceVersion m; om_Generation := om_Generation m;
                om_CreationTimestamp := om_CreationTimestamp m; om_DeletionTimestamp := om_DeletionTimestamp m;
                om_Finalizers := om_Finalizers m; om_Annotations := a; om_Labels := om_Labels m;
                om_OwnerReferences := om_OwnerReferences m |} o.

Definition SetLabels (l : gmap string string) (o : O) : O :=
  let m := o_Meta o in
  set_o_Meta {| om_Name := om_Name m; om_Namespace := om_Namespace m; om_UID := om_UID m;
                om_ResourceVersion := om_ResourceVersion m; om_Generation := om_Generation m;
                om_CreationTimestamp := om_CreationTimestamp m; om_DeletionTimestamp := om_DeletionTimestamp m;
                om_Finalizers := om_Finalizers m; om_Annotations := om_Annotations m; om_Labels := l;
                om_OwnerReferences := om_OwnerReferences m |} o.

Definition SetFinalizers (l : list string) (o : O) : O :=
  let m := o_Meta o in
  set_o_Meta {| om_Name := om_Name m; om_Namespace := om_Namespace m; om_UID := om_UID m;
                om_ResourceVersion := om_ResourceVersion m; om_Generation := om_Generation m;
                om_CreationTimestamp := om_CreationTimestamp m; om_DeletionTimestamp := om_DeletionTimestamp m;
                om_Finalizers := l; om_Annotations := om_Annotations m; om_Labels := om_Labels m;
                om_OwnerReferences := om_OwnerReferences m |} o.

(** [controllerutil.ContainsFinalizer] and [RemoveFinalizer] *)
Definition object_ContainsFinalizer (o : O) (finalizer : string) : bool := bool_decide (finalizer ∈ om_Finalizers (o_Meta o)).
Definition object_RemoveFinalizer (o : O) (finalizer : string) : O :=
  SetFinalizers (List.filter (fun f => negb (bool_decide (f = finalizer))) (om_Finalizers (o_Meta o))) o.

(** [GetDeletionTimestamp().IsZero()], negated *)
Definition being_deleted (o : O) : bool := match om_DeletionTimestamp (o_Meta o) with Some _ => true | None => false end.

Definition stampMirror (target : O) (legacyName : string) (legacyGeneration : Z) : O :=
  SetAnnotations (<[MirroredGenerationAnnotation := show_int legacyGeneration]>
                   (<[MirroredFromAnnotation := legacyName]> (om_Annotations (o_Meta target)))) target.

Definition preserve (existing : gmap string string) (ann : gmap string string) (k : string) : gmap string string :=
  match existing !! k with Some v => <[k := v]> ann | None => ann end.

Definition syncMirrorOntoExisting (existing desired : O) (legacyName : string) (legacyGeneration : Z) : O :=
  let ann := foldl (preserve (om_Annotations (o_Meta existing))) (om_Annotations (o_Meta desired)) preservedTargetAnnotations in
  let existing := SetAnnotations ann (SetLabels (om_Labels (o_Meta desired)) existing) in
  set_o_Spec (o_Spec desired) (stampMirror existing legacyName legacyGeneration).
End Objects.

(* ------------------------------------------------------------------ *)
(** ** The calls *)

(** [types.NamespacedName] *)
Record NamespacedName := { key_Namespace : string; key_Name : string }.

Inductive mirror_write := Written | WriteExists | WriteMissing | WriteFailed (e : error).

Section Mirror.
Context {LSp LSt Sp St : Type}.

Local Notation L := (Object LSp LSt).
Local Notation O := (Object Sp St).

Inductive mirror_call :=
| GetLegacy (key : NamespacedName)
| GetTarget (key : NamespacedName)
| UpdateLegacy (legacy : L)
| CreateTarget (target : O)
| UpdateTarget (target : O).

(** [None] for an object that is not found. *)
Record mirror_server := {
  ms_legacy : list mirror_call -> NamespacedName -> res (option L);
  ms_target : list mirror_call -> NamespacedName -> res (option O);
  ms_write : list mirror_call -> mirror_call -> mirror_write
}.

(** A converter with its zero values and what is zeroed before a re-sync. *)
Context (srv : mirror_server) (legacyKind targetKind legacyFinalizer : string).
Context (convert : L -> O -> O) (zero : O) (resetTargetSpec : O -> O).

Local Notation P := (M mirror_call unit).

Definition get_legacy (key : NamespacedName) : P (option L) := call (GetLegacy key) (fun t => ms_legacy srv t key).
Definition get_target (key : NamespacedName) : P (option O) := call (GetTarget key) (fun t => ms_target srv t key).

(** [exists_ok]: whether an object that exists already is no error. *)
Definition mirror_send (exists_ok : bool) (c : mirror_call) : P unit := call c (fun t =>
  match ms_write srv t c with
  | Written => Ok tt
  | WriteExists => if exists_ok then Ok tt else Err (errorf "already exists" [])
  | WriteMissing => Err (errorf "not found" [])
  | WriteFailed e => Err e
  end).

Definition strip_finalizer (key : NamespacedName) (legacy : L) : P unit :=
  if negb (bool_decide (legacyFinalizer = "")) && object_ContainsFinalizer legacy legacyFinalizer then
    wrap "removing legacy finalizer from %s %s: %w" [legacyKind; key_Name key]
      (mirror_send false (UpdateLegacy (object_RemoveFinalizer legacy legacyFinalizer)))
  else ret tt.

Definition sync_target (key : NamespacedName) (legacy : L) (target existing : O) : P unit :=
  let ann := om_Annotations (o_Meta existing) in
  let generation := om_Generation (o_Meta legacy) in
  if negb (bool_decide (default "" (ann !! MirroredFromAnnotation) = key_Name key)) then ret tt
  else if bool_decide (default "" (ann !! MirroredGenerationAnnotation) = show_int generation) then ret tt
  else
    let target := convert legacy (resetTargetSpec target) in
    wrap "updating mirrored %s %s: %w" [targetKind; key_Name key]
      (mirror_send false (UpdateTarget (syncMirrorOntoExisting existing target (key_Name key) generation))).

Definition reconcileMirror (key : NamespacedName) : P unit :=
  let* got := wrap "getting legacy %s %s: %w" [legacyKind; key_Name key] (get_legacy key) in
  match got with
  | None => ret tt
  | Some legacy =>
      if being_deleted legacy then strip_finalizer key legacy
      else
        let target := convert legacy zero in
        let* found := wrap "getting mirrored %s %s: %w" [targetKind; key_Name key] (get_target key) in
        match found with
        | None =>
            wrap "creating mirrored %s %s: %w" [targetKind; key_Name key]
              (mirror_send true (CreateTarget (stampMirror target (key_Name key) (om_Generation (o_Meta legacy)))))
        | Some existing => sync_target key legacy target existing
        end
  end.
End Mirror.
Arguments mirror_call : clear implicits.
Arguments mirror_server : clear implicits.

(* ------------------------------------------------------------------ *)
(** ** The two kinds *)

Definition zero_meta : ObjectMeta :=
  {| om_Name := ""; om_Namespace := ""; om_UID := ""; om_ResourceVersion := ""; om_Generation := 0;
     om_CreationTimestamp := 0; om_DeletionTimestamp := None; om_Finalizers := []; om_Annotations := ∅;
     om_Labels := ∅; om_OwnerReferences := [] |}.

Definition zero_selector : LabelSelector := {| MatchLabels := None; MatchExpressions := None |}.

Definition zero_NodeWrightSpec : NodeWrightSpec :=
  {| Api.Serial := false; Api.PodNonInterruptLabels := zero_selector; Api.NodeSelector := zero_selector;
     Api.sp_DeploymentPolicy := ""; Api.DeploymentPolicyOptions := None;
     Api.sp_InterruptionBudget := {| Api.ib_Percent := None; Api.ib_Count := None |}; Api.sp_DrainConfig := None;
     Api.sp_Packages := ∅; Api.AdditionalTolerations := []; Api.RuntimeRequired := false;
     Api.RuntimeRequiredCordonAfter := false; Api.AutoTaintNewNodes := false; Api.Priority := 0;
     Api.Sequencing := Api.SequencingOther "" |}.

Definition zero_NodeWrightStatus : NodeWrightStatus :=
  {| Api.ObservedGeneration := 0; Api.st_NodeState := None; Api.NodeStatus := ∅; Api.st_Status := StatusEmpty;
     Api.Conditions := []; Api.NodeBootIds := ∅; Api.NodePriority := ∅; Api.NodeOrderOffset := 0; Api.ConfigUpdates := ∅;
     Api.CompartmentStatuses := ∅; Api.NodesInProgress := 0; Api.CompleteNodes := ""; Api.PackageList := "" |}.

Definition zero_DeploymentPolicySpec : NewDeploymentPolicySpec :=
  {| ndps_Default := {| DeploymentPolicy.pd_Budget := {| DeploymentPolicy.Percent := None; DeploymentPolicy.Count := None |};
                        DeploymentPolicy.pd_Strategy := None |};
     ndps_Compartments := []; ndps_ResetBatchStateOnCompletion := None |}.

Definition zero_object {Sp St} (spec : Sp) (status : St) : Object Sp St :=
  {| o_APIVersion := ""; o_Kind := ""; o_Meta := zero_meta; o_Spec := spec; o_Status := status |}.

Section Reconcilers.
Context `{MR : MapRange}.

Definition SkyhookMirror_Reconcile (srv : mirror_server SkyhookSpec SkyhookStatus NodeWrightSpec NodeWrightStatus)
    (key : NamespacedName) : M _ unit unit :=
  reconcileMirror srv "Skyhook" "NodeWright" legacySkyhookFinalizer Convert_Skyhook_To_NodeWright
    (zero_object zero_NodeWrightSpec zero_NodeWrightStatus) (set_o_Spec zero_NodeWrightSpec) key.

Definition DeploymentPolicyMirror_Reconcile (srv : mirror_server DeploymentPolicySpec unit NewDeploymentPolicySpec unit)
    (key : NamespacedName) : M _ unit unit :=
  reconcileMirror srv "DeploymentPolicy" "DeploymentPolicy" "" Convert_DeploymentPolicy_To_NodeWright
    (zero_object zero_DeploymentPolicySpec tt) (set_o_Spec zero_DeploymentPolicySpec) key.
End Reconcilers.

(* ------------------------------------------------------------------ *)
(** ** Lemmas *)

Section Lemmas.
Context {LSp LSt Sp St : Type}.
Context (srv : mirror_server LSp LSt Sp St) (legacyKind targetKind legacyFinalizer : string).
Context (convert : Object LSp LSt -> Object Sp St -> Object Sp St) (zero : Object Sp St).
Context (resetTargetSpec : Object Sp St -> Object Sp St).

Local Notation reconcile := (reconcileMirror srv legacyKind targetKind legacyFinalizer convert zero resetTargetSpec).
Local Notation stamps o := (fun k => om_Annotations (o_Meta o) !! k).

(** What a pass over [key] did after the calls [t0], with [t]. *)
Inductive mirrored (key : NamespacedName) (t0 : list (mirror_call LSp LSt Sp St)) : list (mirror_call LSp LSt Sp St) -> Prop :=
| only_read : mirrored key t0 [GetLegacy key]
| freed l : ms_legacy srv t0 key = Ok (Some l) -> being_deleted l = true ->
    object_ContainsFinalizer l legacyFinalizer = true ->
    mirrored key t0 [GetLegacy key; UpdateLegacy (object_RemoveFinalizer l legacyFinalizer)]
| left_alone : mirrored key t0 [GetLegacy key; GetTarget key]
| created l : ms_legacy srv t0 key = Ok (Some l) -> being_deleted l = false ->
    ms_target srv (t0 ++ [GetLegacy key]) key = Ok None ->
    mirrored key t0 [GetLegacy key; GetTarget key; CreateTarget (stampMirror (convert l zero) (key_Name key) (om_Generation (o_Meta l)))]
| resynced l e : ms_legacy srv t0 key = Ok (Some l) -> being_deleted l = false ->
    ms_target srv (t0 ++ [GetLegacy key]) key = Ok (Some e) ->
    default "" (stamps e MirroredFromAnnotation) = key_Name key ->
    default "" (stamps e MirroredGenerationAnnotation) <> show_int (om_Generation (o_Meta l)) ->
    mirrored key t0 [GetLegacy key; GetTarget key;
      UpdateTarget (syncMirrorOntoExisting e (convert l (resetTargetSpec (convert l zero))) (key_Name key) (om_Generation (o_Meta l)))].

Lemma reconcile_mirrored key p : exists t, trace (reconcile key p).1 = trace p ++ t /\ mirrored key (trace p) t.
Proof.
  unfold reconcileMirror, bind, wrap, get_legacy, call, ret. cbn [trace mem fst snd].
  destruct (ms_legacy srv (trace p) key) as [[l|]| |] eqn:El; cbn [rwrap]; try (eexists; split; [done|constructor]).
  destruct (being_deleted l) eqn:Ed.
  - unfold strip_finalizer. destruct (negb _ && object_ContainsFinalizer l legacyFinalizer) eqn:Ef; [|eexists; split; [done|constructor]].
    apply andb_true_iff in Ef as [_ Ef]. unfold mirror_send, wrap, call. cbn [fst trace]. rewrite <- app_assoc.
    eexists. split; [done|]. by constructor.
  - unfold get_target, call. cbn [trace mem fst snd]. destruct (ms_target srv _ key) as [[e|]| |] eqn:Et; cbn [rwrap];
      try (rewrite <- app_assoc; eexists; split; [done|by constructor]).
    + unfold sync_target. repeat (case_bool_decide; cbn [negb]); try (cbn [fst trace]; rewrite <- app_assoc; eexists; split; [done|constructor]).
      unfold mirror_send, wrap, call. cbn [fst trace]. rewrite <- !app_assoc. eexists. split; [done|]. by eapply resynced.
    + unfold mirror_send, wrap, call. cbn [fst trace]. rewrite <- !app_assoc. eexists. split; [done|]. by eapply created.
Qed.

Lemma stamped (o : Object Sp St) name g :
  stamps (stampMirror o name g) MirroredFromAnnotation = Some name /\
  stamps (stampMirror o name g) MirroredGenerationAnnotation = Some (show_int g) /\
  forall k, k <> MirroredFromAnnotation -> k <> MirroredGenerationAnnotation -> stamps (stampMirror o name g) k = stamps o k.
Proof.
  cbn. split_and!; [by rewrite lookup_insert_ne, lookup_insert_eq|by rewrite lookup_insert_eq|].
  intros k H1 H2. by rewrite !lookup_insert_ne.
Qed.

Lemma preserve_lookup existing l ann k v : existing !! k = Some v -> k ∈ l -> foldl (preserve existing) ann l !! k = Some v.
Proof.
  intros Hv. assert (Hk : forall l ann, ann !! k = Some v -> foldl (preserve existing) ann l !! k = Some v).
  { clear l ann. induction l as [|k' l IH]; intros ann Ha; [done|]. apply IH. unfold preserve.
    destruct (existing !! k') eqn:E'; [|done]. destruct (decide (k = k')) as [->|]; [rewrite lookup_insert_eq; congruence|].
    by rewrite lookup_insert_ne. }
  revert ann. induction l as [|k' l IH]; intros ann Hin; [by apply elem_of_nil in Hin|].
  apply elem_of_cons in Hin as [->|Hin]; [|by apply IH]. cbn [foldl]. apply Hk. unfold preserve. rewrite Hv. apply lookup_insert_eq.
Qed.

(** The target that a re-sync writes. *)
Lemma synced (e d : Object Sp St) name g :
  let o := syncMirrorOntoExisting e d name g in
  o_Status o = o_Status e /\ o_Spec o = o_Spec d /\ om_Labels (o_Meta o) = om_Labels (o_Meta d) /\
  om_ResourceVersion (o_Meta o) = om_ResourceVersion (o_Meta e) /\ om_UID (o_Meta o) = om_UID (o_Meta e) /\
  om_Finalizers (o_Meta o) = om_Finalizers (o_Meta e) /\
  stamps o MirroredFromAnnotation = Some name /\ stamps o MirroredGenerationAnnotation = Some (show_int g) /\
  forall k v, k ∈ preservedTargetAnnotations -> stamps e k = Some v -> stamps o k = Some v.
Proof.
  cbv zeta. unfold syncMirrorOntoExisting. set (ann := foldl _ _ _).
  destruct (stamped (SetAnnotations ann (SetLabels (om_Labels (o_Meta d)) e)) name g) as (H1 & H2 & H3).
  split_and!; try done. intros k v Hk Hv. etrans; [apply H3|by apply preserve_lookup].
  - intros ->. unfold preservedTargetAnnotations in Hk. rewrite !elem_of_cons, elem_of_nil in Hk.
    destruct Hk as [Hk|[Hk|[Hk|[]]]]; vm_compute in Hk; discriminate Hk.
  - intros ->. unfold preservedTargetAnnotations in Hk. rewrite !elem_of_cons, elem_of_nil in Hk.
    destruct Hk as [Hk|[Hk|[Hk|[]]]]; vm_compute in Hk; discriminate Hk.
Qed.

(** A target that bears the stamps of [o] is settled for a legacy object of
    that generation. *)
Lemma settled key (l l' : Object LSp LSt) (e : Object Sp St) q :
  ms_legacy srv (trace q) key = Ok (Some l') -> being_deleted l' = false -> om_Generation (o_Meta l') = om_Generation (o_Meta l) ->
  ms_target srv (trace q ++ [GetLegacy key]) key = Ok (Some e) ->
  stamps e MirroredFromAnnotation = Some (key_Name key) ->
  stamps e MirroredGenerationAnnotation = Some (show_int (om_Generation (o_Meta l))) ->
  reconcile key q = ({| trace := trace q ++ [GetLegacy key; GetTarget key]; mem := mem q |}, Ok tt).
Proof.
  intros Hl Hd Hg Ht Hf Hs. unfold reconcileMirror, bind, wrap, get_legacy, call, ret. cbn [trace mem fst snd]. rewrite Hl. cbn [rwrap].
  rewrite Hd. unfold get_target, call. cbn [trace mem fst snd]. rewrite Ht. cbn [rwrap]. unfold sync_target.
  rewrite Hf, Hs, Hg. cbn [default]. rewrite !bool_decide_true by done. cbn [negb]. unfold ret. by rewrite <- app_assoc.
Qed.

(** The writes of one pass, for any kind. *)
Lemma mirror_writes key p :
  exists t, trace (reconcile key p).1 = trace p ++ t /\
  (forall o, CreateTarget o ∈ t -> ms_target srv (trace p ++ [GetLegacy key]) key = Ok None) /\
  (forall o, UpdateTarget o ∈ t -> exists l e,
     ms_legacy srv (trace p) key = Ok (Some l) /\ ms_target srv (trace p ++ [GetLegacy key]) key = Ok (Some e) /\
     default "" (stamps e MirroredFromAnnotation) = key_Name key /\
     o_Spec o = o_Spec (convert l (resetTargetSpec (convert l zero))) /\ o_Status o = o_Status e /\
     om_ResourceVersion (o_Meta o) = om_ResourceVersion (o_Meta e) /\ om_Finalizers (o_Meta o) = om_Finalizers (o_Meta e) /\
     forall k v, k ∈ preservedTargetAnnotations -> stamps e k = Some v -> stamps o k = Some v) /\
  (forall l', UpdateLegacy l' ∈ t -> exists l, ms_legacy srv (trace p) key = Ok (Some l) /\ being_deleted l = true /\
     l' = object_RemoveFinalizer l legacyFinalizer) /\
  (forall o q l l' e, CreateTarget o ∈ t \/ UpdateTarget o ∈ t ->
     ms_legacy srv (trace p) key = Ok (Some l) -> ms_legacy srv (trace q) key = Ok (Some l') ->
     being_deleted l' = false -> om_Generation (o_Meta l') = om_Generation (o_Meta l) ->
     ms_target srv (trace q ++ [GetLegacy key]) key = Ok (Some e) -> om_Annotations (o_Meta e) = om_Annotations (o_Meta o) ->
     reconcile key q = ({| trace := trace q ++ [GetLegacy key; GetTarget key]; mem := mem q |}, Ok tt)).
Proof.
  destruct (reconcile_mirrored key p) as (t & Ht & H). exists t. split; [exact Ht|]. clear Ht.
  destruct H as [|l Hl Hd Hf| |l Hl Hd Ht|l e Hl Hd Ht Ho Hg]; (split_and!; [intros o|intros o|intros l'|intros o q l1 l2 e2]); rewrite ?elem_of_cons, ?elem_of_nil;
    try (intros; destruct_or?; by simplify_eq).
  - intros [?|[[= ->]|[]]]; [done|]. by exists l.
  - intros [[?|[?|[[= ->]|[]]]]|[?|[?|[?|[]]]]] Hl1 Hl2 Hd2 Hg2 Ht2 Ha; try done. assert (l1 = l) as -> by congruence.
    destruct (stamped (convert l zero) (key_Name key) (om_Generation (o_Meta l))) as (S1 & S2 & _).
    apply (settled key l l2 e2); try done; by rewrite Ha.
  - intros [?|[?|[[= ->]|[]]]]; try done. exists l, e. by destruct (synced e (convert l (resetTargetSpec (convert l zero))) (key_Name key) (om_Generation (o_Meta l))) as (? & ? & ? & ? & ? & ? & ? & ? & ?).
  - intros [[?|[?|[?|[]]]]|[?|[?|[[= ->]|[]]]]] Hl1 Hl2 Hd2 Hg2 Ht2 Ha; try done. assert (l1 = l) as -> by congruence.
    destruct (synced e (convert l (resetTargetSpec (convert l zero))) (key_Name key) (om_Generation (o_Meta l))) as (_ & _ & _ & _ & _ & _ & S1 & S2 & _).
    apply (settled key l l2 e2); try done; by rewrite Ha.
Qed.
End Lemmas.

(* ------------------------------------------------------------------ *)
(** ** Properties *)

Section Properties.
Context `{MR : MapRange}.

(** C20: the mirror writes only what it owns, whatever the server answers.  It
    creates a target only after it found none.  It updates only a target that
    says it was mirrored from this object, gives it the converted specification,
    keeps its status, version and finalizers, and keeps the annotations by which
    it is paused, disabled and held in the rollback window.  It writes an old
    object only when that is being deleted, to take off the finalizer that
    nothing else takes off; it has no call that deletes.  After a write it is
    settled: while the old object keeps its generation and the target its
    annotations, a later pass only reads. *)
Theorem mirror_writes_its_own (srv : mirror_server SkyhookSpec SkyhookStatus NodeWrightSpec NodeWrightStatus) key (p : pass _ unit) :
  let reconcile := SkyhookMirror_Reconcile srv key in
  exists t, trace (reconcile p).1 = trace p ++ t /\
  (forall o, CreateTarget o ∈ t -> ms_target srv (trace p ++ [GetLegacy key]) key = Ok None) /\
  (forall o, UpdateTarget o ∈ t -> exists l e,
     ms_legacy srv (trace p) key = Ok (Some l) /\ ms_target srv (trace p ++ [GetLegacy key]) key = Ok (Some e) /\
     default "" (om_Annotations (o_Meta e) !! MirroredFromAnnotation) = key_Name key /\
     o_Spec o = convertSkyhookSpec (o_Spec l) zero_NodeWrightSpec /\ o_Status o = o_Status e /\
     om_ResourceVersion (o_Meta o) = om_ResourceVersion (o_Meta e) /\ om_Finalizers (o_Meta o) = om_Finalizers (o_Meta e) /\
     forall k v, k ∈ preservedTargetAnnotations -> om_Annotations (o_Meta e) !! k = Some v -> om_Annotations (o_Meta o) !! k = Some v) /\
  (forall l', UpdateLegacy l' ∈ t -> exists l, ms_legacy srv (trace p) key = Ok (Some l) /\ being_deleted l = true /\
     l' = object_RemoveFinalizer l legacySkyhookFinalizer) /\
  (forall o q l l' e, CreateTarget o ∈ t \/ UpdateTarget o ∈ t ->
     ms_legacy srv (trace p) key = Ok (Some l) -> ms_legacy srv (trace q) key = Ok (Some l') ->
     being_deleted l' = false -> om_Generation (o_Meta l') = om_Generation (o_Meta l) ->
     ms_target srv (trace q ++ [GetLegacy key]) key = Ok (Some e) -> om_Annotations (o_Meta e) = om_Annotations (o_Meta o) ->
     reconcile q = ({| trace := trace q ++ [GetLegacy key; GetTarget key]; mem := mem q |}, Ok tt)).
Proof. apply mirror_writes. Qed.
End Properties.

(* ------------------------------------------------------------------ *)
(** ** Frozen objects *)

(** [apiequality.Semantic.DeepEqual] on specifications: quantities are compared
    by value, nil and empty slices are equal. *)
Class SemanticEquality (Sp : Type) := {
  semantic_DeepEqual : Sp -> Sp -> bool;
  semantic_refl : forall s, semantic_DeepEqual s s = true
}.

Definition annotation_of {Sp St} (o : Object Sp St) (key : string) : string := default "" (om_Annotations (o_Meta o) !! key).

Definition legacyReadOnlyError `{SemanticEquality SkyhookSpec} (oldSkyhook : option SkyhookV1.Skyhook) (newSkyhook : SkyhookV1.Skyhook)
  : res unit :=
  match oldSkyhook with
  | None => Ok tt
  | Some old =>
      if being_deleted newSkyhook then Ok tt
      else
        let same key := bool_decide (annotation_of old key = annotation_of newSkyhook key) in
        if semantic_DeepEqual (o_Spec old) (o_Spec newSkyhook) && same (METADATA_PREFIX +:+ "/pause") && same (METADATA_PREFIX +:+ "/disable")
        then Ok tt
        else
          let name := om_Name (o_Meta newSkyhook) in
          Err (errorf "skyhook.nvidia.com Skyhook %q is migrated to NodeWright and is read-only; edit NodeWright %q instead (e.g. kubectl nodewright pause/disable/... or its spec)" [name; name])
  end.

Definition legacyDeploymentPolicyReadOnlyError `{SemanticEquality DeploymentPolicySpec}
    (oldDeploymentPolicy : option SkyhookV1.DeploymentPolicy) (newDeploymentPolicy : SkyhookV1.DeploymentPolicy) : res unit :=
  match oldDeploymentPolicy with
  | None => Ok tt
  | Some old =>
      if being_deleted newDeploymentPolicy then Ok tt
      else if semantic_DeepEqual (o_Spec old) (o_Spec newDeploymentPolicy) then Ok tt
      else
        let name := om_Name (o_Meta newDeploymentPolicy) in
        Err (errorf "skyhook.nvidia.com DeploymentPolicy %q is migrated to the nodewright.nvidia.com group and is read-only; edit the nodewright.nvidia.com DeploymentPolicy %q instead" [name; name])
  end.

Section Frozen.
Context `{MR : MapRange} `{SE : SemanticEquality SkyhookSpec}.

Lemma annotation_of_true (old new : SkyhookV1.Skyhook) key : annotation_of old key = annotation_of new key ->
  annotation_is_true old key = annotation_is_true new key.
Proof.
  unfold annotation_of, annotation_is_true. destruct (om_Annotations (o_Meta old) !! key) as [v|], (om_Annotations (o_Meta new) !! key) as [w|];
    cbn [default id]; intros H; subst; try done.
Qed.

(** An object that is not being deleted changes only in what does not matter:
    the update is admitted exactly when the specification means the same and
    neither annotation changes, and then it is paused and disabled as before. *)
Lemma frozen (old new : SkyhookV1.Skyhook) : being_deleted new = false ->
  (legacyReadOnlyError (Some old) new = Ok tt <->
     semantic_DeepEqual (o_Spec old) (o_Spec new) = true /\
     forall key, key ∈ ["/pause"; "/disable"] -> annotation_of old (METADATA_PREFIX +:+ key) = annotation_of new (METADATA_PREFIX +:+ key)) /\
  (legacyReadOnlyError (Some old) new = Ok tt ->
     SkyhookV1.IsPaused old = SkyhookV1.IsPaused new /\ SkyhookV1.IsDisabled old = SkyhookV1.IsDisabled new).
Proof.
  intros Hd. assert (legacyReadOnlyError (Some old) new = Ok tt <->
     semantic_DeepEqual (o_Spec old) (o_Spec new) = true /\
     forall key, key ∈ ["/pause"; "/disable"] -> annotation_of old (METADATA_PREFIX +:+ key) = annotation_of new (METADATA_PREFIX +:+ key)) as Hiff.
  { unfold legacyReadOnlyError. rewrite Hd. destruct (semantic_DeepEqual (o_Spec old) (o_Spec new)); cbn [andb];
      repeat case_bool_decide; cbn [andb]; setoid_rewrite elem_of_cons; setoid_rewrite list_elem_of_singleton; naive_solver. }
  split; [exact Hiff|]. intros [_ H]%Hiff. unfold SkyhookV1.IsPaused, SkyhookV1.IsDisabled.
  split; apply annotation_of_true, H; rewrite ?elem_of_cons; auto.
Qed.
End Frozen.

(* ------------------------------------------------------------------ *)
(** ** A re-sync undoes a resume *)

Definition meta_of (name : string) (generation : Z) (annotations : gmap string string) : ObjectMeta :=
  {| om_Name := name; om_Namespace := ""; om_UID := "u1"; om_ResourceVersion := "7"; om_Generation := generation;
     om_CreationTimestamp := 0; om_DeletionTimestamp := None; om_Finalizers := []; om_Annotations := annotations;
     om_Labels := ∅; om_OwnerReferences := [] |}.

(** The target of a paused object, resumed by removing its annotation and
    migrated by the new operator, meets the old object's next generation: it is
    paused again and bears the version of the old operator. *)
Example resync_undoes_resume :
  let target := zero_object (St := NodeWrightStatus) zero_NodeWrightSpec zero_NodeWrightStatus in
  let existing := set_o_Meta (meta_of "tuning" 3 (<[MirroredFromAnnotation := "tuning"]> (<[MirroredGenerationAnnotation := "1"]>
                    {[ "nodewright.nvidia.com/version" := "v0.19.0" ]}))) target in
  let legacy_annotations := <["skyhook.nvidia.com/pause" := "true"]> {["skyhook.nvidia.com/version" := "v0.16.0"]} in
  let desired := set_o_Meta (prepareObjectMeta (meta_of "tuning" 2 legacy_annotations)) target in
  let o := syncMirrorOntoExisting existing desired "tuning" 2 in
  Api.IsPaused (nodewright_of existing) = false /\ Api.IsPaused (nodewright_of o) = true /\
  om_Annotations (o_Meta o) !! "nodewright.nvidia.com/version" = Some "v0.16.0".
Proof. by vm_compute. Qed.
