(* ===== verification/Certificates.v ===== *)
(** * The certificates of the webhook server

    Models [operator/internal/controller/webhook_controller.go] with the parts of
    [cert_utils.go] and [cert_watcher.go] it shares: the secret of the serving
    certificate, the files the server reads, the webhook configurations that
    must trust it, and the lease that is given up when another operator has
    taken over.

    Certificates are made and read by the Go libraries: minting one is a call
    with an arbitrary answer, the names a certificate covers are the parameter
    [X509].  Files are read and written by calls.  Fields of a webhook that the
    controller neither reads nor writes are left out. *)

From S2P Require Import Prelude Effects Graph DeploymentPolicy Api NodeState Skyhook Text Node.

#[local] Open Scope Z_scope.
#[local] Open Scope go_scope.

(* ------------------------------------------------------------------ *)
(** ** Data *)

Record WebhookControllerOptions := { wo_SecretName : string; wo_ServiceName : string }.

(** [corev1.Secret]; writing into nil [Data] panics. *)
Record Secret := {
  sec_Name : string; sec_Namespace : string; sec_Annotations : gmap string string;
  sec_Data : option (gmap string string); sec_Deleted : bool
}.

Record ServiceReference := { svc_Name : string; svc_Namespace : string }.

(** [RuleWithOperations] *)
Record RuleWithOperations := {
  rule_Operations : list string; rule_APIGroups : list string; rule_APIVersions : list string;
  rule_Resources : list string; rule_Scope : option string
}.

#[export] Instance RuleWithOperations_eq_dec : EqDecision RuleWithOperations.
Proof. solve_decision. Defined.

(** A webhook and a configuration of either flavour. *)
Record webhook := { wh_Name : string; wh_Service : option ServiceReference; wh_CABundle : string; wh_Rules : list RuleWithOperations }.
Record webhookConfiguration := { wc_Name : string; wc_Labels : gmap string string; wc_Webhooks : list webhook }.
Inductive flavour := Validating | Mutating.

Record webhookCert := { wc_CABytes : string; wc_TLSCert : string; wc_TLSKey : string; wc_Expiration : Z }.

Definition flavour_kind (k : flavour) : string :=
  match k with Validating => "ValidatingWebhookConfiguration" | Mutating => "MutatingWebhookConfiguration" end.

(** The group and version of the frozen resources. *)
Definition legacy_group : string := "skyhook.nvidia.com".
Definition legacy_version : string := "v1alpha1".

Definition skyhookValidatingWebhookName : string := "validate-skyhook.nvidia.com".
Definition deploymentPolicyValidatingWebhookName : string := "validate-deploymentpolicy.nvidia.com".
Definition skyhookMutatingWebhookName : string := "mutate-skyhook.nvidia.com".
Definition deploymentPolicyMutatingWebhookName : string := "mutate-deploymentpolicy.nvidia.com".
Definition webhookConfigLabelKey : string := METADATA_PREFIX +:+ "/webhook-config".
Definition expirationAnnotationKey : string := legacy_group +:+ "/expiration".
Definition serviceAnnotationKey : string := legacy_group +:+ "/service".

(** Durations in nanoseconds. *)
Definition certRotationThreshold : Z := 168 * 3600 * 1000000000.
Definition certValidityDurationYear : Z := 365 * 24 * 3600 * 1000000000.
Definition supersededGracePeriod : Z := 60 * 1000000000.
Definition supersededPollInterval : Z := 15 * 1000000000.
Definition periodic_check : Z := 24 * 3600 * 1000000000.

Definition errNoOwnedWebhookConfigurations : error := errorf "no owned webhook configurations" [].

(* ------------------------------------------------------------------ *)
(** ** Names and rules *)

Definition legacyWebhookServiceName : string := "skyhook-operator-webhook-service".

Definition expectedDNSNames (serviceName namespace : string) : list string :=
  [serviceName +:+ "." +:+ namespace +:+ ".svc.cluster.local"; serviceName +:+ "." +:+ namespace +:+ ".svc"] ++
  (if bool_decide (serviceName = legacyWebhookServiceName) then []
   else [legacyWebhookServiceName +:+ "." +:+ namespace +:+ ".svc.cluster.local"; legacyWebhookServiceName +:+ "." +:+ namespace +:+ ".svc"]).

(** The names of the leaf certificate in a PEM text. *)
Class X509 := { certificate_names : string -> res (list string) }.

Definition certCoversDNSNames `{X509} (certPEM : string) (want : list string) : res bool :=
  rbind (certificate_names certPEM) (fun have => Ok (all (fun name => bool_decide (name ∈ have)) want)).

Definition rules_for (resource : string) (operations : list string) : list RuleWithOperations :=
  [{| rule_Operations := operations; rule_APIGroups := [legacy_group]; rule_APIVersions := [legacy_version];
      rule_Resources := [resource]; rule_Scope := None |}].

Definition skyhookRules : list RuleWithOperations := rules_for "skyhooks" ["CREATE"; "UPDATE"].
Definition deploymentPolicyMutatingRules : list RuleWithOperations := rules_for "deploymentpolicies" ["CREATE"; "UPDATE"].
Definition deploymentPolicyValidatingRules : list RuleWithOperations := rules_for "deploymentpolicies" (["CREATE"; "UPDATE"] ++ ["DELETE"]).

(** [None] for the webhooks that keep the rules of the chart. *)
Definition getValidatingWebhookRules (webhookName : string) : option (list RuleWithOperations) :=
  if bool_decide (webhookName = skyhookValidatingWebhookName) then Some skyhookRules
  else if bool_decide (webhookName = deploymentPolicyValidatingWebhookName) then Some deploymentPolicyValidatingRules
  else None.

Definition getMutatingWebhookRules (webhookName : string) : option (list RuleWithOperations) :=
  if bool_decide (webhookName = skyhookMutatingWebhookName) then Some skyhookRules
  else if bool_decide (webhookName = deploymentPolicyMutatingWebhookName) then Some deploymentPolicyMutatingRules
  else None.

Definition expected_rules (k : flavour) : string -> option (list RuleWithOperations) :=
  match k with Validating => getValidatingWebhookRules | Mutating => getMutatingWebhookRules end.

(** [validatingWebhookNeedsUpdate] and its twin: the webhook as it should be, and
    whether that changes it. *)
Definition webhookNeedsUpdate (w : webhook) (caBundle : string) (expectedRules : option (list RuleWithOperations)) : webhook * bool :=
  let '(ca, c1) := if bool_decide (wh_CABundle w = caBundle) then (wh_CABundle w, false) else (caBundle, true) in
  let '(rules, c2) :=
    match expectedRules with
    | Some r => if bool_decide (wh_Rules w = r) then (wh_Rules w, false) else (r, true)
    | None => (wh_Rules w, false)
    end in
  ({| wh_Name := wh_Name w; wh_Service := wh_Service w; wh_CABundle := ca; wh_Rules := rules |}, c1 || c2).

(* ------------------------------------------------------------------ *)
(** ** The calls *)

Inductive cert_call :=
| GetSecret
| CreateSecret (s : Secret)
| UpdateSecret (s : Secret)
| MintCert (names : list string) (duration : Z)
| StatFiles
| ReadCert
| ReadKey
| WriteFiles (cert key : string)
| ListLabelled (k : flavour)
| ListAll (k : flavour)
| UpdateWebhooks (k : flavour) (conf : webhookConfiguration).

Inductive cert_write := Accepted | Forbidden (e : error) | Failed (e : error).

(** The answers, each a function of the calls before. *)
Record cert_env := {
  ce_secret : list cert_call -> res (option Secret);
  ce_mint : list cert_call -> res webhookCert;
  ce_files : list cert_call -> res unit;
  ce_cert : list cert_call -> res string;
  ce_key : list cert_call -> res string;
  ce_configs : list cert_call -> flavour -> res (list webhookConfiguration);
  ce_write : list cert_call -> cert_write
}.

(** What the controller keeps in memory: when it was first superseded, and
    whether the signal, a channel of capacity one, is full. *)
Record bootstrap := { supersededSince : option Z; relinquished : bool }.

Section Controller.
Context `{TT : TimeText} `{X : X509}.
Context (env : cert_env) (opts : WebhookControllerOptions) (namespace certDir : string) (now : Z).

Local Notation P := (M cert_call bootstrap).

(* ------------------------------------------------------------------ *)
(** ** Ownership *)

Definition hasWebhookConfigLabel (conf : webhookConfiguration) : bool :=
  match wc_Labels conf !! webhookConfigLabelKey with Some _ => true | None => false end.

Definition webhookServiceRefs (conf : webhookConfiguration) : list (option ServiceReference) := map wh_Service (wc_Webhooks conf).

Definition watchedWebhookConfiguration (conf : webhookConfiguration) : bool :=
  hasWebhookConfigLabel conf ||
  any (fun svc => match svc with Some s => bool_decide (svc_Namespace s = namespace) | None => false end) (webhookServiceRefs conf).

Definition dialsThisOperator (svc : option ServiceReference) : bool :=
  match svc with
  | Some s => bool_decide (svc_Name s = wo_ServiceName opts) && bool_decide (svc_Namespace s = namespace)
  | None => false
  end.

Definition dialsAnotherOperator (svc : option ServiceReference) : option string :=
  match svc with
  | None => None
  | Some s =>
      if negb (bool_decide (svc_Namespace s = namespace)) || bool_decide (svc_Name s = wo_ServiceName opts) then None
      else Some (svc_Name s)
  end.

Definition dialed (conf : webhookConfiguration) : bool := any (fun w => dialsThisOperator (wh_Service w)) (wc_Webhooks conf).

(** Both flavours. *)
Definition ownedWebhookConfigurations (k : flavour) : P (list webhookConfiguration) :=
  let* confs := wrap "listing %ss labelled %s: %w" [flavour_kind k; webhookConfigLabelKey] (call (ListLabelled k) (fun t => ce_configs env t k)) in
  match List.filter dialed confs with
  | [] => raise (wrapf "no %s labelled %s targets namespace %q; creation is handled by the Helm chart. Ensure the chart is installed and webhooks are enabled: %w" [flavour_kind k; webhookConfigLabelKey; namespace] errNoOwnedWebhookConfigurations)
  | owned => ret owned
  end.

(* ------------------------------------------------------------------ *)
(** ** The configurations *)

Definition update_webhook (k : flavour) (caBundle : string) (w : webhook) : webhook * bool :=
  if negb (dialsThisOperator (wh_Service w)) then (w, false)
  else webhookNeedsUpdate w caBundle (expected_rules k (wh_Name w)).

Definition update_configuration (k : flavour) (caBundle : string) (conf : webhookConfiguration) : webhookConfiguration * bool :=
  let updated := map (update_webhook k caBundle) (wc_Webhooks conf) in
  ({| wc_Name := wc_Name conf; wc_Labels := wc_Labels conf; wc_Webhooks := updated.*1 |}, any snd updated).

Definition updateWebhookConfigurationsErr (kind name : string) (w : cert_write) : option error :=
  match w with
  | Accepted => None
  | Forbidden e => Some (wrapf "updating %s %s: not permitted; the manager ClusterRole scopes update by resourceNames and %q is not in that list, so the chart's webhook configuration names and its RBAC have drifted: %w" [kind; name; name] e)
  | Failed e => Some (wrapf "updating %s %s: %w" [kind; name] e)
  end.

Definition write_configuration (k : flavour) (caBundle : string) (acc : bool * list error) (conf : webhookConfiguration) : P (bool * list error) :=
  let '(conf, needUpdate) := update_configuration k caBundle conf in
  if negb needUpdate then ret acc
  else
    let* w := call (UpdateWebhooks k conf) (fun t => Ok (ce_write env t)) in
    ret (match updateWebhookConfigurationsErr (flavour_kind k) (wc_Name conf) w with
         | None => (true, acc.2)
         | Some e => (acc.1, acc.2 ++ [e])
         end).

(** [updateValidatingWebhookConfiguration] and its twin *)
Definition updateWebhookConfiguration (k : flavour) (caBundle : string) : P bool :=
  let* owned := ownedWebhookConfigurations k in
  let* acc := loop (write_configuration k caBundle) (false, []) owned in
  let* _ := lift (aggregate acc.2) in
  ret acc.1.

Definition data_of (s : Secret) (key : string) : option string := sec_Data s ≫= fun d => d !! key.

Definition CheckOrUpdateWebhookConfigurations (secret : Secret) : P bool :=
  let caBundle := default "" (data_of secret "ca.crt") in
  let* validatingChanged := updateWebhookConfiguration Validating caBundle in
  let* mutatingChanged := updateWebhookConfiguration Mutating caBundle in
  ret (validatingChanged || mutatingChanged).

(* ------------------------------------------------------------------ *)
(** ** The secret *)

Definition generateCert (serviceName namespace : string) (duration : Z) : P webhookCert :=
  call (MintCert (expectedDNSNames serviceName namespace) duration) (fun t => ce_mint env t).

Definition ToSecret (c : webhookCert) (name namespace serviceName : string) : Secret :=
  {| sec_Name := name; sec_Namespace := namespace;
     sec_Annotations := <[expirationAnnotationKey := time_Format (wc_Expiration c)]> {[ serviceAnnotationKey := serviceName ]};
     sec_Data := Some (<["ca.crt" := wc_CABytes c]> (<["tls.crt" := wc_TLSCert c]> {[ "tls.key" := wc_TLSKey c ]}));
     sec_Deleted := false |}.

(** The error of the write is ignored. *)
Definition write_files (c : webhookCert) : P unit :=
  if bool_decide (certDir = "") then ret tt
  else let* _ := try (call (WriteFiles (wc_TLSCert c) (wc_TLSKey c)) (fun t => ce_files env t)) in ret tt.

Definition accepted (c : cert_call) : P unit := call c (fun t =>
  match ce_write env t with Accepted => Ok tt | Forbidden e | Failed e => Err e end).

Definition GetOrCreateWebhookCertSecret : P Secret :=
  let* got := call GetSecret (fun t => ce_secret env t) in
  match got with
  | Some secret => ret secret
  | None =>
      let* c := generateCert (wo_ServiceName opts) namespace certValidityDurationYear in
      let* _ := write_files c in
      let secret := ToSecret c (wo_SecretName opts) namespace (wo_ServiceName opts) in
      let* _ := accepted (CreateSecret secret) in
      ret secret
  end.

(** Whether the files hold what the secret holds. *)
Definition compareCertOnDiskToSecret (secret : Secret) : P bool :=
  let* _ := wrap "failed to check if cert and key exist on disk: %w" [] (call StatFiles (fun t => ce_files env t)) in
  let* certPEM := wrap "failed to read cert: %w" [] (call ReadCert (fun t => ce_cert env t)) in
  match data_of secret "tls.crt" with
  | None => raise (errorf "secret missing tls.crt" [])
  | Some secretCert =>
      if negb (bool_decide (certPEM = secretCert)) then ret false
      else
        let* keyPEM := wrap "failed to read key: %w" [] (call ReadKey (fun t => ce_key env t)) in
        match data_of secret "tls.key" with
        | None => raise (errorf "secret missing tls.key" [])
        | Some secretKey => ret (bool_decide (keyPEM = secretKey))
        end
  end.

Definition store_cert (secret : Secret) (c : webhookCert) : res Secret :=
  match sec_Data secret with
  | None => Panic
  | Some d =>
      Ok {| sec_Name := sec_Name secret; sec_Namespace := sec_Namespace secret;
            sec_Annotations := <[serviceAnnotationKey := wo_ServiceName opts]>
              (<[expirationAnnotationKey := time_Format (wc_Expiration c)]> (sec_Annotations secret));
            sec_Data := Some (<["tls.key" := wc_TLSKey c]> (<["tls.crt" := wc_TLSCert c]> (<["ca.crt" := wc_CABytes c]> d)));
            sec_Deleted := sec_Deleted secret |}
  end.

(** The secret is changed in place. *)
Definition CheckOrUpdateWebhookCertSecret (secret : Secret) : P (Secret * bool) :=
  let* equal := wrap "comparing cert on disk to secret %s/%s: %w" [namespace; sec_Name secret] (compareCertOnDiskToSecret secret) in
  let sansCovered :=
    match certCoversDNSNames (default "" (data_of secret "tls.crt")) (expectedDNSNames (wo_ServiceName opts) namespace) with
    | Ok b => b | _ => false end in
  let expiration := default "" (sec_Annotations secret !! expirationAnnotationKey) in
  if negb equal || negb sansCovered || str_ltb expiration (time_Format (now + certRotationThreshold)) then
    let* c := generateCert (wo_ServiceName opts) namespace certValidityDurationYear in
    let* _ := write_files c in
    let* secret := lift (store_cert secret c) in
    let* _ := accepted (UpdateSecret secret) in
    ret (secret, true)
  else ret (secret, false).

(* ------------------------------------------------------------------ *)
(** ** Superseded *)

Definition superseding (confs : list webhookConfiguration) : option string :=
  head (omap (fun w => dialsAnotherOperator (wh_Service w)) (concat (map wc_Webhooks confs))).

Definition supersedingService : P (option string) :=
  let* validating := wrap "listing ValidatingWebhookConfigurations: %w" [] (call (ListAll Validating) (fun t => ce_configs env t Validating)) in
  match superseding validating with
  | Some name => ret (Some name)
  | None =>
      let* mutating := wrap "listing MutatingWebhookConfigurations: %w" [] (call (ListAll Mutating) (fun t => ce_configs env t Mutating)) in
      ret (superseding mutating)
  end.

Definition set_since (since : option Z) (b : bootstrap) : bootstrap := {| supersededSince := since; relinquished := relinquished b |}.
Definition signal (b : bootstrap) : bootstrap := {| supersededSince := supersededSince b; relinquished := true |}.

(** [errors.Join] *)
Definition join_error {A} (cause : error) (m : P A) : P A := fun s =>
  match m s with
  | (s, Err e) => (s, Err (Wrapf "%s, %w" [] e))
  | r => r
  end.

(** A service is found under a name that is not empty. *)
Definition handleNoOwnedConfigurations (cause : error) : P (option Z) :=
  let* other := join_error cause supersedingService in
  match other with
  | None | Some "" => let* _ := modify (set_since None) in raise cause
  | Some _ =>
      let* b := gets id in
      let since := default now (supersededSince b) in
      let* _ := modify (set_since (Some since)) in
      if now - since <? supersededGracePeriod then ret (Some supersededPollInterval)
      else let* _ := modify signal in ret None
  end.

(* ------------------------------------------------------------------ *)
(** ** The controller *)

Definition Reconcile : P (option Z) :=
  let* obj := call GetSecret (fun t => ce_secret env t) in
  match obj with
  | None => ret None
  | Some obj =>
      if sec_Deleted obj then ret None
      else
        let* secret := GetOrCreateWebhookCertSecret in
        let* '(secret, _) := CheckOrUpdateWebhookCertSecret secret in
        fun s =>
          match CheckOrUpdateWebhookConfigurations secret s with
          | (s, Ok _) => bind (modify (set_since None)) (fun _ => ret (Some periodic_check)) s
          | (s, Err e) => if errors_Is e errNoOwnedWebhookConfigurations then handleNoOwnedConfigurations e s else (s, Err e)
          | (s, Panic) => (s, Panic)
          end
  end.

Definition DrainRelinquished : P unit := modify (fun b => {| supersededSince := supersededSince b; relinquished := false |}).

(** Whether the pod may be ready: the first webhook with a stale bundle. *)
Definition stale_webhook (caBundle : string) (conf : webhookConfiguration) : option webhook :=
  List.find (fun w => dialsThisOperator (wh_Service w) && negb (bool_decide (wh_CABundle w = caBundle))) (wc_Webhooks conf).

Definition check_bundles (k : flavour) (caBundle : string) : P unit :=
  let* owned := ownedWebhookConfigurations k in
  match omap (fun conf => pair conf <$> stale_webhook caBundle conf) owned with
  | [] => ret tt
  | (conf, w) :: _ => raise (errorf "webhook secret is not ready, ca bundle is not equal to webhook %s of %s %s" [wh_Name w; flavour_kind k; wc_Name conf])
  end.

(** A secret that is not found is an error here. *)
Definition WebhookSecretReadyzCheck : P unit :=
  let* got := call GetSecret (fun t => ce_secret env t) in
  match got with
  | None => raise (errorf "not found" [])
  | Some secret =>
      let* equal := compareCertOnDiskToSecret secret in
      if negb equal then raise (errorf "webhook secret is not ready" [])
      else
        let caBundle := default "" (data_of secret "ca.crt") in
        let* _ := check_bundles Validating caBundle in
        check_bundles Mutating caBundle
  end.

(** [SecretCertWatcher.syncSecretToDisk]: a missing entry is written as no bytes. *)
Definition writeCertAndKey (cert key : string) : P unit :=
  if bool_decide (certDir = "") then raise (errorf "certDir is required" [])
  else call (WriteFiles cert key) (fun t => ce_files env t).

Definition syncSecretToDisk : P unit :=
  let* got := call GetSecret (fun t => ce_secret env t) in
  match got with
  | None => ret tt
  | Some secret =>
      let write := writeCertAndKey (default "" (data_of secret "tls.crt")) (default "" (data_of secret "tls.key")) in
      let* missing := try (call StatFiles (fun t => ce_files env t)) in
      match missing with
      | Some _ => write
      | None =>
          let* equal := compareCertOnDiskToSecret secret in
          if negb equal then write else ret tt
      end
  end.
End Controller.

(* ------------------------------------------------------------------ *)
(** ** Lemmas: which webhooks are written *)

Lemma bind_answered {E S A B} (R : pass E S -> pass E S -> Prop) `{!PreOrder R} e (answer : list E -> res A) (k : A -> M E S B) :
  steps R (call e answer) -> (forall a t, answer t = Ok a -> steps R (k a)) -> steps R (bind (call e answer) k).
Proof.
  intros He Hk s. pose proof (He s) as H. unfold bind, call in *. cbn [fst] in H.
  destruct (answer (trace s)) as [a|x|] eqn:E'; [|exact H..]. etrans; [exact H|]. exact (Hk a _ E' _).
Qed.

Section Writes.
Context `{TT : TimeText} `{X : X509}.
Context (env : cert_env) (opts : WebhookControllerOptions) (namespace certDir : string).

Local Notation dials := (dialsThisOperator opts namespace).

(** [w'] is [w] with the bundle and the rules it should have, if it is ours. *)
Definition put_right (k : flavour) (ca : string) (w w' : webhook) : Prop :=
  (dials (wh_Service w) = false -> w' = w) /\
  (dials (wh_Service w) = true -> w' = {| wh_Name := wh_Name w; wh_Service := wh_Service w; wh_CABundle := ca;
     wh_Rules := default (wh_Rules w) (expected_rules k (wh_Name w)) |}).

Lemma update_webhook_right k ca w : put_right k ca w (update_webhook opts namespace k ca w).1 /\
  ((update_webhook opts namespace k ca w).2 = false -> (update_webhook opts namespace k ca w).1 = w).
Proof.
  unfold put_right, update_webhook, webhookNeedsUpdate. destruct (dials (wh_Service w)); cbn [negb]; [|done].
  destruct w as [n s c r]; cbn. destruct (expected_rules k n) as [r'|]; repeat case_bool_decide; subst; cbn; split_and!; done.
Qed.

Lemma update_configuration_right k ca conf : let conf' := (update_configuration opts namespace k ca conf).1 in
  wc_Name conf' = wc_Name conf /\ wc_Labels conf' = wc_Labels conf /\ Forall2 (put_right k ca) (wc_Webhooks conf) (wc_Webhooks conf') /\
  ((update_configuration opts namespace k ca conf).2 = false -> conf' = conf).
Proof.
  destruct conf as [n l ws]. unfold update_configuration. cbn. split_and!; try done.
  - induction ws as [|w ws IH]; constructor; [apply update_webhook_right|done].
  - rewrite any_false. intros H. f_equal. induction ws as [|w ws IH]; [done|]. cbn. f_equal.
    + apply update_webhook_right, H. by left.
    + apply IH. intros x Hx. apply H. by right.
Qed.

(** A write of a configuration is one that was listed, put right. *)
Definition right_write (c : cert_call) : Prop :=
  match c with
  | UpdateWebhooks k conf' => exists t confs conf ca, ce_configs env t k = Ok confs /\ conf ∈ confs /\ dialed opts namespace conf = true /\
      conf' = (update_configuration opts namespace k ca conf).1
  | _ => True
  end.

Lemma owned_bind {A} k (f : list webhookConfiguration -> M cert_call bootstrap A) :
  (forall t confs, ce_configs env t k = Ok confs -> steps (emits right_write) (f (List.filter (dialed opts namespace) confs))) ->
  steps (emits right_write) (bind (ownedWebhookConfigurations env opts namespace k) f).
Proof.
  intros Hf s. unfold ownedWebhookConfigurations, bind, wrap, call, raise, ret. cbn [fst snd].
  assert (Hs : emits right_write s {| trace := trace s ++ [ListLabelled k]; mem := mem s |}) by (exists [ListLabelled k]; by repeat constructor).
  destruct (ce_configs env (trace s) k) as [confs|e|] eqn:E; cbn [rwrap]; [|exact Hs..].
  pose proof (Hf _ _ E) as H. destruct (List.filter (dialed opts namespace) confs) as [|c l]; [exact Hs|]. etrans; [exact Hs|apply H].
Qed.

Lemma updateWebhookConfiguration_right k ca : steps (emits right_write) (updateWebhookConfiguration env opts namespace k ca).
Proof.
  apply owned_bind. intros t confs Hc. apply steps_bind; [apply _| |auto with steps].
  apply steps_loop; [apply _|]. intros acc conf [Hin Hd]%elem_of_filterb. unfold write_configuration.
  destruct (update_configuration opts namespace k ca conf) as [conf' []] eqn:E; cbn [negb]; [|auto with steps].
  apply steps_bind; [apply _| |auto with steps]. apply emits_call. exists t, confs, conf, ca. by rewrite E.
Qed.

Lemma secret_steps secret now : steps (emits right_write) (CheckOrUpdateWebhookCertSecret env opts namespace certDir now secret).
Proof.
  unfold CheckOrUpdateWebhookCertSecret, compareCertOnDiskToSecret, generateCert, write_files, accepted.
  repeat first [progress auto with steps | by apply emits_call | apply steps_if; [apply _|..] | apply steps_bind; [apply _| |intros] | apply steps_try; [apply _|] | apply steps_wrap; [apply _|] | case_match].
Qed.

Lemma superseded_steps now cause : steps (emits right_write) (handleNoOwnedConfigurations env opts namespace now cause).
Proof.
  assert (Hs : steps (emits right_write) (supersedingService env opts namespace)).
  { unfold supersedingService. repeat first [progress auto with steps | by apply emits_call | apply steps_bind; [apply _| |intros] | apply steps_wrap; [apply _|] | case_match]. }
  unfold handleNoOwnedConfigurations. apply steps_bind; [apply _| |].
  - intros s. pose proof (Hs s) as H. unfold join_error. by destruct (supersedingService env opts namespace s) as [s' [a|e|]].
  - intros. repeat first [progress auto with steps | apply steps_bind; [apply _| |intros] | case_match].
Qed.

Lemma Reconcile_right now : steps (emits right_write) (Reconcile env opts namespace certDir now).
Proof.
  unfold Reconcile. apply steps_bind; [apply _|by apply emits_call|]. intros [obj|]; [|auto with steps]. destruct (sec_Deleted obj); [auto with steps|].
  apply steps_bind; [apply _| |].
  { unfold GetOrCreateWebhookCertSecret, generateCert, write_files, accepted.
    repeat first [progress auto with steps | by apply emits_call | apply steps_if; [apply _|..] | apply steps_bind; [apply _| |intros] | apply steps_try; [apply _|] | case_match]. }
  intros secret. apply steps_bind; [apply _|apply secret_steps|]. intros [secret' c] s.
  assert (H : steps (emits right_write) (CheckOrUpdateWebhookConfigurations env opts namespace secret')).
  { unfold CheckOrUpdateWebhookConfigurations.
    apply steps_bind; [apply _|apply updateWebhookConfiguration_right|intros]. apply steps_bind; [apply _|apply updateWebhookConfiguration_right|auto with steps]. }
  specialize (H s). destruct (CheckOrUpdateWebhookConfigurations env opts namespace secret' s) as [s' [b|e|]]; cbn [fst] in H; [|case_match|exact H].
  - etrans; [exact H|]. eapply (steps_bind (emits right_write)); auto with steps.
  - etrans; [exact H|]. apply superseded_steps.
  - exact H.
Qed.

(** Every configuration that had to change was written, and accepted. *)
Definition all_written (k : flavour) (ca : string) (confs : list webhookConfiguration) (t : list cert_call) : Prop :=
  forall conf, conf ∈ confs -> (update_configuration opts namespace k ca conf).2 = true ->
    exists t1 t2, t = t1 ++ UpdateWebhooks k (update_configuration opts namespace k ca conf).1 :: t2 /\ ce_write env t1 = Accepted.

Lemma all_written_grow k ca confs t t' : all_written k ca confs t -> all_written k ca confs (t ++ t').
Proof.
  intros H conf Hc Hn. destruct (H conf Hc Hn) as (t1 & t2 & -> & Ha). exists t1, (t2 ++ t'). by rewrite <- app_assoc.
Qed.

Lemma write_loop k ca confs : forall acc s s' acc',
  loop (write_configuration env opts namespace k ca) acc confs s = (s', Ok acc') -> acc'.2 = [] ->
  acc.2 = [] /\ (exists t, trace s' = trace s ++ t) /\ all_written k ca confs (trace s').
Proof.
  induction confs as [|conf confs IH]; intros acc s s' acc' H Herr.
  - injection H as <- <-. split_and!; [done|exists []; by rewrite app_nil_r|]. intros conf Hc. by apply elem_of_nil in Hc.
  - cbn [loop] in H. apply bind_ok in H as (s1 & acc1 & H1 & H). destruct (IH _ _ _ _ H Herr) as (He1 & (t & Ht) & Hall).
    assert (Hw : acc.2 = [] /\ (exists t, trace s1 = trace s ++ t) /\ all_written k ca [conf] (trace s1)).
    { unfold write_configuration in H1. destruct (update_configuration opts namespace k ca conf) as [conf' []] eqn:E; cbn [negb] in H1.
      - apply bind_ok in H1 as (s2 & w & [[= <-] ->]%call_ok & [= <- <-]). cbn [trace].
        destruct (ce_write env (trace s)) eqn:Ew; cbn in He1; try (apply app_eq_nil in He1 as [_ [=]]).
        split_and!; [done|by eexists|]. intros c ->%list_elem_of_singleton _. rewrite E. by exists (trace s), [].
      - injection H1 as <- <-. split_and!; [done|exists []; by rewrite app_nil_r|]. intros c ->%list_elem_of_singleton. by rewrite E. }
    destruct Hw as (Ha & (t' & Ht') & Hone). split_and!; [done|exists (t' ++ t); by rewrite Ht, Ht', app_assoc|].
    intros c [->|Hc]%elem_of_cons; [|by apply Hall]. intros Hn. rewrite Ht. apply (all_written_grow k ca [conf] (trace s1) t Hone); [|done].
    by apply list_elem_of_singleton.
Qed.

(** After a round without error every configuration that was listed and dials
    this operator is put right on the server. *)
Lemma updateWebhookConfiguration_ok k ca s s' b :
  updateWebhookConfiguration env opts namespace k ca s = (s', Ok b) ->
  exists confs t, ce_configs env (trace s) k = Ok confs /\ List.filter (dialed opts namespace) confs <> [] /\
    trace s' = trace s ++ ListLabelled k :: t /\ all_written k ca (List.filter (dialed opts namespace) confs) (trace s').
Proof.
  unfold updateWebhookConfiguration. intros (s1 & owned & Ho & H)%bind_ok. unfold ownedWebhookConfigurations in Ho.
  apply bind_ok in Ho as (s2 & confs & [Hc ->]%wrap_ok%call_ok & Ho).
  apply bind_ok in H as (s3 & acc & Hl & (s4 & [] & Ha & [= <- <-])%bind_ok).
  assert (acc.2 = [] /\ s4 = s3) as [Hnil ->].
  { unfold lift in Ha. injection Ha as <- Ha. by destruct (acc.2) as [|e l]; [|discriminate]. }
  destruct (write_loop _ _ _ _ _ _ _ Hl Hnil) as (_ & (t & Ht) & Hall). exists confs, t.
  destruct (List.filter (dialed opts namespace) confs) as [|c l]; [done|]. injection Ho as <- <-. cbn [trace] in Ht.
  rewrite Ht, <- app_assoc in *. done.
Qed.
End Writes.

(* ------------------------------------------------------------------ *)
(** ** Lemmas: the secret *)

Section SecretLemmas.
Context `{TT : TimeText} `{X : X509}.
Context (env : cert_env) (opts : WebhookControllerOptions) (namespace certDir : string).

(** The secret that the server has, as far as the pass knows. *)
Definition stored (s : Secret) (t : list cert_call) : Prop :=
  (exists t0, ce_secret env t0 = Ok (Some s)) \/ CreateSecret s ∈ t \/ UpdateSecret s ∈ t.

Lemma stored_grow s t t' : stored s t -> stored s (t ++ t').
Proof. unfold stored. rewrite !elem_of_app. tauto. Qed.

(** A program only adds calls. *)
Definition grows (s s' : pass cert_call bootstrap) : Prop := exists t, trace s' = trace s ++ t.

Lemma emits_grows Q s s' : emits Q s s' -> grows s s'.
Proof. intros (t & Ht & _). by exists t. Qed.

Lemma accepted_ok c s s' : accepted env c s = (s', Ok tt) -> trace s' = trace s ++ [c].
Proof. intros [_ ->]%call_ok. done. Qed.

Lemma GetOrCreate_stored s s' secret :
  GetOrCreateWebhookCertSecret env opts namespace certDir s = (s', Ok secret) -> stored secret (trace s').
Proof.
  unfold GetOrCreateWebhookCertSecret. intros (s1 & got & [Hg ->]%call_ok & H)%bind_ok. destruct got as [secret'|].
  - injection H as <- <-. left. eauto.
  - apply bind_ok in H as (s2 & c & _ & (s3 & [] & _ & (s4 & [] & Ha & [= <- <-])%bind_ok)%bind_ok).
    apply accepted_ok in Ha as ->. right. left. rewrite elem_of_app, list_elem_of_singleton. by right.
Qed.

Lemma CheckOrUpdate_stored now secret s s' secret' c : stored secret (trace s) ->
  CheckOrUpdateWebhookCertSecret env opts namespace certDir now secret s = (s', Ok (secret', c)) -> stored secret' (trace s').
Proof.
  intros Hs H. assert (Hg : grows s s').
  { pose proof (secret_steps env opts namespace certDir secret now s) as Hq. rewrite H in Hq. by apply emits_grows in Hq. }
  unfold CheckOrUpdateWebhookCertSecret in H. apply bind_ok in H as (s1 & equal & _ & H). case_match.
  - apply bind_ok in H as (s2 & mc & _ & (s3 & [] & _ & (s4 & secret1 & _ & (s5 & [] & Ha & [= <- <- <-])%bind_ok)%bind_ok)%bind_ok).
    apply accepted_ok in Ha as ->. right. right. rewrite elem_of_app, list_elem_of_singleton. by right.
  - injection H as <- <- <-. destruct Hg as [t ->]. by apply stored_grow.
Qed.

(** A pass that ends well put every configuration right for the secret. *)
Lemma Reconcile_checked now s s' :
  Reconcile env opts namespace certDir now s = (s', Ok (Some periodic_check)) ->
  exists secret, stored secret (trace s') /\ supersededSince (mem s') = None /\
    forall k, exists t0 confs, ce_configs env t0 k = Ok confs /\ List.filter (dialed opts namespace) confs <> [] /\
      all_written env opts namespace k (default "" (data_of secret "ca.crt")) (List.filter (dialed opts namespace) confs) (trace s').
Proof.
  unfold Reconcile. intros (s1 & obj & _ & H)%bind_ok. destruct obj as [obj|]; [|by injection H]. destruct (sec_Deleted obj); [by injection H|].
  apply bind_ok in H as (s2 & secret & Hg%GetOrCreate_stored & (s3 & [secret' c] & Hc & H)%bind_ok).
  pose proof (CheckOrUpdate_stored _ _ _ _ _ _ Hg Hc) as Hs.
  destruct (CheckOrUpdateWebhookConfigurations env opts namespace secret' s3) as [s4 [b|e|]] eqn:E; [|case_match; [|done]|done].
  - injection H as <-. cbn [trace mem]. unfold CheckOrUpdateWebhookConfigurations in E.
    apply bind_ok in E as (s5 & b1 & (c1 & t1 & Hc1 & Hn1 & Ht1 & Hw1)%updateWebhookConfiguration_ok & (s6 & b2 & (c2 & t2 & Hc2 & Hn2 & Ht2 & Hw2)%updateWebhookConfiguration_ok & [= <- _])%bind_ok).
    exists secret'. split_and!; [|done|].
    + rewrite Ht2, Ht1. by do 2 apply stored_grow.
    + intros []; [exists (trace s3), c1|exists (trace s5), c2]; split_and!; try done. rewrite Ht2. by apply all_written_grow.
  - unfold handleNoOwnedConfigurations in H. apply bind_ok in H as (s5 & other & _ & H).
    destruct other as [[|a o]|]; apply bind_ok in H as (s6 & x & _ & H); [done| |done].
    apply bind_ok in H as (s7 & [] & _ & H). case_match; [done|]. by apply bind_ok in H as (s8 & [] & _ & [= _ H]).
Qed.

(** The certificate is trusted where it is served, and nowhere else.  A pass
    writes a configuration only as it was listed, with the webhooks that dial
    this operator's service put right, their bundle and, for those of the old
    group, their rules, and every other webhook untouched.  A pass that comes
    back for its periodic check leaves, of both flavours, no listed
    configuration that dials this operator with a webhook that is not right for
    the secret that is stored: it was so already, or the write was accepted. *)
Theorem bundles_follow_the_secret now (s : pass cert_call bootstrap) :
  let '(s', r) := Reconcile env opts namespace certDir now s in
  exists t, trace s' = trace s ++ t /\
  (forall k conf', UpdateWebhooks k conf' ∈ t -> exists t0 confs conf ca, ce_configs env t0 k = Ok confs /\ conf ∈ confs /\
     wc_Name conf' = wc_Name conf /\ wc_Labels conf' = wc_Labels conf /\
     Forall2 (put_right opts namespace k ca) (wc_Webhooks conf) (wc_Webhooks conf')) /\
  (r = Ok (Some periodic_check) -> exists secret, stored secret (trace s') /\
     forall k, exists t0 confs, ce_configs env t0 k = Ok confs /\ (exists conf, conf ∈ confs /\ dialed opts namespace conf = true) /\
       forall conf, conf ∈ confs -> dialed opts namespace conf = true -> exists conf',
         Forall2 (put_right opts namespace k (default "" (data_of secret "ca.crt"))) (wc_Webhooks conf) (wc_Webhooks conf') /\
         (conf' = conf \/ exists t1 t2, trace s' = t1 ++ UpdateWebhooks k conf' :: t2 /\ ce_write env t1 = Accepted)).
Proof.
  pose proof (Reconcile_right env opts namespace certDir now s) as H. destruct (Reconcile env opts namespace certDir now s) as [s' r] eqn:E.
  destruct H as (t & Ht & Hq). cbn [fst] in Ht. exists t. split_and!; [done| |].
  - intros k conf' Hin. rewrite Forall_forall in Hq. destruct (Hq _ Hin) as (t0 & confs & conf & ca & Hc & Hi & _ & ->).
    exists t0, confs, conf, ca. by destruct (update_configuration_right opts namespace k ca conf) as (? & ? & ? & _).
  - intros ->. apply Reconcile_checked in E as (secret & Hs & _ & Hk). exists secret. split; [done|]. intros k.
    destruct (Hk k) as (t0 & confs & Hc & Hn & Hall). exists t0, confs. split_and!; [done| |].
    + destruct (List.filter (dialed opts namespace) confs) as [|conf l] eqn:Ef; [done|]. exists conf.
      apply elem_of_filterb. rewrite Ef. by left.
    + intros conf Hin Hd. set (ca := default "" _) in *. destruct (update_configuration_right opts namespace k ca conf) as (_ & _ & Hr & Hsame).
      exists (update_configuration opts namespace k ca conf).1. split; [done|].
      destruct (update_configuration opts namespace k ca conf).2 eqn:E2; [right|left; by apply Hsame].
      destruct (Hall conf) as (t1 & t2 & H1 & H2); [by apply elem_of_filterb|done|eauto].
Qed.
End SecretLemmas.

(* ------------------------------------------------------------------ *)
(** ** Lemmas: giving up the lease *)

Section Lease.
Context `{TT : TimeText} `{X : X509}.
Context (opts : WebhookControllerOptions) (namespace certDir : string).

(** No error of the server is the controller's own sentinel. *)
Definition foreign_errors (env : cert_env) : Prop :=
  (forall t k e, ce_configs env t k = Err e -> errors_Is e errNoOwnedWebhookConfigurations = false) /\
  (forall t e, ce_write env t = Forbidden e \/ ce_write env t = Failed e -> errors_Is e errNoOwnedWebhookConfigurations = false).

(** In the calls [t] nothing that was listed under the label dials this operator,
    and something dials another one in its namespace. *)
Definition saw_another (env : cert_env) (t : list cert_call) : Prop :=
  (exists k t0 confs, t0 ++ [ListLabelled k] `prefix_of` t /\ ce_configs env t0 k = Ok confs /\ forall conf, conf ∈ confs -> dialed opts namespace conf = false) /\
  (exists k t0 confs conf w name, t0 ++ [ListAll k] `prefix_of` t /\ ce_configs env t0 k = Ok confs /\ conf ∈ confs /\
     w ∈ wc_Webhooks conf /\ dialsAnotherOperator opts namespace (wh_Service w) = Some name).

Definition foreign (e : error) : Prop := errors_Is e errNoOwnedWebhookConfigurations = false.

Lemma foreign_wrap fmt args e : foreign e -> foreign (Wrapf fmt args e).
Proof. intros H. unfold foreign. cbn [errors_Is]. rewrite H. by rewrite bool_decide_false by done. Qed.

Lemma write_loop_foreign env k ca confs : foreign_errors env -> forall acc s, Forall foreign acc.2 ->
  exists s' acc', loop (write_configuration env opts namespace k ca) acc confs s = (s', Ok acc') /\ Forall foreign acc'.2.
Proof.
  intros [_ Hw]. induction confs as [|conf confs IH]; intros acc s Ha; cbn [loop]; [eauto|].
  assert (exists s1 acc1, write_configuration env opts namespace k ca acc conf s = (s1, Ok acc1) /\ Forall foreign acc1.2) as (s1 & acc1 & H1 & H2).
  { unfold write_configuration. destruct (update_configuration opts namespace k ca conf) as [conf' []]; cbn [negb]; [|unfold ret; eauto].
    unfold bind, call, ret. do 2 eexists. split; [reflexivity|]. destruct (ce_write env (trace s)) as [|e|e] eqn:Ew; cbn; [done|..];
      (apply Forall_app; split; [done|]; constructor; [apply foreign_wrap, (Hw (trace s)); auto|constructor]). }
  rewrite (bind_run _ _ _ _ _ H1). by apply IH.
Qed.

Lemma aggregate_foreign errs e : Forall foreign errs -> aggregate errs = Err e -> foreign e.
Proof.
  destruct errs as [|e0 errs]; [done|]. intros [H0 H]%Forall_cons [= <-].
  revert e0 H0 H. induction errs as [|e1 errs IH]; intros e0 H0 H; [done|]. apply Forall_cons in H as [H1 H]. apply IH; [by apply foreign_wrap|done].
Qed.

(** The sentinel comes from an empty list only. *)
Lemma update_sentinel env k ca s s' e : foreign_errors env ->
  updateWebhookConfiguration env opts namespace k ca s = (s', Err e) -> errors_Is e errNoOwnedWebhookConfigurations = true ->
  trace s' = trace s ++ [ListLabelled k] /\ exists confs, ce_configs env (trace s) k = Ok confs /\
    forall conf, conf ∈ confs -> dialed opts namespace conf = false.
Proof.
  intros Henv H He. unfold updateWebhookConfiguration, bind at 1 in H. unfold ownedWebhookConfigurations, bind, wrap, call, raise, ret in H. cbn [fst snd] in H.
  destruct (ce_configs env (trace s) k) as [confs|e0|] eqn:Ec; cbn [rwrap] in H; [|injection H as _ <-|done].
  - destruct (List.filter (dialed opts namespace) confs) as [|c l] eqn:Ef.
    + injection H as <- _. split; [done|]. exists confs. split; [done|]. intros conf Hin. apply not_true_iff_false. intros Hd.
      assert (conf ∈ List.filter (dialed opts namespace) confs) as Hx by by apply elem_of_filterb. rewrite Ef in Hx. by apply elem_of_nil in Hx.
    + destruct (write_loop_foreign env k ca (c :: l) Henv (false, []) {| trace := trace s ++ [ListLabelled k]; mem := mem s |}) as (s1 & acc & Hl & Hf); [constructor|].
      unfold bind in Hl. rewrite Hl in H. unfold lift in H. destruct (aggregate acc.2) as [[]|e1|] eqn:Ea; [done| |done].
      injection H as <- <-. apply (aggregate_foreign _ _ Hf) in Ea. unfold foreign in Ea. congruence.
  - destruct Henv as [Hc _]. apply Hc in Ec. apply (foreign_wrap "listing %ss labelled %s: %w" [flavour_kind k; webhookConfigLabelKey]) in Ec.
    unfold foreign, wrapf in *. congruence.
Qed.

Lemma CheckOrUpdateWebhookConfigurations_sentinel env secret s s' e : foreign_errors env ->
  CheckOrUpdateWebhookConfigurations env opts namespace secret s = (s', Err e) -> errors_Is e errNoOwnedWebhookConfigurations = true ->
  exists k t0 confs, t0 ++ [ListLabelled k] `prefix_of` trace s' /\ ce_configs env t0 k = Ok confs /\
    forall conf, conf ∈ confs -> dialed opts namespace conf = false.
Proof.
  intros Henv H He. unfold CheckOrUpdateWebhookConfigurations, bind in H.
  destruct (updateWebhookConfiguration env opts namespace Validating _ s) as [s1 [b|e1|]] eqn:E1; [|injection H as <- <-|done].
  - destruct (updateWebhookConfiguration env opts namespace Mutating _ s1) as [s2 [b2|e2|]] eqn:E2; [done|injection H as <- <-|done].
    apply update_sentinel in E2 as (Ht & confs & Hc & Hn); [|done..]. exists Mutating, (trace s1), confs. by rewrite Ht.
  - apply update_sentinel in E1 as (Ht & confs & Hc & Hn); [|done..]. exists Validating, (trace s), confs. by rewrite Ht.
Qed.

Lemma superseding_spec confs name : superseding opts namespace confs = Some name ->
  exists conf w, conf ∈ confs /\ w ∈ wc_Webhooks conf /\ dialsAnotherOperator opts namespace (wh_Service w) = Some name.
Proof.
  unfold superseding. intros H. assert (Hin : name ∈ omap (fun w => dialsAnotherOperator opts namespace (wh_Service w)) (concat (map wc_Webhooks confs))).
  { destruct (omap _ _) as [|n l]; [done|]. injection H as <-. by left. }
  apply list_elem_of_omap in Hin as (w & Hw & Hd). apply list_elem_of_In, in_concat in Hw as (ws & (conf & <- & Hc)%in_map_iff & Hw).
  exists conf, w. by rewrite !list_elem_of_In.
Qed.

(** How a pass moves what the controller remembers. *)
Definition moved (env : cert_env) (now : Z) (b b' : bootstrap) (t : list cert_call) : Prop :=
  b' = b \/ b' = set_since None b \/
  (saw_another env t /\ exists since, since = default now (supersededSince b) /\
    (b' = set_since (Some since) b \/ (supersededGracePeriod <= now - since /\ b' = signal (set_since (Some since) b)))).


Lemma handleNoOwned_moved env now cause s : (exists k t0 confs, t0 ++ [ListLabelled k] `prefix_of` trace s /\ ce_configs env t0 k = Ok confs /\
    forall conf, conf ∈ confs -> dialed opts namespace conf = false) ->
  let '(s', r) := handleNoOwnedConfigurations env opts namespace now cause s in moved env now (mem s) (mem s') (trace s').
Proof.
  intros (k & t0 & confs & Hp & Hc & Hn).
  assert (Hsaw : forall k' t1 confs' name t2, trace s `prefix_of` t1 -> t1 ++ [ListAll k'] `prefix_of` t2 -> ce_configs env t1 k' = Ok confs' ->
    superseding opts namespace confs' = Some name -> saw_another env t2).
  { intros k' t1 confs' name t2 H1 H2 H3 (conf & w & Hi & Hw & Hd)%superseding_spec. split.
    - exists k, t0, confs. split; [|done]. etrans; [exact Hp|]. etrans; [exact H1|]. etrans; [|exact H2]. by apply prefix_app_r.
    - exists k', t1, confs', conf, w, name. done. }
  unfold handleNoOwnedConfigurations.
  assert (Hend : forall other s2, mem s2 = mem s -> (forall c o, other = Some (String c o) -> saw_another env (trace s2)) ->
    let '(s', r) := (match other with
      | None | Some "" => let* _ := modify (set_since None) in raise cause
      | Some _ => let* b := gets id in let since := default now (supersededSince b) in let* _ := modify (set_since (Some since)) in
          if now - since <? supersededGracePeriod then ret (Some supersededPollInterval) else let* _ := modify signal in ret None end : M cert_call bootstrap (option Z)) s2
    in moved env now (mem s) (mem s') (trace s')).
  { intros other s2 Hm Hs. destruct other as [[|c o]|]; unfold bind, modify, raise, gets, ret; cbn [mem trace id]; rewrite Hm; [right; left; done| |right; left; done].
    destruct (now - _ <? _) eqn:Eg; cbn [mem trace]; right; right; (split; [by eapply Hs|]); eexists; (split; [reflexivity|]); [by left|right].
    apply Z.ltb_ge in Eg. done. }
  unfold bind at 1, join_error, supersedingService, bind, wrap, call, ret. cbn [fst snd trace mem].
  destruct (ce_configs env (trace s) Validating) as [c1|e|] eqn:E1; cbn [rwrap]; [|by left..].
  destruct (superseding opts namespace c1) as [n1|] eqn:Es1; cbn [mem trace].
  { apply (Hend (Some n1)); [done|]. intros c o [= ->]. by eapply (Hsaw Validating (trace s) c1 (String c o)). }
  destruct (ce_configs env (trace s ++ [ListAll Validating]) Mutating) as [c2|e|] eqn:E2; cbn [rwrap]; [|by left..].
  apply (Hend (superseding opts namespace c2)); [done|]. intros c o Es2.
  eapply (Hsaw Mutating (trace s ++ [ListAll Validating]) c2); [by apply prefix_app_r|done|exact E2|exact Es2].
Qed.

Ltac keep_memory :=
  repeat first [progress auto with steps | apply updates_call; apply _ | apply steps_if; [apply _|..] | apply steps_bind; [apply _| |intros]
    | apply steps_try; [apply _|] | apply steps_wrap; [apply _|] | apply steps_loop; [apply _|intros] | case_match].

Lemma GetOrCreate_memory env : steps (updates eq) (GetOrCreateWebhookCertSecret env opts namespace certDir).
Proof. unfold GetOrCreateWebhookCertSecret, generateCert, write_files, accepted. keep_memory. Qed.

Lemma CheckOrUpdateSecret_memory env now secret : steps (updates eq) (CheckOrUpdateWebhookCertSecret env opts namespace certDir now secret).
Proof. unfold CheckOrUpdateWebhookCertSecret, compareCertOnDiskToSecret, generateCert, write_files, accepted. keep_memory. Qed.

Lemma CheckOrUpdateConfigurations_memory env secret : steps (updates eq) (CheckOrUpdateWebhookConfigurations env opts namespace secret).
Proof.
  unfold CheckOrUpdateWebhookConfigurations, updateWebhookConfiguration, ownedWebhookConfigurations, write_configuration. keep_memory.
Qed.

Lemma Reconcile_moved env now s : foreign_errors env ->
  let '(s', _) := Reconcile env opts namespace certDir now s in moved env now (mem s) (mem s') (trace s').
Proof.
  intros Henv. unfold Reconcile, bind at 1, call. cbn [fst snd mem trace].
  destruct (ce_secret env (trace s)) as [[obj|]|e|]; [|by left..]. destruct (sec_Deleted obj); [by left|]. unfold bind at 1.
  set (s1 := {| trace := _; mem := mem s |}). pose proof (GetOrCreate_memory env s1) as H1.
  destruct (GetOrCreateWebhookCertSecret env opts namespace certDir s1) as [s2 [secret|e|]]; unfold updates in H1; cbn [fst mem s1] in *; [|by left..].
  unfold bind at 1. pose proof (CheckOrUpdateSecret_memory env now secret s2) as H2.
  destruct (CheckOrUpdateWebhookCertSecret env opts namespace certDir now secret s2) as [s3 [[secret' c]|e|]]; unfold updates in H2; cbn [fst] in *;
    [|left; congruence..].
  pose proof (CheckOrUpdateConfigurations_memory env secret' s3) as H3.
  destruct (CheckOrUpdateWebhookConfigurations env opts namespace secret' s3) as [s4 [b|e|]] eqn:E; unfold updates in H3; cbn [fst] in *.
  - right. left. unfold bind, modify, ret. cbn [fst mem trace]. congruence.
  - destruct (errors_Is e errNoOwnedWebhookConfigurations) eqn:Es; [|left; cbn [fst]; congruence].
    pose proof (handleNoOwned_moved env now e s4 (CheckOrUpdateWebhookConfigurations_sentinel env secret' s3 s4 e Henv E Es)) as Hm.
    revert Hm. destruct (handleNoOwnedConfigurations env opts namespace now e s4) as [s5 r]. cbn [fst]. assert (mem s4 = mem s) as -> by congruence. by intros.
  - left. congruence.
Qed.

(* ------------------------------------------------------------------ *)
(** ** Passes one after the other *)

(** A pass is what the server answers in it and when it is. *)
Definition cert_pass : Type := cert_env * Z.

Definition run_pass (b : bootstrap) (p : cert_pass) : pass cert_call bootstrap :=
  (Reconcile p.1 opts namespace certDir p.2 {| trace := []; mem := b |}).1.

(** What the controller remembers after the passes. *)
Definition remembers (b : bootstrap) (ps : list cert_pass) : bootstrap := foldl (fun b p => mem (run_pass b p)) b ps.

Definition started : bootstrap := {| supersededSince := None; relinquished := false |}.

(** The pass [p] after [ps] saw another operator in its place. *)
Definition superseded_at (ps : list cert_pass) (p : cert_pass) : Prop :=
  saw_another p.1 (trace (run_pass (remembers started ps) p)).

(** Since the pass [p] no pass found its own configurations or found nothing. *)
Definition superseded_since (ps1 : list cert_pass) (p : cert_pass) (ps2 : list cert_pass) : Prop :=
  superseded_at ps1 p /\ forall l, l `prefix_of` ps2 -> supersededSince (remembers started (ps1 ++ p :: l)) = Some p.2.

Lemma remembers_snoc ps p : remembers started (ps ++ [p]) = mem (run_pass (remembers started ps) p).
Proof. unfold remembers. by rewrite foldl_app. Qed.

Lemma prefix_snoc_inv {A} (l k : list A) x : l `prefix_of` k ++ [x] -> l `prefix_of` k \/ l = k ++ [x].
Proof.
  intros [m Hm]. destruct m as [|y m _] using rev_ind; [right; by rewrite app_nil_r in Hm|]. left. exists m.
  rewrite app_assoc in Hm. by apply app_inj_tail in Hm as [-> _].
Qed.

Lemma run_pass_moved b p : foreign_errors p.1 -> moved p.1 p.2 b (mem (run_pass b p)) (trace (run_pass b p)).
Proof.
  intros H. pose proof (Reconcile_moved p.1 p.2 {| trace := []; mem := b |} H) as Hm. unfold run_pass.
  by destruct (Reconcile p.1 opts namespace certDir p.2 {| trace := []; mem := b |}).
Qed.

Lemma superseded_run ps : Forall (fun p => foreign_errors p.1) ps -> forall since, supersededSince (remembers started ps) = Some since ->
  exists ps1 p ps2, ps = ps1 ++ p :: ps2 /\ p.2 = since /\ superseded_since ps1 p ps2.
Proof.
  induction ps as [|q ps IH] using rev_ind; [done|]. intros [Hf [Hq _]%Forall_cons]%Forall_app since. rewrite remembers_snoc.
  pose proof (run_pass_moved (remembers started ps) q Hq) as Hm.
  assert (Hkeep : supersededSince (mem (run_pass (remembers started ps) q)) = Some since -> supersededSince (remembers started ps) = Some since ->
    exists ps1 p ps2, ps ++ [q] = ps1 ++ p :: ps2 /\ p.2 = since /\ superseded_since ps1 p ps2).
  { intros Hnow (ps1 & p & ps2 & -> & Hp & Hs & Hall)%(IH Hf). exists ps1, p, (ps2 ++ [q]). rewrite <- app_assoc. split_and!; [done|done|]. split; [exact Hs|].
    intros l [Hl| ->]%prefix_snoc_inv; [by apply Hall|]. rewrite app_comm_cons, app_assoc, remembers_snoc, Hp. exact Hnow. }
  intros Hnow. destruct Hm as [E|[E|(Hsaw & since' & Hs' & E)]].
  - apply Hkeep; [done|]. by rewrite <- E.
  - by rewrite E in Hnow.
  - assert (since' = since) as -> by (destruct E as [E|[_ E]]; rewrite E in Hnow; by injection Hnow).
    destruct (supersededSince (remembers started ps)) as [t0|] eqn:Eb; simpl in Hs'; [subst t0; by apply Hkeep|].
    exists ps, q, []. split_and!; [done|done|]. split; [exact Hsaw|]. intros l ->%prefix_nil_inv. by rewrite remembers_snoc, Hnow, Hs'.
Qed.

(** The lease is given up for a reason that lasted.  After any passes of a
    controller that starts afresh, with whatever answers and at whatever times:
    if the signal is set, then there were two passes, the later one at least the
    grace period after the earlier one, that both saw that nothing of one of the
    two flavours dials this operator and that something dials another one in its
    namespace; and between them no pass found its own configurations, nor that
    there are none. *)
Theorem lease_given_up_when_superseded (ps : list cert_pass) :
  Forall (fun p => foreign_errors p.1) ps -> relinquished (remembers started ps) = true ->
  exists ps1 p ps2 q ps3, ps = ps1 ++ p :: ps2 ++ q :: ps3 /\ supersededGracePeriod <= q.2 - p.2 /\
    superseded_at ps1 p /\ superseded_at (ps1 ++ p :: ps2) q /\
    forall l, l `prefix_of` ps2 -> supersededSince (remembers started (ps1 ++ p :: l)) = Some p.2.
Proof.
  induction ps as [|q ps IH] using rev_ind; [done|]. intros [Hf [Hq _]%Forall_cons]%Forall_app. rewrite remembers_snoc.
  pose proof (run_pass_moved (remembers started ps) q Hq) as Hm.
  assert (Hkeep : relinquished (remembers started ps) = true -> exists ps1 p ps2 q' ps3, ps ++ [q] = ps1 ++ p :: ps2 ++ q' :: ps3 /\
    supersededGracePeriod <= q'.2 - p.2 /\ superseded_at ps1 p /\ superseded_at (ps1 ++ p :: ps2) q' /\
    forall l, l `prefix_of` ps2 -> supersededSince (remembers started (ps1 ++ p :: l)) = Some p.2).
  { intros (ps1 & p & ps2 & q' & ps3 & -> & H)%(IH Hf). exists ps1, p, ps2, q', (ps3 ++ [q]). split; [|exact H].
    by rewrite <- !app_assoc, <- app_comm_cons, <- !app_assoc. }
  intros Hr. destruct Hm as [E|[E|(Hsaw & since & Hs & [E|[Hg E]])]]; rewrite E in Hr; try by apply Hkeep.
  destruct (supersededSince (remembers started ps)) as [t0|] eqn:Eb; simpl in Hs; subst since.
  - destruct (superseded_run ps Hf t0 Eb) as (ps1 & p & ps2 & -> & <- & Hp & Hall). exists ps1, p, ps2, q, [].
    split_and!; [by rewrite <- app_assoc|done..].
  - unfold supersededGracePeriod in Hg. lia.
Qed.
End Lease.

(* ------------------------------------------------------------------ *)
(** ** Witnesses *)

#[local] Existing Instance example_time.

Definition no_names : X509 := {| certificate_names _ := Ok [] |}.
#[local] Existing Instance no_names.

Definition example_options : WebhookControllerOptions :=
  {| wo_SecretName := "webhook-cert"; wo_ServiceName := "skyhook-operator-webhook-service" |}.

(** After a rename of the service: the only webhook dials the new one. *)
Definition renamed : webhookConfiguration :=
  {| wc_Name := "nodewright-validating"; wc_Labels := {[ webhookConfigLabelKey := "true" ]};
     wc_Webhooks := [{| wh_Name := "validate-nodewright.nvidia.com";
                        wh_Service := Some {| svc_Name := "nodewright-webhook-service"; svc_Namespace := "skyhook" |};
                        wh_CABundle := "other"; wh_Rules := [] |}] |}.

Definition example_secret : Secret :=
  {| sec_Name := "webhook-cert"; sec_Namespace := "skyhook"; sec_Annotations := ∅;
     sec_Data := Some (<["tls.crt" := "crt"]> {[ "tls.key" := "key" ]}); sec_Deleted := false |}.

Definition renamed_env : cert_env :=
  {| ce_secret _ := Ok (Some example_secret);
     ce_mint _ := Ok {| wc_CABytes := "ca"; wc_TLSCert := "crt"; wc_TLSKey := "key"; wc_Expiration := 0 |};
     ce_files _ := Ok tt; ce_cert _ := Ok "crt"; ce_key _ := Ok "key"; ce_configs _ _ := Ok [renamed]; ce_write _ := Accepted |}.

Lemma lease_given_up_when_superseded_witness :
  let ps := [(renamed_env, 0); (renamed_env, 15000000000); (renamed_env, 61000000000)] in
  relinquished (remembers example_options "skyhook" "/certs" started ps) = true /\
  exists ps1 p ps2 q ps3, ps = ps1 ++ p :: ps2 ++ q :: ps3 /\ supersededGracePeriod <= q.2 - p.2 /\
    superseded_at example_options "skyhook" "/certs" ps1 p.
Proof.
  cbv zeta. split; [by vm_compute|].
  destruct (lease_given_up_when_superseded example_options "skyhook" "/certs"
    [(renamed_env, 0); (renamed_env, 15000000000); (renamed_env, 61000000000)]) as (ps1 & p & ps2 & q & ps3 & H1 & H2 & H3 & _).
  - repeat constructor; cbn; try done; by intros t e [|].
  - by vm_compute.
  - exists ps1, p, ps2, q, ps3. exact (conj H1 (conj H2 H3)).
Defined.

(** The API server fills in the scope of a rule, which the comparison of rules
    does not expect: a webhook of the old group with the right bundle and the
    rules the operator asks for is written again by every pass. *)
Example scope_is_written_again :
  let served r := {| rule_Operations := rule_Operations r; rule_APIGroups := rule_APIGroups r; rule_APIVersions := rule_APIVersions r;
                     rule_Resources := rule_Resources r; rule_Scope := Some "*" |} in
  let w := {| wh_Name := skyhookValidatingWebhookName; wh_Service := None; wh_CABundle := "ca"; wh_Rules := map served skyhookRules |} in
  (webhookNeedsUpdate w "ca" (getValidatingWebhookRules (wh_Name w))).2 = true.
Proof. by vm_compute. Qed.

(** A secret that lost an entry is an error in every pass: it is never minted
    again, unlike one whose certificate cannot be read. *)
Example damaged_secret_stays :
  let damaged := {| sec_Name := "webhook-cert"; sec_Namespace := "skyhook"; sec_Annotations := ∅; sec_Data := Some {[ "tls.key" := "key" ]};
                    sec_Deleted := false |} in
  let env := {| ce_secret _ := Ok (Some damaged); ce_mint := ce_mint renamed_env; ce_files _ := Ok tt; ce_cert _ := Ok "crt"; ce_key _ := Ok "key";
                ce_configs _ _ := Ok []; ce_write _ := Accepted |} in
  let '(s', r) := Reconcile env example_options "skyhook" "/certs" 0 {| trace := []; mem := started |} in
  trace s' = [GetSecret; GetSecret; StatFiles; ReadCert] /\ is_ok r = false.
Proof. by vm_compute. Qed.
