(* ===== verification/Compartment.v ===== *)
(** * Compartments and batches

    Models [operator/internal/wrapper/compartment.go].  A compartment sees its
    nodes through the interface [NodeView]: name, status, completion and the
    priority map of the resource they share.  [SkyhookNode] implements it. *)

From S2P Require Import Prelude Graph Float64 DeploymentPolicy Api NodeState Skyhook Text Node.

#[local] Open Scope Z_scope.

Class NodeView (N : Type) := {
  nv_Name : N -> string;
  nv_Status : N -> Status;
  nv_IsComplete : N -> bool;
  (** [GetSkyhook().Status.NodePriority] *)
  nv_NodePriority : N -> gmap string Z
}.

#[export] Instance SkyhookNode_view `{MR : MapRange} : NodeView SkyhookNode := {
  nv_Name f := n_Name (sn_Node (full_Only f));
  nv_Status f := node_Status (full_Only f);
  nv_IsComplete f := node_IsComplete f;
  nv_NodePriority f := NodePriority (sk_Status (full_skyhook f))
}.

(** [wrapper.Compartment]: the policy's compartment with nodes and batch state. *)
Record CompartmentW (N : Type) := {
  comp_Policy : Compartment;
  comp_Nodes : list N;
  comp_BatchState : BatchProcessingState
}.
Arguments comp_Policy {N} _. Arguments comp_Nodes {N} _. Arguments comp_BatchState {N} _.

Definition set_comp_Nodes {N} (v : list N) (c : CompartmentW N) : CompartmentW N :=
  {| comp_Policy := comp_Policy c; comp_Nodes := v; comp_BatchState := comp_BatchState c |}.
Definition set_comp_BatchState {N} (v : BatchProcessingState) (c : CompartmentW N) : CompartmentW N :=
  {| comp_Policy := comp_Policy c; comp_Nodes := comp_Nodes c; comp_BatchState := v |}.

Definition set_CurrentBatch (v : Z) (s : BatchProcessingState) : BatchProcessingState :=
  {| CurrentBatch := v; ConsecutiveFailures := ConsecutiveFailures s; CompletedNodes := CompletedNodes s;
     FailedNodes := FailedNodes s; ShouldStop := ShouldStop s; LastBatchSize := LastBatchSize s;
     LastBatchFailed := LastBatchFailed s |}.
Definition set_LastBatchSize (v : Z) (s : BatchProcessingState) : BatchProcessingState :=
  {| CurrentBatch := CurrentBatch s; ConsecutiveFailures := ConsecutiveFailures s;
     CompletedNodes := CompletedNodes s; FailedNodes := FailedNodes s; ShouldStop := ShouldStop s;
     LastBatchSize := v; LastBatchFailed := LastBatchFailed s |}.

(** [max(1, int(float64(matched) * (float64(percent) / 100)))] *)
Definition CalculateCeiling (budget : DeploymentBudget) (matched : Z) : Z :=
  match Count budget with
  | Some count => count
  | None =>
      match Percent budget with
      | Some percent =>
          if matched =? 0 then 0
          else
            let limit := f64_div (f64_of_int percent) (f64_of_int 100) in
            Z.max 1 (f64_to_int (f64_mul (f64_of_int matched) limit))
      | None => 0
      end
  end.

(* ------------------------------------------------------------------ *)
(** ** Strategies by safety *)

Definition strategySafetyOrder (t : StrategyType) : Z :=
  match t with
  | StrategyTypeFixed => 0 | StrategyTypeLinear => 1 | StrategyTypeExponential => 2 | StrategyTypeUnknown => 999
  end.

Definition GetStrategyType (s : option DeploymentStrategy) : StrategyType :=
  match s with
  | None => StrategyTypeUnknown
  | Some s =>
      match Fixed s, Linear s, Exponential s with
      | Some _, _, _ => StrategyTypeFixed
      | None, Some _, _ => StrategyTypeLinear
      | None, None, Some _ => StrategyTypeExponential
      | None, None, None => StrategyTypeUnknown
      end
  end.

Definition StrategyIsSafer (a b : StrategyType) : bool := strategySafetyOrder a <? strategySafetyOrder b.

Section Compartment.
Context {N : Type} `{NV : NodeView N}.
Implicit Types (c : CompartmentW N) (node : N) (eligible : option (N -> bool)).

Definition NewCompartmentWrapper (c : Compartment) (batchState : option BatchProcessingState) : CompartmentW N :=
  {| comp_Policy := c; comp_Nodes := [];
     comp_BatchState :=
       match batchState with
       | Some b => b
       | None => {| CurrentBatch := 1; ConsecutiveFailures := 0; CompletedNodes := 0; FailedNodes := 0;
                    ShouldStop := false; LastBatchSize := 0; LastBatchFailed := false |}
       end |}.

Definition GetNode c (name : string) : option N :=
  List.find (fun node => bool_decide (nv_Name node = name)) (comp_Nodes c).

Definition AddNode node c : CompartmentW N :=
  if any (fun existing => bool_decide (nv_Name existing = nv_Name node)) (comp_Nodes c) then c
  else set_comp_Nodes (comp_Nodes c ++ [node]) c.

Definition ClearNodes c : CompartmentW N := set_comp_Nodes [] c.

Definition has_status (status : Status) node : bool := bool_decide (nv_Status node = status).

Definition getInProgressCount c : Z := count (has_status StatusInProgress) (comp_Nodes c).

(** [eligible == nil || eligible(node)] *)
Definition admits eligible node : bool := match eligible with None => true | Some f => f node end.

Definition getInProgressNodes c eligible : list N :=
  List.filter (fun node => has_status StatusInProgress node && admits eligible node) (comp_Nodes c).

Definition getStickyBatchNodes c eligible : list N :=
  match comp_Nodes c with
  | [] => []
  | first :: _ =>
      List.filter (fun node =>
        match nv_NodePriority first !! nv_Name node with Some _ => true | None => false end &&
        negb (nv_IsComplete node) && admits eligible node) (comp_Nodes c)
  end.

(** The inner loop of [createNewBatch] for one status. *)
Fixpoint select_status eligible (batchSize : Z) (status : Status) (nodes selected : list N) : list N :=
  match nodes with
  | [] => selected
  | node :: nodes =>
      if batchSize <=? zlen selected then selected
      else if negb (has_status status node) then select_status eligible batchSize status nodes selected
      else if negb (nv_IsComplete node) && admits eligible node
      then select_status eligible batchSize status nodes (selected ++ [node])
      else select_status eligible batchSize status nodes selected
  end.

Fixpoint select_nodes eligible (batchSize : Z) (priority : list Status) (nodes selected : list N) : list N :=
  match priority with
  | [] => selected
  | status :: priority =>
      let selected := select_status eligible batchSize status nodes selected in
      if batchSize <=? zlen selected then selected
      else select_nodes eligible batchSize priority nodes selected
  end.

Definition batch_priority : list Status := [StatusWaiting; StatusUnknown; StatusBlocked; StatusErroring].

Definition next_batch_size c : res Z :=
  match c_Strategy (comp_Policy c) with
  | Some s => CalculateBatchSize s (zlen (comp_Nodes c)) (comp_BatchState c)
  | None => Ok (CalculateCeiling (c_Budget (comp_Policy c)) (zlen (comp_Nodes c)))
  end.

Definition createNewBatch c eligible : res (list N) :=
  rbind (next_batch_size c) (fun batchSize =>
  if batchSize <=? 0 then Ok []
  else Ok (select_nodes eligible batchSize batch_priority (comp_Nodes c) [])).

Definition is_stopped c : bool :=
  match c_Strategy (comp_Policy c) with Some _ => ShouldStop (comp_BatchState c) | None => false end.

Definition GetNodesForNextBatch c eligible : res (list N) :=
  if is_stopped c then Ok []
  else
    let inProgress := getInProgressNodes c eligible in
    if 0 <? zlen inProgress then Ok inProgress
    else
      let stickyNodes := getStickyBatchNodes c eligible in
      if 0 <? zlen stickyNodes then Ok stickyNodes
      else createNewBatch c eligible.

(* ------------------------------------------------------------------ *)
(** ** Evaluation *)

Definition IsBatchComplete c : bool := getInProgressCount c =? 0.

Definition counts_completed c : Z := count nv_IsComplete (comp_Nodes c).
Definition counts_failed c : Z :=
  count (fun node => negb (nv_IsComplete node) && has_status StatusErroring node) (comp_Nodes c).
Definition counts_blocked c : Z :=
  count (fun node => negb (nv_IsComplete node) && negb (has_status StatusErroring node) &&
                     has_status StatusBlocked node) (comp_Nodes c).

Definition EvaluateCurrentBatch c : CompartmentW N * (bool * Z * Z) :=
  let st := comp_BatchState c in
  if negb (IsBatchComplete c) then (c, (false, 0, 0))
  else if CurrentBatch st =? 0 then (set_comp_BatchState (set_CurrentBatch 1 st) c, (false, 0, 0))
  else
    let currentCompleted := counts_completed c in
    let currentFailed := counts_failed c in
    let currentBlocked := counts_blocked c in
    let deltaCompleted := int_sub currentCompleted (CompletedNodes st) in
    let deltaFailed := int_sub currentFailed (FailedNodes st) in
    let checkpointed := set_comp_BatchState (checkpoint st currentCompleted currentFailed) c in
    if (deltaCompleted <? 0) || (deltaFailed <? 0) then (checkpointed, (false, 0, 0))
    else if (deltaCompleted =? 0) && (deltaFailed =? 0) && (0 <? currentBlocked) then (checkpointed, (true, 0, 0))
    else if (deltaCompleted =? 0) && (deltaFailed =? 0) then (c, (false, 0, 0))
    else (checkpointed, (true, deltaCompleted, deltaFailed)).

Definition EvaluateAndUpdateBatchState (batchSize successCount failureCount : Z) c : CompartmentW N :=
  match c_Strategy (comp_Policy c) with
  | Some s =>
      set_comp_BatchState (EvaluateBatchResult s (comp_BatchState c) batchSize successCount failureCount
        (zlen (comp_Nodes c))) c
  | None =>
      let st := comp_BatchState c in
      set_comp_BatchState (set_LastBatchSize batchSize (set_CurrentBatch (int_add (CurrentBatch st) 1) st)) c
  end.

(* ------------------------------------------------------------------ *)
(** ** Lemmas: selection *)

Definition candidate eligible (status : Status) node : bool :=
  has_status status node && (negb (nv_IsComplete node) && admits eligible node).

(** The nodes a batch may take, in the order it takes them. *)
Definition candidates eligible (priority : list Status) (nodes : list N) : list N :=
  flat_map (fun status => List.filter (candidate eligible status) nodes) priority.

Lemma select_status_take eligible batchSize status nodes selected :
  zlen selected <= batchSize ->
  select_status eligible batchSize status nodes selected =
  take (Z.to_nat batchSize) (selected ++ List.filter (candidate eligible status) nodes).
Proof.
  revert selected; induction nodes as [|node nodes IH]; intros selected Hs; simpl.
  - rewrite app_nil_r, take_ge; [done|]. unfold zlen in Hs. lia.
  - case_if; bool_simpl.
    + rewrite take_app_le by (unfold zlen in *; lia). rewrite take_ge; [done|]. unfold zlen in *. lia.
    + unfold candidate at 1. destruct (has_status status node); simpl; [|by apply IH].
      destruct (negb (nv_IsComplete node) && admits eligible node); [|by apply IH].
      rewrite IH; [by rewrite <- app_assoc|]. unfold zlen in *. rewrite length_app. simpl. lia.
Qed.

Lemma select_nodes_take eligible batchSize priority nodes selected :
  zlen selected <= batchSize ->
  select_nodes eligible batchSize priority nodes selected =
  take (Z.to_nat batchSize) (selected ++ candidates eligible priority nodes).
Proof.
  revert selected; induction priority as [|status priority IH]; intros selected Hs; simpl.
  - rewrite app_nil_r, take_ge; [done|]. unfold zlen in Hs. lia.
  - rewrite select_status_take by done. rewrite app_assoc.
    set (sel := selected ++ List.filter (candidate eligible status) nodes).
    destruct (decide (zlen sel < batchSize)) as [Hlt|Hge].
    + rewrite (take_ge sel) by (unfold zlen in *; lia).
      rewrite (proj2 (Z.leb_gt _ _) Hlt), IH by lia. done.
    + rewrite (proj2 (Z.leb_le _ _)); [|unfold zlen in *; rewrite length_take; lia].
      rewrite take_app_le by (unfold zlen in *; lia). done.
Qed.

Lemma elem_of_candidates eligible priority nodes node :
  node ∈ candidates eligible priority nodes <->
  node ∈ nodes /\ nv_Status node ∈ priority /\ nv_IsComplete node = false /\ admits eligible node = true.
Proof.
  unfold candidates. rewrite list_elem_of_In, in_flat_map. setoid_rewrite <- list_elem_of_In.
  setoid_rewrite elem_of_filterb. unfold candidate, has_status. split.
  - intros (st & Hst & Hin & Hc). bool_simpl. subst st. done.
  - intros (Hin & Hst & Hc & Ha). exists (nv_Status node). split_and!; [done..|].
    rewrite bool_decide_eq_true_2 by done. by rewrite Hc, Ha.
Qed.

Lemma NoDup_candidates eligible priority nodes :
  NoDup priority -> NoDup nodes -> NoDup (candidates eligible priority nodes).
Proof.
  intros Hp Hn. induction Hp as [|st priority Hst Hp IH]; simpl; [constructor|].
  apply NoDup_app. split_and!; [|intros node Hin Hin'|done].
  - rewrite NoDup_ListNoDup in *. by apply List.NoDup_filter.
  - apply elem_of_filterb in Hin as [_ Hc]. unfold candidate, has_status in Hc. bool_simpl.
    apply elem_of_candidates in Hin' as (_ & Hst' & _). congruence.
Qed.

(* ------------------------------------------------------------------ *)
(** ** Lemmas: evaluation *)

(** Counts that fit, so that the differences are exact. *)
Definition batch_in_range c : Prop :=
  0 <= CompletedNodes (comp_BatchState c) < two63 /\ 0 <= FailedNodes (comp_BatchState c) < two63 /\
  zlen (comp_Nodes c) < two63.

Lemma delta_exact c p x : batch_in_range c -> 0 <= x < two63 ->
  int_sub (count p (comp_Nodes c)) x = count p (comp_Nodes c) - x.
Proof.
  intros (_ & _ & Hl) Hx. apply int_sub_id.
  pose proof (count_le p (comp_Nodes c)). pose proof (count_nonneg p (comp_Nodes c)).
  unfold int64 in *. lia.
Qed.

Definition same_but_batch c c' : Prop := comp_Policy c' = comp_Policy c /\ comp_Nodes c' = comp_Nodes c.

(** [EvaluateCurrentBatch] with the counts as numbers. *)
Lemma EvaluateCurrentBatch_alt c : batch_in_range c ->
  EvaluateCurrentBatch c =
  let st := comp_BatchState c in
  let dc := counts_completed c - CompletedNodes st in
  let df := counts_failed c - FailedNodes st in
  let checkpointed := set_comp_BatchState (checkpoint st (counts_completed c) (counts_failed c)) c in
  if negb (IsBatchComplete c) then (c, (false, 0, 0))
  else if CurrentBatch st =? 0 then (set_comp_BatchState (set_CurrentBatch 1 st) c, (false, 0, 0))
  else if (dc <? 0) || (df <? 0) then (checkpointed, (false, 0, 0))
  else if (dc =? 0) && (df =? 0) then
    if 0 <? counts_blocked c then (checkpointed, (true, 0, 0)) else (c, (false, 0, 0))
  else (checkpointed, (true, dc, df)).
Proof.
  intros Hr. unfold EvaluateCurrentBatch. simpl.
  assert (int_sub (counts_completed c) (CompletedNodes (comp_BatchState c)) =
          counts_completed c - CompletedNodes (comp_BatchState c)) as -> by (apply delta_exact; [done|apply Hr]).
  assert (int_sub (counts_failed c) (FailedNodes (comp_BatchState c)) =
          counts_failed c - FailedNodes (comp_BatchState c)) as -> by (apply delta_exact; [done|apply Hr]).
  destruct (negb (IsBatchComplete c)); [done|].
  destruct (CurrentBatch (comp_BatchState c) =? 0); [done|].
  destruct ((counts_completed c - CompletedNodes (comp_BatchState c) <? 0)
            || (counts_failed c - FailedNodes (comp_BatchState c) <? 0)); [done|].
  destruct ((counts_completed c - CompletedNodes (comp_BatchState c) =? 0)
            && (counts_failed c - FailedNodes (comp_BatchState c) =? 0)); [|done].
  simpl. by destruct (0 <? counts_blocked c).
Qed.

(* ------------------------------------------------------------------ *)
(** ** Properties *)

(** The nodes of the next batch.  A stopped compartment starts nothing; while
    eligible nodes are in progress, or eligible nodes picked before are not
    complete, exactly those go on; otherwise the batch is the first nodes, up to
    the strategy's size (or the budget's ceiling without one), among the
    eligible incomplete ones, waiting before unknown before blocked before
    erroring.  No node is selected that is not an eligible node of the
    compartment, and none twice. *)
Theorem GetNodesForNextBatch_spec c eligible l :
  NoDup (comp_Nodes c) -> GetNodesForNextBatch c eligible = Ok l ->
  (is_stopped c = true /\ l = []) \/
  is_stopped c = false /\ NoDup l /\
  (forall node, node ∈ l -> node ∈ comp_Nodes c /\ admits eligible node = true /\
     (nv_Status node = StatusInProgress \/ nv_IsComplete node = false)) /\
  (l <> [] /\ l = getInProgressNodes c eligible \/
   getInProgressNodes c eligible = [] /\
   (l <> [] /\ l = getStickyBatchNodes c eligible \/
    getStickyBatchNodes c eligible = [] /\
    exists size, next_batch_size c = Ok size /\
      l = take (Z.to_nat size) (candidates eligible batch_priority (comp_Nodes c)))).
Proof.
  intros Hnd. unfold GetNodesForNextBatch. destruct (is_stopped c); [intros [= <-]; by left|].
  intros H. right. split; [done|].
  assert (Hempty : forall m : list N, (0 <? zlen m) = false -> m = []).
  { intros m Hm. bool_simpl. unfold zlen in Hm. destruct m; [done|simpl in Hm; lia]. }
  assert (Hfull : forall m : list N, (0 <? zlen m) = true -> m <> []) by by intros [] Hm.
  destruct (0 <? zlen (getInProgressNodes c eligible)) eqn:E1.
  { injection H as <-. split_and!; [|intros node|left; auto].
    - unfold getInProgressNodes. rewrite NoDup_ListNoDup in *. by apply List.NoDup_filter.
    - unfold getInProgressNodes, has_status. intros [Hin Hp]%elem_of_filterb. bool_simpl. auto. }
  destruct (0 <? zlen (getStickyBatchNodes c eligible)) eqn:E2.
  { injection H as <-. split_and!; [|intros node|right; split; [auto|left; auto]].
    - unfold getStickyBatchNodes. destruct (comp_Nodes c); [constructor|].
      rewrite NoDup_ListNoDup in *. by apply List.NoDup_filter.
    - unfold getStickyBatchNodes. destruct (comp_Nodes c) eqn:E; [by intros ?%elem_of_nil|].
      intros [Hin Hp]%elem_of_filterb. bool_simpl. auto. }
  unfold createNewBatch in H. apply rbind_ok in H as (size & Hsize & H).
  assert (Hl : l = take (Z.to_nat size) (candidates eligible batch_priority (comp_Nodes c))).
  { destruct (size <=? 0) eqn:E; bool_simpl.
    - rewrite Z2Nat.nonpos, take_0 by lia. congruence.
    - assert (Hs : zlen ([] : list N) <= size) by (unfold zlen; simpl; lia).
      rewrite (select_nodes_take _ _ _ _ _ Hs) in H. exact (eq_sym (f_equal (fun r => match r with Ok l => l | _ => [] end) H)). }
  assert (Hcand : NoDup (candidates eligible batch_priority (comp_Nodes c))).
  { apply NoDup_candidates; [|done]. unfold batch_priority. repeat constructor; set_solver. }
  split_and!; [|intros node Hin|].
  - rewrite Hl. rewrite <- (take_drop (Z.to_nat size)) in Hcand. by apply NoDup_app in Hcand as (? & _).
  - rewrite Hl in Hin. apply elem_of_take in Hin as (i & Hi & _). apply list_elem_of_lookup_2 in Hi.
    apply elem_of_candidates in Hi. tauto.
  - right. split; [auto|]. right. split; [auto|]. eauto.
Qed.

(** C39: a batch is evaluated only when no node is in progress; what it reports
    are the nodes that completed and failed since the last checkpoint, and the
    checkpoint moves to the present counts, so nothing is reported twice: the
    next evaluation of the same nodes reports no success and no failure, and
    reports nothing at all unless nodes are blocked.  When nodes have left the
    compartment the checkpoint is reset and nothing is reported.  Nothing else
    of the batch state changes. *)
Theorem EvaluateCurrentBatch_spec c : batch_in_range c -> CurrentBatch (comp_BatchState c) <> 0 ->
  let '(c', (evaluated, success, failure)) := EvaluateCurrentBatch c in
  let st := comp_BatchState c in
  let st' := comp_BatchState c' in
  same_but_batch c c' /\ st' = checkpoint st (CompletedNodes st') (FailedNodes st') /\
  (evaluated = true -> getInProgressCount c = 0 /\ 0 <= success /\ 0 <= failure /\
     CompletedNodes st' = counts_completed c /\ FailedNodes st' = counts_failed c /\
     CompletedNodes st' = CompletedNodes st + success /\ FailedNodes st' = FailedNodes st + failure) /\
  (evaluated = false -> success = 0 /\ failure = 0 /\
     (c' = c \/ counts_completed c < CompletedNodes st \/ counts_failed c < FailedNodes st)) /\
  (getInProgressCount c = 0 ->
     EvaluateCurrentBatch c' = (c', (0 <? counts_blocked c, 0, 0))).
Proof.
  intros Hr Hb. rewrite (EvaluateCurrentBatch_alt c Hr). cbv zeta.
  rewrite (proj2 (Z.eqb_neq _ 0) Hb).
  set (c1 := set_comp_BatchState (checkpoint (comp_BatchState c) (counts_completed c) (counts_failed c)) c).
  assert (Hr1 : batch_in_range c1).
  { destruct Hr as (_ & _ & Hl). unfold c1, batch_in_range; simpl.
    pose proof (count_le nv_IsComplete (comp_Nodes c)). pose proof (count_nonneg nv_IsComplete (comp_Nodes c)).
    unfold counts_completed, counts_failed. set (p := fun node => _).
    pose proof (count_le p (comp_Nodes c)). pose proof (count_nonneg p (comp_Nodes c)). lia. }
  assert (Hagain : getInProgressCount c = 0 -> EvaluateCurrentBatch c1 = (c1, (0 <? counts_blocked c, 0, 0))).
  { intros Hp. rewrite (EvaluateCurrentBatch_alt c1 Hr1). cbv zeta.
    assert (IsBatchComplete c1 = true) as -> by by apply Z.eqb_eq.
    simpl. rewrite (proj2 (Z.eqb_neq _ 0) Hb), !Z.sub_diag. simpl.
    change (counts_blocked c1) with (counts_blocked c). by destruct (0 <? counts_blocked c). }
  unfold same_but_batch. destruct (IsBatchComplete c) eqn:Hc; simpl; unfold IsBatchComplete in Hc; bool_simpl.
  2: { split_and!; try done; [by destruct (comp_BatchState c)|auto]. }
  destruct ((counts_completed c - CompletedNodes (comp_BatchState c) <? 0)
            || (counts_failed c - FailedNodes (comp_BatchState c) <? 0)) eqn:E1.
  { split_and!; try done. intros _. split_and!; [done..|]. apply orb_true_iff in E1.
    destruct E1; bool_simpl; lia. }
  bool_simpl. destruct ((counts_completed c - CompletedNodes (comp_BatchState c) =? 0)
            && (counts_failed c - FailedNodes (comp_BatchState c) =? 0)) eqn:E2; bool_simpl.
  - destruct (0 <? counts_blocked c) eqn:E3.
    + split_and!; try done. intros _. simpl. lia.
    + split_and!; try done; [by destruct (comp_BatchState c)|by auto|].
      intros Hp. rewrite (EvaluateCurrentBatch_alt c Hr). cbv zeta. unfold IsBatchComplete. rewrite Hp. simpl.
      rewrite (proj2 (Z.eqb_neq _ 0) Hb).
      by rewrite H1, H2, E3.
  - split_and!; try done. intros _. simpl. lia.
Qed.
End Compartment.

(** The percentage ceiling is computed in binary floating point, where 29, 57
    and 58 percent of 100 nodes come out one node below the exact share. *)
Theorem CalculateCeiling_percent_rounding :
  map (fun percent => CalculateCeiling {| Percent := Some percent; Count := None |} 100) [28; 29; 30; 57; 58; 59]
    = [28; 28; 30; 56; 57; 59] /\
  map (fun percent => Z.max 1 (100 * percent / 100)) [28; 29; 30; 57; 58; 59] = [28; 29; 30; 57; 58; 59].
Proof. split; vm_compute; reflexivity. Qed.

(* ------------------------------------------------------------------ *)
(** ** Witnesses *)

(** A node that is only its name, status, completion and priority map. *)
Record SimpleNode := {
  s_name : string; s_status : Status; s_complete : bool; s_priority : gmap string Z
}.

#[local] Instance SimpleNode_view : NodeView SimpleNode := {
  nv_Name := s_name; nv_Status := s_status; nv_IsComplete := s_complete; nv_NodePriority := s_priority
}.

Definition simple (name : string) (status : Status) (complete : bool) : SimpleNode :=
  {| s_name := name; s_status := status; s_complete := complete; s_priority := ∅ |}.

Definition doubling_compartment (nodes : list SimpleNode) : CompartmentW SimpleNode :=
  {| comp_Policy := {| c_Name := "blue"; c_Selector := empty_selector;
                       c_Budget := {| Percent := Some 50; Count := None |}; c_Strategy := Some doubling |};
     comp_Nodes := nodes; comp_BatchState := fresh_state |}.

Definition waiting_nodes : list SimpleNode :=
  [simple "n1" StatusUnknown false; simple "n2" StatusWaiting false; simple "n3" StatusComplete true].

Lemma GetNodesForNextBatch_spec_witness :
  GetNodesForNextBatch (doubling_compartment waiting_nodes) None = Ok [simple "n2" StatusWaiting false] /\
  NoDup [simple "n2" StatusWaiting false].
Proof.
  assert (Hnd : NoDup (comp_Nodes (doubling_compartment waiting_nodes))).
  { apply (NoDup_fmap_1 s_name). change (NoDup ["n1"; "n2"; "n3"]). apply (bool_decide_unpack _). reflexivity. }
  assert (H : GetNodesForNextBatch (doubling_compartment waiting_nodes) None = Ok [simple "n2" StatusWaiting false])
    by reflexivity.
  split; [exact H|].
  destruct (GetNodesForNextBatch_spec _ _ _ Hnd H) as [[Hs _]|(_ & Hl & _)]; [discriminate Hs|exact Hl].
Defined.

Lemma EvaluateCurrentBatch_spec_witness :
  EvaluateCurrentBatch (EvaluateCurrentBatch (doubling_compartment waiting_nodes)).1 =
    ((EvaluateCurrentBatch (doubling_compartment waiting_nodes)).1, (false, 0, 0)).
Proof.
  assert (Hr : batch_in_range (doubling_compartment waiting_nodes)).
  { unfold batch_in_range, two63. vm_compute. repeat split; discriminate. }
  assert (Hb : CurrentBatch (comp_BatchState (doubling_compartment waiting_nodes)) <> 0) by discriminate.
  pose proof (EvaluateCurrentBatch_spec _ Hr Hb) as H.
  destruct (EvaluateCurrentBatch (doubling_compartment waiting_nodes)) as [c' [[e s] f]] eqn:E.
  destruct H as (_ & _ & _ & _ & H). exact (H eq_refl).
Defined.
