(* ===== verification/ClusterState.v ===== *)
(** * The state of the cluster: resources with their nodes

    Models the first half of [operator/internal/controller/cluster_state_v2.go]:
    [skyhookNodes], the order of resources, status, conditions and reports.

    The wrappers of one resource share it through a pointer, and compartments
    point to the same node wrappers as the resource's list.  Here the resource
    is stored once, each node keeps what is its own ([NodeEntry]), and a
    compartment holds the names of its nodes.  [as_node] puts a node together
    with the resource to call a method of [Node], [put_node] stores the result.
    The node objects of different resources are separate copies, as in
    [BuildState]; that their annotation maps are one map until the next read of
    the API server is not modelled. *)

From S2P Require Import Prelude Graph Float64 DeploymentPolicy Api NodeState Skyhook Conditions Text Node.
From S2P Require Import Migration Compartment.

#[local] Open Scope Z_scope.

Record NodeEntry := {
  ne_Only : SkyhookNodeOnly;
  (** the [Updated] flag of the node's own resource wrapper *)
  ne_Updated : bool;
  ne_graph : dag Package
}.

Record skyhookNodes := {
  sns_skyhook : Skyhook;
  sns_nodes : list NodeEntry;
  sns_priorStatus : Status;
  sns_compartments : gmap string (CompartmentW string);
  sns_deploymentPolicy : option DeploymentPolicy
}.

Definition entry_name (e : NodeEntry) : string := n_Name (sn_Node (ne_Only e)).

Definition set_sns_skyhook (v : Skyhook) (s : skyhookNodes) : skyhookNodes :=
  {| sns_skyhook := v; sns_nodes := sns_nodes s; sns_priorStatus := sns_priorStatus s;
     sns_compartments := sns_compartments s; sns_deploymentPolicy := sns_deploymentPolicy s |}.
Definition set_sns_nodes (v : list NodeEntry) (s : skyhookNodes) : skyhookNodes :=
  {| sns_skyhook := sns_skyhook s; sns_nodes := v; sns_priorStatus := sns_priorStatus s;
     sns_compartments := sns_compartments s; sns_deploymentPolicy := sns_deploymentPolicy s |}.
Definition set_sns_priorStatus (v : Status) (s : skyhookNodes) : skyhookNodes :=
  {| sns_skyhook := sns_skyhook s; sns_nodes := sns_nodes s; sns_priorStatus := v;
     sns_compartments := sns_compartments s; sns_deploymentPolicy := sns_deploymentPolicy s |}.
Definition set_sns_compartments (v : gmap string (CompartmentW string)) (s : skyhookNodes) : skyhookNodes :=
  {| sns_skyhook := sns_skyhook s; sns_nodes := sns_nodes s; sns_priorStatus := sns_priorStatus s;
     sns_compartments := v; sns_deploymentPolicy := sns_deploymentPolicy s |}.
Definition set_sns_deploymentPolicy (v : option DeploymentPolicy) (s : skyhookNodes) : skyhookNodes :=
  {| sns_skyhook := sns_skyhook s; sns_nodes := sns_nodes s; sns_priorStatus := sns_priorStatus s;
     sns_compartments := sns_compartments s; sns_deploymentPolicy := v |}.

(** The node wrapper of an entry, with the shared resource. *)
Definition as_node (s : skyhookNodes) (e : NodeEntry) : SkyhookNode :=
  {| full_Only := ne_Only e;
     full_skyhook := {| sk_nw := sk_nw (sns_skyhook s); Updated := ne_Updated e |};
     full_graph := ne_graph e |}.

Definition entry_of_node (f : SkyhookNode) : NodeEntry :=
  {| ne_Only := full_Only f; ne_Updated := Updated (full_skyhook f); ne_graph := full_graph f |}.

(** Store what a method left: the entry of that name and the shared resource. *)
Definition put_node (f : SkyhookNode) (s : skyhookNodes) : skyhookNodes :=
  let e := entry_of_node f in
  set_sns_nodes (map (fun e' => if bool_decide (entry_name e' = entry_name e) then e else e') (sns_nodes s))
    (set_sns_skyhook {| sk_nw := sk_nw (full_skyhook f); Updated := Updated (sns_skyhook s) |} s).

Definition find_entry (s : skyhookNodes) (name : string) : option NodeEntry :=
  List.find (fun e => bool_decide (entry_name e = name)) (sns_nodes s).

(** Call a method of the node named [name]. *)
Definition with_node (name : string) (f : SkyhookNode -> SkyhookNode) (s : skyhookNodes) : skyhookNodes :=
  match find_entry s name with Some e => put_node (f (as_node s e)) s | None => s end.

Definition node_names (s : skyhookNodes) : list string := map entry_name (sns_nodes s).

(** [sns_Spec], [sns_Status], [sns_Name]: reading through the wrapper. *)
Definition sns_Spec (s : skyhookNodes) : NodeWrightSpec := sk_Spec (sns_skyhook s).
Definition sns_Name (s : skyhookNodes) : string := nw_Name (sk_nw (sns_skyhook s)).
Definition on_skyhook (f : Skyhook -> Skyhook) (s : skyhookNodes) : skyhookNodes :=
  set_sns_skyhook (f (sns_skyhook s)) s.

Section ClusterState.
Context `{MR : MapRange} `{JS : NodeStateJSON} `{TT : TimeText}.

(* ------------------------------------------------------------------ *)
(** ** Completion and readiness *)

Definition entry_IsComplete (s : skyhookNodes) (e : NodeEntry) : bool := node_IsComplete (as_node s e).
Definition entry_Status (e : NodeEntry) : Status := node_Status (ne_Only e).

Definition sns_IsComplete (s : skyhookNodes) : bool := all (entry_IsComplete s) (sns_nodes s).
Definition sns_IsDisabled (s : skyhookNodes) : bool := IsDisabled (sk_nw (sns_skyhook s)).
Definition sns_IsPaused (s : skyhookNodes) : bool := IsPaused (sk_nw (sns_skyhook s)).
Definition sns_NodeCount (s : skyhookNodes) : Z := zlen (sns_nodes s).

Definition sns_GetNode (s : skyhookNodes) (name : string) : Status * option NodeEntry :=
  match find_entry s name with Some e => (entry_Status e, Some e) | None => (StatusUnknown, None) end.

(** The order of resources: by priority, then by name. *)
Definition skyhook_le (a b : skyhookNodes) : Prop :=
  Priority (sns_Spec a) < Priority (sns_Spec b) \/
  (Priority (sns_Spec a) = Priority (sns_Spec b) /\ str_le (sns_Name a) (sns_Name b)).
#[export] Instance skyhook_le_dec a b : Decision (skyhook_le a b).
Proof. unfold skyhook_le. apply _. Defined.

(** Nodes by creation time, then by name. *)
Definition entry_created_le (a b : NodeEntry) : Prop :=
  n_CreationTimestamp (sn_Node (ne_Only a)) < n_CreationTimestamp (sn_Node (ne_Only b)) \/
  (n_CreationTimestamp (sn_Node (ne_Only a)) = n_CreationTimestamp (sn_Node (ne_Only b)) /\
   str_le (entry_name a) (entry_name b)).
#[export] Instance entry_created_le_dec a b : Decision (entry_created_le a b).
Proof. unfold entry_created_le. apply _. Defined.

(** [otherPriority > targetPriority || (otherPriority == targetPriority && otherName >= targetName)] *)
Definition not_before (other target : skyhookNodes) : bool :=
  (Priority (sns_Spec target) <? Priority (sns_Spec other)) ||
  ((Priority (sns_Spec other) =? Priority (sns_Spec target)) && str_leb (sns_Name target) (sns_Name other)).

Definition GetNextSkyhook (skyhooks : list skyhookNodes) : option skyhookNodes :=
  List.find (fun s => negb (sns_IsComplete s || sns_IsDisabled s)) skyhooks.

Fixpoint IsNodeReadyForSkyhook (nodeName : string) (skyhook : skyhookNodes) (allSkyhooks : list skyhookNodes) : bool :=
  match allSkyhooks with
  | [] => true
  | other :: rest =>
      if sns_IsDisabled other then IsNodeReadyForSkyhook nodeName skyhook rest
      else if not_before other skyhook then IsNodeReadyForSkyhook nodeName skyhook rest
      else if IsPerNodeSequencing (sns_Spec other) then
        match (sns_GetNode other nodeName).2 with
        | Some nodeInOther =>
            if negb (entry_IsComplete other nodeInOther) then false
            else IsNodeReadyForSkyhook nodeName skyhook rest
        | None => IsNodeReadyForSkyhook nodeName skyhook rest
        end
      else if negb (sns_IsComplete other) then false
      else IsNodeReadyForSkyhook nodeName skyhook rest
  end.

Fixpoint isBlockedByGlobalPredecessor (skyhook : skyhookNodes) (allSkyhooks : list skyhookNodes) : bool :=
  match allSkyhooks with
  | [] => false
  | other :: rest =>
      if sns_IsDisabled other then isBlockedByGlobalPredecessor skyhook rest
      else if not_before other skyhook then isBlockedByGlobalPredecessor skyhook rest
      else if negb (IsPerNodeSequencing (sns_Spec other)) && negb (sns_IsComplete other) then true
      else isBlockedByGlobalPredecessor skyhook rest
  end.

(* ------------------------------------------------------------------ *)
(** ** Uninstall work and its conditions *)

Definition sns_State (e : NodeEntry) : res NodeState :=
  rbind (node_State (ne_Only e)) (fun st => Ok (default ∅ st)).

Definition beingDeleted (s : skyhookNodes) : bool :=
  if nw_DeletionTimestamp (sk_nw (sns_skyhook s)) then true else false.

Definition sns_packages (s : skyhookNodes) : list (string * Package) := range (sp_Packages (sns_Spec s)).

Fixpoint nodes_have_uninstall_work (s : skyhookNodes) (nodes : list NodeEntry) : res bool :=
  match nodes with
  | [] => Ok false
  | e :: nodes =>
      rbind (rwrap "node %s: reading state: %w" [entry_name e] (sns_State e)) (fun nodeState =>
      if any (fun kp => IsUninstallCycleInProgress nodeState (pkg_UniqueName kp.2) ||
                        (beingDeleted s && UninstallEnabled (Some kp.2) &&
                         negb (IsUninstalled nodeState (pkg_UniqueName kp.2)))) (sns_packages s)
      then Ok true else nodes_have_uninstall_work s nodes)
  end.

Definition HasUninstallWork (s : skyhookNodes) : res bool :=
  if any (fun kp => IsUninstalling (Some kp.2)) (sns_packages s) then Ok true
  else nodes_have_uninstall_work s (sns_nodes s).

Definition isPackageCompleteOnAllNodes (s : skyhookNodes) (p : Package) : bool :=
  if sns_NodeCount s =? 0 then false
  else all (fun e => node_IsPackageComplete (as_node s e) p) (sns_nodes s).

Record depState := { dep_inCycle : bool; dep_done : bool }.

Definition readable_states (s : skyhookNodes) : list NodeState :=
  omap (fun e => match sns_State e with Ok ns => Some ns | _ => None end) (sns_nodes s).

Definition has_unreadable (s : skyhookNodes) : bool :=
  any (fun e => match sns_State e with Ok _ => false | _ => true end) (sns_nodes s).

Definition dep_state (s : skyhookNodes) (p : Package) : depState :=
  let states := readable_states s in
  let inCycle := any (fun ns => IsUninstallCycleInProgress ns (pkg_UniqueName p)) states in
  let allAbsent := all (fun ns => match ns !! pkg_UniqueName p with Some _ => false | None => true end) states in
  {| dep_inCycle := inCycle;
     dep_done := negb inCycle && IsUninstalling (Some p) && allAbsent && negb (has_unreadable s) && (0 <? zlen states) |}.

Definition dep_states (s : skyhookNodes) : gmap string depState :=
  foldl (fun m kp => <[pkg_Name kp.2 := dep_state s kp.2]> m) ∅ (sns_packages s).

Definition blocked_by (s : skyhookNodes) (bName : string) (dep : string * string) : list string :=
  match dep_states s !! dep.1 with
  | None => []
  | Some d =>
      if dep_inCycle d then ["package " +:+ bName +:+ " is blocked: dependency " +:+ dep.1 +:+ " is being uninstalled"]
      else if dep_done d then ["package " +:+ bName +:+ " is blocked: dependency " +:+ dep.1 +:+ " has been uninstalled"]
      else []
  end.

Definition blocked_messages (s : skyhookNodes) : list string :=
  flat_map (fun kp : string * Package =>
    if IsUninstalling (Some kp.2) then []
    else if isPackageCompleteOnAllNodes s kp.2 then []
    else flat_map (blocked_by s kp.1) (range (pkg_DependsOn kp.2))) (sns_packages s).

Definition condition (now : Z) (s : skyhookNodes) (type status reason message : string) : Condition :=
  {| cond_Type := type; cond_Status := status; cond_ObservedGeneration := nw_Generation (sk_nw (sns_skyhook s));
     cond_LastTransitionTime := now; cond_Reason := reason; cond_Message := message |}.

Definition add_condition (now : Z) (c : Condition) (s : skyhookNodes) : skyhookNodes :=
  on_skyhook (fun sk => (AddSkyhookCondition now sk c).1) s.
Definition add_condition_legacy (now : Z) (c : Condition) (s : skyhookNodes) : skyhookNodes :=
  on_skyhook (fun sk => (AddSkyhookConditionWithLegacy now sk c).1) s.
Definition remove_conditions_of (types : list string) (s : skyhookNodes) : skyhookNodes :=
  on_skyhook (fun sk => (RemoveSkyhookConditionTypes sk types).1) s.

Definition UpdateBlockedCondition (now : Z) (s : skyhookNodes) : skyhookNodes :=
  let blockedMsgs := sort_strings (blocked_messages s) in
  if 0 <? zlen blockedMsgs then
    add_condition now (condition now s SkyhookConditionBlocked ConditionTrue "DependencyUninstalled"
                         (join "; " blockedMsgs)) s
  else remove_conditions_of [SkyhookConditionBlocked] s.

Definition in_cycle_entries (s : skyhookNodes) : list PackageStatus :=
  flat_map (fun ns => omap (fun kp : string * Package =>
      if IsUninstallCycleInProgress ns (pkg_UniqueName kp.2) then ns !! pkg_UniqueName kp.2 else None)
    (sns_packages s)) (readable_states s).

Definition UpdateUninstallConditions (now : Z) (s : skyhookNodes) : skyhookNodes :=
  let entries := in_cycle_entries s in
  let inProgress := 0 <? zlen entries in
  let hasErrors := any (fun st => bool_decide (ps_State st = StateErroring)) entries in
  let s := if inProgress
           then add_condition now (condition now s SkyhookConditionUninstallInProgress ConditionTrue
                  "UninstallInProgress" "One or more packages are being uninstalled") s
           else remove_conditions_of [SkyhookConditionUninstallInProgress] s in
  if hasErrors
  then add_condition now (condition now s SkyhookConditionUninstallFailed ConditionTrue
         "UninstallPodFailing" "One or more uninstall pods are failing") s
  else remove_conditions_of [SkyhookConditionUninstallFailed] s.

Definition maxMalformedNodesListed : nat := 5.

(** [name[:maxLen]] *)
Definition truncateNodeName (name : string) : string :=
  if Nat.leb (String.length name) 10 then name else String.substring 0 10 name +:+ "...".

Definition UpdateNodeStateMalformedCondition (now : Z) (s : skyhookNodes) : skyhookNodes :=
  let badNodes := sort_strings (map entry_name
    (List.filter (fun e => negb (is_ok (node_State (ne_Only e)))) (sns_nodes s))) in
  match badNodes with
  | [] => remove_conditions_of [SkyhookConditionNodeStateMalformed] s
  | _ =>
      let listed := take maxMalformedNodesListed badNodes in
      let nodeList := join ", " (map truncateNodeName listed) in
      let remainder := zlen badNodes - zlen listed in
      let nodeList := if 0 <? remainder then nodeList +:+ " and " +:+ show_int remainder +:+ " more" else nodeList in
      add_condition now (condition now s SkyhookConditionNodeStateMalformed ConditionTrue "ParseError"
        ("nodeState annotation cannot be parsed on " +:+ show_int (zlen badNodes) +:+ " node(s): " +:+ nodeList)) s
  end.

(* ------------------------------------------------------------------ *)
(** ** Status *)

Definition sns_Status (s : skyhookNodes) : Status := st_Status (sk_Status (sns_skyhook s)).

Definition resetSkyhookBatchState (s : skyhookNodes) : skyhookNodes :=
  if negb (ShouldResetBatchStateOnCompletion (sk_nw (sns_skyhook s)) (sns_deploymentPolicy s)) then s
  else
    let '(nw, reset) := ResetCompartmentBatchStates (sk_nw (sns_skyhook s)) in
    let s := set_sns_skyhook {| sk_nw := nw; Updated := reset || Updated (sns_skyhook s) |} s in
    set_sns_compartments (set_comp_BatchState fresh_BatchState <$> sns_compartments s) s.

Definition sns_SetStatus (status : Status) (s : skyhookNodes) : skyhookNodes :=
  let oldStatus := sns_Status s in
  let s := on_skyhook (sk_SetStatus status) (set_sns_priorStatus oldStatus s) in
  if negb (bool_decide (oldStatus = StatusComplete)) && bool_decide (status = StatusComplete)
  then resetSkyhookBatchState s else s.

(** The number of incomplete nodes with a status. *)
Definition incomplete_with (s : skyhookNodes) (status : Status) : Z :=
  count (fun e => negb (entry_IsComplete s e) && bool_decide (entry_Status e = status)) (sns_nodes s).

Definition CollectNodeStatus (s : skyhookNodes) : Status :=
  let complete := count (entry_IsComplete s) (sns_nodes s) in
  let remaining := sns_NodeCount s - complete in
  let all_remaining n := (0 <? n) && (n =? remaining) in
  if complete =? sns_NodeCount s then StatusComplete
  else if 0 <? incomplete_with s StatusInProgress then StatusInProgress
  else if all_remaining (incomplete_with s StatusErroring) then StatusErroring
  else if all_remaining (incomplete_with s StatusBlocked) then StatusBlocked
  else if all_remaining (incomplete_with s StatusUnknown) then StatusUnknown
  else if all_remaining (incomplete_with s StatusWaiting) then StatusWaiting
  else StatusUnknown.

Definition sns_UpdateCondition (now : Z) (s : skyhookNodes) : skyhookNodes * bool :=
  let skyhookStatus := sns_Status s in
  let nodeNames := sort_strings (node_names s) in
  let readyCondition := condition now s SkyhookConditionReady
    (if sns_IsComplete s then ConditionTrue else ConditionFalse)
    (SkyhookReadyConditionReason skyhookStatus)
    (SkyhookReadyConditionMessage (NodeStatus (sk_Status (sns_skyhook s))) nodeNames) in
  let '(sk, changed) := AddSkyhookConditionWithLegacy now (sns_skyhook s) readyCondition in
  let legacyMessage :=
    if negb (bool_decide (sns_priorStatus s = StatusEmpty)) && negb (bool_decide (sns_priorStatus s = skyhookStatus))
    then "Transitioned [" +:+ status_string (sns_priorStatus s) +:+ "] -> [" +:+ status_string skyhookStatus +:+ "]"
    else cond_Message readyCondition in
  let reason := status_string skyhookStatus in
  let reason := if bool_decide (reason = "") then status_string StatusUnknown else reason in
  let legacy := condition now s LegacySkyhookConditionTransition (cond_Status readyCondition) reason legacyMessage in
  let '(sk, changed') := AddSkyhookConditionRefreshingTransitionOnReasonOrMessage now sk legacy in
  (set_sns_skyhook sk s, changed' || changed).
End ClusterState.

(* ------------------------------------------------------------------ *)
(** ** Sequencing *)

(** Strictly earlier in the order of resources. *)
Definition skyhook_lt (a b : skyhookNodes) : Prop :=
  Priority (sns_Spec a) < Priority (sns_Spec b) \/
  (Priority (sns_Spec a) = Priority (sns_Spec b) /\ str_ltb (sns_Name a) (sns_Name b) = true).

Lemma not_before_spec a b : not_before a b = false <-> skyhook_lt a b.
Proof.
  unfold not_before, skyhook_lt. rewrite orb_false_iff, andb_false_iff, str_leb_ltb, Z.ltb_ge, Z.eqb_neq,
    negb_false_iff.
  destruct (str_ltb (sns_Name a) (sns_Name b)); intuition (try lia; try congruence).
Qed.

Lemma skyhook_lt_le a b : skyhook_lt a b -> ~ skyhook_le b a.
Proof.
  unfold skyhook_lt, skyhook_le, str_le. rewrite str_leb_ltb.
  intros [?|[? ->]] [?|[? ?]]; try lia; done.
Qed.

Section Sequencing.
Context `{MR : MapRange} `{JS : NodeStateJSON} `{TT : TimeText}.

(** What an earlier resource must have done before a node may run a later one. *)
Definition releases (other : skyhookNodes) (nodeName : string) : Prop :=
  if IsPerNodeSequencing (sns_Spec other)
  then forall e, find_entry other nodeName = Some e -> entry_IsComplete other e = true
  else sns_IsComplete other = true.

Lemma complete_releases other nodeName : sns_IsComplete other = true -> releases other nodeName.
Proof.
  intros H. unfold releases. destruct (IsPerNodeSequencing _); [|done].
  intros e (He & _)%List.find_some. apply (proj1 (all_true _ _) H). by apply list_elem_of_In.
Qed.

Lemma ready_iff nodeName s rs :
  IsNodeReadyForSkyhook nodeName s rs = true <->
  forall other, other ∈ rs -> sns_IsDisabled other = false -> skyhook_lt other s -> releases other nodeName.
Proof.
  induction rs as [|o rs IH]; simpl.
  { split; [intros _ o Ho; by apply elem_of_nil in Ho|done]. }
  setoid_rewrite elem_of_cons.
  destruct (sns_IsDisabled o) eqn:Hd; [rewrite IH; naive_solver congruence|].
  destruct (not_before o s) eqn:Hb.
  { rewrite IH. split; [|naive_solver]. intros H other [->|Hin] Hd' Hlt; [|auto].
    apply not_before_spec in Hlt. congruence. }
  apply not_before_spec in Hb.
  assert (forall b, (releases o nodeName <-> b = true) ->
    (if negb b then false else IsNodeReadyForSkyhook nodeName s rs) = true <->
    forall other, other = o \/ other ∈ rs -> sns_IsDisabled other = false -> skyhook_lt other s -> releases other nodeName)
    as Hstep.
  { intros [] Hr; simpl.
    - rewrite IH. split; [|naive_solver]. intros H other [->|Hin]; [intros _ _; by apply Hr|auto].
    - split; [done|]. intros H. apply Hr. apply H; auto. }
  unfold sns_GetNode. destruct (IsPerNodeSequencing (sns_Spec o)) eqn:Hp.
  - destruct (find_entry o nodeName) as [e|] eqn:He; simpl.
    + apply Hstep. unfold releases. rewrite Hp, He. naive_solver.
    + apply (Hstep true). unfold releases. rewrite Hp, He. naive_solver.
  - apply Hstep. unfold releases. by rewrite Hp.
Qed.

Lemma blocked_iff s rs :
  isBlockedByGlobalPredecessor s rs = true <->
  exists other, other ∈ rs /\ sns_IsDisabled other = false /\ skyhook_lt other s /\
    IsPerNodeSequencing (sns_Spec other) = false /\ sns_IsComplete other = false.
Proof.
  induction rs as [|o rs IH]; simpl.
  { split; [done|]. intros (o & Ho & _). by apply elem_of_nil in Ho. }
  setoid_rewrite elem_of_cons.
  destruct (sns_IsDisabled o) eqn:Hd; [rewrite IH; naive_solver congruence|].
  destruct (not_before o s) eqn:Hb.
  { rewrite IH. split; [naive_solver|]. intros (other & [->|Hin] & Hd' & Hlt & H); [|naive_solver].
    apply not_before_spec in Hlt. congruence. }
  apply not_before_spec in Hb.
  destruct (IsPerNodeSequencing (sns_Spec o)) eqn:Hp, (sns_IsComplete o) eqn:Hc; simpl;
    rewrite ?IH; naive_solver congruence.
Qed.

(** A node may run a resource exactly when each enabled resource that is
    strictly earlier in the order (priority, then name) has released it: one
    that sequences per node by being complete on this node, where it selects
    it; any other by being complete on all its nodes.  A resource blocked by a
    global predecessor is therefore ready on no node. *)
Theorem IsNodeReadyForSkyhook_spec (s : skyhookNodes) (rs : list skyhookNodes) :
  (forall nodeName, IsNodeReadyForSkyhook nodeName s rs = true <->
    forall other, other ∈ rs -> sns_IsDisabled other = false -> skyhook_lt other s -> releases other nodeName) /\
  (isBlockedByGlobalPredecessor s rs = true -> forall nodeName, IsNodeReadyForSkyhook nodeName s rs = false).
Proof.
  split; [intros; apply ready_iff|].
  intros (o & Ho & Hd & Hlt & Hp & Hc)%blocked_iff nodeName.
  apply not_true_iff_false. rewrite ready_iff. intros H.
  specialize (H o Ho Hd Hlt). unfold releases in H. rewrite Hp in H. congruence.
Qed.

(** C9: the sequence of resources cannot deadlock.  In a cluster state built by
    [BuildState] (sorted by priority and name), the next resource is the first
    that is enabled and incomplete; it is ready on every node and no
    predecessor blocks it.  There is none exactly when every enabled resource
    is complete. *)
Theorem GetNextSkyhook_progress (rs : list skyhookNodes)
  (Hsorted : StronglySorted skyhook_le rs) :
  (forall s, GetNextSkyhook rs = Some s ->
    sns_IsComplete s = false /\ sns_IsDisabled s = false /\
    isBlockedByGlobalPredecessor s rs = false /\ forall nodeName, IsNodeReadyForSkyhook nodeName s rs = true) /\
  (GetNextSkyhook rs = None <-> forall s, s ∈ rs -> sns_IsDisabled s = false -> sns_IsComplete s = true).
Proof.
  split.
  - intros s Hs. destruct (find_split _ _ _ Hs) as (l1 & l2 & -> & Hbefore & Hp).
    apply negb_true_iff, orb_false_iff in Hp as [Hc Hd].
    assert (forall o, o ∈ l1 ++ s :: l2 -> sns_IsDisabled o = false -> skyhook_lt o s -> sns_IsComplete o = true) as Hearly.
    { intros o [Ho|[->|Ho]%elem_of_cons]%elem_of_app Hd' Hlt.
      - specialize (Hbefore o Ho). rewrite negb_false_iff, orb_true_iff in Hbefore. naive_solver congruence.
      - destruct (skyhook_lt_le _ _ Hlt). right. split; [done|reflexivity].
      - destruct (skyhook_lt_le _ _ Hlt). apply StronglySorted_app in Hsorted as (_ & _ & Hs2).
        apply StronglySorted_inv in Hs2 as [_ Hall]. by eapply Forall_forall in Hall. }
    split_and!; [done|done| |].
    + apply not_true_iff_false. intros (o & Ho & Hd' & Hlt & _ & Hc')%blocked_iff.
      rewrite Hearly in Hc'; done.
    + intros nodeName. apply ready_iff. intros o Ho Hd' Hlt. by apply complete_releases, Hearly.
  - unfold GetNextSkyhook. rewrite find_none_iff. setoid_rewrite negb_false_iff. setoid_rewrite orb_true_iff.
    split; intros H s Hin; specialize (H s Hin); [naive_solver congruence|].
    destruct (sns_IsDisabled s); auto.
Qed.
End Sequencing.

(* ------------------------------------------------------------------ *)
(** ** The collected status *)

Section CollectNodeStatus.
Context `{MR : MapRange} `{JS : NodeStateJSON} `{TT : TimeText}.

(** Every node that is not complete has this status. *)
Definition incomplete_all (s : skyhookNodes) (status : Status) : Prop :=
  forall e, e ∈ sns_nodes s -> entry_IsComplete s e = false -> entry_Status e = status.

Lemma all_remaining_spec s status : count (entry_IsComplete s) (sns_nodes s) <> zlen (sns_nodes s) ->
  ((0 <? incomplete_with s status) &&
   (incomplete_with s status =? sns_NodeCount s - count (entry_IsComplete s) (sns_nodes s))) = true <->
  incomplete_all s status.
Proof.
  intros Hne. unfold incomplete_with, sns_NodeCount. rewrite andb_true_iff, Z.ltb_lt, Z.eqb_eq, count_rest.
  setoid_rewrite bool_decide_eq_true.
  unfold incomplete_all. split; [by intros [_ H]|]. intros H. split; [|done].
  rewrite (proj2 (count_rest _ _ _)).
  - pose proof (count_le (entry_IsComplete s) (sns_nodes s)). lia.
  - intros e He Hc. rewrite bool_decide_eq_true. auto.
Qed.

(** The status collected from the nodes is Complete exactly when every node
    is complete, In Progress exactly when some node that is not complete is in
    progress; otherwise Erroring, Blocked or Waiting exactly when all the nodes
    that are not complete agree on it, and Unknown in every other case. *)
Theorem CollectNodeStatus_spec (s : skyhookNodes) :
  let in_progress := exists e, e ∈ sns_nodes s /\ entry_IsComplete s e = false /\ entry_Status e = StatusInProgress in
  (CollectNodeStatus s = StatusComplete <-> sns_IsComplete s = true) /\
  (CollectNodeStatus s = StatusInProgress <-> in_progress) /\
  (forall st, st ∈ [StatusErroring; StatusBlocked; StatusWaiting] ->
    (CollectNodeStatus s = st <-> sns_IsComplete s = false /\ incomplete_all s st)) /\
  CollectNodeStatus s ∈ [StatusComplete; StatusInProgress; StatusErroring; StatusBlocked; StatusWaiting; StatusUnknown].
Proof.
  cbv zeta.
  assert (Hcomplete : (count (entry_IsComplete s) (sns_nodes s) =? sns_NodeCount s) = sns_IsComplete s).
  { apply eq_true_iff_eq. unfold sns_NodeCount, sns_IsComplete. by rewrite Z.eqb_eq, count_full, all_true. }
  assert (Hprogress : (0 <? incomplete_with s StatusInProgress) = true <->
    exists e, e ∈ sns_nodes s /\ entry_IsComplete s e = false /\ entry_Status e = StatusInProgress).
  { unfold incomplete_with. rewrite Z.ltb_lt, count_pos. setoid_rewrite andb_true_iff.
    setoid_rewrite negb_true_iff. by setoid_rewrite bool_decide_eq_true. }
  assert (Hdistinct : sns_IsComplete s = false -> forall a b, incomplete_all s a -> incomplete_all s b -> a = b).
  { intros (e & He & Hc)%all_false a b Ha Hb. by rewrite <- (Ha e He Hc), <- (Hb e He Hc). }
  assert (Hnone : forall st, sns_IsComplete s = false -> incomplete_all s st -> st <> StatusInProgress ->
    (0 <? incomplete_with s StatusInProgress) = false).
  { intros st _ Hall Hne. apply not_true_iff_false. rewrite Hprogress. intros (e & He & Hc & Hst).
    apply Hne. by rewrite <- (Hall e He Hc). }
  unfold CollectNodeStatus. cbv zeta. rewrite Hcomplete.
  destruct (sns_IsComplete s) eqn:Hc; [|destruct (0 <? incomplete_with s StatusInProgress) eqn:Hp].
  - split_and!; [done| | |by left].
    + split; [done|]. intros (e & He & Hf & _). rewrite (proj1 (all_true _ _) Hc e He) in Hf. done.
    + intros st Hst. split; [intros <-; set_solver|naive_solver].
  - split_and!; [done|naive_solver| |set_solver].
    intros st Hst. split; [intros <-; set_solver|]. intros [_ Hall].
    assert (st <> StatusInProgress) as Hne by (intros ->; set_solver).
    discriminate (Hnone st eq_refl Hall Hne).
  - assert (Hall : forall st, ((0 <? incomplete_with s st) && (incomplete_with s st =?
        sns_NodeCount s - count (entry_IsComplete s) (sns_nodes s))) = true <-> incomplete_all s st).
    { intros st. apply all_remaining_spec. apply Z.eqb_neq in Hcomplete. done. }
    assert (Hnot : forall st, incomplete_all s st -> st <> StatusInProgress).
    { intros st Hst ->. apply all_false in Hc as (e & He & Hce).
      assert (false = true) by (apply Hprogress; exists e; auto). done. }
    repeat match goal with |- context [if ?b then _ else _] =>
      let E := fresh "E" in destruct b eqn:E; [apply Hall in E|apply not_true_iff_false in E; rewrite Hall in E] end;
      (split_and!; [done|rewrite <- Hprogress; done| |by apply (bool_decide_unpack _)]);
      intros st Hst; rewrite !elem_of_cons, elem_of_nil in Hst; destruct Hst as [->|[->|[->|[]]]];
      (split; [intros [=]; by (split; [done|])|]); intros [_ Ha]; first [done|by apply Hdistinct].
Qed.
End CollectNodeStatus.

(* ------------------------------------------------------------------ *)
(** ** Witnesses *)

Definition plain_entry (nodeName skyhookName : string) (ns : option NodeState) : NodeEntry :=
  {| ne_Only := {| sn_Node := bare_node nodeName; sn_skyhookName := skyhookName; sn_nodeState := ns;
                   sn_updated := false |};
     ne_Updated := false; ne_graph := New |}.

Definition plain_state (name : string) (packages : Packages) (nodes : list NodeEntry) : skyhookNodes :=
  {| sns_skyhook := NewSkyhookWrapper (plain_nodewright name (plain_spec packages) empty_status);
     sns_nodes := nodes; sns_priorStatus := StatusEmpty; sns_compartments := ∅; sns_deploymentPolicy := None |}.

(** The first resource is complete on its node, the second is not. *)
Definition two_resources : list skyhookNodes :=
  [plain_state "a" ∅ [plain_entry "n1" "a" None]; plain_state "b" base_only [plain_entry "n1" "b" None]].

Lemma GetNextSkyhook_progress_witness :
  sns_Name <$> GetNextSkyhook two_resources = Some "b" /\
  exists s, GetNextSkyhook two_resources = Some s /\ IsNodeReadyForSkyhook "n1" s two_resources = true.
Proof.
  assert (Hs : StronglySorted skyhook_le two_resources).
  { constructor; [constructor; constructor|]. constructor; [|constructor]. right. split; reflexivity. }
  destruct (GetNextSkyhook two_resources) as [s|] eqn:E; [|vm_compute in E; discriminate E].
  split; [vm_compute in E; injection E as <-; reflexivity|].
  exists s. split; [reflexivity|]. apply (proj1 (GetNextSkyhook_progress two_resources Hs) s E).
Defined.
