(* ===== verification/Partition.v ===== *)
(** * Building the state of the cluster

    Models [BuildState] of [operator/internal/controller/cluster_state_v2.go]
    with the compartments it makes, and [partitionNodesIntoCompartments] of
    [skyhook_controller.go].  Nodes reach a compartment by name; the names of
    the nodes of one resource are distinct. *)

From S2P Require Import Prelude Graph Float64 DeploymentPolicy Api NodeState Skyhook Conditions Text Node.
From S2P Require Import Migration Compartment ClusterState.

#[local] Open Scope Z_scope.

(** A node of a resource seen through its name. *)
#[export] Instance state_view `{MR : MapRange} (s : skyhookNodes) : NodeView string := {
  nv_Name name := name;
  nv_Status name := (sns_GetNode s name).1;
  nv_IsComplete name := match find_entry s name with Some e => entry_IsComplete s e | None => false end;
  nv_NodePriority _ := NodePriority (sk_Status (sns_skyhook s))
}.

Section Partition.
Context `{MR : MapRange} `{JS : NodeStateJSON} `{TT : TimeText} `{Sel : Selectors}.

(* ------------------------------------------------------------------ *)
(** ** Compartments of a resource *)

(** [max(1, int(float64(nodeCount) * (float64(percent) / 100)))] *)
Definition legacy_batch (budget : DeploymentBudget) (nodeCount : Z) : Z :=
  match Count budget with
  | Some count => Z.max 1 (Z.min nodeCount count)
  | None =>
      match Percent budget with
      | Some percent =>
          if 0 <? nodeCount then
            Z.max 1 (f64_to_int (f64_mul (f64_of_int nodeCount) (f64_div (f64_of_int percent) (f64_of_int 100))))
          else 1
      | None => 1
      end
  end.

Definition legacy_budget (spec : NodeWrightSpec) : DeploymentBudget :=
  match ib_Percent (sp_InterruptionBudget spec), ib_Count (sp_InterruptionBudget spec) with
  | Some percent, _ => {| Percent := Some percent; Count := None |}
  | None, Some count => {| Percent := None; Count := Some count |}
  | None, None => {| Percent := Some 100; Count := None |}
  end.

Definition no_fixed : FixedStrategy :=
  {| fs_InitialBatch := None; fs_BatchThreshold := None; fs_FailureThreshold := None; fs_SafetyLimit := None |}.

Definition set_fs_InitialBatch (v : option Z) (s : FixedStrategy) : FixedStrategy :=
  {| fs_InitialBatch := v; fs_BatchThreshold := fs_BatchThreshold s;
     fs_FailureThreshold := fs_FailureThreshold s; fs_SafetyLimit := fs_SafetyLimit s |}.

Definition no_selector : LabelSelector := {| MatchLabels := None; MatchExpressions := None |}.

Definition createLegacyDefaultCompartment (spec : NodeWrightSpec) (nodeCount : Z) : Compartment :=
  let budget := legacy_budget spec in
  let fixedStrategy := set_fs_InitialBatch (Some (legacy_batch budget nodeCount)) (FixedStrategy_Default no_fixed) in
  {| c_Name := DefaultCompartmentName; c_Selector := no_selector; c_Budget := budget;
     c_Strategy := Some {| Fixed := Some fixedStrategy; Linear := None; Exponential := None |} |}.

Definition AddCompartment (name : string) (c : CompartmentW string) (s : skyhookNodes) : skyhookNodes :=
  set_sns_compartments (<[name := c]> (sns_compartments s)) s.

Definition sns_AddNode (e : NodeEntry) (s : skyhookNodes) : skyhookNodes :=
  set_sns_nodes (sns_nodes s ++ [e]) s.

Definition AddCompartmentNode (name nodeName : string) (s : skyhookNodes) : res skyhookNodes :=
  match sns_compartments s !! name with
  | Some c => Ok (set_sns_compartments (<[name := AddNode (NV := state_view s) nodeName c]> (sns_compartments s)) s)
  | None => Err (errorf "compartment %q not found for nodewright %q - missing deployment policy" [name; sns_Name s])
  end.

(** The batch state saved for a compartment in the resource's status. *)
Definition saved_batch (nw : NodeWright) (name : string) : option BatchProcessingState :=
  match CompartmentStatuses (nw_Status nw) !! name with Some cs => cs_BatchState cs | None => None end.

(* ------------------------------------------------------------------ *)
(** ** Assigning a node *)

Record compartmentMatch := { cm_name : string; cm_strategyType : StrategyType; cm_capacity : Z }.

Definition labels_of (e : NodeEntry) : gmap string string := n_Labels (sn_Node (ne_Only e)).

Definition countMatchingNodes (s : skyhookNodes) (selector : LabelSelector) : res Z :=
  rbind (LabelSelectorAsSelector selector) (fun matches =>
  Ok (count (fun e => matches (labels_of e)) (sns_nodes s))).

(** One iteration of the loop over the compartments. *)
Definition compartment_match (s : skyhookNodes) (e : NodeEntry) (c : Compartment) : res (option compartmentMatch) :=
  if bool_decide (c_Name c = DefaultCompartmentName) then Ok None
  else
    rbind (rwrap "invalid selector for compartment %s: %w" [c_Name c] (LabelSelectorAsSelector (c_Selector c)))
      (fun matches =>
    if matches (labels_of e) then
      rbind (rwrap "error counting matching nodes for compartment %s: %w" [c_Name c]
               (countMatchingNodes s (c_Selector c))) (fun matchedCount =>
      let matchedCount := if matchedCount =? 0 then 1 else matchedCount in
      Ok (Some {| cm_name := c_Name c; cm_strategyType := GetStrategyType (c_Strategy c);
                  cm_capacity := CalculateCeiling (c_Budget c) matchedCount |}))
    else Ok None).

(** Safer strategy, then smaller capacity, then name. *)
Definition match_le (a b : compartmentMatch) : Prop :=
  let sa := strategySafetyOrder (cm_strategyType a) in
  let sb := strategySafetyOrder (cm_strategyType b) in
  sa < sb \/ (sa = sb /\ (cm_capacity a < cm_capacity b \/
    (cm_capacity a = cm_capacity b /\ str_le (cm_name a) (cm_name b)))).
#[export] Instance match_le_dec a b : Decision (match_le a b).
Proof. unfold match_le. apply _. Defined.

Definition collect_matches (s : skyhookNodes) (e : NodeEntry) : res (list compartmentMatch) :=
  rfold (fun acc kc => rbind (compartment_match s e (comp_Policy (snd kc))) (fun m =>
           Ok (acc ++ match m with Some m => [m] | None => [] end)))
    [] (range (sns_compartments s)).

Definition AssignNodeToCompartment (s : skyhookNodes) (e : NodeEntry) : res string :=
  rbind (collect_matches s e) (fun matches =>
  match merge_sort match_le matches with
  | [] => Ok DefaultCompartmentName
  | m :: _ => Ok (cm_name m)
  end).

Definition assign_and_add (s : skyhookNodes) (e : NodeEntry) : res skyhookNodes :=
  rbind (rwrap "error assigning node %s: %w" [entry_name e] (AssignNodeToCompartment s e)) (fun name =>
  rwrap "error adding node %s to compartment %s: %w" [entry_name e; name] (AddCompartmentNode name (entry_name e) s)).

(** The body of the loop of [partitionNodesIntoCompartments]. *)
Definition partition_resource (s : skyhookNodes) : res skyhookNodes :=
  if bool_decide (sp_DeploymentPolicy (sns_Spec s) = "") then Ok s
  else if bool_decide (sns_compartments s = ∅) then Ok s
  else rfold assign_and_add
         (set_sns_compartments (ClearNodes <$> sns_compartments s) s) (sns_nodes s).

Fixpoint partitionNodesIntoCompartments (rs : list skyhookNodes) : res (list skyhookNodes) :=
  match rs with
  | [] => Ok []
  | s :: rs =>
      rbind (partition_resource s) (fun s =>
      rbind (partitionNodesIntoCompartments rs) (fun rs => Ok (s :: rs)))
  end.

(* ------------------------------------------------------------------ *)
(** ** [BuildState] *)

Definition add_policy_compartment (nw : NodeWright) (s : skyhookNodes) (c : Compartment) : skyhookNodes :=
  AddCompartment (c_Name c) (NewCompartmentWrapper c (saved_batch nw (c_Name c))) s.

Definition default_of_policy (p : DeploymentPolicy) : Compartment :=
  {| c_Name := DefaultCompartmentName; c_Selector := no_selector;
     c_Budget := pd_Budget (dp_Default p); c_Strategy := pd_Strategy (dp_Default p) |}.

(** [fmt.Sprintf("DeploymentPolicy %q not found", name)]; a policy name is a DNS
    name, which [%q] only puts in quotes. *)
Definition quoted (s : string) : string := String "034" (s +:+ String "034" "").

Definition initializeCompartmentsFromPolicy (now : Z) (nw : NodeWright) (policies : list DeploymentPolicy)
    (s : skyhookNodes) : skyhookNodes :=
  match List.find (fun p => bool_decide (dp_Name p = sp_DeploymentPolicy (Spec nw))) policies with
  | Some p =>
      let s := foldl (add_policy_compartment nw) (set_sns_deploymentPolicy (Some p) s) (dp_Compartments p) in
      let s := add_policy_compartment nw s (default_of_policy p) in
      remove_conditions_of [SkyhookConditionDeploymentPolicyNotFound;
                            LegacySkyhookConditionType SkyhookConditionDeploymentPolicyNotFound] s
  | None =>
      add_condition_legacy now
        (condition now s SkyhookConditionDeploymentPolicyNotFound ConditionTrue "DeploymentPolicyNotFound"
           ("DeploymentPolicy " +:+ quoted (sp_DeploymentPolicy (Spec nw)) +:+ " not found")) s
  end.

(** One iteration of the loop over the nodes.  The wrapper is made, and its
    graph built, before the selector is asked. *)
Definition add_matching_node (nw : NodeWright) (s : skyhookNodes) (node : Node) : res skyhookNodes :=
  rbind (NewSkyhookNode node nw) (fun skyNode =>
  rbind (LabelSelectorAsSelector (NodeSelector (Spec nw))) (fun matches =>
  Ok (if matches (n_Labels node) then sns_AddNode (entry_of_node skyNode) s else s))).

Definition build_legacy (nw : NodeWright) (s : skyhookNodes) : res skyhookNodes :=
  let c := createLegacyDefaultCompartment (Spec nw) (sns_NodeCount s) in
  let s := AddCompartment DefaultCompartmentName
             (NewCompartmentWrapper c (saved_batch nw DefaultCompartmentName)) s in
  rfold (fun s e => rwrap "error adding node to default compartment: %w" []
           (AddCompartmentNode DefaultCompartmentName (entry_name e) s)) s (sns_nodes s).

Definition build_resource (now : Z) (nodes : list Node) (policies : list DeploymentPolicy) (nw : NodeWright)
  : res skyhookNodes :=
  let s := {| sns_skyhook := NewSkyhookWrapper nw; sns_nodes := []; sns_priorStatus := StatusEmpty;
              sns_compartments := ∅; sns_deploymentPolicy := None |} in
  rbind (rfold (add_matching_node nw) s nodes) (fun s =>
  if bool_decide (sp_DeploymentPolicy (Spec nw) = "") then build_legacy nw s
  else Ok (initializeCompartmentsFromPolicy now nw policies s)).

Fixpoint build_resources (now : Z) (nodes : list Node) (policies : list DeploymentPolicy) (nws : list NodeWright)
  : res (list skyhookNodes) :=
  match nws with
  | [] => Ok []
  | nw :: nws =>
      rbind (build_resource now nodes policies nw) (fun s =>
      rbind (build_resources now nodes policies nws) (fun rs => Ok (s :: rs)))
  end.

Definition sort_nodes (s : skyhookNodes) : skyhookNodes :=
  set_sns_nodes (merge_sort entry_created_le (sns_nodes s)) s.

Definition BuildState (now : Z) (nws : list NodeWright) (nodes : list Node) (policies : list DeploymentPolicy)
  : res (list skyhookNodes) :=
  rbind (build_resources now nodes policies nws) (fun rs =>
  rwrap "partitioning nodes into compartments: %w" []
    (partitionNodesIntoCompartments (map sort_nodes (merge_sort skyhook_le rs)))).

(* ------------------------------------------------------------------ *)
(** ** Nodes to taint automatically *)

Definition annotationTrueValue : string := "true".

(** [Taint.MatchTaint] and [taints.TaintExists] *)
Definition MatchTaint (t taintToMatch : Taint) : bool :=
  bool_decide (taint_Key t = taint_Key taintToMatch) && bool_decide (taint_Effect t = taint_Effect taintToMatch).
Definition TaintExists (taints : list Taint) (taintToFind : Taint) : bool :=
  any (fun t => MatchTaint t taintToFind) taints.

Definition hasAnyTaint (node : Node) (recognised : list Taint) : bool :=
  any (TaintExists (n_Taints node)) recognised.

Definition auto_taint_node (recognised : list Taint) (acc : gset string * list Node) (e : NodeEntry)
  : gset string * list Node :=
  let node := sn_Node (ne_Only e) in
  if bool_decide (n_UID node ∈ acc.1) then acc
  else
    let seen := {[n_UID node]} ∪ acc.1 in
    if hasAnyTaint node recognised then (seen, acc.2)
    else if HasSkyhookAnnotations (ne_Only e) then (seen, acc.2)
    else (seen, acc.2 ++ [node]).

Definition getAutoTaintNodes (rs : list skyhookNodes) (recognised : list Taint) : list Node :=
  (foldl (fun acc s =>
     if negb (RuntimeRequired (sns_Spec s)) || negb (AutoTaintNewNodes (sns_Spec s)) then acc
     else foldl (auto_taint_node recognised) acc (sns_nodes s)) (∅, []) rs).2.
End Partition.

(* ------------------------------------------------------------------ *)
(** ** Lemmas: assignment *)

#[export] Instance match_le_total : Total match_le.
Proof.
  intros a b. unfold match_le.
  destruct (Z.lt_trichotomy (strategySafetyOrder (cm_strategyType a)) (strategySafetyOrder (cm_strategyType b)))
    as [?|[Hs|?]]; [by left; left| |by right; left].
  destruct (Z.lt_trichotomy (cm_capacity a) (cm_capacity b)) as [?|[Hc|?]]; [left; right; auto| |right; right; auto].
  destruct (str_le_total (cm_name a) (cm_name b)); [left|right]; right; auto 6.
Qed.
#[export] Instance match_le_trans : Transitive match_le.
Proof.
  intros a b c. unfold match_le. intros [H1|[H1 [H2|[H2 H3]]]] [H4|[H4 [H5|[H5 H6]]]]; try lia.
  right. split; [lia|]. right. split; [lia|]. by etrans.
Qed.

Lemma strategySafetyOrder_inj a b : strategySafetyOrder a = strategySafetyOrder b -> a = b.
Proof. by destruct a, b. Qed.

#[export] Instance match_le_antisymm : AntiSymm eq match_le.
Proof.
  intros [na sa ca] [nb sb cb]. unfold match_le. simpl.
  intros [H1|[H1 [H2|[H2 H3]]]] [H4|[H4 [H5|[H5 H6]]]]; try lia.
  apply strategySafetyOrder_inj in H1. subst. f_equal. by apply (anti_symm str_le).
Qed.

Section Assign.
Context `{MR : MapRange} `{JS : NodeStateJSON} `{TT : TimeText} `{Sel : Selectors}.
Implicit Types (s : skyhookNodes) (e : NodeEntry).

(** The compartments' policies: all an assignment reads of the compartments. *)
Definition policies_of s : gmap string Compartment := comp_Policy <$> sns_compartments s.

Definition policies_match s e (ms : list compartmentMatch) : Prop :=
  (forall k c, policies_of s !! k = Some c -> exists m, compartment_match s e c = Ok m) /\
  forall m, m ∈ ms <-> exists k c, policies_of s !! k = Some c /\ compartment_match s e c = Ok (Some m).

Lemma collect_matches_aux s e l acc ms :
  rfold (fun acc kc => rbind (compartment_match s e (comp_Policy (snd kc))) (fun m =>
           Ok (acc ++ match m with Some m => [m] | None => [] end))) acc l = Ok ms <->
  (forall kc, kc ∈ l -> exists m, compartment_match s e (comp_Policy (snd kc)) = Ok m) /\
  ms = acc ++ omap (fun kc : string * CompartmentW string =>
         match compartment_match s e (comp_Policy (snd kc)) with Ok m => m | _ => None end) l.
Proof.
  revert acc; induction l as [|kc l IH]; intros acc; simpl.
  { rewrite app_nil_r. split; [intros [= ->]; split; [by intros ? ?%elem_of_nil|done]|by intros [_ ->]]. }
  setoid_rewrite elem_of_cons.
  destruct (compartment_match s e (comp_Policy kc.2)) as [m| |] eqn:E; simpl.
  - rewrite IH, <- app_assoc. split; intros [H ->].
    + split; [intros kc' [->|?]; [by exists m|auto]|]. by destruct m.
    + split; [auto|]. by destruct m.
  - split; [done|]. intros [H _]. destruct (H kc (or_introl eq_refl)) as [m Hm]. congruence.
  - split; [done|]. intros [H _]. destruct (H kc (or_introl eq_refl)) as [m Hm]. congruence.
Qed.

Lemma collect_matches_spec s e ms : collect_matches s e = Ok ms -> policies_match s e ms.
Proof.
  unfold collect_matches. intros [Hok ->]%collect_matches_aux. split.
  - intros k c. unfold policies_of. rewrite lookup_fmap. intros (cw & Hcw & ->)%fmap_Some.
    apply (Hok (k, cw)). by apply elem_of_range.
  - intros m. simpl. rewrite list_elem_of_omap. split.
    + intros ([k cw] & Hin & Hm). apply elem_of_range in Hin. simpl in Hm.
      exists k, (comp_Policy cw). unfold policies_of. rewrite lookup_fmap, Hin. split; [done|].
      by destruct (compartment_match s e (comp_Policy cw)); simplify_eq.
    + intros (k & c & Hc & Hm). unfold policies_of in Hc. rewrite lookup_fmap in Hc.
      apply fmap_Some in Hc as (cw & Hcw & ->). exists (k, cw). simpl. rewrite elem_of_range, Hm. done.
Qed.

(** The safest compartment for a node. *)
Definition safest s e (name : string) : Prop :=
  (name = DefaultCompartmentName /\
   forall k c, policies_of s !! k = Some c -> compartment_match s e c = Ok None) \/
  exists k c m, policies_of s !! k = Some c /\ compartment_match s e c = Ok (Some m) /\ name = cm_name m /\
    forall k' c' m', policies_of s !! k' = Some c' -> compartment_match s e c' = Ok (Some m') -> match_le m m'.

Lemma assign_safest s e name : AssignNodeToCompartment s e = Ok name -> safest s e name.
Proof.
  unfold AssignNodeToCompartment. intros (ms & Hms & H)%rbind_ok. apply collect_matches_spec in Hms as [Hok Hms].
  pose proof (merge_sort_Permutation match_le ms) as Hp.
  pose proof (StronglySorted_merge_sort match_le ms) as Hs.
  destruct (merge_sort match_le ms) as [|m rest]; injection H as <-.
  - left. split; [done|]. intros k c Hc. destruct (Hok k c Hc) as [[m|] Hm]; [|done].
    assert (m ∈ ms) as Hin by (apply Hms; eauto). rewrite <- Hp in Hin. by apply elem_of_nil in Hin.
  - right. assert (m ∈ ms) as (k & c & Hc & Hm)%Hms by (rewrite <- Hp; by left).
    exists k, c, m. split_and!; [done..|]. intros k' c' m' Hc' Hm'.
    assert (m' ∈ ms) as Hin by (apply Hms; eauto).
    rewrite <- Hp in Hin. apply elem_of_cons in Hin as [->|Hin]; [by destruct (match_le_total m m)|].
    apply StronglySorted_inv in Hs as [_ Hall]. by eapply Forall_forall in Hall.
Qed.

Lemma safest_unique s e n1 n2 : safest s e n1 -> safest s e n2 -> n1 = n2.
Proof.
  intros [[-> H1]|(k1 & c1 & m1 & Hc1 & Hm1 & -> & Hmin1)] [[-> H2]|(k2 & c2 & m2 & Hc2 & Hm2 & -> & Hmin2)].
  - done.
  - specialize (H1 k2 c2 Hc2). congruence.
  - specialize (H2 k1 c1 Hc1). congruence.
  - f_equal. apply (anti_symm match_le); eauto.
Qed.

(** An assignment does not depend on the nodes already in the compartments. *)
Lemma safest_ext s s' e name : policies_of s = policies_of s' -> sns_nodes s = sns_nodes s' ->
  safest s e name <-> safest s' e name.
Proof.
  intros Hp Hn. assert (forall c, compartment_match s e c = compartment_match s' e c) as Hc.
  { intros c. unfold compartment_match, countMatchingNodes. by rewrite Hn. }
  unfold safest. rewrite Hp. by setoid_rewrite Hc.
Qed.
End Assign.

(* ------------------------------------------------------------------ *)
(** ** Lemmas: filling the compartments *)

Section Fill.
Context `{MR : MapRange} `{JS : NodeStateJSON} `{TT : TimeText} `{Sel : Selectors}.
Implicit Types (s : skyhookNodes) (e : NodeEntry) (R : NodeEntry -> string -> Prop).

Definition holds s (k n : string) : Prop := exists c, sns_compartments s !! k = Some c /\ n ∈ comp_Nodes c.
Definition nodup_compartments s : Prop := forall k c, sns_compartments s !! k = Some c -> NoDup (comp_Nodes c).

(** [s1] differs from [s] by what its compartments hold: the nodes of [l], each
    in the compartments [R] names. *)
Definition filled R (l : list NodeEntry) s s1 : Prop :=
  policies_of s1 = policies_of s /\ sns_nodes s1 = sns_nodes s /\ sns_skyhook s1 = sns_skyhook s /\
  nodup_compartments s1 /\ forall k n, holds s1 k n <-> exists e, e ∈ l /\ entry_name e = n /\ R e k.

Lemma AddNode_elem `{NV : NodeView string} n (c : CompartmentW string) n' : (forall x, nv_Name x = x) ->
  n' ∈ comp_Nodes (AddNode n c) <-> n' ∈ comp_Nodes c \/ n' = n.
Proof.
  intros Hid. unfold AddNode. destruct (any _ _) eqn:E; simpl.
  - apply any_true in E as (x & Hx & E). bool_simpl. rewrite !Hid in E. subst x. naive_solver.
  - rewrite elem_of_app, list_elem_of_singleton. done.
Qed.

Lemma AddNode_NoDup `{NV : NodeView string} n (c : CompartmentW string) : (forall x, nv_Name x = x) ->
  NoDup (comp_Nodes c) -> NoDup (comp_Nodes (AddNode n c)).
Proof.
  intros Hid Hn. unfold AddNode. destruct (any _ _) eqn:E; simpl; [done|].
  apply NoDup_app. split_and!; [done| |apply NoDup_singleton].
  intros x Hx ->%list_elem_of_singleton. rewrite any_false in E. specialize (E n Hx). bool_simpl. done.
Qed.

Lemma AddNode_policy `{NV : NodeView string} n (c : CompartmentW string) : comp_Policy (AddNode n c) = comp_Policy c.
Proof. unfold AddNode. by case_if. Qed.

Lemma AddCompartmentNode_filled R l e name s s1 :
  filled R l s s1 -> (forall k, R e k <-> k = name) -> is_Some (policies_of s !! name) ->
  exists s2, AddCompartmentNode name (entry_name e) s1 = Ok s2 /\ filled R (l ++ [e]) s s2.
Proof.
  intros (Hpol & Hnodes & Hsk & Hnd & Hold) HR [c Hc].
  rewrite <- Hpol in Hc. unfold policies_of in Hc. rewrite lookup_fmap in Hc.
  apply fmap_Some in Hc as (cw & Hcw & ->). unfold AddCompartmentNode. rewrite Hcw. eexists. split; [done|].
  split_and!; [|done|done| |].
  - rewrite <- Hpol. unfold policies_of. simpl. rewrite fmap_insert, AddNode_policy.
    apply insert_id. by rewrite lookup_fmap, Hcw.
  - intros k c. simpl. rewrite lookup_insert_Some. intros [[<- <-]|[_ Hk]]; [|by eapply Hnd].
    apply AddNode_NoDup; [done|]. by eapply Hnd.
  - intros k n. setoid_rewrite elem_of_app. setoid_rewrite list_elem_of_singleton.
    assert (holds (set_sns_compartments (<[name := AddNode (NV := state_view s1) (entry_name e) cw]>
              (sns_compartments s1)) s1) k n <-> holds s1 k n \/ (k = name /\ n = entry_name e)) as ->.
    { unfold holds. simpl. setoid_rewrite lookup_insert_Some. split.
      - intros (c & [[<- <-]|[Hne Hk]] & Hin); [|eauto].
        apply AddNode_elem in Hin as [Hin|Hin]; [eauto|auto|done].
      - intros [(c & Hk & Hin)|[-> ->]].
        + destruct (decide (name = k)) as [<-|Hne]; [|eauto].
          eexists. split; [by left|]. apply AddNode_elem; [done|]. left. naive_solver.
        + eexists. split; [by left|]. apply AddNode_elem; [done|]. by right. }
    rewrite Hold. split.
    + intros [(e' & He & Hn & Hk)|[-> ->]]; [by eauto 6|]. exists e. split_and!; [auto|done|by apply HR].
    + intros (e' & [He| ->] & Hn & Hk); [by eauto|]. apply HR in Hk. auto.
Qed.

(** Filling from empty compartments places every node once. *)
Lemma fill R (step : skyhookNodes -> NodeEntry -> res skyhookNodes) s l :
  (forall e, e ∈ l -> exists name, (forall k, R e k <-> k = name) /\ is_Some (policies_of s !! name) /\
     forall done s1, filled R done s s1 -> exists fmt args, step s1 e = rwrap fmt args (AddCompartmentNode name (entry_name e) s1)) ->
  forall done s1, filled R done s s1 -> exists s2, rfold step s1 l = Ok s2 /\ filled R (done ++ l) s s2.
Proof.
  induction l as [|e l IH]; intros H done s1 Hs1; simpl.
  { exists s1. by rewrite app_nil_r. }
  destruct (H e) as (name & HR & Hin & Hstep); [by left|].
  destruct (AddCompartmentNode_filled R done e name s s1 Hs1 HR Hin) as (s2 & H2 & Hf).
  destruct (Hstep done s1 Hs1) as (fmt & args & ->). rewrite H2. simpl.
  destruct (IH (fun e' He => H e' (proj2 (elem_of_cons _ _ _) (or_intror He))) (done ++ [e]) s2 Hf) as (s3 & H3 & Hf3).
  exists s3. rewrite H3. split; [done|]. by rewrite <- app_assoc in Hf3.
Qed.

(** Every node of the resource is in exactly one compartment, named by [R], and
    the compartments hold nothing else and nothing twice. *)
Definition partitioned R s : Prop :=
  nodup_compartments s /\
  (forall k n, holds s k n -> n ∈ node_names s) /\
  forall e, e ∈ sns_nodes s -> exists name, R e name /\ forall k, holds s k (entry_name e) <-> k = name.

Lemma filled_partitioned R s s1 :
  NoDup (node_names s) -> (forall e, e ∈ sns_nodes s -> exists name, forall k, R e k <-> k = name) ->
  filled R (sns_nodes s) s s1 -> partitioned R s1.
Proof.
  intros Hnd HR (_ & Hnodes & _ & Hndc & Hh). split_and!; [done| |].
  - intros k n (e & He & <- & _)%Hh. unfold node_names. rewrite Hnodes. by apply list_elem_of_fmap_2.
  - rewrite Hnodes. intros e He. destruct (HR e He) as [name Hname]. exists name. split; [by apply Hname|].
    intros k. rewrite Hh, <- Hname. split; [|eauto].
    intros (e' & He' & Hn & Hk).
    assert (e' = e) as ->; [|done].
    apply list_elem_of_lookup in He as [i Hi]. apply list_elem_of_lookup in He' as [j Hj].
    assert (i = j) as ->.
    { eapply NoDup_lookup; [exact Hnd| |].
      - unfold node_names. by rewrite list_lookup_fmap, Hi.
      - unfold node_names. rewrite list_lookup_fmap, Hj. simpl. by rewrite Hn. }
    congruence.
Qed.
End Fill.

(* ------------------------------------------------------------------ *)
(** ** Lemmas: building *)

Section Build.
Context `{MR : MapRange} `{JS : NodeStateJSON} `{TT : TimeText} `{Sel : Selectors}.
Implicit Types (s : skyhookNodes) (e : NodeEntry) (nw : NodeWright).

(** What the compartments of a found policy satisfy. *)
Definition policy_ok s : Prop :=
  (forall k c, policies_of s !! k = Some c -> c_Name c = k /\
     (k <> DefaultCompartmentName -> exists m, LabelSelectorAsSelector (c_Selector c) = Ok m)) /\
  is_Some (policies_of s !! DefaultCompartmentName).

Lemma compartment_match_total s e c :
  (c_Name c <> DefaultCompartmentName -> exists m, LabelSelectorAsSelector (c_Selector c) = Ok m) ->
  exists r, compartment_match s e c = Ok r /\ forall r', r = Some r' -> cm_name r' = c_Name c.
Proof.
  intros Hm. unfold compartment_match, countMatchingNodes.
  case_bool_decide as Hd; [by exists None|]. destruct (Hm Hd) as [m ->]. simpl. destruct (m (labels_of e)); eexists; (split; [done|]); by intros ? [= <-].
Qed.

Lemma assign_total s e : policy_ok s ->
  exists name, AssignNodeToCompartment s e = Ok name /\ is_Some (policies_of s !! name).
Proof.
  intros [Hk Hd]. unfold AssignNodeToCompartment.
  destruct (collect_matches s e) as [ms| |] eqn:E.
  - simpl. apply collect_matches_spec in E as [_ Hms].
    pose proof (merge_sort_Permutation match_le ms) as Hp.
    destruct (merge_sort match_le ms) as [|m rest]; [by eauto|].
    assert (m ∈ ms) as (k & c & Hc & Hm)%Hms by (rewrite <- Hp; by left).
    destruct (Hk k c Hc) as [<- Hf]. destruct (compartment_match_total s e c Hf) as (r & Hr & Hname).
    assert (r = Some m) as -> by congruence. exists (cm_name m). split; [done|]. rewrite (Hname m eq_refl). eauto.
  - exfalso. assert (exists ms, collect_matches s e = Ok ms) as [? ?]; [|congruence].
    eexists. apply collect_matches_aux. split; [|done]. intros [k cw] Hin. apply elem_of_range in Hin.
    destruct (Hk k (comp_Policy cw)) as [<- Hf]; [unfold policies_of; by rewrite lookup_fmap, Hin|].
    destruct (compartment_match_total s e _ Hf) as (r & Hr & _). eauto.
  - exfalso. assert (exists ms, collect_matches s e = Ok ms) as [? ?]; [|congruence].
    eexists. apply collect_matches_aux. split; [|done]. intros [k cw] Hin. apply elem_of_range in Hin.
    destruct (Hk k (comp_Policy cw)) as [<- Hf]; [unfold policies_of; by rewrite lookup_fmap, Hin|].
    destruct (compartment_match_total s e _ Hf) as (r & Hr & _). eauto.
Qed.

Lemma policy_ok_ext s s' : policies_of s = policies_of s' -> policy_ok s -> policy_ok s'.
Proof. unfold policy_ok. by intros ->. Qed.

Lemma safest_default_iff s e : policy_ok s -> exists name, forall k, safest s e k <-> k = name.
Proof using MR Sel.
  intros Hok. destruct (assign_total s e Hok) as (name & Ha & _). apply assign_safest in Ha.
  exists name. intros k. split; [intros Hk; by eapply safest_unique|by intros ->].
Qed.

Definition empty_compartments s : Prop := forall k c, sns_compartments s !! k = Some c -> comp_Nodes c = [].

Lemma filled_nil R s : empty_compartments s -> filled R [] s s.
Proof.
  intros H. split_and!; [done..| |].
  - intros k c Hc. rewrite (H k c Hc). constructor.
  - intros k n. split.
    + intros (c & Hc & Hin). rewrite (H k c Hc) in Hin. by apply elem_of_nil in Hin.
    + by intros (e & He%elem_of_nil & _).
Qed.

Lemma partition_resource_policy s :
  NoDup (node_names s) -> sp_DeploymentPolicy (sns_Spec s) <> "" -> policy_ok s ->
  exists s', partition_resource s = Ok s' /\ partitioned (safest s') s' /\ sns_nodes s' = sns_nodes s /\
    sns_skyhook s' = sns_skyhook s.
Proof.
  intros Hnd Hdp Hok. unfold partition_resource. rewrite bool_decide_eq_false_2 by done.
  rewrite bool_decide_eq_false_2.
  2: { destruct Hok as [_ [c Hc]]. intros He. unfold policies_of in Hc. by rewrite He, fmap_empty, lookup_empty in Hc. }
  set (s0 := set_sns_compartments _ s).
  assert (policies_of s0 = policies_of s) as Hp0.
  { unfold policies_of, s0. simpl. rewrite <- map_fmap_compose. by apply map_fmap_ext. }
  assert (policy_ok s0) as Hok0 by (by eapply policy_ok_ext).
  destruct (fill (safest s0) assign_and_add s0 (sns_nodes s)) with (done := @nil NodeEntry) (s1 := s0)
    as (s' & Hs' & Hf).
  - intros e He. destruct (assign_total s0 e Hok0) as (name & Ha & Hin). exists name. split_and!.
    + destruct (safest_default_iff s0 e Hok0) as [name' Hn'].
      rewrite (proj1 (Hn' name) (assign_safest _ _ _ Ha)). exact Hn'.
    + done.
    + intros l s1 (Hp & Hn & _). destruct (assign_total s1 e) as (name1 & Ha1 & _);
        [by eapply policy_ok_ext|]. unfold assign_and_add. rewrite Ha1. simpl.
      assert (name1 = name) as ->; [|eauto]. apply assign_safest in Ha, Ha1.
      eapply safest_unique; [|exact Ha]. by apply (safest_ext s1 s0).
  - apply filled_nil. intros k c. unfold s0. simpl. rewrite lookup_fmap. by intros (c' & _ & ->)%fmap_Some.
  - exists s'. split; [done|]. simpl in Hf. destruct Hf as (Hp & Hn & Hsk & Hf).
    split_and!; [|done..].
    assert (partitioned (safest s0) s') as (P1 & P2 & P3).
    { apply (filled_partitioned _ s0); [exact Hnd| |exact (conj Hp (conj Hn (conj Hsk Hf)))]. intros e _. by apply safest_default_iff. }
    split_and!; [done..|]. intros e He. destruct (P3 e He) as (name & Hs & Hh). exists name. split; [|done].
    by apply (safest_ext s' s0).
Qed.

(** [build_resource] *)
Definition entry_for nw (g : dag Package) (node : Node) : NodeEntry :=
  {| ne_Only := NewSkyhookNodeOnly node (nw_Name nw); ne_Updated := false; ne_graph := g |}.

Lemma add_matching_nodes nw g matches s l :
  BuildGraph (Spec nw) = Ok g -> LabelSelectorAsSelector (NodeSelector (Spec nw)) = Ok matches ->
  rfold (add_matching_node nw) s l =
  Ok (set_sns_nodes (sns_nodes s ++ map (entry_for nw g) (List.filter (fun n => matches (n_Labels n)) l)) s).
Proof.
  intros Hg Hm. revert s; induction l as [|node l IH]; intros s; simpl.
  { rewrite app_nil_r. by destruct s. }
  unfold add_matching_node at 1, NewSkyhookNode, Convert. rewrite Hg. simpl. rewrite Hm. simpl.
  destruct (matches (n_Labels node)); simpl; rewrite IH; [|done].
  unfold sns_AddNode, set_sns_nodes. simpl. by rewrite <- app_assoc.
Qed.

Lemma build_legacy_partitioned nw s :
  NoDup (node_names s) -> sns_compartments s = ∅ ->
  exists s', build_legacy nw s = Ok s' /\ partitioned (fun _ k => k = DefaultCompartmentName) s' /\
    sns_nodes s' = sns_nodes s /\ sns_skyhook s' = sns_skyhook s.
Proof.
  intros Hnd He. unfold build_legacy. set (s0 := AddCompartment _ _ s).
  destruct (fill (fun _ k => k = DefaultCompartmentName) (fun s e => rwrap "error adding node to default compartment: %w" []
       (AddCompartmentNode DefaultCompartmentName (entry_name e) s)) s0 (sns_nodes s)) with (done := @nil NodeEntry) (s1 := s0)
    as (s' & Hs' & Hf).
  - intros e _. exists DefaultCompartmentName. split_and!; [done| |by eauto].
    unfold policies_of, s0. simpl. rewrite lookup_fmap, lookup_insert_eq. by eexists.
  - apply filled_nil. intros k c. unfold s0. simpl. rewrite lookup_insert_Some, He.
    intros [[_ <-]|[_ H]]; [done|by rewrite lookup_empty in H].
  - exists s'. split; [done|]. destruct Hf as (Hp & Hn & Hsk & Hf). split_and!; [|done..].
    apply (filled_partitioned _ s0); [|intros; by exists DefaultCompartmentName|exact (conj Hp (conj Hn (conj Hsk Hf)))]. done.
Qed.

(** Conditions do not touch what a resource is built from. *)
Definition same_spec (a b : Skyhook) : Prop := sk_Spec a = sk_Spec b /\ nw_Name (sk_nw a) = nw_Name (sk_nw b).

Lemma addSkyhookCondition_spec a c : same_spec (addSkyhookCondition a c).1 a.
Proof. unfold addSkyhookCondition. destruct (addOrUpdateSkyhookCondition _ _) as [cs []]; done. Qed.

Lemma add_condition_legacy_spec now c s : same_spec (sns_skyhook (add_condition_legacy now c s)) (sns_skyhook s).
Proof.
  unfold add_condition_legacy, on_skyhook, AddSkyhookConditionWithLegacy, AddSkyhookCondition. simpl.
  destruct (addSkyhookCondition (sns_skyhook s) _) as [a b] eqn:E.
  pose proof (addSkyhookCondition_spec (sns_skyhook s) (conditionWithStableTransitionTime now (Conditions (sk_Status (sns_skyhook s))) c)) as H1.
  rewrite E in H1. simpl in H1. case_if; [done|].
  destruct (addSkyhookCondition a _) as [a' b'] eqn:E'.
  pose proof (addSkyhookCondition_spec a (conditionWithStableTransitionTime now (Conditions (sk_Status a))
    (set_cond_Type (LegacySkyhookConditionType (cond_Type c)) c))) as H2.
  rewrite E' in H2. simpl in *. destruct H1, H2. split; congruence.
Qed.

Lemma remove_conditions_spec types s : same_spec (sns_skyhook (remove_conditions_of types s)) (sns_skyhook s).
Proof. unfold remove_conditions_of, on_skyhook, RemoveSkyhookConditionTypes. simpl. by case_if. Qed.

Lemma add_policy_compartment_ok nw s c :
  (forall k c', policies_of s !! k = Some c' -> c_Name c' = k /\
     (k <> DefaultCompartmentName -> exists m, LabelSelectorAsSelector (c_Selector c') = Ok m)) ->
  (c_Name c <> DefaultCompartmentName -> exists m, LabelSelectorAsSelector (c_Selector c) = Ok m) ->
  forall k c', policies_of (add_policy_compartment nw s c) !! k = Some c' -> c_Name c' = k /\
     (k <> DefaultCompartmentName -> exists m, LabelSelectorAsSelector (c_Selector c') = Ok m).
Proof.
  intros H Hc k c'. unfold policies_of, add_policy_compartment, AddCompartment. simpl. rewrite fmap_insert. simpl.
  rewrite lookup_insert_Some. intros [[<- <-]|[_ Hk]]; [done|by apply H].
Qed.

Lemma initializeCompartments_spec now nw policies s p :
  sns_compartments s = ∅ ->
  List.find (fun p => bool_decide (dp_Name p = sp_DeploymentPolicy (Spec nw))) policies = Some p ->
  (forall c, c ∈ dp_Compartments p -> exists m, LabelSelectorAsSelector (c_Selector c) = Ok m) ->
  let s' := initializeCompartmentsFromPolicy now nw policies s in
  policy_ok s' /\ sns_nodes s' = sns_nodes s /\ same_spec (sns_skyhook s') (sns_skyhook s).
Proof.
  intros He Hp Hsel. unfold initializeCompartmentsFromPolicy. rewrite Hp. cbv zeta.
  set (s0 := set_sns_deploymentPolicy (Some p) s).
  assert (forall l s1, (forall c, c ∈ l -> exists m, LabelSelectorAsSelector (c_Selector c) = Ok m) ->
    (forall k c', policies_of s1 !! k = Some c' -> c_Name c' = k /\
       (k <> DefaultCompartmentName -> exists m, LabelSelectorAsSelector (c_Selector c') = Ok m)) ->
    let s2 := foldl (add_policy_compartment nw) s1 l in
    (forall k c', policies_of s2 !! k = Some c' -> c_Name c' = k /\
       (k <> DefaultCompartmentName -> exists m, LabelSelectorAsSelector (c_Selector c') = Ok m)) /\
    sns_nodes s2 = sns_nodes s1 /\ sns_skyhook s2 = sns_skyhook s1) as Hfold.
  { induction l as [|c l IH]; intros s1 Hl Hs1; simpl; [done|].
    destruct (IH (add_policy_compartment nw s1 c)) as (H1 & H2 & H3); [| |done].
    - intros c' Hc'. apply Hl. by right.
    - apply add_policy_compartment_ok; [done|]. intros _. apply Hl. by left. }
  destruct (Hfold (dp_Compartments p) s0 Hsel) as (H1 & H2 & H3).
  { intros k c'. unfold policies_of, s0. simpl. by rewrite He, fmap_empty, lookup_empty. }
  split_and!.
  - split; [apply add_policy_compartment_ok; [exact H1|done]|].
    unfold policies_of, add_policy_compartment, AddCompartment. simpl. rewrite lookup_fmap, lookup_insert_eq.
    by eexists.
  - done.
  - destruct (remove_conditions_spec [SkyhookConditionDeploymentPolicyNotFound;
                            LegacySkyhookConditionType SkyhookConditionDeploymentPolicyNotFound]
      (add_policy_compartment nw (foldl (add_policy_compartment nw) s0 (dp_Compartments p)) (default_of_policy p)))
      as [Ha Hb].
    split; [rewrite Ha|rewrite Hb]; simpl; by rewrite H3.
Qed.
End Build.

#[export] Instance skyhook_le_total : Total skyhook_le.
Proof.
  intros a b. unfold skyhook_le.
  destruct (Z.lt_trichotomy (Priority (sns_Spec a)) (Priority (sns_Spec b))) as [?|[Hs|?]]; [by left; left| |by right; left].
  destruct (str_le_total (sns_Name a) (sns_Name b)); [left|right]; right; auto.
Qed.
#[export] Instance skyhook_le_trans : Transitive skyhook_le.
Proof.
  intros a b c. unfold skyhook_le. intros [H1|[H1 H2]] [H3|[H3 H4]]; try lia. right. split; [lia|by etrans].
Qed.
#[export] Instance entry_created_le_total : Total entry_created_le.
Proof.
  intros a b. unfold entry_created_le.
  destruct (Z.lt_trichotomy (n_CreationTimestamp (sn_Node (ne_Only a))) (n_CreationTimestamp (sn_Node (ne_Only b))))
    as [?|[Hs|?]]; [by left; left| |by right; left].
  destruct (str_le_total (entry_name a) (entry_name b)); [left|right]; right; auto.
Qed.
#[export] Instance entry_created_le_trans : Transitive entry_created_le.
Proof.
  intros a b c. unfold entry_created_le. intros [H1|[H1 H2]] [H3|[H3 H4]]; try lia. right. split; [lia|by etrans].
Qed.

Section BuildState.
Context `{MR : MapRange} `{JS : NodeStateJSON} `{TT : TimeText} `{Sel : Selectors}.
Context (now : Z) (nws : list NodeWright) (nodes : list Node) (policies : list DeploymentPolicy).

(** What admission and the API server guarantee of the objects listed. *)
Record buildable := {
  node_names_distinct : NoDup (map n_Name nodes);
  graphs_build : forall nw, nw ∈ nws -> exists g, BuildGraph (Spec nw) = Ok g;
  selectors_compile : forall nw, nw ∈ nws -> exists m, LabelSelectorAsSelector (NodeSelector (Spec nw)) = Ok m;
  policies_compile : forall p c, p ∈ policies -> c ∈ dp_Compartments p ->
    exists m, LabelSelectorAsSelector (c_Selector c) = Ok m
}.

Definition policy_of (nw : NodeWright) : option DeploymentPolicy :=
  List.find (fun p => bool_decide (dp_Name p = sp_DeploymentPolicy (Spec nw))) policies.

(** A resource of the state, before ([sorted = False]) and after sorting. *)
Definition built_from (nw : NodeWright) (s : skyhookNodes) : Prop :=
  sns_Spec s = Spec nw /\ sns_Name s = nw_Name nw /\
  (exists matches, LabelSelectorAsSelector (NodeSelector (Spec nw)) = Ok matches /\
     node_names s ≡ₚ map n_Name (List.filter (fun n => matches (n_Labels n)) nodes)) /\
  (sp_DeploymentPolicy (Spec nw) = "" -> partitioned (fun _ k => k = DefaultCompartmentName) s).

Lemma build_resource_spec nw : buildable -> nw ∈ nws ->
  exists s, build_resource now nodes policies nw = Ok s /\ built_from nw s /\
    (sp_DeploymentPolicy (Spec nw) <> "" -> forall p, policy_of nw = Some p -> policy_ok s) /\
    (sp_DeploymentPolicy (Spec nw) <> "" -> policy_of nw = None -> sns_compartments s = ∅).
Proof.
  intros Hb Hin. destruct (graphs_build Hb nw Hin) as [g Hg]. destruct (selectors_compile Hb nw Hin) as [m Hm].
  unfold build_resource. set (s0 := {| sns_skyhook := _ |}).
  rewrite (add_matching_nodes nw g m s0 nodes Hg Hm). simpl.
  set (s1 := set_sns_nodes _ s0).
  assert (Hnames : node_names s1 = map n_Name (List.filter (fun n => m (n_Labels n)) nodes)).
  { unfold node_names, s1. simpl. rewrite map_map. apply map_ext. intros n. unfold entry_for, entry_name. simpl.
    unfold NewSkyhookNodeOnly. by destruct (node_State _). }
  assert (Hnd : NoDup (node_names s1)).
  { rewrite Hnames. pose proof (node_names_distinct Hb) as H. clear -H.
    induction nodes as [|n l IH]; simpl; [constructor|]. simpl in H. apply NoDup_cons in H as [H1 H2].
    destruct (m (n_Labels n)); simpl; [|auto]. constructor; [|auto].
    intros (x & Hx & Hi)%list_elem_of_fmap. apply H1. rewrite Hx. apply list_elem_of_fmap_2.
    by apply elem_of_filterb in Hi as [? _]. }
  case_bool_decide as Hdp.
  - destruct (build_legacy_partitioned nw s1 Hnd eq_refl) as (s2 & Hs2 & Hpart & Hn & Hsk).
    exists s2. split; [done|]. split_and!; [|done..].
    split_and!; [unfold sns_Spec; by rewrite Hsk|unfold sns_Name; by rewrite Hsk| |done].
    exists m. split; [done|]. unfold node_names. rewrite Hn. fold (node_names s1). by rewrite Hnames.
  - eexists. split; [done|]. destruct (policy_of nw) as [p|] eqn:Hp.
    + destruct (initializeCompartments_spec now nw policies s1 p) as (Hok & Hn & Hs & Hname); [done|exact Hp| |].
      { intros c Hc. apply (policies_compile Hb p); [|done].
        apply find_some in Hp as [Hp _]. by apply list_elem_of_In. }
      split_and!; [|done|done]. split_and!; [done|done| |done].
      exists m. split; [done|]. unfold node_names. rewrite Hn. fold (node_names s1). by rewrite Hnames.
    + unfold initializeCompartmentsFromPolicy. unfold policy_of in Hp. rewrite Hp.
      match goal with |- context [add_condition_legacy now ?c s1] =>
        destruct (add_condition_legacy_spec now c s1) as [Hs Hname] end.
      split_and!; [|done|done]. split_and!; [done|done| |done].
      exists m. split; [done|]. by rewrite <- Hnames.
Qed.

(** A resource of the finished state. *)
Definition state_of (nw : NodeWright) (s : skyhookNodes) : Prop :=
  built_from nw s /\ StronglySorted entry_created_le (sns_nodes s) /\
  (sp_DeploymentPolicy (Spec nw) <> "" -> is_Some (policy_of nw) -> partitioned (safest s) s) /\
  (sp_DeploymentPolicy (Spec nw) <> "" -> policy_of nw = None -> sns_compartments s = ∅).

Lemma partitioned_sort R s : partitioned R s -> partitioned R (sort_nodes s).
Proof.
  intros (H1 & H2 & H3). split_and!; [done| |].
  - intros k n Hh. unfold node_names, sort_nodes. simpl. rewrite merge_sort_Permutation. by apply (H2 k).
  - intros e He. simpl in He. rewrite merge_sort_Permutation in He. by apply H3.
Qed.

Lemma finish_resource nw s : buildable ->
  built_from nw s ->
  (sp_DeploymentPolicy (Spec nw) <> "" -> forall p, policy_of nw = Some p -> policy_ok s) ->
  (sp_DeploymentPolicy (Spec nw) <> "" -> policy_of nw = None -> sns_compartments s = ∅) ->
  exists s', partition_resource (sort_nodes s) = Ok s' /\ sns_skyhook s' = sns_skyhook s /\ state_of nw s'.
Proof.
  intros Hb (Hspec & Hname & (m & Hm & Hnames) & Hlegacy) Hpol Hnone.
  assert (Hsorted : StronglySorted entry_created_le (sns_nodes (sort_nodes s)))
    by (apply StronglySorted_merge_sort; apply _).
  assert (Hn : node_names (sort_nodes s) ≡ₚ map n_Name (List.filter (fun n => m (n_Labels n)) nodes)).
  { unfold node_names, sort_nodes. simpl. by rewrite merge_sort_Permutation. }
  destruct (decide (sp_DeploymentPolicy (Spec nw) = "")) as [Hdp|Hdp].
  - exists (sort_nodes s). unfold partition_resource. rewrite bool_decide_eq_true_2 by (by rewrite <- Hspec in Hdp).
    split_and!; [done|done|]. split_and!; [|done|done|done].
    split_and!; [done|done|by exists m|]. intros _. by apply partitioned_sort, Hlegacy.
  - destruct (policy_of nw) as [p|] eqn:Hp.
    + destruct (partition_resource_policy (sort_nodes s)) as (s' & Hs' & Hpart & Hn' & Hsk).
      * rewrite Hn. pose proof (node_names_distinct Hb) as H. clear -H.
        induction nodes as [|n l IH]; simpl; [constructor|]. simpl in H. apply NoDup_cons in H as [H1 H2].
        destruct (m (n_Labels n)); simpl; [|auto]. constructor; [|auto].
        intros (x & Hx & Hi)%list_elem_of_fmap. apply H1. rewrite Hx. apply list_elem_of_fmap_2.
        by apply elem_of_filterb in Hi as [? _].
      * by rewrite <- Hspec in Hdp.
      * eapply policy_ok_ext; [|by eapply Hpol]. done.
      * exists s'. split_and!; [done|done|]. split_and!; [|by rewrite Hn'|done|by rewrite Hp].
        split_and!; [unfold sns_Spec; by rewrite Hsk|unfold sns_Name; by rewrite Hsk| |done].
        exists m. split; [done|]. unfold node_names. rewrite Hn'. exact Hn.
    + exists (sort_nodes s). unfold partition_resource.
      rewrite bool_decide_eq_false_2 by (by rewrite <- Hspec in Hdp).
      rewrite bool_decide_eq_true_2 by (by apply Hnone).
      split_and!; [done|done|]. split_and!; [|done|rewrite Hp; by intros _ [? ?]|intros _ _; by apply Hnone].
      split_and!; [done|done|by exists m|done].
Qed.

Lemma sorted_same rs rs' : map sns_skyhook rs = map sns_skyhook rs' ->
  StronglySorted skyhook_le rs -> StronglySorted skyhook_le rs'.
Proof.
  revert rs'; induction rs as [|s rs IH]; intros [|s' rs'] Hm Hs; simplify_eq/=; [constructor|].
  apply StronglySorted_inv in Hs as [Hs Hall]. constructor; [by apply IH|].
  clear -Hall H H0. revert rs' H0. induction rs as [|a rs IH]; intros [|a' rs'] Hm; simplify_eq/=; [constructor|].
  apply Forall_cons in Hall as [Ha Hall]. constructor; [|by apply IH].
  unfold skyhook_le, sns_Spec, sns_Name in *. by rewrite <- H, <- H0.
Qed.

(** Not yet sorted, as [finish_resource] wants it. *)
Definition unfinished (nw : NodeWright) (s : skyhookNodes) : Prop :=
  built_from nw s /\
  (sp_DeploymentPolicy (Spec nw) <> "" -> forall p, policy_of nw = Some p -> policy_ok s) /\
  (sp_DeploymentPolicy (Spec nw) <> "" -> policy_of nw = None -> sns_compartments s = ∅).

Lemma build_resources_spec l : buildable -> (forall nw, nw ∈ l -> nw ∈ nws) ->
  exists rs, build_resources now nodes policies l = Ok rs /\ Forall2 unfinished l rs.
Proof.
  intros Hb. induction l as [|nw l IH]; intros Hl; simpl; [exists []; by split|].
  destruct (build_resource_spec nw Hb) as (s & Hs & Hu); [apply Hl; by left|].
  destruct IH as (rs & Hrs & Hf); [intros; apply Hl; by right|].
  exists (s :: rs). rewrite Hs. simpl. rewrite Hrs. split; [done|]. by constructor.
Qed.

Lemma partition_all rs : buildable -> Forall (fun s => exists nw, nw ∈ nws /\ unfinished nw s) rs ->
  exists rs', partitionNodesIntoCompartments (map sort_nodes rs) = Ok rs' /\
    map sns_skyhook rs = map sns_skyhook rs' /\
    Forall (fun s => exists nw, nw ∈ nws /\ state_of nw s) rs'.
Proof.
  intros Hb. induction 1 as [|s rs (nw & Hin & H1 & H2 & H3) _ IH]; simpl; [by exists []|].
  destruct (finish_resource nw s Hb H1 H2 H3) as (s' & Hs' & Hsk & Hst).
  destruct IH as (rs' & Hrs' & Hm & Hf). exists (s' :: rs'). rewrite Hs'. simpl. rewrite Hrs'.
  split_and!; [done|simpl; by rewrite Hsk, Hm|]. constructor; [by exists nw|done].
Qed.

(** The state of the cluster.  When the listed objects are what admission
    lets through, [BuildState] succeeds; it lists every resource once, in the
    order (priority, then name) that sequencing relies on; a resource has
    exactly the nodes its selector takes, oldest first; without a policy every
    node is in the default compartment, with a policy that exists every node is
    in exactly one compartment, the safest of those that select it, whatever
    the order maps are ranged over; and a resource whose policy is missing has
    no compartment, so that none of its nodes can be picked. *)
Theorem BuildState_partitions (Hb : buildable) :
  exists rs, BuildState now nws nodes policies = Ok rs /\
    StronglySorted skyhook_le rs /\ map sns_Name rs ≡ₚ map nw_Name nws /\
    Forall (fun s => exists nw, nw ∈ nws /\ state_of nw s) rs.
Proof.
  destruct (build_resources_spec nws Hb) as (rs & Hrs & Hf); [done|].
  destruct (partition_all (merge_sort skyhook_le rs) Hb) as (rs' & Hrs' & Hm & Hst).
  { rewrite merge_sort_Permutation. apply Forall_forall. intros s Hs.
    apply list_elem_of_lookup in Hs as [i Hi]. destruct (Forall2_lookup_r _ _ _ _ _ Hf Hi) as (nw & Hnw & Hu).
    exists nw. split; [by eapply list_elem_of_lookup_2|done]. }
  exists rs'. unfold BuildState. rewrite Hrs. simpl. rewrite Hrs'. split_and!; [done| | |done].
  - eapply sorted_same; [exact Hm|]. apply StronglySorted_merge_sort; apply _.
  - change (map sns_Name rs') with (map (fun s => nw_Name (sk_nw (sns_skyhook s))) rs').
    rewrite <- (map_map sns_skyhook (fun k => nw_Name (sk_nw k)) rs'), <- Hm, map_map.
    rewrite merge_sort_Permutation. clear -Hf. induction Hf as [|nw s l rs H _ IH]; simpl; [done|].
    rewrite IH. f_equiv. apply H.
Qed.
End BuildState.

(* ------------------------------------------------------------------ *)
(** ** Witnesses *)

#[local] Existing Instance example_json.

(** Selectors made of labels only. *)
#[local] Instance label_selectors : Selectors := {
  LabelSelectorAsSelector sel := Ok (fun l => match MatchLabels sel with Some m => bool_decide (m ⊆ l) | None => true end);
  selector_Empty sel := match MatchLabels sel with Some _ => false | None => true end
}.

Definition selecting (k v : string) : LabelSelector := {| MatchLabels := Some {[k := v]}; MatchExpressions := None |}.

Definition with_policy (name : string) (spec : NodeWrightSpec) : NodeWrightSpec :=
  {| Serial := Serial spec; PodNonInterruptLabels := PodNonInterruptLabels spec; NodeSelector := NodeSelector spec;
     sp_DeploymentPolicy := name; DeploymentPolicyOptions := DeploymentPolicyOptions spec;
     sp_InterruptionBudget := sp_InterruptionBudget spec; sp_DrainConfig := sp_DrainConfig spec;
     sp_Packages := sp_Packages spec; AdditionalTolerations := AdditionalTolerations spec;
     RuntimeRequired := RuntimeRequired spec; RuntimeRequiredCordonAfter := RuntimeRequiredCordonAfter spec;
     AutoTaintNewNodes := AutoTaintNewNodes spec; Priority := Priority spec; Sequencing := Sequencing spec |}.

Definition two_compartments : DeploymentPolicy :=
  {| dp_Name := "rollout";
     dp_Default := {| pd_Budget := {| Percent := Some 100; Count := None |}; pd_Strategy := None |};
     dp_Compartments :=
       [{| c_Name := "gpu"; c_Selector := selecting "gpu" "yes"; c_Budget := {| Percent := None; Count := Some 1 |};
           c_Strategy := None |};
        {| c_Name := "zone"; c_Selector := selecting "zone" "a"; c_Budget := {| Percent := None; Count := Some 2 |};
           c_Strategy := None |}];
     dp_ResetBatchStateOnCompletion := None |}.

Definition labelled_nodes : list Node :=
  [set_n_Labels (<["gpu" := "yes"]> {["zone" := "a"]}) (bare_node "n1"); set_n_Labels {["zone" := "a"]} (bare_node "n2")].

Definition rollout_resource : NodeWright :=
  plain_nodewright "tuning" (with_policy "rollout" (plain_spec ∅)) empty_status.
