(* ===== verification/Webhook.v ===== *)
(** * Admission of a resource

    Models [operator/api/nodewright/v1alpha1/nodewright_webhook.go]: what
    [Validate] accepts, and what an update may change.  The order and the sign of
    a quantity belong to apimachinery and are a parameter.  Log lines, and the
    set-up with the manager, are left out; the read of the deployment policy is an
    argument. *)

From S2P Require Import Prelude Graph DeploymentPolicy Api NodeState Skyhook Text Node Migration Compartment ClusterState Partition.

#[local] Open Scope Z_scope.

Class QuantityOrder := {
  quantity_zero : Quantity -> bool;
  quantity_Cmp : Quantity -> Quantity -> Z;
  quantity_Sign : Quantity -> Z;
  quantity_String : Quantity -> string
}.

(* ------------------------------------------------------------------ *)
(** ** Names *)

Definition lower (c : ascii) : bool := str_leb "a" (String c "") && str_leb (String c "") "z".
Definition digit (c : ascii) : bool := str_leb "0" (String c "") && str_leb (String c "") "9".
Definition name_middle (c : ascii) : bool := bool_decide (c = "-"%char) || lower c || digit c.

(** [^\[a-z\]\[-a-z0-9\]{0,41}\[a-z\]$] *)
Definition valid_package_name (s : string) : bool :=
  match String.list_ascii_of_string s with
  | first :: rest =>
      match rev rest with
      | last :: middle => lower first && lower last && all name_middle middle && (zlen middle <=? 41)
      | [] => false
      end
  | [] => false
  end.

Definition package_name_pattern : string := "^[a-z][-a-z0-9]{0,41}[a-z]$".

Section Webhook.
Context `{MR : MapRange} `{SE : Selectors} `{SV : Semver} `{QO : QuantityOrder}.

(* ------------------------------------------------------------------ *)
(** ** One package *)

(** [strings.Contains(pattern, "*")] *)
Definition is_glob (pattern : string) : bool := existsb (fun c => bool_decide (c = "*"%char)) (String.list_ascii_of_string pattern).

Definition config_interrupt_ok (p : Package) (pattern : string) : res unit :=
  match pkg_ConfigMap p !! pattern with
  | Some _ => Ok tt
  | None =>
      if is_glob pattern then
        if any (fun kv => filepath_Match pattern kv.1) (range (pkg_ConfigMap p)) then Ok tt
        else Err (errorf "error config interrupt glob %q does not match any configMap keys" [pattern])
      else Err (errorf "error config interrupt for key that doesn't exist: %s doesn't exist as a configmap" [pattern])
  end.

Definition check (b : bool) (e : error) : res unit := if b then Ok tt else Err e.

Definition validateResourceOverrides (name : string) (res : option ResourceRequirements) : Prelude.res unit :=
  match res with
  | None => Ok tt
  | Some r =>
      let values := [CPURequest r; CPULimit r; MemoryRequest r; MemoryLimit r] in
      let anySet := any (fun q => negb (quantity_zero q)) values in
      let allSet := all (fun q => negb (quantity_zero q)) values in
      if anySet && negb allSet then
        Err (errorf "package %q: if any resource override is set, all of cpuRequest, cpuLimit, memoryRequest, memoryLimit must be set" [name])
      else if negb allSet then Ok tt
      else if quantity_Cmp (CPULimit r) (CPURequest r) <? 0 then
        Err (errorf "package %q: cpuLimit (%s) must be >= cpuRequest (%s)" [name; quantity_String (CPULimit r); quantity_String (CPURequest r)])
      else if quantity_Cmp (MemoryLimit r) (MemoryRequest r) <? 0 then
        Err (errorf "package %q: memoryLimit (%s) must be >= memoryRequest (%s)" [name; quantity_String (MemoryLimit r); quantity_String (MemoryRequest r)])
      else check (all (fun q => 0 <? quantity_Sign q) values) (errorf "package %q: all resource values must be positive" [name])
  end.

Definition image_ok (name : string) (p : Package) : res unit :=
  let '(_, tag, digest) := splitImageReference (pkg_Image p) in
  match digest, tag with
  | Some _, _ => Err (errorf "error package %s's image '%s' contains an inline digest. Do not embed a digest in the image; pin the image bytes using the package's containerSHA field instead" [name; pkg_Image p])
  | None, Some tag => Err (errorf "error package %s's image '%s' contains an inline tag '%s'. Do not embed a tag in the image; the package version supplies the tag" [name; pkg_Image p; tag])
  | None, None => Ok tt
  end.

(** The body of the loop; the state is the names seen, with their versions. *)
Definition validate_package (names : gmap string string) (kp : string * Package) : res (gmap string string) :=
  let '(name, p) := kp in
  let key := pkg_Name p in
  rbind (check (bool_decide (key = name))
    (errorf "error package %s's name was set to %s. Do not explicitly set the name in the package's definition" [name; key])) (fun _ =>
  rbind (match names !! key with
         | Some val => Err (errorf "error duplicate packages different versions [%s:%s] and [%s:%s]" [key; pkg_Version p; key; val])
         | None => Ok tt
         end) (fun _ =>
  rbind (check (valid_package_name key) (errorf "package name [%s] is not valid. must match [%s]" [key; package_name_pattern])) (fun _ =>
  rbind (rfold (fun _ pi => config_interrupt_ok p pi.1) tt (range (pkg_ConfigInterrupts p))) (fun _ =>
  rbind (image_ok name p) (fun _ =>
  rbind (check (version_IsValid (pkg_Version p)) (errorf "error version string for %s is invalid: %s" [key; pkg_Version p])) (fun _ =>
  rbind (validateResourceOverrides name (pkg_Resources p)) (fun _ =>
  rbind (check (negb (match pkg_Uninstall p with Some u => un_Apply u && negb (un_Enabled u) | None => false end))
    (errorf "package %q: uninstall.apply requires uninstall.enabled to be true" [name])) (fun _ =>
  rbind (check (negb (negative (pkg_StageTimeout p)))
    (errorf "package %q: stageTimeout must be greater than or equal to 0" [name])) (fun _ =>
  Ok (<[key := pkg_Version p]> names)))))))))).

(* ------------------------------------------------------------------ *)
(** ** The resource *)

Definition has_budget (b : InterruptionBudget) : bool :=
  match ib_Percent b, ib_Count b with None, None => false | _, _ => true end.

Definition NodeWright_Validate (nw : NodeWright) : res unit :=
  let spec := Spec nw in
  rbind (rwrap "interruption budget: %w" [] (InterruptionBudget_Validate (sp_InterruptionBudget spec))) (fun _ =>
  rbind (rwrap "drain config: %w" [] (DrainConfig_Validate (sp_DrainConfig spec))) (fun _ =>
  rbind (check (negb (negb (bool_decide (sp_DeploymentPolicy spec = "")) && has_budget (sp_InterruptionBudget spec)))
    (errorf "deploymentPolicy and interruptionBudget are mutually exclusive" [])) (fun _ =>
  rbind (rwrap "pod non-interrupt labels are not valid: %w" [] (LabelSelectorAsSelector (PodNonInterruptLabels spec))) (fun _ =>
  rbind (rwrap "node selectors are not valid: %w" [] (LabelSelectorAsSelector (NodeSelector spec))) (fun _ =>
  rbind (rfold validate_package ∅ (range (sp_Packages spec))) (fun _ =>
  rbind (rwrap "error trying to validate NodeWright spec building graph: %w" [] (BuildGraph spec)) (fun graph =>
  rwrap "error trying to validate NodeWright spec graph is invalid: %w" [] (Valid graph)))))))).

(** [policy] is the answer to the read of the deployment policy of that name. *)
Definition validateDeploymentPolicyExists (policy : string -> res (option DeploymentPolicy)) (nw : NodeWright) : res unit :=
  let name := sp_DeploymentPolicy (Spec nw) in
  if bool_decide (name = "") then Ok tt
  else
    match policy name with
    | Ok (Some _) => Ok tt
    | Ok None => Err (errorf "deploymentPolicy %q not found" [name])
    | Err e => Err (wrapf "error checking if deploymentPolicy %q exists: %w" [name] e)
    | Panic => Panic
    end.

Definition ValidateCreate (policy : string -> res (option DeploymentPolicy)) (nw : NodeWright) : res unit :=
  rbind (rwrap "validating NodeWright %q: %w" [nw_Name nw] (NodeWright_Validate nw)) (fun _ =>
  validateDeploymentPolicyExists policy nw).

(* ------------------------------------------------------------------ *)
(** ** Updates *)

Definition isPackageFullyUninstalled (nw : NodeWright) (packageName : string) : bool :=
  match sp_Packages (Spec nw) !! packageName with
  | None => false
  | Some pkg =>
      all (fun kn : string * option NodeState => match default ∅ kn.2 !! pkg_UniqueName pkg with Some _ => false | None => true end)
        (range (default ∅ (st_NodeState (nw_Status nw))))
  end.

(** A package that is gone from the specification. *)
Definition removal_ok (old new : NodeWright) (kp : string * Package) : res unit :=
  match sp_Packages (Spec new) !! kp.1 with
  | Some _ => Ok tt
  | None =>
      check (negb (UninstallEnabled (Some kp.2) && negb (isPackageFullyUninstalled old kp.1)))
        (errorf "package %q has uninstall.enabled=true; set uninstall.apply=true and wait for completion before removing from spec" [kp.1])
  end.

(** A package whose version changed. *)
Definition version_ok (old new : NodeWright) (kp : string * Package) : res unit :=
  let '(name, oldPkg) := kp in
  match sp_Packages (Spec new) !! name with
  | None => Ok tt
  | Some newPkg =>
      if bool_decide (pkg_Version newPkg = pkg_Version oldPkg) then Ok tt
      else if negb (version_IsValid (pkg_Version newPkg)) || negb (version_IsValid (pkg_Version oldPkg)) then Ok tt
      else
        rbind (version_Compare (pkg_Version newPkg) (pkg_Version oldPkg)) (fun c =>
        if negb (c =? -1) then Ok tt
        else if negb (UninstallEnabled (Some oldPkg)) then Ok tt
        else if negb (IsUninstalling (Some oldPkg)) then
          Err (errorf "package %q: downgrade not allowed — set uninstall.apply=true first, wait for uninstall to complete, then change version" [name])
        else check (isPackageFullyUninstalled old name)
          (errorf "package %q: downgrade not allowed — uninstall has not yet completed on all nodes. Wait for the uninstall to finish, then change version" [name]))
  end.

Definition cancel_warnings (old new : NodeWright) : list string :=
  omap (fun kp : string * Package =>
    match sp_Packages (Spec new) !! kp.1 with
    | Some newPkg =>
        if IsUninstalling (Some kp.2) && negb (IsUninstalling (Some newPkg)) then
          Some ("package " +:+ quoted kp.1 +:+ ": uninstall cancelled — nodes where uninstall completed will need to re-install")
        else None
    | None => None
    end) (range (sp_Packages (Spec old))).

(** The warnings, with an error or without. *)
Definition ValidateUpdate (policy : string -> res (option DeploymentPolicy)) (old : option NodeWright) (new : NodeWright)
  : list string * res unit :=
  match rwrap "validating NodeWright %q: %w" [nw_Name new] (NodeWright_Validate new) with
  | Err e => ([], Err e)
  | Panic => ([], Panic)
  | Ok _ =>
      match old with
      | None => ([], validateDeploymentPolicyExists policy new)
      | Some old =>
          let packages := range (sp_Packages (Spec old)) in
          match rbind (rfold (fun _ kp => removal_ok old new kp) tt packages) (fun _ => rfold (fun _ kp => version_ok old new kp) tt packages) with
          | Ok _ => (cancel_warnings old new, validateDeploymentPolicyExists policy new)
          | Err e => ([], Err e)
          | Panic => ([], Panic)
          end
      end
  end.

Definition ValidateDelete (nw : NodeWright) : list string * res unit := ([], Ok tt).

(* ------------------------------------------------------------------ *)
(** ** What is admitted *)

Definition resources_admissible (r : ResourceRequirements) : Prop :=
  let values := [CPURequest r; CPULimit r; MemoryRequest r; MemoryLimit r] in
  (forall q, q ∈ values -> quantity_zero q = true) \/
  ((forall q, q ∈ values -> quantity_zero q = false /\ 0 < quantity_Sign q) /\
   0 <= quantity_Cmp (CPULimit r) (CPURequest r) /\ 0 <= quantity_Cmp (MemoryLimit r) (MemoryRequest r)).

Record package_admissible (name : string) (p : Package) : Prop := {
  pa_key : pkg_Name p = name;
  pa_name : valid_package_name name = true;
  pa_interrupts : forall pattern i, pkg_ConfigInterrupts p !! pattern = Some i ->
    is_Some (pkg_ConfigMap p !! pattern) \/
    (is_glob pattern = true /\ exists key v, pkg_ConfigMap p !! key = Some v /\ filepath_Match pattern key = true);
  pa_image : exists repository, splitImageReference (pkg_Image p) = (repository, None, None);
  pa_version : version_IsValid (pkg_Version p) = true;
  pa_resources : forall r, pkg_Resources p = Some r -> resources_admissible r;
  pa_uninstall : forall u, pkg_Uninstall p = Some u -> un_Apply u = true -> un_Enabled u = true;
  pa_timeout : forall d, pkg_StageTimeout p = Some d -> 0 <= d
}.

Record admissible (nw : NodeWright) : Prop := {
  ad_budget : ib_Count (sp_InterruptionBudget (Spec nw)) = None \/ ib_Percent (sp_InterruptionBudget (Spec nw)) = None;
  ad_drain : forall d, sp_DrainConfig (Spec nw) = Some d -> negative (dc_Timeout d) = false /\ negative (dc_GracePeriod d) = false;
  ad_exclusive : sp_DeploymentPolicy (Spec nw) = "" \/ has_budget (sp_InterruptionBudget (Spec nw)) = false;
  ad_pods : exists m, LabelSelectorAsSelector (PodNonInterruptLabels (Spec nw)) = Ok m;
  ad_nodes : exists m, LabelSelectorAsSelector (NodeSelector (Spec nw)) = Ok m;
  ad_packages : forall name p, sp_Packages (Spec nw) !! name = Some p -> package_admissible name p;
  ad_graph : exists g, BuildGraph (Spec nw) = Ok g;
  ad_dependencies : forall name p dep ver, sp_Packages (Spec nw) !! name = Some p -> pkg_DependsOn p !! dep = Some ver ->
    exists name' p', sp_Packages (Spec nw) !! name' = Some p' /\ pkg_UniqueName p' = unique_name dep ver
}.

(* ------------------------------------------------------------------ *)
(** ** Lemmas *)

Lemma check_ok b e : check b e = Ok tt <-> b = true.
Proof. by destruct b. Qed.

Lemma rfold_units {A} (f : A -> res unit) l : rfold (fun _ a => f a) tt l = Ok tt <-> forall a, a ∈ l -> f a = Ok tt.
Proof.
  induction l as [|a l IH]; simpl.
  - split; [|done]. intros _ a Ha. by apply elem_of_nil in Ha.
  - rewrite rbind_unit_ok, IH. setoid_rewrite elem_of_cons. naive_solver.
Qed.

Lemma config_interrupt_spec p pattern : config_interrupt_ok p pattern = Ok tt <->
  is_Some (pkg_ConfigMap p !! pattern) \/
  (is_glob pattern = true /\ exists key v, pkg_ConfigMap p !! key = Some v /\ filepath_Match pattern key = true).
Proof.
  unfold config_interrupt_ok. destruct (pkg_ConfigMap p !! pattern) as [v|] eqn:E.
  - split; [|done]. intros _. left. eauto.
  - rewrite is_Some_alt. destruct (is_glob pattern); [|naive_solver].
    destruct (any _ _) eqn:Ha.
    + split; [|done]. intros _. right. split; [done|]. apply any_true in Ha as ([key v] & Hin%elem_of_range & Hm). eauto.
    + split; [done|]. intros [[]|[_ (key & v & Hk & Hm)]]. exfalso. apply not_true_iff_false in Ha.
      apply Ha, any_true. exists (key, v). by rewrite elem_of_range.
Qed.

Lemma resources_spec name r : validateResourceOverrides name r = Ok tt <-> forall r', r = Some r' -> resources_admissible r'.
Proof.
  unfold validateResourceOverrides. destruct r as [r|]; [|by split]. unfold resources_admissible.
  set (values := [CPURequest r; CPULimit r; MemoryRequest r; MemoryLimit r]).
  assert (Hall : all (fun q => negb (quantity_zero q)) values = true <-> forall q, q ∈ values -> quantity_zero q = false).
  { rewrite all_true. by setoid_rewrite negb_true_iff. }
  assert (Hany : any (fun q => negb (quantity_zero q)) values = false <-> forall q, q ∈ values -> quantity_zero q = true).
  { rewrite <- not_true_iff_false, any_true. setoid_rewrite negb_true_iff. split.
    - intros H q Hq. destruct (quantity_zero q) eqn:E; [done|]. exfalso. eauto.
    - intros H (q & Hq & E). by rewrite H in E. }
  assert (Hne : CPURequest r ∈ values) by left.
  transitivity ((forall q, q ∈ values -> quantity_zero q = true) \/
    ((forall q, q ∈ values -> quantity_zero q = false /\ 0 < quantity_Sign q) /\
     0 <= quantity_Cmp (CPULimit r) (CPURequest r) /\ 0 <= quantity_Cmp (MemoryLimit r) (MemoryRequest r)));
    [|by split; [intros H r' [= <-]|intros H; apply (H r)]].
  destruct (all _ values) eqn:Ea.
  - pose proof (proj1 Hall eq_refl) as Hnz. rewrite andb_false_r. cbn [negb].
    assert (Hno : ~ (forall q, q ∈ values -> quantity_zero q = true)) by (intros H; specialize (H _ Hne); rewrite Hnz in H; done).
    destruct (Z.ltb_spec (quantity_Cmp (CPULimit r) (CPURequest r)) 0); [split; [done|]; intros [?|(_ & ? & _)]; [done|lia]|].
    destruct (Z.ltb_spec (quantity_Cmp (MemoryLimit r) (MemoryRequest r)) 0); [split; [done|]; intros [?|(_ & _ & ?)]; [done|lia]|].
    rewrite check_ok, all_true. setoid_rewrite Z.ltb_lt. split; [intros Hs; right; split_and!; auto|].
    intros [Hz|(Hs & _)]; [by destruct (Hno Hz)|]. intros q Hq. by apply Hs.
  - assert (Hno : ~ forall q, q ∈ values -> quantity_zero q = false) by (intros H; by apply Hall in H).
    cbn [negb]. rewrite andb_true_r. destruct (any _ values) eqn:En.
    + split; [done|]. intros [H|[H _]]; [by apply Hany in H|]. exfalso. apply Hno. intros q Hq. by apply H.
    + split; [|done]. intros _. left. by apply Hany.
Qed.

Lemma image_spec name p : image_ok name p = Ok tt <-> exists repository, splitImageReference (pkg_Image p) = (repository, None, None).
Proof.
  unfold image_ok. destruct (splitImageReference (pkg_Image p)) as [[repository tag] digest].
  destruct digest, tag; naive_solver.
Qed.

Lemma validate_package_spec names name p :
  names !! name = None ->
  (exists names', validate_package names (name, p) = Ok names') <-> package_admissible name p.
Proof.
  intros Hnew. unfold validate_package. split.
  - intros (names' & H). rewrite rbind_unit_ok, check_ok, bool_decide_eq_true in H. destruct H as [Hk H]. rewrite Hk, Hnew in H. cbn [rbind] in H.
    rewrite !rbind_unit_ok, !check_ok, rfold_units, image_spec, resources_spec in H.
    destruct H as (Hn & Hi & Him & Hv & Hr & Hu & Ht & _). split; [done..| |done|done|done| |].
    + intros pattern i Hp. apply config_interrupt_spec. apply (Hi (pattern, i)). by apply elem_of_range.
    + intros u E Ha. rewrite E, Ha in Hu. by destruct (un_Enabled u).
    + intros d E. rewrite E in Ht. apply negb_true_iff in Ht. simpl in Ht. apply Z.ltb_ge in Ht. done.
  - intros [Hk Hn Hi Him Hv Hr Hu Ht]. eexists. rewrite rbind_unit_ok, check_ok, bool_decide_eq_true. split; [done|].
    rewrite Hk, Hnew. cbn [rbind]. rewrite !rbind_unit_ok, !check_ok, rfold_units, image_spec, resources_spec.
    split_and!; [done| |done|done|done| | |reflexivity].
    + intros [pattern i] Hp%elem_of_range. apply config_interrupt_spec. by eapply Hi.
    + destruct (pkg_Uninstall p) as [u|]; [|done]. specialize (Hu u eq_refl). destruct (un_Apply u); [|done]. by rewrite Hu.
    + destruct (pkg_StageTimeout p) as [d|]; [|done]. simpl. apply negb_true_iff, Z.ltb_ge. by apply Ht.
Qed.

Lemma validate_package_names names name p names' : validate_package names (name, p) = Ok names' ->
  names' = <[name := pkg_Version p]> names.
Proof.
  unfold validate_package. rewrite rbind_unit_ok, check_ok, bool_decide_eq_true. intros [Hk H].
  rewrite !rbind_unit_ok in H. destruct H as (_ & _ & _ & _ & _ & _ & _ & _ & [= <-]). by rewrite Hk.
Qed.

Lemma validate_packages_spec l : forall names, NoDup l.*1 -> (forall kp, kp ∈ l -> names !! kp.1 = None) ->
  (exists names', rfold validate_package names l = Ok names') <-> forall kp, kp ∈ l -> package_admissible kp.1 kp.2.
Proof.
  induction l as [|[name p] l IH]; intros names Hnd Hnew; cbn [rfold].
  - split; [|by eexists]. intros _ kp Hkp. by apply elem_of_nil in Hkp.
  - apply NoDup_cons in Hnd as [Hn Hnd]. pose proof (Hnew (name, p) ltac:(left)) as Hname. simpl in Hname.
    assert (Hrest : forall kp, kp ∈ l -> <[name := pkg_Version p]> names !! kp.1 = None).
    { intros kp Hkp. rewrite lookup_insert_ne; [apply Hnew; by right|]. intros E. apply Hn, list_elem_of_fmap. exists kp. eauto. }
    split.
    + intros (names' & (n1 & H1 & H2)%rbind_ok) kp [->|Hkp]%elem_of_cons.
      * apply (validate_package_spec names); eauto.
      * apply validate_package_names in H1 as ->. by apply (proj1 (IH _ Hnd Hrest)); [eexists|].
    + intros H. destruct (proj2 (validate_package_spec names name p Hname) (H (name, p) ltac:(left))) as [n1 H1].
      rewrite H1. cbn [rbind]. apply validate_package_names in H1 as ->. apply IH; [done|done|]. intros kp Hkp. apply H. by right.
Qed.

Lemma graph_dependencies spec g : BuildGraph spec = Ok g ->
  Valid g = Ok tt <-> forall name p dep ver, sp_Packages spec !! name = Some p -> pkg_DependsOn p !! dep = Some ver ->
    exists name' p', sp_Packages spec !! name' = Some p' /\ pkg_UniqueName p' = unique_name dep ver.
Proof.
  intros (l & [Hwf Hv Hp] & Hl)%BuildGraph_graph. rewrite (Valid_wf g Hwf). split.
  - intros H name p dep ver Hpk Hd. apply Hl in Hpk as Hin. destruct (Hp _ _ Hin) as (v & Hvx & _ & Hpar).
    destruct (H _ v (unique_name dep ver) Hvx) as [w Hw]; [apply Hpar; exists dep, ver; done|].
    destruct (Hv _ _ Hw) as (name' & p' & Hin' & Hu & _). exists name', p'. split; [by apply Hl|done].
  - intros H n v parent Hn Hpar. destruct (Hv _ _ Hn) as (name & p & Hin & _ & _ & Hdep).
    apply Hdep in Hpar as (dep & ver & Hd & ->). apply Hl in Hin. destruct (H _ _ _ _ Hin Hd) as (name' & p' & Hp' & <-).
    apply Hl in Hp'. destruct (Hp _ _ Hp') as (w & Hw & _). by eexists.
Qed.

Lemma Validate_admissible nw : NodeWright_Validate nw = Ok tt <-> admissible nw.
Proof.
  unfold NodeWright_Validate. rewrite rbind_unit_ok, rwrap_ok, rbind_unit_ok, rwrap_ok, rbind_unit_ok, check_ok.
  setoid_rewrite rbind_ok. setoid_rewrite rbind_ok. setoid_rewrite rbind_ok. setoid_rewrite rbind_ok. setoid_rewrite rwrap_ok.
  assert (Hnd : NoDup (range (sp_Packages (Spec nw))).*1) by apply NoDup_range.
  pose proof (validate_packages_spec (range (sp_Packages (Spec nw))) ∅ Hnd (fun kp _ => lookup_empty _)) as Hpk.
  assert (Hb : InterruptionBudget_Validate (sp_InterruptionBudget (Spec nw)) = Ok tt <->
    ib_Count (sp_InterruptionBudget (Spec nw)) = None \/ ib_Percent (sp_InterruptionBudget (Spec nw)) = None).
  { unfold InterruptionBudget_Validate. destruct (ib_Count _), (ib_Percent _); naive_solver. }
  assert (Hd : DrainConfig_Validate (sp_DrainConfig (Spec nw)) = Ok tt <->
    forall d, sp_DrainConfig (Spec nw) = Some d -> negative (dc_Timeout d) = false /\ negative (dc_GracePeriod d) = false).
  { unfold DrainConfig_Validate. destruct (sp_DrainConfig (Spec nw)) as [d|]; [|by split].
    destruct (negative (dc_Timeout d)) eqn:E1; [split; [done|]; intros H; destruct (H d eq_refl); congruence|].
    destruct (negative (dc_GracePeriod d)) eqn:E2; [split; [done|]; intros H; destruct (H d eq_refl); congruence|]. naive_solver. }
  assert (He : negb (negb (bool_decide (sp_DeploymentPolicy (Spec nw) = "")) && has_budget (sp_InterruptionBudget (Spec nw))) = true <->
    sp_DeploymentPolicy (Spec nw) = "" \/ has_budget (sp_InterruptionBudget (Spec nw)) = false).
  { case_bool_decide; simpl; [naive_solver|]. rewrite negb_true_iff. naive_solver. }
  rewrite Hb, Hd, He. split.
  - intros (H1 & H2 & H3 & pods & Hpods & ns & Hns & names & Hnames & g & Hg & Hvalid). split; eauto.
    + intros name p Hp. apply (proj1 Hpk ltac:(eauto) (name, p)). by apply elem_of_range.
    + by apply (graph_dependencies _ g Hg).
  - intros [H1 H2 H3 [pods Hpods] [ns Hns] H6 [g Hg] H8]. split; [done|]. split; [done|]. split; [done|].
    exists pods. split; [done|]. exists ns. split; [done|].
    destruct (proj2 Hpk) as [names Hnames]; [intros [name p] Hp%elem_of_range; by apply H6|].
    exists names. split; [done|]. exists g. split; [done|]. by apply (graph_dependencies _ g Hg).
Qed.

Definition policy_exists (policy : string -> res (option DeploymentPolicy)) (nw : NodeWright) : Prop :=
  sp_DeploymentPolicy (Spec nw) = "" \/ exists p, policy (sp_DeploymentPolicy (Spec nw)) = Ok (Some p).

Lemma policy_exists_spec policy nw : validateDeploymentPolicyExists policy nw = Ok tt <-> policy_exists policy nw.
Proof.
  unfold validateDeploymentPolicyExists, policy_exists. case_bool_decide; [naive_solver|].
  destruct (policy _) as [[p|]| |]; naive_solver.
Qed.

Lemma ValidateCreate_admits policy nw : ValidateCreate policy nw = Ok tt <-> admissible nw /\ policy_exists policy nw.
Proof. unfold ValidateCreate. by rewrite rbind_unit_ok, rwrap_ok, Validate_admissible, policy_exists_spec. Qed.

(** No entry of the status is of the package. *)
Definition nowhere (nw : NodeWright) (p : Package) : Prop :=
  forall node ns, default ∅ (st_NodeState (nw_Status nw)) !! node = Some ns -> default ∅ ns !! pkg_UniqueName p = None.

Definition downgraded (old new : Package) : Prop :=
  pkg_Version new <> pkg_Version old /\ version_IsValid (pkg_Version new) = true /\ version_IsValid (pkg_Version old) = true /\
  version_Compare (pkg_Version new) (pkg_Version old) = Ok (-1).

(** What may not change under a package that has to be uninstalled first. *)
Record change_safe (old new : NodeWright) : Prop := {
  removed_nowhere : forall name p, sp_Packages (Spec old) !! name = Some p -> sp_Packages (Spec new) !! name = None ->
    UninstallEnabled (Some p) = true -> nowhere old p;
  downgraded_nowhere : forall name p p', sp_Packages (Spec old) !! name = Some p -> sp_Packages (Spec new) !! name = Some p' ->
    downgraded p p' -> UninstallEnabled (Some p) = true -> IsUninstalling (Some p) = true /\ nowhere old p
}.

Lemma fully_uninstalled_spec nw name p : sp_Packages (Spec nw) !! name = Some p ->
  isPackageFullyUninstalled nw name = true <-> nowhere nw p.
Proof.
  intros Hp. unfold isPackageFullyUninstalled, nowhere. rewrite Hp, all_true. split.
  - intros H node ns Hn. apply elem_of_range in Hn. specialize (H _ Hn). simpl in H. by destruct (default ∅ ns !! _).
  - intros H [node ns] Hn%elem_of_range. simpl. by rewrite (H _ _ Hn).
Qed.

Lemma removal_spec old new name p : sp_Packages (Spec old) !! name = Some p ->
  removal_ok old new (name, p) = Ok tt <->
  (sp_Packages (Spec new) !! name = None -> UninstallEnabled (Some p) = true -> nowhere old p).
Proof.
  intros Hp. unfold removal_ok. cbn [fst snd]. destruct (sp_Packages (Spec new) !! name) as [p'|]; [by split|].
  rewrite check_ok, <- (fully_uninstalled_spec old name p Hp).
  destruct (UninstallEnabled (Some p)), (isPackageFullyUninstalled old name); simpl; naive_solver.
Qed.

Lemma version_spec old new name p : sp_Packages (Spec old) !! name = Some p ->
  version_ok old new (name, p) = Ok tt <->
  (forall p', sp_Packages (Spec new) !! name = Some p' -> downgraded p p' -> UninstallEnabled (Some p) = true ->
     IsUninstalling (Some p) = true /\ nowhere old p).
Proof.
  intros Hp. unfold version_ok. destruct (sp_Packages (Spec new) !! name) as [p'|]; [|by split]. unfold downgraded.
  case_bool_decide as Hne; [split; [|done]; by intros _ ? [= <-] (? & _)|].
  destruct (version_IsValid (pkg_Version p')) eqn:V1; cbn [negb orb];
    [|split; [|done]; intros _ ? [= <-] (_ & ? & _); congruence].
  destruct (version_IsValid (pkg_Version p)) eqn:V2; cbn [negb]; [|split; [|done]; by intros _ ? [= <-] (_ & _ & ? & _)].
  destruct (version_Compare (pkg_Version p') (pkg_Version p)) as [c| |] eqn:C; cbn [rbind];
    [|unfold version_Compare, version_IsValid in *; by destruct (with_v (pkg_Version p')), (with_v (pkg_Version p))..].
  destruct (Z.eqb_spec c (-1)) as [->|Hc]; cbn [negb];
    [|split; [|done]; intros _ ? [= <-] (_ & _ & _ & Hd); congruence].
  setoid_rewrite <- (fully_uninstalled_spec old name p Hp).
  destruct (UninstallEnabled (Some p)); cbn [negb]; [|split; [|done]; naive_solver].
  destruct (IsUninstalling (Some p)); cbn [negb].
  - rewrite check_ok. split; [naive_solver|]. intros H. by apply (H p' eq_refl).
  - split; [done|]. intros H. by destruct (H p' eq_refl) as [? _].
Qed.

Lemma changes_spec old new :
  rbind (rfold (fun _ kp => removal_ok old new kp) tt (range (sp_Packages (Spec old))))
    (fun _ => rfold (fun _ kp => version_ok old new kp) tt (range (sp_Packages (Spec old)))) = Ok tt <-> change_safe old new.
Proof.
  rewrite rbind_unit_ok, !rfold_units. split.
  - intros [H1 H2]. split.
    + intros name p Hp. apply (removal_spec old new name p Hp), H1. by apply elem_of_range.
    + intros name p p' Hp. apply (version_spec old new name p Hp), H2. by apply elem_of_range.
  - intros [H1 H2]. split; intros [name p] Hp%elem_of_range; [apply removal_spec|apply version_spec]; eauto.
Qed.

(* ------------------------------------------------------------------ *)
(** ** Properties *)

(** C30: an update is admitted exactly when the new resource is well formed (its
    budget, drain timeouts, selectors, packages, and a dependency graph in which
    every name points to a package of that version), its deployment policy
    exists, and no package that has to be uninstalled first is dropped from the
    specification or downgraded while a node still carries it, a downgrade also
    needing the uninstall to have been asked for. *)
Theorem ValidateUpdate_admits policy old new :
  (ValidateUpdate policy (Some old) new).2 = Ok tt <->
  admissible new /\ change_safe old new /\ policy_exists policy new.
Proof.
  unfold ValidateUpdate. rewrite <- Validate_admissible, <- changes_spec, <- policy_exists_spec.
  destruct (NodeWright_Validate new) as [[]| |]; simpl; [|naive_solver..].
  destruct (rbind _ _) as [[]| |]; simpl; naive_solver.
Qed.

End Webhook.

Section Creation.
Context `{MR : MapRange} `{JS : NodeStateJSON} `{TT : TimeText} `{SE : Selectors} `{SV : Semver} `{QO : QuantityOrder}.

(** C8: what admission lets through can be worked on.  When the API server keeps
    node names distinct and every resource and policy it lists has passed the
    webhooks, [BuildState] succeeds: no selector and no graph fails to build; it
    lists every resource once, by priority and then name; a resource has exactly
    the nodes its selector takes, oldest first; without a policy all of them are
    in the default compartment, with a policy each is in exactly one compartment,
    the safest of those that select it, in whatever order maps are ranged over;
    and a resource whose policy was deleted since has no compartment, so that
    none of its nodes can be picked. *)
Theorem admitted_state now nws nodes policies policy
    (Hnodes : NoDup (map n_Name nodes))
    (Hresources : forall nw, nw ∈ nws -> ValidateCreate policy nw = Ok tt)
    (Hpolicies : forall p, p ∈ policies -> DeploymentPolicy_Validate p = Ok tt) :
  exists rs, BuildState now nws nodes policies = Ok rs /\
    StronglySorted skyhook_le rs /\ map sns_Name rs ≡ₚ map nw_Name nws /\
    Forall (fun s => exists nw, nw ∈ nws /\ state_of nodes policies nw s) rs.
Proof.
  apply BuildState_partitions. split; [done| | |].
  - intros nw Hin. by apply Hresources, ValidateCreate_admits in Hin as [[] _].
  - intros nw Hin. by apply Hresources, ValidateCreate_admits in Hin as [[] _].
  - intros p c Hp Hc. apply Hpolicies, DeploymentPolicy_Validate_ok in Hp as (_ & _ & Hf & _).
    by apply (proj1 (Forall_forall _ _) Hf c Hc).
Qed.
End Creation.

(* ------------------------------------------------------------------ *)
(** ** Witnesses *)

#[local] Existing Instance example_json.
#[local] Existing Instance label_selectors.
#[local] Instance semver_texts : Semver :=
  { semver_IsValid _ := true; semver_Compare a b := if bool_decide (a = b) then 0 else if str_leb a b then -1 else 1;
    semver_MajorMinor v := v }.
#[local] Instance texts_in_order : QuantityOrder :=
  { quantity_zero q := bool_decide (q = ""); quantity_Cmp a b := if str_leb a b then -1 else 1;
    quantity_Sign _ := 1; quantity_String q := q }.

Lemma admitted_state_witness :
  ValidateCreate (fun _ => Ok (Some two_compartments)) rollout_resource = Ok tt /\
  exists rs s, BuildState 0 [rollout_resource] labelled_nodes [two_compartments] = Ok rs /\ s ∈ rs /\
    sns_Name s = "tuning" /\ partitioned (safest s) s.
Proof.
  assert (Hc : ValidateCreate (fun _ => Ok (Some two_compartments)) rollout_resource = Ok tt) by reflexivity.
  split; [exact Hc|].
  destruct (admitted_state 0 [rollout_resource] labelled_nodes [two_compartments] (fun _ => Ok (Some two_compartments)))
    as (rs & Hrs & _ & Hn & Hf).
  - change (NoDup ["n1"; "n2"]). apply (bool_decide_unpack _). reflexivity.
  - intros nw ->%list_elem_of_singleton. exact Hc.
  - intros p ->%list_elem_of_singleton. reflexivity.
  - destruct rs as [|s rs]; [apply Permutation_nil_cons in Hn as []|].
    apply Forall_inv in Hf. destruct Hf as (nw & Hin & (_ & Hname & _) & _ & Hpart & _).
    apply list_elem_of_singleton in Hin as ->. exists (s :: rs), s. split; [exact Hrs|]. split; [left|].
    split; [exact Hname|]. apply Hpart; [discriminate|]. exists two_compartments. reflexivity.
Defined.
