(* ===== verification/WebhookV1.v ===== *)
(** * Admission in the old group

    Models [operator/api/v1alpha1/skyhook_webhook.go] and
    [deployment_policy_webhook.go], with the functions on the old types that they
    call, and the deletion of a policy in the new group's
    [deployment_policy_webhook.go].  As in [Conversion] the names of the old group
    are plain.  Functions on strings that both groups have in the same words
    ([splitImageReference], the pattern of a package's name) are those of [Api]
    and [Webhook].

    The theorem relates the two groups: what one admits the other admits. *)

From S2P Require Import Prelude Graph DeploymentPolicy Api NodeState Skyhook Text Node Migration Compartment ClusterState Partition Webhook Ownership SkyhookV1 Conversion Mirror.

#[local] Open Scope Z_scope.
#[local] Open Scope go_scope.

Section Resources.
Context `{MR : MapRange} `{SE : Selectors} `{SV : Semver} `{QO : QuantityOrder} `{EQ : SemanticEquality SkyhookSpec}.

(* ------------------------------------------------------------------ *)
(** ** The specification *)

Definition pkg_Name (p : Package) : string := ref_Name (pkg_Ref p).
Definition pkg_Version (p : Package) : string := ref_Version (pkg_Ref p).
Definition GetUniqueName (p : PackageRef) : string := ref_Name p +:+ "|" +:+ ref_Version p.

Definition InterruptionBudget_Validate (i : InterruptionBudget) : res unit :=
  match ib_Count i, ib_Percent i with
  | Some _, Some _ =>
      Err (errorf "error InterruptionBudget is not valid, both percent and count can not be set at the same time" [])
  | _, _ => Ok tt
  end.

Definition DrainConfig_Validate (d : option DrainConfig) : res unit :=
  match d with
  | None => Ok tt
  | Some d =>
      if negative (dc_Timeout d) then Err (errorf "drainConfig.timeout must be greater than or equal to 0" [])
      else if negative (dc_GracePeriod d) then Err (errorf "drainConfig.gracePeriod must be greater than or equal to 0" [])
      else Ok tt
  end.

(** [deps] of the loop over the packages. *)
Fixpoint package_deps (dependsOn : list (string * string)) : res (list string) :=
  match dependsOn with
  | [] => Ok []
  | (dep, ver) :: rest =>
      if bool_decide (ver = "") then Err (errorf "DependsOn version is empty for [%s]" [dep])
      else let! deps := package_deps rest in Ok ((dep +:+ "|" +:+ ver) :: deps)
  end.

Definition add_package (g : dag Package) (kp : string * Package) : res (dag Package) :=
  let! deps := package_deps (range (pkg_DependsOn kp.2)) in
  rwrap "error building graph from packages: %w" [] (Add g (GetUniqueName (pkg_Ref kp.2)) kp.2 deps).

Definition BuildGraph (spec : SkyhookSpec) : res (dag Package) := rfold add_package New (range (sp_Packages spec)).

(* ------------------------------------------------------------------ *)
(** ** One package *)

Definition validateResourceOverrides (name : string) (res : option ResourceRequirements) : Prelude.res unit :=
  match res with
  | None => Ok tt
  | Some r =>
      let values := [CPURequest r; CPULimit r; MemoryRequest r; MemoryLimit r] in
      let anySet := any (fun q => negb (quantity_zero q)) values in
      let allSet := all (fun q => negb (quantity_zero q)) values in
      if anySet && negb allSet then
        Err (errorf "package %q: if any resource override is set, all of cpuRequest, cpuLimit, memoryRequest, memoryLimit must be set" [name])
      else if negb allSet then Ok tt
      else if quantity_Cmp (CPULimit r) (CPURequest r) <? 0 then
        Err (errorf "package %q: cpuLimit (%s) must be >= cpuRequest (%s)" [name; quantity_String (CPULimit r); quantity_String (CPURequest r)])
      else if quantity_Cmp (MemoryLimit r) (MemoryRequest r) <? 0 then
        Err (errorf "package %q: memoryLimit (%s) must be >= memoryRequest (%s)" [name; quantity_String (MemoryLimit r); quantity_String (MemoryRequest r)])
      else check (all (fun q => 0 <? quantity_Sign q) values) (errorf "package %q: all resource values must be positive" [name])
  end.

Definition config_interrupt_ok (p : Package) (pattern : string) : res unit :=
  match pkg_ConfigMap p !! pattern with
  | Some _ => Ok tt
  | None =>
      if is_glob pattern then
        if any (fun kv => filepath_Match pattern kv.1) (range (pkg_ConfigMap p)) then Ok tt
        else Err (errorf "error config interrupt glob %q does not match any configMap keys" [pattern])
      else Err (errorf "error config interrupt for key that doesn't exist: %s doesn't exist as a configmap" [pattern])
  end.

Definition image_ok (name : string) (p : Package) : res unit :=
  let '(_, tag, digest) := splitImageReference (pkg_Image p) in
  match digest, tag with
  | Some _, _ => Err (errorf "error package %s's image '%s' contains an inline digest. Do not embed a digest in the image; pin the image bytes using the package's containerSHA field instead" [name; pkg_Image p])
  | None, Some tag => Err (errorf "error package %s's image '%s' contains an inline tag '%s'. Do not embed a tag in the image; the package version supplies the tag" [name; pkg_Image p; tag])
  | None, None => Ok tt
  end.

(** The body of the loop; the state is the names seen, with their versions. *)
Definition validate_package (names : gmap string string) (kp : string * Package) : res (gmap string string) :=
  let '(name, p) := kp in
  let key := pkg_Name p in
  let! _ := check (bool_decide (key = name))
    (errorf "error package %s's name was set to %s. Do not explicitly set the name in the package's definition" [name; key]) in
  let! _ := match names !! key with
            | Some val => Err (errorf "error duplicate packages different versions [%s:%s] and [%s:%s]" [key; pkg_Version p; key; val])
            | None => Ok tt
            end in
  let! _ := check (valid_package_name key) (errorf "package name [%s] is not valid. must match [%s]" [key; package_name_pattern]) in
  let! _ := rfold (fun _ pi => config_interrupt_ok p pi.1) tt (range (pkg_ConfigInterrupts p)) in
  let! _ := image_ok name p in
  let! _ := check (version_IsValid (pkg_Version p)) (errorf "error version string for %s is invalid: %s" [key; pkg_Version p]) in
  let! _ := validateResourceOverrides name (pkg_Resources p) in
  let! _ := check (negb (match pkg_Uninstall p with Some u => un_Apply u && negb (un_Enabled u) | None => false end))
    (errorf "package %q: uninstall.apply requires uninstall.enabled to be true" [name]) in
  Ok (<[key := pkg_Version p]> names).

(* ------------------------------------------------------------------ *)
(** ** The resource *)

Definition has_budget (b : InterruptionBudget) : bool :=
  match ib_Percent b, ib_Count b with None, None => false | _, _ => true end.

Definition Skyhook_Validate (r : Skyhook) : res unit :=
  let spec := o_Spec r in
  let! _ := rwrap "interruption budget: %w" [] (InterruptionBudget_Validate (sp_InterruptionBudget spec)) in
  let! _ := rwrap "drain config: %w" [] (DrainConfig_Validate (sp_DrainConfig spec)) in
  let! _ := check (negb (negb (bool_decide (sp_DeploymentPolicy spec = "")) && has_budget (sp_InterruptionBudget spec)))
    (errorf "deploymentPolicy and interruptionBudget are mutually exclusive" []) in
  let! _ := rwrap "pod non-interrupt labels are not valid: %w" [] (LabelSelectorAsSelector (PodNonInterruptLabels spec)) in
  let! _ := rwrap "node selectors are not valid: %w" [] (LabelSelectorAsSelector (NodeSelector spec)) in
  let! _ := rfold validate_package ∅ (range (sp_Packages spec)) in
  let! graph := rwrap "error trying to validate skyhook spec building graph: %w" [] (BuildGraph spec) in
  rwrap "error trying to validate skyhook spec graph is invalid: %w" [] (Valid graph).

(** [policy] is the answer to the read of the deployment policy of that name. *)
Definition validateDeploymentPolicyExists (policy : string -> res (option DeploymentPolicy)) (skyhook : Skyhook) : res unit :=
  let name := sp_DeploymentPolicy (o_Spec skyhook) in
  if bool_decide (name = "") then Ok tt
  else
    match policy name with
    | Ok (Some _) => Ok tt
    | Ok None => Err (errorf "deploymentPolicy %q not found" [name])
    | Err e => Err (wrapf "error checking if deploymentPolicy %q exists: %w" [name] e)
    | Panic => Panic
    end.

Definition skyhookDeprecationWarning : string :=
  "skyhook.nvidia.com/v1alpha1 Skyhook is deprecated; migrate to nodewright.nvidia.com/v1alpha1 NodeWright (change apiVersion to nodewright.nvidia.com/v1alpha1 and kind to NodeWright). The Skyhook kind will be removed in a future release.".

Definition validate_new (policy : string -> res (option DeploymentPolicy)) (skyhook : Skyhook) : res unit :=
  let! _ := rwrap "validating skyhook %q: %w" [om_Name (o_Meta skyhook)] (Skyhook_Validate skyhook) in
  validateDeploymentPolicyExists policy skyhook.

(** The warnings, with an error or without. *)
Definition SkyhookWebhook_ValidateCreate (policy : string -> res (option DeploymentPolicy)) (skyhook : Skyhook)
  : list string * res unit := ([skyhookDeprecationWarning], validate_new policy skyhook).

Definition SkyhookWebhook_ValidateUpdate (policy : string -> res (option DeploymentPolicy)) (old : option Skyhook) (new : Skyhook)
  : list string * res unit :=
  ([skyhookDeprecationWarning],
   match old with Some _ => legacyReadOnlyError old new | None => validate_new policy new end).

Definition SkyhookWebhook_ValidateDelete (skyhook : Skyhook) : list string * res unit := ([], Ok tt).
End Resources.

(* ------------------------------------------------------------------ *)
(** ** Deployment policies *)

Definition defaultCommonStrategyFields (initialBatch batchThreshold safetyLimit : option Z) : option Z * option Z * option Z :=
  (or_default initialBatch 1, or_default batchThreshold 100, or_default safetyLimit 50).

Definition FixedStrategy_Default (s : FixedStrategy) : FixedStrategy :=
  let '(ib, bt, sl) := defaultCommonStrategyFields (fs_InitialBatch s) (fs_BatchThreshold s) (fs_SafetyLimit s) in
  {| fs_InitialBatch := ib; fs_BatchThreshold := bt; fs_FailureThreshold := fs_FailureThreshold s; fs_SafetyLimit := sl |}.

Definition LinearStrategy_Default (s : LinearStrategy) : LinearStrategy :=
  let '(ib, bt, sl) := defaultCommonStrategyFields (ls_InitialBatch s) (ls_BatchThreshold s) (ls_SafetyLimit s) in
  {| ls_InitialBatch := ib; ls_Delta := or_default (ls_Delta s) 1; ls_BatchThreshold := bt;
     ls_FailureThreshold := ls_FailureThreshold s; ls_SafetyLimit := sl |}.

Definition ExponentialStrategy_Default (s : ExponentialStrategy) : ExponentialStrategy :=
  let '(ib, bt, sl) := defaultCommonStrategyFields (es_InitialBatch s) (es_BatchThreshold s) (es_SafetyLimit s) in
  {| es_InitialBatch := ib; es_GrowthFactor := or_default (es_GrowthFactor s) 2; es_BatchThreshold := bt;
     es_FailureThreshold := es_FailureThreshold s; es_SafetyLimit := sl |}.

(** The [switch] takes the first strategy that is set. *)
Definition DeploymentStrategy_Default (s : DeploymentStrategy) : DeploymentStrategy :=
  match Fixed s, Linear s, Exponential s with
  | Some f, l, e => {| Fixed := Some (FixedStrategy_Default f); Linear := l; Exponential := e |}
  | None, Some l, e => {| Fixed := None; Linear := Some (LinearStrategy_Default l); Exponential := e |}
  | None, None, Some e => {| Fixed := None; Linear := None; Exponential := Some (ExponentialStrategy_Default e) |}
  | None, None, None => s
  end.

Definition default_compartment (c : Compartment) : Compartment :=
  {| c_Name := c_Name c; c_Selector := c_Selector c; c_Budget := c_Budget c;
     c_Strategy := DeploymentStrategy_Default <$> c_Strategy c |}.

Definition DeploymentPolicyWebhook_Default (p : DeploymentPolicy) : DeploymentPolicy :=
  let spec := o_Spec p in
  set_o_Spec {| dps_Default := {| pd_Budget := pd_Budget (dps_Default spec);
                                  pd_Strategy := DeploymentStrategy_Default <$> pd_Strategy (dps_Default spec) |};
                dps_Compartments := map default_compartment (dps_Compartments spec);
                dps_ResetBatchStateOnCompletion := dps_ResetBatchStateOnCompletion spec |} p.

Definition DeploymentStrategy_Validate (s : DeploymentStrategy) : res unit :=
  if count_some (Fixed s) + count_some (Linear s) + count_some (Exponential s) =? 1 then Ok tt
  else Err (errorf "exactly one of fixed, linear, or exponential must be set" []).

(** [if strategy != nil { if err := strategy.Validate(); err != nil { ... } }] *)
Definition optional_Validate (fmt : string) (args : list string) (s : option DeploymentStrategy) : res unit :=
  match s with Some s => rwrap fmt args (DeploymentStrategy_Validate s) | None => Ok tt end.

Definition DeploymentBudget_Validate (b : DeploymentBudget) : res unit :=
  let hasPercent := if Percent b then true else false in
  let hasCount := if Count b then true else false in
  if negb hasPercent && negb hasCount then Err (errorf "exactly one of percent or count must be set" [])
  else if hasPercent && hasCount then Err (errorf "percent and count are mutually exclusive" [])
  else Ok tt.

Section Policies.
Context `{MR : MapRange} `{SE : Selectors} `{EQ : SemanticEquality DeploymentPolicySpec}.

Definition Compartment_Validate (c : Compartment) : res unit :=
  let! _ := rwrap "compartment %q budget: %w" [c_Name c] (DeploymentBudget_Validate (c_Budget c)) in
  let! _ := optional_Validate "compartment %q strategy: %w" [c_Name c] (c_Strategy c) in
  let! _ := rwrap "compartment %q has invalid selector: %w" [c_Name c] (LabelSelectorAsSelector (c_Selector c)) in
  Ok tt.

(** The loop over the compartments: [names] and [selectors] are the maps of what
    was seen before. *)
Fixpoint validate_compartments (names : gmap string bool) (selectors : gmap string LabelSelector) (cs : list Compartment) : res unit :=
  match cs with
  | [] => Ok tt
  | c :: cs =>
      if bool_decide (c_Name c = DefaultCompartmentName) then
        Err (errorf "compartment name %q is reserved and cannot be used" [c_Name c])
      else if bool_decide (names !! c_Name c = Some true) then Err (errorf "compartment name %q is not unique" [c_Name c])
      else
        let! _ := rwrap "compartment %q: %w" [c_Name c] (Compartment_Validate c) in
        match List.find (same_selector (c_Selector c)) (range selectors) with
        | Some (existing, _) => Err (errorf "compartment %q has identical selector to compartment %q" [c_Name c; existing])
        | None => validate_compartments (<[c_Name c := true]> names) (<[c_Name c := c_Selector c]> selectors) cs
        end
  end.

Definition DeploymentPolicy_Validate (r : DeploymentPolicy) : res unit :=
  let spec := o_Spec r in
  let! _ := rwrap "default budget: %w" [] (DeploymentBudget_Validate (pd_Budget (dps_Default spec))) in
  let! _ := optional_Validate "default strategy: %w" [] (pd_Strategy (dps_Default spec)) in
  validate_compartments ∅ ∅ (dps_Compartments spec).

Definition deploymentPolicyDeprecationWarning : string :=
  "skyhook.nvidia.com/v1alpha1 DeploymentPolicy is deprecated; migrate to nodewright.nvidia.com/v1alpha1 DeploymentPolicy (change apiVersion to nodewright.nvidia.com/v1alpha1). The skyhook.nvidia.com group will be removed in a future release.".

Definition DeploymentPolicyWebhook_ValidateCreate (p : DeploymentPolicy) : list string * res unit :=
  ([deploymentPolicyDeprecationWarning], DeploymentPolicy_Validate p).

Definition DeploymentPolicyWebhook_ValidateUpdate (old : option DeploymentPolicy) (p : DeploymentPolicy) : list string * res unit :=
  ([deploymentPolicyDeprecationWarning],
   match old with Some _ => legacyDeploymentPolicyReadOnlyError old p | None => DeploymentPolicy_Validate p end).

(** [skyhooks] is the answer to the listing of the resources. *)
Definition DeploymentPolicyWebhook_ValidateDelete (skyhooks : res (list Skyhook)) (p : DeploymentPolicy) : list string * res unit :=
  ([],
   let! items := rwrap "failed to list skyhooks to check for references: %w" [] skyhooks in
   let name := om_Name (o_Meta p) in
   let referencingSkyhooks :=
     map (fun s => om_Name (o_Meta s)) (List.filter (fun s => bool_decide (sp_DeploymentPolicy (o_Spec s) = name)) items) in
   check (bool_decide (referencingSkyhooks = []))
     (errorf "cannot delete DeploymentPolicy %q: still referenced by %d Skyhook(s): %v"
        (name :: show_int (zlen referencingSkyhooks) :: referencingSkyhooks))).

(** *** The new group *)

Definition new_ValidateCreate (p : DeploymentPolicy.DeploymentPolicy) : list string * res unit :=
  ([], DeploymentPolicy.DeploymentPolicy_Validate p).

Definition new_ValidateUpdate (old : option DeploymentPolicy.DeploymentPolicy) (p : DeploymentPolicy.DeploymentPolicy) : list string * res unit :=
  ([], DeploymentPolicy.DeploymentPolicy_Validate p).

Definition new_ValidateDelete (skyhooks : res (list NodeWright)) (p : DeploymentPolicy.DeploymentPolicy) : list string * res unit :=
  ([],
   let! items := rwrap "failed to list NodeWrights to check for references: %w" [] skyhooks in
   let name := dp_Name p in
   let referencingNodeWrights :=
     map nw_Name (List.filter (fun s => bool_decide (Api.sp_DeploymentPolicy (Spec s) = name)) items) in
   check (bool_decide (referencingNodeWrights = []))
     (errorf "cannot delete DeploymentPolicy %q: still referenced by %d NodeWright(s): %v"
        (name :: show_int (zlen referencingNodeWrights) :: referencingNodeWrights))).
End Policies.

(* ------------------------------------------------------------------ *)
(** ** Lemmas: which graphs are valid

    Whether [BuildGraph] succeeds and its graph is valid depends on the names and
    the dependencies of the packages only. *)

Section Graphs.
Context {A T : Type} `{MR : MapRange}.
Context (uname : A -> string) (deps : A -> res (list string)) (obj : A -> T) (fmt : string).

Definition add_item (g : dag T) (a : A) : res (dag T) :=
  rbind (deps a) (fun ds => rwrap fmt [] (Add g (uname a) (obj a) ds)).

(** Every name is new, and every dependency is a name. *)
Definition complete (names : list string) (items : list (string * res (list string))) : Prop :=
  NoDup items.*1 /\ forall n d, (n, d) ∈ items -> exists ds, d = Ok ds /\ forall x, x ∈ ds -> x ∈ names.

Record built (g : dag T) (names needed : list string) : Prop := {
  built_vertices n : is_Some (vertices g !! n) <-> n ∈ names;
  built_placeholders n : is_Some (placeholders g !! n) <-> n ∈ needed /\ n ∉ names
}.

Lemma built_Add g names needed n o ds : built g names needed ->
  match Add g n o ds with
  | Ok g' => n ∉ names /\ built g' (n :: names) (ds ++ needed)
  | _ => n ∈ names
  end.
Proof.
  intros [Hv Hp]. destruct (Add g n o ds) as [g'|e|] eqn:HA; [|unfold Add in HA; destruct (vertices g !! n) eqn:E; [apply Hv; eauto|done]..].
  assert (Hn : vertices g !! n = None) by (unfold Add in HA; by destruct (vertices g !! n)).
  split; [by rewrite <- Hv, Hn; intros []|]. split; intros m.
  - pose proof (Add_lookup _ _ _ _ _ HA m) as HL. rewrite elem_of_cons, <- Hv. unfold is_Some.
    destruct (vertices g' !! m); [case_decide; naive_solver|]. destruct HL as [? ->]. naive_solver.
  - rewrite (Add_placeholders _ _ _ _ _ _ HA), elem_of_app, elem_of_cons, Hp, eq_None_not_Some, Hv. naive_solver.
Qed.

Lemma built_Valid g names needed : built g names needed -> Valid g = Ok tt <-> forall x, x ∈ needed -> x ∈ names.
Proof.
  intros [_ Hp]. rewrite Valid_ok. split.
  - intros E x Hx. destruct (decide (x ∈ names)) as [|Hn]; [done|]. destruct (proj2 (Hp x) (conj Hx Hn)) as [v Hv].
    by rewrite E, lookup_empty in Hv.
  - intros H. apply map_eq. intros n. rewrite lookup_empty, eq_None_not_Some, Hp. intros [? []]. auto.
Qed.

Definition item (a : A) : string * res (list string) := (uname a, deps a).

Lemma add_items_valid l : forall g names needed, built g names needed ->
  (exists g', rfold add_item g l = Ok g' /\ Valid g' = Ok tt) <->
  (forall n, n ∈ map uname l -> n ∉ names) /\ (forall x, x ∈ needed -> x ∈ names ++ map uname l) /\
  complete (names ++ map uname l) (map item l).
Proof.
  induction l as [|a l IH]; intros g names needed Hg; cbn [rfold map].
  - rewrite app_nil_r. pose proof (built_Valid _ _ _ Hg) as HV. unfold complete. setoid_rewrite elem_of_nil. split.
    + intros (g' & [= <-] & H). split_and!; [done|exact (proj1 HV H)|constructor|done].
    + intros (_ & H & _). exists g. split; [done|exact (proj2 HV H)].
  - unfold add_item at 1. destruct (deps a) as [ds| |] eqn:Ed; cbn [rbind].
    2,3: split; [by intros (? & ? & _)|]; intros (_ & _ & _ & H); destruct (H (uname a) (deps a)) as (? & ? & _); [left|congruence].
    pose proof (built_Add g names needed (uname a) (obj a) ds Hg) as HA.
    destruct (Add g (uname a) (obj a) ds) as [g1|e|]; cbn [rwrap rbind].
    2,3: split; [by intros (? & ? & _)|]; intros (H & _); destruct (H (uname a)); [left|done].
    destruct HA as [Hn Hg1]. rewrite (IH _ _ _ Hg1). unfold complete.
    replace (item a) with (uname a, (Ok ds : res (list string))) by (unfold item; by rewrite Ed). cbn [fmap list_fmap fst].
    change (list_fmap _ _ fst (map item l)) with (map item l).*1.
    assert (Hfst : (map item l).*1 = map uname l) by (rewrite <- list_fmap_compose; done). rewrite Hfst, NoDup_cons.
    assert (Hmem : forall x, x ∈ (uname a :: names) ++ map uname l <-> x ∈ names ++ uname a :: map uname l)
      by (intros x; rewrite !elem_of_app, !elem_of_cons; tauto).
    setoid_rewrite Hmem. setoid_rewrite (elem_of_cons (map uname l)). setoid_rewrite (elem_of_cons (map item l)).
    assert (Hneed : (forall x, x ∈ ds ++ needed -> x ∈ names ++ uname a :: map uname l) <->
      (forall x, x ∈ ds -> x ∈ names ++ uname a :: map uname l) /\ (forall x, x ∈ needed -> x ∈ names ++ uname a :: map uname l))
      by (setoid_rewrite elem_of_app at 1; naive_solver).
    rewrite Hneed. split.
    + intros (H1 & [Hds H2] & H3 & H4). split_and!; [|done| |done|].
      * intros n [->|Hin]; [done|]. specialize (H1 n Hin). rewrite elem_of_cons in H1. tauto.
      * intros H. apply (H1 _ H). left.
      * intros n d [[= -> ->]|H]; [by eexists|exact (H4 n d H)].
    + intros (H1 & H2 & (H3 & H3') & H4). destruct (H4 _ _ (or_introl eq_refl)) as (ds' & [= <-] & Hds).
      split_and!; [|done|done|done|intros n d H; exact (H4 n d (or_intror H))].
      intros n Hin [->|Hn']%elem_of_cons; [done|]. by apply (H1 n); [right|].
Qed.

Lemma graph_valid l :
  (exists g, rfold add_item New l = Ok g /\ Valid g = Ok tt) <-> complete (map item l).*1 (map item l).
Proof.
  assert (HN : built (New : dag T) [] []).
  { split; intros n; simpl; rewrite lookup_empty, ?elem_of_nil; split; by intros []. }
  rewrite (add_items_valid l New [] [] HN). cbn [app]. setoid_rewrite elem_of_nil.
  assert (Hfst : (map item l).*1 = map uname l) by (rewrite <- list_fmap_compose; done). rewrite Hfst. naive_solver.
Qed.
End Graphs.

Lemma complete_Permutation l l' : l ≡ₚ l' -> complete l.*1 l <-> complete l'.*1 l'.
Proof. intros H. unfold complete. by setoid_rewrite H. Qed.

(* ------------------------------------------------------------------ *)
(** ** Lemmas: the two groups agree *)

Section Agreement.
Context `{MR : MapRange} `{SE : Selectors} `{SV : Semver} `{QO : QuantityOrder}.

Lemma rbind_discard {A B} (m : res A) (k : res B) b : rbind m (fun _ => k) = Ok b <-> (exists a, m = Ok a) /\ k = Ok b.
Proof. destruct m; simpl; naive_solver. Qed.

Lemma range_fmap {V W} (f : V -> W) (m : gmap string V) : range (f <$> m) ≡ₚ map (prod_map id f) (range m).
Proof. rewrite !range_Permutation. by rewrite map_to_list_fmap. Qed.

Lemma BuildGraph_agrees spec out :
  (exists g, BuildGraph spec = Ok g /\ Valid g = Ok tt) <->
  (exists g, Api.BuildGraph (convertSkyhookSpec spec out) = Ok g /\ Valid g = Ok tt).
Proof.
  etransitivity; [exact (graph_valid (fun kp : string * Package => GetUniqueName (pkg_Ref kp.2))
    (fun kp => package_deps (range (pkg_DependsOn kp.2))) snd _ (range (sp_Packages spec)))|].
  symmetry. etransitivity; [exact (graph_valid (fun kp : string * Api.Package => pkg_UniqueName kp.2)
    (fun kp => Api.package_deps (range (Api.pkg_DependsOn kp.2))) snd _ (range (convertPackages (sp_Packages spec))))|].
  apply complete_Permutation. unfold convertPackages. rewrite range_fmap, map_map. done.
Qed.

Lemma config_interrupts_agree p :
  rfold (fun _ pi => config_interrupt_ok p pi.1) tt (range (pkg_ConfigInterrupts p)) = Ok tt <->
  rfold (fun _ pi => Webhook.config_interrupt_ok (convertPackage p) pi.1) tt (range (Api.pkg_ConfigInterrupts (convertPackage p))) = Ok tt.
Proof.
  rewrite !rfold_units. cbn [convertPackage Api.pkg_ConfigInterrupts]. setoid_rewrite range_fmap.
  setoid_rewrite list_elem_of_fmap. split.
  - intros H a (b & -> & Hb). exact (H _ Hb).
  - intros H a Ha. exact (H (prod_map id convertInterrupt a) (ex_intro _ a (conj eq_refl Ha))).
Qed.

Lemma validate_package_agrees names name p names' :
  validate_package names (name, p) = Ok names' <-> Webhook.validate_package names (name, convertPackage p) = Ok names'.
Proof.
  unfold validate_package, Webhook.validate_package. rewrite !rbind_unit_ok, config_interrupts_agree.
  assert (Hr : validateResourceOverrides name (pkg_Resources p) = Webhook.validateResourceOverrides name (Api.pkg_Resources (convertPackage p)))
    by (cbn [convertPackage Api.pkg_Resources]; by destruct (pkg_Resources p)).
  assert (Hu : match Api.pkg_Uninstall (convertPackage p) with Some u => Api.un_Apply u && negb (Api.un_Enabled u) | None => false end =
               match pkg_Uninstall p with Some u => un_Apply u && negb (un_Enabled u) | None => false end)
    by (cbn [convertPackage Api.pkg_Uninstall]; by destruct (pkg_Uninstall p)).
  rewrite Hr, Hu. cbn [convertPackage Api.pkg_StageTimeout negative negb check]. tauto.
Qed.

Lemma validate_packages_agree l : forall names names',
  rfold validate_package names l = Ok names' <-> rfold Webhook.validate_package names (map (prod_map id convertPackage) l) = Ok names'.
Proof.
  induction l as [|[name p] l IH]; intros names names'; cbn [rfold map]; [done|].
  rewrite !rbind_ok. cbn [prod_map id]. by setoid_rewrite validate_package_agrees; setoid_rewrite IH.
Qed.

Lemma packages_agree (packages : Packages) :
  (exists names, rfold validate_package ∅ (range packages) = Ok names) <->
  (exists names, rfold Webhook.validate_package ∅ (range (convertPackages packages)) = Ok names).
Proof.
  setoid_rewrite validate_packages_agree. pose proof (range_fmap convertPackage packages) as Hp.
  rewrite !validate_packages_spec; [|apply NoDup_range|intros; apply lookup_empty|rewrite <- Hp; apply NoDup_range|intros; apply lookup_empty].
  by setoid_rewrite <- Hp.
Qed.

Lemma Skyhook_Validate_agrees (s : Skyhook) out :
  Skyhook_Validate s = Ok tt <-> NodeWright_Validate (nodewright_of (Convert_Skyhook_To_NodeWright s out)) = Ok tt.
Proof.
  unfold Skyhook_Validate, NodeWright_Validate. cbn [nodewright_of Spec Convert_Skyhook_To_NodeWright o_Spec].
  set (spec := o_Spec s). set (new := convertSkyhookSpec spec (o_Spec out)).
  assert (Hb : Api.InterruptionBudget_Validate (Api.sp_InterruptionBudget new) = InterruptionBudget_Validate (sp_InterruptionBudget spec)) by done.
  assert (Hd : Api.DrainConfig_Validate (Api.sp_DrainConfig new) = DrainConfig_Validate (sp_DrainConfig spec))
    by (unfold new; cbn [convertSkyhookSpec Api.sp_DrainConfig]; by destruct (sp_DrainConfig spec)).
  rewrite Hb, Hd, !rbind_discard. do 5 apply and_iff_compat_l. rewrite packages_agree. apply and_iff_compat_l.
  rewrite !rbind_ok. setoid_rewrite rwrap_ok. apply BuildGraph_agrees.
Qed.
End Agreement.

(* ------------------------------------------------------------------ *)
(** ** Lemmas: policies *)

(** The policy of the new group that an object is. *)
Definition policy_of (o : NewDeploymentPolicy) : DeploymentPolicy.DeploymentPolicy :=
  {| dp_Name := om_Name (o_Meta o); DeploymentPolicy.dp_Default := ndps_Default (o_Spec o);
     dp_Compartments := ndps_Compartments (o_Spec o); dp_ResetBatchStateOnCompletion := ndps_ResetBatchStateOnCompletion (o_Spec o) |}.

Lemma DeploymentStrategy_Validate_agrees s :
  DeploymentPolicy.DeploymentStrategy_Validate (convertDeploymentStrategy s) = DeploymentStrategy_Validate s.
Proof. by destruct s as [[] [] []]. Qed.

Lemma optional_Validate_agrees fmt args s :
  DeploymentPolicy.optional_Validate fmt args (convertDeploymentStrategy <$> s) = optional_Validate fmt args s.
Proof. destruct s as [s|]; [|done]. simpl. by rewrite DeploymentStrategy_Validate_agrees. Qed.

Lemma DeploymentStrategy_Default_agrees s :
  convertDeploymentStrategy (DeploymentStrategy_Default s) = DeploymentPolicy.DeploymentStrategy_Default (convertDeploymentStrategy s).
Proof. by destruct s as [[] [] []]. Qed.

Section PolicyAgreement.
Context `{MR : MapRange} `{SE : Selectors}.

Lemma Compartment_Validate_agrees c : DeploymentPolicy.Compartment_Validate (convertCompartment c) = Compartment_Validate c.
Proof.
  unfold DeploymentPolicy.Compartment_Validate, Compartment_Validate. cbn [convertCompartment DeploymentPolicy.c_Strategy].
  by rewrite optional_Validate_agrees.
Qed.

Lemma validate_compartments_agree cs : forall names selectors,
  DeploymentPolicy.validate_compartments names selectors (map convertCompartment cs) = validate_compartments names selectors cs.
Proof.
  induction cs as [|c cs IH]; intros names selectors; [done|]. cbn [map DeploymentPolicy.validate_compartments validate_compartments].
  cbn [convertCompartment DeploymentPolicy.c_Name DeploymentPolicy.c_Selector]. fold (convertCompartment c).
  rewrite Compartment_Validate_agrees. do 2 (case_bool_decide; [done|]).
  destruct (Compartment_Validate c); [|done..]. cbn [rwrap rbind]. destruct (List.find _ _) as [[]|]; [done|]. apply IH.
Qed.

Lemma DeploymentPolicy_Validate_agrees p out :
  DeploymentPolicy.DeploymentPolicy_Validate (policy_of (Convert_DeploymentPolicy_To_NodeWright p out)) = DeploymentPolicy_Validate p.
Proof.
  unfold DeploymentPolicy.DeploymentPolicy_Validate, DeploymentPolicy_Validate.
  cbn [policy_of Convert_DeploymentPolicy_To_NodeWright o_Spec convertDeploymentPolicySpec ndps_Default ndps_Compartments
       DeploymentPolicy.dp_Default dp_Compartments convertPolicyDefault DeploymentPolicy.pd_Strategy].
  by rewrite optional_Validate_agrees, validate_compartments_agree.
Qed.

Lemma Default_agrees p out :
  policy_of (Convert_DeploymentPolicy_To_NodeWright (DeploymentPolicyWebhook_Default p) out) =
  DeploymentPolicy_Default (policy_of (Convert_DeploymentPolicy_To_NodeWright p out)).
Proof.
  unfold policy_of, DeploymentPolicy_Default. cbn. f_equal.
  - unfold convertPolicyDefault. cbn. f_equal. destruct (pd_Strategy _) as [s|]; [|done]. simpl. by rewrite DeploymentStrategy_Default_agrees.
  - change (list_fmap _ _ convertCompartment) with (map convertCompartment). rewrite !map_map. apply map_ext. intros c.
    unfold convertCompartment, default_compartment, DeploymentPolicy.default_compartment. cbn. f_equal.
    destruct (c_Strategy c) as [s|]; [|done]. simpl. by rewrite DeploymentStrategy_Default_agrees.
Qed.

Lemma references_agree (skyhooks : list Skyhook) p out outp :
  (DeploymentPolicyWebhook_ValidateDelete (Ok skyhooks) p).2 = Ok tt <->
  (new_ValidateDelete (Ok (map (fun s => nodewright_of (Convert_Skyhook_To_NodeWright s out)) skyhooks))
     (policy_of (Convert_DeploymentPolicy_To_NodeWright p outp))).2 = Ok tt.
Proof.
  cbn. rewrite !check_ok, !bool_decide_eq_true. induction skyhooks as [|s skyhooks IH]; [done|].
  simpl. by case_bool_decide.
Qed.
End PolicyAgreement.

(* ------------------------------------------------------------------ *)
(** ** Properties *)

Section Properties.
Context `{MR : MapRange} `{SE : Selectors} `{SV : Semver} `{QO : QuantityOrder}.

(** What the new group answers once a policy has been mirrored. *)
Definition mirrored_policy (out : NewDeploymentPolicy) (policy : string -> res (option DeploymentPolicy)) (name : string)
  : res (option DeploymentPolicy.DeploymentPolicy) :=
  let! p := policy name in Ok ((fun p => policy_of (Convert_DeploymentPolicy_To_NodeWright p out)) <$> p).

Lemma policy_exists_agrees policy (s : Skyhook) out outp :
  validateDeploymentPolicyExists policy s = Ok tt <->
  Webhook.validateDeploymentPolicyExists (mirrored_policy outp policy) (nodewright_of (Convert_Skyhook_To_NodeWright s out)) = Ok tt.
Proof.
  unfold validateDeploymentPolicyExists, Webhook.validateDeploymentPolicyExists, mirrored_policy.
  cbn [nodewright_of Spec Convert_Skyhook_To_NodeWright o_Spec convertSkyhookSpec Api.sp_DeploymentPolicy].
  case_bool_decide; [done|]. by destruct (policy _) as [[q|]| |].
Qed.

(** C28: the two groups admit alike, so that nothing admitted in the old one gets
    stuck on its way to the new one.  A resource of the old group may be created
    exactly when its mirror may be in the new group, given that the policies are
    mirrored too: budgets, drain timeouts, selectors, packages and the dependency
    graph are judged the same, in whatever order maps are ranged over.  A policy
    is judged alike to the very error, is given the same defaults before as after
    its conversion, and may be deleted exactly when its mirror may once the
    resources are mirrored. *)
Theorem groups_admit_alike policy (s : Skyhook) (p : DeploymentPolicy) out outp :
  ((SkyhookWebhook_ValidateCreate policy s).2 = Ok tt <->
     Webhook.ValidateCreate (mirrored_policy outp policy) (nodewright_of (Convert_Skyhook_To_NodeWright s out)) = Ok tt) /\
  let p' := policy_of (Convert_DeploymentPolicy_To_NodeWright p outp) in
  (DeploymentPolicyWebhook_ValidateCreate p).2 = (new_ValidateCreate p').2 /\
  policy_of (Convert_DeploymentPolicy_To_NodeWright (DeploymentPolicyWebhook_Default p) outp) = DeploymentPolicy_Default p' /\
  forall skyhooks,
    (DeploymentPolicyWebhook_ValidateDelete (Ok skyhooks) p).2 = Ok tt <->
    (new_ValidateDelete (Ok (map (fun s => nodewright_of (Convert_Skyhook_To_NodeWright s out)) skyhooks)) p').2 = Ok tt.
Proof.
  split; [|split_and!].
  - cbn [SkyhookWebhook_ValidateCreate snd]. unfold validate_new, Webhook.ValidateCreate.
    by rewrite !rbind_unit_ok, !rwrap_ok, (Skyhook_Validate_agrees s out), (policy_exists_agrees policy s out outp).
  - symmetry. apply DeploymentPolicy_Validate_agrees.
  - apply Default_agrees.
  - intros skyhooks. apply references_agree.
Qed.
End Properties.

(* ------------------------------------------------------------------ *)
(** ** Runs *)

#[local] Existing Instance label_selectors.
#[local] Instance all_semver : Semver := { semver_IsValid _ := true; semver_Compare _ _ := 0; semver_MajorMinor v := v }.
#[local] Instance text_quantities : QuantityOrder :=
  { quantity_zero q := bool_decide (q = ""); quantity_Cmp a b := if str_leb b a then 0 else -1;
    quantity_Sign _ := 1; quantity_String q := q }.

Definition old_package (name version image : string) (dependsOn : gmap string string) : Package :=
  {| pkg_Ref := {| ref_Name := name; ref_Version := version |}; pkg_Image := image; pkg_ContainerSHA := "";
     pkg_AgentImageOverride := ""; pkg_Interrupt := None; pkg_DependsOn := dependsOn; pkg_ConfigInterrupts := ∅;
     pkg_ConfigMap := ∅; pkg_Env := []; pkg_Resources := None; pkg_GracefulShutdown := None; pkg_Uninstall := None |}.

Definition old_spec (packages : Packages) : SkyhookSpec :=
  {| Serial := false; PodNonInterruptLabels := {| MatchLabels := None; MatchExpressions := None |};
     NodeSelector := {| MatchLabels := None; MatchExpressions := None |}; sp_DeploymentPolicy := ""; DeploymentPolicyOptions := None;
     sp_InterruptionBudget := {| ib_Percent := None; ib_Count := None |}; sp_DrainConfig := None; sp_Packages := packages;
     AdditionalTolerations := []; RuntimeRequired := false; AutoTaintNewNodes := false; Priority := 200;
     Sequencing := SequencingNode |}.

Definition old_status : SkyhookStatus :=
  {| ObservedGeneration := 0; st_NodeState := None; NodeStatus := ∅; st_Status := StatusUnknown; Conditions := []; NodeBootIds := ∅;
     NodePriority := ∅; NodeOrderOffset := 0; ConfigUpdates := ∅; CompartmentStatuses := ∅; NodesInProgress := 0;
     CompleteNodes := ""; PackageList := "" |}.

Definition old_object (packages : Packages) : Skyhook :=
  {| o_APIVersion := "skyhook.nvidia.com/v1alpha1"; o_Kind := "Skyhook"; o_Meta := meta_of "tuning" 1 ∅;
     o_Spec := old_spec packages; o_Status := old_status |}.

Definition base : Package := old_package "base" "1.0.0" "ghcr.io/example/base" ∅.

(** A resource whose dependency is of another version is refused. *)
Example dependency_of_another_version :
  let tuned version := old_package "tuning" "2.0.0" "ghcr.io/example/tuning" {["base" := version]} in
  Skyhook_Validate (old_object (<["base" := base]> {["tuning" := tuned "1.0.0"]})) = Ok tt /\
  Skyhook_Validate (old_object (<["base" := base]> {["tuning" := tuned "1.0.1"]})) =
    Err (wrapf "error trying to validate skyhook spec graph is invalid: %w" []
           (errorf "error graph is not valid, missing: %v" ["base|1.0.1"])).
Proof. split; vm_compute; reflexivity. Qed.

(** A tag in the image is refused. *)
Example tag_in_the_image :
  Skyhook_Validate (old_object {["base" := old_package "base" "1.0.0" "ghcr.io/example/base:1.0.0" ∅]}) =
    Err (errorf "error package %s's image '%s' contains an inline tag '%s'. Do not embed a tag in the image; the package version supplies the tag"
           ["base"; "ghcr.io/example/base:1.0.0"; "1.0.0"]).
Proof. vm_compute; reflexivity. Qed.
