(* ===== verification/Events.v ===== *)
(** * Which events wake the main pass

    Models [operator/internal/controller/event_handler.go].  Every relevant event
    asks for the same pass, after a delay.  The answer to the listing of the
    resources is an argument; log lines are left out. *)

From S2P Require Import Prelude Graph DeploymentPolicy Api NodeState Skyhook Text Node Migration Compartment ClusterState Partition Webhook.

#[local] Open Scope Z_scope.
#[local] Open Scope go_scope.

(** The objects that are told apart. *)
Inductive watched :=
| WatchedNodeWright (cr : NodeWright)
| WatchedNode (node : Node)
| WatchedOther.

Definition globalReconcileName : string := "nodewright".
Definition globalReconcileDelay : Z := 50 * 1000000.

Section Events.
Context `{SE : Selectors}.

(** A selector that is invalid is nil, and is asked all the same. *)
Definition match_selector (lbs : gmap string string) (cr : NodeWright) : res bool :=
  match LabelSelectorAsSelector (NodeSelector (Spec cr)) with
  | Ok matches => Ok (matches lbs)
  | Err _ | Panic => Panic
  end.

(** The names; [NodeWright] has no namespace. *)
Definition matchSelectors (crs : list NodeWright) (lbs : gmap string string) : res (list string) :=
  rfold (fun ret cr => let! matched := match_selector lbs cr in Ok (if matched : bool then ret ++ [nw_Name cr] else ret)) [] crs.

(** [GetSkyhooks] answers nil when there is none. *)
Definition relevant (skyhooks : res (option (list NodeWright))) (object : watched) : res bool :=
  match object with
  | WatchedNodeWright _ => Ok true
  | WatchedNode node =>
      let! found := rwrap "listing nodewrights for node relevance check: %w" [] skyhooks in
      match found with
      | None => Ok false
      | Some crs => let! names := matchSelectors crs (n_Labels node) in Ok (0 <? zlen names)
      end
  | WatchedOther => Ok false
  end.

(** What is put into the queue, with its delay. *)
Definition enqueue (delay : Z) (skyhooks : res (option (list NodeWright))) (object : watched) : res (list (string * Z)) :=
  match relevant skyhooks object with
  | Ok true => Ok [(globalReconcileName, delay)]
  | Ok false | Err _ => Ok []
  | Panic => Panic
  end.

Inductive watch_event :=
| Created (object : watched) | Updated (old new : watched) | Deleted (object : watched) | Generic (object : watched).

Definition handle (delay : Z) (skyhooks : res (option (list NodeWright))) (evt : watch_event) : res (list (string * Z)) :=
  match evt with
  | Created object | Updated _ object | Deleted object | Generic object => enqueue delay skyhooks object
  end.

(* ------------------------------------------------------------------ *)
(** ** Lemmas *)

Definition selected_by (lbs : gmap string string) (cr : NodeWright) : Prop :=
  exists matches, LabelSelectorAsSelector (NodeSelector (Spec cr)) = Ok matches /\ matches lbs = true.

Lemma match_selector_selected lbs cr : match_selector lbs cr = Ok true <-> selected_by lbs cr.
Proof. unfold match_selector, selected_by. destruct (LabelSelectorAsSelector _) as [m| |]; [split; [intros [= H]; by exists m|intros (? & [= <-] & H); by rewrite H]|..]; split; try done; by intros (? & ? & _). Qed.

Lemma matchSelectors_spec crs lbs : (forall cr, cr ∈ crs -> exists m, LabelSelectorAsSelector (NodeSelector (Spec cr)) = Ok m) ->
  exists names, matchSelectors crs lbs = Ok names /\ forall name, name ∈ names <-> exists cr, cr ∈ crs /\ selected_by lbs cr /\ nw_Name cr = name.
Proof.
  unfold matchSelectors. intros Hm. assert (forall ret, exists names,
    rfold (fun ret cr => let! matched := match_selector lbs cr in Ok (if matched : bool then ret ++ [nw_Name cr] else ret)) ret crs = Ok names /\
    forall name, name ∈ names <-> name ∈ ret \/ exists cr, cr ∈ crs /\ selected_by lbs cr /\ nw_Name cr = name) as H.
  2: { destruct (H []) as (names & Hr & Hn). exists names. split; [done|]. intros name. rewrite Hn, elem_of_nil. naive_solver. }
  induction crs as [|cr crs IH]; intros ret; cbn [rfold].
  - exists ret. split; [done|]. setoid_rewrite elem_of_nil. naive_solver.
  - destruct (Hm cr ltac:(left)) as [m Hcr]. pose proof (match_selector_selected lbs cr) as Hs.
    assert (Hc : match_selector lbs cr = Ok (m lbs)) by (unfold match_selector; by rewrite Hcr). rewrite Hc in Hs |- *. cbn [rbind].
    destruct (IH (fun c Hc => Hm c ltac:(by right)) (if m lbs then ret ++ [nw_Name cr] else ret)) as (names & Hr & Hn).
    exists names. split; [done|]. intros name. rewrite Hn. setoid_rewrite elem_of_cons. destruct (m lbs); [|naive_solver].
    rewrite elem_of_app, list_elem_of_singleton. naive_solver.
Qed.

(** A node's event is relevant if a resource selects the node as it is now. *)
Lemma node_relevant crs node : (forall cr, cr ∈ crs -> exists m, LabelSelectorAsSelector (NodeSelector (Spec cr)) = Ok m) ->
  exists b, relevant (Ok (Some crs)) (WatchedNode node) = Ok b /\
    (b = true <-> exists cr, cr ∈ crs /\ selected_by (n_Labels node) cr).
Proof.
  intros Hm. destruct (matchSelectors_spec crs (n_Labels node) Hm) as (names & Hr & Hn).
  cbn. rewrite Hr. cbn. eexists. split; [done|]. rewrite Z.ltb_lt. split.
  - destruct names as [|name names]; [done|]. intros _. destruct (proj1 (Hn name) ltac:(left)) as (cr & ? & ? & _). eauto.
  - intros (cr & Hc & Hs). assert (Hin : nw_Name cr ∈ names) by (apply Hn; eauto). destruct names; [by apply elem_of_nil in Hin|]. unfold zlen. simpl. lia.
Qed.
End Events.

(* ------------------------------------------------------------------ *)
(** ** The nodes of a pass wake it *)

Section Wakes.
Context `{MR : MapRange} `{JS : NodeStateJSON} `{TT : TimeText} `{SE : Selectors} `{SV : Semver} `{QO : QuantityOrder}.

Lemma works_on_selected nws nodes policies rs node :
  NoDup (map n_Name nodes) -> NoDup (map nw_Name nws) -> map sns_Name rs ≡ₚ map nw_Name nws ->
  Forall (fun s => exists nw, nw ∈ nws /\ state_of nodes policies nw s) rs -> node ∈ nodes ->
  (exists cr, cr ∈ nws /\ selected_by (n_Labels node) cr) <-> exists s, s ∈ rs /\ n_Name node ∈ node_names s.
Proof.
  intros Hnodes Hnws Hnames Hf Hnode.
  assert (Hs : forall s, s ∈ rs -> exists nw, nw ∈ nws /\ nw_Name nw = sns_Name s /\ (selected_by (n_Labels node) nw <-> n_Name node ∈ node_names s)).
  { intros s Hin. destruct (proj1 (Forall_forall _ _) Hf s Hin) as (nw & Hnw & (_ & Hname & (m & Hm & Hn) & _) & _).
    exists nw. split; [done|]. split; [done|]. rewrite Hn, list_elem_of_fmap. setoid_rewrite elem_of_filterb. split.
    - intros (m' & Hm' & Hl). exists node. rewrite Hm in Hm'. by injection Hm' as ->.
    - intros (node' & Heq & Hin' & Hl). apply (NoDup_map_inj n_Name nodes node node') in Heq as <-; [|done..]. by exists m. }
  split.
  - intros (cr & Hcr & Hsel). assert (Hin : nw_Name cr ∈ map sns_Name rs) by (rewrite Hnames; by apply list_elem_of_fmap_2).
    apply list_elem_of_fmap in Hin as (s & Heq & Hs1). destruct (Hs s Hs1) as (nw & Hnw & Hname & Hiff).
    assert (nw = cr) as -> by (apply (NoDup_map_inj nw_Name nws); [done..|congruence]). exists s. by rewrite <- Hiff.
  - intros (s & Hs1 & Hn). destruct (Hs s Hs1) as (nw & Hnw & _ & Hiff). exists nw. by rewrite Hiff.
Qed.

(** When names are distinct and the resources were admitted, an event of a node
    of the cluster is put into the queue exactly when a pass that lists the same
    objects would work on the node. *)
Theorem nodes_of_a_pass_wake_it now nws nodes policies policy delay node old
    (Hnodes : NoDup (map n_Name nodes)) (Hnws : NoDup (map nw_Name nws))
    (Hresources : forall nw, nw ∈ nws -> ValidateCreate policy nw = Ok tt)
    (Hpolicies : forall p, p ∈ policies -> DeploymentPolicy_Validate p = Ok tt)
    (Hnode : node ∈ nodes) :
  exists rs queue, BuildState now nws nodes policies = Ok rs /\
    handle delay (Ok (Some nws)) (Updated old (WatchedNode node)) = Ok queue /\
    (queue = [(globalReconcileName, delay)] <-> exists s, s ∈ rs /\ n_Name node ∈ node_names s) /\
    (queue = [(globalReconcileName, delay)] \/ queue = []).
Proof.
  destruct (admitted_state now nws nodes policies policy Hnodes Hresources Hpolicies) as (rs & Hrs & _ & Hnames & Hf).
  destruct (node_relevant nws node) as (b & Hb & Hiff).
  { intros cr Hcr. by apply Hresources, ValidateCreate_admits in Hcr as [[] _]. }
  exists rs, (if b then [(globalReconcileName, delay)] else []). split; [exact Hrs|]. split; [cbn [handle]; unfold enqueue; rewrite Hb; by destruct b|].
  split; [|destruct b; auto]. rewrite <- (works_on_selected nws nodes policies rs node Hnodes Hnws Hnames Hf Hnode), <- Hiff. by destruct b.
Qed.
End Wakes.

(* ------------------------------------------------------------------ *)
(** ** An invalid selector *)

(** Selectors with expressions are taken for invalid. *)
#[local] Instance plain_selectors : Selectors := {
  LabelSelectorAsSelector sel :=
    match MatchExpressions sel with
    | Some _ => Err (errorf "not a valid label selector operator" [])
    | None => Ok (fun l => match MatchLabels sel with Some m => bool_decide (m ⊆ l) | None => true end)
    end;
  selector_Empty sel := match MatchLabels sel with Some _ => false | None => true end
}.

(** It is meant to match every node; the first event of a node follows the nil
    selector instead. *)
Example invalid_selector_panics l cr node :
  MatchExpressions (NodeSelector (Spec cr)) = Some l ->
  handle globalReconcileDelay (Ok (Some [cr])) (Created (WatchedNode node)) = Panic.
Proof. intros H. cbn. unfold enqueue, relevant, matchSelectors, match_selector. cbn. by rewrite H. Qed.
