(* ===== verification/Logs.v ===== *)
(** * The tail of a container's log

    Models [GetPodLogTail] and [tailAndSanitize] of [operator/internal/dal/dal.go]:
    the last bytes of a log as valid UTF-8, kept in the annotation of a Job that
    ran out of time.  A stream is what its reads return; closing it and the
    timeout, an error of a read, are left out. *)

From S2P Require Import Prelude Encoding.

#[local] Open Scope Z_scope.
#[local] Open Scope go_scope.

Definition slen (s : string) : Z := Z.of_nat (String.length s).

(* ------------------------------------------------------------------ *)
(** ** [strings.ToValidUTF8] *)

(** The string cut into its runes and, not valid, the bytes between them. *)
Fixpoint pieces (s : string) : list (string * bool) :=
  match s with
  | EmptyString => []
  | String a s =>
      if bool_decide (byte a < 128) then (String a "", true) :: pieces s
      else match s with
      | String b s2 =>
          if between 194 223 a && between 128 191 b then (String a (String b ""), true) :: pieces s2
          else match s2 with
          | String c s3 =>
              if between 224 239 a && between (second3 a).1 (second3 a).2 b && between 128 191 c
              then (String a (String b (String c "")), true) :: pieces s3
              else match s3 with
              | String d s4 =>
                  if between 240 244 a && between (second4 a).1 (second4 a).2 b && between 128 191 c && between 128 191 d
                  then (String a (String b (String c (String d ""))), true) :: pieces s4
                  else (String a "", false) :: pieces s
              | EmptyString => (String a "", false) :: pieces s
              end
          | EmptyString => (String a "", false) :: pieces s
          end
      | EmptyString => (String a "", false) :: pieces s
      end
  end.

(** [invalid]: the byte before was not valid; a run of them is replaced once. *)
Fixpoint write_pieces (replacement : string) (invalid : bool) (l : list (string * bool)) : string :=
  match l with
  | [] => ""
  | (p, true) :: l => p +:+ write_pieces replacement false l
  | (_, false) :: l => (if invalid then "" else replacement) +:+ write_pieces replacement true l
  end.

Definition ToValidUTF8 (s replacement : string) : string := write_pieces replacement false (pieces s).

(* ------------------------------------------------------------------ *)
(** ** The tail *)

(** [s[n:]] *)
Fixpoint drop_bytes (n : nat) (s : string) : string :=
  match n, s with
  | O, _ => s
  | S n, String _ s => drop_bytes n s
  | S _, EmptyString => ""
  end.

(** The reads up to the one that ends the stream, with an error unless at its end. *)
Record stream := { st_reads : list string; st_last : string; st_error : option error }.

Definition keep_tail (maxBytes : Z) (tail chunk : string) : string :=
  if bool_decide (chunk = "") then tail
  else
    let tail := tail +:+ chunk in
    if maxBytes <? slen tail then drop_bytes (Z.to_nat (slen tail - maxBytes)) tail else tail.

(** U+FFFD *)
Definition replacement_rune : string := encode_rune RuneError.

Definition tailAndSanitize (r : stream) (maxBytes : Z) : res string :=
  if maxBytes <=? 0 then Ok ""
  else
    let tail := foldl (keep_tail maxBytes) "" (st_reads r ++ [st_last r]) in
    match st_error r with
    | Some e => Err e
    | None =>
        let sanitized := ToValidUTF8 tail replacement_rune in
        if maxBytes <? slen sanitized then Ok (ToValidUTF8 (drop_bytes (Z.to_nat (slen sanitized - maxBytes)) sanitized) "")
        else Ok sanitized
    end.

Definition logTailLines : Z := 500.

(** [logs] opens the stream: the namespace, the pod, the container, and how many
    lines of it; there may be no client for it. *)
Definition GetPodLogTail (logs : option (string -> string -> string -> Z -> res stream)) (namespace pod container : string) (maxBytes : Z)
  : res string :=
  match logs with
  | None => Err (errorf "no clientset configured for reading pod logs" [])
  | Some logs =>
      let! s := rwrap "error opening log stream for pod [%s|%s] container [%s]: %w" [namespace; pod; container]
        (logs namespace pod container logTailLines) in
      rwrap "error reading log stream for pod [%s|%s] container [%s]: %w" [namespace; pod; container] (tailAndSanitize s maxBytes)
  end.

(* ------------------------------------------------------------------ *)
(** ** Lemmas: runes *)

Definition text (l : list string) : string := foldr String.append "" l.

(** The bytes of one rune, whatever follows them. *)
Definition rune (p : string) : Prop := forall t, pieces (p +:+ t) = (p, true) :: pieces t.

Lemma pieces_cons a s :
  (exists p t, String a s = p +:+ t /\ (String.length t <= String.length s)%nat /\ rune p /\
     pieces (String a s) = (p, true) :: pieces t /\ exists r, decoded (String a s) = (r, true) :: decoded t) \/
  (pieces (String a s) = (String a "", false) :: pieces s /\ decoded (String a s) = (RuneError, false) :: decoded s).
Proof.
  assert (Hp := eq_refl (pieces (String a s))). unfold pieces in Hp at 2; fold pieces in Hp.
  assert (Hd := eq_refl (decoded (String a s))). unfold decoded in Hd at 2; fold decoded in Hd.
  revert Hp Hd. destruct (bool_decide (byte a < 128)) eqn:E1.
  { intros -> ->. left. exists (String a ""), s. split_and!; [done|done| |done|by eexists].
    intros t. rewrite ?append_cons, append_nil_l. cbn [pieces]. by rewrite E1. }
  destruct s as [|b s2]; [intros -> ->; by right|]. destruct (between 194 223 a && between 128 191 b) eqn:E2.
  { intros -> ->. left. exists (String a (String b "")), s2. split_and!; [done|simpl; lia| |done|by eexists].
    intros t. rewrite ?append_cons, append_nil_l. cbn [pieces]. by rewrite E1, E2. }
  destruct s2 as [|c s3]; [intros -> ->; by right|].
  destruct (between 224 239 a && between (second3 a).1 (second3 a).2 b && between 128 191 c) eqn:E3.
  { intros -> ->. left. exists (String a (String b (String c ""))), s3. split_and!; [done|simpl; lia| |done|by eexists].
    intros t. rewrite ?append_cons, append_nil_l. cbn [pieces]. by rewrite E1, E2, E3. }
  destruct s3 as [|d s4]; [intros -> ->; by right|].
  destruct (between 240 244 a && between (second4 a).1 (second4 a).2 b && between 128 191 c && between 128 191 d) eqn:E4.
  { intros -> ->. left. exists (String a (String b (String c (String d "")))), s4. split_and!; [done|simpl; lia| |done|by eexists].
    intros t. rewrite ?append_cons, append_nil_l. cbn [pieces]. by rewrite E1, E2, E3, E4. }
  intros -> ->. by right.
Qed.

(** What the pieces are. *)
Record cut_up (s : string) : Prop := {
  cu_text : text (pieces s).*1 = s;
  cu_runes : forall p, (p, true) ∈ pieces s -> rune p;
  cu_bytes : forall p, (p, false) ∈ pieces s -> String.length p = 1%nat;
  cu_flags : (pieces s).*2 = (decoded s).*2
}.

Lemma pieces_cut_up s : cut_up s.
Proof.
  induction s as [s IH] using (induction_ltof1 _ String.length). unfold ltof in IH.
  destruct s as [|a s]; [split; [done|intros p H; by apply elem_of_nil in H..|done]|].
  destruct (pieces_cons a s) as [(p & t & Heq & Hlen & Hp & Hpc & r & Hdec)|[Hpc Hdec]].
  - destruct (IH t) as [H1 H2 H3 H4]; [simpl; lia|]. rewrite Heq in Hpc, Hdec |- *. split; rewrite ?Hpc, ?Hdec.
    + change (p +:+ text (pieces t).*1 = p +:+ t). by rewrite H1.
    + intros q [[= ->]|Hq]%elem_of_cons; eauto.
    + intros q [[=]|Hq]%elem_of_cons; eauto.
    + change (true :: (pieces t).*2 = true :: (decoded t).*2). by rewrite H4.
  - destruct (IH s) as [H1 H2 H3 H4]; [simpl; lia|]. split; rewrite ?Hpc, ?Hdec.
    + change (String a "" +:+ text (pieces s).*1 = String a s). by rewrite H1.
    + intros q [[=]|Hq]%elem_of_cons; eauto.
    + intros q [[= ->]|Hq]%elem_of_cons; eauto.
    + change (false :: (pieces s).*2 = false :: (decoded s).*2). by rewrite H4.
Qed.

Lemma valid_pieces s : valid_utf8 s = true <-> forall x, x ∈ pieces s -> x.2 = true.
Proof.
  unfold valid_utf8. rewrite forallb_forall. setoid_rewrite <- list_elem_of_In. split.
  - intros H x Hx. assert (Hf : x.2 ∈ (decoded s).*2) by (rewrite <- (cu_flags _ (pieces_cut_up s)); by apply list_elem_of_fmap_2).
    apply list_elem_of_fmap in Hf as (y & -> & Hy). by apply H.
  - intros H x Hx. assert (Hf : x.2 ∈ (pieces s).*2) by (rewrite (cu_flags _ (pieces_cut_up s)); by apply list_elem_of_fmap_2).
    apply list_elem_of_fmap in Hf as (y & -> & Hy). by apply H.
Qed.

Lemma pieces_runes l t : Forall rune l -> pieces (text l +:+ t) = map (fun p => (p, true)) l ++ pieces t.
Proof.
  induction 1 as [|p l Hp _ IH]; [done|]. change (text (p :: l)) with (p +:+ text l). rewrite append_assoc, Hp. cbn [map app]. by f_equal.
Qed.

Lemma runes_of s : valid_utf8 s = true -> Forall rune (pieces s).*1 /\ pieces s = map (fun p => (p, true)) (pieces s).*1.
Proof.
  rewrite valid_pieces. intros H. pose proof (cu_runes _ (pieces_cut_up s)) as Hr. split.
  - apply Forall_forall. intros p ([q b] & -> & Hq)%list_elem_of_fmap. apply Hr. specialize (H _ Hq). simpl in *. by subst.
  - induction (pieces s) as [|[p b] l IH]; [done|]. change ((p, b) :: l = (p, true) :: map (fun p => (p, true)) l.*1).
    pose proof (H (p, b) ltac:(left)) as Hb. simpl in Hb. subst b. f_equal. apply IH.
    + intros x Hx. apply H. by right.
    + intros q Hq. apply Hr. by right.
Qed.

Lemma valid_app s t : valid_utf8 s = true -> valid_utf8 t = true -> valid_utf8 (s +:+ t) = true.
Proof.
  intros Hs Ht. destruct (runes_of s Hs) as [Hr Heq]. rewrite valid_pieces in *.
  assert (pieces (s +:+ t) = map (fun p => (p, true)) (pieces s).*1 ++ pieces t) as ->
    by (rewrite <- pieces_runes by done; by rewrite (cu_text _ (pieces_cut_up s))).
  intros x [Hx|Hx]%elem_of_app; [|by apply Ht]. by apply list_elem_of_fmap in Hx as (p & -> & _).
Qed.

Lemma valid_rune p : rune p -> valid_utf8 p = true.
Proof. intros H. rewrite valid_pieces. specialize (H ""). rewrite append_nil_r in H. rewrite H. by intros x ->%list_elem_of_singleton. Qed.

Lemma write_pieces_valid replacement l : valid_utf8 replacement = true -> (forall p, (p, true) ∈ l -> rune p) ->
  forall invalid, valid_utf8 (write_pieces replacement invalid l) = true.
Proof.
  intros Hrep. induction l as [|[p b] l IH]; intros Hl invalid; [done|].
  assert (Hrest : forall p, (p, true) ∈ l -> rune p) by (intros q Hq; apply Hl; by right).
  destruct b; cbn [write_pieces]; (apply valid_app; [|by apply IH]).
  - apply valid_rune, Hl. left.
  - by destruct invalid.
Qed.

Lemma ToValidUTF8_valid s replacement : valid_utf8 replacement = true -> valid_utf8 (ToValidUTF8 s replacement) = true.
Proof. intros H. apply write_pieces_valid; [done|]. apply cu_runes, pieces_cut_up. Qed.

Lemma ToValidUTF8_id s replacement : valid_utf8 s = true -> ToValidUTF8 s replacement = s.
Proof.
  intros H. destruct (runes_of s H) as [_ Heq]. unfold ToValidUTF8. rewrite Heq. rewrite <- (cu_text _ (pieces_cut_up s)) at 2.
  generalize (pieces s).*1. induction l as [|p l IH]; [done|]. cbn [map write_pieces].
  change (text (p :: l)) with (p +:+ text l). by f_equal.
Qed.

(** Removing bytes shortens. *)
Lemma ToValidUTF8_shorter s : (String.length (ToValidUTF8 s "") <= String.length s)%nat.
Proof.
  rewrite <- (cu_text _ (pieces_cut_up s)) at 2. unfold ToValidUTF8. generalize false.
  induction (pieces s) as [|[p b] l IH]; intros invalid; [simpl; lia|].
  change (text ((p, b) :: l).*1) with (p +:+ text l.*1). rewrite length_append.
  destruct b; cbn [write_pieces]; rewrite length_append.
  - specialize (IH false). lia.
  - specialize (IH true). destruct invalid; simpl; lia.
Qed.

(* ------------------------------------------------------------------ *)
(** ** Lemmas: the last bytes *)

Definition last_bytes (maxBytes : Z) (s : string) : string := drop_bytes (Z.to_nat (slen s - maxBytes)) s.

Lemma length_drop_bytes n s : String.length (drop_bytes n s) = (String.length s - n)%nat.
Proof. revert s; induction n as [|n IH]; intros [|a s]; simpl; auto. Qed.

Lemma drop_bytes_app n s t : (n <= String.length s)%nat -> drop_bytes n s +:+ t = drop_bytes n (s +:+ t).
Proof. revert s; induction n as [|n IH]; intros [|a s]; simpl; intros; [done..|lia|]. apply IH. lia. Qed.

Lemma drop_bytes_drop n m s : drop_bytes n (drop_bytes m s) = drop_bytes (m + n) s.
Proof. revert s; induction m as [|m IH]; intros [|a s]; simpl; [done..|by destruct n|apply IH]. Qed.

Lemma last_bytes_app maxBytes s t : 0 <= maxBytes -> last_bytes maxBytes (last_bytes maxBytes s +:+ t) = last_bytes maxBytes (s +:+ t).
Proof.
  intros H. unfold last_bytes. set (k := Z.to_nat (slen s - maxBytes)).
  assert (Hk : (k <= String.length s)%nat) by (unfold k, slen; lia).
  rewrite drop_bytes_app, drop_bytes_drop by done. f_equal. unfold slen. rewrite length_drop_bytes, length_append. unfold k, slen. lia.
Qed.

Lemma keep_tail_last maxBytes tail chunk : 0 < maxBytes -> slen tail <= maxBytes ->
  keep_tail maxBytes tail chunk = last_bytes maxBytes (tail +:+ chunk).
Proof.
  intros H Hlen. unfold keep_tail, last_bytes. case_bool_decide as Hc.
  - subst. rewrite append_nil_r. by replace (Z.to_nat (slen tail - maxBytes)) with O by lia.
  - destruct (Z.ltb_spec maxBytes (slen (tail +:+ chunk))); [done|].
    by replace (Z.to_nat (slen (tail +:+ chunk) - maxBytes)) with O by lia.
Qed.

Lemma slen_last_bytes maxBytes s : 0 <= maxBytes -> slen (last_bytes maxBytes s) <= maxBytes.
Proof. intros H. unfold last_bytes, slen. rewrite length_drop_bytes. lia. Qed.

(** However the stream is cut into reads, the loop keeps its last bytes. *)
Lemma loop_keeps_last maxBytes chunks : 0 < maxBytes -> foldl (keep_tail maxBytes) "" chunks = last_bytes maxBytes (text chunks).
Proof.
  intros H. assert (forall s tail, tail = last_bytes maxBytes s -> foldl (keep_tail maxBytes) tail chunks = last_bytes maxBytes (s +:+ text chunks)) as Hf.
  { induction chunks as [|c chunks IH]; intros s tail ->; [by rewrite append_nil_r|]. cbn [foldl].
    change (text (c :: chunks)) with (c +:+ text chunks). rewrite <- append_assoc. apply IH.
    rewrite keep_tail_last by (done || apply slen_last_bytes; lia). apply last_bytes_app. lia. }
  rewrite (Hf "" ""); [by rewrite append_nil_l|]. unfold last_bytes, slen. simpl. by destruct (Z.to_nat _).
Qed.

(* ------------------------------------------------------------------ *)
(** ** The snapshot *)

(** The tail of a log that was read to its end is valid UTF-8 of at most the
    bytes asked for, and depends on the text of the log alone, not on how the
    reads cut it; when its last bytes are whole runes it is exactly these.  A
    read that fails gives its error. *)
Theorem tail_is_bounded_and_valid r maxBytes :
  0 < maxBytes ->
  match st_error r with
  | Some e => tailAndSanitize r maxBytes = Err e
  | None => exists t, tailAndSanitize r maxBytes = Ok t /\ slen t <= maxBytes /\ valid_utf8 t = true /\
      (forall r', st_error r' = None -> text (st_reads r' ++ [st_last r']) = text (st_reads r ++ [st_last r]) ->
         tailAndSanitize r' maxBytes = Ok t) /\
      (let whole := last_bytes maxBytes (text (st_reads r ++ [st_last r])) in valid_utf8 whole = true -> t = whole)
  end.
Proof.
  intros H. unfold tailAndSanitize. destruct (Z.leb_spec maxBytes 0); [lia|]. rewrite loop_keeps_last by done.
  destruct (st_error r) as [e|]; [done|]. set (whole := last_bytes maxBytes _).
  set (sanitized := ToValidUTF8 whole replacement_rune).
  set (t := if maxBytes <? slen sanitized then ToValidUTF8 (drop_bytes (Z.to_nat (slen sanitized - maxBytes)) sanitized) "" else sanitized).
  exists t. split_and!.
  - unfold t. by destruct (maxBytes <? slen sanitized).
  - unfold t. destruct (Z.ltb_spec maxBytes (slen sanitized)) as [Hlt|]; [|done].
    pose proof (ToValidUTF8_shorter (drop_bytes (Z.to_nat (slen sanitized - maxBytes)) sanitized)) as Hs.
    rewrite length_drop_bytes in Hs. unfold slen in *. lia.
  - unfold t. destruct (maxBytes <? slen sanitized); apply ToValidUTF8_valid; reflexivity.
  - intros r' He Htext. rewrite He, loop_keeps_last, Htext by done. fold whole. fold sanitized. unfold t. by destruct (maxBytes <? slen sanitized).
  - intros Hv. unfold t, sanitized. rewrite (ToValidUTF8_id whole _ Hv).
    destruct (Z.ltb_spec maxBytes (slen whole)) as [Hlt|]; [|done]. pose proof (slen_last_bytes maxBytes (text (st_reads r ++ [st_last r]))). unfold whole in *. lia.
Qed.

(** Tails that start inside of a rune and that grow by the replacement; the run
    of two bytes is replaced by one rune. *)
Example tails :
  let read s := {| st_reads := []; st_last := s; st_error := None |} in
  tailAndSanitize (read "aé€") 4 = Ok "€" /\
  tailAndSanitize (read (String "255" (String "254" "abc"))) 5 = Ok "abc".
Proof. split; vm_compute; reflexivity. Qed.
