(* ===== verification/Introspect.v ===== *)
(** * Picking nodes and introspection

    Models the second half of [operator/internal/controller/cluster_state_v2.go]:
    [NodePicker], [IntrospectSkyhook] and [IntrospectNode], the evaluation of
    batches, the reports in the resource's status and their cleanup.  A loop
    over the node wrappers calls each by its name ([with_node]), since what one
    call does to the shared resource is seen by the next. *)

From S2P Require Import Prelude Graph Float64 DeploymentPolicy Api NodeState Skyhook Conditions Text Node.
From S2P Require Import Migration Compartment ClusterState Partition.

#[local] Open Scope Z_scope.

(* ------------------------------------------------------------------ *)
(** ** Tolerations ([k8s.io/api/core/v1], vendored) *)

Definition TolerationOpEqual : string := "Equal".
Definition TolerationOpExists : string := "Exists".

(** [ToleratesTaint] with comparison operators disabled, as it is called. *)
Definition ToleratesTaint (t : Toleration) (taint : Taint) : bool :=
  if negb (bool_decide (tol_Effect t = "")) && negb (bool_decide (tol_Effect t = taint_Effect taint)) then false
  else if negb (bool_decide (tol_Key t = "")) && negb (bool_decide (tol_Key t = taint_Key taint)) then false
  else if bool_decide (tol_Operator t = "") || bool_decide (tol_Operator t = TolerationOpEqual)
  then bool_decide (tol_Value t = taint_Value taint)
  else bool_decide (tol_Operator t = TolerationOpExists).

Definition CheckTaintToleration (tolerations : list Toleration) (taints : list Taint) : bool :=
  all (fun taint => any (fun t => ToleratesTaint t taint) tolerations) taints.

Definition TaintUnschedulable : string := "node.kubernetes.io/unschedulable".
Definition tolerate_cordon : Toleration :=
  {| tol_Key := TaintUnschedulable; tol_Operator := TolerationOpExists; tol_Value := "";
     tol_Effect := TaintEffectNoSchedule; tol_TolerationSeconds := None |}.

Definition CheckNodeIgnoreLabel (n : SkyhookNodeOnly) : bool :=
  match n_Labels (sn_Node n) !! (METADATA_PREFIX +:+ "/ignore") with
  | Some val => bool_decide (val = annotationTrueValue)
  | None => false
  end.

Section Introspect.
Context `{MR : MapRange} `{JS : NodeStateJSON} `{TT : TimeText}.

(* ------------------------------------------------------------------ *)
(** ** The node picker *)

Record NodePicker := { priorityNodes : gmap string Z; runtimeRequiredTolerations : list Toleration }.

Definition set_priorityNodes (v : gmap string Z) (np : NodePicker) : NodePicker :=
  {| priorityNodes := v; runtimeRequiredTolerations := runtimeRequiredTolerations np |}.

Definition NewNodePicker (tolerations : list Toleration) : NodePicker :=
  {| priorityNodes := ∅; runtimeRequiredTolerations := tolerations |}.

Definition priorities (s : skyhookNodes) : gmap string Z := NodePriority (sk_Status (sns_skyhook s)).

(** Entries are deleted while the map they are in is ranged over. *)
Definition prune_priority (acc : skyhookNodes * bool) (nt : string * Z) : skyhookNodes * bool :=
  if bool_decide ((sns_GetNode acc.1 nt.1).1 = StatusComplete)
  then (on_skyhook (RemoveNodePriority nt.1) acc.1, true) else acc.

Definition pruneCompletedNodePriorities (s : skyhookNodes) : skyhookNodes * bool :=
  foldl prune_priority (s, false) (range (priorities s)).

Definition primeAndPruneNodes (np : NodePicker) (s : skyhookNodes) : NodePicker * skyhookNodes :=
  let s := (pruneCompletedNodePriorities s).1 in
  (set_priorityNodes (priorities s ∪ priorityNodes np) np, s).

(** [now] is the time of this call. *)
Definition upsertPick (now : Z) (name : string) (np : NodePicker) (s : skyhookNodes) : NodePicker * skyhookNodes :=
  match priorities s !! name with
  | Some t => (set_priorityNodes (<[name := t]> (priorityNodes np)) np, s)
  | None =>
      (set_priorityNodes (<[name := now]> (priorityNodes np)) np,
       on_skyhook (fun sk => touch (map_status (set_NodePriority (<[name := now]> (priorities s))) sk)) s)
  end.

Record scan := { sc_state : skyhookNodes; sc_intolerable : list string; sc_ignored : list string }.

Definition block_unless_complete (name : string) (s : skyhookNodes) : skyhookNodes :=
  with_node name (fun f => if node_IsComplete f then f else node_SetStatus StatusBlocked f) s.

Definition tolerated (tolerations : list Toleration) (e : NodeEntry) : bool :=
  CheckTaintToleration tolerations (n_Taints (sn_Node (ne_Only e))).

(** A compartment holds nodes of its resource, so the node is found. *)
Definition scan_node (tolerations : list Toleration) (sc : scan) (name : string) : scan :=
  match find_entry (sc_state sc) name with
  | None => sc
  | Some e =>
      let bad := negb (tolerated tolerations e) in
      let ignored := CheckNodeIgnoreLabel (ne_Only e) in
      let s := if bad then block_unless_complete name (sc_state sc) else sc_state sc in
      let s := if ignored then block_unless_complete name s else s in
      {| sc_state := s;
         sc_intolerable := if bad then sc_intolerable sc ++ [name] else sc_intolerable sc;
         sc_ignored := if ignored then sc_ignored sc ++ [name] else sc_ignored sc |}
  end.

Definition scan_all (tolerations : list Toleration) (s : skyhookNodes) : scan :=
  foldl (fun sc kc => foldl (scan_node tolerations) sc (comp_Nodes (snd kc)))
    {| sc_state := s; sc_intolerable := []; sc_ignored := [] |} (range (sns_compartments s)).

Definition eligible_node (tolerations : list Toleration) (s : skyhookNodes) (name : string) : bool :=
  match find_entry s name with
  | Some e => negb (CheckNodeIgnoreLabel (ne_Only e)) && tolerated tolerations e
  | None => false
  end.

Definition node_list (names : list string) : string := join ", " names.

Definition updateTaintToleranceCondition (now : Z) (names : list string) (s : skyhookNodes) : skyhookNodes :=
  let c := condition now s SkyhookConditionTaintNotTolerable in
  add_condition_legacy now
    (if 0 <? zlen names then
       c ConditionTrue "TaintNotTolerable"
         (if ReadyConditionNodeListLimit <? zlen names
          then show_int (zlen names) +:+ " nodes have taints that are not tolerable. Skipping."
          else "Node [" +:+ node_list names +:+ "] has taints that are not tolerable. Skipping.")
     else c ConditionFalse "TaintNotTolerable" "All nodes have tolerable taints.") s.

Definition updateIgnoredNodesCondition (now : Z) (names : list string) (s : skyhookNodes) : skyhookNodes :=
  let c := condition now s SkyhookConditionNodesIgnored in
  add_condition_legacy now
    (if 0 <? zlen names then
       c ConditionTrue "NodesIgnored"
         (if ReadyConditionNodeListLimit <? zlen names
          then show_int (zlen names) +:+ " nodes have ignore label set. Skipping."
          else "Node [" +:+ node_list names +:+ "] has ignore label set. Skipping.")
     else c ConditionFalse "NodesIgnored" "No nodes have ignore label set.") s.

(** What picking has gathered: the picker, the state and the nodes selected. *)
Record picks := { pk_picker : NodePicker; pk_state : skyhookNodes; pk_selected : list string }.

Definition pick_node (now : Z) (pk : picks) (name : string) : picks :=
  let '(np, s) := upsertPick now name (pk_picker pk) (pk_state pk) in
  {| pk_picker := np; pk_state := s; pk_selected := pk_selected pk ++ [name] |}.

Definition pick_compartment (now : Z) (eligible : string -> bool) (pk : picks) (c : CompartmentW string) : res picks :=
  rbind (GetNodesForNextBatch (NV := state_view (pk_state pk)) c (Some eligible)) (fun names =>
  Ok (foldl (pick_node now) pk names)).

Definition selectNodesWithCompartments (now : Z) (np : NodePicker) (s : skyhookNodes) (tolerations : list Toleration)
  : res picks :=
  let sc := scan_all tolerations s in
  let s := sc_state sc in
  rbind (rfold (fun pk kc => pick_compartment now (eligible_node tolerations s) pk (snd kc))
           {| pk_picker := np; pk_state := s; pk_selected := [] |} (range (sns_compartments s))) (fun pk =>
  let s := updateTaintToleranceCondition now (sort_strings (sc_intolerable sc)) (pk_state pk) in
  let s := updateIgnoredNodesCondition now (sort_strings (sc_ignored sc)) s in
  Ok {| pk_picker := pk_picker pk; pk_state := s; pk_selected := pk_selected pk |}).

Definition picker_tolerations (np : NodePicker) (s : skyhookNodes) : list Toleration :=
  let tolerations := tolerate_cordon :: AdditionalTolerations (sns_Spec s) in
  if RuntimeRequired (sns_Spec s) then tolerations ++ runtimeRequiredTolerations np else tolerations.

Definition SelectNodes (now : Z) (np : NodePicker) (s : skyhookNodes) : res picks :=
  let '(np, s) := primeAndPruneNodes np s in
  selectNodesWithCompartments now np s (picker_tolerations np s).

(* ------------------------------------------------------------------ *)
(** ** Compartment statuses and batches *)

Definition compartmentStatusEqual (a b : CompartmentStatus) : bool :=
  (cs_Matched a =? cs_Matched b) && (cs_Ceiling a =? cs_Ceiling b) && (cs_InProgress a =? cs_InProgress b) &&
  (cs_Completed a =? cs_Completed b) && (cs_ProgressPercent a =? cs_ProgressPercent b) &&
  match cs_BatchState a, cs_BatchState b with
  | None, None => true
  | Some x, Some y => bool_decide (x = y)
  | _, _ => false
  end.

Definition buildCompartmentStatus (s : skyhookNodes) (c : CompartmentW string) : CompartmentStatus :=
  let matched := zlen (comp_Nodes c) in
  let completed := count (nv_IsComplete (NodeView := state_view s)) (comp_Nodes c) in
  {| cs_Matched := matched;
     cs_Ceiling := CalculateCeiling (c_Budget (comp_Policy c)) matched;
     cs_InProgress := getInProgressCount (NV := state_view s) c;
     cs_Completed := completed;
     cs_ProgressPercent := if 0 <? matched then int_quot (int_mul completed 100) matched else 0;
     cs_BatchState := match c_Strategy (comp_Policy c) with Some _ => Some (comp_BatchState c) | None => None end |}.

(** Nodes with the status Blocked, complete or not. *)
Definition blocked_count (s : skyhookNodes) (c : CompartmentW string) : Z :=
  count (has_status (NV := state_view s) StatusBlocked) (comp_Nodes c).

(** The size of the batch to evaluate; [None] where the loop goes on to the
    next compartment. *)
Definition evaluated_size (s : skyhookNodes) (c : CompartmentW string) (successCount failureCount : Z) : option Z :=
  let batchSize := int_add successCount failureCount in
  let blockedCount := blocked_count s c in
  let all_blocked := (batchSize =? 0) && (0 <? blockedCount) && (blockedCount =? zlen (comp_Nodes c)) in
  let batchSize :=
    if batchSize =? 0 then
      if 0 <? blockedCount then blockedCount
      else if 0 <? LastBatchSize (comp_BatchState c) then LastBatchSize (comp_BatchState c) else batchSize
    else batchSize in
  if all_blocked then None
  else if (0 <? batchSize) && (successCount =? 0) && (failureCount =? 0) && (blockedCount =? batchSize) then None
  else Some batchSize.

(** One iteration of the loop of [evaluateCompletedBatches]: compartment [c] of
    name [k] in the map. *)
Definition evaluate_compartment (s : skyhookNodes) (k : string) (c : CompartmentW string) : skyhookNodes * bool :=
  let '(c, (isComplete, successCount, failureCount)) := EvaluateCurrentBatch (NV := state_view s) c in
  let s := set_sns_compartments (<[k := c]> (sns_compartments s)) s in
  if negb isComplete then (s, false)
  else
    match evaluated_size s c successCount failureCount with
    | None => (s, false)
    | Some batchSize =>
        let c := EvaluateAndUpdateBatchState batchSize successCount failureCount c in
        let s := set_sns_compartments (<[k := c]> (sns_compartments s)) s in
        let statuses := CompartmentStatuses (sk_Status (sns_skyhook s)) in
        (on_skyhook (fun sk => touch (map_status (set_CompartmentStatuses
           (<[c_Name (comp_Policy c) := buildCompartmentStatus s c]> statuses)) sk)) s, true)
    end.

Definition evaluateCompletedBatches (s : skyhookNodes) : skyhookNodes * bool :=
  if bool_decide (sns_compartments s = ∅) then (s, false)
  else if bool_decide (sns_Status s = StatusComplete) then (s, false)
  else foldl (fun acc kc => let '(s, changed) := evaluate_compartment acc.1 kc.1 kc.2 in (s, changed || acc.2))
         (s, false) (range (sns_compartments s)).

(* ------------------------------------------------------------------ *)
(** ** Introspection *)

Definition isSkyhookControlledNodeStatus (status : Status) : bool :=
  bool_decide (status ∈ [StatusDisabled; StatusPaused; StatusWaiting]).

Definition has_compartments (s : skyhookNodes) : bool := negb (bool_decide (sns_compartments s = ∅)).

(** The node of [IntrospectNode], its [skyhook] and [allSkyhooks]; the result
    [node.Changed()] is the flag of the node. *)
Definition IntrospectNode (s : skyhookNodes) (allSkyhooks : list skyhookNodes) (f : SkyhookNode) : SkyhookNode :=
  let skyhookStatus := sns_Status s in
  let nodeStatus := node_Status (full_Only f) in
  let complete := node_IsComplete f in
  let f := node_SetStatus nodeStatus f in
  if bool_decide (skyhookStatus ∈ [StatusDisabled; StatusPaused]) then
    if negb (bool_decide (nodeStatus = skyhookStatus)) then node_SetStatus skyhookStatus f else f
  else if negb complete && CheckNodeIgnoreLabel (full_Only f) then node_SetStatus StatusBlocked f
  else if negb complete && negb (bool_decide (skyhookStatus = StatusWaiting)) &&
          negb (IsNodeReadyForSkyhook (n_Name (sn_Node (full_Only f))) s allSkyhooks) then
    if negb (bool_decide (nodeStatus = StatusWaiting)) then node_SetStatus StatusWaiting f else f
  else if isSkyhookControlledNodeStatus nodeStatus then
    if complete then node_SetStatus StatusComplete f
    else if has_compartments s then node_SetStatus StatusWaiting f
    else node_SetStatus StatusUnknown f
  else
    let f := if negb (bool_decide (nodeStatus = StatusComplete)) && complete then node_SetStatus StatusComplete f else f in
    let f := if bool_decide (nodeStatus = StatusComplete) && negb complete then node_SetStatus StatusUnknown f else f in
    if bool_decide (nodeStatus = StatusUnknown) && negb complete && has_compartments s
    then node_SetStatus StatusWaiting f else f.

Definition changed_of (s : skyhookNodes) (name : string) : bool :=
  match find_entry s name with Some e => sn_updated (ne_Only e) | None => false end.

(** The other resources are read as they are: introspecting this one does not
    change them. *)
Definition introspect_nodes (allSkyhooks : list skyhookNodes) (s : skyhookNodes) : skyhookNodes * bool :=
  foldl (fun acc name =>
    let s := with_node name (IntrospectNode acc.1 allSkyhooks) acc.1 in (s, changed_of s name || acc.2))
    (s, false) (node_names s).

(** The status of the resource: the nodes' status, overridden by what controls
    the resource. *)
Definition introspected_status (s : skyhookNodes) (allSkyhooks : list skyhookNodes) : Status :=
  let collectNodeStatus := CollectNodeStatus s in
  let hasMissingPolicy := HasTrueSkyhookCondition (sns_skyhook s) [SkyhookConditionDeploymentPolicyNotFound] in
  if negb (bool_decide (collectNodeStatus = StatusComplete)) then
    if sns_IsDisabled s then StatusDisabled
    else if sns_IsPaused s then StatusPaused
    else if hasMissingPolicy then StatusBlocked
    else if isBlockedByGlobalPredecessor s allSkyhooks then StatusWaiting
    else collectNodeStatus
  else if hasMissingPolicy then StatusBlocked
  else collectNodeStatus.

Definition IntrospectSkyhook (now : Z) (s : skyhookNodes) (allSkyhooks : list skyhookNodes) : skyhookNodes * bool :=
  let status := introspected_status s allSkyhooks in
  let s := if negb (bool_decide (sns_Status s = status)) then sns_SetStatus status s else s in
  let '(s, c1) := introspect_nodes allSkyhooks s in
  let '(s, c2) := pruneCompletedNodePriorities s in
  let '(s, c3) := evaluateCompletedBatches s in
  let s := (sns_UpdateCondition now s).1 in
  (s, c1 || c2 || c3 || Updated (sns_skyhook s)).

Definition pause_node (acc : skyhookNodes * bool) (name : string) : skyhookNodes * bool :=
  if bool_decide ((sns_GetNode acc.1 name).1 = StatusPaused) then acc
  else (with_node name (node_SetStatus StatusPaused) acc.1, true).

Definition UpdateSkyhookPauseStatus (now : Z) (s : skyhookNodes) : skyhookNodes * bool :=
  if sns_IsPaused s then
    let c1 := negb (bool_decide (sns_Status s = StatusPaused)) in
    let s := if c1 then sns_SetStatus StatusPaused s else s in
    let '(s, c2) := foldl pause_node (s, c1) (node_names s) in
    let '(s, c3) := sns_UpdateCondition now s in
    (s, c3 || c2)
  else (s, false).
End Introspect.

(* ------------------------------------------------------------------ *)
(** ** Lemmas: the status of a node *)

Lemma GetStatus_idem x : GetStatus (status_string (GetStatus x)) = GetStatus x.
Proof. unfold GetStatus at 2 3. by repeat case_bool_decide. Qed.

Section Lemmas.
Context `{MR : MapRange} `{JS : NodeStateJSON} `{TT : TimeText}.

(** The statuses an annotation can be read as. *)
Definition readable (st : Status) : Prop := GetStatus (status_string st) = st.

Lemma node_Status_readable n : readable (node_Status n).
Proof. unfold readable, node_Status. destruct (_ !! _); [apply GetStatus_idem|done]. Qed.

Lemma statusKey_ne_cordon n : statusKey n <> cordonAnnotationKey (sn_skyhookName n).
Proof.
  unfold statusKey, node_key, cordonAnnotationKey, cordonAnnotationPrefix. rewrite !append_assoc.
  intros H. by apply append_inj_l in H.
Qed.

Lemma Uncordon_keeps n : annotations (Uncordon n) !! statusKey n = annotations n !! statusKey n /\
  sn_skyhookName (Uncordon n) = sn_skyhookName n /\ sn_nodeState (Uncordon n) = sn_nodeState n /\
  n_Labels (sn_Node (Uncordon n)) = n_Labels (sn_Node n) /\ n_Name (sn_Node (Uncordon n)) = n_Name (sn_Node n).
Proof.
  unfold Uncordon. destruct (annotations n !! cordonAnnotationKey (sn_skyhookName n)); [|done].
  set (n' := drop_annotation _ _). assert (annotations n' !! statusKey n = annotations n !! statusKey n) as H.
  { unfold n', annotations, drop_annotation. simpl. rewrite lookup_delete_ne; [done|].
    apply not_eq_sym, statusKey_ne_cordon. }
  case_if; done.
Qed.

Lemma node_SetStatus_Status st f : readable st -> node_Status (full_Only (node_SetStatus st f)) = st.
Proof.
  intros Hst. unfold node_SetStatus. simpl. unfold SetStatus_only. set (n := full_Only f).
  set (w := put_label _ _ _).
  assert (Hw : forall n', sn_skyhookName n' = sn_skyhookName n ->
    annotations n' !! statusKey n = Some (status_string st) -> node_Status n' = st).
  { intros n' Hn Ha. unfold node_Status. replace (statusKey n') with (statusKey n) by (unfold statusKey; by rewrite Hn).
    by rewrite Ha. }
  assert (Hwrite : annotations w !! statusKey n = Some (status_string st)).
  { unfold w, annotations. simpl. by rewrite lookup_insert_eq. }
  set (m := match annotations n !! statusKey n with Some _ => _ | None => w end).
  assert (Hm : sn_skyhookName m = sn_skyhookName n /\ annotations m !! statusKey n = Some (status_string st)).
  { unfold m. destruct (annotations n !! statusKey n) as [x|] eqn:Hx; [|done].
    case_bool_decide as Hd; simpl; [|done]. by rewrite Hx, Hd. }
  destruct Hm as [Hm1 Hm2].
  case_bool_decide; [|by apply Hw]. destruct (Uncordon_keeps m) as (H1 & H2 & _).
  apply Hw; [by rewrite H2|]. replace (statusKey n) with (statusKey m) in * by (unfold statusKey; by rewrite Hm1).
  by rewrite H1.
Qed.

(** What a status update leaves alone. *)
Definition same_work (f f' : SkyhookNode) : Prop :=
  node_IsComplete f' = node_IsComplete f /\
  CheckNodeIgnoreLabel (full_Only f') = CheckNodeIgnoreLabel (full_Only f) /\
  n_Name (sn_Node (full_Only f')) = n_Name (sn_Node (full_Only f)).

#[export] Instance same_work_trans : Transitive same_work.
Proof. intros f g h (H1 & H2 & H3) (H4 & H5 & H6). split_and!; congruence. Qed.

Lemma SetNodeState_work name ns sk :
  sk_Spec (SetNodeState name ns sk) = sk_Spec sk /\ GetConfigUpdates (SetNodeState name ns sk) = GetConfigUpdates sk.
Proof. unfold SetNodeState. destruct (default ∅ _ !! name); [case_if|]; done. Qed.

Lemma SetNodeStatus_work name st sk :
  sk_Spec (SetNodeStatus name st sk) = sk_Spec sk /\ GetConfigUpdates (SetNodeStatus name st sk) = GetConfigUpdates sk.
Proof. unfold SetNodeStatus. destruct (NodeStatus _ !! name); [case_if|]; done. Qed.

Lemma IsComplete_ext f f' :
  sk_Spec (full_skyhook f') = sk_Spec (full_skyhook f) ->
  GetConfigUpdates (full_skyhook f') = GetConfigUpdates (full_skyhook f) ->
  sn_nodeState (full_Only f') = sn_nodeState (full_Only f) ->
  node_IsComplete f' = node_IsComplete f.
Proof.
  intros Hs Hc Hn. unfold node_IsComplete, f_packages, f_interrupts, f_updates, cached, GetConfigInterrupts.
  change (ConfigUpdates (sk_Status (full_skyhook f'))) with (GetConfigUpdates (full_skyhook f')).
  change (ConfigUpdates (sk_Status (full_skyhook f))) with (GetConfigUpdates (full_skyhook f)).
  by rewrite Hs, Hc, Hn.
Qed.

Lemma ignore_ne_statusKey n : METADATA_PREFIX +:+ "/ignore" <> statusKey n.
Proof. unfold statusKey, node_key. intros H. apply append_inj_l in H. discriminate H. Qed.

Lemma SetStatus_only_keeps st n :
  sn_nodeState (SetStatus_only st n) = sn_nodeState n /\
  CheckNodeIgnoreLabel (SetStatus_only st n) = CheckNodeIgnoreLabel n /\
  n_Name (sn_Node (SetStatus_only st n)) = n_Name (sn_Node n).
Proof.
  unfold SetStatus_only. set (w := put_label _ _ _).
  assert (Hw : sn_nodeState w = sn_nodeState n /\ CheckNodeIgnoreLabel w = CheckNodeIgnoreLabel n /\
               n_Name (sn_Node w) = n_Name (sn_Node n)).
  { split_and!; [done| |done]. unfold CheckNodeIgnoreLabel, w. simpl.
    rewrite lookup_insert_ne; [done|]. apply not_eq_sym, ignore_ne_statusKey. }
  set (m := match annotations n !! statusKey n with Some _ => _ | None => w end).
  assert (Hm : sn_nodeState m = sn_nodeState n /\ CheckNodeIgnoreLabel m = CheckNodeIgnoreLabel n /\
               n_Name (sn_Node m) = n_Name (sn_Node n)).
  { unfold m. destruct (annotations n !! statusKey n); [|done]. by case_if. }
  case_if; [|done]. destruct (Uncordon_keeps m) as (_ & _ & H1 & H2 & H3). destruct Hm as (M1 & M2 & M3).
  rewrite H1, H3. split_and!; [done| |done]. rewrite <- M2. unfold CheckNodeIgnoreLabel. by rewrite H2.
Qed.

Lemma node_SetStatus_work st f : same_work f (node_SetStatus st f).
Proof.
  destruct (SetStatus_only_keeps st (full_Only f)) as (H1 & H2 & H3). unfold node_SetStatus.
  set (sk := SetNodeState _ _ _). split_and!; [|done|done].
  destruct (SetNodeState_work (n_Name (sn_Node (SetStatus_only st (full_Only f)))) (sn_nodeState (SetStatus_only st (full_Only f)))
    (SetNodeStatus (n_Name (sn_Node (SetStatus_only st (full_Only f)))) st (full_skyhook f))) as [S1 S2].
  destruct (SetNodeStatus_work (n_Name (sn_Node (SetStatus_only st (full_Only f)))) st (full_skyhook f)) as [T1 T2].
  apply IsComplete_ext; [exact (eq_trans S1 T1)|exact (eq_trans S2 T2)|exact H1].
Qed.

(** One pass, on statuses. *)
Definition pass (sky st : Status) (complete ignored ready comps : bool) : Status :=
  if bool_decide (sky ∈ [StatusDisabled; StatusPaused]) then sky
  else if negb complete && ignored then StatusBlocked
  else if negb complete && negb (bool_decide (sky = StatusWaiting)) && negb ready then StatusWaiting
  else if complete then StatusComplete
  else if isSkyhookControlledNodeStatus st || bool_decide (st = StatusUnknown)
  then if comps then StatusWaiting else StatusUnknown
  else if bool_decide (st = StatusComplete) then StatusUnknown
  else st.

Definition node_ready (s : skyhookNodes) (rs : list skyhookNodes) (f : SkyhookNode) : bool :=
  IsNodeReadyForSkyhook (n_Name (sn_Node (full_Only f))) s rs.

Lemma IntrospectNode_pass s rs f :
  node_Status (full_Only (IntrospectNode s rs f)) =
    pass (sns_Status s) (node_Status (full_Only f)) (node_IsComplete f) (CheckNodeIgnoreLabel (full_Only f))
      (node_ready s rs f) (has_compartments s) /\
  same_work f (IntrospectNode s rs f).
Proof.
  unfold IntrospectNode. set (st := node_Status (full_Only f)).
  assert (Hr : readable st) by apply node_Status_readable.
  pose proof (node_SetStatus_work st f) as Hf. pose proof (node_SetStatus_Status st f Hr) as Hst.
  set (g := node_SetStatus st f) in *.
  assert (Hg : forall x, readable x -> node_Status (full_Only (node_SetStatus x g)) = x /\ same_work f (node_SetStatus x g)).
  { intros x Hx. split; [by apply node_SetStatus_Status|]. etrans; [exact Hf|apply node_SetStatus_work]. }
  pose proof Hf as (Hc & Hi & Hn). unfold node_ready. rewrite Hi, Hn. unfold pass. clearbody g st.
  destruct (bool_decide (sns_Status s ∈ [StatusDisabled; StatusPaused])) eqn:Hsky.
  { bool_simpl. revert Hsky. case_bool_decide as Heq; intros Hsky; simpl; [split; [congruence|done]|]. apply Hg.
    rewrite !elem_of_cons, elem_of_nil in Hsky. by destruct Hsky as [->|[->|[]]]. }
  clear Hsky.
  destruct (negb (node_IsComplete f) && CheckNodeIgnoreLabel (full_Only f)); [by apply Hg|].
  destruct (negb (node_IsComplete f) && negb (bool_decide (sns_Status s = StatusWaiting)) &&
            negb (IsNodeReadyForSkyhook (n_Name (sn_Node (full_Only f))) s rs)).
  { case_bool_decide as Heq; simpl; [split; [congruence|done]|by apply Hg]. }
  destruct (isSkyhookControlledNodeStatus st) eqn:Hctl; simpl.
  { destruct (node_IsComplete f); [by apply Hg|]. destruct (has_compartments s); by apply Hg. }
  destruct (node_IsComplete f) eqn:Hcf; simpl.
  - rewrite !andb_false_r. simpl. case_bool_decide as H1; simpl; [split; [congruence|done]|by apply Hg].
  - rewrite andb_false_r, !andb_true_r. case_bool_decide as H1.
    + rewrite H1. simpl. destruct (has_compartments s); [by apply Hg|split; [congruence|done]].
    + case_bool_decide as H2; simpl; [by apply Hg|done].
Qed.

(** Where the status of a node ends up. *)
Definition settled (s : skyhookNodes) (rs : list skyhookNodes) (f : SkyhookNode) : Status :=
  let st := node_Status (full_Only f) in
  if bool_decide (sns_Status s ∈ [StatusDisabled; StatusPaused]) then sns_Status s
  else if node_IsComplete f then StatusComplete
  else if CheckNodeIgnoreLabel (full_Only f) then StatusBlocked
  else if negb (bool_decide (sns_Status s = StatusWaiting)) && negb (node_ready s rs f) then StatusWaiting
  else if bool_decide (st ∈ [StatusDisabled; StatusPaused; StatusWaiting; StatusUnknown; StatusComplete])
  then if has_compartments s then StatusWaiting else StatusUnknown
  else st.

Lemma pass_settles s rs f st1 :
  let p st := pass (sns_Status s) st (node_IsComplete f) (CheckNodeIgnoreLabel (full_Only f)) (node_ready s rs f)
                (has_compartments s) in
  p (p (node_Status (full_Only f))) = settled s rs f /\
  (st1 = settled s rs f -> p st1 = st1) /\
  (p st1 = StatusComplete -> node_IsComplete f = true).
Proof.
  cbv zeta. unfold pass, settled, isSkyhookControlledNodeStatus.
  destruct (bool_decide (sns_Status s ∈ [StatusDisabled; StatusPaused])) eqn:Hsky.
  { split_and!; [done|by intros ->|]. intros H. rewrite H in Hsky. discriminate Hsky. }
  destruct (node_IsComplete f); simpl; [by split_and!; [|intros ->|]|].
  destruct (CheckNodeIgnoreLabel (full_Only f)); simpl; [by split_and!; [|intros ->|]|].
  destruct (negb (bool_decide (sns_Status s = StatusWaiting)) && negb (node_ready s rs f)); [by split_and!; [|intros ->|]|].
  clear Hsky.
  destruct (has_compartments s), (node_Status (full_Only f)); split_and!;
    first [reflexivity|intros ->; reflexivity|destruct st1; discriminate].
Qed.

(** Introspection of a node converges in two passes: the status is then the
    resource's while it is disabled or paused; otherwise Complete for a complete
    node, Blocked for an ignored one, Waiting for one an earlier resource holds
    back, Waiting (Unknown without compartments) for one not started, and what
    its packages last reported for the others.  A settled status stays, and no
    pass calls a node Complete that is not. *)
Theorem IntrospectNode_settles (s : skyhookNodes) (rs : list skyhookNodes) (f : SkyhookNode) :
  let g := IntrospectNode s rs in
  node_Status (full_Only (g (g f))) = settled s rs f /\
  (node_Status (full_Only f) = settled s rs f -> node_Status (full_Only (g f)) = settled s rs f) /\
  (node_Status (full_Only (g f)) = StatusComplete -> node_IsComplete (g f) = true) /\
  same_work f (g (g f)).
Proof.
  cbv zeta. destruct (IntrospectNode_pass s rs f) as [H1 W1]. destruct (IntrospectNode_pass s rs (IntrospectNode s rs f)) as [H2 W2].
  set (f1 := IntrospectNode s rs f) in *. pose proof W1 as (Hc & Hi & Hn).
  assert (Hready : node_ready s rs f1 = node_ready s rs f) by (unfold node_ready; by rewrite Hn).
  destruct (pass_settles s rs f (node_Status (full_Only f))) as (P1 & P2 & P3).
  split_and!.
  - by rewrite H2, H1, Hc, Hi, Hready.
  - intros Hs. by rewrite H1, P2.
  - rewrite H1, Hc. exact P3.
  - by etrans.
Qed.
End Lemmas.

(* ------------------------------------------------------------------ *)
(** ** Lemmas: evaluation of the batches *)

Lemma count_ext {A} (p q : A -> bool) l : (forall x, p x = q x) -> count p l = count q l.
Proof. intros H. unfold count. by rewrite (filter_ext _ _ H). Qed.

Section Batches.
Context `{MR : MapRange} `{JS : NodeStateJSON} `{TT : TimeText}.
Implicit Types (s : skyhookNodes) (c : CompartmentW string).

(** Two states that agree on what a batch is judged by. *)
Definition same_nodes s s' : Prop :=
  sns_nodes s' = sns_nodes s /\ sk_Spec (sns_skyhook s') = sk_Spec (sns_skyhook s) /\
  GetConfigUpdates (sns_skyhook s') = GetConfigUpdates (sns_skyhook s).

Lemma same_nodes_view s s' n : same_nodes s s' ->
  nv_Status (NodeView := state_view s') n = nv_Status (NodeView := state_view s) n /\
  nv_IsComplete (NodeView := state_view s') n = nv_IsComplete (NodeView := state_view s) n.
Proof.
  intros (Hn & Hs & Hc). simpl. unfold sns_GetNode, find_entry. rewrite Hn. split; [done|].
  destruct (List.find _ _) as [e|]; [|done]. unfold entry_IsComplete. by apply IsComplete_ext.
Qed.

Lemma has_status_same s s' st n : same_nodes s s' ->
  has_status (NV := state_view s') st n = has_status (NV := state_view s) st n.
Proof. intros H. unfold has_status. by rewrite (proj1 (same_nodes_view s s' n H)). Qed.

Lemma EvaluateCurrentBatch_same s s' c : same_nodes s s' ->
  EvaluateCurrentBatch (NV := state_view s') c = EvaluateCurrentBatch (NV := state_view s) c.
Proof.
  intros H. assert (Hc : forall n, nv_IsComplete (NodeView := state_view s') n = nv_IsComplete (NodeView := state_view s) n)
    by (intros; by apply same_nodes_view).
  unfold EvaluateCurrentBatch, IsBatchComplete, getInProgressCount, counts_completed, counts_failed, counts_blocked.
  rewrite (count_ext (has_status (NV := state_view s') StatusInProgress) (has_status (NV := state_view s) StatusInProgress))
    by (intros; by apply has_status_same).
  rewrite (count_ext (nv_IsComplete (NodeView := state_view s')) (nv_IsComplete (NodeView := state_view s)) _ Hc).
  set (inc s n := negb (nv_IsComplete (NodeView := state_view s) n)).
  set (st s x n := has_status (NV := state_view s) x n).
  assert (Hi : forall n, inc s' n = inc s n) by (intros n; unfold inc; by rewrite Hc).
  assert (Hst : forall x n, st s' x n = st s x n) by (intros; by apply has_status_same).
  rewrite (count_ext (fun n => inc s' n && st s' StatusErroring n) (fun n => inc s n && st s StatusErroring n))
    by (intros; by rewrite Hi, Hst).
  rewrite (count_ext (fun n => inc s' n && negb (st s' StatusErroring n) && st s' StatusBlocked n)
             (fun n => inc s n && negb (st s StatusErroring n) && st s StatusBlocked n))
    by (intros; by rewrite Hi, !Hst).
  done.
Qed.

(** The compartment one iteration leaves. *)
Definition evaluated s c : CompartmentW string :=
  let '(c1, (isComplete, successCount, failureCount)) := EvaluateCurrentBatch (NV := state_view s) c in
  if negb isComplete then c1
  else match evaluated_size s c1 successCount failureCount with
       | None => c1
       | Some batchSize => EvaluateAndUpdateBatchState batchSize successCount failureCount c1
       end.

Lemma evaluated_size_same s s' c a b : same_nodes s s' -> evaluated_size s' c a b = evaluated_size s c a b.
Proof.
  intros H. unfold evaluated_size, blocked_count.
  by rewrite (count_ext (has_status (NV := state_view s') StatusBlocked) (has_status (NV := state_view s) StatusBlocked))
    by (intros; by apply has_status_same).
Qed.

Lemma evaluated_same s s' c : same_nodes s s' -> evaluated s' c = evaluated s c.
Proof.
  intros H. unfold evaluated. rewrite (EvaluateCurrentBatch_same s s') by done.
  destruct (EvaluateCurrentBatch c) as [c1 [[e a] b]]. by rewrite (evaluated_size_same s s').
Qed.

Lemma evaluate_compartment_evaluated s k c :
  sns_compartments (evaluate_compartment s k c).1 = <[k := evaluated s c]> (sns_compartments s) /\
  same_nodes s (evaluate_compartment s k c).1.
Proof.
  unfold evaluate_compartment, evaluated. destruct (EvaluateCurrentBatch c) as [c1 [[e a] b]].
  destruct e; simpl; [|done]. rewrite (evaluated_size_same s) by done.
  destruct (evaluated_size s c1 a b); [|done]. simpl. rewrite insert_insert_eq. done.
Qed.

Lemma same_nodes_trans s1 s2 s3 : same_nodes s1 s2 -> same_nodes s2 s3 -> same_nodes s1 s3.
Proof. intros (H1 & H2 & H3) (H4 & H5 & H6). split_and!; congruence. Qed.

Lemma evaluate_fold s l acc : NoDup l.*1 -> same_nodes s acc.1 ->
  (forall k c, (k, c) ∈ l -> sns_compartments acc.1 !! k = Some c) ->
  let s' := (foldl (fun acc kc => let '(s, changed) := evaluate_compartment acc.1 kc.1 kc.2 in (s, changed || acc.2)) acc l).1 in
  same_nodes s s' /\
  forall k, sns_compartments s' !! k =
    if bool_decide (k ∈ l.*1) then evaluated s <$> sns_compartments acc.1 !! k else sns_compartments acc.1 !! k.
Proof.
  revert acc; induction l as [|[k c] l IH]; intros acc Hnd Hsame Hin; simpl; [done|].
  apply NoDup_cons in Hnd as [Hk Hnd]. simpl in Hk.
  destruct (evaluate_compartment_evaluated acc.1 k c) as [Hc Hs]. rewrite (evaluated_same s) in Hc by done.
  assert (Hkc : sns_compartments acc.1 !! k = Some c) by (apply Hin; by left).
  destruct (evaluate_compartment acc.1 k c) as [s1 changed] eqn:E. simpl in Hc, Hs.
  destruct (IH (s1, changed || acc.2)) as [H1 H2]; [done|by eapply same_nodes_trans| |].
  { intros k' c' Hin'. simpl. rewrite Hc, lookup_insert_ne; [apply Hin; by right|].
    intros ->. apply Hk. by apply (list_elem_of_fmap_2 fst) in Hin'. }
  split; [exact H1|]. intros k'. rewrite H2. simpl. rewrite Hc.
  destruct (decide (k' = k)) as [->|Hne].
  - rewrite bool_decide_eq_false_2 by done. rewrite bool_decide_eq_true_2 by by left.
    by rewrite lookup_insert_eq, Hkc.
  - rewrite lookup_insert_ne by done.
    assert (k' ∈ ((k, c) :: l).*1 <-> k' ∈ l.*1) as Hiff by (rewrite fmap_cons, elem_of_cons; naive_solver).
    by rewrite (bool_decide_ext _ _ Hiff).
Qed.

Lemma evaluateCompletedBatches_evaluated s k c : sns_compartments s !! k = Some c ->
  sns_compartments (evaluateCompletedBatches s).1 !! k =
    Some (if bool_decide (sns_Status s = StatusComplete) then c else evaluated s c).
Proof.
  intros Hk. unfold evaluateCompletedBatches. rewrite (bool_decide_eq_false_2 (sns_compartments s = ∅)).
  2: { intros He. by rewrite He, lookup_empty in Hk. }
  case_bool_decide; [done|].
  destruct (evaluate_fold s (range (sns_compartments s)) (s, false)) as [_ H2]; [apply NoDup_range|done| |].
  { intros k' c'. by rewrite elem_of_range. }
  rewrite H2. rewrite bool_decide_eq_true_2 by (apply elem_of_range_fst; by exists c). simpl. by rewrite Hk.
Qed.

(** The counts fit, and the strategy's threshold is a percentage (admission
    checks both bounds). *)
Definition batch_fits s c : Prop :=
  batch_in_range c /\ zlen (comp_Nodes c) * 100 < two63 /\
  getBatchThreshold (c_Strategy (comp_Policy c)) <= 100.

Lemma counts_blocked_le s c : counts_blocked (NV := state_view s) c <= blocked_count s c.
Proof.
  unfold counts_blocked, blocked_count, count, zlen. apply inj_le.
  induction (comp_Nodes c) as [|n l IH]; [done|]. cbn [List.filter].
  destruct (has_status StatusBlocked n); rewrite ?andb_false_r, ?andb_true_r; [|done].
  destruct (negb _ && negb _); cbn [length]; lia.
Qed.

(** Blocked nodes alone are no batch. *)
Lemma evaluated_size_blocked s c : 0 < blocked_count s c -> evaluated_size s c 0 0 = None.
Proof.
  intros Hb. unfold evaluated_size. simpl. change (int_add 0 0) with 0. simpl.
  rewrite (proj2 (Z.ltb_lt _ _) Hb). simpl. rewrite (proj2 (Z.ltb_lt _ _) Hb), Z.eqb_refl. simpl. by case_if.
Qed.

Lemma successful_batch (st : DeploymentStrategy) state n total :
  0 < n -> n * 100 < two63 -> getBatchThreshold (Some st) <= 100 ->
  ConsecutiveFailures (EvaluateBatchResult st state n n 0 total) = 0 /\
  ShouldStop (EvaluateBatchResult st state n n 0 total) = ShouldStop state.
Proof.
  intros Hn Hfit Ht. unfold EvaluateBatchResult. rewrite (proj2 (Z.eqb_neq n 0)) by lia.
  rewrite int_mul_id by (unfold int64, two63 in *; lia).
  rewrite int_quot_id; [|lia|unfold int64, two63 in *; lia|lia].
  rewrite (Z.mul_comm n 100), Z.div_mul by lia. rewrite (proj2 (Z.ltb_ge 100 _)) by lia. done.
Qed.

Lemma evaluated_batch s c : batch_fits s c -> CurrentBatch (comp_BatchState c) <> 0 ->
  let st := comp_BatchState c in
  let st' := comp_BatchState (evaluated s c) in
  (counts_completed (NV := state_view s) c = CompletedNodes st -> counts_failed (NV := state_view s) c = FailedNodes st ->
     st' = st) /\
  (counts_failed (NV := state_view s) c <= FailedNodes st ->
     (ConsecutiveFailures st' = ConsecutiveFailures st \/ ConsecutiveFailures st' = 0) /\ ShouldStop st' = ShouldStop st).
Proof.
  intros (Hr & Hfit & Ht) Hb. cbv zeta. unfold evaluated. rewrite (EvaluateCurrentBatch_alt (NV := state_view s) c Hr).
  cbv zeta. rewrite (proj2 (Z.eqb_neq _ 0) Hb).
  pose proof (counts_blocked_le s c) as Hle. set (dc := _ - CompletedNodes _). set (df := _ - FailedNodes _).
  assert (Hcp : counts_completed (NV := state_view s) c = CompletedNodes (comp_BatchState c) ->
    counts_failed (NV := state_view s) c = FailedNodes (comp_BatchState c) ->
    checkpoint (comp_BatchState c) (counts_completed (NV := state_view s) c) (counts_failed (NV := state_view s) c) = comp_BatchState c)
    by (intros -> ->; by destruct (comp_BatchState c)).
  destruct (IsBatchComplete (NV := state_view s) c); simpl; [|by auto].
  destruct ((dc <? 0) || (df <? 0)) eqn:E1; simpl; [by auto|]. bool_simpl.
  destruct ((dc =? 0) && (df =? 0)) eqn:E2; bool_simpl.
  - destruct (0 <? counts_blocked (NV := state_view s) c) eqn:E3; simpl; [|by auto]. bool_simpl.
    rewrite evaluated_size_blocked by (unfold blocked_count in *; simpl; lia). simpl. auto.
  - assert (Hpos : ~ (dc = 0 /\ df = 0)).
    { intros [-> ->]. discriminate E2. }
    split; [intros H1 H2; exfalso; unfold dc, df in *; lia|]. intros Hf.
    assert (Hdf : df = 0) by (unfold df in *; lia). rewrite Hdf. simpl.
    assert (Hdc : dc <= zlen (comp_Nodes c)).
    { unfold dc, counts_completed. pose proof (count_le (nv_IsComplete (NodeView := state_view s)) (comp_Nodes c)).
      destruct Hr as ([? ?] & _ & _). lia. }
    unfold evaluated_size. rewrite int_add_id by (unfold int64, two63 in *; lia). rewrite Z.add_0_r.
    rewrite (proj2 (Z.eqb_neq dc 0)) by lia. simpl. rewrite andb_false_r. simpl.
    unfold EvaluateAndUpdateBatchState. simpl. destruct (c_Strategy (comp_Policy c)) as [strat|]; [|by auto]. simpl.
    destruct (successful_batch strat (checkpoint (comp_BatchState c) (counts_completed (NV := state_view s) c)
      (counts_failed (NV := state_view s) c)) dc (zlen (comp_Nodes c))) as [-> ->]; [lia|lia|done|]. auto.
Qed.

(** What the evaluation of the batches of a resource does to one of its
    compartments.  When the counts of completed and failed nodes are those of
    the last evaluation the batch state does not move, however many nodes are
    blocked; and unless more nodes are erroring than at the last evaluation no
    failure is counted and the rollout is not stopped.  Blocked nodes are never
    failures. *)
Theorem blocked_nodes_are_not_failures s k c :
  sns_compartments s !! k = Some c -> batch_fits s c -> CurrentBatch (comp_BatchState c) <> 0 ->
  exists c', sns_compartments (evaluateCompletedBatches s).1 !! k = Some c' /\
    let st := comp_BatchState c in
    let st' := comp_BatchState c' in
    (counts_completed (NV := state_view s) c = CompletedNodes st -> counts_failed (NV := state_view s) c = FailedNodes st ->
       st' = st) /\
    (counts_failed (NV := state_view s) c <= FailedNodes st ->
       (ConsecutiveFailures st' = ConsecutiveFailures st \/ ConsecutiveFailures st' = 0) /\ ShouldStop st' = ShouldStop st).
Proof.
  intros Hk Hfits Hb. eexists. split; [by apply evaluateCompletedBatches_evaluated|].
  case_bool_decide; [by auto|]. by apply evaluated_batch.
Qed.
End Batches.

(* ------------------------------------------------------------------ *)
(** ** Lemmas: picking *)

Section Picking.
Context `{MR : MapRange} `{JS : NodeStateJSON} `{TT : TimeText}.
Implicit Types (s : skyhookNodes) (e : NodeEntry).

Lemma find_entry_put f s n :
  find_entry (put_node f s) n =
  if bool_decide (n = entry_name (entry_of_node f))
  then (fun _ => entry_of_node f) <$> find_entry s n else find_entry s n.
Proof.
  unfold find_entry, put_node. simpl. set (e := entry_of_node f).
  induction (sns_nodes s) as [|e' l IH]; simpl; [by case_match|].
  destruct (decide (entry_name e' = entry_name e)) as [He|He].
  - rewrite (bool_decide_eq_true_2 _ He). destruct (decide (n = entry_name e)) as [->|Hn].
    + rewrite !bool_decide_eq_true_2 by done. done.
    + rewrite (bool_decide_eq_false_2 (entry_name e = n)) by congruence.
      rewrite (bool_decide_eq_false_2 (n = _)) in * by done.
      rewrite (bool_decide_eq_false_2 (entry_name e' = n)) by congruence. exact IH.
  - rewrite (bool_decide_eq_false_2 _ He). destruct (decide (entry_name e' = n)) as [<-|Hn].
    + rewrite (bool_decide_eq_true_2 (entry_name e' = entry_name e')) by done. by rewrite (bool_decide_eq_false_2 _ He).
    + rewrite !(bool_decide_eq_false_2 _ Hn). exact IH.
Qed.

(** Two versions of an entry that a status update tells apart at most by its
    status. *)
Definition same_entry s s' e e' : Prop :=
  entry_name e' = entry_name e /\ CheckNodeIgnoreLabel (ne_Only e') = CheckNodeIgnoreLabel (ne_Only e) /\
  n_Taints (sn_Node (ne_Only e')) = n_Taints (sn_Node (ne_Only e)) /\
  entry_IsComplete s' e' = entry_IsComplete s e.

(** The relation between the state before and during a scan. *)
Definition scanned s s' : Prop :=
  sns_compartments s' = sns_compartments s /\ priorities s' = priorities s /\ sns_Spec s' = sns_Spec s /\
  GetConfigUpdates (sns_skyhook s') = GetConfigUpdates (sns_skyhook s) /\
  forall n, match find_entry s n, find_entry s' n with
            | Some e, Some e' => same_entry s s' e e'
            | None, None => True
            | _, _ => False
            end.

Lemma scanned_refl s : scanned s s.
Proof. split_and!; [done..|]. intros n. by destruct (find_entry s n). Qed.

Lemma scanned_trans s1 s2 s3 : scanned s1 s2 -> scanned s2 s3 -> scanned s1 s3.
Proof.
  intros (A1 & A2 & A3 & A4 & A5) (B1 & B2 & B3 & B4 & B5). split_and!; [congruence..|].
  intros n. specialize (A5 n). specialize (B5 n).
  destruct (find_entry s1 n), (find_entry s2 n), (find_entry s3 n); try done.
  destruct A5 as (? & ? & ? & ?), B5 as (? & ? & ? & ?). split_and!; congruence.
Qed.

Lemma SetStatus_taints st n : n_Taints (sn_Node (SetStatus_only st n)) = n_Taints (sn_Node n).
Proof.
  unfold SetStatus_only. set (m := match annotations n !! statusKey n with Some _ => _ | None => _ end).
  assert (Hm : n_Taints (sn_Node m) = n_Taints (sn_Node n)) by (unfold m; repeat case_match; done).
  clearbody m. case_if; [|done]. unfold Uncordon. destruct (annotations m !! _); [|done]. simpl. by case_if.
Qed.

Lemma SetStatus_priorities st f : NodePriority (sk_Status (full_skyhook (node_SetStatus st f))) = NodePriority (sk_Status (full_skyhook f)).
Proof.
  unfold node_SetStatus. simpl. unfold SetNodeState, SetNodeStatus.
  destruct (NodeStatus (sk_Status (full_skyhook f)) !! _); [case_if|];
    (destruct (default ∅ _ !! _); [case_if|]); done.
Qed.

Lemma find_entry_name s n e : find_entry s n = Some e -> entry_name e = n.
Proof. intros [_ H]%find_some. by bool_simpl. Qed.

Lemma block_scanned name s : scanned s (block_unless_complete name s).
Proof.
  unfold block_unless_complete, with_node. destruct (find_entry s name) as [e|] eqn:He; [|apply scanned_refl].
  set (f := as_node s e). set (f' := if node_IsComplete f then f else node_SetStatus StatusBlocked f).
  assert (Hw : same_work f f' /\ n_Taints (sn_Node (full_Only f')) = n_Taints (sn_Node (full_Only f)) /\
    NodePriority (sk_Status (full_skyhook f')) = NodePriority (sk_Status (full_skyhook f)) /\
    sk_Spec (full_skyhook f') = sk_Spec (full_skyhook f) /\
    GetConfigUpdates (full_skyhook f') = GetConfigUpdates (full_skyhook f)).
  { unfold f'. destruct (node_IsComplete f); [done|].
    split_and!; [apply node_SetStatus_work|apply SetStatus_taints|apply SetStatus_priorities| |].
    - exact (eq_trans (proj1 (SetNodeState_work _ _ _)) (proj1 (SetNodeStatus_work _ _ _))).
    - exact (eq_trans (proj2 (SetNodeState_work _ _ _)) (proj2 (SetNodeStatus_work _ _ _))). }
  destruct Hw as ((Hc & Hi & Hn) & Ht & Hp & Hs & Hu). clearbody f'.
  assert (Hcomplete : forall e1, entry_IsComplete (put_node f' s) e1 = entry_IsComplete s e1).
  { intros e1. unfold entry_IsComplete. apply IsComplete_ext; [exact Hs|exact Hu|done]. }
  split_and!; [done|exact Hp|exact Hs|exact Hu|].
  intros n. rewrite find_entry_put. pose proof (find_entry_name _ _ _ He) as Hname.
  assert (Hn' : entry_name (entry_of_node f') = name) by (rewrite <- Hname; exact Hn).
  case_bool_decide as Hd.
  - rewrite Hn' in Hd. subst n. rewrite He. simpl. split_and!; [congruence|exact Hi|exact Ht|].
    transitivity (node_IsComplete f'); [by apply IsComplete_ext|exact Hc].
  - destruct (find_entry s n); [|done]. split_and!; [done..|apply Hcomplete].
Qed.

Lemma scan_node_scanned tolerations sc name :
  scanned (sc_state sc) (sc_state (scan_node tolerations sc name)).
Proof.
  unfold scan_node. destruct (find_entry _ name) as [e|]; [|apply scanned_refl]. simpl.
  destruct (negb _), (CheckNodeIgnoreLabel _);
    eauto using scanned_refl, scanned_trans, block_scanned.
Qed.

(** A node found with the status Blocked. *)
Definition is_blocked s n : Prop := exists e, find_entry s n = Some e /\ entry_Status e = StatusBlocked.

Lemma block_is_blocked s n m :
  is_blocked s n \/ (n = m /\ exists e, find_entry s n = Some e /\ entry_IsComplete s e = false) ->
  is_blocked (block_unless_complete m s) n.
Proof.
  unfold block_unless_complete, with_node, is_blocked. intros H.
  destruct (find_entry s m) as [e|] eqn:He.
  2: { destruct H as [H|[-> (e & He' & _)]]; [done|congruence]. }
  setoid_rewrite find_entry_put. set (f' := if node_IsComplete (as_node s e) then _ else _).
  assert (Hn' : entry_name (entry_of_node f') = m).
  { rewrite <- (find_entry_name _ _ _ He). unfold f'. destruct (node_IsComplete _); [done|].
    apply (node_SetStatus_work StatusBlocked (as_node s e)). }
  rewrite Hn'. case_bool_decide as Hd.
  - subst n. rewrite He. simpl. exists (entry_of_node f'). split; [done|]. unfold f'.
    destruct (node_IsComplete (as_node s e)) eqn:Hc; [|by apply node_SetStatus_Status].
    destruct H as [(e1 & He1 & Hs)|[_ (e1 & He1 & Hs)]].
    + rewrite He in He1. by injection He1 as <-.
    + rewrite He in He1. injection He1 as <-. unfold entry_IsComplete in Hs. congruence.
  - destruct H as [H|[-> _]]; [|done]. exact H.
Qed.

(** What a node is not to be picked for. *)
Definition barred tolerations e : bool := CheckNodeIgnoreLabel (ne_Only e) || negb (tolerated tolerations e).

Lemma scan_node_blocks tolerations sc name n :
  is_blocked (sc_state sc) n \/
  (n = name /\ exists e, find_entry (sc_state sc) n = Some e /\ entry_IsComplete (sc_state sc) e = false /\ barred tolerations e = true) ->
  is_blocked (sc_state (scan_node tolerations sc name)) n.
Proof.
  intros H. unfold scan_node. destruct (find_entry (sc_state sc) name) as [e|] eqn:He.
  2: { destruct H as [H|[-> (e & He' & _)]]; [done|congruence]. }
  simpl. destruct H as [H|[-> (e1 & He1 & Hc & Hb)]].
  - destruct (negb _), (CheckNodeIgnoreLabel _); repeat (first [done|apply block_is_blocked; left]).
  - rewrite He in He1. injection He1 as <-. unfold barred in Hb.
    assert (is_blocked (block_unless_complete name (sc_state sc)) name)
      by (apply block_is_blocked; right; eauto).
    destruct (negb (tolerated _ _)), (CheckNodeIgnoreLabel _); try done.
    by apply block_is_blocked; left.
Qed.

Lemma scan_nodes_spec tolerations l sc :
  let sc' := foldl (scan_node tolerations) sc l in
  scanned (sc_state sc) (sc_state sc') /\
  forall n, is_blocked (sc_state sc) n \/
    (n ∈ l /\ exists e, find_entry (sc_state sc) n = Some e /\ entry_IsComplete (sc_state sc) e = false /\ barred tolerations e = true) ->
    is_blocked (sc_state sc') n.
Proof.
  cbv zeta. revert sc; induction l as [|name l IH]; intros sc; simpl.
  { split; [apply scanned_refl|]. intros n [H|[H%elem_of_nil _]]; done. }
  destruct (IH (scan_node tolerations sc name)) as [H1 H2].
  pose proof (scan_node_scanned tolerations sc name) as Hsc.
  split; [by eapply scanned_trans|]. intros n H. apply H2.
  destruct H as [H|[[->|Hin]%elem_of_cons (e & He & Hc & Hb)]].
  - left. apply scan_node_blocks. by left.
  - left. apply scan_node_blocks. right. eauto.
  - right. split; [done|]. destruct Hsc as (_ & _ & _ & _ & Hsc). specialize (Hsc n). rewrite He in Hsc.
    destruct (find_entry (sc_state (scan_node tolerations sc name)) n) as [e'|]; [|done].
    destruct Hsc as (_ & Hi & Ht & Hc'). exists e'. split_and!; [done|congruence|].
    unfold barred, tolerated in *. by rewrite Hi, Ht.
Qed.

Lemma scan_all_spec tolerations s :
  let s' := sc_state (scan_all tolerations s) in
  scanned s s' /\
  forall k c n e, sns_compartments s !! k = Some c -> n ∈ comp_Nodes c -> find_entry s n = Some e ->
    entry_IsComplete s e = false -> barred tolerations e = true -> is_blocked s' n.
Proof.
  assert (Hfold : forall (l : list (string * CompartmentW string)) sc,
    foldl (fun sc kc => foldl (scan_node tolerations) sc (comp_Nodes (snd kc))) sc l =
    foldl (scan_node tolerations) sc (flat_map (fun kc => comp_Nodes kc.2) l)).
  { induction l as [|kc l IH]; intros sc; simpl; [done|]. by rewrite IH, foldl_app. }
  unfold scan_all. rewrite Hfold.
  destruct (scan_nodes_spec tolerations (flat_map (fun kc => comp_Nodes kc.2) (range (sns_compartments s)))
    {| sc_state := s; sc_intolerable := []; sc_ignored := [] |}) as [H1 H2].
  split; [exact H1|]. intros k c n e Hk Hn He Hc Hb. apply H2. right. split; [|eauto].
  rewrite list_elem_of_In, in_flat_map. exists (k, c). rewrite <- !list_elem_of_In. by rewrite elem_of_range.
Qed.

Lemma GetNodesForNextBatch_elem `{NV : NodeView string} c eligible l n :
  GetNodesForNextBatch c (Some eligible) = Ok l -> n ∈ l -> n ∈ comp_Nodes c /\ eligible n = true.
Proof.
  unfold GetNodesForNextBatch. destruct (is_stopped c); [intros [= <-] H; by apply elem_of_nil in H|].
  case_if; [intros [= <-] [H1 H2]%elem_of_filterb; by bool_simpl|].
  case_if.
  - intros [= <-]. unfold getStickyBatchNodes. destruct (comp_Nodes c); [by intros ?%elem_of_nil|].
    intros [H1 H2]%elem_of_filterb. by bool_simpl.
  - unfold createNewBatch. intros (size & _ & H)%rbind_ok Hin. destruct (size <=? 0) eqn:Hsz.
    { injection H as <-. by apply elem_of_nil in Hin. }
    bool_simpl. assert (Hs : zlen ([] : list string) <= size) by (unfold zlen; simpl; lia).
    rewrite (select_nodes_take (Some eligible) _ batch_priority (comp_Nodes c) [] Hs) in H. injection H as <-.
    apply elem_of_take in Hin as (i & Hi & _). apply list_elem_of_lookup_2 in Hi.
    apply (elem_of_candidates (Some eligible) batch_priority) in Hi. tauto.
Qed.

(** Picking changes the priorities only, and keeps those it finds. *)
Definition picked s s' : Prop :=
  sns_nodes s' = sns_nodes s /\ forall n t, priorities s !! n = Some t -> priorities s' !! n = Some t.

Lemma picked_trans s1 s2 s3 : picked s1 s2 -> picked s2 s3 -> picked s1 s3.
Proof. intros [H1 H2] [H3 H4]. split; [congruence|auto]. Qed.

Lemma pick_nodes_spec now names pk :
  let pk' := foldl (pick_node now) pk names in
  picked (pk_state pk) (pk_state pk') /\
  (forall n, n ∈ pk_selected pk' <-> n ∈ pk_selected pk \/ n ∈ names) /\
  forall n, n ∈ names -> is_Some (priorities (pk_state pk') !! n).
Proof.
  cbv zeta. revert pk; induction names as [|name names IH]; intros pk; simpl.
  { split_and!; [done| |by intros ? ?%elem_of_nil]. intros n. rewrite elem_of_nil. tauto. }
  destruct (IH (pick_node now pk name)) as (H1 & H2 & H3).
  assert (Hone : picked (pk_state pk) (pk_state (pick_node now pk name)) /\
    pk_selected (pick_node now pk name) = pk_selected pk ++ [name] /\
    is_Some (priorities (pk_state (pick_node now pk name)) !! name)).
  { unfold pick_node, upsertPick. destruct (priorities (pk_state pk) !! name) eqn:E; simpl.
    - split_and!; [done|done|by rewrite E].
    - split_and!; [split; [done|]|done|].
      + intros n t Hn. unfold priorities in *. simpl. rewrite lookup_insert_ne; [done|]. intros ->. congruence.
      + unfold priorities. simpl. rewrite lookup_insert_eq. by eexists. }
  destruct Hone as (P1 & P2 & P3). split_and!; [by eapply picked_trans| |].
  - intros n. rewrite H2, P2, elem_of_app, list_elem_of_singleton, elem_of_cons. tauto.
  - intros n [->|Hn]%elem_of_cons; [|auto]. destruct P3 as [t Ht]. exists t. by apply H1.
Qed.

Lemma pick_compartments_spec now eligible (l : list (string * CompartmentW string)) pk pk' :
  rfold (fun pk kc => pick_compartment now eligible pk (snd kc)) pk l = Ok pk' ->
  picked (pk_state pk) (pk_state pk') /\
  forall n, n ∈ pk_selected pk' -> n ∈ pk_selected pk \/
    (is_Some (priorities (pk_state pk') !! n) /\ eligible n = true /\
     exists k (c : CompartmentW string), (k, c) ∈ l /\ n ∈ comp_Nodes c).
Proof.
  revert pk; induction l as [|[k c] l IH]; intros pk; simpl.
  { intros [= <-]. split; [done|auto]. }
  intros (pk1 & Hpk1 & Hrest)%rbind_ok. destruct (IH pk1 Hrest) as [H1 H2].
  unfold pick_compartment in Hpk1. apply rbind_ok in Hpk1 as (names & Hnames & [= <-]).
  destruct (pick_nodes_spec now names pk) as (P1 & P2 & P3).
  split; [by eapply picked_trans|]. intros n Hn.
  destruct (H2 n Hn) as [Hn1|(Hp & He & k' & c' & Hin & Hc)].
  - apply P2 in Hn1 as [Hn1|Hn1]; [by left|right].
    destruct (GetNodesForNextBatch_elem (NV := state_view (pk_state pk)) c eligible names n Hnames Hn1) as [Hc He].
    split_and!; [|done|exists k, c; split; [by left|done]].
    destruct (P3 n Hn1) as [t Ht]. exists t. by apply H1.
  - right. split_and!; [done|done|exists k', c'; split; [by right|done]].
Qed.

Lemma AddSkyhookConditionWithLegacy_priority now sk c :
  NodePriority (sk_Status (AddSkyhookConditionWithLegacy now sk c).1) = NodePriority (sk_Status sk).
Proof.
  assert (H : forall sk c, NodePriority (sk_Status (addSkyhookCondition sk c).1) = NodePriority (sk_Status sk)).
  { intros sk' c'. unfold addSkyhookCondition. by destruct (addOrUpdateSkyhookCondition _ _) as [? []]. }
  unfold AddSkyhookConditionWithLegacy, AddSkyhookCondition.
  destruct (addSkyhookCondition sk _) as [a b] eqn:E. pose proof (f_equal fst E) as Ea. simpl in Ea.
  case_if; simpl; [by rewrite <- Ea, H|].
  destruct (addSkyhookCondition a _) as [a' b'] eqn:E'. pose proof (f_equal fst E') as Ea'. simpl in Ea'.
  simpl. by rewrite <- Ea', H, <- Ea, H.
Qed.

Lemma add_condition_legacy_picked now c s : picked s (add_condition_legacy now c s).
Proof.
  split; [done|]. intros n t. unfold priorities, add_condition_legacy, on_skyhook. simpl.
  by rewrite AddSkyhookConditionWithLegacy_priority.
Qed.

Lemma prune_spec s : 
  let s' := (pruneCompletedNodePriorities s).1 in
  sns_nodes s' = sns_nodes s /\ sns_compartments s' = sns_compartments s /\ sns_Spec s' = sns_Spec s /\
  GetConfigUpdates (sns_skyhook s') = GetConfigUpdates (sns_skyhook s) /\
  forall n t, priorities s' !! n = Some t <-> priorities s !! n = Some t /\ (sns_GetNode s n).1 <> StatusComplete.
Proof.
  cbv zeta. unfold pruneCompletedNodePriorities.
  assert (Hfold : forall (l : list (string * Z)) acc, sns_nodes acc.1 = sns_nodes s ->
    let s' := (foldl prune_priority acc l).1 in
    sns_nodes s' = sns_nodes s /\ sns_compartments s' = sns_compartments acc.1 /\ sns_Spec s' = sns_Spec acc.1 /\
    GetConfigUpdates (sns_skyhook s') = GetConfigUpdates (sns_skyhook acc.1) /\
    forall n t, priorities s' !! n = Some t <->
      priorities acc.1 !! n = Some t /\ (n ∈ l.*1 -> (sns_GetNode s n).1 <> StatusComplete)).
  { induction l as [|[m u] l IH]; intros acc Hn; simpl.
    { split_and!; [done..|]. intros n t. split; [intros H; split; [done|by intros ?%elem_of_nil]|tauto]. }
    assert (Hget : sns_GetNode acc.1 m = sns_GetNode s m) by (unfold sns_GetNode, find_entry; by rewrite Hn).
    destruct (IH (prune_priority acc (m, u))) as (H1 & H2 & H3 & H4 & H5).
    { unfold prune_priority. by case_if. }
    split_and!; [done|rewrite H2|rewrite H3|rewrite H4|];
      [unfold prune_priority; by case_if|unfold prune_priority; case_if; [|done];
         unfold sns_Spec, on_skyhook, RemoveNodePriority; simpl; by case_match
      |unfold prune_priority; case_if; [|done]; unfold on_skyhook, RemoveNodePriority; simpl; by case_match|].
    intros n t. rewrite H5, elem_of_cons. unfold prune_priority. simpl. rewrite Hget. case_bool_decide as Hc; simpl.
    - assert (Hd : priorities (on_skyhook (RemoveNodePriority m) acc.1) = delete m (priorities acc.1)).
      { unfold priorities, on_skyhook, RemoveNodePriority. simpl.
        destruct (NodePriority _ !! m) eqn:Hm; simpl; [done|]. by rewrite delete_id. }
      rewrite Hd, lookup_delete_Some. split; [intros [[? ?] ?]; naive_solver|].
      intros [? H]. split; [split; [|done]|]; [|auto]. intros ->. by apply H; [left|].
    - split; [intros [? H]; split; [done|intros [->|?]; auto]|]. intros [? H]. auto. }
  destruct (Hfold (range (priorities s)) (s, false) eq_refl) as (H1 & H2 & H3 & H4 & H5).
  split_and!; [done..|]. intros n t. rewrite H5. simpl. split; intros [Hp H]; (split; [done|]); [|by intros _].
  apply H. apply elem_of_range_fst. by eexists.
Qed.

Lemma picker_tolerations_same np np' s s' : sns_Spec s' = sns_Spec s ->
  runtimeRequiredTolerations np' = runtimeRequiredTolerations np ->
  picker_tolerations np' s' = picker_tolerations np s.
Proof. unfold picker_tolerations. by intros -> ->. Qed.

Lemma find_entry_nodes s s' n : sns_nodes s' = sns_nodes s -> find_entry s' n = find_entry s n.
Proof. unfold find_entry. by intros ->. Qed.

Lemma eligible_scanned tolerations s s' n : scanned s s' -> eligible_node tolerations s' n = eligible_node tolerations s n.
Proof.
  intros (_ & _ & _ & _ & H). specialize (H n). unfold eligible_node.
  destruct (find_entry s n), (find_entry s' n); try done. destruct H as (_ & Hi & Ht & _).
  unfold tolerated. by rewrite Hi, Ht.
Qed.

(** C10: picking nodes.  A node is selected only from a compartment of the
    resource, when its taints are all tolerated and it does
    not carry the ignore label, and once selected it has a place in the order
    of nodes; a node that had one and is not complete keeps it, with its time;
    and an incomplete node that is ignored or not tolerated is marked Blocked,
    selected or not by the strategy. *)
Theorem SelectNodes_safe now np s pk : SelectNodes now np s = Ok pk ->
  let tolerations := picker_tolerations np s in
  (forall n, n ∈ pk_selected pk ->
     (exists k c, sns_compartments s !! k = Some c /\ n ∈ comp_Nodes c) /\
     (exists e, find_entry s n = Some e /\ barred tolerations e = false) /\
     is_Some (priorities (pk_state pk) !! n)) /\
  (forall n t, priorities s !! n = Some t -> (sns_GetNode s n).1 <> StatusComplete ->
     priorities (pk_state pk) !! n = Some t) /\
  (forall k c n e, sns_compartments s !! k = Some c -> n ∈ comp_Nodes c -> find_entry s n = Some e ->
     entry_IsComplete s e = false -> barred tolerations e = true -> is_blocked (pk_state pk) n).
Proof.
  unfold SelectNodes, primeAndPruneNodes. destruct (prune_spec s) as (Hn & Hcomp & Hspec & Hconf & Hprio).
  set (s1 := (pruneCompletedNodePriorities s).1) in *. set (np1 := set_priorityNodes _ np).
  rewrite (picker_tolerations_same np np1 s s1 Hspec eq_refl). set (tol := picker_tolerations np s).
  unfold selectNodesWithCompartments. destruct (scan_all_spec tol s1) as [Hscan Hblock].
  set (sc := scan_all tol s1) in *. intros (pk1 & Hpk & [= <-])%rbind_ok. cbv zeta. simpl.
  destruct (pick_compartments_spec _ _ _ _ _ Hpk) as [Hp Hsel]. simpl in Hp, Hsel.
  set (s3 := updateIgnoredNodesCondition _ _ _).
  assert (Hlast : picked (pk_state pk1) s3) by (eapply picked_trans; apply add_condition_legacy_picked).
  pose proof Hscan as (Hsc & Hspr & _).
  split_and!.
  - intros n Hin. destruct (Hsel n Hin) as [H|([t Ht] & He & k & c & Hkc & Hc)]; [by apply elem_of_nil in H|].
    split_and!.
    + exists k, c. apply elem_of_range in Hkc. by rewrite Hsc, Hcomp in Hkc.
    + rewrite (eligible_scanned tol s1) in He by done. unfold eligible_node in He.
      rewrite (find_entry_nodes s s1) in He by done. destruct (find_entry s n) as [e|]; [|done].
      exists e. split; [done|]. unfold barred. apply andb_true_iff in He as [Hi ->].
      apply negb_true_iff in Hi as ->. done.
    + exists t. by apply Hlast.
  - intros n t Hnt Hst. apply Hlast, Hp. rewrite Hspr. apply Hprio. done.
  - intros k c n e Hk Hc He Hco Hb.
    destruct (Hblock k c n e) as (e' & He' & Hs'); [by rewrite Hcomp|done|by rewrite (find_entry_nodes s)| |done|].
    { rewrite <- Hco. unfold entry_IsComplete. by apply IsComplete_ext. }
    exists e'. split; [|done]. destruct Hlast as [Hl _], Hp as [Hp _].
    rewrite <- He'. apply find_entry_nodes. congruence.
Qed.
End Picking.

(* ------------------------------------------------------------------ *)
(** ** Witnesses *)

#[local] Existing Instance example_json.
#[local] Existing Instance example_time.

Definition one_at_a_time : CompartmentW string :=
  {| comp_Policy := {| c_Name := "gpu"; c_Selector := no_selector; c_Budget := {| Percent := None; Count := Some 1 |};
                       c_Strategy := None |};
     comp_Nodes := ["n1"; "n2"]; comp_BatchState := fresh_state |}.

(** Two nodes with the package [base] still to install. *)
Definition picking_state : skyhookNodes :=
  set_sns_compartments {["gpu" := one_at_a_time]}
    (plain_state "tuning" base_only [plain_entry "n1" "tuning" None; plain_entry "n2" "tuning" None]).

Lemma SelectNodes_safe_witness :
  exists pk, SelectNodes 7 (NewNodePicker []) picking_state = Ok pk /\ pk_selected pk = ["n1"] /\
    is_Some (priorities (pk_state pk) !! "n1").
Proof.
  destruct (SelectNodes 7 (NewNodePicker []) picking_state) as [pk| |] eqn:E; try (by vm_compute in E).
  assert (Hs : pk_selected pk = ["n1"]) by (vm_compute in E; injection E as <-; reflexivity).
  exists pk. split; [reflexivity|]. split; [exact Hs|].
  apply (proj1 (SelectNodes_safe 7 (NewNodePicker []) picking_state pk E) "n1"). rewrite Hs. left.
Defined.

Lemma blocked_nodes_are_not_failures_witness :
  exists c', sns_compartments (evaluateCompletedBatches picking_state).1 !! "gpu" = Some c' /\
    comp_BatchState c' = fresh_state.
Proof.
  assert (Hk : sns_compartments picking_state !! "gpu" = Some one_at_a_time) by reflexivity.
  assert (Hf : batch_fits picking_state one_at_a_time) by (vm_compute; repeat split; discriminate).
  assert (Hb : CurrentBatch (comp_BatchState one_at_a_time) <> 0) by discriminate.
  destruct (blocked_nodes_are_not_failures picking_state "gpu" one_at_a_time Hk Hf Hb) as (c' & Hc' & H & _).
  exists c'. split; [exact Hc'|]. apply H; reflexivity.
Defined.
