(* ===== verification/Drain.v ===== *)
(** * Draining a node: the decision on one pod

    Models [operator/internal/drain/drain.go]: the options, the timeout and the
    decision on a pod.  Listing and evicting are in [Executor]. *)

From S2P Require Import Prelude DeploymentPolicy Api Node Introspect.

#[local] Open Scope Z_scope.

(** The fields of a [corev1.Pod] that the drain reads.  An owner reference is
    its kind and its [Controller] flag; a volume is whether it is an [EmptyDir]. *)
Record WorkloadPod := {
  wp_Namespace : string;
  wp_Name : string;
  wp_Labels : gmap string string;
  wp_Annotations : gmap string string;
  wp_OwnerReferences : list (string * bool);
  wp_Deleted : bool;
  wp_Phase : string;
  wp_Tolerations : list Toleration;
  wp_Volumes : list bool
}.

Definition MirrorPodAnnotationKey : string := "kubernetes.io/config.mirror".

Inductive Action := ActionIgnore | ActionBlock | ActionEvict | ActionDelete.

#[export] Instance Action_eq_dec : EqDecision Action.
Proof. solve_decision. Defined.

Inductive Reason :=
| ReasonPhase | ReasonTerminating | ReasonSkyhookPackage | ReasonUnschedulableToleration | ReasonDaemonSet
| ReasonKubeSystem | ReasonMirrorPod | ReasonUnmanaged | ReasonEmptyDir | ReasonEviction | ReasonDelete.

#[export] Instance Reason_eq_dec : EqDecision Reason.
Proof. solve_decision. Defined.

Record Options := {
  DisableEviction : bool;
  DeleteEmptyDirData : bool;
  Force : bool;
  IgnoreDaemonSets : bool;
  GracePeriodSeconds : option Z;
  PackageNamespace : string
}.

Definition DefaultOptions : Options :=
  {| DisableEviction := false; DeleteEmptyDirData := true; Force := true; IgnoreDaemonSets := true;
     GracePeriodSeconds := None; PackageNamespace := "" |}.

(** [time.Second] *)
Definition Second : Z := 1000000000.

(** Whole seconds of a duration, one more for a remainder; Go's [/] and [%]
    truncate toward zero. *)
Definition grace_seconds (d : Z) : Z :=
  let seconds := Z.quot d Second in
  if Z.rem d Second =? 0 then seconds else int_add seconds 1.

Definition OptionsFromConfig (config : option DrainConfig) : Options :=
  let options := DefaultOptions in
  match config with
  | None => options
  | Some c =>
      {| DisableEviction := default (DisableEviction options) (dc_DisableEviction c);
         DeleteEmptyDirData := default (DeleteEmptyDirData options) (dc_DeleteEmptyDirData c);
         Force := default (Force options) (dc_Force c);
         IgnoreDaemonSets := default (IgnoreDaemonSets options) (dc_IgnoreDaemonSets c);
         GracePeriodSeconds := match dc_GracePeriod c with
                               | Some d => Some (grace_seconds d)
                               | None => GracePeriodSeconds options
                               end;
         PackageNamespace := PackageNamespace options |}
  end.

Definition set_PackageNamespace (v : string) (o : Options) : Options :=
  {| DisableEviction := DisableEviction o; DeleteEmptyDirData := DeleteEmptyDirData o; Force := Force o;
     IgnoreDaemonSets := IgnoreDaemonSets o; GracePeriodSeconds := GracePeriodSeconds o; PackageNamespace := v |}.

(** A timeout of zero is none. *)
Definition TimedOut (startedAt timeout : option Z) (now : Z) : bool :=
  match startedAt, timeout with
  | Some startedAt, Some timeout =>
      if timeout =? 0 then false else negb (now <? startedAt + timeout)
  | _, _ => false
  end.

Record Decision := { dn_Action : Action; dn_Reason : Reason }.

Definition BlocksDrain (d : Decision) : bool := negb (bool_decide (dn_Action d = ActionIgnore)).

Definition RequiresAction (d : Decision) : bool :=
  bool_decide (dn_Action d = ActionEvict) || bool_decide (dn_Action d = ActionDelete).

(** [metav1.GetControllerOf]: the kind of the first owner with the flag. *)
Definition GetControllerOf (pod : WorkloadPod) : option string :=
  option_map fst (List.find (fun ref => ref.2) (wp_OwnerReferences pod)).

Definition has_key (k : string) (m : gmap string string) : bool :=
  match m !! k with Some _ => true | None => false end.

Definition isSkyhookPackagePod (pod : WorkloadPod) (packageNamespace : string) : bool :=
  if bool_decide (packageNamespace = "") || negb (bool_decide (wp_Namespace pod = packageNamespace)) then false
  else has_key (METADATA_PREFIX +:+ "/name") (wp_Labels pod) && has_key (METADATA_PREFIX +:+ "/package") (wp_Labels pod).

Definition unschedulableTaint : Taint :=
  {| taint_Key := TaintUnschedulable; taint_Value := ""; taint_Effect := TaintEffectNoSchedule |}.

Definition toleratesUnschedulable (pod : WorkloadPod) : bool :=
  any (fun toleration => ToleratesTaint toleration unschedulableTaint) (wp_Tolerations pod).

Definition isMirrorPod (pod : WorkloadPod) : bool := has_key MirrorPodAnnotationKey (wp_Annotations pod).

Definition hasEmptyDir (pod : WorkloadPod) : bool := any id (wp_Volumes pod).

Definition DecidePod (pod : WorkloadPod) (options : Options) : Decision :=
  let ignore r := {| dn_Action := ActionIgnore; dn_Reason := r |} in
  let block r := {| dn_Action := ActionBlock; dn_Reason := r |} in
  if negb (bool_decide (wp_Phase pod = "Running") || bool_decide (wp_Phase pod = "Pending")) then ignore ReasonPhase
  else if isSkyhookPackagePod pod (PackageNamespace options) then ignore ReasonSkyhookPackage
  else if toleratesUnschedulable pod then ignore ReasonUnschedulableToleration
  else
    let controllerRef := GetControllerOf pod in
    if IgnoreDaemonSets options && bool_decide (controllerRef = Some "DaemonSet") then ignore ReasonDaemonSet
    else if bool_decide (wp_Namespace pod = "kube-system") then ignore ReasonKubeSystem
    else if isMirrorPod pod then ignore ReasonMirrorPod
    else if wp_Deleted pod then block ReasonTerminating
    else if bool_decide (controllerRef = None) && negb (Force options) then block ReasonUnmanaged
    else if hasEmptyDir pod && negb (DeleteEmptyDirData options) then block ReasonEmptyDir
    else if DisableEviction options then {| dn_Action := ActionDelete; dn_Reason := ReasonDelete |}
    else {| dn_Action := ActionEvict; dn_Reason := ReasonEviction |}.

(* ------------------------------------------------------------------ *)
(** ** The specification *)

(** Pods that the drain neither touches nor waits for. *)
Definition exempt (pod : WorkloadPod) (o : Options) : Prop :=
  ~ (wp_Phase pod = "Running" \/ wp_Phase pod = "Pending") \/
  isSkyhookPackagePod pod (PackageNamespace o) = true \/
  toleratesUnschedulable pod = true \/
  (IgnoreDaemonSets o = true /\ GetControllerOf pod = Some "DaemonSet") \/
  wp_Namespace pod = "kube-system" \/
  isMirrorPod pod = true.

(** Pods that the drain waits for without removing them. *)
Definition held (pod : WorkloadPod) (o : Options) : Prop :=
  wp_Deleted pod = true \/
  (GetControllerOf pod = None /\ Force o = false) \/
  (hasEmptyDir pod = true /\ DeleteEmptyDirData o = false).

(** The facts of one branch, as propositions. *)
Ltac bool_facts :=
  repeat match goal with
  | H : _ || _ = true |- _ => apply orb_true_iff in H
  | H : _ || _ = false |- _ => apply orb_false_iff in H as [? ?]
  | H : _ && _ = true |- _ => apply andb_true_iff in H as [? ?]
  | H : _ && _ = false |- _ => apply andb_false_iff in H
  | H : negb _ = true |- _ => apply negb_true_iff in H
  | H : negb _ = false |- _ => apply negb_false_iff in H
  | H : context [bool_decide _ = true] |- _ => rewrite bool_decide_eq_true in H
  | H : context [bool_decide _ = false] |- _ => rewrite bool_decide_eq_false in H
  | H : context [negb _ = false] |- _ => rewrite negb_false_iff in H
  end.
Ltac decide_leaf := bool_facts; try solve [done | intuition (try congruence; try done)].

(** What the drain does with a pod is decided by two questions.  A pod that
    is exempt (finished, of the operator's own packages, tolerating the cordon,
    of an ignored daemon set, of kube-system, or a mirror pod) is never touched
    and never waited for, even while it terminates.  Any other pod blocks the
    drain, and it is removed, by eviction or, when evictions are disabled, by
    deletion, exactly when it is not held back: not terminating already, not
    unmanaged without force, and not the owner of an emptyDir that must be kept. *)
Theorem DecidePod_spec (pod : WorkloadPod) (o : Options) :
  (BlocksDrain (DecidePod pod o) = false <-> exempt pod o) /\
  (RequiresAction (DecidePod pod o) = true <-> ~ exempt pod o /\ ~ held pod o) /\
  (dn_Action (DecidePod pod o) = ActionDelete -> DisableEviction o = true) /\
  (dn_Action (DecidePod pod o) = ActionEvict -> DisableEviction o = false).
Proof.
  unfold DecidePod, exempt, held, BlocksDrain, RequiresAction. cbv zeta.
  repeat match goal with
  | |- context [if ?b then {| dn_Action := _; dn_Reason := _ |} else _] =>
      let H := fresh "E" in destruct b eqn:H; cbn [dn_Action];
        [repeat split; intros; decide_leaf|]
  end.
  repeat split; intros; decide_leaf.
Qed.

(** The grace period sent with an eviction is the configured one rounded up
    to whole seconds: never shorter, and less than a second longer; a period of
    zero stays zero.  No int64 duration overflows. *)
Theorem grace_seconds_rounds_up (d : Z) (Hd : 0 <= d) (Hi : int64 d) :
  d <= grace_seconds d * Second < d + Second /\ (d = 0 -> grace_seconds d = 0) /\
  (forall c, dc_GracePeriod c = Some d -> GracePeriodSeconds (OptionsFromConfig (Some c)) = Some (grace_seconds d)).
Proof.
  unfold grace_seconds, Second in *. rewrite Z.quot_div_nonneg, Z.rem_mod_nonneg by lia.
  pose proof (Z.div_mod d 1000000000 ltac:(lia)). pose proof (Z.mod_pos_bound d 1000000000 ltac:(lia)).
  assert (Hs : int_add (d / 1000000000) 1 = d / 1000000000 + 1)
    by (apply int_add_id; unfold int64, two63 in *; lia).
  destruct (Z.eqb_spec (d mod 1000000000) 0); rewrite ?Hs.
  - split; [lia|]. split; [lia|]. intros c Hc. simpl. rewrite Hc. unfold grace_seconds, Second.
    rewrite Z.quot_div_nonneg, Z.rem_mod_nonneg by lia. by rewrite (proj2 (Z.eqb_eq _ _)).
  - split; [lia|]. split; [intros ->; done|]. intros c Hc. simpl. rewrite Hc. unfold grace_seconds, Second.
    rewrite Z.quot_div_nonneg, Z.rem_mod_nonneg by lia. by rewrite (proj2 (Z.eqb_neq _ _)), Hs.
Qed.

Lemma grace_seconds_rounds_up_witness :
  grace_seconds 1500000000 = 2 /\ 1500000000 <= grace_seconds 1500000000 * Second < 1500000000 + Second.
Proof.
  split; [reflexivity|]. apply (grace_seconds_rounds_up 1500000000); [done|]. by vm_compute.
Defined.
