(* ===== verification/Options.v ===== *)
(** * The operator's options and its taints

    Models [SkyhookOperatorOptions] of
    [operator/internal/controller/skyhook_controller.go]: their validation, the
    taints the operator recognises and the tolerations of its pods, with the
    parts of [k8s.io/kubernetes/pkg/util/taints] (vendored) that they call.  The
    validators of label values and qualified names are a parameter.  The fields
    that only other controllers read are left out. *)

From S2P Require Import Prelude DeploymentPolicy Api Node Partition Introspect.

#[local] Open Scope Z_scope.

(* ------------------------------------------------------------------ *)
(** ** Parsing a taint *)

(** [strings.Split] by one character: never empty. *)
Fixpoint split_char (c : ascii) (s : string) : list string :=
  match s with
  | EmptyString => [""]
  | String a s =>
      if bool_decide (a = c) then "" :: split_char c s
      else match split_char c s with
           | part :: parts => String a part :: parts
           | [] => [String a ""]
           end
  end.

Definition contains_char (s : string) (c : ascii) : bool :=
  match cut_last c s with Some _ => true | None => false end.

(** [strings.TrimSuffix(s, "-")], for a text that has the suffix. *)
Definition trim_dash (s : string) : string := String.substring 0 (String.length s - 1) s.

Class TaintSyntax := {
  IsValidLabelValue : string -> bool;
  IsQualifiedName : string -> bool;
  legacy_value_valid : IsValidLabelValue "runtime-required" = true;
  legacy_key_valid : IsQualifiedName "skyhook.nvidia.com" = true
}.

Definition effects_allowed : list string := ["NoSchedule"; "PreferNoSchedule"; "NoExecute"].

Section Options.
Context `{TS : TaintSyntax}.

Definition invalid_spec (st : string) : error := errorf "invalid taint spec: %v" [st].

Definition with_key (st key value effect : string) : res Taint :=
  if IsQualifiedName key then Ok {| taint_Key := key; taint_Value := value; taint_Effect := effect |}
  else Err (invalid_spec st).

Definition parseTaint (st : string) : res Taint :=
  match split_char ":" st with
  | [key] => with_key st key "" ""
  | [kv; effect] =>
      if negb (bool_decide (effect ∈ effects_allowed))
      then Err (errorf "invalid taint effect: %v, unsupported taint effect" [effect])
      else
        match split_char "=" kv with
        | [key] => with_key st key "" effect
        | [key; value] => if IsValidLabelValue value then with_key st key value effect else Err (invalid_spec st)
        | _ => Err (invalid_spec st)
        end
  | _ => Err (invalid_spec st)
  end.

(** [taints.ParseTaints] of one specification: to add, to remove. *)
Definition ParseTaints (spec : string) : res (list Taint * list Taint) :=
  if has_suffix spec "-" then
    rbind (parseTaint (trim_dash spec)) (fun t =>
    Ok ([], [{| taint_Key := taint_Key t; taint_Value := ""; taint_Effect := taint_Effect t |}]))
  else
    rbind (parseTaint spec) (fun t =>
    if bool_decide (taint_Effect t = "") then Err (invalid_spec spec) else Ok ([t], [])).

(* ------------------------------------------------------------------ *)
(** ** The options *)

Record SkyhookOperatorOptions := {
  Namespace : string;
  MaxInterval : Z;
  ImagePullSecret : string;
  CopyDirRoot : string;
  ReapplyOnReboot : bool;
  RuntimeRequiredTaint : string;
  PauseImage : string;
  AgentImage : string;
  AgentLogRoot : string;
  LegacyCleanupDelay : Z;
  opt_JobTTLSucceeded : Z;
  opt_JobTTLFailed : Z;
  JobStageTimeout : Z;
  JobBackoffLimit : Z
}.

Definition Minute : Z := 60 * 1000000000.

Definition message (b : bool) (m : string) : list string := if b then [m] else [].

Definition empty (s : string) : bool := bool_decide (s = "").

(** The messages, before they are joined into one error. *)
Definition validation_messages (o : SkyhookOperatorOptions) : list string :=
  let '(to_delete, parse_failed) :=
    match ParseTaints (RuntimeRequiredTaint o) with Ok (_, d) => (d, false) | _ => ([], true) end in
  message (empty (Namespace o)) "namespace must be set" ++
  message (empty (CopyDirRoot o)) "copy dir root must be set" ++
  message (empty (RuntimeRequiredTaint o)) "runtime required taint must be set" ++
  message (MaxInterval o <? Minute) "max interval must be at least 1 minute" ++
  message (negb (has_prefix (CopyDirRoot o) "/")) "copy dir root must start with /" ++
  message parse_failed "runtime required taint is invalid: %s" ++
  message (0 <? zlen to_delete) "runtime required taint must not be a deletion" ++
  message (empty (AgentImage o)) "agent image must be set" ++
  message (negb (contains_char (AgentImage o) ":")) "agent image must contain a tag" ++
  message (empty (PauseImage o)) "pause image must be set" ++
  message (negb (contains_char (PauseImage o) ":")) "pause image must contain a tag" ++
  message (opt_JobTTLSucceeded o <? Minute) "job ttl succeeded must be at least 1 minute" ++
  message (opt_JobTTLFailed o <? Minute) "job ttl failed must be at least 1 minute" ++
  message (JobStageTimeout o <? 0) "job stage timeout must be greater than or equal to 0" ++
  message (JobBackoffLimit o <? 0) "job backoff limit must be greater than or equal to 0".

Definition Options_Validate (o : SkyhookOperatorOptions) : res unit :=
  let messages := validation_messages o in
  if 0 <? zlen messages then Err (errorf (join ", " messages) []) else Ok tt.

(** The last of the parts that [":"] separates. *)
Definition AgentVersion (o : SkyhookOperatorOptions) : string :=
  match cut_last ":" (AgentImage o) with Some (_, tag) => tag | None => AgentImage o end.

(** [to_add[0]] panics on the nil slice that a failed parse leaves. *)
Definition GetRuntimeRequiredTaint (o : SkyhookOperatorOptions) : res Taint :=
  match ParseTaints (RuntimeRequiredTaint o) with Ok (t :: _, _) => Ok t | _ => Panic end.

Definition legacyRuntimeRequiredTaint : string := "skyhook.nvidia.com=runtime-required:NoSchedule".

Definition legacy_taint : res Taint :=
  match ParseTaints legacyRuntimeRequiredTaint with Ok (t :: _, _) => Ok t | _ => Panic end.

Definition GetRuntimeRequiredTaints (o : SkyhookOperatorOptions) : res (list Taint) :=
  rbind (GetRuntimeRequiredTaint o) (fun configured =>
  rbind legacy_taint (fun legacy =>
  Ok (if MatchTaint configured legacy then [configured] else [configured; legacy]))).

Definition toleration_of (t : Taint) : Toleration :=
  {| tol_Key := taint_Key t; tol_Operator := TolerationOpEqual; tol_Value := taint_Value t;
     tol_Effect := taint_Effect t; tol_TolerationSeconds := None |}.

Definition GetRuntimeRequiredTolerations (o : SkyhookOperatorOptions) : res (list Toleration) :=
  rbind (GetRuntimeRequiredTaints o) (fun recognised => Ok (map toleration_of recognised)).

(* ------------------------------------------------------------------ *)
(** ** Lemmas *)

Lemma split_char_first c s : exists part parts, split_char c s = part :: parts.
Proof.
  induction s as [|a s IH]; simpl; [eauto|]. case_bool_decide; [eauto|].
  destruct IH as (part & parts & ->). eauto.
Qed.

Lemma legacy_taint_ok :
  legacy_taint = Ok {| taint_Key := "skyhook.nvidia.com"; taint_Value := "runtime-required";
                       taint_Effect := "NoSchedule" |}.
Proof.
  unfold legacy_taint, ParseTaints, legacyRuntimeRequiredTaint.
  replace (has_suffix _ "-") with false by reflexivity. unfold parseTaint.
  change (split_char ":" "skyhook.nvidia.com=runtime-required:NoSchedule")
    with ["skyhook.nvidia.com=runtime-required"; "NoSchedule"].
  cbv iota beta. rewrite bool_decide_eq_true_2 by (unfold effects_allowed; set_solver).
  change (split_char "=" "skyhook.nvidia.com=runtime-required") with ["skyhook.nvidia.com"; "runtime-required"].
  cbv iota beta. simpl. unfold with_key. by rewrite legacy_value_valid, legacy_key_valid.
Qed.

(** A well-formed taint: its effect is one of the three, its key is qualified. *)
Definition taint_wf (t : Taint) : Prop :=
  taint_Effect t ∈ effects_allowed /\ IsQualifiedName (taint_Key t) = true.

Lemma with_key_ok st key value effect t :
  with_key st key value effect = Ok t ->
  IsQualifiedName (taint_Key t) = true /\ taint_Effect t = effect.
Proof. unfold with_key. case_match; [|done]. intros [= <-]. done. Qed.

Lemma ParseTaints_add spec t l d : ParseTaints spec = Ok (t :: l, d) -> taint_wf t /\ l = [] /\ d = [].
Proof.
  unfold ParseTaints. case_match; rewrite rbind_ok; intros (t' & Ht & H1); [done|].
  case_bool_decide as Hne; [done|]. injection H1 as -> <- <-. split; [|done].
  unfold parseTaint in Ht. unfold taint_wf. repeat case_match; simplify_eq/=;
    apply with_key_ok in Ht as [Hk He]; rewrite He in *; try done; (split; [|done]);
    match goal with H : negb (bool_decide _) = false |- _ => by apply negb_false_iff, bool_decide_eq_true in H end.
Qed.

Lemma ToleratesTaint_own t : ToleratesTaint (toleration_of t) t = true.
Proof.
  unfold ToleratesTaint. simpl. repeat case_bool_decide; simpl; done.
Qed.

Lemma messages_empty o : Options_Validate o = Ok tt <-> validation_messages o = [].
Proof.
  unfold Options_Validate. destruct (validation_messages o) as [|m l]; [done|].
  rewrite (proj2 (Z.ltb_lt 0 _)); [done|]. unfold zlen. simpl. lia.
Qed.

Lemma message_nil b m : message b m = [] <-> b = false.
Proof. by destruct b. Qed.

Lemma Validate_taint o : Options_Validate o = Ok tt -> exists t,
  ParseTaints (RuntimeRequiredTaint o) = Ok ([t], []) /\ GetRuntimeRequiredTaint o = Ok t /\ taint_wf t.
Proof.
  intros H%messages_empty. unfold validation_messages in H.
  destruct (ParseTaints (RuntimeRequiredTaint o)) as [[add del]|e|] eqn:E.
  2, 3: by repeat (apply app_eq_nil in H as [?%message_nil H]).
  assert (Hadd : (del = [] -> exists t, add = [t])).
  { intros ->. unfold ParseTaints in E. case_match; apply rbind_ok in E as (t & _ & Ht); [done|]. case_match; [done|].
    injection Ht as <-. eauto. }
  assert (Hdel : del = []).
  { do 6 apply app_eq_nil in H as [_ H]. apply app_eq_nil in H as [M _]. apply message_nil, Z.ltb_ge in M.
    unfold zlen in M. destruct del; [done|]. simpl in M. lia. }
  destruct (Hadd Hdel) as [t ->]. rewrite Hdel in *. exists t. split; [done|].
  destruct (ParseTaints_add _ _ _ _ E) as (Hwf & _). split; [|done]. unfold GetRuntimeRequiredTaint. by rewrite E.
Qed.

Lemma Validate_tolerations o : Options_Validate o = Ok tt -> exists l, GetRuntimeRequiredTolerations o = Ok l.
Proof.
  intros (t & _ & Ht & _)%Validate_taint. unfold GetRuntimeRequiredTolerations, GetRuntimeRequiredTaints.
  rewrite Ht, legacy_taint_ok. simpl. eauto.
Qed.

Lemma Validate_interval o : Options_Validate o = Ok tt -> Minute <= MaxInterval o.
Proof.
  intros H%messages_empty. unfold validation_messages in H. destruct (match ParseTaints _ with Ok _ => _ | _ => _ end) as [d b].
  do 3 apply app_eq_nil in H as [_ H]. apply app_eq_nil in H as [M _]. by apply message_nil, Z.ltb_ge in M.
Qed.

(** Options that pass validation are usable.  Reading the configured taint
    does not panic, and it is a taint with a qualified key and a known effect;
    the operator recognises it first and, unless they coincide, the legacy taint
    after it; the tolerations of the operator's pods tolerate every taint it
    recognises; the copy directory is absolute, the images carry a tag, and the
    retry and time budgets are not negative. *)
Theorem Options_Validate_usable (o : SkyhookOperatorOptions) (H : Options_Validate o = Ok tt) :
  exists configured recognised tolerations,
    GetRuntimeRequiredTaint o = Ok configured /\ taint_wf configured /\
    GetRuntimeRequiredTaints o = Ok recognised /\ head recognised = Some configured /\
    (forall legacy, legacy_taint = Ok legacy -> any (fun t => MatchTaint t legacy) recognised = true) /\
    GetRuntimeRequiredTolerations o = Ok tolerations /\ CheckTaintToleration tolerations recognised = true /\
    has_prefix (CopyDirRoot o) "/" = true /\ contains_char (AgentImage o) ":" = true /\
    contains_char (PauseImage o) ":" = true /\ 0 <= JobStageTimeout o /\ 0 <= JobBackoffLimit o.
Proof.
  destruct (Validate_taint o H) as (t & E & Ht & Hwf). exists t.
  apply messages_empty in H. unfold validation_messages in H. rewrite E in H.
  repeat match type of H with
    | message _ _ ++ _ = [] => let H1 := fresh "M" in apply app_eq_nil in H as [H1 H]; apply message_nil in H1
    | message _ _ = [] => apply message_nil in H
    end.
  unfold GetRuntimeRequiredTolerations, GetRuntimeRequiredTaints. rewrite Ht, legacy_taint_ok. simpl.
  set (legacy := {| taint_Key := "skyhook.nvidia.com"; taint_Value := _; taint_Effect := _ |}).
  set (recognised := if MatchTaint t legacy then [t] else [t; legacy]).
  exists recognised, (map toleration_of recognised).
  split; [done|]. split; [done|]. split; [done|]. split; [by unfold recognised; case_match|].
  split.
  { intros legacy' [= <-]. fold legacy. unfold recognised. destruct (MatchTaint t legacy) eqn:Em; simpl; rewrite Em; [done|].
    by vm_compute. }
  split; [done|]. split.
  { unfold CheckTaintToleration. apply all_true. intros t' Ht'. apply any_true.
    exists (toleration_of t'). split; [by apply list_elem_of_fmap_2|]. apply ToleratesTaint_own. }
  rewrite !negb_false_iff in *. rewrite !Z.ltb_ge in *. done.
Qed.

End Options.

(** Validators that accept what the examples use. *)
#[local] Instance example_syntax : TaintSyntax := {
  IsValidLabelValue _ := true; IsQualifiedName s := negb (bool_decide (s = ""));
  legacy_value_valid := eq_refl; legacy_key_valid := eq_refl
}.

Definition default_options : SkyhookOperatorOptions :=
  {| Namespace := "nodewright"; MaxInterval := 10 * Minute; ImagePullSecret := ""; CopyDirRoot := "/var/lib/skyhook";
     ReapplyOnReboot := false; RuntimeRequiredTaint := "nodewright.nvidia.com=runtime-required:NoSchedule";
     PauseImage := "registry.k8s.io/pause:3.10"; AgentImage := "ghcr.io/nvidia/nodewright/agent:latest";
     AgentLogRoot := "/var/log/skyhook"; LegacyCleanupDelay := 24 * 60 * Minute;
     opt_JobTTLSucceeded := 60 * Minute; opt_JobTTLFailed := 24 * 60 * Minute;
     JobStageTimeout := 60 * Minute; JobBackoffLimit := 3 |}.

Example AgentVersion_default : AgentVersion default_options = "latest".
Proof. reflexivity. Qed.

Lemma Options_Validate_usable_witness :
  Options_Validate default_options = Ok tt /\
  exists configured, GetRuntimeRequiredTaint default_options = Ok configured /\ taint_wf configured.
Proof.
  split; [by vm_compute|].
  destruct (Options_Validate_usable default_options) as (t & _ & _ & H1 & H2 & _); [by vm_compute|].
  exists t. by split.
Defined.
