(* ===== verification/Report.v ===== *)
(** * Reports and migration of a resource

    Models [ReportState], the upkeep of the compartment statuses,
    [CleanupRemovedNodes] and [Migrate] of
    [operator/internal/controller/cluster_state_v2.go].  Metrics are not
    modelled. *)

From S2P Require Import Prelude Graph Float64 DeploymentPolicy Api NodeState Skyhook Conditions Text Node.
From S2P Require Import Migration Compartment ClusterState Partition Introspect.

#[local] Open Scope Z_scope.

Section Report.
Context `{MR : MapRange} `{JS : NodeStateJSON} `{TT : TimeText} `{SV : Semver}.

(** Keys absent from [currentNodes] are deleted; whether one was. *)
Definition cleanupNodeMap {A} (nodeMap : gmap string A) (currentNodes : gset string) : gmap string A * bool :=
  let gone := List.filter (fun n => negb (bool_decide (n ∈ currentNodes))) (range nodeMap).*1 in
  (foldl (fun m n => delete n m) nodeMap gone, match gone with [] => false | _ => true end).

Definition current_nodes (s : skyhookNodes) : gset string := list_to_set (node_names s).

Definition remove_gone (current : gset string) (sk : Skyhook) (nt : string * Z) : Skyhook :=
  if bool_decide (nt.1 ∈ current) then sk else RemoveNodePriority nt.1 sk.

Definition CleanupRemovedNodes (s : skyhookNodes) : skyhookNodes :=
  let current := current_nodes s in
  let sk := foldl (remove_gone current) (sns_skyhook s) (range (priorities s)) in
  let st := sk_Status sk in
  let '(nodeState, c1) := match st_NodeState st with
                          | Some m => let '(m, c) := cleanupNodeMap m current in (Some m, c)
                          | None => (None, false)
                          end in
  let '(nodeStatus, c2) := cleanupNodeMap (NodeStatus st) current in
  let '(bootIds, c3) := cleanupNodeMap (NodeBootIds st) current in
  let sk := map_status (fun st => set_NodeBootIds bootIds (set_NodeStatus nodeStatus (set_st_NodeState nodeState st))) sk in
  set_sns_skyhook (if c1 || c2 || c3 then touch sk else sk) s.

Definition update_compartment_status (s : skyhookNodes) (kc : string * CompartmentW string) : skyhookNodes :=
  let statuses := CompartmentStatuses (sk_Status (sns_skyhook s)) in
  let newStatus := buildCompartmentStatus s kc.2 in
  let write := on_skyhook (fun sk => touch (map_status (set_CompartmentStatuses (<[kc.1 := newStatus]> statuses)) sk)) s in
  match statuses !! kc.1 with
  | Some existing => if compartmentStatusEqual existing newStatus then s else write
  | None => write
  end.

Definition updateCompartmentStatuses (s : skyhookNodes) : skyhookNodes :=
  foldl update_compartment_status s (range (sns_compartments s)).

Definition drop_stale (s : skyhookNodes) (ks : string * CompartmentStatus) : skyhookNodes :=
  match sns_compartments s !! ks.1 with
  | Some _ => s
  | None => on_skyhook (fun sk => touch (map_status (fun st =>
              set_CompartmentStatuses (delete ks.1 (CompartmentStatuses st)) st) sk)) s
  end.

Definition cleanupStaleCompartmentStatuses (s : skyhookNodes) : skyhookNodes :=
  foldl drop_stale s (range (CompartmentStatuses (sk_Status (sns_skyhook s)))).

(** [nodeStatusCounts[status]] *)
Definition status_count (s : skyhookNodes) (status : Status) : Z :=
  count (fun e => bool_decide (entry_Status e = status)) (sns_nodes s).

Definition package_list (s : skyhookNodes) : string :=
  join "," (sort_strings (map (fun kp : string * Package => pkg_Name kp.2 +:+ ":" +:+ pkg_Version kp.2) (sns_packages s))).

Definition report_counts (s : skyhookNodes) : skyhookNodes :=
  let completeNodes := show_int (status_count s StatusComplete) +:+ "/" +:+ show_int (zlen (sns_nodes s)) in
  let s := if bool_decide (completeNodes = CompleteNodes (sk_Status (sns_skyhook s))) then s
           else on_skyhook (SetCompleteNodes completeNodes) s in
  let inProgress := status_count s StatusInProgress + status_count s StatusErroring in
  let s := if NodesInProgress (sk_Status (sns_skyhook s)) =? inProgress then s
           else on_skyhook (SetNodesInProgress inProgress) s in
  if bool_decide (package_list s = PackageList (sk_Status (sns_skyhook s))) then s
  else on_skyhook (SetPackageList (package_list s)) s.

Definition ReportState (s : skyhookNodes) : skyhookNodes :=
  report_counts (cleanupStaleCompartmentStatuses (updateCompartmentStatuses (CleanupRemovedNodes s))).

Definition migrateSkyhookNodesTo_0_5_0 (s : skyhookNodes) : skyhookNodes := ReportState s.

Definition migrate_one (VERSION : string) (s : skyhookNodes) (name : string) : res skyhookNodes :=
  match find_entry s name with
  | None => Ok s
  | Some e =>
      if bool_decide (node_GetVersion (ne_Only e) = VERSION) then Ok s
      else rbind (rwrap "error migrating node [%s]: %w" [name] (node_Migrate VERSION (as_node s e))) (fun f =>
           Ok (put_node f s))
  end.

(** [migrateSkyhookTo_0_5_0] of the wrapper does nothing. *)
Definition sns_Migrate (VERSION : string) (s : skyhookNodes) : res skyhookNodes :=
  rbind (rfold (migrate_one VERSION) s (node_names s)) (fun s =>
  let from := GetVersion (sns_skyhook s) in
  if bool_decide (from = VERSION) then Ok s
  else
    rbind (rwrap "error migrating nodewright [%s]: %w" [sns_Name s] (Migrate VERSION Ok (sns_skyhook s))) (fun sk =>
    let s := set_sns_skyhook sk s in
    Ok (if bool_decide (from = "") then migrateSkyhookNodesTo_0_5_0 s else s))).
End Report.

(* ------------------------------------------------------------------ *)
(** ** Lemmas *)

Section Lemmas.
Context `{MR : MapRange} `{JS : NodeStateJSON} `{TT : TimeText}.
Implicit Types (s : skyhookNodes).

Lemma foldl_delete_lookup {A} (l : list string) (m : gmap string A) k :
  foldl (fun m n => delete n m) m l !! k = if bool_decide (k ∈ l) then None else m !! k.
Proof.
  revert m; induction l as [|n l IH]; intros m; simpl.
  { done. }
  rewrite IH. destruct (decide (k = n)) as [->|Hne].
  - rewrite (bool_decide_eq_true_2 (n ∈ n :: l)) by by left. rewrite lookup_delete_eq. by case_bool_decide.
  - rewrite lookup_delete_ne by done. apply (f_equal (fun b : bool => if b then None else m !! k)).
    apply bool_decide_ext. rewrite elem_of_cons. naive_solver.
Qed.

Lemma cleanupNodeMap_spec {A} (m : gmap string A) current :
  (forall k, (cleanupNodeMap m current).1 !! k = if bool_decide (k ∈ current) then m !! k else None) /\
  ((forall k v, m !! k = Some v -> k ∈ current) -> cleanupNodeMap m current = (m, false)).
Proof.
  unfold cleanupNodeMap. simpl. split.
  - intros k. rewrite foldl_delete_lookup. case_bool_decide as Hin.
    + apply elem_of_filterb in Hin as [_ Hn]. apply negb_true_iff in Hn as ->. done.
    + case_bool_decide as Hk; [done|]. destruct (m !! k) as [v|] eqn:E; [|done]. exfalso. apply Hin.
      apply elem_of_filterb. rewrite elem_of_range_fst, E. split; [by eexists|].
      by rewrite bool_decide_eq_false_2.
  - intros H. assert (List.filter (fun n => negb (bool_decide (n ∈ current))) (range m).*1 = []) as ->; [|done].
    destruct (List.filter _ _) as [|k l] eqn:E; [done|exfalso].
    assert (Hk : k ∈ List.filter (fun n => negb (bool_decide (n ∈ current))) (range m).*1) by (rewrite E; by left).
    apply elem_of_filterb in Hk as [[v Hv]%elem_of_range_fst Hn]. bool_simpl. eauto.
Qed.

Lemma compartmentStatusEqual_spec a b : compartmentStatusEqual a b = true <-> a = b.
Proof.
  unfold compartmentStatusEqual. destruct a as [a1 a2 a3 a4 a5 [a6|]], b as [b1 b2 b3 b4 b5 [b6|]]; simpl;
    rewrite !andb_true_iff, !Z.eqb_eq, ?bool_decide_eq_true; (split; [intros H; decompose [and] H; subst|intros [=]]); try done;
    subst; tauto.
Qed.

(** Everything the reports are computed from. *)
Definition same_basis s s' : Prop :=
  same_nodes s s' /\ sns_compartments s' = sns_compartments s.

Lemma buildCompartmentStatus_same s s' c : same_nodes s s' -> buildCompartmentStatus s' c = buildCompartmentStatus s c.
Proof.
  intros H. unfold buildCompartmentStatus, getInProgressCount.
  rewrite (count_ext (has_status (NV := state_view s') StatusInProgress) (has_status (NV := state_view s) StatusInProgress))
    by (intros; by apply has_status_same).
  by rewrite (count_ext (nv_IsComplete (NodeView := state_view s')) (nv_IsComplete (NodeView := state_view s)))
    by (intros; by apply same_nodes_view).
Qed.

Definition statuses s : gmap string CompartmentStatus := CompartmentStatuses (sk_Status (sns_skyhook s)).

Lemma update_fold l s : NoDup l.*1 -> (forall k c, (k, c) ∈ l -> sns_compartments s !! k = Some c) ->
  let s' := foldl update_compartment_status s l in
  same_basis s s' /\
  (forall k, statuses s' !! k = if bool_decide (k ∈ l.*1) then buildCompartmentStatus s <$> sns_compartments s !! k
                                else statuses s !! k) /\
  ((forall k c, (k, c) ∈ l -> statuses s !! k = Some (buildCompartmentStatus s c)) -> s' = s).
Proof.
  cbv zeta. revert s; induction l as [|[k c] l IH]; intros s Hnd Hin; simpl; [done|].
  apply NoDup_cons in Hnd as [Hk Hnd].
  assert (Hkc : sns_compartments s !! k = Some c) by (apply Hin; by left).
  set (s1 := update_compartment_status s (k, c)).
  assert (H1 : same_basis s s1 /\ statuses s1 = <[k := buildCompartmentStatus s c]> (statuses s) /\
    (statuses s !! k = Some (buildCompartmentStatus s c) -> s1 = s)).
  { unfold s1, update_compartment_status, statuses. simpl.
    destruct (CompartmentStatuses _ !! k) as [old|] eqn:Hold.
    - destruct (compartmentStatusEqual old _) eqn:He.
      + apply compartmentStatusEqual_spec in He as ->. split_and!; [done| |done]. by rewrite insert_id.
      + split_and!; [done|done|]. intros [= ->]. rewrite (proj2 (compartmentStatusEqual_spec _ _) eq_refl) in He. done.
    - split_and!; [done|done|]. done. }
  destruct H1 as ((Hn1 & Hc1) & Hst1 & Hid1).
  destruct (IH s1) as ((Hn2 & Hc2) & Hst2 & Hid2); [done| |].
  { intros k' c' H. rewrite Hc1. apply Hin. by right. }
  split_and!.
  - split; [by eapply same_nodes_trans|congruence].
  - intros k'. rewrite Hst2, Hc1, Hst1. change (((k, c) :: l).*1) with (k :: l.*1).
    destruct (decide (k' = k)) as [->|Hne].
    + case_bool_decide as Ha; [done|]. case_bool_decide as Hb; [by rewrite lookup_insert_eq, Hkc|].
      destruct Hb. by left.
    + rewrite lookup_insert_ne by done. case_bool_decide as Ha; case_bool_decide as Hb; try done.
      * destruct (sns_compartments s !! k'); [|done]. simpl. by rewrite (buildCompartmentStatus_same s s1).
      * destruct Hb. by right.
      * apply elem_of_cons in Hb as [?|?]; done.
  - intros H. assert (s1 = s) as Hs1 by (apply Hid1, H; by left). rewrite Hs1 in *. apply Hid2.
    intros k' c' Hin'. apply H. by right.
Qed.

Lemma set_skyhook_id s : set_sns_skyhook (sns_skyhook s) s = s.
Proof. by destruct s. Qed.

(** The four maps of the status keyed by nodes. *)
Definition node_maps s :=
  (NodeStatus (sk_Status (sns_skyhook s)), NodeBootIds (sk_Status (sns_skyhook s)), priorities s,
   st_NodeState (sk_Status (sns_skyhook s))).

Definition keys_within {A} (m : gmap string A) (current : gset string) : Prop := forall k v, m !! k = Some v -> k ∈ current.

Definition maps_within s : Prop :=
  keys_within (NodeStatus (sk_Status (sns_skyhook s))) (current_nodes s) /\
  keys_within (NodeBootIds (sk_Status (sns_skyhook s))) (current_nodes s) /\
  keys_within (priorities s) (current_nodes s) /\
  keys_within (default ∅ (st_NodeState (sk_Status (sns_skyhook s)))) (current_nodes s).

(** [m'] is [m] on the current nodes and nothing else. *)
Definition restricted {A} (current : gset string) (m m' : gmap string A) : Prop :=
  forall k, m' !! k = if bool_decide (k ∈ current) then m !! k else None.

Lemma restricted_within {A} current (m m' : gmap string A) : restricted current m m' -> keys_within m' current.
Proof. intros H k v. rewrite H. by case_bool_decide. Qed.

Lemma remove_gone_fold current (l : list (string * Z)) sk :
  let sk' := foldl (remove_gone current) sk l in
  (forall k, NodePriority (sk_Status sk') !! k =
     if bool_decide (k ∈ l.*1 /\ k ∉ current) then None else NodePriority (sk_Status sk) !! k) /\
  sk_Spec sk' = sk_Spec sk /\ GetConfigUpdates sk' = GetConfigUpdates sk /\
  NodeStatus (sk_Status sk') = NodeStatus (sk_Status sk) /\ NodeBootIds (sk_Status sk') = NodeBootIds (sk_Status sk) /\
  st_NodeState (sk_Status sk') = st_NodeState (sk_Status sk) /\
  CompartmentStatuses (sk_Status sk') = CompartmentStatuses (sk_Status sk) /\
  ((forall n t, (n, t) ∈ l -> n ∈ current) -> sk' = sk).
Proof.
  cbv zeta. revert sk; induction l as [|[n t] l IH]; intros sk; simpl.
  { by split_and!. }
  assert (Hone : (forall k, NodePriority (sk_Status (remove_gone current sk (n, t))) !! k =
      if bool_decide (k = n /\ k ∉ current) then None else NodePriority (sk_Status sk) !! k) /\
    sk_Spec (remove_gone current sk (n, t)) = sk_Spec sk /\ GetConfigUpdates (remove_gone current sk (n, t)) = GetConfigUpdates sk /\
    NodeStatus (sk_Status (remove_gone current sk (n, t))) = NodeStatus (sk_Status sk) /\
    NodeBootIds (sk_Status (remove_gone current sk (n, t))) = NodeBootIds (sk_Status sk) /\
    st_NodeState (sk_Status (remove_gone current sk (n, t))) = st_NodeState (sk_Status sk) /\
    CompartmentStatuses (sk_Status (remove_gone current sk (n, t))) = CompartmentStatuses (sk_Status sk)).
  { unfold remove_gone. simpl. case_bool_decide as Hc.
    - split_and!; try done. intros k. rewrite bool_decide_eq_false_2; [done|]. by intros [-> ?].
    - unfold RemoveNodePriority. destruct (NodePriority (sk_Status sk) !! n) eqn:Hn.
      + split_and!; try done. intros k. simpl. case_bool_decide as Hk.
        * destruct Hk as [-> _]. apply lookup_delete_eq.
        * rewrite lookup_delete_ne; [done|]. intros ->. tauto.
      + split_and!; try done. intros k. case_bool_decide as Hk; [|done]. by destruct Hk as [-> _]. }
  destruct Hone as (P & O1 & O2 & O3 & O4 & O5 & O6).
  destruct (IH (remove_gone current sk (n, t))) as (Q & Q1 & Q2 & Q3 & Q4 & Q5 & Q6 & Q7).
  split_and!; try congruence.
  - intros k. rewrite Q, P. repeat case_bool_decide; try done; exfalso;
      rewrite ?elem_of_cons in *; naive_solver.
  - intros H. assert (remove_gone current sk (n, t) = sk) as He.
    { unfold remove_gone. rewrite bool_decide_eq_true_2; [done|]. apply (H n t). by left. }
    rewrite He in *. apply Q7. intros n' t' Hin. apply (H n' t'). by right.
Qed.

Lemma CleanupRemovedNodes_basis s :
  let s' := CleanupRemovedNodes s in
  same_basis s s' /\ statuses s' = statuses s /\
  restricted (current_nodes s) (NodeStatus (sk_Status (sns_skyhook s))) (NodeStatus (sk_Status (sns_skyhook s'))) /\
  restricted (current_nodes s) (NodeBootIds (sk_Status (sns_skyhook s))) (NodeBootIds (sk_Status (sns_skyhook s'))) /\
  restricted (current_nodes s) (priorities s) (priorities s') /\
  restricted (current_nodes s) (default ∅ (st_NodeState (sk_Status (sns_skyhook s))))
    (default ∅ (st_NodeState (sk_Status (sns_skyhook s')))) /\
  (maps_within s -> s' = s).
Proof.
  cbv zeta. unfold CleanupRemovedNodes. set (cur := current_nodes s).
  destruct (remove_gone_fold cur (range (priorities s)) (sns_skyhook s)) as (P & O1 & O2 & O3 & O4 & O5 & O6 & O7).
  set (sk := foldl (remove_gone cur) (sns_skyhook s) (range (priorities s))) in *.
  rewrite O3, O4, O5.
  destruct (cleanupNodeMap_spec (NodeStatus (sk_Status (sns_skyhook s))) cur) as [A1 A2].
  destruct (cleanupNodeMap_spec (NodeBootIds (sk_Status (sns_skyhook s))) cur) as [B1 B2].
  set (stm := match st_NodeState (sk_Status (sns_skyhook s)) with Some m => _ | None => _ end).
  assert (HC : restricted cur (default ∅ (st_NodeState (sk_Status (sns_skyhook s)))) (default ∅ stm.1) /\
    (keys_within (default ∅ (st_NodeState (sk_Status (sns_skyhook s)))) cur -> stm = (st_NodeState (sk_Status (sns_skyhook s)), false))).
  { unfold stm. destruct (st_NodeState (sk_Status (sns_skyhook s))) as [m|].
    - destruct (cleanupNodeMap_spec m cur) as [C1 C2]. destruct (cleanupNodeMap m cur) as [m' b] eqn:Em. split; [exact C1|].
      intros Hw. by injection (C2 Hw) as -> ->.
    - split; [|done]. intros k. simpl. rewrite lookup_empty. by case_bool_decide. }
  destruct HC as [C1 C2]. destruct stm as [nodeState c1].
  destruct (cleanupNodeMap (NodeStatus _) cur) as [nodeStatus c2]. destruct (cleanupNodeMap (NodeBootIds _) cur) as [bootIds c3].
  set (b := c1 || c2 || c3).
  assert (HP : restricted cur (priorities s) (NodePriority (sk_Status sk))).
  { intros k. rewrite P. case_bool_decide as Hk; case_bool_decide as Hc; try done; [tauto|].
    destruct (NodePriority (sk_Status (sns_skyhook s)) !! k) eqn:E; [|done]. exfalso. apply Hk. split; [|done].
    apply elem_of_range_fst. by exists z. }
  split_and!.
  - split; [|done]. split_and!; [done| |]; destruct b; done.
  - unfold statuses. by destruct b.
  - destruct b; exact A1.
  - destruct b; exact B1.
  - unfold priorities. destruct b; exact HP.
  - destruct b; exact C1.
  - intros (W1 & W2 & W3 & W4). injection (A2 W1) as -> ->. injection (B2 W2) as -> ->. injection (C2 W4) as -> ->.
    assert (sk = sns_skyhook s) as -> by (apply O7; intros n t Hn%elem_of_range; by eapply W3).
    unfold b. simpl. unfold map_status, set_NodeBootIds, set_NodeStatus, set_st_NodeState. simpl.
    destruct s as [[nw u] ? ? ? ?]. simpl. unfold sk_Status. simpl. destruct nw as [? ? ? ? ? ? ? ? []]. done.
Qed.

Lemma drop_stale_fold (l : list (string * CompartmentStatus)) s :
  let s' := foldl drop_stale s l in
  same_basis s s' /\ node_maps s' = node_maps s /\
  (forall k, statuses s' !! k =
     if bool_decide (k ∈ l.*1 /\ sns_compartments s !! k = None) then None else statuses s !! k) /\
  ((forall k c, (k, c) ∈ l -> is_Some (sns_compartments s !! k)) -> s' = s).
Proof.
  cbv zeta. revert s; induction l as [|[k c] l IH]; intros s; simpl; [by split_and!|].
  set (s1 := drop_stale s (k, c)).
  assert (H1 : same_basis s s1 /\ node_maps s1 = node_maps s /\
    (forall k', statuses s1 !! k' = if bool_decide (k' = k /\ sns_compartments s !! k' = None) then None else statuses s !! k') /\
    (is_Some (sns_compartments s !! k) -> s1 = s)).
  { unfold s1, drop_stale. simpl. destruct (sns_compartments s !! k) eqn:Hk.
    - split_and!; try done. intros k'. case_bool_decide as H; [|done]. destruct H as [-> H]. congruence.
    - split_and!; try done. intros k'. unfold statuses. simpl. case_bool_decide as H.
      + destruct H as [-> _]. apply lookup_delete_eq.
      + rewrite lookup_delete_ne; [done|]. intros ->. tauto. }
  destruct H1 as ((Hn1 & Hc1) & Hm1 & Hst1 & Hid1).
  destruct (IH s1) as ((Hn2 & Hc2) & Hm2 & Hst2 & Hid2).
  split_and!.
  - split; [by eapply same_nodes_trans|congruence].
  - congruence.
  - intros k'. rewrite Hst2, Hst1, Hc1. repeat case_bool_decide; try done; exfalso;
      rewrite ?elem_of_cons in *; naive_solver.
  - intros H. assert (s1 = s) as Hs1 by (apply Hid1, (H k c); by left). rewrite Hs1 in *. apply Hid2.
    intros k' c' Hin. apply (H k' c'). by right.
Qed.

(** The three counters of the status. *)
Definition counted s : Prop :=
  CompleteNodes (sk_Status (sns_skyhook s)) =
    show_int (status_count s StatusComplete) +:+ "/" +:+ show_int (zlen (sns_nodes s)) /\
  NodesInProgress (sk_Status (sns_skyhook s)) = status_count s StatusInProgress + status_count s StatusErroring /\
  PackageList (sk_Status (sns_skyhook s)) = package_list s.

Lemma report_counts_spec s :
  let s' := report_counts s in
  same_basis s s' /\ node_maps s' = node_maps s /\ statuses s' = statuses s /\ counted s' /\ (counted s -> s' = s).
Proof.
  cbv zeta. unfold report_counts. cbv zeta.
  set (cn := show_int (status_count s StatusComplete) +:+ "/" +:+ show_int (zlen (sns_nodes s))).
  set (s1 := if bool_decide (cn = _) then s else _).
  assert (H1 : same_basis s s1 /\ node_maps s1 = node_maps s /\ statuses s1 = statuses s /\
    CompleteNodes (sk_Status (sns_skyhook s1)) = cn /\
    NodesInProgress (sk_Status (sns_skyhook s1)) = NodesInProgress (sk_Status (sns_skyhook s)) /\
    PackageList (sk_Status (sns_skyhook s1)) = PackageList (sk_Status (sns_skyhook s))).
  { unfold s1. case_bool_decide; split_and!; done. }
  assert (I1 : CompleteNodes (sk_Status (sns_skyhook s)) = cn -> s1 = s).
  { intros H. unfold s1. by rewrite bool_decide_eq_true_2. }
  clearbody s1. destruct H1 as ((N1 & C1) & M1 & S1 & CN1 & IP1 & PL1).
  set (ip := status_count s1 StatusInProgress + status_count s1 StatusErroring).
  assert (Hip : ip = status_count s StatusInProgress + status_count s StatusErroring).
  { unfold ip, status_count. by rewrite (proj1 N1). }
  clearbody ip.
  set (s2 := if NodesInProgress (sk_Status (sns_skyhook s1)) =? ip then s1 else _).
  assert (H2 : same_basis s s2 /\ node_maps s2 = node_maps s /\ statuses s2 = statuses s /\
    CompleteNodes (sk_Status (sns_skyhook s2)) = cn /\ NodesInProgress (sk_Status (sns_skyhook s2)) = ip /\
    PackageList (sk_Status (sns_skyhook s2)) = PackageList (sk_Status (sns_skyhook s))).
  { unfold s2. case_if; bool_simpl; split_and!; done. }
  assert (I2 : NodesInProgress (sk_Status (sns_skyhook s1)) = ip -> s2 = s1).
  { intros H. unfold s2. by rewrite (proj2 (Z.eqb_eq _ _) H). }
  clearbody s2. destruct H2 as ((N2 & C2) & M2 & S2 & CN2 & IP2 & PL2).
  assert (Hpl : package_list s2 = package_list s).
  { unfold package_list, sns_packages, sns_Spec. destruct N2 as (_ & -> & _). done. }
  assert (Hcount : forall s3, sns_nodes s3 = sns_nodes s2 -> forall st, status_count s3 st = status_count s st).
  { intros s3 H st. unfold status_count. destruct N2 as (Hn & _). by rewrite H, Hn. }
  assert (Hlen : sns_nodes s2 = sns_nodes s) by apply N2.
  rewrite Hpl. case_bool_decide as Hp; (split_and!; [done|done|done| |]).
  - unfold counted. rewrite !(Hcount s2) by done. rewrite Hpl, Hlen. split_and!; [exact CN2|congruence|congruence].
  - intros (Q1 & Q2 & Q3). rewrite I2 by congruence. by apply I1.
  - unfold counted. rewrite !(Hcount (on_skyhook _ s2)) by done. split_and!.
    + change (CompleteNodes (sk_Status (sns_skyhook s2)) =
        show_int (status_count s StatusComplete) +:+ "/" +:+ show_int (zlen (sns_nodes s2))). by rewrite Hlen.
    + change (NodesInProgress (sk_Status (sns_skyhook s2)) =
        status_count s StatusInProgress + status_count s StatusErroring). congruence.
    + symmetry. exact Hpl.
  - intros (Q1 & Q2 & Q3). destruct Hp. congruence.
Qed.

(** What a report leaves true. *)
Definition reported s : Prop :=
  maps_within s /\ (forall k, statuses s !! k = buildCompartmentStatus s <$> sns_compartments s !! k) /\ counted s.

Lemma ReportState_reported s : reported s -> ReportState s = s.
Proof.
  intros (Hm & Hs & Hc). unfold ReportState.
  assert (CleanupRemovedNodes s = s) as -> by by apply CleanupRemovedNodes_basis.
  assert (updateCompartmentStatuses s = s) as ->.
  { apply update_fold; [apply NoDup_range| |]; intros k c Hk%elem_of_range; [done|]. by rewrite Hs, Hk. }
  assert (cleanupStaleCompartmentStatuses s = s) as ->.
  { apply drop_stale_fold. intros k c Hk%elem_of_range. fold (statuses s) in Hk. rewrite Hs in Hk.
    by apply fmap_Some in Hk as (? & -> & _). }
  by apply report_counts_spec.
Qed.

Lemma update_fold_maps l s : node_maps (foldl update_compartment_status s l) = node_maps s.
Proof.
  revert s; induction l as [|kc l IH]; intros s; simpl; [done|]. rewrite IH.
  unfold update_compartment_status. by repeat case_match.
Qed.

(** Reporting.  After [ReportState] the status of the resource is about its
    present nodes and compartments only: the four maps keyed by nodes keep
    exactly the entries of the nodes it has, each compartment has its present
    status and no other name has one, and the counters agree with the nodes.
    Reporting again changes nothing, so it asks for no second write. *)
Theorem ReportState_spec s :
  let s' := ReportState s in
  let current := current_nodes s in
  restricted current (NodeStatus (sk_Status (sns_skyhook s))) (NodeStatus (sk_Status (sns_skyhook s'))) /\
  restricted current (NodeBootIds (sk_Status (sns_skyhook s))) (NodeBootIds (sk_Status (sns_skyhook s'))) /\
  restricted current (priorities s) (priorities s') /\
  restricted current (default ∅ (st_NodeState (sk_Status (sns_skyhook s))))
    (default ∅ (st_NodeState (sk_Status (sns_skyhook s')))) /\
  (forall k, statuses s' !! k = buildCompartmentStatus s' <$> sns_compartments s !! k) /\
  counted s' /\ sns_nodes s' = sns_nodes s /\ ReportState s' = s'.
Proof.
  cbv zeta. remember (ReportState s) as s4 eqn:Hs4. unfold ReportState in Hs4.
  destruct (CleanupRemovedNodes_basis s) as ((N1 & C1) & S1 & R1 & R2 & R3 & R4 & _).
  set (s1 := CleanupRemovedNodes s) in *. unfold updateCompartmentStatuses in Hs4. clearbody s1.
  destruct (update_fold (range (sns_compartments s1)) s1) as ((N2 & C2) & S2 & _); [apply NoDup_range| |].
  { intros k c. by rewrite elem_of_range. }
  pose proof (update_fold_maps (range (sns_compartments s1)) s1) as M2.
  set (s2 := foldl update_compartment_status s1 _) in *. unfold cleanupStaleCompartmentStatuses in Hs4.
  fold (statuses s2) in Hs4. clearbody s2.
  destruct (drop_stale_fold (range (statuses s2)) s2) as ((N3 & C3) & M3 & S3 & _).
  set (s3 := foldl drop_stale s2 _) in *. clearbody s3.
  destruct (report_counts_spec s3) as ((N4 & C4) & M4 & S4 & K4 & _).
  rewrite <- Hs4 in *. clear Hs4.
  assert (Hmaps : node_maps s4 = node_maps s1) by congruence. unfold node_maps in Hmaps.
  injection Hmaps as Hm1 Hm2 Hm3 Hm4.
  assert (HN : same_nodes s s4) by (repeat (eapply same_nodes_trans; [eassumption|]); done).
  assert (HC : sns_compartments s4 = sns_compartments s) by congruence.
  assert (Hstat : forall k, statuses s4 !! k = buildCompartmentStatus s4 <$> sns_compartments s !! k).
  { intros k. rewrite S4, S3, S2, C2, C1. case_bool_decide as H1.
    - destruct H1 as [_ ->]. done.
    - case_bool_decide as H2.
      + destruct (sns_compartments s !! k) as [c|]; [|done]. simpl. f_equal.
        rewrite (buildCompartmentStatus_same s s4) by done. by apply buildCompartmentStatus_same.
      + destruct (sns_compartments s !! k) as [c|] eqn:Hk.
        * destruct H2. apply elem_of_range_fst. rewrite Hk. by eexists.
        * destruct (statuses s1 !! k) as [x|] eqn:Hx; [|done]. destruct H1. split; [|done].
          apply elem_of_range_fst. rewrite S2, C1, bool_decide_eq_false_2 by done. by exists x. }
  assert (Hcur : current_nodes s4 = current_nodes s) by (unfold current_nodes, node_names; by rewrite (proj1 HN)).
  assert (Hrep : reported s4).
  { split_and!; [|intros k; rewrite Hstat, HC; done|done]. unfold maps_within. rewrite Hcur, Hm1, Hm2, Hm3, Hm4.
    split_and!; by eapply restricted_within. }
  rewrite Hm1, Hm2, Hm3, Hm4. split_and!; [done..|apply HN|]. by apply ReportState_reported.
Qed.
End Lemmas.
