(* ===== verification/Merge.v ===== *)
(** * Concurrent writers of a node's state

    Models the writes of the node-state annotation by the three controllers:
    [computeNodeStateDelta], [apply], [parseNodeState] and [saveNodeChanges] of
    [operator/internal/controller/skyhook_controller.go], and [patchNodeState]
    and [readNodeForPatch] of [job_controller.go].

    A write is a patch with an optimistic lock: the API server takes it only if
    the resource version it names is the current one, so on success the object
    it was computed from is the object it replaces.  [retry.RetryOnConflict] is
    the vendored loop: at most five attempts, again only after a conflict. *)

From S2P Require Import Prelude Graph DeploymentPolicy Api NodeState Skyhook Text Node.

#[local] Open Scope Z_scope.

(* ------------------------------------------------------------------ *)
(** ** Deltas *)

(** A value [None] marks a removal. *)
Notation nodeStateDelta := (gmap string (option PackageStatus)).

Definition delta_entry (before after : option PackageStatus) : option (option PackageStatus) :=
  match after with
  | Some s => if bool_decide (before = Some s) then None else Some (Some s)
  | None => match before with Some _ => Some None | None => None end
  end.

(** The two loops, over [after] and then over [before]. *)
Definition computeNodeStateDelta (before after : NodeState) : nodeStateDelta :=
  merge delta_entry before after.

Definition apply_entry (d : option (option PackageStatus)) (current : option PackageStatus) : option PackageStatus :=
  match d with Some s => s | None => current end.

Definition delta_apply (d : nodeStateDelta) (current : NodeState) : NodeState :=
  merge apply_entry d current.

Section Save.
Context `{JS : NodeStateJSON}.

Definition nodeStateAnnotationKey (skyhookName : string) : string := node_key "nodeState" skyhookName.

Definition parseNodeState (node : Node) (key : string) : res NodeState :=
  match n_Annotations node !! key with
  | None => Ok ∅
  | Some raw =>
      if bool_decide (raw = "") then Ok ∅
      else rbind (rwrap "unmarshalling node state from %s: %w" [key] (json_Unmarshal raw)) (fun st => Ok (default ∅ st))
  end.

(* ------------------------------------------------------------------ *)
(** ** The API server *)

(** A strategic merge patch: on a map of strings, the keys on which the base
    and the object differ take the object's value. *)
Class StrategicMerge := {
  merge_patch : Node -> Node -> Node -> Node;
  merge_patch_annotations : forall base new current k,
    n_Annotations (merge_patch base new current) !! k =
    if bool_decide (n_Annotations base !! k = n_Annotations new !! k)
    then n_Annotations current !! k else n_Annotations new !! k
}.

(** What one attempt meets: the node it reads (nil when it is gone), with its
    resource version, and what the server holds when the patch arrives. *)
Record attempt := { at_read : res (option (Node * Z)); at_current : Node; at_version : Z }.

Inductive outcome :=
| Gone
| Unchanged
| Saved (written : Node)
| Failed (e : error).

(** [retry.DefaultRetry.Steps] *)
Definition retry_steps : nat := 5%nat.

(** [f] is one attempt; [None] is a conflict. *)
Fixpoint RetryOnConflict (steps : nat) (f : attempt -> option outcome) (attempts : list attempt) : outcome :=
  match steps, attempts with
  | S steps, a :: attempts =>
      match f a with Some o => o | None => RetryOnConflict steps f attempts end
  | _, _ => Failed (errorf "conflict" [])
  end.

Context `{SM : StrategicMerge}.

(** [r.Patch] with [MergeFromWithOptimisticLock]. *)
Definition send (base new : Node) (rv : Z) (a : attempt) : option outcome :=
  if bool_decide (at_version a = rv) then Some (Saved (merge_patch base new (at_current a))) else None.

(** The annotation that the attempt writes into the pass's node. *)
Definition remerge (key : string) (delta : nodeStateDelta) (current : NodeState) (node : Node) : Node :=
  set_n_Annotations (<[key := json_Marshal (delta_apply delta current)]> (n_Annotations node)) node.

(** [original] is the pass's snapshot, [node] what the pass left.  An earlier
    attempt has only overwritten the annotation that this one overwrites. *)
Definition save_attempt (key : string) (delta : nodeStateDelta) (original node : Node) (a : attempt) : option outcome :=
  let name := n_Name node in
  match rwrap "re-reading node %s before patching: %w" [name] (at_read a) with
  | Err e => Some (Failed e)
  | Panic => None
  | Ok None => Some Gone
  | Ok (Some (fresh, rv)) =>
      match n_Annotations node !! key with
      | Some _ =>
          if bool_decide (delta = ∅) then send original node rv a
          else
            match rwrap "reading current node state for %s: %w" [name] (parseNodeState fresh key) with
            | Ok current => send original (remerge key delta current node) rv a
            | Err e => Some (Failed e)
            | Panic => None
            end
      | None => send original node rv a
      end
  end.

Definition saveNodeChanges (skyhookName : string) (original : option Node) (node : Node)
    (attempts : list attempt) : outcome :=
  let key := nodeStateAnnotationKey skyhookName in
  let name := n_Name node in
  match original with
  | None => Failed (errorf "no tracked snapshot for node %s; cannot derive its node-state delta" [name])
  | Some original =>
      match rwrap "reading the pass's starting node state for %s: %w" [name] (parseNodeState original key) with
      | Ok before =>
          match rwrap "reading the pass's resulting node state for %s: %w" [name] (parseNodeState node key) with
          | Ok after =>
              RetryOnConflict retry_steps
                (save_attempt key (computeNodeStateDelta before after) original node) attempts
          | Err e => Failed e
          | Panic => Failed (errorf "" [])
          end
      | Err e => Failed e
      | Panic => Failed (errorf "" [])
      end
  end.

(** [mutate] decides again on what each attempt reads. *)
Definition patch_attempt (mutate : Node -> res (Node * bool)) (nodeName : string) (a : attempt) : option outcome :=
  match rwrap "getting node %s: %w" [nodeName] (at_read a) with
  | Err e => Some (Failed e)
  | Panic => None
  | Ok None => Some Gone
  | Ok (Some (node, rv)) =>
      match mutate node with
      | Err e => Some (Failed e)
      | Panic => None
      | Ok (_, false) => Some Unchanged
      | Ok (node', true) => send node node' rv a
      end
  end.

Definition patchNodeState (mutate : Node -> res (Node * bool)) (nodeName : string) (attempts : list attempt) : outcome :=
  RetryOnConflict retry_steps (patch_attempt mutate nodeName) attempts.

(* ------------------------------------------------------------------ *)
(** ** The three controllers at once *)

(** The code that a controller runs between a read of the node and its patch:
    the pass's save, or the record of a Job or Pod event. *)
Inductive writer :=
| HeavyPass (key : string) (before after : NodeState) (original node : Node)
| Recorder (nodeName : string) (mutate : Node -> res (Node * bool)).

Definition attempt_of (w : writer) : attempt -> option outcome :=
  match w with
  | HeavyPass key before after original node =>
      save_attempt key (computeNodeStateDelta before after) original node
  | Recorder nodeName mutate => patch_attempt mutate nodeName
  end.

(** The server's node and its version, and the read that each writer holds. *)
Record world := { w_node : Node; w_version : Z; w_reads : gmap nat (Node * Z) }.

Inductive event := ReadBy (i : nat) | PatchBy (i : nat).

Definition written_by (w : writer) (read : Node * Z) (node : Node) (version : Z) : option Node :=
  match attempt_of w {| at_read := Ok (Some read); at_current := node; at_version := version |} with
  | Some (Saved m) => Some m
  | _ => None
  end.

Definition world_step (writers : nat -> writer) (s : world) (e : event) : world :=
  match e with
  | ReadBy i => {| w_node := w_node s; w_version := w_version s; w_reads := <[i := (w_node s, w_version s)]> (w_reads s) |}
  | PatchBy i =>
      match w_reads s !! i with
      | None => s
      | Some read =>
          match written_by (writers i) read (w_node s) (w_version s) with
          | Some m => {| w_node := m; w_version := w_version s + 1; w_reads := w_reads s |}
          | None => s
          end
      end
  end.

Definition world_run (writers : nat -> writer) : world -> list event -> world := foldl (world_step writers).

Definition patches (events : list event) : list nat :=
  omap (fun e => match e with PatchBy i => Some i | ReadBy _ => None end) events.

(** The specification: one writer reads and writes with nothing in between. *)
Definition atomic (w : writer) (node : Node) : Node := default node (written_by w (node, 0) node 0).

(* ------------------------------------------------------------------ *)
(** ** Lemmas *)

Lemma delta_lookup before after k :
  computeNodeStateDelta before after !! k =
  if bool_decide (before !! k = after !! k) then None else Some (after !! k).
Proof.
  unfold computeNodeStateDelta.
  rewrite (lookup_merge delta_entry before after).
  destruct (before !! k) as [b|], (after !! k) as [a|]; simpl; unfold delta_entry; repeat case_bool_decide; congruence.
Qed.

Lemma apply_lookup d current k :
  delta_apply d current !! k = match d !! k with Some s => s | None => current !! k end.
Proof.
  unfold delta_apply.
  rewrite (lookup_merge apply_entry d current). by destruct (d !! k) as [[|]|], (current !! k).
Qed.

Lemma delta_apply_lookup before after current k :
  delta_apply (computeNodeStateDelta before after) current !! k =
  if bool_decide (before !! k = after !! k) then current !! k else after !! k.
Proof. rewrite apply_lookup, delta_lookup. by case_bool_decide. Qed.

(** The attempt that is not a conflict decides. *)
Lemma RetryOnConflict_saved steps f attempts m :
  RetryOnConflict steps f attempts = Saved m -> exists a, a ∈ attempts /\ f a = Some (Saved m).
Proof.
  revert attempts; induction steps as [|steps IH]; intros [|a attempts]; simpl; try done.
  destruct (f a) as [o|] eqn:E.
  - intros ->. exists a. split; [by left|done].
  - intros (a' & Ha & Hf)%IH. exists a'. split; [by right|done].
Qed.

Lemma parse_marshal ns key m :
  json_Marshal ns <> "" -> n_Annotations m !! key = Some (json_Marshal ns) -> parseNodeState m key = Ok ns.
Proof.
  intros Hne H. unfold parseNodeState. rewrite H, bool_decide_eq_false_2 by done.
  by rewrite json_roundtrip.
Qed.

Lemma send_saved base new rv a m :
  send base new rv a = Some (Saved m) -> at_version a = rv /\ m = merge_patch base new (at_current a).
Proof. unfold send. case_bool_decide; [|done]. by intros [= <-]. Qed.

Lemma delta_empty before after : computeNodeStateDelta before after = ∅ -> before = after.
Proof.
  intros H. apply map_eq. intros k. pose proof (delta_lookup before after k) as E.
  rewrite H, lookup_empty in E. by case_bool_decide.
Qed.

Lemma same_parse n m key : n_Annotations n !! key = n_Annotations m !! key -> parseNodeState n key = parseNodeState m key.
Proof. unfold parseNodeState. by intros ->. Qed.

Lemma send_open base new v node read : send base new v {| at_read := read; at_current := node; at_version := v |} =
  Some (Saved (merge_patch base new node)).
Proof. unfold send. by rewrite bool_decide_eq_true_2. Qed.

(** An attempt's result depends on the version only through the lock. *)
Lemma written_by_locked w node v v' : written_by w (node, v) node v = written_by w (node, v') node v'.
Proof.
  unfold written_by. destruct w; cbn [attempt_of].
  - unfold save_attempt, rwrap; cbn [at_read].
    destruct (n_Annotations node0 !! key); [case_bool_decide|]; rewrite ?send_open; try done.
    destruct (parseNodeState node key); rewrite ?send_open; done.
  - unfold patch_attempt, rwrap; cbn [at_read]. destruct (mutate node) as [[? []]| |]; rewrite ?send_open; try done.
Qed.

Lemma written_by_version w read v0 node v m : written_by w (read, v0) node v = Some m -> v = v0.
Proof.
  unfold written_by. destruct (attempt_of w _) as [o|] eqn:E; [|done].
  destruct o; try done. intros _. destruct w; cbn [attempt_of] in E.
  - unfold save_attempt, rwrap in E; cbn [at_read] in E.
    destruct (n_Annotations node0 !! key); [|by apply send_saved in E as [<- _]].
    case_bool_decide; [by apply send_saved in E as [<- _]|].
    destruct (parseNodeState read key); try done. by apply send_saved in E as [<- _].
  - unfold patch_attempt, rwrap in E; cbn [at_read] in E.
    destruct (mutate read) as [[? []]| |]; try done. by apply send_saved in E as [<- _].
Qed.

(** A read that is as new as the server's node is that node. *)
Definition world_ok (s : world) : Prop :=
  forall i n v, w_reads s !! i = Some (n, v) -> v <= w_version s /\ (v = w_version s -> n = w_node s).

Lemma world_step_ok writers s e : world_ok s -> world_ok (world_step writers s e).
Proof.
  intros H. destruct e as [i|i]; simpl.
  - intros j n v. simpl. rewrite lookup_insert_Some. intros [[<- [= <- <-]]|[_ Hj]]; [split; [lia|done]|by eapply H].
  - destruct (w_reads s !! i) as [read|]; [|done].
    destruct (written_by _ _ _ _) as [m|]; [|done].
    intros j n v Hj. simpl in *. apply H in Hj. lia.
Qed.

(** A step leaves the node, or is the atomic run of one writer on it. *)
Lemma world_step_serial writers s e :
  world_ok s ->
  w_node (world_step writers s e) = w_node s \/
  exists i, e = PatchBy i /\ w_node (world_step writers s e) = atomic (writers i) (w_node s).
Proof.
  intros Hok. destruct e as [i|i]; simpl; [by left|].
  destruct (w_reads s !! i) as [[n v]|] eqn:Hr; [|by left].
  destruct (written_by _ _ _ _) as [m|] eqn:E; [|by left]. right. exists i. split; [done|].
  pose proof (written_by_version _ _ _ _ _ _ E) as Hv. apply Hok in Hr as [_ Hn]. rewrite <- Hn, Hv in E by done.
  unfold atomic. simpl. by rewrite <- (written_by_locked _ _ v 0), <- Hn, E.
Qed.

(** The pass's values are imposed, so the merge is not the snapshot. *)
Lemma merged_differs before after current :
  before <> after -> before <> delta_apply (computeNodeStateDelta before after) current.
Proof.
  intros Hneq Heq. apply Hneq, map_eq. intros k.
  pose proof (delta_apply_lookup before after current k) as E. rewrite <- Heq in E.
  by case_bool_decide.
Qed.

(* ------------------------------------------------------------------ *)
(** ** Properties *)

(** C14: A save of the pass's changes that succeeds overwrites no entry that
    another controller wrote in between: of the node-state annotation as the
    server held it at the winning attempt, it keeps every package that the pass
    left alone and imposes the pass's value (a removal included) on the
    others; and of the other annotations it writes only those the pass
    changed.  The merged text is really sent: it differs from the snapshot's. *)
Theorem saveNodeChanges_merges skyhookName original node attempts before after written :
  let key := nodeStateAnnotationKey skyhookName in
  (forall ns, json_Marshal ns <> "") ->
  (forall a fresh rv, a ∈ attempts -> at_read a = Ok (Some (fresh, rv)) -> at_version a = rv -> at_current a = fresh) ->
  parseNodeState original key = Ok before ->
  parseNodeState node key = Ok after ->
  is_Some (n_Annotations node !! key) ->
  before <> after ->
  saveNodeChanges skyhookName (Some original) node attempts = Saved written ->
  exists a fresh current merged,
    a ∈ attempts /\ at_read a = Ok (Some (fresh, at_version a)) /\
    parseNodeState fresh key = Ok current /\ parseNodeState written key = Ok merged /\
    (forall pkg, merged !! pkg = if bool_decide (before !! pkg = after !! pkg) then current !! pkg else after !! pkg) /\
    (forall k, k <> key ->
      n_Annotations written !! k =
      if bool_decide (n_Annotations original !! k = n_Annotations node !! k)
      then n_Annotations fresh !! k else n_Annotations node !! k).
Proof.
  intros key Hne Hlock Hb Ha [raw Hraw] Hneq. unfold saveNodeChanges. fold key. rewrite Hb, Ha. cbn [rwrap].
  intros (a & Hin & Hf)%RetryOnConflict_saved. revert Hf. unfold save_attempt. rewrite Hraw.
  destruct (at_read a) as [[[fresh rv]|]| |] eqn:Hread; try done; cbn [rwrap].
  rewrite bool_decide_eq_false_2 by (intros ?%delta_empty; done).
  destruct (parseNodeState fresh key) as [current| |] eqn:Hc; try done; cbn [rwrap].
  intros [Hv ->]%send_saved. rewrite (Hlock _ _ _ Hin Hread Hv). subst rv.
  set (merged := delta_apply (computeNodeStateDelta before after) current).
  exists a, fresh, current, merged. repeat split; try done.
  - apply parse_marshal; [done|]. rewrite merge_patch_annotations. simpl.
    rewrite lookup_insert_eq. rewrite bool_decide_eq_false_2; [done|].
    intros Horig. apply (merged_differs before after current Hneq). fold merged.
    rewrite (parse_marshal merged _ _ (Hne _) Horig) in Hb. congruence.
  - intros pkg. apply delta_apply_lookup.
  - intros k Hk. rewrite merge_patch_annotations. simpl. by rewrite lookup_insert_ne.
Qed.

(** Deleting the annotation outright (a reset) is never undone by the
    save: whatever the server holds, the annotation is gone after it. *)
Theorem saveNodeChanges_resets skyhookName original node attempts written raw :
  let key := nodeStateAnnotationKey skyhookName in
  n_Annotations original !! key = Some raw ->
  n_Annotations node !! key = None ->
  saveNodeChanges skyhookName (Some original) node attempts = Saved written ->
  n_Annotations written !! key = None.
Proof.
  intros key Ho Hn. unfold saveNodeChanges. fold key.
  destruct (parseNodeState original key) as [before| |]; try done; cbn [rwrap].
  destruct (parseNodeState node key) as [after| |]; try done; cbn [rwrap].
  intros (a & _ & Hf)%RetryOnConflict_saved. revert Hf. unfold save_attempt. rewrite Hn.
  destruct (at_read a) as [[[fresh rv]|]| |]; try done; cbn [rwrap].
  intros [_ ->]%send_saved. rewrite merge_patch_annotations.
  by rewrite Ho, Hn, bool_decide_eq_false_2.
Qed.

(** C15: The optimistic lock makes the writers atomic: whatever the
    interleaving of the reads and the patches of any number of controllers,
    the node that the server ends with is the result of running some of the
    patches, in the order in which they were sent and each at most once, each
    on the node that the one before it left. *)
Theorem interleavings_serialise writers node events :
  exists order : list nat,
    order `sublist_of` patches events /\
    w_node (world_run writers {| w_node := node; w_version := 0; w_reads := ∅ |} events) =
    foldl (fun n i => atomic (writers i) n) node order.
Proof.
  set (s0 := {| w_node := node; w_version := 0; w_reads := ∅ |}).
  enough (H : world_ok (world_run writers s0 events) /\ exists order, order `sublist_of` patches events /\
    w_node (world_run writers s0 events) = foldl (fun n i => atomic (writers i) n) node order) by apply H.
  induction events as [|e events IH] using rev_ind.
  - split; [|by exists []]. intros i n v. simpl. by rewrite lookup_empty.
  - unfold world_run. rewrite foldl_app. simpl. fold (world_run writers s0 events).
    destruct IH as (Hok & order & Hin & IH). split; [by apply world_step_ok|].
    unfold patches. rewrite omap_app. fold (patches events).
    destruct (world_step_serial writers _ e Hok) as [->|(i & -> & ->)].
    + exists order. split; [by apply sublist_inserts_r|done].
    + exists (order ++ [i]). split; [by apply sublist_app|].
      rewrite foldl_app. simpl. by rewrite IH.
Qed.
End Save.

(* ------------------------------------------------------------------ *)
(** ** Witnesses *)

#[local] Instance braced_json : NodeStateJSON.
Proof.
  refine {| json_Marshal := fun ns => String "{" (to_text ns);
            json_Unmarshal := fun s => match s with
              | String _ s => match of_text s with Some ns => Ok (Some ns) | None => Err (errorf "" []) end
              | EmptyString => Err (errorf "" []) end |}.
  intros ns. by rewrite of_to_text.
Defined.

#[local] Instance merge_strings : StrategicMerge.
Proof.
  refine {| merge_patch := fun base new current =>
    set_n_Annotations
      (filter (fun kv => n_Annotations base !! kv.1 <> n_Annotations new !! kv.1) (n_Annotations new) ∪
       filter (fun kv => n_Annotations base !! kv.1 = n_Annotations new !! kv.1) (n_Annotations current)) current |}.
  intros base new current k. simpl. rewrite lookup_union, !map_lookup_filter. simpl.
  destruct (decide (n_Annotations base !! k = n_Annotations new !! k)) as [E|E];
    [rewrite (bool_decide_eq_true_2 _ E)|rewrite (bool_decide_eq_false_2 _ E)];
    destruct (n_Annotations new !! k), (n_Annotations current !! k); simplify_option_eq; congruence.
Defined.

Definition with_state (ns : NodeState) : Node :=
  set_n_Annotations {[nodeStateAnnotationKey "tuning" := json_Marshal ns]} (bare_node "node-1").

Definition entry (version : string) (st : State) (sg : Stage) : PackageStatus :=
  {| ps_Name := "driver"; ps_Version := version; ps_Image := "img"; ps_Stage := sg; ps_State := st;
     ps_Restarts := 0; ps_ContainerSHA := "" |}.

(** The pass starts the second package while the first one completes. *)
Definition running : NodeState := {["driver|1" := entry "1" StateInProgress StageApply]}.
Definition pass_after : NodeState := <["tools|1" := entry "1" StateInProgress StageApply]> running.
Definition completed : NodeState := {["driver|1" := entry "1" StateComplete StageApply]}.

Definition stale_then_fresh : list attempt :=
  [{| at_read := Ok (Some (with_state running, 1)); at_current := with_state completed; at_version := 2 |};
   {| at_read := Ok (Some (with_state completed, 2)); at_current := with_state completed; at_version := 2 |}].

Definition read_node (a : attempt) : Node :=
  match at_read a with Ok (Some (n, _)) => n | _ => bare_node "" end.
Definition read_version (a : attempt) : Z := match at_read a with Ok (Some (_, v)) => v | _ => 0 end.

Lemma read_inv a n v : at_read a = Ok (Some (n, v)) -> n = read_node a /\ read_version a = v.
Proof. unfold read_node, read_version. by intros ->. Qed.

Lemma parse_with_state ns : parseNodeState (with_state ns) (nodeStateAnnotationKey "tuning") = Ok ns.
Proof. apply parse_marshal; [done|]. apply lookup_singleton_eq. Qed.

Lemma saves_second delta original node a1 a2 n1 v1 n2 current :
  at_read a1 = Ok (Some (n1, v1)) -> at_version a1 <> v1 -> is_ok (parseNodeState n1 (nodeStateAnnotationKey "tuning")) ->
  at_read a2 = Ok (Some (n2, at_version a2)) -> parseNodeState n2 (nodeStateAnnotationKey "tuning") = Ok current ->
  exists written, RetryOnConflict retry_steps
    (save_attempt (nodeStateAnnotationKey "tuning") delta original node) [a1; a2] = Saved written.
Proof.
  intros H1 Hv1 Hok H2 Hc. unfold retry_steps. cbn [RetryOnConflict]. unfold save_attempt.
  rewrite H1, H2. cbn [rwrap]. rewrite Hc. unfold send. rewrite (bool_decide_eq_false_2 (at_version a1 = v1)) by done.
  rewrite (bool_decide_eq_true_2 (at_version a2 = at_version a2)) by done.
  destruct (parseNodeState n1 _); try done. cbn [rwrap].
  destruct (n_Annotations node !! _); [case_bool_decide|]; by eexists.
Qed.

Lemma pass_saves node ns : parseNodeState node (nodeStateAnnotationKey "tuning") = Ok ns ->
  exists written, saveNodeChanges "tuning" (Some (with_state running)) node stale_then_fresh = Saved written.
Proof.
  intros H. unfold saveNodeChanges. rewrite parse_with_state, H. cbn [rwrap].
  eapply saves_second; [reflexivity|discriminate|by rewrite parse_with_state|reflexivity|apply parse_with_state].
Qed.

Lemma saveNodeChanges_merges_witness : exists written merged,
  saveNodeChanges "tuning" (Some (with_state running)) (with_state pass_after) stale_then_fresh = Saved written /\
  parseNodeState written (nodeStateAnnotationKey "tuning") = Ok merged /\
  merged !! "driver|1" = Some (entry "1" StateComplete StageApply).
Proof.
  destruct (pass_saves _ _ (parse_with_state pass_after)) as [written E].
  destruct (saveNodeChanges_merges "tuning" (with_state running) (with_state pass_after) stale_then_fresh
              running pass_after written) as (a & fresh & current & merged & Ha & Hr & Hc & Hm & Hpkg & _).
  - intros ns H. discriminate H.
  - intros a fresh rv Ha Hr Hv. apply read_inv in Hr as [-> Hr]. rewrite <- Hr in Hv.
    apply elem_of_cons in Ha as [->|Ha]; [discriminate Hv|]. apply list_elem_of_singleton in Ha as ->. reflexivity.
  - apply parse_with_state.
  - apply parse_with_state.
  - eexists. apply lookup_singleton_eq.
  - intros H. apply (f_equal (fun m => m !! "tools|1")) in H. vm_compute in H. discriminate H.
  - exact E.
  - exists written, merged. split; [exact E|]. split; [exact Hm|]. rewrite Hpkg.
    rewrite bool_decide_eq_true_2 by (vm_compute; reflexivity).
    apply read_inv in Hr as [-> Hv].
    apply elem_of_cons in Ha as [->|Ha]; [discriminate Hv|]. apply list_elem_of_singleton in Ha as ->.
    cbn [at_read read_node] in Hc. rewrite parse_with_state in Hc. injection Hc as <-.
    vm_compute. reflexivity.
Defined.

Lemma saveNodeChanges_resets_witness : exists written,
  saveNodeChanges "tuning" (Some (with_state running)) (bare_node "node-1") stale_then_fresh = Saved written /\
  n_Annotations written !! nodeStateAnnotationKey "tuning" = None.
Proof.
  destruct (pass_saves (bare_node "node-1") ∅ eq_refl) as [written E].
  exists written. split; [exact E|].
  apply (saveNodeChanges_resets "tuning" (with_state running) (bare_node "node-1") stale_then_fresh written
           (json_Marshal running)); [apply lookup_singleton_eq|reflexivity|exact E].
Defined.
