(* ===== verification/Jobs.v ===== *)
(** * The Job and Pod controllers

    Models [operator/internal/controller/job_controller.go],
    [pod_controller.go] and [annotations.go]: which events are recorded in the
    state of a node, by which write, and what happens to the Job and its pods.

    A reconcile is a list of effects on the API server and a result.  What the
    server answers is a [job_env]; the events, the log lines and the conversion
    of a TTL to whole seconds are not modelled. *)

From S2P Require Import Prelude Graph DeploymentPolicy Api NodeState Skyhook Text Node Merge.

#[local] Open Scope Z_scope.

(* ------------------------------------------------------------------ *)
(** ** Objects *)

Record PackageSkyhook := {
  px_Ref : PackageRef; px_Skyhook : string; px_Stage : Stage; px_Image : string;
  px_ContainerSHA : string; px_Invalid : bool
}.

(** [State] of a container: exit code and reason, reason and message. *)
Record ContainerStatus := {
  ct_Name : string;
  ct_Terminated : option (Z * string);
  ct_Running : bool;
  ct_Waiting : option (string * string);
  ct_RestartCount : Z
}.

Record Pod := {
  pod_Name : string;
  pod_Annotations : gmap string string;
  pod_Deleted : bool;
  pod_CreationTimestamp : Z;
  pod_NodeName : string;
  pod_Phase : string;
  pod_Reason : string;
  pod_Conditions : list (string * string);
  pod_InitContainerStatuses : list ContainerStatus
}.

Record JobCondition := { jc_Type : string; jc_Status : string; jc_Reason : string; jc_LastTransitionTime : Z }.

Record Job := {
  job_Name : string;
  job_Labels : gmap string string;
  job_Annotations : gmap string string;
  job_Deleted : bool;
  job_NodeName : string;
  job_Conditions : list JobCondition;
  job_Failed : Z
}.

(** [json.Unmarshal] into a pointer: the text [null] makes it nil. *)
Class PackageJSON := {
  package_Marshal : PackageSkyhook -> string;
  package_Unmarshal : string -> res (option PackageSkyhook);
  package_roundtrip : forall p, package_Unmarshal (package_Marshal p) = Ok (Some p)
}.

Definition set_px_Invalid (p : PackageSkyhook) : PackageSkyhook :=
  {| px_Ref := px_Ref p; px_Skyhook := px_Skyhook p; px_Stage := px_Stage p; px_Image := px_Image p;
     px_ContainerSHA := px_ContainerSHA p; px_Invalid := true |}.

Definition px_UniqueName (p : PackageSkyhook) : string := GetUniqueName (px_Ref p).

Definition packageAnnotationKey : string := METADATA_PREFIX +:+ "/package".
Definition annotationStateRecorded : string := METADATA_PREFIX +:+ "/state-recorded".
Definition annotationLastLogs : string := METADATA_PREFIX +:+ "/last-logs".
Definition interruptLabel : string := METADATA_PREFIX +:+ "/interrupt".
Definition interruptLabelValue : string := "True".
Definition InterruptContainerName : string := "interrupt".
Definition second : Z := 1000000000.
Definition newline : string := String (Ascii.ascii_of_nat 10) EmptyString.
Definition failureTargetGrace : Z := 5 * 60 * second.

(* ------------------------------------------------------------------ *)
(** ** Jobs *)

Definition jobProcessed (job : Job) : bool :=
  bool_decide (default "" (job_Annotations job !! annotationStateRecorded) = "true").

Definition isInterruptJob (job : Job) : bool :=
  bool_decide (default "" (job_Labels job !! interruptLabel) = interruptLabelValue).

Definition condition_is (type : string) (c : JobCondition) : bool :=
  bool_decide (jc_Type c = type) && bool_decide (jc_Status c = "True").

Definition hasJobCondition (job : Job) (type : string) : bool := any (condition_is type) (job_Conditions job).

Definition jobFailure (job : Job) : option string :=
  option_map jc_Reason (List.find (condition_is "Failed") (job_Conditions job)).

Definition jobFailedTerminally (job : Job) : bool :=
  match jobFailure job with Some _ => true | None => false end.

Definition jobFinished (job : Job) : bool :=
  if hasJobCondition job "Complete" then true else jobFailedTerminally job.

Definition failureTargetStale (now : Z) (job : Job) : bool :=
  match List.find (condition_is "FailureTarget") (job_Conditions job) with
  | Some c => failureTargetGrace <? now - jc_LastTransitionTime c
  | None => false
  end.

Definition failureTargetRemaining (now : Z) (job : Job) : Z :=
  match List.find (condition_is "FailureTarget") (job_Conditions job) with
  | Some c =>
      let remaining := failureTargetGrace - (now - jc_LastTransitionTime c) + second in
      if remaining <? second then second else remaining
  | None => 0
  end.

(* ------------------------------------------------------------------ *)
(** ** Pods *)

Definition hasDisruptionTarget (pod : Pod) : bool :=
  any (fun c => bool_decide (c.1 = "DisruptionTarget") && bool_decide (c.2 = "True")) (pod_Conditions pod).

Definition podDeadlineExceeded (pod : Pod) : bool :=
  bool_decide (pod_Phase pod = "Failed") && bool_decide (pod_Reason pod = "DeadlineExceeded").

Fixpoint genuine_failure (l : list ContainerStatus) : bool :=
  match l with
  | [] => false
  | s :: l =>
      match ct_Terminated s with
      | Some (0, _) => genuine_failure l
      | Some (_, reason) => negb (bool_decide (reason = "ContainerStatusUnknown"))
      | None =>
          match ct_Waiting s with
          | Some (reason, _) => bool_decide (reason = "CrashLoopBackOff")
          | None => false
          end
      end
  end.

Definition podFailureIsGenuine (pod : Pod) : bool := genuine_failure (pod_InitContainerStatuses pod).

Definition podFailedGenuinely (pod : Pod) : bool :=
  if negb (bool_decide (pod_Phase pod = "Failed")) || hasDisruptionTarget pod then false
  else podDeadlineExceeded pod || podFailureIsGenuine pod.

Inductive container_state := StateNone | ContainerSuccess | ContainerWaiting | ContainerRunning | ContainerFailed.

#[export] Instance container_state_eq_dec : EqDecision container_state.
Proof. solve_decision. Defined.

Definition checkStatus (s : ContainerStatus) : container_state * Z :=
  match ct_Terminated s with
  | Some (0, _) => (ContainerSuccess, ct_RestartCount s)
  | Some _ => (ContainerFailed, ct_RestartCount s)
  | None =>
      if ct_Running s then (ContainerRunning, ct_RestartCount s)
      else match ct_Waiting s with
           | Some (reason, _) =>
               if bool_decide (reason = "CrashLoopBackOff") then (ContainerFailed, ct_RestartCount s)
               else (ContainerWaiting, ct_RestartCount s)
           | None => (StateNone, 0)
           end
  end.

(** [acc] is the last container seen. *)
Fixpoint containers_state (acc : string * container_state * Z) (l : list ContainerStatus) : string * container_state * Z :=
  match l with
  | [] => acc
  | s :: l =>
      let '(state, restarts) := checkStatus s in
      let acc := (ct_Name s, state, restarts) in
      if bool_decide (state = ContainerFailed) then acc else containers_state acc l
  end.

Definition containerExitedSuccessfully (pod : Pod) : string * container_state * Z :=
  containers_state ("", StateNone, 0) (pod_InitContainerStatuses pod).

Fixpoint stuck_container (l : list ContainerStatus) : string * string * string :=
  match l with
  | [] => ("", "", "")
  | s :: l =>
      match ct_Terminated s with
      | Some (0, _) => stuck_container l
      | _ =>
          match ct_Waiting s with
          | Some (reason, message) => (ct_Name s, reason, message)
          | None => (ct_Name s, "", "")
          end
      end
  end.

Definition stuckInitContainer (pod : Pod) : string * string * string := stuck_container (pod_InitContainerStatuses pod).

(* ------------------------------------------------------------------ *)
(** ** Packages in annotations *)

Section Jobs.
Context `{MR : MapRange} `{JS : NodeStateJSON} `{PJ : PackageJSON} `{SM : StrategicMerge}.

Definition GetPackage (annotations : gmap string string) : res (option PackageSkyhook) :=
  match annotations !! packageAnnotationKey with
  | None => Ok None
  | Some s => rwrap "error unmarshalling package: %w" [] (package_Unmarshal s)
  end.

Definition SetPackages (skyhook image : string) (stage : Stage) (p : Package) (annotations : gmap string string)
  : gmap string string :=
  let strk := {| px_Skyhook := skyhook; px_Stage := stage; px_Ref := pkg_Ref p; px_Image := image;
                 px_ContainerSHA := pkg_ContainerSHA p; px_Invalid := false |} in
  <[packageAnnotationKey := package_Marshal strk]> annotations.

Definition InvalidatePackage (annotations : gmap string string) : res (gmap string string) :=
  rbind (rwrap "error getting package: %w" [] (GetPackage annotations)) (fun pkg =>
  match pkg with
  | None => Ok annotations
  | Some pkg => Ok (<[packageAnnotationKey := package_Marshal (set_px_Invalid pkg)]> annotations)
  end).

Definition IsInvalidPackage (annotations : gmap string string) : res bool :=
  rbind (rwrap "error getting package: %w" [] (GetPackage annotations)) (fun pkg =>
  Ok (match pkg with None => false | Some pkg => px_Invalid pkg end)).

(* ------------------------------------------------------------------ *)
(** ** What is recorded on a node *)

(** What the API server answers while an event is handled. *)
Record job_env := {
  je_now : Z;
  je_skyhook : string -> res (option NodeWright);
  je_node : string -> res (option Node);
  je_pods : res (list Pod);
  je_attempts : list attempt;
  je_logs : string -> string -> res string;
  je_delete_job : res unit;
  je_delete_pod : string -> res unit;
  je_mark : res unit
}.

Definition entryOpenAtStage (state : NodeState) (pkg : PackageSkyhook) : bool :=
  match state !! px_UniqueName pkg with
  | Some status =>
      bool_decide (ps_Stage status = px_Stage pkg) && negb (bool_decide (ps_State status = StateComplete))
  | None => false
  end.

Definition skipped_interrupt (kv : string * PackageStatus) : bool :=
  bool_decide (ps_Stage kv.2 = StageInterrupt) && bool_decide (ps_State kv.2 = StateSkipped).

Definition shouldRecordCompletion (job : Job) (pkg : PackageSkyhook) (node : Node) : res bool :=
  let skyhookNode := NewSkyhookNodeOnly node (px_Skyhook pkg) in
  rbind (rwrap "reading node state for job %s: %w" [job_Name job] (node_State skyhookNode)) (fun state =>
  let state := default ∅ state in
  if isInterruptJob job && any skipped_interrupt (range state) then Ok true
  else Ok (entryOpenAtStage state pkg)).

Definition succeededContainerName (env : job_env) : string :=
  match je_pods env with
  | Ok pods =>
      match List.find (fun pod => bool_decide (pod_Phase pod = "Succeeded") &&
                                  negb (bool_decide (pod_InitContainerStatuses pod = []))) pods with
      | Some pod => from_option ct_Name "" (last (pod_InitContainerStatuses pod))
      | None => ""
      end
  | _ => ""
  end.

(** One iteration over the map that it removes entries from. *)
Definition remove_other_version (pkg : PackageSkyhook) (n : SkyhookNodeOnly) (key : string) : SkyhookNodeOnly :=
  match cached n !! key with
  | Some s =>
      if bool_decide (ps_Name s = ref_Name (px_Ref pkg)) && negb (bool_decide (ps_Version s = ref_Version (px_Ref pkg)))
      then node_RemoveState {| ref_Name := ps_Name s; ref_Version := ps_Version s |} n
      else n
  | None => n
  end.

(** The end of an uninstall; [true]: the entry is written. *)
Definition complete_uninstall (cr : NodeWright) (pkg : PackageSkyhook) (n : SkyhookNodeOnly) : SkyhookNodeOnly :=
  match sp_Packages (Spec cr) !! ref_Name (px_Ref pkg) with
  | None => node_RemoveState (px_Ref pkg) n
  | Some p =>
      if negb (bool_decide (pkg_Version p = ref_Version (px_Ref pkg))) then node_RemoveState (px_Ref pkg) n
      else if pkg_HasInterrupt p then
        (Upsert_only (px_Ref pkg) (px_Image pkg) StateInProgress StageUninstallInterrupt 0 (px_ContainerSHA pkg) n).1
      else node_RemoveState (px_Ref pkg) n
  end.

Definition HandleCompletePod (env : job_env) (n : SkyhookNodeOnly) (pkg : PackageSkyhook) (containerName : string)
  : res (SkyhookNodeOnly * bool) :=
  if bool_decide (containerName = InterruptContainerName) then
    rbind (je_skyhook env (px_Skyhook pkg)) (fun skyhook =>
    match skyhook with
    | None => Ok (n, false)
    | Some cr =>
        rbind (rwrap "error converting node wrapper: %w" [] (Convert n cr)) (fun upgraded =>
        Ok (full_Only (node_ProgressSkipped upgraded), false))
    end)
  else if bool_decide (px_Stage pkg = StageUpgrade) then
    rbind (rwrap "error getting node state: %w" [] (node_State n)) (fun state =>
    Ok (foldl (remove_other_version pkg) n (range (default ∅ state)).*1, false))
  else if bool_decide (px_Stage pkg = StageUninstall) then
    rbind (je_skyhook env (px_Skyhook pkg)) (fun skyhook =>
    match skyhook with
    | None => Ok (n, false)
    | Some cr => Ok (complete_uninstall cr pkg n, true)
    end)
  else Ok (n, false).

(** The functions that [patchNodeState] retries. *)
Definition record_completion (env : job_env) (job : Job) (pkg : PackageSkyhook) (node : Node) : res (Node * bool) :=
  rbind (shouldRecordCompletion job pkg node) (fun record =>
  if negb record then Ok (node, false)
  else
    let skyhookNode := NewSkyhookNodeOnly node (px_Skyhook pkg) in
    let containerName := if isInterruptJob job then InterruptContainerName else succeededContainerName env in
    rbind (rwrap "recording completion for job %s: %w" [job_Name job] (HandleCompletePod env skyhookNode pkg containerName))
      (fun '(skyhookNode, updated) =>
    rbind (rwrap "reading node state for job %s: %w" [job_Name job] (node_State skyhookNode)) (fun state =>
    let skyhookNode :=
      if negb updated && entryOpenAtStage (default ∅ state) pkg
      then (Upsert_only (px_Ref pkg) (px_Image pkg) StateComplete (px_Stage pkg) (job_Failed job) (px_ContainerSHA pkg) skyhookNode).1
      else skyhookNode in
    Ok (sn_Node skyhookNode, sn_updated skyhookNode)))).

(** The write that both erroring recorders end with. *)
Definition write_erroring (pkg : PackageSkyhook) (restarts : Z) (n : SkyhookNodeOnly) : Node * bool :=
  let n := (Upsert_only (px_Ref pkg) (px_Image pkg) StateErroring (px_Stage pkg) restarts (px_ContainerSHA pkg) n).1 in
  let n := SetStatus_only StatusErroring n in
  (sn_Node n, sn_updated n).

Definition record_job_erroring (job : Job) (pkg : PackageSkyhook) (node : Node) : res (Node * bool) :=
  let n := NewSkyhookNodeOnly node (px_Skyhook pkg) in
  rbind (rwrap "reading node state for job %s: %w" [job_Name job] (node_State n)) (fun state =>
  match default ∅ state !! px_UniqueName pkg with
  | None => Ok (node, false)
  | Some status =>
      if negb (bool_decide (ps_Stage status = px_Stage pkg)) || bool_decide (ps_State status = StateErroring)
      then Ok (node, false)
      else Ok (write_erroring pkg (job_Failed job) n)
  end).

Definition shouldRecordPodErroring (n : SkyhookNodeOnly) (pkg : PackageSkyhook) : res bool :=
  rbind (rwrap "error reading node state for package %s: %w" [px_UniqueName pkg] (node_State n)) (fun state =>
  Ok (entryOpenAtStage (default ∅ state) pkg)).

Definition record_pod_erroring (pkg : PackageSkyhook) (restarts : Z) (node : Node) : res (Node * bool) :=
  let n := NewSkyhookNodeOnly node (px_Skyhook pkg) in
  rbind (shouldRecordPodErroring n pkg) (fun record =>
  if negb record then Ok (node, false) else Ok (write_erroring pkg restarts n)).

(* ------------------------------------------------------------------ *)
(** ** Reconciles *)

Inductive effect :=
| WriteNode (o : outcome)
| DeleteJob
| MarkProcessed (job_ttl : Z)
| AnnotateLogs (text : string)
| DeletePod (name : string).

(** Effects on the server, and the requeue delay or an error. *)
Definition run : Type := list effect * res Z.

Record JobOperatorOptions := { JobTTLSucceeded : Z; JobTTLFailed : Z }.

Definition deleteJobForeground (env : job_env) (job : Job) : run :=
  ([DeleteJob], rbind (rwrap "deleting job %s: %w" [job_Name job] (je_delete_job env)) (fun _ => Ok 0)).

Definition markJobProcessed (env : job_env) (job : Job) (ttl : Z) : run :=
  ([MarkProcessed ttl], rbind (rwrap "marking job %s processed: %w" [job_Name job] (je_mark env)) (fun _ => Ok 0)).

Definition patch_node (env : job_env) (name : string) (mutate : Node -> res (Node * bool)) : list effect * res unit :=
  let o := patchNodeState mutate name (je_attempts env) in
  ([WriteNode o], match o with Failed e => Err e | _ => Ok tt end).

Definition failed (r : res Z) : run := ([], r).

(** The next step runs when the effects so far returned no error. *)
Definition and_then (r : list effect * res unit) (k : run) : run :=
  match r.2 with
  | Ok _ => (r.1 ++ k.1, k.2)
  | Err e => (r.1, Err e)
  | Panic => (r.1, Panic)
  end.

(** The guards that both terminal handlers share: the package and the node. *)
Definition on_package_and_node (env : job_env) (job : Job) (mark : run) (k : PackageSkyhook -> run) : run :=
  match rwrap "getting package from job %s: %w" [job_Name job] (GetPackage (job_Annotations job)) with
  | Err e => failed (Err e)
  | Panic => failed Panic
  | Ok None => mark
  | Ok (Some pkg) =>
      match rwrap "getting node for job %s: %w" [job_Name job] (je_node env (job_NodeName job)) with
      | Err e => failed (Err e)
      | Panic => failed Panic
      | Ok None => mark
      | Ok (Some _) => k pkg
      end
  end.

Definition recordJobCompletion (env : job_env) (job : Job) (pkg : PackageSkyhook) : list effect * res unit :=
  patch_node env (job_NodeName job) (record_completion env job pkg).

Definition handleCompleteJob (opts : JobOperatorOptions) (env : job_env) (job : Job) : run :=
  let mark := markJobProcessed env job (JobTTLSucceeded opts) in
  on_package_and_node env job mark (fun pkg => and_then (recordJobCompletion env job pkg) mark).

Definition childPods (env : job_env) (job : Job) : res (list Pod) :=
  rwrap "listing child pods for job %s: %w" [job_Name job] (je_pods env).

Definition jobFailureIsGenuine (env : job_env) (job : Job) (reason : string) : res bool :=
  if negb (bool_decide (reason = "BackoffLimitExceeded")) then Ok true
  else rbind (childPods env job) (fun pods => Ok (any podFailedGenuinely pods)).

Definition recordJobErroring (env : job_env) (job : Job) (pkg : PackageSkyhook) : list effect * res unit :=
  patch_node env (job_NodeName job) (record_job_erroring job pkg).

Definition handleFailedJob (opts : JobOperatorOptions) (env : job_env) (job : Job) (reason : string) : run :=
  let mark := markJobProcessed env job (JobTTLFailed opts) in
  match rwrap "classifying failed job %s: %w" [job_Name job] (jobFailureIsGenuine env job reason) with
  | Err e => failed (Err e)
  | Panic => failed Panic
  | Ok false => mark
  | Ok true =>
      on_package_and_node env job mark (fun pkg =>
      let '(effects, r) := recordJobErroring env job pkg in
      and_then (effects, rwrap "recording failure for job %s: %w" [job_Name job] r) mark)
  end.

(** The pods seen before the first genuine failure, if there is one. *)
Definition snapshot_target (pods : list Pod) : option Pod :=
  if any podFailedGenuinely pods then None
  else List.find (fun pod => bool_decide (pod_Phase pod = "Running") || bool_decide (pod_Phase pod = "Pending")) pods.

(** Its errors are only logged. *)
Definition snapshotFailureLogs (env : job_env) (job : Job) : list effect :=
  match job_Annotations job !! annotationLastLogs with
  | Some _ => []
  | None =>
      match childPods env job with
      | Ok pods =>
          match snapshot_target pods with
          | None => []
          | Some target =>
              let '(container, waitingReason, waitingMessage) := stuckInitContainer target in
              if bool_decide (container = "") then []
              else if negb (bool_decide (waitingReason = ""))
              then [AnnotateLogs (container +:+ ": " +:+ waitingReason +:+ ": " +:+ waitingMessage)]
              else match je_logs env (pod_Name target) container with
                   | Ok logs => [AnnotateLogs (container +:+ ":" +:+ newline +:+ logs)]
                   | _ => []
                   end
          end
      | _ => []
      end
  end.

(** Creation time, then name. *)
Definition attempt_le (a b : Pod) : Prop :=
  (pod_CreationTimestamp a < pod_CreationTimestamp b) \/
  (pod_CreationTimestamp a = pod_CreationTimestamp b /\ str_le (pod_Name a) (pod_Name b)).

#[export] Instance attempt_le_dec a b : Decision (attempt_le a b).
Proof. unfold attempt_le. apply _. Defined.

Definition failed_attempts (pods : list Pod) : list Pod :=
  List.filter (fun pod => podFailedGenuinely pod && negb (pod_Deleted pod)) pods.

Definition prunable (pods : list Pod) : list Pod :=
  let archives := failed_attempts pods in
  if zlen archives <=? 2 then []
  else removelast (tail (merge_sort attempt_le archives)).

Fixpoint delete_pods (env : job_env) (pods : list Pod) : list effect :=
  match pods with
  | [] => []
  | pod :: pods =>
      DeletePod (pod_Name pod) ::
      match je_delete_pod env (pod_Name pod) with Ok _ => delete_pods env pods | _ => [] end
  end.

(** Its errors are only logged. *)
Definition pruneFailedAttempts (env : job_env) (job : Job) : list effect :=
  match childPods env job with
  | Ok pods => delete_pods env (prunable pods)
  | _ => []
  end.

Definition recordStaleFailureTarget (env : job_env) (job : Job) : list effect * res unit :=
  match rwrap "getting package from job %s: %w" [job_Name job] (GetPackage (job_Annotations job)) with
  | Err e => ([], Err e)
  | Panic => ([], Panic)
  | Ok None => ([], Ok tt)
  | Ok (Some pkg) => recordJobErroring env job pkg
  end.

Definition handleActiveJob (env : job_env) (job : Job) : run :=
  let prune := pruneFailedAttempts env job in
  if hasJobCondition job "FailureTarget" then
    let logs := snapshotFailureLogs env job in
    if failureTargetStale (je_now env) job then
      let '(effects, r) := recordStaleFailureTarget env job in
      and_then (logs ++ effects, rwrap "recording erroring for stale failure target on job %s: %w" [job_Name job] r)
        (prune, Ok 0)
    else (logs ++ prune, Ok (failureTargetRemaining (je_now env) job))
  else (prune, Ok 0).

Definition JobReconcile (opts : JobOperatorOptions) (env : job_env) (job : Job) : run :=
  if job_Deleted job then ([], Ok 0)
  else
    match rwrap "checking invalid package on job %s: %w" [job_Name job] (IsInvalidPackage (job_Annotations job)) with
    | Err e => failed (Err e)
    | Panic => failed Panic
    | Ok true => deleteJobForeground env job
    | Ok false =>
        if jobProcessed job then ([], Ok 0)
        else if hasJobCondition job "Complete" then handleCompleteJob opts env job
        else match jobFailure job with
             | Some reason => handleFailedJob opts env job reason
             | None => handleActiveJob env job
             end
    end.

Definition recordPodErroring (env : job_env) (pod : Pod) (restarts : Z) : run :=
  match rwrap "getting package from pod %s: %w" [pod_Name pod] (GetPackage (pod_Annotations pod)) with
  | Err e => failed (Err e)
  | Panic => failed Panic
  | Ok None => ([], Ok 0)
  | Ok (Some pkg) => and_then (patch_node env (pod_NodeName pod) (record_pod_erroring pkg restarts)) ([], Ok 0)
  end.

Definition PodReconcile (env : job_env) (pod : Pod) : run :=
  if pod_Deleted pod || hasDisruptionTarget pod then ([], Ok 0)
  else
    let '(_, state, restarts) := containerExitedSuccessfully pod in
    if negb (podDeadlineExceeded pod) && (negb (bool_decide (state = ContainerFailed)) || negb (podFailureIsGenuine pod))
    then ([], Ok 0)
    else recordPodErroring env pod restarts.

(* ------------------------------------------------------------------ *)
(** ** Lemmas: the wrapper and its annotation *)

(** The state that a node carries for a resource. *)
Definition node_ns (skyhook : string) (node : Node) : NodeState := cached (NewSkyhookNodeOnly node skyhook).

Definition reads (skyhook : string) (ns : NodeState) (n : SkyhookNodeOnly) : Prop :=
  in_sync n /\ cached n = ns /\ sn_skyhookName n = skyhook.

Lemma New_reads node skyhook st :
  node_State (NewSkyhookNodeOnly node skyhook) = Ok st ->
  reads skyhook (default ∅ st) (NewSkyhookNodeOnly node skyhook).
Proof.
  unfold NewSkyhookNodeOnly, reads, in_sync, cached.
  set (ret := {| sn_Node := node; sn_skyhookName := skyhook; sn_nodeState := None; sn_updated := false |}).
  destruct (node_State ret) as [st'|e|] eqn:E; [|by rewrite E|by rewrite E]. cbn [set_sn_nodeState sn_nodeState].
  intros H. assert (st' = st) as ->.
  { destruct st' as [ns|]; [by injection H as <-|].
    change (set_sn_nodeState None ret) with ret in H. rewrite E in H. congruence. }
  split; [exact E|]. done.
Qed.

Lemma reads_node skyhook ns n : reads skyhook ns n -> reads skyhook ns (NewSkyhookNodeOnly (sn_Node n) skyhook).
Proof.
  intros (Hs & <- & <-).
  assert (H : NewSkyhookNodeOnly (sn_Node n) (sn_skyhookName n) = set_sn_updated false n).
  { unfold NewSkyhookNodeOnly, in_sync in *.
    change (node_State _) with (node_State (set_sn_nodeState None n)) at 1. by rewrite Hs. }
  by rewrite H.
Qed.

Lemma reads_State skyhook ns n : reads skyhook ns n -> exists st, node_State n = Ok st /\ default ∅ st = ns.
Proof.
  intros (Hs & <- & _). unfold node_State, cached. destruct (sn_nodeState n) as [ns|] eqn:E; [by exists (Some ns)|].
  unfold in_sync, node_State in Hs. simpl in Hs. exists None. split; [|done].
  change (annotations (set_sn_nodeState None n)) with (annotations n) in Hs. by rewrite E in Hs.
Qed.

Lemma Upsert_reads skyhook ns n p image state stage restarts sha : reads skyhook ns n ->
  reads skyhook (<[GetUniqueName p :=
      {| ps_Name := ref_Name p; ps_Version := ref_Version p; ps_Image := image; ps_ContainerSHA := sha;
         ps_Stage := stage; ps_State := state; ps_Restarts := restarts |}]> ns)
    (Upsert_only p image state stage restarts sha n).1.
Proof.
  intros (Hs & <- & <-). destruct (Upsert_only_spec p image state stage restarts sha n Hs) as (H1 & H2 & H3).
  split; [done|]. split; [|done]. unfold cached at 1. rewrite H2. simpl. by rewrite Upsert_lookup.
Qed.

Lemma RemoveState_reads skyhook ns n p : reads skyhook ns n ->
  reads skyhook (delete (GetUniqueName p) ns) (node_RemoveState p n).
Proof.
  intros (Hs & <- & <-). destruct (RemoveState_only_spec p n Hs) as (H1 & H2 & H3).
  split; [done|]. split; [|done]. rewrite H2. unfold RemoveState. destruct (cached n !! GetUniqueName p) eqn:E; simpl; [done|].
  by rewrite delete_id.
Qed.

Lemma SetStatus_reads skyhook ns st n : st <> StatusComplete -> reads skyhook ns n -> reads skyhook ns (SetStatus_only st n).
Proof.
  intros Hst. unfold SetStatus_only. rewrite bool_decide_eq_false_2 by done.
  assert (Hw : reads skyhook ns n -> reads skyhook ns (put_label (statusKey n) (status_string st)
                 (put_annotation (statusKey n) (status_string st) (mark_updated n)))); [|by repeat case_match; auto].
  intros (Hs & Hc & Hn). split; [|done]. unfold in_sync, node_State in *. simpl in *. rewrite <- Hs.
  change (nodeStateKey (set_sn_nodeState None _)) with (nodeStateKey n) at 1.
  change (nodeStateKey (set_sn_nodeState None n)) with (nodeStateKey n).
  assert (Hne : statusKey n <> nodeStateKey n).
  { unfold statusKey, nodeStateKey, node_key. intros H. apply append_inj_l in H. discriminate H. }
  unfold annotations. simpl. by rewrite lookup_insert_ne.
Qed.

(** Another version of the package. *)
Definition other_version (pkg : PackageSkyhook) (k : string) : Prop :=
  exists version, version <> ref_Version (px_Ref pkg) /\
    k = GetUniqueName {| ref_Name := ref_Name (px_Ref pkg); ref_Version := version |}.

Definition well_keyed (ns : NodeState) : Prop := forall k s,
  ns !! k = Some s -> k = GetUniqueName {| ref_Name := ps_Name s; ref_Version := ps_Version s |}.

Definition without_others (pkg : PackageSkyhook) (ns ns' : NodeState) : Prop := forall k,
  ns' !! k = ns !! k \/ (ns' !! k = None /\ other_version pkg k).

Lemma other_version_own pkg : ~ other_version pkg (px_UniqueName pkg).
Proof.
  intros (v & Hv & H). unfold px_UniqueName, GetUniqueName, unique_name in H. simpl in H.
  apply append_inj_l in H. injection H as H. done.
Qed.

(** The entry is not one of another version. *)
Definition only_version (pkg : PackageSkyhook) (ns : NodeState) (key : string) : Prop := forall s,
  ns !! key = Some s -> ps_Name s = ref_Name (px_Ref pkg) -> ps_Version s = ref_Version (px_Ref pkg).

Lemma remove_other_version_reads skyhook pkg ns n key : reads skyhook ns n ->
  exists ns', reads skyhook ns' (remove_other_version pkg n key) /\ without_others pkg ns ns' /\
    (well_keyed ns -> only_version pkg ns' key).
Proof.
  intros Hr. unfold remove_other_version, only_version. pose proof Hr as (_ & -> & _).
  assert (Hsame : (forall s, ns !! key = Some s -> ps_Name s = ref_Name (px_Ref pkg) -> ps_Version s = ref_Version (px_Ref pkg)) ->
    exists ns', reads skyhook ns' n /\ without_others pkg ns ns' /\ (well_keyed ns -> only_version pkg ns' key)).
  { intros H. exists ns. split_and!; [done|by left|by intros]. }
  destruct (ns !! key) as [s|] eqn:E; [|by apply Hsame].
  case_bool_decide as Hn; [case_bool_decide as Hv|]; simpl; [by apply Hsame; intros _ [= <-]| |by apply Hsame; intros _ [= <-]].
  eexists. split; [by apply RemoveState_reads|]. split.
  - intros k. destruct (decide (k = GetUniqueName {| ref_Name := ps_Name s; ref_Version := ps_Version s |})) as [->|Hk].
    + right. rewrite lookup_delete_eq. split; [done|]. exists (ps_Version s). by rewrite <- Hn.
    + left. by rewrite lookup_delete_ne.
  - intros Hw s'. rewrite <- (Hw _ _ E). by rewrite lookup_delete_eq.
Qed.

Lemma without_others_trans pkg a b c : without_others pkg a b -> without_others pkg b c -> without_others pkg a c.
Proof. intros H1 H2 k. destruct (H2 k) as [->|?]; [|by right]. apply H1. Qed.

(** Entries are only removed. *)
Lemma without_others_sub pkg a b k s : without_others pkg a b -> b !! k = Some s -> a !! k = Some s.
Proof. intros H Hk. destruct (H k) as [<-|[Hn _]]; [done|congruence]. Qed.

Lemma remove_others_reads skyhook pkg keys : forall ns n, reads skyhook ns n ->
  exists ns', reads skyhook ns' (foldl (remove_other_version pkg) n keys) /\ without_others pkg ns ns' /\
    (well_keyed ns -> forall k, k ∈ keys -> only_version pkg ns' k).
Proof.
  induction keys as [|key keys IH]; intros ns n Hr; simpl.
  { exists ns. split_and!; [done|by left|]. by intros _ k ?%elem_of_nil. }
  destruct (remove_other_version_reads skyhook pkg ns n key Hr) as (ns1 & H1 & Hs1 & Ho1).
  destruct (IH _ _ H1) as (ns2 & H2 & Hs2 & Ho2). exists ns2. split_and!; [done|by eapply without_others_trans|].
  intros Hw k [->|Hk]%elem_of_cons.
  - intros s Hs. eapply Ho1; [done|]. by eapply without_others_sub.
  - apply Ho2; [|done]. intros k' s Hs. eapply Hw. by eapply without_others_sub.
Qed.

Lemma ProgressSkipped_reads skyhook ns n cr f :
  reads skyhook ns n -> Convert n cr = Ok f -> skipped_current (sp_Packages (Spec cr)) ns ->
  reads skyhook (promote (sp_Packages (Spec cr)) <$> ns) (full_Only (node_ProgressSkipped f)).
Proof.
  intros Hr. unfold Convert. destruct (BuildGraph (Spec cr)) as [g| |]; try done. cbn [rbind]. intros [= <-] Hcur.
  unfold node_ProgressSkipped, f_packages. cbn [full_Only full_skyhook full_graph].
  change (sk_Spec (NewSkyhookWrapper cr)) with (Spec cr).
  destruct Hr as (Hs & Hc & Hn). rewrite Hc.
  destruct (progress_fold (sp_Packages (Spec cr)) (range ns).*1 ns false Hcur (NoDup_range ns)) as [H1 H2].
  fold (ProgressSkipped ns (sp_Packages (Spec cr))) in H1, H2.
  assert (Hns : (ProgressSkipped ns (sp_Packages (Spec cr))).1 = promote (sp_Packages (Spec cr)) <$> ns).
  { apply map_eq. intros k. rewrite H1, lookup_fmap. case_bool_decide as Hk; [done|].
    rewrite elem_of_range_fst in Hk. apply eq_None_not_Some in Hk. by rewrite Hk. }
  destruct (ProgressSkipped ns (sp_Packages (Spec cr))) as [ns' ch]. cbn [fst snd] in *. subst ns'. destruct ch; cbn [full_Only].
  - destruct (SetState_spec (promote (sp_Packages (Spec cr)) <$> ns) n) as (A1 & _ & A3 & A4 & _).
    split; [done|]. split; [unfold cached; by rewrite A1|congruence].
  - split; [done|]. split; [|done]. rewrite Hc. apply map_eq. intros k. rewrite lookup_fmap.
    destruct (ns !! k) as [s|] eqn:E; [|done]. simpl. unfold promote.
    destruct (skipped (sp_Packages (Spec cr)) s) eqn:Hsk; [|done]. exfalso.
    rewrite orb_false_l in H2. symmetry in H2. apply not_true_iff_false in H2. apply H2, any_true.
    exists k. rewrite E. split; [|done]. apply elem_of_range_fst. by eexists.
Qed.

(* ------------------------------------------------------------------ *)
(** ** Lemmas: what is recorded *)

Lemma entry_open ns pkg : entryOpenAtStage ns pkg = true <->
  exists s, ns !! px_UniqueName pkg = Some s /\ ps_Stage s = px_Stage pkg /\ ps_State s <> StateComplete.
Proof.
  unfold entryOpenAtStage. destruct (ns !! px_UniqueName pkg) as [s|]; split; [|intros (s' & [= <-] & H1 & H2)|done|intros (s' & [=] & _)].
  - intros H. exists s. bool_simpl. done.
  - by rewrite bool_decide_eq_true_2, bool_decide_eq_false_2.
Qed.

(** The entry that the recorders write. *)
Definition recorded (pkg : PackageSkyhook) (st : State) (stage : Stage) (restarts : Z) : PackageStatus :=
  {| ps_Name := ref_Name (px_Ref pkg); ps_Version := ref_Version (px_Ref pkg); ps_Image := px_Image pkg;
     ps_ContainerSHA := px_ContainerSHA pkg; ps_Stage := stage; ps_State := st; ps_Restarts := restarts |}.

Definition complete_entry (job : Job) (pkg : PackageSkyhook) (ns : NodeState) : NodeState :=
  <[px_UniqueName pkg := recorded pkg StateComplete (px_Stage pkg) (job_Failed job)]> ns.

(** The state after the completion was handled, before the entry is written. *)
Definition container_of (env : job_env) (job : Job) : string :=
  if isInterruptJob job then InterruptContainerName else succeededContainerName env.

Lemma shouldRecord_reads job pkg node record :
  shouldRecordCompletion job pkg node = Ok record ->
  let ns := node_ns (px_Skyhook pkg) node in
  reads (px_Skyhook pkg) ns (NewSkyhookNodeOnly node (px_Skyhook pkg)) /\
  (isInterruptJob job = false -> record = entryOpenAtStage ns pkg).
Proof.
  unfold shouldRecordCompletion. destruct (node_State _) as [st| |] eqn:E; try done. cbn [rbind rwrap].
  apply New_reads in E. intros H. cbv zeta.
  assert (Hns : node_ns (px_Skyhook pkg) node = default ∅ st) by apply E.
  rewrite Hns. split; [done|]. intros Hi. rewrite Hi in H. simpl in H. congruence.
Qed.

Lemma record_completion_inv env job pkg node node' :
  record_completion env job pkg node = Ok (node', true) ->
  let ns := node_ns (px_Skyhook pkg) node in
  exists n updated, shouldRecordCompletion job pkg node = Ok true /\
    HandleCompletePod env (NewSkyhookNodeOnly node (px_Skyhook pkg)) pkg (container_of env job) = Ok (n, updated) /\
    forall ns1, reads (px_Skyhook pkg) ns1 n ->
      reads (px_Skyhook pkg) (if negb updated && entryOpenAtStage ns1 pkg then complete_entry job pkg ns1 else ns1)
        (NewSkyhookNodeOnly node' (px_Skyhook pkg)).
Proof.
  unfold record_completion. fold (container_of env job).
  destruct (shouldRecordCompletion job pkg node) as [record| |] eqn:Es; try done. cbn [rbind].
  destruct record; [|done]. cbn [negb].
  destruct (HandleCompletePod _ _ _ _) as [[n updated]| |] eqn:Eh; try done. cbn [rwrap rbind].
  destruct (node_State n) as [st| |] eqn:En; try done. cbn [rwrap rbind].
  intros [= Hnode _]. exists n, updated. split_and!; [done..|]. intros ns1 Hr.
  destruct (reads_State _ _ _ Hr) as (st' & Est & Hst). rewrite En in Est. injection Est as <-. rewrite Hst in Hnode.
  subst node'. destruct (negb updated && entryOpenAtStage ns1 pkg); [|by apply reads_node].
  apply reads_node. by apply Upsert_reads.
Qed.

Lemma complete_closed job pkg ns : entryOpenAtStage (complete_entry job pkg ns) pkg = false.
Proof.
  apply not_true_iff_false. rewrite entry_open. intros (s & Hs & _ & Hne). unfold complete_entry in Hs.
  rewrite lookup_insert_eq in Hs. injection Hs as <-. done.
Qed.

(** A closed entry records nothing. *)
Lemma closed_unrecorded env job pkg node ns :
  isInterruptJob job = false -> reads (px_Skyhook pkg) ns (NewSkyhookNodeOnly node (px_Skyhook pkg)) ->
  entryOpenAtStage ns pkg = false ->
  record_completion env job pkg node = Ok (node, false).
Proof.
  intros Hi Hr Hc. unfold record_completion, shouldRecordCompletion.
  destruct (reads_State _ _ _ Hr) as (st & Hst & Hd). rewrite Hst, Hi. cbn [rwrap rbind andb]. by rewrite Hd, Hc.
Qed.

(** What the end of a stage other than an interrupt leaves. *)
Definition stage_end (pkg : PackageSkyhook) (updated : bool) (ns ns1 : NodeState) : Prop :=
  if updated then
    px_Stage pkg = StageUninstall /\
    (ns1 = delete (px_UniqueName pkg) ns \/
     ns1 = <[px_UniqueName pkg := recorded pkg StateInProgress StageUninstallInterrupt 0]> ns)
  else
    (px_Stage pkg <> StageUpgrade /\ ns1 = ns) \/
    (px_Stage pkg = StageUpgrade /\ without_others pkg ns ns1 /\ (well_keyed ns -> forall k, only_version pkg ns1 k)).

Lemma HandleCompletePod_reads env pkg ns n c n' updated :
  c <> InterruptContainerName -> reads (px_Skyhook pkg) ns n ->
  HandleCompletePod env n pkg c = Ok (n', updated) ->
  exists ns1, reads (px_Skyhook pkg) ns1 n' /\ stage_end pkg updated ns ns1.
Proof.
  intros Hc Hr. unfold HandleCompletePod. rewrite (bool_decide_eq_false_2 (c = _)) by done.
  case_bool_decide as Hup; [|case_bool_decide as Hun].
  - destruct (reads_State _ _ _ Hr) as (st & -> & Hst). cbn [rwrap rbind]. intros [= <- <-]. rewrite Hst.
    destruct (remove_others_reads (px_Skyhook pkg) pkg (range ns).*1 ns n Hr) as (ns1 & H1 & H2 & H3).
    exists ns1. split; [done|]. right. split_and!; [done|done|]. intros Hw k s Hs.
    eapply H3; [done| |exact Hs]. apply elem_of_range_fst. exists s. by eapply without_others_sub.
  - destruct (je_skyhook env (px_Skyhook pkg)) as [[cr|]| |]; try done; cbn [rbind]; intros [= <- <-].
    2: { exists ns. split; [done|by left]. }
    assert (Hrm : exists ns1, reads (px_Skyhook pkg) ns1 (node_RemoveState (px_Ref pkg) n) /\ stage_end pkg true ns ns1).
    { eexists. split; [by apply RemoveState_reads|]. split; [done|by left]. }
    unfold complete_uninstall. destruct (sp_Packages (Spec cr) !! ref_Name (px_Ref pkg)) as [p|]; [|done].
    case_bool_decide; [|done]. cbn [negb]. destruct (pkg_HasInterrupt p); [|done].
    eexists. split; [by apply Upsert_reads|]. split; [done|by right].
  - intros [= <- <-]. exists ns. split; [done|by left].
Qed.

(** The states that the recording of a completion may leave. *)
Definition completed_as (job : Job) (pkg : PackageSkyhook) (ns ns' : NodeState) : Prop :=
  let u := px_UniqueName pkg in
  (ns' !! u = Some (recorded pkg StateComplete (px_Stage pkg) (job_Failed job)) \/
   (px_Stage pkg = StageUninstall /\
    (ns' !! u = None \/ ns' !! u = Some (recorded pkg StateInProgress StageUninstallInterrupt 0)))) /\
  (forall k, k <> u ->
    ns' !! k = ns !! k \/ (px_Stage pkg = StageUpgrade /\ ns' !! k = None /\ other_version pkg k)).

Lemma stage_end_completed job pkg updated ns ns1 :
  entryOpenAtStage ns pkg = true -> stage_end pkg updated ns ns1 ->
  let ns' := if negb updated && entryOpenAtStage ns1 pkg then complete_entry job pkg ns1 else ns1 in
  completed_as job pkg ns ns' /\ entryOpenAtStage ns' pkg = false /\
  (px_Stage pkg = StageUpgrade -> well_keyed ns -> forall k, only_version pkg ns' k).
Proof.
  intros Ho. unfold stage_end, completed_as. destruct updated; cbn [negb andb].
  - intros (Hst & [-> | ->]); (split; [|split; [|congruence]]).
    + split; [right; split; [done|left; apply lookup_delete_eq]|]. intros k Hk. left. by rewrite lookup_delete_ne.
    + apply not_true_iff_false. rewrite entry_open. intros (s & Hs & _). by rewrite lookup_delete_eq in Hs.
    + split; [right; split; [done|right; apply lookup_insert_eq]|]. intros k Hk. left. by rewrite lookup_insert_ne.
    + apply not_true_iff_false. rewrite entry_open. intros (s & Hs & Hstage & _). rewrite lookup_insert_eq in Hs.
      injection Hs as <-. rewrite Hst in Hstage. discriminate Hstage.
  - intros H. assert (Ho1 : entryOpenAtStage ns1 pkg = true).
    { destruct H as [[_ ->]|(_ & Hw & _)]; [done|]. destruct (Hw (px_UniqueName pkg)) as [E|[_ E]].
      - unfold entryOpenAtStage. by rewrite E.
      - by apply other_version_own in E. }
    rewrite Ho1. split; [split|split].
    + left. apply lookup_insert_eq.
    + intros k Hk. unfold complete_entry. rewrite lookup_insert_ne by done.
      destruct H as [[_ ->]|(Hst & Hw & _)]; [by left|]. destruct (Hw k) as [E|[E1 E2]]; [by left|by right].
    + apply complete_closed.
    + intros Hup Hwk k s. destruct H as [[Hne _]|(_ & _ & Hv)]; [done|]. unfold complete_entry.
      rewrite lookup_insert_Some. intros [[_ <-]|[_ Hs]]; [done|by apply (Hv Hwk k)].
Qed.

Lemma Ok_inj {A} (a b : A) : Ok a = Ok b -> a = b.
Proof. congruence. Qed.

Lemma record_job_inv job pkg node node' : record_job_erroring job pkg node = Ok (node', true) ->
  let ns := node_ns (px_Skyhook pkg) node in
  exists s, reads (px_Skyhook pkg) ns (NewSkyhookNodeOnly node (px_Skyhook pkg)) /\
    ns !! px_UniqueName pkg = Some s /\ ps_Stage s = px_Stage pkg /\
    write_erroring pkg (job_Failed job) (NewSkyhookNodeOnly node (px_Skyhook pkg)) = (node', true).
Proof.
  unfold record_job_erroring. destruct (node_State _) as [st| |] eqn:E; try done. cbn [rwrap rbind].
  apply New_reads in E. assert (Hns : node_ns (px_Skyhook pkg) node = default ∅ st) by apply E. rewrite Hns.
  destruct (default ∅ st !! px_UniqueName pkg) as [s|] eqn:Es; [|done].
  case_bool_decide as Hst; cbn [negb orb]; [|done]. case_bool_decide; [done|]. intros Hw%Ok_inj. exists s. done.
Qed.

Lemma record_pod_inv pkg restarts node node' : record_pod_erroring pkg restarts node = Ok (node', true) ->
  let ns := node_ns (px_Skyhook pkg) node in
  exists s, reads (px_Skyhook pkg) ns (NewSkyhookNodeOnly node (px_Skyhook pkg)) /\
    ns !! px_UniqueName pkg = Some s /\ ps_Stage s = px_Stage pkg /\ ps_State s <> StateComplete /\
    write_erroring pkg restarts (NewSkyhookNodeOnly node (px_Skyhook pkg)) = (node', true).
Proof.
  unfold record_pod_erroring, shouldRecordPodErroring. destruct (node_State _) as [st| |] eqn:E; try done.
  cbn [rwrap rbind]. apply New_reads in E.
  assert (Hns : node_ns (px_Skyhook pkg) node = default ∅ st) by apply E. cbv zeta. rewrite Hns.
  destruct (entryOpenAtStage _ pkg) eqn:Eo; [|done]. cbn [negb]. intros Hw%Ok_inj.
  apply entry_open in Eo as (s & H1 & H2 & H3). exists s. done.
Qed.

Lemma write_erroring_reads skyhook pkg r ns n node' : reads skyhook ns n -> write_erroring pkg r n = (node', true) ->
  reads skyhook (<[px_UniqueName pkg := recorded pkg StateErroring (px_Stage pkg) r]> ns) (NewSkyhookNodeOnly node' skyhook).
Proof.
  intros Hr [= <- _]. apply reads_node, SetStatus_reads; [done|]. by apply Upsert_reads.
Qed.

Lemma SetStatus_annotation st n : st <> StatusComplete ->
  annotations (SetStatus_only st n) !! statusKey n = Some (status_string st).
Proof.
  intros Hst. unfold SetStatus_only. rewrite bool_decide_eq_false_2 by done.
  destruct (annotations n !! statusKey n) as [s|] eqn:E; [case_bool_decide as Hs; simpl; [by rewrite E, Hs|]|];
    unfold annotations; simpl; apply lookup_insert_eq.
Qed.

(** The second write of the same failure changes nothing. *)
Lemma write_erroring_again skyhook pkg r ns n node' : reads skyhook ns n -> write_erroring pkg r n = (node', true) ->
  write_erroring pkg r (NewSkyhookNodeOnly node' skyhook) = (node', false).
Proof.
  intros Hr Hw. pose proof (write_erroring_reads _ _ _ _ _ _ Hr Hw) as Hr'.
  assert (Hst : n_Annotations node' !! node_key "status" skyhook = Some (status_string StatusErroring)).
  { injection Hw as <- _. destruct (Upsert_reads _ _ _ (px_Ref pkg) (px_Image pkg) StateErroring (px_Stage pkg) r
      (px_ContainerSHA pkg) Hr) as (_ & _ & <-). by apply SetStatus_annotation. }
  remember (NewSkyhookNodeOnly node' skyhook) as m eqn:Hm.
  assert (Hnode : sn_Node m = node' /\ sn_updated m = false).
  { subst m. unfold NewSkyhookNodeOnly. by repeat case_match. }
  destruct Hr' as (_ & Hc & Hn), Hnode as [Hnode Hup]. unfold write_erroring, Upsert_only, Upsert. rewrite Hc.
  change (GetUniqueName (px_Ref pkg)) with (px_UniqueName pkg). rewrite lookup_insert_eq.
  assert (E : forall s, PackageStatus_Equal s s = true) by (intros; by apply PackageStatus_Equal_spec).
  rewrite E. cbn [fst]. unfold SetStatus_only, annotations, statusKey. cbn [set_sn_nodeState sn_Node sn_skyhookName].
  rewrite Hn, Hnode, Hst, (bool_decide_eq_false_2 (StatusErroring = StatusComplete)) by done.
  rewrite (bool_decide_eq_true_2 (_ = status_string StatusErroring)) by done. cbn. by rewrite Hnode, Hup.
Qed.

Lemma erroring_unrecorded job pkg ns node stage r :
  reads (px_Skyhook pkg) ns (NewSkyhookNodeOnly node (px_Skyhook pkg)) ->
  ns !! px_UniqueName pkg = Some (recorded pkg StateErroring stage r) ->
  record_job_erroring job pkg node = Ok (node, false).
Proof.
  intros Hr Hs. unfold record_job_erroring. destruct (reads_State _ _ _ Hr) as (st & Hst & Hd).
  rewrite Hst. cbn [rwrap rbind]. rewrite Hd, Hs. cbn [recorded ps_State].
  by rewrite (bool_decide_eq_true_2 (StateErroring = StateErroring)), orb_true_r.
Qed.

(* ------------------------------------------------------------------ *)
(** ** Lemmas: reconciles *)

(** No package, no node or no genuine failure. *)
Definition nothing_to_record (env : job_env) (job : Job) : Prop :=
  GetPackage (job_Annotations job) = Ok None \/ je_node env (job_NodeName job) = Ok None \/
  exists reason, jobFailure job = Some reason /\ jobFailureIsGenuine env job reason = Ok false.

Definition outcome_write (env : job_env) (job : Job) (pkg : PackageSkyhook) : outcome :=
  patchNodeState (if hasJobCondition job "Complete" then record_completion env job pkg else record_job_erroring job pkg)
    (job_NodeName job) (je_attempts env).

(** The node was written first, and the write went through. *)
Definition outcome_recorded (env : job_env) (job : Job) (effects : list effect) (ttl : Z) : Prop :=
  exists pkg, GetPackage (job_Annotations job) = Ok (Some pkg) /\
    (forall e, outcome_write env job pkg <> Failed e) /\
    effects = [WriteNode (outcome_write env job pkg); MarkProcessed ttl].

Definition marks_ok (env : job_env) (job : Job) (effects : list effect) (r : res Z) : Prop :=
  (effects = [] /\ is_ok r = false) \/
  (exists ttl, effects = [MarkProcessed ttl] /\ nothing_to_record env job) \/
  (exists ttl, outcome_recorded env job effects ttl) \/
  (exists e, effects = [WriteNode (Failed e)] /\ is_ok r = false).

Lemma marks_ok_spec env job effects r : marks_ok env job effects r ->
  (forall ttl, MarkProcessed ttl ∈ effects -> nothing_to_record env job \/ outcome_recorded env job effects ttl) /\
  (forall e, WriteNode (Failed e) ∈ effects -> is_ok r = false /\ forall ttl, MarkProcessed ttl ∉ effects).
Proof.
  intros [[-> Hr]|[(ttl & -> & Hn)|[(ttl & pkg & Hp & Ho & ->)|(e & -> & Hr)]]]; split.
  1,2: by intros ? ?%elem_of_nil.
  - by left.
  - by intros e ?%list_elem_of_singleton.
  - intros ttl' Ht. right. exists pkg. apply elem_of_cons in Ht as [[=]|Ht%list_elem_of_singleton].
    injection Ht as ->. done.
  - intros e He. apply elem_of_cons in He as [[= He]|He%list_elem_of_singleton]; [by rewrite <- He in Ho; destruct (Ho e)|done].
  - by intros ttl ?%list_elem_of_singleton.
  - intros e' _. split; [done|]. by intros ttl ?%list_elem_of_singleton.
Qed.

(** The write of the node, then the mark when there was no error. *)
Lemma record_then_mark env job pkg mutate ttl (w : res unit -> res unit) effects r :
  GetPackage (job_Annotations job) = Ok (Some pkg) ->
  mutate = (if hasJobCondition job "Complete" then record_completion env job pkg else record_job_erroring job pkg) ->
  (forall x, is_ok (w x) = is_ok x) ->
  and_then ((patch_node env (job_NodeName job) mutate).1, w (patch_node env (job_NodeName job) mutate).2)
    (markJobProcessed env job ttl) = (effects, r) ->
  marks_ok env job effects r.
Proof.
  intros Hp -> Hw. unfold patch_node. fold (outcome_write env job pkg). cbn [fst snd]. unfold and_then. cbn [fst snd].
  pose proof (Hw (match outcome_write env job pkg with Failed e => Err e | _ => Ok tt end)) as Hok. unfold marks_ok.
  destruct (w _) as [u|e|]; intros [= <- <-].
  - right; right; left. exists ttl, pkg. split_and!; [done| |done]. intros e E. rewrite E in Hok. done.
  - right; right; right. destruct (outcome_write env job pkg) as [| | |e0]; try done. by exists e0.
  - right; right; right. destruct (outcome_write env job pkg) as [| | |e0]; try done. by exists e0.
Qed.

Lemma on_package_and_node_marks env job ttl k effects r :
  (forall pkg, GetPackage (job_Annotations job) = Ok (Some pkg) -> k pkg = (effects, r) -> marks_ok env job effects r) ->
  on_package_and_node env job (markJobProcessed env job ttl) k = (effects, r) -> marks_ok env job effects r.
Proof.
  intros Hk. unfold on_package_and_node, failed. assert (He : forall r, is_ok r = false -> marks_ok env job [] r) by by left.
  destruct (GetPackage (job_Annotations job)) as [[pkg|]|e|] eqn:Hp; cbn [rwrap].
  3,4: intros [= <- <-]; by apply He.
  - destruct (je_node env (job_NodeName job)) as [[n|]|e|] eqn:Hn; cbn [rwrap].
    3,4: intros [= <- <-]; by apply He.
    + by apply Hk.
    + intros [= <- _]. right; left. exists ttl. split; [done|]. right; by left.
  - intros [= <- _]. right; left. exists ttl. split; [done|]. by left.
Qed.

Lemma handleCompleteJob_marks opts env job effects r : hasJobCondition job "Complete" = true ->
  handleCompleteJob opts env job = (effects, r) -> marks_ok env job effects r.
Proof.
  intros Hc. apply on_package_and_node_marks. intros pkg Hp.
  apply (record_then_mark env job pkg (record_completion env job pkg) _ id); [done|by rewrite Hc|done].
Qed.

Lemma is_ok_rwrap {A} fmt args (x : res A) : is_ok (rwrap fmt args x) = is_ok x.
Proof. by destruct x. Qed.

Lemma handleFailedJob_marks opts env job reason effects r :
  hasJobCondition job "Complete" = false -> jobFailure job = Some reason ->
  handleFailedJob opts env job reason = (effects, r) -> marks_ok env job effects r.
Proof.
  intros Hc Hf. unfold handleFailedJob, failed. destruct (jobFailureIsGenuine env job reason) as [[]|e|] eqn:Hg; cbn [rwrap].
  3,4: intros [= <- <-]; by left.
  - apply on_package_and_node_marks. intros pkg Hp. unfold recordJobErroring.
    apply (record_then_mark env job pkg (record_job_erroring job pkg)); [done|by rewrite Hc|].
    intros x. apply is_ok_rwrap.
  - intros [= <- _]. right; left. exists (JobTTLFailed opts). split; [done|]. right; right. by exists reason.
Qed.

Lemma delete_pods_only env pods x : x ∈ delete_pods env pods -> exists pod, pod ∈ pods /\ x = DeletePod (pod_Name pod).
Proof.
  induction pods as [|pod pods IH]; cbn [delete_pods]; [by intros ?%elem_of_nil|].
  intros [->|H]%elem_of_cons; [exists pod; split; [by left|done]|].
  destruct (je_delete_pod env (pod_Name pod)); [|by apply elem_of_nil in H..].
  destruct (IH H) as (q & Hq & ->). exists q. split; [by right|done].
Qed.

(** Neither the node nor the mark. *)
Definition quiet (x : effect) : Prop := match x with MarkProcessed _ | WriteNode _ => False | _ => True end.

Lemma prune_quiet env job x : x ∈ pruneFailedAttempts env job -> quiet x.
Proof.
  unfold pruneFailedAttempts. destruct (childPods env job); [|by intros ?%elem_of_nil..].
  by intros (pod & _ & ->)%delete_pods_only.
Qed.

Lemma snapshot_quiet env job x : x ∈ snapshotFailureLogs env job -> quiet x.
Proof.
  unfold snapshotFailureLogs. repeat case_match; try (by intros ?%elem_of_nil); by intros ->%list_elem_of_singleton.
Qed.

Lemma stale_effects env job effects r : recordStaleFailureTarget env job = (effects, r) ->
  (forall ttl, MarkProcessed ttl ∉ effects) /\ forall e, WriteNode (Failed e) ∈ effects -> is_ok r = false.
Proof.
  unfold recordStaleFailureTarget, recordJobErroring, patch_node.
  destruct (GetPackage (job_Annotations job)) as [[pkg|]|e|]; cbn [rwrap]; intros [= <- <-];
    (split; [intros ttl H|intros e' H]); try (by apply elem_of_nil in H); apply list_elem_of_singleton in H; [done|].
  injection H as <-. done.
Qed.

Lemma handleActiveJob_marks env job effects r : handleActiveJob env job = (effects, r) ->
  (forall ttl, MarkProcessed ttl ∉ effects) /\ forall e, WriteNode (Failed e) ∈ effects -> is_ok r = false.
Proof.
  pose proof (prune_quiet env job) as Hprune. pose proof (snapshot_quiet env job) as Hlogs.
  unfold handleActiveJob. set (prune := pruneFailedAttempts env job) in *. set (logs := snapshotFailureLogs env job) in *.
  destruct (hasJobCondition job "FailureTarget"); [destruct (failureTargetStale _ _)|].
  - destruct (recordStaleFailureTarget env job) as [w res] eqn:Hw. apply stale_effects in Hw as [Hw1 Hw2].
    unfold and_then. cbn [fst snd]. intros H.
    assert (Hin : (forall x, x ∈ effects -> x ∈ logs \/ x ∈ w \/ x ∈ prune) /\ (is_ok res = false -> is_ok r = false)).
    { destruct res; cbn [rwrap] in H; injection H as <- <-; (split; [|done]); intros x; rewrite !elem_of_app; tauto. }
    destruct Hin as [Hin Hok]. split.
    + intros ttl [Hx%Hlogs|[Hx%Hw1|Hx%Hprune]]%Hin; done.
    + intros e [Hx%Hlogs|[Hx%Hw2|Hx%Hprune]]%Hin; [done|auto|done].
  - intros [= <- _]. split; [intros ttl|intros e]; intros [Hx%Hlogs|Hx%Hprune]%elem_of_app; done.
  - intros [= <- _]. split; [intros ttl|intros e]; intros Hx%Hprune; done.
Qed.

(* ------------------------------------------------------------------ *)
(** ** Lemmas: failed attempts *)

#[export] Instance attempt_le_total : Total attempt_le.
Proof.
  intros a b. unfold attempt_le. 
  destruct (Z.lt_trichotomy (pod_CreationTimestamp a) (pod_CreationTimestamp b)) as [?|[?|?]];
    [tauto| |tauto]. destruct (total str_le (pod_Name a) (pod_Name b)); [left|right]; right; by split.
Qed.

#[export] Instance attempt_le_trans : Transitive attempt_le.
Proof.
  intros a b c [H1|[H1 H1']] [H2|[H2 H2']]; unfold attempt_le; [lia|lia|lia|].
  right. split; [lia|by etrans].
Qed.

(** What is pruned lies between the two attempts that stay. *)
Lemma prunable_between pods :
  prunable pods = [] \/ exists first last,
    failed_attempts pods ≡ₚ first :: prunable pods ++ [last] /\
    forall p, p ∈ prunable pods -> attempt_le first p /\ attempt_le p last.
Proof.
  unfold prunable. destruct (Z.leb_spec (zlen (failed_attempts pods)) 2); [by left|]. right.
  pose proof (merge_sort_Permutation attempt_le (failed_attempts pods)) as HP.
  pose proof (StronglySorted_merge_sort attempt_le (failed_attempts pods)) as HS.
  destruct (merge_sort attempt_le (failed_attempts pods)) as [|first rest] eqn:E; [exfalso|].
  { apply Permutation_length in HP. unfold zlen in *. simpl in HP. lia. }
  destruct (exists_last (l := rest)) as (mid & last & ->).
  { intros ->. apply Permutation_length in HP. unfold zlen in *. simpl in HP. lia. }
  cbn [tail]. rewrite removelast_last. exists first, last. split; [by rewrite <- HP|].
  apply StronglySorted_inv in HS as [HS Hall]. intros p Hp. split.
  - eapply Forall_forall in Hall; [done|]. apply elem_of_app. by left.
  - apply StronglySorted_app in HS as (HS & _). apply HS; [done|by left].
Qed.

Lemma elem_of_failed_attempts pods p :
  p ∈ failed_attempts pods <-> p ∈ pods /\ podFailedGenuinely p = true /\ pod_Deleted p = false.
Proof.
  unfold failed_attempts. rewrite elem_of_filterb, andb_true_iff, negb_true_iff. done.
Qed.

(** The effects delete the pod of that name. *)
Definition deletes (effects : list effect) (name : string) : bool :=
  any (fun x => match x with DeletePod n => bool_decide (n = name) | _ => false end) effects.

Lemma deletes_spec effects name : deletes effects name = true <-> DeletePod name ∈ effects.
Proof.
  unfold deletes. rewrite any_true. split; [|intros H; exists (DeletePod name); by rewrite bool_decide_eq_true_2].
  intros (x & Hx & Hn). destruct x; try done. by apply bool_decide_eq_true in Hn as <-.
Qed.

Lemma elem_of_pruned env job pods p : je_pods env = Ok pods -> NoDup (map pod_Name pods) -> p ∈ pods ->
  deletes (pruneFailedAttempts env job) (pod_Name p) = true -> p ∈ prunable pods.
Proof.
  intros Hpods Hnd Hp. rewrite deletes_spec. unfold pruneFailedAttempts, childPods. rewrite Hpods. cbn [rwrap].
  intros (q & Hq & [= Hn])%delete_pods_only. assert (p = q) as ->; [|done].
  assert (Hin : q ∈ pods).
  { destruct (prunable_between pods) as [E|(f & l & HP & _)]; [by rewrite E in Hq; apply elem_of_nil in Hq|].
    assert (H : q ∈ failed_attempts pods) by (rewrite HP; apply elem_of_cons; right; apply elem_of_app; by left).
    by apply elem_of_failed_attempts in H as [H _]. }
  by apply (NoDup_map_inj pod_Name pods).
Qed.

(* ------------------------------------------------------------------ *)
(** ** Properties *)

(** C16: The completion of a stage is recorded once and touches nothing else:
    it is written only onto an entry that is present, at the Job's stage and
    not complete; it leaves that entry complete (or, at the end of an
    uninstall, removed or at the uninstall interrupt), it changes no other
    entry except that the end of an upgrade removes every other version of the
    same package; and when the event is served again, whatever the resource is by
    then, nothing more is written. *)
Theorem completion_recorded_once env job pkg node node' :
  isInterruptJob job = false ->
  succeededContainerName env <> InterruptContainerName ->
  record_completion env job pkg node = Ok (node', true) ->
  let ns := node_ns (px_Skyhook pkg) node in
  let ns' := node_ns (px_Skyhook pkg) node' in
  (exists s, ns !! px_UniqueName pkg = Some s /\ ps_Stage s = px_Stage pkg /\ ps_State s <> StateComplete) /\
  completed_as job pkg ns ns' /\
  (px_Stage pkg = StageUpgrade -> well_keyed ns -> forall k, only_version pkg ns' k) /\
  (forall env', record_completion env' job pkg node' = Ok (node', false)).
Proof.
  intros Hi Hc Hrec ns ns'. destruct (record_completion_inv _ _ _ _ _ Hrec) as (n & updated & Hs & Hh & Hend).
  destruct (shouldRecord_reads _ _ _ _ Hs) as [Hr Hopen]. specialize (Hopen Hi). fold ns in Hr, Hopen.
  unfold container_of in Hh. rewrite Hi in Hh.
  destruct (HandleCompletePod_reads _ _ _ _ _ _ _ Hc Hr Hh) as (ns1 & Hr1 & Hst).
  destruct (stage_end_completed job pkg updated ns ns1 (eq_sym Hopen) Hst) as (H1 & H2 & H3).
  pose proof (Hend _ Hr1) as Hfinal. assert (Hns : ns' = _) by apply Hfinal.
  rewrite Hns. split; [by apply entry_open|]. split; [exact H1|].
  split; [exact H3|]. intros env'. by eapply closed_unrecorded.
Qed.

(** The completion of an interrupt creates and removes no entry: each is
    kept, or was skipped at the interrupt stage and is now complete there, or
    is the Job's own open entry, now complete.  Every skipped package of the
    specification is promoted, and the Job's own entry is closed. *)
Theorem interrupt_completion env job pkg node node' cr :
  isInterruptJob job = true ->
  je_skyhook env (px_Skyhook pkg) = Ok (Some cr) ->
  let ns := node_ns (px_Skyhook pkg) node in
  let ns' := node_ns (px_Skyhook pkg) node' in
  skipped_current (sp_Packages (Spec cr)) ns ->
  record_completion env job pkg node = Ok (node', true) ->
  entryOpenAtStage ns' pkg = false /\
  (forall k, k <> px_UniqueName pkg -> ns' !! k = promote (sp_Packages (Spec cr)) <$> ns !! k) /\
  (ns' !! px_UniqueName pkg = promote (sp_Packages (Spec cr)) <$> ns !! px_UniqueName pkg \/
   (exists s, ns !! px_UniqueName pkg = Some s /\ ps_Stage s = px_Stage pkg /\
      ns' !! px_UniqueName pkg = Some (recorded pkg StateComplete (px_Stage pkg) (job_Failed job)))).
Proof.
  intros Hi Hcr ns ns' Hcur Hrec. destruct (record_completion_inv _ _ _ _ _ Hrec) as (n & updated & Hs & Hh & Hend).
  destruct (shouldRecord_reads _ _ _ _ Hs) as [Hr _]. fold ns in Hr.
  unfold container_of, HandleCompletePod in Hh. rewrite Hi, bool_decide_eq_true_2, Hcr in Hh by done. cbn [rbind] in Hh.
  destruct (Convert _ cr) as [f| |] eqn:Hf; try done. injection Hh as <- <-.
  pose proof (Hend _ (ProgressSkipped_reads _ _ _ _ _ Hr Hf Hcur)) as Hfinal. cbn [negb andb] in Hfinal.
  set (ns1 := promote (sp_Packages (Spec cr)) <$> ns) in *. assert (Hns : ns' = _) by apply Hfinal. rewrite Hns.
  destruct (entryOpenAtStage ns1 pkg) eqn:Ho; (split; [try done; apply complete_closed|split]).
  - intros k Hk. unfold complete_entry. rewrite lookup_insert_ne by done. apply lookup_fmap.
  - right. apply entry_open in Ho as (s & Hsk & Hst & _). unfold ns1 in Hsk. rewrite lookup_fmap in Hsk.
    destruct (ns !! px_UniqueName pkg) as [s0|] eqn:E; [|done]. injection Hsk as <-. exists s0.
    split_and!; [done| |apply lookup_insert_eq]. rewrite <- Hst. unfold promote. by case_match.
  - intros k _. apply lookup_fmap.
  - left. apply lookup_fmap.
Qed.

(** The two recorders of a failure write only onto an entry that is present
    and still at the stage of the Job or pod, and change nothing else of the
    state: a reset entry is not resurrected, a later stage not regressed; a
    Pod's failure does not undo a completion.  Served again, neither writes. *)
Theorem erroring_recorded job pkg restarts node node' r :
  let ns := node_ns (px_Skyhook pkg) node in
  let ns' := node_ns (px_Skyhook pkg) node' in
  (r = job_Failed job /\ record_job_erroring job pkg node = Ok (node', true)) \/
  (r = restarts /\ record_pod_erroring pkg restarts node = Ok (node', true)) ->
  (exists s, ns !! px_UniqueName pkg = Some s /\ ps_Stage s = px_Stage pkg) /\
  ns' = <[px_UniqueName pkg := recorded pkg StateErroring (px_Stage pkg) r]> ns /\
  record_job_erroring job pkg node' = Ok (node', false) /\
  record_pod_erroring pkg r node' = Ok (node', false) /\
  (forall s, record_pod_erroring pkg restarts node = Ok (node', true) -> ns !! px_UniqueName pkg = Some s ->
     ps_State s <> StateComplete).
Proof.
  intros ns ns' H.
  assert (Hw : exists s, reads (px_Skyhook pkg) ns (NewSkyhookNodeOnly node (px_Skyhook pkg)) /\
    ns !! px_UniqueName pkg = Some s /\ ps_Stage s = px_Stage pkg /\
    write_erroring pkg r (NewSkyhookNodeOnly node (px_Skyhook pkg)) = (node', true)).
  { destruct H as [[-> H]|[-> H]]; [by apply record_job_inv|]. apply record_pod_inv in H as (s & ? & ? & ? & _ & ?). eauto. }
  destruct Hw as (s & Hr & Hs & Hst & Hwrite).
  pose proof (write_erroring_reads _ _ _ _ _ _ Hr Hwrite) as Hr'. split; [by exists s|].
  split; [apply Hr'|]. split.
  - eapply erroring_unrecorded; [exact Hr'|]. apply lookup_insert_eq.
  - split.
    { unfold record_pod_erroring, shouldRecordPodErroring. destruct (reads_State _ _ _ Hr') as (st & E & _).
      rewrite E. cbn [rwrap rbind]. case_match; [done|]. by rewrite (write_erroring_again _ _ _ _ _ _ Hr Hwrite). }
    intros s' Hp Hs'. apply record_pod_inv in Hp as (s'' & _ & Hs'' & _ & Hne & _). fold ns in Hs''. congruence.
Qed.

(** C17: A Job is marked as processed only when it is finished, was not marked
    before, and its outcome is on the node: the write of the node went through
    first (it found the entry to write, or found nothing to do), unless there
    is no package, no node, or no genuine failure to record.  When the write
    fails the Job stays unmarked and the error is returned, so the event is
    served again. *)
Theorem JobReconcile_marks opts env job effects r :
  JobReconcile opts env job = (effects, r) ->
  (forall ttl, MarkProcessed ttl ∈ effects ->
     jobProcessed job = false /\ job_Deleted job = false /\ jobFinished job = true /\
     (nothing_to_record env job \/ outcome_recorded env job effects ttl)) /\
  (forall e, WriteNode (Failed e) ∈ effects -> is_ok r = false /\ forall ttl, MarkProcessed ttl ∉ effects) /\
  (job_Deleted job = true -> effects = []) /\
  (jobProcessed job = true -> forall o, WriteNode o ∉ effects).
Proof.
  unfold JobReconcile. destruct (job_Deleted job) eqn:Hdel.
  { intros [= <- <-]. split_and!; [..|done|intros _]; by intros ? ?%elem_of_nil. }
  destruct (IsInvalidPackage _) as [[]|e|]; cbn [rwrap].
  { intros [= <- _]. split_and!; [..|done|intros _]; by intros ? ?%list_elem_of_singleton. }
  2,3: intros [= <- <-]; (split_and!; [..|done|intros _]); by intros ? ?%elem_of_nil.
  destruct (jobProcessed job) eqn:Hp.
  { intros [= <- <-]. split_and!; [..|done|intros _]; by intros ? ?%elem_of_nil. }
  intros H. assert (Hm : jobFinished job = true /\ marks_ok env job effects r \/
    (forall ttl, MarkProcessed ttl ∉ effects) /\ forall e, WriteNode (Failed e) ∈ effects -> is_ok r = false).
  { unfold jobFinished, jobFailedTerminally. destruct (hasJobCondition job "Complete") eqn:Hc.
    - left. split; [done|]. by apply (handleCompleteJob_marks opts).
    - destruct (jobFailure job) as [reason|] eqn:Hf; [left; split; [done|]|right].
      + by apply (handleFailedJob_marks opts env job reason).
      + by apply handleActiveJob_marks in H. }
  destruct Hm as [[Hfin Hm]|[Hm1 Hm2]].
  - destruct (marks_ok_spec _ _ _ _ Hm) as [H1 H2]. split_and!; [|done|done|done]. intros ttl Ht. by split_and!; [..|apply H1].
  - split_and!; [by intros ttl Ht%Hm1|intros e He; split; [by eapply Hm2|done]|done|done].
Qed.

(** Pruning never loses the verdict on a Job: it deletes only genuine
    failures that are not being deleted already, each with an earlier and a
    later one that stay, so that the pods which remain call the Job's failure
    genuine exactly when the pods before did, whatever deletions failed. *)
Theorem prune_keeps_verdict env env' job pods remaining :
  je_pods env = Ok pods -> NoDup (map pod_Name pods) ->
  je_pods env' = Ok remaining ->
  (forall p, p ∈ remaining <-> p ∈ pods /\ deletes (pruneFailedAttempts env job) (pod_Name p) = false) ->
  (forall reason, jobFailureIsGenuine env' job reason = jobFailureIsGenuine env job reason) /\
  (forall p, p ∈ pods -> deletes (pruneFailedAttempts env job) (pod_Name p) = true ->
     podFailedGenuinely p = true /\ pod_Deleted p = false /\
     exists a b, a ∈ failed_attempts remaining /\ b ∈ failed_attempts remaining /\
       pod_Name a <> pod_Name b /\ attempt_le a p /\ attempt_le p b).
Proof.
  intros Hpods Hnd Hpods' Hrem.
  assert (Hpr : forall p, p ∈ pods -> deletes (pruneFailedAttempts env job) (pod_Name p) = true ->
     podFailedGenuinely p = true /\ pod_Deleted p = false /\
     exists a b, a ∈ failed_attempts remaining /\ b ∈ failed_attempts remaining /\
       pod_Name a <> pod_Name b /\ attempt_le a p /\ attempt_le p b).
  { intros p Hp Hdel. pose proof (elem_of_pruned env job pods p Hpods Hnd Hp Hdel) as Hpp.
    destruct (prunable_between pods) as [E|(a & b & HP & Hle)]; [by rewrite E in Hpp; apply elem_of_nil in Hpp|].
    assert (Hfa : forall q, q ∈ a :: prunable pods ++ [b] -> q ∈ failed_attempts pods) by (intros q; by rewrite HP).
    destruct (Hle p Hpp). assert (Hpf : p ∈ failed_attempts pods).
    { apply Hfa, elem_of_cons. right. apply elem_of_app. by left. }
    apply elem_of_failed_attempts in Hpf as (_ & Hg & Hd). split_and!; [done|done|]. exists a, b.
    assert (Hndf : NoDup (map pod_Name (a :: prunable pods ++ [b]))).
    { assert (H3 : map pod_Name (failed_attempts pods) ≡ₚ map pod_Name (a :: prunable pods ++ [b])) by (by rewrite HP).
      rewrite <- H3. by apply NoDup_map_filter. }
    assert (Hout : a ∉ prunable pods /\ b ∉ prunable pods /\ pod_Name a <> pod_Name b).
    { by apply NoDup_ends in Hndf. }
    destruct Hout as (Ha & Hb & Hne).
    assert (Hstay : forall q, q ∈ failed_attempts pods -> q ∉ prunable pods -> q ∈ failed_attempts remaining).
    { intros q (Hq1 & Hq2 & Hq3)%elem_of_failed_attempts Hq. apply elem_of_failed_attempts. split_and!; [|done|done].
      apply Hrem. split; [done|]. apply not_true_iff_false. intros Hx. by apply Hq, (elem_of_pruned env job). }
    split_and!; [apply Hstay; [apply Hfa; by left|done]|apply Hstay; [|done]|done|done|done].
    apply Hfa, elem_of_cons. right. apply elem_of_app. right. by left. }
  split; [|done]. intros reason. unfold jobFailureIsGenuine, childPods. rewrite Hpods, Hpods'. cbn [rwrap rbind].
  case_bool_decide; [|done]. cbn [negb].
  enough (E : any podFailedGenuinely remaining = any podFailedGenuinely pods) by (by rewrite E). apply eq_true_iff_eq. rewrite !any_true. split.
  - intros (p & Hp%Hrem & Hg). exists p. naive_solver.
  - intros (p & Hp & Hg). destruct (deletes (pruneFailedAttempts env job) (pod_Name p)) eqn:Hd.
    + destruct (Hpr p Hp Hd) as (_ & _ & a & _ & Ha & _). apply elem_of_failed_attempts in Ha as (? & ? & _). by exists a.
    + exists p. split; [by apply Hrem|done].
Qed.

End Jobs.

(* ------------------------------------------------------------------ *)
(** ** Witnesses *)

Section Witnesses.
#[local] Existing Instance braced_json.
#[local] Existing Instance merge_strings.

Lemma Upsert_updates skyhook ns n p image state stage restarts sha : reads skyhook ns n ->
  (Upsert ns p image state stage restarts sha).1 <> ns ->
  sn_updated (Upsert_only p image state stage restarts sha n).1 = true.
Proof.
  intros (Hs & Hc & _) Hne. unfold Upsert_only. rewrite Hc.
  destruct (Upsert ns p image state stage restarts sha) as [ns2 ch] eqn:E. cbn [fst] in Hne.
  destruct ch; [|exfalso; apply Hne; unfold Upsert in E; repeat case_match; congruence].
  cbn [fst]. unfold SetState. change (annotations (set_sn_nodeState _ n)) with (annotations n).
  change (nodeStateKey (set_sn_nodeState _ n)) with (nodeStateKey n).
  destruct (annotations n !! nodeStateKey n) as [s|] eqn:Ea; [|done].
  case_bool_decide as Ht; [|done]. exfalso. apply Hne.
  unfold in_sync, node_State in Hs. cbn [sn_nodeState set_sn_nodeState] in Hs.
  change (annotations (set_sn_nodeState _ n)) with (annotations n) in Hs.
  change (nodeStateKey (set_sn_nodeState _ n)) with (nodeStateKey n) in Hs.
  rewrite Ea, Ht, json_roundtrip in Hs. cbn [rwrap] in Hs. injection Hs as Hs.
  unfold cached in Hc. rewrite <- Hs in Hc. done.
Qed.

Lemma record_writes env job pkg node n ns1 :
  shouldRecordCompletion job pkg node = Ok true ->
  HandleCompletePod env (NewSkyhookNodeOnly node (px_Skyhook pkg)) pkg (container_of env job) = Ok (n, false) ->
  reads (px_Skyhook pkg) ns1 n -> entryOpenAtStage ns1 pkg = true ->
  exists node', record_completion env job pkg node = Ok (node', true).
Proof.
  intros Hs Hh Hr Ho. unfold record_completion. rewrite Hs. cbn [rbind negb]. fold (container_of env job). rewrite Hh.
  cbn [rwrap rbind]. destruct (reads_State _ _ _ Hr) as (st & -> & Hd). cbn [rwrap rbind]. rewrite Hd, Ho. cbn [negb andb].
  eexists. rewrite (Upsert_updates _ _ _ _ _ _ _ _ _ Hr); [done|]. rewrite Upsert_lookup. intros E.
  apply entry_open in Ho as (s & Hsu & _ & Hne). rewrite <- E in Hsu. unfold px_UniqueName in Hsu.
  rewrite lookup_insert_eq in Hsu. injection Hsu as <-. done.
Qed.

Lemma with_state_reads ns : reads "tuning" ns (NewSkyhookNodeOnly (with_state ns) "tuning").
Proof.
  assert (E : node_State {| sn_Node := with_state ns; sn_skyhookName := "tuning"; sn_nodeState := None; sn_updated := false |}
              = Ok (Some ns)).
  { unfold node_State, annotations. cbn [sn_nodeState sn_Node]. unfold nodeStateKey. cbn [sn_skyhookName].
    unfold with_state, nodeStateAnnotationKey. cbn [set_n_Annotations n_Annotations].
    rewrite lookup_singleton_eq, json_roundtrip. done. }
  apply (New_reads _ _ (Some ns)). unfold NewSkyhookNodeOnly. rewrite E. done.
Qed.

Definition driver (stage : Stage) : PackageSkyhook :=
  {| px_Ref := {| ref_Name := "driver"; ref_Version := "1" |}; px_Skyhook := "tuning"; px_Stage := stage; px_Image := "img";
     px_ContainerSHA := ""; px_Invalid := false |}.

Definition completed_job (labels : gmap string string) : Job :=
  {| job_Name := "driver-apply"; job_Labels := labels; job_Annotations := ∅; job_Deleted := false; job_NodeName := "node-1";
     job_Conditions := [{| jc_Type := "Complete"; jc_Status := "True"; jc_Reason := ""; jc_LastTransitionTime := 0 |}];
     job_Failed := 0 |}.

Definition answers (cr : option NodeWright) (pods : list Pod) : job_env :=
  {| je_now := 0; je_skyhook := fun _ => Ok cr; je_node := fun _ => Ok (Some (bare_node "node-1")); je_pods := Ok pods;
     je_attempts := []; je_logs := fun _ _ => Ok ""; je_delete_job := Ok tt; je_delete_pod := fun _ => Ok tt; je_mark := Ok tt |}.

Lemma shouldRecord_with_state job pkg ns : px_Skyhook pkg = "tuning" -> entryOpenAtStage ns pkg = true ->
  shouldRecordCompletion job pkg (with_state ns) = Ok true.
Proof.
  intros Hp Ho. unfold shouldRecordCompletion. rewrite Hp. destruct (reads_State _ _ _ (with_state_reads ns)) as (st & -> & Hd).
  cbn [rwrap rbind]. rewrite Hd, Ho. by case_match.
Qed.

Lemma apply_ends env n c : c <> InterruptContainerName -> HandleCompletePod env n (driver StageApply) c = Ok (n, false).
Proof. intros Hc. unfold HandleCompletePod. by rewrite !bool_decide_eq_false_2 by done. Qed.

Lemma not_an_interrupt : container_of (answers None []) (completed_job ∅) <> InterruptContainerName.
Proof. vm_compute. discriminate. Qed.

Lemma completion_recorded_once_witness : exists node',
  record_completion (answers None []) (completed_job ∅) (driver StageApply) (with_state running) = Ok (node', true) /\
  record_completion (answers None []) (completed_job ∅) (driver StageApply) node' = Ok (node', false).
Proof.
  assert (Ho : entryOpenAtStage running (driver StageApply) = true) by (vm_compute; reflexivity).
  destruct (record_writes (answers None []) (completed_job ∅) (driver StageApply) (with_state running) _ running
              (shouldRecord_with_state _ (driver StageApply) running eq_refl Ho) (apply_ends _ _ _ not_an_interrupt) (with_state_reads running) Ho)
    as [node' H].
  exists node'. split; [exact H|].
  destruct (completion_recorded_once (answers None []) (completed_job ∅) (driver StageApply) (with_state running) node')
    as (_ & _ & _ & Hagain); [vm_compute; reflexivity|vm_compute; discriminate|exact H|]. apply Hagain.
Defined.

(** An interrupt that completes while a second package waits for it. *)
Definition waiting : NodeState :=
  <["tools|1" := {| ps_Name := "tools"; ps_Version := "1"; ps_Image := "img"; ps_Stage := StageInterrupt;
                    ps_State := StateSkipped; ps_Restarts := 0; ps_ContainerSHA := "" |}]>
  {["driver|1" := entry "1" StateInProgress StageInterrupt]}.

Definition two_packages : Packages := <["tools" := plain_package "tools" "1" ∅]> {["driver" := plain_package "driver" "1" ∅]}.

Definition tuning : NodeWright := plain_nodewright "tuning" (plain_spec two_packages) empty_status.

Definition interrupt_labels : gmap string string := {[interruptLabel := interruptLabelValue]}.

Lemma two_packages_lookup k f : two_packages !! k = Some f -> f = plain_package k "1" ∅.
Proof.
  unfold two_packages. intros [[<- <-]|[_ H]]%lookup_insert_Some; [done|].
  by apply lookup_singleton_Some in H as [<- <-].
Qed.

Lemma waiting_current : skipped_current two_packages waiting.
Proof.
  intros k s f Hk Hf%two_packages_lookup Hs. subst f. unfold waiting in Hk.
  apply lookup_insert_Some in Hk as [[<- <-]|[_ Hk]]; [done|].
  apply lookup_singleton_Some in Hk as [<- <-]. done.
Qed.

Lemma interrupt_promotes : exists n,
  HandleCompletePod (answers (Some tuning) []) (NewSkyhookNodeOnly (with_state waiting) "tuning") (driver StageInterrupt)
    InterruptContainerName = Ok (n, false) /\
  reads "tuning" (promote two_packages <$> waiting) n.
Proof.
  set (n := NewSkyhookNodeOnly (with_state waiting) "tuning").
  assert (Hr : reads "tuning" waiting n) by apply with_state_reads. clearbody n.
  unfold HandleCompletePod. rewrite bool_decide_eq_true_2 by done. cbn [answers je_skyhook rbind].
  destruct (BuildGraph (Spec tuning)) as [g| |] eqn:E; try (vm_compute in E; discriminate E).
  destruct (Convert n tuning) as [f| |] eqn:Hf; try (unfold Convert in Hf; rewrite E in Hf; discriminate Hf).
  cbn [rwrap rbind]. eexists. split; [reflexivity|]. exact (ProgressSkipped_reads _ _ _ _ _ Hr Hf waiting_current).
Qed.

Lemma interrupt_completion_witness : exists node',
  record_completion (answers (Some tuning) []) (completed_job interrupt_labels) (driver StageInterrupt) (with_state waiting) =
    Ok (node', true) /\
  option_map ps_State (node_ns "tuning" node' !! "tools|1") = Some StateComplete.
Proof.
  assert (Ho : entryOpenAtStage waiting (driver StageInterrupt) = true) by (vm_compute; reflexivity).
  assert (Ho' : entryOpenAtStage (promote two_packages <$> waiting) (driver StageInterrupt) = true) by (vm_compute; reflexivity).
  destruct interrupt_promotes as (n & Hh & Hr).
  destruct (record_writes (answers (Some tuning) []) (completed_job interrupt_labels) (driver StageInterrupt) (with_state waiting)
              n _ (shouldRecord_with_state _ (driver StageInterrupt) waiting eq_refl Ho) Hh Hr Ho') as [node' H].
  exists node'. split; [exact H|].
  assert (Hns : node_ns "tuning" (with_state waiting) = waiting) by apply with_state_reads.
  destruct (interrupt_completion (answers (Some tuning) []) (completed_job interrupt_labels) (driver StageInterrupt)
              (with_state waiting) node' tuning) as (_ & Hk & _).
  - vm_compute. reflexivity.
  - reflexivity.
  - change (px_Skyhook (driver StageInterrupt)) with "tuning". rewrite Hns. exact waiting_current.
  - exact H.
  - change (px_Skyhook (driver StageInterrupt)) with "tuning" in Hk. rewrite Hns in Hk.
    rewrite Hk by discriminate. vm_compute. reflexivity.
Defined.

Lemma SetStatus_updated st n : st <> StatusComplete -> sn_updated n = true -> sn_updated (SetStatus_only st n) = true.
Proof. intros Hst Hn. unfold SetStatus_only. rewrite bool_decide_eq_false_2 by done. by repeat case_match. Qed.

Lemma erroring_recorded_witness : exists node',
  record_job_erroring (completed_job ∅) (driver StageApply) (with_state running) = Ok (node', true) /\
  record_job_erroring (completed_job ∅) (driver StageApply) node' = Ok (node', false).
Proof.
  assert (H : exists node', record_job_erroring (completed_job ∅) (driver StageApply) (with_state running) = Ok (node', true)).
  { pose proof (with_state_reads running) as Hr. unfold record_job_erroring.
    change (px_Skyhook (driver StageApply)) with "tuning". destruct (reads_State _ _ _ Hr) as (st & -> & Hd).
    cbn [rwrap rbind]. rewrite Hd. replace (running !! px_UniqueName (driver StageApply))
      with (Some (entry "1" StateInProgress StageApply)) by (vm_compute; reflexivity).
    rewrite bool_decide_eq_true_2, bool_decide_eq_false_2 by done. cbn [negb orb].
    eexists. unfold write_erroring. rewrite SetStatus_updated; [reflexivity|done|].
    apply (Upsert_updates _ _ _ _ _ _ _ _ _ Hr). intros E. apply (f_equal (fun m => m !! "driver|1")) in E.
    vm_compute in E. discriminate E. }
  destruct H as [node' H]. exists node'. split; [exact H|].
  destruct (erroring_recorded (completed_job ∅) (driver StageApply) 0 (with_state running) node' 0) as (_ & _ & Hagain & _).
  - left. split; [reflexivity|exact H].
  - exact Hagain.
Defined.

Definition package_code (p : PackageSkyhook) : string * string * string * Stage * string * string * bool :=
  (ref_Name (px_Ref p), ref_Version (px_Ref p), px_Skyhook p, px_Stage p, px_Image p, px_ContainerSHA p, px_Invalid p).

Definition code_package (c : string * string * string * Stage * string * string * bool) : PackageSkyhook :=
  let '(n, v, sk, st, i, sha, inv) := c in
  {| px_Ref := {| ref_Name := n; ref_Version := v |}; px_Skyhook := sk; px_Stage := st; px_Image := i;
     px_ContainerSHA := sha; px_Invalid := inv |}.

#[local] Instance package_text : PackageJSON.
Proof.
  refine {| package_Marshal := fun p => to_text (package_code p);
            package_Unmarshal := fun s => match of_text s with Some c => Ok (Some (code_package c)) | None => Err (errorf "" []) end |}.
  intros [[] ? ? ? ? ?]. by rewrite of_to_text.
Defined.

Definition job_options : JobOperatorOptions := {| JobTTLSucceeded := 60 * second; JobTTLFailed := 3600 * second |}.

(** A completed Job that carries its package. *)
Definition recorded_job : Job :=
  {| job_Name := "driver-apply"; job_Labels := ∅;
     job_Annotations := {[packageAnnotationKey := package_Marshal (driver StageApply)]}; job_Deleted := false;
     job_NodeName := "node-1"; job_Conditions := job_Conditions (completed_job ∅); job_Failed := 0 |}.

Lemma GetPackage_recorded : GetPackage (job_Annotations recorded_job) = Ok (Some (driver StageApply)).
Proof.
  unfold GetPackage, recorded_job. cbn [job_Annotations]. rewrite lookup_singleton_eq, package_roundtrip. done.
Qed.

Lemma JobReconcile_marks_witness : exists ttl,
  JobReconcile job_options (answers None []) recorded_job = ([WriteNode (Failed (errorf "conflict" []))], Err (errorf "conflict" [])) /\
  MarkProcessed ttl ∉ [WriteNode (Failed (errorf "conflict" []))].
Proof.
  exists 0. assert (H : JobReconcile job_options (answers None []) recorded_job =
    ([WriteNode (Failed (errorf "conflict" []))], Err (errorf "conflict" []))).
  { unfold JobReconcile, IsInvalidPackage. cbn [recorded_job job_Deleted]. fold recorded_job.
    rewrite GetPackage_recorded. cbn [rwrap rbind driver px_Invalid].
    replace (jobProcessed recorded_job) with false by reflexivity.
    replace (hasJobCondition recorded_job "Complete") with true by reflexivity.
    unfold handleCompleteJob, on_package_and_node. rewrite GetPackage_recorded. reflexivity. }
  split; [exact H|].
  destruct (JobReconcile_marks job_options (answers None []) recorded_job _ _ H) as (_ & Hf & _).
  apply (Hf (errorf "conflict" [])). apply list_elem_of_singleton. reflexivity.
Defined.

(** Three genuine failures in a row. *)
Definition failed_pod (name : string) (created : Z) : Pod :=
  {| pod_Name := name; pod_Annotations := ∅; pod_Deleted := false; pod_CreationTimestamp := created; pod_NodeName := "node-1";
     pod_Phase := "Failed"; pod_Reason := "DeadlineExceeded"; pod_Conditions := []; pod_InitContainerStatuses := [] |}.

Definition three_attempts : list Pod := [failed_pod "a" 3; failed_pod "b" 1; failed_pod "c" 2].

Lemma prune_keeps_verdict_witness :
  deletes (pruneFailedAttempts (answers None three_attempts) (completed_job ∅)) "c" = true /\
  jobFailureIsGenuine (answers None [failed_pod "a" 3; failed_pod "b" 1]) (completed_job ∅) "BackoffLimitExceeded" = Ok true.
Proof.
  split; [vm_compute; reflexivity|].
  destruct (prune_keeps_verdict (answers None three_attempts) (answers None [failed_pod "a" 3; failed_pod "b" 1])
              (completed_job ∅) three_attempts [failed_pod "a" 3; failed_pod "b" 1]) as [Hv _].
  - reflexivity.
  - apply (bool_decide_unpack _). vm_compute. reflexivity.
  - reflexivity.
  - intros p. unfold three_attempts. rewrite !elem_of_cons, elem_of_nil. split.
    + intros [-> | [-> | []]]; (split; [tauto|vm_compute; reflexivity]).
    + intros [[-> | [-> | [-> | []]]] H]; [tauto|tauto|vm_compute in H; discriminate H].
  - rewrite Hv. vm_compute. reflexivity.
Defined.
End Witnesses.
