(* ===== verification/JobBuilder.v ===== *)
(** * Building and matching the Job of a stage

    Models [operator/internal/controller/job_builder.go] and the helpers of
    [skyhook_controller.go] it calls: names, labels, images, environments,
    resources, the pod of a package stage and of an interrupt, the Job around
    it, and the comparison that decides whether an existing Job is still the one
    the operator would build.

    [resource.Quantity] is its text; whether it is zero and whether two of them
    are the same amount is a parameter ([Quantities]).  Resource claims, which
    the operator never sets, and the constant resources of the main container
    are kept as text. *)

From stdpp Require Import pretty.
From S2P Require Import Prelude Sha256 Graph Float64 DeploymentPolicy Api NodeState Skyhook Text Node Partition Introspect Merge Jobs Options.

#[local] Open Scope Z_scope.

(* ------------------------------------------------------------------ *)
(** ** Names *)

Definition ptr {E} (e : E) : option E := Some e.

(** [strings.ReplaceAll(strings.Join(nameParts, "-"), ".", "-")] *)
Definition plain_name (nameParts : list string) : string := replace_char "." "-" (join "-" nameParts).

Definition uniqueStr (name : string) : string := str_take 8 (EncodeToString (Sum256 name)).

(** Slicing below zero panics; every limit in the source is at least nine. *)
Definition generateSafeName (maxLen : nat) (nameParts : list string) : string :=
  let name := plain_name nameParts in
  let unique := uniqueStr name in
  let maxlen := (maxLen - String.length unique - 1)%nat in
  let name := if (maxlen <? String.length name)%nat then str_take maxlen name else name in
  to_lower (name +:+ "-" +:+ unique).

#[global] Arguments uniqueStr : simpl never.
#[global] Arguments plain_name : simpl never.
#[global] Arguments generateSafeName : simpl never.

Definition trunstr (str : string) (length : nat) : string :=
  if (length <? String.length str)%nat then str_take length str else str.

Definition nodeLabelValue (nodeName : string) : string :=
  if (63 <? String.length nodeName)%nat then generateSafeName 63 [nodeName] else nodeName.

(* ------------------------------------------------------------------ *)
(** ** Durations *)

(** [d.Seconds()] *)
Definition f64_seconds (d : Z) : float64 :=
  SpecFloat.SFadd 53 1024 (f64_of_int (Z.quot d 1000000000))
    (f64_div (f64_of_int (Z.rem d 1000000000)) (f64_of_int 1000000000)).

(** [math.Ceil]: a float with an exponent that is not negative is whole. *)
Definition f64_ceil (f : float64) : float64 :=
  match f with
  | SpecFloat.S754_finite s m e =>
      if e <? 0 then
        let z := if s then - Z.pos m else Z.pos m in
        f64_of_int (- Z.shiftr (- z) (- e))
      else f
  | _ => f
  end.

Definition MaxInt32 : Z := 2147483647.

Definition deadlineSeconds (timeout : Z) : Z :=
  let seconds := f64_ceil (f64_seconds timeout) in
  if SpecFloat.SFltb (f64_of_int MaxInt32) seconds then MaxInt32 else f64_to_int seconds.

Example deadline_of_a_nanosecond : deadlineSeconds 1 = 1.
Proof. by vm_compute. Qed.
Example deadline_of_an_hour : deadlineSeconds 3600000000000 = 3600.
Proof. by vm_compute. Qed.
Example deadline_rounds_up : deadlineSeconds 1500000000 = 2.
Proof. by vm_compute. Qed.
Example deadline_clamped : deadlineSeconds 9223372036854775807 = MaxInt32.
Proof. by vm_compute. Qed.

(* ------------------------------------------------------------------ *)
(** ** Pods and Jobs *)

Class Quantities := {
  quantity_IsZero : Quantity -> bool;
  quantity_Equal : Quantity -> Quantity -> bool;
  quantity_Equal_refl : forall q, quantity_Equal q q = true
}.

(** A nil [ResourceList] is [None]. *)
Record Resources := { res_Limits : option (gmap string Quantity); res_Requests : option (gmap string Quantity) }.

Definition no_resources : Resources := {| res_Limits := None; res_Requests := None |}.

Record VolumeMount := {
  vm_Name : string; vm_MountPath : string; vm_SubPath : string; vm_ReadOnly : bool; vm_HostToContainer : bool
}.

Inductive VolumeSource := HostPath (path : string) | ConfigMapVolume (name : string).

Record Volume := { vol_Name : string; vol_Source : VolumeSource }.

Record Container := {
  c_Name : string; c_Image : string; c_PullAlways : bool; c_Command : list string; c_Args : list string;
  c_Env : list EnvVar; c_Privileged : bool; c_VolumeMounts : list VolumeMount; c_Resources : Resources
}.

Record PodSpec := {
  psp_NodeName : string;
  psp_RestartPolicy : string;
  psp_InitContainers : list Container;
  psp_Containers : list Container;
  psp_Volumes : list Volume;
  psp_HostPID : bool;
  psp_HostNetwork : bool;
  psp_Tolerations : list Toleration;
  psp_ImagePullSecrets : list string;
  psp_TerminationGracePeriodSeconds : option Z;
  psp_ActiveDeadlineSeconds : option Z
}.

Record BuiltPod := {
  bp_Name : string; bp_Namespace : string; bp_Labels : gmap string string;
  bp_Annotations : gmap string string; bp_Spec : PodSpec
}.

Record PodTemplate := { pt_Labels : gmap string string; pt_Annotations : gmap string string; pt_Spec : PodSpec }.

(** The Job of a stage: what the Job controller reads of it ([sj_Job]) and the
    rest of its specification.  [sj_IgnoresDisruptions] is the one rule of its
    pod failure policy, [sj_ReplacesFailed] its pod replacement policy. *)
Record StageJob := {
  sj_Job : Job;
  sj_Namespace : string;
  sj_Parallelism : option Z;
  sj_Completions : option Z;
  sj_ReplacesFailed : bool;
  sj_IgnoresDisruptions : bool;
  sj_BackoffLimit : option Z;
  sj_ActiveDeadlineSeconds : option Z;
  sj_Suspend : option bool;
  sj_Template : PodTemplate
}.

Definition set_psp_RestartPolicy (v : string) (s : PodSpec) : PodSpec :=
  {| psp_NodeName := psp_NodeName s; psp_RestartPolicy := v; psp_InitContainers := psp_InitContainers s;
     psp_Containers := psp_Containers s; psp_Volumes := psp_Volumes s; psp_HostPID := psp_HostPID s;
     psp_HostNetwork := psp_HostNetwork s; psp_Tolerations := psp_Tolerations s;
     psp_ImagePullSecrets := psp_ImagePullSecrets s;
     psp_TerminationGracePeriodSeconds := psp_TerminationGracePeriodSeconds s;
     psp_ActiveDeadlineSeconds := psp_ActiveDeadlineSeconds s |}.
Definition set_psp_ActiveDeadlineSeconds (v : option Z) (s : PodSpec) : PodSpec :=
  {| psp_NodeName := psp_NodeName s; psp_RestartPolicy := psp_RestartPolicy s;
     psp_InitContainers := psp_InitContainers s; psp_Containers := psp_Containers s; psp_Volumes := psp_Volumes s;
     psp_HostPID := psp_HostPID s; psp_HostNetwork := psp_HostNetwork s; psp_Tolerations := psp_Tolerations s;
     psp_ImagePullSecrets := psp_ImagePullSecrets s;
     psp_TerminationGracePeriodSeconds := psp_TerminationGracePeriodSeconds s; psp_ActiveDeadlineSeconds := v |}.

(* ------------------------------------------------------------------ *)
(** ** Labels, images, environments *)

Definition prefixed_key (k : string) : string := METADATA_PREFIX +:+ "/" +:+ k.

Definition package_label (p : Package) : string := pkg_Name p +:+ "-" +:+ pkg_Version p.

Definition jobLabels (skyhook : Skyhook) (p : Package) (stage : Stage) (nodeName : string) (interrupt : bool)
  : gmap string string :=
  let labels : gmap string string :=
    {[ prefixed_key "name" := nw_Name (sk_nw skyhook); prefixed_key "package" := package_label p;
       prefixed_key "stage" := stage_string stage; prefixed_key "node" := nodeLabelValue nodeName;
       prefixed_key "generation" := show_int (nw_Generation (sk_nw skyhook)) ]} in
  if interrupt then <[interruptLabel := interruptLabelValue]> labels else labels.

Definition getAgentImage (opts : SkyhookOperatorOptions) (p : Package) : string :=
  if negb (bool_decide (pkg_AgentImageOverride p = "")) then pkg_AgentImageOverride p else AgentImage opts.

Definition getPackageImage (p : Package) : string :=
  if negb (bool_decide (pkg_ContainerSHA p = "")) then pkg_Image p +:+ "@" +:+ pkg_ContainerSHA p
  else pkg_Image p +:+ ":" +:+ pkg_Version p.

Definition envSkyhookResourceID : string := "SKYHOOK_RESOURCE_ID".
Definition envSkyhookNodeOrder : string := "SKYHOOK_NODE_ORDER".

Definition getAgentConfigEnvVars (opts : SkyhookOperatorOptions)
    (packageName packageVersion resourceID skyhookName : string) (nodeOrder : Z) : list EnvVar :=
  [{| env_Name := "SKYHOOK_LOG_DIR"; env_Value := AgentLogRoot opts +:+ "/" +:+ skyhookName |};
   {| env_Name := "SKYHOOK_ROOT_DIR"; env_Value := CopyDirRoot opts +:+ "/" +:+ skyhookName |};
   {| env_Name := "COPY_RESOLV"; env_Value := "false" |};
   {| env_Name := envSkyhookResourceID; env_Value := resourceID +:+ "_" +:+ packageName +:+ "_" +:+ packageVersion |};
   {| env_Name := envSkyhookNodeOrder; env_Value := show_int nodeOrder |}].

Definition FilterEnv (envs : list EnvVar) (exclude : list string) : list EnvVar :=
  List.filter (fun env => negb (bool_decide (env_Name env ∈ exclude))) envs.

Definition copy_dir (opts : SkyhookOperatorOptions) (skyhook : Skyhook) (p : Package) : string :=
  CopyDirRoot opts +:+ "/" +:+ nw_Name (sk_nw skyhook) +:+ "/" +:+ pkg_Name p +:+ "-" +:+ pkg_Version p +:+ "-" +:+
  nw_UID (sk_nw skyhook) +:+ "-" +:+ show_int (nw_Generation (sk_nw skyhook)).

Definition effectiveStageTimeout (opts : SkyhookOperatorOptions) (p : Package) : Z :=
  match pkg_StageTimeout p with Some d => d | None => JobStageTimeout opts end.

Section JobBuilder.
Context `{MR : MapRange} `{PJ : PackageJSON} `{TS : TaintSyntax} `{QQ : Quantities}.

(* ------------------------------------------------------------------ *)
(** ** Pods *)

Definition root_volume : Volume := {| vol_Name := "root-mount"; vol_Source := HostPath "/" |}.
Definition root_mount : VolumeMount :=
  {| vm_Name := "root-mount"; vm_MountPath := "/root"; vm_SubPath := ""; vm_ReadOnly := false;
     vm_HostToContainer := true |}.

Definition pause_resources : Resources :=
  {| res_Limits := Some {["cpu" := "100m"; "memory" := "20Mi"]};
     res_Requests := Some {["cpu" := "100m"; "memory" := "20Mi"]} |}.
Definition interrupt_resources : Resources :=
  {| res_Limits := Some {["cpu" := "500m"; "memory" := "64Mi"]};
     res_Requests := Some {["cpu" := "500m"; "memory" := "64Mi"]} |}.

Definition pauseContainerName : string := "pause".
Definition doneContainerName : string := "done".
Definition shellBinary : string := "/bin/sh".

Definition pause_container (opts : SkyhookOperatorOptions) : Container :=
  {| c_Name := pauseContainerName; c_Image := PauseImage opts; c_PullAlways := false; c_Command := []; c_Args := [];
     c_Env := []; c_Privileged := false; c_VolumeMounts := []; c_Resources := pause_resources |}.

(** The keys in order, one mount each. *)
Definition config_mounts (p : Package) : list VolumeMount :=
  map (fun key => {| vm_Name := pkg_Name p; vm_MountPath := "/skyhook-package/configmaps/" +:+ key; vm_SubPath := key;
                     vm_ReadOnly := true; vm_HostToContainer := false |})
    (sort_strings (range (pkg_ConfigMap p)).*1).

Definition config_map_name (skyhook : Skyhook) (p : Package) : string :=
  to_lower (nw_Name (sk_nw skyhook) +:+ "-" +:+ pkg_Name p +:+ "-" +:+ pkg_Version p).

Definition metadata_name (skyhook : Skyhook) (nodeName : string) : string :=
  generateSafeName 253 [nw_Name (sk_nw skyhook); nodeName; "metadata"].

Definition pull_secrets (opts : SkyhookOperatorOptions) : list string :=
  if negb (bool_decide (ImagePullSecret opts = "")) then [ImagePullSecret opts] else [].

Definition pod_tolerations (tolerations : list Toleration) (skyhook : Skyhook) : list Toleration :=
  ({| tol_Key := TaintUnschedulable; tol_Operator := TolerationOpExists; tol_Value := ""; tol_Effect := "";
      tol_TolerationSeconds := None |} :: tolerations) ++ AdditionalTolerations (sk_Spec skyhook).

Definition with_resources (r : Resources) (c : Container) : Container :=
  {| c_Name := c_Name c; c_Image := c_Image c; c_PullAlways := c_PullAlways c; c_Command := c_Command c;
     c_Args := c_Args c; c_Env := c_Env c; c_Privileged := c_Privileged c; c_VolumeMounts := c_VolumeMounts c;
     c_Resources := r |}.

Definition setPodResources (res : option ResourceRequirements) (containers : list Container) : list Container :=
  match res with
  | None => containers
  | Some res =>
      if negb (quantity_IsZero (CPURequest res)) || negb (quantity_IsZero (CPULimit res)) ||
         negb (quantity_IsZero (MemoryRequest res)) || negb (quantity_IsZero (MemoryLimit res))
      then map (with_resources {| res_Limits := Some {["cpu" := CPULimit res; "memory" := MemoryLimit res]};
                                  res_Requests := Some {["cpu" := CPURequest res; "memory" := MemoryRequest res]} |})
             containers
      else containers
  end.

Definition stage_container (opts : SkyhookOperatorOptions) (p : Package) (name : string) (args : list string)
    (envs : list EnvVar) (mounts : list VolumeMount) : Container :=
  {| c_Name := name; c_Image := getAgentImage opts p; c_PullAlways := true; c_Command := []; c_Args := args;
     c_Env := envs; c_Privileged := true; c_VolumeMounts := mounts; c_Resources := no_resources |}.

Definition package_containers (opts : SkyhookOperatorOptions) (p : Package) (skyhook : Skyhook) (nodeName : string)
    (stage : Stage) (volumeMounts : list VolumeMount) : list Container :=
  let copyDir := copy_dir opts skyhook p in
  let agentEnvs := pkg_Env p ++ getAgentConfigEnvVars opts (pkg_Name p) (pkg_Version p) (ResourceID skyhook)
                                  (nw_Name (sk_nw skyhook)) (NodeOrder skyhook nodeName) in
  [{| c_Name := trunstr (pkg_Name p) 43 +:+ "-init"; c_Image := getPackageImage p; c_PullAlways := true;
      c_Command := [shellBinary];
      c_Args := ["-c"; "mkdir -p /root/${SKYHOOK_DIR} && cp -r /skyhook-package/* /root/${SKYHOOK_DIR}"];
      c_Env := [{| env_Name := "SKYHOOK_DIR"; env_Value := copyDir |}]; c_Privileged := true;
      c_VolumeMounts := volumeMounts; c_Resources := no_resources |};
   stage_container opts p (trunstr (pkg_Name p) 43 +:+ "-" +:+ stage_string stage)
     [to_lower (stage_string stage); "/root"; copyDir] agentEnvs volumeMounts;
   stage_container opts p (trunstr (pkg_Name p) 43 +:+ "-" +:+ stage_string stage +:+ "check")
     [to_lower (stage_string stage +:+ "-check"); "/root"; copyDir] agentEnvs volumeMounts].

(** [int64(d.Seconds())] *)
Definition whole_seconds (d : Z) : Z := f64_to_int (f64_seconds d).

Definition createPodFromPackage (opts : SkyhookOperatorOptions) (p : Package) (skyhook : Skyhook) (nodeName : string)
    (stage : Stage) : res BuiltPod :=
  rbind (GetRuntimeRequiredTolerations opts) (fun tolerations =>
  let volumeName := generateSafeName 63 ["metadata"; nodeName] in
  let has_config := negb (bool_decide (pkg_ConfigMap p = ∅)) in
  let volumes :=
    [root_volume; {| vol_Name := volumeName; vol_Source := ConfigMapVolume (metadata_name skyhook nodeName) |}] ++
    (if has_config then [{| vol_Name := pkg_Name p; vol_Source := ConfigMapVolume (config_map_name skyhook p) |}] else []) in
  let volumeMounts :=
    [root_mount; {| vm_Name := volumeName; vm_MountPath := "/skyhook-package/node-metadata"; vm_SubPath := "";
                    vm_ReadOnly := false; vm_HostToContainer := false |}] ++
    (if has_config then config_mounts p else []) in
  Ok {| bp_Name := generateSafeName 63 [nw_Name (sk_nw skyhook); pkg_Name p; pkg_Version p; stage_string stage; nodeName];
        bp_Namespace := Namespace opts;
        bp_Labels := {[ prefixed_key "name" := nw_Name (sk_nw skyhook); prefixed_key "package" := package_label p ]};
        bp_Annotations := ∅;
        bp_Spec :=
          {| psp_NodeName := nodeName;
             psp_RestartPolicy := "OnFailure";
             psp_InitContainers := setPodResources (pkg_Resources p)
                                     (package_containers opts p skyhook nodeName stage volumeMounts);
             psp_Containers := [pause_container opts];
             psp_Volumes := volumes;
             psp_HostPID := true;
             psp_HostNetwork := true;
             psp_Tolerations := pod_tolerations tolerations skyhook;
             psp_ImagePullSecrets := pull_secrets opts;
             psp_TerminationGracePeriodSeconds := option_map whole_seconds (pkg_GracefulShutdown p);
             psp_ActiveDeadlineSeconds := None |} |}).

Definition interrupt_type_string (t : InterruptType) : string :=
  match t with
  | REBOOT => "reboot" | SERVICE => "service" | NOOP => "noop" | RESTART_ALL_SERVICES => "restartAllServices"
  | InterruptOther s => s
  end.

Definition createInterruptPodForPackage (opts : SkyhookOperatorOptions) (interrupt : InterruptType) (argEncode : string)
    (p : Package) (skyhook : Skyhook) (nodeName : string) (stage : Stage) : res BuiltPod :=
  rbind (GetRuntimeRequiredTolerations opts) (fun tolerations =>
  let copyDir := copy_dir opts skyhook p in
  Ok {| bp_Name := generateSafeName 63 [nw_Name (sk_nw skyhook); stage_string stage; interrupt_type_string interrupt; nodeName];
        bp_Namespace := Namespace opts;
        bp_Labels := {[ prefixed_key "name" := nw_Name (sk_nw skyhook); prefixed_key "package" := package_label p;
                        interruptLabel := interruptLabelValue ]};
        bp_Annotations := ∅;
        bp_Spec :=
          {| psp_NodeName := nodeName;
             psp_RestartPolicy := "OnFailure";
             psp_InitContainers :=
               [{| c_Name := InterruptContainerName; c_Image := getAgentImage opts p; c_PullAlways := false;
                   c_Command := []; c_Args := ["interrupt"; "/root"; copyDir; argEncode];
                   c_Env := getAgentConfigEnvVars opts (pkg_Name p) (pkg_Version p) (ResourceID skyhook)
                              (nw_Name (sk_nw skyhook)) (NodeOrder skyhook nodeName);
                   c_Privileged := true; c_VolumeMounts := [root_mount]; c_Resources := interrupt_resources |}];
             psp_Containers := [pause_container opts];
             psp_Volumes :=
               [root_volume;
                {| vol_Name := generateSafeName 63 [nw_Name (sk_nw skyhook); nodeName; "metadata"];
                   vol_Source := ConfigMapVolume (metadata_name skyhook nodeName) |}];
             psp_HostPID := true;
             psp_HostNetwork := true;
             psp_Tolerations := pod_tolerations tolerations skyhook;
             psp_ImagePullSecrets := pull_secrets opts;
             psp_TerminationGracePeriodSeconds := None;
             psp_ActiveDeadlineSeconds := None |} |}).

(* ------------------------------------------------------------------ *)
(** ** Jobs *)

(** The main container exits at once; it reuses the package's image. *)
Definition done_container (p : Package) (c : Container) : Container :=
  if bool_decide (c_Name c = pauseContainerName) then
    {| c_Name := doneContainerName; c_Image := getPackageImage p; c_PullAlways := c_PullAlways c;
       c_Command := [shellBinary; "-c"; "exit 0"]; c_Args := c_Args c; c_Env := c_Env c;
       c_Privileged := c_Privileged c; c_VolumeMounts := c_VolumeMounts c; c_Resources := c_Resources c |}
  else c.

Definition not_evicted (key : string) : Toleration :=
  {| tol_Key := key; tol_Operator := TolerationOpExists; tol_Value := ""; tol_Effect := "NoExecute";
     tol_TolerationSeconds := None |}.

Definition job_pod_spec (p : Package) (s : PodSpec) : PodSpec :=
  {| psp_NodeName := psp_NodeName s; psp_RestartPolicy := psp_RestartPolicy s;
     psp_InitContainers := psp_InitContainers s; psp_Containers := map (done_container p) (psp_Containers s);
     psp_Volumes := psp_Volumes s; psp_HostPID := psp_HostPID s; psp_HostNetwork := psp_HostNetwork s;
     psp_Tolerations := psp_Tolerations s ++ [not_evicted "node.kubernetes.io/not-ready";
                                              not_evicted "node.kubernetes.io/unreachable"];
     psp_ImagePullSecrets := psp_ImagePullSecrets s;
     psp_TerminationGracePeriodSeconds := psp_TerminationGracePeriodSeconds s;
     psp_ActiveDeadlineSeconds := psp_ActiveDeadlineSeconds s |}.

Definition jobFromPod (opts : SkyhookOperatorOptions) (pod : BuiltPod) (skyhook : Skyhook) (p : Package) (stage : Stage)
    (nodeName : string) (interrupt : bool) : StageJob :=
  let spec := job_pod_spec p (bp_Spec pod) in
  let labels := jobLabels skyhook p stage nodeName interrupt in
  let timeout := effectiveStageTimeout opts p in
  let deadline := if 0 <? timeout then ptr (deadlineSeconds timeout) else None in
  let spec :=
    if interrupt then set_psp_RestartPolicy "OnFailure" spec
    else
      let spec := set_psp_RestartPolicy "Never" spec in
      if 0 <? timeout then set_psp_ActiveDeadlineSeconds deadline spec else spec in
  {| sj_Job :=
       {| job_Name := bp_Name pod; job_Labels := labels;
          job_Annotations := {[ prefixed_key "resource-id" := ResourceID skyhook ]};
          job_Deleted := false; job_NodeName := psp_NodeName spec; job_Conditions := []; job_Failed := 0 |};
     sj_Namespace := Namespace opts;
     sj_Parallelism := ptr 1;
     sj_Completions := ptr 1;
     sj_ReplacesFailed := true;
     sj_IgnoresDisruptions := negb interrupt;
     sj_BackoffLimit := ptr (if interrupt then MaxInt32 else JobBackoffLimit opts);
     sj_ActiveDeadlineSeconds := if interrupt then deadline else None;
     sj_Suspend := None;
     sj_Template := {| pt_Labels := labels; pt_Annotations := ∅; pt_Spec := spec |} |}.

Definition createJobFromPackage (opts : SkyhookOperatorOptions) (p : Package) (skyhook : Skyhook) (nodeName : string)
    (stage : Stage) : res StageJob :=
  rbind (createPodFromPackage opts p skyhook nodeName stage) (fun pod =>
  Ok (jobFromPod opts pod skyhook p stage nodeName false)).

Definition createInterruptJobFromPackage (opts : SkyhookOperatorOptions) (interrupt : InterruptType) (argEncode : string)
    (p : Package) (skyhook : Skyhook) (nodeName : string) (stage : Stage) : res StageJob :=
  rbind (createInterruptPodForPackage opts interrupt argEncode p skyhook nodeName stage) (fun pod =>
  Ok (jobFromPod opts pod skyhook p stage nodeName true)).

Definition set_job_Annotations (v : gmap string string) (j : Job) : Job :=
  {| job_Name := job_Name j; job_Labels := job_Labels j; job_Annotations := v; job_Deleted := job_Deleted j;
     job_NodeName := job_NodeName j; job_Conditions := job_Conditions j; job_Failed := job_Failed j |}.

Definition set_sj (job : Job) (template : PodTemplate) (j : StageJob) : StageJob :=
  {| sj_Job := job; sj_Namespace := sj_Namespace j; sj_Parallelism := sj_Parallelism j;
     sj_Completions := sj_Completions j; sj_ReplacesFailed := sj_ReplacesFailed j;
     sj_IgnoresDisruptions := sj_IgnoresDisruptions j; sj_BackoffLimit := sj_BackoffLimit j;
     sj_ActiveDeadlineSeconds := sj_ActiveDeadlineSeconds j; sj_Suspend := sj_Suspend j; sj_Template := template |}.

(** The Job and its pod template both carry the package. *)
Definition setJobPackage (skyhook : Skyhook) (stage : Stage) (p : Package) (j : StageJob) : StageJob :=
  let annotate := SetPackages (nw_Name (sk_nw skyhook)) (pkg_Image p) stage p in
  set_sj (set_job_Annotations (annotate (job_Annotations (sj_Job j))) (sj_Job j))
    {| pt_Labels := pt_Labels (sj_Template j); pt_Annotations := annotate (pt_Annotations (sj_Template j));
       pt_Spec := pt_Spec (sj_Template j) |} j.

(* ------------------------------------------------------------------ *)
(** ** Does a Job match its package *)

(** [Semantic.DeepEqual] of resource lists: nil and empty are equal. *)
Definition resource_lists_equal (a b : option (gmap string Quantity)) : bool :=
  let a := default ∅ a in
  let b := default ∅ b in
  bool_decide (dom a = dom b) &&
  all (fun kv => match b !! kv.1 with Some q => quantity_Equal kv.2 q | None => false end) (map_to_list a).

Definition resources_equal (a b : Resources) : bool :=
  resource_lists_equal (res_Limits a) (res_Limits b) && resource_lists_equal (res_Requests a) (res_Requests b).

Definition unset_resources (r : Resources) : bool :=
  match res_Requests r, res_Limits r with None, None => true | _, _ => false end.

Definition container_matches (opts : SkyhookOperatorOptions) (isInterrupt limitRange has_resources : bool)
    (expected actual : Container) : bool :=
  let excludedEnvs := map env_Name (getAgentConfigEnvVars opts "" "" "" "" 0) in
  if negb (bool_decide (c_Name expected = c_Name actual)) then false
  else if negb (bool_decide (c_Image expected = c_Image actual)) then false
  else if negb (bool_decide (FilterEnv (c_Env expected) excludedEnvs = FilterEnv (c_Env actual) excludedEnvs)) then false
  else if isInterrupt then true
  else if has_resources then resources_equal (c_Resources expected) (c_Resources actual)
  else limitRange || unset_resources (c_Resources actual).

(** Both lists have the same length where it is called. *)
Fixpoint containers_match (f : Container -> Container -> bool) (expected actual : list Container) : bool :=
  match expected, actual with
  | e :: expected, a :: actual => f e a && containers_match f expected actual
  | _, _ => true
  end.

Definition podMatchesPackage (opts : SkyhookOperatorOptions) (p : Package) (pod : PodTemplate) (skyhook : Skyhook)
    (stage : Stage) : res bool :=
  let limitRange := match pt_Annotations pod !! "kubernetes.io/limit-ranger" with Some _ => true | None => false end in
  let isInterrupt := bool_decide (default "" (pt_Labels pod !! interruptLabel) = interruptLabelValue) in
  rbind (if isInterrupt then createInterruptPodForPackage opts (InterruptOther "") "" p skyhook "" stage
         else createPodFromPackage opts p skyhook "" stage) (fun expectedPod =>
  let packageLabel := prefixed_key "package" in
  let expected := psp_InitContainers (bp_Spec expectedPod) in
  let actual := psp_InitContainers (pt_Spec pod) in
  let has_resources :=
    match sp_Packages (sk_Spec skyhook) !! pkg_Name p ≫= pkg_Resources with Some _ => true | None => false end in
  Ok (if negb (bool_decide (default "" (pt_Labels pod !! packageLabel) = default "" (bp_Labels expectedPod !! packageLabel)))
      then false
      else if negb (zlen actual =? zlen expected) then false
      else containers_match (container_matches opts isInterrupt limitRange has_resources) expected actual)).

Definition jobMatchesPackage (opts : SkyhookOperatorOptions) (p : Package) (job : StageJob) (skyhook : Skyhook)
    (stage : Stage) : res bool :=
  podMatchesPackage opts p (sj_Template job) skyhook stage.

(* ------------------------------------------------------------------ *)
(** ** Lemmas *)

Lemma FilterEnv_app l l' x : FilterEnv (l ++ l') x = FilterEnv l x ++ FilterEnv l' x.
Proof. apply List.filter_app. Qed.

(** The operator's own variables are never compared. *)
Lemma FilterEnv_agent opts opts' a b c d n :
  FilterEnv (getAgentConfigEnvVars opts a b c d n) (map env_Name (getAgentConfigEnvVars opts' "" "" "" "" 0)) = [].
Proof. reflexivity. Qed.

Lemma resource_lists_equal_refl a : resource_lists_equal a a = true.
Proof.
  unfold resource_lists_equal. rewrite bool_decide_eq_true_2 by done. simpl. apply all_true. intros [k q] H.
  apply elem_of_map_to_list in H. simpl. rewrite H. apply quantity_Equal_refl.
Qed.

Lemma resources_equal_refl r : resources_equal r r = true.
Proof. unfold resources_equal. by rewrite !resource_lists_equal_refl. Qed.

Lemma unique_length name : String.length (uniqueStr name) = 8%nat.
Proof. unfold uniqueStr. by rewrite length_str_take, length_EncodeToString, length_Sum256. Qed.

Lemma containers_match_spec f expected actual : length expected = length actual ->
  containers_match f expected actual = true <-> Forall2 (fun e a => f e a = true) expected actual.
Proof.
  revert actual; induction expected as [|e expected IH]; intros [|a actual]; simpl; try done.
  intros [= H]. rewrite andb_true_iff, IH by done. by rewrite Forall2_cons.
Qed.

(** Characters that Kubernetes takes in an object's name: no capital, no dot. *)
Definition name_char (c : ascii) : bool := bool_decide (lower_char c = c) && negb (bool_decide (c = "."%char)).

Fixpoint string_all (f : ascii -> bool) (s : string) : bool :=
  match s with EmptyString => true | String c s => f c && string_all f s end.

Lemma string_all_append f s t : string_all f (s +:+ t) = string_all f s && string_all f t.
Proof. induction s as [|c s IH]; [done|]. rewrite append_cons. simpl. by rewrite IH, andb_assoc. Qed.

Lemma string_all_take f n s : string_all f s = true -> string_all f (str_take n s) = true.
Proof.
  unfold str_take. revert s; induction n as [|n IH]; intros [|c s]; simpl; try done.
  rewrite !andb_true_iff. intros [? ?]. auto.
Qed.

Lemma string_all_map f g s : (forall c, f (g c) = true) -> string_all f (string_map g s) = true.
Proof. intros H. induction s as [|c s IH]; simpl; [done|]. by rewrite H. Qed.

Definition dotless (c : ascii) : bool := negb (bool_decide (c = "."%char)).

Lemma lower_dotless c : dotless c = true -> name_char (lower_char c) = true.
Proof. destruct c as [[] [] [] [] [] [] [] []]; vm_compute; done. Qed.

Lemma to_lower_name s : string_all dotless s = true -> string_all name_char (to_lower s) = true.
Proof.
  unfold to_lower. induction s as [|c s IH]; simpl; [done|]. rewrite !andb_true_iff. intros [? ?].
  split; [by apply lower_dotless|auto].
Qed.

Lemma hex_digit_dotless z : dotless (hex_digit z) = true.
Proof.
  unfold hex_digit. generalize (Z.to_nat (Z.land z 15)). intros n.
  do 16 (destruct n as [|n]; [reflexivity|]). simpl. by destruct n.
Qed.

Lemma EncodeToString_dotless l : string_all dotless (EncodeToString l) = true.
Proof. induction l as [|b l IH]; simpl; [done|]. by rewrite !hex_digit_dotless, IH. Qed.

Lemma uniqueStr_dotless name : string_all dotless (uniqueStr name) = true.
Proof. unfold uniqueStr. apply string_all_take, EncodeToString_dotless. Qed.

Lemma plain_name_dotless l : string_all dotless (plain_name l) = true.
Proof.
  apply string_all_map. intros c. unfold dotless. repeat case_bool_decide; congruence || done.
Qed.

(** The name before it is lowered. *)
Lemma generateSafeName_text maxLen parts : exists text,
  generateSafeName maxLen parts = to_lower (text +:+ "-" +:+ uniqueStr (plain_name parts)) /\
  (String.length text <= maxLen - 9)%nat /\ string_all dotless text = true /\
  ((String.length (plain_name parts) + 9 <= maxLen)%nat -> text = plain_name parts).
Proof.
  unfold generateSafeName. rewrite unique_length. replace (maxLen - 8 - 1)%nat with (maxLen - 9)%nat by lia.
  eexists. split; [done|]. case_match eqn:E.
  - apply Nat.ltb_lt in E. rewrite length_str_take. split; [lia|]. split; [apply string_all_take, plain_name_dotless|lia].
  - apply Nat.ltb_ge in E. split; [done|]. split; [apply plain_name_dotless|done].
Qed.

(** Every generated name fits: it is no longer than the limit it was asked
    for, and has neither a capital letter nor a dot.  It depends on its parts
    only through their text joined with dashes, dots replaced by dashes, so two
    lists of parts with the same such text share one name: the hash that makes
    names unique is taken after the joining.  A text that fits is kept whole. *)
Theorem generateSafeName_fits (maxLen : nat) (parts : list string) (Hmax : (9 <= maxLen)%nat) :
  (String.length (generateSafeName maxLen parts) <= maxLen)%nat /\
  string_all name_char (generateSafeName maxLen parts) = true /\
  (forall parts', plain_name parts' = plain_name parts -> generateSafeName maxLen parts' = generateSafeName maxLen parts) /\
  ((String.length (plain_name parts) + 9 <= maxLen)%nat ->
   exists hash, String.length hash = 8%nat /\
     generateSafeName maxLen parts = to_lower (plain_name parts) +:+ "-" +:+ to_lower hash).
Proof.
  destruct (generateSafeName_text maxLen parts) as (text & E & Hlen & Hd & Hfit). rewrite E.
  split; [|split; [|split]].
  - unfold to_lower. rewrite length_string_map, !length_append, unique_length. change (String.length "-") with 1%nat. lia.
  - apply to_lower_name. rewrite !string_all_append, Hd, uniqueStr_dotless. done.
  - intros parts' H. unfold generateSafeName in *. by rewrite H, E.
  - intros H. exists (uniqueStr (plain_name parts)). split; [apply unique_length|]. rewrite Hfit by done.
    unfold to_lower. by rewrite !string_map_append.
Qed.

(* ------------------------------------------------------------------ *)
(** ** The Job that was just built *)

Lemma createPod_ok opts p skyhook nodeName stage : Options_Validate opts = Ok tt ->
  exists pod, createPodFromPackage opts p skyhook nodeName stage = Ok pod.
Proof.
  intros H. destruct (Validate_tolerations opts H) as [tolerations Ht]. unfold createPodFromPackage. rewrite Ht. simpl. eauto.
Qed.

Lemma createInterruptPod_ok opts i args p skyhook nodeName stage : Options_Validate opts = Ok tt ->
  exists pod, createInterruptPodForPackage opts i args p skyhook nodeName stage = Ok pod.
Proof.
  intros H. destruct (Validate_tolerations opts H) as [tolerations Ht]. unfold createInterruptPodForPackage. rewrite Ht.
  simpl. eauto.
Qed.

Lemma createPod_fields opts p skyhook nodeName stage pod :
  createPodFromPackage opts p skyhook nodeName stage = Ok pod ->
  exists mounts, psp_InitContainers (bp_Spec pod) =
      setPodResources (pkg_Resources p) (package_containers opts p skyhook nodeName stage mounts) /\
    bp_Labels pod = {[ prefixed_key "name" := nw_Name (sk_nw skyhook); prefixed_key "package" := package_label p ]} /\
    bp_Name pod = generateSafeName 63 [nw_Name (sk_nw skyhook); pkg_Name p; pkg_Version p; stage_string stage; nodeName] /\
    psp_NodeName (bp_Spec pod) = nodeName /\ psp_ActiveDeadlineSeconds (bp_Spec pod) = None.
Proof.
  unfold createPodFromPackage. rewrite rbind_ok. intros (tolerations & _ & H). apply (f_equal (fun r => match r with Ok a => a | _ => pod end)) in H.
  cbn beta iota in H. rewrite <- H. cbn [bp_Spec bp_Labels bp_Name psp_InitContainers psp_NodeName psp_ActiveDeadlineSeconds].
  eexists. split; [reflexivity|]. done.
Qed.

Lemma createInterruptPod_fields opts i args p skyhook nodeName stage pod :
  createInterruptPodForPackage opts i args p skyhook nodeName stage = Ok pod ->
  exists c, psp_InitContainers (bp_Spec pod) = [c] /\ c_Name c = InterruptContainerName /\
    c_Image c = getAgentImage opts p /\
    FilterEnv (c_Env c) (map env_Name (getAgentConfigEnvVars opts "" "" "" "" 0)) = [] /\
    bp_Labels pod !! prefixed_key "package" = Some (package_label p) /\
    bp_Name pod = generateSafeName 63 [nw_Name (sk_nw skyhook); stage_string stage; interrupt_type_string i; nodeName] /\
    psp_NodeName (bp_Spec pod) = nodeName /\ psp_ActiveDeadlineSeconds (bp_Spec pod) = None.
Proof.
  unfold createInterruptPodForPackage. rewrite rbind_ok. intros (tolerations & _ & H).
  apply (f_equal (fun r => match r with Ok a => a | _ => pod end)) in H. cbn beta iota in H. rewrite <- H.
  cbn [bp_Spec bp_Labels bp_Name psp_InitContainers psp_NodeName psp_ActiveDeadlineSeconds].
  eexists. repeat (split; [reflexivity|]). done.
Qed.

(** A container of the stage against the one built for no node. *)
Lemma package_containers_match opts p skyhook nodeName stage mounts mounts' :
  let has_resources := match pkg_Resources p with Some _ => true | None => false end in
  containers_match (container_matches opts false false has_resources)
    (setPodResources (pkg_Resources p) (package_containers opts p skyhook "" stage mounts))
    (setPodResources (pkg_Resources p) (package_containers opts p skyhook nodeName stage mounts')) = true.
Proof.
  cbv zeta. set (expected := package_containers opts p skyhook "" stage mounts).
  set (actual := package_containers opts p skyhook nodeName stage mounts').
  assert (Hpair : Forall2 (fun e a => c_Name e = c_Name a /\ c_Image e = c_Image a /\ c_Resources e = no_resources /\
      c_Resources a = no_resources /\
      FilterEnv (c_Env e) (map env_Name (getAgentConfigEnvVars opts "" "" "" "" 0)) =
      FilterEnv (c_Env a) (map env_Name (getAgentConfigEnvVars opts "" "" "" "" 0))) expected actual).
  { unfold expected, actual, package_containers.
    repeat constructor; cbn [c_Env stage_container]; rewrite ?FilterEnv_app, ?FilterEnv_agent; reflexivity. }
  clearbody expected actual. apply containers_match_spec.
  { apply Forall2_length in Hpair. unfold setPodResources. repeat case_match; by rewrite ?length_map. }
  unfold setPodResources. destruct (pkg_Resources p) as [r|].
  - case_match.
    + apply Forall2_fmap. eapply Forall2_impl; [exact Hpair|]. intros e a (Hn & Hi & _ & _ & He).
      unfold container_matches. cbn [with_resources c_Name c_Image c_Env c_Resources].
      rewrite Hn, Hi, He, !bool_decide_eq_true_2 by done. apply resources_equal_refl.
    + eapply Forall2_impl; [exact Hpair|]. intros e a (Hn & Hi & Hre & Hra & He).
      unfold container_matches. rewrite Hn, Hi, He, Hre, Hra, !bool_decide_eq_true_2 by done. apply resources_equal_refl.
  - eapply Forall2_impl; [exact Hpair|]. intros e a (Hn & Hi & Hre & Hra & He).
    unfold container_matches. by rewrite Hn, Hi, He, Hra, !bool_decide_eq_true_2 by done.
Qed.

Lemma setPodResources_length r l : length (setPodResources r l) = length l.
Proof. unfold setPodResources. repeat case_match; by rewrite ?length_map. Qed.

Lemma jobLabels_package skyhook p stage nodeName i :
  jobLabels skyhook p stage nodeName i !! prefixed_key "package" = Some (package_label p).
Proof. unfold jobLabels. destruct i; reflexivity. Qed.

Lemma jobLabels_interrupt skyhook p stage nodeName i :
  jobLabels skyhook p stage nodeName i !! interruptLabel = if i then Some interruptLabelValue else None.
Proof. unfold jobLabels. destruct i; reflexivity. Qed.

Lemma setJobPackage_template skyhook stage p j :
  pt_Labels (sj_Template (setJobPackage skyhook stage p j)) = pt_Labels (sj_Template j) /\
  pt_Spec (sj_Template (setJobPackage skyhook stage p j)) = pt_Spec (sj_Template j).
Proof. done. Qed.

(** The annotations of a Job just built hold the package and nothing the comparison reads. *)
Lemma setJobPackage_limits skyhook stage p j : pt_Annotations (sj_Template j) = ∅ ->
  pt_Annotations (sj_Template (setJobPackage skyhook stage p j)) !! "kubernetes.io/limit-ranger" = None.
Proof. intros H. unfold setJobPackage, set_sj, SetPackages. cbn [sj_Template pt_Annotations]. by rewrite H. Qed.

Lemma safe_name_fits parts : (String.length (generateSafeName 63 parts) <= 63)%nat.
Proof.
  destruct (generateSafeName_text 63 parts) as (text & E & Hlen & _). rewrite E.
  unfold to_lower. rewrite length_string_map, !length_append, unique_length. change (String.length "-") with 1%nat. lia.
Qed.

Lemma jobLabels_node skyhook p stage nodeName i : exists v,
  jobLabels skyhook p stage nodeName i !! prefixed_key "node" = Some v /\ (String.length v <= 63)%nat.
Proof.
  exists (nodeLabelValue nodeName). split; [unfold jobLabels; destruct i; reflexivity|].
  unfold nodeLabelValue. case_match eqn:E; [apply safe_name_fits|]. by apply Nat.ltb_ge in E.
Qed.

Lemma setJobPackage_carries skyhook stage p j annotations :
  annotations = job_Annotations (sj_Job (setJobPackage skyhook stage p j)) \/
  annotations = pt_Annotations (sj_Template (setJobPackage skyhook stage p j)) ->
  exists pkg, GetPackage annotations = Ok (Some pkg) /\ px_Ref pkg = pkg_Ref p /\ px_Stage pkg = stage /\
    px_Skyhook pkg = nw_Name (sk_nw skyhook) /\ px_Invalid pkg = false.
Proof.
  unfold setJobPackage, set_sj, SetPackages, GetPackage. cbn [sj_Job sj_Template set_job_Annotations job_Annotations pt_Annotations].
  intros [-> | ->]; rewrite lookup_insert, decide_True, package_roundtrip by done; simpl; eauto 10.
Qed.

(** The comparison of a Job just built, down to its containers. *)
Lemma package_Job_compared opts p s s' nodeName stage pod pod' :
  createPodFromPackage opts p s nodeName stage = Ok pod -> createPodFromPackage opts p s' "" stage = Ok pod' ->
  jobMatchesPackage opts p (setJobPackage s stage p (jobFromPod opts pod s p stage nodeName false)) s' stage =
  Ok (containers_match (container_matches opts false false
        match sp_Packages (sk_Spec s') !! pkg_Name p ≫= pkg_Resources with Some _ => true | None => false end)
       (psp_InitContainers (bp_Spec pod')) (psp_InitContainers (bp_Spec pod))).
Proof.
  intros Hpod Hpod'. destruct (createPod_fields _ _ _ _ _ _ Hpod) as (mounts & Hc & Hl & _).
  destruct (createPod_fields _ _ _ _ _ _ Hpod') as (mounts' & Hc' & Hl' & _).
  unfold jobMatchesPackage, podMatchesPackage. rewrite setJobPackage_limits by done.
  destruct (setJobPackage_template s stage p (jobFromPod opts pod s p stage nodeName false)) as [-> ->].
  cbn [jobFromPod sj_Template pt_Labels]. rewrite jobLabels_interrupt. cbn [default id].
  rewrite bool_decide_eq_false_2 by done. rewrite Hpod'. cbn [rbind]. f_equal.
  rewrite jobLabels_package, Hl'. rewrite bool_decide_eq_true_2 by reflexivity. cbn [negb].
  assert (Hi : psp_InitContainers (pt_Spec (sj_Template (jobFromPod opts pod s p stage nodeName false))) =
               psp_InitContainers (bp_Spec pod)) by (cbn; by case_match).
  cbn [jobFromPod sj_Template] in Hi. rewrite Hi.
  replace (zlen (psp_InitContainers (bp_Spec pod)) =? zlen (psp_InitContainers (bp_Spec pod'))) with true; [done|].
  symmetry. apply Z.eqb_eq. rewrite Hc, Hc'. unfold zlen. rewrite !setPodResources_length. done.
Qed.

(** Nothing of the resource is compared on an interrupt. *)
Lemma interrupt_Job_matches opts i argEncode p s s' nodeName stage pod : Options_Validate opts = Ok tt ->
  createInterruptPodForPackage opts i argEncode p s nodeName stage = Ok pod ->
  jobMatchesPackage opts p (setJobPackage s stage p (jobFromPod opts pod s p stage nodeName true)) s' stage = Ok true.
Proof.
  intros Hopts Hpod. destruct (createInterruptPod_ok opts (InterruptOther "") "" p s' "" stage Hopts) as [pod' Hpod'].
  destruct (createInterruptPod_fields _ _ _ _ _ _ _ _ Hpod) as (c & Hc & Hn & Hi & He & _).
  destruct (createInterruptPod_fields _ _ _ _ _ _ _ _ Hpod') as (c' & Hc' & Hn' & Hi' & He' & Hl' & _).
  unfold jobMatchesPackage, podMatchesPackage. rewrite setJobPackage_limits by done.
  destruct (setJobPackage_template s stage p (jobFromPod opts pod s p stage nodeName true)) as [-> ->].
  cbn [jobFromPod sj_Template pt_Labels pt_Spec]. rewrite jobLabels_interrupt. cbn [default id].
  rewrite bool_decide_eq_true_2 by done. rewrite Hpod'. cbn [rbind]. f_equal.
  rewrite jobLabels_package, Hl'. cbn [default id]. rewrite bool_decide_eq_true_2 by reflexivity. cbn [negb].
  cbn [set_psp_RestartPolicy job_pod_spec psp_InitContainers]. rewrite Hc, Hc'. cbn [zlen length containers_match].
  rewrite Z.eqb_refl. cbn [negb]. rewrite andb_true_r. unfold container_matches.
  by rewrite Hn, Hn', Hi, Hi', He, He', !bool_decide_eq_true_2.
Qed.

(** C33: The operator recognises its own Jobs.  With valid options, the Job it
    builds for a package of the spec on a node, at any stage, matches that
    package when it is compared again under the same resource; so does the Job
    it builds for any interrupt of the package.  A Job in the middle of its work
    is therefore never taken for a stale one while nothing changed, although
    the comparison rebuilds the pod for no node and for no interrupt. *)
Theorem built_Job_matches (opts : SkyhookOperatorOptions) (p : Package) (skyhook : Skyhook) (nodeName : string)
    (stage : Stage) (interrupt : InterruptType) (argEncode : string) (Hopts : Options_Validate opts = Ok tt)
    (Hspec : sp_Packages (sk_Spec skyhook) !! pkg_Name p = Some p) :
  (exists j, createJobFromPackage opts p skyhook nodeName stage = Ok j /\
     jobMatchesPackage opts p (setJobPackage skyhook stage p j) skyhook stage = Ok true) /\
  (exists j, createInterruptJobFromPackage opts interrupt argEncode p skyhook nodeName stage = Ok j /\
     jobMatchesPackage opts p (setJobPackage skyhook stage p j) skyhook stage = Ok true).
Proof.
  split.
  - destruct (createPod_ok opts p skyhook nodeName stage Hopts) as [pod Hpod].
    destruct (createPod_ok opts p skyhook "" stage Hopts) as [pod' Hpod'].
    unfold createJobFromPackage. rewrite Hpod. eexists. split; [reflexivity|].
    erewrite package_Job_compared by eauto. f_equal. rewrite Hspec.
    destruct (createPod_fields _ _ _ _ _ _ Hpod) as (mounts & -> & _).
    destruct (createPod_fields _ _ _ _ _ _ Hpod') as (mounts' & -> & _). apply package_containers_match.
  - destruct (createInterruptPod_ok opts interrupt argEncode p skyhook nodeName stage Hopts) as [pod Hpod].
    unfold createInterruptJobFromPackage. rewrite Hpod. eexists. split; [reflexivity|].
    by eapply interrupt_Job_matches.
Qed.

Lemma setPodResources_cons r c l : exists c' l', setPodResources r (c :: l) = c' :: l' /\ c_Env c' = c_Env c.
Proof. unfold setPodResources. repeat case_match; simpl; eauto. Qed.

Lemma copy_dir_generation opts p (s s' : Skyhook) :
  nw_Name (sk_nw s) = nw_Name (sk_nw s') -> nw_UID (sk_nw s) = nw_UID (sk_nw s') ->
  copy_dir opts s p = copy_dir opts s' p -> nw_Generation (sk_nw s) = nw_Generation (sk_nw s').
Proof.
  unfold copy_dir. intros -> -> H. do 10 apply append_inj_l in H. unfold show_int in H. by apply (inj pretty) in H.
Qed.

Lemma container_matches_env opts i limits r e a : container_matches opts i limits r e a = true ->
  FilterEnv (c_Env e) (map env_Name (getAgentConfigEnvVars opts "" "" "" "" 0)) =
  FilterEnv (c_Env a) (map env_Name (getAgentConfigEnvVars opts "" "" "" "" 0)).
Proof. unfold container_matches. do 3 (case_bool_decide; [|done]). done. Qed.

(** A new generation of the resource makes every package Job stale.  The Job
    of a package that is compared after the generation of its resource changed,
    with the same options, package, stage, name and UID, does not match: its
    copy container holds the generation in SKYHOOK_DIR, which the comparison
    does not leave out.  An interrupt Job still matches. *)
Theorem generation_makes_stale (opts : SkyhookOperatorOptions) (p : Package) (s s' : Skyhook) (nodeName : string)
    (stage : Stage) (interrupt : InterruptType) (argEncode : string) (Hopts : Options_Validate opts = Ok tt)
    (Hname : nw_Name (sk_nw s) = nw_Name (sk_nw s')) (Huid : nw_UID (sk_nw s) = nw_UID (sk_nw s'))
    (Hgen : nw_Generation (sk_nw s) <> nw_Generation (sk_nw s')) :
  (exists j, createJobFromPackage opts p s nodeName stage = Ok j /\
     jobMatchesPackage opts p (setJobPackage s stage p j) s' stage = Ok false) /\
  (exists j, createInterruptJobFromPackage opts interrupt argEncode p s nodeName stage = Ok j /\
     jobMatchesPackage opts p (setJobPackage s stage p j) s' stage = Ok true).
Proof.
  split.
  - destruct (createPod_ok opts p s nodeName stage Hopts) as [pod Hpod].
    destruct (createPod_ok opts p s' "" stage Hopts) as [pod' Hpod'].
    unfold createJobFromPackage. rewrite Hpod. eexists. split; [reflexivity|].
    erewrite package_Job_compared by eauto.
    destruct (createPod_fields _ _ _ _ _ _ Hpod) as (mounts & Hc & _).
    destruct (createPod_fields _ _ _ _ _ _ Hpod') as (mounts' & Hc' & _). rewrite Hc, Hc'.
    f_equal. apply not_true_iff_false. intros H.
    apply containers_match_spec in H; [|by rewrite !setPodResources_length].
    unfold package_containers in H. cbv zeta in H.
    match type of H with Forall2 _ (setPodResources _ (?a :: ?l)) (setPodResources _ (?b :: ?m)) =>
      destruct (setPodResources_cons (pkg_Resources p) a l) as (a' & l' & Ea & Ha);
      destruct (setPodResources_cons (pkg_Resources p) b m) as (b' & m' & Eb & Hb) end.
    rewrite Ea, Eb in H. apply Forall2_cons in H as [H _]. apply container_matches_env in H.
    rewrite Ha, Hb in H. cbn [c_Env] in H. injection H as H. by apply Hgen, (copy_dir_generation opts p).
  - destruct (createInterruptPod_ok opts interrupt argEncode p s nodeName stage Hopts) as [pod Hpod].
    unfold createInterruptJobFromPackage. rewrite Hpod. eexists. split; [reflexivity|].
    by eapply interrupt_Job_matches.
Qed.

(** C34: The two kinds of Job have the shape the API server accepts and the
    budgets the stage is meant to have.  A package Job never restarts in place,
    so it may carry a pod failure policy; it retries as often as the options
    say, with the deadline on each attempt and none on the Job.  An interrupt
    Job restarts in place and carries no policy; its retries are unbounded and
    its deadline spans the Job.  No timeout means no deadline.  Either is pinned
    to the node, its name and node label fit, and both the Job and its pods
    carry the package they run, which is read back as it was written. *)
Theorem built_Job_shape (opts : SkyhookOperatorOptions) (p : Package) (skyhook : Skyhook) (nodeName : string)
    (stage : Stage) (i : InterruptType) (argEncode : string) (Hopts : Options_Validate opts = Ok tt) :
  let timeout := effectiveStageTimeout opts p in
  let deadline := if 0 <? timeout then Some (deadlineSeconds timeout) else None in
  let carries j := forall annotations, annotations = job_Annotations (sj_Job j) \/ annotations = pt_Annotations (sj_Template j) ->
    exists pkg, GetPackage annotations = Ok (Some pkg) /\ px_Ref pkg = pkg_Ref p /\ px_Stage pkg = stage /\
      px_Skyhook pkg = nw_Name (sk_nw skyhook) /\ px_Invalid pkg = false in
  let fits j := (String.length (job_Name (sj_Job j)) <= 63)%nat /\ job_NodeName (sj_Job j) = nodeName /\
    psp_NodeName (pt_Spec (sj_Template j)) = nodeName /\
    (exists v, job_Labels (sj_Job j) !! prefixed_key "node" = Some v /\ (String.length v <= 63)%nat) in
  (exists j, createJobFromPackage opts p skyhook nodeName stage = Ok j /\
     let j := setJobPackage skyhook stage p j in
     psp_RestartPolicy (pt_Spec (sj_Template j)) = "Never" /\ sj_IgnoresDisruptions j = true /\
     sj_BackoffLimit j = Some (JobBackoffLimit opts) /\ sj_ActiveDeadlineSeconds j = None /\
     psp_ActiveDeadlineSeconds (pt_Spec (sj_Template j)) = deadline /\ isInterruptJob (sj_Job j) = false /\
     fits j /\ carries j) /\
  (exists j, createInterruptJobFromPackage opts i argEncode p skyhook nodeName stage = Ok j /\
     let j := setJobPackage skyhook stage p j in
     psp_RestartPolicy (pt_Spec (sj_Template j)) = "OnFailure" /\ sj_IgnoresDisruptions j = false /\
     sj_BackoffLimit j = Some MaxInt32 /\ sj_ActiveDeadlineSeconds j = deadline /\
     psp_ActiveDeadlineSeconds (pt_Spec (sj_Template j)) = None /\ isInterruptJob (sj_Job j) = true /\
     fits j /\ carries j).
Proof.
  cbv zeta. split.
  - destruct (createPod_ok opts p skyhook nodeName stage Hopts) as [pod Hpod].
    destruct (createPod_fields _ _ _ _ _ _ Hpod) as (mounts & _ & _ & Hn & Hnode & Hd).
    unfold createJobFromPackage. rewrite Hpod. eexists. split; [reflexivity|].
    unfold jobFromPod, ptr. split_and!; [by case_match|done|done|done|by case_match|done| | | | |by apply setJobPackage_carries].
    + cbn [setJobPackage set_sj sj_Job set_job_Annotations job_Name]. rewrite Hn. by apply safe_name_fits.
    + cbn [setJobPackage set_sj sj_Job set_job_Annotations job_NodeName]. by case_match.
    + cbn [setJobPackage set_sj sj_Template pt_Spec]. by case_match.
    + apply jobLabels_node.
  - destruct (createInterruptPod_ok opts i argEncode p skyhook nodeName stage Hopts) as [pod Hpod].
    destruct (createInterruptPod_fields _ _ _ _ _ _ _ _ Hpod) as (c & _ & _ & _ & _ & _ & Hn & Hnode & Hd).
    unfold createInterruptJobFromPackage. rewrite Hpod. eexists. split; [reflexivity|].
    unfold jobFromPod, ptr. split_and!; [done|done|done|done|done|done| |done|done| |by apply setJobPackage_carries].
    + cbn [setJobPackage set_sj sj_Job set_job_Annotations job_Name]. rewrite Hn. by apply safe_name_fits.
    + apply jobLabels_node.
Qed.

End JobBuilder.

(** Two packages of two resources whose Jobs on a node have one name. *)
Lemma generateSafeName_fits_witness :
  generateSafeName 63 ["gpu"; "driver-base"; "1.0"; "apply"; "node1"] =
  generateSafeName 63 ["gpu-driver"; "base"; "1.0"; "apply"; "node1"].
Proof. apply (generateSafeName_fits 63 ["gpu-driver"; "base"; "1.0"; "apply"; "node1"]); [lia|reflexivity]. Defined.

(** Quantities that are equal when their texts are. *)
#[local] Instance text_quantities : Quantities := {
  quantity_IsZero q := bool_decide (q = "0") || bool_decide (q = "");
  quantity_Equal a b := bool_decide (a = b);
  quantity_Equal_refl q := bool_decide_eq_true_2 _ eq_refl
}.
#[local] Existing Instance package_text.
#[local] Existing Instance example_syntax.

Definition tools : Package := plain_package "tools" "1" ∅.
Definition tuned : Skyhook := NewSkyhookWrapper tuning.

Definition at_generation (g : Z) (s : Skyhook) : Skyhook :=
  let nw := sk_nw s in
  NewSkyhookWrapper
    {| nw_Name := nw_Name nw; nw_UID := nw_UID nw; nw_Generation := g; nw_CreationTimestamp := nw_CreationTimestamp nw;
       nw_DeletionTimestamp := nw_DeletionTimestamp nw; nw_Finalizers := nw_Finalizers nw;
       nw_Annotations := nw_Annotations nw; Spec := Spec nw; nw_Status := nw_Status nw |}.

Lemma built_Job_matches_witness : exists j,
  createJobFromPackage default_options tools tuned "node1" StageConfig = Ok j /\
  jobMatchesPackage default_options tools (setJobPackage tuned StageConfig tools j) tuned StageConfig = Ok true.
Proof.
  apply (built_Job_matches default_options tools tuned "node1" StageConfig REBOOT ""); by vm_compute.
Defined.

Lemma generation_makes_stale_witness : exists j,
  createJobFromPackage default_options tools tuned "node1" StageApply = Ok j /\
  jobMatchesPackage default_options tools (setJobPackage tuned StageApply tools j) (at_generation 7 tuned) StageApply =
  Ok false.
Proof.
  apply (generation_makes_stale default_options tools tuned (at_generation 7 tuned) "node1" StageApply REBOOT "");
    by vm_compute.
Defined.

Lemma built_Job_shape_witness : exists j,
  createJobFromPackage default_options tools tuned "node1" StageApply = Ok j /\ sj_BackoffLimit j = Some 3.
Proof.
  destruct (built_Job_shape default_options tools tuned "node1" StageApply REBOOT "") as [(j & Hj & _ & _ & Hb & _) _];
    [by vm_compute|]. exists j. split; [exact Hj|exact Hb].
Defined.
