(* ===== verification/Handshake.v ===== *)
(** * The operator and the node agent

    What the operator puts on an agent's command line and into its environment
    ([JobBuilder], [Interrupt.ToArgs]) is what the agent reads there ([Agent],
    [HostInterrupts]). *)

From S2P Require Import Prelude Effects Encoding Sha256 Json Paths Host HostFs Stages Command Step PackageConfig Flags History HostInterrupts Agent StorePaths.
From S2P Require Import Graph Float64 DeploymentPolicy Api NodeState Skyhook Text Node Partition Introspect Merge Jobs Options JobBuilder.

#[local] Open Scope Z_scope.

(* ------------------------------------------------------------------ *)
(** ** Interrupts *)

Definition interrupt_json (i : Api.Interrupt) : json :=
  JObject (("type", JString (interrupt_type_string (int_Type i))) ::
           match int_Services i with [] => [] | services => [("services", JArray (map JString services))] end).

Section Handshake.
Context `{J : JSON}.

Definition Interrupt_ToArgs (i : Api.Interrupt) : string := b64_encode (json_print (interrupt_json (agent_interrupt i))).

(** The agent's name for an interrupt of a package. *)
Definition host_interrupt (i : Api.Interrupt) : option HostInterrupts.Interrupt :=
  match int_Type i with
  | REBOOT => Some NodeRestart
  | SERVICE => Some (ServiceRestart (int_Services i))
  | NOOP => Some NoOp
  | RESTART_ALL_SERVICES => Some RestartAllServices
  | InterruptOther _ => None
  end.

Lemma interrupt_valid i : host_interrupt i <> None -> Forall (fun s => valid_utf8 s = true) (int_Services i) ->
  json_valid (interrupt_json (agent_interrupt i)) = true.
Proof.
  intros Hh Hs. unfold interrupt_json. cbn [json_valid]. rewrite forallb_forall. intros kv Hkv. apply andb_true_iff.
  assert (forallb json_valid (map JString (int_Services i)) = true) as Hj.
  { rewrite forallb_forall. intros j (s & <- & Hin)%in_map_iff. rewrite List.Forall_forall in Hs. by apply Hs. }
  destruct Hkv as [<-|Hkv]; [split; [done|]; unfold host_interrupt in Hh; simpl; by destruct (int_Type i)|].
  simpl in Hkv. destruct (int_Services i) as [|x l]; [done|]. destruct Hkv as [<-|[]]. by split.
Qed.

Lemma decode_printed j : json_valid j = true -> rbind (b64_decode (b64_encode (json_print j))) (fun data => json_parse data) = Ok j.
Proof. intros Hj. rewrite b64_round_trip. simpl. by apply json_round_trip. Qed.

Lemma services_field type l : field (d_slice d_string "") [] "services" [("type", type); ("services", JArray (map JString l))] = Ok l.
Proof.
  unfold field. change (members_of _ _) with [JArray (map JString l)]. cbn [rfold]. rewrite d_strings. reflexivity.
Qed.

(** An interrupt of a package that the operator encodes for the agent is
    decoded by the agent as the interrupt that is meant, with its services. *)
Theorem interrupt_understood i h : host_interrupt i = Some h -> Forall (fun s => valid_utf8 s = true) (int_Services i) ->
  Interrupt_Decode (Interrupt_ToArgs i) = Ok h.
Proof.
  intros Hh Hs. unfold Interrupt_Decode, Interrupt_ToArgs. rewrite b64_round_trip. cbn [invalid rbind].
  rewrite json_round_trip by (apply interrupt_valid; congruence || done). cbn [invalid rbind struct_of interrupt_json].
  destruct i as [type services]. unfold host_interrupt, agent_interrupt, interrupt_type_string in *. cbn [int_Type int_Services] in *.
  destruct type; try done; injection Hh as <-; destruct services as [|x l]; try reflexivity.
  change (field (d_pointer d_string "") None "type" _) with (Ok (Some "service_restart")). cbn [invalid rbind].
  rewrite bool_decide_eq_false_2, bool_decide_eq_true_2 by done. by rewrite services_field.
Qed.

End Handshake.

(* ------------------------------------------------------------------ *)
(** ** Resource IDs *)

Lemma cut_at_first_free (c : ascii) s t : Paths.contains_char c s = false -> cut_at_first c (s +:+ String c t) = Some (s, t).
Proof.
  induction s as [|a s IH]; intros H; simpl in *; [by rewrite bool_decide_eq_true_2|]. apply orb_false_iff in H as [Ha Hs].
  apply bool_decide_eq_false in Ha. rewrite bool_decide_eq_false_2 by done. by rewrite IH.
Qed.

Lemma Base_plain s : plain s -> Base s = s.
Proof.
  intros (H1 & H2 & H3 & H4). unfold Base. rewrite bool_decide_eq_false_2 by done.
  assert (forall u, Paths.contains_char slash (str_rev u) = Paths.contains_char slash u) as Hrev.
  { induction u as [|y u IH]; [done|]. rewrite str_rev_cons, contains_char_app, IH. simpl. by rewrite orb_false_r, orb_comm. }
  assert (trim_left slash (str_rev s) = str_rev s) as ->.
  { pose proof (Hrev s) as Hr. rewrite H4 in Hr. destruct (str_rev s) as [|a u]; [done|]. simpl in *.
    apply orb_false_iff in Hr as [Ha _]. apply bool_decide_eq_false in Ha. by rewrite bool_decide_eq_false_2. }
  rewrite str_rev_involutive. rewrite cut_at_last_none by done. by rewrite bool_decide_eq_false_2.
Qed.

Lemma component_valid name s : plain s -> ValidatePathComponent name s = Ok tt.
Proof.
  intros Hp. pose proof Hp as (H1 & H2 & H3 & H4). unfold ValidatePathComponent. rewrite (proj1 (plain_local _ Hp)), Base_plain by done.
  rewrite !bool_decide_eq_false_2 by done. simpl. by rewrite bool_decide_eq_true_2.
Qed.

(** What an agent learns from its resource ID. *)
Definition identity (name version : string) : PackageConfig :=
  {| pc_SchemaVersion := ""; pc_RootDir := ""; pc_ExpectedConfigFiles := []; pc_PackageName := name; pc_PackageVersion := version; pc_Modes := ∅ |}.

Lemma resource_id_read resourceID name version : resourceID <> "" -> Paths.contains_char "_" resourceID = false ->
  plain name -> plain version -> Paths.contains_char "_" version = false ->
  configFromResourceID (resourceID +:+ "_" +:+ name +:+ "_" +:+ version) = Ok (identity name version).
Proof.
  intros Hr Hr' Hn Hv Hv'. unfold configFromResourceID.
  replace (resourceID +:+ "_" +:+ name +:+ "_" +:+ version) with ((resourceID +:+ "_" +:+ name) +:+ String "_" version) by
    (by rewrite !append_assoc).
  rewrite cut_at_last_app by done. pose proof Hn as [Hn1 _]. pose proof Hv as [Hv1 _].
  assert (resourceID +:+ "_" +:+ name <> "") as Hb by by destruct resourceID.
  rewrite !bool_decide_eq_false_2 by done. cbn [orb]. change ("_" +:+ name) with (String "_" name). rewrite cut_at_first_free by done.
  rewrite !bool_decide_eq_false_2 by done. cbn [orb]. by rewrite !component_valid.
Qed.

(** The names that Kubernetes and the package manifest admit. *)
Definition well_named (p : Package) (skyhook : Skyhook) : Prop :=
  Paths.contains_char "_" (nw_Name (sk_nw skyhook)) = false /\ Paths.contains_char "_" (nw_UID (sk_nw skyhook)) = false /\
  0 <= nw_Generation (sk_nw skyhook) /\ plain (pkg_Name p) /\ plain (pkg_Version p) /\ Paths.contains_char "_" (pkg_Version p) = false.

Lemma ResourceID_free p skyhook : well_named p skyhook -> Paths.contains_char "_" (ResourceID skyhook) = false /\ ResourceID skyhook <> "".
Proof.
  intros (Hn & Hu & Hg & _). unfold ResourceID. split; [|by destruct (nw_Name _)].
  rewrite !contains_char_app, Hn, Hu, show_int_free by done. done.
Qed.

(** The stages of a package that have steps. *)
Definition step_stages : list Api.Stage := [StageUninstall; StageUpgrade; StageApply; StagePostInterrupt; StageConfig].

(** What a container says to the agent in it: its arguments, and its package. *)
Definition understood (c : Container) (req : request) (p : Package) : Prop :=
  parseRequest (c_Args c) = Ok req /\
  exists before id after, c_Env c = before ++ {| env_Name := "SKYHOOK_RESOURCE_ID"; env_Value := id |} :: after /\
    (forall e, e ∈ after -> env_Name e <> "SKYHOOK_RESOURCE_ID") /\ configFromResourceID id = Ok (identity (pkg_Name p) (pkg_Version p)).

Lemma agent_envs_understood opts p skyhook order before : well_named p skyhook ->
  exists before' id after, before ++ getAgentConfigEnvVars opts (pkg_Name p) (pkg_Version p) (ResourceID skyhook) (nw_Name (sk_nw skyhook)) order =
    before' ++ {| env_Name := "SKYHOOK_RESOURCE_ID"; env_Value := id |} :: after /\
    (forall e, e ∈ after -> env_Name e <> "SKYHOOK_RESOURCE_ID") /\ configFromResourceID id = Ok (identity (pkg_Name p) (pkg_Version p)).
Proof.
  intros Hw. destruct (ResourceID_free _ _ Hw) as [Hf Hne]. pose proof Hw as (_ & _ & _ & Hn & Hv & Hv').
  unfold getAgentConfigEnvVars. match goal with |- context [before ++ [?a; ?b; ?c; ?d; ?e]] =>
    exists (before ++ [a; b; c]), (ResourceID skyhook +:+ "_" +:+ pkg_Name p +:+ "_" +:+ pkg_Version p), [e] end.
  split_and!; [by rewrite <- app_assoc| |by apply resource_id_read]. by intros e ->%list_elem_of_singleton.
Qed.

Lemma copy_dir_abs opts skyhook p : IsAbs (CopyDirRoot opts) = true -> IsAbs (copy_dir opts skyhook p) = true.
Proof. unfold copy_dir. apply IsAbs_app. Qed.

Lemma setPodResources_args `{Quantities} r l : Forall2 (fun c c' => c_Args c = c_Args c' /\ c_Env c = c_Env c') (setPodResources r l) l.
Proof.
  assert (forall f : Container -> Container, (forall c, c_Args (f c) = c_Args c /\ c_Env (f c) = c_Env c) ->
    Forall2 (fun c c' => c_Args c = c_Args c' /\ c_Env c = c_Env c') (map f l) l) as Hmap.
  { intros f Hf. induction l as [|c l IH]; [apply List.Forall2_nil|]. by apply List.Forall2_cons. }
  assert (Forall2 (fun c c' => c_Args c = c_Args c' /\ c_Env c = c_Env c') l l) as Hid by (rewrite <- (map_id l) at 1; by apply Hmap).
  destruct r as [r|]; [|exact Hid]. unfold setPodResources. destruct (_ || _); [|exact Hid]. by apply Hmap.
Qed.

Lemma stage_request opts skyhook p stage : stage ∈ step_stages -> IsAbs (CopyDirRoot opts) = true ->
  exists check, Stage.ApplyToCheck !! stage_string stage = Some check /\
  parseRequest [to_lower (stage_string stage); "/root"; copy_dir opts skyhook p] =
    Ok {| rq_stage := stage_string stage; rq_rootMount := "/root"; rq_copyDir := copy_dir opts skyhook p; rq_interruptData := "" |} /\
  parseRequest [to_lower (stage_string stage +:+ "-check"); "/root"; copy_dir opts skyhook p] =
    Ok {| rq_stage := check; rq_rootMount := "/root"; rq_copyDir := copy_dir opts skyhook p; rq_interruptData := "" |}.
Proof.
  intros Hs Ha%(copy_dir_abs _ skyhook p). generalize dependent (copy_dir opts skyhook p). intros dir Hd.
  assert (forall mode, mode ∈ Stage.All -> mode <> Stage.Interrupt -> parseRequest [mode; "/root"; dir] =
    Ok {| rq_stage := mode; rq_rootMount := "/root"; rq_copyDir := dir; rq_interruptData := "" |}) as Hp.
  { intros mode Hm Hne. unfold parseRequest. rewrite bool_decide_eq_false_2 by done. cbn [rbind].
    rewrite (proj2 (Stage.ParseStage_ok mode mode)) by done. unfold validateRequest. cbn [rq_stage rq_rootMount rq_copyDir rq_interruptData].
    rewrite (proj2 (Stage.ParseStage_ok mode mode)) by done. cbn [rbind]. rewrite Hd. change (IsAbs "/root") with true. cbn [negb].
    by rewrite (bool_decide_eq_false_2 (mode = Stage.Interrupt)), (bool_decide_eq_true_2 ("" = "")) by done. }
  unfold step_stages in Hs. rewrite !elem_of_cons, elem_of_nil in Hs.
  repeat destruct Hs as [->|Hs]; try done; (eexists; split; [vm_compute; reflexivity|]); split;
    (apply Hp; [apply (bool_decide_eq_true_1 _); vm_compute; reflexivity|vm_compute; discriminate]).
Qed.

(** C4: The two agents of a package's pod are told what the operator wants: the
    first runs the stage and the second its check, both on the host's root with
    the same copy of the package, and the resource ID that counts in their
    environment names the package and its version, whatever variables the package
    itself sets. *)
Theorem agents_understand `{MapRange} `{TaintSyntax} `{Quantities} opts p skyhook nodeName stage pod :
  createPodFromPackage opts p skyhook nodeName stage = Ok pod -> stage ∈ step_stages -> IsAbs (CopyDirRoot opts) = true ->
  well_named p skyhook ->
  exists init agent checker check, psp_InitContainers (bp_Spec pod) = [init; agent; checker] /\
    Stage.ApplyToCheck !! stage_string stage = Some check /\
    understood agent {| rq_stage := stage_string stage; rq_rootMount := "/root"; rq_copyDir := copy_dir opts skyhook p; rq_interruptData := "" |} p /\
    understood checker {| rq_stage := check; rq_rootMount := "/root"; rq_copyDir := copy_dir opts skyhook p; rq_interruptData := "" |} p.
Proof.
  unfold createPodFromPackage. rewrite rbind_ok. intros (tolerations & _ & [= <-]) Hs Ha Hw. cbn [bp_Spec psp_InitContainers].
  destruct (stage_request opts skyhook p stage Hs Ha) as (check & Hcheck & Hstage & Hcheckstage).
  match goal with |- context [setPodResources ?r ?l] => pose proof (setPodResources_args r l) as Hl; destruct (setPodResources r l) as [|init l0] end;
    [by apply Forall2_nil_inv_l in Hl|]. unfold package_containers in Hl.
  apply Forall2_cons_inv_l in Hl as (? & ? & _ & Hl & [= <- <-]).
  destruct l0 as [|agent l0]; [by apply Forall2_nil_inv_l in Hl|].
  apply Forall2_cons_inv_l in Hl as (? & ? & [Ea1 Ea2] & Hl & [= <- <-]).
  destruct l0 as [|checker l0]; [by apply Forall2_nil_inv_l in Hl|].
  apply Forall2_cons_inv_l in Hl as (? & ? & [Ec1 Ec2] & Hl & [= <- <-]). apply Forall2_nil_inv_r in Hl as ->.
  exists init, agent, checker, check. split_and!; [done|done|..]; unfold understood.
  - rewrite Ea1, Ea2. split; [exact Hstage|]. by apply agent_envs_understood.
  - rewrite Ec1, Ec2. split; [exact Hcheckstage|]. by apply agent_envs_understood.
Qed.

(* ------------------------------------------------------------------ *)
(** ** Samples *)

#[local] Existing Instance text_quantities.
#[local] Existing Instance example_syntax.

Lemma interrupt_understood_witness :
  let i := {| int_Type := SERVICE; int_Services := ["procps"; "cron"] |} in
  @Interrupt_Decode sample_JSON (@Interrupt_ToArgs sample_JSON i) = Ok (ServiceRestart ["procps"; "cron"]).
Proof.
  intros i. apply (@interrupt_understood sample_JSON i (ServiceRestart ["procps"; "cron"])); [reflexivity|].
  apply List.Forall_cons; [reflexivity|]. apply List.Forall_cons; [reflexivity|]. apply List.Forall_nil.
Defined.

Lemma agents_understand_witness : exists pod agent,
  createPodFromPackage default_options tools tuned "node1" StageApply = Ok pod /\ psp_InitContainers (bp_Spec pod) !! 1%nat = Some agent /\
  understood agent {| rq_stage := "apply"; rq_rootMount := "/root"; rq_copyDir := copy_dir default_options tuned tools; rq_interruptData := "" |} tools.
Proof.
  destruct (createPodFromPackage default_options tools tuned "node1" StageApply) as [pod|e|] eqn:E; [|by vm_compute in E..].
  assert (well_named tools tuned) as Hw by (unfold well_named; vm_compute; split_and!; first [reflexivity|discriminate]).
  destruct (agents_understand default_options tools tuned "node1" StageApply pod E) as (init & agent & checker & check & Hc & _ & Hu & _).
  - by do 2 right; left.
  - reflexivity.
  - exact Hw.
  - exists pod, agent. split_and!; [reflexivity|by rewrite Hc|exact Hu].
Defined.
