(* ===== verification/Server.v ===== *)
(** * The API server

    The calls of the main controller ([client.Client] and the helpers of
    [operator/internal/dal/dal.go]) and what they meet.  A [server] is a function
    of the calls made so far, so whatever other clients do in between is one of
    its answers; nothing is assumed of it.  A read that finds nothing returns nil
    ([client.IgnoreNotFound] in the data access layer). *)

From S2P Require Import Prelude Effects Graph DeploymentPolicy Api NodeState Skyhook Text Node Migration Ownership Partition Drain Merge Jobs JobBuilder.

#[local] Open Scope Z_scope.
#[local] Open Scope go_scope.

(* ------------------------------------------------------------------ *)
(** ** The API server *)

Record ConfigMap := {
  cfg_Name : string; cfg_Labels : gmap string string; cfg_Annotations : gmap string string;
  cfg_Data : gmap string string;
  cfg_OwnerReferences : list OwnerReference
}.

#[export] Instance ConfigMap_eq_dec : EqDecision ConfigMap.
Proof. solve_decision. Defined.

(** A resource of the group before the rename: its status is a text. *)
Record LegacySkyhook := { ls_Name : string; ls_Annotations : gmap string string; ls_Status : string }.

Inductive api_call :=
| ListLegacySkyhooks
| ListNodeWrights
| ListNodes
| ListDeploymentPolicies
| ListLabelledPods (matching : gmap string string)
| ListPods (node : string)
| ListSelectedPods (selector : LabelSelector) (node : string)
| EvictPod (namespace name : string) (grace : option Z)
| RemovePod (namespace name : string) (grace : option Z)
| ListJobs (matching : gmap string string) (present : list string)
| ReadJob (name : string)
| CreateJob (job : StageJob)
| RemoveJob (name : string)
| PatchJob (job : StageJob)
| ListConfigMaps (matching : gmap string string)
| ReadConfigMap (name : string)
| CreateConfigMap (cm : ConfigMap)
| UpdateConfigMap (cm : ConfigMap)
| RemoveConfigMap (name : string)
| SaveNode (skyhook : string) (original : option Node) (node : Node)
| EditNode (name : string) (remove : list Taint) (cordon : bool)
| PatchNode (node : Node)
| PatchNodeStatus (node : Node)
| ReadNodeWright (name : string)
| PatchNodeWright (nw : NodeWright)
| UpdateStatus (nw : NodeWright)
| PatchStatus (nw : NodeWright).

(** What the list of the old kind meets; the kind may be gone. *)
Inductive legacy_list := Listed (l : list LegacySkyhook) | NoSuchKind | Unlisted (e : error).

(** What a write meets. *)
Inductive write := Done | AlreadyExists | NotFound | Refused (e : error).

(** The answers, each a function of the calls made so far. *)
Record server := {
  sv_legacy : list api_call -> legacy_list;
  sv_nodewrights : list api_call -> res (list NodeWright);
  sv_nodes : list api_call -> res (list Node);
  sv_policies : list api_call -> res (list DeploymentPolicy);
  sv_labelled_pods : list api_call -> gmap string string -> res (list WorkloadPod);
  sv_pods : list api_call -> string -> res (list WorkloadPod);
  sv_selected_pods : list api_call -> LabelSelector -> string -> res (list WorkloadPod);
  sv_jobs : list api_call -> gmap string string -> list string -> res (list StageJob);
  sv_job : list api_call -> string -> res (option StageJob);
  sv_configmaps : list api_call -> gmap string string -> res (list ConfigMap);
  sv_configmap : list api_call -> string -> res (option ConfigMap);
  sv_write : list api_call -> api_call -> write;
  (** what the attempts of a write under an optimistic lock meet *)
  sv_attempts : list api_call -> string -> list attempt;
  (** the object that a patch or an update returns *)
  sv_node : list api_call -> Node -> res Node;
  sv_nodewright : list api_call -> NodeWright -> res NodeWright;
  sv_read_nodewright : list api_call -> string -> res (option NodeWright)
}.

Section Calls.
Context {S : Type} (srv : server).

Definition list_legacy : M api_call S legacy_list := call ListLegacySkyhooks (fun t => Ok (sv_legacy srv t)).
Definition list_nodewrights : M api_call S (list NodeWright) := call ListNodeWrights (fun t => sv_nodewrights srv t).
Definition list_nodes : M api_call S (list Node) := call ListNodes (fun t => sv_nodes srv t).
Definition list_policies : M api_call S (list DeploymentPolicy) := call ListDeploymentPolicies (fun t => sv_policies srv t).
Definition list_labelled_pods (matching : gmap string string) : M api_call S (list WorkloadPod) :=
  call (ListLabelledPods matching) (fun t => sv_labelled_pods srv t matching).
Definition list_pods (node : string) : M api_call S (list WorkloadPod) :=
  call (ListPods node) (fun t => sv_pods srv t node).
Definition list_selected_pods (selector : LabelSelector) (node : string) : M api_call S (list WorkloadPod) :=
  call (ListSelectedPods selector node) (fun t => sv_selected_pods srv t selector node).
Definition list_jobs (matching : gmap string string) (present : list string) : M api_call S (list StageJob) :=
  call (ListJobs matching present) (fun t => sv_jobs srv t matching present).
Definition read_job (name : string) : M api_call S (option StageJob) := call (ReadJob name) (fun t => sv_job srv t name).
Definition list_configmaps (matching : gmap string string) : M api_call S (list ConfigMap) :=
  call (ListConfigMaps matching) (fun t => sv_configmaps srv t matching).
Definition read_configmap (name : string) : M api_call S (option ConfigMap) :=
  call (ReadConfigMap name) (fun t => sv_configmap srv t name).

Definition attempts_at (c : api_call) (name : string) : M api_call S (list attempt) :=
  call c (fun t => Ok (sv_attempts srv t name)).
Definition patch_node (c : Node -> api_call) (node : Node) : M api_call S Node :=
  call (c node) (fun t => sv_node srv t node).
Definition write_nodewright (c : NodeWright -> api_call) (nw : NodeWright) : M api_call S NodeWright :=
  call (c nw) (fun t => sv_nodewright srv t nw).
Definition read_nodewright (name : string) : M api_call S (option NodeWright) :=
  call (ReadNodeWright name) (fun t => sv_read_nodewright srv t name).

Definition send_write (c : api_call) : M api_call S write := call c (fun t => Ok (sv_write srv t c)).

(** [if err := ...; err != nil]: any answer but success. *)
Definition must (c : api_call) : M api_call S unit := call c (fun t =>
  match sv_write srv t c with
  | Done => Ok tt
  | AlreadyExists => Err (errorf "already exists" [])
  | NotFound => Err (errorf "not found" [])
  | Refused e => Err e
  end).

(** [client.IgnoreNotFound] *)
Definition must_if_present (c : api_call) : M api_call S unit := call c (fun t =>
  match sv_write srv t c with
  | Done | NotFound => Ok tt
  | AlreadyExists => Err (errorf "already exists" [])
  | Refused e => Err e
  end).

Definition delete_job_foreground (job : StageJob) : M api_call S unit :=
  wrap "deleting job %s: %w" [job_Name (sj_Job job)] (must_if_present (RemoveJob (job_Name (sj_Job job)))).

End Calls.


(** [time.Second * 2] *)
Definition requeue_soon : Z := 2000000000.

(** A server with nothing on it, which takes every write and returns what it is
    sent. *)
Definition quiet_server : server :=
  {| sv_legacy _ := NoSuchKind; sv_nodewrights _ := Ok []; sv_nodes _ := Ok []; sv_policies _ := Ok [];
     sv_labelled_pods _ _ := Ok []; sv_pods _ _ := Ok []; sv_selected_pods _ _ _ := Ok []; sv_jobs _ _ _ := Ok []; sv_job _ _ := Ok None;
     sv_configmaps _ _ := Ok []; sv_configmap _ _ := Ok None; sv_write _ _ := Done; sv_attempts _ _ := [];
     sv_node _ n := Ok n; sv_nodewright _ nw := Ok nw; sv_read_nodewright _ _ := Ok None |}.
