(* ===== verification/RuntimeRequired.v ===== *)
(** * The runtime-required gate

    Models [HandleAutoTaint] and [HandleRuntimeRequired] of
    [operator/internal/controller/skyhook_controller.go] with their helpers, and
    [AddOrUpdateTaint], [DeleteTaint] and [RemoveTaint] of
    [k8s.io/kubernetes/pkg/util/taints] (vendored).  A taint is its key, value
    and effect; when it was added is left out.

    The patches here are JSON merge patches.  What the API server makes of one is
    the interface [JSONMergePatch]; its law is the case of an object that is
    still the one the patch was computed from, which is the only one that an
    optimistic lock lets through. *)

From S2P Require Import Prelude Effects Graph DeploymentPolicy Api NodeState Skyhook Text Node Compartment ClusterState Partition Introspect Options Drain Merge Jobs JobBuilder Server.

#[local] Open Scope Z_scope.
#[local] Open Scope go_scope.

Class JSONMergePatch := {
  json_merge : Node -> Node -> Node -> Node;
  json_merge_same : forall base new, json_merge base new base = new
}.

(* ------------------------------------------------------------------ *)
(** ** Taints *)

Definition DeleteTaint (taints : list Taint) (taintToDelete : Taint) : list Taint :=
  List.filter (fun t => negb (MatchTaint taintToDelete t)) taints.

Definition taints_RemoveTaint (node : Node) (taint : Taint) : Node * bool :=
  if negb (TaintExists (n_Taints node) taint) then (node, false)
  else (set_n_Taints (DeleteTaint (n_Taints node) taint) node, true).

(** The loop; [None] when it returns early. *)
Fixpoint add_taint (taint : Taint) (newTaints : list Taint) (updated : bool) (nodeTaints : list Taint) : option (list Taint) :=
  match nodeTaints with
  | [] => Some (if updated then newTaints else newTaints ++ [taint])
  | t :: nodeTaints =>
      if MatchTaint taint t then
        if bool_decide (taint = t) then None else add_taint taint (newTaints ++ [taint]) true nodeTaints
      else add_taint taint (newTaints ++ [t]) updated nodeTaints
  end.

Definition AddOrUpdateTaint (node : Node) (taint : Taint) : Node * bool :=
  match add_taint taint [] false (n_Taints node) with
  | None => (node, false)
  | Some taints => (set_n_Taints taints node, true)
  end.

Section RuntimeRequired.
Context `{MR : MapRange} `{JS : NodeStateJSON} `{TT : TimeText} `{TS : TaintSyntax} `{JM : JSONMergePatch}.
Context {S : Type} (srv : server) (opts : SkyhookOperatorOptions).

Local Notation P := (M api_call S).

(* ------------------------------------------------------------------ *)
(** ** Tainting new nodes *)

Definition autoTaint_key (taint : Taint) : string := node_key "autoTaint" (taint_Key taint).

Definition auto_taint (taint : Taint) (acc : bool * list error) (node : Node) : P (bool * list error) :=
  let '(newNode, updated) := AddOrUpdateTaint node taint in
  if negb updated then ret acc
  else
    let newNode := set_n_Annotations (<[autoTaint_key taint := annotationTrueValue]> (n_Annotations newNode)) newNode in
    let* e := try (patch_node srv PatchNode newNode) in
    ret (true, acc.2 ++ option_list e).

Definition HandleAutoTaint (rs : list skyhookNodes) : P bool :=
  let* taint_to_add := lift (GetRuntimeRequiredTaint opts) in
  let* recognised := lift (GetRuntimeRequiredTaints opts) in
  let* '(changed, errs) := loop (auto_taint taint_to_add) (false, []) (getAutoTaintNodes rs recognised) in
  let* _ := lift (aggregate errs) in
  ret changed.

(* ------------------------------------------------------------------ *)
(** ** Which nodes are done *)

Definition runtimeRequiredCordonAfterEnabled (skyhooks : list skyhookNodes) : bool :=
  any (fun s => RuntimeRequired (sns_Spec s) && RuntimeRequiredCordonAfter (sns_Spec s)) skyhooks.

Definition entry_UID (e : NodeEntry) : string := n_UID (sn_Node (ne_Only e)).

Definition node_groups : Type := gmap string (list skyhookNodes) * gmap string Node.

Definition group_node (s : skyhookNodes) (acc : node_groups) (e : NodeEntry) : node_groups :=
  let uid := entry_UID e in
  match acc.1 !! uid with
  | None => (<[uid := [s]]> acc.1, <[uid := sn_Node (ne_Only e)]> acc.2)
  | Some l => (<[uid := l ++ [s]]> acc.1, acc.2)
  end.

Definition groupSkyhooksByNode (rs : list skyhookNodes) : node_groups :=
  foldl (fun acc s => if negb (RuntimeRequired (sns_Spec s)) then acc else foldl (group_node s) acc (sns_nodes s))
    (∅, ∅) rs.

Definition complete_on (name : string) (s : skyhookNodes) : bool :=
  match (sns_GetNode s name).2 with Some e => entry_IsComplete s e | None => false end.

(** A group always has its node: both maps get the key in one step. *)
Definition getRuntimeRequiredTaintCompleteNodes (groups : node_groups) : list Node :=
  omap (fun kv : string * list skyhookNodes =>
    match groups.2 !! kv.1 with
    | Some node => if all (complete_on (n_Name node)) kv.2 then Some node else None
    | None => None
    end) (range groups.1).

(* ------------------------------------------------------------------ *)
(** ** Lifting the gate *)

Definition remove_taints (taintsToRemove : list Taint) (node : Node) : Node * bool :=
  foldl (fun acc t => let '(next, updated) := taints_RemoveTaint acc.1 t in if updated then (next, true) else acc)
    (node, false) taintsToRemove.

Definition cordon_after (node : Node) : Node :=
  set_n_Unschedulable true
    (set_n_Annotations (<[RuntimeRequiredCordonAnnotation := annotationTrueValue]> (n_Annotations node)) node).

(** One attempt; [None] is a conflict. *)
Definition remove_attempt (taintsToRemove : list Taint) (cordonAfter : bool) (a : attempt) : option outcome :=
  match rwrap "re-reading node before patching: %w" [] (at_read a) with
  | Err e => Some (Failed e)
  | Panic => None
  | Ok None => Some Gone
  | Ok (Some (node, rv)) =>
      let '(current, changed) := remove_taints taintsToRemove node in
      if negb changed then Some Unchanged
      else
        let current := if cordonAfter then cordon_after current else current in
        if bool_decide (at_version a = rv) then Some (Saved (json_merge node current (at_current a))) else None
  end.

Definition removeRuntimeRequiredTaints (nodeName : string) (taintsToRemove : list Taint) (cordonAfter : bool) : P unit :=
  let* attempts := attempts_at srv (EditNode nodeName taintsToRemove cordonAfter) nodeName in
  match RetryOnConflict retry_steps (remove_attempt taintsToRemove cordonAfter) attempts with
  | Failed e => raise e
  | Gone | Unchanged | Saved _ => ret tt
  end.

Definition lift_gate (groups : node_groups) (taintsToRemove : list Taint) (errs : list error) (node : Node) : P (list error) :=
  let cordonAfter := runtimeRequiredCordonAfterEnabled (default [] (groups.1 !! n_UID node)) in
  let* e := try (wrap "removing runtime-required taints from node %s: %w" [n_Name node]
                   (removeRuntimeRequiredTaints (n_Name node) taintsToRemove cordonAfter)) in
  ret (errs ++ option_list e).

(** A cordon annotation on a node that someone has uncordoned. *)
Definition stale_cordon (node : Node) : bool :=
  negb (n_Unschedulable node) && match n_Annotations node !! RuntimeRequiredCordonAnnotation with Some _ => true | None => false end.

Definition drop_stale_cordon (errs : list error) (node : Node) : P (list error) :=
  if stale_cordon node then
    let new_node := set_n_Annotations (delete RuntimeRequiredCordonAnnotation (n_Annotations node)) node in
    let* e := try (wrap "removing runtime-required cordon annotation from node %s: %w" [n_Name node]
                     (patch_node srv PatchNode new_node)) in
    ret (errs ++ option_list e)
  else ret errs.

Definition HandleRuntimeRequired (rs : list skyhookNodes) (nodes : list Node) : P unit :=
  let groups := groupSkyhooksByNode rs in
  let to_remove := getRuntimeRequiredTaintCompleteNodes groups in
  let* taints_to_remove := lift (GetRuntimeRequiredTaints opts) in
  let* errs := loop (lift_gate groups taints_to_remove) [] to_remove in
  let* errs := loop drop_stale_cordon errs nodes in
  lift (aggregate errs).

(* ------------------------------------------------------------------ *)
(** ** Lemmas: taints *)

Lemma TaintExists_true l t : TaintExists l t = true <-> exists x, x ∈ l /\ MatchTaint t x = true.
Proof.
  unfold TaintExists. rewrite any_true. split; intros (x & Hx & H); exists x; (split; [done|]);
    unfold MatchTaint in *; rewrite !andb_true_iff, !bool_decide_eq_true in *; intuition congruence.
Qed.

Lemma DeleteTaint_absent l t : TaintExists l t = false -> DeleteTaint l t = l.
Proof.
  intros H. assert (Hn : forall x, x ∈ l -> MatchTaint t x = false).
  { intros x Hx. destruct (MatchTaint t x) eqn:E; [|done]. rewrite <- H. symmetry. apply TaintExists_true. eauto. }
  clear H. induction l as [|x l IH]; simpl; [done|]. rewrite Hn by (by left). simpl. f_equal. apply IH.
  intros y Hy. apply Hn. by right.
Qed.

(** Not matched by a taint of [rs]. *)
Definition unmatched (rs : list Taint) (t : Taint) : bool := negb (any (fun r => MatchTaint r t) rs).

Lemma remove_taints_spec rs node :
  remove_taints rs node =
    (set_n_Taints (List.filter (unmatched rs) (n_Taints node)) node, any (TaintExists (n_Taints node)) rs).
Proof.
  unfold remove_taints. set (step := fun acc t => _).
  assert (Hgen : forall b n, foldl step (n, b) rs =
    (set_n_Taints (List.filter (unmatched rs) (n_Taints n)) n, b || any (TaintExists (n_Taints n)) rs)).
  { induction rs as [|r rs IH]; intros b n; simpl.
    { rewrite orb_false_r. f_equal. destruct n; simpl. unfold set_n_Taints; simpl. f_equal. symmetry.
      by apply forallb_filter_id, forallb_forall. }
    unfold step at 2. cbn [fst]. unfold taints_RemoveTaint.
    assert (Hf : forall l, List.filter (unmatched rs) (DeleteTaint l r) = List.filter (unmatched (r :: rs)) l).
    { induction l as [|x l IHl]; simpl; [done|]. unfold unmatched at 2. simpl. destruct (MatchTaint r x); simpl; [exact IHl|].
      change (negb (any (fun r0 => MatchTaint r0 x) rs)) with (unmatched rs x). destruct (unmatched rs x); [by f_equal|exact IHl]. }
    destruct (TaintExists (n_Taints n) r) eqn:E; simpl.
    - rewrite IH. cbn [n_Taints set_n_Taints]. rewrite Hf. f_equal. by destruct b.
    - rewrite IH. rewrite <- Hf, DeleteTaint_absent by done. done. }
  rewrite Hgen. done.
Qed.

(** Taking the gate away is one write: of what it read it changes the taints, and
    with [cordonAfter] the cordon and its annotation. *)
Definition gate_lifted (taintsToRemove : list Taint) (cordonAfter : bool) (node m : Node) : Prop :=
  n_Taints m = List.filter (unmatched taintsToRemove) (n_Taints node) /\
  n_Unschedulable m = cordonAfter || n_Unschedulable node /\
  n_Annotations m = (if cordonAfter then <[RuntimeRequiredCordonAnnotation := annotationTrueValue]> (n_Annotations node)
                     else n_Annotations node) /\
  n_Labels m = n_Labels node /\ n_Conditions m = n_Conditions node.

(** An attempt to lift the runtime-required gate from a node that carries a
    recognised taint writes only if the node is still the one it read, and what
    it writes has none of the recognised taints, every other taint, and, where a
    resource asks for it, the operator's cordon, in that same write: there is no
    moment at which the node has neither the taint nor the cordon.  Labels and
    conditions are not touched.  A node without a recognised taint is not
    written, and a node that is gone is not an error. *)
Theorem gate_lifted_at_once (taintsToRemove : list Taint) (cordonAfter : bool) (node : Node) (v v' : Z) :
  let attempt := remove_attempt taintsToRemove cordonAfter {| at_read := Ok (Some (node, v)); at_current := node; at_version := v' |} in
  (any (TaintExists (n_Taints node)) taintsToRemove = false -> attempt = Some Unchanged) /\
  (any (TaintExists (n_Taints node)) taintsToRemove = true ->
    (v' <> v -> attempt = None) /\
    (v' = v -> exists m, attempt = Some (Saved m) /\ gate_lifted taintsToRemove cordonAfter node m /\
       any (TaintExists (n_Taints m)) taintsToRemove = false)) /\
  remove_attempt taintsToRemove cordonAfter {| at_read := Ok None; at_current := node; at_version := v' |} = Some Gone.
Proof.
  cbv zeta. unfold remove_attempt. cbn [at_read at_version at_current rwrap]. rewrite remove_taints_spec. split_and!; [|intros H|done].
  - intros ->. done.
  - rewrite H. cbn [negb]. case_bool_decide as Hv; (split; intros ?; [done|]).
    + eexists. rewrite json_merge_same. split; [done|]. split; [by destruct cordonAfter|].
      replace (n_Taints _) with (List.filter (unmatched taintsToRemove) (n_Taints node)) by by destruct cordonAfter.
      apply not_true_iff_false. intros (r & Hr & (x & Hx & Hm)%TaintExists_true)%any_true.
      apply list_elem_of_In, filter_In in Hx as [_ Hx]. apply negb_true_iff, not_true_iff_false in Hx. apply Hx, any_true. eauto.
    + done.
Qed.

(* ------------------------------------------------------------------ *)
(** ** Lemmas: grouping *)

Definition required (s : skyhookNodes) : bool := RuntimeRequired (sns_Spec s).

(** The runtime-required resources with their nodes, in order. *)
Definition required_pairs (rs : list skyhookNodes) : list (skyhookNodes * NodeEntry) :=
  rs ≫= fun s => if required s then map (pair s) (sns_nodes s) else [].

Lemma elem_of_required_pairs rs s e : (s, e) ∈ required_pairs rs <-> s ∈ rs /\ required s = true /\ e ∈ sns_nodes s.
Proof.
  unfold required_pairs. rewrite list_elem_of_bind. split.
  - intros (s' & H & Hs). destruct (required s') eqn:E; [|by apply elem_of_nil in H].
    apply list_elem_of_fmap in H as (e' & [= <- <-] & He). done.
  - intros (Hs & Hr & He). exists s. rewrite Hr. split; [|done]. by apply list_elem_of_fmap_2.
Qed.

Definition with_uid (uid : string) (l : list (skyhookNodes * NodeEntry)) : list (skyhookNodes * NodeEntry) :=
  List.filter (fun p => bool_decide (entry_UID p.2 = uid)) l.

Definition grouped (l : list (skyhookNodes * NodeEntry)) (acc : node_groups) : Prop := forall uid,
  match with_uid uid l with
  | [] => acc.1 !! uid = None
  | p :: l' => acc.1 !! uid = Some (map fst (p :: l')) /\ acc.2 !! uid = Some (sn_Node (ne_Only p.2))
  end.

Lemma group_step l acc s e : grouped l acc -> grouped (l ++ [(s, e)]) (group_node s acc e).
Proof.
  intros H uid. pose proof (H uid) as Hu. unfold with_uid in *. rewrite List.filter_app. simpl.
  unfold group_node. pose proof (H (entry_UID e)) as He. unfold with_uid in He. case_bool_decide as E.
  - rewrite E in *. destruct (List.filter _ l) as [|p l']; simpl.
    + rewrite Hu. simpl. rewrite !lookup_insert_eq. done.
    + destruct Hu as [Hg Hn]. rewrite Hg. simpl. rewrite lookup_insert_eq, map_app, Hn. done.
  - rewrite app_nil_r. destruct (acc.1 !! entry_UID e); simpl; by rewrite ?lookup_insert_ne by done.
Qed.

Lemma groups_grouped rs : grouped (required_pairs rs) (groupSkyhooksByNode rs).
Proof.
  unfold groupSkyhooksByNode. assert (Hnodes : forall s nodes l acc, grouped l acc ->
    grouped (l ++ map (pair s) nodes) (foldl (group_node s) acc nodes)).
  { intros s nodes. induction nodes as [|e nodes IH]; intros l acc H; simpl; [by rewrite app_nil_r|].
    rewrite cons_middle, app_assoc. apply IH. by apply group_step. }
  assert (Hrs : forall rs l acc, grouped l acc -> grouped (l ++ required_pairs rs)
    (foldl (fun acc s => if negb (RuntimeRequired (sns_Spec s)) then acc else foldl (group_node s) acc (sns_nodes s)) acc rs)).
  { clear rs. induction rs as [|s rs IH]; intros l acc H; simpl; [by rewrite app_nil_r|].
    change (required_pairs (s :: rs)) with ((if required s then map (pair s) (sns_nodes s) else []) ++ required_pairs rs).
    rewrite app_assoc. apply IH. unfold required. destruct (RuntimeRequired (sns_Spec s)); simpl; [by apply Hnodes|].
    by rewrite app_nil_r. }
  apply (Hrs rs [] (∅, ∅)). intros uid. done.
Qed.

(** UIDs and names are two ways to say which node. *)
Definition names_are_uids (rs : list skyhookNodes) : Prop := forall p p',
  p ∈ required_pairs rs -> p' ∈ required_pairs rs -> entry_UID p.2 = entry_UID p'.2 <-> entry_name p.2 = entry_name p'.2.

(** A runtime-required resource has the node, and all that have it are done
    with it. *)
Definition gate_open (rs : list skyhookNodes) (name : string) : Prop :=
  (exists p, p ∈ required_pairs rs /\ entry_name p.2 = name) /\
  forall p, p ∈ required_pairs rs -> entry_name p.2 = name -> complete_on name p.1 = true.

(** One of them wants the node cordoned afterwards. *)
Definition wants_cordon (rs : list skyhookNodes) (name : string) : bool :=
  any (fun p => bool_decide (entry_name p.2 = name) && RuntimeRequiredCordonAfter (sns_Spec p.1)) (required_pairs rs).

Lemma with_uid_name rs p l q : names_are_uids rs -> with_uid (entry_UID q.2) (required_pairs rs) = p :: l -> q ∈ required_pairs rs ->
  forall r, r ∈ p :: l <-> r ∈ required_pairs rs /\ entry_name r.2 = entry_name q.2.
Proof.
  intros Hid <- Hq r. unfold with_uid. rewrite list_elem_of_In, filter_In, <- list_elem_of_In, bool_decide_eq_true. split.
  - intros [Hr He]. split; [done|]. by apply (Hid r q).
  - intros [Hr He]. split; [done|]. by apply (Hid r q).
Qed.

Lemma with_uid_in rs uid p l : with_uid uid (required_pairs rs) = p :: l -> p ∈ required_pairs rs /\ entry_UID p.2 = uid.
Proof.
  intros H. assert (Hp : p ∈ with_uid uid (required_pairs rs)) by (rewrite H; by left).
  unfold with_uid in Hp. by rewrite list_elem_of_In, filter_In, <- list_elem_of_In, bool_decide_eq_true in Hp.
Qed.

Lemma complete_nodes rs node : names_are_uids rs ->
  node ∈ getRuntimeRequiredTaintCompleteNodes (groupSkyhooksByNode rs) ->
  gate_open rs (n_Name node) /\
  runtimeRequiredCordonAfterEnabled (default [] ((groupSkyhooksByNode rs).1 !! n_UID node)) = wants_cordon rs (n_Name node).
Proof.
  intros Hid ([uid l] & Hin%elem_of_range & H)%list_elem_of_omap. simpl in H. pose proof (groups_grouped rs uid) as Hg.
  destruct (with_uid uid (required_pairs rs)) as [|p ps] eqn:E; [congruence|]. destruct Hg as [Hg Hn].
  rewrite Hn in H. destruct (all _ l) eqn:Ha; [|done]. injection H as <-.
  destruct (with_uid_in _ _ _ _ E) as [Hp <-]. pose proof (with_uid_name _ _ _ p Hid E Hp) as Hin'.
  rewrite Hg in Hin. injection Hin as <-. rewrite all_true in Ha. split.
  - split; [by exists p|]. intros q Hq Hn'. apply Ha. apply (list_elem_of_fmap_2 fst (p :: ps) q), Hin'. done.
  - change (n_UID (sn_Node (ne_Only p.2))) with (entry_UID p.2). rewrite Hg. cbn [default].
    apply eq_true_iff_eq. unfold wants_cordon, runtimeRequiredCordonAfterEnabled. rewrite !any_true. split.
    + intros (s & (q & -> & Hq)%list_elem_of_fmap & [_ Hc]%andb_true_iff). apply Hin' in Hq as [Hq He].
      exists q. split; [done|]. by rewrite bool_decide_eq_true_2, Hc.
    + intros (q & Hq & [He%bool_decide_eq_true Hc]%andb_true_iff). exists q.1.
      split; [by apply (list_elem_of_fmap_2 fst (p :: ps) q), Hin'|]. rewrite Hc. destruct q as [s e].
      apply elem_of_required_pairs in Hq as (_ & Hr & _). unfold required in Hr. cbn [fst]. by rewrite Hr.
Qed.

Lemma open_complete rs name : names_are_uids rs -> gate_open rs name ->
  exists node, node ∈ getRuntimeRequiredTaintCompleteNodes (groupSkyhooksByNode rs) /\ n_Name node = name.
Proof.
  intros Hid [(q & Hq & <-) Hall]. pose proof (groups_grouped rs (entry_UID q.2)) as Hg.
  destruct (with_uid (entry_UID q.2) (required_pairs rs)) as [|p ps] eqn:E.
  { assert (Hq' : q ∈ with_uid (entry_UID q.2) (required_pairs rs)).
    { unfold with_uid. rewrite list_elem_of_In, filter_In, <- list_elem_of_In, bool_decide_eq_true. done. }
    rewrite E in Hq'. by apply elem_of_nil in Hq'. }
  destruct Hg as [Hg Hn]. pose proof (with_uid_name _ _ _ q Hid E Hq) as Hin.
  destruct (proj1 (Hin p) (list_elem_of_here _ _)) as [_ Hname].
  exists (sn_Node (ne_Only p.2)). split; [|done]. apply list_elem_of_omap. exists (entry_UID q.2, map fst (p :: ps)).
  split; [by apply elem_of_range|]. cbn [fst snd]. rewrite Hn.
  replace (all _ _) with true; [done|]. symmetry. apply all_true. intros s (r & -> & [Hr Her]%Hin)%list_elem_of_fmap.
  change (n_Name (sn_Node (ne_Only p.2))) with (entry_name p.2). rewrite Hname. by apply Hall.
Qed.

(* ------------------------------------------------------------------ *)
(** ** The pass *)

(** Answers are answers: a patch is not a nil pointer. *)
Definition answering : Prop := forall t node, sv_node srv t node <> Panic.

(** What a program adds to the trace, whatever happens. *)
Definition does {A} (m : P A) (l : list api_call) (s : Effects.pass api_call S) (a : A) : Prop :=
  m s = ({| trace := trace s ++ l; mem := mem s |}, Ok a).

Lemma lift_gate_does groups remove errs node s : exists errs', does (lift_gate groups remove errs node)
  [EditNode (n_Name node) remove (runtimeRequiredCordonAfterEnabled (default [] (groups.1 !! n_UID node)))] s errs'.
Proof.
  unfold does, lift_gate, removeRuntimeRequiredTaints, attempts_at, call, try, wrap, bind. cbn [fst snd].
  destruct (RetryOnConflict retry_steps _ _); simpl; eauto.
Qed.

Lemma drop_stale_cordon_does errs node s : answering -> exists errs', does (drop_stale_cordon errs node)
  (if stale_cordon node then [PatchNode (set_n_Annotations (delete RuntimeRequiredCordonAnnotation (n_Annotations node)) node)] else [])
  s errs'.
Proof.
  intros Hs. unfold does, drop_stale_cordon. destruct (stale_cordon node); [|exists errs; rewrite app_nil_r; by destruct s].
  unfold patch_node, call, try, wrap, bind. simpl.
  set (n := set_n_Annotations _ node). pose proof (Hs (trace s) n). destruct (sv_node srv (trace s) n); simpl; [eauto..|done].
Qed.

Lemma loop_does {A B} (f : B -> A -> P B) (g : A -> list api_call) l : (forall acc a s, exists acc', does (f acc a) (g a) s acc') ->
  forall acc s, exists acc', does (loop f acc l) (l ≫= g) s acc'.
Proof.
  intros H. unfold does. induction l as [|a l IH]; intros acc s; simpl.
  - exists acc. rewrite app_nil_r. by destruct s.
  - destruct (H acc a s) as [acc1 H1]. unfold bind. rewrite H1.
    destruct (IH acc1 {| trace := trace s ++ g a; mem := mem s |}) as [acc2 H2]. exists acc2. rewrite H2. simpl. by rewrite <- app_assoc.
Qed.

Lemma HandleRuntimeRequired_run rs nodes remove s : answering -> GetRuntimeRequiredTaints opts = Ok remove ->
  let groups := groupSkyhooksByNode rs in
  trace (HandleRuntimeRequired rs nodes s).1 = trace s ++
    (getRuntimeRequiredTaintCompleteNodes groups ≫= fun node =>
       [EditNode (n_Name node) remove (runtimeRequiredCordonAfterEnabled (default [] (groups.1 !! n_UID node)))]) ++
    (nodes ≫= fun node => if stale_cordon node
       then [PatchNode (set_n_Annotations (delete RuntimeRequiredCordonAnnotation (n_Annotations node)) node)] else []).
Proof.
  intros Hs Hr groups. unfold HandleRuntimeRequired. fold groups. rewrite Hr. unfold bind at 1, lift at 1.
  match goal with |- context [bind (loop (lift_gate groups remove) [] ?l) _] =>
    destruct (loop_does (lift_gate groups remove) _ l (lift_gate_does groups remove) [] s) as [errs H] end.
  unfold bind at 1. rewrite H.
  match goal with |- context [bind (loop drop_stale_cordon errs nodes) _ ?s'] =>
    destruct (loop_does drop_stale_cordon _ nodes (fun acc a s => drop_stale_cordon_does acc a s Hs) errs s') as [errs' H'] end.
  unfold bind at 1. rewrite H'. simpl. by rewrite <- app_assoc.
Qed.

(** With valid options, [HandleRuntimeRequired] lifts the gate from a node
    exactly if it is open: some runtime-required resource has the node, and every
    runtime-required resource that has it has completed on it, whatever happens
    on other nodes.  Each such write removes every taint the operator recognises,
    the legacy one included, and cordons the node in the same write exactly if
    one of those resources asks for it.  The only other writes drop the cordon
    annotation from nodes that are not cordoned any more; a failed write of one
    node keeps no other node from its own. *)
Theorem HandleRuntimeRequired_spec (rs : list skyhookNodes) (nodes : list Node) (s : Effects.pass api_call S)
    (Hid : names_are_uids rs) (Hs : answering) (Hv : Options_Validate opts = Ok tt) :
  exists configured legacy remove l,
    GetRuntimeRequiredTaint opts = Ok configured /\ legacy_taint = Ok legacy /\
    TaintExists remove configured = true /\ TaintExists remove legacy = true /\
    trace (HandleRuntimeRequired rs nodes s).1 = trace s ++ l /\
    (forall name, (exists remove' cordon, EditNode name remove' cordon ∈ l) <-> gate_open rs name) /\
    (forall name remove' cordon, EditNode name remove' cordon ∈ l -> remove' = remove /\ cordon = wants_cordon rs name) /\
    (forall c, c ∈ l -> (exists name r b, c = EditNode name r b) \/
       exists node, node ∈ nodes /\ n_Unschedulable node = false /\
         c = PatchNode (set_n_Annotations (delete RuntimeRequiredCordonAnnotation (n_Annotations node)) node)).
Proof.
  destruct (Validate_taint opts Hv) as (configured & _ & Hc & _). exists configured.
  pose proof (legacy_taint_ok) as Hl. set (legacy := {| taint_Key := _ |}) in Hl. exists legacy.
  assert (Hr : GetRuntimeRequiredTaints opts = Ok (if MatchTaint configured legacy then [configured] else [configured; legacy])).
  { unfold GetRuntimeRequiredTaints. by rewrite Hc, Hl. }
  set (remove := if MatchTaint configured legacy then _ else _) in Hr. exists remove.
  rewrite (HandleRuntimeRequired_run rs nodes remove s Hs Hr). eexists. split; [done|]. split; [done|].
  assert (Hself : forall t, MatchTaint t t = true) by (intros t; unfold MatchTaint; by rewrite !bool_decide_eq_true_2).
  split; [apply any_true; exists configured; split; [|apply Hself]; unfold remove; case_match; by left|].
  split.
  { apply any_true. unfold remove. destruct (MatchTaint configured legacy) eqn:E; [exists configured; split; [by left|done]|].
    exists legacy. split; [right; by left|apply Hself]. }
  split; [done|].
  assert (Hin : forall c, c ∈ (getRuntimeRequiredTaintCompleteNodes (groupSkyhooksByNode rs) ≫= fun node =>
       [EditNode (n_Name node) remove (runtimeRequiredCordonAfterEnabled (default [] ((groupSkyhooksByNode rs).1 !! n_UID node)))]) ++
    (nodes ≫= fun node => if stale_cordon node
       then [PatchNode (set_n_Annotations (delete RuntimeRequiredCordonAnnotation (n_Annotations node)) node)] else []) <->
    (exists name, gate_open rs name /\ c = EditNode name remove (wants_cordon rs name)) \/
    (exists node, node ∈ nodes /\ stale_cordon node = true /\
       c = PatchNode (set_n_Annotations (delete RuntimeRequiredCordonAnnotation (n_Annotations node)) node))).
  { intros c. rewrite elem_of_app, !list_elem_of_bind. match goal with |- (?a \/ ?b) <-> (?c \/ ?d) => cut ((a <-> c) /\ (b <-> d)); [tauto|split] end.
    - split.
      + intros (node & Hn%list_elem_of_singleton & Hin). destruct (complete_nodes rs node Hid Hin) as [Ho Hw].
        exists (n_Name node). rewrite Hn, Hw. done.
      + intros (name & Ho & ->). destruct (open_complete rs name Hid Ho) as (node & Hin & <-).
        exists node. destruct (complete_nodes rs node Hid Hin) as [_ ->]. split; [by left|done].
    - split.
      + intros (node & H & Hn). exists node. destruct (stale_cordon node); [|by apply elem_of_nil in H].
        apply list_elem_of_singleton in H. done.
      + intros (node & Hn & Hst & ->). exists node. rewrite Hst. split; [by left|done]. }
  split; [|split].
  - intros name. split.
    + intros (r & b & [(name' & Ho & [= <- _ _])|(node & _ & _ & [=])]%Hin). done.
    + intros Ho. exists remove, (wants_cordon rs name). apply Hin. left. eauto.
  - intros name r b [(name' & Ho & [= <- -> ->])|(node & _ & _ & [=])]%Hin. done.
  - intros c [(name & _ & ->)|(node & Hn & Hst & ->)]%Hin; [left; eauto|right]. exists node. split; [done|]. split; [|done].
    unfold stale_cordon in Hst. by destruct (n_Unschedulable node).
Qed.

End RuntimeRequired.

(* ------------------------------------------------------------------ *)
(** ** Witness *)

#[local] Existing Instance example_json.
#[local] Existing Instance example_syntax.

#[local] Instance last_writer : JSONMergePatch := { json_merge base new current := new; json_merge_same base new := eq_refl }.

Definition required_spec (cordonAfter : bool) : NodeWrightSpec :=
  let s := plain_spec ∅ in
  {| Serial := false; PodNonInterruptLabels := PodNonInterruptLabels s; NodeSelector := NodeSelector s;
     sp_DeploymentPolicy := ""; DeploymentPolicyOptions := None;
     sp_InterruptionBudget := sp_InterruptionBudget s; sp_DrainConfig := None; sp_Packages := ∅;
     AdditionalTolerations := []; RuntimeRequired := true; RuntimeRequiredCordonAfter := cordonAfter;
     AutoTaintNewNodes := true; Priority := 200; Sequencing := SequencingNode |}.

(** A node that still has the taint of the old name. *)
Definition gated_node : Node :=
  set_n_Taints [{| taint_Key := "skyhook.nvidia.com"; taint_Value := "runtime-required"; taint_Effect := "NoSchedule" |}]
    (bare_node "n1").

Definition required_resource (name : string) (cordonAfter : bool) : skyhookNodes :=
  {| sns_skyhook := NewSkyhookWrapper (plain_nodewright name (required_spec cordonAfter) empty_status);
     sns_nodes := [{| ne_Only := {| sn_Node := gated_node; sn_skyhookName := name; sn_nodeState := Some ∅; sn_updated := false |};
                      ne_graph := Graph.New; ne_Updated := false |}];
     sns_priorStatus := StatusEmpty; sns_compartments := ∅; sns_deploymentPolicy := None |}.

Definition required_resources : list skyhookNodes := [required_resource "drivers" false; required_resource "tuning" true].

Lemma HandleRuntimeRequired_spec_witness :
  exists remove, EditNode "n1" remove true ∈
    trace (HandleRuntimeRequired (S := unit) quiet_server default_options required_resources [gated_node]
             {| trace := []; mem := tt |}).1 /\
    TaintExists remove {| taint_Key := "skyhook.nvidia.com"; taint_Value := "runtime-required"; taint_Effect := "NoSchedule" |} = true.
Proof.
  assert (Hid : names_are_uids required_resources).
  { intros p p' Hp Hp'. split; intros _; apply list_elem_of_In in Hp, Hp'; simpl in Hp, Hp';
      destruct Hp as [<-|[<-|[]]], Hp' as [<-|[<-|[]]]; reflexivity. }
  destruct (HandleRuntimeRequired_spec (S := unit) quiet_server default_options required_resources [gated_node]
    {| trace := []; mem := tt |} Hid) as (configured & legacy & remove & l & _ & Hl & _ & Hrl & Ht & Hopen & Hc & _).
  { discriminate. }
  { by vm_compute. }
  exists remove. rewrite Ht. simpl.
  assert (Ho : gate_open required_resources "n1").
  { split.
    - exists (required_resource "drivers" false, {| ne_Only := {| sn_Node := gated_node; sn_skyhookName := "drivers";
        sn_nodeState := Some ∅; sn_updated := false |}; ne_Updated := false; ne_graph := Graph.New |}).
      split; [left|reflexivity].
    - intros p Hp _. apply list_elem_of_In in Hp. simpl in Hp. destruct Hp as [<-|[<-|[]]]; by vm_compute. }
  apply Hopen in Ho as (r & b & Hin). destruct (Hc _ _ _ Hin) as [-> ->]. split; [exact Hin|].
  vm_compute in Hl. injection Hl as <-. exact Hrl.
Defined.
