(* ===== verification/Executor.v ===== *)
(** * Running the stages of a node

    Models the part of [operator/internal/controller/skyhook_controller.go] that
    acts on one node: draining it ([IsDrained], [DrainNode]), starting the Job of
    an interrupt or of a package stage ([Interrupt], [ApplyPackage]), resolving a
    name that is taken ([handleExistingJob]) and the order of these steps
    ([ProcessInterrupt]).

    Every function is a program of [Effects] on the calls of [Server]; its memory
    is the wrapper of the node.  Owner references on new objects, events and log
    lines are not modelled. *)

From S2P Require Import Prelude Effects Sha256 Graph Float64 DeploymentPolicy Api NodeState Skyhook Conditions Text Node Partition Introspect Drain Options Merge Jobs JobBuilder Ownership Server.

#[local] Open Scope Z_scope.
#[local] Open Scope go_scope.

(** [json.Marshal] of a map of strings, of the agent's metadata and, base64
    encoded, of an interrupt. *)
Record PackageMetadata := {
  pm_Name : string; pm_Version : string; pm_Image : string; pm_AgentImageOverride : string;
  pm_Interrupt : option Interrupt; pm_ConfigInterrupts : gmap string Interrupt
}.

Record SkyhookMetadata := { sm_AgentVersion : string; sm_Packages : gmap string PackageMetadata }.

Class AgentEncoding := {
  map_Marshal : gmap string string -> string;
  metadata_Marshal : SkyhookMetadata -> string;
  interrupt_Marshal : Interrupt -> string
}.

Definition package_metadata (p : Package) : PackageMetadata :=
  {| pm_Name := pkg_Name p; pm_Version := pkg_Version p; pm_Image := pkg_Image p;
     pm_AgentImageOverride := pkg_AgentImageOverride p; pm_Interrupt := pkg_Interrupt p;
     pm_ConfigInterrupts := pkg_ConfigInterrupts p |}.

Definition NewSkyhookMetadata (opts : SkyhookOperatorOptions) (s : Skyhook) : SkyhookMetadata :=
  {| sm_AgentVersion := AgentVersion opts; sm_Packages := package_metadata <$> sp_Packages (sk_Spec s) |}.

Section Executor.
Context `{MR : MapRange} `{JS : NodeStateJSON} `{TT : TimeText} `{PJ : PackageJSON} `{TS : TaintSyntax}
  `{QQ : Quantities} `{SE : Selectors} `{AE : AgentEncoding}.
Context (srv : server) (opts : SkyhookOperatorOptions).

Local Notation P := (M api_call SkyhookNode).

(** Reading the wrapper. *)
Definition f_skyhook_name (f : SkyhookNode) : string := nw_Name (sk_nw (full_skyhook f)).
Definition f_drain_config (f : SkyhookNode) : option DrainConfig := sp_DrainConfig (sk_Spec (full_skyhook f)).
Definition on_node (g : SkyhookNodeOnly -> SkyhookNodeOnly) (f : SkyhookNode) : SkyhookNode := set_full_Only (g (full_Only f)) f.

Definition drain_options (f : SkyhookNode) : Options :=
  set_PackageNamespace (Namespace opts) (OptionsFromConfig (f_drain_config f)).

(* ------------------------------------------------------------------ *)
(** ** Draining *)

Definition IsDrained : P bool :=
  let* f := gets id in
  let* pods := list_pods srv (f_name f) in
  ret (negb (any (fun pod => BlocksDrain (DecidePod pod (drain_options f))) pods)).

Definition running_or_pending (pod : WorkloadPod) : bool :=
  bool_decide (wp_Phase pod = "Running") || bool_decide (wp_Phase pod = "Pending").

Definition HasNonInterruptWork : P bool :=
  let* f := gets id in
  let labels := PodNonInterruptLabels (sk_Spec (full_skyhook f)) in
  let* _ := lift (rwrap "error creating selector: %w" [] (LabelSelectorAsSelector labels)) in
  if selector_Empty labels then ret false
  else
    let* pods := wrap "error getting pods: %w" [] (list_selected_pods srv labels (f_name f)) in
    ret (any running_or_pending pods).

(** One pod of the drain: the errors so far, and whether there is one to wait for. *)
Definition drain_pod (options : Options) (acc : list error * bool) (pod : WorkloadPod) : P (list error * bool) :=
  let grace := GracePeriodSeconds options in
  let ns := wp_Namespace pod in
  let name := wp_Name pod in
  match dn_Action (DecidePod pod options) with
  | ActionIgnore => ret acc
  | ActionBlock => ret (acc.1, true)
  | ActionEvict =>
      let* e := try (wrap "error evicting pod [%s:%s]: %w" [ns; name] (must srv (EvictPod ns name grace))) in
      ret (acc.1 ++ option_list e, true)
  | ActionDelete =>
      let* e := try (wrap "error deleting pod [%s:%s]: %w" [ns; name] (must srv (RemovePod ns name grace))) in
      ret (acc.1 ++ option_list e, true)
  end.

Definition drain_pods (f : SkyhookNode) (pods : list WorkloadPod) : P bool :=
  let* '(errs, waitingForPods) := loop (drain_pod (drain_options f)) ([], false) pods in
  let* _ := lift (aggregate errs) in
  ret (negb waitingForPods).

(** Evict what is on the node now. *)
Definition evict_all : P bool :=
  let* f := gets id in
  let* pods := list_pods srv (f_name f) in
  match pods with [] => ret true | _ => drain_pods f pods end.

Definition DrainNode (now : Z) : P bool :=
  let* drained := IsDrained in
  if drained then let* _ := modify (on_node ClearDrainStart) in ret true
  else
    let* f := gets id in
    let* drainStartedAt :=
      lift (rwrap "error reading drain start for node [%s]: %w" [f_name f] (DrainStartedAt (full_Only f))) in
    match drainStartedAt with
    | None =>
        let* _ := modify (fun f => node_SetStatus StatusInProgress (on_node (StartDrain now) f)) in
        evict_all
    | Some _ =>
        if TimedOut drainStartedAt (f_drain_config f ≫= dc_Timeout) now
        then let* _ := modify (node_SetStatus StatusErroring) in ret false
        else evict_all
    end.

Definition EnsureNodeIsReadyForInterrupt (now : Z) : P bool :=
  let* f := gets id in
  let '(n, cordoned) := Cordon (full_Only f) in
  let* _ := modify (set_full_Only n) in
  if cordoned then ret false
  else
    let* hasWork := HasNonInterruptWork in
    if hasWork then ret false
    else wrap "error draining node [%s]: %w" [f_name f] (DrainNode now).

(* ------------------------------------------------------------------ *)
(** ** Jobs of a node *)

Definition unfinished (job : StageJob) : bool := negb (jobFinished (sj_Job job)).

Definition node_job_labels (nodeName : string) : gmap string string :=
  {[ prefixed_key "node" := nodeLabelValue nodeName ]}.

Definition HasRunningPackages : P bool :=
  let* f := gets id in
  let* jobs := wrap "error getting jobs: %w" [] (list_jobs srv (node_job_labels (f_name f)) [prefixed_key "name"]) in
  ret (any unfinished jobs).

Definition package_job_labels (nodeName skyhookName : string) (p : Package) : gmap string string :=
  {[ prefixed_key "name" := skyhookName; prefixed_key "package" := package_label p;
     prefixed_key "node" := nodeLabelValue nodeName ]}.

Definition JobExists {S} (nodeName skyhookName : string) (p : Package) : M api_call S bool :=
  let* jobs := wrap "error checking existing jobs: %w" [] (list_jobs srv (package_job_labels nodeName skyhookName p) []) in
  ret (any unfinished jobs).

Definition entryErroringAtStage (n : SkyhookNodeOnly) (p : Package) (stage : Stage) : bool :=
  match node_PackageStatus n (pkg_UniqueName p) with
  | Some status => bool_decide (ps_Stage status = stage) && bool_decide (ps_State status = StateErroring)
  | None => false
  end.

Definition handleExistingJob (want : StageJob) (p : Package) (stage : Stage) : P unit :=
  let name := job_Name (sj_Job want) in
  let* existing := wrap "error getting existing job %s: %w" [name] (read_job srv name) in
  match existing with
  | None => ret tt
  | Some existing =>
      let* f := gets id in
      if unfinished existing then
        let* matches := lift (jobMatchesPackage opts p existing (full_skyhook f) stage) in
        if matches then ret tt else delete_job_foreground srv existing
      else if negb (jobProcessed (sj_Job existing)) then ret tt
      else if jobFailedTerminally (sj_Job existing) && entryErroringAtStage (full_Only f) p stage then
        let* matches := lift (jobMatchesPackage opts p existing (full_skyhook f) stage) in
        if matches then ret tt else delete_job_foreground srv existing
      else delete_job_foreground srv existing
  end.

(* ------------------------------------------------------------------ *)
(** ** The node's metadata *)

Definition metadata_configmap (s : Skyhook) (node : Node) : ConfigMap :=
  {| cfg_Name := metadata_name s (n_Name node);
     cfg_Labels := {[ prefixed_key "skyhook-node-meta" := nw_Name (sk_nw s) ]};
     cfg_Annotations := {[ prefixed_key "name" := nw_Name (sk_nw s); prefixed_key "Node.name" := n_Name node ]};
     cfg_Data := {[ "annotations.json" := map_Marshal (n_Annotations node); "labels.json" := map_Marshal (n_Labels node);
                    "packages.json" := metadata_Marshal (NewSkyhookMetadata opts s) ]};
     cfg_OwnerReferences := [controllerRef (sk_nw s)] |}.

Definition UpsertNodeLabelsAnnotationsPackages {S} (s : Skyhook) (node : Node) : M api_call S unit :=
  if bool_decide (n_Labels node = ∅) && bool_decide (n_Annotations node = ∅) then ret tt
  else
    let newCM := metadata_configmap s node in
    let* existing := wrap "error getting config map: %w" [] (read_configmap srv (cfg_Name newCM)) in
    match existing with
    | None => wrap "error creating config map [%s]: %w" [cfg_Name newCM] (must srv (CreateConfigMap newCM))
    | Some existing =>
        if negb (bool_decide (cfg_Data existing = cfg_Data newCM))
        then wrap "error updating config map [%s]: %w" [cfg_Name newCM] (must srv (UpdateConfigMap newCM))
        else ret tt
    end.

Definition upsert_metadata : P unit :=
  let* f := gets id in
  wrap "error upserting node metadata configmap: %w" []
    (UpsertNodeLabelsAnnotationsPackages (full_skyhook f) (sn_Node (full_Only f))).

(* ------------------------------------------------------------------ *)
(** ** Starting a Job *)

Definition start_entry (p : Package) (stage : Stage) : SkyhookNode -> SkyhookNode :=
  node_Upsert (pkg_Ref p) (pkg_Image p) StateInProgress stage 0 (pkg_ContainerSHA p).

(** [Create], and what its answer leads to; [k] runs when the Job was created. *)
Definition create_job (fmt : string) (job : StageJob) (p : Package) (stage : Stage) (k : P unit) : P unit :=
  let* o := send_write srv (CreateJob job) in
  match o with
  | Done => k
  | AlreadyExists => handleExistingJob job p stage
  | NotFound => raise (wrapf fmt [] (errorf "not found" []))
  | Refused e => raise (wrapf fmt [] e)
  end.

(** A nil interrupt panics in [ToArgs]. *)
Definition r_Interrupt (p : Package) (interrupt : option Interrupt) (stage : Stage) : P unit :=
  let* hasPackagesRunning := HasRunningPackages in
  if hasPackagesRunning then ret tt
  else
    let* f := gets id in
    let* exists_ := JobExists (f_name f) (f_skyhook_name f) p in
    if exists_ then ret tt
    else
      let* _ := upsert_metadata in
      let* i := lift (deref interrupt) in
      let argEncode := interrupt_Marshal (agent_interrupt i) in
      let* job := lift (createInterruptJobFromPackage opts (int_Type i) argEncode p (full_skyhook f) (f_name f) stage) in
      create_job "error creating interruption job: %w" (setJobPackage (full_skyhook f) stage p job) p stage
        (modify (start_entry p stage)).

Definition starting_stage (f : SkyhookNode) (p : Package) : Stage :=
  let stage :=
    match node_PackageStatus (full_Only f) (pkg_UniqueName p) with
    | Some s => if bool_decide (ps_Stage s ∈ [StageConfig; StageUpgrade; StageUninstall; StageUninstallInterrupt])
                then ps_Stage s else StageApply
    | None => StageApply
    end in
  default stage (node_NextStage f p).

Definition apply_condition (now : Z) (f : SkyhookNode) (p : Package) : Condition :=
  {| cond_Type := SkyhookConditionApplyPackage; cond_Status := "True";
     cond_ObservedGeneration := nw_Generation (sk_nw (full_skyhook f)); cond_LastTransitionTime := now;
     cond_Reason := "ApplyPackage";
     cond_Message := "Applying package [" +:+ pkg_Name p +:+ ":" +:+ pkg_Version p +:+ "] to node [" +:+ f_name f +:+ "]" |}.

(** What [ApplyPackage] records once the Job is created. *)
Definition record_start (now : Z) (p : Package) (stage : Stage) (f : SkyhookNode) : SkyhookNode :=
  let f := node_SetStatus StatusInProgress (start_entry p stage f) in
  let s := (AddSkyhookConditionWithLegacy now (full_skyhook f) (apply_condition now f p)).1 in
  set_full_skyhook (touch s) f.

Definition ApplyPackage (now : Z) (p : Package) : P unit :=
  let* f := gets id in
  let stage := starting_stage f p in
  if bool_decide (stage = StageUninstallInterrupt) then ret tt
  else
    let* exists_ := JobExists (f_name f) (f_skyhook_name f) p in
    if IsSkipped (node_PackageStatus (full_Only f) (pkg_UniqueName p)) then ret tt
    else if exists_ then ret tt
    else
      let* _ := upsert_metadata in
      let* job := lift (createJobFromPackage opts p (full_skyhook f) (f_name f) stage) in
      create_job "error creating job: %w" (setJobPackage (full_skyhook f) stage p job) p stage
        (modify (record_start now p stage)).

(* ------------------------------------------------------------------ *)
(** ** The steps around an interrupt *)

(** The steps after the node is ready. *)
Definition interrupt_steps (p : Package) (interrupt : option Interrupt) (runInterrupt : bool) (stage : Stage)
    (status : option PackageStatus) : P bool :=
  if bool_decide (stage = StageInterrupt) && runInterrupt then
    let* _ := r_Interrupt p interrupt StageInterrupt in ret false
  else if bool_decide (stage = StageInterrupt) && negb runInterrupt then
    let* _ := modify (node_Upsert (pkg_Ref p) (pkg_Image p) StateSkipped stage 0 (pkg_ContainerSHA p)) in ret false
  else if match status with
          | Some s => bool_decide (ps_Stage s = StageUninstallInterrupt) && negb (bool_decide (ps_State s = StateComplete))
          | None => false
          end then
    let* _ := r_Interrupt p interrupt StageUninstallInterrupt in ret false
  else if IsInterruptStage status &&
          match status with Some s => negb (bool_decide (ps_State s = StateComplete)) | None => false end
  then ret false
  else ret true.

Definition ProcessInterrupt (now : Z) (p : Package) (interrupt : option Interrupt) (runInterrupt : bool) : P bool :=
  let* f := gets id in
  if negb (node_HasInterrupt f p) then ret true
  else
    let stage := default StageApply (node_NextStage f p) in
    let status := node_PackageStatus (full_Only f) (pkg_UniqueName p) in
    if IsSkipped status then
      let* _ := modify (fun f => if runInterrupt then node_ProgressSkipped f else f) in ret false
    else
      let* _ :=
        match status with
        | Some s => if IsActive status && IsInterruptStage status then r_Interrupt p interrupt (ps_Stage s) else ret tt
        | None => ret tt
        end in
      let* ready :=
        if bool_decide (stage = StageApply) || bool_decide (stage = StageUninstall)
        then EnsureNodeIsReadyForInterrupt now else ret true in
      if negb ready then ret false else interrupt_steps p interrupt runInterrupt stage status.

(* ------------------------------------------------------------------ *)
(** ** Lemmas: the drain *)

(** The call that removes a pod, when the drain removes it. *)
Definition removal (f : SkyhookNode) (pod : WorkloadPod) : option api_call :=
  let grace := GracePeriodSeconds (drain_options f) in
  match dn_Action (DecidePod pod (drain_options f)) with
  | ActionEvict => Some (EvictPod (wp_Namespace pod) (wp_Name pod) grace)
  | ActionDelete => Some (RemovePod (wp_Namespace pod) (wp_Name pod) grace)
  | _ => None
  end.

Definition is_removal (c : api_call) : bool :=
  match c with EvictPod _ _ _ | RemovePod _ _ _ => true | _ => false end.

Definition blocks (f : SkyhookNode) (pod : WorkloadPod) : bool := BlocksDrain (DecidePod pod (drain_options f)).

Lemma blocks_action f pod : blocks f pod = negb (bool_decide (dn_Action (DecidePod pod (drain_options f)) = ActionIgnore)).
Proof. done. Qed.

Lemma drain_pod_run f acc pod s : exists errs,
  drain_pod (drain_options f) acc pod s =
  ({| trace := trace s ++ option_list (removal f pod); mem := mem s |}, Ok (acc.1 ++ errs, acc.2 || blocks f pod)).
Proof.
  rewrite blocks_action. unfold drain_pod, removal.
  destruct (dn_Action (DecidePod pod (drain_options f))) eqn:E; cbn [option_list].
  - exists []. rewrite !app_nil_r, orb_false_r. by destruct s, acc.
  - exists []. rewrite !app_nil_r, orb_true_r. by destruct s.
  - rewrite orb_true_r. unfold bind, try, wrap, must, call. cbn [fst snd].
    destruct (sv_write srv _ _); cbn [rwrap]; eexists; reflexivity.
  - rewrite orb_true_r. unfold bind, try, wrap, must, call. cbn [fst snd].
    destruct (sv_write srv _ _); cbn [rwrap]; eexists; reflexivity.
Qed.

Lemma omap_cons_list {A B} (g : A -> option B) a l : omap g (a :: l) = option_list (g a) ++ omap g l.
Proof. simpl. by destruct (g a). Qed.

Lemma drain_loop f pods acc s : exists errs,
  loop (drain_pod (drain_options f)) acc pods s =
  ({| trace := trace s ++ omap (removal f) pods; mem := mem s |}, Ok (acc.1 ++ errs, acc.2 || any (blocks f) pods)).
Proof.
  revert acc s; induction pods as [|pod pods IH]; intros acc s.
  { exists []. simpl. rewrite !app_nil_r, orb_false_r. by destruct acc, s. }
  rewrite omap_cons_list. simpl. unfold bind. destruct (drain_pod_run f acc pod s) as [errs ->].
  match goal with |- context [loop _ ?a pods ?st] => destruct (IH a st) as [errs' ->] end.
  cbn [fst snd trace mem]. exists (errs ++ errs'). by rewrite <- !app_assoc, <- orb_assoc.
Qed.

Lemma no_blocks_no_removal f pods : any (blocks f) pods = false -> omap (removal f) pods = [].
Proof.
  induction pods as [|pod pods IH]; simpl; [done|]. rewrite orb_false_iff, blocks_action. intros [H ?].
  apply negb_false_iff, bool_decide_eq_true in H. unfold removal at 1. rewrite H. auto.
Qed.

Lemma evict_all_run s :
  let f := mem s in
  let s1 := {| trace := trace s ++ [ListPods (f_name f)]; mem := f |} in
  match sv_pods srv (trace s) (f_name f) with
  | Ok pods => exists r, evict_all s = ({| trace := trace s1 ++ omap (removal f) pods; mem := f |}, r) /\
      (r = Ok true -> any (blocks f) pods = false)
  | Err e => evict_all s = (s1, Err e)
  | Panic => evict_all s = (s1, Panic)
  end.
Proof.
  cbv zeta. unfold evict_all, bind at 1, gets. cbn [id]. unfold bind, list_pods, call.
  destruct (sv_pods srv (trace s) (f_name (mem s))) as [pods|e|]; [|done..].
  destruct pods as [|pod pods]; cbn [ret]; [exists (Ok true); simpl; by rewrite app_nil_r|].
  unfold drain_pods, bind. destruct (drain_loop (mem s) (pod :: pods) ([], false)
    {| trace := trace s ++ [ListPods (f_name (mem s))]; mem := mem s |}) as [errs ->].
  unfold lift. cbn [trace mem fst snd app orb]. destruct (aggregate errs); eexists; (split; [reflexivity|]); [|done..].
  intros [= H]. by apply negb_true_iff in H.
Qed.

(** The passes that drain: calls without a removal, then the removals decided on
    the pods that the last of them listed. *)
Definition drained_by (f : SkyhookNode) (s s' : Effects.pass api_call SkyhookNode) (r : res bool) : Prop :=
  exists quiet pods,
    trace s' = trace s ++ quiet ++ omap (removal f) pods /\ any is_removal quiet = false /\
    (pods <> [] -> exists t0, quiet = t0 ++ [ListPods (f_name f)] /\ sv_pods srv (trace s ++ t0) (f_name f) = Ok pods) /\
    (r = Ok true -> exists t0 seen, quiet = t0 ++ [ListPods (f_name f)] /\
       sv_pods srv (trace s ++ t0) (f_name f) = Ok seen /\ any (blocks f) seen = false).

Lemma drained_by_quiet f s s' r quiet : trace s' = trace s ++ quiet -> any is_removal quiet = false ->
  r <> Ok true -> drained_by f s s' r.
Proof. intros H Hq Hr. exists quiet, []. simpl. rewrite app_nil_r. split_and!; done. Qed.

Lemma evict_all_drained f s0 s quiet :
  trace s = trace s0 ++ quiet -> any is_removal quiet = false ->
  f_name (mem s) = f_name f -> drain_options (mem s) = drain_options f ->
  drained_by f s0 (evict_all s).1 (evict_all s).2 /\ mem (evict_all s).1 = mem s.
Proof.
  intros Ht Hq Hn Ho. pose proof (evict_all_run s) as H. cbv zeta in H. rewrite Hn in H.
  assert (Hsame : forall pods, omap (removal (mem s)) pods = omap (removal f) pods /\
                               any (blocks (mem s)) pods = any (blocks f) pods).
  { intros pods. unfold removal, blocks. by rewrite Ho. }
  assert (Hq' : any is_removal (quiet ++ [ListPods (f_name f)]) = false) by (by rewrite any_app, Hq).
  destruct (sv_pods srv (trace s) (f_name f)) as [pods|e|] eqn:E.
  - destruct H as (r & -> & Hr). cbn [trace mem fst snd]. split; [|done].
    rewrite (proj1 (Hsame pods)). exists (quiet ++ [ListPods (f_name f)]), pods. split_and!.
    + by rewrite Ht, !app_assoc.
    + done.
    + intros _. exists quiet. split; [done|]. by rewrite <- Ht.
    + intros Hok. exists quiet, pods. split; [done|]. rewrite <- Ht. split; [done|]. rewrite <- (proj2 (Hsame pods)). auto.
  - rewrite H. split; [|done]. eapply drained_by_quiet; [|exact Hq'|done]. simpl. by rewrite Ht, app_assoc.
  - rewrite H. split; [|done]. eapply drained_by_quiet; [|exact Hq'|done]. simpl. by rewrite Ht, app_assoc.
Qed.

Lemma options_of_drain f g : f_drain_config (on_node g f) = f_drain_config f.
Proof. done. Qed.

Lemma SetStatus_same_drain st f : f_name (node_SetStatus st f) = f_name f /\
  drain_options (node_SetStatus st f) = drain_options f.
Proof.
  destruct (SetStatus_only_keeps st (full_Only f)) as (_ & _ & Hn). split; [exact Hn|].
  unfold drain_options, f_drain_config, node_SetStatus. cbn [full_skyhook].
  by rewrite (proj1 (SetNodeState_work _ _ _)), (proj1 (SetNodeStatus_work _ _ _)).
Qed.

Definition timed_out (now : Z) (f : SkyhookNode) : Prop :=
  exists startedAt, DrainStartedAt (full_Only f) = Ok (Some startedAt) /\
    TimedOut (Some startedAt) (f_drain_config f ≫= dc_Timeout) now = true.

Lemma IsDrained_run s :
  IsDrained s =
  ({| trace := trace s ++ [ListPods (f_name (mem s))]; mem := mem s |},
   rbind (sv_pods srv (trace s) (f_name (mem s))) (fun seen => Ok (negb (any (blocks (mem s)) seen)))).
Proof. unfold IsDrained, bind, gets, list_pods, call. cbn [id]. by destruct (sv_pods srv _ _). Qed.

Lemma DrainNode_drained now f s0 s quiet :
  trace s = trace s0 ++ quiet -> any is_removal quiet = false -> mem s = f ->
  drained_by f s0 (DrainNode now s).1 (DrainNode now s).2 /\
  (timed_out now f -> exists more, trace (DrainNode now s).1 = trace s ++ more /\ any is_removal more = false).
Proof.
  intros Ht Hq <-. unfold DrainNode, bind. rewrite IsDrained_run.
  set (f := mem s) in *. set (s1 := {| trace := trace s ++ [ListPods (f_name f)]; mem := f |}).
  assert (Hs1 : trace s1 = trace s0 ++ (quiet ++ [ListPods (f_name f)])) by (simpl; by rewrite Ht, app_assoc).
  assert (Hq1 : any is_removal (quiet ++ [ListPods (f_name f)]) = false) by (by rewrite any_app, Hq).
  assert (Hquiet : forall s' r, trace s' = trace s1 -> r <> Ok true -> drained_by f s0 s' r /\
    (timed_out now f -> exists more, trace s' = trace s ++ more /\ any is_removal more = false)).
  { intros s' r E Hr. split; [eapply drained_by_quiet; [by rewrite E|done|done]|].
    intros _. exists [ListPods (f_name f)]. by rewrite E. }
  destruct (sv_pods srv (trace s) (f_name f)) as [seen|e|] eqn:Epods; cbn [rbind]; [|by apply Hquiet..].
  destruct (any (blocks f) seen) eqn:Eb; cbn [negb].
  - unfold gets, lift. cbn [id mem s1]. destruct (DrainStartedAt (full_Only f)) as [[startedAt|]|e|] eqn:Ed; cbn [rwrap];
      [| |apply Hquiet; done..].
    + destruct (TimedOut _ _ now) eqn:Eto; [by apply Hquiet|].
      destruct (evict_all_drained f s0 s1 (quiet ++ [ListPods (f_name f)]) Hs1 Hq1 eq_refl eq_refl) as [H1 _].
      split; [exact H1|]. intros (t & E & E'). rewrite Ed in E. injection E as <-. by rewrite Eto in E'.
    + unfold modify. set (f' := node_SetStatus StatusInProgress (on_node (StartDrain now) f)).
      destruct (SetStatus_same_drain StatusInProgress (on_node (StartDrain now) f)) as [Hn Ho].
      edestruct (evict_all_drained f s0 {| trace := trace s1; mem := f' |}) as [H1 _]; [exact Hs1|exact Hq1| | |].
      { cbn [mem]. unfold f'. rewrite Hn. unfold f_name, on_node, StartDrain. simpl. by case_match. }
      { cbn [mem]. unfold f'. by rewrite Ho. }
      split; [exact H1|]. intros (t & E & _). by rewrite Ed in E.
  - split.
    + exists (quiet ++ [ListPods (f_name f)]), []. simpl. rewrite app_nil_r. split_and!; [by rewrite Ht, app_assoc|done|done|].
      intros _. exists quiet, seen. rewrite <- Ht. split_and!; done.
    + intros _. exists [ListPods (f_name f)]. done.
Qed.

Lemma HasNonInterruptWork_run s : exists quiet r,
  HasNonInterruptWork s = ({| trace := trace s ++ quiet; mem := mem s |}, r) /\ any is_removal quiet = false.
Proof.
  assert (Hnil : forall r : res bool, exists quiet r', (s, r) = ({| trace := trace s ++ quiet; mem := mem s |}, r') /\
    any is_removal quiet = false) by (intros r; exists [], r; rewrite app_nil_r; by destruct s).
  unfold HasNonInterruptWork, bind, gets, lift. cbn [id].
  destruct (LabelSelectorAsSelector _); cbn [rwrap]; [|apply Hnil..].
  destruct (selector_Empty _); cbn [ret]; [apply Hnil|].
  unfold wrap, list_selected_pods, call. cbn [fst snd].
  destruct (sv_selected_pods srv _ _ _); cbn [rwrap ret]; by do 2 eexists.
Qed.

Lemma Ensure_drained (now : Z) (s : Effects.pass api_call SkyhookNode) :
  let f := mem s in
  let '(s', r) := EnsureNodeIsReadyForInterrupt now s in
  ((Cordon (full_Only f)).2 = true ->
     trace s' = trace s /\ mem s' = set_full_Only (Cordon (full_Only f)).1 f /\ r = Ok false) /\
  ((Cordon (full_Only f)).2 = false ->
     drained_by f s s' r /\
     (timed_out now f -> exists quiet, trace s' = trace s ++ quiet /\ any is_removal quiet = false)).
Proof.
  cbv zeta. unfold EnsureNodeIsReadyForInterrupt, bind, gets, modify. cbn [id]. set (f := mem s).
  destruct (Cordon (full_Only f)) as [n cordoned] eqn:Ec. cbn [fst snd].
  destruct cordoned; [done|]. assert (Hmem : set_full_Only n (mem s) = f).
  { unfold Cordon in Ec. fold f. case_match; injection Ec as <-; [done|]. by destruct f. }
  rewrite Hmem.
  destruct (HasNonInterruptWork_run {| trace := trace s; mem := f |}) as (quiet & r & -> & Hq). cbn [trace mem].
  assert (Hstop : forall r', r' <> Ok true -> drained_by f s {| trace := trace s ++ quiet; mem := f |} r' /\
    (timed_out now f -> exists quiet', trace s ++ quiet = trace s ++ quiet' /\ any is_removal quiet' = false)).
  { intros r' Hr. split; [by eapply drained_by_quiet|]. intros _. by exists quiet. }
  destruct r as [[]|e|]; cbn [ret]; [split; [done|intros _; by apply Hstop]| |split; [done|intros _; by apply Hstop]..].
  unfold wrap.
  destruct (DrainNode_drained now f s {| trace := trace s ++ quiet; mem := f |} quiet eq_refl Hq eq_refl) as [H1 H2].
  split; [done|]. intros _. split.
  - destruct H1 as (q & pods & H1 & H3 & H4 & H5). exists q, pods. split_and!; [done..|].
    intros Hok. apply H5. by apply rwrap_ok in Hok.
  - intros Hto. destruct (H2 Hto) as (more & H3 & H4). exists (quiet ++ more).
    by rewrite H3, app_assoc, any_app, Hq, H4.
Qed.

(* ------------------------------------------------------------------ *)
(** ** Lemmas: starting a Job *)

Definition is_create (c : api_call) : bool := match c with CreateJob _ => true | _ => false end.

(** Calls that create no Job, and nothing recorded. *)
Definition quietly (s s' : Effects.pass api_call SkyhookNode) : Prop :=
  exists t, trace s' = trace s ++ t /\ any is_create t = false /\ mem s' = mem s.

#[local] Instance quietly_preorder : PreOrder quietly.
Proof.
  split.
  - intros s. exists []. by rewrite app_nil_r.
  - intros s s' s'' (t & H1 & H2 & H3) (t' & H1' & H2' & H3'). exists (t ++ t').
    by rewrite H1', H1, app_assoc, any_app, H2, H2', H3', H3.
Qed.

Lemma quietly_call {A} c (answer : list api_call -> res A) : is_create c = false -> steps quietly (call c answer).
Proof. intros H s. exists [c]. simpl. by rewrite H. Qed.

#[local] Hint Extern 2 (steps quietly (call _ _)) => (apply quietly_call; reflexivity) : steps.
#[local] Hint Unfold list_jobs list_pods list_configmaps read_job read_configmap must must_if_present delete_job_foreground : steps.

Lemma upsert_metadata_quiet : steps quietly upsert_metadata.
Proof.
  unfold upsert_metadata, UpsertNodeLabelsAnnotationsPackages, read_configmap, must.
  auto 12 with steps.
Qed.

Lemma JobExists_quiet nodeName skyhookName p : steps quietly (JobExists nodeName skyhookName p).
Proof. unfold JobExists, list_jobs. auto with steps. Qed.

(** What becomes of a Job whose name is taken. *)
Definition superseded (f : SkyhookNode) (p : Package) (stage : Stage) (existing : StageJob) : res bool :=
  let differs := rbind (jobMatchesPackage opts p existing (full_skyhook f) stage) (fun matches => Ok (negb matches)) in
  if unfinished existing then differs
  else if negb (jobProcessed (sj_Job existing)) then Ok false
  else if jobFailedTerminally (sj_Job existing) && entryErroringAtStage (full_Only f) p stage then differs
  else Ok true.

Lemma handleExistingJob_run want p stage s :
  let name := job_Name (sj_Job want) in
  let read := trace s ++ [ReadJob name] in
  mem (handleExistingJob want p stage s).1 = mem s /\
  trace (handleExistingJob want p stage s).1 =
  match sv_job srv (trace s) name with
  | Ok (Some existing) =>
      match superseded (mem s) p stage existing with
      | Ok true => read ++ [RemoveJob (job_Name (sj_Job existing))]
      | _ => read
      end
  | _ => read
  end.
Proof.
  cbv zeta. unfold handleExistingJob, bind, wrap, read_job, call, gets, lift, delete_job_foreground, wrap, must_if_present, call.
  cbn [fst snd trace mem id]. destruct (sv_job srv (trace s) _) as [[existing|]|e|]; cbn [rwrap]; try done.
  cbn [fst snd trace mem id ret]. unfold superseded.
  repeat match goal with
  | |- context [if ?b then _ else _] => destruct b; cbn [ret fst snd trace mem rbind negb]
  | |- context [match jobMatchesPackage ?a ?b ?c ?d ?e with _ => _ end] =>
      destruct (jobMatchesPackage a b c d e) as [[]|?|]; cbn [ret fst snd trace mem rbind negb]
  | |- context [rbind (jobMatchesPackage ?a ?b ?c ?d ?e) _] =>
      destruct (jobMatchesPackage a b c d e) as [[]|?|]; cbn [ret fst snd trace mem rbind negb]
  end; done.
Qed.

Lemma handleExistingJob_quiet want p stage : steps quietly (handleExistingJob want p stage).
Proof.
  intros s. destruct (handleExistingJob_run want p stage s) as [Hm Ht]. cbv zeta in Ht.
  unfold quietly. rewrite Hm, Ht.
  repeat case_match; (eexists; split; [by rewrite <- ?app_assoc|]; done).
Qed.

(** The server has just shown, with no Job created since, that no Job with these
    labels is unfinished. *)
Definition clear_of (labels : gmap string string) (present : list string) (t : list api_call) : Prop :=
  exists t0 jobs later, t = t0 ++ ListJobs labels present :: later /\
    sv_jobs srv t0 labels present = Ok jobs /\ any unfinished jobs = false /\ any is_create later = false.

(** At most one Job is created, when [clear] holds and the Job is [built]; its
    start is recorded exactly when the server took it. *)
Definition starts (clear : list api_call -> Prop) (built : StageJob -> Prop) (record : SkyhookNode -> SkyhookNode)
    (s s' : Effects.pass api_call SkyhookNode) : Prop :=
  quietly s s' \/
  exists t1 job t2, trace s' = trace s ++ t1 ++ CreateJob job :: t2 /\ any is_create t1 = false /\
    any is_create t2 = false /\ clear (trace s ++ t1) /\ built job /\
    mem s' = match sv_write srv (trace s ++ t1) (CreateJob job) with Done => record (mem s) | _ => mem s end.

Lemma clear_of_later labels present t t' : clear_of labels present t -> any is_create t' = false ->
  clear_of labels present (t ++ t').
Proof.
  intros (t0 & jobs & later & -> & Hj & Hu & Hl) H. exists t0, jobs, (later ++ t').
  rewrite <- app_assoc, any_app, Hl, H. done.
Qed.

Lemma create_job_starts fmt job p stage record clear (built : StageJob -> Prop) s :
  clear (trace s) -> built job -> starts clear built record s (create_job fmt job p stage (modify record) s).1.
Proof.
  intros Hc Hb. right. exists [], job. unfold create_job, bind, send_write, call. cbn [fst snd].
  destruct (sv_write srv (trace s) (CreateJob job)) eqn:E.
  - exists []. rewrite app_nil_r. cbn. rewrite E. done.
  - destruct (handleExistingJob_quiet job p stage {| trace := trace s ++ [CreateJob job]; mem := mem s |})
      as (t & Ht & Hq & Hm). exists t. rewrite Ht, Hm, app_nil_r, E. cbn [trace mem]. rewrite <- app_assoc. done.
  - exists []. rewrite app_nil_r. cbn. rewrite E. done.
  - exists []. rewrite app_nil_r. cbn. rewrite E. done.
Qed.

(** A quiet step in front. *)
Lemma starts_after {A B} clear built record (m : P A) (k : A -> P B) s :
  steps quietly m ->
  (forall s1 a t, m s = (s1, Ok a) -> trace s1 = trace s ++ t -> any is_create t = false -> mem s1 = mem s ->
     starts clear built record s1 (k a s1).1) ->
  starts clear built record s (bind m k s).1.
Proof.
  intros Hm Hk. pose proof (Hm s) as Hq. unfold bind. destruct (m s) as [s1 [a|e|]] eqn:E; [|by left..].
  destruct Hq as (t & Ht & Hc & Hmem). destruct (Hk s1 a t eq_refl Ht Hc Hmem) as [Hq|(t1 & job & t2 & H1 & H2 & H3 & H4 & H5 & H6)].
  - left. etrans; [|exact Hq]. by exists t.
  - right. exists (t ++ t1), job, t2. cbn [fst] in *. rewrite <- Hmem. rewrite !app_assoc, <- Ht, <- !app_assoc, any_app, Hc.
    split_and!; done.
Qed.

Lemma starts_ret {A} clear built record (a : A) s : starts clear built record s (ret a s).1.
Proof. left. reflexivity. Qed.

Lemma clear_list {S} labels present (s : Effects.pass api_call S) fmt s1 jobs :
  wrap fmt [] (list_jobs srv labels present) s = (s1, Ok jobs) -> any unfinished jobs = false ->
  clear_of labels present (trace s1).
Proof.
  intros H%wrap_ok Hu. unfold list_jobs in H. apply call_ok in H as [H ->].
  exists (trace s), jobs, []. done.
Qed.

Lemma r_Interrupt_starts p interrupt stage s :
  let f := mem s in
  starts
    (fun t => clear_of (node_job_labels (f_name f)) [prefixed_key "name"] t /\
              clear_of (package_job_labels (f_name f) (f_skyhook_name f) p) [] t)
    (fun job => exists i j, interrupt = Some i /\
       createInterruptJobFromPackage opts (int_Type i) (interrupt_Marshal (agent_interrupt i)) p (full_skyhook f)
         (f_name f) stage = Ok j /\ job = setJobPackage (full_skyhook f) stage p j)
    (start_entry p stage) s (r_Interrupt p interrupt stage s).1.
Proof.
  cbv zeta. unfold r_Interrupt, HasRunningPackages, JobExists.
  set (f := mem s). set (clear := fun t => _). set (built := fun job => _).
  apply starts_after; [unfold list_jobs; auto with steps|]. intros s1 running t1 E1 Ht1 _ Hm1.
  destruct running; [apply starts_ret|].
  apply starts_after; [auto with steps|]. intros s2 f2 t2 [= <- <-] _ _ _. rewrite Hm1. fold f.
  apply starts_after; [unfold list_jobs; auto with steps|]. intros s3 running t3 E3 Ht3 Hq3 Hm3.
  destruct running; [apply starts_ret|].
  apply starts_after; [apply upsert_metadata_quiet|]. intros s4 [] t4 _ Ht4 Hq4 Hm4.
  apply starts_after; [auto with steps|]. intros s5 i t5 [= -> Hi] _ _ _.
  apply starts_after; [auto with steps|]. intros s6 job t6 [= -> Hjob] _ _ _.
  apply create_job_starts.
  - split.
    + rewrite Ht4, Ht3. apply clear_of_later; [apply clear_of_later; [|done]|done].
      apply bind_ok in E1 as (sa & fa & [= <- <-] & E1). apply bind_ok in E1 as (sb & jobs & E1 & [= <- Hu]).
      by eapply clear_list.
    + rewrite Ht4. apply clear_of_later; [|done]. apply bind_ok in E3 as (sb & jobs & E3 & [= <- Hu]).
      by eapply clear_list.
  - unfold built. destruct interrupt as [i'|]; [|done]. injection Hi as ->. by exists i, job.
Qed.

(** C12: A Job is started only on a clear node and recorded only when it exists.
    [Interrupt] and [ApplyPackage] create at most one Job: the one the builder
    makes for the package, the stage and the node, with the package stamped on it.
    Before it the server has shown, with no Job created since, that the package
    has no unfinished Job on the node, and for an interrupt that no package of
    any resource has one.  The package is recorded as in progress exactly when
    the server took the Job: a name that is taken, a refusal or an error leave
    the node as it was.  A package that was skipped, or whose next step is the
    interrupt of an uninstall, is not started by [ApplyPackage] at all. *)
Theorem Jobs_start_alone (now : Z) (p : Package) (interrupt : option Interrupt) (stage : Stage)
    (s : Effects.pass api_call SkyhookNode) :
  let f := mem s in
  let node_clear := clear_of (node_job_labels (f_name f)) [prefixed_key "name"] in
  let package_clear := clear_of (package_job_labels (f_name f) (f_skyhook_name f) p) [] in
  let applied := starting_stage f p in
  starts (fun t => node_clear t /\ package_clear t)
    (fun job => exists i j, interrupt = Some i /\
       createInterruptJobFromPackage opts (int_Type i) (interrupt_Marshal (agent_interrupt i)) p (full_skyhook f)
         (f_name f) stage = Ok j /\ job = setJobPackage (full_skyhook f) stage p j)
    (start_entry p stage) s (r_Interrupt p interrupt stage s).1 /\
  starts package_clear
    (fun job => exists j, createJobFromPackage opts p (full_skyhook f) (f_name f) applied = Ok j /\
       job = setJobPackage (full_skyhook f) applied p j)
    (record_start now p applied) s (ApplyPackage now p s).1 /\
  (IsSkipped (node_PackageStatus (full_Only f) (pkg_UniqueName p)) = true \/ applied = StageUninstallInterrupt ->
   quietly s (ApplyPackage now p s).1).
Proof.
  cbv zeta. split; [apply r_Interrupt_starts|]. set (f := mem s). set (built := fun job => _). split.
  - unfold ApplyPackage. apply starts_after; [auto with steps|]. intros s1 f1 t1 [= <- <-] _ _ _. fold f.
    case_bool_decide; [apply starts_ret|]. unfold JobExists.
    apply starts_after; [unfold list_jobs; auto with steps|]. intros s2 running t2 E2 Ht2 Hq2 Hm2.
    destruct (IsSkipped _); [apply starts_ret|]. destruct running; [apply starts_ret|].
    apply starts_after; [apply upsert_metadata_quiet|]. intros s4 [] t4 _ Ht4 Hq4 Hm4.
    apply starts_after; [auto with steps|]. intros s6 job t6 [= -> Hjob] _ _ _.
    apply create_job_starts; [|by exists job].
    rewrite Ht4. apply clear_of_later; [|done]. apply bind_ok in E2 as (sb & jobs & E2 & [= <- Hu]). by eapply clear_list.
  - intros H. unfold ApplyPackage, bind, gets. cbn [id]. fold f. case_bool_decide; [reflexivity|].
    destruct H as [H|H]; [|done]. unfold JobExists, bind.
    assert (Hq : steps quietly (wrap "error checking existing jobs: %w" []
      (list_jobs srv (package_job_labels (f_name f) (f_skyhook_name f) p) []) : P _)) by (unfold list_jobs; auto with steps).
    specialize (Hq s). destruct (wrap _ _ _ s) as [s1 [jobs|e|]]; [|done..]. cbn [ret fst]. by rewrite H.
Qed.

Lemma Ensure_true now s s' : EnsureNodeIsReadyForInterrupt now s = (s', Ok true) ->
  (Cordon (full_Only (mem s))).2 = false /\
  exists t0 seen, trace s' = t0 ++ [ListPods (f_name (mem s))] /\
    sv_pods srv t0 (f_name (mem s)) = Ok seen /\ any (blocks (mem s)) seen = false.
Proof.
  intros H. pose proof (Ensure_drained now s) as Hd. cbv zeta in Hd. rewrite H in Hd. destruct Hd as [H1 H2].
  destruct (Cordon (full_Only (mem s))).2; [by destruct (H1 eq_refl) as (_ & _ & ?)|]. split; [done|].
  destruct (H2 eq_refl) as [(quiet & pods & Ht & _ & Hp & Hr) _].
  destruct (Hr eq_refl) as (t0 & seen & -> & Hs & Hb). exists (trace s ++ t0), seen. split; [|done].
  assert (omap (removal (mem s)) pods = []) as Hnil.
  { destruct pods as [|pod pods]; [done|]. destruct Hp as (t0' & E & Hp); [done|].
    apply app_inj_tail in E as [<- _]. rewrite Hs in Hp. injection Hp as <-. by apply no_blocks_no_removal. }
  by rewrite Ht, Hnil, app_nil_r, app_assoc.
Qed.

(** C13: A package with an interrupt is applied only when nothing stands in the
    way of its interrupt.  If [ProcessInterrupt] lets such a package through, it
    is not skipped, its next step is not the interrupt, and no interrupt of it is
    still open; and when its next step is to apply or to uninstall, the node that
    the pass holds in memory was cordoned for this resource when the package was
    looked at, and the last call was a list of the node's pods in which none
    blocks the drain.  The cordon may be that of an earlier package of the same
    pass, which is not saved yet.  A package without an interrupt is let
    through at once, with no call and no change. *)
Theorem work_waits_for_interrupt (now : Z) (p : Package) (interrupt : option Interrupt) (runInterrupt : bool)
    (s s' : Effects.pass api_call SkyhookNode)
    (H : ProcessInterrupt now p interrupt runInterrupt s = (s', Ok true)) :
  let f := mem s in
  let stage := default StageApply (node_NextStage f p) in
  let status := node_PackageStatus (full_Only f) (pkg_UniqueName p) in
  (node_HasInterrupt f p = false -> s' = s) /\
  (node_HasInterrupt f p = true ->
     IsSkipped status = false /\ stage <> StageInterrupt /\
     (forall st, status = Some st -> IsInterruptStage status = true -> ps_State st = StateComplete) /\
     (stage = StageApply \/ stage = StageUninstall ->
        (Cordon (full_Only f)).2 = false /\
        exists t0 seen, trace s' = t0 ++ [ListPods (f_name f)] /\ sv_pods srv t0 (f_name f) = Ok seen /\
          any (blocks f) seen = false)).
Proof.
  cbv zeta. unfold ProcessInterrupt in H. set (f := mem s) in *.
  apply bind_ok in H as (s0 & f0 & [= <- <-] & H). fold f in H.
  destruct (node_HasInterrupt f p) eqn:Ei; cbn [negb] in H; [|by injection H as ->]. split; [done|]. intros _.
  set (stage := default StageApply (node_NextStage f p)) in *.
  set (status := node_PackageStatus (full_Only f) (pkg_UniqueName p)) in *.
  destruct (IsSkipped status) eqn:Es.
  { apply bind_ok in H as (s1 & [] & _ & H). done. }
  split; [done|]. apply bind_ok in H as (s1 & [] & H1 & H). apply bind_ok in H as (s2 & ready & H2 & H).
  destruct ready; cbn [negb] in H; [|done]. unfold interrupt_steps in H.
  destruct (bool_decide (stage = StageInterrupt)) eqn:Est; cbn [andb] in H.
  { destruct runInterrupt; cbn [negb] in H; apply bind_ok in H as (s3 & [] & _ & H); done. }
  apply bool_decide_eq_false in Est. split; [done|].
  match type of H with (if ?b then _ else _) _ = _ => destruct b eqn:Eu end.
  { apply bind_ok in H as (s3 & [] & _ & H). done. }
  match type of H with (if ?b then _ else _) _ = _ => destruct b eqn:Eo end; [done|]. injection H as ->.
  assert (Hdone : forall st, status = Some st -> IsInterruptStage status = true -> ps_State st = StateComplete).
  { intros st Hst Hint. rewrite Hint, Hst in Eo. simpl in Eo. by apply negb_false_iff, bool_decide_eq_true in Eo. }
  split; [exact Hdone|]. intros Hstage.
  assert (s1 = s) as ->.
  { destruct status as [st|] eqn:E; [|by injection H1 as ->].
    destruct (IsActive (Some st) && IsInterruptStage (Some st)) eqn:Ea; [|by injection H1 as ->].
    apply andb_true_iff in Ea as [Ea Eint]. pose proof (Hdone st eq_refl Eint) as Hc. unfold IsActive in Ea. rewrite Hc in Ea. done. }
  assert (Hs : bool_decide (stage = StageApply) || bool_decide (stage = StageUninstall) = true).
  { destruct Hstage as [-> | ->]; done. }
  rewrite Hs in H2. exact (Ensure_true now s s' H2).
Qed.

End Executor.

(* ------------------------------------------------------------------ *)
(** ** Witnesses *)

#[local] Instance blank_encoding : AgentEncoding :=
  { map_Marshal _ := ""; metadata_Marshal _ := ""; interrupt_Marshal _ := "" }.
#[local] Existing Instance example_json.
#[local] Existing Instance example_time.
#[local] Existing Instance package_text.
#[local] Existing Instance example_syntax.
#[local] Existing Instance text_quantities.
#[local] Instance no_selectors : Selectors :=
  { LabelSelectorAsSelector _ := Ok (fun _ => true); selector_Empty _ := true }.

Definition rebooting : Package :=
  {| pkg_Ref := {| ref_Name := "kernel"; ref_Version := "6.1" |}; pkg_Image := "img"; pkg_ContainerSHA := "";
     pkg_AgentImageOverride := ""; pkg_Interrupt := Some {| int_Type := REBOOT; int_Services := [] |};
     pkg_DependsOn := ∅; pkg_ConfigInterrupts := ∅; pkg_ConfigMap := ∅; pkg_Env := []; pkg_Resources := None;
     pkg_GracefulShutdown := None; pkg_StageTimeout := None; pkg_Uninstall := None |}.

Definition cordoned_node : Node :=
  {| n_Name := "node1"; n_UID := "u1"; n_CreationTimestamp := 0; n_Labels := ∅;
     n_Annotations := {[cordonAnnotationKey "tuning" := cordonAnnotationValue]}; n_Taints := [];
     n_Unschedulable := true; n_Conditions := []; n_BootID := "b1" |}.

Definition cordoned : SkyhookNode :=
  {| full_Only := {| sn_Node := cordoned_node; sn_skyhookName := "tuning"; sn_nodeState := None; sn_updated := false |};
     full_skyhook := NewSkyhookWrapper (plain_nodewright "tuning" (plain_spec {["kernel" := rebooting]}) empty_status);
     full_graph := New |}.

Definition at_rest : Effects.pass api_call SkyhookNode := {| trace := []; mem := cordoned |}.

Lemma work_waits_for_interrupt_witness :
  (Cordon (full_Only cordoned)).2 = false /\
  exists s', ProcessInterrupt quiet_server default_options 0 rebooting (pkg_Interrupt rebooting) true at_rest = (s', Ok true) /\
    trace s' = [ListPods "node1"].
Proof.
  assert (H : exists s', ProcessInterrupt quiet_server default_options 0 rebooting (pkg_Interrupt rebooting) true at_rest
                = (s', Ok true)) by (eexists; by vm_compute).
  destruct H as [s' H].
  destruct (work_waits_for_interrupt quiet_server default_options 0 rebooting (pkg_Interrupt rebooting) true at_rest s' H)
    as [_ Hw].
  destruct Hw as (_ & _ & _ & Hd); [by vm_compute|]. destruct Hd as (Hc & t0 & seen & Ht & _); [left; by vm_compute|].
  split; [exact Hc|]. exists s'. split; [exact H|]. vm_compute in H. injection H as <-. reflexivity.
Defined.
