(* ===== verification/Save.v ===== *)
(** * Saving a resource and its nodes

    Models [SaveNodesAndSkyhook] of
    [operator/internal/controller/skyhook_controller.go] and its callers that
    only refresh what it saves: [refreshSkyhookConditions], [ReportState] and
    [UpdatePauseStatus].

    The memory of a program is one resource with its nodes; [original] is the
    object tracker, which nothing changes once the state is built.  A patch or an
    update that succeeds replaces the object in memory by the server's answer,
    which is an object of the same name; nothing else is assumed of it. *)

From S2P Require Import Prelude Effects Sha256 Graph Float64 DeploymentPolicy Api NodeState Skyhook Conditions Text Node Compartment ClusterState Partition Introspect Drain Options Report Merge Jobs JobBuilder Server Executor.

#[local] Open Scope Z_scope.
#[local] Open Scope go_scope.

(* ------------------------------------------------------------------ *)
(** ** Objects that the server returns *)

Definition receive (answer old : Node) : Node :=
  {| n_Name := n_Name old; n_UID := n_UID answer; n_CreationTimestamp := n_CreationTimestamp answer;
     n_Labels := n_Labels answer; n_Annotations := n_Annotations answer; n_Taints := n_Taints answer;
     n_Unschedulable := n_Unschedulable answer; n_Conditions := n_Conditions answer; n_BootID := n_BootID answer |}.

Definition receive_nodewright (answer old : NodeWright) : NodeWright :=
  {| nw_Name := nw_Name old; nw_UID := nw_UID answer; nw_Generation := nw_Generation answer;
     nw_CreationTimestamp := nw_CreationTimestamp answer; nw_DeletionTimestamp := nw_DeletionTimestamp answer;
     nw_Finalizers := nw_Finalizers answer; nw_Annotations := nw_Annotations answer; Spec := Spec answer;
     nw_Status := nw_Status answer |}.

Definition set_object (node : Node) (f : SkyhookNode) : SkyhookNode := on_node (set_sn_Node node) f.

Definition set_resource (nw : NodeWright) (s : skyhookNodes) : skyhookNodes :=
  set_sns_skyhook {| sk_nw := nw; Updated := Updated (sns_skyhook s) |} s.

(** Run a program on one node of the resource. *)
Definition at_node {A} (name : string) (m : M api_call SkyhookNode A) : M api_call skyhookNodes A := fun s =>
  match find_entry (mem s) name with
  | None => (s, Panic)
  | Some e =>
      let '(p, r) := m {| trace := trace s; mem := as_node (mem s) e |} in
      ({| trace := trace p; mem := put_node (mem p) (mem s) |}, r)
  end.

Section Save.
Context `{MR : MapRange} `{JS : NodeStateJSON} `{TT : TimeText} `{SM : StrategicMerge} `{AE : AgentEncoding}.
Context (srv : server) (opts : SkyhookOperatorOptions) (original : string -> option Node).

Local Notation P := (M api_call skyhookNodes).

(* ------------------------------------------------------------------ *)
(** ** One node *)

(** The object that an attempt patches; nil when it fails before. *)
Definition merged (key : string) (delta : nodeStateDelta) (node fresh : Node) : option Node :=
  match n_Annotations node !! key with
  | Some _ =>
      if bool_decide (delta = ∅) then Some node
      else match parseNodeState fresh key with Ok current => Some (remerge key delta current node) | _ => None end
  | None => Some node
  end.

(** The object in memory after a save that did not succeed: the merged
    annotation of the last attempt that got that far. *)
Fixpoint left_by (steps : nat) (key : string) (delta : nodeStateDelta) (original node : Node) (attempts : list attempt) : Node :=
  match steps, attempts with
  | S steps, a :: attempts =>
      match at_read a with
      | Ok (Some (fresh, rv)) =>
          match merged key delta node fresh with
          | Some node' =>
              match send original node' rv a with
              | None => left_by steps key delta original node' attempts
              | Some _ => node'
              end
          | None => node
          end
      | _ => node
      end
  | _, _ => node
  end.

Definition after_save (skyhookName : string) (base : option Node) (node : Node) (attempts : list attempt) : Node :=
  let key := nodeStateAnnotationKey skyhookName in
  match base with
  | Some base =>
      match parseNodeState base key, parseNodeState node key with
      | Ok before, Ok after => left_by retry_steps key (computeNodeStateDelta before after) base node attempts
      | _, _ => node
      end
  | None => node
  end.

(** [saveNodeChanges], and what it leaves in memory. *)
Definition save_changes : M api_call SkyhookNode unit :=
  let* f := gets id in
  let node := sn_Node (full_Only f) in
  let base := original (n_Name node) in
  let* attempts := attempts_at srv (SaveNode (f_skyhook_name f) base node) (n_Name node) in
  match saveNodeChanges (f_skyhook_name f) base node attempts with
  | Saved written =>
      let '(n, r) := ReloadState (set_sn_Node (receive written node) (full_Only f)) in
      let* _ := modify (set_full_Only n) in
      lift (rwrap "reloading node state for %s after merge: %w" [n_Name node] r)
  | Gone | Unchanged => modify (set_object (after_save (f_skyhook_name f) base node attempts))
  | Failed e =>
      let* _ := modify (set_object (after_save (f_skyhook_name f) base node attempts)) in raise e
  end.

Definition upsert_node_metadata : M api_call SkyhookNode unit :=
  let* f := gets id in UpsertNodeLabelsAnnotationsPackages srv opts (full_skyhook f) (sn_Node (full_Only f)).

(** A patch of the node, or of its status. *)
Definition patch_object (c : Node -> api_call) : M api_call SkyhookNode unit :=
  let* f := gets id in
  let node := sn_Node (full_Only f) in
  let* answer := patch_node srv c node in
  modify (set_object (receive answer node)).

(* ------------------------------------------------------------------ *)
(** ** The resource *)

Definition complete_of (s : skyhookNodes) (name : string) : bool :=
  match find_entry s name with Some e => entry_IsComplete s e | None => false end.

Definition flag_of (s : skyhookNodes) (name : string) : bool :=
  match find_entry s name with Some e => ne_Updated e | None => false end.

(** [saved] and [errs]. *)
Definition failing (acc : bool * list error) (errs : list (option error)) : bool * list error :=
  (true, acc.2 ++ omap id errs).

(** The body of the loop over the nodes. *)
Definition save_node (now : Z) (acc : bool * list error) (name : string) : P (bool * list error) :=
  let* s := gets id in
  let* acc :=
    if changed_of s name then
      let* e1 := try (wrap "error patching node [%s]: %w" [name] (at_node name save_changes)) in
      let* e2 := try (wrap "error upserting labels, annotations, and packages config map for node [%s]: %w" [name]
                        (at_node name upsert_node_metadata)) in
      let* _ := modify (fun s => if complete_of s name then on_skyhook (RemoveNodePriority name) s else s) in
      ret (failing acc [e1; e2])
    else ret acc in
  let* _ := modify (with_node name (UpdateCondition now)) in
  let* s := gets id in
  let* acc :=
    if changed_of s name then
      let* e := try (wrap "error patching node status [%s]: %w" [name] (at_node name (patch_object PatchNodeStatus))) in
      ret (failing acc [e])
    else ret acc in
  let* _ := modify (fun s => if flag_of s name then on_skyhook touch s else s) in
  ret acc.

(** A write of the resource, its status or its metadata. *)
Definition write_resource (c : NodeWright -> api_call) : P unit :=
  let* s := gets id in
  let nw := sk_nw (sns_skyhook s) in
  let* answer := write_nodewright srv c nw in
  modify (set_resource (receive_nodewright answer nw)).

Definition SaveNodesAndSkyhook (now : Z) : P (bool * list error) :=
  let* s := gets id in
  let* acc := loop (save_node now) (false, []) (node_names s) in
  match acc.2 with
  | _ :: _ => ret (false, acc.2)
  | [] =>
      let* _ := modify (fun s => (sns_UpdateCondition now s).1) in
      let* s := gets id in
      if Updated (sns_skyhook s) then
        let* e := try (write_resource PatchStatus) in
        ret (match e with Some _ => false | None => true end, option_list e)
      else ret acc
  end.

(** [if len(errs) > 0 { return utilerrors.NewAggregate(errs) }] *)
Definition save_all (now : Z) : P bool :=
  let* '(saved, errs) := SaveNodesAndSkyhook now in
  let* _ := lift (aggregate errs) in
  ret saved.

(* ------------------------------------------------------------------ *)
(** ** Conditions, report and pause *)

Definition refreshSkyhookConditions (now : Z) : P unit :=
  let* _ := modify (UpdateNodeStateMalformedCondition now) in
  let* _ := save_all now in
  let* _ := modify (UpdateBlockedCondition now) in
  modify (UpdateUninstallConditions now).

Definition r_ReportState (now : Z) : P bool :=
  let* _ := modify ReportState in
  let* s := gets id in
  if Updated (sns_skyhook s) then let* _ := save_all now in ret true else ret false.

Definition UpdatePauseStatus (now : Z) : P bool :=
  let* s := gets id in
  let '(s', changed) := UpdateSkyhookPauseStatus now s in
  let* _ := modify (fun _ => s') in
  if changed then let* _ := save_all now in ret true else ret false.

(* ------------------------------------------------------------------ *)
(** ** Lemmas *)

(** The calls of a save of the nodes. *)
Definition node_call (c : api_call) : Prop :=
  match c with
  | SaveNode _ _ _ | PatchNodeStatus _ | ReadConfigMap _ | CreateConfigMap _ | UpdateConfigMap _ => True
  | _ => False
  end.

(** The server, after the calls [t], took the call [c]. *)
Definition accepted (t : list api_call) (c : api_call) : Prop :=
  match c with
  | SaveNode skyhook base node =>
      match saveNodeChanges skyhook base node (sv_attempts srv t (n_Name node)) with Failed _ => False | _ => True end
  | PatchNodeStatus node => is_ok (sv_node srv t node) = true
  | ReadConfigMap name => is_ok (sv_configmap srv t name) = true
  | CreateConfigMap _ | UpdateConfigMap _ => sv_write srv t c = Done
  | _ => False
  end.

Fixpoint accepted_all (t l : list api_call) : Prop :=
  match l with [] => True | c :: l => accepted t c /\ accepted_all (t ++ [c]) l end.

Lemma accepted_app t l l' : accepted_all t (l ++ l') <-> accepted_all t l /\ accepted_all (t ++ l) l'.
Proof.
  revert t; induction l as [|c l IH]; intros t; simpl; [rewrite app_nil_r; tauto|].
  rewrite IH, <- app_assoc. simpl. tauto.
Qed.

Lemma write_resource_run c s :
  let nw := sk_nw (sns_skyhook (mem s)) in
  let t := trace s ++ [c nw] in
  write_resource c s =
  match sv_nodewright srv (trace s) nw with
  | Ok answer => ({| trace := t; mem := set_resource (receive_nodewright answer nw) (mem s) |}, Ok tt)
  | Err e => ({| trace := t; mem := mem s |}, Err e)
  | Panic => ({| trace := t; mem := mem s |}, Panic)
  end.
Proof.
  cbv zeta. unfold write_resource, bind, gets, write_nodewright, call, modify. cbn [id].
  by destruct (sv_nodewright srv (trace s) _).
Qed.

(** [m] makes calls of a save only, and if it succeeds all were taken. *)
Definition saves {S A} (m : M api_call S A) : Prop := forall s,
  exists l, trace (m s).1 = trace s ++ l /\ Forall node_call l /\
    (is_ok (m s).2 = true -> accepted_all (trace s) l).

Lemma saves_quiet {S A} (m : M api_call S A) : (forall s, trace (m s).1 = trace s) -> saves m.
Proof. intros H s. exists []. rewrite app_nil_r, H. done. Qed.

Lemma saves_bind {S A B} (m : M api_call S A) (k : A -> M api_call S B) : saves m -> (forall a, saves (k a)) -> saves (bind m k).
Proof.
  intros Hm Hk s. unfold bind. destruct (Hm s) as (l & Hl & Hc & Ha). destruct (m s) as [s1 [a|e|]]; simpl in *; [|by exists l..].
  destruct (Hk a s1) as (l' & Hl' & Hc' & Ha'). exists (l ++ l'). rewrite Hl', Hl, app_assoc, Forall_app.
  split_and!; [done|done|done|]. intros Hok. apply accepted_app. split; [by apply Ha|]. rewrite <- Hl. by apply Ha'.
Qed.

Lemma saves_wrap {S A} fmt args (m : M api_call S A) : saves m -> saves (wrap fmt args m).
Proof.
  intros Hm s. destruct (Hm s) as (l & Hl & Hc & Ha). exists l. unfold wrap. cbn [fst snd]. split_and!; [done|done|].
  intros Hok. apply Ha. by destruct (m s).2.
Qed.

Lemma saves_call {S A} c (answer : list api_call -> res A) : node_call c -> (forall t, is_ok (answer t) = true -> accepted t c) ->
  @saves S A (call c answer).
Proof. intros Hc H s. exists [c]. split_and!; [done|by repeat constructor|]. intros Hok. split; [by apply H|done]. Qed.

Lemma saves_at_node {A} name (m : M api_call SkyhookNode A) : saves m -> saves (at_node name m).
Proof.
  intros Hm s. unfold at_node. destruct (find_entry (mem s) name) as [e|].
  - destruct (Hm {| trace := trace s; mem := as_node (mem s) e |}) as (l & Hl & Hc & Ha).
    destruct (m _) as [p r]. exists l. done.
  - exists []. by rewrite app_nil_r.
Qed.

Lemma upsert_saves {S} sk node : @saves S unit (UpsertNodeLabelsAnnotationsPackages srv opts sk node).
Proof.
  unfold UpsertNodeLabelsAnnotationsPackages. destruct (_ && _); [by apply saves_quiet|].
  assert (Hread : forall n, @saves S _ (wrap "error getting config map: %w" [] (read_configmap srv n))).
  { intros n. apply saves_wrap, saves_call; [done|]. done. }
  assert (Hmust : forall c, node_call c -> match c with CreateConfigMap _ | UpdateConfigMap _ => True | _ => False end ->
    @saves S _ (must srv c)).
  { intros c Hc Hw. apply saves_call; [done|]. intros t. destruct c; try done; simpl; by destruct (sv_write srv t _). }
  apply saves_bind; [apply Hread|]. intros [existing|]; [destruct (negb _); [|by apply saves_quiet]|];
    apply saves_wrap, Hmust; done.
Qed.

Lemma save_changes_saves : saves save_changes.
Proof.
  intros s. unfold save_changes, bind, gets, attempts_at, call. cbn [id]. set (f := mem s). set (node := sn_Node (full_Only f)).
  exists [SaveNode (f_skyhook_name f) (original (n_Name node)) node].
  destruct (saveNodeChanges _ _ _ _) as [| |w|e] eqn:E.
  - split_and!; [done|by repeat constructor|]. intros _. split; [|done]. unfold accepted. by rewrite E.
  - split_and!; [done|by repeat constructor|]. intros _. split; [|done]. unfold accepted. by rewrite E.
  - destruct (ReloadState _) as [n r]. split_and!; [done|by repeat constructor|]. intros _. split; [|done]. unfold accepted. by rewrite E.
  - split_and!; [done|by repeat constructor|]. done.
Qed.

Lemma patch_status_saves : saves (patch_object PatchNodeStatus).
Proof.
  unfold patch_object. apply saves_bind; [by apply saves_quiet|]. intros f. apply saves_bind; [|intros; by apply saves_quiet].
  apply saves_call; done.
Qed.

(** An error is kept; without one, the calls were taken. *)
Lemma saves_try {S} (m : M api_call S unit) s : saves m -> exists l,
  trace (try m s).1 = trace s ++ l /\ Forall node_call l /\
  forall o, (try m s).2 = Ok o -> o = None -> accepted_all (trace s) l.
Proof.
  intros Hm. unfold try. destruct (Hm s) as (l & Hl & Hc & Ha). exists l.
  destruct (m s) as [s1 [a|e|]]; simpl in *; (split_and!; [done|done|]); intros o [= <-]; try done. intros _. by apply Ha.
Qed.

(** The errors only grow, and where they do not, the calls were taken. *)
Definition collects (m : P (bool * list error)) (acc : bool * list error) : Prop := forall s,
  exists l, trace (m s).1 = trace s ++ l /\ Forall node_call l /\
    forall acc', (m s).2 = Ok acc' -> exists new, acc'.2 = acc.2 ++ new /\ (new = [] -> accepted_all (trace s) l).

Lemma collects_ret acc : collects (ret acc) acc.
Proof. intros s. exists []. rewrite app_nil_r. split_and!; [done..|]. intros acc' [= <-]. exists []. by rewrite app_nil_r. Qed.

Lemma collects_bind m k acc : collects m acc -> (forall acc', collects (k acc') acc') -> collects (bind m k) acc.
Proof.
  intros Hm Hk s. unfold bind. destruct (Hm s) as (l & Hl & Hc & Ha). destruct (m s) as [s1 [a|e|]]; simpl in *; [|by exists l..].
  destruct (Hk a s1) as (l' & Hl' & Hc' & Ha'). exists (l ++ l'). rewrite Hl', Hl, app_assoc, Forall_app.
  split_and!; [done|done|done|]. intros acc' Hr. destruct (Ha a eq_refl) as (new & Hn & H1). destruct (Ha' acc' Hr) as (new' & Hn' & H2).
  exists (new ++ new'). rewrite Hn', Hn, app_assoc. split; [done|]. intros [-> ->]%app_nil. apply accepted_app.
  split; [by apply H1|]. rewrite <- Hl. by apply H2.
Qed.

Lemma collects_quiet {A} (m : P A) k acc : (forall s, trace (m s).1 = trace s) -> (forall a, collects (k a) acc) -> collects (bind m k) acc.
Proof.
  intros Hm Hk s. unfold bind. pose proof (Hm s) as E. destruct (m s) as [s1 [a|e|]]; simpl in *.
  - destruct (Hk a s1) as (l & H). rewrite E in H. by exists l.
  - exists []. by rewrite app_nil_r.
  - exists []. by rewrite app_nil_r.
Qed.

Lemma collects_try (m : P unit) acc (errs : option error -> list (option error)) k :
  saves m -> (forall e, collects (k e) (failing acc (errs e))) ->
  (forall e, e <> None -> omap id (errs e) <> []) -> errs None = [] ->
  collects (bind (try m) k) acc.
Proof.
  intros Hm Hk He Hn s. unfold bind. destruct (saves_try m s Hm) as (l & Hl & Hc & Ha).
  destruct (try m s) as [s1 [e|e|]]; simpl in *; [|by exists l..].
  destruct (Hk e s1) as (l' & Hl' & Hc' & Ha'). exists (l ++ l'). rewrite Hl', Hl, app_assoc, Forall_app.
  split_and!; [done|done|done|]. intros acc' Hr. destruct (Ha' acc' Hr) as (new & Hnew & H2).
  exists (omap id (errs e) ++ new). rewrite Hnew. simpl. rewrite app_assoc. split; [done|]. intros [H0 ->]%app_nil.
  apply accepted_app. split; [apply (Ha e eq_refl)|rewrite <- Hl; by apply H2].
  destruct e as [e|]; [|done]. by apply (He (Some e)) in H0.
Qed.

Lemma save_node_collects now acc name : collects (save_node now acc name) acc.
Proof.
  unfold save_node. apply collects_quiet; [done|]. intros s0. apply collects_bind.
  - destruct (changed_of s0 name); [|apply collects_ret].
    apply (collects_try _ acc (fun e => option_list (Some <$> e))); [by apply saves_wrap, saves_at_node, save_changes_saves| |by intros [e|]|done].
    intros e1. apply (collects_try _ _ (fun e => option_list (Some <$> e))); [apply saves_wrap, saves_at_node| |by intros [e|]|done].
    { apply saves_bind; [by apply saves_quiet|]. intros f. apply upsert_saves. }
    intros e2. apply collects_quiet; [done|]. intros _.
    replace (failing acc [e1; e2]) with (failing (failing acc (option_list (Some <$> e1))) (option_list (Some <$> e2)));
      [|unfold failing; cbn [snd]; rewrite <- app_assoc; by destruct e1, e2].
    set (acc' := failing _ _). exact (collects_ret acc').
  - intros acc'. apply collects_quiet; [done|]. intros _. apply collects_quiet; [done|]. intros s1. apply collects_bind.
    + destruct (changed_of s1 name); [|apply collects_ret].
      apply (collects_try _ acc' (fun e => option_list (Some <$> e))); [by apply saves_wrap, saves_at_node, patch_status_saves| |by intros [e|]|done].
      intros e. replace (failing acc' [e]) with (failing acc' (option_list (Some <$> e))) by (by destruct e).
      apply collects_ret.
    + intros acc''. apply collects_quiet; [done|]. intros _. apply collects_ret.
Qed.

Lemma save_nodes_collects now names acc : collects (loop (save_node now) acc names) acc.
Proof.
  revert acc; induction names as [|name names IH]; intros acc; [apply collects_ret|].
  apply collects_bind; [apply save_node_collects|]. intros acc'. apply IH.
Qed.

(** The order of the calls of a save. *)
Lemma SaveNodesAndSkyhook_order (now : Z) (s : Effects.pass api_call skyhookNodes) :
  let '(s', r) := SaveNodesAndSkyhook now s in
  exists nodes status, trace s' = trace s ++ nodes ++ status /\ Forall node_call nodes /\
    (status = [] \/ exists nw, status = [PatchStatus nw]) /\
    (status <> [] -> accepted_all (trace s) nodes) /\
    (forall saved, r = Ok (saved, []) -> accepted_all (trace s) nodes) /\
    (forall saved e errs, r = Ok (saved, e :: errs) -> saved = false).
Proof.
  unfold SaveNodesAndSkyhook, bind at 1, gets. cbn [id]. unfold bind at 1.
  destruct (save_nodes_collects now (node_names (mem s)) (false, []) s) as (l & Hl & Hc & Ha).
  destruct (loop _ _ _ s) as [s1 [[saved errs]|e|]]; simpl in *; [|exists l, []; rewrite app_nil_r; split_and!; (done || auto)..].
  destruct (Ha _ eq_refl) as (new & Hnew & Hacc). simpl in Hnew. subst new.
  destruct errs as [|e errs].
  - unfold bind at 1, modify. cbn [trace mem]. unfold bind at 1, gets. cbn [id mem].
    destruct (Updated (sns_skyhook (sns_UpdateCondition now (mem s1)).1)).
    + unfold bind, try. rewrite write_resource_run. cbn [trace mem]. set (nw := sk_nw _).
      destruct (sv_nodewright srv (trace s1) nw); cbn [fst snd trace ret]; exists l, [PatchStatus nw]; rewrite Hl, <- app_assoc;
        (split_and!; [done|done|right; by exists nw|by intros _; apply Hacc|by intros; apply Hacc|intros ? ? ?; simpl; congruence]).
    + exists l, []. simpl. rewrite app_nil_r. split_and!; [done|done|by left|done|by intros; apply Hacc|done].
  - exists l, []. simpl. rewrite app_nil_r. split_and!; [done|done|by left|done|done|intros ? ? ?; simpl; congruence].
Qed.

(* ------------------------------------------------------------------ *)
(** ** Property *)

(** The status of a resource is written last, and only over nodes that were
    saved.  A save makes the calls of its nodes (the locked patch of what changed,
    the metadata config map, the patch of the node's conditions) and then at most
    one patch of the resource's status; when it makes that patch, or when it
    reports no error, the server has taken every one of the calls before it.  A
    save that reports an error reports that nothing was saved. *)
Theorem status_follows_nodes (now : Z) (s : Effects.pass api_call skyhookNodes) :
  let '(s', r) := SaveNodesAndSkyhook now s in
  exists nodes status, trace s' = trace s ++ nodes ++ status /\ Forall node_call nodes /\
    (status = [] \/ exists nw, status = [PatchStatus nw]) /\
    (status <> [] -> accepted_all (trace s) nodes) /\
    (forall saved, r = Ok (saved, []) -> accepted_all (trace s) nodes) /\
    (forall saved e errs, r = Ok (saved, e :: errs) -> saved = false).
Proof. exact (SaveNodesAndSkyhook_order now s). Qed.

End Save.
