(* ===== verification/Sweep.v ===== *)
(** * Keeping the Jobs of a resource in step with its specification

    Models the sweep of [operator/internal/controller/skyhook_controller.go]:
    [ValidateRunningPackages] with the predicates it decides by, the suspension
    of Jobs on pause and resume, and the deletions on a configuration change and
    on a reboot.  The memory of these programs is the resource with its nodes,
    which they only read; their calls are those of [Executor]. *)

From S2P Require Import Prelude Effects Sha256 Graph Float64 DeploymentPolicy Api NodeState Skyhook Conditions Text Node Compartment ClusterState Partition Introspect Drain Options Merge Jobs JobBuilder Server Executor.

#[local] Open Scope Z_scope.
#[local] Open Scope go_scope.

Section Sweep.
Context `{MR : MapRange} `{JS : NodeStateJSON} `{TT : TimeText} `{PJ : PackageJSON} `{TS : TaintSyntax}
  `{QQ : Quantities}.
Context (srv : server) (opts : SkyhookOperatorOptions).

Local Notation P := (M api_call skyhookNodes).

(* ------------------------------------------------------------------ *)
(** ** Is a Job still wanted *)

(** Any package of the specification that the Job matches. *)
Fixpoint spec_matches (job : StageJob) (skyhook : Skyhook) (stage : Stage) (packages : list (string * Package)) : res bool :=
  match packages with
  | [] => Ok false
  | (_, v) :: packages =>
      rbind (jobMatchesPackage opts v job skyhook stage) (fun matches =>
      if matches then Ok true else spec_matches job skyhook stage packages)
  end.

Definition jobSpecMatchesPackage (job : StageJob) (pkg : PackageSkyhook) (s : skyhookNodes) : res bool :=
  rbind (spec_matches job (sns_skyhook s) (px_Stage pkg) (sns_packages s)) (fun matches =>
  if matches then Ok true
  else if bool_decide (px_Stage pkg = StageUninstall) then
    Ok (match sp_Packages (sns_Spec s) !! ref_Name (px_Ref pkg) with
        | None => true
        | Some specPkg => negb (bool_decide (pkg_Version specPkg = ref_Version (px_Ref pkg)))
        end)
  else Ok false).

Definition erroring_at (nodeState : NodeState) (pkg : PackageSkyhook) : bool :=
  match nodeState !! px_UniqueName pkg with
  | Some status => bool_decide (ps_Stage status = px_Stage pkg) && bool_decide (ps_State status = StateErroring)
  | None => false
  end.

Definition recordedDone (nodeState : NodeState) (pkg : PackageSkyhook) : bool :=
  match nodeState !! px_UniqueName pkg with
  | Some status => negb (bool_decide (ps_Stage status = px_Stage pkg)) || bool_decide (ps_State status = StateComplete)
  | None => false
  end.

Definition shouldDeleteFinishedJob (job : StageJob) (pkg : PackageSkyhook) (nodeState : NodeState) (s : skyhookNodes)
  : res bool :=
  if negb (jobProcessed (sj_Job job)) then Ok false
  else
    rbind (if jobFailedTerminally (sj_Job job) && erroring_at nodeState pkg then jobSpecMatchesPackage job pkg s else Ok false)
      (fun timed_out => Ok (if timed_out then false else negb (recordedDone nodeState pkg))).

Definition jobIsStale (job : StageJob) (pkg : PackageSkyhook) (nodeState : NodeState) (s : skyhookNodes) : res bool :=
  rbind (jobSpecMatchesPackage job pkg s) (fun matches =>
  Ok (if negb matches then true
      else match nodeState !! px_UniqueName pkg with
           | None => true
           | Some status => negb (bool_decide (ps_Stage status = px_Stage pkg))
           end)).

(* ------------------------------------------------------------------ *)
(** ** The sweep *)

Definition annotate_job (annotations : gmap string string) (job : StageJob) : StageJob :=
  set_sj (set_job_Annotations annotations (sj_Job job)) (sj_Template job) job.

Definition InvalidPackage (job : StageJob) : P unit :=
  let* annotations := lift (rwrap "error invalidating package: %w" [] (InvalidatePackage (job_Annotations (sj_Job job)))) in
  wrap "error patching executor %s: %w" [job_Name (sj_Job job)] (must srv (PatchJob (annotate_job annotations job))).

(** [nodesByName]: of two nodes with one name, the later. *)
Definition node_of_job (s : skyhookNodes) (job : StageJob) : option NodeEntry :=
  List.find (fun e => bool_decide (entry_name e = job_NodeName (sj_Job job))) (rev (sns_nodes s)).

(** An error is collected and the loop goes on; a panic does not. *)
Definition collect {A} (r : res A) (acc : bool * list error) (k : A -> P (bool * list error)) : P (bool * list error) :=
  match r with
  | Ok a => k a
  | Err e => ret (acc.1, acc.2 ++ [e])
  | Panic => lift Panic
  end.

Definition sweep_job (acc : bool * list error) (job : StageJob) : P (bool * list error) :=
  let* s := gets id in
  let name := job_Name (sj_Job job) in
  collect (rwrap "error getting package from job %s: %w" [name] (GetPackage (job_Annotations (sj_Job job)))) acc (fun pkg =>
  match pkg with
  | None => ret acc
  | Some pkg =>
      match node_of_job s job with
      | None =>
          let* e := try (wrap "error deleting orphaned-node job %s: %w" [name] (delete_job_foreground srv job)) in
          ret (match e with Some e => (acc.1, acc.2 ++ [e]) | None => (true, acc.2) end)
      | Some node =>
          collect (rwrap "node %s: reading state while validating jobs: %w" [entry_name node] (sns_State node)) acc
            (fun nodeState =>
          if jobFinished (sj_Job job) then
            let* delete := lift (shouldDeleteFinishedJob job pkg nodeState s) in
            if delete then
              let* e := try (wrap "error deleting finished job %s: %w" [name] (delete_job_foreground srv job)) in
              ret (match e with Some e => (acc.1, acc.2 ++ [e]) | None => (true, acc.2) end)
            else ret acc
          else
            let* stale := lift (jobIsStale job pkg nodeState s) in
            if stale then
              let* e := try (wrap "error invalidating job %s: %w" [name] (InvalidPackage job)) in
              ret (true, acc.2 ++ option_list e)
            else ret acc)
      end
  end).

Definition skyhook_job_labels (s : skyhookNodes) : gmap string string := {[ prefixed_key "name" := sns_Name s ]}.

Definition ValidateRunningPackages : P bool :=
  let* s := gets id in
  let* jobs := wrap "error getting jobs while validating packages: %w" [] (list_jobs srv (skyhook_job_labels s) []) in
  let* '(update, errs) := loop sweep_job (false, []) jobs in
  let* _ := lift (aggregate errs) in
  ret update.

(* ------------------------------------------------------------------ *)
(** ** Pause and resume *)

Definition set_sj_Suspend (v : bool) (j : StageJob) : StageJob :=
  {| sj_Job := sj_Job j; sj_Namespace := sj_Namespace j; sj_Parallelism := sj_Parallelism j;
     sj_Completions := sj_Completions j; sj_ReplacesFailed := sj_ReplacesFailed j;
     sj_IgnoresDisruptions := sj_IgnoresDisruptions j; sj_BackoffLimit := sj_BackoffLimit j;
     sj_ActiveDeadlineSeconds := sj_ActiveDeadlineSeconds j; sj_Suspend := Some v; sj_Template := sj_Template j |}.

Definition suspended (job : StageJob) : bool := default false (sj_Suspend job).

Definition suspend_job (suspend : bool) (_ : unit) (job : StageJob) : P unit :=
  let name := job_Name (sj_Job job) in
  if jobFinished (sj_Job job) then ret tt
  else
    let* invalid := lift (rwrap "checking invalid marker on job %s: %w" [name] (IsInvalidPackage (job_Annotations (sj_Job job)))) in
    if invalid then ret tt
    else if bool_decide (suspended job = suspend) then ret tt
    else wrap "setting suspend=%t on job %s: %w" [name] (must srv (PatchJob (set_sj_Suspend suspend job))).

Definition setSuspendOnUnfinishedJobs (suspend : bool) : P unit :=
  let* s := gets id in
  let* jobs := wrap "listing jobs to set suspend=%t for skyhook %s: %w" [sns_Name s] (list_jobs srv (skyhook_job_labels s) []) in
  loop (suspend_job suspend) tt jobs.

Definition suspendUnfinishedJobs : P unit := setSuspendOnUnfinishedJobs true.

Definition resumeSuspendedJobs : P unit :=
  let* s := gets id in
  if sns_IsDisabled s then ret tt else setSuspendOnUnfinishedJobs false.

(* ------------------------------------------------------------------ *)
(** ** Deletions *)

Definition delete_job (fmt : string) (args : list string) (wanted : StageJob -> bool) (_ : unit) (job : StageJob) : P unit :=
  if wanted job then wrap fmt (job_Name (sj_Job job) :: args) (delete_job_foreground srv job) else ret tt.

(** Unfinished, or failed for good. *)
Definition in_flight (job : StageJob) : bool := unfinished job || jobFailedTerminally (sj_Job job).

Definition deleteConfigUpdateExecutors (nodeName skyhookName : string) (p : Package) : P unit :=
  let* jobs := wrap "listing package jobs on node %s for package %s: %w" [nodeName; pkg_UniqueName p]
                 (list_jobs srv (package_job_labels nodeName skyhookName p) []) in
  loop (delete_job "deleting erroring job %s on node %s: %w" [nodeName] in_flight) tt jobs.

Definition resource_node_labels (skyhookName nodeName : string) : gmap string string :=
  {[ prefixed_key "name" := skyhookName; prefixed_key "node" := nodeLabelValue nodeName ]}.

Definition deleteNodeJobs {S} (skyhookName nodeName : string) : M api_call S unit :=
  let* jobs := wrap "listing jobs on node %s: %w" [nodeName] (list_jobs srv (resource_node_labels skyhookName nodeName) []) in
  loop (fun _ job => wrap "deleting job %s on node %s: %w" [job_Name (sj_Job job); nodeName] (delete_job_foreground srv job)) tt jobs.

(* ------------------------------------------------------------------ *)
(** ** Lemmas *)

(** A loop whose body makes at most one call per element and never stops. *)
Lemma loop_calls {S A B} (f : B -> A -> M api_call S B) (c : A -> option api_call) (m : S) l :
  (forall acc a t s' r, f acc a {| trace := t; mem := m |} = (s', r) -> r <> Panic ->
     s' = {| trace := t ++ option_list (c a); mem := m |} /\ exists b, r = Ok b) ->
  forall acc t s' r, loop f acc l {| trace := t; mem := m |} = (s', r) -> r <> Panic ->
    s' = {| trace := t ++ omap c l; mem := m |} /\ exists b, r = Ok b.
Proof.
  intros Hf. induction l as [|a l IH]; intros acc t s' r.
  - intros [= <- <-] _. rewrite app_nil_r. eauto.
  - rewrite omap_cons_list. simpl. unfold bind. destruct (f acc a _) as [s1 r1] eqn:E. intros H Hr.
    assert (Hr1 : r1 <> Panic) by (intros ->; by injection H as _ <-).
    destruct (Hf _ _ _ _ _ E Hr1) as (-> & b & ->). apply IH in H as (-> & Hb); [|done].
    by rewrite <- app_assoc.
Qed.

(** One that stops at the first error: on success every element was served. *)
Lemma loop_served {S A B} (f : B -> A -> M api_call S B) (c : A -> option api_call) (m : S) l :
  (forall acc a t s' b, f acc a {| trace := t; mem := m |} = (s', Ok b) ->
     s' = {| trace := t ++ option_list (c a); mem := m |}) ->
  forall acc t s' b, loop f acc l {| trace := t; mem := m |} = (s', Ok b) ->
    s' = {| trace := t ++ omap c l; mem := m |}.
Proof.
  intros Hf. induction l as [|a l IH]; intros acc t s' b.
  - intros [= <- <-]. by rewrite app_nil_r.
  - rewrite omap_cons_list. simpl. intros (s1 & b1 & H1 & H)%bind_ok. apply Hf in H1 as ->. apply IH in H as ->.
    by rewrite <- app_assoc.
Qed.

Lemma must_served {S} c (t : list api_call) (m : S) s' :
  must srv c {| trace := t; mem := m |} = (s', Ok tt) -> s' = {| trace := t ++ [c]; mem := m |}.
Proof. by intros [_ ->]%call_ok. Qed.

Lemma delete_served {S} job (t : list api_call) (m : S) s' :
  delete_job_foreground srv job {| trace := t; mem := m |} = (s', Ok tt) ->
  s' = {| trace := t ++ [RemoveJob (job_Name (sj_Job job))]; mem := m |}.
Proof. unfold delete_job_foreground. by intros [_ ->]%wrap_ok%call_ok. Qed.

Lemma podMatches_ok p job skyhook stage : Options_Validate opts = Ok tt ->
  exists b, jobMatchesPackage opts p job skyhook stage = Ok b.
Proof.
  intros H. unfold jobMatchesPackage, podMatchesPackage.
  destruct (createPod_ok opts p skyhook "" stage H) as [pod Hp].
  destruct (createInterruptPod_ok opts (InterruptOther "") "" p skyhook "" stage H) as [pod' Hp'].
  case_bool_decide; rewrite ?Hp, ?Hp'; simpl; eauto.
Qed.

Lemma matches_label p job skyhook stage :
  jobMatchesPackage opts p job skyhook stage = Ok true ->
  default "" (pt_Labels (sj_Template job) !! prefixed_key "package") = package_label p.
Proof.
  unfold jobMatchesPackage, podMatchesPackage. rewrite rbind_ok. intros (pod & Hpod & H).
  assert (Hl : bp_Labels pod !! prefixed_key "package" = Some (package_label p)).
  { clear H. revert Hpod. case_bool_decide; intros Hpod.
    - by destruct (createInterruptPod_fields _ _ _ _ _ _ _ _ Hpod) as (c & _ & _ & _ & _ & Hl & _).
    - destruct (createPod_fields _ _ _ _ _ _ Hpod) as (m & _ & -> & _). reflexivity. }
  rewrite Hl in H. injection H as H. destruct (bool_decide _) eqn:E in H; [|done]. by apply bool_decide_eq_true in E.
Qed.

Lemma spec_matches_spec job skyhook stage packages : Options_Validate opts = Ok tt ->
  exists b, spec_matches job skyhook stage packages = Ok b /\
    (b = true <-> exists k v, (k, v) ∈ packages /\ jobMatchesPackage opts v job skyhook stage = Ok true).
Proof.
  intros H. induction packages as [|[k v] packages (b & IH & IHb)]; simpl.
  - exists false. split; [done|]. split; [done|]. by intros (k & v & []%elem_of_nil & _).
  - destruct (podMatches_ok v job skyhook stage H) as [m Hm]. rewrite Hm. simpl. destruct m.
    + exists true. split; [done|]. split; [|done]. intros _. exists k, v. split; [by left|done].
    + exists b. split; [done|]. rewrite IHb. split; intros (k' & v' & Hin & Hv).
      * exists k', v'. split; [by right|done].
      * apply elem_of_cons in Hin as [[= -> ->]|Hin]; [congruence|]. by exists k', v'.
Qed.

(* ------------------------------------------------------------------ *)
(** ** What the sweep does *)

(** The one call that the sweep makes for a Job. *)
Definition sweep_call (s : skyhookNodes) (job : StageJob) : option api_call :=
  match GetPackage (job_Annotations (sj_Job job)) with
  | Ok (Some pkg) =>
      match node_of_job s job with
      | None => Some (RemoveJob (job_Name (sj_Job job)))
      | Some node =>
          match sns_State node with
          | Ok nodeState =>
              if jobFinished (sj_Job job) then
                match shouldDeleteFinishedJob job pkg nodeState s with
                | Ok true => Some (RemoveJob (job_Name (sj_Job job)))
                | _ => None
                end
              else
                match jobIsStale job pkg nodeState s with
                | Ok true =>
                    match InvalidatePackage (job_Annotations (sj_Job job)) with
                    | Ok annotations => Some (PatchJob (annotate_job annotations job))
                    | _ => None
                    end
                | _ => None
                end
          | _ => None
          end
      end
  | _ => None
  end.

Lemma try_call {S A} (m : M api_call S A) c (t : list api_call) (x : S) s' r :
  (forall s1 r1, m {| trace := t; mem := x |} = (s1, r1) -> r1 <> Panic -> s1 = {| trace := t ++ c; mem := x |}) ->
  try m {| trace := t; mem := x |} = (s', r) -> r <> Panic -> s' = {| trace := t ++ c; mem := x |} /\ exists o, r = Ok o.
Proof.
  intros Hm. unfold try. destruct (m _) as [s1 [a|e|]] eqn:E; intros [= <- <-] Hr; [| |done].
  - split; [by eapply Hm|eauto].
  - split; [by eapply Hm|eauto].
Qed.

Lemma delete_call {S} job fmt args (t : list api_call) (x : S) s1 r1 :
  wrap fmt args (delete_job_foreground srv job) {| trace := t; mem := x |} = (s1, r1) -> r1 <> Panic ->
  s1 = {| trace := t ++ [RemoveJob (job_Name (sj_Job job))]; mem := x |}.
Proof. unfold wrap, delete_job_foreground, must_if_present, call. cbn [fst snd trace mem]. by intros [= <- _]. Qed.

Lemma invalidate_call job fmt args t (x : skyhookNodes) s1 r1 :
  wrap fmt args (InvalidPackage job) {| trace := t; mem := x |} = (s1, r1) -> r1 <> Panic ->
  s1 = {| trace := t ++ match InvalidatePackage (job_Annotations (sj_Job job)) with
                        | Ok annotations => [PatchJob (annotate_job annotations job)] | _ => [] end; mem := x |}.
Proof.
  unfold wrap, InvalidPackage, bind, lift, must, call. cbn [fst snd trace mem].
  destruct (InvalidatePackage _); cbn [rwrap fst snd]; intros [= <- _] _; rewrite ?app_nil_r; done.
Qed.

Section Valid.
Context (Hopts : Options_Validate opts = Ok tt).
#[local] Set Default Proof Using "Type*".

Lemma jobSpecMatches_ok job pkg s : exists b, jobSpecMatchesPackage job pkg s = Ok b.
Proof.
  unfold jobSpecMatchesPackage. destruct (spec_matches_spec job (sns_skyhook s) (px_Stage pkg) (sns_packages s) Hopts) as (b & -> & _).
  simpl. destruct b; [eauto|]. case_bool_decide; eauto.
Qed.

Lemma shouldDelete_ok job pkg ns s : exists b, shouldDeleteFinishedJob job pkg ns s = Ok b.
Proof.
  unfold shouldDeleteFinishedJob. destruct (jobSpecMatches_ok job pkg s) as [b Hb]. repeat case_match; simpl; rewrite ?Hb; simpl; eauto.
Qed.

Lemma jobIsStale_ok job pkg ns s : exists b, jobIsStale job pkg ns s = Ok b.
Proof. unfold jobIsStale. destruct (jobSpecMatches_ok job pkg s) as [b ->]. simpl. eauto. Qed.

Lemma sweep_job_call s acc job t s' r :
  sweep_job acc job {| trace := t; mem := s |} = (s', r) -> r <> Panic ->
  s' = {| trace := t ++ option_list (sweep_call s job); mem := s |} /\ exists b, r = Ok b.
Proof.
  unfold sweep_job, sweep_call, bind at 1, gets. cbn [id trace mem].
  assert (Hret : forall a : bool * list error, ret a {| trace := t; mem := s |} = (s', r) -> r <> Panic ->
    s' = {| trace := t ++ option_list None; mem := s |} /\ exists b, r = Ok b).
  { intros a [= <- <-] _. rewrite app_nil_r. eauto. }
  assert (Hpanic : forall X : Prop, lift Panic {| trace := t; mem := s |} = (s', r) -> r <> Panic -> X)
    by (intros X [= <- <-]; done).
  (* one tried call and what is made of its error *)
  assert (Htry : forall (m : P unit) c (k : option error -> P (bool * list error)),
    (forall s1 r1, m {| trace := t; mem := s |} = (s1, r1) -> r1 <> Panic -> s1 = {| trace := t ++ c; mem := s |}) ->
    (forall o s1, exists a, k o s1 = (s1, Ok a)) -> bind (try m) k {| trace := t; mem := s |} = (s', r) -> r <> Panic ->
    s' = {| trace := t ++ c; mem := s |} /\ exists b, r = Ok b).
  { intros m c k Hm Hk. unfold bind. destruct (try m _) as [s1 r1] eqn:E. intros H Hr.
    assert (Hr1 : r1 <> Panic) by (intros ->; by injection H as _ <-).
    destruct (try_call _ _ _ _ _ _ Hm E Hr1) as [-> [o ->]]. destruct (Hk o {| trace := t ++ c; mem := s |}) as [a Ha].
    rewrite Ha in H. injection H as <- <-. eauto. }
  destruct (GetPackage _) as [[pkg|]|e|]; cbn [rwrap collect]; [|by eauto|by eauto|by apply Hpanic].
  destruct (node_of_job s job) as [node|].
  - destruct (sns_State node) as [nodeState|e|]; cbn [rwrap collect]; [|by eauto|by apply Hpanic].
    destruct (jobFinished (sj_Job job)); unfold bind at 1, lift.
    + destruct (shouldDelete_ok job pkg nodeState s) as [[] ->]; [|eauto].
      apply Htry; [intros ??; apply delete_call|]. intros o s1. eexists. reflexivity.
    + destruct (jobIsStale_ok job pkg nodeState s) as [[] ->]; [|eauto].
      intros H Hr. destruct (Htry _ _ _ (invalidate_call job _ _ t s) (fun o s1 => ex_intro _ _ eq_refl) H Hr) as [-> Hb].
      split; [|done]. by destruct (InvalidatePackage _).
  - apply Htry; [intros ??; apply delete_call|]. intros o s1. eexists. reflexivity.
Qed.

(** C32: The sweep makes one decision per Job and carries it out.  Unless it
    panics, [ValidateRunningPackages] lists the Jobs of the resource once and
    then makes, for each of them in order and whatever the earlier calls
    returned, exactly the call decided on that Job: it removes a Job whose node
    is gone, or a finished Job that must run again; it marks an unfinished Job
    that is stale, in its annotation only; and it leaves every other Job alone.
    It never removes an unfinished Job of a node it knows, and never marks a
    finished one. *)
Theorem sweep_spec (s : skyhookNodes) (t : list api_call) (jobs : list StageJob) (s' : Effects.pass api_call skyhookNodes)
    (r : res bool) (Hjobs : sv_jobs srv t (skyhook_job_labels s) [] = Ok jobs)
    (H : ValidateRunningPackages {| trace := t; mem := s |} = (s', r)) (Hr : r <> Panic) :
  s' = {| trace := t ++ ListJobs (skyhook_job_labels s) [] :: omap (sweep_call s) jobs; mem := s |} /\
  (forall job, job ∈ jobs ->
     sweep_call s job = Some (RemoveJob (job_Name (sj_Job job))) ->
     node_of_job s job = None \/
     (jobFinished (sj_Job job) = true /\ exists pkg node nodeState, sns_State node = Ok nodeState /\
        shouldDeleteFinishedJob job pkg nodeState s = Ok true)) /\
  (forall job c, job ∈ jobs -> sweep_call s job = Some c -> c <> RemoveJob (job_Name (sj_Job job)) ->
     jobFinished (sj_Job job) = false /\ exists annotations, c = PatchJob (annotate_job annotations job) /\
       InvalidatePackage (job_Annotations (sj_Job job)) = Ok annotations).
Proof.
  split; [|split].
  - unfold ValidateRunningPackages, bind at 1, gets in H. cbn [id mem] in H. unfold bind at 1, wrap, list_jobs, call in H.
    cbn [fst snd trace mem] in H. rewrite Hjobs in H. cbn [rwrap] in H. unfold bind at 1 in H.
    destruct (loop sweep_job (false, []) jobs _) as [s1 r1] eqn:E.
    assert (Hr1 : r1 <> Panic) by (intros ->; by injection H as _ <-).
    apply (loop_calls sweep_job (sweep_call s) s jobs) in E as (-> & [update errs] & ->); [| |done].
    + unfold bind, lift in H. rewrite <- app_assoc in H. by destruct (aggregate errs); injection H as <- _.
    + intros acc job t1 s2 r2. apply sweep_job_call.
  - intros job _. unfold sweep_call. repeat case_match; try done; intros _; [right|by left].
    split; [done|]. eauto.
  - intros job c _. unfold sweep_call. repeat case_match; try done; intros [= <-] Hne; try done.
    split; [done|]. eauto.
Qed.

(** The two places that decide over a finished Job agree.  For a package of
    the specification whose label no other package has, on a node of the
    resource: a Job whose end was not yet recorded is kept, both when a new Job
    meets its name and by the sweep; so is a Job that failed for good while the
    package stands erroring at its stage, as long as it still matches the
    package; any other finished Job gives way to a new one, and the sweep removes
    it exactly when the node's state no longer counts the stage as done. *)
Theorem finished_Jobs_agree (s : skyhookNodes) (e : NodeEntry) (p : Package) (job : StageJob) (pkg : PackageSkyhook)
    (Hfin : jobFinished (sj_Job job) = true) (Href : px_Ref pkg = pkg_Ref p)
    (Hspec : sp_Packages (sns_Spec s) !! pkg_Name p = Some p)
    (Hlabel : forall k v, sp_Packages (sns_Spec s) !! k = Some v -> package_label v = package_label p -> v = p)
    (Hjob : pt_Labels (sj_Template job) !! prefixed_key "package" = Some (package_label p)) :
  let ns := cached (ne_Only e) in
  let kept := superseded opts (as_node s e) p (px_Stage pkg) job = Ok false /\ shouldDeleteFinishedJob job pkg ns s = Ok false in
  let timed_out := jobFailedTerminally (sj_Job job) = true /\ erroring_at ns pkg = true /\
    jobMatchesPackage opts p job (sns_skyhook s) (px_Stage pkg) = Ok true in
  (jobProcessed (sj_Job job) = false -> kept) /\
  (jobProcessed (sj_Job job) = true -> timed_out -> kept) /\
  (jobProcessed (sj_Job job) = true -> ~ timed_out ->
     superseded opts (as_node s e) p (px_Stage pkg) job = Ok true /\
     shouldDeleteFinishedJob job pkg ns s = Ok (negb (recordedDone ns pkg))).
Proof.
  cbv zeta. set (ns := cached (ne_Only e)).
  assert (Herr : entryErroringAtStage (full_Only (as_node s e)) p (px_Stage pkg) = erroring_at ns pkg).
  { unfold entryErroringAtStage, erroring_at, node_PackageStatus, px_UniqueName, ns_Get. rewrite Href. done. }
  assert (Hmatch : exists b, jobMatchesPackage opts p job (sns_skyhook s) (px_Stage pkg) = Ok b /\
                             jobSpecMatchesPackage job pkg s = Ok b).
  { destruct (podMatches_ok p job (sns_skyhook s) (px_Stage pkg) Hopts) as [b Hb]. exists b. split; [done|].
    unfold jobSpecMatchesPackage.
    destruct (spec_matches_spec job (sns_skyhook s) (px_Stage pkg) (sns_packages s) Hopts) as (b' & -> & Hb'). simpl.
    assert (b' = b) as ->.
    { apply eq_true_iff_eq. rewrite Hb'. split.
      - intros (k & v & Hin & Hv). apply elem_of_range in Hin.
        pose proof (matches_label _ _ _ _ Hv) as Hl. rewrite Hjob in Hl. simpl in Hl.
        rewrite (Hlabel k v Hin (eq_sym Hl)) in Hv. congruence.
      - intros ->. exists (pkg_Name p), p. split; [by apply elem_of_range|done]. }
    destruct b; [done|]. case_bool_decide; [|done]. rewrite Href. change (ref_Name (pkg_Ref p)) with (pkg_Name p).
    rewrite Hspec. by rewrite bool_decide_eq_true_2. }
  destruct Hmatch as (b & Hb & Hb'). unfold superseded, shouldDeleteFinishedJob, unfinished.
  change (full_skyhook (as_node s e)) with {| sk_nw := sk_nw (sns_skyhook s); Updated := ne_Updated e |}.
  change (jobMatchesPackage opts p job {| sk_nw := sk_nw (sns_skyhook s); Updated := ne_Updated e |} (px_Stage pkg))
    with (jobMatchesPackage opts p job (sns_skyhook s) (px_Stage pkg)).
  rewrite Hfin, Herr, Hb, Hb'. cbn [negb rbind].
  split; [|split].
  - intros ->. done.
  - intros -> (-> & -> & [= ->]). done.
  - intros -> Hnot. destruct (jobFailedTerminally (sj_Job job)), (erroring_at ns pkg); cbn [andb negb rbind]; try done.
    destruct b; [|done]. by destruct Hnot.
Qed.

End Valid.

(* ------------------------------------------------------------------ *)
(** ** Pause, resume, deletions *)

Definition suspend_call (suspend : bool) (job : StageJob) : option api_call :=
  if jobFinished (sj_Job job) then None
  else match IsInvalidPackage (job_Annotations (sj_Job job)) with
       | Ok false => if bool_decide (suspended job = suspend) then None else Some (PatchJob (set_sj_Suspend suspend job))
       | _ => None
       end.

Lemma suspend_job_served suspend acc job t (s : skyhookNodes) s' b :
  suspend_job suspend acc job {| trace := t; mem := s |} = (s', Ok b) ->
  s' = {| trace := t ++ option_list (suspend_call suspend job); mem := s |}.
Proof.
  unfold suspend_job, suspend_call. assert (Hret : forall b0 : unit, ret b0 {| trace := t; mem := s |} = (s', Ok b) ->
    s' = {| trace := t ++ option_list None; mem := s |}) by (intros b0 [= <- _]; by rewrite app_nil_r).
  destruct (jobFinished (sj_Job job)); [apply Hret|]. unfold bind, lift.
  destruct (IsInvalidPackage _) as [[]|e|]; cbn [rwrap]; [apply Hret| |done..].
  case_bool_decide; [apply Hret|]. intros Hc%wrap_ok. destruct b. by apply must_served in Hc.
Qed.

(** Pause stops every Job of the resource and resume releases them.  When
    setting the suspension succeeds, the pass has listed the Jobs once and has
    patched exactly the unfinished, valid ones that were not in the wanted state,
    changing nothing else of them; so each unfinished valid Job now is in it.  A
    disabled resource is never resumed: no call is made. *)
Theorem suspension_spec (suspend : bool) (s : skyhookNodes) (t : list api_call) (jobs : list StageJob)
    (s' : Effects.pass api_call skyhookNodes) (Hjobs : sv_jobs srv t (skyhook_job_labels s) [] = Ok jobs)
    (H : setSuspendOnUnfinishedJobs suspend {| trace := t; mem := s |} = (s', Ok tt)) :
  s' = {| trace := t ++ ListJobs (skyhook_job_labels s) [] :: omap (suspend_call suspend) jobs; mem := s |} /\
  (forall job, job ∈ jobs -> jobFinished (sj_Job job) = false ->
     IsInvalidPackage (job_Annotations (sj_Job job)) = Ok false ->
     exists job', suspended job' = suspend /\
       (job' = job \/ (job' = set_sj_Suspend suspend job /\ PatchJob job' ∈ trace s'))) /\
  (sns_IsDisabled s = true -> forall t', resumeSuspendedJobs {| trace := t'; mem := s |} = ({| trace := t'; mem := s |}, Ok tt)).
Proof.
  unfold setSuspendOnUnfinishedJobs in H. apply bind_ok in H as (s1 & s2 & [= <- <-] & H). cbn [id mem] in H.
  apply bind_ok in H as (s3 & jobs' & H1 & H). apply wrap_ok in H1. unfold list_jobs in H1.
  apply call_ok in H1 as [H1 ->]. cbn [trace mem] in *. rewrite Hjobs in H1. injection H1 as <-.
  apply (loop_served _ (suspend_call suspend)) in H as ->; [|intros; by eapply suspend_job_served].
  rewrite <- app_assoc. split; [done|]. split.
  - intros job Hin Hf Hv. destruct (decide (suspended job = suspend)) as [E|E].
    + exists job. split; [done|by left].
    + exists (set_sj_Suspend suspend job). split; [done|]. right. split; [done|]. cbn [trace].
      apply elem_of_app. right. simpl. right. apply list_elem_of_omap. exists job. split; [done|].
      unfold suspend_call. by rewrite Hf, Hv, bool_decide_eq_false_2.
  - intros Hd t'. unfold resumeSuspendedJobs, bind, gets. cbn [id mem]. by rewrite Hd.
Qed.

Lemma omap_if {A B} (b : A -> bool) (g : A -> B) l :
  omap (fun a => if b a then Some (g a) else None) l = map g (List.filter b l).
Proof. induction l as [|a l IH]; [done|]. rewrite omap_cons_list, IH. simpl. by destruct (b a). Qed.

Lemma omap_all {A B} (g : A -> B) l : omap (fun a => Some (g a)) l = map g l.
Proof. induction l as [|a l IH]; [done|]. by rewrite omap_cons_list, IH. Qed.

Lemma deleteConfigUpdateExecutors_served nodeName skyhookName p (s : skyhookNodes) t jobs s' :
  sv_jobs srv t (package_job_labels nodeName skyhookName p) [] = Ok jobs ->
  deleteConfigUpdateExecutors nodeName skyhookName p {| trace := t; mem := s |} = (s', Ok tt) ->
  s' = {| trace := t ++ ListJobs (package_job_labels nodeName skyhookName p) [] ::
                   map (fun job => RemoveJob (job_Name (sj_Job job))) (List.filter in_flight jobs); mem := s |}.
Proof.
  intros Hjobs H. unfold deleteConfigUpdateExecutors in H.
  apply bind_ok in H as (s1 & jobs' & H1 & H). apply wrap_ok in H1. unfold list_jobs in H1.
  apply call_ok in H1 as [H1 ->]. cbn [trace mem] in *. rewrite Hjobs in H1. injection H1 as <-.
  apply (loop_served _ (fun job => if in_flight job then Some (RemoveJob (job_Name (sj_Job job))) else None)) in H as ->.
  - by rewrite <- app_assoc, omap_if.
  - intros acc job t1 s1 b. unfold delete_job. destruct (in_flight job).
    + intros H2%wrap_ok. destruct b. by apply delete_served in H2.
    + intros [= <- _]. by rewrite app_nil_r.
Qed.

Lemma deleteNodeJobs_served {S} skyhookName nodeName (s : S) t jobs s' :
  sv_jobs srv t (resource_node_labels skyhookName nodeName) [] = Ok jobs ->
  deleteNodeJobs skyhookName nodeName {| trace := t; mem := s |} = (s', Ok tt) ->
  s' = {| trace := t ++ ListJobs (resource_node_labels skyhookName nodeName) [] ::
                   map (fun job => RemoveJob (job_Name (sj_Job job))) jobs; mem := s |}.
Proof.
  intros Hjobs H. unfold deleteNodeJobs in H.
  apply bind_ok in H as (s1 & jobs' & H1 & H). apply wrap_ok in H1. unfold list_jobs in H1.
  apply call_ok in H1 as [H1 ->]. cbn [trace mem] in *. rewrite Hjobs in H1. injection H1 as <-.
  apply (loop_served _ (fun job => Some (RemoveJob (job_Name (sj_Job job))))) in H as ->.
  - by rewrite <- app_assoc, omap_all.
  - intros acc job t1 s1 b H2%wrap_ok. destruct b. by apply delete_served in H2.
Qed.

End Sweep.

(* ------------------------------------------------------------------ *)
(** ** Witnesses *)

#[local] Existing Instance example_json.
#[local] Existing Instance example_time.
#[local] Existing Instance package_text.
#[local] Existing Instance example_syntax.
#[local] Existing Instance text_quantities.

Definition tools_status (state : State) (stage : Stage) : PackageStatus :=
  {| ps_Name := "tools"; ps_Version := "1"; ps_Image := "img"; ps_ContainerSHA := ""; ps_Stage := stage;
     ps_State := state; ps_Restarts := 0 |}.

(** The resource on one node, with one package in its state. *)
Definition tuned_entry (st : PackageStatus) : NodeEntry :=
  {| ne_Only := {| sn_Node := cordoned_node; sn_skyhookName := "tuning"; sn_nodeState := Some {["tools|1" := st]};
                   sn_updated := false |};
     ne_Updated := false; ne_graph := New |}.

Definition tuned_nodes (st : PackageStatus) : skyhookNodes :=
  {| sns_skyhook := tuned; sns_nodes := [tuned_entry st]; sns_priorStatus := StatusUnknown; sns_compartments := ∅;
     sns_deploymentPolicy := None |}.

Definition blank_job : StageJob :=
  {| sj_Job := {| job_Name := ""; job_Labels := ∅; job_Annotations := ∅; job_Deleted := false; job_NodeName := "";
                  job_Conditions := []; job_Failed := 0 |};
     sj_Namespace := ""; sj_Parallelism := None; sj_Completions := None; sj_ReplacesFailed := false;
     sj_IgnoresDisruptions := false; sj_BackoffLimit := None; sj_ActiveDeadlineSeconds := None; sj_Suspend := None;
     sj_Template := {| pt_Labels := ∅; pt_Annotations := ∅;
                       pt_Spec := {| psp_NodeName := ""; psp_RestartPolicy := ""; psp_InitContainers := [];
                                     psp_Containers := []; psp_Volumes := []; psp_HostPID := false;
                                     psp_HostNetwork := false; psp_Tolerations := []; psp_ImagePullSecrets := [];
                                     psp_TerminationGracePeriodSeconds := None; psp_ActiveDeadlineSeconds := None |} |} |}.

(** The Job that the operator builds for the package at its first stage. *)
Definition tools_job : StageJob :=
  match createJobFromPackage default_options tools tuned "node1" StageApply with
  | Ok j => setJobPackage tuned StageApply tools j
  | _ => blank_job
  end.

Definition one_job_server (job : StageJob) : server :=
  {| sv_legacy := sv_legacy quiet_server; sv_nodewrights := sv_nodewrights quiet_server; sv_nodes := sv_nodes quiet_server;
     sv_policies := sv_policies quiet_server; sv_labelled_pods := sv_labelled_pods quiet_server; sv_pods := sv_pods quiet_server; sv_selected_pods := sv_selected_pods quiet_server; sv_jobs _ _ _ := Ok [job];
     sv_job _ _ := Ok (Some job); sv_configmaps := sv_configmaps quiet_server; sv_configmap := sv_configmap quiet_server;
     sv_write := sv_write quiet_server; sv_attempts := sv_attempts quiet_server; sv_node := sv_node quiet_server;
     sv_nodewright := sv_nodewright quiet_server; sv_read_nodewright := sv_read_nodewright quiet_server |}.

(** The node has moved on to the config stage: the Job of the apply stage is stale. *)
Lemma sweep_spec_witness :
  let s := tuned_nodes (tools_status StateInProgress StageConfig) in
  let r := ValidateRunningPackages (one_job_server tools_job) default_options {| trace := []; mem := s |} in
  r.2 = Ok true /\ length (trace r.1) = 2%nat /\ jobFinished (sj_Job tools_job) = false.
Proof.
  cbv zeta. set (s := tuned_nodes _). set (r := ValidateRunningPackages _ _ _).
  assert (Hok : r.2 = Ok true) by (by vm_compute). split; [exact Hok|].
  assert (Hopts : Options_Validate default_options = Ok tt) by (by vm_compute).
  destruct (sweep_spec (one_job_server tools_job) default_options Hopts s [] [tools_job] r.1 r.2 eq_refl)
    as (E & _ & Hmark).
  - apply surjective_pairing.
  - by rewrite Hok.
  - split; [rewrite E; by vm_compute|]. by vm_compute.
Defined.

Definition failed_job : StageJob :=
  set_sj {| job_Name := job_Name (sj_Job tools_job); job_Labels := job_Labels (sj_Job tools_job);
            job_Annotations := <[annotationStateRecorded := "true"]> (job_Annotations (sj_Job tools_job));
            job_Deleted := false; job_NodeName := "node1";
            job_Conditions := [{| jc_Type := "Failed"; jc_Status := "True"; jc_Reason := "BackoffLimitExceeded";
                                  jc_LastTransitionTime := 0 |}]; job_Failed := 4 |}
    (sj_Template tools_job) tools_job.

Definition tools_at_apply : PackageSkyhook :=
  {| px_Ref := pkg_Ref tools; px_Skyhook := "tuning"; px_Stage := StageApply; px_Image := "img"; px_ContainerSHA := "";
     px_Invalid := false |}.

(** A stage that timed out stays timed out. *)
Lemma finished_Jobs_agree_witness :
  let e := tuned_entry (tools_status StateErroring StageApply) in
  let s := tuned_nodes (tools_status StateErroring StageApply) in
  superseded default_options (as_node s e) tools StageApply failed_job = Ok false /\
  shouldDeleteFinishedJob default_options failed_job tools_at_apply (cached (ne_Only e)) s = Ok false.
Proof.
  cbv zeta. set (e := tuned_entry _). set (s := tuned_nodes _).
  assert (Hopts : Options_Validate default_options = Ok tt) by (by vm_compute).
  destruct (finished_Jobs_agree default_options Hopts s e tools failed_job tools_at_apply) as (_ & H & _).
  - by vm_compute.
  - reflexivity.
  - by vm_compute.
  - intros k v Hk Hl. change (sp_Packages (sns_Spec s)) with Jobs.two_packages in Hk. unfold Jobs.two_packages in Hk.
    apply lookup_insert_Some in Hk as [[<- <-]|[_ Hk]]; [done|].
    apply lookup_singleton_Some in Hk as [<- <-]. discriminate.
  - by vm_compute.
  - apply H; [by vm_compute|]. split; [by vm_compute|]. split; by vm_compute.
Defined.

Lemma suspension_spec_witness :
  let s := tuned_nodes (tools_status StateInProgress StageApply) in
  let r := suspendUnfinishedJobs (one_job_server tools_job) {| trace := []; mem := s |} in
  r.2 = Ok tt /\ PatchJob (set_sj_Suspend true tools_job) ∈ trace r.1.
Proof.
  cbv zeta. set (s := tuned_nodes _). set (r := suspendUnfinishedJobs _ _).
  assert (Hok : r.2 = Ok tt) by (by vm_compute). split; [exact Hok|].
  destruct (suspension_spec (one_job_server tools_job) true s [] [tools_job] r.1 eq_refl) as (_ & H & _).
  - rewrite <- Hok. apply surjective_pairing.
  - destruct (H tools_job) as (job' & Hs & [-> | [-> Hin]]); [by left|by vm_compute|by vm_compute| |exact Hin].
    by vm_compute in Hs.
Defined.
