(* ===== verification/Uninstall.v ===== *)
(** * Uninstalls and version changes

    Models what the main pass decides about a node before it runs anything:
    [HandleUninstallRequests], [HandleCancelledUninstalls],
    [HandleVersionChange], [filterUninstallForNode],
    [shouldSkipApplyForUninstall] and the list of packages that
    [RunSkyhookPackages] builds from them, of
    [operator/internal/controller/skyhook_controller.go].

    [node.State()] gives the map that the wrapper caches, and the methods change
    that map in place, so each iteration reads the state as the earlier ones
    left it.  A loop over the state goes over the keys it had at the start: the
    entries that it adds are ones it would skip. *)

From S2P Require Import Prelude Graph DeploymentPolicy Api NodeState Skyhook Conditions Text Node.
From S2P Require Import Migration Compartment ClusterState Partition Introspect.

#[local] Open Scope Z_scope.

Section Uninstall.
Context `{MR : MapRange} `{JS : NodeStateJSON} `{TT : TimeText} `{SV : Semver}.

(* ------------------------------------------------------------------ *)
(** ** Requests *)

Definition appendIfNotPresent (l : list Package) (pkg : Package) : list Package :=
  if any (fun existing => bool_decide (pkg_Name existing = pkg_Name pkg) &&
                          bool_decide (pkg_Version existing = pkg_Version pkg)) l
  then l else l ++ [pkg].

Definition needsUninstall (beingDeleted : bool) (pkg : Package) : bool :=
  IsUninstalling (Some pkg) || (beingDeleted && UninstallEnabled (Some pkg)).

(** The body of the inner loop, over the packages of the specification. *)
Definition request_package (beingDeleted : bool) (acc : SkyhookNode * list Package) (pkg : Package)
  : SkyhookNode * list Package :=
  let '(node, toUninstall) := acc in
  let nodeState := cached (full_Only node) in
  match nodeState !! pkg_UniqueName pkg with
  | None => acc
  | Some status =>
      if negb (needsUninstall beingDeleted pkg) && negb (IsUninstallCycleInProgress nodeState (pkg_UniqueName pkg)) then acc
      else
        match ps_Stage status with
        | StageUninstall => (node, appendIfNotPresent toUninstall pkg)
        | StageUninstallInterrupt =>
            if bool_decide (ps_State status = StateComplete) then
              let node := set_full_Only (node_RemoveState (pkg_Ref pkg) (full_Only node)) node in
              (node_SetStatus StatusInProgress node, toUninstall)
            else (node, appendIfNotPresent toUninstall pkg)
        | _ =>
            if negb (bool_decide (ps_State status = StateComplete)) then acc
            else
              let node := node_Upsert (pkg_Ref pkg) (pkg_Image pkg) StateInProgress StageUninstall 0 (pkg_ContainerSHA pkg) node in
              (node_SetStatus StatusInProgress node, appendIfNotPresent toUninstall pkg)
        end
  end.

Definition request_node (beingDeleted : bool) (toUninstall : list Package) (node : SkyhookNode) : SkyhookNode * list Package :=
  foldl (request_package beingDeleted) (node, toUninstall) (range (f_packages node)).*2.

(** A loop over the nodes, each with the shared resource. *)
Definition node_loop {A} (fmt : string) (f : SkyhookNode -> A -> res (SkyhookNode * A)) :=
  fun (sa : skyhookNodes * A) name => let '(s, a) := sa in
    match find_entry s name with
    | None => Ok (s, a)
    | Some e =>
        rbind (rwrap fmt [name] (node_State (ne_Only e))) (fun _ =>
        rbind (f (as_node s e) a) (fun '(node, a) => Ok (put_node node s, a)))
    end.

Definition over_nodes {A} (fmt : string) (f : SkyhookNode -> A -> res (SkyhookNode * A)) (s : skyhookNodes) (a : A)
  : res (skyhookNodes * A) := rfold (node_loop fmt f) (s, a) (node_names s).

Definition HandleUninstallRequests (s : skyhookNodes) : res (skyhookNodes * list Package) :=
  over_nodes "node %s: reading state in HandleUninstallRequests: %w"
    (fun node l => Ok (request_node (beingDeleted s) l node)) s [].

(* ------------------------------------------------------------------ *)
(** ** Cancelled uninstalls *)

Definition cancel_entry (beingDeleted : bool) (node : SkyhookNode) (key : string) : SkyhookNode :=
  match cached (full_Only node) !! key with
  | None => node
  | Some status =>
      if negb (bool_decide (ps_Stage status = StageUninstall)) then node
      else
        match f_packages node !! ps_Name status with
        | None => node
        | Some pkg =>
            if IsUninstalling (Some pkg) then node
            else if beingDeleted && UninstallEnabled (Some pkg) then node
            else if IsActive (Some status) then
              node_SetStatus StatusInProgress
                (node_Upsert (pkg_Ref pkg) (pkg_Image pkg) StateInProgress StageApply 0 (pkg_ContainerSHA pkg) node)
            else node
        end
  end.

Definition cancel_node (beingDeleted : bool) (node : SkyhookNode) : SkyhookNode :=
  foldl (cancel_entry beingDeleted) node (range (cached (full_Only node))).*1.

Definition HandleCancelledUninstalls (s : skyhookNodes) : res skyhookNodes :=
  rbind (over_nodes "node %s: reading state in HandleCancelledUninstalls: %w"
    (fun node (_ : unit) => Ok (cancel_node (beingDeleted s) node, tt)) s tt) (fun '(s, _) => Ok s).

(* ------------------------------------------------------------------ *)
(** ** Version changes *)

Definition RemoveConfigUpdates_of (name : string) (node : SkyhookNode) : SkyhookNode :=
  set_full_skyhook (RemoveConfigUpdates name (full_skyhook node)) node.

(** The upgrade, and what follows the branches that do not [continue]. *)
Definition start_upgrade (pkg : Package) (packageStatus : PackageStatus) (node : SkyhookNode) : SkyhookNode :=
  let node := node_Upsert (pkg_Ref pkg) (pkg_Image pkg) StateInProgress StageUpgrade 0 (pkg_ContainerSHA pkg) node in
  node_SetStatus StatusInProgress (RemoveConfigUpdates_of (ps_Name packageStatus) node).

Definition version_entry (acc : SkyhookNode * bool) (key : string) : res (SkyhookNode * bool) :=
  let '(node, versionChangeDetected) := acc in
  let nodeState := cached (full_Only node) in
  match nodeState !! key with
  | None => Ok acc
  | Some packageStatus =>
      match f_packages node !! ps_Name packageStatus with
      | None => Ok (RemoveConfigUpdates_of (ps_Name packageStatus) node, versionChangeDetected)
      | Some pkg =>
          if IsUninstallCycleInProgress nodeState (pkg_UniqueName pkg) then Ok acc
          else if bool_decide (pkg_Version pkg = ps_Version packageStatus) then Ok acc
          else
            rbind (version_Compare (pkg_Version pkg) (ps_Version packageStatus)) (fun comparison =>
            if comparison =? -2 then
              Err (errorf "error comparing package versions: invalid version string provided enabling webhooks validates versions before being applied" [])
            else if comparison =? 1 then
              match node_PackageStatus (full_Only node) (pkg_UniqueName pkg) with
              | Some st =>
                  if bool_decide (ps_Stage st = StageUpgrade) then Ok (node, true) else Ok (start_upgrade pkg packageStatus node, true)
              | None => Ok (start_upgrade pkg packageStatus node, true)
              end
            else Ok (node, true))
      end
  end.
Definition version_node (node : SkyhookNode) (versionChangeDetected : bool) : res (SkyhookNode * bool) :=
  rfold version_entry (node, versionChangeDetected) (range (cached (full_Only node))).*1.

(** The list of packages to uninstall that it returns is always empty. *)
Definition HandleVersionChange (s : skyhookNodes) : res (skyhookNodes * list Package) :=
  rbind (over_nodes "node %s: reading state in HandleVersionChange: %w" version_node s false) (fun '(s, versionChangeDetected) =>
  Ok (if versionChangeDetected then resetSkyhookBatchState s else s, [])).

(* ------------------------------------------------------------------ *)
(** ** The packages to run on a node *)

Definition filterUninstallForNode (toUninstall : list Package) (nodeState : NodeState) : list Package :=
  List.filter (fun pkg => negb (IsUninstalled nodeState (pkg_UniqueName pkg))) toUninstall.

Definition shouldSkipApplyForUninstall (pkg : Package) (nodeState : NodeState) (beingDeleted : bool) : bool :=
  if IsUninstallCycleInProgress nodeState (pkg_UniqueName pkg) then true
  else needsUninstall beingDeleted pkg && IsUninstalled nodeState (pkg_UniqueName pkg).

Definition packages_to_run (beingDeleted : bool) (toUninstall : list Package) (node : SkyhookNode) : res (list Package) :=
  rbind (rwrap "error getting next packages to run: %w" [] (RunNext node)) (fun toRun =>
  rbind (rwrap "node %s: reading state while filtering runnable packages: %w" [n_Name (sn_Node (full_Only node))]
           (node_State (full_Only node))) (fun st =>
  let nodeState := default ∅ st in
  Ok (filterUninstallForNode toUninstall nodeState ++
      List.filter (fun pkg => negb (shouldSkipApplyForUninstall pkg nodeState beingDeleted)) toRun))).

(* ------------------------------------------------------------------ *)
(** ** Lemmas: methods on the state *)

Definition f_state (f : SkyhookNode) : NodeState := cached (full_Only f).

(** What no method called here changes. *)
Definition same_owner (f f' : SkyhookNode) : Prop := f_packages f' = f_packages f /\ f_name f' = f_name f.

#[export] Instance same_owner_refl : Reflexive same_owner.
Proof. done. Qed.
#[export] Instance same_owner_trans : Transitive same_owner.
Proof. intros f g h [H1 H2] [H3 H4]. split; congruence. Qed.

Lemma SetState_name st n : n_Name (sn_Node (SetState st n)) = n_Name (sn_Node n).
Proof. unfold SetState. destruct st; [|done]. by repeat case_match. Qed.

Lemma SetState_cached ns n : cached (SetState (Some ns) (set_sn_nodeState (Some ns) n)) = ns.
Proof. unfold cached. by destruct (SetState_spec ns n) as [-> _]. Qed.

Definition status_in (pkg : Package) (st : State) (stage : Stage) : PackageStatus :=
  {| ps_Name := pkg_Name pkg; ps_Version := pkg_Version pkg; ps_Image := pkg_Image pkg; ps_ContainerSHA := pkg_ContainerSHA pkg;
     ps_Stage := stage; ps_State := st; ps_Restarts := 0 |}.

Lemma node_Upsert_state pkg st stage f :
  let f' := node_Upsert (pkg_Ref pkg) (pkg_Image pkg) st stage 0 (pkg_ContainerSHA pkg) f in
  f_state f' = <[pkg_UniqueName pkg := status_in pkg st stage]> (f_state f) /\ same_owner f f'.
Proof.
  unfold node_Upsert, Upsert_only. pose proof (Upsert_lookup (cached (full_Only f)) (pkg_Ref pkg) (pkg_Image pkg) st stage 0 (pkg_ContainerSHA pkg)) as Hu.
  destruct (Upsert _ _ _ _ _ _ _) as [ns ch]. cbn [fst] in Hu. subst ns. unfold f_state, same_owner, f_name.
  destruct ch; cbn [full_Only set_full_Only set_full_skyhook full_skyhook].
  - rewrite SetState_name. split; [|done].
    apply SetState_cached.
  - done.
Qed.

Lemma node_RemoveState_state pkg f :
  let f' := set_full_Only (node_RemoveState (pkg_Ref pkg) (full_Only f)) f in
  f_state f' = delete (pkg_UniqueName pkg) (f_state f) /\ same_owner f f'.
Proof.
  unfold node_RemoveState, RemoveState. change (GetUniqueName (pkg_Ref pkg)) with (pkg_UniqueName pkg).
  unfold f_state, same_owner, f_name. destruct (cached (full_Only f) !! pkg_UniqueName pkg) as [st|] eqn:E;
    cbn [full_Only set_full_Only].
  - rewrite SetState_name. split; [|done]. apply SetState_cached.
  - split; [|done]. by rewrite delete_id.
Qed.

Lemma node_SetStatus_state st f : f_state (node_SetStatus st f) = f_state f /\ same_owner f (node_SetStatus st f).
Proof.
  destruct (SetStatus_only_keeps st (full_Only f)) as (H1 & _ & H3).
  unfold f_state, cached, same_owner, f_name, node_SetStatus. cbn [full_Only full_skyhook]. rewrite H1, H3.
  split; [done|]. split; [|done]. unfold f_packages. cbn [full_skyhook].
  by rewrite (proj1 (SetNodeState_work _ _ _)), (proj1 (SetNodeStatus_work _ _ _)).
Qed.

Lemma upsert_and_status pkg st stage status f :
  let f' := node_SetStatus status (node_Upsert (pkg_Ref pkg) (pkg_Image pkg) st stage 0 (pkg_ContainerSHA pkg) f) in
  f_state f' = <[pkg_UniqueName pkg := status_in pkg st stage]> (f_state f) /\ same_owner f f'.
Proof.
  intros f'. destruct (node_Upsert_state pkg st stage f) as [H1 H2].
  destruct (node_SetStatus_state status (node_Upsert (pkg_Ref pkg) (pkg_Image pkg) st stage 0 (pkg_ContainerSHA pkg) f)) as [H3 H4].
  split; [unfold f'; by rewrite H3, H1|by etrans].
Qed.

(* ------------------------------------------------------------------ *)
(** ** Lemmas: the loop over the nodes *)

Definition e_state (e : NodeEntry) : NodeState := cached (ne_Only e).

(** [R] relates the state of each node and the accumulator, in turn. *)
Fixpoint chain {A} (R : NodeState -> A -> NodeState -> A -> Prop) (s s' : skyhookNodes) (names : list string) (a a' : A) : Prop :=
  match names with
  | [] => a = a'
  | n :: names =>
      match find_entry s n with
      | None => chain R s s' names a a'
      | Some e => exists e' a1, find_entry s' n = Some e' /\ R (e_state e) a (e_state e') a1 /\ chain R s s' names a1 a'
      end
  end.

Lemma chain_ext {A} (R : NodeState -> A -> NodeState -> A -> Prop) s s0 s' names a a' :
  (forall n, n ∈ names -> find_entry s n = find_entry s0 n) -> chain R s s' names a a' -> chain R s0 s' names a a'.
Proof.
  revert a; induction names as [|n names IH]; intros a Hs; simpl; [done|].
  rewrite <- (Hs n) by by left. destruct (find_entry s n); [|apply IH; intros; apply Hs; by right].
  intros (e' & a1 & H1 & H2 & H3). exists e', a1. split_and!; [done|done|]. apply IH; [intros; apply Hs; by right|done].
Qed.

Lemma over_nodes_chain {A} fmt f pk (P : NodeState -> Prop) (R : NodeState -> A -> NodeState -> A -> Prop) :
  (forall node a, f_packages node = pk -> P (f_state node) ->
     exists node' a', f node a = Ok (node', a') /\ same_owner node node' /\ R (f_state node) a (f_state node') a') ->
  forall names s a, NoDup names -> sp_Packages (sns_Spec s) = pk ->
  (forall n e, n ∈ names -> find_entry s n = Some e -> is_ok (node_State (ne_Only e)) = true /\ P (e_state e)) ->
  exists s' a', rfold (node_loop fmt f) (s, a) names = Ok (s', a') /\
    sp_Packages (sns_Spec s') = pk /\ node_names s' = node_names s /\
    (forall n, n ∉ names -> find_entry s' n = find_entry s n) /\
    chain R s s' names a a'.
Proof.
  intros Hf names. induction names as [|n names IH]; intros s a Hnd Hpk Hok; simpl.
  { exists s, a. done. }
  apply NoDup_cons in Hnd as [Hn Hnd]. destruct (find_entry s n) as [e|] eqn:He.
  - destruct (Hok n e ltac:(by left) He) as [Hoke HP]. destruct (node_State (ne_Only e)) as [st|er|] eqn:Est; try done.
    cbn [rwrap rbind]. destruct (Hf (as_node s e) a Hpk HP) as (node' & a1 & Hfe & [Ho1 Ho2] & HR). rewrite Hfe. cbn [rbind].
    assert (Hname : entry_name (entry_of_node node') = n).
    { change (f_name node' = n). rewrite Ho2. apply find_some in He as [_ He]. by apply bool_decide_eq_true in He. }
    destruct (IH (put_node node' s) a1 Hnd) as (s' & a' & H1 & H2 & H3 & H4 & H5).
    + change (f_packages node' = pk). by rewrite Ho1.
    + intros m em Hm. rewrite find_entry_put, Hname, bool_decide_eq_false_2 by (intros ->; done).
      intros Hem. apply (Hok m); [by right|done].
    + exists s', a'. split_and!; [done|done| | |].
      * rewrite H3. unfold node_names, put_node. simpl. rewrite map_map. apply map_ext. intros e'. by case_bool_decide.
      * intros m Hm. rewrite not_elem_of_cons in Hm. rewrite H4 by tauto. rewrite find_entry_put, Hname.
        by rewrite bool_decide_eq_false_2 by tauto.
      * exists (entry_of_node node'), a1. split_and!; [|done|].
        -- rewrite H4 by done. rewrite find_entry_put, Hname, bool_decide_eq_true_2, He by done. done.
        -- eapply chain_ext; [|exact H5]. intros m Hm. rewrite find_entry_put, Hname, bool_decide_eq_false_2; [done|].
           intros ->. done.
  - cbn [rbind]. destruct (IH s a Hnd Hpk) as (s' & a' & H1 & H2 & H3 & H4 & H5).
    { intros m em Hm. apply Hok. by right. }
    exists s', a'. split_and!; [done|done|done| |done]. intros m Hm. apply H4. rewrite not_elem_of_cons in Hm. tauto.
Qed.

(* ------------------------------------------------------------------ *)
(** ** Lemmas: the request of one package *)

Definition in_uninstall_cycle (st : PackageStatus) : bool :=
  bool_decide (ps_Stage st = StageUninstall) || bool_decide (ps_Stage st = StageUninstallInterrupt).

(** The entry of a package after a request, and whether the package has to run. *)
Definition requested (beingDeleted : bool) (pkg : Package) (st : PackageStatus) : option PackageStatus * bool :=
  if needsUninstall beingDeleted pkg || in_uninstall_cycle st then
    if bool_decide (ps_Stage st = StageUninstall) then (Some st, true)
    else if bool_decide (ps_State st = StateComplete) then
      if bool_decide (ps_Stage st = StageUninstallInterrupt) then (None, false)
      else (Some (status_in pkg StateInProgress StageUninstall), true)
    else (Some st, bool_decide (ps_Stage st = StageUninstallInterrupt))
  else (Some st, false).

Definition requested_at (beingDeleted : bool) (pkg : Package) (ns : NodeState) : option PackageStatus * bool :=
  match ns !! pkg_UniqueName pkg with Some st => requested beingDeleted pkg st | None => (None, false) end.

Definition same_ref (p q : Package) : bool :=
  bool_decide (pkg_Name p = pkg_Name q) && bool_decide (pkg_Version p = pkg_Version q).

Definition listed (l : list Package) (q : Package) : bool := any (fun p => same_ref p q) l.

Lemma listed_append l p q : listed (appendIfNotPresent l p) q = listed l q || same_ref p q.
Proof.
  unfold appendIfNotPresent. change (any _ l) with (listed l p) at 1.
  destruct (listed l p) eqn:E.
  - destruct (same_ref p q) eqn:Epq; [|by rewrite orb_false_r]. rewrite orb_true_r.
    unfold listed in *. apply any_true in E as (x & Hx & Ex). apply any_true. exists x. split; [done|].
    unfold same_ref in *. bool_simpl. apply andb_true_intro; split; apply bool_decide_eq_true_2; congruence.
  - unfold listed. rewrite any_app. simpl. by rewrite orb_false_r.
Qed.

(** [set_entry k o m] makes [o] the entry at [k]. *)
Definition set_entry (k : string) (o : option PackageStatus) (ns : NodeState) : NodeState :=
  match o with Some st => <[k := st]> ns | None => delete k ns end.

Lemma set_entry_lookup k o ns k' : set_entry k o ns !! k' = if bool_decide (k' = k) then o else ns !! k'.
Proof.
  case_bool_decide as E.
  - subst k'. destruct o; simpl; [apply lookup_insert_eq|apply lookup_delete_eq].
  - destruct o; simpl; [by rewrite lookup_insert_ne|by rewrite lookup_delete_ne].
Qed.

Lemma set_entry_id k ns : set_entry k (ns !! k) ns = ns.
Proof. apply map_eq. intros k'. rewrite set_entry_lookup. case_bool_decide; congruence. Qed.

Lemma request_package_state bd node l pkg :
  let r := request_package bd (node, l) pkg in
  let o := requested_at bd pkg (f_state node) in
  f_state r.1 = set_entry (pkg_UniqueName pkg) o.1 (f_state node) /\ same_owner node r.1 /\
  (forall q, listed r.2 q = listed l q || (o.2 && same_ref pkg q)).
Proof.
  unfold request_package, requested_at, requested. fold (f_state node).
  destruct (f_state node !! pkg_UniqueName pkg) as [st|] eqn:E; cbn [fst snd andb].
  2: { split_and!; [|done|intros q; by rewrite orb_false_r]. rewrite <- E. by rewrite set_entry_id. }
  assert (Hcyc : IsUninstallCycleInProgress (f_state node) (pkg_UniqueName pkg) = in_uninstall_cycle st).
  { unfold IsUninstallCycleInProgress. by rewrite E. }
  rewrite Hcyc. assert (Hid : f_state node = <[pkg_UniqueName pkg := st]> (f_state node)) by (by rewrite insert_id).
  destruct (needsUninstall bd pkg || in_uninstall_cycle st) eqn:Hn.
  2: { apply orb_false_elim in Hn as [-> ->]. cbn. split_and!; [done|done|intros q; by rewrite orb_false_r]. }
  assert (negb (needsUninstall bd pkg) && negb (in_uninstall_cycle st) = false) as ->.
  { by rewrite <- negb_orb, Hn. }
  pose proof (upsert_and_status pkg StateInProgress StageUninstall StatusInProgress node) as [Hup1 Hup2].
  destruct (node_RemoveState_state pkg node) as [Hrm1 Hrm2].
  destruct (node_SetStatus_state StatusInProgress (set_full_Only (node_RemoveState (pkg_Ref pkg) (full_Only node)) node)) as [Hst1 Hst2].
  assert (Hno : forall q, listed l q = listed l q || (false && same_ref pkg q)) by (intros; by rewrite orb_false_r).
  assert (Hyes : forall q, listed (appendIfNotPresent l pkg) q = listed l q || (true && same_ref pkg q)) by apply listed_append.
  destruct (bool_decide (ps_State st = StateComplete)); destruct (ps_Stage st);
    cbn [negb fst snd]; rewrite ?(bool_decide_eq_true_2 (StageUninstall = StageUninstall)) by done;
    rewrite ?(bool_decide_eq_true_2 (StageUninstallInterrupt = StageUninstallInterrupt)) by done;
    repeat match goal with |- context [bool_decide (?a = ?b :> Stage)] => rewrite (bool_decide_eq_false_2 (a = b)) by done end;
    cbn [fst snd set_entry];
    (split_and!; [first [exact Hid|exact Hup1|by rewrite Hst1, Hrm1]|first [done|exact Hup2|by etrans]|first [exact Hno|exact Hyes]]).
Qed.

(** Every package of a list, one after the other. *)
Lemma request_packages_state bd pkgs : NoDup (map pkg_UniqueName pkgs) -> forall node l,
  let r := foldl (request_package bd) (node, l) pkgs in
  (forall p, p ∈ pkgs -> f_state r.1 !! pkg_UniqueName p = (requested_at bd p (f_state node)).1) /\
  (forall k, k ∉ map pkg_UniqueName pkgs -> f_state r.1 !! k = f_state node !! k) /\
  same_owner node r.1 /\
  (forall q, listed r.2 q = listed l q || any (fun p => (requested_at bd p (f_state node)).2 && same_ref p q) pkgs).
Proof.
  induction pkgs as [|pkg pkgs IH]; intros Hnd node l; cbn [foldl].
  { split_and!; [by intros p ?%elem_of_nil|done|done|]. intros q. simpl. by rewrite orb_false_r. }
  apply NoDup_cons in Hnd as [Hp Hnd]. fold (map pkg_UniqueName pkgs) in Hp, Hnd.
  destruct (request_package_state bd node l pkg) as (H1 & H2 & H3).
  destruct (request_package bd (node, l) pkg) as [node1 l1]. cbn [fst snd] in *.
  destruct (IH Hnd node1 l1) as (K1 & K2 & K3 & K4).
  assert (Hsame : forall p, p ∈ pkgs -> requested_at bd p (f_state node1) = requested_at bd p (f_state node)).
  { intros p Hin. unfold requested_at. rewrite H1, set_entry_lookup, bool_decide_eq_false_2; [done|].
    intros E. apply Hp. rewrite <- E. by apply list_elem_of_fmap_2. }
  split_and!.
  - intros p [->|Hin]%elem_of_cons; [|by rewrite K1, Hsame].
    rewrite K2 by done. by rewrite H1, set_entry_lookup, bool_decide_eq_true_2.
  - intros k Hk. simpl in Hk. rewrite not_elem_of_cons in Hk. rewrite K2 by tauto.
    by rewrite H1, set_entry_lookup, bool_decide_eq_false_2 by tauto.
  - by etrans.
  - intros q. rewrite K4, H3. simpl. rewrite orb_assoc. f_equal.
    apply any_ext. intros p Hin. by rewrite Hsame.
Qed.

(** The packages of a specification have distinct unique names. *)
Definition distinct_refs (pk : Packages) : Prop := forall k k' p p',
  pk !! k = Some p -> pk !! k' = Some p' -> pkg_UniqueName p = pkg_UniqueName p' -> k = k'.

Definition readable_nodes (s : skyhookNodes) : Prop :=
  NoDup (node_names s) /\ forall n e, find_entry s n = Some e -> is_ok (node_State (ne_Only e)) = true.

Lemma distinct_refs_NoDup pk : distinct_refs pk -> NoDup (map pkg_UniqueName (range pk).*2).
Proof.
  intros Hd. change (map pkg_UniqueName (range pk).*2) with (pkg_UniqueName <$> (snd <$> range pk)).
  rewrite <- list_fmap_compose. apply NoDup_fmap_2_strong.
  - intros [k p] [k' p'] Hk%elem_of_range Hk'%elem_of_range E. simpl in *. pose proof (Hd _ _ _ _ Hk Hk' E) as ->. congruence.
  - apply (NoDup_fmap_1 fst). apply NoDup_range.
Qed.

Lemma elem_of_range_snd {V} (m : gmap string V) v : v ∈ (range m).*2 <-> exists k, m !! k = Some v.
Proof.
  rewrite list_elem_of_fmap. split.
  - intros ([k v'] & -> & Hk%elem_of_range). by exists k.
  - intros [k Hk%elem_of_range]. by exists (k, v).
Qed.

Lemma chain_elem {A} R s s' names (a a' : A) n e : chain R s s' names a a' -> n ∈ names -> find_entry s n = Some e ->
  exists e' a1 a2, find_entry s' n = Some e' /\ R (e_state e) a1 (e_state e') a2.
Proof.
  revert a; induction names as [|m names IH]; intros a; simpl; [by intros _ ?%elem_of_nil|].
  intros Hch [->|Hn]%elem_of_cons He.
  - rewrite He in Hch. destruct Hch as (e' & a1 & H1 & H2 & _). eauto.
  - destruct (find_entry s m); [|by eapply IH]. destruct Hch as (e' & a1 & _ & _ & H3). by eapply IH.
Qed.

(** An accumulator that each node adds its own part to. *)
Lemma chain_any {A} R s s' names (a a' : A) (in_acc : A -> bool) (part : NodeState -> bool) :
  (forall ns a ns' a', R ns a ns' a' -> in_acc a' = in_acc a || part ns) ->
  chain R s s' names a a' ->
  in_acc a' = in_acc a || any (fun n => match find_entry s n with Some e => part (e_state e) | None => false end) names.
Proof.
  intros HR. revert a; induction names as [|n names IH]; intros a; simpl; [intros ->; by rewrite orb_false_r|].
  destruct (find_entry s n) as [e|].
  - intros (e' & a1 & _ & H2 & H3). rewrite (IH _ H3), (HR _ _ _ _ H2). by rewrite orb_assoc.
  - intros H. by rewrite (IH _ H).
Qed.

Lemma over_nodes_ok {A} fmt f pk (R : NodeState -> A -> NodeState -> A -> Prop) (P : NodeState -> Prop) s a :
  readable_nodes s -> sp_Packages (sns_Spec s) = pk ->
  (forall n e, find_entry s n = Some e -> P (e_state e)) ->
  (forall node a, f_packages node = pk -> P (f_state node) ->
     exists node' a', f node a = Ok (node', a') /\ same_owner node node' /\ R (f_state node) a (f_state node') a') ->
  exists s' a', over_nodes fmt f s a = Ok (s', a') /\
    sp_Packages (sns_Spec s') = pk /\ node_names s' = node_names s /\ chain R s s' (node_names s) a a'.
Proof.
  intros [Hnd Hok] Hpk HP Hf.
  destruct (over_nodes_chain fmt f pk P R Hf (node_names s) s a Hnd Hpk) as (s' & a' & H1 & H2 & H3 & _ & H5).
  - intros n e _ He. split; [by eapply Hok|by eapply HP].
  - exists s', a'. split_and!; [exact H1|done|done|done].
Qed.

Lemma over_nodes_spec {A} fmt f pk (R : NodeState -> A -> NodeState -> A -> Prop) s a :
  readable_nodes s -> sp_Packages (sns_Spec s) = pk ->
  (forall node a, f_packages node = pk ->
     exists node' a', f node a = Ok (node', a') /\ same_owner node node' /\ R (f_state node) a (f_state node') a') ->
  exists s' a', over_nodes fmt f s a = Ok (s', a') /\
    sp_Packages (sns_Spec s') = pk /\ node_names s' = node_names s /\ chain R s s' (node_names s) a a'.
Proof. intros Hr Hpk Hf. apply (over_nodes_ok fmt f pk R (fun _ => True)); [done|done|done|]. intros node b Hn _. by apply Hf. Qed.

(* ------------------------------------------------------------------ *)
(** ** Lemmas: cancelled uninstalls *)

(** A cancelled uninstall: the entry is uninstalling, active, of a package of
    the specification for which nothing asks for an uninstall. *)
Definition cancelled (beingDeleted : bool) (pk : Packages) (st : PackageStatus) : option Package :=
  if bool_decide (ps_Stage st = StageUninstall) && IsActive (Some st) then
    match pk !! ps_Name st with
    | Some pkg => if needsUninstall beingDeleted pkg then None else Some pkg
    | None => None
    end
  else None.

Definition cancel_status (beingDeleted : bool) (pk : Packages) (st : PackageStatus) : PackageStatus :=
  match cancelled beingDeleted pk st with Some pkg => status_in pkg StateInProgress StageApply | None => st end.

(** The entries that uninstall are at the version of the specification. *)
Definition uninstalls_current (pk : Packages) (ns : NodeState) : Prop := forall k st pkg,
  ns !! k = Some st -> ps_Stage st = StageUninstall -> pk !! ps_Name st = Some pkg -> pkg_UniqueName pkg = k.

Lemma cancel_entry_state bd node key : uninstalls_current (f_packages node) (f_state node) ->
  let f' := cancel_entry bd node key in
  f_state f' = set_entry key (cancel_status bd (f_packages node) <$> f_state node !! key) (f_state node) /\ same_owner node f'.
Proof.
  intros Hcur. unfold cancel_entry. fold (f_state node). destruct (f_state node !! key) as [st|] eqn:E; cbn [fmap option_fmap option_map].
  2: { split; [|done]. rewrite <- E. by rewrite set_entry_id. }
  assert (Hid : f_state node = set_entry key (Some st) (f_state node)) by (by rewrite <- E, set_entry_id).
  unfold cancel_status, cancelled, needsUninstall. case_bool_decide as Hs; cbn [negb andb]; [|done].
  destruct (f_packages node !! ps_Name st) as [pkg|] eqn:Ep.
  2: { by destruct (IsActive (Some st)). }
  destruct (IsUninstalling (Some pkg)); [by destruct (IsActive (Some st))|]. cbn [orb].
  destruct (bd && UninstallEnabled (Some pkg)); [by destruct (IsActive (Some st))|].
  destruct (IsActive (Some st)); [|done].
  rewrite <- (Hcur _ _ _ E Hs Ep). apply upsert_and_status.
Qed.

Lemma cancel_status_stage bd pk st : ps_Stage (cancel_status bd pk st) = StageUninstall -> cancel_status bd pk st = st.
Proof. unfold cancel_status. by destruct (cancelled bd pk st). Qed.

Lemma cancel_entries_state bd keys : NoDup keys -> forall node, uninstalls_current (f_packages node) (f_state node) ->
  let f' := foldl (cancel_entry bd) node keys in
  (forall k, f_state f' !! k =
     if bool_decide (k ∈ keys) then cancel_status bd (f_packages node) <$> f_state node !! k else f_state node !! k) /\
  same_owner node f'.
Proof.
  induction keys as [|key keys IH]; intros Hnd node Hcur; cbn [foldl].
  { split; [|done]. intros k. rewrite bool_decide_eq_false_2; [done|]. apply not_elem_of_nil. }
  apply NoDup_cons in Hnd as [Hk Hnd]. destruct (cancel_entry_state bd node key Hcur) as [H1 H2].
  set (node1 := cancel_entry bd node key) in *. destruct H2 as [Hpk Hname].
  assert (Hcur1 : uninstalls_current (f_packages node1) (f_state node1)).
  { intros k st pkg. rewrite H1, set_entry_lookup, Hpk. case_bool_decide as Ek; [subst k|apply Hcur].
    destruct (f_state node !! key) as [st0|] eqn:E; [|done]. intros [= <-] Hst. rewrite cancel_status_stage in * by done.
    by apply Hcur. }
  destruct (IH Hnd node1 Hcur1) as [K1 K2]. split; [|etrans; [by split|done]].
  intros k. rewrite K1, H1, set_entry_lookup, Hpk. destruct (decide (k = key)) as [->|Hne].
  - rewrite (bool_decide_eq_false_2 (key ∈ keys)) by done. by rewrite !bool_decide_eq_true_2 by (done || by left).
  - rewrite (bool_decide_eq_false_2 (k = key)) by done.
    assert (bool_decide (k ∈ key :: keys) = bool_decide (k ∈ keys)) as ->; [|done].
    apply bool_decide_ext. rewrite elem_of_cons. tauto.
Qed.

Lemma cancel_node_state bd node : uninstalls_current (f_packages node) (f_state node) ->
  f_state (cancel_node bd node) = cancel_status bd (f_packages node) <$> f_state node /\ same_owner node (cancel_node bd node).
Proof.
  intros Hcur. unfold cancel_node. fold (f_state node).
  destruct (cancel_entries_state bd (range (f_state node)).*1 (NoDup_range _) node Hcur) as [H1 H2]. split; [|done].
  apply map_eq. intros k. rewrite H1, lookup_fmap. case_bool_decide as Hk; [done|].
  rewrite elem_of_range_fst in Hk. apply eq_None_not_Some in Hk. by rewrite Hk.
Qed.

(* ------------------------------------------------------------------ *)
(** ** Lemmas: version changes *)

(** An entry is under its package's unique name, and packages under their name. *)
Definition own_entries (pk : Packages) (ns : NodeState) : Prop := forall k p,
  pk !! k = Some p -> pkg_Name p = k /\
  forall st, ns !! pkg_UniqueName p = Some st -> ps_Name st = k /\ ps_Version st = pkg_Version p.

(** The version of the specification is comparable with the recorded one. *)
Definition comparable (pk : Packages) (ns : NodeState) : Prop := forall k st p,
  ns !! k = Some st -> pk !! ps_Name st = Some p -> pkg_Version p <> ps_Version st ->
  exists c, version_Compare (pkg_Version p) (ps_Version st) = Ok c /\ c <> -2.

(** The entry is of an older version of [p]. *)
Definition older (pk : Packages) (p : Package) (st : PackageStatus) : Prop :=
  pk !! ps_Name st = Some p /\ version_Compare (pkg_Version p) (ps_Version st) = Ok 1 /\ pkg_Version p <> ps_Version st.

Definition may_upgrade (ns : NodeState) (p : Package) : bool :=
  match ns !! pkg_UniqueName p with
  | Some st => negb (in_uninstall_cycle st) && negb (bool_decide (ps_Stage st = StageUpgrade))
  | None => true
  end.

Definition upgrade_entry (p : Package) : PackageStatus := status_in p StateInProgress StageUpgrade.

Lemma start_upgrade_state p st node :
  f_state (start_upgrade p st node) = <[pkg_UniqueName p := upgrade_entry p]> (f_state node) /\
  same_owner node (start_upgrade p st node).
Proof.
  unfold start_upgrade. destruct (node_Upsert_state p StateInProgress StageUpgrade node) as [H1 H2].
  set (node1 := node_Upsert _ _ _ _ _ _ node) in *.
  destruct (node_SetStatus_state StatusInProgress (RemoveConfigUpdates_of (ps_Name st) node1)) as [H3 H4].
  split; [by rewrite H3|]. etrans; [exact H2|]. etrans; [|exact H4]. done.
Qed.

Lemma version_entry_state node b key :
  comparable (f_packages node) (f_state node) ->
  exists node' b', version_entry (node, b) key = Ok (node', b') /\ same_owner node node' /\
    match f_state node !! key with
    | Some st =>
        (exists p, older (f_packages node) p st /\ may_upgrade (f_state node) p = true /\
           f_state node' = <[pkg_UniqueName p := upgrade_entry p]> (f_state node)) \/
        (f_state node' = f_state node /\ forall p, older (f_packages node) p st -> may_upgrade (f_state node) p = false)
    | None => f_state node' = f_state node
    end.
Proof.
  intros Hcmp. unfold version_entry, node_PackageStatus, ns_Get. fold (f_state node).
  destruct (f_state node !! key) as [st|] eqn:E; [|by exists node, b].
  destruct (f_packages node !! ps_Name st) as [p|] eqn:Ep.
  2: { eexists _, _. split_and!; [done|done|]. right. split; [done|]. intros p [H _]. congruence. }
  assert (Hone : forall q, older (f_packages node) q st -> q = p) by (intros q [H _]; congruence).
  destruct (IsUninstallCycleInProgress (f_state node) (pkg_UniqueName p)) eqn:Hcyc.
  { exists node, b. split_and!; [done|done|]. right. split; [done|]. intros q ->%Hone. unfold may_upgrade.
    unfold IsUninstallCycleInProgress in Hcyc. destruct (f_state node !! pkg_UniqueName p) as [st'|]; [|done].
    change (in_uninstall_cycle st' = true) in Hcyc. by rewrite Hcyc. }
  case_bool_decide as Hv.
  { exists node, b. split_and!; [done|done|]. right. split; [done|]. intros q Hq. pose proof (Hone _ Hq) as ->. by destruct Hq as (_ & _ & ?). }
  destruct (Hcmp _ _ _ E Ep Hv) as (c & Hc & Hc2). rewrite Hc. cbn [rbind].
  destruct (Z.eqb_spec c (-2)); [done|]. destruct (Z.eqb_spec c 1) as [->|Hc1].
  2: { exists node, true. split_and!; [done|done|]. right. split; [done|]. intros q Hq. pose proof (Hone _ Hq) as ->. destruct Hq as (_ & Hq & _). congruence. }
  assert (Ho : older (f_packages node) p st) by done.
  destruct (start_upgrade_state p st node) as [S1 S2].
  unfold IsUninstallCycleInProgress in Hcyc. unfold may_upgrade.
  destruct (f_state node !! pkg_UniqueName p) as [st'|] eqn:Eu.
  - assert (Hcyc' : in_uninstall_cycle st' = false) by exact Hcyc. clear Hcyc. case_bool_decide as Hup.
    + exists node, true. split_and!; [done|done|]. right. split; [done|]. intros q ->%Hone. rewrite Eu, Hcyc'. by rewrite (bool_decide_eq_true_2 _ Hup).
    + eexists _, true. split_and!; [done|done|]. left. exists p. split_and!; [done| |done]. rewrite Eu, Hcyc'. by rewrite (bool_decide_eq_false_2 _ Hup).
  - eexists _, true. split_and!; [done|done|]. left. exists p. split_and!; [done| |done]. by rewrite Eu.
Qed.

(** The state after the entries of [keys] were visited, from [ns]. *)
Definition upgraded_from (pk : Packages) (ns : NodeState) (keys : list string) (ns' : NodeState) : Prop :=
  forall u, 
    (exists k p st, k ∈ keys /\ ns !! k = Some st /\ older pk p st /\ may_upgrade ns p = true /\ pkg_UniqueName p = u /\
       ns' !! u = Some (upgrade_entry p)) \/
    (ns' !! u = ns !! u /\
     forall k p st, k ∈ keys -> ns !! k = Some st -> older pk p st -> may_upgrade ns p = true -> pkg_UniqueName p <> u).

Lemma own_entries_upgrade pk ns p : own_entries pk ns -> pk !! pkg_Name p = Some p -> distinct_refs pk ->
  own_entries pk (<[pkg_UniqueName p := upgrade_entry p]> ns).
Proof.
  intros Ho Hp Hd k q Hq. destruct (Ho k q Hq) as [Hn Hst]. split; [done|].
  intros st [[Hu <-]|[_ H]]%lookup_insert_Some; [|by apply Hst].
  pose proof (Hd _ _ _ _ Hp Hq Hu) as <-. rewrite Hp in Hq. injection Hq as <-. done.
Qed.

Lemma comparable_upgrade pk ns p : comparable pk ns -> pk !! pkg_Name p = Some p ->
  comparable pk (<[pkg_UniqueName p := upgrade_entry p]> ns).
Proof.
  intros Hc Hp k st q [[_ <-]|[_ H]]%lookup_insert_Some Hq Hne; [|by eapply Hc].
  exfalso. change (pk !! pkg_Name p = Some q) in Hq. rewrite Hp in Hq. injection Hq as <-. done.
Qed.

Lemma may_upgrade_other p q ns : may_upgrade (<[pkg_UniqueName p := upgrade_entry p]> ns) q = true ->
  pkg_UniqueName q <> pkg_UniqueName p.
Proof. intros H E. unfold may_upgrade in H. rewrite E, lookup_insert_eq in H. done. Qed.

Lemma may_upgrade_ne p q ns : pkg_UniqueName q <> pkg_UniqueName p ->
  may_upgrade (<[pkg_UniqueName p := upgrade_entry p]> ns) q = may_upgrade ns q.
Proof. intros H. unfold may_upgrade. by rewrite lookup_insert_ne by done. Qed.

Lemma upgraded_step pk ns key keys p st ns' : own_entries pk ns -> distinct_refs pk ->
  ns !! key = Some st -> older pk p st -> may_upgrade ns p = true ->
  upgraded_from pk (<[pkg_UniqueName p := upgrade_entry p]> ns) keys ns' -> upgraded_from pk ns (key :: keys) ns'.
Proof.
  intros Ho Hd Hkey Hold Hmay Hup u. pose proof Hold as (Hp & _).
  destruct (Ho _ _ Hp) as [Hname Hown]. rewrite <- Hname in Hp.
  destruct (Hup u) as [(k & q & st' & Hk & Hst & Hq & Hm & Hu & Hns)|[Hns Hnone]].
  - left. apply may_upgrade_other in Hm as Hne. rewrite may_upgrade_ne in Hm by done.
    apply lookup_insert_Some in Hst as [[_ <-]|[_ Hst]].
    + exfalso. destruct Hq as (Hq & _ & Hv). change (pk !! pkg_Name p = Some q) in Hq. rewrite Hp in Hq. injection Hq as <-. done.
    + exists k, q, st'. split_and!; [by right|done..].
  - destruct (decide (u = pkg_UniqueName p)) as [->|Hne].
    + left. rewrite lookup_insert_eq in Hns. exists key, p, st. split_and!; [by left|done..].
    + right. rewrite lookup_insert_ne in Hns by done. split; [done|].
      intros k q st' [->|Hk]%elem_of_cons Hst Hq Hm.
      * assert (q = p) as ->; [|done]. destruct Hq as [Hq _], Hold as [Hp' _]. congruence.
      * intros Hu. destruct (decide (k = pkg_UniqueName p)) as [->|Hkp].
        -- destruct (Hown _ Hst) as [Hn Hv]. destruct Hq as (Hq & _ & Hqv). rewrite Hn, <- Hname, Hp in Hq. injection Hq as <-. done.
        -- apply (Hnone k q st' Hk); [by rewrite lookup_insert_ne|done| |done]. rewrite may_upgrade_ne; [done|congruence].
Qed.

Lemma version_entries_state pk keys : distinct_refs pk -> forall node b,
  f_packages node = pk -> own_entries pk (f_state node) -> comparable pk (f_state node) ->
  exists node' b', rfold version_entry (node, b) keys = Ok (node', b') /\ same_owner node node' /\
    upgraded_from pk (f_state node) keys (f_state node').
Proof.
  intros Hd. induction keys as [|key keys IH]; intros node b Hpk Ho Hcmp.
  { exists node, b. split_and!; [done|done|]. intros u. right. split; [done|]. by intros k p st ?%elem_of_nil. }
  cbn [rfold]. rewrite <- Hpk in Hcmp. destruct (version_entry_state node b key Hcmp) as (node1 & b1 & -> & Hs1 & Hst).
  rewrite Hpk in Hcmp, Hst. cbn [rbind].
  assert (Hpk1 : f_packages node1 = pk) by (destruct Hs1; congruence).
  assert (Hsame : f_state node1 = f_state node ->
    (forall p st, f_state node !! key = Some st -> older pk p st -> may_upgrade (f_state node) p = false) ->
    exists node' b', rfold version_entry (node1, b1) keys = Ok (node', b') /\ same_owner node node' /\
      upgraded_from pk (f_state node) (key :: keys) (f_state node')).
  { intros E Hno. destruct (IH node1 b1 Hpk1) as (node' & b' & H1 & H2 & H3); rewrite ?E in *; [done|done|].
    exists node', b'. split_and!; [done|by etrans|]. intros u.
    destruct (H3 u) as [(k & p & st & Hk & H)|[H Hn]]; [left; exists k, p, st; split; [by right|done]|right].
    split; [done|]. intros k p st [->|Hk]%elem_of_cons Hk1 Hk2 Hk3; [|by eapply Hn]. by rewrite (Hno p st) in Hk3. }
  destruct (f_state node !! key) as [st|] eqn:E.
  - destruct Hst as [(p & Hp & Hm & Hns)|[Hns Hno]].
    + pose proof Hp as (Hlook & _). destruct (Ho _ _ Hlook) as [Hname _]. rewrite <- Hname in Hlook.
      destruct (IH node1 b1 Hpk1) as (node' & b' & H1 & H2 & H3);
        [rewrite Hns; by apply own_entries_upgrade|rewrite Hns; by apply comparable_upgrade|].
      exists node', b'. split_and!; [done|by etrans|]. rewrite Hns in H3. by eapply upgraded_step.
    + apply Hsame; [done|]. intros p st' [= <-]. apply Hno.
  - apply Hsame; [done|]. intros p st' [=].
Qed.

(** Whatever the state, a cancellation keeps the resource and the name. *)
Lemma cancel_node_owner bd node : same_owner node (cancel_node bd node).
Proof.
  unfold cancel_node. generalize (range (cached (full_Only node))).*1 as keys. intros keys. revert node.
  induction keys as [|key keys IH]; intros node; cbn [foldl]; [done|]. etrans; [|apply IH].
  unfold cancel_entry. repeat (case_match; [|done] || case_match); try done; apply upsert_and_status.
Qed.

Lemma reset_nodes s : sns_nodes (resetSkyhookBatchState s) = sns_nodes s.
Proof. unfold resetSkyhookBatchState. case_if; [done|]. by destruct (ResetCompartmentBatchStates _). Qed.

(* ------------------------------------------------------------------ *)
(** ** Properties *)

(** One round of uninstall requests, on every node of a resource with
    readable states: the entry of each package of the specification becomes
    what [requested] says (a completed install starts uninstalling when the
    package is to go, a completed uninstall interrupt removes the entry, and an
    install in flight is never interrupted), no other entry changes, and the
    packages to run are exactly those that are uninstalling on some node. *)
Theorem HandleUninstallRequests_spec s :
  readable_nodes s -> distinct_refs (sp_Packages (sns_Spec s)) ->
  let bd := beingDeleted s in
  let pk := sp_Packages (sns_Spec s) in
  exists s' l, HandleUninstallRequests s = Ok (s', l) /\ node_names s' = node_names s /\
    (forall n e, n ∈ node_names s -> find_entry s n = Some e -> exists e', find_entry s' n = Some e' /\
       (forall k p, pk !! k = Some p -> e_state e' !! pkg_UniqueName p = (requested_at bd p (e_state e)).1) /\
       (forall u, (forall k p, pk !! k = Some p -> pkg_UniqueName p <> u) -> e_state e' !! u = e_state e !! u)) /\
    (forall q, listed l q = true <->
       exists n e k p, n ∈ node_names s /\ find_entry s n = Some e /\ pk !! k = Some p /\ same_ref p q = true /\
         (requested_at bd p (e_state e)).2 = true).
Proof.
  intros Hr Hd bd pk.
  set (part := fun q ns => any (fun p => (requested_at bd p ns).2 && same_ref p q) (range pk).*2).
  set (R := fun (ns : NodeState) (l : list Package) (ns' : NodeState) (l' : list Package) =>
    (forall k p, pk !! k = Some p -> ns' !! pkg_UniqueName p = (requested_at bd p ns).1) /\
    (forall u, (forall k p, pk !! k = Some p -> pkg_UniqueName p <> u) -> ns' !! u = ns !! u) /\
    (forall q, listed l' q = listed l q || part q ns)).
  destruct (over_nodes_spec "node %s: reading state in HandleUninstallRequests: %w"
    (fun node l => Ok (request_node bd l node)) pk R s [] Hr eq_refl) as (s' & l & H1 & H2 & H3 & H4).
  { intros node l Hnode. unfold request_node. rewrite Hnode.
    destruct (request_packages_state bd (range pk).*2 (distinct_refs_NoDup pk Hd) node l) as (K1 & K2 & K3 & K4).
    destruct (foldl (request_package bd) (node, l) (range pk).*2) as [node' l']. exists node', l'. split_and!; [done|done|].
    split_and!; [|intros u Hu; apply K2|exact K4].
    - intros k p Hp. apply K1, elem_of_range_snd. by exists k.
    - intros (p & -> & [k Hk]%elem_of_range_snd)%list_elem_of_fmap. by apply (Hu k p). }
  exists s', l. split_and!; [exact H1|done| |].
  - intros n e Hn He. destruct (chain_elem R _ _ _ _ _ _ _ H4 Hn He) as (e' & a1 & a2 & He' & R1 & R2 & _). by exists e'.
  - intros q. rewrite (chain_any R s s' (node_names s) [] l (fun l => listed l q) (part q)) by (done || apply H4 || intros ? ? ? ? HR; apply HR).
    simpl. rewrite any_true. split.
    + intros (n & Hn & Hpart). destruct (find_entry s n) as [e|] eqn:He; [|done]. apply any_true in Hpart as (p & [k Hk]%elem_of_range_snd & Hpq).
      apply andb_true_iff in Hpq as [Hp1 Hp2]. by exists n, e, k, p.
    + intros (n & e & k & p & Hn & He & Hk & Hsame & Hreq). exists n. split; [done|]. rewrite He. apply any_true. exists p.
      split; [apply elem_of_range_snd; by exists k|]. by rewrite Hsame, Hreq.
Qed.

(** Cancelling: on every node exactly the entries whose uninstall is
    cancelled (uninstalling, not finished, of a package of the specification
    for which neither the specification nor a deletion asks for an uninstall)
    go back to the start of the install; an uninstall that is asked for, an
    uninstall interrupt and every other entry stay as they are. *)
Theorem HandleCancelledUninstalls_spec s :
  readable_nodes s ->
  let pk := sp_Packages (sns_Spec s) in
  (forall n e, find_entry s n = Some e -> uninstalls_current pk (e_state e)) ->
  exists s', HandleCancelledUninstalls s = Ok s' /\ node_names s' = node_names s /\
    forall n e, n ∈ node_names s -> find_entry s n = Some e -> exists e', find_entry s' n = Some e' /\
      forall key, e_state e' !! key = cancel_status (beingDeleted s) pk <$> e_state e !! key.
Proof.
  intros Hr pk Hcur.
  set (R := fun (ns : NodeState) (_ : unit) (ns' : NodeState) (_ : unit) =>
    uninstalls_current pk ns -> ns' = cancel_status (beingDeleted s) pk <$> ns).
  destruct (over_nodes_spec "node %s: reading state in HandleCancelledUninstalls: %w"
    (fun node (_ : unit) => Ok (cancel_node (beingDeleted s) node, tt)) pk R s tt Hr eq_refl) as (s' & l & H1 & H2 & H3 & H4).
  { intros node [] Hnode. exists (cancel_node (beingDeleted s) node), tt. split_and!; [done|apply cancel_node_owner|].
    intros Hc. rewrite <- Hnode in Hc |- *. by apply cancel_node_state. }
  exists s'. unfold HandleCancelledUninstalls. rewrite H1. split_and!; [done|done|].
  intros n e Hn He. destruct (chain_elem R _ _ _ _ _ _ _ H4 Hn He) as (e' & a1 & a2 & He' & HR). exists e'. split; [done|].
  intros key. rewrite (HR (Hcur _ _ He)). apply lookup_fmap.
Qed.

(** A version change starts the upgrade of exactly the packages that are
    newer than an entry of the same name on the node and are neither being
    uninstalled nor already upgrading there; older versions keep their entry,
    a downgrade and a package that left the specification change nothing. *)
Theorem HandleVersionChange_spec s :
  readable_nodes s -> distinct_refs (sp_Packages (sns_Spec s)) ->
  let pk := sp_Packages (sns_Spec s) in
  (forall n e, find_entry s n = Some e -> own_entries pk (e_state e) /\ comparable pk (e_state e)) ->
  exists s', HandleVersionChange s = Ok (s', []) /\ node_names s' = node_names s /\
    forall n e, n ∈ node_names s -> find_entry s n = Some e -> exists e', find_entry s' n = Some e' /\
      (forall k p st, e_state e !! k = Some st -> older pk p st -> may_upgrade (e_state e) p = true ->
         e_state e' !! pkg_UniqueName p = Some (upgrade_entry p)) /\
      (forall u, (forall k p st, e_state e !! k = Some st -> older pk p st -> may_upgrade (e_state e) p = true ->
                    pkg_UniqueName p <> u) -> e_state e' !! u = e_state e !! u).
Proof.
  intros Hr Hd pk Hall.
  set (R := fun (ns : NodeState) (_ : bool) (ns' : NodeState) (_ : bool) =>
    own_entries pk ns -> comparable pk ns -> upgraded_from pk ns (range ns).*1 ns').
  destruct (over_nodes_ok "node %s: reading state in HandleVersionChange: %w" version_node pk R
    (fun ns => own_entries pk ns /\ comparable pk ns) s false Hr eq_refl Hall) as (s' & l & H1 & H2 & H3 & H4).
  { intros node b Hnode [Ho Hc]. unfold version_node. fold (f_state node).
    destruct (version_entries_state pk (range (f_state node)).*1 Hd node b Hnode Ho Hc) as (node' & b' & K1 & K2 & K3).
    exists node', b'. split_and!; [done|done|]. by intros _ _. }
  unfold HandleVersionChange. rewrite H1. cbn [rbind].
  exists (if l then resetSkyhookBatchState s' else s'). split; [done|].
  assert (Hf : sns_nodes (if l then resetSkyhookBatchState s' else s') = sns_nodes s').
  { destruct l; [|done]. apply reset_nodes. }
  split; [unfold node_names; rewrite Hf; exact H3|].
  intros n e Hn He. destruct (chain_elem R _ _ _ _ _ _ _ H4 Hn He) as (e' & a1 & a2 & He' & HR).
  exists e'. split; [unfold find_entry; rewrite Hf; exact He'|].
  destruct (Hall _ _ He) as [Ho Hc]. specialize (HR Ho Hc). split.
  - intros k p st Hk Hold Hm. destruct (HR (pkg_UniqueName p)) as [(k' & q & st' & _ & _ & Hq & _ & Hu & Hns)|[_ Hno]].
    + rewrite Hns. do 2 f_equal. destruct Hq as [Hq _], Hold as [Hp _].
      pose proof (Hd _ _ _ _ Hq Hp Hu) as Hkey. rewrite Hkey in Hq. congruence.
    + exfalso. apply (Hno k p st); [apply elem_of_range_fst; by exists st|done..].
  - intros u Hu. destruct (HR u) as [(k' & q & st' & _ & Hk & Hq & Hm & Hqu & _)|[Hns _]]; [|done].
    by destruct (Hu k' q st' Hk Hq Hm).
Qed.

(** What a node runs never undoes an uninstall: each package that the pass
    runs on a node is either one to uninstall that the node still has, or one
    that is next in the dependency order, is not being uninstalled there, and is
    not already gone because somebody asked for that; and none of these is left
    out. *)
Theorem packages_to_run_spec bd toUninstall node l :
  packages_to_run bd toUninstall node = Ok l ->
  exists next st, RunNext node = Ok next /\ node_State (full_Only node) = Ok st /\
    let ns := default ∅ st in
    forall p, p ∈ l <->
      (p ∈ toUninstall /\ is_Some (ns !! pkg_UniqueName p)) \/
      (p ∈ next /\
       match ns !! pkg_UniqueName p with
       | Some s => in_uninstall_cycle s = false
       | None => needsUninstall bd p = false
       end).
Proof.
  unfold packages_to_run. destruct (RunNext node) as [next| |]; try done. cbn [rwrap rbind].
  destruct (node_State (full_Only node)) as [st| |]; try done. cbn [rwrap rbind]. intros [= <-].
  exists next, st. split_and!; [done|done|]. intros p. set (ns := default ∅ st). unfold filterUninstallForNode.
  rewrite elem_of_app, !elem_of_filterb. unfold shouldSkipApplyForUninstall, IsUninstallCycleInProgress, IsUninstalled.
  destruct (ns !! pkg_UniqueName p) as [s|] eqn:E; cbn [negb].
  - change (bool_decide (ps_Stage s = StageUninstall) || bool_decide (ps_Stage s = StageUninstallInterrupt)) with (in_uninstall_cycle s).
    assert (is_Some (Some s)) by eauto. destruct (in_uninstall_cycle s); rewrite ?andb_false_r; cbn [negb]; intuition congruence.
  - rewrite andb_true_r, negb_true_iff. assert (~ is_Some (@None PackageStatus)) by (intros []; done). intuition congruence.
Qed.
End Uninstall.

(* ------------------------------------------------------------------ *)
(** ** Witnesses *)

#[local] Existing Instance example_json.
#[local] Existing Instance example_time.

(** Versions compared as texts. *)
#[local] Instance text_semver : Semver := {
  semver_IsValid := fun _ => true;
  semver_Compare := fun a b => if bool_decide (a = b) then 0 else if str_leb a b then -1 else 1;
  semver_MajorMinor := fun v => v
}.

Definition with_uninstall (u : Uninstall) (p : Package) : Package :=
  {| pkg_Ref := pkg_Ref p; pkg_Image := pkg_Image p; pkg_ContainerSHA := pkg_ContainerSHA p;
     pkg_AgentImageOverride := pkg_AgentImageOverride p; pkg_Interrupt := pkg_Interrupt p; pkg_DependsOn := pkg_DependsOn p;
     pkg_ConfigInterrupts := pkg_ConfigInterrupts p; pkg_ConfigMap := pkg_ConfigMap p; pkg_Env := pkg_Env p;
     pkg_Resources := pkg_Resources p; pkg_GracefulShutdown := pkg_GracefulShutdown p;
     pkg_StageTimeout := pkg_StageTimeout p; pkg_Uninstall := Some u |}.

Definition one_node (p : Package) (ns : NodeState) : skyhookNodes :=
  plain_state "tuning" {[pkg_Name p := p]} [plain_entry "n1" "tuning" (Some ns)].

Definition leaving : Package := with_uninstall {| un_Enabled := true; un_Apply := true |} base_package.
Definition staying : Package := with_uninstall {| un_Enabled := true; un_Apply := false |} base_package.

Definition state_with (p : Package) (st : State) (stage : Stage) : NodeState := {[pkg_UniqueName p := status_in p st stage]}.

Lemma one_node_readable p ns : readable_nodes (one_node p ns).
Proof.
  split; [apply (bool_decide_unpack _); reflexivity|]. intros n e. unfold find_entry. simpl.
  case_bool_decide; [|done]. by intros [= <-].
Qed.

Lemma one_node_entry p ns n e : find_entry (one_node p ns) n = Some e -> e = plain_entry "n1" "tuning" (Some ns).
Proof. unfold find_entry. simpl. case_bool_decide; [|done]. by intros [= <-]. Qed.

Lemma one_package p k q : sp_Packages (sns_Spec (one_node p ∅)) !! k = Some q -> k = pkg_Name p /\ q = p.
Proof. simpl. by intros [<- <-]%lookup_singleton_Some. Qed.

Lemma one_distinct p ns : distinct_refs (sp_Packages (sns_Spec (one_node p ns))).
Proof. by intros k k' q q' [-> _]%one_package [-> _]%one_package. Qed.

Lemma HandleUninstallRequests_spec_witness : exists s' l,
  HandleUninstallRequests (one_node leaving (state_with leaving StateComplete StageConfig)) = Ok (s', l) /\
  listed l leaving = true.
Proof.
  destruct (HandleUninstallRequests_spec (one_node leaving (state_with leaving StateComplete StageConfig))
              (one_node_readable _ _) (one_distinct _ _)) as (s' & l & H & _ & _ & Hl).
  exists s', l. split; [exact H|]. apply Hl.
  exists "n1", (plain_entry "n1" "tuning" (Some (state_with leaving StateComplete StageConfig))), "base", leaving.
  repeat split; try reflexivity; vm_compute; try reflexivity. apply list_elem_of_singleton. reflexivity.
Defined.

Lemma HandleCancelledUninstalls_spec_witness : exists s' e',
  HandleCancelledUninstalls (one_node staying (state_with staying StateInProgress StageUninstall)) = Ok s' /\
  find_entry s' "n1" = Some e' /\ e_state e' !! "base|2.0.0" = Some (status_in staying StateInProgress StageApply).
Proof.
  destruct (HandleCancelledUninstalls_spec (one_node staying (state_with staying StateInProgress StageUninstall))
              (one_node_readable _ _)) as (s' & H & _ & Hs).
  - intros n e He k st pkg Hk Hst [_ ->]%one_package. apply one_node_entry in He. subst e.
    change (state_with staying StateInProgress StageUninstall !! k = Some st) in Hk.
    unfold state_with in Hk. apply lookup_singleton_Some in Hk as [<- _]. reflexivity.
  - destruct (Hs "n1" (plain_entry "n1" "tuning" (Some (state_with staying StateInProgress StageUninstall)))) as (e' & He' & Hk).
    + apply list_elem_of_singleton. reflexivity.
    + reflexivity.
    + exists s', e'. split; [exact H|]. split; [exact He'|]. rewrite Hk. vm_compute. reflexivity.
Defined.

(** The node still has an older version. *)
Definition older_base : PackageStatus :=
  {| ps_Name := "base"; ps_Version := "1.0.0"; ps_Image := "img"; ps_ContainerSHA := ""; ps_Stage := StageConfig;
     ps_State := StateComplete; ps_Restarts := 0 |}.

Lemma HandleVersionChange_spec_witness : exists s' e',
  HandleVersionChange (one_node base_package {["base|1.0.0" := older_base]}) = Ok (s', []) /\
  find_entry s' "n1" = Some e' /\ e_state e' !! "base|2.0.0" = Some (upgrade_entry base_package).
Proof.
  destruct (HandleVersionChange_spec (one_node base_package {["base|1.0.0" := older_base]})
              (one_node_readable _ _) (one_distinct _ _)) as (s' & H & _ & Hs).
  - intros n e He. apply one_node_entry in He. subst e. split.
    + intros k p [-> ->]%one_package. split; [reflexivity|]. intros st Hst.
      change (({["base|1.0.0" := older_base]} : NodeState) !! pkg_UniqueName base_package = Some st) in Hst. apply lookup_singleton_Some in Hst as [Hst _]. discriminate Hst.
    + intros k st p Hst [_ ->]%one_package _.
      change (({["base|1.0.0" := older_base]} : NodeState) !! k = Some st) in Hst. apply lookup_singleton_Some in Hst as [_ <-].
      exists 1. split; [vm_compute; reflexivity|discriminate].
  - destruct (Hs "n1" (plain_entry "n1" "tuning" (Some {["base|1.0.0" := older_base]}))) as (e' & He' & Hup & _).
    + apply list_elem_of_singleton. reflexivity.
    + reflexivity.
    + exists s', e'. split; [exact H|]. split; [exact He'|]. apply (Hup "base|1.0.0" base_package older_base).
      * reflexivity.
      * split; [reflexivity|]. split; [vm_compute; reflexivity|discriminate].
      * reflexivity.
Defined.

(** Nothing is next; the package is being uninstalled. *)
Definition leaving_node : SkyhookNode :=
  as_node (one_node leaving ∅) (plain_entry "n1" "tuning" (Some (state_with leaving StateInProgress StageUninstall))).

Lemma packages_to_run_spec_witness :
  packages_to_run false [leaving] leaving_node = Ok [leaving] /\ leaving ∈ [leaving].
Proof.
  assert (H : packages_to_run false [leaving] leaving_node = Ok [leaving]) by (vm_compute; reflexivity).
  split; [exact H|]. destruct (packages_to_run_spec false [leaving] leaving_node [leaving] H) as (next & st & _ & Hst & Hp).
  apply Hp. left. split; [apply list_elem_of_singleton; reflexivity|].
  assert (Hs : node_State (full_Only leaving_node) = Ok (Some (state_with leaving StateInProgress StageUninstall))) by reflexivity.
  rewrite Hs in Hst. injection Hst as <-. vm_compute. eexists. reflexivity.
Defined.
