(* ===== verification/Frame.v ===== *)
(** * What a pass leaves alone

    The methods of the wrappers change the status of a resource and the metadata
    and state of its nodes.  Everything else of the resource ([only_status]), the
    name of a node ([steady_node]) and the list of a resource's nodes ([steady])
    stay.  The lemmas of this file are hints of the database [frame]. *)

From S2P Require Import Prelude Effects Sha256 Graph Float64 DeploymentPolicy Api NodeState Skyhook Conditions Text Node Migration Compartment ClusterState Partition Introspect Drain Options Report Merge Jobs JobBuilder Server Executor Uninstall.

#[local] Open Scope Z_scope.

Definition only_status (a b : Skyhook) : Prop := exists st, sk_nw b = set_nw_Status st (sk_nw a).

#[export] Instance only_status_preorder : PreOrder only_status.
Proof.
  split.
  - intros a. exists (nw_Status (sk_nw a)). by destruct (sk_nw a).
  - intros a b c [st H] [st' H']. exists st'. by rewrite H', H.
Qed.

Definition steady_node (f f' : SkyhookNode) : Prop :=
  only_status (full_skyhook f) (full_skyhook f') /\ f_name f' = f_name f.

#[export] Instance steady_node_preorder : PreOrder steady_node.
Proof.
  split; [intros f; by split|]. intros f g h [H1 H2] [H3 H4]. split; [by etrans|congruence].
Qed.

Definition steady (s s' : skyhookNodes) : Prop :=
  only_status (sns_skyhook s) (sns_skyhook s') /\ node_names s' = node_names s.

#[export] Instance steady_preorder : PreOrder steady.
Proof.
  split; [intros f; by split|]. intros f g h [H1 H2] [H3 H4]. split; [by etrans|congruence].
Qed.

Create HintDb frame.

(* ------------------------------------------------------------------ *)
(** ** Resources *)

Lemma same_nw_only a b : sk_nw b = sk_nw a -> only_status a b.
Proof. intros H. exists (nw_Status (sk_nw a)). rewrite H. by destruct (sk_nw a). Qed.

Lemma map_status_only f a : only_status a (map_status f a).
Proof. by eexists. Qed.

Lemma touch_only a b : only_status a b -> only_status a (touch b).
Proof. by intros [st H]; exists st. Qed.

Lemma touch_map_only f a : only_status a (touch (map_status f a)).
Proof. apply touch_only, map_status_only. Qed.

#[export] Hint Resolve map_status_only touch_only touch_map_only : frame.

Lemma SetStatus_only st a : only_status a (sk_SetStatus st a).
Proof.
  unfold sk_SetStatus. set (b := if negb _ then _ else _).
  assert (Hb : only_status a b) by (unfold b; destruct (negb _); [apply touch_map_only|reflexivity]).
  destruct st; try done.
  - etrans; [exact Hb|apply touch_map_only].
  - destruct (st_NodeState _); [etrans; [exact Hb|apply touch_map_only]|exact Hb].
Qed.

Lemma SetNodeStatus_only name st a : only_status a (SetNodeStatus name st a).
Proof. unfold SetNodeStatus. destruct (_ !! name); [destruct (negb _)|]; auto with frame; reflexivity. Qed.

Lemma SetNodeState_only name ns a : only_status a (SetNodeState name ns a).
Proof. unfold SetNodeState. destruct (_ !! name); [destruct (negb _)|]; auto with frame. Qed.

Lemma RemoveConfigUpdates_only name a : only_status a (RemoveConfigUpdates name a).
Proof. apply touch_map_only. Qed.

Lemma AddConfigUpdates_only name keys a : only_status a (AddConfigUpdates name keys a).
Proof.
  unfold AddConfigUpdates. revert a; induction keys as [|k keys IH]; intros a; simpl; [reflexivity|].
  etrans; [|apply IH]. unfold add_config_update. destruct (any _ _); [reflexivity|apply touch_map_only].
Qed.

Lemma RemoveNodePriority_only name a : only_status a (RemoveNodePriority name a).
Proof. unfold RemoveNodePriority. destruct (_ !! name); [apply touch_map_only|reflexivity]. Qed.

Lemma addSkyhookCondition_only a c : only_status a (addSkyhookCondition a c).1.
Proof.
  unfold addSkyhookCondition. destruct (addOrUpdateSkyhookCondition _ _) as [l []]; [apply touch_map_only|reflexivity].
Qed.

Lemma AddSkyhookConditionWithLegacy_only now a c : only_status a (AddSkyhookConditionWithLegacy now a c).1.
Proof.
  unfold AddSkyhookConditionWithLegacy, AddSkyhookCondition.
  set (c1 := conditionWithStableTransitionTime _ _ c). pose proof (addSkyhookCondition_only a c1) as H.
  destruct (addSkyhookCondition a c1) as [b ch]. simpl in H. case_bool_decide; [exact H|].
  set (c2 := conditionWithStableTransitionTime _ _ _). pose proof (addSkyhookCondition_only b c2) as H'.
  destruct (addSkyhookCondition b c2) as [d ch']. by etrans.
Qed.

Lemma RemoveSkyhookConditionTypes_only a types : only_status a (RemoveSkyhookConditionTypes a types).1.
Proof. unfold RemoveSkyhookConditionTypes. destruct (any _ _); [apply touch_map_only|reflexivity]. Qed.

#[export] Hint Resolve SetStatus_only SetNodeStatus_only SetNodeState_only RemoveConfigUpdates_only AddConfigUpdates_only
  RemoveNodePriority_only addSkyhookCondition_only AddSkyhookConditionWithLegacy_only RemoveSkyhookConditionTypes_only : frame.

(* ------------------------------------------------------------------ *)
(** ** Nodes *)

Section Nodes.
Context `{MR : MapRange} `{JS : NodeStateJSON} `{TT : TimeText} `{SV : Semver}.

Lemma set_Only_steady n f : n_Name (sn_Node n) = f_name f -> steady_node f (set_full_Only n f).
Proof. intros H. split; [reflexivity|exact H]. Qed.

Lemma set_skyhook_steady sk f : only_status (full_skyhook f) sk -> steady_node f (set_full_skyhook sk f).
Proof. by split. Qed.

Lemma node_SetStatus_steady st f : steady_node f (node_SetStatus st f).
Proof.
  split; [|exact (proj2 (proj2 (SetStatus_only_keeps st (full_Only f))))].
  unfold node_SetStatus. cbn [full_skyhook]. etrans; [apply SetNodeStatus_only|apply SetNodeState_only].
Qed.

Lemma node_Upsert_steady p image state stage restarts sha f : steady_node f (node_Upsert p image state stage restarts sha f).
Proof.
  unfold node_Upsert, Upsert_only. destruct (Upsert _ _ _ _ _ _ _) as [ns ch]. destruct ch.
  - etrans; [apply set_skyhook_steady, touch_only; reflexivity|]. apply set_Only_steady. by rewrite SetState_name.
  - by apply set_Only_steady.
Qed.

Lemma node_RemoveState_steady p f : steady_node f (set_full_Only (node_RemoveState p (full_Only f)) f).
Proof.
  apply set_Only_steady. unfold node_RemoveState. destruct (RemoveState _ _) as [ns []]; [|done]. by rewrite SetState_name.
Qed.

Lemma UpdateCondition_steady now f : steady_node f (UpdateCondition now f).
Proof. unfold UpdateCondition. apply set_Only_steady. by case_match. Qed.

Lemma ProgressSkipped_steady f : steady_node f (node_ProgressSkipped f).
Proof.
  unfold node_ProgressSkipped. destruct (ProgressSkipped _ _) as [ns []]; [|reflexivity].
  split; [apply touch_only; reflexivity|]. unfold f_name. cbn [full_Only]. by rewrite SetState_name.
Qed.

Lemma Reset_steady f : steady_node f (Reset f).
Proof.
  split; [unfold Reset; cbn [full_skyhook]; auto with frame|]. unfold Reset, f_name. cbn [full_Only]. simpl.
  unfold drop_label, drop_annotation. simpl. by repeat case_match.
Qed.

#[local] Hint Resolve node_SetStatus_steady node_Upsert_steady : frame.

Lemma IntrospectNode_steady s rs f : steady_node f (IntrospectNode s rs f).
Proof.
  unfold IntrospectNode. set (g := node_SetStatus _ f). assert (Hg : steady_node f g) by apply node_SetStatus_steady.
  assert (Hs : forall st h, steady_node f h -> steady_node f (node_SetStatus st h))
    by (intros; etrans; [eassumption|apply node_SetStatus_steady]).
  repeat match goal with |- context [if ?b then _ else _] => destruct b end; auto.
Qed.

End Nodes.

#[export] Hint Resolve set_Only_steady set_skyhook_steady node_SetStatus_steady node_Upsert_steady node_RemoveState_steady
  UpdateCondition_steady ProgressSkipped_steady Reset_steady IntrospectNode_steady : frame.

(* ------------------------------------------------------------------ *)
(** ** Resources with their nodes *)

Section Resources.
Context `{MR : MapRange} `{JS : NodeStateJSON} `{TT : TimeText} `{SV : Semver}.

Lemma find_entry_elem s name e : find_entry s name = Some e -> e ∈ sns_nodes s.
Proof. intros [H _]%find_some. by apply list_elem_of_In. Qed.

Lemma on_skyhook_steady g s : only_status (sns_skyhook s) (g (sns_skyhook s)) -> steady s (on_skyhook g s).
Proof. by split. Qed.

Lemma put_node_steady f s : only_status (sns_skyhook s) (full_skyhook f) -> steady s (put_node f s).
Proof.
  intros H. split; [exact H|]. unfold node_names, put_node. simpl. rewrite map_map. apply map_ext. intros e.
  by case_bool_decide.
Qed.

(** The wrapper of a node sees the resource. *)
Lemma as_node_steady s e f : steady_node (as_node s e) f -> steady s (put_node f s).
Proof. intros [H _]. by apply put_node_steady. Qed.

Lemma with_node_steady name g s : (forall f, steady_node f (g f)) -> steady s (with_node name g s).
Proof. intros H. unfold with_node. destruct (find_entry s name) as [e|]; [|reflexivity]. by eapply as_node_steady. Qed.

Lemma foldl_steady {A} (f : skyhookNodes -> A -> skyhookNodes) l s : (forall s a, steady s (f s a)) -> steady s (foldl f s l).
Proof. intros H. revert s; induction l as [|a l IH]; intros s; simpl; [reflexivity|]. etrans; [apply H|apply IH]. Qed.

Lemma foldl_steady_fst {A B} (f : skyhookNodes * B -> A -> skyhookNodes * B) l acc :
  (forall acc a, steady acc.1 (f acc a).1) -> steady acc.1 (foldl f acc l).1.
Proof. intros H. revert acc; induction l as [|a l IH]; intros acc; simpl; [reflexivity|]. etrans; [apply H|apply IH]. Qed.

Lemma rfold_steady {A B} (f : skyhookNodes * B -> A -> res (skyhookNodes * B)) l acc acc' :
  (forall acc a acc', f acc a = Ok acc' -> steady acc.1 acc'.1) -> rfold f acc l = Ok acc' -> steady acc.1 acc'.1.
Proof.
  intros H. revert acc; induction l as [|a l IH]; intros acc; simpl; [intros [= ->]; reflexivity|].
  intros (acc1 & H1 & H2)%rbind_ok. etrans; [by eapply H|by apply IH].
Qed.

#[local] Hint Resolve on_skyhook_steady : frame.

Lemma resetSkyhookBatchState_steady s : steady s (resetSkyhookBatchState s).
Proof.
  unfold resetSkyhookBatchState. destruct (negb _); [reflexivity|].
  destruct (ResetCompartmentBatchStates _) as [nw r] eqn:E. split; [|done]. unfold ResetCompartmentBatchStates in E.
  revert E. case_bool_decide; intros [= <- _]; [by apply same_nw_only|]. by eexists.
Qed.

Lemma sns_SetStatus_steady st s : steady s (sns_SetStatus st s).
Proof.
  unfold sns_SetStatus. set (s1 := on_skyhook _ _).
  assert (H : steady s s1) by (split; [apply SetStatus_only|done]).
  destruct (_ && _); [etrans; [exact H|apply resetSkyhookBatchState_steady]|exact H].
Qed.

Lemma introspect_nodes_steady rs s : steady s (introspect_nodes rs s).1.
Proof.
  unfold introspect_nodes. apply (foldl_steady_fst _ _ (s, false)). intros [s' b] name. cbn [fst].
  apply with_node_steady. intros f. apply IntrospectNode_steady.
Qed.

Lemma pruneCompletedNodePriorities_steady s : steady s (pruneCompletedNodePriorities s).1.
Proof.
  unfold pruneCompletedNodePriorities. apply (foldl_steady_fst _ _ (s, false)). intros acc [n t]. unfold prune_priority.
  case_bool_decide; [|reflexivity]. apply on_skyhook_steady, RemoveNodePriority_only.
Qed.

Lemma evaluateCompletedBatches_steady s : steady s (evaluateCompletedBatches s).1.
Proof.
  unfold evaluateCompletedBatches. case_bool_decide; [reflexivity|]. case_bool_decide; [reflexivity|].
  apply (foldl_steady_fst _ _ (s, false)). intros [s' b] [k c]. unfold evaluate_compartment. simpl.
  destruct (EvaluateCurrentBatch c) as [c' [[complete n] m]]. destruct complete; simpl; [|by split].
  destruct (evaluated_size _ _ _ _); simpl; [|by split]. split; [|done]. apply touch_map_only.
Qed.

Lemma sns_UpdateCondition_steady now s : steady s (sns_UpdateCondition now s).1.
Proof.
  unfold sns_UpdateCondition. set (c := condition now s _ _ _ _).
  pose proof (AddSkyhookConditionWithLegacy_only now (sns_skyhook s) c) as H.
  destruct (AddSkyhookConditionWithLegacy now (sns_skyhook s) c) as [sk ch]. simpl in H.
  unfold AddSkyhookConditionRefreshingTransitionOnReasonOrMessage.
  repeat match goal with |- context [addSkyhookCondition ?a ?b] =>
    let H1 := fresh in pose proof (addSkyhookCondition_only a b) as H1; destruct (addSkyhookCondition a b) end.
  simpl in *. split; [|done]. by etrans.
Qed.

Lemma IntrospectSkyhook_steady now s rs : steady s (IntrospectSkyhook now s rs).1.
Proof.
  unfold IntrospectSkyhook. set (s0 := if negb _ then _ else s).
  assert (H0 : steady s s0) by (unfold s0; destruct (negb _); [apply sns_SetStatus_steady|reflexivity]).
  pose proof (introspect_nodes_steady rs s0) as H1. destruct (introspect_nodes rs s0) as [s1 c1]. simpl in H1.
  pose proof (pruneCompletedNodePriorities_steady s1) as H2. destruct (pruneCompletedNodePriorities s1) as [s2 c2]. simpl in H2.
  pose proof (evaluateCompletedBatches_steady s2) as H3. destruct (evaluateCompletedBatches s2) as [s3 c3]. simpl in H3.
  cbn [fst]. etrans; [exact H0|]. etrans; [exact H1|]. etrans; [exact H2|]. etrans; [exact H3|]. apply sns_UpdateCondition_steady.
Qed.

(** The loops over the nodes. *)
Lemma over_nodes_steady {A} fmt (f : SkyhookNode -> A -> res (SkyhookNode * A)) s a s' a' :
  (forall node a node' a', f node a = Ok (node', a') -> steady_node node node') ->
  over_nodes fmt f s a = Ok (s', a') -> steady s s'.
Proof.
  intros Hf. unfold over_nodes. apply (rfold_steady _ _ (s, a) (s', a')). intros [s1 a1] name [s2 a2]. unfold node_loop.
  destruct (find_entry s1 name) as [e|]; [|intros [= <- <-]; reflexivity].
  intros (st & _ & H)%rbind_ok. apply rbind_ok in H as ([node b] & H & [= <- <-]). eapply as_node_steady, Hf, H.
Qed.

Lemma foldl_steady_node {A} (f : SkyhookNode -> A -> SkyhookNode) l node :
  (forall node a, steady_node node (f node a)) -> steady_node node (foldl f node l).
Proof. intros H. revert node; induction l as [|a l IH]; intros node; simpl; [reflexivity|]. etrans; [apply H|apply IH]. Qed.

Lemma foldl_steady_node_fst {A B} (f : SkyhookNode * B -> A -> SkyhookNode * B) l acc :
  (forall acc a, steady_node acc.1 (f acc a).1) -> steady_node acc.1 (foldl f acc l).1.
Proof. intros H. revert acc; induction l as [|a l IH]; intros acc; simpl; [reflexivity|]. etrans; [apply H|apply IH]. Qed.

Lemma HandleUninstallRequests_steady s s' l : HandleUninstallRequests s = Ok (s', l) -> steady s s'.
Proof.
  apply over_nodes_steady. intros node a node' a' [= H]. unfold request_node in H.
  pose proof (foldl_steady_node_fst (request_package (beingDeleted s)) (range (f_packages node)).*2 (node, a)) as Hs.
  rewrite H in Hs. apply Hs. intros [n l'] pkg. unfold request_package.
  repeat case_match; cbn [fst]; try reflexivity;
    (etrans; [|apply node_SetStatus_steady]); first [apply node_Upsert_steady|apply node_RemoveState_steady].
Qed.

Lemma HandleCancelledUninstalls_steady s s' : HandleCancelledUninstalls s = Ok s' -> steady s s'.
Proof.
  unfold HandleCancelledUninstalls. intros ([s1 []] & H & [= <-])%rbind_ok. revert H. apply over_nodes_steady.
  intros node a node' a' [= <- <-]. apply foldl_steady_node. intros n key. unfold cancel_entry.
  repeat case_match; try reflexivity. etrans; [apply node_Upsert_steady|apply node_SetStatus_steady].
Qed.

Lemma start_upgrade_steady pkg st node : steady_node node (start_upgrade pkg st node).
Proof.
  unfold start_upgrade. set (n1 := node_Upsert _ _ _ _ _ _ node). etrans; [|apply node_SetStatus_steady].
  etrans; [apply (node_Upsert_steady (pkg_Ref pkg) (pkg_Image pkg) StateInProgress StageUpgrade 0 (pkg_ContainerSHA pkg))|].
  apply set_skyhook_steady, RemoveConfigUpdates_only.
Qed.

Lemma version_node_steady node b node' b' : version_node node b = Ok (node', b') -> steady_node node node'.
Proof.
  unfold version_node. generalize ((range (cached (full_Only node))).*1) as l. intros l. revert node b.
  induction l as [|key l IH]; intros node b; simpl; [intros [= <- _]; reflexivity|].
  intros ([n1 b1] & H & Hrest)%rbind_ok. apply IH in Hrest. etrans; [|exact Hrest]. clear Hrest IH.
  unfold version_entry in H. revert H.
  assert (Hrm : forall name, steady_node node (RemoveConfigUpdates_of name node))
    by (intros; apply set_skyhook_steady, RemoveConfigUpdates_only).
  destruct (cached (full_Only node) !! key); [|by intros [= <- _]]. destruct (f_packages node !! _) as [pkg|]; [|by intros [= <- _]].
  destruct (IsUninstallCycleInProgress _ _); [by intros [= <- _]|]. case_bool_decide; [by intros [= <- _]|].
  intros (cmp & _ & H')%rbind_ok. revert H'. repeat case_match; intros [= <- _]; try reflexivity; apply start_upgrade_steady.
Qed.

Lemma HandleVersionChange_steady s s' l : HandleVersionChange s = Ok (s', l) -> steady s s'.
Proof.
  unfold HandleVersionChange. intros ([s1 b] & H & [= <- _])%rbind_ok.
  assert (H1 : steady s s1) by (revert H; apply over_nodes_steady; intros; by eapply version_node_steady).
  destruct b; [|exact H1]. etrans; [exact H1|apply resetSkyhookBatchState_steady].
Qed.

(* The selection of nodes. *)
Lemma add_condition_legacy_steady now c s : steady s (add_condition_legacy now c s).
Proof. apply on_skyhook_steady, AddSkyhookConditionWithLegacy_only. Qed.

Lemma add_condition_steady now c s : steady s (add_condition now c s).
Proof. apply on_skyhook_steady, addSkyhookCondition_only. Qed.

Lemma remove_conditions_of_steady types s : steady s (remove_conditions_of types s).
Proof. apply on_skyhook_steady, RemoveSkyhookConditionTypes_only. Qed.

Lemma block_unless_complete_steady name s : steady s (block_unless_complete name s).
Proof. apply with_node_steady. intros f. destruct (node_IsComplete f); [reflexivity|apply node_SetStatus_steady]. Qed.

Lemma scan_all_steady tolerations s : steady s (sc_state (scan_all tolerations s)).
Proof.
  unfold scan_all. set (sc := {| sc_state := s; sc_intolerable := []; sc_ignored := [] |}).
  change s with (sc_state sc) at 1. generalize (range (sns_compartments s)) as l. intros l. clearbody sc. revert sc.
  assert (Hnode : forall sc name, steady (sc_state sc) (sc_state (scan_node tolerations sc name))).
  { intros sc name. unfold scan_node. destruct (find_entry _ name) as [e|]; [|reflexivity]. cbn [sc_state].
    destruct (negb _), (CheckNodeIgnoreLabel _); try reflexivity; try apply block_unless_complete_steady.
    etrans; apply block_unless_complete_steady. }
  assert (Hnodes : forall names sc, steady (sc_state sc) (sc_state (foldl (scan_node tolerations) sc names))).
  { induction names as [|name names IH]; intros sc; simpl; [reflexivity|]. etrans; [apply Hnode|apply IH]. }
  induction l as [|kc l IH]; intros sc; simpl; [reflexivity|]. etrans; [apply Hnodes|apply IH].
Qed.

Lemma SelectNodes_steady now np s pk : SelectNodes now np s = Ok pk -> steady s (pk_state pk).
Proof.
  unfold SelectNodes, primeAndPruneNodes. cbn zeta. set (s1 := (pruneCompletedNodePriorities s).1).
  assert (H1 : steady s s1) by apply pruneCompletedNodePriorities_steady. unfold selectNodesWithCompartments.
  generalize (picker_tolerations (set_priorityNodes (priorities s1 ∪ priorityNodes np) np) s1) as tols. intros tols.
  generalize (set_priorityNodes (priorities s1 ∪ priorityNodes np) np) as np1. intros np1.
  set (sc := scan_all tols s1). assert (H2 : steady s1 (sc_state sc)) by apply scan_all_steady.
  intros (pk1 & Hf & [= <-])%rbind_ok. cbn [pk_state]. etrans; [exact H1|]. etrans; [exact H2|].
  etrans; [|apply add_condition_legacy_steady]. etrans; [|apply add_condition_legacy_steady].
  revert Hf. set (pk0 := {| pk_picker := np1; pk_state := sc_state sc; pk_selected := [] |}).
  change (sc_state sc) with (pk_state pk0) at 3. generalize (range (sns_compartments (sc_state sc))) as l. intros l. clearbody pk0.
  revert pk0; induction l as [|kc l IH]; intros pk0; simpl; [intros [= ->]; reflexivity|].
  intros (pk2 & Hc & Hrest)%rbind_ok. etrans; [|by apply IH]. clear IH Hrest. unfold pick_compartment in Hc.
  apply rbind_ok in Hc as (names & _ & [= <-]). revert pk0. induction names as [|n names IH]; intros pk0; simpl; [reflexivity|].
  etrans; [|apply IH]. unfold pick_node, upsertPick. destruct (priorities (pk_state pk0) !! n); simpl; [reflexivity|].
  apply on_skyhook_steady, touch_map_only.
Qed.

End Resources.
