(* ===== verification/ConfigMaps.v ===== *)
(** * Configuration of the packages

    Models the config maps of a resource in
    [operator/internal/controller/skyhook_controller.go]:
    [HandleConfigUpdates], [UpsertConfigmaps], [ValidateNodeConfigmaps] and
    [validateAndUpsertSkyhookData].  A config map that is made has
    one owner, the resource ([SetControllerReference] on a new object). *)

From S2P Require Import Prelude Effects Sha256 Graph Float64 DeploymentPolicy Api NodeState Skyhook Conditions Text Node Migration Compartment ClusterState Partition Introspect Drain Options Report Merge Jobs JobBuilder Ownership Server Executor Save Sweep Uninstall Frame.

#[local] Open Scope Z_scope.
#[local] Open Scope go_scope.

Section ConfigMaps.
Context `{MR : MapRange} `{JS : NodeStateJSON} `{TT : TimeText} `{PJ : PackageJSON} `{TS : TaintSyntax}
  `{QQ : Quantities} `{SM : StrategicMerge} `{AE : AgentEncoding}.
Context (srv : server) (opts : SkyhookOperatorOptions) (original : string -> option Node) (now : Z).

Local Notation P := (M api_call skyhookNodes).

(* ------------------------------------------------------------------ *)
(** ** A config map that changed *)

(** A stage that a config change starts again when it is erroring. *)
Definition restartable (status : PackageStatus) : bool :=
  (bool_decide (ps_Stage status = StageConfig) || bool_decide (ps_Stage status = StageInterrupt) ||
   bool_decide (ps_Stage status = StagePostInterrupt)) && bool_decide (ps_State status = StateErroring).

(** [completedNodes], and whether a node is erroring. *)
Definition count_node (p : Package) (acc : Z * bool) (name : string) : P (Z * bool) :=
  let* s := gets id in
  let* exists_ := wrap "checking package pod existence on node %s for package %s: %w" [name; pkg_UniqueName p]
                    (JobExists srv name (sns_Name s) p) in
  match find_entry s name with
  | None => ret acc
  | Some e =>
      let completed := if negb exists_ && node_IsPackageComplete (as_node s e) p then acc.1 + 1 else acc.1 in
      match node_PackageStatus (ne_Only e) (pkg_UniqueName p) with
      | Some status =>
          if restartable status then
            let* _ := deleteConfigUpdateExecutors srv name (sns_Name s) p in ret (completed, true)
          else ret (completed, acc.2)
      | None => ret (completed, acc.2)
      end
  end.

(** The keys of the new data with a value that the old data does not have. *)
Definition changed_keys (old new : gmap string string) : list string :=
  omap (fun kv : string * string => if bool_decide (old !! kv.1 = Some kv.2) then None else Some kv.1) (range new).

Definition restart_config (p : Package) (s : skyhookNodes) (name : string) : skyhookNodes :=
  with_node name (fun f => node_SetStatus StatusInProgress (start_entry p StageConfig f)) s.

(** The updates that the resource remembers, then the state of every node. *)
Definition start_config (p : Package) (all_completed : bool) (keys : list string) (s : skyhookNodes) : skyhookNodes :=
  let s := if all_completed then on_skyhook (RemoveConfigUpdates (pkg_Name p)) s else s in
  let s := on_skyhook (AddConfigUpdates (pkg_Name p) keys) s in
  foldl (restart_config p) s (node_names s).

(** Whether the config map was updated, and whether the update has to wait. *)
Definition HandleConfigUpdates (p : Package) (oldConfigMap newConfigMap : ConfigMap) : P (bool * bool) :=
  if bool_decide (cfg_Data oldConfigMap = cfg_Data newConfigMap) then ret (false, false)
  else
    let* s := gets id in
    let nodeCount := sns_NodeCount s in
    let* '(completedNodes, erroringNode) := loop (count_node p) (0, false) (node_names s) in
    if (completedNodes =? nodeCount) || erroringNode then
      let* _ := modify (start_config p (completedNodes =? nodeCount) (changed_keys (cfg_Data oldConfigMap) (cfg_Data newConfigMap))) in
      let* _ := save_all srv opts original now in
      let* _ := wrap "error updating config map [%s]: %w" [cfg_Name newConfigMap] (must srv (UpdateConfigMap newConfigMap)) in
      ret (true, false)
    else ret (false, true).

(* ------------------------------------------------------------------ *)
(** ** All the config maps of a resource *)

Definition name_labels (skyhookName : string) : gmap string string := {[ prefixed_key "name" := skyhookName ]}.

(** By name; of two with one name the later. *)
Definition by_name (cms : list ConfigMap) : gmap string ConfigMap := foldl (fun m cm => <[cfg_Name cm := cm]> m) ∅ cms.

Definition package_configmap (sk : Skyhook) (p : Package) : ConfigMap :=
  {| cfg_Name := config_map_name sk p;
     cfg_Labels := {[ prefixed_key "name" := nw_Name (sk_nw sk) ]};
     cfg_Annotations := {[ prefixed_key "name" := nw_Name (sk_nw sk); prefixed_key "Package.Name" := pkg_Name p;
                           prefixed_key "Package.Version" := pkg_Version p ]};
     cfg_Data := pkg_ConfigMap p;
     cfg_OwnerReferences := [controllerRef (sk_nw sk)] |}.

(** The names of the config maps of the packages. *)
Definition should_exist (sk : Skyhook) : list string := map (fun kp => config_map_name sk kp.2) (range (sp_Packages (sk_Spec sk))).

Definition remove_unwanted (keep : list string) (_ : unit) (kv : string * ConfigMap) : P unit :=
  if bool_decide (kv.1 ∈ keep) then ret tt
  else wrap "error deleting existing config map [%s] while upserting: %w" [cfg_Name kv.2] (must srv (RemoveConfigMap (cfg_Name kv.2))).

(** The names of the packages that some node uninstalls. *)
Definition uninstalling_on (packages : Packages) (acc : list string) (f : SkyhookNode) : res (list string) :=
  rbind (rwrap "node %s: reading state while upserting configmaps: %w" [f_name f] (node_State (full_Only f))) (fun ns =>
  Ok (acc ++ omap (fun kp : string * Package =>
    if IsUninstallCycleInProgress (default ∅ ns) (pkg_UniqueName kp.2) then Some (pkg_Name kp.2) else None) (range packages))).

Definition uninstallingPkgs (s : skyhookNodes) : res (list string) :=
  rfold (fun acc e => uninstalling_on (sp_Packages (sns_Spec s)) acc (as_node s e)) [] (sns_nodes s).

Definition upsert_package (existing : gmap string ConfigMap) (uninstalling : list string) (acc : bool * bool) (kp : string * Package)
  : P (bool * bool) :=
  let p := kp.2 in
  if bool_decide (pkg_Name p ∈ uninstalling) then ret acc
  else if bool_decide (pkg_ConfigMap p = ∅) then ret acc
  else
    let* s := gets id in
    let newCM := package_configmap (sns_skyhook s) p in
    match existing !! cfg_Name newCM with
    | Some existingCM =>
        let* '(updated, pending) := wrap "error updating config map [%s]: %w" [cfg_Name newCM]
                                      (HandleConfigUpdates p existingCM newCM) in
        ret (acc.1 || updated, acc.2 || pending)
    | None =>
        let* _ := wrap "error creating config map [%s]: %w" [cfg_Name newCM] (must srv (CreateConfigMap newCM)) in ret acc
    end.

Definition UpsertConfigmaps : P (bool * bool) :=
  let* s := gets id in
  let* cms := wrap "error listing config maps while upserting: %w" [] (list_configmaps srv (name_labels (sns_Name s))) in
  let existing := by_name cms in
  let* _ := loop (remove_unwanted (should_exist (sns_skyhook s))) tt (range existing) in
  let* uninstalling := lift (uninstallingPkgs s) in
  loop (upsert_package existing uninstalling) (false, false) (range (sp_Packages (sns_Spec s))).

(* ------------------------------------------------------------------ *)
(** ** The metadata of the nodes *)

Definition node_meta_labels (skyhookName : string) : gmap string string := {[ prefixed_key "skyhook-node-meta" := skyhookName ]}.

Definition remove_orphan (keep : list string) (acc : bool * list error) (kv : string * ConfigMap) : P (bool * list error) :=
  if bool_decide (kv.1 ∈ keep) then ret acc
  else
    let* e := try (wrap "error deleting existing config map [%s]: %w" [cfg_Name kv.2] (must srv (RemoveConfigMap (cfg_Name kv.2)))) in
    ret (true, acc.2 ++ option_list e).

Definition set_cfg_Data (d : gmap string string) (cm : ConfigMap) : ConfigMap :=
  {| cfg_Name := cfg_Name cm; cfg_Labels := cfg_Labels cm; cfg_Annotations := cfg_Annotations cm; cfg_Data := d;
     cfg_OwnerReferences := cfg_OwnerReferences cm |}.

Definition refresh_packages (keep : list string) (expected : string) (acc : bool * list error) (cm : ConfigMap) : P (bool * list error) :=
  if negb (bool_decide (cfg_Name cm ∈ keep)) then ret acc
  else if bool_decide (default "" (cfg_Data cm !! "packages.json") = expected) then ret acc
  else
    let* e := try (wrap "error updating packages.json on config map [%s]: %w" [cfg_Name cm]
                (must srv (UpdateConfigMap (set_cfg_Data (<["packages.json" := expected]> (cfg_Data cm)) cm)))) in
    match e with
    | Some e => ret (acc.1, acc.2 ++ [e])
    | None => ret (true, acc.2)
    end.

(** A resource that is gone is a nil pointer that [NewSkyhookMetadata] reads. *)
Definition ValidateNodeConfigmaps (skyhookName : string) (nodes : list string) : P bool :=
  let* cms := wrap "error listing config maps: %w" [] (list_configmaps srv (node_meta_labels skyhookName)) in
  match cms with
  | [] => ret false
  | _ =>
      let keep := map (fun node => generateSafeName 253 [skyhookName; node; "metadata"]) nodes in
      let* '(update, errs) := loop (remove_orphan keep) (false, []) (range (by_name cms)) in
      let* skyhookCR := wrap "error getting nodewright for metadata validation: %w" [] (read_nodewright srv skyhookName) in
      match skyhookCR with
      | None => lift Panic
      | Some nw =>
          let expected := metadata_Marshal (NewSkyhookMetadata opts (NewSkyhookWrapper nw)) in
          let* '(update, errs) := loop (refresh_packages keep expected) (update, errs) cms in
          let* _ := lift (aggregate errs) in
          ret update
      end
  end.

(* ------------------------------------------------------------------ *)
(** ** Validation *)

(** [shouldReturn]: the result to return with, if any. *)
Definition shouldReturn (updates : bool) : option Z := if updates then Some requeue_soon else None.

(** The result to return with, if any; whether a config map has to wait. *)
Definition validateAndUpsertSkyhookData : P (option Z * bool) :=
  let* updates := ValidateRunningPackages srv opts in
  match shouldReturn updates with
  | Some r => ret (Some r, false)
  | None =>
      let* s := gets id in
      let* updates := ValidateNodeConfigmaps (sns_Name s) (node_names s) in
      match shouldReturn updates with
      | Some r => ret (Some r, false)
      | None =>
          let* '(updated, pendingSync) := UpsertConfigmaps in
          ret (if updated then (Some requeue_soon, false) else (None, pendingSync))
      end
  end.

(* ------------------------------------------------------------------ *)
(** ** Lemmas: the gate of an update *)

Definition reads_or_deletes (c : api_call) : Prop := match c with ListJobs _ _ | RemoveJob _ => True | _ => False end.

Definition lists (c : api_call) : Prop := match c with ListJobs _ _ => True | _ => False end.

(** A node whose erroring stage a change of the configuration starts again. *)
Definition erroring_at_config (p : Package) (s : skyhookNodes) : Prop := exists e st,
  e ∈ sns_nodes s /\ node_PackageStatus (ne_Only e) (pkg_UniqueName p) = Some st /\ restartable st = true.

(** What the count says after the nodes [names]. *)
Definition counted (p : Package) (s : skyhookNodes) (names : list string) (acc : Z * bool) : Prop :=
  acc.1 <= zlen names /\
  (acc.1 = zlen names -> forall name e, name ∈ names -> find_entry s name = Some e -> node_IsPackageComplete (as_node s e) p = true) /\
  (acc.2 = true -> erroring_at_config p s).

Lemma executors_memory name sky p : steps (updates eq) (deleteConfigUpdateExecutors srv name sky p).
Proof.
  unfold deleteConfigUpdateExecutors, delete_job, list_jobs, delete_job_foreground, must_if_present.
  apply steps_bind; [apply _| |intros jobs]; auto 12 with steps.
Qed.

Lemma executors_calls name sky p : steps (emits reads_or_deletes) (deleteConfigUpdateExecutors srv name sky p).
Proof.
  unfold deleteConfigUpdateExecutors, delete_job, list_jobs, delete_job_foreground, must_if_present.
  apply steps_bind; [apply _|apply steps_wrap; [apply _|by apply emits_call]|intros jobs]. apply steps_loop; [apply _|].
  intros. apply steps_if; [apply _| |apply steps_ret; apply _].
  do 2 (apply steps_wrap; [apply _|]). by apply emits_call.
Qed.

Lemma count_node_run p names acc name s : counted p (mem s) names acc ->
  let '(s', r) := count_node p acc name s in
  mem s' = mem s /\ emits reads_or_deletes s s' /\
  forall acc', r = Ok acc' -> counted p (mem s) (names ++ [name]) acc' /\ (acc'.2 = false -> acc.2 = false /\ emits lists s s').
Proof.
  intros (Hle & Hall & Herr). unfold count_node, bind at 1, gets. cbn [id].
  unfold JobExists, list_jobs. unfold bind at 1 2, wrap, call. cbn [fst snd].
  set (s1 := {| trace := trace s ++ _; mem := mem s |}).
  assert (H1 : emits lists s s1) by (eexists; split; [done|]; repeat constructor).
  assert (H1' : emits reads_or_deletes s s1) by (eexists; split; [done|]; repeat constructor).
  assert (Hlen : zlen (names ++ [name]) = zlen names + 1) by (unfold zlen; rewrite length_app; simpl; lia).
  destruct (sv_jobs srv _ _ _) as [jobs|err|]; unfold ret; cbn [rwrap fst snd]; [|by split_and!..].
  destruct (find_entry (mem s) name) as [e|] eqn:He.
  2: { split_and!; [done|done|]. intros acc' [= <-]. split; [|done]. unfold counted. rewrite Hlen. split_and!; [lia| |done].
       intros Heq. lia. }
  set (completed := if negb (any unfinished jobs) && node_IsPackageComplete (as_node (mem s) e) p then acc.1 + 1 else acc.1).
  assert (Hc : completed <= zlen names + 1 /\ (completed = zlen names + 1 -> acc.1 = zlen names /\ node_IsPackageComplete (as_node (mem s) e) p = true)).
  { unfold completed. destruct (negb _), (node_IsPackageComplete _ _); simpl; split; try lia; intros ?; split; try done; lia. }
  assert (Hcount : forall b, (b = true -> erroring_at_config p (mem s)) -> counted p (mem s) (names ++ [name]) (completed, b)).
  { intros b Hb. unfold counted. rewrite Hlen. cbn [fst snd]. split; [apply Hc|]. split; [|exact Hb]. intros Hk name' e' [Hin| ->%list_elem_of_singleton]%elem_of_app He'.
    - apply (Hall (proj1 (proj2 Hc Hk)) name' e' Hin He').
    - rewrite He in He'. injection He' as <-. apply (proj2 Hc Hk). }
  destruct (node_PackageStatus (ne_Only e) _) as [st|] eqn:Hst.
  2: { split_and!; [done|done|]. intros acc' [= <-]. split; [by apply Hcount|]. done. }
  destruct (restartable st) eqn:Hre.
  - assert (Hex : erroring_at_config p (mem s)) by (exists e, st; split_and!; [by eapply find_entry_elem|done|done]).
    unfold bind. pose proof (executors_memory name (sns_Name (mem s)) p s1) as Hm. pose proof (executors_calls name (sns_Name (mem s)) p s1) as Hq.
    destruct (deleteConfigUpdateExecutors _ _ _ _ s1) as [s2 r2]. unfold updates in Hm. cbn [fst] in *.
    assert (emits reads_or_deletes s s2) by (by etrans).
    destruct r2; (split_and!; [done|done|]); intros acc' [= <-]. split; [by apply Hcount|done].
  - split_and!; [done|done|]. intros acc' [= <-]. split; [by apply Hcount|]. done.
Qed.

Lemma count_run p todo : forall names acc s, counted p (mem s) names acc ->
  let '(s', r) := loop (count_node p) acc todo s in
  mem s' = mem s /\ emits reads_or_deletes s s' /\
  forall acc', r = Ok acc' -> counted p (mem s) (names ++ todo) acc' /\ (acc'.2 = false -> acc.2 = false /\ emits lists s s').
Proof.
  induction todo as [|name todo IH]; intros names acc s Hc; simpl.
  - rewrite app_nil_r. split_and!; [done|by reflexivity|]. intros acc' [= <-]. split; [done|]. split; [done|reflexivity].
  - unfold bind. pose proof (count_node_run p names acc name s Hc) as H1. destruct (count_node p acc name s) as [s1 r1].
    destruct H1 as (Hm1 & He1 & Hr1). destruct r1 as [acc1|err|]; [|by split_and!..]. destruct (Hr1 _ eq_refl) as [Hc1 Hf1].
    rewrite <- Hm1 in Hc1. specialize (IH _ _ _ Hc1). destruct (loop (count_node p) acc1 todo s1) as [s2 r2].
    destruct IH as (Hm2 & He2 & Hr2). split_and!; [by rewrite Hm2|by etrans|]. intros acc2 Hacc2. destruct (Hr2 _ Hacc2) as [Hc2 Hf2].
    rewrite Hm1, <- app_assoc in Hc2. split; [done|]. intros H2. destruct (Hf2 H2) as [H3 H4]. destruct (Hf1 H3) as [H5 H6].
    split; [done|]. by etrans.
Qed.

(* ------------------------------------------------------------------ *)
(** ** Lemmas: the nodes start again *)

(** The package is being configured on the node. *)
Definition configuring (p : Package) (e : NodeEntry) : Prop :=
  node_PackageStatus (ne_Only e) (pkg_UniqueName p) = Some (status_in p StateInProgress StageConfig).

Lemma restart_entry p s name n :
  find_entry (restart_config p s name) n =
  if bool_decide (n = name) then (fun e => entry_of_node (node_SetStatus StatusInProgress (start_entry p StageConfig (as_node s e)))) <$> find_entry s name
  else find_entry s n.
Proof.
  unfold restart_config, with_node. destruct (find_entry s name) as [e|] eqn:He; [|by case_bool_decide; subst].
  rewrite find_entry_put. set (f := node_SetStatus _ _).
  assert (Hn : entry_name (entry_of_node f) = name).
  { change (f_name f = name). unfold f, start_entry. rewrite (proj2 (node_SetStatus_steady _ _)), (proj2 (node_Upsert_steady _ _ _ _ _ _ _)).
    by apply find_entry_name in He. }
  rewrite Hn. case_bool_decide; [|done]. subst n. by rewrite He.
Qed.

Lemma start_entry_configuring p f : configuring p (entry_of_node (node_SetStatus StatusInProgress (start_entry p StageConfig f))).
Proof.
  unfold configuring, node_PackageStatus, ns_Get. change (ne_Only (entry_of_node ?f)) with (full_Only f). change (cached (full_Only ?f)) with (f_state f).
  rewrite (proj1 (node_SetStatus_state _ _)). unfold start_entry. rewrite (proj1 (node_Upsert_state _ _ _ _)). by rewrite lookup_insert_eq.
Qed.

Lemma restart_all p names : forall s n e, find_entry (foldl (restart_config p) s names) n = Some e ->
  n ∈ names \/ (exists e0, find_entry s n = Some e0 /\ configuring p e0) -> configuring p e.
Proof.
  induction names as [|name names IH]; intros s n e He Hn; simpl in *.
  - destruct Hn as [Hn|(e0 & He0 & Hc)]; [by apply elem_of_nil in Hn|]. congruence.
  - eapply IH; [exact He|]. rewrite restart_entry. case_bool_decide as Hc.
    + subst n. right. destruct (find_entry s name) as [e0|] eqn:E.
      * eexists. split; [done|]. apply start_entry_configuring.
      * exfalso. revert He. clear -E. assert (Hnone : forall l s, find_entry s name = None -> find_entry (foldl (restart_config p) s l) name = None).
        { induction l as [|x l IH]; intros s0 H0; simpl; [done|]. apply IH. rewrite restart_entry. case_bool_decide; [subst; by rewrite H0|done]. }
        rewrite Hnone; [done|]. rewrite restart_entry, bool_decide_eq_true_2, E by done. done.
    + destruct Hn as [[->|Hn]%elem_of_cons|Hn]; [done|by left|by right].
Qed.

Lemma restart_steady p s name : steady s (restart_config p s name).
Proof. apply with_node_steady. intros f. etrans; [|apply node_SetStatus_steady]. apply node_Upsert_steady. Qed.

Lemma start_config_spec p all_completed keys s :
  let m := start_config p all_completed keys s in
  steady s m /\ forall n e, find_entry m n = Some e -> configuring p e.
Proof.
  unfold start_config. set (s1 := if all_completed then _ else s). set (s2 := on_skyhook (AddConfigUpdates _ _) s1).
  assert (H1 : steady s s1) by (unfold s1; destruct all_completed; [apply on_skyhook_steady, RemoveConfigUpdates_only|reflexivity]).
  assert (H2 : steady s s2) by (etrans; [exact H1|apply on_skyhook_steady, AddConfigUpdates_only]).
  split; [etrans; [exact H2|apply foldl_steady; intros; apply restart_steady]|].
  intros n e He. eapply restart_all; [exact He|]. left.
  assert (Hst : steady s2 (foldl (restart_config p) s2 (node_names s2))) by (apply foldl_steady; intros; apply restart_steady).
  destruct Hst as [_ Hn]. apply find_entry_elem in He as Hin. apply (list_elem_of_fmap_2 entry_name) in Hin.
  change (entry_name <$> sns_nodes ?m) with (node_names m) in Hin. rewrite Hn in Hin. by rewrite (find_entry_name _ _ _ He) in Hin.
Qed.

(* ------------------------------------------------------------------ *)
(** ** Properties *)

(** The package is complete on every node. *)
Definition complete_everywhere (p : Package) (s : skyhookNodes) : Prop := forall name e,
  find_entry s name = Some e -> node_IsPackageComplete (as_node s e) p = true.

Definition no_errors (r : res (bool * list error)) : bool := match r with Ok (_, []) => true | _ => false end.

(** A config map of a package changes only through an open gate, and only
    after every node has been told to configure the package again.  Equal data
    is left alone.  Otherwise the pass first looks at the Jobs of the nodes,
    deleting only those of erroring nodes; while some node has not completed the
    package and none is erroring in a stage that a change restarts, it changes
    nothing and asks to be called again.  When it goes on, it saves a state in
    which every node is in the config stage, and it updates the config map last,
    if and only if that save met no error; it reports an update only when the
    server took the new config map. *)
Theorem config_update_in_order (p : Package) (oldConfigMap newConfigMap : ConfigMap) (s : Effects.pass api_call skyhookNodes) :
  let '(s', r) := HandleConfigUpdates p oldConfigMap newConfigMap s in
  (cfg_Data oldConfigMap = cfg_Data newConfigMap -> s' = s /\ r = Ok (false, false)) /\
  (cfg_Data oldConfigMap <> cfg_Data newConfigMap -> exists checks,
    Forall reads_or_deletes checks /\
    ((s' = {| trace := trace s ++ checks; mem := mem s |} /\
      (forall o, r = Ok o -> o = (false, true) /\ Forall lists checks)) \/
     ((complete_everywhere p (mem s) \/ erroring_at_config p (mem s)) /\
      exists m, steady (mem s) m /\ (forall n e, find_entry m n = Some e -> configuring p e) /\
        let '(s1, r1) := SaveNodesAndSkyhook srv opts original now {| trace := trace s ++ checks; mem := m |} in
        trace s' = trace s1 ++ (if no_errors r1 then [UpdateConfigMap newConfigMap] else []) /\
        (forall o, r = Ok o -> o = (true, false) /\ no_errors r1 = true /\
           sv_write srv (trace s1) (UpdateConfigMap newConfigMap) = Done)))).
Proof.
  unfold HandleConfigUpdates. case_bool_decide as Hd; [by split|].
  unfold bind at 1, gets. cbn [id]. unfold bind at 1.
  pose proof (count_run p (node_names (mem s)) [] (0, false) s) as Hc.
  destruct (loop (count_node p) (0, false) _ s) as [s1 r1].
  destruct Hc as (Hm & (checks & Ht & Hq) & Hr).
  { split_and!; [done| |done]. intros _ name e Hin. by apply elem_of_nil in Hin. }
  assert (Hs1 : s1 = {| trace := trace s ++ checks; mem := mem s |}) by (destruct s1; simpl in *; by subst).
  destruct r1 as [[completed erroring]|err|].
  2, 3: split; [done|]; intros _; exists checks; split; [done|]; left; done.
  destruct (Hr _ eq_refl) as [(Hle & Hall & Herr) Hf]. simpl in Hle, Hall, Herr, Hf.
  assert (Hlen : zlen (node_names (mem s)) = sns_NodeCount (mem s)) by (unfold zlen, node_names, sns_NodeCount; by rewrite length_map).
  destruct ((completed =? sns_NodeCount (mem s)) || erroring) eqn:Hgate.
  2: { split; [done|]. intros _. exists checks. split; [done|]. left. split; [exact Hs1|]. intros o [= <-]. split; [done|].
       apply orb_false_iff in Hgate as [_ ->]. destruct (Hf eq_refl) as [_ (t & Ht' & Hl)].
       rewrite Ht in Ht'. by apply app_inv_head in Ht' as ->. }
  unfold bind at 1, modify. rewrite Hs1. cbn [trace mem].
  set (keys := changed_keys _ _). set (b := completed =? sns_NodeCount (mem s)).
  destruct (start_config_spec p b keys (mem s)) as [Hst Hcf]. set (m := start_config p b keys (mem s)) in *.
  unfold save_all. unfold bind at 1 2.
  destruct (SaveNodesAndSkyhook srv opts original now {| trace := trace s ++ checks; mem := m |}) as [s2 r2] eqn:Hsave.
  assert (Hopen : complete_everywhere p (mem s) \/ erroring_at_config p (mem s)).
  { apply orb_true_iff in Hgate as [Hc|Hc]; [left|right; by apply Herr]. apply Z.eqb_eq in Hc. intros name e He.
    apply (Hall ltac:(lia) name e); [|done]. rewrite <- (find_entry_name _ _ _ He).
    apply (list_elem_of_fmap_2 entry_name), (find_entry_elem _ _ _ He). }
  assert (Hgoal : forall s' r, trace s' = trace s2 ++ (if no_errors r2 then [UpdateConfigMap newConfigMap] else []) ->
    (forall o, r = Ok o -> o = (true, false) /\ no_errors r2 = true /\ sv_write srv (trace s2) (UpdateConfigMap newConfigMap) = Done) ->
    (cfg_Data oldConfigMap = cfg_Data newConfigMap -> s' = s /\ r = Ok (false, false)) /\
    (cfg_Data oldConfigMap <> cfg_Data newConfigMap -> exists checks,
      Forall reads_or_deletes checks /\
      ((s' = {| trace := trace s ++ checks; mem := mem s |} /\
        (forall o, r = Ok o -> o = (false, true) /\ Forall lists checks)) \/
       ((complete_everywhere p (mem s) \/ erroring_at_config p (mem s)) /\
        exists m, steady (mem s) m /\ (forall n e, find_entry m n = Some e -> configuring p e) /\
          let '(s1, r1) := SaveNodesAndSkyhook srv opts original now {| trace := trace s ++ checks; mem := m |} in
          trace s' = trace s1 ++ (if no_errors r1 then [UpdateConfigMap newConfigMap] else []) /\
          (forall o, r = Ok o -> o = (true, false) /\ no_errors r1 = true /\
             sv_write srv (trace s1) (UpdateConfigMap newConfigMap) = Done))))).
  { intros s' r Htr Hres. split; [done|]. intros _. exists checks. split; [done|]. right. split; [done|]. exists m.
    rewrite Hsave. done. }
  destruct r2 as [[saved errs]|err|].
  2, 3: apply Hgoal; [by rewrite app_nil_r|done].
  destruct errs as [|e errs].
  2: { cbn [aggregate lift]. unfold bind, lift. cbn. apply Hgoal; [by rewrite app_nil_r|done]. }
  unfold bind, lift. cbn [aggregate ret]. unfold wrap, must, call.
  destruct (sv_write srv (trace s2) (UpdateConfigMap newConfigMap)) eqn:Hw; cbn [fst snd rwrap ret]; (apply Hgoal; [done|]); try done.
  intros o [= <-]. done.
Qed.

End ConfigMaps.

(* ------------------------------------------------------------------ *)
(** ** Example *)

#[local] Existing Instance braced_json.
#[local] Existing Instance merge_strings.
#[local] Existing Instance example_time.
#[local] Existing Instance package_text.
#[local] Existing Instance example_syntax.
#[local] Existing Instance text_quantities.
#[local] Existing Instance blank_encoding.

(** Two nodes: the package is erroring in its config stage on the first, and has
    never been applied on the second. *)
Definition half_way : skyhookNodes :=
  plain_state "tuning" {["tools" := tools]}
    [plain_entry "n1" "tuning" (Some {[pkg_UniqueName tools := status_in tools StateErroring StageConfig]});
     plain_entry "n2" "tuning" (Some ∅)].

Definition data_of (value : string) : ConfigMap :=
  {| cfg_Name := "tuning-tools-1"; cfg_Labels := ∅; cfg_Annotations := ∅; cfg_Data := {["key" := value]};
     cfg_OwnerReferences := [] |}.

(** A change of the configuration then puts the second node into the config stage
    too: the Job it starts next is the config stage, and the package is never
    applied there. *)
Example config_change_skips_apply :
  let s' := (HandleConfigUpdates quiet_server default_options (fun _ => None) 0 tools (data_of "old") (data_of "new")
               {| trace := []; mem := half_way |}).1 in
  map (fun e => starting_stage (as_node half_way e) tools) (sns_nodes half_way) = [StageConfig; StageApply] /\
  map (fun e => starting_stage (as_node (mem s') e) tools) (sns_nodes (mem s')) = [StageConfig; StageConfig].
Proof. by vm_compute. Qed.
