(* ===== verification/Finalizer.v ===== *)
(** * Deletion of a resource

    Models [HandleFinalizer] of [operator/internal/controller/skyhook_controller.go]:
    the finalizer that holds a deleted resource back until its packages are
    uninstalled and its nodes are clean.  Events and metrics are left out. *)

From S2P Require Import Prelude Effects Sha256 Graph Float64 DeploymentPolicy Api NodeState Skyhook Conditions Text Node Migration Compartment ClusterState Partition Introspect Drain Options Report Merge Jobs JobBuilder Server Executor Save Sweep Uninstall Frame.

#[local] Open Scope Z_scope.
#[local] Open Scope go_scope.

Definition SkyhookFinalizer : string := "nodewright.nvidia.com/nodewright".

(** [controllerutil.ContainsFinalizer], [AddFinalizer] and [RemoveFinalizer] *)
Definition ContainsFinalizer (nw : NodeWright) : bool := bool_decide (SkyhookFinalizer ∈ nw_Finalizers nw).

Definition AddFinalizer (nw : NodeWright) : NodeWright :=
  if ContainsFinalizer nw then nw else set_nw_Finalizers (nw_Finalizers nw ++ [SkyhookFinalizer]) nw.

Definition RemoveFinalizer (nw : NodeWright) : NodeWright :=
  set_nw_Finalizers (List.filter (fun f => negb (bool_decide (f = SkyhookFinalizer))) (nw_Finalizers nw)) nw.

Section Finalizer.
Context `{MR : MapRange} `{JS : NodeStateJSON} `{TT : TimeText} `{SM : StrategicMerge} `{AE : AgentEncoding}.
Context (srv : server) (opts : SkyhookOperatorOptions) (original : string -> option Node) (now : Z).

Local Notation P := (M api_call skyhookNodes).

Definition on_nodewright (f : NodeWright -> NodeWright) : skyhookNodes -> skyhookNodes :=
  on_skyhook (fun sk => {| sk_nw := f (sk_nw sk); Updated := Updated sk |}).

(* ------------------------------------------------------------------ *)
(** ** Work that is left *)

Definition scan_entry (p : Package) (acc : bool) (e : NodeEntry) : res bool :=
  rbind (rwrap "error reading node state for finalizer on node %s: %w" [entry_name e] (sns_State e)) (fun nodeState =>
  Ok (match nodeState !! pkg_UniqueName p with Some _ => true | None => acc end)).

Definition scan_package (s : skyhookNodes) (acc : bool) (kp : string * Package) : res bool :=
  if negb (UninstallEnabled (Some kp.2)) then Ok acc else rfold (scan_entry kp.2) acc (sns_nodes s).

(** [hasPendingUninstall], or [stateErr]. *)
Definition pending_uninstall (s : skyhookNodes) : res bool := rfold (scan_package s) false (sns_packages s).

Definition block_deletion (reason message : string) : P unit :=
  let* _ := modify (fun s => add_condition now (condition now s SkyhookConditionDeletionBlocked ConditionTrue reason message) s) in
  let* _ := save_all srv opts original now in
  ret tt.

(* ------------------------------------------------------------------ *)
(** ** Cleaning up *)

Definition clean_node (f : SkyhookNode) : SkyhookNode := on_node (fun n => CleanupSCRMetadata (Uncordon n)) f.

Definition release_node (errs : list error) (name : string) : P (list error) :=
  let* _ := modify (with_node name clean_node) in
  let* s := gets id in
  if negb (changed_of s name) then ret errs
  else
    let* e := try (wrap "error patching node [%s] in finalizer: %w" [name] (at_node name (patch_object srv PatchNode))) in
    ret (errs ++ option_list e).

(** The status first: without its last finalizer the object is gone. *)
Definition release_resource : P bool :=
  let* s := gets id in
  let* errs := loop release_node [] (node_names s) in
  let* _ := lift (aggregate errs) in
  let* _ := wrap "error updating nodewright status: %w" [] (write_resource srv UpdateStatus) in
  let* _ := modify (on_nodewright RemoveFinalizer) in
  let* _ := wrap "error patching nodewright removing finalizer: %w" [] (write_resource srv PatchNodeWright) in
  ret true.

Definition unblock : P unit := modify (remove_conditions_of [SkyhookConditionDeletionBlocked]).

Definition HandleFinalizer : P bool :=
  let* s := gets id in
  if negb (beingDeleted s) then
    if ContainsFinalizer (sk_nw (sns_skyhook s)) then ret false
    else
      let* _ := modify (on_nodewright AddFinalizer) in
      let* _ := wrap "error patching nodewright to add finalizer: %w" [] (write_resource srv PatchNodeWright) in
      ret false
  else if negb (ContainsFinalizer (sk_nw (sns_skyhook s))) then ret false
  else
    match pending_uninstall s with
    | Panic => lift Panic
    | Err stateErr =>
        let* _ := block_deletion "MalformedNodeState"
          "Cannot safely delete NodeWright: malformed nodeState on one or more nodes. Repair the nodeState annotation before deletion." in
        raise stateErr
    | Ok hasPendingUninstall =>
        if sns_IsPaused s && hasPendingUninstall then
          let* _ := block_deletion "PausedWithPendingUninstall"
            "NodeWright is paused with uninstall-enabled packages still tracked in nodeState. Unpause to let uninstall complete before deletion." in
          ret false
        else if sns_IsDisabled s && hasPendingUninstall then
          let* _ := block_deletion "DisabledWithPendingUninstall"
            "NodeWright is disabled with uninstall-enabled packages still tracked in nodeState. Re-enable the NodeWright to let uninstall complete before deletion." in
          ret false
        else
          let* _ := unblock in
          if hasPendingUninstall then ret false else release_resource
    end.

(* ------------------------------------------------------------------ *)
(** ** Lemmas *)

(** No node tracks a package that is to be uninstalled before the resource goes,
    and that can be told. *)
Definition nothing_tracked (s : skyhookNodes) : Prop := forall k p e,
  sp_Packages (sns_Spec s) !! k = Some p -> UninstallEnabled (Some p) = true -> e ∈ sns_nodes s ->
  exists ns, sns_State e = Ok ns /\ ns !! pkg_UniqueName p = None.

Lemma scan_entries p l : forall acc b, rfold (scan_entry p) acc l = Ok b ->
  (acc = true -> b = true) /\
  (b = false -> forall e, e ∈ l -> exists ns, sns_State e = Ok ns /\ ns !! pkg_UniqueName p = None).
Proof.
  induction l as [|e l IH]; intros acc b; simpl.
  - intros [= ->]. split; [done|]. intros _ e He. by apply elem_of_nil in He.
  - intros (acc1 & H1 & H2)%rbind_ok. unfold scan_entry in H1. apply rbind_ok in H1 as (ns & Hns%rwrap_ok & [= H1]).
    destruct (IH _ _ H2) as [Ht Hf]. split.
    + intros ->. apply Ht. rewrite <- H1. by destruct (ns !! _).
    + intros -> e' [->|He]%elem_of_cons; [|by apply Hf]. exists ns. split; [done|].
      destruct (ns !! pkg_UniqueName p); [|done]. subst acc1. by specialize (Ht eq_refl).
Qed.

Lemma scan_packages s l : forall acc b, rfold (scan_package s) acc l = Ok b ->
  (acc = true -> b = true) /\
  (b = false -> forall kp e, kp ∈ l -> UninstallEnabled (Some kp.2) = true -> e ∈ sns_nodes s ->
     exists ns, sns_State e = Ok ns /\ ns !! pkg_UniqueName kp.2 = None).
Proof.
  induction l as [|kp l IH]; intros acc b; simpl.
  - intros [= ->]. split; [done|]. intros _ kp e He. by apply elem_of_nil in He.
  - intros (acc1 & H1 & H2)%rbind_ok. destruct (IH _ _ H2) as [Ht Hf]. unfold scan_package in H1.
    destruct (UninstallEnabled (Some kp.2)) eqn:Hu; simpl in H1.
    + destruct (scan_entries _ _ _ _ H1) as [Ht1 Hf1]. split; [by intros ->; apply Ht, Ht1|].
      intros -> kp' e [->|Hin]%elem_of_cons Hu' He; [|by apply Hf]. apply Hf1; [|done]. destruct acc1; [by specialize (Ht eq_refl)|done].
    + injection H1 as <-. split; [done|]. intros -> kp' e [->|Hin]%elem_of_cons Hu' He; [congruence|by apply Hf].
Qed.

Lemma pending_nothing s : pending_uninstall s = Ok false -> nothing_tracked s.
Proof.
  intros [_ H]%scan_packages k p e Hp Hu He. apply (H eq_refl (k, p) e); [|done|done]. by apply elem_of_range.
Qed.

(** The patches of the nodes in [l], which follow the calls [t], were taken. *)
Definition patches_taken (t l : list api_call) : Prop := forall a c b, l = a ++ c :: b ->
  exists node, c = PatchNode node /\ is_ok (sv_node srv (t ++ a) node) = true.

Definition node_patch (c : api_call) : Prop := match c with PatchNode _ => True | _ => False end.

Lemma taken_app t l l' : patches_taken t l -> patches_taken (t ++ l) l' -> patches_taken t (l ++ l').
Proof.
  intros H H' a c b E. apply app_eq_app in E as (z & [[-> Hz]|[-> Hz]]).
  - destruct z as [|c' z].
    + simpl in Hz. subst l'. rewrite app_nil_r in *. specialize (H' [] c b eq_refl). by rewrite app_nil_r in H'.
    + injection Hz as -> ->. by apply (H a c' z).
  - apply (H' z c b) in Hz as (node & -> & Hok). exists node. by rewrite app_assoc.
Qed.

Lemma release_node_run errs name s :
  let '(s', r) := release_node errs name s in
  exists l, trace s' = trace s ++ l /\ Forall node_patch l /\
    forall errs', r = Ok errs' -> exists new, errs' = errs ++ new /\ (new = [] -> patches_taken (trace s) l).
Proof.
  unfold release_node, bind at 1, modify. unfold bind at 1, gets. cbn [id trace mem].
  set (m := with_node name clean_node (mem s)).
  assert (Hnone : forall r, r = ret errs {| trace := trace s; mem := m |} ->
    let '(s', r) := r in exists l, trace s' = trace s ++ l /\ Forall node_patch l /\
    forall errs', r = Ok errs' -> exists new, errs' = errs ++ new /\ (new = [] -> patches_taken (trace s) l)).
  { intros r ->. exists []. rewrite app_nil_r. split_and!; [done|done|]. intros errs' [= <-]. exists []. rewrite app_nil_r. split; [done|].
    intros _ a c b E. by destruct a. }
  destruct (negb (changed_of m name)); [by apply Hnone|].
  unfold bind, try, wrap, at_node. cbn [mem trace]. destruct (find_entry m name) as [e|].
  2: { exists []. rewrite app_nil_r. done. }
  unfold patch_object, bind, gets, patch_node, call, modify. cbn [id mem trace full_Only as_node].
  set (n := sn_Node (ne_Only e)).
  destruct (sv_node srv (trace s) n) as [answer|err|] eqn:Hsv; unfold ret; cbn [fst snd rwrap trace mem option_list]; exists [PatchNode n];
    (split_and!; [done|by repeat constructor|]); intros errs' [= <-]; eexists; (split; [done|]); try done.
  intros _ a c b E. destruct a as [|x a]; [|by destruct a]. injection E as <- <-. exists n. rewrite app_nil_r, Hsv. done.
Qed.

Lemma release_nodes_run names : forall errs s,
  let '(s', r) := loop release_node errs names s in
  exists l, trace s' = trace s ++ l /\ Forall node_patch l /\
    forall errs', r = Ok errs' -> exists new, errs' = errs ++ new /\ (new = [] -> patches_taken (trace s) l).
Proof.
  induction names as [|name names IH]; intros errs s; simpl.
  - exists []. rewrite app_nil_r. split_and!; [done|done|]. intros errs' [= <-]. exists []. rewrite app_nil_r. split; [done|].
    intros _ a c b E. by destruct a.
  - unfold bind. pose proof (release_node_run errs name s) as H1. destruct (release_node errs name s) as [s1 r1].
    destruct H1 as (l1 & Hl1 & Hp1 & Hr1). destruct r1 as [errs1|e|]; [|by exists l1..].
    destruct (Hr1 _ eq_refl) as (new1 & -> & Hn1). specialize (IH (errs ++ new1) s1).
    destruct (loop release_node (errs ++ new1) names s1) as [s2 r2]. destruct IH as (l2 & Hl2 & Hp2 & Hr2).
    exists (l1 ++ l2). rewrite Hl2, Hl1, app_assoc, Forall_app. split_and!; [done|done|done|].
    intros errs' Hr. destruct (Hr2 _ Hr) as (new2 & -> & Hn2). exists (new1 ++ new2). rewrite app_assoc. split; [done|].
    intros [-> ->]%app_nil. apply taken_app; [by apply Hn1|]. rewrite <- Hl1. by apply Hn2.
Qed.

Definition writes_nodewright (c : api_call) : bool := match c with PatchNodeWright _ => true | _ => false end.

(** What [HandleFinalizer] may do to the finalizers when the resource is deleted:
    one write, the last one, after everything else was taken. *)
Definition released (t0 : list api_call) (t : list api_call) (r : res bool) : Prop :=
  (forall nw, PatchNodeWright nw ∈ t ->
    ContainsFinalizer nw = false /\
    exists nodes st, t = nodes ++ [UpdateStatus st; PatchNodeWright nw] /\ patches_taken t0 nodes /\
      is_ok (sv_nodewright srv (t0 ++ nodes) st) = true) /\
  (forall b, r = Ok b -> b = true ->
    exists nw before, t = before ++ [PatchNodeWright nw] /\ is_ok (sv_nodewright srv (t0 ++ before) nw) = true).

Lemma released_quiet t0 t r : Forall (fun c => writes_nodewright c = false) t -> r <> Ok true -> released t0 t r.
Proof.
  intros H Hr. split; [|by intros b -> ->]. intros nw Hin. rewrite Forall_forall in H. by apply H in Hin.
Qed.

Lemma RemoveFinalizer_contains nw : ContainsFinalizer (RemoveFinalizer nw) = false.
Proof.
  apply bool_decide_eq_false. unfold RemoveFinalizer. simpl. rewrite list_elem_of_In, filter_In. intros [_ H].
  by rewrite bool_decide_eq_true_2 in H.
Qed.

Lemma patches_quiet l : Forall node_patch l -> Forall (fun c => writes_nodewright c = false) l.
Proof. intros H. eapply Forall_impl; [exact H|]. by intros []. Qed.

Lemma release_resource_run s :
  let '(s', r) := release_resource s in exists t, trace s' = trace s ++ t /\ released (trace s) t r.
Proof.
  unfold release_resource, bind at 1, gets. cbn [id]. unfold bind at 1.
  pose proof (release_nodes_run (node_names (mem s)) [] s) as H. destruct (loop release_node [] _ s) as [s1 r1].
  destruct H as (nodes & Ht & Hp & Hr). apply patches_quiet in Hp as Hq.
  destruct r1 as [errs|e|]; [|exists nodes; split; [done|by apply released_quiet]..].
  destruct (Hr _ eq_refl) as (new & Hnew & Htaken). simpl in Hnew. subst new. unfold bind at 1, lift.
  destruct errs as [|e errs]; cbn [aggregate]; [|exists nodes; split; [done|by apply released_quiet]].
  unfold bind at 1, wrap. rewrite write_resource_run. cbv zeta. set (st := sk_nw (sns_skyhook (mem s1))).
  destruct (sv_nodewright srv (trace s1) st) as [answer|e|] eqn:Hst; cbn [fst snd rwrap].
  2, 3: exists (nodes ++ [UpdateStatus st]); rewrite Ht, app_assoc; split; [done|];
    (apply released_quiet; [apply Forall_app; split; [done|by repeat constructor]|done]).
  unfold bind at 1, modify. cbn [trace mem]. unfold bind. rewrite write_resource_run. cbn [mem trace].
  set (nw := sk_nw _). assert (Hnw : ContainsFinalizer nw = false) by apply RemoveFinalizer_contains.
  assert (Hgoal : forall r, (forall b, r = Ok b -> b = true -> is_ok (sv_nodewright srv (trace s1 ++ [UpdateStatus st]) nw) = true) ->
    exists t, (trace s1 ++ [UpdateStatus st]) ++ [PatchNodeWright nw] = trace s ++ t /\ released (trace s) t r).
  { intros r Hok. exists (nodes ++ [UpdateStatus st; PatchNodeWright nw]). rewrite Ht. split; [by rewrite <- !app_assoc|]. split.
    - intros nw' Hin. assert (nw' = nw) as ->.
      { apply elem_of_app in Hin as [Hin|[[=]|[[= ->]|[]%elem_of_nil]%elem_of_cons]%elem_of_cons]; [|done].
        rewrite Forall_forall in Hq. by apply Hq in Hin. }
      split; [done|]. exists nodes, st. split; [done|]. split; [by apply Htaken|]. by rewrite <- Ht, Hst.
    - intros b Hb Hb'. exists nw, (nodes ++ [UpdateStatus st]). rewrite <- app_assoc. split; [done|]. rewrite app_assoc, <- Ht. by eapply Hok. }
  destruct (sv_nodewright srv (trace s1 ++ [UpdateStatus st]) nw); cbn [fst snd rwrap]; (apply Hgoal; done).
Qed.

Lemma save_all_quiet s : exists t, trace (save_all srv opts original now s).1 = trace s ++ t /\
  Forall (fun c => writes_nodewright c = false) t.
Proof.
  unfold save_all, bind at 1. pose proof (SaveNodesAndSkyhook_order srv opts original now s) as H.
  destruct (SaveNodesAndSkyhook _ _ _ _ s) as [s1 r1]. destruct H as (nodes & status & Ht & Hn & Hst & _).
  assert (Hq : Forall (fun c => writes_nodewright c = false) (nodes ++ status)).
  { apply Forall_app. split; [eapply Forall_impl; [exact Hn|by intros []]|]. destruct Hst as [->|(nw & ->)]; by repeat constructor. }
  exists (nodes ++ status). split; [|exact Hq]. rewrite <- Ht.
  destruct r1 as [[saved errs]|e|]; [|done..]. unfold bind, lift. by destruct (aggregate errs).
Qed.

(** A run that leaves the resource's metadata alone. *)
Definition holds_back (s s' : Effects.pass api_call skyhookNodes) (r : res bool) : Prop :=
  exists t, trace s' = trace s ++ t /\ Forall (fun c => writes_nodewright c = false) t /\ r <> Ok true.

Lemma block_then reason message (r : res bool) s s' r' : r <> Ok true ->
  bind (block_deletion reason message) (fun _ => lift r) s = (s', r') -> holds_back s s' r'.
Proof.
  intros Hr. unfold bind at 1, block_deletion, modify, bind. cbn [trace mem].
  set (s1 := {| trace := trace s; mem := _ |}). destruct (save_all_quiet s1) as (t & Ht & Hq).
  destruct (save_all srv opts original now s1) as [s2 r2]. simpl in Ht.
  destruct r2; cbn [ret lift]; intros [= <- <-]; by exists t.
Qed.

Lemma HandleFinalizer_deleted s s' r : beingDeleted (mem s) = true -> ContainsFinalizer (sk_nw (sns_skyhook (mem s))) = true ->
  HandleFinalizer s = (s', r) ->
  holds_back s s' r \/ (nothing_tracked (mem s) /\ exists m, release_resource {| trace := trace s; mem := m |} = (s', r)).
Proof.
  intros Hd Hf. unfold HandleFinalizer, bind at 1, gets. cbn [id]. rewrite Hd, Hf. cbn [negb].
  assert (Hhere : forall p r' , trace p = trace s -> r' <> Ok true -> (p, r') = (s', r) -> holds_back s s' r).
  { intros p r' Hp Hr [= <- <-]. exists []. by rewrite app_nil_r. }
  destruct (pending_uninstall (mem s)) as [pending|e|] eqn:Hp.
  - destruct (sns_IsPaused (mem s) && pending); [intros E; left; exact (block_then _ _ (Ok false) s s' r ltac:(done) E)|].
    destruct (sns_IsDisabled (mem s) && pending); [intros E; left; exact (block_then _ _ (Ok false) s s' r ltac:(done) E)|].
    destruct pending; [intros E; left; exact (Hhere {| trace := trace s; mem := _ |} (Ok false) eq_refl ltac:(done) E)|]. intros E. right. split; [by apply pending_nothing|]. eexists. exact E.
  - intros E. left. exact (block_then _ _ (Err e) s s' r ltac:(done) E).
  - intros E. left. exact (Hhere s Panic eq_refl ltac:(done) E).
Qed.

(* ------------------------------------------------------------------ *)
(** ** Property *)

(** C19: A deleted resource is let go last.  A resource that is not being deleted
    gets the finalizer, and nothing takes it away.  One that is being deleted
    loses it only in the last write of [HandleFinalizer], and only if, for every
    package with uninstall enabled, the state of every node can be read and does
    not track the package, the server took the patch of every node that was
    cleaned, and the final status was written before; a result of true says that
    this write was taken.  Without the finalizer nothing is done.  When no package
    has uninstall enabled, no state is read: see
    [released_with_malformed_state]. *)
Theorem HandleFinalizer_spec (s : Effects.pass api_call skyhookNodes) :
  let nw := sk_nw (sns_skyhook (mem s)) in
  let '(s', r) := HandleFinalizer s in
  exists t, trace s' = trace s ++ t /\
    (beingDeleted (mem s) = false ->
      r <> Ok true /\ (forall nw', PatchNodeWright nw' ∈ t -> ContainsFinalizer nw' = true) /\
      (ContainsFinalizer nw = false -> exists nw', t = [PatchNodeWright nw'])) /\
    (beingDeleted (mem s) = true ->
      (ContainsFinalizer nw = false -> t = [] /\ r = Ok false) /\
      (ContainsFinalizer nw = true -> released (trace s) t r /\
         ((exists nw', PatchNodeWright nw' ∈ t) -> nothing_tracked (mem s)))).
Proof.
  cbv zeta. destruct (beingDeleted (mem s)) eqn:Hd.
  - destruct (ContainsFinalizer (sk_nw (sns_skyhook (mem s)))) eqn:Hf.
    + destruct (HandleFinalizer s) as [s' r] eqn:E0.
      destruct (HandleFinalizer_deleted s s' r Hd Hf E0) as [(t & Ht & Hq & Hr)|[Hn (m & E)]].
      * exists t. split; [exact Ht|]. split; [done|]. intros _. split; [done|]. intros _.
        split; [by apply released_quiet|]. intros (nw & Hin). rewrite Forall_forall in Hq. by apply Hq in Hin.
      * pose proof (release_resource_run {| trace := trace s; mem := m |}) as H.
        rewrite E in H. destruct H as (t & Ht & Hrel). by exists t.
    + unfold HandleFinalizer, bind, gets. cbn [id]. rewrite Hd, Hf. cbn [negb ret]. exists []. by rewrite app_nil_r.
  - unfold HandleFinalizer, bind at 1, gets. cbn [id]. rewrite Hd. cbn [negb].
    destruct (ContainsFinalizer (sk_nw (sns_skyhook (mem s)))) eqn:Hf.
    + cbn [ret]. exists []. rewrite app_nil_r. split; [done|]. split; [|done]. intros _. split; [done|]. split; [|done].
      intros nw' Hin. by apply elem_of_nil in Hin.
    + unfold bind at 1, modify. cbn [trace mem]. unfold bind, wrap. rewrite write_resource_run. cbn [mem trace].
      set (nw := sk_nw _).
      assert (Hnw : ContainsFinalizer nw = true).
      { change nw with (AddFinalizer (sk_nw (sns_skyhook (mem s)))). unfold AddFinalizer. rewrite Hf.
        apply bool_decide_eq_true. simpl. apply elem_of_app. right. by left. }
      assert (Hgoal : forall r : res bool, r <> Ok true -> exists t, trace s ++ [PatchNodeWright nw] = trace s ++ t /\
        (false = false -> r <> Ok true /\ (forall nw', PatchNodeWright nw' ∈ t -> ContainsFinalizer nw' = true) /\
          (false = false -> exists nw', t = [PatchNodeWright nw'])) /\ (false = true -> 
          (false = false -> t = [] /\ r = Ok false) /\
          (false = true -> released (trace s) t r /\ ((exists nw', PatchNodeWright nw' ∈ t) -> nothing_tracked (mem s))))).
      { intros r Hr. exists [PatchNodeWright nw]. split; [done|]. split; [|done]. intros _. split; [done|]. split; [|by eexists].
        by intros nw' [= ->]%list_elem_of_singleton. }
      destruct (sv_nodewright srv (trace s) nw); cbn [fst snd rwrap ret]; (apply Hgoal; done).
Qed.

End Finalizer.

(* ------------------------------------------------------------------ *)
(** ** Example *)

#[local] Existing Instance braced_json.
#[local] Existing Instance merge_strings.
#[local] Existing Instance example_time.
#[local] Existing Instance blank_encoding.
#[local] Existing Instance no_selectors.

Definition malformed_node : Node :=
  {| n_Name := "node1"; n_UID := "u1"; n_CreationTimestamp := 0; n_Labels := ∅;
     n_Annotations := {[node_key "nodeState" "tuning" := "not a state"]}; n_Taints := [];
     n_Unschedulable := false; n_Conditions := []; n_BootID := "b1" |}.

Definition deleted_nodewright (p : Package) : NodeWright :=
  let nw := plain_nodewright "tuning" (plain_spec {["tools" := p]}) empty_status in
  {| nw_Name := nw_Name nw; nw_UID := nw_UID nw; nw_Generation := nw_Generation nw; nw_CreationTimestamp := 0;
     nw_DeletionTimestamp := Some 1; nw_Finalizers := [SkyhookFinalizer]; nw_Annotations := ∅; Spec := Spec nw; nw_Status := nw_Status nw |}.

Definition finalized (p : Package) : option (Effects.pass api_call skyhookNodes * res bool) :=
  match BuildState 0 [deleted_nodewright p] [malformed_node] [] with
  | Ok [s] => Some (HandleFinalizer quiet_server default_options (fun _ => Some malformed_node) 0 {| trace := []; mem := s |})
  | _ => None
  end.

Definition with_uninstall (p : Package) : Package :=
  {| pkg_Ref := pkg_Ref p; pkg_Image := pkg_Image p; pkg_ContainerSHA := pkg_ContainerSHA p;
     pkg_AgentImageOverride := pkg_AgentImageOverride p; pkg_Interrupt := pkg_Interrupt p; pkg_DependsOn := pkg_DependsOn p;
     pkg_ConfigInterrupts := pkg_ConfigInterrupts p; pkg_ConfigMap := pkg_ConfigMap p; pkg_Env := pkg_Env p;
     pkg_Resources := pkg_Resources p; pkg_GracefulShutdown := pkg_GracefulShutdown p;
     pkg_StageTimeout := pkg_StageTimeout p; pkg_Uninstall := Some {| un_Enabled := true; un_Apply := false |} |}.

(** [docs/user-guide/uninstall.md] says that a node state that cannot be read on
    any node blocks the deletion.  It does when a package has uninstall enabled;
    when none has, the resource is let go. *)
Example released_with_malformed_state :
  (exists p, finalized tools = Some (p, Ok true) /\ any writes_nodewright (trace p) = true) /\
  (exists p e, finalized (with_uninstall tools) = Some (p, Err e) /\ any writes_nodewright (trace p) = false).
Proof. split; [eexists|eexists _, _]; (split; [by vm_compute|]); by vm_compute. Qed.
