(* ===== verification/Cluster.v ===== *)
(** * The resources of a pass

    The memory of a reconcile pass: the resources, in their order, and the node
    picker, with the ways to run a program on one of them. *)

From S2P Require Import Prelude Effects Graph DeploymentPolicy Api NodeState Skyhook Node ClusterState Introspect Drain Merge Jobs JobBuilder Server.

#[local] Open Scope Z_scope.
#[local] Open Scope go_scope.

(* ------------------------------------------------------------------ *)
(** ** The cluster *)

Record cluster := { cl_resources : list skyhookNodes; cl_picker : NodePicker }.

Definition set_cl_resources (rs : list skyhookNodes) (c : cluster) : cluster := {| cl_resources := rs; cl_picker := cl_picker c |}.
Definition set_cl_picker (np : NodePicker) (c : cluster) : cluster := {| cl_resources := cl_resources c; cl_picker := np |}.

(** Run a program on the resource at an index. *)
Definition at_resource {A} (i : nat) (m : M api_call skyhookNodes A) : M api_call cluster A := fun s =>
  match cl_resources (mem s) !! i with
  | None => (s, Panic)
  | Some r =>
      let '(p, a) := m {| trace := trace s; mem := r |} in
      ({| trace := trace p; mem := set_cl_resources (<[i := mem p]> (cl_resources (mem s))) (mem s) |}, a)
  end.

(** A step of the memory that can fail. *)
Definition step {S A} (f : S -> res (S * A)) : M api_call S A := fun s =>
  match f (mem s) with
  | Ok (m, a) => ({| trace := trace s; mem := m |}, Ok a)
  | Err e => (s, Err e)
  | Panic => (s, Panic)
  end.

Definition all_resources : M api_call cluster (list skyhookNodes) := gets cl_resources.
Definition resource (i : nat) : M api_call cluster skyhookNodes := at_resource i (gets id).

(** For every resource in order, by its index. *)
Definition each_resource {B} (f : B -> nat -> M api_call cluster B) (acc : B) : M api_call cluster B :=
  let* rs := all_resources in loop f acc (seq 0 (length rs)).
