(* ===== verification/Reboots.v ===== *)
(** * Reboots

    Models [TrackReboots] of [operator/internal/controller/skyhook_controller.go]
    for one resource ([track_resource]) and for all ([TrackReboots]).  The boot
    id of a node is kept in the status of each resource that has the node. *)

From S2P Require Import Prelude Effects Sha256 Graph Float64 DeploymentPolicy Api NodeState Skyhook Conditions Text Node Migration Compartment ClusterState Partition Introspect Drain Options Report Merge Jobs JobBuilder Server RuntimeRequired Executor Save Sweep Uninstall Frame Cluster.

#[local] Open Scope Z_scope.
#[local] Open Scope go_scope.

(** [skyhook.Status.NodeBootIds\[name\]] *)
Definition known_boot (s : skyhookNodes) (name : string) : option string := NodeBootIds (sk_Status (sns_skyhook s)) !! name.

Definition boot_of (s : skyhookNodes) (name : string) : string :=
  match find_entry s name with Some e => n_BootID (sn_Node (ne_Only e)) | None => "" end.

Definition record_boot (name : string) (s : skyhookNodes) : skyhookNodes :=
  on_skyhook (fun sk => touch (map_status (fun st =>
    set_NodeBootIds (<[name := boot_of s name]> (NodeBootIds st)) st) sk)) s.

Section Reboots.
Context `{MR : MapRange} `{JS : NodeStateJSON} `{TT : TimeText} `{TS : TaintSyntax}.
Context (srv : server) (opts : SkyhookOperatorOptions).

Local Notation P := (M api_call skyhookNodes).

(** The runtime-required taint, again, on a node that lost it. *)
Definition retaint (name : string) : P unit :=
  let* s := gets id in
  match find_entry s name with
  | Some e =>
      if RuntimeRequired (sns_Spec s) && AutoTaintNewNodes (sns_Spec s) then
        let* recognised := lift (GetRuntimeRequiredTaints opts) in
        if negb (hasAnyTaint (sn_Node (ne_Only e)) recognised) then
          let* taintToAdd := lift (GetRuntimeRequiredTaint opts) in
          let '(newNode, updated) := AddOrUpdateTaint (sn_Node (ne_Only e)) taintToAdd in
          if updated then
            modify (with_node name (fun f => set_object (set_n_Taints (n_Taints newNode) (sn_Node (full_Only f))) f))
          else ret tt
        else ret tt
      else ret tt
  | None => lift Panic
  end.

(** Write the reset, and only when it is written record the new boot id. *)
Definition persist_reset (updates : bool) (errs : list error) (name : string) : P (bool * list error) :=
  let* s := gets id in
  if changed_of s name then
    let* e := try (wrap "error patching node after reboot [%s]: %w" [name] (at_node name (patch_object srv PatchNode))) in
    match e with
    | Some e => ret (true, errs ++ [e])
    | None => let* _ := modify (record_boot name) in ret (true, errs)
    end
  else let* _ := modify (record_boot name) in ret (updates, errs).

(** A node that has rebooted. *)
Definition reapply (acc : bool * list error) (name : string) : P (bool * list error) :=
  let* _ := modify (with_node name Reset) in
  let* s := gets id in
  let* e := try (wrap "error clearing jobs after reboot on node %s: %w" [name] (deleteNodeJobs srv (sns_Name s) name)) in
  let* _ := retaint name in
  persist_reset acc.1 (acc.2 ++ option_list e) name.

Definition track_node (acc : bool * list error) (name : string) : P (bool * list error) :=
  let* s := gets id in
  match known_boot s name with
  | None => let* _ := modify (record_boot name) in ret acc
  | Some id =>
      if negb (bool_decide (id = "")) && negb (bool_decide (id = boot_of s name)) then
        if ReapplyOnReboot opts then reapply acc name
        else let* _ := modify (record_boot name) in ret acc
      else ret acc
  end.

Definition track_resource (acc : bool * list error) : P (bool * list error) :=
  let* s := gets id in
  let* acc := loop track_node acc (node_names s) in
  let* s := gets id in
  if Updated (sns_skyhook s) then
    let* e := try (wrap "error updating nodewright status after reboot [%s]: %w" [sns_Name s] (write_resource srv UpdateStatus)) in
    ret (true, acc.2 ++ option_list e)
  else ret acc.

Definition TrackReboots : M api_call cluster bool :=
  let* '(updates, errs) := each_resource (fun acc i => at_resource i (track_resource acc)) (false, []) in
  let* _ := lift (aggregate errs) in
  ret updates.

(* ------------------------------------------------------------------ *)
(** ** Lemmas *)

Lemma add_taint_in t acc updated l l' : add_taint t acc updated l = Some l' -> (updated = true -> t ∈ acc) -> t ∈ l'.
Proof.
  revert acc updated; induction l as [|x l IH]; intros acc updated; simpl.
  - intros [= <-]. destruct updated; [intros H; by apply H|]. intros _. apply elem_of_app. right. by left.
  - destruct (MatchTaint t x).
    + case_bool_decide; [done|]. intros Hl _. eapply IH; [exact Hl|]. intros _. apply elem_of_app. right. by left.
    + intros H Hu. eapply IH; [exact H|]. intros Hup. apply elem_of_app. left. by apply Hu.
Qed.

Lemma add_taint_none t acc updated l : add_taint t acc updated l = None -> t ∈ l.
Proof.
  revert acc updated; induction l as [|x l IH]; intros acc updated; simpl; [done|].
  destruct (MatchTaint t x); [case_bool_decide as E; [intros _; rewrite E; by left|]|]; intros H; right; by eapply IH.
Qed.

Lemma TaintExists_self l t : t ∈ l -> TaintExists l t = true.
Proof. intros H. apply any_true. exists t. split; [done|]. unfold MatchTaint. by rewrite !bool_decide_eq_true_2. Qed.

Lemma AddOrUpdateTaint_exists node t : TaintExists (n_Taints (AddOrUpdateTaint node t).1) t = true.
Proof.
  apply TaintExists_self. unfold AddOrUpdateTaint. destruct (add_taint t [] false (n_Taints node)) as [l|] eqn:E.
  - by eapply add_taint_in.
  - by eapply add_taint_none.
Qed.

(** The configured taint is the first of the recognised ones. *)
Lemma recognised_configured recognised t : GetRuntimeRequiredTaints opts = Ok recognised -> GetRuntimeRequiredTaint opts = Ok t ->
  t ∈ recognised.
Proof.
  intros H Ht. unfold GetRuntimeRequiredTaints in H. rewrite Ht in H. simpl in H.
  apply rbind_ok in H as (legacy & _ & [= <-]). case_match; by left.
Qed.

Lemma with_node_entry name g s e : find_entry s name = Some e -> (forall f, f_name (g f) = f_name f) ->
  find_entry (with_node name g s) name = Some (entry_of_node (g (as_node s e))).
Proof.
  intros He Hg. unfold with_node. rewrite He, find_entry_put.
  assert (Hn : f_name (g (as_node s e)) = name) by (rewrite Hg; by apply find_entry_name in He).
  change (entry_name (entry_of_node (g (as_node s e)))) with (f_name (g (as_node s e))). rewrite Hn, He.
  by rewrite bool_decide_eq_true_2.
Qed.

Lemma deleteNodeJobs_memory sky name : steps (updates eq) (@deleteNodeJobs srv skyhookNodes sky name).
Proof.
  unfold deleteNodeJobs, list_jobs, delete_job_foreground, must_if_present.
  apply steps_bind; [apply _| |intros jobs]; auto 12 with steps.
Qed.

Lemma deleteNodeJobs_trace sky name : steps (emits (fun _ => True)) (@deleteNodeJobs srv skyhookNodes sky name).
Proof.
  unfold deleteNodeJobs, list_jobs, delete_job_foreground, must_if_present.
  apply steps_bind; [apply _| |intros jobs]; auto 12 with steps.
Qed.

Definition is_update (c : api_call) : bool := match c with UpdateStatus _ => true | _ => false end.

Section Tracked.
Context (s0 : skyhookNodes) (t0 : list api_call).

Definition gated (n : Node) : Prop :=
  RuntimeRequired (sns_Spec s0) && AutoTaintNewNodes (sns_Spec s0) = true ->
  exists recognised, GetRuntimeRequiredTaints opts = Ok recognised /\ hasAnyTaint n recognised = true.

(** The server took a patch of the node without its package state and, where the
    resource gates new nodes, with the gate. *)
Definition reset_written (t : list api_call) (name : string) : Prop :=
  exists a n b, t = a ++ PatchNode n :: b /\ is_ok (sv_node srv (t0 ++ a) n) = true /\ n_Name n = name /\
    n_Annotations n !! nodeStateAnnotationKey (sns_Name s0) = None /\ gated n.

(** A boot id that is known is replaced only after a reset is written. *)
Definition ids_sound (ids : gmap string string) (t : list api_call) : Prop := forall name old,
  known_boot s0 name = Some old ->
  ids !! name = Some old \/ (old <> "" /\ (ReapplyOnReboot opts = true -> reset_written t name)).

(** The wrappers of the nodes carry the name of the resource. *)
Definition named (s : skyhookNodes) : Prop := forall e, e ∈ sns_nodes s -> sn_skyhookName (ne_Only e) = sns_Name s0.

Definition ids_of (s : skyhookNodes) : gmap string string := NodeBootIds (sk_Status (sns_skyhook s)).

Definition tracked_at (t : list api_call) (p : Effects.pass api_call skyhookNodes) : Prop :=
  trace p = t0 ++ t /\ steady s0 (mem p) /\ named (mem p) /\ ids_sound (ids_of (mem p)) t.

Definition tracked (p : Effects.pass api_call skyhookNodes) : Prop := exists t, tracked_at t p.

Lemma written_app t u name : reset_written t name -> reset_written (t ++ u) name.
Proof. intros (a & n & b & -> & H). exists a, n, (b ++ u). by rewrite <- app_assoc. Qed.

Lemma sound_app ids t u : ids_sound ids t -> ids_sound ids (t ++ u).
Proof. intros H name old Ho. destruct (H name old Ho) as [?|[? Hw]]; [by left|right; auto using written_app]. Qed.

Lemma named_put f s : named s -> sn_skyhookName (full_Only f) = sns_Name s0 -> named (put_node f s).
Proof.
  intros H Hf e He. unfold put_node in He. simpl in He. apply list_elem_of_fmap in He as (e' & -> & He').
  case_bool_decide; [exact Hf|by apply H].
Qed.

Lemma tracked_put t p name e f : tracked_at t p -> find_entry (mem p) name = Some e -> steady_node (as_node (mem p) e) f ->
  sn_skyhookName (full_Only f) = sn_skyhookName (ne_Only e) -> NodeBootIds (sk_Status (full_skyhook f)) = ids_of (mem p) ->
  forall u, tracked_at (t ++ u) {| trace := trace p ++ u; mem := put_node f (mem p) |}.
Proof.
  intros (Ht & Hst & Hn & Hs) He Hf Hname Hids u. split_and!; simpl.
  - by rewrite Ht, app_assoc.
  - etrans; [exact Hst|]. by eapply as_node_steady.
  - apply named_put; [done|]. rewrite Hname. apply Hn. by eapply find_entry_elem.
  - unfold ids_of. simpl. change (ids_sound (NodeBootIds (sk_Status (full_skyhook f))) (t ++ u)). rewrite Hids. by apply sound_app.
Qed.

Lemma tracked_record t p name : tracked_at t p ->
  (forall id, known_boot (mem p) name = Some id -> id <> "" /\ (ReapplyOnReboot opts = true -> reset_written t name)) ->
  tracked_at t {| trace := trace p; mem := record_boot name (mem p) |}.
Proof.
  intros (Ht & Hst & Hn & Hs) Hid. split_and!; [done| |exact Hn|].
  - etrans; [exact Hst|]. apply on_skyhook_steady, touch_map_only.
  - intros name' old Ho. change (ids_of _) with (<[name := boot_of (mem p) name]> (ids_of (mem p))).
    destruct (decide (name' = name)) as [->|Hne]; [|rewrite lookup_insert_ne by done; by apply Hs].
    right. destruct (Hs name old Ho) as [H|H]; [by apply Hid|done].
Qed.

Lemma tracked_calls t p p' : tracked_at t p -> mem p' = mem p -> (exists u, trace p' = trace p ++ u) ->
  exists u, tracked_at (t ++ u) p'.
Proof.
  intros (Ht & Hst & Hn & Hs) Hm (u & Hu). exists u. rewrite <- Hm in Hst, Hn, Hs. split_and!; [|done..|].
  - by rewrite Hu, Ht, app_assoc.
  - by apply sound_app.
Qed.

(** The wrapper of the node after [Reset]. *)
Definition cleared (s : skyhookNodes) (name : string) : Prop := exists e,
  find_entry s name = Some e /\ n_Annotations (sn_Node (ne_Only e)) !! nodeStateAnnotationKey (sns_Name s0) = None.

Lemma Reset_cleared f : n_Annotations (sn_Node (full_Only (Reset f))) !! nodeStateKey (full_Only f) = None.
Proof.
  unfold Reset. cbn [full_Only]. unfold drop_label, drop_annotation. simpl.
  repeat first [rewrite lookup_delete_eq; done | apply lookup_delete_None; first [by left|right]].
Qed.

Lemma retaint_tracked t p name p' r : tracked_at t p -> cleared (mem p) name -> retaint name p = (p', r) ->
  tracked_at t p' /\ (r = Ok tt -> ids_of (mem p') = ids_of (mem p) /\
    exists e, find_entry (mem p') name = Some e /\
      n_Annotations (sn_Node (ne_Only e)) !! nodeStateAnnotationKey (sns_Name s0) = None /\ gated (sn_Node (ne_Only e))).
Proof.
  intros Ht (e & He & Ha) H. unfold retaint, bind, gets, lift in H. cbn [id] in H. rewrite He in H.
  assert (Hspec : sns_Spec (mem p) = sns_Spec s0).
  { destruct Ht as (_ & [[st Hst] _] & _). unfold sns_Spec, sk_Spec. by rewrite Hst. }
  rewrite Hspec in H. destruct (_ && _) eqn:Hreq; [|injection H as <- <-; split; [done|]; intros _; split; [done|]; exists e; unfold gated; rewrite Hreq; done].
  destruct (GetRuntimeRequiredTaints opts) as [recognised|err|] eqn:Hrec; [|by (injection H as <- <-; split)..].
  destruct (hasAnyTaint (sn_Node (ne_Only e)) recognised) eqn:Hany; cbn [negb] in H.
  { injection H as <- <-. split; [done|]. intros _. split; [done|]. exists e. split; [done|]. split; [done|]. intros _. eauto. }
  destruct (GetRuntimeRequiredTaint opts) as [taint|err|] eqn:Hcfg; [|by (injection H as <- <-; split)..].
  pose proof (recognised_configured _ _ Hrec Hcfg) as Hin.
  assert (Hadd : forall node taints, TaintExists taints taint = true -> hasAnyTaint (set_n_Taints taints node) recognised = true).
  { intros node taints Hex. apply any_true. eauto. }
  pose proof (AddOrUpdateTaint_exists (sn_Node (ne_Only e)) taint) as Hex.
  destruct (AddOrUpdateTaint _ taint) as [newNode updated] eqn:E. simpl in Hex. destruct updated.
  - injection H as <- <-. unfold with_node. rewrite He. set (g := set_object _ _).
    pose proof (tracked_put t p name e g Ht He ltac:(by apply set_Only_steady) eq_refl eq_refl []) as Htr.
    rewrite !app_nil_r in Htr. split; [exact Htr|]. intros _. split; [done|].
    exists (entry_of_node g). split.
    { cbn [mem]. rewrite find_entry_put, He. change (entry_name (entry_of_node g)) with (entry_name e).
      by rewrite (find_entry_name _ _ _ He), bool_decide_eq_true_2. }
    split; [exact Ha|]. intros _. exists recognised. split; [done|]. by apply Hadd.
  - exfalso. apply not_true_iff_false in Hany. apply Hany, any_true. exists taint. split; [done|].
    unfold AddOrUpdateTaint in E. destruct (add_taint _ _ _ _); by injection E as <-.
Qed.

(** The memory with a change of one wrapper. *)
Lemma tracked_with t p name g : tracked_at t p -> (forall f, steady_node f (g f)) ->
  (forall f, sn_skyhookName (full_Only (g f)) = sn_skyhookName (full_Only f)) ->
  (forall f, NodeBootIds (sk_Status (full_skyhook (g f))) = NodeBootIds (sk_Status (full_skyhook f))) ->
  tracked_at t {| trace := trace p; mem := with_node name g (mem p) |} /\ ids_of (with_node name g (mem p)) = ids_of (mem p).
Proof.
  intros Ht Hg Hn Hi. unfold with_node. destruct (find_entry (mem p) name) as [e|] eqn:He; [|by destruct p].
  pose proof (tracked_put t p name e (g (as_node (mem p) e)) Ht He (Hg _) (Hn _) (Hi _) []) as Htr. rewrite !app_nil_r in Htr.
  split; [exact Htr|]. exact (Hi (as_node (mem p) e)).
Qed.

Lemma Reset_ids f : NodeBootIds (sk_Status (full_skyhook (Reset f))) = NodeBootIds (sk_Status (full_skyhook f)).
Proof. done. Qed.

Lemma Reset_skyhookName f : sn_skyhookName (full_Only (Reset f)) = sn_skyhookName (full_Only f).
Proof. done. Qed.

Lemma patch_run name e p : find_entry (mem p) name = Some e ->
  let n := sn_Node (ne_Only e) in
  let t := trace p ++ [PatchNode n] in
  at_node name (patch_object srv PatchNode) p =
  match sv_node srv (trace p) n with
  | Ok answer => ({| trace := t; mem := put_node (set_object (receive answer n) (as_node (mem p) e)) (mem p) |}, Ok tt)
  | Err err => ({| trace := t; mem := put_node (as_node (mem p) e) (mem p) |}, Err err)
  | Panic => ({| trace := t; mem := put_node (as_node (mem p) e) (mem p) |}, Panic)
  end.
Proof.
  intros He. cbv zeta. unfold at_node. rewrite He. unfold patch_object, bind, gets, patch_node, call, modify. cbn [id mem trace].
  by destruct (sv_node srv (trace p) _).
Qed.

Lemma persist_tracked updates errs name t p e : tracked_at t p -> find_entry (mem p) name = Some e ->
  n_Annotations (sn_Node (ne_Only e)) !! nodeStateAnnotationKey (sns_Name s0) = None -> gated (sn_Node (ne_Only e)) ->
  sn_updated (ne_Only e) = true -> forall old, known_boot (mem p) name = Some old -> old <> "" ->
  tracked (persist_reset updates errs name p).1.
Proof.
  intros Ht He Ha Hg Hup old Hold Hne. unfold persist_reset, bind at 1, gets at 1. cbn [id].
  unfold changed_of. rewrite He, Hup. unfold bind at 1, try, wrap. rewrite (patch_run name e p He).
  set (n := sn_Node (ne_Only e)).
  assert (Hsame : tracked_at (t ++ [PatchNode n]) {| trace := trace p ++ [PatchNode n]; mem := put_node (as_node (mem p) e) (mem p) |}).
  { apply (tracked_put t p name e); try done. }
  destruct (sv_node srv (trace p) n) as [answer|err|] eqn:Hsv; cbn [fst snd rwrap].
  - unfold bind, modify. cbn [fst trace mem ret].
    set (p1 := {| trace := trace p ++ [PatchNode n];
                  mem := put_node (set_object (receive answer n) (as_node (mem p) e)) (mem p) |}).
    assert (H1 : tracked_at (t ++ [PatchNode n]) p1) by (apply (tracked_put t p name e); try done; by apply set_Only_steady).
    exists (t ++ [PatchNode n]). apply (tracked_record _ p1); [exact H1|].
    intros id Hid. assert (id = old) as -> by (change (known_boot (mem p) name = Some id) in Hid; congruence).
    split; [exact Hne|]. intros _. exists t, n, []. split; [done|]. destruct Ht as (Ht & _). rewrite <- Ht, Hsv.
    split_and!; [done|by apply find_entry_name in He|exact Ha|exact Hg].
  - eexists. exact Hsame.
  - eexists. exact Hsame.
Qed.

(** The wrapper of a node that waits for its reset to be written. *)
Lemma retaint_updated name p p' r : retaint name p = (p', r) -> changed_of (mem p') name = changed_of (mem p) name.
Proof.
  unfold retaint, bind, gets, lift. cbn [id]. destruct (find_entry (mem p) name) as [e|] eqn:He; [|by intros [= <- _]].
  destruct (_ && _); [|by intros [= <- _]]. destruct (GetRuntimeRequiredTaints opts); [|by intros [= <- _]..].
  destruct (negb _); [|by intros [= <- _]]. destruct (GetRuntimeRequiredTaint opts) as [taint| |]; [|by intros [= <- _]..].
  destruct (AddOrUpdateTaint _ taint) as [newNode []]; [|by intros [= <- _]]. intros [= <- _]. cbn [mem].
  unfold changed_of. set (g := fun f => _). rewrite (with_node_entry name g _ _ He) by done. by rewrite He.
Qed.

Lemma reapply_tracked acc name t p old : tracked_at t p -> known_boot (mem p) name = Some old -> old <> "" ->
  tracked (reapply acc name p).1.
Proof.
  intros Ht Hold Hne. unfold reapply.
  destruct (tracked_with t p name Reset Ht Reset_steady Reset_skyhookName Reset_ids) as [Ht1 Hids1].
  set (p1 := {| trace := trace p; mem := with_node name Reset (mem p) |}) in *.
  unfold bind at 1, modify at 1. fold p1. unfold bind at 1, gets at 1. cbn [id]. unfold bind at 1, try, wrap.
  set (jobs := deleteNodeJobs srv _ _ p1).
  pose proof (deleteNodeJobs_memory (sns_Name (mem p1)) name p1) as Hm2. unfold updates in Hm2.
  destruct (deleteNodeJobs_trace (sns_Name (mem p1)) name p1) as (u & Hu & _). fold jobs in Hm2, Hu.
  destruct (tracked_calls t p1 jobs.1 Ht1 (eq_sym Hm2)) as [u' Ht2]; [by exists u|].
  assert (Hgo : forall errs, tracked ((let* _ := retaint name in persist_reset acc.1 errs name) jobs.1).1).
  2: { fold jobs. destruct jobs as [p2 [a|e|]]; cbn [fst snd rwrap]; [apply Hgo|apply Hgo|by exists (t ++ u')]. }
  intros errs. destruct (find_entry (mem p) name) as [e|] eqn:He.
  - assert (Hc : cleared (mem jobs.1) name).
    { rewrite <- Hm2. eexists. split; [apply with_node_entry; [exact He|intros f; apply (Reset_steady f)]|].
      replace (nodeStateAnnotationKey _) with (nodeStateKey (full_Only (as_node (mem p) e))); [apply Reset_cleared|].
      destruct Ht as (_ & _ & Hn & _). unfold nodeStateAnnotationKey. rewrite <- (Hn e) by by eapply find_entry_elem. done. }
    destruct (retaint name jobs.1) as [p3 r] eqn:Hr. unfold bind. rewrite Hr.
    destruct (retaint_tracked _ _ _ _ _ Ht2 Hc Hr) as [Ht3 Hok]. destruct r as [[]|err|]; [|by eexists..].
    destruct (Hok eq_refl) as (Hids3 & e3 & He3 & Ha3 & Hg3).
    apply (persist_tracked acc.1 errs name _ p3 e3 Ht3 He3 Ha3 Hg3) with (old := old); [| |exact Hne].
    + apply retaint_updated in Hr. unfold changed_of in Hr. rewrite He3 in Hr. rewrite Hr, <- Hm2.
      unfold p1. cbn [mem]. rewrite (with_node_entry name Reset _ _ He) by (intros f; apply (Reset_steady f)). done.
    + unfold known_boot. fold (ids_of (mem p3)). rewrite Hids3, <- Hm2. unfold p1. cbn [mem]. rewrite Hids1. exact Hold.
  - assert (Hfind : find_entry (mem jobs.1) name = None) by (rewrite <- Hm2; unfold p1; cbn [mem]; unfold with_node; by rewrite He).
    assert (Hr : retaint name jobs.1 = (jobs.1, Panic)) by (unfold retaint, bind, gets, lift; cbn [id]; by rewrite Hfind).
    unfold bind. rewrite Hr. by eexists.
Qed.

Lemma track_node_tracked acc name p : tracked p -> tracked (track_node acc name p).1.
Proof.
  intros [t Ht]. unfold track_node, bind at 1, gets. cbn [id]. destruct (known_boot (mem p) name) as [old|] eqn:Hk.
  - destruct (negb (bool_decide (old = ""))) eqn:Hne; cbn [andb]; [|by eexists].
    apply negb_true_iff, bool_decide_eq_false in Hne. destruct (negb _); [|by eexists].
    destruct (ReapplyOnReboot opts) eqn:Hr; [by eapply reapply_tracked|].
    exists t. apply (tracked_record t p name Ht). intros id Hid. split; [congruence|]. by rewrite Hr.
  - exists t. apply (tracked_record t p name Ht). congruence.
Qed.

Lemma loop_tracked names acc p : tracked p -> tracked (loop track_node acc names p).1.
Proof.
  revert acc p; induction names as [|name names IH]; intros acc p Hp; simpl; [exact Hp|].
  unfold bind. pose proof (track_node_tracked acc name p Hp) as H1.
  destruct (track_node acc name p) as [p1 [a|e|]]; cbn [fst] in *; [by apply IH|exact H1..].
Qed.

Lemma tracking_quiet acc names : steps (emits (fun c => is_update c = false)) (loop track_node acc names).
Proof.
  apply steps_loop; [apply _|]. intros a name _. unfold track_node, reapply, persist_reset, retaint, deleteNodeJobs, list_jobs,
    delete_job_foreground, must_if_present.
  assert (Hp : steps (emits (fun c => is_update c = false)) (at_node name (patch_object srv PatchNode))).
  { intros s. unfold at_node. destruct (find_entry _ _) as [e|]; [|reflexivity].
    assert (Hq : steps (emits (fun c => is_update c = false)) (patch_object srv PatchNode)) by (unfold patch_object, patch_node; auto with steps).
    destruct (Hq {| trace := trace s; mem := as_node (mem s) e |}) as (t & H & Ht).
    destruct (patch_object _ _ _) as [q r]. exists t. by split. }
  auto 40 with steps.
Qed.

End Tracked.

(** A reboot is not forgotten before it is acted upon.  The status of a
    resource that a pass writes keeps the boot id it knew of a node, or, where
    nodes are to be set up again after a reboot, the pass has patched the node
    before, the server took the patch, and the node it sent carries no package
    state of the resource any more and, where the resource gates new nodes, a
    runtime-required taint again.  A reset that the server refuses leaves the old
    boot id, so the next pass sees the reboot again.  The status is written last,
    once. *)
Theorem reboot_waits_for_reset (acc : bool * list error) (p : Effects.pass api_call skyhookNodes)
    (Hn : named (mem p) (mem p)) :
  exists t u, trace (track_resource acc p).1 = trace p ++ t ++ u /\
    Forall (fun c => is_update c = false) t /\
    (u = [] \/ exists nw, u = [UpdateStatus nw] /\
       forall name old, known_boot (mem p) name = Some old ->
         NodeBootIds (nw_Status nw) !! name = Some old \/
         (old <> "" /\ (ReapplyOnReboot opts = true -> reset_written (mem p) (trace p) t name))).
Proof.
  assert (H0 : tracked (mem p) (trace p) p).
  { exists []. split_and!; [by rewrite app_nil_r|reflexivity|exact Hn|]. intros name old Ho. left. exact Ho. }
  unfold track_resource, bind at 1, gets at 1. cbn [id].
  destruct (loop_tracked _ _ (node_names (mem p)) acc p H0) as [t (Ht & _ & _ & Hs)].
  destruct (tracking_quiet acc (node_names (mem p)) p) as (t' & Ht' & Hq).
  rewrite Ht in Ht'. apply app_inv_head in Ht' as <-.
  unfold bind. destruct (loop track_node acc _ p) as [p1 [a|e|]]; cbn [fst] in *.
  2, 3: exists t, []; rewrite app_nil_r; auto.
  unfold gets. cbn [id]. destruct (Updated (sns_skyhook (mem p1))); [|exists t, []; rewrite app_nil_r; auto].
  unfold try, wrap. rewrite write_resource_run. cbv zeta. exists t, [UpdateStatus (sk_nw (sns_skyhook (mem p1)))].
  split; [|split; [exact Hq|right; by eexists]].
  rewrite Ht, <- app_assoc. by destruct (sv_nodewright srv _ _).
Qed.

End Reboots.

(* ------------------------------------------------------------------ *)
(** ** Witness *)

#[local] Existing Instance example_json.
#[local] Existing Instance example_time.
#[local] Existing Instance example_syntax.

Definition reapplying : SkyhookOperatorOptions :=
  let o := default_options in
  {| Namespace := Namespace o; MaxInterval := MaxInterval o; ImagePullSecret := ""; CopyDirRoot := CopyDirRoot o;
     ReapplyOnReboot := true; RuntimeRequiredTaint := RuntimeRequiredTaint o; PauseImage := PauseImage o;
     AgentImage := AgentImage o; AgentLogRoot := AgentLogRoot o; LegacyCleanupDelay := LegacyCleanupDelay o;
     opt_JobTTLSucceeded := opt_JobTTLSucceeded o; opt_JobTTLFailed := opt_JobTTLFailed o;
     JobStageTimeout := JobStageTimeout o; JobBackoffLimit := JobBackoffLimit o |}.

(** The node is on boot [boot]; the resource has seen an earlier one. *)
Definition rebooted : skyhookNodes :=
  {| sns_skyhook := NewSkyhookWrapper (plain_nodewright "tuning" (required_spec false)
       (set_NodeBootIds {["n1" := "earlier"]} empty_status));
     sns_nodes := [{| ne_Only := {| sn_Node := bare_node "n1"; sn_skyhookName := "tuning"; sn_nodeState := Some ∅; sn_updated := false |};
                      ne_graph := Graph.New; ne_Updated := false |}];
     sns_priorStatus := StatusEmpty; sns_compartments := ∅; sns_deploymentPolicy := None |}.

Definition updates_sent (t : list api_call) : list NodeWright := omap (fun c => match c with UpdateStatus nw => Some nw | _ => None end) t.

Lemma reboot_waits_for_reset_witness :
  let p := {| trace := []; mem := rebooted |} in
  let p' := (track_resource quiet_server reapplying (false, []) p).1 in
  map (fun nw => NodeBootIds (nw_Status nw) !! "n1") (updates_sent (trace p')) = [Some "boot"] /\
  exists t, reset_written quiet_server reapplying rebooted [] t "n1".
Proof.
  cbv zeta. set (p := {| trace := []; mem := rebooted |}).
  assert (Hids : map (fun nw => NodeBootIds (nw_Status nw) !! "n1")
    (updates_sent (trace (track_resource quiet_server reapplying (false, []) p).1)) = [Some "boot"]) by (by vm_compute).
  split; [exact Hids|].
  destruct (reboot_waits_for_reset quiet_server reapplying (false, []) p) as (t & u & Ht & Hq & Hu).
  { intros e ->%list_elem_of_singleton. reflexivity. }
  exists t. rewrite Ht in Hids. unfold updates_sent in Hids. rewrite app_nil_l, omap_app, map_app in Hids.
  replace (omap _ t) with (@nil NodeWright) in Hids.
  2: { clear -Hq. induction Hq as [|c t Hc _ IH]; [done|]. destruct c; try discriminate Hc; exact IH. }
  destruct Hu as [->|(nw & -> & Hs)]; [done|]. simpl in Hids. injection Hids as Hnw.
  destruct (Hs "n1" "earlier" eq_refl) as [H|[_ H]]; [congruence|]. by apply H.
Defined.
