(* ===== verification/Legacy.v ===== *)
(** * From the old group to the new one

    Models the transition of the main controller from the group
    [skyhook.nvidia.com] in
    [operator/internal/controller/skyhook_controller.go] ([HandleMigrations],
    the workloads of the old operator, the stamp of the rollback window) and
    [operator/internal/controller/migration_hold.go].  The version of the binary
    is the parameter [VERSION]; one clock reading, [now], stands for those of a
    pass.  An object that the server returns has no annotations as a nil map. *)

From S2P Require Import Prelude Effects Graph DeploymentPolicy Api NodeState Skyhook Conditions Text Node Migration Ownership Compartment ClusterState Partition Introspect Drain Options Report Merge Jobs JobBuilder Server Executor Save Frame Cluster Webhook.

#[local] Open Scope Z_scope.
#[local] Open Scope go_scope.

(* ------------------------------------------------------------------ *)
(** ** Holding the cutover *)

(** [20 * time.Second] *)
Definition legacyMigrationHoldRequeue : Z := 20000000000.

Definition legacy_annotation (key : string) (sh : LegacySkyhook) : bool :=
  bool_decide (ls_Annotations sh !! (oldPrefix +:+ key) = Some "true").

Definition legacy_IsPaused : LegacySkyhook -> bool := legacy_annotation "pause".
Definition legacy_IsDisabled : LegacySkyhook -> bool := legacy_annotation "disable".

Definition legacy_in_flight (sh : LegacySkyhook) : bool :=
  if legacy_IsPaused sh || legacy_IsDisabled sh then false
  else negb (bool_decide (ls_Status sh ∈ [""; "complete"; "paused"; "disabled"])).

Definition inFlightLegacySkyhooks (answer : legacy_list) : res (list string) :=
  match answer with
  | NoSuchKind => Ok []
  | Unlisted e => Err (wrapf "listing legacy skyhooks for migration hold: %w" [] e)
  | Listed l => Ok (map ls_Name (List.filter legacy_in_flight l))
  end.

(** The requeue to hold with. *)
Definition legacyMigrationHold {S} (srv : server) : M api_call S (option Z) :=
  let* answer := list_legacy srv in
  ret (match inFlightLegacySkyhooks answer with Ok [] => None | _ => Some legacyMigrationHoldRequeue end).

(* ------------------------------------------------------------------ *)
(** ** What the old operator made *)

Definition legacyNodeMetaLabel : string := oldPrefix +:+ "skyhook-node-meta".
Definition legacyNameLabel : string := oldPrefix +:+ "name".
Definition legacyConfigMapLabelKeys : list string := [legacyNodeMetaLabel; legacyNameLabel].
Definition legacyMigratedAtAnnotation : string := METADATA_PREFIX +:+ "/legacy-migrated-at".

Section Labels.
Context `{MR : MapRange}.

(** A copy under the new prefix of every label under the old one. *)
Definition addNodeWrightMetaLabel (labels : gmap string string) : gmap string string * bool :=
  copyPrefixedMap labels oldPrefix newPrefix (fun _ => true).

Definition relabel (acc : gmap string string * bool) (kv : string * string) : gmap string string * bool :=
  match CutPrefix kv.1 oldPrefix with
  | None => acc
  | Some suffix => (<[newPrefix +:+ suffix := kv.2]> (delete kv.1 acc.1), true)
  end.

Definition relabelLegacyMetadataPrefix (labels : gmap string string) : gmap string string * bool :=
  foldl relabel (labels, false) (range labels).

(** What becomes of a config map, and whether to write it. *)
Definition adopt (prune : bool) (nodewright : NodeWright) (cm : ConfigMap) : ConfigMap * bool :=
  let '(owners, reparented) := reparentToNodeWright (cfg_OwnerReferences cm) nodewright in
  let '(labels, mutated) := if prune then relabelLegacyMetadataPrefix (cfg_Labels cm) else addNodeWrightMetaLabel (cfg_Labels cm) in
  ({| cfg_Name := cfg_Name cm; cfg_Labels := labels; cfg_Annotations := cfg_Annotations cm; cfg_Data := cfg_Data cm;
      cfg_OwnerReferences := owners |}, mutated || reparented).
End Labels.

Section Workloads.
Context `{MR : MapRange} {S : Type} (srv : server).

Local Notation P := (M api_call S).

Definition delete_legacy_pod (_ : bool) (pod : WorkloadPod) : P bool :=
  let* _ := wrap "deleting legacy-labeled pod [%s]: %w" [wp_Name pod]
              (must_if_present srv (RemovePod (wp_Namespace pod) (wp_Name pod) None)) in
  ret true.

(** The names seen; whether there was anything of the old operator, and whether
    anything was written. *)
Record sweep_state := { sw_seen : list string; sw_hadLegacy : bool; sw_changed : bool }.

Definition sweep_configmap (prune : bool) (nodewright : NodeWright) (acc : sweep_state) (cm : ConfigMap) : P sweep_state :=
  if bool_decide (cfg_Name cm ∈ sw_seen acc) then ret acc
  else
    let '(cm', mutated) := adopt prune nodewright cm in
    let* _ := if mutated then wrap "updating legacy configmap labels [%s]: %w" [cfg_Name cm] (must srv (UpdateConfigMap cm')) else ret tt in
    ret {| sw_seen := cfg_Name cm :: sw_seen acc; sw_hadLegacy := true; sw_changed := sw_changed acc || mutated |}.

Definition sweep_key (prune : bool) (nodewright : NodeWright) (acc : sweep_state) (labelKey : string) : P sweep_state :=
  let* cms := wrap "listing legacy-labeled configmaps by [%s] for nodewright [%s]: %w" [labelKey; nw_Name nodewright]
                (list_configmaps srv {[ labelKey := nw_Name nodewright ]}) in
  loop (sweep_configmap prune nodewright) acc cms.

Definition reconcileLegacyLabeledWorkloads (nodewright : NodeWright) (prune : bool) : P (bool * bool) :=
  let* pods := wrap "listing legacy-labeled pods for nodewright [%s]: %w" [nw_Name nodewright]
                 (list_labelled_pods srv {[ legacyNameLabel := nw_Name nodewright ]}) in
  let* changed := if prune then loop delete_legacy_pod false pods else ret false in
  let* acc := loop (sweep_key prune nodewright)
                {| sw_seen := []; sw_hadLegacy := (if pods then false else true); sw_changed := changed |} legacyConfigMapLabelKeys in
  ret (sw_hadLegacy acc, sw_changed acc).
End Workloads.

(* ------------------------------------------------------------------ *)
(** ** The rollback window *)

Definition set_stamp (value : string) (nw : NodeWright) : NodeWright :=
  set_nw_Annotations (<[legacyMigratedAtAnnotation := value]> (nw_Annotations nw)) nw.

Definition drop_stamp (nw : NodeWright) : NodeWright :=
  set_nw_Annotations (delete legacyMigratedAtAnnotation (nw_Annotations nw)) nw.

Definition stamp_of (nw : NodeWright) : string := default "" (nw_Annotations nw !! legacyMigratedAtAnnotation).

Definition legacyCleanupShouldPrune `{TT : TimeText} (stamp : string) (delay now : Z) : bool :=
  if delay <=? 0 then true
  else if bool_decide (stamp = "") then false
  else match time_Parse stamp with Ok t => negb (now <? t + delay) | _ => true end.

Section Migrations.
Context `{MR : MapRange} `{JS : NodeStateJSON} `{TT : TimeText} `{SE : Selectors} `{SV : Semver} `{QO : QuantityOrder}.
Context (VERSION : string) (srv : server) (opts : SkyhookOperatorOptions) (now : Z).

Local Notation P := (M api_call skyhookNodes).

(** A resource that is gone is a nil pointer that its annotations are read of. *)
Definition patchLegacyMigratedStamp {S} (name : string) (value : option string) : M api_call S unit :=
  let* read := wrap "getting nodewright to update legacy-migrated-at stamp [%s]: %w" [name] (read_nodewright srv name) in
  match read with
  | None => lift Panic
  | Some nw =>
      let write nw := let* _ := wrap "patching legacy-migrated-at stamp on [%s]: %w" [name]
                                 (write_nodewright srv PatchNodeWright nw) in ret tt in
      match value with
      | Some value => write (set_stamp value nw)
      | None => if bool_decide (nw_Annotations nw = ∅) then ret tt else write (drop_stamp nw)
      end
  end.

Definition anyNodeHasLegacyMetadata (s : skyhookNodes) : bool :=
  any (fun e => HasOperatorOwnedLegacyMetadata (sn_Node (ne_Only e)) (sns_Name s)) (sns_nodes s).

Definition reconcileLegacyMigratedStamp (prune hadLegacyWorkloads : bool) : P bool :=
  let* s := gets id in
  let stamp := stamp_of (sk_nw (sns_skyhook s)) in
  if prune then
    if negb (bool_decide (stamp = "")) && negb hadLegacyWorkloads && negb (anyNodeHasLegacyMetadata s) then
      let* _ := patchLegacyMigratedStamp (sns_Name s) None in ret true
    else ret false
  else if bool_decide (stamp = "") && (hadLegacyWorkloads || anyNodeHasLegacyMetadata s) then
    let* _ := patchLegacyMigratedStamp (sns_Name s) (Some (time_Format now)) in ret true
  else ret false.

(* ------------------------------------------------------------------ *)
(** ** The migrations of a pass *)

Definition prune_node (s : skyhookNodes) (name : string) : skyhookNodes :=
  with_node name (fun f => set_full_Only (pruneLegacyNodePrefix (full_Only f)).1 f) s.

(** The status, then the node; both are tried. *)
Definition patch_migrated (acc : bool * list error) (name : string) : P (bool * list error) :=
  let* s := gets id in
  if changed_of s name then
    let* e1 := try (wrap "error patching node [%s]: %w" [name] (at_node name (patch_object srv PatchNodeStatus))) in
    let* e2 := try (wrap "error patching node [%s]: %w" [name] (at_node name (patch_object srv PatchNode))) in
    ret (true, acc.2 ++ option_list e1 ++ option_list e2)
  else ret acc.

(** The status is updated, and the version is set on a fresh copy. *)
Definition save_version : P unit :=
  let* s := gets id in
  let name := sns_Name s in
  let* _ := wrap "error updating during migration nodewright status [%s]: %w" [name] (write_resource srv UpdateStatus) in
  let* newskyhook := wrap "error getting nodewright to migrate [%s]: %w" [name] (read_nodewright srv name) in
  match newskyhook with
  | None => lift Panic
  | Some nw =>
      let* _ := wrap "error updating during migration nodewright [%s]: %w" [name]
                  (write_nodewright srv PatchNodeWright (sk_nw (SetVersion VERSION (NewSkyhookWrapper nw)))) in
      ret tt
  end.

Definition migrate_resource (acc : bool * list error) : P (bool * list error) :=
  let* s := gets id in
  let name := sns_Name s in
  let* _ := wrap "error migrating nodewright [%s]: %w" [name]
              (step (fun s => rbind (sns_Migrate VERSION s) (fun s => Ok (s, tt)))) in
  let* s := gets id in
  let nw := sk_nw (sns_skyhook s) in
  let* _ := lift (rwrap "error validating nodewright [%s]: %w" [name] (NodeWright_Validate nw)) in
  let prune := legacyCleanupShouldPrune (stamp_of nw) (LegacyCleanupDelay opts) now in
  let* _ := modify (fun s => if prune then foldl prune_node s (node_names s) else s) in
  let* acc := loop patch_migrated acc (node_names s) in
  let* '(hadLegacyWorkloads, workloadsChanged) :=
    wrap "error reconciling legacy-labeled workloads for nodewright [%s]: %w" [name] (reconcileLegacyLabeledWorkloads srv nw prune) in
  let* s := gets id in
  let* saved := if Updated (sns_skyhook s) then let* _ := save_version in ret true else ret false in
  let* stamped := reconcileLegacyMigratedStamp prune hadLegacyWorkloads in
  ret (acc.1 || workloadsChanged || saved || stamped, acc.2).

Definition HandleMigrations : M api_call cluster bool :=
  if bool_decide (VERSION = "") then ret false
  else
    let* '(updates, errs) := each_resource (fun acc i => at_resource i (migrate_resource acc)) (false, []) in
    let* _ := lift (aggregate errs) in
    ret updates.
End Migrations.

(* ------------------------------------------------------------------ *)
(** ** Lemmas: labels *)

Section LabelLemmas.
Context `{MR : MapRange}.
Implicit Types (labels : gmap string string).

Lemma new_key_not_legacy x : CutPrefix (newPrefix +:+ x) oldPrefix = None.
Proof.
  destruct (CutPrefix (newPrefix +:+ x) oldPrefix) as [y|] eqn:E; [|done].
  apply CutPrefix_spec in E. symmetry in E. by apply prefixes_differ in E.
Qed.

Lemma legacy_key x : CutPrefix (oldPrefix +:+ x) oldPrefix = Some x.
Proof. by apply CutPrefix_spec. Qed.

(** The keys under the old prefix become keys under the new one; of the others
    those that a renamed key does not meet stay. *)
Lemma relabel_lookup l : forall (acc : gmap string string * bool), NoDup l.*1 -> forall k,
  (foldl relabel acc l).1 !! k =
    match CutPrefix k oldPrefix with
    | Some _ => if bool_decide (k ∈ l.*1) then None else acc.1 !! k
    | None => match List.find (fun kv => bool_decide (newPrefix +:+ default "" (CutPrefix kv.1 oldPrefix) = k) &&
                                   bool_decide (is_Some (CutPrefix kv.1 oldPrefix))) l with
              | Some kv => Some kv.2
              | None => acc.1 !! k
              end
    end.
Proof.
  induction l as [|[k0 v0] l IH]; intros acc Hnd k.
  { simpl. by destruct (CutPrefix k oldPrefix). }
  rewrite fmap_cons in Hnd. apply NoDup_cons in Hnd as [Hn Hnd]. simpl in Hn. cbn [foldl]. rewrite (IH _ Hnd). clear IH.
  unfold relabel. cbn [fst snd List.find]. destruct (CutPrefix k0 oldPrefix) as [x|] eqn:E0; cbn [fst default].
  - destruct (CutPrefix k oldPrefix) as [y|] eqn:Ek.
    + rewrite fmap_cons. cbn [fst]. destruct (decide (k = k0)) as [->|Hne].
      * rewrite (bool_decide_eq_true_2 (k0 ∈ k0 :: l.*1)) by by left. rewrite bool_decide_eq_false_2 by done.
        rewrite lookup_insert_ne, lookup_delete_eq; [done|]. intros E. rewrite <- E, new_key_not_legacy in E0. done.
      * rewrite lookup_insert_ne, lookup_delete_ne; [|done|].
        -- apply (f_equal (fun b : bool => if b then None else _)). apply bool_decide_ext. rewrite elem_of_cons. naive_solver.
        -- intros E. rewrite <- E, new_key_not_legacy in Ek. done.
    + destruct (decide (newPrefix +:+ x = k)) as [<-|Hne].
      * rewrite !bool_decide_eq_true_2 by (done || by eexists). cbn [andb].
        destruct (List.find _ l) as [kv|] eqn:Ef; [|by rewrite lookup_insert_eq].
        exfalso. apply find_some in Ef as [Hin%list_elem_of_In [H1 H2]%andb_true_iff].
        apply bool_decide_eq_true in H1, H2. destruct H2 as [z Hz]. rewrite Hz in H1. simpl in H1. apply append_inj_l in H1 as ->.
        apply CutPrefix_spec in E0, Hz. apply Hn. rewrite E0, <- Hz. by apply list_elem_of_fmap_2.
      * rewrite (bool_decide_eq_false_2 (_ = k)) by done. cbn [andb]. rewrite lookup_insert_ne by done.
        destruct (List.find _ l); [done|]. rewrite lookup_delete_ne; [done|]. intros ->. congruence.
  - rewrite (bool_decide_eq_false_2 (is_Some None)) by (by intros []). rewrite andb_false_r.
    destruct (CutPrefix k oldPrefix) as [y|] eqn:Ek; [|done]. rewrite fmap_cons. cbn [fst].
    apply (f_equal (fun b : bool => if b then None else _)). apply bool_decide_ext. rewrite elem_of_cons.
    split; [by right|]. intros [->|]; [congruence|done].
Qed.

Lemma relabel_flag l : forall (acc : gmap string string * bool), (foldl relabel acc l).2 = false ->
  acc.2 = false /\ (forall kv, kv ∈ l -> CutPrefix kv.1 oldPrefix = None) /\ foldl relabel acc l = acc.
Proof.
  induction l as [|kv l IH]; intros acc H; simpl in H |- *; [split_and!; [done|set_solver|done]|].
  apply IH in H as (H1 & H2 & H3). unfold relabel in *. destruct (CutPrefix kv.1 oldPrefix) eqn:E; [done|].
  split_and!; [done| |done]. intros kv' [->|Hin]%elem_of_cons; auto.
Qed.

Lemma relabel_none l : forall (acc : gmap string string * bool), (forall kv, kv ∈ l -> CutPrefix kv.1 oldPrefix = None) ->
  foldl relabel acc l = acc.
Proof.
  induction l as [|kv l IH]; intros acc H; simpl; [done|]. unfold relabel at 2. rewrite H by by left. apply IH.
  intros kv' Hin. apply H. by right.
Qed.

Lemma in_range_fst labels k : k ∈ (range labels).*1 <-> is_Some (labels !! k).
Proof.
  rewrite list_elem_of_fmap. split.
  - intros ([k' v] & -> & Hin%elem_of_range). by exists v.
  - intros [v Hv]. exists (k, v). split; [done|]. by apply elem_of_range.
Qed.

Lemma relabelLegacy_spec labels : let labels' := (relabelLegacyMetadataPrefix labels).1 in
  (forall x, labels' !! (oldPrefix +:+ x) = None) /\
  (forall x v, labels !! (oldPrefix +:+ x) = Some v -> labels' !! (newPrefix +:+ x) = Some v) /\
  (forall k, CutPrefix k oldPrefix = None -> (forall x, k = newPrefix +:+ x -> labels !! (oldPrefix +:+ x) = None) -> labels' !! k = labels !! k).
Proof.
  cbn zeta. unfold relabelLegacyMetadataPrefix. pose proof (NoDup_range labels) as Hnd. split_and!.
  - intros x. rewrite (relabel_lookup _ _ Hnd), legacy_key. cbn [fst]. case_bool_decide as H; [done|].
    rewrite in_range_fst in H. by apply eq_None_not_Some.
  - intros x v Hv. rewrite (relabel_lookup _ _ Hnd), new_key_not_legacy. destruct (List.find _ _) as [[k' v']|] eqn:Ef.
    + apply find_some in Ef as [Hin%list_elem_of_In [H1 H2]%andb_true_iff]. apply bool_decide_eq_true in H1, H2.
      destruct H2 as [z Hz]. cbn [fst] in *. rewrite Hz in H1. cbn [default id] in H1. apply append_inj_l in H1 as ->. apply CutPrefix_spec in Hz as ->.
      apply elem_of_range in Hin. simpl. congruence.
    + exfalso. apply elem_of_range, list_elem_of_In in Hv. pose proof (find_none _ _ Ef _ Hv) as H. cbn [fst] in H.
      rewrite legacy_key in H. cbn [default id] in H. by rewrite !bool_decide_eq_true_2 in H by (done || by eexists).
  - intros k Hk Hno. rewrite (relabel_lookup _ _ Hnd), Hk. destruct (List.find _ _) as [[k' v']|] eqn:Ef; [|done].
    apply find_some in Ef as [Hin%list_elem_of_In [H1 H2]%andb_true_iff]. apply bool_decide_eq_true in H1, H2.
    destruct H2 as [z Hz]. cbn [fst] in *. rewrite Hz in H1. cbn [default id] in H1. apply CutPrefix_spec in Hz as ->. apply elem_of_range in Hin.
    symmetry in H1. rewrite (Hno z H1) in Hin. done.
Qed.

Lemma relabelLegacy_kept labels : (relabelLegacyMetadataPrefix labels).2 = false -> relabelLegacyMetadataPrefix labels = (labels, false).
Proof. intros H. by apply relabel_flag in H as (_ & _ & H). Qed.

Lemma relabelLegacy_again labels : let labels' := (relabelLegacyMetadataPrefix labels).1 in
  relabelLegacyMetadataPrefix labels' = (labels', false).
Proof.
  intros labels'. apply relabel_none. intros [k v] Hin%elem_of_range. cbn [fst].
  destruct (CutPrefix k oldPrefix) as [x|] eqn:E; [|done]. apply CutPrefix_spec in E as ->.
  destruct (relabelLegacy_spec labels) as (H & _). fold labels' in H. by rewrite H in Hin.
Qed.

Lemma copy_keys_flag l : forall (acc : gmap string string * bool),
  (foldl (copy_key (fun _ => true) oldPrefix newPrefix) acc l).2 = false ->
  foldl (copy_key (fun _ => true) oldPrefix newPrefix) acc l = acc.
Proof.
  induction l as [|k l IH]; intros acc H; simpl in *; [done|]. pose proof (IH _ H) as E. rewrite E in H |- *. clear IH E.
  revert H. unfold copy_key. by repeat case_match.
Qed.

Lemma addLabel_kept labels : (addNodeWrightMetaLabel labels).2 = false -> addNodeWrightMetaLabel labels = (labels, false).
Proof. apply copy_keys_flag. Qed.

Lemma addLabel_spec labels : let labels' := (addNodeWrightMetaLabel labels).1 in
  labels ⊆ labels' /\
  (forall x v, labels !! (oldPrefix +:+ x) = Some v -> labels' !! (newPrefix +:+ x) = Some (default v (labels !! (newPrefix +:+ x)))).
Proof.
  cbn zeta. unfold addNodeWrightMetaLabel. split.
  - apply map_subseteq_spec. intros k v Hk. by rewrite copyPrefixedMap_lookup, Hk.
  - intros x v Hv. rewrite copyPrefixedMap_lookup. destruct (labels !! (newPrefix +:+ x)); [done|]. by rewrite owned_suffix_app.
Qed.

Lemma addLabel_again labels : let labels' := (addNodeWrightMetaLabel labels).1 in
  addNodeWrightMetaLabel labels' = (labels', false).
Proof.
  intros labels'. destruct (addLabel_spec labels) as [_ H]. fold labels' in H.
  assert (Hall : forall k, k ∈ (range labels').*1 -> forall x, k = oldPrefix +:+ x -> is_Some (labels' !! (newPrefix +:+ x))).
  { intros k [v Hv]%in_range_fst x ->. unfold labels', addNodeWrightMetaLabel in Hv. rewrite copyPrefixedMap_lookup in Hv.
    destruct (labels !! (oldPrefix +:+ x)) as [w|] eqn:E; [by eexists; apply (H x w E)|]. by rewrite owned_suffix_other' in Hv. }
  unfold addNodeWrightMetaLabel, copyPrefixedMap. generalize (range labels').*1 as ks, Hall. clear H. intros ks Hks. revert Hks.
  induction ks as [|k ks IH]; intros Hks; simpl; [done|]. unfold copy_key at 2. cbn [fst].
  destruct (owned_suffix oldPrefix (fun _ => true) k) as [x|] eqn:E.
  - apply owned_suffix_spec in E as [-> _]. destruct (Hks (oldPrefix +:+ x) ltac:(by left) x eq_refl) as [v ->].
    apply IH. intros k' Hk'. apply Hks. by right.
  - apply IH. intros k' Hk'. apply Hks. by right.
Qed.

(** What a config map that was adopted is. *)
Record adopted (prune : bool) (nw : NodeWright) (cm cm' : ConfigMap) : Prop := {
  ad_same : cfg_Name cm' = cfg_Name cm /\ cfg_Data cm' = cfg_Data cm /\ cfg_Annotations cm' = cfg_Annotations cm;
  ad_owner : any legacy_owner (cfg_OwnerReferences cm') = false;
  ad_controller : IsControlledBy (cfg_OwnerReferences cm') nw = true \/
    exists o, controller_of (cfg_OwnerReferences cm') = Some o /\ o ∈ cfg_OwnerReferences cm /\
      legacy_owner o = false /\ referSameObject o (controllerRef nw) = false;
  ad_new : forall x v, cfg_Labels cm !! (oldPrefix +:+ x) = Some v ->
    cfg_Labels cm' !! (newPrefix +:+ x) = Some (if prune then v else default v (cfg_Labels cm !! (newPrefix +:+ x)));
  ad_old : forall x, cfg_Labels cm' !! (oldPrefix +:+ x) = if prune then None else cfg_Labels cm !! (oldPrefix +:+ x)
}.

Lemma adopt_spec prune nw cm : adopted prune nw cm (adopt prune nw cm).1 /\
  adopt prune nw (adopt prune nw cm).1 = ((adopt prune nw cm).1, false).
Proof.
  unfold adopt. destruct (reparent_spec (cfg_OwnerReferences cm) nw) as [Hl Hc].
  pose proof (reparent_again (cfg_OwnerReferences cm) nw) as Ha.
  destruct (reparentToNodeWright (cfg_OwnerReferences cm) nw) as [owners reparented]. cbn [fst] in *.
  destruct prune.
  - destruct (relabelLegacy_spec (cfg_Labels cm)) as (L1 & L2 & _). pose proof (relabelLegacy_again (cfg_Labels cm)) as Lg.
    destruct (relabelLegacyMetadataPrefix (cfg_Labels cm)) as [labels mutated]. cbn [fst] in *. split.
    + by split; cbn [fst cfg_Name cfg_Data cfg_Annotations cfg_OwnerReferences cfg_Labels].
    + cbn [cfg_OwnerReferences cfg_Labels]. by rewrite Ha, Lg.
  - destruct (addLabel_spec (cfg_Labels cm)) as (L1 & L2). pose proof (addLabel_again (cfg_Labels cm)) as Lg.
    assert (L3 : forall x, (addNodeWrightMetaLabel (cfg_Labels cm)).1 !! (oldPrefix +:+ x) = cfg_Labels cm !! (oldPrefix +:+ x)).
    { intros x. unfold addNodeWrightMetaLabel. rewrite copyPrefixedMap_lookup, owned_suffix_other'. by destruct (cfg_Labels cm !! _). }
    destruct (addNodeWrightMetaLabel (cfg_Labels cm)) as [labels mutated]. cbn [fst] in *. split.
    + by split; cbn [fst cfg_Name cfg_Data cfg_Annotations cfg_OwnerReferences cfg_Labels].
    + cbn [cfg_OwnerReferences cfg_Labels]. by rewrite Ha, Lg.
Qed.

(** What needs no write is as it was. *)
Lemma adopt_kept prune nw cm : (adopt prune nw cm).2 = false -> (adopt prune nw cm).1 = cm.
Proof.
  unfold adopt. destruct (reparentToNodeWright (cfg_OwnerReferences cm) nw) as [owners reparented] eqn:Er.
  assert (Ho : reparented = false -> owners = cfg_OwnerReferences cm).
  { intros ->. revert Er. unfold reparentToNodeWright.
    assert (Hf : any legacy_owner (cfg_OwnerReferences cm) = false ->
      List.filter (fun ref => negb (legacy_owner ref)) (cfg_OwnerReferences cm) = cfg_OwnerReferences cm).
    { intros H. apply forallb_filter_id, forallb_forall. intros x Hx%list_elem_of_In. apply negb_true_iff, not_true_iff_false.
      intros E. apply not_true_iff_false in H. apply H, any_true. eauto. }
    destruct (any legacy_owner _); cbn [negb andb]; [by case_match|].
    case_match; [intros [= <-]; by apply Hf|]. case_match; [done|]. intros [= <-]. by apply Hf. }
  destruct prune.
  - destruct (relabelLegacyMetadataPrefix _) as [labels mutated] eqn:El. cbn [fst snd]. intros [-> ->]%orb_false_iff.
    rewrite (Ho eq_refl). pose proof (relabelLegacy_kept (cfg_Labels cm)) as Hk. rewrite El in Hk. injection (Hk eq_refl) as ->. by destruct cm.
  - destruct (addNodeWrightMetaLabel _) as [labels mutated] eqn:El. cbn [fst snd]. intros [-> ->]%orb_false_iff.
    rewrite (Ho eq_refl). pose proof (addLabel_kept (cfg_Labels cm)) as Hk. rewrite El in Hk. injection (Hk eq_refl) as ->. by destruct cm.
Qed.

End LabelLemmas.

(* ------------------------------------------------------------------ *)
(** ** Lemmas: workloads *)

Section WorkloadLemmas.
Context `{MR : MapRange} {S : Type} (srv : server) (nw : NodeWright) (prune : bool) (base : list api_call).

Local Notation P := (M api_call S).
Local Notation list_of key := (ListConfigMaps {[ key := nw_Name nw ]}).

(** The server listed this config map among the calls [t] made after [base]. *)
Definition listed_in (t : list api_call) (cm : ConfigMap) : Prop :=
  exists i key cms, key ∈ legacyConfigMapLabelKeys /\ t !! i = Some (list_of key) /\
    sv_configmaps srv (base ++ take i t) {[ key := nw_Name nw ]} = Ok cms /\ cm ∈ cms.

(** Adopted: nothing to write, or written. *)
Definition settled (t : list api_call) (cm : ConfigMap) : Prop :=
  (adopt prune nw cm).1 = cm \/ UpdateConfigMap (adopt prune nw cm).1 ∈ t.

Definition quiet_call (c : api_call) : Prop := match c with ListConfigMaps _ => False | _ => True end.

Record swept (t : list api_call) (acc : sweep_state) : Prop := {
  sw_settled : forall name, name ∈ sw_seen acc -> exists cm, listed_in t cm /\ cfg_Name cm = name /\ settled t cm;
  sw_updates : forall cm', UpdateConfigMap cm' ∈ t -> exists cm, listed_in t cm /\ cm' = (adopt prune nw cm).1;
  sw_pods : prune = false -> forall ns name g, RemovePod ns name g ∉ t
}.

Lemma listed_app t u cm : listed_in t cm -> listed_in (t ++ u) cm.
Proof.
  intros (i & key & cms & Hk & Hi & Hc & Hin). exists i, key, cms. pose proof (lookup_lt_Some _ _ _ Hi).
  rewrite lookup_app_l by done. by rewrite take_app_le by lia.
Qed.

Lemma listed_quiet t c cm : quiet_call c -> listed_in (t ++ [c]) cm -> listed_in t cm.
Proof.
  intros Hq (i & key & cms & Hk & Hi & Hc & Hin). destruct (decide (i < length t)%nat) as [Hlt|Hge].
  - exists i, key, cms. rewrite lookup_app_l in Hi by done. rewrite take_app_le in Hc by lia. done.
  - rewrite lookup_app_r in Hi by lia. apply list_lookup_singleton_Some in Hi as [_ ->]. done.
Qed.

Lemma settled_app t u cm : settled t cm -> settled (t ++ u) cm.
Proof. intros [H|H]; [by left|right]. apply elem_of_app. by left. Qed.

Lemma sweep_configmap_swept t acc cm (s s' : Effects.pass api_call S) acc' :
  trace s = base ++ t -> swept t acc -> listed_in t cm -> sweep_configmap srv prune nw acc cm s = (s', Ok acc') ->
  exists u, trace s' = base ++ t ++ u /\ Forall quiet_call u /\ swept (t ++ u) acc' /\
    (forall name, name ∈ sw_seen acc -> name ∈ sw_seen acc') /\ cfg_Name cm ∈ sw_seen acc'.
Proof.
  intros Ht [H1 H2 H3] Hl. unfold sweep_configmap. case_bool_decide as Hseen.
  { intros [= <- <-]. exists []. rewrite app_nil_r. split_and!; try done. }
  pose proof (adopt_kept prune nw cm) as Hk. destruct (adopt prune nw cm) as [cm' mutated] eqn:Ea. cbn [fst snd] in Hk.
  intros (s1 & [] & Hs1 & [= <- <-])%bind_ok. destruct mutated.
  - apply wrap_ok, call_ok in Hs1 as [_ ->]. exists [UpdateConfigMap cm']. cbn [trace sw_seen]. rewrite Ht, <- app_assoc.
    split_and!; [done|by repeat constructor| |by intros; right|by left]. split; cbn [sw_seen].
    + intros name [->|Hn]%elem_of_cons.
      * exists cm. split_and!; [by apply listed_app|done|]. right. rewrite Ea. set_solver.
      * destruct (H1 _ Hn) as (x & Hx & <- & Hs). exists x. split_and!; [by apply listed_app|done|by apply settled_app].
    + intros c [Hc|[= ->]%list_elem_of_singleton]%elem_of_app.
      * destruct (H2 _ Hc) as (x & Hx & ->). exists x. split; [by apply listed_app|done].
      * exists cm. split; [by apply listed_app|by rewrite Ea].
    + intros Hp ns name g [Hin|Hin]%elem_of_app; [by eapply H3|by apply list_elem_of_singleton in Hin].
  - injection Hs1 as <-. exists []. rewrite !app_nil_r. cbn [sw_seen]. split_and!; [done|done| |by intros; right|by left].
    split; cbn [sw_seen]; [|done|done].
    intros name [->|Hn]%elem_of_cons; [|by apply H1]. exists cm. split_and!; [done|done|]. left. rewrite Ea. by apply Hk.
Qed.

Lemma sweep_configmaps_swept cms : forall t acc (s s' : Effects.pass api_call S) acc',
  trace s = base ++ t -> swept t acc -> (forall cm, cm ∈ cms -> listed_in t cm) ->
  loop (sweep_configmap srv prune nw) acc cms s = (s', Ok acc') ->
  exists u, trace s' = base ++ t ++ u /\ Forall quiet_call u /\ swept (t ++ u) acc' /\
    (forall name, name ∈ sw_seen acc -> name ∈ sw_seen acc') /\ (forall cm, cm ∈ cms -> cfg_Name cm ∈ sw_seen acc').
Proof.
  induction cms as [|cm cms IH]; intros t acc s s' acc' Ht Hs Hl; cbn [loop].
  - intros [= <- <-]. exists []. rewrite !app_nil_r. split_and!; try done. intros cm Hcm. by apply elem_of_nil in Hcm.
  - intros (s1 & acc1 & Hs1 & Hrest)%bind_ok. assert (Hcm : listed_in t cm) by (apply Hl; by left).
    destruct (sweep_configmap_swept _ _ _ _ _ _ Ht Hs Hcm Hs1) as (u & Hu & Hq & Hsw & Hmono & Hin).
    destruct (IH (t ++ u) acc1 s1 s' acc') as (u' & Hu' & Hq' & Hsw' & Hmono' & Hin'); [done|done| |done|].
    { intros x Hx. apply listed_app, Hl. by right. }
    exists (u ++ u'). rewrite Hu', !app_assoc. split_and!; [done|by apply Forall_app|done|auto|].
    intros x [->|Hx]%elem_of_cons; auto.
Qed.

Lemma sweep_key_swept key t acc (s s' : Effects.pass api_call S) acc' : key ∈ legacyConfigMapLabelKeys ->
  trace s = base ++ t -> swept t acc -> (forall cm, listed_in t cm -> cfg_Name cm ∈ sw_seen acc) ->
  sweep_key srv prune nw acc key s = (s', Ok acc') ->
  exists u, trace s' = base ++ t ++ list_of key :: u /\ swept (t ++ list_of key :: u) acc' /\
    (forall cm, listed_in (t ++ list_of key :: u) cm -> cfg_Name cm ∈ sw_seen acc').
Proof.
  intros Hkey Ht Hs Hall (s1 & cms & [Hc ->]%wrap_ok%call_ok & Hloop)%bind_ok. rewrite Ht in Hc.
  assert (Hlisted : forall cm, cm ∈ cms -> listed_in (t ++ [list_of key]) cm).
  { intros cm Hcm. exists (length t), key, cms. rewrite list_lookup_middle by done. rewrite take_app_length. done. }
  assert (Htr : trace {| trace := trace s ++ [list_of key]; mem := mem s |} = base ++ t ++ [list_of key])
    by (cbn [trace]; by rewrite Ht, app_assoc).
  destruct (fun Hsw => sweep_configmaps_swept cms _ acc _ _ _ Htr Hsw Hlisted Hloop) as (u & Hu & Hq & Hsw & Hmono & Hin).
  { destruct Hs as [H1 H2 H3]. split.
    - intros name Hn. destruct (H1 _ Hn) as (x & Hx & <- & Hset). exists x. split_and!; [by apply listed_app|done|by apply settled_app].
    - intros c [Hc'|Hc']%elem_of_app; [|by apply list_elem_of_singleton in Hc']. destruct (H2 _ Hc') as (x & Hx & ->).
      exists x. split; [by apply listed_app|done].
    - intros Hp ns name g [Hi|Hi]%elem_of_app; [by eapply H3|by apply list_elem_of_singleton in Hi]. }
  rewrite <- !app_assoc in Hu, Hsw. simpl in Hu, Hsw. exists u. split_and!; [done|done|].
  intros cm Hcm. assert (Hcm' : listed_in (t ++ [list_of key]) cm).
  { clear -Hq Hcm. replace (t ++ list_of key :: u) with ((t ++ [list_of key]) ++ u) in Hcm by (by rewrite <- app_assoc).
    revert Hcm. induction u as [|c u IH] using rev_ind; [by rewrite app_nil_r|].
    apply Forall_app in Hq as [Hq Hc]. apply Forall_inv in Hc. rewrite app_assoc. intros H%listed_quiet; auto. }
  destruct Hcm' as (i & k & l & Hk & Hi & Hl & Hcm').
  destruct (decide (i < length t)%nat) as [Hlt|Hge].
  - apply Hmono, Hall. exists i, k, l. rewrite lookup_app_l in Hi by done. rewrite take_app_le in Hl by lia. done.
  - rewrite lookup_app_r in Hi by lia. apply list_lookup_singleton_Some in Hi as [Hz Hkk].
    replace i with (length t) in Hl by lia. rewrite take_app_length in Hl.
    assert (E : ({[key := nw_Name nw]} : gmap string string) = {[k := nw_Name nw]}) by congruence.
    pose proof (lookup_singleton_eq (M := gmap string) k (nw_Name nw)) as Hkey'. rewrite <- E in Hkey'.
    apply lookup_singleton_Some in Hkey' as [-> _].
    rewrite Hc in Hl. injection Hl as <-. by apply Hin.
Qed.

End WorkloadLemmas.

Section Adoption.
Context `{MR : MapRange} {S : Type} (srv : server).

Definition remove_of (pod : WorkloadPod) : api_call := RemovePod (wp_Namespace pod) (wp_Name pod) None.

Lemma delete_pods_trace pods : forall b (s s' : Effects.pass api_call S) b',
  loop (delete_legacy_pod srv) b pods s = (s', Ok b') -> trace s' = trace s ++ map remove_of pods.
Proof.
  induction pods as [|pod pods IH]; intros b s s' b'; cbn [loop map]; [intros [= <- _]; by rewrite app_nil_r|].
  intros (s1 & b1 & (s2 & [] & [_ ->]%wrap_ok%call_ok & [= <- <-])%bind_ok & Hrest)%bind_ok.
  apply IH in Hrest. rewrite Hrest. cbn [trace]. by rewrite <- app_assoc.
Qed.

(** Taking over what the operator from before the rename made for a resource.
    While the rollback window is open none of its pods is deleted and its
    labels stay; afterwards every pod of it that is listed is deleted.  In both
    cases, when the call succeeds, each config map that carries one of the old
    labels (whichever of the two) has been adopted, written once at most and not
    at all if there was nothing to change: it has the label under the new
    prefix, it has the old one exactly while the window is open, no owner in the
    old group is left (deleting the old resource would take it along), and the
    resource controls it, unless some other object does.  Nothing else is
    updated, and the data of the config maps stays. *)
Theorem legacy_workloads_adopted nw prune (p p' : Effects.pass api_call S) had changed
    (H : reconcileLegacyLabeledWorkloads srv nw prune p = (p', Ok (had, changed))) :
  let listed := listed_in srv nw (trace p) in
  exists t, trace p' = trace p ++ t /\
    (prune = false -> forall ns name g, RemovePod ns name g ∉ t) /\
    (prune = true -> exists pods, sv_labelled_pods srv (trace p) {[ legacyNameLabel := nw_Name nw ]} = Ok pods /\
       forall pod, pod ∈ pods -> RemovePod (wp_Namespace pod) (wp_Name pod) None ∈ t) /\
    (forall key, key ∈ legacyConfigMapLabelKeys -> ListConfigMaps {[ key := nw_Name nw ]} ∈ t) /\
    (forall cm', UpdateConfigMap cm' ∈ t -> exists cm, listed t cm /\ adopted prune nw cm cm') /\
    (forall cm, listed t cm -> exists cm0, listed t cm0 /\ cfg_Name cm0 = cfg_Name cm /\
       (adopted prune nw cm0 cm0 \/ exists cm', adopted prune nw cm0 cm' /\ UpdateConfigMap cm' ∈ t)).
Proof.
  intros listed. revert H. unfold reconcileLegacyLabeledWorkloads.
  intros (s1 & pods & [Hpods ->]%wrap_ok%call_ok & H)%bind_ok. apply bind_ok in H as (s2 & ch & Hdel & H).
  apply bind_ok in H as (s3 & acc & Hloop & [= <- _ _]).
  set (t0 := ListLabelledPods {[ legacyNameLabel := nw_Name nw ]} :: (if prune then map remove_of pods else [])).
  assert (Ht0 : trace s2 = trace p ++ t0).
  { unfold t0. destruct prune; [apply delete_pods_trace in Hdel; rewrite Hdel; cbn [trace]; by rewrite <- app_assoc|by injection Hdel as <- _]. }
  assert (Hno : forall c, c ∈ t0 -> match c with ListConfigMaps _ | UpdateConfigMap _ => False | RemovePod _ _ _ => prune = true | _ => True end).
  { unfold t0. intros c [->|Hc]%elem_of_cons; [done|]. destruct prune; [|by apply elem_of_nil in Hc].
    by apply list_elem_of_fmap in Hc as (pod & -> & _). }
  set (acc0 := {| sw_seen := []; sw_hadLegacy := (if pods then false else true); sw_changed := ch |}) in Hloop.
  assert (Hs0 : swept srv nw prune (trace p) t0 acc0).
  { split; [intros name Hn; by apply elem_of_nil in Hn|by intros cm' ?%Hno|]. intros Hp ns name g Hin%Hno. congruence. }
  assert (Hl0 : forall cm, listed_in srv nw (trace p) t0 cm -> cfg_Name cm ∈ sw_seen acc0).
  { intros cm (i & key & cms & _ & Hi & _). apply list_elem_of_lookup_2, Hno in Hi. done. }
  unfold legacyConfigMapLabelKeys in Hloop. cbn [loop] in Hloop.
  apply bind_ok in Hloop as (s4 & acc1 & H1 & (s5 & acc2 & H2 & [= <- <-])%bind_ok).
  destruct (sweep_key_swept srv nw prune (trace p) legacyNodeMetaLabel t0 acc0 s2 s4 acc1) as (u1 & Hu1 & Hs1 & Hl1);
    [by left|done..|].
  destruct (sweep_key_swept srv nw prune (trace p) legacyNameLabel
    (t0 ++ ListConfigMaps {[ legacyNodeMetaLabel := nw_Name nw ]} :: u1) acc1 s4 s5 acc2) as (u2 & Hu2 & [Q1 Q2 Q3] & Hl2);
    [by right; left|exact Hu1|done..|].
  set (t := (t0 ++ ListConfigMaps {[ legacyNodeMetaLabel := nw_Name nw ]} :: u1) ++ ListConfigMaps {[ legacyNameLabel := nw_Name nw ]} :: u2) in *.
  exists t. split_and!; [done|exact Q3| | | |].
  - intros ->. exists pods. split; [done|]. intros pod Hpod. unfold t, t0. apply elem_of_app. left. apply elem_of_app. left. right.
    apply list_elem_of_fmap. by exists pod.
  - intros key [->| ->%list_elem_of_singleton]%elem_of_cons; unfold t; apply elem_of_app; [left; apply elem_of_app; right; by left|right; by left].
  - intros cm' Hin. destruct (Q2 _ Hin) as (cm & Hl & ->). exists cm. split; [done|apply adopt_spec].
  - intros cm Hcm. destruct (Q1 _ (Hl2 _ Hcm)) as (cm0 & Hl & Hn & Hset). exists cm0. split_and!; [done|done|].
    destruct (adopt_spec prune nw cm0) as [Ha _]. destruct Hset as [E|Hin]; [left; by rewrite E in Ha|right; eauto].
Qed.

End Adoption.

(* ------------------------------------------------------------------ *)
(** ** Witness *)

Definition legacy_pod : WorkloadPod :=
  {| wp_Namespace := "skyhook"; wp_Name := "tuning-apply"; wp_Labels := {[ legacyNameLabel := "tuning" ]}; wp_Annotations := ∅;
     wp_OwnerReferences := []; wp_Deleted := false; wp_Phase := "Succeeded"; wp_Tolerations := []; wp_Volumes := [] |}.

Definition legacy_configmap : ConfigMap :=
  {| cfg_Name := "tuning-tools-1"; cfg_Labels := {[ legacyNameLabel := "tuning" ]}; cfg_Annotations := ∅; cfg_Data := ∅;
     cfg_OwnerReferences := [{| or_APIVersion := "skyhook.nvidia.com/v1alpha1"; or_Kind := "Skyhook"; or_Name := "tuning";
                                or_UID := "old"; or_Controller := true |}] |}.

(** One pod and one config map of the old operator. *)
Definition legacy_server : server :=
  let q := quiet_server in
  {| sv_legacy := sv_legacy q; sv_nodewrights := sv_nodewrights q; sv_nodes := sv_nodes q; sv_policies := sv_policies q;
     sv_labelled_pods _ _ := Ok [legacy_pod]; sv_pods := sv_pods q; sv_selected_pods := sv_selected_pods q;
     sv_jobs := sv_jobs q; sv_job := sv_job q;
     sv_configmaps _ matching := if bool_decide (matching = {[ legacyNameLabel := "tuning" ]}) then Ok [legacy_configmap] else Ok [];
     sv_configmap := sv_configmap q; sv_write := sv_write q; sv_attempts := sv_attempts q; sv_node := sv_node q;
     sv_nodewright := sv_nodewright q; sv_read_nodewright := sv_read_nodewright q |}.

Definition migrating : NodeWright := plain_nodewright "tuning" (plain_spec ∅) empty_status.

Lemma legacy_workloads_adopted_witness :
  exists (p' : Effects.pass api_call unit) cm',
    reconcileLegacyLabeledWorkloads legacy_server migrating true {| trace := []; mem := tt |} = (p', Ok (true, true)) /\
    UpdateConfigMap cm' ∈ trace p' /\ adopted true migrating legacy_configmap cm' /\
    RemovePod "skyhook" "tuning-apply" None ∈ trace p'.
Proof.
  destruct (reconcileLegacyLabeledWorkloads legacy_server migrating true {| trace := []; mem := tt |}) as [p' r] eqn:E.
  assert (Hr : r = Ok (true, true)) by (change r with (p', r).2; rewrite <- E; by vm_compute). subst r.
  destruct (legacy_workloads_adopted legacy_server migrating true _ _ _ _ E) as (t & Ht & _ & Hpods & Hkeys & Hup & _).
  exists p', (adopt true migrating legacy_configmap).1. split; [done|]. cbn [trace app] in Ht. rewrite Ht. split_and!.
  - rewrite <- Ht. change p' with (p', Ok (true, true)).1. rewrite <- E. apply (list_elem_of_lookup_2 _ 4). by vm_compute.
  - apply adopt_spec.
  - destruct (Hpods eq_refl) as (pods & [= <-] & Hin). apply (Hin legacy_pod). by left.
Defined.
