(* ===== verification/Outline.v ===== *)
(** * What every step of a pass keeps

    The steps of a pass that come before packages are run may replace an object in
    memory by the server's answer, or migrate it; they keep the names of the
    resources and of the nodes of each ([same_outline], [same_resources]), and
    they create no Job ([no_job]). *)

From S2P Require Import Prelude Effects Sha256 Graph Float64 DeploymentPolicy Api NodeState Skyhook Conditions Text Node Migration Ownership Compartment ClusterState Partition Introspect Drain Options Report Merge Jobs JobBuilder Server RuntimeRequired Executor Save Sweep Uninstall Frame ConfigMaps Finalizer Cluster Reboots Webhook Legacy.

#[local] Open Scope Z_scope.

Definition same_node (f f' : SkyhookNode) : Prop := f_skyhook_name f' = f_skyhook_name f /\ f_name f' = f_name f.

#[export] Instance same_node_preorder : PreOrder same_node.
Proof. split; [by intros f|]. intros f g h [H1 H2] [H3 H4]. split; congruence. Qed.

Definition same_outline (s s' : skyhookNodes) : Prop := sns_Name s' = sns_Name s /\ node_names s' = node_names s.

#[export] Instance same_outline_preorder : PreOrder same_outline.
Proof. split; [by intros f|]. intros f g h [H1 H2] [H3 H4]. split; congruence. Qed.

Definition same_resources (c c' : cluster) : Prop := Forall2 same_outline (cl_resources c) (cl_resources c').

#[export] Instance same_resources_preorder : PreOrder same_resources.
Proof.
  split; [intros c; unfold same_resources; reflexivity|]. intros c c' c'' H H'. unfold same_resources in *. by etrans.
Qed.

Definition no_job (c : api_call) : Prop := is_create c = false.

Lemma steady_same s s' : steady s s' -> same_outline s s'.
Proof. intros [[st H] Hn]. split; [|done]. unfold sns_Name. by rewrite H. Qed.

Lemma steady_same_node f f' : steady_node f f' -> same_node f f'.
Proof. intros [[st H] Hn]. split; [|done]. unfold f_skyhook_name. by rewrite H. Qed.

Lemma set_object_same n f : n_Name n = f_name f -> same_node f (set_object n f).
Proof. by intros H. Qed.

Lemma put_node_same f s : f_skyhook_name f = sns_Name s -> same_outline s (put_node f s).
Proof.
  intros H. split; [exact H|]. unfold node_names, put_node. simpl. rewrite map_map. apply map_ext. intros e. by case_bool_decide.
Qed.

Lemma as_node_same s e f : same_node (as_node s e) f -> same_outline s (put_node f s).
Proof. intros [H _]. by apply put_node_same. Qed.

Lemma with_node_same name g s : (forall f, same_node f (g f)) -> same_outline s (with_node name g s).
Proof. intros H. unfold with_node. destruct (find_entry s name); [|reflexivity]. by eapply as_node_same. Qed.

Lemma on_skyhook_same g s : nw_Name (sk_nw (g (sns_skyhook s))) = sns_Name s -> same_outline s (on_skyhook g s).
Proof. by intros H. Qed.

Lemma foldl_same {A} (f : skyhookNodes -> A -> skyhookNodes) l s : (forall s a, same_outline s (f s a)) -> same_outline s (foldl f s l).
Proof. intros H. revert s; induction l as [|a l IH]; intros s; simpl; [reflexivity|]. etrans; [apply H|apply IH]. Qed.

Lemma rfold_same {A} (f : skyhookNodes -> A -> res skyhookNodes) l s s' :
  (forall s a s', f s a = Ok s' -> same_outline s s') -> rfold f s l = Ok s' -> same_outline s s'.
Proof.
  intros H. revert s; induction l as [|a l IH]; intros s; simpl; [intros [= ->]; reflexivity|].
  intros (s1 & H1 & H2)%rbind_ok. etrans; [by eapply H|by apply IH].
Qed.

(* ------------------------------------------------------------------ *)
(** ** Programs *)

Local Notation node_within := (steps (within same_node no_job)).
Local Notation resource_within := (steps (within same_outline no_job)).
Local Notation cluster_within := (steps (within same_resources no_job)).

Lemma at_node_within {A} Q name (m : M api_call SkyhookNode A) :
  steps (within same_node Q) m -> steps (within same_outline Q) (at_node name m).
Proof.
  intros Hm s. unfold at_node. destruct (find_entry (mem s) name) as [e|]; [|reflexivity].
  destruct (Hm {| trace := trace s; mem := as_node (mem s) e |}) as [H (t & Ht & Hq)]. destruct (m _) as [p r].
  cbn [fst mem trace] in *. split; [by eapply as_node_same|by exists t].
Qed.

Lemma at_resource_within {A} Q i (m : M api_call skyhookNodes A) :
  steps (within same_outline Q) m -> steps (within same_resources Q) (at_resource i m).
Proof.
  intros Hm c. unfold at_resource. destruct (cl_resources (mem c) !! i) as [s|] eqn:Es; [|reflexivity].
  destruct (Hm {| trace := trace c; mem := s |}) as [H (t & Ht & Hq)]. destruct (m _) as [p r].
  cbn [fst mem trace] in *. split; [|by exists t]. unfold same_resources. simpl.
  apply Forall2_same_length_lookup. split; [by rewrite length_insert|]. intros j x y Hx.
  rewrite list_lookup_insert_Some. intros [(<- & <- & _)|[_ Hy]]; [congruence|]. rewrite Hx in Hy. by injection Hy as ->.
Qed.

Lemma step_within {S A} (I : S -> S -> Prop) `{!PreOrder I} (Q : api_call -> Prop) (f : S -> res (S * A)) :
  (forall s s' a, f s = Ok (s', a) -> I s s') -> steps (within I Q) (step f).
Proof.
  intros H s. unfold step. destruct (f (mem s)) as [[m a]|e|] eqn:E; [|reflexivity..].
  split; [by eapply H|]. exists []. simpl. by rewrite app_nil_r.
Qed.

Lemma each_resource_within {B} Q (f : B -> nat -> M api_call cluster B) acc :
  (forall acc i, steps (within same_resources Q) (f acc i)) -> steps (within same_resources Q) (each_resource f acc).
Proof.
  intros H. unfold each_resource, all_resources. apply steps_bind; [apply _|apply steps_gets; apply _|]. intros rs.
  apply steps_loop; [apply _|]. auto.
Qed.

#[export] Hint Extern 2 (steps (within _ _) (at_node _ _)) => apply at_node_within : steps.
#[export] Hint Extern 2 (steps (within _ _) (at_resource _ _)) => apply at_resource_within : steps.
#[export] Hint Extern 5 (no_job _) => reflexivity : steps.
#[export] Hint Extern 5 (same_outline _ _) => reflexivity : steps.

Section Programs.
Context `{MR : MapRange} `{JS : NodeStateJSON} `{TT : TimeText} `{SV : Semver} `{PJ : PackageJSON} `{TS : TaintSyntax}
  `{QQ : Quantities} `{SE : Selectors} `{SM : StrategicMerge} `{AE : AgentEncoding} `{JM : JSONMergePatch} `{QO : QuantityOrder}.
Context (srv : server) (opts : SkyhookOperatorOptions) (original : string -> option Node) (now : Z) (VERSION : string).

(** A read of the memory that what follows depends on. *)
Lemma reads_within {S A} (I : S -> S -> Prop) (Q : api_call -> Prop) (k : S -> M api_call S A) :
  (forall x s, mem s = x -> within I Q s (k x s).1) -> steps (within I Q) (bind (gets id) k).
Proof. intros H s. by apply (H (mem s)). Qed.

(** After a read the memory is still what was read. *)
Lemma call_within {S A B} (I : S -> S -> Prop) `{!PreOrder I} (Q : api_call -> Prop) c (answer : list api_call -> res A) (k : A -> M api_call S B) x :
  Q c -> (forall a s, mem s = x -> within I Q s (k a s).1) -> forall s, mem s = x -> within I Q s (bind (call c answer) k s).1.
Proof.
  intros Hc Hk s Hs. assert (H1 : within I Q s {| trace := trace s ++ [c]; mem := mem s |}).
  { split; [simpl; reflexivity|]. exists [c]. split; [done|]. by constructor. }
  unfold bind, call. destruct (answer (trace s)) as [a|e|]; [|exact H1..]. etrans; [exact H1|by apply Hk].
Qed.

Lemma modify_within {S} (I : S -> S -> Prop) (Q : api_call -> Prop) f (s : Effects.pass api_call S) :
  I (mem s) (f (mem s)) -> within I Q s (modify f s).1.
Proof. intros H. split; [exact H|]. exists []. simpl. by rewrite app_nil_r. Qed.

Lemma modify_then_within {S A} (I : S -> S -> Prop) `{!PreOrder I} (Q : api_call -> Prop) f (m : M api_call S A) s :
  I (mem s) (f (mem s)) -> steps (within I Q) m -> within I Q s (bind (modify f) (fun _ => m) s).1.
Proof. intros H Hm. etrans; [by apply (modify_within I Q f)|]. apply Hm. Qed.

Lemma bind_lift_within {S A B} (I : S -> S -> Prop) `{!PreOrder I} (Q : api_call -> Prop) (r : res A) (k : A -> M api_call S B) x :
  (forall a s, mem s = x -> within I Q s (k a s).1) -> forall s, mem s = x -> within I Q s (bind (lift r) k s).1.
Proof. intros Hk s Hs. unfold bind, lift. destruct r as [a|e|]; [by apply Hk|reflexivity..]. Qed.

Lemma patch_object_within c : (forall n, no_job (c n)) -> node_within (patch_object srv c).
Proof.
  intros Hc. unfold patch_object. apply reads_within. intros f. apply call_within; [apply _|apply Hc|]. intros answer s Hs.
  apply modify_within. rewrite Hs. by apply set_object_same.
Qed.

Lemma write_resource_within c : (forall nw, no_job (c nw)) -> resource_within (write_resource srv c).
Proof.
  intros Hc. unfold write_resource. apply reads_within. intros x. apply call_within; [apply _|apply Hc|]. intros answer s Hs.
  apply modify_within. by rewrite Hs.
Qed.

Lemma merged_name key delta node fresh n : merged key delta node fresh = Some n -> n_Name n = n_Name node.
Proof. unfold merged, remerge. repeat case_match; intros [= <-]; done. Qed.

Lemma left_by_name steps key delta base attempts : forall node,
  n_Name (left_by steps key delta base node attempts) = n_Name node.
Proof.
  revert attempts; induction steps as [|k IH]; intros [|a attempts] node; simpl; try done.
  destruct (at_read a) as [[[fresh rv]|]| |]; try done. destruct (merged key delta node fresh) as [n|] eqn:E; [|done].
  apply merged_name in E. destruct (send _ _ _ _); [done|]. by rewrite IH.
Qed.

Lemma after_save_name sky base node attempts : n_Name (after_save sky base node attempts) = n_Name node.
Proof. unfold after_save. repeat case_match; try done. by apply left_by_name. Qed.

Lemma ReloadState_name n n' r : ReloadState n = (n', r) -> n_Name (sn_Node n') = n_Name (sn_Node n).
Proof. unfold ReloadState. by case_match; intros [= <- _]. Qed.

Lemma save_changes_within : node_within (save_changes srv original).
Proof.
  unfold save_changes. apply reads_within. intros f. apply call_within; [apply _|done|]. intros attempts s Hs.
  destruct (saveNodeChanges _ _ _ attempts) as [| |written|e].
  - apply modify_within. rewrite Hs. apply set_object_same, after_save_name.
  - apply modify_within. rewrite Hs. apply set_object_same, after_save_name.
  - match goal with |- context [ReloadState ?x] => destruct (ReloadState x) as [n r] eqn:Er end. apply ReloadState_name in Er.
    apply modify_then_within; [apply _| |apply steps_lift; apply _]. rewrite Hs. by split.
  - apply modify_then_within; [apply _| |apply steps_raise; apply _]. rewrite Hs. apply set_object_same, after_save_name.
Qed.

#[local] Hint Resolve patch_object_within write_resource_within save_changes_within : steps.
#[local] Hint Extern 3 (same_outline _ (on_skyhook _ _)) => reflexivity : steps.
#[local] Hint Extern 1 (forall _, no_job _) => reflexivity : steps.

Lemma upsert_node_metadata_within : node_within (upsert_node_metadata srv opts).
Proof.
  unfold upsert_node_metadata, UpsertNodeLabelsAnnotationsPackages, read_configmap, must. auto 14 with steps.
Qed.
#[local] Hint Resolve upsert_node_metadata_within : steps.

Lemma only_same g s : only_status (sns_skyhook s) (g (sns_skyhook s)) -> same_outline s (on_skyhook g s).
Proof. intros H. by apply steady_same, on_skyhook_steady. Qed.

Lemma save_node_within acc name : resource_within (save_node srv opts original now acc name).
Proof.
  unfold save_node. apply steps_bind; [apply _|auto with steps|]. intros s.
  apply steps_bind; [apply _| |].
  - apply steps_if; [apply _| |auto with steps]. apply steps_bind; [apply _|auto with steps|]. intros e1.
    apply steps_bind; [apply _|auto with steps|]. intros e2. apply steps_bind; [apply _| |auto with steps].
    apply within_modify. intros x. destruct (complete_of x name); [|reflexivity]. apply only_same, RemoveNodePriority_only.
  - intros acc'. apply steps_bind; [apply _| |intros _].
    { apply within_modify. intros x. apply steady_same, with_node_steady, UpdateCondition_steady. }
    apply steps_bind; [apply _|auto with steps|]. intros s1. apply steps_bind; [apply _|auto 8 with steps|]. intros acc2.
    apply steps_bind; [apply _| |auto with steps]. apply within_modify. intros x. by destruct (flag_of x name).
Qed.

Lemma SaveNodesAndSkyhook_within : resource_within (SaveNodesAndSkyhook srv opts original now).
Proof.
  unfold SaveNodesAndSkyhook. apply steps_bind; [apply _|auto with steps|]. intros s. apply steps_bind; [apply _| |].
  - apply steps_loop; [apply _|]. intros. apply save_node_within.
  - intros [saved [|e errs]]; cbn [snd]; [|auto with steps]. apply steps_bind; [apply _| |].
    + apply within_modify. intros x. apply steady_same, sns_UpdateCondition_steady.
    + intros _. auto 10 with steps.
Qed.

Lemma save_all_within : resource_within (save_all srv opts original now).
Proof. unfold save_all. apply steps_bind; [apply _|apply SaveNodesAndSkyhook_within|]. intros []. auto with steps. Qed.
#[local] Hint Resolve save_all_within : steps.

Lemma refresh_within : resource_within (refreshSkyhookConditions srv opts original now).
Proof.
  unfold refreshSkyhookConditions. apply steps_bind; [apply _| |intros _].
  - apply within_modify. intros x. unfold UpdateNodeStateMalformedCondition. apply steady_same.
    case_match; [apply remove_conditions_of_steady|apply add_condition_steady].
  - apply steps_bind; [apply _|auto with steps|]. intros _. apply steps_bind; [apply _| |intros _].
    + apply within_modify. intros x. unfold UpdateBlockedCondition. apply steady_same.
      case_match; [apply add_condition_steady|apply remove_conditions_of_steady].
    + apply within_modify. intros x. apply steady_same. unfold UpdateUninstallConditions. cbn zeta.
      set (y := if 0 <? zlen (in_cycle_entries x) then _ else _).
      assert (Hy : steady x y) by (unfold y; case_match; [apply add_condition_steady|apply remove_conditions_of_steady]).
      clearbody y. etrans; [exact Hy|]. case_match; [apply add_condition_steady|apply remove_conditions_of_steady].
Qed.

Lemma delete_job_within {S} (I : S -> S -> Prop) `{!PreOrder I} job : steps (within I no_job) (delete_job_foreground srv job).
Proof. unfold delete_job_foreground, must_if_present. auto with steps. Qed.

Lemma foldl_same_fst {A B} (f : skyhookNodes * B -> A -> skyhookNodes * B) l acc :
  (forall acc a, same_outline acc.1 (f acc a).1) -> same_outline acc.1 (foldl f acc l).1.
Proof. intros H. revert acc; induction l as [|a l IH]; intros acc; simpl; [reflexivity|]. etrans; [apply H|apply IH]. Qed.

Lemma cleanup_stale_same s : same_outline s (cleanupStaleCompartmentStatuses s).
Proof. unfold cleanupStaleCompartmentStatuses. apply foldl_same. intros x [k v]. unfold drop_stale. by case_match. Qed.

Lemma update_statuses_same s : same_outline s (updateCompartmentStatuses s).
Proof. unfold updateCompartmentStatuses. apply foldl_same. intros x [k v]. unfold update_compartment_status. by repeat case_match. Qed.

Lemma cleanup_removed_same s : same_outline s (CleanupRemovedNodes s).
Proof.
  unfold CleanupRemovedNodes. cbn zeta.
  set (sk := foldl (remove_gone (current_nodes s)) (sns_skyhook s) (range (priorities s))).
  assert (Hsk : nw_Name (sk_nw sk) = sns_Name s).
  { unfold sk. change (sns_Name s) with (nw_Name (sk_nw (sns_skyhook s))). generalize (sns_skyhook s), (range (priorities s)). intros a l.
    revert a; induction l as [|[n t] l IH]; intros a; simpl; [done|]. rewrite IH. unfold remove_gone. case_bool_decide; [done|].
    cbn [fst]. by destruct (RemoveNodePriority_only n a) as [st ->]. }
  clearbody sk. destruct (st_NodeState (sk_Status sk)) as [m|]; repeat (destruct (cleanupNodeMap _ _)); by destruct (_ || _).
Qed.

Lemma report_counts_same s : same_outline s (report_counts s).
Proof.
  unfold report_counts. cbn zeta. set (s1 := if bool_decide (_ = CompleteNodes _) then s else _).
  assert (H1 : same_outline s s1) by (unfold s1; by case_match). clearbody s1.
  set (s2 := if _ =? _ then s1 else _). assert (H2 : same_outline s1 s2) by (unfold s2; by case_match).
  etrans; [exact H1|]. etrans; [exact H2|]. by case_match.
Qed.

Lemma ReportState_same s : same_outline s (ReportState s).
Proof.
  unfold ReportState. etrans; [apply cleanup_removed_same|]. etrans; [apply update_statuses_same|].
  etrans; [apply cleanup_stale_same|apply report_counts_same].
Qed.

Lemma r_ReportState_within : resource_within (r_ReportState srv opts original now).
Proof.
  unfold r_ReportState. apply steps_bind; [apply _| |auto 8 with steps]. apply within_modify, ReportState_same.
Qed.

Lemma UpdateSkyhookPauseStatus_same s : same_outline s (UpdateSkyhookPauseStatus now s).1.
Proof.
  unfold UpdateSkyhookPauseStatus. destruct (sns_IsPaused s); [|reflexivity].
  set (c1 := negb _). set (s1 := if c1 then _ else s).
  assert (H1 : same_outline s s1) by (unfold s1; destruct c1; [apply steady_same, sns_SetStatus_steady|reflexivity]).
  pose proof (foldl_same_fst pause_node (node_names s1) (s1, c1)) as H2. destruct (foldl pause_node _ _) as [s2 c2]. cbn [fst] in H2.
  assert (H3 : same_outline s1 s2).
  { apply H2. intros acc a. unfold pause_node. case_bool_decide; [reflexivity|]. apply steady_same, with_node_steady. intros. apply node_SetStatus_steady. }
  pose proof (sns_UpdateCondition_steady now s2) as H4%steady_same. destruct (sns_UpdateCondition now s2) as [s3 c3]. cbn [fst] in *.
  etrans; [exact H1|]. by etrans.
Qed.

Lemma UpdatePauseStatus_within : resource_within (UpdatePauseStatus srv opts original now).
Proof.
  unfold UpdatePauseStatus. apply reads_within. intros x s Hs. pose proof (UpdateSkyhookPauseStatus_same x) as H.
  destruct (UpdateSkyhookPauseStatus now x) as [x' changed]. cbn [id fst] in *.
  apply modify_then_within; [apply _|by rewrite Hs|]. auto 8 with steps.
Qed.

Lemma suspend_within b : resource_within (setSuspendOnUnfinishedJobs srv b).
Proof.
  unfold setSuspendOnUnfinishedJobs, list_jobs. apply steps_bind; [apply _|auto with steps|]. intros s.
  apply steps_bind; [apply _|auto with steps|]. intros jobs. apply steps_loop; [apply _|]. intros [] job _.
  unfold suspend_job, must. auto 10 with steps.
Qed.

Lemma resume_within : resource_within (resumeSuspendedJobs srv).
Proof. unfold resumeSuspendedJobs. apply steps_bind; [apply _|auto with steps|]. intros s. case_match; [auto with steps|apply suspend_within]. Qed.

(* The configuration. *)
Lemma collect_within {A} (r : res A) acc k : (forall a, resource_within (k a)) -> resource_within (collect r acc k).
Proof. intros H. unfold collect. destruct r; auto with steps. Qed.

Lemma ValidateRunningPackages_within : resource_within (ValidateRunningPackages srv opts).
Proof.
  unfold ValidateRunningPackages, list_jobs. apply steps_bind; [apply _|auto with steps|]. intros s.
  apply steps_bind; [apply _|auto with steps|]. intros jobs. apply steps_bind; [apply _| |intros []; auto with steps].
  apply steps_loop; [apply _|]. intros acc job _. unfold sweep_job. apply steps_bind; [apply _|auto with steps|]. intros s1.
  apply collect_within. intros [pkg|]; [|auto with steps]. destruct (node_of_job s1 job) as [node|].
  - apply collect_within. intros nodeState. unfold InvalidPackage, must. auto 14 using delete_job_within with steps typeclass_instances.
  - auto 8 using delete_job_within with steps typeclass_instances.
Qed.

Lemma ValidateNodeConfigmaps_within name nodes : resource_within (ValidateNodeConfigmaps srv opts name nodes).
Proof.
  unfold ValidateNodeConfigmaps, list_configmaps, read_nodewright. apply steps_bind; [apply _|auto with steps|]. intros cms.
  destruct cms as [|cm cms]; [auto with steps|]. apply steps_bind; [apply _| |].
  { apply steps_loop; [apply _|]. intros acc kv _. unfold remove_orphan, must. auto 8 with steps. }
  intros [update errs]. apply steps_bind; [apply _|auto with steps|]. intros [nw|]; [|auto with steps].
  apply steps_bind; [apply _| |intros []; auto with steps]. apply steps_loop; [apply _|]. intros acc cm' _.
  unfold refresh_packages, must. auto 10 with steps.
Qed.

Lemma start_config_same p b keys s : same_outline s (start_config p b keys s).
Proof.
  unfold start_config. apply steady_same. cbn zeta. set (s1 := if b then _ else s).
  assert (H1 : steady s s1) by (unfold s1; destruct b; [apply on_skyhook_steady, RemoveConfigUpdates_only|reflexivity]). clearbody s1.
  set (s2 := on_skyhook _ s1). assert (H2 : steady s1 s2) by apply on_skyhook_steady, AddConfigUpdates_only. clearbody s2.
  etrans; [exact H1|]. etrans; [exact H2|]. apply foldl_steady. intros x name. unfold restart_config. apply with_node_steady.
  intros f. etrans; [apply node_Upsert_steady|apply node_SetStatus_steady].
Qed.

Lemma count_node_within p acc name : resource_within (count_node srv p acc name).
Proof.
  unfold count_node, JobExists, list_jobs. apply steps_bind; [apply _|auto with steps|]. intros s.
  apply steps_bind; [apply _|auto 8 with steps|]. intros exists_. destruct (find_entry s name) as [e|]; [|auto with steps].
  destruct (node_PackageStatus _ _) as [st|]; [|auto with steps]. destruct (restartable st); [|auto with steps].
  apply steps_bind; [apply _| |auto with steps]. unfold deleteConfigUpdateExecutors, list_jobs. apply steps_bind; [apply _|auto with steps|].
  intros jobs. apply steps_loop; [apply _|]. intros acc' job _. unfold delete_job. destruct (in_flight job); [|auto with steps].
  apply steps_wrap; [apply _|]. apply delete_job_within, _.
Qed.

Lemma HandleConfigUpdates_within p old new : resource_within (HandleConfigUpdates srv opts original now p old new).
Proof.
  unfold HandleConfigUpdates. case_bool_decide; [auto with steps|]. apply steps_bind; [apply _|auto with steps|]. intros s.
  apply steps_bind; [apply _|apply steps_loop; [apply _|]; intros; apply count_node_within|]. intros [n b].
  destruct (_ || _); [|auto with steps]. apply steps_bind; [apply _|apply within_modify; intros; apply start_config_same|]. intros _.
  unfold must. auto 10 with steps.
Qed.

Lemma UpsertConfigmaps_within : resource_within (UpsertConfigmaps srv opts original now).
Proof.
  unfold UpsertConfigmaps, list_configmaps. apply steps_bind; [apply _|auto with steps|]. intros s.
  apply steps_bind; [apply _|auto with steps|]. intros cms. apply steps_bind; [apply _| |intros _].
  - apply steps_loop; [apply _|]. intros acc kv _. unfold remove_unwanted, must. auto 8 with steps.
  - apply steps_bind; [apply _|auto with steps|]. intros un. apply steps_loop; [apply _|]. intros acc kp _. unfold upsert_package.
    case_bool_decide; [auto with steps|]. case_bool_decide; [auto with steps|]. apply steps_bind; [apply _|auto with steps|]. intros s1.
    destruct (_ !! _); [|unfold must; auto 8 with steps]. apply steps_bind; [apply _| |intros []; auto with steps].
    apply steps_wrap; [apply _|apply HandleConfigUpdates_within].
Qed.

Lemma validate_within : resource_within (validateAndUpsertSkyhookData srv opts original now).
Proof.
  unfold validateAndUpsertSkyhookData. apply steps_bind; [apply _|apply ValidateRunningPackages_within|]. intros u.
  destruct (shouldReturn u); [auto with steps|]. apply steps_bind; [apply _|auto with steps|]. intros s.
  apply steps_bind; [apply _|apply ValidateNodeConfigmaps_within|]. intros u'. destruct (shouldReturn u'); [auto with steps|].
  apply steps_bind; [apply _|apply UpsertConfigmaps_within|]. intros []. auto with steps.
Qed.

(* The finalizer. *)
Lemma clean_node_same f : same_node f (clean_node f).
Proof.
  unfold clean_node. split; [done|]. unfold f_name, on_node, set_full_Only. cbn [full_Only].
  unfold CleanupSCRMetadata. repeat case_match; simpl; unfold Uncordon; by repeat case_match.
Qed.

Lemma release_node_within errs name : resource_within (release_node srv errs name).
Proof.
  unfold release_node. apply steps_bind; [apply _| |].
  - apply within_modify. intros x. apply with_node_same, clean_node_same.
  - intros _. auto 10 with steps.
Qed.

Lemma HandleFinalizer_within : resource_within (HandleFinalizer srv opts original now).
Proof.
  assert (Hblock : forall r m, resource_within (block_deletion srv opts original now r m)).
  { intros r m. unfold block_deletion. apply steps_bind; [apply _| |auto with steps].
    apply within_modify. intros x. apply steady_same, add_condition_steady. }
  unfold HandleFinalizer. apply steps_bind; [apply _|auto with steps|]. intros s.
  destruct (negb (beingDeleted s)).
  { destruct (ContainsFinalizer _); [auto with steps|]. apply steps_bind; [apply _| |auto 8 with steps].
    apply within_modify. intros x. unfold on_nodewright, AddFinalizer. apply on_skyhook_same. simpl. by case_match. }
  destruct (negb _); [auto with steps|]. destruct (pending_uninstall s) as [pending|e|]; [|auto with steps..].
  destruct (_ && _); [auto with steps|]. destruct (_ && _); [auto with steps|]. apply steps_bind; [apply _| |intros _].
  - apply within_modify. intros x. apply steady_same, remove_conditions_of_steady.
  - destruct pending; [auto with steps|]. unfold release_resource. apply steps_bind; [apply _|auto with steps|]. intros s1.
    apply steps_bind; [apply _|apply steps_loop; [apply _|]; intros; apply release_node_within|]. intros errs.
    apply steps_bind; [apply _|auto with steps|]. intros _. apply steps_bind; [apply _|auto with steps|]. intros _.
    apply steps_bind; [apply _| |auto 8 with steps]. apply within_modify. intros x. by apply on_skyhook_same.
Qed.

(* Reboots. *)
Lemma record_boot_same name s : same_outline s (record_boot name s).
Proof. by apply on_skyhook_same. Qed.

Lemma retaint_within name : resource_within (retaint opts name).
Proof.
  unfold retaint. apply reads_within. intros x s Hs. cbn [id]. destruct (find_entry x name) as [e|] eqn:He; [|reflexivity].
  destruct (_ && _); [|reflexivity]. revert s Hs. apply bind_lift_within; [apply _|]. intros recognised.
  destruct (negb _); [|by intros; reflexivity]. apply bind_lift_within; [apply _|]. intros t s Hs.
  destruct (AddOrUpdateTaint _ t) as [n u]. destruct u; [|reflexivity]. apply modify_within. rewrite Hs.
  unfold with_node. rewrite He. apply put_node_same. done.
Qed.

Lemma track_within acc : resource_within (track_resource srv opts acc).
Proof.
  assert (Hpersist : forall u errs name, resource_within (persist_reset srv u errs name)).
  { intros u errs name. unfold persist_reset. apply steps_bind; [apply _|auto with steps|]. intros s. case_match.
    - apply steps_bind; [apply _|auto with steps|]. intros [e|]; [auto with steps|].
      apply steps_bind; [apply _|apply within_modify; intros; apply record_boot_same|auto with steps].
    - apply steps_bind; [apply _|apply within_modify; intros; apply record_boot_same|auto with steps]. }
  unfold track_resource. apply steps_bind; [apply _|auto with steps|]. intros s. apply steps_bind; [apply _| |auto 12 with steps].
  apply steps_loop; [apply _|]. intros acc' name _. unfold track_node. apply steps_bind; [apply _|auto with steps|]. intros s1.
  destruct (known_boot s1 name).
  - destruct (_ && _); [|auto with steps]. destruct (ReapplyOnReboot opts).
    + unfold reapply. apply steps_bind; [apply _| |intros _].
      { apply within_modify. intros x. apply steady_same, with_node_steady, Reset_steady. }
      apply steps_bind; [apply _|auto with steps|]. intros s2. apply steps_bind; [apply _| |].
      * apply steps_try; [apply _|]. apply steps_wrap; [apply _|]. unfold deleteNodeJobs, list_jobs. apply steps_bind; [apply _|auto with steps|].
        intros jobs. apply steps_loop; [apply _|]. intros [] job _. apply steps_wrap; [apply _|]. apply delete_job_within, _.
      * intros e. apply steps_bind; [apply _|apply retaint_within|]. intros _. apply Hpersist.
    + apply steps_bind; [apply _|apply within_modify; intros; apply record_boot_same|auto with steps].
  - apply steps_bind; [apply _|apply within_modify; intros; apply record_boot_same|auto with steps].
Qed.

(* Migrations. *)
Lemma persist_same f : same_node f (persist f).
Proof.
  split.
  - unfold persist. cbn [full_skyhook]. unfold f_skyhook_name. cbn [full_skyhook].
    by destruct (SetNodeState_only (n_Name (sn_Node (SetState (sn_nodeState (full_Only f)) (full_Only f))))
      (sn_nodeState (SetState (sn_nodeState (full_Only f)) (full_Only f))) (full_skyhook f)) as [st ->].
  - unfold persist, f_name. cbn [full_Only]. simpl. by rewrite SetState_name.
Qed.

Lemma remove_old_same ref name f : same_node f (remove_old ref name f).
Proof.
  unfold remove_old. cbn zeta.
  match goal with |- same_node f (if ?b then persist (set_full_Only ?m f) else _) =>
    assert (Hn : n_Name (sn_Node m) = f_name f) by (unfold delete_state; repeat case_match; done);
    assert (Hf : same_node f (set_full_Only m f)) by (by split); destruct b end; [|exact Hf].
  etrans; [exact Hf|apply persist_same].
Qed.

Lemma migrate_entry_same parsed f key : same_node f (migrate_entry parsed f key).
Proof.
  unfold migrate_entry. cbn zeta. destruct (_ !! key) as [st|]; [|reflexivity]. destruct (negb _); [reflexivity|].
  destruct (f_packages f !! _) as [p|]; [|apply remove_old_same]. case_bool_decide; [|apply remove_old_same].
  etrans; [apply steady_same_node, node_Upsert_steady|]. etrans; [|apply persist_same]. split; [done|].
  unfold f_name, delete_state. cbn [full_Only set_full_Only]. by case_match.
Qed.

Lemma foldl_same_node {A} (f : SkyhookNode -> A -> SkyhookNode) (Hf : forall node a, same_node node (f node a)) l node :
  same_node node (foldl f node l).
Proof. revert node; induction l as [|a l IH]; intros node; simpl; [reflexivity|]. etrans; [apply Hf|apply IH]. Qed.

Lemma node_Migrate_same f f' : node_Migrate VERSION f = Ok f' -> same_node f f'.
Proof.
  unfold node_Migrate. cbn zeta. set (f1 := if bool_decide (node_GetVersion (full_Only f) = "") then _ else f).
  assert (H1 : same_node f f1).
  { unfold f1. case_bool_decide; [|reflexivity]. split; [done|]. unfold f_name, set_full_Only. cbn [full_Only].
    unfold migrateNodePrefixToNodeWright. repeat case_match; done. }
  clearbody f1. case_bool_decide; [by intros [= <-]|]. case_bool_decide; [|by intros [= <-]].
  intros (f2 & Hm & [= <-])%rbind_ok. etrans; [exact H1|]. unfold migrateNodeTo_0_5_0 in Hm. apply rbind_ok in Hm as (state & _ & Hm).
  apply rbind_ok in Hm as (conds & _ & [= <-]).
  match goal with |- context [foldl ?g f1 ?l] => etrans; [apply (foldl_same_node g (migrate_entry_same _) l)|] end.
  split; [done|]. unfold f_name, set_full_Only. cbn [full_Only].
  unfold node_SetVersion. by repeat case_match.
Qed.

Lemma sns_Migrate_same s s' : sns_Migrate VERSION s = Ok s' -> same_outline s s'.
Proof.
  unfold sns_Migrate. intros (s1 & H1 & H)%rbind_ok. transitivity s1.
  { clear H. revert H1. apply rfold_same. intros x name x'. unfold migrate_one. destruct (find_entry x name) as [e|]; [|intros [= ->]; reflexivity].
    destruct (bool_decide _); [intros [= ->]; reflexivity|]. intros (f & Hf%rwrap_ok & [= <-])%rbind_ok.
    by eapply as_node_same, node_Migrate_same. }
  revert H. destruct (bool_decide _); [intros [= ->]; reflexivity|]. intros (sk & Hsk%rwrap_ok & [= <-])%rbind_ok.
  assert (H2 : same_outline s1 (set_sns_skyhook sk s1)).
  { split; [|done]. unfold sns_Name. simpl. unfold Migrate in Hsk. revert Hsk. case_bool_decide; [by intros [= <-]|].
    case_bool_decide; [|by intros [= <-]]. intros (sk' & [= <-] & [= <-])%rbind_ok. unfold SetVersion. by repeat case_bool_decide. }
  etrans; [exact H2|]. case_bool_decide; [apply ReportState_same|reflexivity].
Qed.

Lemma workloads_within nw prune : resource_within (reconcileLegacyLabeledWorkloads srv nw prune).
Proof.
  unfold reconcileLegacyLabeledWorkloads, list_labelled_pods. apply steps_bind; [apply _|auto with steps|]. intros pods.
  apply steps_bind; [apply _| |].
  - destruct prune; [|auto with steps]. apply steps_loop; [apply _|]. intros b pod _. unfold delete_legacy_pod, must_if_present. auto 8 with steps.
  - intros ch. apply steps_bind; [apply _| |auto with steps]. apply steps_loop; [apply _|]. intros acc key _.
    unfold sweep_key, list_configmaps. apply steps_bind; [apply _|auto with steps|]. intros cms. apply steps_loop; [apply _|].
    intros acc' cm _. unfold sweep_configmap. case_bool_decide; [auto with steps|]. destruct (adopt _ _ _) as [cm' []]; unfold must; auto 8 with steps.
Qed.

Lemma stamp_within prune had : resource_within (reconcileLegacyMigratedStamp srv now prune had).
Proof.
  assert (Hp : forall name v, resource_within (patchLegacyMigratedStamp srv name v)).
  { intros name v. unfold patchLegacyMigratedStamp, read_nodewright, write_nodewright. apply steps_bind; [apply _|auto with steps|].
    intros [nw|]; [|auto with steps]. destruct v; [|case_match]; auto 8 with steps. }
  unfold reconcileLegacyMigratedStamp. auto 10 with steps.
Qed.

Lemma migrate_within acc : resource_within (migrate_resource VERSION srv opts now acc).
Proof.
  unfold migrate_resource. apply steps_bind; [apply _|auto with steps|]. intros s0. apply steps_bind; [apply _| |intros _].
  { apply steps_wrap; [apply _|]. apply step_within; [apply _|]. intros s s' [] (s1 & H & [= <-])%rbind_ok. by apply sns_Migrate_same. }
  apply steps_bind; [apply _|auto with steps|]. intros s. apply steps_bind; [apply _|auto with steps|]. intros _.
  apply steps_bind; [apply _| |intros _].
  { apply within_modify. intros x. destruct (legacyCleanupShouldPrune _ _ _); [|reflexivity]. apply foldl_same. intros y name.
    unfold prune_node. apply with_node_same. intros f. split; [done|]. unfold f_name, set_full_Only. cbn [full_Only].
    unfold pruneLegacyNodePrefix. by repeat case_match. }
  apply steps_bind; [apply _| |intros acc1].
  { apply steps_loop; [apply _|]. intros acc' name _. unfold patch_migrated. auto 12 with steps. }
  apply steps_bind; [apply _|apply steps_wrap; [apply _|apply workloads_within]|]. intros [had ch].
  apply steps_bind; [apply _|auto with steps|]. intros s1. apply steps_bind; [apply _| |intros saved].
  { destruct (Updated _); [|auto with steps]. apply steps_bind; [apply _| |auto with steps]. unfold save_version, read_nodewright, write_nodewright.
    apply steps_bind; [apply _|auto with steps|]. intros s2. apply steps_bind; [apply _|auto with steps|]. intros _.
    apply steps_bind; [apply _|auto with steps|]. intros [nw|]; auto 8 with steps. }
  apply steps_bind; [apply _|apply stamp_within|]. auto with steps.
Qed.

Lemma HandleMigrations_within : cluster_within (HandleMigrations VERSION srv opts now).
Proof.
  unfold HandleMigrations. case_bool_decide; [auto with steps|]. apply steps_bind; [apply _| |intros []; auto with steps].
  apply each_resource_within. intros acc i. apply at_resource_within, migrate_within.
Qed.

Lemma TrackReboots_within : cluster_within (TrackReboots srv opts).
Proof.
  unfold TrackReboots. apply steps_bind; [apply _| |intros []; auto with steps].
  apply each_resource_within. intros acc i. apply at_resource_within, track_within.
Qed.

Lemma HandleAutoTaint_within rs : cluster_within (HandleAutoTaint srv opts rs).
Proof.
  unfold HandleAutoTaint. apply steps_bind; [apply _|auto with steps|]. intros t. apply steps_bind; [apply _|auto with steps|]. intros l.
  apply steps_bind; [apply _| |intros []; auto with steps]. apply steps_loop; [apply _|]. intros acc n _. unfold auto_taint, patch_node.
  destruct (AddOrUpdateTaint n t) as [n' u]. destruct (negb u); auto 8 with steps.
Qed.

Lemma HandleRuntimeRequired_within rs nodes : cluster_within (HandleRuntimeRequired srv opts rs nodes).
Proof.
  unfold HandleRuntimeRequired. apply steps_bind; [apply _|auto with steps|]. intros l.
  apply steps_bind; [apply _| |intros errs; apply steps_bind; [apply _| |auto with steps]].
  - apply steps_loop; [apply _|]. intros acc n _. unfold lift_gate, removeRuntimeRequiredTaints, attempts_at. auto 12 with steps.
  - apply steps_loop; [apply _|]. intros acc n _. unfold drop_stale_cordon, patch_node. auto 12 with steps.
Qed.

End Programs.
