(* ===== verification/Rollout.v ===== *)
(** * Running the packages of the resources

    Models the part of a pass that starts work:
    [RunSkyhookPackages], [processSkyhooksPerNode] and
    [hasReadyNodesForSkyhook] of
    [operator/internal/controller/skyhook_controller.go].

    A package holds a pointer to its interrupt in the
    specification of the resource, so a package that is run is read through the
    specification ([current_interrupt]), and what
    [fudgeInterruptWithPriority] writes goes there ([write_interrupts]).  One
    clock reading, [now], stands for those of a pass.  A step that fails leaves
    the memory as it was before it: its caller returns, and nothing that it had
    changed is saved. *)

From S2P Require Import Prelude Effects Sha256 Graph Float64 DeploymentPolicy Api NodeState Skyhook Interrupts Conditions Text Node Migration Compartment ClusterState Partition Introspect Drain Options Report Merge Jobs JobBuilder Server Executor Sweep Save Uninstall Frame Cluster Outline.

#[local] Open Scope Z_scope.
#[local] Open Scope go_scope.

(* ------------------------------------------------------------------ *)
(** ** Interrupts behind pointers *)

Definition set_pkg_Interrupt (v : option Interrupt) (p : Package) : Package :=
  {| pkg_Ref := pkg_Ref p; pkg_Image := pkg_Image p; pkg_ContainerSHA := pkg_ContainerSHA p;
     pkg_AgentImageOverride := pkg_AgentImageOverride p; pkg_Interrupt := v; pkg_DependsOn := pkg_DependsOn p;
     pkg_ConfigInterrupts := pkg_ConfigInterrupts p; pkg_ConfigMap := pkg_ConfigMap p; pkg_Env := pkg_Env p;
     pkg_Resources := pkg_Resources p; pkg_GracefulShutdown := pkg_GracefulShutdown p;
     pkg_StageTimeout := pkg_StageTimeout p; pkg_Uninstall := pkg_Uninstall p |}.

(** Follow the pointers. *)
Definition current_interrupt (s : skyhookNodes) (p : Package) : Package :=
  match pkg_Interrupt p, sp_Packages (sns_Spec s) !! pkg_Name p ≫= pkg_Interrupt with
  | Some _, Some i => set_pkg_Interrupt (Some i) p
  | _, _ => p
  end.

Definition pointed (st : store) (p : Package) : Package :=
  match pkg_Interrupt p, st_own st !! pkg_Name p with
  | Some _, Some i => set_pkg_Interrupt (Some i) p
  | _, _ => p
  end.

Definition write_interrupts (st : store) (s : skyhookNodes) : skyhookNodes :=
  on_skyhook (fun sk =>
    {| sk_nw := set_Spec (set_sp_Packages (pointed st <$> sp_Packages (sk_Spec sk)) (sk_Spec sk)) (sk_nw sk);
       Updated := Updated sk |}) s.

Section Rollout.
Context `{MR : MapRange} `{JS : NodeStateJSON} `{TT : TimeText} `{SV : Semver} `{PJ : PackageJSON} `{TS : TaintSyntax}
  `{QQ : Quantities} `{SE : Selectors} `{SM : StrategicMerge} `{AE : AgentEncoding}.
Context (srv : server) (opts : SkyhookOperatorOptions) (original : string -> option Node) (now : Z).

Local Notation P := (M api_call cluster).

(* ------------------------------------------------------------------ *)
(** ** The packages of a node *)

(** Go on, and whether to come back soon; or stop at once. *)
Inductive flow := Go (requeue : bool) | Stop.

Definition run_package (i : nat) (name : string) (interrupt : option Interrupt) (pack : string) (acc : flow) (f : Package)
  : P flow :=
  match acc with
  | Stop => ret Stop
  | Go requeue =>
      let args := [pkg_Name f; pkg_Version f] in
      let runInterrupt := (if interrupt then true else false) && bool_decide (pkg_Name f = pack) in
      let* ok := wrap "error processing if we should interrupt [%s:%s]: %w" args
                   (at_resource i (at_node name (ProcessInterrupt srv opts now f interrupt runInterrupt))) in
      if negb ok then ret (Go true)
      else
        let* _ := wrap "error applying package [%s:%s]: %w" args
                    (at_resource i (at_node name (ApplyPackage srv opts now f))) in
        let* s := resource i in
        ret (if Serial (sns_Spec s) then Stop else Go requeue)
  end.

(** The interrupt that the node runs, and for which package. *)
Definition choose_interrupt (toRun : list Package) (s : skyhookNodes) : skyhookNodes * (option Interrupt * string) :=
  let '(st, ret) := fudgeInterruptWithPriority toRun (GetConfigUpdates (sns_skyhook s)) (GetConfigInterrupts (sns_skyhook s)) in
  (write_interrupts st s, match ret with Some (pack, r) => (read st r, pack) | None => (None, "") end).

Definition run_node (i : nat) (toUninstall : list Package) (acc : flow) (name : string) : P flow :=
  match acc with
  | Stop => ret Stop
  | Go _ =>
      let* s := resource i in
      let* rs := all_resources in
      match find_entry s name with
      | None => ret acc
      | Some e =>
          if negb (IsNodeReadyForSkyhook name s rs) then ret acc
          else if entry_IsComplete s e && negb (sn_updated (ne_Only e)) then ret acc
          else
            let* toRun := lift (packages_to_run (beingDeleted s) toUninstall (as_node s e)) in
            let toRun := map (current_interrupt s) toRun in
            let* '(interrupt, pack) := at_resource i (step (fun s => Ok (choose_interrupt toRun s))) in
            loop (run_package i name interrupt pack) acc toRun
      end
  end.

(* ------------------------------------------------------------------ *)
(** ** One resource *)

(** The requeue; with an error the pass has none. *)
Definition RunSkyhookPackages (i : nat) : P (option Z) :=
  let* toExplicitUninstall := wrap "error handling uninstall requests: %w" [] (at_resource i (step HandleUninstallRequests)) in
  let* _ := wrap "error handling cancelled uninstalls: %w" []
              (at_resource i (step (fun s => rbind (HandleCancelledUninstalls s) (fun s => Ok (s, tt))))) in
  let* toUninstall := wrap "error getting packages to uninstall: %w" [] (at_resource i (step HandleVersionChange)) in
  let* rs := all_resources in
  let* changed := at_resource i (step (fun s => Ok (IntrospectSkyhook now s rs))) in
  let* s := resource i in
  if negb changed && sns_IsComplete s then ret None
  else
    let* np := gets cl_picker in
    let* '(np, selected) := at_resource i (step (fun s => rbind (SelectNodes now np s) (fun pk =>
                              Ok (pk_state pk, (pk_picker pk, pk_selected pk))))) in
    let* _ := modify (set_cl_picker np) in
    let* out := loop (run_node i (toExplicitUninstall ++ toUninstall)) (Go false) selected in
    match out with
    | Stop => ret (Some requeue_soon)
    | Go requeue =>
        let* saved := at_resource i (save_all srv opts original now) in
        let* s := resource i in
        ret (if negb (sns_IsComplete s) || requeue || saved then Some requeue_soon else None)
    end.

(* ------------------------------------------------------------------ *)
(** ** All resources *)

Fixpoint has_ready_node (pendingUninstall : bool) (s : skyhookNodes) (rs : list skyhookNodes) (nodes : list NodeEntry) : bool :=
  match nodes with
  | [] => false
  | e :: nodes =>
      if entry_IsComplete s e && negb pendingUninstall then has_ready_node pendingUninstall s rs nodes
      else IsNodeReadyForSkyhook (entry_name e) s rs || has_ready_node pendingUninstall s rs nodes
  end.

Definition hasReadyNodesForSkyhook (s : skyhookNodes) (rs : list skyhookNodes) : res bool :=
  rbind (HasUninstallWork s) (fun pendingUninstall => Ok (has_ready_node pendingUninstall s rs (sns_nodes s))).

(** Whether [processSkyhooksPerNode] goes on to run a resource. *)
Definition to_process (s : skyhookNodes) (rs : list skyhookNodes) : res bool :=
  if sns_IsDisabled s || sns_IsPaused s then Ok false
  else
    rbind (rwrap "error checking uninstall work for nodewright %s: %w" [sns_Name s] (HasUninstallWork s)) (fun hasWork =>
    if sns_IsComplete s && negb hasWork then Ok false
    else rwrap "error checking ready nodes for nodewright %s: %w" [sns_Name s] (hasReadyNodesForSkyhook s rs)).

Definition process_resource (acc : option Z * list error) (i : nat) : P (option Z * list error) :=
  let* s := resource i in
  let* rs := all_resources in
  match to_process s rs with
  | Panic => lift Panic
  | Err e => ret (acc.1, acc.2 ++ [e])
  | Ok false => ret acc
  | Ok true => fun p =>
      match RunSkyhookPackages i p with
      | (p, Ok res) => (p, Ok (match res with Some _ => res | None => acc.1 end, acc.2))
      | (p, Err e) => (p, Ok (acc.1, acc.2 ++ [e]))
      | (p, Panic) => (p, Panic)
      end
  end.

Definition processSkyhooksPerNode : P (option Z) :=
  let* rs := all_resources in
  let* '(result, errs) := loop process_resource (None, []) (seq 0 (length rs)) in
  let* _ := lift (aggregate errs) in
  ret result.

(* ------------------------------------------------------------------ *)
(** ** Lemmas: the Jobs of a node *)

(** The wrapper of node [name] in the resource of that name and priority. *)
Definition located (sky : string) (priority : Z) (name : string) (f : SkyhookNode) : Prop :=
  f_skyhook_name f = sky /\ f_name f = name /\ Priority (sk_Spec (full_skyhook f)) = priority.

(** A Job that is created is on this node, for this resource. *)
Definition job_of (sky name : string) (c : api_call) : Prop :=
  match c with
  | CreateJob job => job_NodeName (sj_Job job) = name /\ job_Labels (sj_Job job) !! prefixed_key "name" = Some sky
  | _ => True
  end.

Lemma jobFromPod_of pod skyhook p stage nodeName interrupt : psp_NodeName (bp_Spec pod) = nodeName ->
  job_of (nw_Name (sk_nw skyhook)) nodeName
    (CreateJob (setJobPackage skyhook stage p (jobFromPod opts pod skyhook p stage nodeName interrupt))).
Proof.
  intros <-. split; [by destruct interrupt; [|simpl; case_if]|]. change (jobLabels skyhook p stage (psp_NodeName (bp_Spec pod)) interrupt !! prefixed_key "name" = Some (nw_Name (sk_nw skyhook))).
  unfold jobLabels. destruct interrupt; [rewrite lookup_insert_ne by done|]; by rewrite lookup_insert_eq.
Qed.

Lemma created_of p skyhook nodeName stage j : createJobFromPackage opts p skyhook nodeName stage = Ok j ->
  job_of (nw_Name (sk_nw skyhook)) nodeName (CreateJob (setJobPackage skyhook stage p j)).
Proof.
  intros (pod & Hpod & [= <-])%rbind_ok. apply jobFromPod_of. unfold createPodFromPackage in Hpod.
  apply rbind_ok in Hpod as (tolerations & _ & [= <-]). done.
Qed.

Lemma interrupt_of i args p skyhook nodeName stage j :
  createInterruptJobFromPackage opts i args p skyhook nodeName stage = Ok j ->
  job_of (nw_Name (sk_nw skyhook)) nodeName (CreateJob (setJobPackage skyhook stage p j)).
Proof.
  intros (pod & Hpod & [= <-])%rbind_ok. apply jobFromPod_of. unfold createInterruptPodForPackage in Hpod.
  apply rbind_ok in Hpod as (tolerations & _ & [= <-]). done.
Qed.

Lemma located_steady sky priority name f f' : steady_node f f' -> located sky priority name f -> located sky priority name f'.
Proof.
  intros [[st H] Hn] (H1 & H2 & H3). unfold located, f_skyhook_name, sk_Spec. rewrite H. split_and!; [exact H1|congruence|exact H3].
Qed.

Section Located.
Context (sky : string) (priority : Z) (name : string).
Local Notation located_keeps := (keeps (located sky priority name) (job_of sky name)).

Lemma located_modify g : (forall f, steady_node f (g f)) -> steps located_keeps (modify g).
Proof. intros H. apply keeps_modify. intros f Hf. eapply located_steady; [apply H|exact Hf]. Qed.

Lemma located_call {A} c (answer : list api_call -> res A) : is_create c = false -> steps located_keeps (call c answer).
Proof. intros H. apply keeps_call. by destruct c. Qed.

#[local] Hint Extern 1 (steps (keeps _ _) (call _ _)) => apply located_call; reflexivity : steps.

Lemma upsert_located sk node : steps located_keeps (UpsertNodeLabelsAnnotationsPackages srv opts sk node).
Proof. unfold UpsertNodeLabelsAnnotationsPackages, read_configmap, must. auto 12 with steps. Qed.

Lemma handleExistingJob_located want p stage : steps located_keeps (handleExistingJob srv opts want p stage).
Proof. unfold handleExistingJob, read_job, delete_job_foreground, must_if_present. auto 16 with steps. Qed.

Lemma create_job_located fmt job p stage k : job_of sky name (CreateJob job) -> steps located_keeps k ->
  steps located_keeps (create_job srv opts fmt job p stage k).
Proof.
  intros Hj Hk. unfold create_job. apply steps_bind; [apply _| |].
  - unfold send_write. by apply keeps_call.
  - intros []; auto with steps. apply handleExistingJob_located.
Qed.

Lemma r_Interrupt_located p interrupt stage : steps located_keeps (r_Interrupt srv opts p interrupt stage).
Proof.
  unfold r_Interrupt, HasRunningPackages, JobExists, upsert_metadata, list_jobs.
  apply steps_bind; [apply _|auto 8 with steps|]. intros []; [auto with steps|].
  apply keeps_reads. intros f (Hs & Hn & _).
  apply steps_bind; [apply _|auto 8 with steps|]. intros []; [auto with steps|].
  apply steps_bind; [apply _|auto using upsert_located with steps|]. intros [].
  apply steps_bind; [apply _|auto with steps|]. intros i. intros s.
  unfold bind at 1, lift. destruct (createInterruptJobFromPackage _ _ _ _ _ _ _) as [j|e|] eqn:Hj; [|reflexivity..].
  revert s. apply create_job_located.
  - rewrite <- Hs, <- Hn. exact (interrupt_of _ _ _ _ _ _ _ Hj).
  - apply located_modify. intros. apply node_Upsert_steady.
Qed.

Lemma record_start_steady p stage f : steady_node f (record_start now p stage f).
Proof.
  unfold record_start. etrans; [apply (node_Upsert_steady (pkg_Ref p) (pkg_Image p) StateInProgress stage 0 (pkg_ContainerSHA p))|].
  etrans; [apply (node_SetStatus_steady StatusInProgress)|]. apply set_skyhook_steady, touch_only, AddSkyhookConditionWithLegacy_only.
Qed.

Lemma ApplyPackage_located p : steps located_keeps (ApplyPackage srv opts now p).
Proof.
  unfold ApplyPackage, JobExists, upsert_metadata, list_jobs. apply keeps_reads. intros f (Hs & Hn & _).
  case_bool_decide; [auto with steps|]. apply steps_bind; [apply _|auto 8 with steps|]. intros exists_.
  destruct (IsSkipped _); [auto with steps|]. destruct exists_; [auto with steps|].
  apply steps_bind; [apply _|auto using upsert_located with steps|]. intros [].
  intros s. unfold bind at 1, lift. destruct (createJobFromPackage _ _ _ _ _) as [j|e|] eqn:Hj; [|reflexivity..].
  revert s. apply create_job_located.
  - rewrite <- Hs, <- Hn. exact (created_of _ _ _ _ _ Hj).
  - apply located_modify. intros. apply record_start_steady.
Qed.

Lemma IsDrained_located : steps located_keeps (IsDrained srv opts).
Proof. unfold IsDrained, list_pods. auto 8 with steps. Qed.

Lemma evict_all_located : steps located_keeps (evict_all srv opts).
Proof.
  unfold evict_all, drain_pods, list_pods. apply keeps_reads. intros f _.
  apply steps_bind; [apply _|auto with steps|]. intros [|pod pods]; [auto with steps|].
  apply steps_bind; [apply _| |intros [errs w]; auto 8 with steps].
  apply steps_loop; [apply _|]. intros acc pod' _. unfold drain_pod, must. auto 8 with steps.
Qed.

Lemma DrainNode_located : steps located_keeps (DrainNode srv opts now).
Proof.
  unfold DrainNode. apply steps_bind; [apply _|apply IsDrained_located|]. intros [].
  { apply steps_bind; [apply _| |auto with steps]. apply located_modify. intros f. apply set_Only_steady.
    unfold ClearDrainStart. by case_match. }
  apply keeps_reads. intros f _. apply steps_bind; [apply _|auto with steps|]. intros [startedAt|].
  - destruct (TimedOut _ _ _); [|apply evict_all_located]. apply steps_bind; [apply _| |auto with steps].
    apply located_modify. intros g. apply node_SetStatus_steady.
  - apply steps_bind; [apply _| |intros; apply evict_all_located]. apply located_modify. intros g.
    etrans; [|apply node_SetStatus_steady]. apply set_Only_steady. unfold StartDrain. by case_match.
Qed.

Lemma Ensure_located : steps located_keeps (EnsureNodeIsReadyForInterrupt srv opts now).
Proof.
  unfold EnsureNodeIsReadyForInterrupt. apply keeps_reads. intros f Hf. destruct (Cordon (full_Only (id f))) as [n c] eqn:Ec.
  assert (Hn : n_Name (sn_Node n) = name).
  { unfold Cordon in Ec. destruct Hf as (_ & <- & _). revert Ec. case_match; intros [= <- _]; done. }
  apply steps_bind; [apply _| |].
  - apply keeps_modify. intros g Hg. eapply located_steady; [|exact Hg]. apply set_Only_steady. by destruct Hg as (_ & -> & _).
  - intros _. destruct c; [auto with steps|]. apply steps_bind; [apply _| |].
    + unfold HasNonInterruptWork, list_selected_pods. auto 8 with steps.
    + intros []; [auto with steps|]. apply steps_wrap; [apply _|apply DrainNode_located].
Qed.

Lemma ProcessInterrupt_located p interrupt runInterrupt :
  steps located_keeps (ProcessInterrupt srv opts now p interrupt runInterrupt).
Proof.
  unfold ProcessInterrupt. apply keeps_reads. intros f _. destruct (negb _); [auto with steps|].
  destruct (IsSkipped _).
  { apply steps_bind; [apply _| |auto with steps]. apply located_modify. intros g.
    destruct runInterrupt; [apply ProgressSkipped_steady|reflexivity]. }
  apply steps_bind; [apply _| |intros _; apply steps_bind; [apply _| |intros ready; destruct (negb ready); [auto with steps|]]].
  - destruct (node_PackageStatus _ _) as [st|]; [|auto with steps]. destruct (_ && _); [apply r_Interrupt_located|auto with steps].
  - destruct (_ || _); [apply Ensure_located|auto with steps].
  - unfold interrupt_steps. destruct (_ && _).
    { apply steps_bind; [apply _|apply r_Interrupt_located|auto with steps]. }
    destruct (_ && _).
    { apply steps_bind; [apply _| |auto with steps]. apply located_modify. intros. apply node_Upsert_steady. }
    destruct (node_PackageStatus _ _) as [st|]; [|auto with steps]. destruct (_ && _); [|destruct (_ && _); auto with steps].
    apply steps_bind; [apply _|apply r_Interrupt_located|auto with steps].
Qed.

End Located.

(* ------------------------------------------------------------------ *)
(** ** Lemmas: a resource that is run *)

(** The resource [s0], as far as its place in the order goes. *)
Definition placed (s0 s : skyhookNodes) : Prop :=
  sns_Name s = sns_Name s0 /\ Priority (sns_Spec s) = Priority (sns_Spec s0) /\ node_names s = node_names s0.

Lemma placed_steady s0 s s' : steady s s' -> placed s0 s -> placed s0 s'.
Proof.
  intros [[st H] Hn] (H1 & H2 & H3). unfold placed, sns_Name, sns_Spec, sk_Spec. rewrite H. split_and!; [exact H1|exact H2|congruence].
Qed.

Lemma steps_step {S A} (I : S -> Prop) (Q : api_call -> Prop) (f : S -> res (S * A)) :
  (forall s s' a, f s = Ok (s', a) -> I s -> I s') -> steps (keeps I Q) (step f).
Proof.
  intros H s Hs. unfold step. destruct (f (mem s)) as [[m a]|e|] eqn:E; (split; [|exists []; simpl; by rewrite app_nil_r]);
    [by eapply H|done..].
Qed.

Section Turn.
Context (rs0 : list skyhookNodes) (i : nat) (s0 : skyhookNodes) (Hi : rs0 !! i = Some s0).
#[local] Set Default Proof Using "Type*".

Lemma at_node_placed {A} Q name (m : M api_call SkyhookNode A) :
  steps (keeps (located (sns_Name s0) (Priority (sns_Spec s0)) name) Q) m -> steps (keeps (placed s0) Q) (at_node name m).
Proof.
  intros Hm s (H1 & H2 & H3). unfold at_node. destruct (find_entry (mem s) name) as [e|] eqn:E; [|by split; [|exists []; rewrite app_nil_r]].
  destruct (Hm {| trace := trace s; mem := as_node (mem s) e |}) as ((L1 & L2 & L3) & t & Ht & Hq).
  { split_and!; [exact H1|by apply find_entry_name in E|exact H2]. }
  destruct (m _) as [p r]. cbn [fst mem trace] in *. split; [|by exists t]. split_and!; [exact L1|exact L3|].
  rewrite <- H3. unfold node_names, put_node. simpl. rewrite map_map. apply map_ext. intros e'. by case_bool_decide.
Qed.

(** The other resources stay as they are. *)
Definition turn (c : cluster) : Prop := exists s, cl_resources c = <[i := s]> rs0 /\ placed s0 s.

Lemma at_resource_turn {A} Q (m : M api_call skyhookNodes A) :
  steps (keeps (placed s0) Q) m -> steps (keeps turn Q) (at_resource i m).
Proof.
  intros Hm c (s & Hs & Hp). unfold at_resource. rewrite Hs.
  assert (Hlt : (i < length rs0)%nat) by (by eapply lookup_lt_Some).
  rewrite list_lookup_insert_eq by done. destruct (Hm {| trace := trace c; mem := s |} Hp) as (Hp' & t & Ht & Hq).
  destruct (m _) as [p r]. cbn [fst mem trace] in *. split; [|by exists t]. exists (mem p). split; [|done].
  simpl. by rewrite list_insert_insert_eq.
Qed.

Lemma not_before_placed s other : placed s0 s -> not_before other s = not_before other s0.
Proof. intros (H1 & H2 & _). unfold not_before. by rewrite H1, H2. Qed.

Lemma not_before_own s s' : placed s0 s -> placed s0 s' -> not_before s' s = true.
Proof.
  intros (H1 & H2 & _) (H3 & H4 & _). unfold not_before. rewrite H1, H2, H3, H4, Z.ltb_irrefl, Z.eqb_refl. simpl.
  apply str_le_refl.
Qed.

Lemma ready_ext name s rs : placed s0 s -> IsNodeReadyForSkyhook name s rs = IsNodeReadyForSkyhook name s0 rs.
Proof.
  intros Hp. induction rs as [|other rs IH]; [done|]. cbn [IsNodeReadyForSkyhook].
  by rewrite IH, (not_before_placed s other Hp).
Qed.

Lemma ready_insert name s' j l : l !! j = Some s0 -> placed s0 s' ->
  IsNodeReadyForSkyhook name s0 (<[j := s']> l) = IsNodeReadyForSkyhook name s0 l.
Proof.
  assert (H0 : placed s0 s0) by done. intros Hl Hp. revert l Hl; induction j as [|j IH]; intros [|other l] Hl; try done; simpl in *.
  - injection Hl as ->. rewrite (not_before_own s0 s'), (not_before_own s0 s0) by done. by destruct (sns_IsDisabled _), (sns_IsDisabled _).
  - by rewrite IH.
Qed.

(** It is the turn of this node. *)
Definition may_start (name : string) : Prop := name ∈ node_names s0 /\ IsNodeReadyForSkyhook name s0 rs0 = true.

Definition in_turn (c : api_call) : Prop := match c with CreateJob job => exists name, may_start name /\ job_of (sns_Name s0) name c | _ => True end.

Lemma job_in_turn name c : may_start name -> job_of (sns_Name s0) name c -> in_turn c.
Proof. intros Hn. destruct c; try done. intros H. by exists name. Qed.

Lemma resource_reads {A} Q (k : skyhookNodes -> P A) :
  (forall s, placed s0 s -> steps (keeps turn Q) (k s)) -> steps (keeps turn Q) (bind (resource i) k).
Proof.
  intros Hk c (s & Hs & Hp). unfold bind, resource, at_resource. rewrite Hs, list_lookup_insert_eq by (by eapply lookup_lt_Some).
  unfold gets. cbn [id mem trace]. rewrite list_insert_insert_eq.
  apply (Hk s Hp {| trace := trace c; mem := set_cl_resources (<[i:=s]> rs0) (mem c) |}). by exists s.
Qed.

Lemma run_package_turn name interrupt pack acc f : may_start name ->
  steps (keeps turn in_turn) (run_package i name interrupt pack acc f).
Proof.
  intros Hn. unfold run_package. destruct acc as [requeue|]; [|auto with steps].
  assert (Hin : forall A (m : M api_call SkyhookNode A),
    (forall sky priority name, steps (keeps (located sky priority name) (job_of sky name)) m) ->
    steps (keeps turn in_turn) (at_resource i (at_node name m))).
  { intros A m Hm. apply at_resource_turn, at_node_placed. eapply keeps_weaken; [|apply Hm]. intros c. by apply job_in_turn. }
  apply steps_bind; [apply _|apply steps_wrap; [apply _|]; apply Hin; intros; apply ProcessInterrupt_located|].
  intros ok. destruct (negb ok); [auto with steps|].
  apply steps_bind; [apply _|apply steps_wrap; [apply _|]; apply Hin; intros; apply ApplyPackage_located|].
  intros _. apply resource_reads. intros s _. auto with steps.
Qed.

Lemma choose_interrupt_placed l s s' a : choose_interrupt l s = (s', a) -> placed s0 s -> placed s0 s'.
Proof.
  unfold choose_interrupt. destruct (fudgeInterruptWithPriority _ _ _) as [st o]. by intros [= <- _].
Qed.

Lemma run_node_turn toUninstall acc name : steps (keeps turn in_turn) (run_node i toUninstall acc name).
Proof.
  unfold run_node. destruct acc as [requeue|]; [|auto with steps]. apply resource_reads. intros s Hs.
  apply keeps_reads. intros c (s' & Hc & Hs'). rewrite Hc. destruct (find_entry s name) as [e|] eqn:He; [|auto with steps].
  rewrite (ready_ext name s _ Hs), ready_insert by done. destruct (IsNodeReadyForSkyhook name s0 rs0) eqn:Hr; cbn [negb]; [|auto with steps].
  assert (Hn : may_start name).
  { split; [|done]. destruct Hs as (_ & _ & <-). apply list_elem_of_fmap. exists e.
    split; [symmetry; by eapply find_entry_name|]. by apply find_some in He as [?%list_elem_of_In _]. }
  destruct (_ && _); [auto with steps|]. apply steps_bind; [apply _|auto with steps|]. intros toRun.
  apply steps_bind; [apply _| |].
  - apply at_resource_turn, steps_step. intros x x' a [= E] Hx. by eapply choose_interrupt_placed.
  - intros [interrupt pack]. apply steps_loop; [apply _|]. intros acc f _. by apply run_package_turn.
Qed.

(** After the save the resource may be anything the server returned. *)
Definition others_kept (c : cluster) : Prop := exists s, cl_resources c = <[i := s]> rs0 /\ same_outline s0 s.

Definition in_its_turn {A} (m : P A) : Prop := forall c, turn (mem c) ->
  others_kept (mem (m c).1) /\ emits in_turn c (m c).1.

Lemma turn_kept c : turn c -> others_kept c.
Proof. intros (s & H & H1 & _ & H2). by exists s. Qed.

Lemma turn_bind {A B} (m : P A) (k : A -> P B) : steps (keeps turn in_turn) m -> (forall a, in_its_turn (k a)) ->
  in_its_turn (bind m k).
Proof.
  intros Hm Hk c Hc. unfold bind. destruct (Hm c Hc) as (Hc1 & t & Ht & Hq). destruct (m c) as [c1 [a|e|]]; cbn [fst] in *;
    [|by split; [apply turn_kept|exists t]..].
  destruct (Hk a c1 Hc1) as (H & t' & Ht' & Hq'). split; [done|]. exists (t ++ t'). rewrite Ht', Ht, app_assoc.
  split; [done|by apply Forall_app].
Qed.

Lemma turn_keeps {A} (m : P A) : steps (keeps turn in_turn) m -> in_its_turn m.
Proof. intros Hm c Hc. destruct (Hm c Hc) as (H & Ht). split; [by apply turn_kept|done]. Qed.

Lemma kept_turn {A} (m : P A) : steps (keeps others_kept in_turn) m -> in_its_turn m.
Proof. intros Hm c Hc. by apply Hm, turn_kept. Qed.

Lemma at_resource_kept {A} (m : M api_call skyhookNodes A) : steps (within same_outline no_job) m ->
  steps (keeps others_kept in_turn) (at_resource i m).
Proof.
  intros Hm c (s & Hs & Ho). unfold at_resource. rewrite Hs, list_lookup_insert_eq by (by eapply lookup_lt_Some).
  destruct (Hm {| trace := trace c; mem := s |}) as [Ho' (t & Ht & Hq)]. destruct (m _) as [p r]. cbn [fst mem trace] in *.
  split; [exists (mem p); split; [simpl; by rewrite list_insert_insert_eq|by etrans]|]. exists t. split; [done|].
  eapply Forall_impl; [exact Hq|]. by intros [].
Qed.

Lemma steady_turn {A} (f : skyhookNodes -> res (skyhookNodes * A)) : (forall s s' a, f s = Ok (s', a) -> steady s s') ->
  steps (keeps turn in_turn) (at_resource i (step f)).
Proof. intros H. apply at_resource_turn, steps_step. intros s s' a E. by eapply placed_steady, H. Qed.

Lemma RunSkyhookPackages_turn : in_its_turn (RunSkyhookPackages i).
Proof.
  unfold RunSkyhookPackages.
  apply turn_bind; [apply steps_wrap; [apply _|]; apply steady_turn, HandleUninstallRequests_steady|]. intros l1.
  apply turn_bind.
  { apply steps_wrap; [apply _|]. apply steady_turn. intros s s' [] (s1 & H & [= <-])%rbind_ok. by apply HandleCancelledUninstalls_steady. }
  intros _. apply turn_bind; [apply steps_wrap; [apply _|]; apply steady_turn, HandleVersionChange_steady|]. intros l2.
  apply turn_bind; [apply steps_gets; apply _|]. intros rs. apply turn_bind.
  { apply steady_turn. intros s s' a [= H]. pose proof (IntrospectSkyhook_steady now s rs) as E. by rewrite H in E. }
  intros changed. apply turn_bind; [apply at_resource_turn; auto with steps|]. intros s.
  destruct (_ && _); [apply turn_keeps; auto with steps|].
  apply turn_bind; [apply steps_gets; apply _|]. intros np. apply turn_bind.
  { apply steady_turn. intros x x' a (pk & H & [= <- _])%rbind_ok. by eapply SelectNodes_steady. }
  intros [np' selected]. apply turn_bind; [by apply keeps_modify|]. intros _.
  apply turn_bind; [apply steps_loop; [apply _|]; intros; apply run_node_turn|]. intros [requeue|]; [|apply turn_keeps; auto with steps].
  apply kept_turn. apply steps_bind; [apply _|apply at_resource_kept, save_all_within|]. intros saved.
  apply steps_bind; [apply _|apply at_resource_kept; auto with steps|]. intros s1. auto with steps.
Qed.

End Turn.

Lemma process_resource_turn (acc : option Z * list error) (i : nat) (p : Effects.pass api_call cluster) (s0 : skyhookNodes) :
  cl_resources (mem p) !! i = Some s0 ->
  let '(p', r) := process_resource acc i p in
  others_kept (cl_resources (mem p)) i s0 (mem p') /\
  (sns_IsDisabled s0 || sns_IsPaused s0 = true -> p' = p /\ r = Ok acc) /\
  emits (in_turn (cl_resources (mem p)) s0) p p'.
Proof.
  intros Hi. set (rs0 := cl_resources (mem p)) in *.
  assert (Ht : turn rs0 i s0 (mem p)) by (exists s0; rewrite list_insert_id by done; done).
  assert (Hk : others_kept rs0 i s0 (mem p)) by (by apply turn_kept).
  unfold process_resource, bind at 1, resource, at_resource. fold rs0. rewrite Hi. unfold gets at 1. cbn [id mem trace].
  assert (Hp : {| trace := trace p; mem := set_cl_resources (<[i:=s0]> rs0) (mem p) |} = p).
  { rewrite list_insert_id by done. unfold rs0. destruct p as [t []]. done. }
  rewrite Hp. unfold bind at 1, all_resources, gets. fold rs0.
  assert (Hoff : sns_IsDisabled s0 || sns_IsPaused s0 = true -> to_process s0 rs0 = Ok false)
    by (intros H; unfold to_process; by rewrite H).
  destruct (to_process s0 rs0) as [[]|e|].
  - assert (Hrun : in_its_turn rs0 i s0 (RunSkyhookPackages i)) by (by apply RunSkyhookPackages_turn).
    destruct (Hrun p Ht) as [H1 H2].
    destruct (RunSkyhookPackages i p) as [p' [res|e|]]; (split_and!; [exact H1|by intros ?%Hoff|exact H2]).
  - split_and!; [done|done|reflexivity].
  - split_and!; [done|by intros ?%Hoff|reflexivity].
  - split_and!; [done|by intros ?%Hoff|reflexivity].
Qed.

(* ------------------------------------------------------------------ *)
(** ** Property *)


End Rollout.

(* ------------------------------------------------------------------ *)
(** ** Witnesses *)

#[local] Existing Instance braced_json.
#[local] Existing Instance merge_strings.
#[local] Existing Instance example_time.
#[local] Existing Instance package_text.
#[local] Existing Instance example_syntax.
#[local] Existing Instance text_quantities.
#[local] Existing Instance text_semver.
#[local] Existing Instance blank_encoding.
#[local] Existing Instance no_selectors.

Definition tools_spec (serial : bool) : NodeWrightSpec :=
  let s := plain_spec {["tools" := tools]} in
  {| Serial := serial; PodNonInterruptLabels := PodNonInterruptLabels s; NodeSelector := NodeSelector s;
     sp_DeploymentPolicy := ""; DeploymentPolicyOptions := DeploymentPolicyOptions s;
     sp_InterruptionBudget := sp_InterruptionBudget s; sp_DrainConfig := sp_DrainConfig s; sp_Packages := sp_Packages s;
     AdditionalTolerations := []; RuntimeRequired := false; RuntimeRequiredCordonAfter := false;
     AutoTaintNewNodes := false; Priority := 200; Sequencing := SequencingNode |}.

Definition fresh_node : Node :=
  {| n_Name := "node1"; n_UID := "u1"; n_CreationTimestamp := 0; n_Labels := ∅; n_Annotations := ∅; n_Taints := [];
     n_Unschedulable := false; n_Conditions := []; n_BootID := "b1" |}.

(** One resource on one node, as a pass finds them. *)
Definition new_cluster (serial : bool) : cluster :=
  {| cl_resources := match BuildState 0 [plain_nodewright "tuning" (tools_spec serial) empty_status] [fresh_node] [] with
                     | Ok rs => rs | _ => [] end;
     cl_picker := NewNodePicker [] |}.

Definition first_pass (serial : bool) : Effects.pass api_call cluster * res (option Z * list error) :=
  process_resource quiet_server default_options (fun _ => Some fresh_node) 0 (None, []) 0
    {| trace := []; mem := new_cluster serial |}.

Definition created (t : list api_call) : list StageJob := omap (fun c => match c with CreateJob job => Some job | _ => None end) t.
Definition saved_nodes (t : list api_call) : list Node := omap (fun c => match c with SaveNode _ _ node => Some node | _ => None end) t.


(** The completed Job of the first package, which the Job controller has marked. *)
Definition completed_job (job : StageJob) : StageJob :=
  set_sj {| job_Name := job_Name (sj_Job job); job_Labels := job_Labels (sj_Job job);
            job_Annotations := <[annotationStateRecorded := "true"]> (job_Annotations (sj_Job job));
            job_Deleted := false; job_NodeName := job_NodeName (sj_Job job);
            job_Conditions := [{| jc_Type := "Complete"; jc_Status := "True"; jc_Reason := ""; jc_LastTransitionTime := 0 |}];
            job_Failed := 0 |} (sj_Template job) job.

(** A pass over a [serial] resource returns right after it started a Job, before
    it saves: the node never records that the package is in progress, so the
    Job's completion is not recorded, and the sweep deletes the Job for it to be
    run again.  The same pass without [serial] saves the node. *)
Example serial_start_is_not_saved :
  length (saved_nodes (trace (first_pass false).1)) = 1%nat /\
  saved_nodes (trace (first_pass true).1) = [] /\
  exists job pkg s, created (trace (first_pass true).1) = [job] /\
    GetPackage (job_Annotations (sj_Job job)) = Ok (Some pkg) /\
    shouldRecordCompletion (sj_Job (completed_job job)) pkg fresh_node = Ok false /\
    cl_resources (new_cluster true) !! 0%nat = Some s /\
    shouldDeleteFinishedJob default_options (completed_job job) pkg ∅ s = Ok true.
Proof.
  split; [by vm_compute|]. split; [by vm_compute|].
  eexists _, _, _. split; [by vm_compute|]. split; [by vm_compute|]. split; [by vm_compute|]. split; by vm_compute.
Qed.
