(* ===== verification/Drains.v ===== *)
(** * Drains and cordons

    Pods are removed in [EnsureNodeIsReadyForInterrupt] only ([Executor]), and it
    is called once for every package with an interrupt that the pass runs on a
    node ([Rollout.run_node]).  This file shows when a node that is not cordoned
    yet keeps its pods for the rest of the pass, and that it does not when two
    packages with an interrupt are run on it. *)

From S2P Require Import Prelude Effects Sha256 Graph Float64 DeploymentPolicy Api NodeState Skyhook Interrupts Conditions Text Node Migration Compartment ClusterState Partition Introspect Drain Options Report Merge Jobs JobBuilder Server Executor Sweep Save Uninstall Frame Cluster Outline Rollout.

#[local] Open Scope Z_scope.
#[local] Open Scope go_scope.

Section Drains.
Context `{MR : MapRange} `{JS : NodeStateJSON} `{TT : TimeText} `{SV : Semver} `{PJ : PackageJSON} `{TS : TaintSyntax}
  `{QQ : Quantities} `{SE : Selectors} `{SM : StrategicMerge} `{AE : AgentEncoding}.
Context (srv : server) (opts : SkyhookOperatorOptions) (now : Z).

(** The next [Cordon] of the node changes it. *)
Definition not_cordoned (n : SkyhookNodeOnly) : bool := (Cordon n).2.

Definition spares (c : api_call) : Prop := is_removal c = false.

Lemma spares_any t : Forall spares t -> any is_removal t = false.
Proof. induction 1 as [|c t H _ IH]; [done|]. simpl. by rewrite H. Qed.

(* ------------------------------------------------------------------ *)
(** ** What a step keeps of the node *)

Lemma not_cordoned_ext n n' : sn_skyhookName n' = sn_skyhookName n ->
  n_Unschedulable (sn_Node n') = n_Unschedulable (sn_Node n) ->
  annotations n' !! cordonAnnotationKey (sn_skyhookName n) = annotations n !! cordonAnnotationKey (sn_skyhookName n) ->
  not_cordoned n' = not_cordoned n.
Proof. intros H1 H2 H3. unfold not_cordoned, Cordon. rewrite H1, H2, H3. by destruct (_ || _). Qed.

Lemma nodeStateKey_ne_cordon n : nodeStateKey n <> cordonAnnotationKey (sn_skyhookName n).
Proof.
  unfold nodeStateKey, node_key, cordonAnnotationKey, cordonAnnotationPrefix. rewrite !append_assoc.
  intros H. by apply append_inj_l in H.
Qed.

Lemma SetState_not_cordoned ns n : not_cordoned (SetState ns n) = not_cordoned n.
Proof.
  unfold SetState. destruct ns as [ns|]; [|done]. set (w := mark_updated _).
  assert (Hw : not_cordoned w = not_cordoned n).
  { apply not_cordoned_ext; [done|done|]. apply lookup_insert_ne, nodeStateKey_ne_cordon. }
  destruct (annotations n !! nodeStateKey n); [by destruct (negb _)|done].
Qed.

Lemma SetStatus_not_cordoned st n : st <> StatusComplete -> not_cordoned (Node.SetStatus_only st n) = not_cordoned n.
Proof.
  intros Hst. unfold Node.SetStatus_only. rewrite bool_decide_eq_false_2 by done. set (w := put_label _ _ _).
  assert (Hw : not_cordoned w = not_cordoned n).
  { apply not_cordoned_ext; [done|done|]. apply lookup_insert_ne, statusKey_ne_cordon. }
  destruct (annotations n !! statusKey n); [by destruct (negb _)|done].
Qed.

Lemma AddSkyhookConditionWithLegacy_config sk c :
  sk_Spec (AddSkyhookConditionWithLegacy now sk c).1 = sk_Spec sk /\
  GetConfigUpdates (AddSkyhookConditionWithLegacy now sk c).1 = GetConfigUpdates sk.
Proof.
  assert (Hadd : forall sk c, sk_Spec (addSkyhookCondition sk c).1 = sk_Spec sk /\
    GetConfigUpdates (addSkyhookCondition sk c).1 = GetConfigUpdates sk).
  { clear. intros sk c. unfold addSkyhookCondition. by destruct (addOrUpdateSkyhookCondition _ _) as [l []]. }
  unfold AddSkyhookConditionWithLegacy, AddSkyhookCondition.
  match goal with |- context [addSkyhookCondition sk ?c1] => destruct (Hadd sk c1) as [H1 H2]; destruct (addSkyhookCondition sk c1) as [b ch] end.
  cbn [fst] in H1, H2. case_bool_decide; [done|].
  match goal with |- context [addSkyhookCondition b ?c1] => destruct (Hadd b c1) as [H3 H4]; destruct (addSkyhookCondition b c1) as [d ch'] end.
  cbn [fst] in *. split; congruence.
Qed.

Section Kept.
Context (name : string) (spec : NodeWrightSpec) (upds : gmap string (list string)).

(** The node, with what decides whether a package has an interrupt. *)
Definition configured (f : SkyhookNode) : Prop :=
  f_name f = name /\ sk_Spec (full_skyhook f) = spec /\ GetConfigUpdates (full_skyhook f) = upds.

Definition uncordoned (f : SkyhookNode) : Prop := configured f /\ not_cordoned (full_Only f) = true.

Lemma node_Upsert_kept p image state stage restarts sha f :
  not_cordoned (full_Only (node_Upsert p image state stage restarts sha f)) = not_cordoned (full_Only f) /\
  (configured f -> configured (node_Upsert p image state stage restarts sha f)).
Proof.
  unfold node_Upsert, Upsert_only, configured, f_name. destruct (Upsert _ _ _ _ _ _ _) as [ns []];
    cbn [full_Only set_full_Only set_full_skyhook full_skyhook].
  2: { split; [by apply not_cordoned_ext|]. intros H. exact H. }
  split; [rewrite SetState_not_cordoned; by apply not_cordoned_ext|]. rewrite SetState_name. intros H. exact H.
Qed.

Lemma record_start_kept p stage f :
  not_cordoned (full_Only (record_start now p stage f)) = not_cordoned (full_Only f) /\
  (configured f -> configured (record_start now p stage f)).
Proof.
  unfold record_start. destruct (node_Upsert_kept (pkg_Ref p) (pkg_Image p) StateInProgress stage 0 (pkg_ContainerSHA p) f) as [H1 H2].
  fold (start_entry p stage f) in H1, H2. revert H1 H2. generalize (start_entry p stage f). intros g H1 H2. split.
  - cbn [full_Only set_full_skyhook]. rewrite <- H1. by apply SetStatus_not_cordoned.
  - intros (Hn & Hs & Hc)%H2. unfold configured.
    destruct (AddSkyhookConditionWithLegacy_config (full_skyhook (node_SetStatus StatusInProgress g)) (apply_condition now (node_SetStatus StatusInProgress g) p)) as [A1 A2].
    assert (W1 : sk_Spec (full_skyhook (node_SetStatus StatusInProgress g)) = spec).
    { rewrite <- Hs. etrans; [apply SetNodeState_work|apply SetNodeStatus_work]. }
    assert (W2 : GetConfigUpdates (full_skyhook (node_SetStatus StatusInProgress g)) = upds).
    { rewrite <- Hc. etrans; [apply SetNodeState_work|apply SetNodeStatus_work]. }
    split; [|split; [exact (eq_trans A1 W1)|exact (eq_trans A2 W2)]].
    rewrite <- Hn. exact (proj2 (proj2 (SetStatus_only_keeps StatusInProgress (full_Only g)))).
Qed.

Lemma ProgressSkipped_configured f : configured f -> configured (node_ProgressSkipped f).
Proof.
  unfold node_ProgressSkipped, configured, f_name. destruct (ProgressSkipped _ _) as [ns []]; [|done].
  cbn [full_Only full_skyhook]. rewrite SetState_name. intros H. exact H.
Qed.

(* ------------------------------------------------------------------ *)
(** ** The steps of a node *)

Section Spared.
Context (I : SkyhookNode -> Prop).
Hypothesis I_Upsert : forall p image state stage restarts sha f, I f -> I (node_Upsert p image state stage restarts sha f).
Hypothesis I_start : forall p stage f, I f -> I (record_start now p stage f).
#[local] Set Default Proof Using "Type*".
Local Notation spared := (keeps I spares).

Lemma spared_call {A} c (answer : list api_call -> res A) : is_removal c = false -> steps spared (call c answer).
Proof. intros H. by apply keeps_call. Qed.

#[local] Hint Extern 1 (steps (keeps _ _) (call _ _)) => apply spared_call; reflexivity : steps.

Lemma upsert_spared sk node : steps spared (UpsertNodeLabelsAnnotationsPackages srv opts sk node).
Proof. unfold UpsertNodeLabelsAnnotationsPackages, read_configmap, must. auto 12 with steps. Qed.

Lemma create_job_spared fmt job p stage k : steps spared k -> steps spared (create_job srv opts fmt job p stage k).
Proof.
  intros Hk. unfold create_job, send_write. apply steps_bind; [apply _|auto with steps|]. intros []; auto with steps.
  unfold handleExistingJob, read_job, delete_job_foreground, must_if_present. auto 16 with steps.
Qed.

Lemma r_Interrupt_spared p interrupt stage : steps spared (r_Interrupt srv opts p interrupt stage).
Proof.
  unfold r_Interrupt, HasRunningPackages, JobExists, upsert_metadata, list_jobs.
  apply steps_bind; [apply _|auto 8 with steps|]. intros []; [auto with steps|]. apply keeps_reads. intros f _.
  apply steps_bind; [apply _|auto 8 with steps|]. intros []; [auto with steps|].
  apply steps_bind; [apply _|auto using upsert_spared with steps|]. intros [].
  apply steps_bind; [apply _|auto with steps|]. intros i. apply steps_bind; [apply _|auto with steps|]. intros job.
  apply create_job_spared, keeps_modify. intros g. apply I_Upsert.
Qed.

Lemma ApplyPackage_spared p : steps spared (ApplyPackage srv opts now p).
Proof.
  unfold ApplyPackage, JobExists, upsert_metadata, list_jobs. apply keeps_reads. intros f _.
  case_bool_decide; [auto with steps|]. apply steps_bind; [apply _|auto 8 with steps|]. intros exists_.
  destruct (IsSkipped _); [auto with steps|]. destruct exists_; [auto with steps|].
  apply steps_bind; [apply _|auto using upsert_spared with steps|]. intros [].
  apply steps_bind; [apply _|auto with steps|]. intros job. apply create_job_spared, keeps_modify. intros g. apply I_start.
Qed.

Lemma interrupt_steps_spared p interrupt runInterrupt stage status :
  steps spared (interrupt_steps srv opts p interrupt runInterrupt stage status).
Proof.
  unfold interrupt_steps. destruct (_ && _).
  { apply steps_bind; [apply _|apply r_Interrupt_spared|auto with steps]. }
  destruct (_ && _).
  { apply steps_bind; [apply _| |auto with steps]. apply keeps_modify. intros g. apply I_Upsert. }
  destruct status as [st|]; [|auto with steps]. destruct (_ && _); [|destruct (_ && _); auto with steps].
  apply steps_bind; [apply _|apply r_Interrupt_spared|auto with steps].
Qed.

End Spared.

(** Whether the package has an interrupt, for a node that is [configured]. *)
Definition has_interrupt (p : Package) : bool :=
  ns_HasInterrupt p (foldl (package_interrupts upds) ∅ (range (sp_Packages spec))) upds.

Lemma configured_interrupt f p : configured f -> node_HasInterrupt f p = has_interrupt p.
Proof.
  intros (_ & Hs & Hc). unfold node_HasInterrupt, f_interrupts, f_updates, GetConfigInterrupts. rewrite Hs.
  change (ConfigUpdates (sk_Status (full_skyhook f))) with (GetConfigUpdates (full_skyhook f)). by rewrite Hc.
Qed.

Lemma ProcessInterrupt_plain (I : SkyhookNode -> Prop) p interrupt runInterrupt : (forall f, I f -> configured f) ->
  has_interrupt p = false -> steps (keeps I spares) (ProcessInterrupt srv opts now p interrupt runInterrupt).
Proof.
  intros HI Hp. unfold ProcessInterrupt. apply keeps_reads. intros f Hf. rewrite (configured_interrupt f) by auto.
  rewrite Hp. cbn [negb]. auto with steps.
Qed.

(** From a node that is not cordoned. *)
Definition spared_once {A} (m : M api_call SkyhookNode A) : Prop := forall s, uncordoned (mem s) ->
  configured (mem (m s).1) /\ emits spares s (m s).1.

Lemma once_keeps {A} (m : M api_call SkyhookNode A) : steps (keeps configured spares) m -> spared_once m.
Proof. intros Hm s [Hs _]. by apply Hm. Qed.

Lemma once_after {A B} (m : M api_call SkyhookNode A) (k : A -> M api_call SkyhookNode B) :
  steps (keeps uncordoned spares) m -> (forall a, spared_once (k a)) -> spared_once (bind m k).
Proof.
  intros Hm Hk s Hs. unfold bind. destruct (Hm s Hs) as [H1 H2]. destruct (m s) as [s1 [a|e|]]; cbn [fst] in *;
    [|by split; [apply H1|exact H2]..].
  destruct (Hk a s1 H1) as [H3 H4]. split; [done|]. by etrans; [exact H2|].
Qed.

Lemma once_before {A B} (m : M api_call SkyhookNode A) (k : A -> M api_call SkyhookNode B) :
  spared_once m -> (forall a, steps (keeps configured spares) (k a)) -> spared_once (bind m k).
Proof.
  intros Hm Hk s Hs. unfold bind. destruct (Hm s Hs) as [H1 H2]. destruct (m s) as [s1 [a|e|]]; cbn [fst] in *; [|done..].
  destruct (Hk a s1 H1) as [H3 H4]. split; [done|]. by etrans; [exact H2|].
Qed.

Lemma Ensure_once : spared_once (EnsureNodeIsReadyForInterrupt srv opts now).
Proof.
  intros s [Hc Hu]. pose proof (Ensure_drained srv opts now s) as H. cbv zeta in H.
  destruct (EnsureNodeIsReadyForInterrupt _ _ _ _) as [s' r]. destruct H as [H _]. destruct (H Hu) as (Ht & Hm & _). cbn [fst].
  split; [|exists []; by rewrite Ht, app_nil_r]. rewrite Hm. destruct Hc as (Hn & Hs & Hup). split; [|done].
  rewrite <- Hn. unfold f_name, Cordon. cbn [full_Only set_full_Only]. by destruct (_ || _).
Qed.

Lemma configured_closed :
  (forall p image state stage restarts sha f, configured f -> configured (node_Upsert p image state stage restarts sha f)) /\
  (forall p stage f, configured f -> configured (record_start now p stage f)).
Proof. split; intros; [by apply node_Upsert_kept|by apply record_start_kept]. Qed.

Lemma uncordoned_closed :
  (forall p image state stage restarts sha f, uncordoned f -> uncordoned (node_Upsert p image state stage restarts sha f)) /\
  (forall p stage f, uncordoned f -> uncordoned (record_start now p stage f)).
Proof.
  split.
  - intros p image state stage restarts sha f [H1 H2]. destruct (node_Upsert_kept p image state stage restarts sha f) as [H3 H4].
    split; [by apply H4|by rewrite H3].
  - intros p stage f [H1 H2]. destruct (record_start_kept p stage f) as [H3 H4]. split; [by apply H4|by rewrite H3].
Qed.

Lemma ProcessInterrupt_once p interrupt runInterrupt : spared_once (ProcessInterrupt srv opts now p interrupt runInterrupt).
Proof.
  destruct configured_closed as [C1 C2], uncordoned_closed as [U1 U2].
  unfold ProcessInterrupt. apply once_after; [auto with steps|]. intros f. destruct (negb _); [apply once_keeps; auto with steps|].
  destruct (IsSkipped _).
  { apply once_keeps. apply steps_bind; [apply _| |auto with steps]. apply keeps_modify. intros g.
    destruct runInterrupt; [apply ProgressSkipped_configured|done]. }
  apply once_after.
  { destruct (node_PackageStatus _ _) as [st|]; [|auto with steps]. destruct (_ && _); [by apply r_Interrupt_spared|auto with steps]. }
  intros _. apply once_before.
  { destruct (_ || _); [apply Ensure_once|apply once_keeps; auto with steps]. }
  intros ready. destruct (negb ready); [auto with steps|by apply interrupt_steps_spared].
Qed.

(* ------------------------------------------------------------------ *)
(** ** The packages of a node *)

Section Visit.
Context (i : nat).
Local Notation P := (M api_call cluster).

(** Resource [i] has the node, and it satisfies [I]. *)
Definition visited (I : SkyhookNode -> Prop) (c : cluster) : Prop :=
  exists s e, cl_resources c !! i = Some s /\ find_entry s name = Some e /\ I (as_node s e).

Definition between (I J : SkyhookNode -> Prop) {A} (m : M api_call SkyhookNode A) : Prop := forall s, I (mem s) ->
  J (mem (m s).1) /\ emits spares s (m s).1.

Lemma visit_between (I J : SkyhookNode -> Prop) {A} (m : M api_call SkyhookNode A) (p : Effects.pass api_call cluster) :
  (forall f, J f -> f_name f = name) -> between I J m -> visited I (mem p) ->
  visited J (mem (at_resource i (at_node name m) p).1) /\ emits spares p (at_resource i (at_node name m) p).1.
Proof.
  intros HJ Hm (s & e & Hs & He & HI). unfold at_resource, at_node. rewrite Hs. cbn [mem trace]. rewrite He.
  destruct (Hm {| trace := trace p; mem := as_node s e |} HI) as [H1 H2]. destruct (m _) as [q r]. cbn [fst mem trace] in *.
  split; [|destruct H2 as (t & Ht & Hq); by exists t]. exists (put_node (mem q) s), (entry_of_node (mem q)).
  split; [apply list_lookup_insert_eq; by eapply lookup_lt_Some|]. split.
  - rewrite find_entry_put, He. rewrite bool_decide_eq_true_2; [done|]. symmetry. by apply HJ.
  - unfold as_node, put_node. cbn [ne_Only ne_Updated ne_graph entry_of_node]. by destruct (mem q) as [n [nw u] g].
Qed.

Lemma visit_spared (I : SkyhookNode -> Prop) {A} (m : M api_call SkyhookNode A) : (forall f, I f -> f_name f = name) ->
  steps (keeps I spares) m -> steps (keeps (visited I) spares) (at_resource i (at_node name m)).
Proof. intros HI Hm p Hp. by apply (visit_between I I). Qed.

Lemma resource_spared (I : SkyhookNode -> Prop) {A} (k : skyhookNodes -> P A) : (forall s, steps (keeps (visited I) spares) (k s)) ->
  steps (keeps (visited I) spares) (bind (resource i) k).
Proof.
  intros Hk. apply steps_bind; [apply _| |exact Hk]. intros p (s & e & Hs & H). unfold resource, at_resource. rewrite Hs.
  split; [exists s, e; split; [apply list_lookup_insert_eq; by eapply lookup_lt_Some|exact H]|]. exists []. simpl. by rewrite app_nil_r.
Qed.

(** A package without an interrupt, and the rest of a round for one with it. *)
Lemma run_package_plain (I : SkyhookNode -> Prop) interrupt pack acc f : (forall f, I f -> configured f) ->
  (forall p image state stage restarts sha f, I f -> I (node_Upsert p image state stage restarts sha f)) ->
  (forall p stage f, I f -> I (record_start now p stage f)) -> has_interrupt f = false ->
  steps (keeps (visited I) spares) (run_package srv opts now i name interrupt pack acc f).
Proof.
  intros HI H1 H2 Hf. assert (Hn : forall f, I f -> f_name f = name) by (intros g Hg; by apply HI).
  unfold run_package. destruct acc as [requeue|]; [|auto with steps].
  apply steps_bind; [apply _|apply steps_wrap; [apply _|]; apply visit_spared; [done|by apply ProcessInterrupt_plain]|].
  intros ok. destruct (negb ok); [auto with steps|].
  apply steps_bind; [apply _|apply steps_wrap; [apply _|]; apply visit_spared; [done|by apply ApplyPackage_spared]|].
  intros _. apply resource_spared. intros s. auto with steps.
Qed.

Lemma visit_then (J : SkyhookNode -> Prop) fmt args {A B} (m : P A) (k : A -> P B) p :
  visited J (mem (m p).1) /\ emits spares p (m p).1 -> (forall a, steps (keeps (visited J) spares) (k a)) ->
  visited J (mem (bind (wrap fmt args m) k p).1) /\ emits spares p (bind (wrap fmt args m) k p).1.
Proof.
  intros [H1 H2] Hk. unfold bind, wrap. destruct (m p) as [q [a|e|]]; cbn [fst snd rwrap] in *; [|done..].
  destruct (Hk a q H1) as [H3 H4]. split; [done|]. by etrans; [exact H2|].
Qed.

Lemma run_package_once interrupt pack acc f p : visited uncordoned (mem p) ->
  visited configured (mem (run_package srv opts now i name interrupt pack acc f p).1) /\
  emits spares p (run_package srv opts now i name interrupt pack acc f p).1.
Proof.
  intros Hp. unfold run_package. destruct acc as [requeue|].
  2: { split; [|reflexivity]. destruct Hp as (s & e & Hs & He & [Hc _]). by exists s, e. }
  apply visit_then.
  { apply (visit_between uncordoned configured); [by intros g []|by apply ProcessInterrupt_once|done]. }
  assert (Hn : forall f, configured f -> f_name f = name) by (by intros g []). destruct configured_closed as [C1 C2].
  intros ok. destruct (negb ok); [auto with steps|].
  apply steps_bind; [apply _|apply steps_wrap; [apply _|]; apply visit_spared; [done|by apply ApplyPackage_spared]|].
  intros _. apply resource_spared. intros s. auto with steps.
Qed.

Lemma packages_plain interrupt pack l acc : List.filter has_interrupt l = [] ->
  steps (keeps (visited configured) spares) (loop (run_package srv opts now i name interrupt pack) acc l).
Proof.
  intros Hl. destruct configured_closed as [C1 C2]. apply steps_loop; [apply _|]. intros acc' f Hf.
  apply run_package_plain; [done..|]. destruct (has_interrupt f) eqn:E; [|done]. exfalso.
  assert (H : f ∈ List.filter has_interrupt l) by (apply list_elem_of_In, filter_In; by rewrite <- list_elem_of_In).
  rewrite Hl in H. by apply elem_of_nil in H.
Qed.

Lemma packages_once interrupt pack l : (length (List.filter has_interrupt l) <= 1)%nat -> forall acc p, visited uncordoned (mem p) ->
  emits spares p (loop (run_package srv opts now i name interrupt pack) acc l p).1.
Proof.
  induction l as [|f l IH]; intros Hl acc p Hp; cbn [loop]; [reflexivity|].
  cbn [List.filter] in Hl. destruct (has_interrupt f) eqn:Ef; unfold bind.
  - destruct (run_package_once interrupt pack acc f p Hp) as [H1 H2].
    destruct (run_package srv opts now i name interrupt pack acc f p) as [q [acc'|e|]]; cbn [fst] in *; [|done..].
    assert (Hnil : List.filter has_interrupt l = []) by (apply nil_length_inv; simpl in Hl; lia).
    etrans; [exact H2|]. by apply (packages_plain interrupt pack l acc' Hnil q H1).
  - destruct uncordoned_closed as [U1 U2].
    destruct (run_package_plain uncordoned interrupt pack acc f (fun f H => proj1 H) U1 U2 Ef p Hp) as [H1 H2].
    destruct (run_package srv opts now i name interrupt pack acc f p) as [q [acc'|e|]]; cbn [fst] in *; [|done..].
    etrans; [exact H2|]. by apply IH.
Qed.

End Visit.
End Kept.

(** The packages to run on a node, and the resource when [fudgeInterruptWithPriority]
    has written to its specification. *)
Definition to_run (s : skyhookNodes) (e : NodeEntry) (toUninstall toRun : list Package) (s1 : skyhookNodes) : Prop :=
  exists l, packages_to_run (beingDeleted s) toUninstall (as_node s e) = Ok l /\ toRun = map (current_interrupt s) l /\
    s1 = (choose_interrupt toRun s).1.

Lemma run_node_spares toUninstall acc i name p s e :
  cl_resources (mem p) !! i = Some s -> find_entry s name = Some e -> not_cordoned (ne_Only e) = true ->
  (forall toRun s1, to_run s e toUninstall toRun s1 ->
     (length (List.filter (node_HasInterrupt (as_node s1 e)) toRun) <= 1)%nat) ->
  emits spares p (run_node srv opts now i toUninstall acc name p).1.
Proof.
  intros Hs He Hu Hone. unfold run_node. destruct acc as [requeue|]; [|reflexivity].
  unfold bind at 1, resource, at_resource. rewrite Hs. unfold gets at 1. cbn [id mem trace].
  assert (Hp : {| trace := trace p; mem := set_cl_resources (<[i:=s]> (cl_resources (mem p))) (mem p) |} = p).
  { rewrite list_insert_id by done. destruct p as [t []]. done. }
  rewrite Hp. unfold bind at 1, all_resources, gets. rewrite He. destruct (negb _); [reflexivity|].
  destruct (_ && _); [reflexivity|]. unfold bind at 1, lift.
  destruct (packages_to_run _ _ _) as [l|err|] eqn:El; [|reflexivity..].
  set (toRun := map (current_interrupt s) l). unfold bind at 1, at_resource, step. rewrite Hs. cbn [mem trace].
  specialize (Hone toRun (choose_interrupt toRun s).1 ltac:(by exists l)). destruct (choose_interrupt toRun s) as [s1 [interrupt pack]] eqn:Ec.
  cbn [fst] in Hone.
  match goal with |- emits _ _ (loop ?f ?a ?l ?q).1 => change (emits spares q (loop f a l q).1) end.
  apply (packages_once name (sk_Spec (sns_skyhook s1)) (GetConfigUpdates (sns_skyhook s1)) i interrupt pack toRun).
  - assert (Hext : forall q, node_HasInterrupt (as_node s1 e) q =
                              has_interrupt (sk_Spec (sns_skyhook s1)) (GetConfigUpdates (sns_skyhook s1)) q).
    { intros q. apply (configured_interrupt name). split; [by apply find_entry_name in He|done]. }
    by rewrite <- (List.filter_ext _ _ Hext).
  - exists s1, e. split; [apply list_lookup_insert_eq; by eapply lookup_lt_Some|].
    assert (He1 : find_entry s1 name = Some e).
    { unfold choose_interrupt in Ec. destruct (fudgeInterruptWithPriority _ _ _) as [st o]. by injection Ec as <- _. }
    split; [done|]. split; [split; [by apply find_entry_name in He|done]|done].
Qed.

(* ------------------------------------------------------------------ *)
(** ** Property *)

(** C11: A drain waits for the cordon.  A call that finds the node not cordoned for
    this resource, in the node as the pass holds it, cordons it there, makes no
    call to the server and reports that the node is not ready.  Any other call
    only removes pods that it has just listed on the node, exactly those that the
    drain decides to evict or delete and with the configured grace period; it
    removes none once the drain has timed out; and it reports the node ready only
    after a list of the node's pods in which none blocks the drain.  So when the
    pass comes to a node that is not cordoned in its memory, and at most one of
    the packages to run there has an interrupt, its visit of the node removes no
    pod.  With two such packages it does not wait, and nothing says that a cordon
    in memory has been saved: see [drained_before_the_cordon_is_saved]. *)
Theorem drain_behind_cordon :
  (forall s : Effects.pass api_call SkyhookNode,
     let f := mem s in
     let '(s', r) := EnsureNodeIsReadyForInterrupt srv opts now s in
     ((Cordon (full_Only f)).2 = true ->
        trace s' = trace s /\ mem s' = set_full_Only (Cordon (full_Only f)).1 f /\ r = Ok false) /\
     ((Cordon (full_Only f)).2 = false ->
        drained_by srv opts f s s' r /\
        (timed_out now f -> exists quiet, trace s' = trace s ++ quiet /\ any is_removal quiet = false))) /\
  (forall toUninstall acc i name (p : Effects.pass api_call cluster) s e,
     cl_resources (mem p) !! i = Some s -> find_entry s name = Some e -> (Cordon (ne_Only e)).2 = true ->
     (forall toRun s1, to_run s e toUninstall toRun s1 ->
        (length (List.filter (node_HasInterrupt (as_node s1 e)) toRun) <= 1)%nat) ->
     exists t, trace (run_node srv opts now i toUninstall acc name p).1 = trace p ++ t /\ any is_removal t = false).
Proof.
  split; [exact (Ensure_drained srv opts now)|]. intros toUninstall acc i name p s e Hs He Hu Hone.
  destruct (run_node_spares toUninstall acc i name p s e Hs He Hu Hone) as (t & Ht & Hq). exists t. split; [done|by apply spares_any].
Qed.

End Drains.

(* ------------------------------------------------------------------ *)
(** ** Witness and example *)

#[local] Existing Instance braced_json.
#[local] Existing Instance merge_strings.
#[local] Existing Instance example_time.
#[local] Existing Instance package_text.
#[local] Existing Instance example_syntax.
#[local] Existing Instance text_quantities.
#[local] Existing Instance text_semver.
#[local] Existing Instance blank_encoding.
#[local] Existing Instance no_selectors.

Definition rebooting_as (name : string) : Package := set_pkg_Interrupt (Some {| int_Type := REBOOT; int_Services := [] |}) (plain_package name "1" ∅).

Definition reboots (packages : Packages) : cluster :=
  {| cl_resources := match BuildState 0 [plain_nodewright "tuning" (plain_spec packages) empty_status] [fresh_node] [] with
                     | Ok rs => rs | _ => [] end;
     cl_picker := NewNodePicker [] |}.

Definition web : WorkloadPod :=
  {| wp_Namespace := "default"; wp_Name := "web"; wp_Labels := ∅; wp_Annotations := ∅; wp_OwnerReferences := [("ReplicaSet", true)];
     wp_Deleted := false; wp_Phase := "Running"; wp_Tolerations := []; wp_Volumes := [] |}.

(** A server on which [web] runs on the node. *)
Definition busy_server : server :=
  let q := quiet_server in
  {| sv_legacy := sv_legacy q; sv_nodewrights := sv_nodewrights q; sv_nodes := sv_nodes q; sv_policies := sv_policies q;
     sv_labelled_pods := sv_labelled_pods q; sv_pods _ _ := Ok [web]; sv_selected_pods := sv_selected_pods q; sv_jobs := sv_jobs q;
     sv_job := sv_job q; sv_configmaps := sv_configmaps q; sv_configmap := sv_configmap q; sv_write := sv_write q;
     sv_attempts := sv_attempts q; sv_node := sv_node q; sv_nodewright := sv_nodewright q; sv_read_nodewright := sv_read_nodewright q |}.

Definition one_turn (packages : Packages) : Effects.pass api_call cluster * res (option Z * list error) :=
  process_resource busy_server default_options (fun _ => Some fresh_node) 0 (None, []) 0 {| trace := []; mem := reboots packages |}.

(** The calls that remove a pod, and those that save a node. *)
Definition drains_and_saves (t : list api_call) : list api_call :=
  List.filter (fun c => match c with SaveNode _ _ _ => true | _ => is_removal c end) t.

(** With one package that reboots the pass only saves the cordon.  With two, the
    second finds the cordon that the first left in memory, and the pod is evicted
    before the node is saved: it can be scheduled on the same node again. *)
Example drained_before_the_cordon_is_saved :
  map is_removal (drains_and_saves (trace (one_turn {["kernel" := rebooting_as "kernel"]}).1)) = [false] /\
  map is_removal (drains_and_saves (trace (one_turn (<["driver" := rebooting_as "driver"]> {["kernel" := rebooting_as "kernel"]})).1)) =
    [true; false].
Proof. split; by vm_compute. Qed.

(** The node is not cordoned and one of its packages reboots. *)
Lemma drain_behind_cordon_witness :
  let c := reboots (<["tools" := tools]> {["kernel" := rebooting_as "kernel"]}) in
  exists s e t, cl_resources c !! 0%nat = Some s /\ find_entry s "node1" = Some e /\ (Cordon (ne_Only e)).2 = true /\
    trace (run_node busy_server default_options 0 0 [] (Go false) "node1" {| trace := []; mem := c |}).1 = t /\
    any is_removal t = false.
Proof.
  intros c.
  assert (Hs : exists s, cl_resources c !! 0%nat = Some s) by (eexists; by vm_compute). destruct Hs as [s Hs].
  assert (He : exists e, find_entry s "node1" = Some e) by (vm_compute in Hs; injection Hs as <-; eexists; by vm_compute).
  destruct He as [e He].
  assert (Hu : (Cordon (ne_Only e)).2 = true) by (vm_compute in Hs; injection Hs as <-; vm_compute in He; injection He as <-; by vm_compute).
  destruct (proj2 (drain_behind_cordon busy_server default_options 0) [] (Go false) 0%nat "node1" {| trace := []; mem := c |} s e Hs He Hu)
    as (t & Ht & Hq).
  - intros toRun s1 (l & Hl & -> & ->). vm_compute in Hs. injection Hs as <-. vm_compute in He. injection He as <-.
    vm_compute in Hl. injection Hl as <-. apply Nat.leb_le. by vm_compute.
  - exists s, e, t. split_and!; done.
Defined.
