(* ===== verification/Reconcile.v ===== *)
(** * A pass of the controller

    Models [Reconcile] of
    [operator/internal/controller/skyhook_controller.go]: the reads, the order of
    the steps and what each returns with.  A pass that ends with an error is
    retried by the work queue with a backoff; a result is a delay after which
    the controller comes back, [None] for none.  Metrics, events and log lines are
    left out.  One clock reading, [now], stands for those of a pass; [VERSION] is
    the version of the binary. *)

From S2P Require Import Prelude Effects Sha256 Graph Float64 DeploymentPolicy Api NodeState Skyhook Interrupts Conditions Text Node Migration Ownership Compartment ClusterState Partition Introspect Drain Options Report Merge Jobs JobBuilder Server RuntimeRequired Executor Save Sweep Uninstall Frame ConfigMaps Finalizer Cluster Reboots Webhook Legacy Outline Rollout.

#[local] Open Scope Z_scope.
#[local] Open Scope go_scope.

(** [30 * time.Second] *)
Definition configSyncRetryInterval : Z := 30000000000.

Definition reconcileResult (result : option Z) (configSyncPending : bool) (maxInterval : Z) : Z :=
  match result with
  | Some r => r
  | None => if configSyncPending then configSyncRetryInterval else maxInterval
  end.

(** The object tracker: the nodes as they were listed. *)
Definition tracked (nodes : list Node) (name : string) : option Node :=
  List.find (fun n => bool_decide (n_Name n = name)) nodes.

(** What the loop over the resources has come to: it returned, or it goes on. *)
Inductive verdict := Return (requeue : Z) | Continue (configSyncPending : bool).

Section Reconcile.
Context `{MR : MapRange} `{JS : NodeStateJSON} `{TT : TimeText} `{SV : Semver} `{PJ : PackageJSON} `{TS : TaintSyntax}
  `{QQ : Quantities} `{SE : Selectors} `{SM : StrategicMerge} `{AE : AgentEncoding} `{JM : JSONMergePatch} `{QO : QuantityOrder}.
Context (srv : server) (opts : SkyhookOperatorOptions) (now : Z) (VERSION : string).

Local Notation P := (M api_call cluster).

(* ------------------------------------------------------------------ *)
(** ** One resource, before packages are run *)

(** [if yes, result, err := shouldReturn(...); yes { return result, err }] *)
Definition returns_if (m : P bool) (k : P verdict) : P verdict :=
  let* updates := m in
  match shouldReturn updates with Some r => ret (Return r) | None => k end.

Definition paused_resource (original : string -> option Node) (pending : bool) (i : nat) : P verdict :=
  let* s := resource i in
  let* _ := wrap "suspending jobs for paused skyhook %s: %w" [sns_Name s] (at_resource i (suspendUnfinishedJobs srv)) in
  returns_if (at_resource i (UpdatePauseStatus srv opts original now)) (ret (Continue pending)).

Definition active_resource (original : string -> option Node) (pending : bool) (i : nat) : P verdict :=
  let* '(result, pendingSync) := at_resource i (validateAndUpsertSkyhookData srv opts original now) in
  match result with
  | Some r => ret (Return r)
  | None =>
      let* s := resource i in
      let* _ := wrap "resuming suspended jobs for skyhook %s: %w" [sns_Name s] (at_resource i (resumeSuspendedJobs srv)) in
      let* rs := all_resources in
      let* changed := at_resource i (step (fun s => Ok (IntrospectSkyhook now s rs))) in
      if changed then
        let* _ := at_resource i (save_all srv opts original now) in ret (Return requeue_soon)
      else
        let* _ := wrap "error getting packages to uninstall: %w" [] (at_resource i (step HandleVersionChange)) in
        ret (Continue (pending || pendingSync))
  end.

Definition prepare_resource (original : string -> option Node) (acc : verdict) (i : nat) : P verdict :=
  match acc with
  | Return r => ret (Return r)
  | Continue pending =>
      let* _ := at_resource i (refreshSkyhookConditions srv opts original now) in
      returns_if (at_resource i (HandleFinalizer srv opts original now)) (
      returns_if (at_resource i (r_ReportState srv opts original now)) (
      let* s := resource i in
      if sns_IsPaused s then paused_resource original pending i else active_resource original pending i))
  end.

(* ------------------------------------------------------------------ *)
(** ** The pass *)

(** Both are tried; their errors are aggregated. *)
Definition run_packages (nodes : list Node) (pending : bool) : P Z := fun p =>
  let '(p, r) := processSkyhooksPerNode srv opts (tracked nodes) now p in
  let finish (result : option Z) (errs : list error) : P Z :=
    let* rs := all_resources in
    let* e := try (HandleRuntimeRequired srv opts rs nodes) in
    let* _ := lift (aggregate (errs ++ option_list e)) in
    ret (reconcileResult result pending (MaxInterval opts)) in
  match r with
  | Ok result => finish result [] p
  | Err e => finish None [e] p
  | Panic => (p, Panic)
  end.

(** What comes before packages are run. *)
Definition prepare (nodes : list Node) : P verdict :=
  let* rs := all_resources in
  returns_if (HandleAutoTaint srv opts rs) (
  returns_if (HandleMigrations VERSION srv opts now) (
  returns_if (TrackReboots srv opts) (
  let* tolerations := lift (GetRuntimeRequiredTolerations opts) in
  let* _ := modify (set_cl_picker (NewNodePicker tolerations)) in
  each_resource (prepare_resource (tracked nodes)) (Continue false)))).

Definition run_pass (nodes : list Node) : P Z :=
  let* v := prepare nodes in
  match v with
  | Return r => ret r
  | Continue pending => run_packages nodes pending
  end.

Definition build (nws : list NodeWright) (nodes : list Node) (policies : list DeploymentPolicy) : P unit :=
  step (fun c => rbind (BuildState now nws nodes policies) (fun rs => Ok (set_cl_resources rs c, tt))).

Definition Reconcile : P (option Z) :=
  let* hold := legacyMigrationHold srv in
  match hold with
  | Some r => ret (Some r)
  | None =>
      let* nws := wrap "error getting nodewrights: %w" [] (list_nodewrights srv) in
      if bool_decide (nws = []) then ret None
      else
        let* nodes := wrap "error getting nodes: %w" [] (list_nodes srv) in
        if bool_decide (nodes = []) then ret None
        else
          let* policies := wrap "error getting deployment policies: %w" [] (list_policies srv) in
          let* _ := build nws nodes policies in
          let* requeue := run_pass nodes in
          ret (Some requeue)
  end.

(* ------------------------------------------------------------------ *)
(** ** Lemmas: the Jobs of a pass *)

Local Notation cluster_within := (steps (within same_resources no_job)).

Lemma steady_within {A} i (f : skyhookNodes -> res (skyhookNodes * A)) : (forall s s' a, f s = Ok (s', a) -> steady s s') ->
  cluster_within (at_resource i (step f)).
Proof. intros H. apply at_resource_within, step_within; [apply _|]. intros s s' a E. by eapply steady_same, H. Qed.

Lemma returns_if_within m k : cluster_within m -> cluster_within k -> cluster_within (returns_if m k).
Proof. intros Hm Hk. unfold returns_if. apply steps_bind; [apply _|done|]. intros u. destruct (shouldReturn u); auto with steps. Qed.

Lemma resource_within_read i : cluster_within (resource i).
Proof. apply at_resource_within. auto with steps. Qed.

Lemma prepare_within original acc i : cluster_within (prepare_resource original acc i).
Proof.
  destruct acc as [r|pending]; unfold prepare_resource; [auto with steps|].
  apply steps_bind; [apply _|apply at_resource_within, refresh_within|]. intros _.
  apply returns_if_within; [apply at_resource_within, HandleFinalizer_within|].
  apply returns_if_within; [apply at_resource_within, r_ReportState_within|].
  apply steps_bind; [apply _|apply resource_within_read|]. intros s. destruct (sns_IsPaused s).
  - unfold paused_resource. apply steps_bind; [apply _|apply resource_within_read|]. intros s1. apply steps_bind; [apply _| |intros _].
    { apply steps_wrap; [apply _|]. apply at_resource_within, suspend_within. }
    apply returns_if_within; [apply at_resource_within, UpdatePauseStatus_within|auto with steps].
  - unfold active_resource. apply steps_bind; [apply _|apply at_resource_within, validate_within|]. intros [[r|] sync]; [auto with steps|].
    apply steps_bind; [apply _|apply resource_within_read|]. intros s1. apply steps_bind; [apply _| |intros _].
    { apply steps_wrap; [apply _|]. apply at_resource_within, resume_within. }
    apply steps_bind; [apply _|unfold all_resources; auto with steps|]. intros rs. apply steps_bind; [apply _| |].
    { apply steady_within. intros x x' a [= H]. pose proof (IntrospectSkyhook_steady now x rs) as E. by rewrite H in E. }
    intros []; apply steps_bind; try apply _; [apply at_resource_within, save_all_within|auto with steps| |auto with steps].
    apply steps_wrap; [apply _|]. apply steady_within, HandleVersionChange_steady.
Qed.

Lemma pass_prepare_within nodes : cluster_within (prepare nodes).
Proof.
  unfold prepare, all_resources. apply steps_bind; [apply _|auto with steps|]. intros rs.
  apply returns_if_within; [apply HandleAutoTaint_within|]. apply returns_if_within; [apply HandleMigrations_within|].
  apply returns_if_within; [apply TrackReboots_within|]. apply steps_bind; [apply _|auto with steps|]. intros tol.
  apply steps_bind; [apply _| |intros _; apply each_resource_within; intros acc i; apply prepare_within].
  apply within_modify. intros c. unfold same_resources. simpl. reflexivity.
Qed.

(** Program [m], run from [p], creates a Job only where [Q] holds of it. *)
Definition jobs_from (Q : StageJob -> Prop) {A} (m : P A) (p : Effects.pass api_call cluster) : Prop :=
  exists t, trace (m p).1 = trace p ++ t /\ forall job, CreateJob job ∈ t -> Q job.

Lemma jobless_from Q {A} (m : P A) p : emits no_job p (m p).1 -> jobs_from Q m p.
Proof. intros (t & Ht & Hq). exists t. split; [done|]. intros job Hj. rewrite Forall_forall in Hq. by pose proof (Hq _ Hj). Qed.

Lemma within_from Q {A} (m : P A) p : cluster_within m -> jobs_from Q m p.
Proof. intros Hm. by apply jobless_from, Hm. Qed.

Lemma jobs_bind Q {A B} (m : P A) (k : A -> P B) p : jobs_from Q m p ->
  (forall q a, m p = (q, Ok a) -> jobs_from Q (k a) q) -> jobs_from Q (bind m k) p.
Proof.
  intros (t & Ht & Hq) Hk. unfold jobs_from, bind. destruct (m p) as [q [a|e|]]; cbn [fst] in *; [|by exists t..].
  destruct (Hk q a eq_refl) as (t' & Ht' & Hq'). exists (t ++ t'). rewrite Ht', Ht, app_assoc. split; [done|].
  intros job [?|?]%elem_of_app; auto.
Qed.

Lemma seq_split n l1 k l2 : seq 0 n = l1 ++ k :: l2 -> l1 = seq 0 k.
Proof.
  intros H. assert (Hk : seq 0 n !! length l1 = Some k) by (rewrite H; by apply list_lookup_middle).
  apply lookup_seq in Hk as [-> Hn]. cbn [Nat.add] in *. apply (f_equal (take (length l1))) in H. rewrite take_app_length in H.
  by rewrite take_seq, Nat.min_l in H by lia.
Qed.

(** The calls of a loop are those of its rounds. *)
Lemma loop_rounds {A B} (I : cluster -> Prop) (f : B -> A -> P B) l :
  (forall acc a, steps (keeps I (fun _ => True)) (f acc a)) -> forall acc p, I (mem p) ->
  exists t, trace (loop f acc l p).1 = trace p ++ t /\ forall c, c ∈ t -> exists l1 a l2 q acc' u, l = l1 ++ a :: l2 /\
    loop f acc l1 p = (q, Ok acc') /\ I (mem q) /\ trace (f acc' a q).1 = trace q ++ u /\ c ∈ u.
Proof.
  intros Hf. induction l as [|a l IH]; intros acc p Hp; cbn [loop].
  { exists []. split; [by rewrite app_nil_r|]. intros c []%elem_of_nil. }
  destruct (Hf acc a p Hp) as (Hp' & u & Hu & _).
  assert (Hhead : forall c, c ∈ u -> exists l1 a' l2 q acc' u', a :: l = l1 ++ a' :: l2 /\
    loop f acc l1 p = (q, Ok acc') /\ I (mem q) /\ trace (f acc' a' q).1 = trace q ++ u' /\ c ∈ u')
    by (intros c Hc; by exists [], a, l, p, acc, u).
  unfold bind. destruct (f acc a p) as [p' [acc'|e|]] eqn:Ef; cbn [fst] in *; [|by exists u..].
  destruct (IH acc' p' Hp') as (t & Ht & Hc). exists (u ++ t). rewrite Ht, Hu, app_assoc. split; [done|].
  intros c [Hcu|Hct]%elem_of_app; [by apply Hhead|].
  destruct (Hc c Hct) as (l1 & a' & l2 & q & acc'' & u' & -> & Hl & H). exists (a :: l1), a', l2, q, acc'', u'.
  split_and!; try apply H; [done|]. cbn [loop]. unfold bind. by rewrite Ef.
Qed.

Section Due.
Context (rs0 : list skyhookNodes).

(** The resources and their nodes are still those of the pass. *)
Definition outlined (c : cluster) : Prop := Forall2 same_outline rs0 (cl_resources c).

Lemma process_outlined original acc i : steps (keeps outlined (fun _ => True)) (process_resource srv opts original now acc i).
Proof.
  intros p Hp. destruct (cl_resources (mem p) !! i) as [s0|] eqn:Hi.
  - pose proof (process_resource_turn srv opts original now acc i p s0 Hi) as H.
    destruct (process_resource _ _ _ _ _ _ _) as [p' r]. destruct H as ((s & Hs & Ho) & _ & t & Ht & _). cbn [fst].
    split; [|exists t; split; [done|by apply Forall_true]].
    unfold outlined in *. rewrite Hs. apply Forall2_same_length_lookup. split; [by rewrite length_insert; apply Forall2_length in Hp|].
    intros j x y Hx. rewrite list_lookup_insert_Some. intros [(<- & <- & _)|[_ Hy]].
    + destruct (Forall2_lookup_l _ _ _ _ _ Hp Hx) as (y & Hy & Hxy). rewrite Hi in Hy. injection Hy as <-. by etrans.
    + by eapply Forall2_lookup_lr.
  - assert (E : resource i p = (p, Panic)) by (unfold resource, at_resource; by rewrite Hi).
    assert (E' : process_resource srv opts original now acc i p = (p, Panic)) by (unfold process_resource, bind at 1; by rewrite E).
    rewrite E'. split; [done|]. exists []. simpl. by rewrite app_nil_r.
Qed.

(** What the Job [job] satisfies that the turn of the [k]-th resource creates, when
    packages have been run for the resources before it from [p] on. *)
Definition due (nodes : list Node) (p : Effects.pass api_call cluster) (job : StageJob) : Prop :=
  exists k acc q u s,
    loop (process_resource srv opts (tracked nodes) now) (None, []) (seq 0 k) p = (q, Ok acc) /\
    trace (process_resource srv opts (tracked nodes) now acc k q).1 = trace q ++ u /\ CreateJob job ∈ u /\
    Forall2 same_outline rs0 (cl_resources (mem q)) /\ cl_resources (mem q) !! k = Some s /\
    sns_IsDisabled s = false /\ sns_IsPaused s = false /\
    job_Labels (sj_Job job) !! prefixed_key "name" = Some (sns_Name s) /\
    job_NodeName (sj_Job job) ∈ node_names s /\
    IsNodeReadyForSkyhook (job_NodeName (sj_Job job)) s (cl_resources (mem q)) = true.

Lemma process_due nodes p n : outlined (mem p) ->
  jobs_from (due nodes p) (loop (process_resource srv opts (tracked nodes) now) (None, []) (seq 0 n)) p.
Proof.
  intros Hp. destruct (loop_rounds outlined _ (seq 0 n) (process_outlined (tracked nodes)) (None, []) p Hp) as (t & Ht & Hc).
  exists t. split; [done|]. intros job Hj. destruct (Hc _ Hj) as (l1 & k & l2 & q & acc & u & Hl & Hq & Ho & Hu & Hju).
  apply seq_split in Hl as ->.
  destruct (cl_resources (mem q) !! k) as [s|] eqn:Hs.
  - pose proof (process_resource_turn srv opts (tracked nodes) now acc k q s Hs) as H.
    destruct (process_resource _ _ _ _ _ _ _) as [p' r] eqn:Er. destruct H as (_ & Hoff & t' & Ht' & Hq'). cbn [fst] in Hu.
    assert (t' = u) as -> by (rewrite Hu in Ht'; by apply app_inv_head in Ht').
    rewrite Forall_forall in Hq'. destruct (Hq' _ Hju) as (name & [Hn Hr] & <- & Hlab).
    destruct (sns_IsDisabled s || sns_IsPaused s) eqn:Eoff.
    { destruct (Hoff eq_refl) as [-> _]. rewrite <- (app_nil_r (trace q)) in Hu at 1. apply app_inv_head in Hu as <-. by apply elem_of_nil in Hju. }
    apply orb_false_iff in Eoff as [E1 E2]. exists k, acc, q, u, s. split_and!; try done. by rewrite Er.
  - exfalso. assert (E : resource k q = (q, Panic)) by (unfold resource, at_resource; by rewrite Hs).
    assert (E' : process_resource srv opts (tracked nodes) now acc k q = (q, Panic)) by (unfold process_resource, bind at 1; by rewrite E).
    rewrite E' in Hu. cbn [fst] in Hu. rewrite <- (app_nil_r (trace q)) in Hu at 1. apply app_inv_head in Hu as <-. by apply elem_of_nil in Hju.
Qed.

Lemma run_packages_due nodes pending p : outlined (mem p) -> jobs_from (due nodes p) (run_packages nodes pending) p.
Proof.
  intros Hp.
  assert (Hl : jobs_from (due nodes p) (processSkyhooksPerNode srv opts (tracked nodes) now) p).
  { unfold processSkyhooksPerNode, all_resources. apply jobs_bind; [apply within_from; auto with steps|]. intros q rs [= <- <-].
    apply jobs_bind; [by apply process_due|]. intros q [result errs] _. apply within_from. auto 8 with steps. }
  assert (Hf : forall result errs, cluster_within
    (let* rs := all_resources in let* e := try (HandleRuntimeRequired srv opts rs nodes) in
     let* _ := lift (aggregate (errs ++ option_list e)) in ret (reconcileResult result pending (MaxInterval opts)))).
  { intros result errs. unfold all_resources. apply steps_bind; [apply _|auto with steps|]. intros rs.
    apply steps_bind; [apply _| |auto 8 with steps]. apply steps_try; [apply _|]. apply HandleRuntimeRequired_within. }
  unfold jobs_from, run_packages in *. destruct Hl as (t & Ht & Hj).
  destruct (processSkyhooksPerNode srv opts (tracked nodes) now p) as [p1 [res|e|]]; cbn [fst] in Ht; [| |by exists t].
  1: destruct (Hf res [] p1) as [_ (t' & Ht' & Hq)]. 2: destruct (Hf None [e] p1) as [_ (t' & Ht' & Hq)].
  all: exists (t ++ t'); rewrite Ht', Ht, app_assoc; split; [done|]; intros job [?|Hx]%elem_of_app; [by auto|];
    rewrite Forall_forall in Hq; by pose proof (Hq _ Hx).
Qed.

Definition due_after (nodes : list Node) (p : Effects.pass api_call cluster) (job : StageJob) : Prop :=
  exists pending q, prepare nodes p = (q, Ok (Continue pending)) /\ due nodes q job.

Lemma run_pass_due nodes p : outlined (mem p) -> jobs_from (due_after nodes p) (run_pass nodes) p.
Proof.
  intros Hp. unfold run_pass. apply jobs_bind; [apply within_from, pass_prepare_within|].
  intros q [r|pending] Hq; [apply within_from; auto with steps|].
  assert (Ho : outlined (mem q)).
  { unfold outlined in *. etrans; [exact Hp|]. pose proof (pass_prepare_within nodes p) as [H _]. by rewrite Hq in H. }
  destruct (run_packages_due nodes pending q Ho) as (t & Ht & Hj). exists t. split; [done|].
  intros job Hjob. exists pending, q. auto.
Qed.
End Due.

(* ------------------------------------------------------------------ *)
(** ** Lemmas: when the controller comes back *)

Lemma RunSkyhookPackages_delay original i p p' d :
  RunSkyhookPackages srv opts original now i p = (p', Ok (Some d)) -> d = requeue_soon.
Proof.
  unfold RunSkyhookPackages. intros (? & ? & _ & (? & ? & _ & (? & ? & _ & (? & ? & _ & (? & changed & _ & (? & s & _ & H)%bind_ok)%bind_ok)%bind_ok)%bind_ok)%bind_ok)%bind_ok.
  destruct (negb changed && sns_IsComplete s); [by injection H|].
  apply bind_ok in H as (? & ? & _ & (? & [np sel] & _ & (? & ? & _ & (? & [requeue|] & _ & H)%bind_ok)%bind_ok)%bind_ok).
  - apply bind_ok in H as (? & saved & _ & (? & s1 & _ & [= _ H])%bind_ok). by destruct (_ || _ || _); [injection H|].
  - by injection H.
Qed.

Lemma process_delay original acc i p p' acc' : (forall d, acc.1 = Some d -> d = requeue_soon) ->
  process_resource srv opts original now acc i p = (p', Ok acc') -> forall d, acc'.1 = Some d -> d = requeue_soon.
Proof.
  intros Hacc. unfold process_resource. intros (p1 & s & _ & (p2 & rs & _ & H)%bind_ok)%bind_ok.
  destruct (to_process s rs) as [[]|e|]; [|by injection H as _ <-|by injection H as _ <-|done].
  destruct (RunSkyhookPackages srv opts original now i p2) as [p3 [[d|]|e|]] eqn:E; [|by injection H as _ <-|by injection H as _ <-|done].
  injection H as _ <-. intros d' [= <-]. by eapply RunSkyhookPackages_delay.
Qed.

Lemma processSkyhooksPerNode_delay original p p' d :
  processSkyhooksPerNode srv opts original now p = (p', Ok (Some d)) -> d = requeue_soon.
Proof.
  unfold processSkyhooksPerNode. intros (p1 & rs & _ & (p2 & [result errs] & Hl & H)%bind_ok)%bind_ok.
  apply bind_ok in H as (p3 & [] & _ & [= _ ->]).
  refine (loop_inv (fun acc : option Z * list error => forall d, acc.1 = Some d -> d = requeue_soon) _ _ _ _ _ _ _ _ Hl d eq_refl); [|done].
  intros acc i s s' acc' Hacc Hf. by eapply process_delay.
Qed.

Lemma shouldReturn_delay u d : shouldReturn u = Some d -> d = requeue_soon.
Proof. by destruct u; [intros [= <-]|]. Qed.

Lemma validate_delay original s s' d b :
  validateAndUpsertSkyhookData srv opts original now s = (s', Ok (Some d, b)) -> d = requeue_soon.
Proof.
  unfold validateAndUpsertSkyhookData. intros (s1 & u & _ & H)%bind_ok. destruct (shouldReturn u) as [r|] eqn:E.
  { injection H as _ <- _. by eapply shouldReturn_delay. }
  apply bind_ok in H as (s2 & x & _ & (s3 & u' & _ & H)%bind_ok). destruct (shouldReturn u') as [r|] eqn:E'.
  { injection H as _ <- _. by eapply shouldReturn_delay. }
  apply bind_ok in H as (s4 & [updated sync] & _ & [= _ H]). destruct updated; congruence.
Qed.

(** What a step of the loop returns with. *)
Definition returns_soon (v : verdict) : Prop := forall d, v = Return d -> d = requeue_soon.

Lemma returns_if_delay m k p p' v : (forall p p' v, k p = (p', Ok v) -> returns_soon v) ->
  returns_if m k p = (p', Ok v) -> returns_soon v.
Proof.
  intros Hk. unfold returns_if. intros (p1 & u & _ & H)%bind_ok. destruct (shouldReturn u) as [r|] eqn:E; [|by eapply Hk].
  injection H as _ <-. intros d [= <-]. by eapply shouldReturn_delay.
Qed.

Lemma at_resource_ok {A} i (m : M api_call skyhookNodes A) p p' a : at_resource i m p = (p', Ok a) ->
  exists s s', m s = (s', Ok a).
Proof.
  unfold at_resource. destruct (cl_resources (mem p) !! i) as [r|]; [|done]. intros H. exists {| trace := trace p; mem := r |}.
  destruct (m _) as [s' x]. injection H as _ ->. by exists s'.
Qed.

Lemma prepare_delay original acc i p p' v : returns_soon acc -> prepare_resource original acc i p = (p', Ok v) -> returns_soon v.
Proof.
  intros Hacc. unfold prepare_resource. destruct acc as [r|pending]; [by intros [= _ <-]|].
  intros (p1 & [] & _ & H)%bind_ok. revert H. apply returns_if_delay. intros ???. apply returns_if_delay. clear. intros p p' v.
  intros (p1 & s & _ & H)%bind_ok. destruct (sns_IsPaused s); revert H.
  - unfold paused_resource. intros (p2 & s1 & _ & (p3 & [] & _ & H)%bind_ok)%bind_ok. revert H. apply returns_if_delay.
    by intros ??? [= _ <-].
  - unfold active_resource. intros (p2 & [result sync] & Hv & H)%bind_ok. destruct result as [r|].
    { injection H as _ <-. apply at_resource_ok in Hv as (x & x' & Hv). intros d [= <-]. by eapply validate_delay. }
    apply bind_ok in H as (p3 & s1 & _ & (p4 & [] & _ & (p5 & rs & _ & (p6 & changed & _ & H)%bind_ok)%bind_ok)%bind_ok).
    destruct changed; apply bind_ok in H as (p7 & x & _ & [= _ <-]); [|done]. by intros d [= <-].
Qed.

Lemma pass_prepare_delay nodes p p' v : prepare nodes p = (p', Ok v) -> returns_soon v.
Proof.
  unfold prepare. intros (p1 & rs & _ & H)%bind_ok. revert H.
  apply returns_if_delay. intros ???. apply returns_if_delay. intros ???. apply returns_if_delay. clear. intros p p' v.
  intros (p5 & tol & _ & (p6 & [] & _ & H)%bind_ok)%bind_ok. unfold each_resource in H. apply bind_ok in H as (p8 & rs' & _ & H).
  revert H. apply (loop_inv returns_soon); [|done]. intros acc i s s' acc' Ha. by apply prepare_delay.
Qed.

Lemma run_pass_delay nodes p p' d (Hopts : Options_Validate opts = Ok tt) : run_pass nodes p = (p', Ok d) -> 0 < d.
Proof.
  apply Validate_interval in Hopts. unfold Minute in Hopts.
  assert (Hsoon : 0 < requeue_soon) by done. unfold run_pass. intros (p7 & v & Hv & H)%bind_ok.
  pose proof (pass_prepare_delay _ _ _ _ Hv) as Hv'.
  destruct v as [r|pending]; [injection H as _ <-; by rewrite (Hv' r eq_refl)|]. revert H. unfold run_packages.
  destruct (processSkyhooksPerNode srv opts (tracked nodes) now p7) as [p8 [res|e|]] eqn:Ep; [| |done].
  - intros (p9 & rs' & _ & (p10 & e & _ & (p11 & [] & _ & [= _ <-])%bind_ok)%bind_ok)%bind_ok. destruct res as [d'|]; cbn [reconcileResult].
    + by apply processSkyhooksPerNode_delay in Ep as ->.
    + unfold configSyncRetryInterval. destruct pending; lia.
  - intros (p9 & rs' & _ & (p10 & e' & _ & (p11 & [] & H & _)%bind_ok)%bind_ok)%bind_ok.
    exfalso. unfold lift in H. injection H as _ H. by destruct (option_list e').
Qed.

(* ------------------------------------------------------------------ *)
(** ** Lemmas: the whole pass *)

(** What a Job that the pass creates satisfies: [p] is where the pass starts. *)
Definition due_Job (p : Effects.pass api_call cluster) (job : StageJob) : Prop :=
  exists nws nodes policies rs0,
    sv_nodewrights srv (trace p ++ [ListLegacySkyhooks]) = Ok nws /\
    sv_nodes srv (trace p ++ [ListLegacySkyhooks; ListNodeWrights]) = Ok nodes /\
    sv_policies srv (trace p ++ [ListLegacySkyhooks; ListNodeWrights; ListNodes]) = Ok policies /\
    BuildState now nws nodes policies = Ok rs0 /\
    due_after rs0 nodes {| trace := trace p ++ [ListLegacySkyhooks; ListNodeWrights; ListNodes; ListDeploymentPolicies];
                           mem := set_cl_resources rs0 (mem p) |} job.

Lemma jobs_read Q {A B} fmt args c (answer : list api_call -> res A) (k : A -> P B) p : no_job c ->
  (forall a, answer (trace p) = Ok a -> jobs_from Q (k a) {| trace := trace p ++ [c]; mem := mem p |}) ->
  jobs_from Q (bind (wrap fmt args (call c answer)) k) p.
Proof.
  intros Hc Hk. apply jobs_bind.
  - apply jobless_from. apply steps_wrap; [apply _|]. by apply emits_call.
  - by intros q a [Ha ->]%wrap_ok%call_ok; apply Hk.
Qed.

Lemma Reconcile_jobs p : jobs_from (due_Job p) Reconcile p.
Proof.
  unfold Reconcile. apply jobs_bind.
  { apply jobless_from. unfold legacyMigrationHold, list_legacy. apply steps_bind; [apply _|by apply emits_call|auto with steps]. }
  intros q hold (p1 & answer & [[= <-] ->]%call_ok & [= <- Hh])%bind_ok. clear Hh.
  destruct hold as [r|]; [apply within_from; auto with steps|]. apply jobs_read; [done|]. intros nws Hn. cbn [trace mem] in *.
  case_bool_decide; [apply within_from; auto with steps|]. apply jobs_read; [done|]. intros nodes Ho. cbn [trace mem] in *.
  case_bool_decide; [apply within_from; auto with steps|]. apply jobs_read; [done|]. intros policies Hp. cbn [trace mem] in *.
  rewrite <- !app_assoc in *. cbn [app] in *. apply jobs_bind.
  { apply jobless_from. exists []. rewrite app_nil_r. split; [|done]. unfold build, step. by destruct (rbind _ _) as [[]| |]. }
  intros q [] Hq. unfold build, step in Hq. cbn [trace mem] in Hq.
  destruct (BuildState now nws nodes policies) as [rs0|e|] eqn:Eb; cbn [rbind] in Hq; [|done..]. injection Hq as <-.
  apply jobs_bind; [|intros; apply within_from; auto with steps].
  destruct (run_pass_due rs0 nodes {| trace := trace p ++ [ListLegacySkyhooks; ListNodeWrights; ListNodes; ListDeploymentPolicies];
    mem := set_cl_resources rs0 (mem p) |}) as (t & Ht & Hj).
  { unfold outlined. simpl. reflexivity. }
  exists t. split; [done|]. intros job Hjob. exists nws, nodes, policies, rs0. split_and!; auto.
Qed.

(* ------------------------------------------------------------------ *)
(** ** Properties *)

(** C1: what a pass may start.  While a resource of the old group is still rolling
    out, or that cannot be told, the pass does nothing but ask, and comes back.
    Otherwise take any Job that it creates, anywhere in the pass and whatever the
    server answers.  The pass had built its state from the lists that the server
    gave it, gone through the steps before packages without one of them
    returning, and run the packages of the first [k] resources: this leaves it
    in the state [q].  The Job is created in the turn of the [k]-th resource, and
    in [q] this resource is neither disabled nor paused, the Job carries its
    name and runs on one of its nodes, and every resource before it in the order
    that sequences node by node has completed there.  The resources of [q]
    are still those that were built, with the same nodes. *)
Theorem Jobs_are_due (p : Effects.pass api_call cluster) :
  (inFlightLegacySkyhooks (sv_legacy srv (trace p)) <> Ok [] ->
     Reconcile p = ({| trace := trace p ++ [ListLegacySkyhooks]; mem := mem p |}, Ok (Some legacyMigrationHoldRequeue))) /\
  exists t, trace (Reconcile p).1 = trace p ++ t /\ forall job, CreateJob job ∈ t ->
    exists nws nodes policies rs0 pending q0 k acc q u s,
      sv_nodewrights srv (trace p ++ [ListLegacySkyhooks]) = Ok nws /\
      sv_nodes srv (trace p ++ [ListLegacySkyhooks; ListNodeWrights]) = Ok nodes /\
      sv_policies srv (trace p ++ [ListLegacySkyhooks; ListNodeWrights; ListNodes]) = Ok policies /\
      BuildState now nws nodes policies = Ok rs0 /\
      prepare nodes {| trace := trace p ++ [ListLegacySkyhooks; ListNodeWrights; ListNodes; ListDeploymentPolicies];
                       mem := set_cl_resources rs0 (mem p) |} = (q0, Ok (Continue pending)) /\
      loop (process_resource srv opts (tracked nodes) now) (None, []) (seq 0 k) q0 = (q, Ok acc) /\
      trace (process_resource srv opts (tracked nodes) now acc k q).1 = trace q ++ u /\ CreateJob job ∈ u /\
      Forall2 same_outline rs0 (cl_resources (mem q)) /\ cl_resources (mem q) !! k = Some s /\
      sns_IsDisabled s = false /\ sns_IsPaused s = false /\
      job_Labels (sj_Job job) !! prefixed_key "name" = Some (sns_Name s) /\
      job_NodeName (sj_Job job) ∈ node_names s /\
      IsNodeReadyForSkyhook (job_NodeName (sj_Job job)) s (cl_resources (mem q)) = true.
Proof.
  split.
  - intros H. unfold Reconcile, legacyMigrationHold, list_legacy, bind, call, ret. cbn [trace mem].
    by destruct (inFlightLegacySkyhooks (sv_legacy srv (trace p))) as [[|n l]|e|].
  - destruct (Reconcile_jobs p) as (t & Ht & Hj). exists t. split; [done|]. intros job Hjob.
    destruct (Hj _ Hjob) as (nws & nodes & policies & rs0 & H1 & H2 & H3 & H4 & pending & q0 & H5 & k & acc & q & u & s & H).
    by exists nws, nodes, policies, rs0, pending, q0, k, acc, q, u, s.
Qed.

(** C18: a pass never goes to sleep for good.  When the options are valid and a pass
    ends without an error, it comes back after a positive delay, unless the
    server had no resource or no node; then it has made no call but its reads. *)
Theorem Reconcile_comes_back (p p' : Effects.pass api_call cluster) (r : option Z)
    (Hopts : Options_Validate opts = Ok tt) (H : Reconcile p = (p', Ok r)) :
  match r with
  | Some d => 0 < d
  | None =>
      (trace p' = trace p ++ [ListLegacySkyhooks; ListNodeWrights] /\ sv_nodewrights srv (trace p ++ [ListLegacySkyhooks]) = Ok []) \/
      (trace p' = trace p ++ [ListLegacySkyhooks; ListNodeWrights; ListNodes] /\
         sv_nodes srv (trace p ++ [ListLegacySkyhooks; ListNodeWrights]) = Ok [])
  end.
Proof.
  unfold Reconcile in H. apply bind_ok in H as (p1 & hold & Hh & H). unfold legacyMigrationHold, list_legacy in Hh.
  apply bind_ok in Hh as (p0 & answer & [[= <-] ->]%call_ok & [= <- <-]). destruct (match inFlightLegacySkyhooks _ with Ok [] => None | _ => _ end) as [d|] eqn:Ed.
  { injection H as _ <-. destruct (inFlightLegacySkyhooks _) as [[|n l]|e|]; try discriminate; by injection Ed as <-. }
  apply bind_ok in H as (p2 & nws & [Hn ->]%wrap_ok%call_ok & H). cbn [trace mem] in *. case_bool_decide as E1.
  { injection H as <- <-. left. cbn [trace]. rewrite <- app_assoc. split; [done|]. by rewrite Hn, E1. }
  apply bind_ok in H as (p3 & nodes & [Hno ->]%wrap_ok%call_ok & H). cbn [trace mem] in *. case_bool_decide as E2.
  { injection H as <- <-. right. cbn [trace]. rewrite <- app_assoc in Hno. rewrite <- !app_assoc. split; [done|]. cbn [app] in Hno. by rewrite Hno, E2. }
  apply bind_ok in H as (p4 & policies & _ & (p5 & [] & _ & (p6 & d & Hd & [= _ <-])%bind_ok)%bind_ok).
  by eapply run_pass_delay.
Qed.

End Reconcile.

(* ------------------------------------------------------------------ *)
(** ** Witness *)

#[local] Existing Instance braced_json.
#[local] Existing Instance merge_strings.
#[local] Existing Instance example_time.
#[local] Existing Instance package_text.
#[local] Existing Instance example_syntax.
#[local] Existing Instance text_quantities.
#[local] Existing Instance text_semver.
#[local] Existing Instance blank_encoding.
#[local] Existing Instance no_selectors.
#[local] Existing Instance texts_in_order.
#[local] Instance written_as_sent : JSONMergePatch := { json_merge _ new _ := new; json_merge_same _ _ := eq_refl }.

Definition rolling_out : LegacySkyhook := {| ls_Name := "old"; ls_Annotations := ∅; ls_Status := "in_progress" |}.

Definition last_written {A} (f : api_call -> option A) (first : A) (t : list api_call) : A := List.last (omap f t) first.

Definition nodewright_in (c : api_call) : option NodeWright :=
  match c with PatchNodeWright nw | UpdateStatus nw | PatchStatus nw => Some nw | _ => None end.

Definition node_in (c : api_call) : option Node :=
  match c with SaveNode _ _ n | PatchNode n | PatchNodeStatus n => Some n | _ => None end.

(** A server with one resource and one node that keeps what it is sent; [legacy]
    are the resources of the old group. *)
Definition keeping (legacy : list LegacySkyhook) (nw : NodeWright) (node : Node) : server :=
  let q := quiet_server in
  let nw_of t := last_written nodewright_in nw t in
  let node_of t := last_written node_in node t in
  {| sv_legacy _ := Listed legacy; sv_nodewrights t := Ok [nw_of t]; sv_nodes t := Ok [node_of t]; sv_policies := sv_policies q;
     sv_labelled_pods := sv_labelled_pods q; sv_pods := sv_pods q; sv_selected_pods := sv_selected_pods q; sv_jobs := sv_jobs q;
     sv_job := sv_job q; sv_configmaps := sv_configmaps q; sv_configmap := sv_configmap q; sv_write := sv_write q;
     sv_attempts t _ := [{| at_read := Ok (Some (node_of t, 0)); at_version := 0; at_current := node_of t |}];
     sv_node := sv_node q; sv_nodewright := sv_nodewright q; sv_read_nodewright t _ := Ok (Some (nw_of t)) |}.

Definition tuning_server (legacy : list LegacySkyhook) : server :=
  keeping legacy (plain_nodewright "tuning" (tools_spec false) empty_status) fresh_node.

(** A pass remembers nothing of the one before it but what the server keeps. *)
Definition one_pass (legacy : list LegacySkyhook) (t : list api_call) : Effects.pass api_call cluster * res (option Z) :=
  Reconcile (tuning_server legacy) default_options 0 ""
    {| trace := t; mem := {| cl_resources := []; cl_picker := NewNodePicker [] |} |}.

Fixpoint passes (n : nat) (t : list api_call) : list api_call :=
  match n with O => t | S n => passes n (trace (one_pass [] t).1) end.

Lemma created_in job t : job ∈ created t <-> CreateJob job ∈ t.
Proof.
  unfold created. rewrite list_elem_of_omap. split; [intros (c & Hc & E); by destruct c; try done; injection E as <-|].
  intros H. by exists (CreateJob job).
Qed.

Lemma passes_S n : forall t, passes (S n) t = trace (one_pass [] (passes n t)).1.
Proof. induction n as [|n IH]; intros t; [done|]. change (passes (S (S n)) t) with (passes (S n) (trace (one_pass [] t).1)). by rewrite IH. Qed.

(** The first five passes record the resource and its statuses; the sixth starts
    the first Job. *)
Lemma Jobs_are_due_witness :
  created (passes 5 []) = [] /\
  exists job nodes q0 k acc q s, job ∈ created (passes 6 []) /\ job_NodeName (sj_Job job) = "node1" /\
    loop (process_resource (tuning_server []) default_options (tracked nodes) 0) (None, []) (seq 0 k) q0 = (q, Ok acc) /\
    cl_resources (mem q) !! k = Some s /\ sns_IsPaused s = false /\ job_NodeName (sj_Job job) ∈ node_names s /\
    IsNodeReadyForSkyhook (job_NodeName (sj_Job job)) s (cl_resources (mem q)) = true.
Proof.
  assert (H5 : created (passes 5 []) = []) by (by vm_compute).
  assert (H6 : map (fun job => job_NodeName (sj_Job job)) (created (passes 6 [])) = ["node1"]) by (by vm_compute).
  rewrite (passes_S 5) in *. split; [exact H5|]. revert H5 H6. generalize (passes 5 []). intros t H5 H6. unfold one_pass in *.
  destruct (Jobs_are_due (tuning_server []) default_options 0 ""
    {| trace := t; mem := {| cl_resources := []; cl_picker := NewNodePicker [] |} |}) as (_ & u & Hu & Hdue).
  revert H6 Hu. generalize (trace (Reconcile (tuning_server []) default_options 0 ""
    {| trace := t; mem := {| cl_resources := []; cl_picker := NewNodePicker [] |} |}).1). intros t' H6 Hu. cbn [trace] in Hu. subst t'.
  destruct (created (t ++ u)) as [|job l] eqn:Ec; [done|]. simpl in H6. injection H6 as Hn _.
  assert (Hj : CreateJob job ∈ t ++ u) by (apply created_in; rewrite Ec; by left).
  apply elem_of_app in Hj as [Hj|Hj]; [apply created_in in Hj; rewrite H5 in Hj; by apply elem_of_nil in Hj|].
  destruct (Hdue job Hj) as (nws & nodes & policies & rs0 & pending & q0 & k & acc & q & v & s & _ & _ & _ & _ & _ & Hq & _ & _ & _ & Hs & _ & Hp & _ & Hnn & Hr).
  exists job, nodes, q0, k, acc, q, s. split_and!; [by left|done..].
Defined.

(** With an old resource that is rolling out the pass waits for it. *)
Lemma Reconcile_comes_back_witness :
  exists p' d, one_pass [rolling_out] [] = (p', Ok (Some d)) /\ 0 < d /\ trace p' = [ListLegacySkyhooks].
Proof.
  destruct (one_pass [rolling_out] []) as [p' r] eqn:E.
  assert (Hr : r = Ok (Some legacyMigrationHoldRequeue)) by (change r with (p', r).2; rewrite <- E; by vm_compute). subst r.
  exists p', legacyMigrationHoldRequeue. split; [done|]. split.
  - refine (Reconcile_comes_back (tuning_server [rolling_out]) default_options 0 "" _ p' (Some legacyMigrationHoldRequeue) _ E). by vm_compute.
  - change p' with (p', Ok (Some legacyMigrationHoldRequeue) : res (option Z)).1. rewrite <- E. by vm_compute.
Defined.
