(* ===== verification/Cli.v ===== *)
(** * The command line plugin: what its commands share

    Models [operator/internal/cli/utils/utils.go], [internal/cli/context] and
    [internal/cli/preflight]: the calls of [kubectl nodewright] and what they meet,
    the selection of nodes, the version and the namespace of the operator, and
    the patches.

    A [cluster] answers as a function of the calls made so far, so what the
    operator does in between is one of its answers.  A patch is the document
    that is sent.  (The keys that are printed with [%q] are names that Kubernetes
    accepts, for which that is their JSON text.)  Regular expressions are the
    parameter [Regexp].  What is printed, the reading of the command line by
    [cobra] and the making of the clients are left out. *)

From S2P Require Import Prelude Sha256 Effects Paths Json DeploymentPolicy Api NodeState Skyhook Node Migration.

#[local] Open Scope Z_scope.
#[local] Open Scope go_scope.

(* ------------------------------------------------------------------ *)
(** ** The cluster and the terminal *)

Inductive cli_call :=
| ServerGroups
| ListNodes (selector : string)
| ListDeployments (namespace selector : string)
| GetNodeWright (name : string)
| PatchNodeWright (name : string) (patch : json)
| PatchNodeWrightStatus (name : string) (patch : json)
| PatchNode (name : string) (patch : json)
| ReadLine.

Record Deployment := { dep_Namespace : string; dep_Labels : gmap string string; dep_Images : list string }.

(** An error of discovery: partial, with the groups it concerns, or not. *)
Inductive discovery_error := GroupDiscoveryFailed (groups : list string) (e : error) | DiscoveryFailed (e : error).

Record discovered := { dg_Groups : option (list string); dg_err : option discovery_error }.

(** What [ReadString] gives: a line, the text before the end of the input, or
    an error. *)
Inductive line := Line (s : string) | LastLine (s : string) | Unread (e : error).

Record cluster := {
  k_groups : list cli_call -> discovered;
  k_nodes : list cli_call -> string -> res (list Node);
  k_deployments : list cli_call -> string -> string -> res (list Deployment);
  k_nodewright : list cli_call -> string -> res NodeWright;
  k_patch : list cli_call -> cli_call -> option error;
  k_line : list cli_call -> line
}.

Record GlobalFlags := {
  gf_Namespace : option string; gf_NamespaceChanged : bool;
  gf_OutputFormat : string; gf_Verbose : bool; gf_DryRun : bool
}.

(** The memory of a command is the namespace it has resolved. *)
Notation Cli := (M cli_call (option string)).

Definition is_write (c : cli_call) : bool :=
  match c with PatchNodeWright _ _ | PatchNodeWrightStatus _ _ | PatchNode _ _ => true | _ => false end.

(** The result or the error of a program, for a caller that goes on. *)
Definition attempt {A} (m : Cli A) : Cli (A + error) := fun s =>
  match m s with
  | (s, Ok a) => (s, Ok (inl a))
  | (s, Err e) => (s, Ok (inr e))
  | (s, Panic) => (s, Panic)
  end.

Class Regexp := { regexp_Compile : string -> res (string -> bool) }.

(* ------------------------------------------------------------------ *)
(** ** Texts *)

(** [strings.Contains] *)
Fixpoint strings_Contains (s sub : string) : bool :=
  has_prefix s sub || match s with EmptyString => false | String _ s => strings_Contains s sub end.

(** [strings.ContainsAny] of ASCII characters *)
Definition ContainsAny (s chars : string) : bool := existsb (fun c => contains_char c s) (String.list_ascii_of_string chars).

Definition yes (response : string) : bool :=
  let response := to_lower (TrimSpace response) in bool_decide (response = "y") || bool_decide (response = "yes").

Definition DefaultNamespace : string := "nodewright".
Definition LegacyDefaultNamespace : string := "skyhook".
Definition MinAnnotationSupportVersion : string := "v0.8.0".
Definition MinNodeStateSupportVersion : string := "v0.7.5".

Definition PauseAnnotation : string := METADATA_PREFIX +:+ "/pause".
Definition DisableAnnotation : string := METADATA_PREFIX +:+ "/disable".
Definition NodeIgnoreLabel : string := METADATA_PREFIX +:+ "/ignore".
Definition VersionAnnotation : string := METADATA_PREFIX +:+ "/version".

Definition ExtractImageTag (image : string) : string :=
  let image := match cut_at_first "@"%char image with Some (String _ _ as before, _) => before | _ => image end in
  match cut_at_last ":"%char image with Some (_, tag) => TrimSpace tag | None => "" end.

Definition looksLikeOperator (s : string) : bool :=
  let s := to_lower s in strings_Contains s "nodewright" || strings_Contains s "skyhook".

Definition isSkyhookOperatorDeployment (d : Deployment) : bool :=
  existsb looksLikeOperator (dep_Images d) ||
  existsb (fun kv => looksLikeOperator kv.1 || looksLikeOperator kv.2) (map_to_list (dep_Labels d)).

(** The version a deployment of the operator tells, if it tells one. *)
Definition deployment_version (d : Deployment) : option string :=
  let v := TrimSpace (default "" (dep_Labels d !! "app.kubernetes.io/version")) in
  if negb (bool_decide (v = "")) then Some v
  else List.find (fun tag => negb (bool_decide (tag = "")) && negb (bool_decide (tag = "latest")))
         (map ExtractImageTag (dep_Images d)).

(** The first operator's deployment that tells its version. *)
Fixpoint discovered_version (l : list Deployment) : option string :=
  match l with
  | [] => None
  | d :: l =>
      if isSkyhookOperatorDeployment d then
        match deployment_version d with Some v => Some v | None => discovered_version l end
      else discovered_version l
  end.

Definition controllerManagerSelector : string := "control-plane=controller-manager".

(** [GlobalFlags.Validate] and [GlobalFlags.Namespace] *)
Definition GlobalFlags_Validate (f : GlobalFlags) : res GlobalFlags :=
  let out := to_lower (gf_OutputFormat f) in
  if bool_decide (out ∈ ["table"; "json"; "yaml"; "wide"]) then
    Ok {| gf_Namespace := gf_Namespace f; gf_NamespaceChanged := gf_NamespaceChanged f; gf_OutputFormat := out;
          gf_Verbose := gf_Verbose f; gf_DryRun := gf_DryRun f |}
  else Err (errorf "invalid output format %q" [out]).

Definition GlobalFlags_Namespace (f : GlobalFlags) : string :=
  match gf_Namespace f with
  | None => DefaultNamespace
  | Some ns => let ns := TrimSpace ns in if bool_decide (ns = "") then DefaultNamespace else ns
  end.

Definition GetSkyhookVersion (nw : NodeWright) : string := default "" (nw_Annotations nw !! VersionAnnotation).

(** [cordon_..], [nodeState_..] and the others, by the resource's name *)
Definition nodeStateAnnotationPrefix : string := METADATA_PREFIX +:+ "/nodeState_".
Definition statusAnnotationPrefix : string := METADATA_PREFIX +:+ "/status_".
Definition cli_cordonAnnotationPrefix : string := METADATA_PREFIX +:+ "/cordon_".
Definition drainStartAnnotationPrefix : string := METADATA_PREFIX +:+ "/drainStart_".
Definition versionAnnotationPrefix : string := METADATA_PREFIX +:+ "/version_".
Definition autoTaintAnnotationPrefix : string := METADATA_PREFIX +:+ "/autoTaint_".
Definition statusLabelPrefix : string := METADATA_PREFIX +:+ "/status_".

(* ------------------------------------------------------------------ *)
(** ** Versions *)

Section Versions.
Context `{SV : Semver}.

Definition CompareVersions (v1 v2 : string) : Z :=
  if bool_decide (v1 = "") then if bool_decide (v2 = "") then 0 else -1
  else if bool_decide (v2 = "") then 1
  else match with_v v1, with_v v2 with
  | Ok v1, Ok v2 => if negb (semver_IsValid v1) || negb (semver_IsValid v2) then 0 else semver_Compare v1 v2
  | _, _ => 0
  end.

Definition IsValidVersion (v : string) : bool :=
  match with_v v with Ok v => semver_IsValid v | _ => false end.

End Versions.

(* ------------------------------------------------------------------ *)
(** ** The calls *)

Section Commands.
Context `{MR : MapRange} `{SV : Semver} `{JS : NodeStateJSON} `{RX : Regexp} (k : cluster).

Definition server_groups : Cli discovered := call ServerGroups (fun t => Ok (k_groups k t)).
Definition list_nodes (selector : string) : Cli (list Node) :=
  wrap "listing nodes: %w" [] (call (ListNodes selector) (fun t => k_nodes k t selector)).
Definition list_deployments (namespace selector : string) : Cli (list Deployment) :=
  call (ListDeployments namespace selector) (fun t => k_deployments k t namespace selector).
Definition read_line : Cli line := call ReadLine (fun t => Ok (k_line k t)).
Definition send (c : cli_call) : Cli unit :=
  call c (fun t => match k_patch k t c with None => Ok tt | Some e => Err e end).

(** [UnstructuredToSkyhook] is part of the answer. *)
Definition GetSkyhook (name : string) : Cli NodeWright :=
  wrap "getting NodeWright %q: %w" [name] (call (GetNodeWright name) (fun t => k_nodewright k t name)).

(** A patch of one key of [metadata.annotations] or [metadata.labels]. *)
Definition metadata_patch (field key : string) (v : json) : json :=
  JObject [("metadata", JObject [(field, JObject [(key, v)])])].

Definition SetSkyhookAnnotation (name annotation value : string) : Cli unit :=
  wrap "patching skyhook %q: %w" [name] (send (PatchNodeWright name (metadata_patch "annotations" annotation (JString value)))).
Definition RemoveSkyhookAnnotation (name annotation : string) : Cli unit :=
  wrap "patching skyhook %q: %w" [name] (send (PatchNodeWright name (metadata_patch "annotations" annotation JNull))).
Definition SetNodeAnnotation (name key value : string) : Cli unit :=
  wrap "patching node %q: %w" [name] (send (PatchNode name (metadata_patch "annotations" key (JString value)))).
Definition RemoveNodeAnnotation (name key : string) : Cli unit :=
  wrap "patching node %q: %w" [name] (send (PatchNode name (metadata_patch "annotations" key JNull))).
Definition SetNodeLabel (name key value : string) : Cli unit :=
  wrap "patching node %q: %w" [name] (send (PatchNode name (metadata_patch "labels" key (JString value)))).
Definition RemoveNodeLabel (name key : string) : Cli unit :=
  wrap "patching node %q: %w" [name] (send (PatchNode name (metadata_patch "labels" key JNull))).
Definition PatchSkyhookStatusRaw (name : string) (patch : json) : Cli unit :=
  wrap "patching skyhook %q status: %w" [name] (send (PatchNodeWrightStatus name patch)).

(* ------------------------------------------------------------------ *)
(** ** Nodes *)

Definition regexp_metacharacters : string := ".*+?^${}[]|()\".

Definition match_pattern (availableNodes : list string) (matched : gmap string unit) (pattern : string) : res (gmap string unit) :=
  let each := fold_left (fun matched node => <[node := tt]> matched) in
  if ContainsAny pattern regexp_metacharacters then
    let! re := rwrap "invalid regex pattern %q: %w" [pattern] (regexp_Compile ("^" +:+ pattern +:+ "$")) in
    Ok (each (List.filter re availableNodes) matched)
  else Ok (each (List.filter (fun node => bool_decide (node = pattern)) availableNodes) matched).

Definition MatchNodes (patterns availableNodes : list string) : res (list string) :=
  let! matched := rfold (match_pattern availableNodes) ∅ patterns in
  Ok (range matched).*1.

(** The states of the nodes that have one, and the nodes whose annotation is
    malformed. *)
Definition states_of (key : string) (nodes : list Node) : gmap string NodeState * list string :=
  fold_left (fun '(result, parseErrs) node =>
    match n_Annotations node !! key with
    | None => (result, parseErrs)
    | Some raw =>
        match json_Unmarshal raw with
        | Ok state => (<[n_Name node := default ∅ state]> result, parseErrs)
        | _ => (result, parseErrs ++ [n_Name node])
        end
    end) nodes (∅, []).

(** An error of the list fails; malformed annotations are told besides. *)
Definition ListNodesWithSkyhookState (skyhookName labelSelector : string) : Cli (gmap string NodeState * list string) :=
  let* nodes := list_nodes labelSelector in
  ret (states_of (nodeStateAnnotationPrefix +:+ skyhookName) nodes).

(* ------------------------------------------------------------------ *)
(** ** The operator *)

Definition DiscoverOperatorVersion (namespace : string) : Cli string :=
  let namespace := if bool_decide (namespace = "") then DefaultNamespace else namespace in
  let* deployments := wrap "listing deployments in namespace %q: %w" [namespace] (list_deployments namespace "") in
  match discovered_version deployments with
  | Some v => ret v
  | None => raise (errorf "unable to determine operator version; no nodewright operator deployment found in namespace %q" [namespace])
  end.

(** A list that fails is one without the operator. *)
Definition deployments_or_none (namespace : string) : Cli (list Deployment) :=
  let* r := attempt (list_deployments namespace controllerManagerSelector) in
  ret (match r with inl l => l | inr _ => [] end).

Definition hasOperatorDeployment (namespace : string) : Cli bool :=
  let* deployments := deployments_or_none namespace in
  ret (existsb isSkyhookOperatorDeployment deployments).

(** The namespace, whether an operator was found there, whether it is the old one. *)
Definition ResolveOperatorNamespace : Cli (string * bool * bool) :=
  let* here := hasOperatorDeployment DefaultNamespace in
  if here then ret (DefaultNamespace, true, false)
  else
    let* here := hasOperatorDeployment LegacyDefaultNamespace in
    if here then ret (LegacyDefaultNamespace, true, true)
    else
      let* deployments := deployments_or_none "" in
      match List.find isSkyhookOperatorDeployment deployments with
      | Some d => ret (dep_Namespace d, true, false)
      | None => ret (DefaultNamespace, false, false)
      end.

Definition ResolveNamespace (f : GlobalFlags) : Cli string :=
  if gf_NamespaceChanged f then ret (GlobalFlags_Namespace f)
  else
    let* known := gets (fun m => m) in
    match known with
    | Some namespace => ret namespace
    | None =>
        let* '(namespace, _, _) := ResolveOperatorNamespace in
        let* _ := modify (fun _ => Some namespace) in
        ret namespace
    end.

(** The version annotated on the resource, else that of the deployment. *)
Definition operator_version (namespace : Cli string) (nw : NodeWright) : Cli string :=
  let opVersion := GetSkyhookVersion nw in
  if bool_decide (opVersion = "") || negb (IsValidVersion opVersion) then
    let* namespace := namespace in
    let* r := attempt (DiscoverOperatorVersion namespace) in
    ret (match r with inl deployVersion => if IsValidVersion deployVersion then deployVersion else opVersion | inr _ => opVersion end)
  else ret opVersion.

Definition unsupported (opVersion minimum : string) : bool :=
  IsValidVersion opVersion && (CompareVersions opVersion minimum <? 0).

Definition CheckNodeStateOperatorVersion (namespace : string) (nw : NodeWright) : Cli unit :=
  let* opVersion := operator_version (ret namespace) nw in
  if unsupported opVersion MinNodeStateSupportVersion then
    raise (errorf "operator version %s does not support this command; minimum supported version is %s" [opVersion; MinNodeStateSupportVersion])
  else ret tt.

(* ------------------------------------------------------------------ *)
(** ** Before a command *)

Definition nodewright_group : string := "nodewright.nvidia.com".
Definition skyhook_group : string := "skyhook.nvidia.com".

(** The error, where it says that the group's being served is not known. *)
Definition groupDiscoveryFailedFor (err : option discovery_error) (group : string) : option error :=
  match err with
  | Some (GroupDiscoveryFailed failed e) => if bool_decide (group ∈ failed) then Some e else None
  | _ => None
  end.

Definition EnsureNodeWrightServed : Cli unit :=
  let* d := server_groups in
  match dg_err d, dg_Groups d with
  | Some (DiscoveryFailed e), _ => raise (Wrapf "discovering served API groups: %w" [] e)
  | _, None => ret tt
  | err, Some groups =>
      if bool_decide (nodewright_group ∈ groups) then ret tt
      else match groupDiscoveryFailedFor err nodewright_group with
      | Some e => raise (Wrapf "discovering served API groups: %w" [] e)
      | None =>
          if bool_decide (skyhook_group ∈ groups) then
            raise (errorf "this CLI targets the %s API group, but the cluster's operator only serves the legacy %s group; upgrade to a NodeWright-capable operator (see docs/user-guide/cli.md)" [nodewright_group; skyhook_group])
          else ret tt
      end
  end.

Definition EOF : error := errorf "EOF" [].

(** The end of the input is an answer here, *)
Definition ConfirmYN : Cli bool :=
  let* l := read_line in
  match l with
  | Line s | LastLine s => ret (yes s)
  | Unread e => raise (Wrapf "reading confirmation: %w" [] e)
  end.

(** and an error in the commands that read the line themselves. *)
Definition promptConfirmation : Cli bool :=
  let* l := read_line in
  match l with
  | Line s => ret (yes s)
  | LastLine _ => raise (Wrapf "reading confirmation: %w" [] EOF)
  | Unread e => raise (Wrapf "reading confirmation: %w" [] e)
  end.

End Commands.

(* ------------------------------------------------------------------ *)
(** ** What a command does with what it has seen

    [P] says which call may follow which calls.  [follows P h m Q]: once the calls
    [h] are made, every call of [m] is one that may follow, and a result of [m]
    satisfies [Q] with calls that were made.  What was seen once stays seen, so
    [P] has to be kept by more calls. *)

Definition allowed (P : list cli_call -> cli_call -> Prop) (h t : list cli_call) : Prop :=
  forall t1 e t2, t = t1 ++ e :: t2 -> P (h ++ t1) e.

(** The call [e] was made, and what it met was [met]. *)
Definition Saw (h : list cli_call) (e : cli_call) (met : list cli_call -> Prop) : Prop :=
  exists h1 h2, h = h1 ++ e :: h2 /\ met h1.

Lemma Saw_prefix h h' e met : h `prefix_of` h' -> Saw h e met -> Saw h' e met.
Proof. intros [l ->] (h1 & h2 & -> & H). exists h1, (h2 ++ l). by rewrite <- app_assoc. Qed.

Lemma Saw_last h e (met : list cli_call -> Prop) : met h -> Saw (h ++ [e]) e met.
Proof. intros H. by exists h, []. Qed.

Lemma allowed_app P h t t' : allowed P h t -> allowed P (h ++ t) t' -> allowed P h (t ++ t').
Proof.
  intros H H' t1 e t2 E. apply app_eq_inv in E as [(l & -> & E)|(l & -> & ->)].
  - destruct l as [|x l]; simpl in E.
    + rewrite app_nil_r in *. subst t'. specialize (H' [] e t2 eq_refl). by rewrite app_nil_r in H'.
    + injection E as <- ->. by apply (H t1 e l).
  - rewrite app_assoc. by apply (H' l e t2).
Qed.

Lemma attempt_steps {A} (R : pass cli_call (option string) -> pass cli_call (option string) -> Prop) (m : Cli A) :
  steps R m -> steps R (attempt m).
Proof. intros Hm s. unfold attempt. pose proof (Hm s). by destruct (m s) as [s' [a|e|]]. Qed.

#[export] Hint Resolve attempt_steps : steps.

Section Follows.
Context (P : list cli_call -> cli_call -> Prop) (P_prefix : forall h h' e, h `prefix_of` h' -> P h e -> P h' e).

#[local] Set Default Proof Using "Type".

Definition follows {A} (h : list cli_call) (m : Cli A) (Q : A -> list cli_call -> Prop) : Prop :=
  forall s, h `prefix_of` trace s -> exists t, trace (m s).1 = trace s ++ t /\ allowed P (trace s) t /\
    forall a, (m s).2 = Ok a -> exists h', h `prefix_of` h' /\ h' `prefix_of` trace s ++ t /\ Q a h'.

Lemma allowed_nil h : allowed P h [].
Proof. intros [|? ?] ? ? [=]. Qed.

(** A program that makes no call. *)
Lemma follows_silent {A} h (m : Cli A) (Q : A -> list cli_call -> Prop) :
  (forall s, trace (m s).1 = trace s) -> (forall s a, (m s).2 = Ok a -> Q a h) -> follows h m Q.
Proof.
  intros Ht HQ s Hs. exists []. rewrite app_nil_r. split; [apply Ht|]. split; [apply allowed_nil|].
  intros a Ha. exists h. split; [done|]. split; [done|]. by eapply HQ.
Qed.

Lemma follows_ret {A} h (a : A) (Q : A -> list cli_call -> Prop) : Q a h -> follows h (ret a) Q.
Proof. intros H. apply follows_silent; [done|]. by intros s a' [= <-]. Qed.

Lemma follows_raise {A} h e (Q : A -> list cli_call -> Prop) : follows h (raise e) Q.
Proof. by apply follows_silent. Qed.

Lemma follows_lift {A} h (r : res A) (Q : A -> list cli_call -> Prop) : (forall a, r = Ok a -> Q a h) -> follows h (lift r) Q.
Proof. intros H. by apply follows_silent. Qed.

Lemma follows_bind {A B} h (m : Cli A) (g : A -> Cli B) Q Q' : follows h m Q ->
  (forall a h', h `prefix_of` h' -> Q a h' -> follows h' (g a) Q') -> follows h (bind m g) Q'.
Proof.
  intros Hm Hg s Hs. destruct (Hm s Hs) as (t & Ht & Hp & Hq). unfold bind. destruct (m s) as [s' [a|e|]]; cbn [fst snd] in *;
    [|by exists t..].
  destruct (Hq a eq_refl) as (h' & Hh & Hh' & HQ). rewrite <- Ht in Hh'. destruct (Hg a h' Hh HQ s' Hh') as (t' & Ht' & Hp' & Hq').
  exists (t ++ t'). rewrite Ht', Ht, <- app_assoc. split; [done|]. split; [apply allowed_app; [done|by rewrite <- Ht]|].
  intros b Hb. destruct (Hq' b Hb) as (h2 & H1 & H2 & H3). exists h2. rewrite Ht, <- app_assoc in H2. split; [by etrans|]. by split.
Qed.

Lemma follows_post {A} h (m : Cli A) (Q Q' : A -> list cli_call -> Prop) : follows h m Q -> (forall a h', Q a h' -> Q' a h') -> follows h m Q'.
Proof.
  intros Hm H s Hs. destruct (Hm s Hs) as (t & Ht & Hp & Hq). exists t. split; [done|]. split; [done|].
  intros a Ha. destruct (Hq a Ha) as (h' & ? & ? & ?). exists h'. auto.
Qed.

Lemma follows_call {A} h e (answer : list cli_call -> res A) (Q : A -> list cli_call -> Prop) : P h e ->
  (forall h' a, answer h' = Ok a -> Q a (h' ++ [e])) -> follows h (call e answer) Q.
Proof using P_prefix.
  intros He HQ s Hs. exists [e]. split; [done|]. split.
  - intros t1 e' t2 E. destruct t1 as [|x [|y t1]]; simplify_eq/=. rewrite app_nil_r. by eapply P_prefix.
  - intros a Ha. exists (trace s ++ [e]). split; [by apply prefix_app_r|]. split; [done|]. by apply HQ.
Qed.

Lemma follows_wrap {A} h fmt args (m : Cli A) Q : follows h m Q -> follows h (wrap fmt args m) Q.
Proof.
  intros Hm s Hs. destruct (Hm s Hs) as (t & Ht & Hp & Hq). exists t. split; [done|]. split; [done|].
  unfold wrap. cbn [snd]. intros a Ha. apply Hq. by apply rwrap_ok in Ha.
Qed.

Lemma follows_try {A} h (m : Cli A) Q : follows h m Q -> follows h (try m) (fun _ _ => True).
Proof.
  intros Hm s Hs. destruct (Hm s Hs) as (t & Ht & Hp & Hq). exists t. unfold try. destruct (m s) as [s' [a|e|]]; cbn [fst snd] in *;
    (split; [done|]; split; [done|]; intros ? ?; try done; try (exists h; split; [done|]; split; [by apply prefix_app_r|done])).
Qed.

Lemma follows_attempt {A} h (m : Cli A) Q : follows h m Q ->
  follows h (attempt m) (fun r h' => match r with inl a => Q a h' | inr _ => True end).
Proof.
  intros Hm s Hs. destruct (Hm s Hs) as (t & Ht & Hp & Hq). exists t. unfold attempt. destruct (m s) as [s' [a|e|]]; cbn [fst snd] in *;
    (split; [done|]; split; [done|]; intros r Hr; try done; injection Hr as <-); [by apply Hq|].
  exists h. split; [done|]. split; [by apply prefix_app_r|done].
Qed.

Lemma follows_loop {A B} h (g : B -> A -> Cli B) acc (l : list A) : 
  (forall acc a, a ∈ l -> follows h (g acc a) (fun _ _ => True)) -> follows h (loop g acc l) (fun _ _ => True).
Proof.
  revert acc; induction l as [|a l IH]; intros acc H; cbn [loop]; [by apply follows_ret|].
  eapply (follows_bind _ _ _ (fun _ h' => h' = h)).
  - intros s Hs. destruct (H acc a ltac:(by left) s Hs) as (t & Ht & Hp & _). exists t. split; [done|]. split; [done|].
    intros b Hb. exists h. split; [done|]. split; [by apply prefix_app_r|done].
  - intros acc' h' _ ->. apply IH. intros acc'' a' Ha. apply H. by right.
Qed.

Lemma follows_done {A} h (m : Cli A) Q s : follows h m Q -> h `prefix_of` trace s -> exists t, trace (m s).1 = trace s ++ t /\ allowed P (trace s) t.
Proof. intros Hm Hs. destruct (Hm s Hs) as (t & Ht & Hp & _). by exists t. Qed.

End Follows.
