(* ===== verification/CliEdit.v ===== *)
(** * The command line plugin: the commands that change something

    Models the commands of [operator/cmd/cli/app] that write:
    [update_state.go], [reset.go], [lifecycle.go] (pause, resume, disable and
    enable), [package/package_rerun.go], [node/node_reset.go],
    [node/node_ignore.go] and [deploymentpolicy/deploymentpolicy_reset.go], with
    the status patches of [internal/cli/utils/utils.go].

    [json.Marshal] of a status is written out, because what it omits is what a
    merge patch leaves as it is.  Summaries, warnings and counts are not
    modelled; an error that is only printed with its node is kept in a list.
    A malformed annotation counts as one without packages where only their
    number is printed. *)

From S2P Require Import Prelude Effects Paths Json DeploymentPolicy Api NodeState Skyhook Node Migration Cli.

#[local] Open Scope Z_scope.
#[local] Open Scope go_scope.

(* ------------------------------------------------------------------ *)
(** ** The status as a document *)

(** A member that [omitempty] may leave out. *)
Definition member_if (keep : bool) (name : string) (v : json) : list (string * json) := if keep then [(name, v)] else [].
Definition omit_int (name : string) (z : Z) : list (string * json) := member_if (negb (z =? 0)) name (JNumber (show_int z)).
Definition omit_bool (name : string) (b : bool) : list (string * json) := member_if b name (JBool b).
Definition omit_string (name s : string) : list (string * json) := member_if (negb (bool_decide (s = ""))) name (JString s).
Definition omit_map {A} (name : string) (enc : A -> json) (m : gmap string A) : list (string * json) :=
  member_if (negb (bool_decide (dom m = ∅))) name (e_map enc m).

Definition e_int (z : Z) : json := JNumber (show_int z).

Definition e_BatchProcessingState (b : BatchProcessingState) : json :=
  JObject (omit_int "currentBatch" (CurrentBatch b) ++ omit_int "consecutiveFailures" (ConsecutiveFailures b) ++
    omit_int "completedNodes" (CompletedNodes b) ++ omit_int "failedNodes" (FailedNodes b) ++
    omit_bool "shouldStop" (ShouldStop b) ++ omit_int "lastBatchSize" (LastBatchSize b) ++
    omit_bool "lastBatchFailed" (LastBatchFailed b)).

Definition e_CompartmentStatus (c : CompartmentStatus) : json :=
  JObject ([("matched", e_int (cs_Matched c)); ("ceiling", e_int (cs_Ceiling c)); ("inProgress", e_int (cs_InProgress c));
            ("completed", e_int (cs_Completed c)); ("progressPercent", e_int (cs_ProgressPercent c))] ++
    match cs_BatchState c with Some b => [("batchState", e_BatchProcessingState b)] | None => [] end).

Definition e_PackageStatus (p : PackageStatus) : json :=
  JObject ([("name", JString (ps_Name p)); ("version", JString (ps_Version p)); ("image", JString (ps_Image p))] ++
    omit_string "containerSHA" (ps_ContainerSHA p) ++ [("stage", JString (stage_string (ps_Stage p)))] ++
    omit_string "state" (state_string (ps_State p)) ++ omit_int "restarts" (ps_Restarts p)).

(** A nil map is null. *)
Definition e_NodeState (ns : option NodeState) : json :=
  match ns with Some ns => e_map e_PackageStatus ns | None => JNull end.

Section Times.
Context `{TT : TimeText}.

(** [metav1.Time]: the zero time is null. *)
Definition e_Time (t : Z) : json := if t =? 0 then JNull else JString (time_Format t).

Definition e_Condition (c : Condition) : json :=
  JObject ([("type", JString (cond_Type c)); ("status", JString (cond_Status c))] ++
    omit_int "observedGeneration" (cond_ObservedGeneration c) ++
    [("lastTransitionTime", e_Time (cond_LastTransitionTime c)); ("reason", JString (cond_Reason c));
     ("message", JString (cond_Message c))]).

Definition e_NodeWrightStatus (s : NodeWrightStatus) : json :=
  JObject (omit_int "observedGeneration" (ObservedGeneration s) ++
    omit_map "nodeState" e_NodeState (default ∅ (st_NodeState s)) ++
    omit_map "nodeStatus" (fun st => JString (status_string st)) (NodeStatus s) ++
    omit_string "status" (status_string (st_Status s)) ++
    member_if (negb (bool_decide (Conditions s = []))) "conditions" (JArray (map e_Condition (Conditions s))) ++
    omit_map "nodeBootIds" JString (NodeBootIds s) ++
    omit_map "nodePriority" e_Time (NodePriority s) ++
    omit_int "nodeOrderOffset" (NodeOrderOffset s) ++
    omit_map "configUpdates" (fun l => JArray (map JString l)) (ConfigUpdates s) ++
    omit_map "compartmentStatuses" e_CompartmentStatus (CompartmentStatuses s) ++
    omit_int "nodesInProgress" (NodesInProgress s) ++
    omit_string "completeNodes" (CompleteNodes s) ++
    omit_string "packageList" (PackageList s)).

End Times.

(* ------------------------------------------------------------------ *)
(** ** Options *)

Record updateStateOptions := { us_nodes : list string; us_selector : string; us_confirm : bool; us_add : bool }.
Record resetOptions := { ro_confirm : bool; ro_skipBatchReset : bool; ro_pkg : string }.
Record rerunOptions := { rr_skyhookName : string; rr_nodes : list string; rr_stage : string; rr_confirm : bool }.
Record nodeResetOptions := { nr_skyhookName : string; nr_confirm : bool }.
Record lifecycleConfig := { lc_annotation : string; lc_set : bool; lc_confirmVerb : string; lc_needsConfirm : bool }.

Definition Stages : list Stage :=
  [StageUninstall; StageUninstallInterrupt; StageUpgrade; StageApply; StageInterrupt; StagePostInterrupt; StageConfig].
Definition States : list State := [StateComplete; StateInProgress; StateSkipped; StateErroring; StateUnknown].

(** The member of the list that has this text. *)
Definition known {A} (text : A -> string) (l : list A) (s : string) : option A :=
  List.find (fun a => bool_decide (text a = s)) l.

Definition validRerunStages : list Stage := [StageApply; StageConfig; StageInterrupt; StagePostInterrupt].

Definition validateUpdateStateArgs (stage state : string) (opts : updateStateOptions) : res (Stage * State) :=
  match known stage_string Stages stage with
  | None => Err (errorf "invalid stage %q (valid: %v)" (stage :: map stage_string Stages))
  | Some stage =>
      match known state_string States state with
      | None => Err (errorf "invalid state %q (valid: %v)" (state :: map state_string States))
      | Some state =>
          if us_add opts && bool_decide (us_nodes opts = []) && bool_decide (us_selector opts = "") then
            Err (errorf "--add requires --node or --selector so the scope is explicit" [])
          else Ok (stage, state)
      end
  end.

Definition resetAnnotationKeys (skyhookName : string) : list string :=
  [nodeStateAnnotationPrefix +:+ skyhookName; statusAnnotationPrefix +:+ skyhookName;
   cli_cordonAnnotationPrefix +:+ skyhookName; drainStartAnnotationPrefix +:+ skyhookName;
   versionAnnotationPrefix +:+ skyhookName; autoTaintAnnotationPrefix +:+ skyhookName].

Definition resetLabelKeys (skyhookName : string) : list string := [statusLabelPrefix +:+ skyhookName].

Definition has_key (m : gmap string string) (key : string) : bool := match m !! key with Some _ => true | None => false end.

Definition hasResettableMetadata (annotations labels : gmap string string) (annotationKeys labelKeys : list string) : bool :=
  existsb (has_key annotations) annotationKeys || existsb (has_key labels) labelKeys.

(** [name] or [name:version] *)
Definition splitPackageRef (s : string) : res (string * option string) :=
  let '(name, version) := match cut_at_first ":"%char s with Some (n, v) => (n, Some v) | None => (s, None) end in
  if bool_decide (name = "") then Err (errorf "--package: name must not be empty" [])
  else if bool_decide (version = Some "") then Err (errorf "--package: version must not be empty after %q" [":"])
  else Ok (name, version).

(** Whether [reset --package] leaves the entry. *)
Definition unreferenced (name : string) (version : option string) (status : PackageStatus) : bool :=
  negb (bool_decide (ps_Name status = name)) ||
  match version with Some v => negb (bool_decide (ps_Version status = v)) | None => false end.

Definition set_stage_state (stage : Stage) (state : State) (p : PackageStatus) : PackageStatus :=
  {| ps_Name := ps_Name p; ps_Version := ps_Version p; ps_Image := ps_Image p; ps_ContainerSHA := ps_ContainerSHA p;
     ps_Stage := stage; ps_State := state; ps_Restarts := ps_Restarts p |}.

Definition new_entry (pkg : Package) (stage : Stage) (state : State) : PackageStatus :=
  {| ps_Name := pkg_Name pkg; ps_Version := pkg_Version pkg; ps_Image := pkg_Image pkg; ps_ContainerSHA := "";
     ps_Stage := stage; ps_State := state; ps_Restarts := 0 |}.

(** The nodes by their names; the last of a name counts. *)
Definition by_name (nodes : list Node) : gmap string Node := fold_left (fun m n => <[n_Name n := n]> m) nodes ∅.

(* ------------------------------------------------------------------ *)
(** ** The commands *)

Section Edit.
Context `{MR : MapRange} `{SV : Semver} `{JS : NodeStateJSON} `{TT : TimeText} `{RX : Regexp}.
Context (k : cluster) (f : GlobalFlags).

Definition PatchSkyhookStatus (name : string) (status : NodeWrightStatus) : Cli unit :=
  wrap "patching skyhook %q status: %w" [name]
    (send k (PatchNodeWrightStatus name (JObject [("status", e_NodeWrightStatus status)]))).

(** Writes one after the other, and keeps the first error. *)
Definition write_each {A} (write : A -> Cli unit) (l : list A) : Cli unit :=
  let* firstErr := loop (fun firstErr a =>
      let* err := try (write a) in
      ret (match firstErr with None => err | Some _ => firstErr end)) None l in
  match firstErr with None => ret tt | Some e => raise e end.

(** Nothing is written in a dry run, nor before it is confirmed. *)
Definition confirmed (dryRun confirm : bool) (ask : Cli bool) (apply : Cli unit) : Cli unit :=
  if dryRun then ret tt
  else if confirm then apply
  else
    let* ok := ask in
    if ok : bool then apply else ret tt.

(** *** update-state *)

Definition enumerateAddNodes (opts : updateStateOptions) : Cli (list string) :=
  let* nodes := list_nodes k (us_selector opts) in
  let names := map n_Name nodes in
  ret (match us_nodes opts with
       | [] => names
       | chosen => List.filter (fun n => bool_decide (n ∈ names)) chosen
       end).

Definition enumerateUpdateNodes (nodeStates : gmap string NodeState) (opts : updateStateOptions) : list string :=
  match us_nodes opts with
  | [] => (range nodeStates).*1
  | chosen => List.filter (fun n => match nodeStates !! n with Some _ => true | None => false end) chosen
  end.

(** The node and the text of its new state. *)
Definition buildUpdateStateTarget (nodeStates : gmap string NodeState) (pkg : Package) (stage : Stage) (state : State)
    (addMode : bool) (name : string) : option (string * string) :=
  let uniqueName := pkg_UniqueName pkg in
  let ns : NodeState := default ∅ (nodeStates !! name) in
  match addMode, ns !! uniqueName with
  | true, Some _ => None
  | true, None => Some (name, json_Marshal (<[uniqueName := new_entry pkg stage state]> ns))
  | false, None => None
  | false, Some entry => Some (name, json_Marshal (<[uniqueName := set_stage_state stage state entry]> ns))
  end.

Definition runUpdateState (skyhookName packageName packageVersion stage state : string) (opts : updateStateOptions) : Cli unit :=
  let* '(stage, state) := lift (validateUpdateStateArgs stage state opts) in
  let* skyhook := wrap "fetching NodeWright %q: %w" [skyhookName] (GetSkyhook k skyhookName) in
  let* namespace := ResolveNamespace k f in
  let* _ := CheckNodeStateOperatorVersion k namespace skyhook in
  match sp_Packages (Spec skyhook) !! packageName with
  | Some pkg =>
      if negb (bool_decide (pkg_Version pkg = packageVersion)) then
        raise (errorf "package %q (version %q) not found in spec of NodeWright %q" [packageName; packageVersion; skyhookName])
      else
        let* '(nodeStates, _) := wrap "listing nodes: %w" [] (ListNodesWithSkyhookState k skyhookName (us_selector opts)) in
        let* orderedNodes := if us_add opts then enumerateAddNodes opts else ret (enumerateUpdateNodes nodeStates opts) in
        let targets := omap (buildUpdateStateTarget nodeStates pkg stage state (us_add opts)) (sort_strings orderedNodes) in
        if bool_decide (targets = []) then ret tt
        else
          confirmed (gf_DryRun f) (us_confirm opts) (ConfirmYN k)
            (write_each (fun '(nodeName, nextRaw) => SetNodeAnnotation k nodeName (nodeStateAnnotationPrefix +:+ skyhookName) nextRaw) targets)
  | None => raise (errorf "package %q (version %q) not found in spec of NodeWright %q" [packageName; packageVersion; skyhookName])
  end.

(** *** reset *)

(** Only a failure to remove the state counts. *)
Definition resetNodeAnnotations (nodesToReset : list string) (skyhookName : string) : Cli (list (string * error)) :=
  let mainAnnotationKey := nodeStateAnnotationPrefix +:+ skyhookName in
  loop (fun updateErrors nodeName =>
    let* err := try (RemoveNodeAnnotation k nodeName mainAnnotationKey) in
    match err with
    | Some e => ret (updateErrors ++ [(nodeName, e)])
    | None =>
        let* _ := loop (fun _ annKey =>
          if bool_decide (annKey = mainAnnotationKey) then ret None else try (RemoveNodeAnnotation k nodeName annKey))
          None (resetAnnotationKeys skyhookName) in
        let* _ := loop (fun _ labelKey => try (RemoveNodeLabel k nodeName labelKey)) None (resetLabelKeys skyhookName) in
        ret updateErrors
    end) [] nodesToReset.

Definition clear_node_order : json :=
  JObject [("status", JObject [("nodeOrderOffset", JNumber "0"); ("nodePriority", JNull)])].

(** Its errors are warnings. *)
Definition resetBatchStateForReset (skyhookName : string) : Cli unit :=
  let* r := attempt (GetSkyhook k skyhookName) in
  match r with
  | inr _ => ret tt
  | inl skyhook =>
      let skyhook := set_nw_Status (set_NodePriority ∅ (set_NodeOrderOffset 0 (nw_Status skyhook))) skyhook in
      let clear_order := let* _ := try (PatchSkyhookStatusRaw k skyhookName clear_node_order) in ret tt in
      if bool_decide (CompartmentStatuses (nw_Status skyhook) = ∅) then clear_order
      else
        let skyhook := fst (ResetCompartmentBatchStates skyhook) in
        let* err := try (PatchSkyhookStatus skyhookName (nw_Status skyhook)) in
        match err with Some _ => ret tt | None => clear_order end
  end.

Definition runPackageReset (skyhookName : string) (nodeStates : gmap string NodeState) (opts : resetOptions) : Cli unit :=
  let* '(name, version) := lift (splitPackageRef (ro_pkg opts)) in
  let* skyhook := wrap "fetching NodeWright %q: %w" [skyhookName] (GetSkyhook k skyhookName) in
  let* namespace := ResolveNamespace k f in
  let* _ := CheckNodeStateOperatorVersion k namespace skyhook in
  let annotationKey := nodeStateAnnotationPrefix +:+ skyhookName in
  let targets := omap (fun nodeName =>
    let ns : NodeState := default ∅ (nodeStates !! nodeName) in
    if existsb (fun kv => negb (unreferenced name version kv.2)) (map_to_list ns) then
      Some (nodeName, filter (fun kv => unreferenced name version kv.2 = true) ns)
    else None) (sort_strings (range nodeStates).*1) in
  if bool_decide (targets = []) then ret tt
  else
    confirmed (gf_DryRun f) (ro_confirm opts) (ConfirmYN k)
      (write_each (fun '(nodeName, remaining) =>
        if bool_decide (remaining = ∅) then RemoveNodeAnnotation k nodeName annotationKey
        else SetNodeAnnotation k nodeName annotationKey (json_Marshal remaining)) targets).

Definition runReset (skyhookName : string) (opts : resetOptions) : Cli unit :=
  if negb (bool_decide (ro_pkg opts = "")) then
    let* '(nodeStates, _) := wrap "listing nodes: %w" [] (ListNodesWithSkyhookState k skyhookName "") in
    runPackageReset skyhookName nodeStates opts
  else
    let* nodes := list_nodes k "" in
    let nodesToReset := sort_strings (map n_Name (List.filter (fun node =>
      hasResettableMetadata (n_Annotations node) (n_Labels node) (resetAnnotationKeys skyhookName) (resetLabelKeys skyhookName)) nodes)) in
    if bool_decide (nodesToReset = []) then ret tt
    else
      confirmed (gf_DryRun f) (ro_confirm opts) (ConfirmYN k)
        (let* _ := resetNodeAnnotations nodesToReset skyhookName in
         if ro_skipBatchReset opts then ret tt else resetBatchStateForReset skyhookName).

(** *** node reset *)

(** The first annotation that cannot be removed ends the work on its node. *)
Definition reset_node (skyhookName nodeName : string) : Cli unit :=
  let* _ := loop (fun _ key => RemoveNodeAnnotation k nodeName key) tt (resetAnnotationKeys skyhookName) in
  let* _ := loop (fun _ key => try (RemoveNodeLabel k nodeName key)) None (resetLabelKeys skyhookName) in
  ret tt.

Definition runNodeReset (nodePatterns : list string) (opts : nodeResetOptions) : Cli unit :=
  let* nodes := list_nodes k "" in
  let* matchedNodes := lift (rwrap "matching nodes: %w" [] (MatchNodes nodePatterns (map n_Name nodes))) in
  let skyhookName := nr_skyhookName opts in
  let nodesToReset := List.filter (fun nodeName =>
    match by_name nodes !! nodeName with
    | Some node => hasResettableMetadata (n_Annotations node) (n_Labels node) (resetAnnotationKeys skyhookName) (resetLabelKeys skyhookName)
    | None => false
    end) matchedNodes in
  if bool_decide (nodesToReset = []) then ret tt
  else
    confirmed (gf_DryRun f) (nr_confirm opts) (promptConfirmation k)
      (let* _ := loop (fun updateErrors nodeName =>
         let* err := try (reset_node skyhookName nodeName) in
         ret (match err with Some e => updateErrors ++ [(nodeName, e)] | None => updateErrors end)) [] nodesToReset in
       ret tt).

(** *** package rerun *)

Definition collectNodeStates (annotationKey : string) : Cli (gmap string NodeState * list string) :=
  let* nodes := list_nodes k "" in
  let valid node := match n_Annotations node !! annotationKey with Some raw => negb (is_err (json_Unmarshal raw)) | None => false end in
  ret (fst (states_of annotationKey nodes), map n_Name (List.filter valid nodes)).

Definition filterNodesWithPackage (matchedNodes : list string) (nodeStates : gmap string NodeState) (packageKey : string) : list string :=
  List.filter (fun nodeName => match (nodeStates !! nodeName : option NodeState) ≫= (fun ns => ns !! packageKey) with Some _ => true | None => false end) matchedNodes.

(** The state of a node with which the package runs again. *)
Definition rerun_state (packageKey stage : string) (nodeState : NodeState) : NodeState :=
  match known stage_string validRerunStages stage, nodeState !! packageKey with
  | Some stage, Some pkgStatus => <[packageKey := set_stage_state stage StateInProgress pkgStatus]> nodeState
  | Some _, None => nodeState
  | None, _ => delete packageKey nodeState
  end.

Definition applyNodeStateUpdate (nodeName : string) (nodeState : NodeState) (annotationKey : string) : Cli unit :=
  if bool_decide (nodeState = ∅) then RemoveNodeAnnotation k nodeName annotationKey
  else SetNodeAnnotation k nodeName annotationKey (json_Marshal nodeState).

Definition updateNodeAnnotations (nodesToUpdate : list string) (nodeStates : gmap string NodeState)
    (packageKey annotationKey : string) (opts : rerunOptions) : Cli (list (string * error)) :=
  loop (fun updateErrors nodeName =>
    let nodeState := rerun_state packageKey (rr_stage opts) (default ∅ (nodeStates !! nodeName)) in
    let* err := try (applyNodeStateUpdate nodeName nodeState annotationKey) in
    ret (match err with Some e => updateErrors ++ [(nodeName, e)] | None => updateErrors end)) [] nodesToUpdate.

Definition rerunPackage (packageName : string) (opts : rerunOptions) : Cli unit :=
  let* skyhook := GetSkyhook k (rr_skyhookName opts) in
  match sp_Packages (Spec skyhook) !! packageName with
  | None => raise (errorf "package %q not found in skyhook %q" [packageName; rr_skyhookName opts])
  | Some pkg =>
      let packageKey := pkg_UniqueName pkg in
      let annotationKey := node_key "nodeState" (rr_skyhookName opts) in
      let* '(nodeStates, allNodes) := collectNodeStates annotationKey in
      let* matchedNodes := lift (rwrap "matching nodes: %w" [] (MatchNodes (rr_nodes opts) allNodes)) in
      let nodesToUpdate := filterNodesWithPackage matchedNodes nodeStates packageKey in
      if bool_decide (nodesToUpdate = []) then ret tt
      else
        confirmed (gf_DryRun f) (rr_confirm opts) (promptConfirmation k)
          (let* _ := updateNodeAnnotations nodesToUpdate nodeStates packageKey annotationKey opts in ret tt)
  end.

(** The checks of the command before it. *)
Definition rerun_flags (opts : rerunOptions) : res unit :=
  if bool_decide (rr_skyhookName opts = "") then Err (errorf "--nodewright flag is required" [])
  else if bool_decide (rr_nodes opts = []) then Err (errorf "at least one --node flag is required" [])
  else if negb (bool_decide (rr_stage opts = "")) && negb (if known stage_string validRerunStages (rr_stage opts) then true else false) then
    Err (errorf "invalid stage %q: must be one of %s, %s, %s, %s" (rr_stage opts :: map stage_string validRerunStages))
  else Ok tt.

(** *** node ignore and unignore *)

Definition labelValueTrue : string := "true".

Definition runIgnore (nodePatterns : list string) (ignore : bool) : Cli unit :=
  let* nodes := list_nodes k "" in
  let* matchedNodes := lift (rwrap "matching nodes: %w" [] (MatchNodes nodePatterns (map n_Name nodes))) in
  if bool_decide (matchedNodes = []) || gf_DryRun f then ret tt
  else
    let* _ := loop (fun updateErrors nodeName =>
      let ignored := match by_name nodes !! nodeName with
                     | Some node => bool_decide (n_Labels node !! NodeIgnoreLabel = Some labelValueTrue)
                     | None => false
                     end in
      if eqb ignored ignore then ret updateErrors
      else
        let* err := try (if ignore then SetNodeLabel k nodeName NodeIgnoreLabel labelValueTrue else RemoveNodeLabel k nodeName NodeIgnoreLabel) in
        ret (match err with Some e => updateErrors ++ [(nodeName, e)] | None => updateErrors end)) [] matchedNodes in
    ret tt.

(** *** pause, resume, disable, enable *)

(** An answer that cannot be read is a no. *)
Definition lifecycle_asks : Cli bool :=
  let* l := read_line k in
  ret (match l with Line s => let s := TrimSpace s in bool_decide (s = "y") || bool_decide (s = "Y") | _ => false end).

Definition lifecycle (cfg : lifecycleConfig) (skyhookName : string) (confirm : bool) : Cli unit :=
  confirmed false (negb (lc_needsConfirm cfg) || confirm) lifecycle_asks
    (let* _ := EnsureNodeWrightServed k in
     if gf_DryRun f then ret tt
     else
       let* skyhook := GetSkyhook k skyhookName in
       let* opVersion := operator_version k (ResolveNamespace k f) skyhook in
       if unsupported opVersion MinAnnotationSupportVersion then
         if bool_decide (lc_annotation cfg = PauseAnnotation) then
           raise (errorf "operator version %s uses spec.pause instead of annotations; use 'kubectl edit skyhook %s' and set spec.pause: %s"
             [opVersion; skyhookName; if lc_set cfg then "true" else "false"])
         else raise (errorf "operator version %s does not support %s; this feature was added in %s" [opVersion; lc_confirmVerb cfg; MinAnnotationSupportVersion])
       else if lc_set cfg then SetSkyhookAnnotation k skyhookName (lc_annotation cfg) "true"
       else RemoveSkyhookAnnotation k skyhookName (lc_annotation cfg)).

Definition pause_config : lifecycleConfig :=
  {| lc_annotation := PauseAnnotation; lc_set := true; lc_confirmVerb := "pause"; lc_needsConfirm := true |}.
Definition resume_config : lifecycleConfig :=
  {| lc_annotation := PauseAnnotation; lc_set := false; lc_confirmVerb := "resume"; lc_needsConfirm := true |}.
Definition disable_config : lifecycleConfig :=
  {| lc_annotation := DisableAnnotation; lc_set := true; lc_confirmVerb := "disable"; lc_needsConfirm := true |}.
Definition enable_config : lifecycleConfig :=
  {| lc_annotation := DisableAnnotation; lc_set := false; lc_confirmVerb := "enable"; lc_needsConfirm := true |}.

(** *** deployment-policy reset *)

Definition runDeploymentPolicyReset (skyhookName : string) (confirm : bool) : Cli unit :=
  let* skyhook := wrap "getting NodeWright %q: %w" [skyhookName] (GetSkyhook k skyhookName) in
  if bool_decide (CompartmentStatuses (nw_Status skyhook) = ∅) then ret tt
  else
    confirmed (gf_DryRun f) confirm (promptConfirmation k)
      (wrap "patching NodeWright status: %w" [] (PatchSkyhookStatus skyhookName (nw_Status (fst (ResetCompartmentBatchStates skyhook))))).

Definition ResetBatchStateForSkyhook (skyhookName : string) : Cli unit :=
  let* skyhook := wrap "getting NodeWright %q: %w" [skyhookName] (GetSkyhook k skyhookName) in
  wrap "patching NodeWright status: %w" [] (PatchSkyhookStatus skyhookName (nw_Status (fst (ResetCompartmentBatchStates skyhook)))).

(** *** What the plugin is asked *)

Inductive command :=
| UpdateState (skyhookName packageName packageVersion stage state : string) (opts : updateStateOptions)
| ResetNodes (skyhookName : string) (opts : resetOptions)
| NodeReset (nodePatterns : list string) (opts : nodeResetOptions)
| PackageRerun (packageName : string) (opts : rerunOptions)
| NodeIgnore (nodePatterns : list string) (ignore : bool)
| Lifecycle (cfg : lifecycleConfig) (skyhookName : string) (confirm : bool)
| DeploymentPolicyReset (skyhookName : string) (confirm : bool).

Definition served (c : Cli unit) : Cli unit := let* _ := EnsureNodeWrightServed k in c.

Definition execute (c : command) : Cli unit :=
  match c with
  | UpdateState name pkg version stage state opts => served (runUpdateState name pkg version stage state opts)
  | ResetNodes name opts => served (runReset name opts)
  | NodeReset patterns opts =>
      if bool_decide (nr_skyhookName opts = "") then raise (errorf "--nodewright flag is required" [])
      else served (runNodeReset patterns opts)
  | PackageRerun pkg opts => let* _ := lift (rerun_flags opts) in served (rerunPackage pkg opts)
  | NodeIgnore patterns ignore => served (runIgnore patterns ignore)
  | Lifecycle cfg name confirm => lifecycle cfg name confirm
  | DeploymentPolicyReset name confirm => served (runDeploymentPolicyReset name confirm)
  end.

End Edit.
