(* ===== verification/CliWrites.v ===== *)
(** * What the command line plugin writes

    A specification of the writes of every command of [CliEdit], and the theorem
    that no command makes another: not in a dry run, not before it is confirmed,
    and only to what it names. *)

From S2P Require Import Prelude Effects Paths Json DeploymentPolicy Api NodeState Skyhook Node Migration Cli CliEdit.

#[local] Open Scope Z_scope.
#[local] Open Scope go_scope.

Section Writes.
Context `{MR : MapRange} `{SV : Semver} `{JS : NodeStateJSON} `{TT : TimeText} `{RX : Regexp}.
Context (k : cluster) (f : GlobalFlags).

(* ------------------------------------------------------------------ *)
(** ** The specification *)

Definition says_yes (l : line) : Prop := exists s, (l = Line s \/ l = LastLine s) /\ yes s = true.

(** The user has agreed, on the command line or at the terminal. *)
Definition agreed (confirm : bool) (h : list cli_call) : Prop :=
  confirm = true \/ Saw h ReadLine (fun h1 => says_yes (k_line k h1)).

(** The state that a node's annotation holds. *)
Definition decoded (key : string) (node : Node) : option NodeState :=
  match n_Annotations node !! key with
  | Some raw => match json_Unmarshal raw with Ok o => Some (default ∅ o) | _ => None end
  | None => None
  end.

Definition holds_state (nodes : list Node) (key n : string) (ns : NodeState) : Prop :=
  exists node, node ∈ nodes /\ n_Name node = n /\ decoded key node = Some ns.

Definition holds_none (nodes : list Node) (key n : string) : Prop :=
  forall node, node ∈ nodes -> n_Name node = n -> decoded key node = None.

(** A list of nodes that the command has read. *)
Definition Listed (h : list cli_call) (P : list Node -> Prop) : Prop :=
  exists sel, Saw h (ListNodes sel) (fun h1 => exists nodes, k_nodes k h1 sel = Ok nodes /\ P nodes).

(** The resource as the command has read it. *)
Definition ReadResource (h : list cli_call) (name : string) (P : NodeWright -> Prop) : Prop :=
  Saw h (GetNodeWright name) (fun h1 => exists nw, k_nodewright k h1 name = Ok nw /\ P nw).

Definition state_patch (name : string) (ns : NodeState) : json :=
  metadata_patch "annotations" (node_key "nodeState" name) (if bool_decide (ns = ∅) then JNull else JString (json_Marshal ns)).

Definition removes_metadata (name : string) (p : json) : Prop :=
  (exists key, key ∈ resetAnnotationKeys name /\ p = metadata_patch "annotations" key JNull) \/
  (exists key, key ∈ resetLabelKeys name /\ p = metadata_patch "labels" key JNull).

Definition resettable (name : string) (node : Node) : Prop :=
  hasResettableMetadata (n_Annotations node) (n_Labels node) (resetAnnotationKeys name) (resetLabelKeys name) = true.

(** The node is one of those that the patterns match. *)
Definition matches (patterns : list string) (names : list string) (n : string) : Prop :=
  exists l, MatchNodes patterns names = Ok l /\ n ∈ l.

(** The writes of a command; [h] is what it did before. *)
Definition write_of (c : command) (h : list cli_call) (e : cli_call) : Prop :=
  match c, e with
  | UpdateState name package version stage state opts, PatchNode n p =>
      exists ns pkg entry, ReadResource h name (fun nw => sp_Packages (Spec nw) !! package = Some pkg) /\ pkg_Version pkg = version /\
        p = state_patch name (<[pkg_UniqueName pkg := entry]> ns) /\
        stage_string (ps_Stage entry) = stage /\ state_string (ps_State entry) = state /\
        if us_add opts then ns !! pkg_UniqueName pkg = None /\ Listed h (fun nodes => n ∈ map n_Name nodes) /\
          (Listed h (fun nodes => holds_state nodes (node_key "nodeState" name) n ns) \/
           ns = ∅ /\ Listed h (fun nodes => holds_none nodes (node_key "nodeState" name) n))
        else Listed h (fun nodes => holds_state nodes (node_key "nodeState" name) n ns) /\
          exists old, ns !! pkg_UniqueName pkg = Some old /\ entry = set_stage_state (ps_Stage entry) (ps_State entry) old
  | ResetNodes name opts, PatchNode n p =>
      if bool_decide (ro_pkg opts = "") then
        removes_metadata name p /\ Listed h (fun nodes => exists node, node ∈ nodes /\ n_Name node = n /\ resettable name node)
      else
        exists ns package version, splitPackageRef (ro_pkg opts) = Ok (package, version) /\
          Listed h (fun nodes => holds_state nodes (node_key "nodeState" name) n ns) /\
          (exists u st, ns !! u = Some st /\ unreferenced package version st = false) /\
          p = state_patch name (filter (fun kv => unreferenced package version kv.2 = true) ns)
  | ResetNodes name opts, PatchNodeWrightStatus n p => n = name /\ ro_pkg opts = "" /\ ro_skipBatchReset opts = false
  | NodeReset patterns opts, PatchNode n p =>
      removes_metadata (nr_skyhookName opts) p /\
      Listed h (fun nodes => matches patterns (map n_Name nodes) n /\
        exists node, node ∈ nodes /\ n_Name node = n /\ resettable (nr_skyhookName opts) node)
  | PackageRerun package opts, PatchNode n p =>
      exists ns pkg, ReadResource h (rr_skyhookName opts) (fun nw => sp_Packages (Spec nw) !! package = Some pkg) /\
        Listed h (fun nodes => holds_state nodes (node_key "nodeState" (rr_skyhookName opts)) n ns) /\
        (exists l, Listed h (fun nodes => matches (rr_nodes opts) l n /\ forall m, m ∈ l -> m ∈ map n_Name nodes)) /\
        is_Some (ns !! pkg_UniqueName pkg) /\
        p = state_patch (rr_skyhookName opts) (rerun_state (pkg_UniqueName pkg) (rr_stage opts) ns)
  | NodeIgnore patterns ignore, PatchNode n p =>
      p = metadata_patch "labels" NodeIgnoreLabel (if ignore then JString labelValueTrue else JNull) /\
      Listed h (fun nodes => matches patterns (map n_Name nodes) n)
  | Lifecycle cfg name _, PatchNodeWright n p =>
      n = name /\ p = metadata_patch "annotations" (lc_annotation cfg) (if lc_set cfg then JString "true" else JNull)
  | DeploymentPolicyReset name _, PatchNodeWrightStatus n p => n = name
  | _, _ => False
  end.

(** Whether a command needs no answer from the terminal. *)
Definition confirms (c : command) : bool :=
  match c with
  | UpdateState _ _ _ _ _ opts => us_confirm opts
  | ResetNodes _ opts => ro_confirm opts
  | NodeReset _ opts => nr_confirm opts
  | PackageRerun _ opts => rr_confirm opts
  | NodeIgnore _ _ => true
  | Lifecycle cfg _ confirm => negb (lc_needsConfirm cfg) || confirm
  | DeploymentPolicyReset _ confirm => confirm
  end.

Definition may_call (c : command) (h : list cli_call) (e : cli_call) : Prop :=
  is_write e = true -> gf_DryRun f = false /\ agreed (confirms c) h /\ write_of c h e.

(* ------------------------------------------------------------------ *)
(** ** What was seen stays seen *)

Lemma Listed_prefix h h' P : h `prefix_of` h' -> Listed h P -> Listed h' P.
Proof. intros Hh [sel H]. exists sel. by eapply Saw_prefix. Qed.

Lemma ReadResource_prefix h h' name P : h `prefix_of` h' -> ReadResource h name P -> ReadResource h' name P.
Proof. apply Saw_prefix. Qed.

Lemma agreed_prefix h h' b : h `prefix_of` h' -> agreed b h -> agreed b h'.
Proof. intros Hh [H|H]; [by left|right]. by eapply Saw_prefix. Qed.

Lemma Listed_weaken h (P Q : list Node -> Prop) : (forall nodes, P nodes -> Q nodes) -> Listed h P -> Listed h Q.
Proof. intros H (sel & h1 & h2 & -> & nodes & Hn & Hp). exists sel, h1, h2. split; [done|]. exists nodes. auto. Qed.

Lemma write_of_prefix c h h' e : h `prefix_of` h' -> write_of c h e -> write_of c h' e.
Proof.
  intros Hh. pose proof (Listed_prefix h h') as HL. pose proof (ReadResource_prefix h h') as HR.
  destruct c, e; cbn [write_of]; try done.
  - intros (ns & pkg & entry & H1 & H2 & H3 & H4 & H5 & H6). exists ns, pkg, entry. split; [by eapply HR|]. do 4 (split; [done|]).
    destruct (us_add opts).
    + destruct H6 as (? & ? & [?|[??]]); split; [done| |done|]; split; [by eapply HL| |by eapply HL|]; [left|right; split; [done|]]; by eapply HL.
    + destruct H6 as [??]. split; [by eapply HL|done].
  - case_bool_decide.
    + intros [? ?]. split; [done|]. by eapply HL.
    + intros (ns & package & version & H1 & H2 & H3). exists ns, package, version. split; [done|]. split; [by eapply HL|done].
  - intros [? ?]. split; [done|]. by eapply HL.
  - intros (ns & pkg & H1 & H2 & (l & H3) & H4). exists ns, pkg. split; [by eapply HR|]. split; [by eapply HL|]. split; [exists l; by eapply HL|done].
  - intros [? ?]. split; [done|]. by eapply HL.
Qed.

Lemma may_call_prefix c h h' e : h `prefix_of` h' -> may_call c h e -> may_call c h' e.
Proof.
  intros Hh H He. destruct (H He) as (? & ? & ?). split; [done|]. split; [by eapply agreed_prefix|by eapply write_of_prefix].
Qed.

(* ------------------------------------------------------------------ *)
(** ** Reads *)

Section Command.
Context (c : command).

#[local] Set Default Proof Using "Type".

Notation may := (may_call c).
Notation does h m Q := (follows may h m Q).
Notation any := (fun _ _ => True).

Lemma reads_only {A} (m : Cli A) h : steps (emits (fun e => is_write e = false)) m -> does h m any.
Proof.
  intros Hm s Hs. destruct (Hm s) as (t & Ht & Hr). exists t. split; [done|]. split.
  - intros t1 e t2 -> He. apply Forall_app in Hr as [_ Hr]. apply Forall_cons in Hr as [Hr _]. congruence.
  - intros a _. exists h. split; [done|]. split; [|done]. destruct Hs as [l ->]. exists (l ++ t). by rewrite app_assoc.
Qed.

Lemma does_call {A} h e (answer : list cli_call -> res A) (Q : A -> list cli_call -> Prop) : is_write e = false ->
  (forall h' a, answer h' = Ok a -> Q a (h' ++ [e])) -> does h (call e answer) Q.
Proof. intros He. apply follows_call; [apply may_call_prefix|]. intros H. congruence. Qed.

Lemma does_send h e : may h e -> does h (send k e) any.
Proof. intros H. apply follows_call; [apply may_call_prefix|done|done]. Qed.

Lemma does_list h sel : does h (list_nodes k sel) (fun nodes h' => Saw h' (ListNodes sel) (fun h1 => k_nodes k h1 sel = Ok nodes)).
Proof. apply follows_wrap, does_call; [done|]. intros h' nodes H. by apply Saw_last. Qed.

Lemma does_GetSkyhook h name :
  does h (GetSkyhook k name) (fun nw h' => Saw h' (GetNodeWright name) (fun h1 => k_nodewright k h1 name = Ok nw)).
Proof. apply follows_wrap, does_call; [done|]. intros h' nw H. by apply Saw_last. Qed.

Lemma does_ConfirmYN h : does h (ConfirmYN k) (fun ok h' => ok = true -> Saw h' ReadLine (fun h1 => says_yes (k_line k h1))).
Proof.
  eapply follows_bind; [eapply (does_call _ _ _ (fun l h' => Saw h' ReadLine (fun h1 => k_line k h1 = l))); [done|]|].
  { intros h' l [= <-]. by apply Saw_last. }
  intros l h' _ Hl. destruct l as [s|s|e]; [apply follows_ret; intros Hs..|apply follows_raise];
    destruct Hl as (h1 & h2 & -> & E); exists h1, h2; (split; [done|]); exists s; eauto.
Qed.

Lemma does_promptConfirmation h :
  does h (promptConfirmation k) (fun ok h' => ok = true -> Saw h' ReadLine (fun h1 => says_yes (k_line k h1))).
Proof.
  eapply follows_bind; [eapply (does_call _ _ _ (fun l h' => Saw h' ReadLine (fun h1 => k_line k h1 = l))); [done|]|].
  { intros h' l [= <-]. by apply Saw_last. }
  intros l h' _ Hl. destruct l as [s|s|e]; [apply follows_ret; intros Hs|apply follows_raise..].
  destruct Hl as (h1 & h2 & -> & E). exists h1, h2. split; [done|]. exists s; eauto.
Qed.

Lemma does_lifecycle_asks h :
  does h (lifecycle_asks k) (fun ok h' => ok = true -> Saw h' ReadLine (fun h1 => says_yes (k_line k h1))).
Proof.
  eapply follows_bind; [eapply (does_call _ _ _ (fun l h' => Saw h' ReadLine (fun h1 => k_line k h1 = l))); [done|]|].
  { intros h' l [= <-]. by apply Saw_last. }
  intros l h' _ Hl. apply follows_ret. destruct l as [s|s|e]; [|done..]. intros Hs.
  destruct Hl as (h1 & h2 & -> & E). exists h1, h2. split; [done|]. exists s. split; [by left|].
  unfold yes. apply orb_true_iff in Hs. rewrite !bool_decide_eq_true in Hs. by destruct Hs as [->| ->].
Qed.

(** What is confirmed is done after it is confirmed, and not in a dry run. *)
Lemma does_confirmed h dryRun confirm ask apply :
  (forall h, does h ask (fun ok h' => ok = true -> Saw h' ReadLine (fun h1 => says_yes (k_line k h1)))) ->
  (forall h', h `prefix_of` h' -> dryRun = false -> agreed confirm h' -> does h' apply any) ->
  does h (confirmed dryRun confirm ask apply) any.
Proof.
  intros Hask Happly. unfold confirmed. destruct dryRun; [by apply follows_ret|]. destruct confirm; [apply Happly; [done|done|by left]|].
  eapply follows_bind; [apply Hask|]. intros ok h' Hh Hok. cbv beta in Hok. destruct ok; [|by apply follows_ret].
  apply Happly; [done|done|]. right. by apply Hok.
Qed.

Lemma does_write_each {A} h (write : A -> Cli unit) l : (forall a, a ∈ l -> does h (write a) any) -> does h (write_each write l) any.
Proof.
  intros H. eapply follows_bind.
  - apply follows_loop. intros acc a Ha. eapply follows_bind; [by eapply follows_try, H|]. intros err h' _ _. by apply follows_ret.
  - intros [e|] h' _ _; [apply follows_raise|by apply follows_ret].
Qed.

End Command.

(* ------------------------------------------------------------------ *)
(** ** What is read before *)

Lemma reads_groups : steps (emits (fun e => is_write e = false)) (EnsureNodeWrightServed k).
Proof.
  unfold EnsureNodeWrightServed, server_groups. apply steps_bind; [apply _|by apply emits_call|].
  intros d. destruct (dg_err d) as [[]|]; auto 12 with steps.
Qed.

Lemma reads_deployments ns selector : steps (emits (fun e => is_write e = false)) (list_deployments k ns selector).
Proof. by apply emits_call. Qed.
#[local] Hint Resolve reads_deployments : steps.

Lemma reads_ResolveNamespace : steps (emits (fun e => is_write e = false)) (ResolveNamespace k f).
Proof. unfold ResolveNamespace, ResolveOperatorNamespace, hasOperatorDeployment, deployments_or_none. auto 20 with steps. Qed.

Lemma reads_operator_version namespace nw : steps (emits (fun e => is_write e = false)) namespace ->
  steps (emits (fun e => is_write e = false)) (operator_version k namespace nw).
Proof. intros Hn. unfold operator_version, DiscoverOperatorVersion. auto 20 with steps. Qed.

Lemma reads_CheckNodeStateOperatorVersion namespace nw :
  steps (emits (fun e => is_write e = false)) (CheckNodeStateOperatorVersion k namespace nw).
Proof.
  unfold CheckNodeStateOperatorVersion. apply steps_bind; [apply _|apply reads_operator_version; auto with steps|]. auto with steps.
Qed.

(** The states that a command reads from the nodes it lists. *)
Lemma states_of_lookup key nodes n :
  match (states_of key nodes).1 !! n with
  | Some ns => holds_state nodes key n ns
  | None => holds_none nodes key n
  end.
Proof.
  induction nodes as [|node nodes IH] using rev_ind; [cbn; rewrite lookup_empty; by intros ? ?%not_elem_of_nil|].
  unfold states_of in *. rewrite fold_left_app. cbn [fold_left].
  destruct (fold_left _ nodes (∅, [])) as [result errs] eqn:E; cbn [fst] in *.
  assert (Hkeep : decoded key node = None -> match result !! n with
    | Some ns => holds_state (nodes ++ [node]) key n ns | None => holds_none (nodes ++ [node]) key n end).
  { intros Hd. destruct (result !! n) as [ns|].
    - destruct IH as (m & ? & ?). exists m. split; [set_solver|done].
    - intros m Hm Hn. apply elem_of_app in Hm as [Hm|Hm%list_elem_of_singleton]; [by apply IH|by subst m]. }
  unfold decoded in Hkeep. destruct (n_Annotations node !! key) as [raw|] eqn:Er; [|by apply Hkeep].
  destruct (json_Unmarshal raw) as [o|e|] eqn:Eu; [|by apply Hkeep..]. cbn [fst].
  destruct (decide (n = n_Name node)) as [->|Hne].
  - rewrite lookup_insert_eq. exists node. split; [set_solver|]. split; [done|]. unfold decoded. by rewrite Er, Eu.
  - rewrite lookup_insert_ne by done. destruct (result !! n) as [ns|].
    + destruct IH as (m & ? & ?). exists m. split; [set_solver|done].
    + intros m Hm Hn. apply elem_of_app in Hm as [Hm|Hm%list_elem_of_singleton]; [by apply IH|by subst m].
Qed.

(* ------------------------------------------------------------------ *)
(** ** The commands *)

#[local] Set Default Proof Using "Type".
Notation any := (fun _ _ => True).

Lemma matched_listed patterns names l n : MatchNodes patterns names = Ok l -> n ∈ l -> matches patterns names n.
Proof. intros H Hn. by exists l. Qed.

Lemma state_patch_nonempty name ns key (st : PackageStatus) : ns !! key = Some st ->
  state_patch name ns = metadata_patch "annotations" (nodeStateAnnotationPrefix +:+ name) (JString (json_Marshal ns)).
Proof. intros H. unfold state_patch. rewrite bool_decide_eq_false_2; [done|]. intros ->. by rewrite lookup_empty in H. Qed.

(** The states are those of a list of nodes that was read. *)
Lemma does_states c h name sel : follows (may_call c) h (wrap "listing nodes: %w" [] (ListNodesWithSkyhookState k name sel))
  (fun r h' => Listed h' (fun nodes => r = states_of (node_key "nodeState" name) nodes)).
Proof.
  apply follows_wrap. eapply follows_bind; [apply does_list|]. intros nodes h' _ (h1 & h2 & -> & Hl). apply follows_ret.
  exists sel, h1, h2. split; [done|]. by exists nodes.
Qed.

Lemma Listed_states h key nodeStates errs n : Listed h (fun nodes => (nodeStates, errs) = states_of key nodes) ->
  match nodeStates !! n with
  | Some ns => Listed h (fun nodes => holds_state nodes key n ns)
  | None => Listed h (fun nodes => holds_none nodes key n)
  end.
Proof.
  intros H. destruct (nodeStates !! n) as [ns|] eqn:E; eapply Listed_weaken; [|exact H| |exact H]; intros nodes Hs;
    pose proof (states_of_lookup key nodes n) as Hl; rewrite <- Hs in Hl; cbn [fst] in Hl; by rewrite E in Hl.
Qed.

Lemma does_GetSkyhook' c h name : follows (may_call c) h (GetSkyhook k name) (fun nw h' => forall P : NodeWright -> Prop, P nw -> ReadResource h' name P).
Proof.
  eapply follows_post; [apply does_GetSkyhook|]. intros nw h' (h1 & h2 & -> & Hn) P HP. exists h1, h2. split; [done|]. by exists nw.
Qed.

Lemma valid_args stage state opts st sta : validateUpdateStateArgs stage state opts = Ok (st, sta) ->
  stage_string st = stage /\ state_string sta = state.
Proof.
  unfold validateUpdateStateArgs. destruct (known stage_string Stages stage) as [st'|] eqn:Est; [|done].
  destruct (known state_string States state) as [sta'|] eqn:Esta; [|done]. case_if; [done|]. intros [= <- <-].
  apply find_some in Est as [_ Est], Esta as [_ Esta]. by apply bool_decide_eq_true in Est, Esta.
Qed.

(** A target of [update-state] is a node with the one entry that is set. *)
Lemma target_writes name package version stage state opts h nodeStates errs pkg st sta n' n raw :
  let c := UpdateState name package version stage state opts in
  Listed h (fun nodes => (nodeStates, errs) = states_of (node_key "nodeState" name) nodes) ->
  ReadResource h name (fun nw => sp_Packages (Spec nw) !! package = Some pkg) -> pkg_Version pkg = version ->
  stage_string st = stage -> state_string sta = state ->
  (us_add opts = true -> Listed h (fun nodes => n' ∈ map n_Name nodes)) ->
  buildUpdateStateTarget nodeStates pkg st sta (us_add opts) n' = Some (n, raw) ->
  write_of c h (PatchNode n (metadata_patch "annotations" (nodeStateAnnotationPrefix +:+ name) (JString raw))).
Proof.
  intros c Hlist Hres Hv Hst Hsta Hadd Hb. pose proof (Listed_states _ _ _ _ n' Hlist) as Hlook.
  unfold buildUpdateStateTarget in Hb. set (ns0 := default ∅ (nodeStates !! n')) in *.
  destruct (us_add opts) eqn:Eadd; destruct (ns0 !! pkg_UniqueName pkg) as [old|] eqn:Eold; try done; injection Hb as <- <-.
  - exists ns0, pkg, (new_entry pkg st sta). do 2 (split; [done|]).
    split; [erewrite state_patch_nonempty; [done|apply lookup_insert_eq]|]. do 2 (split; [done|]). rewrite Eadd.
    split; [done|]. split; [by apply Hadd|]. unfold ns0. destruct (nodeStates !! n') as [x|]; [by left|by right].
  - exists ns0, pkg, (set_stage_state st sta old). do 2 (split; [done|]).
    split; [erewrite state_patch_nonempty; [done|apply lookup_insert_eq]|]. do 2 (split; [done|]). rewrite Eadd.
    split; [|by exists old]. unfold ns0 in *. destruct (nodeStates !! n') as [x|]; [done|]. by cbn in Eold; rewrite lookup_empty in Eold.
Qed.

Lemma does_enumerateAddNodes c h opts :
  follows (may_call c) h (enumerateAddNodes k opts) (fun names h' => forall n, n ∈ names -> Listed h' (fun nodes => n ∈ map n_Name nodes)).
Proof.
  unfold enumerateAddNodes. eapply follows_bind; [apply does_list|]. intros nodes h' _ (h1 & h2 & -> & Hl). apply follows_ret.
  intros n Hn. exists (us_selector opts), h1, h2. split; [done|]. exists nodes. split; [done|]. destruct (us_nodes opts) as [|x xs]; [done|].
  apply list_elem_of_In, filter_In in Hn as [_ Hn]. by apply bool_decide_eq_true in Hn.
Qed.

Lemma update_writes name package version stage state opts h :
  let c := UpdateState name package version stage state opts in
  follows (may_call c) h (runUpdateState k f name package version stage state opts) any.
Proof.
  intros c. eapply follows_bind; [by apply (follows_lift _ _ _ (fun r _ => validateUpdateStateArgs stage state opts = Ok r))|].
  intros [st sta] h1 _ Hargs. apply valid_args in Hargs as [Hst Hsta]. eapply follows_bind; [apply follows_wrap, does_GetSkyhook'|].
  intros nw h2 _ Hnw. eapply follows_bind; [apply reads_only, reads_ResolveNamespace|]. intros ns h3 H23 _.
  eapply follows_bind; [apply reads_only, reads_CheckNodeStateOperatorVersion|]. intros _ h4 H34 _.
  destruct (sp_Packages (Spec nw) !! package) as [pkg|] eqn:Epkg; [|apply follows_raise].
  case_bool_decide as Hv; cbn [negb]; [|apply follows_raise].
  eapply follows_bind; [apply does_states|]. intros [nodeStates errs] h5 H45 Hstates.
  eapply (follows_bind _ _ _ _ (fun names h' => us_add opts = true -> forall n, n ∈ names -> Listed h' (fun nodes => n ∈ map n_Name nodes))).
  { destruct (us_add opts); [|by apply follows_ret]. by eapply follows_post; [apply does_enumerateAddNodes|]. }
  intros ordered h6 H56 Hordered. case_bool_decide; [by apply follows_ret|].
  apply does_confirmed; [intros; apply does_ConfirmYN|]. intros h7 H67 Hdry Hagreed.
  apply does_write_each. intros [n raw] (n' & Hn' & Hb)%list_elem_of_omap. rewrite elem_of_sort_strings in Hn'.
  apply follows_wrap, does_send. intros _. split; [done|]. split; [done|].
  eapply target_writes; [| |exact Hv|exact Hst|exact Hsta| |exact Hb].
  - eapply Listed_prefix; [|exact Hstates]. by etrans.
  - eapply ReadResource_prefix; [|by apply Hnw]. by repeat (etrans; [eassumption|]).
  - intros Ha. eapply Listed_prefix; [|by apply Hordered]. done.
Qed.

(** The writes of the loops that go on after an error. *)
Lemma does_collect {A B} c h (write : A -> Cli unit) (g : B -> A -> option error -> B) acc (l : list A) :
  (forall a, a ∈ l -> follows (may_call c) h (write a) any) ->
  follows (may_call c) h (loop (fun acc a => let* err := try (write a) in ret (g acc a err)) acc l) any.
Proof.
  intros H. apply follows_loop. intros acc' a Ha. eapply follows_bind; [by eapply follows_try, H|]. intros err h' _ _. by apply follows_ret.
Qed.

Lemma does_remove_annotation c h n key : may_call c h (PatchNode n (metadata_patch "annotations" key JNull)) ->
  follows (may_call c) h (RemoveNodeAnnotation k n key) any.
Proof. intros H. by apply follows_wrap, does_send. Qed.

Lemma does_remove_label c h n key : may_call c h (PatchNode n (metadata_patch "labels" key JNull)) ->
  follows (may_call c) h (RemoveNodeLabel k n key) any.
Proof. intros H. by apply follows_wrap, does_send. Qed.

Lemma does_resetNodeAnnotations c h names name :
  (forall n p, n ∈ names -> removes_metadata name p -> may_call c h (PatchNode n p)) ->
  follows (may_call c) h (resetNodeAnnotations k names name) any.
Proof.
  intros H. apply follows_loop. intros errs n Hn. assert (Hm : forall h' p, h `prefix_of` h' -> removes_metadata name p -> may_call c h' (PatchNode n p)).
  { intros h' p Hh Hp. eapply may_call_prefix; [exact Hh|]. by apply H. }
  eapply follows_bind.
  { eapply follows_try, does_remove_annotation, Hm; [done|]. left. eexists. split; [|done]. by left. }
  intros [e|] h1 H1 _; [by apply follows_ret|]. eapply follows_bind.
  { apply follows_loop. intros _ key Hkey. case_bool_decide; [by apply follows_ret|].
    eapply follows_try, does_remove_annotation, Hm; [done|]. left. by exists key. }
  intros _ h2 H2 _. eapply follows_bind; [|intros; by apply follows_ret].
  apply follows_loop. intros _ key Hkey. eapply follows_try, does_remove_label, Hm; [by etrans|]. right. by exists key.
Qed.

Lemma does_resetBatchState c h name : (forall h' p, h `prefix_of` h' -> may_call c h' (PatchNodeWrightStatus name p)) ->
  follows (may_call c) h (resetBatchStateForReset k name) any.
Proof.
  intros H. unfold resetBatchStateForReset.
  assert (Hraw : forall h', h `prefix_of` h' -> follows (may_call c) h' (let* _ := try (PatchSkyhookStatusRaw k name clear_node_order) in ret tt) any).
  { intros h' Hh. eapply follows_bind; [eapply follows_try, follows_wrap, does_send; by apply H|]. intros. by apply follows_ret. }
  eapply follows_bind; [apply follows_attempt, does_GetSkyhook|]. intros [nw|e] h1 H1 _; [|by apply follows_ret].
  cbv zeta. case_bool_decide; [by apply Hraw|].
  eapply follows_bind; [eapply follows_try, follows_wrap, does_send; by apply H|]. intros [e|] h2 H2 _; [by apply follows_ret|].
  apply Hraw. by etrans.
Qed.

Lemma package_reset_writes name opts h nodeStates errs : ro_pkg opts <> "" ->
  Listed h (fun nodes => (nodeStates, errs) = states_of (node_key "nodeState" name) nodes) ->
  follows (may_call (ResetNodes name opts)) h (runPackageReset k f name nodeStates opts) any.
Proof.
  intros Hpkg Hlist. eapply follows_bind; [by apply (follows_lift _ _ _ (fun r _ => splitPackageRef (ro_pkg opts) = Ok r))|].
  intros [package version] h1 H1 Hsplit. cbv beta in Hsplit. eapply follows_bind; [apply follows_wrap, does_GetSkyhook|].
  intros nw h2 H2 _. eapply follows_bind; [apply reads_only, reads_ResolveNamespace|]. intros ns h3 H3 _.
  eapply follows_bind; [apply reads_only, reads_CheckNodeStateOperatorVersion|]. intros _ h4 H4 _.
  cbv zeta. case_bool_decide; [by apply follows_ret|]. apply does_confirmed; [intros; apply does_ConfirmYN|].
  intros h5 H5 Hdry Hagreed. apply does_write_each. intros [n remaining] (n' & Hn' & Hb)%list_elem_of_omap.
  destruct (existsb _ _) eqn:Ex; [|done]. injection Hb as <- <-. set (ns0 := default ∅ (nodeStates !! n')) in *.
  assert (may_call (ResetNodes name opts) h5 (PatchNode n' (state_patch name (filter (fun kv => unreferenced package version kv.2 = true) ns0)))) as Hmay.
  { intros _. split; [done|]. split; [done|]. cbn [write_of]. rewrite bool_decide_eq_false_2 by done. exists ns0, package, version. split; [done|].
    apply existsb_exists in Ex as ([u st] & Hu & Hne). apply list_elem_of_In, elem_of_map_to_list in Hu. apply negb_true_iff in Hne.
    pose proof (Listed_states _ _ _ _ n' Hlist) as Hlook. unfold ns0 in *. destruct (nodeStates !! n') as [x|]; [|by cbn in Hu; rewrite lookup_empty in Hu].
    split; [eapply Listed_prefix; [|exact Hlook]; by repeat (etrans; [eassumption|])|]. split; [|done]. by exists u, st. }
  unfold state_patch in Hmay. case_bool_decide; by apply follows_wrap, does_send.
Qed.

Lemma reset_writes name opts h : follows (may_call (ResetNodes name opts)) h (runReset k f name opts) any.
Proof.
  unfold runReset. case_bool_decide as Hpkg; cbn [negb].
  - eapply follows_bind; [apply does_list|]. intros nodes h1 H1 Hl. cbv beta in Hl. cbv zeta. case_bool_decide; [by apply follows_ret|].
    apply does_confirmed; [intros; apply does_ConfirmYN|]. intros h2 H2 Hdry Hagreed.
    eapply follows_bind.
    + apply does_resetNodeAnnotations. intros n p Hn Hp _. split; [done|]. split; [done|]. cbn [write_of]. rewrite bool_decide_eq_true_2 by done.
      split; [done|]. rewrite elem_of_sort_strings in Hn. apply list_elem_of_fmap in Hn as (node & -> & Hn).
      apply list_elem_of_In, filter_In in Hn as [Hn Hm]. eapply Listed_prefix; [exact H2|]. destruct Hl as (g1 & g2 & -> & Hl).
      exists "", g1, g2. split; [done|]. exists nodes. split; [done|]. exists node. by rewrite list_elem_of_In.
    + intros _ h3 H3 _. destruct (ro_skipBatchReset opts) eqn:Eskip; [by apply follows_ret|]. apply does_resetBatchState.
      intros h4 p H4 _. split; [done|]. split; [|done]. eapply agreed_prefix; [|exact Hagreed]. by etrans.
  - eapply follows_bind; [apply does_states|]. intros [nodeStates errs] h1 H1 Hs. by eapply package_reset_writes.
Qed.

Lemma by_name_spec nodes n node : by_name nodes !! n = Some node -> node ∈ nodes /\ n_Name node = n.
Proof.
  unfold by_name. induction nodes as [|m nodes IH] using rev_ind; [cbn; by rewrite lookup_empty|]. rewrite fold_left_app. cbn [fold_left].
  rewrite lookup_insert_Some. intros [[<- ->]|[_ H]]; [set_solver|]. destruct (IH H). set_solver.
Qed.

(** The nodes that the patterns match, after the list they are matched in. *)
Lemma does_match c h patterns nodes (P : list Node -> Prop) : P nodes ->
  Saw h (ListNodes "") (fun h1 => k_nodes k h1 "" = Ok nodes) ->
  follows (may_call c) h (lift (rwrap "matching nodes: %w" [] (MatchNodes patterns (map n_Name nodes))))
    (fun l h' => forall n, n ∈ l -> Listed h' (fun nodes' => matches patterns (map n_Name nodes') n /\ nodes' = nodes)).
Proof.
  intros HP (h1 & h2 & -> & Hl). apply follows_lift. intros l Hm%rwrap_ok n Hn. exists "", h1, h2. split; [done|]. exists nodes.
  split; [done|]. split; [|done]. by exists l.
Qed.

Lemma does_reset_node c h name n : (forall p, removes_metadata name p -> may_call c h (PatchNode n p)) ->
  follows (may_call c) h (reset_node k name n) any.
Proof.
  intros H. eapply follows_bind.
  { apply follows_loop. intros _ key Hkey. apply does_remove_annotation, H. left. by exists key. }
  intros _ h1 H1 _. eapply follows_bind; [|intros; by apply follows_ret]. apply follows_loop. intros _ key Hkey.
  eapply follows_try, does_remove_label, may_call_prefix; [exact H1|]. apply H. right. by exists key.
Qed.

Lemma node_reset_writes patterns opts h : follows (may_call (NodeReset patterns opts)) h (runNodeReset k f patterns opts) any.
Proof.
  eapply follows_bind; [apply does_list|]. intros nodes h1 H1 Hl. cbv beta in Hl. eapply follows_bind; [by apply (does_match _ _ _ _ (fun _ => True))|].
  intros matched h2 H2 Hm. cbv beta in Hm. cbv zeta. case_bool_decide; [by apply follows_ret|].
  apply does_confirmed; [intros; apply does_promptConfirmation|]. intros h3 H3 Hdry Hagreed.
  eapply follows_bind; [|intros; by apply follows_ret].
  apply (does_collect _ _ _ (fun acc n err => match err with Some e => acc ++ [(n, e)] | None => acc end)). intros n Hn. apply does_reset_node.
  intros p Hp _. split; [done|]. split; [done|]. split; [done|]. apply list_elem_of_In, filter_In in Hn as [Hn Hr].
  apply list_elem_of_In in Hn. eapply Listed_prefix; [exact H3|]. eapply Listed_weaken; [|by apply Hm]. intros nodes' [Hmatch ->]. split; [done|].
  destruct (by_name nodes !! n) as [node|] eqn:En; [|done]. apply by_name_spec in En as [??]. by exists node.
Qed.

Lemma collect_names key nodes n : n ∈ map n_Name (List.filter (fun node => match n_Annotations node !! key with Some raw => negb (is_err (json_Unmarshal raw)) | None => false end) nodes) ->
  n ∈ map n_Name nodes.
Proof.
  intros (node & -> & Hn)%list_elem_of_fmap. apply list_elem_of_fmap. exists node. split; [done|].
  apply list_elem_of_In in Hn. apply filter_In in Hn as [Hn _]. by apply list_elem_of_In.
Qed.

Lemma rerun_writes package opts h : follows (may_call (PackageRerun package opts)) h (rerunPackage k f package opts) any.
Proof.
  eapply follows_bind; [apply does_GetSkyhook'|]. intros nw h1 H1 Hnw. cbv beta in Hnw.
  destruct (sp_Packages (Spec nw) !! package) as [pkg|] eqn:Epkg; [|apply follows_raise]. cbv zeta.
  set (key := node_key "nodeState" (rr_skyhookName opts)).
  eapply (follows_bind _ _ _ _ (fun r h' => Listed h' (fun nodes => r.1 = (states_of key nodes).1 /\ forall n, n ∈ r.2 -> n ∈ map n_Name nodes))).
  { eapply follows_bind; [apply does_list|]. intros nodes h' _ (g1 & g2 & -> & Hl). apply follows_ret. exists "", g1, g2. split; [done|].
    exists nodes. split; [done|]. split; [done|]. apply collect_names. }
  intros [nodeStates allNodes] h2 H2 Hstates. cbv beta in Hstates. cbn [fst snd] in Hstates.
  eapply follows_bind; [by apply (follows_lift _ _ _ (fun l _ => rwrap "matching nodes: %w" [] (MatchNodes (rr_nodes opts) allNodes) = Ok l))|].
  intros matched h3 H3 Hm%rwrap_ok. case_bool_decide; [by apply follows_ret|].
  apply does_confirmed; [intros; apply does_promptConfirmation|]. intros h4 H4 Hdry Hagreed.
  eapply follows_bind; [|intros; by apply follows_ret].
  apply (does_collect _ _ (fun n => applyNodeStateUpdate k n (rerun_state (pkg_UniqueName pkg) (rr_stage opts) (default ∅ (nodeStates !! n))) key)
    (fun acc n err => match err with Some e => acc ++ [(n, e)] | None => acc end)).
  intros n Hn. apply list_elem_of_In, filter_In in Hn as [Hn Hp]. apply list_elem_of_In in Hn.
  destruct (nodeStates !! n) as [ns|] eqn:En; [|done]. cbn [mbind option_bind default] in *.
  assert (may_call (PackageRerun package opts) h4 (PatchNode n (state_patch (rr_skyhookName opts) (rerun_state (pkg_UniqueName pkg) (rr_stage opts) ns)))) as Hmay.
  { intros _. split; [done|]. split; [done|]. assert (Hin : h2 `prefix_of` h4) by by etrans.
    exists ns, pkg. split; [eapply ReadResource_prefix; [|by apply Hnw]; by etrans; [exact H2|]|].
    split; [|split; [exists allNodes|]].
    - eapply Listed_prefix; [exact Hin|]. eapply Listed_weaken; [|exact Hstates]. intros nodes [E _].
      pose proof (states_of_lookup key nodes n) as Hs. by rewrite <- E, En in Hs.
    - eapply Listed_prefix; [exact Hin|]. eapply Listed_weaken; [|exact Hstates]. intros nodes [_ Hall]. split; [by exists matched|done].
    - split; [|done]. destruct (ns !! pkg_UniqueName pkg); done. }
  unfold applyNodeStateUpdate, id. unfold state_patch in Hmay. case_bool_decide; by apply follows_wrap, does_send.
Qed.

Lemma ignore_writes patterns ignore h : follows (may_call (NodeIgnore patterns ignore)) h (runIgnore k f patterns ignore) any.
Proof.
  eapply follows_bind; [apply does_list|]. intros nodes h1 H1 Hl. cbv beta in Hl. eapply follows_bind; [by apply (does_match _ _ _ _ (fun _ => True))|].
  intros matched h2 H2 Hm. cbv beta in Hm. destruct (bool_decide (matched = []) || gf_DryRun f) eqn:Edry; [by apply follows_ret|].
  apply orb_false_iff in Edry as [_ Hdry]. eapply follows_bind; [|intros; by apply follows_ret]. apply follows_loop. intros errs n Hn.
  cbv zeta. case_if; [by apply follows_ret|].
  eapply follows_bind; [|intros; by apply follows_ret]. eapply follows_try.
  assert (Hmay : may_call (NodeIgnore patterns ignore) h2 (PatchNode n (metadata_patch "labels" NodeIgnoreLabel (if ignore then JString labelValueTrue else JNull)))).
  { intros _. split; [done|]. split; [by left|]. split; [done|]. eapply Listed_weaken; [|by apply Hm]. by intros nodes' [? _]. }
  destruct ignore; by apply follows_wrap, does_send.
Qed.

Lemma lifecycle_writes cfg name confirm h : follows (may_call (Lifecycle cfg name confirm)) h (lifecycle k f cfg name confirm) any.
Proof.
  apply does_confirmed; [intros; apply does_lifecycle_asks|]. intros h1 H1 _ Hagreed.
  eapply follows_bind; [apply reads_only, reads_groups|]. intros _ h2 H2 _. destruct (gf_DryRun f) eqn:Hdry; [by apply follows_ret|].
  eapply follows_bind; [apply does_GetSkyhook|]. intros nw h3 H3 _.
  eapply follows_bind; [apply reads_only, reads_operator_version, reads_ResolveNamespace|]. intros v h4 H4 _.
  case_if; [case_bool_decide; apply follows_raise|].
  assert (Hmay : may_call (Lifecycle cfg name confirm) h4 (PatchNodeWright name (metadata_patch "annotations" (lc_annotation cfg) (if lc_set cfg then JString "true" else JNull)))).
  { intros _. split; [done|]. split; [|done]. eapply agreed_prefix; [|exact Hagreed]. by repeat (etrans; [eassumption|]). }
  destruct (lc_set cfg); by apply follows_wrap, does_send.
Qed.

Lemma policy_reset_writes name confirm h : follows (may_call (DeploymentPolicyReset name confirm)) h (runDeploymentPolicyReset k f name confirm) any.
Proof.
  eapply follows_bind; [apply follows_wrap, does_GetSkyhook|]. intros nw h1 H1 _. case_bool_decide; [by apply follows_ret|].
  apply does_confirmed; [intros; apply does_promptConfirmation|]. intros h2 H2 Hdry Hagreed. apply follows_wrap, follows_wrap, does_send.
  by intros _.
Qed.

(** C24: The command line plugin writes what it is asked to, and only that.
    Whatever the cluster answers, a command writes nothing in a dry run and
    nothing before the user has agreed, on the command line or at the terminal.
    What it writes then is what the command names: [update-state] and [package
    rerun] the entry of one package of the resource in the state that a node was
    listed with, [reset] of a package the entries of that package, the other resets
    the keys of the resource on nodes that have some, [ignore] one label of nodes
    that the patterns match, [pause] and the like one annotation of one
    resource. *)
Theorem commands_write_as_told c s : exists t, trace (execute k f c s).1 = trace s ++ t /\
  forall t1 e t2, t = t1 ++ e :: t2 -> is_write e = true ->
    gf_DryRun f = false /\ agreed (confirms c) (trace s ++ t1) /\ write_of c (trace s ++ t1) e.
Proof.
  assert (Hs : forall run h, (forall h, follows (may_call c) h run any) -> follows (may_call c) h (served k run) any).
  { intros run h H. eapply follows_bind; [apply reads_only, reads_groups|]. intros. apply H. }
  apply (follows_done (may_call c) (trace s) (execute k f c) any); [|done]. destruct c; cbn [execute].
  - apply Hs. intros. apply update_writes.
  - apply Hs. intros. apply reset_writes.
  - case_bool_decide; [apply follows_raise|]. apply Hs. intros. apply node_reset_writes.
  - eapply follows_bind; [by apply (follows_lift _ _ _ any)|]. intros _ h _ _. apply Hs. intros. apply rerun_writes.
  - apply Hs. intros. apply ignore_writes.
  - apply lifecycle_writes.
  - apply Hs. intros. apply policy_reset_writes.
Qed.

End Writes.
