(* ===== verification/CliReset.v ===== *)
(** * What a reset by the command line plugin amounts to

    [deployment-policy reset] patches the status of a resource, [node reset] the
    metadata of nodes.  What the API server makes of a patch is the interface
    [MergePatch], whose laws are those of RFC 7386. *)

From S2P Require Import Prelude Encoding Effects Graph Paths Json DeploymentPolicy Api NodeState Skyhook Text Node Migration RuntimeRequired Cli CliEdit.

#[local] Open Scope Z_scope.
#[local] Open Scope go_scope.

(* ------------------------------------------------------------------ *)
(** ** Merge patches *)

Fixpoint assoc (m : list (string * json)) (key : string) : option json :=
  match m with
  | [] => None
  | (key', v) :: m => if bool_decide (key' = key) then Some v else assoc m key
  end.

(** A member of a document that may not be an object. *)
Definition get (j : json) (key : string) : option json := match j with JObject m => assoc m key | _ => None end.

Definition get_path (path : list string) (j : json) : option json :=
  fold_left (fun o key => match o with Some j => get j key | None => None end) path (Some j).

Class MergePatch := {
  merge_patch : json -> json -> json;
  merge_patch_value : forall target p, (forall m, p <> JObject m) -> merge_patch target p = p;
  merge_patch_member : forall target m key, NoDup m.*1 ->
    get (merge_patch target (JObject m)) key =
    match assoc m key with
    | None => get target key
    | Some JNull => None
    | Some p => Some (merge_patch (default JNull (get target key)) p)
    end
}.

Lemma assoc_app m m' key : assoc (m ++ m') key = match assoc m key with Some v => Some v | None => assoc m' key end.
Proof. induction m as [|[key' v] m IH]; [done|]. simpl. by case_bool_decide. Qed.

Lemma assoc_member_if b name v key :
  assoc (member_if b name v) key = if b && bool_decide (name = key) then Some v else None.
Proof. by destruct b. Qed.

Lemma assoc_e_map {A} (enc : A -> json) (m : gmap string A) key : assoc (map (fun k => (k, default JNull (enc <$> m !! k))) (sort_strings (map_to_list m).*1)) key =
  enc <$> m !! key.
Proof.
  assert (H : forall l, assoc (map (fun k => (k, default JNull (enc <$> m !! k))) l) key =
    if bool_decide (key ∈ l) then Some (default JNull (enc <$> m !! key)) else None).
  { induction l as [|x l IH]; [done|]. cbn [map assoc]. rewrite IH. destruct (decide (x = key)) as [->|Hne].
    - by rewrite bool_decide_eq_true_2, (bool_decide_eq_true_2 (key ∈ key :: l)) by (done || left).
    - rewrite (bool_decide_eq_false_2 (x = key)) by done. rewrite (bool_decide_ext (key ∈ x :: l) (key ∈ l)); [done|]. rewrite elem_of_cons. naive_solver. }
  rewrite H. case_bool_decide as Hk; rewrite elem_of_sort_strings, list_elem_of_fmap in Hk.
  - destruct Hk as ([k a] & -> & Hk%elem_of_map_to_list). simpl. by rewrite Hk.
  - destruct (m !! key) as [a|] eqn:E; [|done]. destruct Hk. exists (key, a). split; [done|]. by apply elem_of_map_to_list.
Qed.

Lemma e_map_keys {A} (enc : A -> json) (m : gmap string A) :
  NoDup (map (fun k => (k, default JNull (enc <$> m !! k))) (sort_strings (map_to_list m).*1)).*1.
Proof.
  rewrite <- list_fmap_compose. change (fmap _ ?l) with (map (fun k : string => k) l). rewrite map_id.
  rewrite sort_strings_Permutation. apply NoDup_fst_map_to_list.
Qed.

Lemma member_if_keys b name v : (member_if b name v).*1 `sublist_of` [name].
Proof. destruct b; simpl; [done|apply sublist_nil_l]. Qed.

Lemma sublist_keys (m m' : list (string * json)) l l' : m.*1 `sublist_of` l -> m'.*1 `sublist_of` l' -> (m ++ m').*1 `sublist_of` l ++ l'.
Proof. rewrite fmap_app. apply sublist_app. Qed.

(** Which members a document of the plugin may have. *)
Ltac members := unfold omit_int, omit_bool, omit_string, omit_map; repeat first [apply member_if_keys | eapply sublist_keys].
Ltac find_member := unfold omit_int, omit_bool, omit_string, omit_map; rewrite ?assoc_app, ?assoc_member_if, ?andb_false_r; simpl.

Ltac distinct := eapply sublist_NoDup; [|members]; apply (bool_decide_eq_true_1 (NoDup _)); vm_compute; reflexivity.

(* ------------------------------------------------------------------ *)
(** ** The batch state *)

(** A field of the batch state of a compartment, in the document of a resource. *)
Definition batch_field (doc : json) (compartment field : string) : option json :=
  get_path ["status"; "compartmentStatuses"; compartment; "batchState"; field] doc.

(** What [EvaluateBatchResult] counts and when it stops. *)
Definition progress_fields : list string :=
  ["consecutiveFailures"; "completedNodes"; "failedNodes"; "shouldStop"; "lastBatchSize"; "lastBatchFailed"].

Section Reset.
Context `{MR : MapRange} `{SV : Semver} `{JS : NodeStateJSON} `{TT : TimeText} `{RX : Regexp} `{MP : MergePatch}.
Context (k : cluster) (f : GlobalFlags).

Lemma fresh_batch_document : e_BatchProcessingState fresh_BatchState = JObject [("currentBatch", JNumber "1")].
Proof. reflexivity. Qed.

Lemma fresh_compartments nw : CompartmentStatuses (nw_Status nw) <> ∅ ->
  CompartmentStatuses (nw_Status (fst (ResetCompartmentBatchStates nw))) =
  set_cs_BatchState (Some fresh_BatchState) <$> CompartmentStatuses (nw_Status nw).
Proof. intros H. unfold ResetCompartmentBatchStates. by rewrite bool_decide_eq_false_2. Qed.

(** The members of a document that a patch has as an object are merged. *)
Lemma merge_member_object doc m key p : NoDup m.*1 -> assoc m key = Some (JObject p) ->
  get (merge_patch doc (JObject m)) key = Some (merge_patch (default JNull (get doc key)) (JObject p)).
Proof. intros Hm Hk. rewrite merge_patch_member by done. by rewrite Hk. Qed.

Lemma merge_member_absent doc m key : NoDup m.*1 -> assoc m key = None -> get (merge_patch doc (JObject m)) key = get doc key.
Proof. intros Hm Hk. rewrite merge_patch_member by done. by rewrite Hk. Qed.

Lemma get_path_cons key path j : get_path (key :: path) j = match get j key with Some j => get_path path j | None => None end.
Proof.
  unfold get_path. cbn [fold_left]. destruct (get j key); [done|]. induction path as [|x path IH]; [done|]. exact IH.
Qed.

Lemma get_default o key : get (default JNull o) key = match o with Some j => get j key | None => None end.
Proof. by destruct o. Qed.

Lemma one_key (key : string) (v : json) : NoDup [(key, v)].*1.
Proof. apply (NoDup_singleton key). Qed.

Lemma status_member s m : CompartmentStatuses s <> ∅ -> e_NodeWrightStatus s = JObject m ->
  NoDup m.*1 /\ assoc m "compartmentStatuses" = Some (e_map e_CompartmentStatus (CompartmentStatuses s)).
Proof.
  intros Hs [= <-]. split; [distinct|]. find_member. rewrite bool_decide_eq_false_2; [done|]. intros H. destruct Hs. by apply dom_empty_inv_L.
Qed.

Lemma compartment_member c m : e_CompartmentStatus (set_cs_BatchState (Some fresh_BatchState) c) = JObject m ->
  NoDup m.*1 /\ assoc m "batchState" = Some (JObject [("currentBatch", JNumber "1")]).
Proof. intros [= <-]. split; [apply (bool_decide_eq_true_1 (NoDup _)); by vm_compute|]. reflexivity. Qed.

(** What a patch with fresh batch states makes of a document. *)
Lemma merged_batch_field doc nw c field : is_Some (CompartmentStatuses (nw_Status nw) !! c) ->
  batch_field (merge_patch doc (JObject [("status", e_NodeWrightStatus (nw_Status (fst (ResetCompartmentBatchStates nw))))])) c field =
  if bool_decide (field = "currentBatch") then Some (JNumber "1") else batch_field doc c field.
Proof.
  intros [cs Hc]. assert (Hne : CompartmentStatuses (nw_Status nw) <> ∅) by (intros E; by rewrite E, lookup_empty in Hc).
  set (st := nw_Status (fst (ResetCompartmentBatchStates nw))).
  assert (Hst : CompartmentStatuses st = set_cs_BatchState (Some fresh_BatchState) <$> CompartmentStatuses (nw_Status nw)) by by apply fresh_compartments.
  destruct (e_NodeWrightStatus st) as [| | | | |m] eqn:Em; try done. apply status_member in Em as [Hm Hcs];
    [|rewrite Hst; intros E%fmap_empty_inv; done].
  unfold batch_field. rewrite get_path_cons, (merge_member_object _ _ _ m) by (done || apply one_key).
  rewrite get_path_cons. unfold e_map in Hcs. rewrite (merge_member_object _ _ _ _ Hm Hcs).
  destruct (e_CompartmentStatus (set_cs_BatchState (Some fresh_BatchState) cs)) as [| | | | |mc] eqn:Ec; try done.
  rewrite get_path_cons, (merge_member_object _ _ _ mc); [|apply e_map_keys|by rewrite assoc_e_map, Hst, lookup_fmap, Hc; cbn; rewrite Ec].
  apply compartment_member in Ec as [Hmc Hb]. rewrite get_path_cons, (merge_member_object _ _ _ _ Hmc Hb).
  rewrite get_path_cons, merge_patch_member by apply one_key. cbn [assoc].
  case_bool_decide as Hf; [subst field; rewrite bool_decide_eq_true_2 by done; by rewrite merge_patch_value|]. rewrite bool_decide_eq_false_2 by done.
  rewrite !get_default. unfold get_path. cbn [fold_left]. match goal with |- match ?o with _ => _ end = _ => by destruct o end.
Qed.

(** C23: [deployment-policy reset] does not reset.  The fresh batch state that it
    sends leaves out every field that is zero, and a merge patch leaves alone what
    it does not name: when the command has succeeded, the batch counter is one, and
    the failures, the counts and the decision to stop are those that the API
    server had. *)
Theorem batch_reset_keeps_the_stop name nw s :
  k_nodewright k (trace s) name = Ok nw -> CompartmentStatuses (nw_Status nw) <> ∅ -> gf_DryRun f = false ->
  (forall h e, k_patch k h e = None) ->
  exists p, runDeploymentPolicyReset k f name true s = (Pass (trace s ++ [GetNodeWright name; PatchNodeWrightStatus name p]) (mem s), Ok tt) /\
    forall doc c, is_Some (CompartmentStatuses (nw_Status nw) !! c) ->
      batch_field (merge_patch doc p) c "currentBatch" = Some (JNumber "1") /\
      forall field, field ∈ progress_fields -> batch_field (merge_patch doc p) c field = batch_field doc c field.
Proof.
  intros Hget Hne Hdry Hok. exists (JObject [("status", e_NodeWrightStatus (nw_Status (fst (ResetCompartmentBatchStates nw))))]). split.
  - unfold runDeploymentPolicyReset, GetSkyhook. erewrite bind_run; [|apply wrap_ok, wrap_ok; unfold call; by rewrite Hget].
    rewrite bool_decide_eq_false_2 by done. unfold confirmed. rewrite Hdry. apply wrap_ok, wrap_ok. unfold send, call. cbn [trace mem].
    by rewrite Hok, <- app_assoc.
  - intros doc c Hc. rewrite !merged_batch_field by done. split; [done|]. intros field Hf. rewrite merged_batch_field by done.
    rewrite bool_decide_eq_false_2; [done|]. intros ->. by apply (bool_decide_eq_true_2 _) in Hf.
Qed.

(** A loop whose every round succeeds. *)
Lemma loop_appends {A} (g : unit -> A -> Cli unit) (e : A -> cli_call) l s s' :
  (forall u a s s', g u a s = (s', Ok tt) -> trace s' = trace s ++ [e a]) ->
  loop g tt l s = (s', Ok tt) -> trace s' = trace s ++ map e l.
Proof.
  intros Hg. revert s; induction l as [|a l IH]; intros s; [intros [= <-]; by rewrite app_nil_r|].
  intros (s1 & [] & H1 & H2)%bind_ok. apply Hg in H1. apply IH in H2. by rewrite H2, H1, <- app_assoc.
Qed.

Lemma send_ok e s s' : send k e s = (s', Ok tt) -> trace s' = trace s ++ [e].
Proof. by intros (_ & ->)%call_ok. Qed.

Lemma try_send fmt args e s : trace (try (wrap fmt args (send k e)) s).1 = trace s ++ [e] /\ exists o, (try (wrap fmt args (send k e)) s).2 = Ok o.
Proof. unfold try, wrap, send, call. cbn. destruct (k_patch k (trace s) e); cbn; eauto. Qed.

(** What the operator removes when it resets a node, without its marks of
    automatic taints. *)
Definition operator_keys (name : string) : list string :=
  [cordonAnnotationKey name; node_key "drainStart" name; node_key "nodeState" name; node_key "status" name; node_key "version" name].

Lemma reset_keys name : resetAnnotationKeys name ≡ₚ (autoTaintAnnotationPrefix +:+ name) :: operator_keys name.
Proof.
  change (resetAnnotationKeys name) with [node_key "nodeState" name; node_key "status" name; cordonAnnotationKey name;
    node_key "drainStart" name; node_key "version" name; autoTaintAnnotationPrefix +:+ name]. unfold operator_keys. solve_Permutation.
Qed.

Lemma foldr_delete_lookup (keys : list string) (m : gmap string string) x :
  foldr delete m keys !! x = if bool_decide (x ∈ keys) then None else m !! x.
Proof.
  induction keys as [|key keys IH]; [done|]. cbn [foldr]. destruct (decide (x = key)) as [->|Hne].
  - by rewrite lookup_delete_eq, bool_decide_eq_true_2 by by left.
  - rewrite lookup_delete_ne, IH by done. by rewrite (bool_decide_ext (x ∈ key :: keys) (x ∈ keys)) by (rewrite elem_of_cons; naive_solver).
Qed.

Lemma Reset_annotations (g : SkyhookNode) x :
  n_Annotations (sn_Node (full_Only (Reset g))) !! x =
  if bool_decide (x ∈ operator_keys (sn_skyhookName (full_Only g))) then None else n_Annotations (sn_Node (full_Only g)) !! x.
Proof.
  set (n := full_Only g). change (n_Annotations (sn_Node (full_Only (Reset g)))) with
    (delete (versionKey n) (delete (statusKey n) (delete (nodeStateKey n) (delete (drainStartAnnotationKey n)
      (delete (cordonAnnotationKey (sn_skyhookName n)) (n_Annotations (sn_Node n))))))).
  change (delete ?a (delete ?b (delete ?c (delete ?d (delete ?e ?m))))) with (foldr delete m [a; b; c; d; e]).
  rewrite foldr_delete_lookup. rewrite (bool_decide_ext _ (x ∈ operator_keys (sn_skyhookName n))); [done|].
  unfold operator_keys, statusKey, nodeStateKey, versionKey, drainStartAnnotationKey. rewrite !elem_of_cons. tauto.
Qed.

(** C25: [node reset] makes a node as new as the operator's own reset does: when
    it meets no error it sends the removal of every annotation and label that
    the operator's [Reset] of the node removes, and of one key more that the
    operator never writes.  The operator names the mark of an automatic taint
    after the taint, so that mark stays. *)
Theorem node_reset_as_the_operator (g : SkyhookNode) s s' :
  let name := sn_skyhookName (full_Only g) in
  let node := sn_Node (full_Only g) in
  let left_annotations := foldr delete (n_Annotations node) (resetAnnotationKeys name) in
  reset_node k name (n_Name node) s = (s', Ok tt) ->
  trace s' = trace s ++ map (fun key => PatchNode (n_Name node) (metadata_patch "annotations" key JNull)) (resetAnnotationKeys name) ++
    map (fun key => PatchNode (n_Name node) (metadata_patch "labels" key JNull)) (resetLabelKeys name) /\
  left_annotations = delete (autoTaintAnnotationPrefix +:+ name) (n_Annotations (sn_Node (full_Only (Reset g)))) /\
  foldr delete (n_Labels node) (resetLabelKeys name) = n_Labels (sn_Node (full_Only (Reset g))) /\
  forall taint, taint_Key taint <> name -> left_annotations !! autoTaint_key taint = n_Annotations node !! autoTaint_key taint.
Proof.
  intros name node left_annotations Hrun. split; [|split; [|split]].
  - unfold reset_node in Hrun. apply bind_ok in Hrun as (s1 & [] & H1 & H2). eapply loop_appends in H1; [rewrite app_assoc, <- H1|].
    + cbn [resetLabelKeys loop map] in *. apply bind_ok in H2 as (s2 & o & H2 & [= <-]). apply bind_ok in H2 as (s3 & o' & H3 & [= <- _]).
      destruct (try_send "patching node %q: %w" [n_Name node] (PatchNode (n_Name node) (metadata_patch "labels" (statusLabelPrefix +:+ name) JNull)) s1) as [Ht _].
      unfold RemoveNodeLabel in H3. by rewrite H3 in Ht.
    + intros [] key t t' H%wrap_ok. by apply send_ok in H.
  - apply map_eq. intros x. unfold left_annotations.
    rewrite foldr_delete_lookup, (bool_decide_ext _ (x ∈ (autoTaintAnnotationPrefix +:+ name) :: operator_keys name)) by by rewrite reset_keys.
    destruct (decide (x = autoTaintAnnotationPrefix +:+ name)) as [->|Hx].
    + by rewrite lookup_delete_eq, bool_decide_eq_true_2 by by left.
    + rewrite lookup_delete_ne, Reset_annotations by done. fold name node.
      by rewrite (bool_decide_ext _ (x ∈ operator_keys name)) by (rewrite elem_of_cons; naive_solver).
  - reflexivity.
  - intros taint Hk. unfold left_annotations. rewrite foldr_delete_lookup, bool_decide_eq_false_2; [done|].
    rewrite reset_keys. unfold operator_keys. rewrite !elem_of_cons. intros [H|H].
    + apply Hk. apply (append_inj_l autoTaintAnnotationPrefix). rewrite <- H. reflexivity.
    + clear -H. repeat (destruct H as [H|H]; [discriminate H|]). by apply not_elem_of_nil in H.
Qed.

End Reset.

(* ------------------------------------------------------------------ *)
(** ** A merge patch, for the witness *)

Definition members (j : json) : list (string * json) := match j with JObject m => m | _ => [] end.

Definition drop_member (key : string) (m : list (string * json)) : list (string * json) :=
  List.filter (fun kv => negb (bool_decide (kv.1 = key))) m.

Definition put_member (key : string) (v : json) (m : list (string * json)) : list (string * json) := (key, v) :: drop_member key m.

(** The algorithm of RFC 7386. *)
Fixpoint rfc7386 (target p : json) : json :=
  match p with
  | JObject m => JObject ((fix go m acc := match m with
      | [] => acc
      | (key, v) :: m => go m (match v with
          | JNull => drop_member key acc
          | _ => put_member key (rfc7386 (default JNull (assoc acc key)) v) acc
          end)
      end) m (members target))
  | _ => p
  end.

Lemma assoc_drop key m key' : assoc (drop_member key m) key' = if bool_decide (key = key') then None else assoc m key'.
Proof.
  unfold drop_member. induction m as [|[x v] m IH]; [by case_bool_decide|]. cbn [List.filter fst assoc].
  destruct (decide (x = key)) as [->|Hx].
  - rewrite (bool_decide_eq_true_2 (key = key)) by done. cbn [negb]. rewrite IH. by repeat case_bool_decide.
  - rewrite (bool_decide_eq_false_2 (x = key)) by done. cbn [negb assoc]. rewrite IH. repeat case_bool_decide; congruence.
Qed.

Lemma assoc_put key v m key' : assoc (put_member key v m) key' = if bool_decide (key = key') then Some v else assoc m key'.
Proof. unfold put_member. cbn [assoc]. case_bool_decide; [done|]. by rewrite assoc_drop, bool_decide_eq_false_2. Qed.

Lemma assoc_not_in m key : key ∉ m.*1 -> assoc m key = None.
Proof. induction m as [|[x v] m IH]; [done|]. intros [? ?]%not_elem_of_cons. cbn [assoc]. rewrite bool_decide_eq_false_2 by done. by apply IH. Qed.

Lemma get_members target key : get target key = assoc (members target) key.
Proof. by destruct target. Qed.

Program Definition sample_MergePatch : MergePatch := {| merge_patch := rfc7386 |}.
Next Obligation. intros target p Hp. destruct p; try done. by destruct (Hp members0). Qed.
Next Obligation.
  intros target m key Hm. rewrite (get_members target). cbn [rfc7386 get]. generalize (members target) as acc. 
  induction m as [|[x v] m IH]; intros acc; [done|]. cbn [assoc]. apply NoDup_cons in Hm as [Hx Hm]. cbn [fst] in Hx.
  rewrite IH by done. destruct (decide (x = key)) as [->|Hne].
  - rewrite (bool_decide_eq_true_2 (key = key)) by done. rewrite assoc_not_in by done.
    destruct v; rewrite ?assoc_drop, ?assoc_put, bool_decide_eq_true_2; done.
  - rewrite (bool_decide_eq_false_2 (x = key)) by done.
    destruct v; rewrite ?assoc_drop, ?assoc_put, bool_decide_eq_false_2; done.
Qed.

(* ------------------------------------------------------------------ *)
(** ** Witnesses *)

#[local] Existing Instance example_json.
#[local] Existing Instance example_time.
#[local] Existing Instance sample_MergePatch.
#[local] Instance plain_names : Regexp := {| regexp_Compile _ := Err (errorf "no expressions" []) |}.
#[local] Instance no_versions : Semver := {| semver_IsValid _ := false; semver_Compare _ _ := 0; semver_MajorMinor v := v |}.

Definition stopped_batch : BatchProcessingState :=
  {| CurrentBatch := 4; ConsecutiveFailures := 3; CompletedNodes := 2; FailedNodes := 5; ShouldStop := true; LastBatchSize := 2; LastBatchFailed := true |}.

Definition stopped_status : NodeWrightStatus :=
  set_CompartmentStatuses {["gpu" := {| cs_Matched := 9; cs_Ceiling := 2; cs_InProgress := 0; cs_Completed := 2; cs_ProgressPercent := 22;
    cs_BatchState := Some stopped_batch |}]} empty_status.

Definition stopped : NodeWright := plain_nodewright "tuning" (plain_spec ∅) stopped_status.

(** A cluster with one resource, which takes every patch; the user says nothing. *)
Definition one_resource (nw : NodeWright) : cluster :=
  {| k_groups _ := {| dg_Groups := Some [nodewright_group]; dg_err := None |}; k_nodes _ _ := Ok []; k_deployments _ _ _ := Ok [];
     k_nodewright _ _ := Ok nw; k_patch _ _ := None; k_line _ := LastLine "" |}.

Definition default_flags : GlobalFlags :=
  {| gf_Namespace := None; gf_NamespaceChanged := false; gf_OutputFormat := "table"; gf_Verbose := false; gf_DryRun := false |}.

(** The document that the API server has. *)
Definition stored (nw : NodeWright) : json :=
  JObject [("metadata", JObject [("name", JString (nw_Name nw))]); ("status", e_NodeWrightStatus (nw_Status nw))].

Lemma batch_reset_keeps_the_stop_witness :
  exists p, (runDeploymentPolicyReset (one_resource stopped) default_flags "tuning" true (Pass [] None)).2 = Ok tt /\
    batch_field (merge_patch (stored stopped) p) "gpu" "currentBatch" = Some (JNumber "1") /\
    batch_field (merge_patch (stored stopped) p) "gpu" "shouldStop" = Some (JBool true).
Proof.
  destruct (batch_reset_keeps_the_stop (one_resource stopped) default_flags "tuning" stopped (Pass [] None)) as (p & Hrun & Hp);
    [reflexivity|vm_compute; discriminate|reflexivity|reflexivity|].
  destruct (Hp (stored stopped) "gpu") as [H1 H2]; [by eexists|]. exists p. rewrite Hrun. split; [done|]. split; [exact H1|].
  rewrite H2 by (unfold progress_fields; set_solver). vm_compute. reflexivity.
Defined.

(** A node with state, held by the resource, with the mark of a taint. *)
Definition held_node : SkyhookNode :=
  {| full_Only := NewSkyhookNodeOnly (set_n_Annotations
       (<[node_key "nodeState" "tuning" := "{}"]> (<[cordonAnnotationKey "tuning" := "true"]> {[node_key "autoTaint" "gate" := "true"]}))
       (bare_node "n1")) "tuning";
     full_skyhook := NewSkyhookWrapper stopped; full_graph := New |}.

Lemma node_reset_as_the_operator_witness :
  let s := (reset_node (one_resource stopped) "tuning" "n1" (Pass [] None)).1 in
  length (trace s) = 7%nat /\
  foldr delete (n_Annotations (sn_Node (full_Only held_node))) (resetAnnotationKeys "tuning") !! node_key "autoTaint" "gate" = Some "true".
Proof.
  destruct (node_reset_as_the_operator (one_resource stopped) held_node (Pass [] None)
    (reset_node (one_resource stopped) "tuning" "n1" (Pass [] None)).1) as (Ht & _ & _ & Hm); [vm_compute; reflexivity|].
  split; [cbv zeta; rewrite Ht; reflexivity|]. etrans; [apply (Hm {| taint_Key := "gate"; taint_Value := ""; taint_Effect := "NoSchedule" |}); discriminate|]. reflexivity.
Defined.

(** *** Runs *)

Definition driver_entry : PackageStatus :=
  {| ps_Name := "driver"; ps_Version := "1"; ps_Image := "img"; ps_ContainerSHA := ""; ps_Stage := StageConfig; ps_State := StateErroring; ps_Restarts := 3 |}.

Definition one_node (nw : NodeWright) (ns : NodeState) (l : line) : cluster :=
  {| k_groups _ := {| dg_Groups := Some [nodewright_group]; dg_err := None |};
     k_nodes _ _ := Ok [set_n_Annotations {[node_key "nodeState" "tuning" := json_Marshal ns]} (bare_node "n1")]; k_deployments _ _ _ := Ok [];
     k_nodewright _ _ := Ok nw; k_patch _ _ := None; k_line _ := l |}.

Definition driver_resource : NodeWright := plain_nodewright "tuning" (plain_spec {["driver" := plain_package "driver" "1" ∅]}) empty_status.

Definition run_on_node (c : command) (l : line) : list cli_call :=
  trace (execute (one_node driver_resource {["driver|1" := driver_entry]} l) default_flags c (Pass [] None)).1.

(** The entry is dropped, and with it the annotation; or set to the stage. *)
Example rerun_runs :
  let opts stage := {| rr_skyhookName := "tuning"; rr_nodes := ["n1"]; rr_stage := stage; rr_confirm := false |} in
  let asked := [ServerGroups; GetNodeWright "tuning"; ListNodes ""; ReadLine] in
  run_on_node (PackageRerun "driver" (opts "")) (Line " Yes") =
    asked ++ [PatchNode "n1" (metadata_patch "annotations" "nodewright.nvidia.com/nodeState_tuning" JNull)] /\
  run_on_node (PackageRerun "driver" (opts "apply")) (Line "y") =
    asked ++ [PatchNode "n1" (metadata_patch "annotations" "nodewright.nvidia.com/nodeState_tuning"
      (JString (json_Marshal {["driver|1" := set_stage_state StageApply StateInProgress driver_entry]})))] /\
  run_on_node (PackageRerun "driver" (opts "")) (LastLine "y") = asked /\
  run_on_node (PackageRerun "driver" (opts "upgrade")) (Line "y") = [].
Proof. vm_compute. done. Qed.

Example package_reset_runs :
  run_on_node (ResetNodes "tuning" {| ro_confirm := true; ro_skipBatchReset := false; ro_pkg := "driver:2" |}) (Line "") =
    [ServerGroups; ListNodes ""; GetNodeWright "tuning"; ListDeployments "nodewright" controllerManagerSelector;
     ListDeployments "skyhook" controllerManagerSelector; ListDeployments "" controllerManagerSelector; ListDeployments "nodewright" ""] /\
  last (run_on_node (ResetNodes "tuning" {| ro_confirm := true; ro_skipBatchReset := false; ro_pkg := "driver" |}) (Line "")) =
    Some (PatchNode "n1" (metadata_patch "annotations" "nodewright.nvidia.com/nodeState_tuning" JNull)).
Proof. vm_compute. done. Qed.

Example image_tags : map ExtractImageTag ["ghcr.io/nvidia/skyhook/operator:v1.2.3"; "ghcr.io/nvidia/skyhook/operator:v1.2.3@sha256:ab";
  "ghcr.io/nvidia/skyhook/operator"; "localhost:5000/operator"] = ["v1.2.3"; "v1.2.3"; ""; "5000/operator"].
Proof. reflexivity. Qed.
